(* ===== verification/_CoqProject ===== *)
-Q . S2P
Prelude.v
Geometry.v
Size.v
Tree.v
Distribute.v
Solver.v
Content.v
Neighbor.v
Regions.v
Normalize.v
Edit.v
Template.v
Placement.v
Destinations.v
Deltas.v
Resize.v
ResizeUnits.v
ResizeSearch.v
ResizeBorder.v
ResizeContract.v
DeltaConversion.v
Varint.v
Utf8.v
Style.v
Cell.v
RowEncoder.v
RowDecoder.v
RowItems.v
RowRoundTrip.v
RowContract.v
Snapshot.v
Grid.v
GridView.v
Scrollback.v
Reflow.v
ReflowPlain.v
ReflowRewrap.v
ReflowKeep.v
ReflowScreen.v
ReflowText.v
ReflowContract.v
PaintedUpdate.v
PaintedWire.v
PaintedParts.v
PaintedDecode.v
PaintedContract.v
PaintedSender.v
PaintedReceiver.v
PaintedRows.v
PaintedApply.v
PaintedStream.v
PaintedPeer.v
StreamContract.v
PaintWindow.v
DeliveryQueue.v
StreamPacing.v
PtyInbox.v
RenderSchedule.v
EventBus.v
WriterThread.v
BusLines.v
BusSteps.v
BusContract.v
Records.v
Notifications.v
SessionData.v
LayoutAreas.v
Client.v
SessionState.v
SessionFocus.v
SessionTabs.v
SessionPlacement.v
SessionCheck.v
ClientCells.v
SessionCells.v
SessionKept.v
SessionCheckFacts.v
SessionContract.v
SessionInvariant.v
