(* ===== verification/Prelude.v ===== *)
(** * koshi, a terminal multiplexer, verified

    ** The program and the part that is modelled

    koshi runs the panes of a terminal session in a server that several clients
    attach to. The development follows one cell of output from the pane's
    program to a client's screen, and one command from a client to the session.

    - A pane's program writes bytes. The pane's reader puts them in the pane's
      queue, and the dispatcher takes them in turns ([PtyInbox]).
    - [crates/koshi-terminal] keeps the screen the program drew: the grid of
      cells, the rows pushed off its top, and the encoded form in which rows are
      stored and sent. A resize rewraps the lines of both.
    - [crates/koshi-layout] keeps, for every tab, a tree of splits whose leaves
      are panes. It divides a rectangle among the panes, edits the tree when a
      pane opens, closes or moves, resizes a border, and answers what the rest
      asks of a solved layout.
    - [crates/koshi-session] keeps the session: its tabs, floating panes, pane
      records, and what each attached client looks at. It calls the layout crate
      for every solve and hands the focus on when a pane leaves or no longer
      fits.
    - [crates/koshi-runtime] tells each client what changed: the event bus keeps
      a queue per client, a window bounds the bytes a client has not painted, and
      a thread per connection turns the snapshots of a client's screen into
      painted updates, which the client's side of the same module reads back.

    ** Files, and the source they translate

    - [Prelude]: machine integers, loops, lists, and [outcome], the error monad.
      [Records]: a record with one field changed, and [BTreeMap]s.

    The layout (koshi-layout):
    - [Geometry] (geometry.rs), [Size] (size.rs), [Tree] (tree.rs): data, with
      rectangles as sets of cells and trees as lists of leaves.
    - [Distribute] (the axis distribution of solver.rs): how the cells of one
      axis are divided among the children of a split. Its promise is the class
      [AxisDistribution]; the solver is proved against the class only.
    - [Solver] (the rest of solver.rs, mode.rs): minimum sizes, suppression, the
      recursion over the tree, fullscreen.
    - [Content] (content.rs), [Neighbor] (neighbor.rs, focus.rs), [Regions]
      (regions.rs): what is read off a solved layout, and the edge regions
      around it.
    - [Normalize] (normalize.rs), [Edit] (edit.rs), [Template] (template.rs),
      [Placement] (the placements of placement.rs): the tree edits.
    - [Destinations] (the rest of placement.rs): the preview of a placed tab,
      the destinations a client offers and the one under a point.
    - [Deltas]: trees and weights that differ in their resize deltas only, and
      what of a solve does not depend on the deltas. [DeltaConversion]
      (solver/resize_delta_conversion.rs): the rewrite of deltas written for
      the earlier solve, which applied them before the preferred targets.
    - [Resize] (resize.rs): the move of a pane border. [ResizeUnits] follows one
      cell of offset through the passes of the distribution, [ResizeBorder]
      through the solve of a split, [ResizeSearch] the two binary searches over
      the counts of offset cells; [ResizeContract] follows the choice of the
      border and holds what the resize promises.

    The terminal screen (koshi-terminal):
    - [Varint] (koshi-core varint.rs), [Utf8] (the standard library's UTF-8
      coding of one character), [Style] (style.rs), [Cell] (the cells of
      grid/state.rs).
    - [RowEncoder], [RowDecoder] (row_encoding.rs): the byte form of a row.
      [RowItems] and [RowRoundTrip] relate the two sides item by item and run by
      run; [RowContract] holds the round trips.
    - [Snapshot] (grid/row_snapshot.rs): a row's encoded form with its image
      cells beside it, its stored form, and the checks of a row from a peer.
    - [Grid] (grid/state.rs): the rows of a screen, every edit, and the cached
      snapshots. [GridView] reads a grid as plain rows and states every edit on
      them.
    - [Scrollback] (scrollback.rs): the history and its limits.
    - [Reflow] (state/reflow.rs, the callers in state.rs): a resize of screen and
      history to another width. [ReflowPlain] is how a line wraps and the reflow
      on plain lines; [ReflowRewrap] and [ReflowKeep] relate the encoded rows to
      it, [ReflowScreen] the screen and history split, [ReflowText] the text of
      the lines; [ReflowContract] holds what a resize promises.

    Painted updates (koshi-ipc painted_update.rs and image_chunk.rs, koshi-runtime
    painted_update.rs):
    - [PaintedUpdate]: the byte form of an update and of image chunks.
      [PaintedWire], [PaintedParts], [PaintedDecode] and [PaintedContract] relate
      its two directions.
    - [PaintedSender] is the writer of updates, [PaintedReceiver] the reader.
      [PaintedRows] is about the row instructions, [PaintedApply] about the parts
      of one update, [PaintedStream] about both ends over a connection,
      [PaintedPeer] about a reader and any peer; [StreamContract] holds what a
      client sees.

    Delivery (koshi-runtime):
    - [PaintWindow] (ipc_server/paint_window.rs), [DeliveryQueue]
      (runtime/delivery_queue.rs), [RenderSchedule] (runtime/render_schedule.rs),
      with [StreamPacing] for what the window and the queue promise together.
    - [PtyInbox] (runtime/pty_inbox.rs): the queues of the panes' output, with
      the pushing threads as steps beside the server.
    - [EventBus] (runtime/bus.rs) and [WriterThread] (the writing loop of
      ipc_server.rs) as a system of interleaved steps. [BusLines] is what holds
      of the line between the bus and one writing thread, [BusSteps] that every
      step keeps it, [BusContract] what the bus promises.

    The session (koshi-session, with data of koshi-core and koshi-pane):
    - [Notifications] (koshi-core text.rs, notification.rs): the cleaning of
      reported texts, and the queue of notifications.
    - [SessionData] (event.rs, lock.rs, selection.rs, process.rs, session/lifecycle.rs,
      error.rs, koshi-pane): events, the lifecycle, errors and pane records.
    - [LayoutAreas] (the areas, tabs and floating panes of session/state.rs, the
      floating geometry of client.rs), [Client] (client.rs): the data the session
      stores, with every operation of a client and of the client registry.
    - [SessionState] (session/state.rs): the session, its stores, and the class
      [SolveStore] of what the operations ask of the solves clients keep.
    - [SessionFocus] (session/focus.rs, the repair of cascade.rs, the solving of
      state.rs), [SessionTabs] (tab_ops.rs, pane_ops.rs, the removals of
      cascade.rs), [SessionPlacement] (placement.rs): the operations.
    - [SessionCheck] (the consistency check of state.rs), with
      [SessionCheckFacts] for what it reports.
    - [ClientCells], [SessionCells] and [SessionKept] relate every operation to
      the same operation without kept solves; [SessionContract] holds the runs of
      a session and what its kept solves promise, [SessionInvariant] what every
      run keeps.

    A definition carries the name of the function it translates; a loop body of
    the source is a definition of its own beside the function, folded over the
    list the source iterates. Mutation through a reference is a function from
    the old value to the new one ([get_node_at_path_mut] takes the edit as an
    argument), since no two references to one value are alive at once. A session
    operation is a state transformer, also where it only reads, as a read may
    fill the [OnceCell] a solve is kept in.

    ** What the theorems show

    - Distribution: the counts fill the axis exactly, respect every floor when
      the floors fit, share the rest in proportion, and carry out balanced
      resize deltas to the cell.
    - Solve: every leaf is placed once and in layout order, visible rectangles
      are disjoint and inside the tab, a fitting tree leaves no hole (with no
      gap), and a pane is suppressed exactly when the tree does not fit. The
      three lists of a solve agree with each other.
    - Reading a solve: content areas meet the pane minimum, the neighbour in a
      direction is the best ranked of those that qualify, the regions and the
      pane area partition the viewport.
    - Normalization: it is idempotent, keeps exactly the live leaves in order,
      gives a canonical tree, and the merge of nested splits keeps every
      proportion.
    - Edits and placements: each success is described by the lists of leaves
      before and after (with the weights in place for a swap), each error is
      true, none of the panics of the source is ever reached, and no pane is
      lost or doubled.
    - Destinations: every listed anchor is accepted by the placement unless the
      result does not fit, and the one chosen under a point is the smallest
      that holds the point.
    - Delta conversion: it changes deltas only, and the rewritten tree solves
      exactly as the earlier solve did, at every level.
    - Resize: each error is reported exactly when it holds; a success moves the
      border, in the solve of the new tree, by the cells returned, as far as
      asked or as far as the donor can pay for, with the fewest offset cells;
      nothing but two deltas changes; the searches end within the binary
      digits of their range, and visit every count that can change the solve.
    - Row encoding: decoding the encoding of a row gives the row; decoding is
      total on any bytes; padding changes nothing; snapshots keep their rows,
      and the rows of a peer are accepted only when they decode.
    - Grid: every edit does to the plain rows what its name says, no edit of a
      reachable grid panics, and a cached snapshot always shows the present
      row.
    - History: a push keeps the newest rows within the limits, in order, and the
      byte and row counts stay exact.
    - Reflow: the rewrap is the plain reflow of the lines, the kept path equals
      it when the width is unchanged, every line keeps its text, the cursor
      stays on its cell, the wrapped spans are the only ones of their kind, and
      wrapping back restores the rows.
    - Painted updates: the frames of an update read back as the update, any
      payload decodes without a panic to a frame within its types, to an
      unknown kind, or to the error its bytes deserve, the client shows the last
      snapshot sent, and whatever a peer sends, a row that is shown is as wide as
      its window and frames come out whole and in order.
    - Delivery: the paint window stays in its bounds and decides when an update
      may be begun, and a paint report lets held frames go; no delivery and no pane
      output waits without a wake on its way; held output drains while readers
      still push; a subscriber's frames keep their pace; what a slow subscriber
      misses is counted and told, its command rejections reach it, its writing
      thread takes waiting host writes at the top of its loop unless a held frame
      is at the head of its queue, and a host write goes out whole.
    - Notifications: the queue shows the newest runs of equal texts; a reported
      text holds no control and no reordering character.
    - Session: with the solves its clients keep, every run of operations answers
      as the run that builds every solve anew, so no kept solve is ever stale.
      The consistency check reports exactly the conditions that are broken. Every
      run keeps the kept solves of tabs and floating panes those of their trees,
      each client's shown floating panes those it has not minimized with the
      focused one last, and the tabs at the positions 0, 1, 2, ...; a tab that
      moves goes to the position asked for and the others keep their order.

    ** Representation

    Unsigned machine integers are [N] and signed ones [Z], with the wrap-around,
    saturation or failure of each operator written out at its width; the release
    profile of the workspace leaves overflow checks off, so plain operators
    wrap. Sums the source keeps in [u64] or [usize] over in-memory lists cannot
    reach their bound and are unbounded here, and so are the 64-bit sequence
    numbers and counters of a connection; an [Instant] is a count of nanoseconds.
    The ids are 128-bit UUIDs compared by value, [N]s. A [HashSet] of pane ids is
    a [gset]; a [HashMap] or [BTreeMap] is a [gmap], read in the order of its keys
    where the source reads a [BTreeMap] or sorts, and where it reads a [HashMap]
    the order makes no difference to the result. A byte is an [N] below 256, a
    character an [N] that is a Unicode scalar. A panic ([expect], [unreachable!],
    an index out of range) is the [None] of an [outcome].

    A critical section of a lock is one step of a relation on the shared state,
    and threads interleave between the steps. An [Arc] whose address is compared
    is a value with its address; a [OnceCell] is an option.

    What is not the program's own is a parameter: the JSON library (a type of
    structures with its printer and parser, and the law that parsing gives back
    what was printed), the structure of a painted frame and the ids of its panes,
    base64, and the types of the messages the bus carries unread. Each property
    that uses one has a witness with a concrete instance.

    Recursion is structural on the tree or on a list, but for the loops that
    end on a condition: the varint loops take the ten groups a 64-bit value can
    have as fuel, the loops of the row encoder and decoder and of the payload
    readers the cells or bytes left and one more, the binary searches of a resize
    the length of their range, and the draining of pane output the panes in the
    rotation with the chunks they queue and those readers push meanwhile. The
    round trips, the totality of decoding, [first_candidate_is_found] and
    [held_output_drains] show that this fuel is enough.

    ** What is not modelled

    Serialization derives and visitors, error messages, and the crates and
    modules the development does not name; the manifest lists each with the
    reason. Of koshi-terminal: the escape handlers over the third-party parser,
    the image store (so a reflow computes where an image moves and does not write
    it back), the selection, the mouse reports and the engine around them. Of koshi-runtime:
    the command handlers, the connections' sockets and the supervision of
    processes. *)

From stdpp Require Export base numbers option gmap sets tactics.
From stdpp Require Export list list_numbers.
From stdpp Require Import options.

#[global] Open Scope N_scope.

(** ** Machine integers

    An unsigned integer of the source is an [N]; a signed one is a [Z]. The
    arithmetic operators of the source are modelled for the release build of
    the workspace (no profile turns overflow checks on): the plain operators
    wrap around, the named ones saturate or fail. *)

Declare Scope koshi_int_scope.
Delimit Scope koshi_int_scope with int.

Abbreviation U8_MAX := 255%N (only parsing).
Abbreviation U16_MAX := 65535%N (only parsing).
Abbreviation U32_MAX := 4294967295%N (only parsing).
Abbreviation U128_MAX := 340282366920938463463374607431768211455%N (only parsing).
Abbreviation I32_MIN := (-2147483648)%Z (only parsing).
Abbreviation I32_MAX := 2147483647%Z (only parsing).

(** [x as u16] of a wider unsigned value. *)
Definition as_u16 (x : N) : N := x `mod` 65536.

(** [a + b] and [a - b] at [u16], wrapping. *)
Definition u16_add (a b : N) : N := as_u16 (a + b).
Definition u16_sub (a b : N) : N := as_u16 (a + 65536 - as_u16 b).

Definition u16_saturating_add (a b : N) : N := (a + b) `min` U16_MAX.
Definition u16_saturating_sub (a b : N) : N := a - b.
Definition u16_saturating_mul (a b : N) : N := (a * b) `min` U16_MAX.
Definition u16_checked_add (a b : N) : option N :=
  if (a + b <=? U16_MAX) then Some (a + b) else None.

(** [u16::try_from] of a wider unsigned value. *)
Definition u16_try_from (x : N) : option N :=
  if (x <=? U16_MAX) then Some x else None.

Definition u32_saturating_add (a b : N) : N := (a + b) `min` U32_MAX.
Definition u32_saturating_mul (a b : N) : N := (a * b) `min` U32_MAX.
Definition u32_checked_add (a b : N) : option N :=
  if (a + b <=? U32_MAX) then Some (a + b) else None.
Definition u32_try_from (x : N) : option N :=
  if (x <=? U32_MAX) then Some x else None.

Definition u128_checked_mul (a b : N) : option N :=
  if (a * b <=? U128_MAX) then Some (a * b) else None.

(** [usize] values are lengths and indices: [nat], never near their bound. *)
Definition usize_as_u16 (n : nat) : N := as_u16 (N.of_nat n).
Definition u32_try_from_usize (n : nat) : option N := u32_try_from (N.of_nat n).

(** [x.clamp(low, high)] on signed integers. *)
Definition i64_clamp (x low high : Z) : Z :=
  if (x <? low)%Z then low else if (high <? x)%Z then high else x.

Notation "a +16 b" := (u16_add a b) (at level 50, left associativity) : koshi_int_scope.
Notation "a -16 b" := (u16_sub a b) (at level 50, left associativity) : koshi_int_scope.
Open Scope koshi_int_scope.

(** Value ranges of the source's unsigned types. *)
Definition is_u16 (x : N) : Prop := x <= U16_MAX.
Definition is_u32 (x : N) : Prop := x <= U32_MAX.

(** *** Exactness of the wrapping operators inside their range *)

Create HintDb koshi discriminated.
Create Rewrite HintDb koshi.
Create Rewrite HintDb koshi_int.

Lemma as_u16_exact x : x <= U16_MAX -> as_u16 x = x.
Proof. intros H. apply N.mod_small. lia. Qed.

Lemma as_u16_le x : as_u16 x <= U16_MAX.
Proof.
  unfold as_u16. pose proof (N.mod_upper_bound x 65536 ltac:(lia)). lia.
Qed.

Lemma u16_add_exact a b : a + b <= U16_MAX -> a +16 b = a + b.
Proof. apply as_u16_exact. Qed.

Lemma u16_sub_exact a b : a <= U16_MAX -> b <= a -> a -16 b = a - b.
Proof.
  intros Ha Hb. unfold u16_sub. rewrite (as_u16_exact b) by lia.
  unfold as_u16. replace (a + 65536 - b) with (a - b + 1 * 65536) by lia.
  rewrite N.Div0.mod_add. apply N.mod_small. lia.
Qed.

#[export] Hint Rewrite as_u16_exact u16_add_exact u16_sub_exact using lia : koshi_int.

(** [solve_int] unfolds the saturating and checked operators and closes the
    goal with [lia]; [int_simpl] removes the wrapping ones whose result is in
    range. *)
Ltac unfold_int :=
  unfold is_u16, is_u32, u16_saturating_add, u16_saturating_sub,
    u16_saturating_mul, u32_saturating_add, u32_saturating_mul,
    u16_try_from, u16_checked_add, i64_clamp in *.
Ltac int_simpl := autorewrite with koshi_int.
Ltac int_simpl_in H := autorewrite with koshi_int in H.
Ltac solve_int := unfold_int; int_simpl; repeat case_match; simplify_eq; lia.

(** Turns the boolean tests of the source that stand in the context or the
    goal into the propositions they decide. *)
Ltac bools :=
  repeat match goal with
  | H : (_ && _)%bool = true |- _ => apply andb_true_iff in H as [? ?]
  | H : (_ || _)%bool = false |- _ => apply orb_false_iff in H as [? ?]
  | H : (_ && _)%bool = false |- _ => apply andb_false_iff in H
  | H : (_ || _)%bool = true |- _ => apply orb_true_iff in H
  | H : negb _ = true |- _ => apply negb_true_iff in H
  | H : negb _ = false |- _ => apply negb_false_iff in H
  | H : (_ <=? _) = true |- _ => apply N.leb_le in H
  | H : (_ <=? _) = false |- _ => apply N.leb_gt in H
  | H : (_ <? _) = true |- _ => apply N.ltb_lt in H
  | H : (_ <? _) = false |- _ => apply N.ltb_ge in H
  | H : (_ =? _) = true |- _ => apply N.eqb_eq in H
  | H : (_ =? _) = false |- _ => apply N.eqb_neq in H
  | H : (_ <=? _)%nat = true |- _ => apply Nat.leb_le in H
  | H : (_ <=? _)%nat = false |- _ => apply Nat.leb_gt in H
  | H : (_ <? _)%nat = true |- _ => apply Nat.ltb_lt in H
  | H : (_ <? _)%nat = false |- _ => apply Nat.ltb_ge in H
  | H : (_ =? _)%nat = true |- _ => apply Nat.eqb_eq in H
  | H : (_ =? _)%nat = false |- _ => apply Nat.eqb_neq in H
  | H : (_ <=? _)%Z = true |- _ => apply Z.leb_le in H
  | H : (_ <=? _)%Z = false |- _ => apply Z.leb_gt in H
  | H : (_ <? _)%Z = true |- _ => apply Z.ltb_lt in H
  | H : (_ <? _)%Z = false |- _ => apply Z.ltb_ge in H
  | H : (_ =? _)%Z = true |- _ => apply Z.eqb_eq in H
  | H : (_ =? _)%Z = false |- _ => apply Z.eqb_neq in H
  | H : bool_decide _ = true |- _ => apply bool_decide_eq_true in H
  | H : bool_decide _ = false |- _ => apply bool_decide_eq_false in H
  end.

(** ** Lists and loops *)

(** [iter().enumerate()]. *)
Definition enumerate {A} (l : list A) : list (nat * A) := imap pair l.

(** [0..n] and [(0..n).rev()]. *)
Definition range (n : nat) : list nat := seq 0 n.
Definition range_rev (n : nat) : list nat := reverse (seq 0 n).

(** The sum of unsigned cell counts, wide enough not to overflow. *)
Fixpoint sum_cells (l : list N) : N :=
  match l with
  | [] => 0
  | x :: l' => x + sum_cells l'
  end.

(** [cells[i]]: the source indexes lists of counts inside their length only,
    which [cell_at]'s users prove; the default is never read. *)
Definition cell_at (l : list N) (i : nat) : N := default 0 (l !! i).

(** [iter().position(f)]. *)
Fixpoint position {A} (f : A -> bool) (l : list A) : option nat :=
  match l with
  | [] => None
  | x :: l' => if f x then Some 0%nat else S <$> position f l'
  end.

(** [iter().find_map(f)]. *)
Fixpoint find_map {A B} (f : A -> option B) (l : list A) : option B :=
  match l with
  | [] => None
  | x :: l' => match f x with Some y => Some y | None => find_map f l' end
  end.

(** [iter().min_by_key(f)] for a key compared by [lt]: the first minimum. *)
Definition min_by {A} (lt : A -> A -> bool) (l : list A) : option A :=
  match l with
  | [] => None
  | x :: l' => Some (foldl (fun best y => if lt y best then y else best) x l')
  end.

(** A loop over two lists in step, threading a state: [for (x, y) in
    xs.iter().zip(ys).enumerate()]. It recurses on [xs], so a tree traversal
    can call itself in the body. *)
Section zip_fold.
Context {A B S : Type} (f : nat -> A -> B -> S -> S).

Fixpoint zip_fold (i : nat) (xs : list A) (ys : list B) (s : S) {struct xs} : S :=
  match xs, ys with
  | x :: xs', y :: ys' => zip_fold (Datatypes.S i) xs' ys' (f i x y s)
  | _, _ => s
  end.
End zip_fold.

(** A property of the loop state that every step keeps holds at the end. *)
Lemma foldl_inv {A B} (P : A -> Prop) (f : A -> B -> A) (l : list B) (a : A) :
  P a -> (forall a b, b ∈ l -> P a -> P (f a b)) -> P (foldl f a l).
Proof.
  revert a. induction l as [|b l IH]; intros a Ha Hf; simpl; [done|].
  apply IH; [apply Hf; [left|done] | intros; apply Hf; [by right|done]].
Qed.

(** The same with the processed prefix as part of the property. *)
Lemma foldl_prefix_inv {A B} (P : list B -> A -> Prop) (f : A -> B -> A) (l : list B) (a : A) :
  P [] a ->
  (forall pre b post a, l = pre ++ b :: post -> P pre a -> P (pre ++ [b]) (f a b)) ->
  P l (foldl f a l).
Proof.
  intros Hnil Hstep.
  assert (forall post pre a, l = pre ++ post -> P pre a -> P l (foldl f a post)) as H.
  { induction post as [|b post IH]; intros pre a' -> HP; simpl.
    - by rewrite app_nil_r.
    - apply (IH (pre ++ [b])); [by rewrite <- app_assoc|]. by eapply Hstep. }
  by apply (H l []).
Qed.

Lemma elem_of_enumerate {A} (l : list A) i x : (i, x) ∈ enumerate l <-> l !! i = Some x.
Proof.
  unfold enumerate. rewrite list_elem_of_lookup. split.
  - intros [j Hj]. rewrite list_lookup_imap in Hj.
    destruct (l !! j) eqn:E; simplify_eq/=. done.
  - intros H. exists i. by rewrite list_lookup_imap, H.
Qed.

Lemma enumerate_length {A} (l : list A) : length (enumerate l) = length l.
Proof. apply length_imap. Qed.

Lemma range_length n : length (range n) = n.
Proof. apply length_seq. Qed.

Lemma elem_of_range n i : i ∈ range n <-> (i < n)%nat.
Proof. unfold range. rewrite elem_of_seq. lia. Qed.

Lemma elem_of_range_rev n i : i ∈ range_rev n <-> (i < n)%nat.
Proof. unfold range_rev. rewrite elem_of_reverse. apply elem_of_range. Qed.

Lemma NoDup_range n : NoDup (range n).
Proof. apply NoDup_seq. Qed.

Lemma NoDup_range_rev n : NoDup (range_rev n).
Proof. unfold range_rev. rewrite reverse_Permutation. apply NoDup_seq. Qed.

Lemma NoDup_prefix_take {A} n (l : list A) : NoDup l -> NoDup (take n l).
Proof. intros H. rewrite <- (take_drop n l) in H. by apply NoDup_app in H as [? _]. Qed.

(** *** Sums *)

Lemma sum_cells_app l k : sum_cells (l ++ k) = sum_cells l + sum_cells k.
Proof. induction l; simpl; lia. Qed.

Lemma sum_cells_reverse l : sum_cells (reverse l) = sum_cells l.
Proof.
  induction l as [|x l IH]; [done|].
  rewrite reverse_cons, sum_cells_app, IH. simpl. lia.
Qed.

Lemma sum_cells_insert l i x y :
  l !! i = Some x -> sum_cells (<[i:=y]> l) + x = sum_cells l + y.
Proof.
  revert i. induction l as [|z l IH]; intros [|i] H; simplify_eq/=; [lia|].
  rewrite <- !N.add_assoc. f_equal. by apply IH.
Qed.

Lemma sum_cells_lookup_le l i x : l !! i = Some x -> x <= sum_cells l.
Proof.
  revert i. induction l as [|z l IH]; intros [|i] H; simplify_eq/=; [lia|].
  specialize (IH _ H). lia.
Qed.

Lemma sum_cells_cell_at_le l i : cell_at l i <= sum_cells l.
Proof.
  unfold cell_at. destruct (l !! i) as [x|] eqn:E; simpl; [|apply N.le_0_l].
  by eapply sum_cells_lookup_le.
Qed.

Lemma sum_cells_replicate_0 n : sum_cells (replicate n 0) = 0.
Proof. induction n; simpl; lia. Qed.

Lemma sum_cells_zeros {A} (l : list A) : sum_cells ((fun _ => 0) <$> l) = 0.
Proof. induction l; csimpl; lia. Qed.

Lemma sum_cells_snoc l x : sum_cells (l ++ [x]) = sum_cells l + x.
Proof. rewrite sum_cells_app. simpl. lia. Qed.

(** *** [position] and [min_by] *)

Lemma position_Some {A} (f : A -> bool) l i :
  position f l = Some i <->
  exists x, l !! i = Some x /\ f x = true /\
    forall j y, (j < i)%nat -> l !! j = Some y -> f y = false.
Proof.
  revert i. induction l as [|x l IH]; intros i; simpl.
  { split; [done|]. intros (? & H & _). by rewrite lookup_nil in H. }
  destruct (f x) eqn:E.
  - split.
    + intros [= <-]. exists x. repeat split; [done|]. intros; lia.
    + intros (y & Hy & Hf & Hall). destruct i as [|i]; [done|].
      specialize (Hall 0%nat x ltac:(lia) eq_refl). congruence.
  - rewrite fmap_Some. split.
    + intros (j & Hj & ->). apply IH in Hj as (y & Hy & Hf & Hall).
      exists y. repeat split; [done..|]. intros [|k] z Hk Hz; simplify_eq/=; [done|].
      eapply Hall; [|done]. lia.
    + intros (y & Hy & Hf & Hall). destruct i as [|i]; simplify_eq/=; [congruence|].
      exists i. split; [|done]. apply IH. exists y. repeat split; [done..|].
      intros j z Hj Hz. apply (Hall (Datatypes.S j) z); [lia|done].
Qed.

Lemma position_None {A} (f : A -> bool) l :
  position f l = None <-> forall x, x ∈ l -> f x = false.
Proof.
  induction l as [|x l IH]; simpl.
  { split; [intros _ x H; by apply not_elem_of_nil in H|done]. }
  destruct (f x) eqn:E.
  - split; [done|]. intros H. specialize (H x ltac:(left)). congruence.
  - rewrite fmap_None, IH. split.
    + intros H y [->|Hy]%elem_of_cons; [done|by apply H].
    + intros H y Hy. apply H. by right.
Qed.

Lemma position_lt {A} (f : A -> bool) l i : position f l = Some i -> (i < length l)%nat.
Proof. intros (x & H & _)%position_Some. by eapply lookup_lt_Some. Qed.

Lemma find_map_Some_inv {A B} (f : A -> option B) l y :
  find_map f l = Some y -> exists x, x ∈ l /\ f x = Some y.
Proof.
  induction l as [|x l IH]; simpl; [done|]. destruct (f x) eqn:E.
  - intros [= <-]. exists x. split; [left|done].
  - intros (z & Hz & Hf)%IH. exists z. split; [by right|done].
Qed.

Lemma min_by_None {A} (lt : A -> A -> bool) l : min_by lt l = None <-> l = [].
Proof. by destruct l. Qed.

(** The element [min_by] picks is in the list and no element is below it. *)
Lemma min_by_Some {A} (lt : A -> A -> bool) l x :
  (forall a, lt a a = false) ->
  (forall a b c, lt a b = true -> lt b c = true -> lt a c = true) ->
  min_by lt l = Some x ->
  x ∈ l /\ forall y, y ∈ l -> lt y x = false.
Proof.
  intros Hirr Htrans. destruct l as [|z l]; [done|]. simpl. intros [= <-].
  apply (foldl_prefix_inv (fun pre best =>
    best ∈ z :: pre /\ forall y, y ∈ z :: pre -> lt y best = false)
    (fun best y => if lt y best then y else best)).
  - split; [left|]. intros y [->|H%not_elem_of_nil]%elem_of_cons; [apply Hirr|done].
  - intros pre b post best _ [Hin Hmin]. rewrite app_comm_cons.
    destruct (lt b best) eqn:E; (split; [set_solver|]); intros y Hy;
      apply elem_of_app in Hy as [Hy|Hy].
    + destruct (lt y b) eqn:E'; [|done].
      rewrite <- (Hmin y Hy). symmetry. by apply Htrans with b.
    + assert (y = b) as -> by set_solver. done.
    + by apply Hmin.
    + by assert (y = b) as -> by set_solver.
Qed.

(** *** Cells by index *)

Lemma cell_at_insert_ne l i j x : i <> j -> cell_at (<[i:=x]> l) j = cell_at l j.
Proof. intros. unfold cell_at. by rewrite list_lookup_insert_ne. Qed.

Lemma cell_at_insert_eq l i x : (i < length l)%nat -> cell_at (<[i:=x]> l) i = x.
Proof. intros. unfold cell_at. by rewrite list_lookup_insert_eq. Qed.

Lemma cell_at_ge l i : (length l <= i)%nat -> cell_at l i = 0.
Proof. intros. unfold cell_at. by rewrite lookup_ge_None_2. Qed.

Lemma cell_at_lookup l i x : l !! i = Some x -> cell_at l i = x.
Proof. unfold cell_at. by intros ->. Qed.

Lemma lookup_cell_at l i : (i < length l)%nat -> l !! i = Some (cell_at l i).
Proof. intros [x Hx]%lookup_lt_is_Some. unfold cell_at. by rewrite Hx. Qed.

Lemma sum_cells_insert_at (l : list N) i y :
  (i < length l)%nat -> sum_cells (<[i:=y]> l) + cell_at l i = sum_cells l + y.
Proof. intros H%lookup_cell_at. by apply sum_cells_insert. Qed.

Lemma cells_eq l k :
  length l = length k -> (forall i, (i < length l)%nat -> cell_at l i = cell_at k i) -> l = k.
Proof.
  intros Hlen H. apply list_eq. intros i.
  destruct (decide (i < length l)%nat) as [Hi|Hi].
  - rewrite !lookup_cell_at by lia. f_equal. by apply H.
  - rewrite !lookup_ge_None_2 by lia. done.
Qed.

#[export] Hint Rewrite cell_at_insert_ne cell_at_insert_eq using (by auto) : koshi.

Lemma cell_at_app_middle pre x post : cell_at (pre ++ x :: post) (length pre) = x.
Proof. unfold cell_at. by rewrite list_lookup_middle. Qed.

Lemma insert_app_middle (pre post : list N) x y :
  <[length pre := y]> (pre ++ x :: post) = pre ++ y :: post.
Proof. rewrite insert_app_r_alt, Nat.sub_diag by lia. done. Qed.

(** A loop that rewrites the cell of every enumerated element once. *)
Lemma foldl_enumerate_update {B} (g : N -> B -> N) (counts : list N) (ws : list B) :
  length ws = length counts ->
  foldl (fun cs iw => <[iw.1 := g (cell_at cs iw.1) iw.2]> cs) counts (enumerate ws)
  = zip_with g counts ws.
Proof.
  unfold enumerate.
  assert (forall pre, length ws = length counts ->
    foldl (fun cs (iw : nat * B) => <[iw.1 := g (cell_at cs iw.1) iw.2]> cs) (pre ++ counts)
      (imap (fun i w => ((length pre + i)%nat, w)) ws) = pre ++ zip_with g counts ws) as H.
  { revert counts. induction ws as [|w ws IH]; intros [|c counts] pre Hlen; simplify_eq/=; [done|].
    rewrite Nat.add_0_r, cell_at_app_middle, insert_app_middle.
    specialize (IH counts (pre ++ [g c w]) Hlen). rewrite length_app in IH. simpl in IH.
    rewrite <- !app_assoc in IH. simpl in IH. rewrite <- IH. f_equal.
    apply imap_ext. intros i x _. simpl. f_equal. lia. }
  intros Hlen. apply (H [] Hlen).
Qed.

Lemma cell_at_zip_with {B} (g : N -> B -> N) (counts : list N) (ws : list B) i w :
  ws !! i = Some w -> (i < length counts)%nat ->
  cell_at (zip_with g counts ws) i = g (cell_at counts i) w.
Proof.
  intros Hw Hi. unfold cell_at at 1. rewrite lookup_zip_with, Hw, (lookup_cell_at _ _ Hi). done.
Qed.

Lemma enumerate_split {A} (l : list A) pre i x post :
  enumerate l = pre ++ (i, x) :: post -> i = length pre /\ l !! i = Some x.
Proof.
  intros H. assert (enumerate l !! length pre = Some (i, x)) as Hl.
  { rewrite H. by apply list_lookup_middle. }
  unfold enumerate in Hl. rewrite list_lookup_imap in Hl.
  destruct (l !! length pre) eqn:E; simplify_eq/=. done.
Qed.

(** The index of an enumerated element is new to the prefix before it. *)
Lemma enumerate_split_fresh {A} (l : list A) pre i x post j y :
  enumerate l = pre ++ (i, x) :: post -> (j, y) ∈ pre -> j <> i.
Proof.
  intros H Hin. destruct (enumerate_split _ _ _ _ _ H) as [-> _].
  apply list_elem_of_lookup in Hin as [k Hk].
  assert (enumerate l !! k = Some (j, y)) as Hl.
  { rewrite H. rewrite lookup_app_l; [done|]. by eapply lookup_lt_Some. }
  unfold enumerate in Hl. rewrite list_lookup_imap in Hl.
  apply lookup_lt_Some in Hk. destruct (l !! k); simplify_eq/=. lia.
Qed.

Lemma foldl_ext_eq {A B} (f g : A -> B -> A) l a :
  (forall a b, f a b = g a b) -> foldl f a l = foldl g a l.
Proof. intros H. revert a. induction l; intros ?; simpl; [done|]. rewrite H. eauto. Qed.

(** *** Concatenation *)

Lemma fmap_concat {A B} (f : A -> B) (ls : list (list A)) :
  fmap (M := list) f (concat ls) = concat (fmap (M := list) (fmap (M := list) f) ls).
Proof. induction ls as [|l ls IH]; csimpl; [done|]. by rewrite fmap_app, IH. Qed.

Lemma concat_fmap_bind {A B} (f : A -> list B) (l : list A) :
  concat (fmap (M := list) f l) = mbind (M := list) f l.
Proof. induction l as [|x l IH]; csimpl; [done|]. by rewrite IH. Qed.

Lemma elem_of_concat {A} (ls : list (list A)) x : x ∈ concat ls <-> exists l, l ∈ ls /\ x ∈ l.
Proof.
  rewrite <- (list_fmap_id ls), concat_fmap_bind, list_elem_of_bind.
  unfold id. rewrite list_fmap_id. naive_solver.
Qed.

Lemma Forall2_fmap_eq {A B C} (f : A -> C) (g : B -> C) l k :
  Forall2 (fun x y => f x = g y) l k -> fmap (M := list) f l = fmap (M := list) g k.
Proof. induction 1; csimpl; congruence. Qed.

Lemma Forall2_with_Forall {A B} (P : A -> Prop) (R : A -> B -> Prop) l k :
  Forall P l -> Forall2 R l k -> Forall2 (fun a b => P a /\ R a b) l k.
Proof.
  intros HP H. induction H as [|a b l k Hab _ IH]; constructor; apply Forall_cons in HP as [Ha HP];
    [done|by apply IH].
Qed.

Lemma list_filter_all {A} (P : A -> Prop) `{!forall x, Decision (P x)} (l : list A) :
  (forall x, x ∈ l -> P x) -> filter P l = l.
Proof.
  induction l as [|x l IH]; intros Hall; [done|]. rewrite filter_cons_True by (apply Hall; left).
  f_equal. apply IH. intros y Hy. apply Hall. by right.
Qed.

Lemma list_filter_ext_in {A} (P Q : A -> Prop) `{!forall x, Decision (P x)}
    `{!forall x, Decision (Q x)} (l : list A) :
  (forall x, x ∈ l -> P x <-> Q x) -> filter P l = filter Q l.
Proof.
  induction l as [|x l IH]; intros Hall; [done|].
  pose proof (Hall x ltac:(left)). rewrite !filter_cons.
  rewrite IH by (intros; apply Hall; by right). repeat case_decide; tauto.
Qed.

(** ** Outcomes

    A fallible function of the source returns a [Result] and may panic (an
    [expect], an [unreachable!], an index past the end). [None] is the panic;
    the theorems show where it is never taken. *)

Definition outcome (E A : Type) : Type := option (E + A).

Definition ok {E A} (a : A) : outcome E A := Some (inr a).
Definition failed {E A} (e : E) : outcome E A := Some (inl e).
Definition panicked {E A} : outcome E A := None.

(** The [?] operator. *)
#[export] Instance outcome_bind E : MBind (outcome E) := fun A B f m =>
  match m with
  | Some (inr a) => f a
  | Some (inl e) => Some (inl e)
  | None => None
  end.

(** [ok_or], [expect] and [map_err]. *)
Definition ok_or {E A} (o : option A) (e : E) : outcome E A :=
  match o with Some a => ok a | None => failed e end.
Definition expect {E A} (o : option A) : outcome E A :=
  match o with Some a => ok a | None => panicked end.
Definition map_err {E E' A} (f : E -> E') (m : outcome E A) : outcome E' A :=
  match m with
  | Some (inr a) => ok a
  | Some (inl e) => failed (f e)
  | None => panicked
  end.

Lemma outcome_bind_ok {E A B} (m : outcome E A) (f : A -> outcome E B) b :
  mbind (M := outcome E) f m = ok b <-> exists a, m = ok a /\ f a = ok b.
Proof.
  unfold mbind, outcome_bind, ok. destruct m as [[e|a]|]; split; try (by intros [? [[=] _]]); try done.
  - intros H. eauto.
  - by intros (a' & [= <-] & ?).
Qed.

Lemma outcome_bind_no_panic {E A B} (m : outcome E A) (f : A -> outcome E B) :
  m <> panicked -> (forall a, m = ok a -> f a <> panicked) ->
  mbind (M := outcome E) f m <> panicked.
Proof.
  unfold mbind, outcome_bind. destruct m as [[e|a]|]; intros Hm Hf; [done|by apply Hf|done].
Qed.

Lemma ok_or_ok {E A} (o : option A) (e : E) a : ok_or o e = ok a <-> o = Some a.
Proof. unfold ok_or, ok. destruct o; naive_solver. Qed.

Lemma ok_or_no_panic {E A} (o : option A) (e : E) : ok_or o e <> panicked.
Proof. by destruct o. Qed.

(** An outcome that never panics, whose error satisfies [Pe] and whose result
    satisfies [P]. *)
Definition outcome_sat {E A} (Pe : E -> Prop) (P : A -> Prop) (m : outcome E A) : Prop :=
  match m with None => False | Some (inl e) => Pe e | Some (inr a) => P a end.

Lemma outcome_sat_bind {E A B} (Pe : E -> Prop) (P : A -> Prop) Q
    (m : outcome E A) (f : A -> outcome E B) :
  outcome_sat Pe P m -> (forall a, m = ok a -> P a -> outcome_sat Pe Q (f a)) ->
  outcome_sat Pe Q (mbind (M := outcome E) f m).
Proof. destruct m as [[e|a]|]; simpl; [done| |done]. intros HP Hf. by apply Hf. Qed.

Lemma outcome_sat_ok_or {E A} (Pe : E -> Prop) (P : A -> Prop) (o : option A) (e : E) :
  (o = None -> Pe e) -> (forall a, o = Some a -> P a) -> outcome_sat Pe P (ok_or o e).
Proof. destruct o; simpl; eauto. Qed.

Lemma outcome_sat_impl {E A} (Pe Pe' : E -> Prop) (P P' : A -> Prop) (m : outcome E A) :
  outcome_sat Pe P m -> (forall e, Pe e -> Pe' e) -> (forall a, P a -> P' a) -> outcome_sat Pe' P' m.
Proof. destruct m as [[e|a]|]; simpl; eauto. Qed.
