(* ===== verification/Geometry.v ===== *)
(** * Terminal-cell geometry ([crates/koshi-core/src/geometry.rs])

    Points, sizes and half-open rectangles of cells, with the operations the
    layout engine and the session use on them: containment, intersection,
    insets, clamping into a container, centering, percent shares. Coordinates
    and counts are [u16] in the source ([N] here, in range by [Rect_wf]);
    edges and areas are computed in [u32]. *)

From S2P Require Import Prelude.
From stdpp Require Import options.

(** ** Data *)

Record Point := MkPoint { column : N; row : N }.

Record Size := MkSize { column_count : N; row_count : N }.

(** An axis can be larger than [u16::MAX]: the fields are [u32]. *)
Record RequiredSize := MkRequiredSize
  { required_column_count : N; required_row_count : N }.

Inductive PaneArea :=
  | Reported (size : Size)
  | Starving.

(** A whole percent of one axis; [axis_percent_try_from] is the only way in. *)
Record AxisPercent := MkAxisPercent { get_percent : N }.

Record AxisPercentError := MkAxisPercentError { percent : N }.

Inductive FloatingPaneDimension :=
  | Cells (cell_count : N)
  | PercentOfAxis (axis_percent : AxisPercent).

Record FloatingPaneSize := MkFloatingPaneSize
  { width : FloatingPaneDimension; height : FloatingPaneDimension }.

Inductive FloatingPanePosition :=
  | DefaultPosition
  | Moved (top_left_cell : Point)
  | Pinned (top_left_cell : Point).

Record Rect := MkRect { origin : Point; size : Size }.

Inductive Direction := Left | Right | Up | Down.

Inductive SplitDirection := Horizontal | Vertical | Stacked.

Record ImageCellGeometry := MkImageCellGeometry
  { full_size : Size; cell_offset : Point }.

#[export] Instance Point_eq_dec : EqDecision Point.
Proof. solve_decision. Defined.
#[export] Instance Size_eq_dec : EqDecision Size.
Proof. solve_decision. Defined.
#[export] Instance RequiredSize_eq_dec : EqDecision RequiredSize.
Proof. solve_decision. Defined.
#[export] Instance PaneArea_eq_dec : EqDecision PaneArea.
Proof. solve_decision. Defined.
#[export] Instance Rect_eq_dec : EqDecision Rect.
Proof. solve_decision. Defined.
#[export] Instance FloatingPanePosition_eq_dec : EqDecision FloatingPanePosition.
Proof. solve_decision. Defined.
#[export] Instance Direction_eq_dec : EqDecision Direction.
Proof. solve_decision. Defined.
#[export] Instance SplitDirection_eq_dec : EqDecision SplitDirection.
Proof. solve_decision. Defined.

(** ** Sizes *)

Definition compute_cell_count (s : Size) : N := column_count s * row_count s.

Definition compute_minimum_axes (s other_size : Size) : Size :=
  MkSize (column_count s `min` column_count other_size)
         (row_count s `min` row_count other_size).

Definition Size_can_fit_inside (s container_size : Size) : bool :=
  (column_count s <=? column_count container_size)
  && (row_count s <=? row_count container_size).

Definition compute_centered_origin (s content_size : Size) : Point :=
  MkPoint
    ((column_count s - column_count content_size `min` column_count s) `div` 2)
    ((row_count s - row_count content_size `min` row_count s) `div` 2).

Definition from_size_sum (first_size second_size : Size) : RequiredSize :=
  MkRequiredSize (column_count first_size + column_count second_size)
                 (row_count first_size + row_count second_size).

Definition RequiredSize_can_fit_inside (r : RequiredSize) (container_size : Size) : bool :=
  (required_column_count r <=? column_count container_size)
  && (required_row_count r <=? row_count container_size).

Definition axis_percent_try_from (p : N) : AxisPercentError + AxisPercent :=
  if (1 <=? p) && (p <=? 100) then inr (MkAxisPercent p) else inl (MkAxisPercentError p).

Definition compute_percent_cell_count (axis_cell_count p : N) : N :=
  as_u16 ((axis_cell_count * (p `min` 100)) `div` 100).

Definition DEFAULT_FLOATING_PANE_SIZE : FloatingPaneSize :=
  MkFloatingPaneSize (PercentOfAxis (MkAxisPercent 60)) (PercentOfAxis (MkAxisPercent 60)).

Definition compute_opposite_direction (d : Direction) : Direction :=
  match d with Left => Right | Right => Left | Up => Down | Down => Up end.

(** ** Rectangles *)

Definition from_origin_and_size (o : Point) (s : Size) : Rect := MkRect o s.

Definition from_size_at_origin (s : Size) : Rect := MkRect (MkPoint 0 0) s.

Definition build_empty_at_origin : Rect := from_size_at_origin (MkSize 0 0).

Definition is_empty (r : Rect) : bool :=
  (column_count (size r) =? 0) || (row_count (size r) =? 0).

Definition get_right_edge (r : Rect) : N := column (origin r) + column_count (size r).

Definition get_bottom_edge (r : Rect) : N := row (origin r) + row_count (size r).

Definition is_inside_rect (r outer_rect : Rect) : bool :=
  (column (origin outer_rect) <=? column (origin r))
  && (row (origin outer_rect) <=? row (origin r))
  && (get_right_edge r <=? get_right_edge outer_rect)
  && (get_bottom_edge r <=? get_bottom_edge outer_rect).

Definition compute_moved_inside (r : Rect) (container_size : Size) : Rect :=
  MkRect
    (MkPoint
      (column (origin r) `min`
        u16_saturating_sub (column_count container_size) (column_count (size r)))
      (row (origin r) `min`
        u16_saturating_sub (row_count container_size) (row_count (size r))))
    (size r).

Definition is_point_inside (r : Rect) (point : Point) : bool :=
  (column (origin r) <=? column point)
  && (row (origin r) <=? row point)
  && (column point <? get_right_edge r)
  && (row point <? get_bottom_edge r).

Definition compute_nearest_edge_direction (r : Rect) (point : Point) : Direction :=
  let last_column :=
    u16_saturating_add (column (origin r)) (u16_saturating_sub (column_count (size r)) 1) in
  let last_row :=
    u16_saturating_add (row (origin r)) (u16_saturating_sub (row_count (size r)) 1) in
  let left_distance := u16_saturating_sub (column point) (column (origin r)) in
  let right_distance := u16_saturating_sub last_column (column point) in
  let top_distance := u16_saturating_sub (row point) (row (origin r)) in
  let bottom_distance := u16_saturating_sub last_row (row point) in
  let nearest_edge_distance :=
    ((left_distance `min` right_distance) `min` top_distance) `min` bottom_distance in
  if nearest_edge_distance =? top_distance then Up
  else if nearest_edge_distance =? bottom_distance then Down
  else if nearest_edge_distance =? left_distance then Left
  else Right.

Definition compute_intersection (r other_rect : Rect) : option Rect :=
  let left_edge := column (origin r) `max` column (origin other_rect) in
  let top_edge := row (origin r) `max` row (origin other_rect) in
  let right_edge := get_right_edge r `min` get_right_edge other_rect in
  let bottom_edge := get_bottom_edge r `min` get_bottom_edge other_rect in
  if (left_edge <? right_edge) && (top_edge <? bottom_edge) then
    Some (MkRect (MkPoint left_edge top_edge)
            (MkSize (as_u16 (right_edge - left_edge)) (as_u16 (bottom_edge - top_edge))))
  else None.

Definition compute_inset (r : Rect) (border_cells : N) : Rect :=
  let double_border_cells := u16_saturating_mul border_cells 2 in
  MkRect
    (MkPoint (u16_saturating_add (column (origin r)) border_cells)
             (u16_saturating_add (row (origin r)) border_cells))
    (MkSize (u16_saturating_sub (column_count (size r)) double_border_cells)
            (u16_saturating_sub (row_count (size r)) double_border_cells)).

Definition compute_inner_with_border (r : Rect) : Rect := compute_inset r 1.

Definition is_visible_size_contained (g : ImageCellGeometry) (visible_size : Size) : bool :=
  (0 <? column_count visible_size) && (0 <? row_count visible_size)
  && is_inside_rect (from_origin_and_size (cell_offset g) visible_size)
       (from_size_at_origin (full_size g)).

(** ** Well-formedness: every field is a [u16], and the exclusive edges are
    cells of the [u16] grid too. The tab rectangles of the program start at
    the origin, so their edges are their sizes. *)

Definition Size_wf (s : Size) : Prop := is_u16 (column_count s) /\ is_u16 (row_count s).

Definition Rect_wf (r : Rect) : Prop :=
  get_right_edge r <= U16_MAX /\ get_bottom_edge r <= U16_MAX.

(** [p] is a cell of [r], as a proposition. *)
Definition in_rect (p : Point) (r : Rect) : Prop := is_point_inside r p = true.

(** ** Lemmas *)

Ltac unfold_rect :=
  unfold in_rect, is_point_inside, is_inside_rect, is_empty, Rect_wf, Size_wf, get_right_edge,
    get_bottom_edge, from_origin_and_size, from_size_at_origin, build_empty_at_origin,
    RequiredSize_can_fit_inside, Size_can_fit_inside in *.

(** Decides a goal of linear arithmetic over the fields of rectangles. *)
Ltac rect_bools :=
  rewrite ?andb_true_iff, ?orb_true_iff, ?andb_false_iff, ?orb_false_iff,
    ?N.leb_le, ?N.ltb_lt, ?N.eqb_eq, ?N.leb_gt, ?N.ltb_ge, ?N.eqb_neq in *.
Ltac solve_rect := unfold_rect; unfold_int; simpl in *; rect_bools; simpl in *; lia.

Lemma in_rect_iff p r :
  in_rect p r <->
  (column (origin r) <= column p < get_right_edge r)
  /\ (row (origin r) <= row p < get_bottom_edge r).
Proof. solve_rect. Qed.

Lemma is_empty_iff r : is_empty r = true <-> column_count (size r) = 0 \/ row_count (size r) = 0.
Proof. unfold is_empty. rect_bools. done. Qed.

Lemma is_empty_false_iff r :
  is_empty r = false <-> 0 < column_count (size r) /\ 0 < row_count (size r).
Proof. solve_rect. Qed.

Lemma empty_rect_no_point r p : is_empty r = true -> ~ in_rect p r.
Proof. rewrite is_empty_iff, in_rect_iff. solve_rect. Qed.

Lemma in_rect_nonempty p r : in_rect p r -> is_empty r = false.
Proof. rewrite in_rect_iff, is_empty_false_iff. solve_rect. Qed.

Lemma empty_at_origin_is_empty : is_empty build_empty_at_origin = true.
Proof. done. Qed.

Lemma is_inside_rect_iff r o :
  is_inside_rect r o = true <->
  column (origin o) <= column (origin r) /\ row (origin o) <= row (origin r)
  /\ get_right_edge r <= get_right_edge o /\ get_bottom_edge r <= get_bottom_edge o.
Proof. unfold is_inside_rect. rect_bools. lia. Qed.

Lemma inside_rect_point p r o : is_inside_rect r o = true -> in_rect p r -> in_rect p o.
Proof. rewrite is_inside_rect_iff, !in_rect_iff. lia. Qed.

Lemma is_inside_rect_refl r : is_inside_rect r r = true.
Proof. rewrite is_inside_rect_iff. lia. Qed.

Lemma is_inside_rect_trans a b c :
  is_inside_rect a b = true -> is_inside_rect b c = true -> is_inside_rect a c = true.
Proof. rewrite !is_inside_rect_iff. lia. Qed.

Lemma Rect_wf_inside r o : is_inside_rect r o = true -> Rect_wf o -> Rect_wf r.
Proof. rewrite is_inside_rect_iff. unfold Rect_wf. lia. Qed.

Lemma from_size_at_origin_wf s : Size_wf s -> Rect_wf (from_size_at_origin s).
Proof. solve_rect. Qed.

Lemma RequiredSize_can_fit_inside_iff r s :
  RequiredSize_can_fit_inside r s = true <->
  required_column_count r <= column_count s /\ required_row_count r <= row_count s.
Proof. unfold RequiredSize_can_fit_inside. rect_bools. done. Qed.

Lemma compute_percent_cell_count_le n p :
  is_u16 n -> compute_percent_cell_count n p <= n.
Proof.
  unfold compute_percent_cell_count, is_u16. intros Hn.
  assert ((n * (p `min` 100)) `div` 100 <= n) as H.
  { apply N.Div0.div_le_upper_bound. nia. }
  rewrite as_u16_exact; lia.
Qed.

Lemma compute_intersection_Some r o i p :
  Rect_wf r -> Rect_wf o -> compute_intersection r o = Some i ->
  is_empty i = false /\ Rect_wf i /\ (in_rect p i <-> in_rect p r /\ in_rect p o).
Proof.
  unfold compute_intersection, Rect_wf. intros [] []. case_match eqn:E; [|done].
  intros [= <-]. apply andb_true_iff in E as [?%N.ltb_lt ?%N.ltb_lt].
  rewrite is_empty_false_iff, !in_rect_iff. unfold get_right_edge, get_bottom_edge in *.
  simpl. rewrite !as_u16_exact by lia. lia.
Qed.

Lemma compute_intersection_None r o p :
  compute_intersection r o = None -> ~ (in_rect p r /\ in_rect p o).
Proof.
  unfold compute_intersection. case_match eqn:E; [done|]. intros _.
  rewrite !in_rect_iff. apply andb_false_iff in E as [E%N.ltb_ge|E%N.ltb_ge]; lia.
Qed.

Lemma compute_moved_inside_inside r s :
  Size_can_fit_inside (size r) s = true ->
  is_inside_rect (compute_moved_inside r s) (from_size_at_origin s) = true.
Proof.
  unfold Size_can_fit_inside, compute_moved_inside. rewrite is_inside_rect_iff. rect_bools.
  unfold get_right_edge, get_bottom_edge. unfold_int. simpl. lia.
Qed.

Lemma compute_inset_inside r n :
  Rect_wf r -> is_empty (compute_inset r n) = false ->
  is_inside_rect (compute_inset r n) r = true.
Proof.
  rewrite is_empty_false_iff, is_inside_rect_iff.
  unfold compute_inset, Rect_wf, get_right_edge, get_bottom_edge. unfold_int. simpl. lia.
Qed.
