(* ===== verification/Size.v ===== *)
(** * Size constraints for split children ([crates/koshi-layout/src/size.rs])

    How one slot of a split claims cells along the split axis, the validated
    constructors and their errors, and the complete per-child instruction
    [SizeWeight] with its overlays and its accumulated user resize. *)

From S2P Require Import Prelude.
From stdpp Require Import options.

(** [FlexWeight] is [u32]. *)
Abbreviation FlexWeight := N (only parsing).

Inductive SizeConstraint :=
  | Flex (flex_weight : FlexWeight)
  | Percent (percent_value : N)
  | Fixed (cell_count : N)
  | Minimum (cell_count : N)
  | Preferred (cell_count : N).

Inductive ConstraintError :=
  | ZeroFlexWeight
  | PercentOutOfRange (received_percent : N)
  | ZeroFixedCellCount.

#[export] Instance SizeConstraint_eq_dec : EqDecision SizeConstraint.
Proof. solve_decision. Defined.

Definition from_flex_weight (flex_weight : FlexWeight) : ConstraintError + SizeConstraint :=
  if flex_weight =? 0 then inl ZeroFlexWeight else inr (Flex flex_weight).

Definition from_percent (percent_value : N) : ConstraintError + SizeConstraint :=
  if (1 <=? percent_value) && (percent_value <=? 100) then inr (Percent percent_value)
  else inl (PercentOutOfRange percent_value).

Definition from_fixed_cell_count (cell_count : N) : ConstraintError + SizeConstraint :=
  if cell_count =? 0 then inl ZeroFixedCellCount else inr (Fixed cell_count).

Record SizeWeight := MkSizeWeight
  { primary_constraint : SizeConstraint;
    minimum_cell_count : option N;
    preferred_cell_count : option N;
    resize_delta : Z }.

#[export] Instance SizeWeight_eq_dec : EqDecision SizeWeight.
Proof. solve_decision. Defined.

Definition from_primary_constraint (c : SizeConstraint) : SizeWeight :=
  MkSizeWeight c None None 0.

(** [impl Default for SizeWeight]. *)
Definition default_size_weight : SizeWeight := from_primary_constraint (Flex 1).

#[export] Instance SizeWeight_inhabited : Inhabited SizeWeight := populate default_size_weight.

(** Writing one [resize_delta], the only field a resize changes. *)
Definition set_resize_delta (delta : Z) (w : SizeWeight) : SizeWeight :=
  MkSizeWeight (primary_constraint w) (minimum_cell_count w) (preferred_cell_count w) delta.

(** Two weights that differ in [resize_delta] at most. *)
Definition same_constraints (w1 w2 : SizeWeight) : Prop :=
  set_resize_delta 0 w1 = set_resize_delta 0 w2.

#[export] Instance same_constraints_equivalence : Equivalence same_constraints.
Proof. split; unfold same_constraints; [intros ?|intros ? ? ?|intros ? ? ? ? ?]; congruence. Qed.

Lemma set_resize_delta_same w d : same_constraints (set_resize_delta d w) w.
Proof. done. Qed.

Lemma same_constraints_proj w1 w2 :
  same_constraints w1 w2 ->
  primary_constraint w1 = primary_constraint w2
  /\ minimum_cell_count w1 = minimum_cell_count w2
  /\ preferred_cell_count w1 = preferred_cell_count w2.
Proof. intros H. injection H. done. Qed.

#[export] Hint Resolve set_resize_delta_same : koshi.
