(* ===== verification/Tree.v ===== *)
(** * The layout tree ([crates/koshi-layout/src/tree.rs])

    Leaves are panes, interior nodes are splits with parallel lists of
    children and weights. The read-only walks, the paths into a tree, and the
    accessors that edit one node in place. An in-place edit through a
    [&mut] reference is a function that returns the edited tree; a walk that
    panics in the source returns [None]. *)

From S2P Require Import Prelude Geometry Size.
From stdpp Require Import options.

(** A pane id wraps a UUID; ids are compared by its 128-bit value. *)
Abbreviation PaneId := N (only parsing).

Definition compute_split_direction (d : Direction) : SplitDirection :=
  match d with Left | Right => Horizontal | Up | Down => Vertical end.

(** ** Data *)

(** The fields of a split node, over the type of its children. *)
Record SplitNodeOf (Node : Type) := MkSplitNode
  { direction : SplitDirection;
    children : list Node;
    weights : list SizeWeight;
    active_child_index : nat }.
Arguments MkSplitNode {Node} _ _ _ _.
Arguments direction {Node} _.
Arguments children {Node} _.
Arguments weights {Node} _.
Arguments active_child_index {Node} _.

Inductive LayoutNode :=
  | Pane (pane_id : PaneId)
  | Split (split_node : SplitNodeOf LayoutNode).

Abbreviation SplitNode := (SplitNodeOf LayoutNode).

(** The induction principle with a hypothesis for every child. *)
Section LayoutNode_induction.
Context (P : LayoutNode -> Prop).
Context (HPane : forall pane_id, P (Pane pane_id)).
Context (HSplit : forall split_node, Forall P (children split_node) -> P (Split split_node)).

Fixpoint LayoutNode_tree_ind (n : LayoutNode) : P n :=
  match n with
  | Pane p => HPane p
  | Split s =>
      HSplit s ((fix go (cs : list LayoutNode) : Forall P cs :=
        match cs with
        | [] => Forall_nil_2 P
        | c :: cs' => Forall_cons_2 P c cs' (LayoutNode_tree_ind c) (go cs')
        end) (children s))
  end.
End LayoutNode_induction.

Fixpoint LayoutNode_dec (m n : LayoutNode) {struct m} : {m = n} + {m <> n}.
Proof.
  refine (
    match m, n with
    | Pane p, Pane q => cast_if (decide (p = q))
    | Split (MkSplitNode d1 cs1 ws1 a1), Split (MkSplitNode d2 cs2 ws2 a2) =>
        cast_if_and4 (decide (d1 = d2))
          (@list_eq_dec _ LayoutNode_dec cs1 cs2)
          (decide (ws1 = ws2)) (decide (a1 = a2))
    | _, _ => right _
    end); abstract congruence.
Defined.
#[export] Instance LayoutNode_eq_dec : EqDecision LayoutNode := LayoutNode_dec.

(** ** Constructors and queries of one split node *)

Definition with_equal_weights (d : SplitDirection) (cs : list LayoutNode) : SplitNode :=
  MkSplitNode d cs (replicate (length cs) default_size_weight) 0.

Definition from_stacked_pane_ids (pane_ids : list PaneId) (active : nat) : SplitNode :=
  MkSplitNode Stacked (Pane <$> pane_ids)
    (replicate (length pane_ids) default_size_weight)
    (active `min` (length pane_ids - 1))%nat.

Definition get_active_child_index {Node} (s : SplitNodeOf Node) : nat :=
  (active_child_index s `min` (length (children s) - 1))%nat.

Definition is_child_collapsed (s : SplitNode) (split_child_index : nat) : bool :=
  bool_decide (direction s = Stacked)
  && (split_child_index <? length (children s))%nat
  && negb (split_child_index =? get_active_child_index s)%nat.

(** ** Read-only walks *)

Fixpoint collect_leaf_pane_ids (n : LayoutNode) (leaf_pane_ids : list PaneId) : list PaneId :=
  match n with
  | Pane p => leaf_pane_ids ++ [p]
  | Split s => foldl (fun acc c => collect_leaf_pane_ids c acc) leaf_pane_ids (children s)
  end.

Definition list_leaf_pane_ids (n : LayoutNode) : list PaneId := collect_leaf_pane_ids n [].

Fixpoint has_pane (pane_id : PaneId) (n : LayoutNode) : bool :=
  match n with
  | Pane p => p =? pane_id
  | Split s => existsb (has_pane pane_id) (children s)
  end.

Definition get_shown_child_index (s : SplitNode) (focus_history : list PaneId) : nat :=
  match find_map (fun history_pane_id => position (has_pane history_pane_id) (children s))
          focus_history with
  | Some shown => shown
  | None => get_active_child_index s
  end.

Fixpoint is_pane_collapsed (n : LayoutNode) (pane_id : PaneId) (focus_history : list PaneId)
    : bool :=
  match n with
  | Pane _ => false
  | Split s =>
      match position (has_pane pane_id) (children s) with
      | None => false
      | Some pane_child_index =>
          if bool_decide (direction s = Stacked)
             && negb (pane_child_index =? get_shown_child_index s focus_history)%nat
          then true
          else default false
            (map (fun c => is_pane_collapsed c pane_id focus_history) (children s)
               !! pane_child_index)
      end
  end.

Fixpoint has_stack_showing_inactive_member (n : LayoutNode) (focus_history : list PaneId)
    : bool :=
  match n with
  | Pane _ => false
  | Split s =>
      (bool_decide (direction s = Stacked)
       && negb (get_shown_child_index s focus_history =? get_active_child_index s)%nat)
      || existsb (fun c => has_stack_showing_inactive_member c focus_history) (children s)
  end.

(** The split's active index is set first, then the children are visited:
    neither reads what the other writes. *)
Fixpoint apply_shown_stack_members (focus_history : list PaneId) (n : LayoutNode) : LayoutNode :=
  match n with
  | Pane p => Pane p
  | Split s =>
      Split (MkSplitNode (direction s)
        (map (apply_shown_stack_members focus_history) (children s))
        (weights s)
        (if bool_decide (direction s = Stacked) then get_shown_child_index s focus_history
         else active_child_index s))
  end.

Definition build_shown_layout_tree (n : LayoutNode) (focus_history : list PaneId)
    : option LayoutNode :=
  if has_stack_showing_inactive_member n focus_history
  then Some (apply_shown_stack_members focus_history n)
  else None.

(** ** Paths *)

(** The loop of [find_pane_in_subtree] over one split's children: the first
    child in which [f] finds a path, with its index in front. *)
Fixpoint find_child_path {A} (f : A -> option (list nat)) (split_child_index : nat) (cs : list A)
    : option (list nat) :=
  match cs with
  | [] => None
  | c :: cs' =>
      match f c with
      | Some path => Some (split_child_index :: path)
      | None => find_child_path f (S split_child_index) cs'
      end
  end.

Fixpoint find_pane_path (pane_id : PaneId) (n : LayoutNode) : option (list nat) :=
  match n with
  | Pane p => if p =? pane_id then Some [] else None
  | Split s => find_child_path (find_pane_path pane_id) 0 (children s)
  end.

Fixpoint get_node_at_path (n : LayoutNode) (layout_path : list nat) : option LayoutNode :=
  match layout_path with
  | [] => Some n
  | i :: layout_path' =>
      match n with
      | Pane _ => None
      | Split s => children s !! i ≫= fun c => get_node_at_path c layout_path'
      end
  end.

Definition get_split_at_path (n : LayoutNode) (layout_path : list nat) : option SplitNode :=
  match get_node_at_path n layout_path with
  | Some (Split s) => Some s
  | _ => None
  end.

Definition set_children (cs : list LayoutNode) (s : SplitNode) : SplitNode :=
  MkSplitNode (direction s) cs (weights s) (active_child_index s).

Definition set_weights (ws : list SizeWeight) (s : SplitNode) : SplitNode :=
  MkSplitNode (direction s) (children s) ws (active_child_index s).

(** The tree after the node that [get_node_at_path_mut] hands out at
    [layout_path] was replaced by [f] of it. *)
Fixpoint get_node_at_path_mut (n : LayoutNode) (layout_path : list nat)
    (f : LayoutNode -> LayoutNode) : option LayoutNode :=
  match layout_path with
  | [] => Some (f n)
  | i :: layout_path' =>
      match n with
      | Pane _ => None
      | Split s =>
          c ← children s !! i;
          c' ← get_node_at_path_mut c layout_path' f;
          Some (Split (set_children (<[i:=c']> (children s)) s))
      end
  end.

(** The same for a path known to end at a split. *)
Definition get_split_at_path_mut (n : LayoutNode) (layout_path : list nat)
    (f : SplitNode -> SplitNode) : option LayoutNode :=
  match get_node_at_path n layout_path with
  | Some (Split s) => get_node_at_path_mut n layout_path (fun _ => Split (f s))
  | _ => None
  end.

Definition is_stack_at_path (n : LayoutNode) (layout_path : list nat) : bool :=
  match get_node_at_path n layout_path with
  | Some (Split s) => bool_decide (direction s = Stacked)
  | _ => false
  end.

(** The path of the stack [find_containing_stack_mut] hands out. *)
Definition find_containing_stack_path (n : LayoutNode) (pane_id : PaneId) : option (list nat) :=
  pane_path ← find_pane_path pane_id n;
  depth ← List.find (fun depth => is_stack_at_path n (take depth pane_path))
            (range_rev (length pane_path));
  Some (take depth pane_path).

(** ** Well-formed trees *)

(** [P] holds of every split node of the tree. *)
Inductive every_split (P : SplitNode -> Prop) : LayoutNode -> Prop :=
  | every_split_Pane pane_id : every_split P (Pane pane_id)
  | every_split_Split s :
      P s -> Forall (every_split P) (children s) -> every_split P (Split s).

(** A split with a child, with as many weights as children, and with its
    active index inside the children (0 for a directional split). *)
Definition has_children (s : SplitNode) : Prop := children s <> [].
Definition has_parallel_weights (s : SplitNode) : Prop :=
  length (weights s) = length (children s).
Definition has_active_in_range (s : SplitNode) : Prop :=
  (active_child_index s < length (children s))%nat
  /\ (direction s <> Stacked -> active_child_index s = 0%nat).

Definition tree_ok (n : LayoutNode) : Prop :=
  every_split (fun s => has_children s /\ has_parallel_weights s /\ has_active_in_range s) n.

#[export] Hint Constructors every_split : koshi.

(** ** Lemmas on leaves *)

Lemma collect_leaf_pane_ids_acc n acc :
  collect_leaf_pane_ids n acc = acc ++ list_leaf_pane_ids n.
Proof.
  unfold list_leaf_pane_ids. revert acc.
  induction n as [p|s IH] using LayoutNode_tree_ind; intros acc; [done|]. simpl.
  assert (forall acc, foldl (fun acc c => collect_leaf_pane_ids c acc) acc (children s)
            = acc ++ foldl (fun acc c => collect_leaf_pane_ids c acc) [] (children s)) as H; [|done].
  clear acc. induction IH as [|c cs Hc _ IHcs]; intros acc; simpl; [by rewrite app_nil_r|].
  rewrite IHcs, (IHcs (collect_leaf_pane_ids c [])), (Hc acc). by rewrite app_assoc.
Qed.

Lemma list_leaf_pane_ids_Pane p : list_leaf_pane_ids (Pane p) = [p].
Proof. done. Qed.

Lemma list_leaf_pane_ids_Split s :
  list_leaf_pane_ids (Split s) = children s ≫= list_leaf_pane_ids.
Proof.
  unfold list_leaf_pane_ids at 1. simpl.
  assert (forall acc, foldl (fun acc c => collect_leaf_pane_ids c acc) acc (children s)
            = acc ++ (children s ≫= list_leaf_pane_ids)) as H; [|apply H].
  induction (children s) as [|c cs IH]; intros acc; simpl; [by rewrite app_nil_r|].
  by rewrite IH, collect_leaf_pane_ids_acc, app_assoc.
Qed.

#[export] Hint Rewrite list_leaf_pane_ids_Split list_leaf_pane_ids_Pane : koshi.

Lemma elem_of_leaves_Split p s :
  p ∈ list_leaf_pane_ids (Split s) <-> exists c, c ∈ children s /\ p ∈ list_leaf_pane_ids c.
Proof. rewrite list_leaf_pane_ids_Split, list_elem_of_bind. naive_solver. Qed.

Lemma has_pane_iff p n : has_pane p n = true <-> p ∈ list_leaf_pane_ids n.
Proof.
  induction n as [q|s IH] using LayoutNode_tree_ind.
  { simpl. rewrite N.eqb_eq, list_leaf_pane_ids_Pane. set_solver. }
  rewrite elem_of_leaves_Split. simpl. rewrite existsb_exists.
  rewrite Forall_forall in IH. split.
  - intros (c & Hc%list_elem_of_In & H). exists c. split; [done|]. by apply IH.
  - intros (c & Hc & H). exists c. split; [by apply list_elem_of_In|]. by apply IH.
Qed.

Lemma has_pane_false p n : has_pane p n = false <-> p ∉ list_leaf_pane_ids n.
Proof. rewrite <- has_pane_iff, not_true_iff_false. reflexivity. Qed.

(** ** Lemmas on paths *)

Lemma find_child_path_Some {A} (f : A -> option (list nat)) k cs path :
  find_child_path f k cs = Some path <->
  exists i c path', path = (k + i)%nat :: path' /\ cs !! i = Some c /\ f c = Some path'
    /\ forall j c', (j < i)%nat -> cs !! j = Some c' -> f c' = None.
Proof.
  revert k. induction cs as [|c cs IH]; intros k; simpl.
  { split; [done|]. intros (i & c & p & _ & H & _). by rewrite lookup_nil in H. }
  destruct (f c) as [p|] eqn:E.
  - split.
    + intros [= <-]. exists 0%nat, c, p. rewrite Nat.add_0_r.
      repeat split; [done..|]. intros; lia.
    + intros (i & c' & p' & -> & Hl & Hf & Hall). destruct i as [|i]; simplify_eq/=.
      * by rewrite Nat.add_0_r.
      * specialize (Hall 0%nat c ltac:(lia) eq_refl). congruence.
  - rewrite IH. split.
    + intros (i & c' & p' & -> & Hl & Hf & Hall). exists (S i), c', p'.
      repeat split; [f_equal; lia|done..|].
      intros [|j] c'' Hj Hl'; simplify_eq/=; [done|]. eapply Hall; [|done]. lia.
    + intros (i & c' & p' & -> & Hl & Hf & Hall). destruct i as [|i]; simplify_eq/=.
      exists i, c', p'. repeat split; [f_equal; lia|done..|].
      intros j c'' Hj Hl'. apply (Hall (S j)); [lia|done].
Qed.

Lemma find_child_path_None {A} (f : A -> option (list nat)) k cs :
  find_child_path f k cs = None <-> Forall (fun c => f c = None) cs.
Proof.
  revert k. induction cs as [|c cs IH]; intros k; simpl.
  { split; [by constructor|done]. }
  rewrite Forall_cons. destruct (f c); [naive_solver|]. rewrite IH. naive_solver.
Qed.

Lemma find_pane_path_node p n path :
  find_pane_path p n = Some path -> get_node_at_path n path = Some (Pane p).
Proof.
  revert path. induction n as [q|s IH] using LayoutNode_tree_ind; intros path; simpl.
  { case_match eqn:E; [|done]. intros [= <-]. apply N.eqb_eq in E. by subst. }
  intros (i & c & path' & -> & Hc & Hf & _)%find_child_path_Some. simpl. rewrite Hc. simpl.
  rewrite Forall_lookup in IH. by eapply IH.
Qed.

Lemma find_pane_path_None p n : find_pane_path p n = None <-> has_pane p n = false.
Proof.
  induction n as [q|s IH] using LayoutNode_tree_ind; simpl.
  { case_match; naive_solver. }
  rewrite find_child_path_None. rewrite Forall_forall in *.
  rewrite <- not_true_iff_false, existsb_exists. split.
  - intros H (c & Hc%list_elem_of_In & Hp). apply not_false_iff_true in Hp. apply Hp.
    by apply IH, H.
  - intros H c Hc. apply IH; [done|]. apply not_true_iff_false. intros Hp. apply H.
    exists c. split; [by apply list_elem_of_In|done].
Qed.

Lemma find_pane_path_is_Some p n : is_Some (find_pane_path p n) <-> p ∈ list_leaf_pane_ids n.
Proof.
  rewrite <- has_pane_iff, <- not_eq_None_Some, find_pane_path_None.
  by rewrite not_false_iff_true.
Qed.

Lemma get_node_at_path_app n path1 path2 :
  get_node_at_path n (path1 ++ path2)
  = get_node_at_path n path1 ≫= fun m => get_node_at_path m path2.
Proof.
  revert n. induction path1 as [|i path1 IH]; intros n; [done|]. simpl.
  destruct n as [p|s]; [done|]. destruct (children s !! i); [|done]. simpl. apply IH.
Qed.

Lemma get_node_at_path_prefix n path depth m :
  get_node_at_path n path = Some m ->
  exists m', get_node_at_path n (take depth path) = Some m'
    /\ get_node_at_path m' (drop depth path) = Some m.
Proof.
  rewrite <- (take_drop depth path) at 1. rewrite get_node_at_path_app.
  intros (m' & ? & ?)%bind_Some. eauto.
Qed.

(** Every edit in place changes one contiguous block of the leaves. *)
Lemma get_node_at_path_mut_leaves n path f m :
  get_node_at_path n path = Some m ->
  exists n' pre post,
    get_node_at_path_mut n path f = Some n'
    /\ list_leaf_pane_ids n = pre ++ list_leaf_pane_ids m ++ post
    /\ list_leaf_pane_ids n' = pre ++ list_leaf_pane_ids (f m) ++ post.
Proof.
  revert n. induction path as [|i path IH]; intros n; simpl.
  { intros [= ->]. exists (f m), [], []. by rewrite !app_nil_r. }
  destruct n as [p|s]; [done|].
  intros (c & Hc & Hget)%bind_Some.
  destruct (IH _ Hget) as (c' & pre & post & Hmut & Hl & Hl'). rewrite Hc. simpl. rewrite Hmut.
  exists (Split (set_children (<[i:=c']> (children s)) s)),
    ((take i (children s) ≫= list_leaf_pane_ids) ++ pre),
    (post ++ (drop (S i) (children s) ≫= list_leaf_pane_ids)).
  split; [done|]. rewrite !list_leaf_pane_ids_Split. simpl.
  rewrite insert_take_drop by (by eapply lookup_lt_Some).
  rewrite <- (take_drop_middle (children s) i c Hc) at 1.
  rewrite !bind_app. simpl. rewrite Hl, Hl'. by rewrite <- !app_assoc.
Qed.

Lemma get_node_at_path_mut_Some n path f n' :
  get_node_at_path_mut n path f = Some n' ->
  exists m, get_node_at_path n path = Some m /\ get_node_at_path n' path = Some (f m).
Proof.
  revert n n'. induction path as [|i path IH]; intros n n'; simpl.
  { intros [= <-]. eauto. }
  destruct n as [p|s]; [done|].
  intros (c & Hc & (c' & Hmut & [= <-])%bind_Some)%bind_Some.
  destruct (IH _ _ Hmut) as (m & H1 & H2). exists m. simpl. rewrite Hc. simpl.
  rewrite list_lookup_insert_eq by (by eapply lookup_lt_Some). done.
Qed.

(** ** Lemmas on well-formed trees *)

Abbreviation nonempty_splits := (every_split has_children).

Lemma every_split_Split_inv P s : every_split P (Split s) -> P s /\ Forall (every_split P) (children s).
Proof. by inversion 1. Qed.

Lemma every_split_impl (P Q : SplitNode -> Prop) n :
  (forall s, P s -> Q s) -> every_split P n -> every_split Q n.
Proof.
  intros HPQ. induction n as [p|s IH] using LayoutNode_tree_ind; intros H; [constructor|].
  apply every_split_Split_inv in H as [Hs Hcs]. constructor; [by apply HPQ|].
  rewrite Forall_forall in IH. rewrite Forall_forall in Hcs. apply Forall_forall. eauto.
Qed.

Lemma leaves_nonempty n : nonempty_splits n -> list_leaf_pane_ids n <> [].
Proof.
  induction n as [p|s IH] using LayoutNode_tree_ind; intros Hne; [done|].
  inversion Hne as [|? Hc Hcs]; subst. rewrite list_leaf_pane_ids_Split.
  unfold has_children in Hc. destruct (children s) as [|c cs]; [done|]. simpl.
  rewrite !Forall_cons in *. intros [E _]%app_eq_nil. naive_solver.
Qed.
