(* ===== verification/Distribute.v ===== *)
(** * Dividing one axis among the children of a split
    ([crates/koshi-layout/src/solver.rs], [distribute_axis_cells] and its
    passes)

    The passes run in the source's order: shares, repair of the sum, preferred
    targets, user resizes (with a second repair), floors. The first part
    translates the passes; the second proves what each keeps. The client of
    this file, the directional solve, uses only the laws of the interface
    [AxisDistribution], which [distribute_axis_cells] implements. *)

From S2P Require Import Prelude Geometry Size.
From stdpp Require Import options.

(** ** The passes *)

Definition weight_at (weights : list SizeWeight) (i : nat) : SizeWeight :=
  default default_size_weight (weights !! i).

Definition is_flexible (w : SizeWeight) : bool :=
  match primary_constraint w with
  | Flex _ | Minimum _ | Preferred _ => true
  | Fixed _ | Percent _ => false
  end.

Definition get_preferred_cell_count (w : SizeWeight) : option N :=
  match preferred_cell_count w with
  | Some c => Some c
  | None => match primary_constraint w with Preferred c => Some c | _ => None end
  end.

(** *** Shares *)

(** One iteration of the fixed-size loop, and of the percent loop, on the
    state [(child_cell_counts, remaining_cell_count)]. *)
Definition claim_fixed_cells (st : list N * N) (iw : nat * SizeWeight) : list N * N :=
  match primary_constraint iw.2 with
  | Fixed fixed_cell_count =>
      let claimed := fixed_cell_count `min` st.2 in
      (<[iw.1 := claimed]> st.1, st.2 -16 claimed)
  | _ => st
  end.

Definition claim_percent_cells (available_cell_count : N) (st : list N * N)
    (iw : nat * SizeWeight) : list N * N :=
  match primary_constraint iw.2 with
  | Percent percent_value =>
      let claimed := compute_percent_cell_count available_cell_count percent_value `min` st.2 in
      (<[iw.1 := claimed]> st.1, st.2 -16 claimed)
  | _ => st
  end.

(** The weight with which a child flexes, [None] for the other children. *)
Definition flexible_weight (w : SizeWeight) : option N :=
  match primary_constraint w with
  | Flex flex_weight => Some flex_weight
  | Minimum _ | Preferred _ => Some 1
  | Fixed _ | Percent _ => None
  end.

Definition list_flexible_child_weight_pairs (weights : list SizeWeight) : list (nat * N) :=
  omap (fun iw => pair iw.1 <$> flexible_weight iw.2) (enumerate weights).

(** One iteration of the share loop on [(child_cell_counts,
    assigned_cell_count)]; [checked_div] by a zero total gives no share. *)
Definition assign_flexible_share (flexible_cell_pool total_flexible_weight : N)
    (st : list N * N) (iw : nat * N) : list N * N :=
  let share_cell_count :=
    if total_flexible_weight =? 0 then 0
    else as_u16 ((flexible_cell_pool * iw.2) `div` total_flexible_weight) in
  (<[iw.1 := share_cell_count]> st.1, st.2 + share_cell_count).

Definition add_leftover_cell (counts : list N) (iw : nat * N) : list N :=
  <[iw.1 := cell_at counts iw.1 +16 1]> counts.

Definition compute_share_cell_counts (weights : list SizeWeight) (available_cell_count : N)
    : list N :=
  let st0 := (replicate (length weights) 0, available_cell_count) in
  let st1 := foldl claim_fixed_cells st0 (enumerate weights) in
  let st2 := foldl (claim_percent_cells available_cell_count) st1 (enumerate weights) in
  let pairs := list_flexible_child_weight_pairs weights in
  let total_flexible_weight := sum_cells (snd <$> pairs) in
  let flexible_cell_pool := st2.2 in
  let st3 := foldl (assign_flexible_share flexible_cell_pool total_flexible_weight)
               (st2.1, 0) pairs in
  let leftover_cell_count := flexible_cell_pool - st3.2 in
  foldl add_leftover_cell st3.1 (take (N.to_nat leftover_cell_count) (reverse pairs)).

(** *** Repair of the sum *)

(** The trimming loop over [iter_mut().rev()], with its early exit. *)
Fixpoint trim_trailing (excess_cell_count : N) (reversed_counts : list N) : list N :=
  match reversed_counts with
  | [] => []
  | cell_count :: rest =>
      let trimmed_cell_count := excess_cell_count `min` cell_count in
      let excess_left := excess_cell_count - trimmed_cell_count in
      (cell_count -16 as_u16 trimmed_cell_count)
        :: (if excess_left =? 0 then rest else trim_trailing excess_left rest)
  end.

Definition repair_cell_count_sum (counts : list N) (available_cell_count : N) : list N :=
  let total_cell_count := sum_cells counts in
  if total_cell_count <? available_cell_count then
    match length counts with
    | O => counts
    | S last =>
        <[last := cell_at counts last +16 as_u16 (available_cell_count - total_cell_count)]>
          counts
    end
  else if available_cell_count <? total_cell_count then
    reverse (trim_trailing (total_cell_count - available_cell_count) (reverse counts))
  else counts.

(** *** Donors *)

Inductive DonorPool := FlexibleOnly | AllChildren.

#[export] Instance DonorPool_eq_dec : EqDecision DonorPool.
Proof. solve_decision. Defined.

(** One donor pass, over the child indices in [child_indices], on the state
    [(child_cell_counts, taken_cell_count)]. It returns as soon as the need
    is met; the later pass then takes nothing either. *)
Fixpoint take_donor_pass (weights : list SizeWeight) (floors : list N)
    (needed_cell_count : N) (skipped_child_index : nat) (is_flexible_donor_pass : bool)
    (child_indices : list nat) (counts : list N) (taken_cell_count : N) : list N * N :=
  match child_indices with
  | [] => (counts, taken_cell_count)
  | child_index :: rest =>
      if taken_cell_count =? needed_cell_count then (counts, taken_cell_count)
      else if (child_index =? skipped_child_index)%nat
              || negb (Bool.eqb (is_flexible (weight_at weights child_index))
                         is_flexible_donor_pass)
      then take_donor_pass weights floors needed_cell_count skipped_child_index
             is_flexible_donor_pass rest counts taken_cell_count
      else
        let spare_cell_count :=
          u16_saturating_sub (cell_at counts child_index) (cell_at floors child_index) in
        let given_cell_count :=
          spare_cell_count `min` (needed_cell_count -16 taken_cell_count) in
        take_donor_pass weights floors needed_cell_count skipped_child_index
          is_flexible_donor_pass rest
          (<[child_index := cell_at counts child_index -16 given_cell_count]> counts)
          (taken_cell_count +16 given_cell_count)
  end.

Definition take_donor_cell_count (counts : list N) (weights : list SizeWeight)
    (floors : list N) (needed_cell_count : N) (skipped_child_index : nat)
    (donor_pool : DonorPool) : list N * N :=
  let child_indices := range_rev (length counts) in
  let '(counts1, taken1) :=
    take_donor_pass weights floors needed_cell_count skipped_child_index true
      child_indices counts 0 in
  if bool_decide (donor_pool = FlexibleOnly) then (counts1, taken1)
  else take_donor_pass weights floors needed_cell_count skipped_child_index false
         child_indices counts1 taken1.

(** *** Preferred targets *)

(** The trailing-most flexible sibling of [child_index]. *)
Definition find_receiver (weights : list SizeWeight) (child_index : nat) : option nat :=
  List.find (fun candidate => negb (candidate =? child_index)%nat
                              && is_flexible (weight_at weights candidate))
    (range_rev (length weights)).

Definition apply_preferred_at (weights : list SizeWeight) (floors : list N)
    (counts : list N) (child_index : nat) : list N :=
  match get_preferred_cell_count (weight_at weights child_index) with
  | None => counts
  | Some target_cell_count =>
      let current_cell_count := cell_at counts child_index in
      if target_cell_count <? current_cell_count then
        let floor_cell_count := cell_at floors child_index in
        let surplus_cell_count :=
          u16_saturating_sub current_cell_count (target_cell_count `max` floor_cell_count) in
        match find_receiver weights child_index with
        | Some receiver_child_index =>
            let counts1 :=
              <[child_index := cell_at counts child_index -16 surplus_cell_count]> counts in
            <[receiver_child_index :=
                u16_saturating_add (cell_at counts1 receiver_child_index) surplus_cell_count]>
              counts1
        | None => counts
        end
      else if current_cell_count <? target_cell_count then
        let '(counts1, taken_cell_count) :=
          take_donor_cell_count counts weights floors
            (target_cell_count -16 current_cell_count) child_index FlexibleOnly in
        <[child_index := u16_saturating_add (cell_at counts1 child_index) taken_cell_count]>
          counts1
      else counts
  end.

Definition apply_preferred_cell_counts (counts : list N) (weights : list SizeWeight)
    (floors : list N) : list N :=
  foldl (apply_preferred_at weights floors) counts (range (length weights)).

(** *** User resizes *)

Definition apply_resize_delta (available_cell_count : N) (counts : list N)
    (iw : nat * SizeWeight) : list N :=
  let adjusted_cell_count := (Z.of_N (cell_at counts iw.1) + resize_delta iw.2)%Z in
  <[iw.1 := Z.to_N (i64_clamp adjusted_cell_count 0 (Z.of_N available_cell_count))]> counts.

Definition apply_resize_deltas (counts : list N) (weights : list SizeWeight)
    (available_cell_count : N) : list N :=
  repair_cell_count_sum
    (foldl (apply_resize_delta available_cell_count) counts (enumerate weights))
    available_cell_count.

(** *** Floors *)

Definition clamp_to_floor_at (weights : list SizeWeight) (floors : list N)
    (counts : list N) (child_index : nat) : list N :=
  let floor_cell_count := cell_at floors child_index in
  if cell_at counts child_index <? floor_cell_count then
    let '(counts1, taken_cell_count) :=
      take_donor_cell_count counts weights floors
        (floor_cell_count -16 cell_at counts child_index) child_index AllChildren in
    <[child_index := cell_at counts1 child_index +16 taken_cell_count]> counts1
  else counts.

Definition clamp_cell_counts_to_floors (counts : list N) (weights : list SizeWeight)
    (floors : list N) (available_cell_count : N) : list N :=
  if available_cell_count <? sum_cells floors then counts
  else foldl (clamp_to_floor_at weights floors) counts (range (length counts)).

Definition distribute_axis_cells (weights : list SizeWeight) (floors : list N)
    (available_cell_count : N) : list N :=
  let shares := compute_share_cell_counts weights available_cell_count in
  let repaired := repair_cell_count_sum shares available_cell_count in
  let targeted := apply_preferred_cell_counts repaired weights floors in
  let resized := apply_resize_deltas targeted weights available_cell_count in
  clamp_cell_counts_to_floors resized weights floors available_cell_count.

(** The worked examples of the source's documentation. *)
Example split_101_in_two :
  distribute_axis_cells [default_size_weight; default_size_weight] [4; 4] 101 = [50; 51].
Proof. vm_compute. reflexivity. Qed.

Example preferred_30_resized_by_10 :
  distribute_axis_cells
    [set_resize_delta 10 (from_primary_constraint (Preferred 30));
     set_resize_delta (-10) default_size_weight] [4; 4] 100 = [40; 60].
Proof. vm_compute. reflexivity. Qed.

Example two_preferred_20 :
  distribute_axis_cells
    [from_primary_constraint (Preferred 20); from_primary_constraint (Preferred 20)] [4; 4] 100
  = [80; 20].
Proof. vm_compute. reflexivity. Qed.

(** ** Donors: what [take_donor_cell_count] keeps *)

(** [counts'] is [counts] after siblings of [skipped] gave [taken] cells and
    none of them went below its floor. *)
Record donation (floors : list N) (skipped : nat) (counts counts' : list N) (taken : N) : Prop :=
  { donation_length : length counts' = length counts;
    donation_sum : sum_cells counts' + taken = sum_cells counts;
    donation_le j : cell_at counts' j <= cell_at counts j;
    donation_floor j : cell_at counts j `min` cell_at floors j <= cell_at counts' j;
    donation_skipped : cell_at counts' skipped = cell_at counts skipped }.

Lemma donation_refl floors skipped counts : donation floors skipped counts counts 0.
Proof. split; intros; lia. Qed.

Lemma donation_trans floors skipped c1 c2 c3 t1 t2 :
  donation floors skipped c1 c2 t1 -> donation floors skipped c2 c3 t2 ->
  donation floors skipped c1 c3 (t1 + t2).
Proof.
  intros [L1 S1 M1 F1 K1] [L2 S2 M2 F2 K2]. split; [congruence|lia| | |congruence].
  - intros j. specialize (M1 j). specialize (M2 j). lia.
  - intros j. specialize (F1 j). specialize (F2 j). lia.
Qed.

Lemma donation_one floors skipped counts j given :
  (j < length counts)%nat -> j <> skipped ->
  given <= cell_at counts j - cell_at floors j ->
  donation floors skipped counts (<[j := cell_at counts j - given]> counts) given.
Proof.
  intros Hj Hne Hgiven. split.
  - apply length_insert.
  - pose proof (sum_cells_insert_at counts j (cell_at counts j - given) Hj). lia.
  - intros k. destruct (decide (j = k)) as [->|]; [rewrite cell_at_insert_eq|rewrite cell_at_insert_ne]; (done || lia).
  - intros k. destruct (decide (j = k)) as [->|]; [rewrite cell_at_insert_eq|rewrite cell_at_insert_ne]; (done || lia).
  - by rewrite cell_at_insert_ne.
Qed.

(** The cells a pass takes, and why it stops: the need is met, or no eligible
    child is above its floor. *)
Lemma take_donor_pass_spec weights floors needed skipped pass idxs counts taken c' t' :
  NoDup idxs -> (forall j, j ∈ idxs -> (j < length counts)%nat) ->
  sum_cells counts <= U16_MAX -> needed <= U16_MAX -> taken <= needed ->
  take_donor_pass weights floors needed skipped pass idxs counts taken = (c', t') ->
  taken <= t' <= needed
  /\ donation floors skipped counts c' (t' - taken)
  /\ (forall j, j ∉ idxs \/ is_flexible (weight_at weights j) <> pass ->
        cell_at c' j = cell_at counts j)
  /\ (t' = needed \/ forall j, j ∈ idxs -> j <> skipped ->
        is_flexible (weight_at weights j) = pass -> cell_at c' j <= cell_at floors j).
Proof.
  intros Hnd. revert counts taken.
  induction Hnd as [|j idxs Hj Hnd IH]; intros counts taken Hlt Hsum Hneed Htaken; simpl.
  { intros [= <- <-]. rewrite N.sub_diag. split_and!; [done|done|apply donation_refl|done|].
    right. intros j Hj. by apply not_elem_of_nil in Hj. }
  case_match eqn:E1.
  { intros [= <- <-]. rewrite N.sub_diag. split_and!; [done|done|apply donation_refl|done|].
    left. by apply N.eqb_eq. }
  case_match eqn:E2.
  - intros Heq. apply IH in Heq as (? & ? & Hout & Hex); [|set_solver|done..].
    split_and!; [lia|lia|done|set_solver|]. destruct Hex as [|Hex]; [by left|right].
    intros k [->|Hk]%elem_of_cons Hne Hf; [|by apply Hex]. exfalso.
    apply orb_true_iff in E2 as [E2|E2]; [by apply Nat.eqb_eq in E2|].
    rewrite Hf, Bool.eqb_reflx in E2. done.
  - apply orb_false_iff in E2 as [Hne%Nat.eqb_neq E2].
    apply negb_false_iff, Bool.eqb_prop in E2.
    set (given := _ `min` _) in *.
    pose proof (sum_cells_cell_at_le counts j) as Hc.
    assert (j < length counts)%nat as Hjl by (apply Hlt; left).
    assert (given <= cell_at counts j - cell_at floors j /\ given <= needed - taken) as [Hg1 Hg2].
    { subst given. unfold u16_saturating_sub. rewrite u16_sub_exact by lia. lia. }
    assert (given = cell_at counts j - cell_at floors j \/ given = needed - taken) as Hgiven.
    { subst given. unfold u16_saturating_sub. rewrite u16_sub_exact by lia. lia. }
    clearbody given. rewrite u16_sub_exact, u16_add_exact by lia.
    pose proof (donation_one floors skipped counts j given Hjl Hne Hg1) as Hdon.
    pose proof (donation_sum _ _ _ _ _ Hdon).
    intros Heq. apply IH in Heq as (? & Hdon' & Hout & Hex);
      [|intros k Hk; rewrite length_insert; apply Hlt; by right|lia..].
    split_and!; [lia|lia| | |].
    + replace (t' - taken) with (given + (t' - (taken + given))) by lia.
      by eapply donation_trans.
    + intros k Hk. rewrite Hout by set_solver. apply cell_at_insert_ne.
      intros ->. destruct Hk as [Hk|Hk]; [set_solver|done].
    + destruct Hex as [|Hex]; [by left|].
      destruct (decide (t' = needed)) as [|Hlt']; [by left|right].
      intros k [->|Hk]%elem_of_cons Hkne Hf; [|by apply Hex].
      rewrite Hout by (by left). rewrite cell_at_insert_eq by done. lia.
Qed.

Lemma take_donor_cell_count_spec counts weights floors needed skipped pool c' t' :
  sum_cells counts <= U16_MAX -> needed <= U16_MAX ->
  take_donor_cell_count counts weights floors needed skipped pool = (c', t') ->
  t' <= needed
  /\ donation floors skipped counts c' t'
  /\ (pool = FlexibleOnly -> forall j, is_flexible (weight_at weights j) = false ->
        cell_at c' j = cell_at counts j)
  /\ (t' = needed \/ forall j, (j < length counts)%nat -> j <> skipped ->
        (is_flexible (weight_at weights j) = true \/ pool = AllChildren) ->
        cell_at c' j <= cell_at floors j).
Proof.
  intros Hsum Hneed. unfold take_donor_cell_count. case_match eqn:E1.
  apply take_donor_pass_spec in E1 as (? & Hd1 & Hout1 & Hex1);
    [|apply NoDup_range_rev|intros j Hj; by apply elem_of_range_rev in Hj|lia..].
  rewrite N.sub_0_r in Hd1. case_bool_decide as Hpool.
  - intros [= <- <-]. split_and!; [lia|done|intros _ j Hj; apply Hout1; right; congruence|].
    destruct Hex1 as [|Hex]; [by left|right]. intros j Hj Hne [Hf|]; [|congruence].
    apply Hex; [by apply elem_of_range_rev|done..].
  - intros E2. pose proof (donation_sum _ _ _ _ _ Hd1). pose proof (donation_length _ _ _ _ _ Hd1).
    apply take_donor_pass_spec in E2 as (? & Hd2 & Hout2 & Hex2);
      [|apply NoDup_range_rev|intros j Hj%elem_of_range_rev; lia|lia..].
    split_and!; [lia| |done|].
    { replace t' with (n + (t' - n)) by lia. by eapply donation_trans. }
    destruct Hex2 as [|Hex2]; [by left|].
    destruct (decide (t' = needed)) as [|Hlt']; [by left|right]. intros j Hj Hne _.
    destruct (is_flexible (weight_at weights j)) eqn:Hf.
    + destruct Hex1 as [->|Hex1]; [lia|]. rewrite Hout2 by (right; congruence).
      apply Hex1; [by apply elem_of_range_rev|done..].
    + apply Hex2; [by apply elem_of_range_rev|done..].
Qed.

(** ** Repair of the sum *)

(** Every count is a [u16]. *)
Definition all_u16 (counts : list N) : Prop := forall j, cell_at counts j <= U16_MAX.

Lemma all_u16_sum counts : sum_cells counts <= U16_MAX -> all_u16 counts.
Proof. intros H j. pose proof (sum_cells_cell_at_le counts j). lia. Qed.

Lemma all_u16_cons c counts : all_u16 (c :: counts) -> c <= U16_MAX /\ all_u16 counts.
Proof. intros H. split; [apply (H 0%nat)|intros j; apply (H (S j))]. Qed.

Lemma all_u16_reverse counts : all_u16 counts -> all_u16 (reverse counts).
Proof.
  intros H j. unfold cell_at. destruct (reverse counts !! j) as [x|] eqn:E; simpl; [|lia].
  apply list_elem_of_lookup_2 in E. rewrite elem_of_reverse in E.
  apply list_elem_of_lookup in E as [k Hk].
  specialize (H k). by rewrite (cell_at_lookup _ _ _ Hk) in H.
Qed.

Lemma trim_trailing_spec excess counts :
  all_u16 counts -> excess <= sum_cells counts ->
  sum_cells (trim_trailing excess counts) + excess = sum_cells counts
  /\ length (trim_trailing excess counts) = length counts.
Proof.
  revert excess. induction counts as [|c counts IH]; intros excess Hu Hle; simpl in *; [lia|].
  apply all_u16_cons in Hu as [Hc Hu]. rewrite as_u16_exact, u16_sub_exact by lia.
  case_match eqn:E; bools; simpl; [lia|].
  destruct (IH (excess - excess `min` c)) as [IH1 IH2]; [done|lia|]. lia.
Qed.

Lemma repair_length counts available :
  all_u16 counts -> length (repair_cell_count_sum counts available) = length counts.
Proof.
  intros Hu. unfold repair_cell_count_sum. repeat case_match; bools; simpl; [done|by rewrite length_insert| |done].
  rewrite length_reverse.
  destruct (trim_trailing_spec (sum_cells counts - available) (reverse counts)) as [_ ->];
    [by apply all_u16_reverse|rewrite sum_cells_reverse; lia|]. apply length_reverse.
Qed.

Lemma repair_sum counts available :
  all_u16 counts -> counts <> [] -> available <= U16_MAX ->
  sum_cells (repair_cell_count_sum counts available) = available.
Proof.
  intros Hu Hne Hav. unfold repair_cell_count_sum. repeat case_match; bools.
  - destruct counts; [done|discriminate].
  - pose proof (sum_cells_cell_at_le counts n).
    rewrite as_u16_exact, u16_add_exact by lia.
    pose proof (sum_cells_insert_at counts n
      (cell_at counts n + (available - sum_cells counts)) ltac:(lia)). lia.
  - rewrite sum_cells_reverse.
    destruct (trim_trailing_spec (sum_cells counts - available) (reverse counts)) as [Hs _];
      [by apply all_u16_reverse|rewrite sum_cells_reverse; lia|].
    rewrite sum_cells_reverse in Hs. lia.
  - lia.
Qed.

Lemma repair_id counts available :
  sum_cells counts = available -> repair_cell_count_sum counts available = counts.
Proof. intros <-. unfold repair_cell_count_sum. by rewrite N.ltb_irrefl. Qed.

(** ** Preferred targets *)

Lemma find_receiver_Some weights i r :
  find_receiver weights i = Some r ->
  (r < length weights)%nat /\ r <> i /\ is_flexible (weight_at weights r) = true.
Proof.
  unfold find_receiver. intros [Hin H]%find_some.
  apply list_elem_of_In, elem_of_range_rev in Hin. bools. done.
Qed.

(** Moving [moved] cells from child [i] to child [r]. *)
Lemma move_cells_sum counts i r moved :
  (i < length counts)%nat -> (r < length counts)%nat -> r <> i -> moved <= cell_at counts i ->
  sum_cells (<[r := cell_at counts r + moved]> (<[i := cell_at counts i - moved]> counts))
  = sum_cells counts.
Proof.
  intros Hi Hr Hne Hm.
  pose proof (sum_cells_insert_at counts i (cell_at counts i - moved) Hi).
  pose proof (sum_cells_insert_at (<[i := cell_at counts i - moved]> counts) r
    (cell_at counts r + moved) ltac:(by rewrite length_insert)) as H2.
  rewrite cell_at_insert_ne in H2 by done. lia.
Qed.

(** Giving a child the cells a donation freed. *)
Lemma donation_receive floors i counts counts' taken :
  (i < length counts)%nat -> donation floors i counts counts' taken ->
  sum_cells (<[i := cell_at counts i + taken]> counts') = sum_cells counts.
Proof.
  intros Hi [Hl Hs _ _ Hk].
  pose proof (sum_cells_insert_at counts' i (cell_at counts i + taken) ltac:(lia)). lia.
Qed.

(** One target keeps the sum and the length, and takes no child that meets
    its floor below it. *)
Lemma apply_preferred_at_spec weights floors counts i :
  length weights = length counts -> (i < length counts)%nat -> sum_cells counts <= U16_MAX ->
  let counts' := apply_preferred_at weights floors counts i in
  length counts' = length counts /\ sum_cells counts' = sum_cells counts
  /\ (forall j, cell_at floors j <= cell_at counts j -> cell_at floors j <= cell_at counts' j).
Proof.
  intros Hlen Hi Hsum. unfold apply_preferred_at.
  destruct (get_preferred_cell_count _) as [target|]; [|done].
  pose proof (sum_cells_cell_at_le counts i) as Hci.
  case_match eqn:E1; bools.
  - destruct (find_receiver weights i) as [r|] eqn:Er; [|done].
    apply find_receiver_Some in Er as (Hr & Hne & _). rewrite Hlen in Hr. cbv zeta.
    unfold u16_saturating_sub.
    set (moved := cell_at counts i - (target `max` cell_at floors i)).
    rewrite (u16_sub_exact _ moved) by lia. rewrite (cell_at_insert_ne _ i r) by done.
    pose proof (move_cells_sum counts i r moved Hi Hr Hne ltac:(lia)) as Hmove.
    assert (cell_at counts r + moved <= U16_MAX) as Hrm.
    { pose proof (sum_cells_cell_at_le
        (<[r := cell_at counts r + moved]> (<[i := cell_at counts i - moved]> counts)) r) as H.
      rewrite cell_at_insert_eq in H by (by rewrite length_insert). lia. }
    unfold u16_saturating_add. rewrite N.min_l by done. rewrite !length_insert.
    split_and!; [done|done|]. intros j Hj.
    destruct (decide (r = j)) as [->|]; [rewrite cell_at_insert_eq by (by rewrite length_insert); lia|].
    rewrite cell_at_insert_ne by done.
    destruct (decide (i = j)) as [->|]; [rewrite cell_at_insert_eq by done; lia|].
    by rewrite cell_at_insert_ne.
  - case_match eqn:E2; bools; [|done].
    destruct (take_donor_cell_count _ _ _ _ _ _) as [c' t'] eqn:Et.
    apply take_donor_cell_count_spec in Et as (Ht & Hdon & _); [|done|].
    2: { unfold u16_sub. apply as_u16_le. }
    rewrite (donation_skipped _ _ _ _ _ Hdon).
    pose proof (donation_receive _ _ _ _ _ Hi Hdon) as Hrec.
    assert (cell_at counts i + t' <= U16_MAX) as Hb.
    { pose proof (sum_cells_cell_at_le (<[i := cell_at counts i + t']> c') i) as H.
      rewrite cell_at_insert_eq in H by (rewrite (donation_length _ _ _ _ _ Hdon); done). lia. }
    unfold u16_saturating_add. rewrite N.min_l by done.
    rewrite length_insert, (donation_length _ _ _ _ _ Hdon). split_and!; [done|lia|].
    intros j Hj. destruct (decide (i = j)) as [->|].
    + rewrite cell_at_insert_eq by (by rewrite (donation_length _ _ _ _ _ Hdon)). lia.
    + rewrite cell_at_insert_ne by done. pose proof (donation_floor _ _ _ _ _ Hdon j). lia.
Qed.

Lemma apply_preferred_spec weights floors counts :
  length weights = length counts -> sum_cells counts <= U16_MAX ->
  let counts' := apply_preferred_cell_counts counts weights floors in
  length counts' = length counts /\ sum_cells counts' = sum_cells counts
  /\ (forall j, cell_at floors j <= cell_at counts j -> cell_at floors j <= cell_at counts' j).
Proof.
  intros Hlen Hsum. unfold apply_preferred_cell_counts. simpl.
  apply (foldl_inv (fun c => length c = length counts /\ sum_cells c = sum_cells counts
    /\ (forall j, cell_at floors j <= cell_at counts j -> cell_at floors j <= cell_at c j))).
  { done. }
  intros c i Hi%elem_of_range (H1 & H2 & H3).
  destruct (apply_preferred_at_spec weights floors c i) as (?&?&Hf); [lia..|].
  split_and!; [lia|lia|]. intros j Hj. by apply Hf, H3.
Qed.

(** ** User resizes *)

Definition resized_cell_count (available : N) (cell_count : N) (w : SizeWeight) : N :=
  Z.to_N (i64_clamp (Z.of_N cell_count + resize_delta w) 0 (Z.of_N available)).

Lemma resized_cell_count_le available c w : resized_cell_count available c w <= available.
Proof. unfold resized_cell_count. unfold_int. repeat case_match; bools; lia. Qed.

Lemma resize_loop_eq available counts weights :
  length weights = length counts ->
  foldl (apply_resize_delta available) counts (enumerate weights)
  = zip_with (resized_cell_count available) counts weights.
Proof. apply (foldl_enumerate_update (resized_cell_count available)). Qed.

Lemma resize_loop_all_u16 available counts weights :
  available <= U16_MAX -> all_u16 (zip_with (resized_cell_count available) counts weights).
Proof.
  intros Hav j. unfold cell_at. rewrite lookup_zip_with.
  destruct (counts !! j); simpl; [|lia]. destruct (weights !! j); simpl; [|lia].
  etransitivity; [apply resized_cell_count_le|done].
Qed.

Lemma apply_resize_deltas_spec counts weights available :
  length weights = length counts -> counts <> [] -> available <= U16_MAX ->
  let counts' := apply_resize_deltas counts weights available in
  length counts' = length counts /\ sum_cells counts' = available.
Proof.
  intros Hlen Hne Hav. unfold apply_resize_deltas. simpl. rewrite resize_loop_eq by done.
  assert (length (zip_with (resized_cell_count available) counts weights) = length counts) as Hz.
  { rewrite length_zip_with. lia. }
  split; [rewrite repair_length; [done|by apply resize_loop_all_u16]|].
  apply repair_sum; [by apply resize_loop_all_u16| |done].
  intros E. rewrite E in Hz. destruct counts; done.
Qed.

(** ** Floors *)

(** Sums of cells below and above pointwise bounds. *)
Lemma sum_cells_le_pointwise c d :
  length c = length d -> (forall j, cell_at c j <= cell_at d j) -> sum_cells c <= sum_cells d.
Proof.
  revert d. induction c as [|x c IH]; intros [|y d] Hlen H; simplify_eq/=; [done|].
  pose proof (H 0%nat) as H0. unfold cell_at in H0. simpl in H0.
  pose proof (IH d ltac:(done) (fun j => H (S j))). lia.
Qed.

Lemma sum_cells_le_pointwise_except c d i :
  length c = length d -> (i < length c)%nat ->
  (forall j, (j < length c)%nat -> j <> i -> cell_at c j <= cell_at d j) ->
  sum_cells c + cell_at d i <= sum_cells d + cell_at c i.
Proof.
  intros Hlen Hi H.
  assert (sum_cells (<[i:=0]> c) <= sum_cells (<[i:=0]> d)) as Hle.
  { apply sum_cells_le_pointwise; [by rewrite !length_insert|]. intros j.
    destruct (decide (i = j)) as [->|]; [rewrite !cell_at_insert_eq by lia; lia|].
    rewrite !cell_at_insert_ne by done. destruct (decide (j < length c)%nat); [by apply H|].
    rewrite !cell_at_ge by lia. lia. }
  pose proof (sum_cells_insert_at c i 0 Hi). pose proof (sum_cells_insert_at d i 0 ltac:(lia)).
  lia.
Qed.

(** The siblings always fund a floor that fits: the loop body lifts child [i]
    to its floor exactly and takes no other child below its own. *)
Lemma clamp_to_floor_at_spec weights floors counts i :
  length floors = length counts -> (i < length counts)%nat ->
  sum_cells counts <= U16_MAX -> sum_cells floors <= sum_cells counts ->
  let counts' := clamp_to_floor_at weights floors counts i in
  length counts' = length counts /\ sum_cells counts' = sum_cells counts
  /\ cell_at counts' i = cell_at counts i `max` cell_at floors i
  /\ (forall j, j <> i -> cell_at counts j `min` cell_at floors j <= cell_at counts' j
                          /\ cell_at counts' j <= cell_at counts j).
Proof.
  intros Hlen Hi Hsum Hfl. unfold clamp_to_floor_at.
  pose proof (sum_cells_cell_at_le floors i). pose proof (sum_cells_cell_at_le counts i).
  case_match eqn:E; bools; [|split_and!; [done|done|lia|intros; lia]].
  destruct (take_donor_cell_count _ _ _ _ _ _) as [c' t'] eqn:Et.
  rewrite u16_sub_exact in Et by lia.
  apply take_donor_cell_count_spec in Et as (Ht & Hdon & _ & Hex); [|lia..].
  pose proof Hdon as [Hl Hs Hle Hf Hk].
  assert (t' = cell_at floors i - cell_at counts i) as ->.
  { destruct Hex as [|Hex]; [done|].
    assert (sum_cells c' + cell_at floors i <= sum_cells floors + cell_at c' i); [|lia].
    apply sum_cells_le_pointwise_except; [lia..|]. intros j Hj Hne. apply Hex; [lia|done|by right]. }
  rewrite Hk. rewrite u16_add_exact by lia.
  replace (cell_at counts i + _) with (cell_at floors i) by lia.
  rewrite length_insert. split_and!; [done| | |].
  - pose proof (sum_cells_insert_at c' i (cell_at floors i) ltac:(lia)). lia.
  - rewrite cell_at_insert_eq by lia. lia.
  - intros j Hne. rewrite cell_at_insert_ne by done. done.
Qed.

Lemma clamp_cell_counts_to_floors_spec counts weights floors available :
  length floors = length counts -> sum_cells counts = available -> available <= U16_MAX ->
  let counts' := clamp_cell_counts_to_floors counts weights floors available in
  length counts' = length counts /\ sum_cells counts' = available
  /\ (sum_cells floors <= available -> forall j, cell_at floors j <= cell_at counts' j).
Proof.
  intros Hlen Hs Hav. unfold clamp_cell_counts_to_floors. simpl.
  case_match eqn:E; bools; [split_and!; [done..|lia]|].
  destruct (foldl_prefix_inv (fun pre c => length c = length counts /\ sum_cells c = available
    /\ (forall j, j ∈ pre -> cell_at floors j <= cell_at c j))
    (clamp_to_floor_at weights floors) (range (length counts)) counts) as (H1 & H2 & H3).
  - split_and!; [done..|]. intros j Hj. by apply not_elem_of_nil in Hj.
  - intros pre i post c Hr (H1 & H2 & H3).
    assert (i < length counts)%nat as Hi by (apply elem_of_range; rewrite Hr; set_solver).
    destruct (clamp_to_floor_at_spec weights floors c i) as (?&?&Hmax&Hothers); [lia..|].
    split_and!; [lia|lia|]. intros j Hj. destruct (decide (j = i)) as [->|Hne]; [lia|].
    specialize (Hothers j Hne). specialize (H3 j). set_solver by lia.
  - split_and!; [done..|]. intros _ j. destruct (decide (j < length counts)%nat) as [Hj|Hj].
    + apply H3. by apply elem_of_range.
    + rewrite (cell_at_ge floors) by lia. lia.
Qed.

(** ** Shares *)

(** The fixed-size loop and the percent loop are one loop, over the cells a
    weight requests. *)
Definition fixed_request (w : SizeWeight) : option N :=
  match primary_constraint w with Fixed c => Some c | _ => None end.
Definition percent_request (available : N) (w : SizeWeight) : option N :=
  match primary_constraint w with
  | Percent p => Some (compute_percent_cell_count available p)
  | _ => None
  end.
Definition claim_requested (request : SizeWeight -> option N) (st : list N * N)
    (iw : nat * SizeWeight) : list N * N :=
  match request iw.2 with
  | Some r => (<[iw.1 := r `min` st.2]> st.1, st.2 -16 (r `min` st.2))
  | None => st
  end.

Lemma claim_fixed_cells_eq st iw :
  claim_fixed_cells st iw = claim_requested fixed_request st iw.
Proof. unfold claim_fixed_cells, claim_requested, fixed_request. by case_match. Qed.

Lemma claim_percent_cells_eq available st iw :
  claim_percent_cells available st iw = claim_requested (percent_request available) st iw.
Proof. unfold claim_percent_cells, claim_requested, percent_request. by case_match. Qed.

(** Claimed cells and remaining cells always make up the axis; a child that
    requests nothing keeps its cells. *)
Lemma claim_loop_spec request weights counts remaining c' r' :
  length counts = length weights -> remaining <= U16_MAX ->
  (forall j w, weights !! j = Some w -> is_Some (request w) -> cell_at counts j = 0) ->
  foldl (claim_requested request) (counts, remaining) (enumerate weights) = (c', r') ->
  length c' = length weights /\ sum_cells c' + r' = sum_cells counts + remaining
  /\ r' <= remaining
  /\ (forall j w, weights !! j = Some w -> request w = None -> cell_at c' j = cell_at counts j).
Proof.
  intros Hlen Hrem Hzero Heq.
  destruct (foldl_prefix_inv (fun pre st =>
    length st.1 = length weights /\ sum_cells st.1 + st.2 = sum_cells counts + remaining
    /\ st.2 <= remaining
    /\ (forall j w, weights !! j = Some w -> request w = None \/ (forall y, (j, y) ∉ pre) ->
          cell_at st.1 j = cell_at counts j))
    (claim_requested request) (enumerate weights) (counts, remaining))
    as (H1 & H2 & H3 & H4).
  - done.
  - intros pre [i w] post [c r] He (H1 & H2 & H3 & H4). simpl in *.
    destruct (enumerate_split _ _ _ _ _ He) as [_ Hw].
    assert (i < length c)%nat as Hi by (rewrite H1; by eapply lookup_lt_Some).
    unfold claim_requested. simpl. destruct (request w) as [q|] eqn:Hq; simpl.
    + assert (cell_at c i = 0) as Hc0.
      { rewrite (H4 i w Hw); [eapply Hzero; [done|by eexists]|right].
        intros y Hin. by eapply enumerate_split_fresh in Hin. }
      rewrite u16_sub_exact by lia. rewrite length_insert.
      pose proof (sum_cells_insert_at c i (q `min` r) Hi).
      split_and!; [done|lia|lia|]. intros j w' Hw' Hor.
      rewrite cell_at_insert_ne; [apply H4 with w'; [done|]|].
      * destruct Hor as [|Hor]; [by left|right]. set_solver.
      * intros <-. destruct Hor as [Hor|Hor]; [congruence|]. apply (Hor w). set_solver.
    + split_and!; [done..|]. intros j w' Hw' Hor. apply H4 with w'; [done|].
      destruct Hor; [by left|right; set_solver].
  - rewrite Heq in *. simpl in *. split_and!; [done..|]. intros; eapply H4; eauto.
Qed.

(** The pairs list each flexible child once, inside the children. *)
Lemma elem_of_flexible_pairs weights i w :
  (i, w) ∈ list_flexible_child_weight_pairs weights <->
  exists sw, weights !! i = Some sw /\ flexible_weight sw = Some w.
Proof.
  unfold list_flexible_child_weight_pairs. rewrite list_elem_of_omap. split.
  - intros ([j sw] & Hin%elem_of_enumerate & H). simpl in *.
    destruct (flexible_weight sw) eqn:E; simplify_eq/=. eauto.
  - intros (sw & Hl & Hf). exists (i, sw). split; [by apply elem_of_enumerate|]. simpl. by rewrite Hf.
Qed.

Lemma NoDup_flexible_pairs weights :
  NoDup (list_flexible_child_weight_pairs weights).*1.
Proof.
  unfold list_flexible_child_weight_pairs, enumerate.
  assert (forall k, NoDup (omap (fun iw : nat * SizeWeight => pair iw.1 <$> flexible_weight iw.2)
            (imap (fun i w => ((k + i)%nat, w)) weights)).*1
          /\ forall j, j ∈ (omap (fun iw : nat * SizeWeight => pair iw.1 <$> flexible_weight iw.2)
            (imap (fun i w => ((k + i)%nat, w)) weights)).*1 -> (k <= j)%nat) as H; [|apply (H 0%nat)].
  induction weights as [|w ws IH]; intros k; simpl.
  { split; [constructor|]. intros j Hj. by apply not_elem_of_nil in Hj. }
  rewrite Nat.add_0_r.
  assert (imap ((fun i w0 => ((k + i)%nat, w0)) ∘ S) ws
          = imap (fun i w0 => ((S k + i)%nat, w0)) ws) as Himap.
  { apply imap_ext. intros. simpl. f_equal. lia. }
  rewrite Himap. destruct (IH (S k)) as [Hnd Hge].
  destruct (flexible_weight w); simpl.
  - split.
    + apply NoDup_cons. split; [|done]. intros Hin. apply Hge in Hin. lia.
    + intros j [->|Hj]%elem_of_cons; [lia|]. apply Hge in Hj. lia.
  - split; [done|]. intros j Hj. apply Hge in Hj. lia.
Qed.

(** Floored shares of a pool: they fit in it, and miss less than one cell per
    child. *)
Lemma floored_shares_bounds pool total ws :
  0 < total ->
  sum_cells ((fun w => (pool * w) `div` total) <$> ws) * total <= pool * sum_cells ws
  /\ pool * sum_cells ws
     <= sum_cells ((fun w => (pool * w) `div` total) <$> ws) * total
        + N.of_nat (length ws) * (total - 1).
Proof.
  intros Ht. induction ws as [|w ws [IH1 IH2]]; csimpl; [lia|].
  pose proof (N.Div0.div_mod (pool * w) total) as Hd.
  pose proof (N.mod_upper_bound (pool * w) total ltac:(lia)) as Hm.
  rewrite Nat2N.inj_succ, N.mul_succ_l, N.mul_add_distr_r, N.mul_add_distr_l.
  set (d := (pool * w) `div` total) in *. set (m := (pool * w) `mod` total) in *.
  set (pw := pool * w) in *. clearbody d m pw. rewrite (N.mul_comm total d) in Hd.
  split; lia.
Qed.

Lemma share_loop_spec pool total pairs counts c' assigned :
  pool <= U16_MAX -> NoDup pairs.*1 ->
  (forall j w, (j, w) ∈ pairs -> (j < length counts)%nat /\ cell_at counts j = 0 /\ w <= total) ->
  foldl (assign_flexible_share pool total) (counts, 0) pairs = (c', assigned) ->
  length c' = length counts
  /\ assigned = sum_cells ((fun w => if total =? 0 then 0 else (pool * w) `div` total) <$> pairs.*2)
  /\ sum_cells c' = sum_cells counts + assigned.
Proof.
  intros Hpool Hnd Hpairs Heq.
  destruct (foldl_prefix_inv (fun pre st =>
    length st.1 = length counts
    /\ st.2 = sum_cells ((fun w => if total =? 0 then 0 else (pool * w) `div` total) <$> pre.*2)
    /\ sum_cells st.1 = sum_cells counts + st.2
    /\ (forall j, j ∉ pre.*1 -> cell_at st.1 j = cell_at counts j))
    (assign_flexible_share pool total) pairs (counts, 0)) as (H1 & H2 & H3 & _).
  - split_and!; [done|done|simpl; lia|done].
  - intros pre [i w] post [c a] -> (H1 & H2 & H3 & H4). simpl in *.
    rewrite fmap_app in Hnd. simpl in Hnd. apply NoDup_app in Hnd as (_ & Hdis & _).
    assert (i ∉ pre.*1) as Hfresh by (intros Hin; apply (Hdis i Hin); left).
    destruct (Hpairs i w) as (Hi & Hz & Hw); [set_solver|].
    assert (forall x, (if total =? 0 then 0 else as_u16 ((pool * w) `div` total)) = x ->
      x = if total =? 0 then 0 else (pool * w) `div` total) as Hshare.
    { intros x <-. case_match eqn:E; [done|]. bools. apply as_u16_exact.
      assert ((pool * w) `div` total <= pool); [|lia].
      apply N.Div0.div_le_upper_bound. nia. }
    rewrite (Hshare _ eq_refl). rewrite length_insert, !fmap_app, sum_cells_app. simpl.
    pose proof (sum_cells_insert_at c i
      (if total =? 0 then 0 else (pool * w) `div` total) ltac:(lia)) as Hsum.
    rewrite (H4 i Hfresh), Hz in Hsum. split_and!; [done|lia|lia|].
    intros j Hj. rewrite cell_at_insert_ne by set_solver. apply H4. set_solver.
  - rewrite Heq in *. done.
Qed.

Lemma leftover_loop_spec counts pairs :
  NoDup pairs.*1 -> (forall j w, (j, w) ∈ pairs -> (j < length counts)%nat) ->
  sum_cells counts + N.of_nat (length pairs) <= U16_MAX ->
  length (foldl add_leftover_cell counts pairs) = length counts
  /\ sum_cells (foldl add_leftover_cell counts pairs)
     = sum_cells counts + N.of_nat (length pairs).
Proof.
  revert counts. induction pairs as [|[i w] pairs IH]; intros counts Hnd Hlt Hsum; simpl.
  { split; [done|lia]. }
  simpl in Hnd. apply NoDup_cons in Hnd as [_ Hnd]. unfold add_leftover_cell at 2 4. simpl.
  assert (i < length counts)%nat as Hi by (eapply Hlt; left).
  pose proof (sum_cells_cell_at_le counts i). simpl in Hsum.
  rewrite u16_add_exact by lia.
  pose proof (sum_cells_insert_at counts i (cell_at counts i + 1) Hi) as Hs.
  destruct (IH (<[i := cell_at counts i + 1]> counts)) as [IH1 IH2];
    [done|intros; rewrite length_insert; eapply Hlt; by right|lia|].
  rewrite IH1, IH2, length_insert. split; [done|lia].
Qed.

(** The cells of the axis no fixed or percent child claimed. *)
Definition total_flexible_weight (weights : list SizeWeight) : N :=
  sum_cells (list_flexible_child_weight_pairs weights).*2.

Lemma flexible_weight_requests available w fw :
  flexible_weight w = Some fw -> fixed_request w = None /\ percent_request available w = None.
Proof. unfold flexible_weight, fixed_request, percent_request. by case_match. Qed.

Lemma percent_request_fixed available w :
  is_Some (percent_request available w) -> fixed_request w = None.
Proof. unfold fixed_request, percent_request. case_match; [|done..]; by intros []. Qed.

Lemma flexible_weight_le_total weights j w :
  (j, w) ∈ list_flexible_child_weight_pairs weights -> w <= total_flexible_weight weights.
Proof.
  intros Hin. unfold total_flexible_weight.
  assert (w ∈ (list_flexible_child_weight_pairs weights).*2) as [k Hk]%list_elem_of_lookup.
  { apply list_elem_of_fmap. by exists (j, w). }
  by eapply sum_cells_lookup_le.
Qed.

(** The shares never exceed the axis, and fill it when a flexible child has a
    weight. *)
Lemma compute_share_cell_counts_spec weights available :
  available <= U16_MAX ->
  let shares := compute_share_cell_counts weights available in
  length shares = length weights /\ sum_cells shares <= available
  /\ (0 < total_flexible_weight weights -> sum_cells shares = available).
Proof.
  intros Hav. unfold compute_share_cell_counts. fold (total_flexible_weight weights).
  rewrite (foldl_ext_eq claim_fixed_cells _ _ _ claim_fixed_cells_eq).
  rewrite (foldl_ext_eq (claim_percent_cells available) _ _ _ (claim_percent_cells_eq available)).
  destruct (foldl (claim_requested fixed_request) _ _) as [c1 r1] eqn:E1.
  apply claim_loop_spec in E1 as (L1 & S1 & R1 & K1);
    [|apply length_replicate|done|intros j w Hj _; unfold cell_at;
      by rewrite lookup_replicate_2 by (by eapply lookup_lt_Some)].
  rewrite sum_cells_replicate_0 in S1.
  assert (forall j w, weights !! j = Some w -> fixed_request w = None -> cell_at c1 j = 0) as Z1.
  { intros j w Hw Hn. rewrite (K1 j w Hw Hn). unfold cell_at.
    by rewrite lookup_replicate_2 by (by eapply lookup_lt_Some). }
  destruct (foldl (claim_requested (percent_request available)) _ _) as [c2 r2] eqn:E2.
  apply claim_loop_spec in E2 as (L2 & S2 & R2 & K2);
    [|done|lia|intros j w Hw Hp; eapply Z1; [done|by eapply percent_request_fixed]].
  simpl. destruct (foldl (assign_flexible_share _ _) _ _) as [c3 assigned] eqn:E3.
  pose proof (NoDup_flexible_pairs weights) as Hnd.
  set (pairs := list_flexible_child_weight_pairs weights) in *.
  assert (forall j w, (j, w) ∈ pairs -> (j < length weights)%nat) as Hlt.
  { intros j w (sw & Hl & _)%elem_of_flexible_pairs. by eapply lookup_lt_Some. }
  apply share_loop_spec in E3 as (L3 & A3 & S3); [|lia|done|].
  2: { intros j w Hin. split_and!; [rewrite L2; by eapply Hlt| |by eapply flexible_weight_le_total].
       apply elem_of_flexible_pairs in Hin as (sw & Hl & Hf).
       destruct (flexible_weight_requests available _ _ Hf) as [Hn1 Hn2].
       rewrite (K2 j sw Hl Hn2). by eapply Z1. }
  simpl.
  assert (assigned <= r2 /\ (0 < total_flexible_weight weights ->
    r2 - assigned < N.of_nat (length pairs))) as [Has Hleft].
  { rewrite A3. case_match eqn:E; bools.
    { rewrite sum_cells_zeros. split; lia. }
    destruct (floored_shares_bounds r2 (total_flexible_weight weights) pairs.*2) as [B1 B2]; [lia|].
    rewrite length_fmap in B2.
    change (sum_cells pairs.*2) with (total_flexible_weight weights) in B1, B2.
    assert (pairs <> []) as Hne.
    { intros Hp. apply E. unfold total_flexible_weight. fold pairs. by rewrite Hp. }
    assert (0 < N.of_nat (length pairs)) as Hk by (destruct pairs; [done|simpl length; lia]).
    set (T := total_flexible_weight weights) in *.
    set (A := sum_cells ((fun w => (r2 * w) `div` T) <$> pairs.*2)) in *.
    set (k := N.of_nat (length pairs)) in *. clearbody A T k.
    split; [apply N.mul_le_mono_pos_r with T; lia|]. intros _.
    assert (r2 * T < (A + k) * T) as Hlt'%N.mul_lt_mono_pos_r; [nia|lia..]. }
  set (lo := r2 - assigned) in *.
  assert (length (take (N.to_nat lo) (reverse pairs)) = N.to_nat lo `min` length pairs)%nat as Htk.
  { rewrite length_take, length_reverse. done. }
  destruct (leftover_loop_spec c3 (take (N.to_nat lo) (reverse pairs))) as [L4 S4].
  - rewrite fmap_take. apply NoDup_prefix_take. rewrite fmap_reverse, reverse_Permutation. done.
  - intros j w Hin%elem_of_take. destruct Hin as (k & Hk & _).
    apply list_elem_of_lookup_2 in Hk. rewrite elem_of_reverse in Hk.
    rewrite L3, L2. by eapply Hlt.
  - rewrite Htk. lia.
  - rewrite L4, S4, Htk. split_and!; [lia|lia|]. intros Hpos. specialize (Hleft Hpos). lia.
Qed.

(** ** What the directional solve relies on *)

(** A way to divide an axis among weighted children with floors. *)
Class AxisDistribution (distribute : list SizeWeight -> list N -> N -> list N) : Prop :=
  { dist_length weights floors available :
      length floors = length weights -> available <= U16_MAX ->
      length (distribute weights floors available) = length weights;
    dist_sum weights floors available :
      length floors = length weights -> available <= U16_MAX -> weights <> [] ->
      sum_cells (distribute weights floors available) = available;
    dist_floor weights floors available j :
      length floors = length weights -> available <= U16_MAX -> sum_cells floors <= available ->
      cell_at floors j <= cell_at (distribute weights floors available) j }.

Lemma targeted_length weights floors available :
  available <= U16_MAX -> length floors = length weights -> weights <> [] ->
  length weights = length (apply_preferred_cell_counts
    (repair_cell_count_sum (compute_share_cell_counts weights available) available)
    weights floors).
Proof.
  intros Hav Hlen Hne.
  destruct (compute_share_cell_counts_spec weights available Hav) as (L1 & S1 & _).
  set (shares := compute_share_cell_counts weights available) in *.
  assert (all_u16 shares) as Hu by (apply all_u16_sum; lia).
  pose proof (repair_length shares available Hu) as L2.
  assert (shares <> []) as Hs by (intros E; rewrite E in L1; by destruct weights).
  pose proof (repair_sum shares available Hu Hs Hav) as S2.
  destruct (apply_preferred_spec weights floors (repair_cell_count_sum shares available))
    as (L3 & _ & _); lia.
Qed.

Lemma distribute_axis_cells_spec weights floors available :
  length floors = length weights -> available <= U16_MAX -> weights <> [] ->
  let counts := distribute_axis_cells weights floors available in
  length counts = length weights /\ sum_cells counts = available
  /\ (sum_cells floors <= available -> forall j, cell_at floors j <= cell_at counts j).
Proof.
  intros Hlen Hav Hne. unfold distribute_axis_cells. simpl.
  pose proof (targeted_length weights floors available Hav Hlen Hne) as L3.
  set (targeted := apply_preferred_cell_counts _ weights floors) in *.
  destruct (apply_resize_deltas_spec targeted weights available) as (L4 & S4);
    [done|by intros E; rewrite E in L3; destruct weights|done|].
  set (resized := apply_resize_deltas targeted weights available) in *.
  destruct (clamp_cell_counts_to_floors_spec resized weights floors available)
    as (L5 & S5 & F5); [lia..|].
  split_and!; [lia|done|done].
Qed.

Lemma distribute_axis_cells_nil available :
  distribute_axis_cells [] [] available = [].
Proof.
  assert (compute_share_cell_counts [] available = []) as Hshares.
  { unfold compute_share_cell_counts. simpl. by destruct (N.to_nat _). }
  assert (repair_cell_count_sum [] available = []) as Hrepair.
  { unfold repair_cell_count_sum. simpl. by repeat case_match. }
  unfold distribute_axis_cells. rewrite Hshares, Hrepair.
  unfold apply_preferred_cell_counts, apply_resize_deltas. simpl. rewrite Hrepair.
  unfold clamp_cell_counts_to_floors. by case_match.
Qed.

#[export] Instance distribute_axis_cells_laws : AxisDistribution distribute_axis_cells.
Proof.
  split; intros weights floors available; intros.
  - destruct weights as [|w ws]; [|by apply distribute_axis_cells_spec].
    destruct floors; [|done]. by rewrite distribute_axis_cells_nil.
  - by apply distribute_axis_cells_spec.
  - destruct weights as [|w ws]; [destruct floors; [|done]; apply N.le_0_l|].
    by apply distribute_axis_cells_spec.
Qed.

(** ** Passes that change nothing *)

Lemma clamp_cell_counts_to_floors_id counts weights floors available :
  (forall j, cell_at floors j <= cell_at counts j) ->
  clamp_cell_counts_to_floors counts weights floors available = counts.
Proof.
  intros H. unfold clamp_cell_counts_to_floors. case_match; [done|].
  apply (foldl_inv (fun c => c = counts)); [done|]. intros c i _ ->.
  unfold clamp_to_floor_at. specialize (H i). case_match; bools; [lia|done].
Qed.

Lemma apply_preferred_cell_counts_id counts weights floors :
  Forall (fun w => get_preferred_cell_count w = None) weights ->
  apply_preferred_cell_counts counts weights floors = counts.
Proof.
  intros H. apply (foldl_inv (fun c => c = counts)); [done|]. intros c i Hi%elem_of_range ->.
  unfold apply_preferred_at, weight_at.
  destruct (lookup_lt_is_Some_2 weights i Hi) as [w Hw]. rewrite Hw. simpl.
  rewrite Forall_lookup in H. by rewrite (H i w Hw).
Qed.

(** Deltas that keep every child inside the axis, and the sum of the counts,
    apply as written. *)
Lemma apply_resize_deltas_exact counts counts' weights available :
  length weights = length counts -> length counts' = length counts ->
  sum_cells counts' = available ->
  (forall j w, weights !! j = Some w ->
     Z.of_N (cell_at counts' j) = (Z.of_N (cell_at counts j) + resize_delta w)%Z) ->
  apply_resize_deltas counts weights available = counts'.
Proof.
  intros Hw Hl Hs Hcells. unfold apply_resize_deltas. rewrite resize_loop_eq by done.
  assert (zip_with (resized_cell_count available) counts weights = counts') as ->;
    [|by apply repair_id].
  apply cells_eq; [rewrite length_zip_with; lia|]. intros j Hj.
  rewrite length_zip_with in Hj.
  destruct (lookup_lt_is_Some_2 weights j ltac:(lia)) as [w Hjw].
  rewrite (cell_at_zip_with _ _ _ _ w) by (done || lia). specialize (Hcells j w Hjw).
  pose proof (sum_cells_cell_at_le counts' j). unfold resized_cell_count. unfold_int.
  repeat case_match; bools; lia.
Qed.

(** ** Plain flexible children *)

(** Counts that are the targets plus the deltas, fill the axis and respect the
    floors are what the distribution gives. *)
Lemma distribute_exact weights floors available counts :
  length floors = length weights -> available <= U16_MAX -> weights <> [] ->
  length counts = length weights -> sum_cells counts = available ->
  (forall j, cell_at floors j <= cell_at counts j) ->
  (forall j w, weights !! j = Some w ->
     Z.of_N (cell_at counts j)
     = (Z.of_N (cell_at (apply_preferred_cell_counts
          (repair_cell_count_sum (compute_share_cell_counts weights available) available)
          weights floors) j) + resize_delta w)%Z) ->
  distribute_axis_cells weights floors available = counts.
Proof.
  intros Hlf Hav Hne Hl Hs Hfl Hd. unfold distribute_axis_cells.
  pose proof (targeted_length weights floors available Hav Hlf Hne) as Ht.
  rewrite (apply_resize_deltas_exact _ counts) by (done || congruence).
  by apply clamp_cell_counts_to_floors_id.
Qed.

Definition flex (w : N) : SizeWeight := from_primary_constraint (Flex w).

Lemma flexible_pairs_flex ws : list_flexible_child_weight_pairs (flex <$> ws) = enumerate ws.
Proof.
  unfold list_flexible_child_weight_pairs, enumerate.
  assert (forall k, omap (fun iw : nat * SizeWeight => pair iw.1 <$> flexible_weight iw.2)
            (imap (fun i w => ((k + i)%nat, w)) (flex <$> ws))
          = imap (fun i w => ((k + i)%nat, w)) ws) as H; [|apply (H 0%nat)].
  induction ws as [|w ws IH]; intros k; [done|]. csimpl. f_equal.
  rewrite (imap_ext _ (fun i w0 => ((S k + i)%nat, w0))), IH.
  - apply imap_ext. intros. simpl. f_equal. lia.
  - intros. simpl. f_equal. lia.
Qed.

Lemma claim_requested_none request ws st :
  Forall (fun w => request w = None) ws ->
  foldl (claim_requested request) st (enumerate ws) = st.
Proof.
  intros H. apply (foldl_inv (fun st' => st' = st)); [done|].
  intros st' [i w] Hin%elem_of_enumerate ->. unfold claim_requested. simpl.
  rewrite Forall_lookup in H. by rewrite (H i w Hin).
Qed.

(** The share of each child, in order. *)
Lemma share_loop_values pool total ws counts a :
  length ws = length counts -> total <> 0 ->
  (foldl (assign_flexible_share pool total) (counts, a) (enumerate ws)).1
  = (fun w => as_u16 ((pool * w) `div` total)) <$> ws.
Proof.
  intros Hlen Ht%N.eqb_neq.
  assert (forall l st, (foldl (assign_flexible_share pool total) st l).1
    = foldl (fun cs (iw : nat * N) =>
        <[iw.1 := (fun _ w => as_u16 ((pool * w) `div` total)) (cell_at cs iw.1) iw.2]> cs)
        st.1 l) as ->.
  { induction l as [|iw l IH]; intros st; [done|]. simpl. rewrite IH. simpl. by rewrite Ht. }
  rewrite (foldl_enumerate_update (fun _ w => as_u16 ((pool * w) `div` total))) by done.
  simpl. revert counts Hlen. induction ws; intros [|] ?; simplify_eq/=; [done|]. f_equal. auto.
Qed.

Lemma leftover_loop_value counts pairs j :
  NoDup pairs.*1 -> (forall i w, (i, w) ∈ pairs -> (i < length counts)%nat) ->
  (forall i, i ∈ pairs.*1 -> cell_at counts i < U16_MAX) ->
  cell_at (foldl add_leftover_cell counts pairs) j
  = cell_at counts j + (if decide (j ∈ pairs.*1) then 1 else 0).
Proof.
  intros Hnd. revert counts. induction pairs as [|[i w] pairs IH]; intros counts Hlt Hu.
  { destruct (decide _) as [H|_]; [by apply not_elem_of_nil in H|simpl; lia]. }
  change (((i, w) :: pairs).*1) with (i :: pairs.*1) in *. simpl foldl.
  apply NoDup_cons in Hnd as [Hi Hnd].
  assert (i < length counts)%nat as Hil by (eapply Hlt; left).
  assert (cell_at counts i < U16_MAX) as Hci by (apply Hu; left).
  rewrite IH; [|done|intros k v Hk; unfold add_leftover_cell; simpl; rewrite length_insert;
    eapply Hlt; by right|].
  - unfold add_leftover_cell. simpl. rewrite u16_add_exact by lia.
    destruct (decide (i = j)) as [->|Hne].
    + rewrite cell_at_insert_eq by done. rewrite (decide_False (P := j ∈ pairs.*1)) by done.
      rewrite decide_True by left. lia.
    + rewrite cell_at_insert_ne by done. f_equal. repeat case_decide; set_solver.
  - intros k Hk. unfold add_leftover_cell. simpl. rewrite cell_at_insert_ne by set_solver.
    apply Hu. by right.
Qed.

Lemma enumerate_fst {A} (l : list A) : (enumerate l).*1 = range (length l).
Proof.
  apply list_eq. intros i. unfold enumerate, range.
  rewrite list_lookup_fmap, list_lookup_imap. destruct (decide (i < length l)%nat) as [Hi|Hi].
  - destruct (lookup_lt_is_Some_2 l i Hi) as [x Hx]. rewrite Hx. simpl.
    symmetry. by apply lookup_seq.
  - rewrite lookup_ge_None_2 by lia. simpl. symmetry. apply lookup_ge_None_2.
    rewrite length_seq. lia.
Qed.

Lemma enumerate_snd {A} (l : list A) : (enumerate l).*2 = l.
Proof.
  apply list_eq. intros i. unfold enumerate.
  rewrite list_lookup_fmap, list_lookup_imap. by destruct (l !! i).
Qed.

(** The last [n] indices of a list. *)
Lemma elem_of_trailing_indices {A} (l : list A) n j :
  j ∈ (take n (reverse (enumerate l))).*1 <-> (length l - n <= j < length l)%nat.
Proof.
  rewrite fmap_take, fmap_reverse, enumerate_fst, list_elem_of_lookup. split.
  - intros [i Hi]. apply lookup_take_Some in Hi as [Hi Hn].
    apply reverse_lookup_Some in Hi as [Hi Hl]. rewrite range_length in *.
    unfold range in Hi. apply lookup_seq in Hi. lia.
  - intros [H1 H2]. exists (length l - S j)%nat. apply lookup_take_Some. split; [|lia].
    apply reverse_lookup_Some. rewrite range_length. split; [|lia].
    unfold range. apply lookup_seq. lia.
Qed.

(** Plain flexible children divide the axis in proportion to their weights;
    the cells integer division leaves over go to the trailing children, one
    each. *)
Section flex_children.
Context (ws : list N) (available : N).
Context (Htotal : 0 < sum_cells ws) (Havailable : available < U16_MAX).

Definition flex_share (v : N) : N := (available * v) `div` sum_cells ws.
Definition flex_leftover : N := available - sum_cells (flex_share <$> ws).
Definition flex_counts : list N :=
  foldl add_leftover_cell (flex_share <$> ws)
    (take (N.to_nat flex_leftover) (reverse (enumerate ws))).

Lemma flex_share_le i v : ws !! i = Some v -> flex_share v <= available.
Proof.
  intros Hv. apply N.Div0.div_le_upper_bound. rewrite N.mul_comm.
  apply N.mul_le_mono_r. by eapply sum_cells_lookup_le.
Qed.

Lemma flex_shares : compute_share_cell_counts (flex <$> ws) available = flex_counts.
Proof using Htotal Havailable.
  unfold compute_share_cell_counts.
  rewrite (foldl_ext_eq claim_fixed_cells _ _ _ claim_fixed_cells_eq).
  rewrite (foldl_ext_eq (claim_percent_cells available) _ _ _
    (claim_percent_cells_eq available)).
  rewrite !claim_requested_none by (apply Forall_fmap, Forall_true; done). simpl.
  rewrite flexible_pairs_flex.
  rewrite enumerate_snd.
  pose proof (NoDup_flexible_pairs (flex <$> ws)) as Hnd. rewrite flexible_pairs_flex in Hnd.
  pose proof (share_loop_values available (sum_cells ws) ws
    (replicate (length (flex <$> ws)) 0) 0) as Hv.
  destruct (foldl _ (_, 0) _) as [c a] eqn:E. simpl in *.
  apply share_loop_spec in E as (_ & Ha & _); [|lia|done|].
  2: { intros i v Hin%elem_of_enumerate. split_and!.
       - rewrite length_replicate, length_fmap. by eapply lookup_lt_Some.
       - unfold cell_at. rewrite lookup_replicate_2; [done|].
         rewrite length_fmap. by eapply lookup_lt_Some.
       - by eapply sum_cells_lookup_le. }
  rewrite enumerate_snd in Ha.
  assert (forall v, (if sum_cells ws =? 0 then 0 else (available * v) `div` sum_cells ws)
    = flex_share v) as Hs.
  { intros v. case_match; bools; [lia|done]. }
  rewrite (list_fmap_ext _ flex_share) in Ha by (intros; apply Hs).
  rewrite Hv, Ha by (rewrite ?length_replicate, ?length_fmap; lia).
  unfold flex_counts. f_equal. apply list_fmap_ext. intros i v Hin.
  apply as_u16_exact. transitivity available; [by eapply flex_share_le|lia].
Qed.

Lemma flex_counts_value i v :
  ws !! i = Some v ->
  cell_at flex_counts i
  = flex_share v + (if (length ws - N.to_nat flex_leftover <=? i)%nat then 1 else 0).
Proof using Htotal Havailable.
  intros Hi. unfold flex_counts. rewrite leftover_loop_value.
  - assert (cell_at (flex_share <$> ws) i = flex_share v) as ->.
    { apply cell_at_lookup. by rewrite list_lookup_fmap, Hi. }
    f_equal. apply lookup_lt_Some in Hi.
    destruct (decide _) as [Hd|Hd]; rewrite elem_of_trailing_indices in Hd;
      case_match; bools; (done || lia).
  - rewrite fmap_take, fmap_reverse, enumerate_fst. apply NoDup_prefix_take.
    rewrite reverse_Permutation. apply NoDup_range.
  - intros k u Hk. rewrite length_fmap.
    assert (k ∈ (take (N.to_nat flex_leftover)
      (reverse (enumerate ws))).*1) as Hk'%elem_of_trailing_indices; [|lia].
    apply list_elem_of_fmap. by exists (k, u).
  - intros k [_ Hk]%elem_of_trailing_indices.
    destruct (lookup_lt_is_Some_2 ws k Hk) as [u Hu].
    rewrite (cell_at_lookup _ _ (flex_share u)) by (by rewrite list_lookup_fmap, Hu).
    pose proof (flex_share_le k u Hu). lia.
Qed.

Lemma flex_counts_sum : sum_cells flex_counts = available /\ length flex_counts = length ws.
Proof using Htotal Havailable.
  rewrite <- flex_shares. destruct (compute_share_cell_counts_spec (flex <$> ws) available)
    as (Hl & _ & Hs); [lia|]. rewrite Hl, length_fmap. split; [apply Hs|done].
  unfold total_flexible_weight. by rewrite flexible_pairs_flex, enumerate_snd.
Qed.

Lemma flex_distribution floors :
  length floors = length ws ->
  (forall i v, ws !! i = Some v -> cell_at floors i <= flex_share v) ->
  distribute_axis_cells (flex <$> ws) floors available = flex_counts.
Proof using Htotal Havailable.
  intros Hlf Hfl. destruct flex_counts_sum as [Hsum Hlen].
  unfold distribute_axis_cells. rewrite flex_shares, repair_id by done.
  rewrite apply_preferred_cell_counts_id by (apply Forall_fmap, Forall_true; done).
  rewrite (apply_resize_deltas_exact flex_counts flex_counts); [|by rewrite length_fmap|done..|].
  - rewrite clamp_cell_counts_to_floors_id; [done|]. intros i.
    destruct (ws !! i) as [v|] eqn:Hi.
    + rewrite (flex_counts_value i v Hi). specialize (Hfl i v Hi). lia.
    + apply lookup_ge_None_1 in Hi. rewrite (cell_at_ge floors) by lia. lia.
  - intros i v Hi. apply list_lookup_fmap_Some in Hi as (u & -> & _). simpl. lia.
Qed.
End flex_children.

(** ** Properties *)

(** The counts of a directional split's children are one per child, sum to
    exactly the cells of the axis, and reach every child's floor whenever the
    floors fit: no pass loses or invents a cell, on any mix of constraints,
    targets, user resizes and floors. *)
Theorem distribute_fills_axis weights floors available :
  length floors = length weights -> available <= U16_MAX -> weights <> [] ->
  length (distribute_axis_cells weights floors available) = length weights
  /\ sum_cells (distribute_axis_cells weights floors available) = available
  /\ (sum_cells floors <= available ->
      forall j, cell_at floors j <= cell_at (distribute_axis_cells weights floors available) j).
Proof. apply distribute_axis_cells_spec. Qed.

Lemma distribute_fills_axis_witness :
  length [6; 4; 4] = 3%nat
  /\ sum_cells (distribute_axis_cells
       [from_primary_constraint (Fixed 30); set_resize_delta 7 default_size_weight;
        from_primary_constraint (Percent 50)] [6; 4; 4] 100) = 100.
Proof.
  split; [reflexivity|].
  apply (distribute_fills_axis
    [from_primary_constraint (Fixed 30); set_resize_delta 7 default_size_weight;
     from_primary_constraint (Percent 50)] [6; 4; 4] 100); [reflexivity|lia|discriminate].
Defined.

(** Children that only flex, and whose shares meet their floors, get the
    floored proportion of the axis their weight asks for, and the cells the
    integer division leaves over go to the trailing children, one each. *)
Theorem flexible_children_share_proportionally ws floors available j w :
  0 < sum_cells ws -> available < U16_MAX -> length floors = length ws ->
  (forall i v, ws !! i = Some v -> cell_at floors i <= (available * v) `div` sum_cells ws) ->
  ws !! j = Some w ->
  let shares := (fun v => (available * v) `div` sum_cells ws) <$> ws in
  let leftover := available - sum_cells shares in
  cell_at (distribute_axis_cells (flex <$> ws) floors available) j
  = (available * w) `div` sum_cells ws
    + (if (length ws - N.to_nat leftover <=? j)%nat then 1 else 0).
Proof.
  intros Ht Hav Hlf Hfl Hj. rewrite flex_distribution by done. by apply flex_counts_value.
Qed.

Lemma flexible_children_share_proportionally_witness :
  0 < sum_cells [1; 1; 2]
  /\ cell_at (distribute_axis_cells (flex <$> [1; 1; 2]) [4; 4; 4] 101) 2 = 51.
Proof.
  split; [reflexivity|].
  refine (flexible_children_share_proportionally [1; 1; 2] [4; 4; 4] 101 2 2 _ _ _ _ _);
    [reflexivity|lia|reflexivity| |reflexivity].
  intros [|[|[|i]]] v Hi; simplify_eq/=; vm_compute; discriminate.
Defined.

(** User resizes are exact cell deltas. When the deltas of a split sum to
    what keeps its axis full and leave every child at its floor or above,
    [targeted] being the counts before the resizes, each child ends at
    exactly its count plus its delta. *)
Theorem resize_deltas_apply_exactly weights floors available counts :
  length floors = length weights -> available <= U16_MAX -> weights <> [] ->
  let targeted := apply_preferred_cell_counts
    (repair_cell_count_sum (compute_share_cell_counts weights available) available)
    weights floors in
  length counts = length weights -> sum_cells counts = available ->
  (forall j, cell_at floors j <= cell_at counts j) ->
  (forall j w, weights !! j = Some w ->
     Z.of_N (cell_at counts j) = (Z.of_N (cell_at targeted j) + resize_delta w)%Z) ->
  distribute_axis_cells weights floors available = counts.
Proof.
  intros Hlf Hav Hne targeted Hl Hs Hfl Hd. by apply distribute_exact.
Qed.

Lemma resize_deltas_apply_exactly_witness :
  distribute_axis_cells
    [set_resize_delta 10 (from_primary_constraint (Preferred 30));
     set_resize_delta (-10) default_size_weight] [4; 4] 100 = [40; 60].
Proof.
  apply (resize_deltas_apply_exactly _ [4; 4] 100 [40; 60]);
    [reflexivity|lia|discriminate|reflexivity|reflexivity| |].
  - intros [|[|j]]; vm_compute; discriminate.
  - intros [|[|j]] w Hj; simplify_eq/=; reflexivity.
Defined.
