(* ===== verification/Solver.v ===== *)
(** * The geometry solver ([crates/koshi-layout/src/solver.rs] without the
    axis distribution, and [mode.rs])

    A layout tree and a tab rectangle in, exact pane rectangles out. The solve
    threads [LayoutSolveState], the accumulators of the source; a vector push
    appends at the end. *)

From S2P Require Import Prelude Geometry Size Tree Distribute.
From stdpp Require Import options.

(** ** Data *)

Definition MIN_PANE_SIZE : Size := MkSize 2 1.
Definition PANE_BORDER_SIZE : Size := MkSize 2 2.

Record PaneSizing := MkPaneSizing { minimum_size : Size; gap_cell_count : N }.

Definition default_pane_sizing : PaneSizing := MkPaneSizing MIN_PANE_SIZE 0.

Inductive LayoutMode :=
  | Tiled
  | Fullscreen (focused_pane_id : PaneId).

Record StackHeader := MkStackHeader
  { header_pane_id : PaneId;
    header_rect : Rect;
    member_index : nat;
    member_count : nat }.

Record LayoutSolve := MkLayoutSolve
  { pane_rects : list (PaneId * Rect);
    suppressed_pane_ids : list PaneId;
    is_every_pane_suppressed : bool;
    stack_headers : list StackHeader }.

Record LayoutSolveState := MkLayoutSolveState
  { state_pane_sizing : PaneSizing;
    state_pane_rects : list (PaneId * Rect);
    state_suppressed_pane_ids : list PaneId;
    state_stack_headers : list StackHeader }.

#[export] Instance LayoutMode_eq_dec : EqDecision LayoutMode.
Proof. solve_decision. Defined.
#[export] Instance StackHeader_eq_dec : EqDecision StackHeader.
Proof. solve_decision. Defined.

Definition find_pane_rect (solve : LayoutSolve) (pane_id : PaneId) : option Rect :=
  snd <$> List.find (fun entry : PaneId * Rect => entry.1 =? pane_id) (pane_rects solve).

Definition from_pane_sizing (pane_sizing : PaneSizing) : LayoutSolveState :=
  MkLayoutSolveState pane_sizing [] [] [].

Definition into_layout_solve (st : LayoutSolveState) : LayoutSolve :=
  MkLayoutSolve (state_pane_rects st) (state_suppressed_pane_ids st)
    (negb (bool_decide (state_suppressed_pane_ids st = []))
     && forallb (fun entry : PaneId * Rect => is_empty entry.2) (state_pane_rects st))
    (state_stack_headers st).

(** The pushes on the three vectors of the state. *)
Definition push_pane_rect (pane_id : PaneId) (rect : Rect) (st : LayoutSolveState)
    : LayoutSolveState :=
  MkLayoutSolveState (state_pane_sizing st) (state_pane_rects st ++ [(pane_id, rect)])
    (state_suppressed_pane_ids st) (state_stack_headers st).

Definition push_suppressed_pane_id (pane_id : PaneId) (st : LayoutSolveState)
    : LayoutSolveState :=
  MkLayoutSolveState (state_pane_sizing st) (state_pane_rects st)
    (state_suppressed_pane_ids st ++ [pane_id]) (state_stack_headers st).

Definition push_stack_header (header : StackHeader) (st : LayoutSolveState)
    : LayoutSolveState :=
  MkLayoutSolveState (state_pane_sizing st) (state_pane_rects st)
    (state_suppressed_pane_ids st) (state_stack_headers st ++ [header]).

(** ** Minimum sizes *)

Definition compute_border_inclusive_minimum (content_minimum_size : Size) : RequiredSize :=
  from_size_sum content_minimum_size PANE_BORDER_SIZE.

Definition split_axis_and_cross_cell_counts {CellCount} (columns rows : CellCount)
    (is_horizontal_split : bool) : CellCount * CellCount :=
  if is_horizontal_split then (columns, rows) else (rows, columns).

Definition is_horizontal (s : SplitNode) : bool := bool_decide (direction s = Horizontal).

(** The floor a weight declares. *)
Definition weight_floor (w : SizeWeight) : N :=
  let primary_floor := match primary_constraint w with Minimum c => c | _ => 0 end in
  primary_floor `max` default 0 (minimum_cell_count w).

Definition compute_child_floor (s : SplitNode) (child_index : nat) (subtree_axis_minimum : N)
    : N :=
  subtree_axis_minimum `max` default 0 (weight_floor <$> weights s !! child_index).

(** One iteration of the floor loop of a directional split, on
    [(split_axis_cell_count, cross_axis_cell_count)]. *)
Definition add_child_minimum (s : SplitNode) (st : N * N) (im : nat * RequiredSize) : N * N :=
  let '(axis_minimum, cross_minimum) :=
    split_axis_and_cross_cell_counts (required_column_count im.2) (required_row_count im.2)
      (is_horizontal s) in
  (u32_saturating_add st.1 (compute_child_floor s im.1 axis_minimum), st.2 `max` cross_minimum).

(** The two split arms of [compute_minimum_size], over the minimums of the
    children. *)
Definition directional_minimum_size (pane_sizing : PaneSizing) (s : SplitNode)
    (child_minimum_sizes : list RequiredSize) : RequiredSize :=
  let sums := foldl (add_child_minimum s) (0, 0) (enumerate child_minimum_sizes) in
  let gap_count := default U32_MAX (u32_try_from_usize (length (children s) - 1)) in
  let gap_cell_total := u32_saturating_mul (gap_cell_count pane_sizing) gap_count in
  let split_axis_cell_count := u32_saturating_add sums.1 gap_cell_total in
  if is_horizontal s then MkRequiredSize split_axis_cell_count sums.2
  else MkRequiredSize sums.2 split_axis_cell_count.

Definition add_member_minimum (active_member_index : nat) (st : N * N) (im : nat * RequiredSize)
    : N * N :=
  (st.1 `max` required_column_count im.2,
   if (im.1 =? active_member_index)%nat then required_row_count im.2 else st.2).

Definition stack_minimum_size (s : SplitNode) (child_minimum_sizes : list RequiredSize)
    : RequiredSize :=
  let sums := foldl (add_member_minimum (get_active_child_index s)) (0, 0)
                (enumerate child_minimum_sizes) in
  let header_row_count := default U32_MAX (u32_try_from_usize (length (children s) - 1)) in
  MkRequiredSize sums.1 (u32_saturating_add header_row_count sums.2).

Fixpoint compute_minimum_size (pane_sizing : PaneSizing) (n : LayoutNode) : RequiredSize :=
  match n with
  | Pane _ => compute_border_inclusive_minimum (minimum_size pane_sizing)
  | Split s =>
      let child_minimum_sizes := map (compute_minimum_size pane_sizing) (children s) in
      match direction s with
      | Horizontal | Vertical => directional_minimum_size pane_sizing s child_minimum_sizes
      | Stacked => stack_minimum_size s child_minimum_sizes
      end
  end.

Definition compute_stack_minimum_size (s : SplitNode) (pane_sizing : PaneSizing) : RequiredSize :=
  stack_minimum_size s (map (compute_minimum_size pane_sizing) (children s)).

Definition compute_slot_floor (s : SplitNode) (child_index : nat) (is_horizontal_split : bool)
    (pane_sizing : PaneSizing) : N :=
  let child_minimum_size :=
    match children s !! child_index with
    | None => MkRequiredSize 0 0
    | Some child => compute_minimum_size pane_sizing child
    end in
  let '(axis_minimum, _) :=
    split_axis_and_cross_cell_counts (required_column_count child_minimum_size)
      (required_row_count child_minimum_size) is_horizontal_split in
  compute_child_floor s child_index axis_minimum.

Definition is_layout_within_rect (n : LayoutNode) (layout_rect : Rect)
    (pane_sizing : PaneSizing) : bool :=
  RequiredSize_can_fit_inside (compute_minimum_size pane_sizing n) (size layout_rect).

Definition is_leaf_within_minimum (rect : Rect) (pane_sizing : PaneSizing) : bool :=
  RequiredSize_can_fit_inside (compute_border_inclusive_minimum (minimum_size pane_sizing))
    (size rect).

Definition is_content_visible (pane_id : PaneId) (pane_rect : Rect) (headers : list StackHeader)
    : bool :=
  negb (is_empty pane_rect)
  && negb (existsb (fun header => header_pane_id header =? pane_id) headers).

(** ** Directional splits *)

Record KeptChildren := MkKeptChildren
  { is_child_kept : list bool;
    kept_weights : list SizeWeight;
    kept_floors : list N;
    shared_cell_count : N }.

(** The variables of the loop of [list_kept_children]. *)
Record KeepState := MkKeepState
  { keep_flags : list bool;
    keep_weights : list SizeWeight;
    keep_floors : list N;
    can_keep_children : bool;
    claimed_cell_count : N }.

(** One child of the loop. The [expect] on the floor's conversion to [u16]
    cannot fail, as [keep_child_floor_fits] shows: the branch without a value
    is never taken. *)
Definition keep_child (s : SplitNode) (pane_sizing : PaneSizing)
    (available_cell_count available_cross_axis_cell_count : N)
    (st : KeepState) (ic : nat * LayoutNode) : KeepState :=
  let child_minimum_size := compute_minimum_size pane_sizing ic.2 in
  let '(axis_minimum, cross_minimum) :=
    split_axis_and_cross_cell_counts (required_column_count child_minimum_size)
      (required_row_count child_minimum_size) (is_horizontal s) in
  let child_floor := compute_child_floor s ic.1 axis_minimum in
  if available_cross_axis_cell_count <? cross_minimum then st
  else
    let leading_gap_cell_count :=
      if bool_decide (keep_weights st = []) then 0 else gap_cell_count pane_sizing in
    let claimed_cell_count_with_child :=
      u32_saturating_add (u32_saturating_add (claimed_cell_count st) leading_gap_cell_count)
        child_floor in
    if can_keep_children st && (claimed_cell_count_with_child <=? available_cell_count) then
      match u16_try_from child_floor with
      | Some floor =>
          MkKeepState (<[ic.1 := true]> (keep_flags st))
            (keep_weights st ++ [default default_size_weight (weights s !! ic.1)])
            (keep_floors st ++ [floor]) true claimed_cell_count_with_child
      | None => st
      end
    else MkKeepState (keep_flags st) (keep_weights st) (keep_floors st) false
           (claimed_cell_count st).

Definition list_kept_children (s : SplitNode) (split_rect : Rect) (pane_sizing : PaneSizing)
    : KeptChildren :=
  let '(available_cell_count, available_cross_axis_cell_count) :=
    split_axis_and_cross_cell_counts (column_count (size split_rect))
      (row_count (size split_rect)) (is_horizontal s) in
  let st := foldl (keep_child s pane_sizing available_cell_count available_cross_axis_cell_count)
    (MkKeepState (replicate (length (children s)) false) [] [] true 0)
    (enumerate (children s)) in
  let gap_cell_total :=
    u16_saturating_mul (gap_cell_count pane_sizing)
      (usize_as_u16 (length (keep_weights st) - 1)) in
  MkKeptChildren (keep_flags st) (keep_weights st) (keep_floors st)
    (u16_saturating_sub available_cell_count gap_cell_total).

Definition build_directional_child_rect (is_horizontal_split : bool) (split_rect : Rect)
    (axis_offset child_cell_count : N) : Rect :=
  if is_horizontal_split then
    from_origin_and_size
      (MkPoint (u16_saturating_add (column (origin split_rect)) axis_offset)
               (row (origin split_rect)))
      (MkSize child_cell_count (row_count (size split_rect)))
  else
    from_origin_and_size
      (MkPoint (column (origin split_rect))
               (u16_saturating_add (row (origin split_rect)) axis_offset))
      (MkSize (column_count (size split_rect)) child_cell_count).

(** One flag of the rect loop, on [((child_rects, axis_offset),
    kept_child_index)]. *)
Definition place_child (is_horizontal_split : bool) (split_rect : Rect) (gap : N)
    (child_cell_counts : list N) (st : list Rect * N * nat) (is_kept : bool)
    : list Rect * N * nat :=
  let '(child_rects, axis_offset, kept_child_index) := st in
  if negb is_kept then (child_rects ++ [build_empty_at_origin], axis_offset, kept_child_index)
  else
    let child_cell_count := cell_at child_cell_counts kept_child_index in
    (child_rects ++ [build_directional_child_rect is_horizontal_split split_rect axis_offset
                       child_cell_count],
     u16_saturating_add (u16_saturating_add axis_offset child_cell_count) gap,
     S kept_child_index).

Definition compute_directional_child_rects (s : SplitNode) (split_rect : Rect)
    (pane_sizing : PaneSizing) : list Rect :=
  let kept_children := list_kept_children s split_rect pane_sizing in
  let child_cell_counts :=
    distribute_axis_cells (kept_weights kept_children) (kept_floors kept_children)
      (shared_cell_count kept_children) in
  (foldl (place_child (is_horizontal s) split_rect (gap_cell_count pane_sizing) child_cell_counts)
     ([], 0, 0%nat) (is_child_kept kept_children)).1.1.

(** ** Stacks *)

Definition place_member (split_rect : Rect) (active_member_index : nat) (active_row_count : N)
    (st : list Rect * N) (i : nat) : list Rect * N :=
  let member_row_count := if (i =? active_member_index)%nat then active_row_count else 1 in
  (st.1 ++ [from_origin_and_size (MkPoint (column (origin split_rect)) st.2)
              (MkSize (column_count (size split_rect)) member_row_count)],
   u16_saturating_add st.2 member_row_count).

Definition compute_stacked_child_rects (s : SplitNode) (split_rect : Rect)
    (pane_sizing : PaneSizing) : list Rect :=
  let count := length (children s) in
  if (count =? 0)%nat then []
  else if negb (RequiredSize_can_fit_inside (compute_stack_minimum_size s pane_sizing)
                  (size split_rect))
  then replicate count build_empty_at_origin
  else
    let header_row_count := usize_as_u16 (count - 1) in
    let active_row_count := row_count (size split_rect) -16 header_row_count in
    (foldl (place_member split_rect (get_active_child_index s) active_row_count)
       ([], row (origin split_rect)) (range count)).1.

(** ** The solve *)

Definition suppress_layout_subtree (n : LayoutNode) (st : LayoutSolveState) : LayoutSolveState :=
  foldl (fun st pane_id =>
    push_suppressed_pane_id pane_id (push_pane_rect pane_id build_empty_at_origin st))
    st (list_leaf_pane_ids n).

Definition emit_stack_header (child : LayoutNode) (rect : Rect) (index count : nat)
    (st : LayoutSolveState) : LayoutSolveState :=
  match list_leaf_pane_ids child with
  | [] => st
  | first_pane_id :: remaining_pane_ids =>
      foldl (fun st pane_id => push_pane_rect pane_id build_empty_at_origin st)
        (push_stack_header (MkStackHeader first_pane_id rect index count)
           (push_pane_rect first_pane_id rect st))
        remaining_pane_ids
  end.

(** [solve_directional_split] and [solve_stacked_split] are the two split arms
    of the recursion: their loops over children and rects in step. *)
Fixpoint solve_layout_node (n : LayoutNode) (layout_rect : Rect) (st : LayoutSolveState)
    {struct n} : LayoutSolveState :=
  match n with
  | Pane pane_id =>
      if is_leaf_within_minimum layout_rect (state_pane_sizing st)
      then push_pane_rect pane_id layout_rect st
      else push_suppressed_pane_id pane_id (push_pane_rect pane_id build_empty_at_origin st)
  | Split s =>
      match direction s with
      | Horizontal | Vertical =>
          zip_fold (fun _ child child_rect st =>
            if is_empty child_rect then suppress_layout_subtree child st
            else solve_layout_node child child_rect st)
            0 (children s)
            (compute_directional_child_rects s layout_rect (state_pane_sizing st)) st
      | Stacked =>
          zip_fold (fun i child child_rect st =>
            if is_empty child_rect then suppress_layout_subtree child st
            else if (i =? get_active_child_index s)%nat then solve_layout_node child child_rect st
            else emit_stack_header child child_rect i (length (children s)) st)
            0 (children s)
            (compute_stacked_child_rects s layout_rect (state_pane_sizing st)) st
      end
  end.

Definition solve_layout_with_sizing (layout_tree : LayoutNode) (tab_rect : Rect)
    (pane_sizing : PaneSizing) : LayoutSolve :=
  into_layout_solve (solve_layout_node layout_tree tab_rect (from_pane_sizing pane_sizing)).

Definition solve_layout (layout_tree : LayoutNode) (tab_rect : Rect) : LayoutSolve :=
  solve_layout_with_sizing layout_tree tab_rect default_pane_sizing.

Definition place_fullscreen_pane (focused_pane_id : PaneId) (tab_rect : Rect)
    (is_too_small : bool) (st : LayoutSolveState) (pane_id : PaneId) : LayoutSolveState :=
  if negb (pane_id =? focused_pane_id) then push_pane_rect pane_id build_empty_at_origin st
  else if is_too_small then
    push_suppressed_pane_id pane_id (push_pane_rect pane_id build_empty_at_origin st)
  else push_pane_rect pane_id tab_rect st.

Definition solve_layout_with_mode (layout_tree : LayoutNode) (layout_mode : LayoutMode)
    (tab_rect : Rect) (pane_sizing : PaneSizing) : LayoutSolve :=
  match layout_mode with
  | Tiled => solve_layout_with_sizing layout_tree tab_rect pane_sizing
  | Fullscreen focused_pane_id =>
      if negb (has_pane focused_pane_id layout_tree)
      then solve_layout_with_sizing layout_tree tab_rect pane_sizing
      else
        let is_too_small := negb (is_leaf_within_minimum tab_rect pane_sizing) in
        into_layout_solve
          (foldl (place_fullscreen_pane focused_pane_id tab_rect is_too_small)
             (from_pane_sizing pane_sizing) (list_leaf_pane_ids layout_tree))
  end.

(** ** Bands of a rectangle along one axis *)

Definition axis_length (is_h : bool) (r : Rect) : N :=
  if is_h then column_count (size r) else row_count (size r).
Definition cross_length (is_h : bool) (r : Rect) : N :=
  if is_h then row_count (size r) else column_count (size r).
Definition axis_position (is_h : bool) (r : Rect) (p : Point) : N :=
  if is_h then column p - column (origin r) else row p - row (origin r).

Lemma axis_length_le is_h r : Rect_wf r -> axis_length is_h r <= U16_MAX.
Proof. unfold axis_length. destruct is_h; solve_rect. Qed.

(** The band of [count] cells at [offset] holds exactly the points of the
    rectangle at those positions. *)
Lemma in_band is_h r offset count p :
  Rect_wf r -> offset + count <= axis_length is_h r ->
  in_rect p (build_directional_child_rect is_h r offset count) <->
  in_rect p r /\ offset <= axis_position is_h r p < offset + count.
Proof.
  unfold axis_length, axis_position, build_directional_child_rect.
  rewrite !in_rect_iff. destruct is_h; solve_rect.
Qed.

Lemma band_inside is_h r offset count :
  Rect_wf r -> offset + count <= axis_length is_h r ->
  is_inside_rect (build_directional_child_rect is_h r offset count) r = true.
Proof.
  unfold axis_length, build_directional_child_rect. rewrite is_inside_rect_iff.
  destruct is_h; solve_rect.
Qed.

Lemma axis_position_lt is_h r p : in_rect p r -> axis_position is_h r p < axis_length is_h r.
Proof. rewrite in_rect_iff. unfold axis_position, axis_length. destruct is_h; solve_rect. Qed.

Lemma band_axis_length is_h r offset count :
  axis_length is_h (build_directional_child_rect is_h r offset count) = count
  /\ cross_length is_h (build_directional_child_rect is_h r offset count) = cross_length is_h r.
Proof. by destruct is_h. Qed.

(** No cell is in two of the rectangles. *)
Definition pairwise_disjoint (rects : list Rect) : Prop :=
  forall i j r1 r2 p, rects !! i = Some r1 -> rects !! j = Some r2 ->
    in_rect p r1 -> in_rect p r2 -> i = j.

(** Every rectangle is empty or inside [outer]. *)
Definition all_inside (outer : Rect) (rects : list Rect) : Prop :=
  Forall (fun r => is_empty r = true \/ is_inside_rect r outer = true) rects.

(** The rectangles are consecutive bands of [outer], the empty ones apart. *)
Definition banded (is_h : bool) (outer : Rect) (rects : list Rect) : Prop :=
  exists o c : nat -> N, forall i r, rects !! i = Some r ->
    is_empty r = true
    \/ (r = build_directional_child_rect is_h outer (o i) (c i)
        /\ o i + c i <= axis_length is_h outer
        /\ forall j r', (j < i)%nat -> rects !! j = Some r' -> is_empty r' = false ->
             o j + c j <= o i).

Lemma banded_inside is_h outer rects :
  Rect_wf outer -> banded is_h outer rects -> all_inside outer rects.
Proof.
  intros Hwf (o & c & H). apply Forall_lookup. intros i r Hi.
  destruct (H i r Hi) as [|(-> & Hle & _)]; [by left|right]. by apply band_inside.
Qed.

Lemma banded_disjoint is_h outer rects :
  Rect_wf outer -> banded is_h outer rects -> pairwise_disjoint rects.
Proof.
  intros Hwf (o & c & H).
  assert (forall i j r1 r2 p, (j < i)%nat -> rects !! i = Some r1 -> rects !! j = Some r2 ->
    in_rect p r1 -> in_rect p r2 -> False) as Hlt.
  { intros i j r1 r2 p Hji Hi Hj Hp1 Hp2.
    pose proof (in_rect_nonempty _ _ Hp1) as He1. pose proof (in_rect_nonempty _ _ Hp2) as He2.
    destruct (H i r1 Hi) as [|(-> & Hle1 & Hord)]; [congruence|].
    specialize (Hord j r2 Hji Hj He2).
    destruct (H j r2 Hj) as [|(-> & Hle2 & _)]; [congruence|].
    rewrite in_band in Hp1, Hp2 by done. lia. }
  intros i j r1 r2 p Hi Hj Hp1 Hp2.
  destruct (Nat.lt_trichotomy i j) as [|[|]]; [exfalso; by eapply (Hlt j i)|done|].
  exfalso. by eapply (Hlt i j).
Qed.

(** ** Flags and ranks *)

(** The number of set flags before position [k]: the index among the kept
    children of the child at [k]. *)
Definition rank (flags : list bool) (k : nat) : nat := length (filter Is_true (take k flags)).

Lemma rank_0 flags : rank flags 0 = 0%nat.
Proof. by unfold rank. Qed.

Lemma rank_S flags k (b : bool) :
  flags !! k = Some b -> rank flags (S k) = (rank flags k + if b then 1 else 0)%nat.
Proof.
  intros H. unfold rank. rewrite (take_S_r _ _ _ H), filter_app, length_app. f_equal.
  by destruct b.
Qed.

Lemma rank_ge flags k : (length flags <= k)%nat -> rank flags k = rank flags (length flags).
Proof. intros. unfold rank. by rewrite !take_ge by lia. Qed.

Lemma rank_mono flags j k : (j <= k)%nat -> (rank flags j <= rank flags k)%nat.
Proof.
  intros Hjk. induction Hjk as [|k Hjk IH]; [lia|].
  destruct (flags !! k) as [b|] eqn:E.
  - rewrite (rank_S _ _ _ E). lia.
  - apply lookup_ge_None_1 in E. rewrite (rank_ge _ (S k)), <- (rank_ge _ k) by lia. lia.
Qed.

Lemma rank_lt flags j k :
  (j < k)%nat -> flags !! j = Some true -> (rank flags j < rank flags k)%nat.
Proof.
  intros Hjk Hj. pose proof (rank_S _ _ _ Hj) as H. cbv iota in H.
  pose proof (rank_mono flags (S j) k ltac:(lia)). lia.
Qed.

Lemma rank_prefix_insert flags i k b : (k <= i)%nat -> rank (<[i:=b]> flags) k = rank flags k.
Proof. intros. unfold rank. by rewrite take_insert_ge. Qed.

(** Every index below the number of kept children is the rank of one. *)
Lemma rank_onto flags k m :
  (m < rank flags k)%nat -> exists i, (i < k)%nat /\ flags !! i = Some true /\ rank flags i = m.
Proof.
  induction k as [|k IH]; [rewrite rank_0; lia|].
  intros Hm. destruct (flags !! k) as [b|] eqn:E.
  - rewrite (rank_S _ _ _ E) in Hm. destruct (decide (m < rank flags k)%nat) as [Hlt|Hge].
    + destruct (IH Hlt) as (i & ? & ? & ?). exists i. split_and!; [lia|done..].
    + destruct b; cbv iota in Hm; [|lia]. exists k. split_and!; [lia|done|lia].
  - apply lookup_ge_None_1 in E. rewrite (rank_ge _ (S k)), <- (rank_ge _ k) in Hm by lia.
    destruct (IH Hm) as (i & ? & ? & ?). exists i. split_and!; [lia|done..].
Qed.

(** ** Floors and minimum sizes *)

Definition child_axis_floor (pane_sizing : PaneSizing) (s : SplitNode) (i : nat)
    (child : LayoutNode) : N :=
  let m := compute_minimum_size pane_sizing child in
  compute_child_floor s i
    (split_axis_and_cross_cell_counts (required_column_count m) (required_row_count m)
       (is_horizontal s)).1.

Definition child_cross_minimum (pane_sizing : PaneSizing) (s : SplitNode) (child : LayoutNode)
    : N :=
  let m := compute_minimum_size pane_sizing child in
  (split_axis_and_cross_cell_counts (required_column_count m) (required_row_count m)
     (is_horizontal s)).2.

Definition child_axis_floors (pane_sizing : PaneSizing) (s : SplitNode) : list N :=
  imap (child_axis_floor pane_sizing s) (children s).

(** The cells the floors of all children and the gaps between them need. *)
Definition required_axis_cells (pane_sizing : PaneSizing) (s : SplitNode) : N :=
  sum_cells (child_axis_floors pane_sizing s)
  + gap_cell_count pane_sizing * N.of_nat (length (children s) - 1).

Lemma gap_total_eq gap m :
  u32_saturating_mul gap (default U32_MAX (u32_try_from_usize m))
  = (gap * N.of_nat m) `min` U32_MAX.
Proof.
  unfold u32_saturating_mul, u32_try_from_usize, u32_try_from. case_match; bools; simpl; [done|].
  destruct (decide (gap = 0)) as [->|]; [lia|]. nia.
Qed.

Lemma add_child_minimum_eq pane_sizing s a b i child :
  add_child_minimum s (a, b) (i, compute_minimum_size pane_sizing child)
  = (u32_saturating_add a (child_axis_floor pane_sizing s i child),
     b `max` child_cross_minimum pane_sizing s child).
Proof.
  unfold add_child_minimum, child_axis_floor, child_cross_minimum. simpl.
  by destruct (split_axis_and_cross_cell_counts _ _ _).
Qed.

(** The floor loop: saturated sum of the floors, largest cross minimum. *)
Lemma floor_loop_spec pane_sizing s sums :
  foldl (add_child_minimum s) (0, 0)
    (enumerate (map (compute_minimum_size pane_sizing) (children s))) = sums ->
  sums.1 = sum_cells (child_axis_floors pane_sizing s) `min` U32_MAX
  /\ forall x, sums.2 <= x <->
       forall child, child ∈ children s -> child_cross_minimum pane_sizing s child <= x.
Proof.
  intros <-. unfold enumerate, child_axis_floors. set (f := child_axis_floor pane_sizing s).
  assert (forall cs k a b,
    let sums := foldl (add_child_minimum s) (a, b)
      (imap (fun i m => ((k + i)%nat, m)) (map (compute_minimum_size pane_sizing) cs)) in
    a <= U32_MAX ->
    sums.1 = (a + sum_cells (imap (fun i => f (k + i)%nat) cs)) `min` U32_MAX
    /\ forall x, sums.2 <= x <-> b <= x /\
       forall child, child ∈ cs -> child_cross_minimum pane_sizing s child <= x) as H.
  { induction cs as [|c cs IH]; intros k a b sums Ha; subst sums; simpl.
    { split; [lia|]. intros x. split; [|tauto]. intros. split; [done|].
      intros child Hc. by apply not_elem_of_nil in Hc. }
    rewrite Nat.add_0_r.
    rewrite (imap_ext _ (fun i m => ((S k + i)%nat, m))) by (intros; simpl; f_equal; lia).
    rewrite add_child_minimum_eq. fold f.
    destruct (IH (S k) (u32_saturating_add a (f k c))
      (b `max` child_cross_minimum pane_sizing s c)) as [H1 H2];
      [unfold_int; lia|]. rewrite H1. split.
    - rewrite (imap_ext _ (fun i => f (k + S i)%nat)) by (intros; f_equal; lia).
      unfold compose. unfold_int. lia.
    - intros x. rewrite H2. split; intros [Hb Hx].
      + split; [lia|]. intros child [->|Hc]%elem_of_cons; [lia|by apply Hx].
      + pose proof (Hx c ltac:(left)). split; [lia|]. intros child Hc. apply Hx. by right. }
  destruct (H (children s) 0%nat 0 0) as [H1 H2]; [lia|]. simpl in *. split; [exact H1|].
  intros x. rewrite H2. split; [by intros [_ ?]|]. split; [lia|done].
Qed.

(** A directional split fits exactly when its floors and gaps fit the axis and
    every child fits across it. *)
Lemma directional_fits_iff pane_sizing s r :
  direction s <> Stacked -> Rect_wf r ->
  is_layout_within_rect (Split s) r pane_sizing = true <->
  required_axis_cells pane_sizing s <= axis_length (is_horizontal s) r
  /\ forall child, child ∈ children s ->
       child_cross_minimum pane_sizing s child <= cross_length (is_horizontal s) r.
Proof.
  intros Hdir Hwf. unfold is_layout_within_rect. rewrite RequiredSize_can_fit_inside_iff.
  assert (compute_minimum_size pane_sizing (Split s)
    = directional_minimum_size pane_sizing s
        (map (compute_minimum_size pane_sizing) (children s))) as ->.
  { simpl. by destruct (direction s). }
  unfold directional_minimum_size.
  destruct (floor_loop_spec pane_sizing s _ eq_refl) as [H1 H2].
  set (sums := foldl _ _ _) in *. rewrite gap_total_eq, H1, <- H2.
  pose proof (axis_length_le (is_horizontal s) r Hwf) as Hle.
  unfold required_axis_cells. unfold axis_length, cross_length in *. unfold u32_saturating_add.
  generalize (gap_cell_count pane_sizing * N.of_nat (length (children s) - 1)). intros gaps.
  destruct (is_horizontal s); simpl; split; intros [??]; split; lia.
Qed.

(** ** Which children are kept *)

Record keep_inv (pane_sizing : PaneSizing) (s : SplitNode) (available cross : N) (k : nat)
    (st : KeepState) : Prop :=
  { keep_flags_length : length (keep_flags st) = length (children s);
    keep_flags_rest i : (k <= i < length (children s))%nat -> keep_flags st !! i = Some false;
    keep_weights_length : length (keep_weights st) = rank (keep_flags st) k;
    keep_floors_length : length (keep_floors st) = rank (keep_flags st) k;
    keep_claimed : claimed_cell_count st = sum_cells (keep_floors st)
      + gap_cell_count pane_sizing * N.of_nat (rank (keep_flags st) k - 1);
    keep_claimed_le : claimed_cell_count st <= available;
    keep_kept i child : (i < k)%nat -> keep_flags st !! i = Some true ->
      children s !! i = Some child ->
      keep_floors st !! rank (keep_flags st) i = Some (child_axis_floor pane_sizing s i child)
      /\ child_cross_minimum pane_sizing s child <= cross }.

Lemma keep_child_eq pane_sizing s available cross st i child :
  available <= U16_MAX -> claimed_cell_count st <= available ->
  let floor := child_axis_floor pane_sizing s i child in
  let with_child := claimed_cell_count st
    + (if bool_decide (keep_weights st = []) then 0 else gap_cell_count pane_sizing) + floor in
  keep_child s pane_sizing available cross st (i, child) =
  if cross <? child_cross_minimum pane_sizing s child then st
  else if can_keep_children st && (with_child <=? available) then
    MkKeepState (<[i := true]> (keep_flags st))
      (keep_weights st ++ [default default_size_weight (weights s !! i)])
      (keep_floors st ++ [floor]) true with_child
  else MkKeepState (keep_flags st) (keep_weights st) (keep_floors st) false
         (claimed_cell_count st).
Proof.
  intros Hav Hcl. simpl. unfold keep_child, child_axis_floor, child_cross_minimum. simpl.
  destruct (split_axis_and_cross_cell_counts _ _ _) as [am cm]. simpl.
  destruct (cross <? cm); [done|]. set (floor := compute_child_floor s i am).
  set (gap := if bool_decide _ then 0 else _).
  assert ((u32_saturating_add (u32_saturating_add (claimed_cell_count st) gap) floor <=? available)
    = (claimed_cell_count st + gap + floor <=? available)) as ->.
  { apply eq_true_iff_eq. rewrite !N.leb_le. unfold_int. lia. }
  destruct (can_keep_children st && _) eqn:E; [|done]. apply andb_true_iff in E as [_ E%N.leb_le].
  unfold u16_try_from. rewrite (proj2 (N.leb_le _ _)) by lia. f_equal. unfold_int. lia.
Qed.

(** The [expect] of the loop: a kept child's floor is at most the axis. *)
Lemma keep_child_floor_fits available claimed gap child_floor :
  available <= U16_MAX ->
  (u32_saturating_add (u32_saturating_add claimed gap) child_floor <=? available) = true ->
  u16_try_from child_floor = Some child_floor.
Proof.
  intros Hav H%N.leb_le. unfold u16_try_from. rewrite (proj2 (N.leb_le _ _)); [done|].
  unfold_int. lia.
Qed.

Lemma rank_pos_nil {A} (l : list A) k : length l = k -> bool_decide (l = []) = (k =? 0)%nat.
Proof. intros <-. by destruct l. Qed.

Lemma keep_inv_step pane_sizing s available cross k st child :
  available <= U16_MAX -> children s !! k = Some child ->
  keep_inv pane_sizing s available cross k st ->
  keep_inv pane_sizing s available cross (S k)
    (keep_child s pane_sizing available cross st (k, child)).
Proof.
  intros Hav Hk [Hl Hrest Hw Hf Hc Hle Hkept].
  pose proof (lookup_lt_Some _ _ _ Hk) as Hkl.
  assert (keep_flags st !! k = Some false) as Hkf by (apply Hrest; lia).
  assert (rank (keep_flags st) (S k) = rank (keep_flags st) k) as Hr.
  { rewrite (rank_S _ _ _ Hkf). lia. }
  rewrite keep_child_eq by done. cbv zeta.
  set (floor := child_axis_floor pane_sizing s k child).
  assert (forall st', keep_flags st' = keep_flags st -> keep_weights st' = keep_weights st ->
    keep_floors st' = keep_floors st -> claimed_cell_count st' = claimed_cell_count st ->
    keep_inv pane_sizing s available cross (S k) st') as Hsame.
  { intros st' E1 E2 E3 E4. split; rewrite ?E1, ?E2, ?E3, ?E4, ?Hr; [done| |done..|].
    - intros i Hi. apply Hrest. lia.
    - intros i c Hi Hflag. apply Hkept; [|done]. destruct (decide (i = k)); [congruence|lia]. }
  case_match eqn:E1; bools; [by apply Hsame|]. case_match eqn:E2; [|by apply Hsame].
  apply andb_true_iff in E2 as [_ E2%N.leb_le]. rewrite (rank_pos_nil _ _ Hw) in *.
  assert (<[k:=true]> (keep_flags st) !! k = Some true) as Hk'.
  { apply list_lookup_insert_eq. lia. }
  pose proof (rank_S _ _ _ Hk') as Hr'. rewrite (rank_prefix_insert _ k k) in Hr' by lia. cbv iota in Hr'.
  split; cbn [keep_flags keep_weights keep_floors claimed_cell_count].
  - by rewrite length_insert.
  - intros i Hi. rewrite list_lookup_insert_ne by lia. apply Hrest. lia.
  - rewrite length_app, Hw, Hr'. done.
  - rewrite length_app, Hf, Hr'. done.
  - rewrite sum_cells_snoc, Hc, Hr'. case_match; bools; nia.
  - done.
  - intros i c Hi Hflag Hci. rewrite rank_prefix_insert by lia.
    destruct (decide (i = k)) as [->|Hne].
    + rewrite Hk in Hci. injection Hci as <-. rewrite <- Hf. split; [|lia].
      by apply list_lookup_middle.
    + rewrite list_lookup_insert_ne in Hflag by done.
      destruct (Hkept i c) as [H1 H2]; [lia|done..|]. split; [|done].
      rewrite lookup_app_l; [done|]. by eapply lookup_lt_Some.
Qed.

Lemma rank_all flags k :
  (forall i, (i < k)%nat -> flags !! i = Some true) -> rank flags k = k.
Proof.
  induction k as [|k IH]; intros H; [done|].
  rewrite (rank_S _ _ _ (H k ltac:(lia))), IH; [lia|]. intros i Hi. apply H. lia.
Qed.

Lemma sum_cells_take_le l k : sum_cells (take k l) <= sum_cells l.
Proof. rewrite <- (take_drop k l) at 2. rewrite sum_cells_app. lia. Qed.

Lemma child_axis_floors_lookup pane_sizing s i child :
  children s !! i = Some child ->
  child_axis_floors pane_sizing s !! i = Some (child_axis_floor pane_sizing s i child).
Proof. intros H. unfold child_axis_floors. by rewrite list_lookup_imap, H. Qed.

(** When everything fits, the loop keeps every child. *)
Definition keep_all_inv (pane_sizing : PaneSizing) (s : SplitNode) (k : nat) (st : KeepState)
    : Prop :=
  can_keep_children st = true
  /\ (forall i, (i < k)%nat -> keep_flags st !! i = Some true)
  /\ keep_floors st = take k (child_axis_floors pane_sizing s).

Lemma keep_all_inv_step pane_sizing s available cross k st child :
  available <= U16_MAX -> children s !! k = Some child ->
  required_axis_cells pane_sizing s <= available ->
  child_cross_minimum pane_sizing s child <= cross ->
  keep_inv pane_sizing s available cross k st -> keep_all_inv pane_sizing s k st ->
  keep_all_inv pane_sizing s (S k) (keep_child s pane_sizing available cross st (k, child)).
Proof.
  intros Hav Hk Hreq Hcross [Hl Hrest Hw Hf Hc Hle Hkept] (Hcan & Hflags & Hfloors).
  pose proof (child_axis_floors_lookup pane_sizing s k child Hk) as Hfl.
  pose proof (lookup_lt_Some _ _ _ Hk) as Hkl.
  rewrite keep_child_eq by done. cbv zeta. rewrite (proj2 (N.ltb_ge _ _)) by done.
  rewrite Hcan, (rank_pos_nil _ _ Hw), (rank_all _ _ Hflags). simpl.
  rewrite (proj2 (N.leb_le _ _)).
  - split_and!; [done| |cbn [keep_floors]; by rewrite Hfloors, (take_S_r _ _ _ Hfl)].
    intros i Hi. cbn [keep_flags]. destruct (decide (i = k)) as [->|].
    + apply list_lookup_insert_eq. lia.
    + rewrite list_lookup_insert_ne by done. apply Hflags. lia.
  - rewrite Hc, Hfloors, (rank_all _ _ Hflags).
    pose proof (sum_cells_take_le (child_axis_floors pane_sizing s) (S k)) as Hs.
    rewrite (take_S_r _ _ _ Hfl), sum_cells_snoc in Hs. unfold required_axis_cells in Hreq.
    case_match; bools; nia.
Qed.

Lemma keep_loop_spec pane_sizing s available cross st :
  available <= U16_MAX ->
  foldl (keep_child s pane_sizing available cross)
    (MkKeepState (replicate (length (children s)) false) [] [] true 0)
    (enumerate (children s)) = st ->
  keep_inv pane_sizing s available cross (length (children s)) st
  /\ (required_axis_cells pane_sizing s <= available ->
      (forall child, child ∈ children s -> child_cross_minimum pane_sizing s child <= cross) ->
      keep_all_inv pane_sizing s (length (children s)) st).
Proof.
  intros Hav <-.
  cut (forall st, st = foldl (keep_child s pane_sizing available cross)
    (MkKeepState (replicate (length (children s)) false) [] [] true 0) (enumerate (children s)) ->
    keep_inv pane_sizing s available cross (length (enumerate (children s))) st
    /\ (required_axis_cells pane_sizing s <= available ->
        (forall child, child ∈ children s -> child_cross_minimum pane_sizing s child <= cross) ->
        keep_all_inv pane_sizing s (length (enumerate (children s))) st)).
  { rewrite enumerate_length. intros H. by apply H. }
  intros st ->. apply (foldl_prefix_inv (fun pre st =>
    keep_inv pane_sizing s available cross (length pre) st
    /\ (required_axis_cells pane_sizing s <= available ->
        (forall child, child ∈ children s -> child_cross_minimum pane_sizing s child <= cross) ->
        keep_all_inv pane_sizing s (length pre) st))).
  - split.
    + split; cbn [keep_flags keep_weights keep_floors claimed_cell_count]; rewrite ?rank_0;
        [apply length_replicate| |done..|simpl; lia|lia|intros; simpl in *; lia].
      intros i Hi. apply lookup_replicate_2. lia.
    + intros _ _. split_and!; [done|simpl; lia|done].
  - intros pre [i child] post st He [Hinv Hall].
    destruct (enumerate_split _ _ _ _ _ He) as [-> Hi].
    rewrite length_app, Nat.add_1_r. split; [by apply keep_inv_step|].
    intros Hreq Hcross. apply keep_all_inv_step; eauto using list_elem_of_lookup_2.
Qed.

(** What [list_kept_children] promises the placement loop. *)
Record kept_children_spec (pane_sizing : PaneSizing) (s : SplitNode) (r : Rect)
    (kc : KeptChildren) : Prop :=
  { kc_flags : length (is_child_kept kc) = length (children s);
    kc_weights : length (kept_weights kc) = rank (is_child_kept kc) (length (children s));
    kc_floors : length (kept_floors kc) = rank (is_child_kept kc) (length (children s));
    kc_shared : shared_cell_count kc
      + gap_cell_count pane_sizing
        * N.of_nat (rank (is_child_kept kc) (length (children s)) - 1)
      = axis_length (is_horizontal s) r;
    kc_fit : sum_cells (kept_floors kc) <= shared_cell_count kc;
    kc_kept i child : is_child_kept kc !! i = Some true -> children s !! i = Some child ->
      kept_floors kc !! rank (is_child_kept kc) i
        = Some (child_axis_floor pane_sizing s i child)
      /\ child_cross_minimum pane_sizing s child <= cross_length (is_horizontal s) r;
    kc_all : (forall i, (i < length (children s))%nat -> is_child_kept kc !! i = Some true) <->
      required_axis_cells pane_sizing s <= axis_length (is_horizontal s) r
      /\ forall child, child ∈ children s ->
           child_cross_minimum pane_sizing s child <= cross_length (is_horizontal s) r }.

Lemma gap_total_u16 gap m available :
  available <= U16_MAX -> gap * N.of_nat m <= available ->
  u16_saturating_mul gap (usize_as_u16 m) = gap * N.of_nat m.
Proof.
  intros Hav Hle. unfold u16_saturating_mul, usize_as_u16.
  destruct (decide (gap = 0)) as [->|Hgap]; [lia|].
  rewrite as_u16_exact by nia. lia.
Qed.

Lemma keep_all_floors pane_sizing s available cross st :
  keep_inv pane_sizing s available cross (length (children s)) st ->
  (forall i, (i < length (children s))%nat -> keep_flags st !! i = Some true) ->
  keep_floors st = child_axis_floors pane_sizing s.
Proof.
  intros [Hl Hrest Hw Hf Hc Hle Hkept] Hall.
  assert (length (child_axis_floors pane_sizing s) = length (children s)) as Hlen
    by apply length_imap.
  rewrite (rank_all _ _ Hall) in Hf. apply list_eq. intros i.
  destruct (decide (i < length (children s))%nat) as [Hi|Hi].
  - destruct (lookup_lt_is_Some_2 _ _ Hi) as [child Hchild].
    destruct (Hkept i child) as [H _]; [done|by apply Hall|done|].
    rewrite (rank_all _ i) in H by (intros; apply Hall; lia).
    by rewrite H, (child_axis_floors_lookup _ _ _ _ Hchild).
  - rewrite !lookup_ge_None_2 by lia. done.
Qed.

Lemma list_kept_children_spec pane_sizing s r :
  Rect_wf r -> kept_children_spec pane_sizing s r (list_kept_children s r pane_sizing).
Proof.
  intros Hwf. unfold list_kept_children.
  pose proof (axis_length_le (is_horizontal s) r Hwf) as Hav.
  assert (split_axis_and_cross_cell_counts (column_count (size r)) (row_count (size r))
    (is_horizontal s) = (axis_length (is_horizontal s) r, cross_length (is_horizontal s) r)) as ->.
  { by destruct (is_horizontal s). }
  destruct (keep_loop_spec pane_sizing s _ (cross_length (is_horizontal s) r) _ Hav eq_refl)
    as [Hinv Hall].
  set (st := foldl _ _ _) in *. pose proof Hinv as [Hl Hrest Hw Hf Hc Hle Hkept].
  rewrite Hw, (gap_total_u16 _ _ (axis_length (is_horizontal s) r)) by lia.
  unfold u16_saturating_sub.
  split; cbn [is_child_kept kept_weights kept_floors shared_cell_count]; [done|done|done|lia|lia| |].
  - intros i child Hi Hchild. apply Hkept; [|done..]. by eapply lookup_lt_Some.
  - split; [|intros [Hreq Hcross]; by apply Hall].
    intros Hflags. pose proof (keep_all_floors _ _ _ _ _ Hinv Hflags) as Hfl.
    rewrite (rank_all _ _ Hflags), Hfl in Hc. split; [unfold required_axis_cells; lia|].
    intros child [i Hi]%list_elem_of_lookup.
    destruct (Hkept i child) as [_ H]; [by eapply lookup_lt_Some| |done|done].
    apply Hflags. by eapply lookup_lt_Some.
Qed.

(** ** Where the kept children are placed *)

(** The offset of the child at rank [m]: the cells and the gaps before it. *)
Definition axis_offset_at (counts : list N) (gap : N) (m : nat) : N :=
  sum_cells (take m counts) + gap * N.of_nat m.

Lemma axis_offset_at_S counts gap m :
  (m < length counts)%nat ->
  axis_offset_at counts gap (S m) = axis_offset_at counts gap m + cell_at counts m + gap.
Proof.
  intros Hm. unfold axis_offset_at. rewrite (take_S_r _ _ _ (lookup_cell_at _ _ Hm)).
  rewrite sum_cells_snoc. lia.
Qed.

Lemma axis_offset_at_mono counts gap m m' :
  (m <= m')%nat -> axis_offset_at counts gap m <= axis_offset_at counts gap m'.
Proof.
  intros H. unfold axis_offset_at.
  assert (sum_cells (take m counts) <= sum_cells (take m' counts)).
  { replace (take m counts) with (take m (take m' counts)); [apply sum_cells_take_le|].
    rewrite take_take. f_equal. lia. }
  nia.
Qed.

Lemma place_loop_spec is_h r gap counts flags rects :
  length counts = rank flags (length flags) ->
  (foldl (place_child is_h r gap counts) ([], 0, 0%nat) flags).1.1 = rects ->
  length rects = length flags
  /\ forall i (b : bool), flags !! i = Some b ->
       rects !! i = Some (if b then
         build_directional_child_rect is_h r
           (axis_offset_at counts gap (rank flags i) `min` U16_MAX)
           (cell_at counts (rank flags i))
         else build_empty_at_origin).
Proof.
  intros Hcounts <-.
  destruct (foldl_prefix_inv (fun pre st =>
    st.2 = rank flags (length pre)
    /\ st.1.2 = axis_offset_at counts gap (rank flags (length pre)) `min` U16_MAX
    /\ length st.1.1 = length pre
    /\ forall i (b : bool), (i < length pre)%nat -> flags !! i = Some b ->
         st.1.1 !! i = Some (if b then
           build_directional_child_rect is_h r
             (axis_offset_at counts gap (rank flags i) `min` U16_MAX)
             (cell_at counts (rank flags i))
           else build_empty_at_origin))
    (place_child is_h r gap counts) flags ([], 0, 0%nat)) as (_ & _ & H3 & H4).
  - split_and!; [done|unfold axis_offset_at; simpl length; rewrite rank_0; simpl; lia|done|].
    intros i b Hi. simpl in Hi. lia.
  - intros pre b post [[rects offset] m] He (H1 & H2 & H3 & H4). simpl in *. subst m offset.
    assert (flags !! length pre = Some b) as Hb by (subst flags; by apply list_lookup_middle).
    pose proof (rank_S _ _ _ Hb) as HrS. rewrite length_app, Nat.add_1_r.
    set (m := rank flags (length pre)) in *.
    assert (forall x rects', rects' = rects ++ [x] -> forall i (b' : bool),
      (i < S (length pre))%nat -> flags !! i = Some b' ->
      (i = length pre -> Some x = Some (if b' then
           build_directional_child_rect is_h r
             (axis_offset_at counts gap (rank flags i) `min` U16_MAX)
             (cell_at counts (rank flags i))
           else build_empty_at_origin)) ->
      rects' !! i = Some (if b' then
           build_directional_child_rect is_h r
             (axis_offset_at counts gap (rank flags i) `min` U16_MAX)
             (cell_at counts (rank flags i))
           else build_empty_at_origin)) as Hsnoc.
    { intros x rects' -> i b' Hi Hb' Hx. destruct (decide (i = length pre)) as [Heq|Hne].
      - rewrite <- Hx by done. rewrite Heq, <- H3. by apply list_lookup_middle.
      - rewrite lookup_app_l by lia. apply H4; [lia|done]. }
    unfold place_child. destruct b; simpl; rewrite length_app, HrS.
    + assert (m < length counts)%nat as Hm.
      { rewrite Hcounts. apply rank_lt; [|done]. by eapply lookup_lt_Some. }
      rewrite Nat.add_1_r, axis_offset_at_S by done. unfold u16_saturating_add.
      split_and!; [done|lia|simpl; lia|]. intros i b' Hi Hb'.
      eapply Hsnoc; [reflexivity|done|done|]. intros ->. rewrite Hb in Hb'. by simplify_eq.
    + rewrite Nat.add_0_r. split_and!; [done|done|simpl; lia|]. intros i b' Hi Hb'.
      eapply Hsnoc; [reflexivity|done|done|]. intros ->. rewrite Hb in Hb'. by simplify_eq.
  - split; [done|]. intros i b Hb. apply H4; [by eapply lookup_lt_Some|done].
Qed.

(** The counts of the kept children, and the bounds they meet. *)
Record directional_counts (pane_sizing : PaneSizing) (s : SplitNode) (r : Rect)
    (flags : list bool) (counts : list N) : Prop :=
  { dc_flags : length flags = length (children s);
    dc_length : length counts = rank flags (length flags);
    dc_bound m : (m < length counts)%nat ->
      axis_offset_at counts (gap_cell_count pane_sizing) m + cell_at counts m
      <= axis_length (is_horizontal s) r;
    dc_full : (0 < length counts)%nat ->
      axis_offset_at counts (gap_cell_count pane_sizing) (length counts)
      = axis_length (is_horizontal s) r + gap_cell_count pane_sizing;
    dc_floor i child : flags !! i = Some true -> children s !! i = Some child ->
      child_axis_floor pane_sizing s i child <= cell_at counts (rank flags i)
      /\ child_cross_minimum pane_sizing s child <= cross_length (is_horizontal s) r }.

Lemma directional_counts_spec pane_sizing s r (kc := list_kept_children s r pane_sizing) :
  Rect_wf r ->
  directional_counts pane_sizing s r (is_child_kept kc)
    (distribute_axis_cells (kept_weights kc) (kept_floors kc) (shared_cell_count kc)).
Proof.
  intros Hwf. subst kc.
  destruct (list_kept_children_spec pane_sizing s r Hwf) as [Hl Hw Hf Hs Hfit Hkept _].
  set (kc := list_kept_children s r pane_sizing) in *.
  pose proof (axis_length_le (is_horizontal s) r Hwf) as Hav.
  assert (length (kept_floors kc) = length (kept_weights kc)) as Hlen by congruence.
  assert (shared_cell_count kc <= U16_MAX) as Hshared.
  { etransitivity; [|exact Hav]. rewrite <- Hs. apply N.le_add_r. }
  pose proof (dist_length (kept_weights kc) (kept_floors kc) (shared_cell_count kc) Hlen
    Hshared) as Hdl.
  assert (kept_weights kc <> [] ->
    sum_cells (distribute_axis_cells (kept_weights kc) (kept_floors kc) (shared_cell_count kc))
    = shared_cell_count kc) as Hds by (intros; by apply dist_sum).
  pose proof (fun j => dist_floor (kept_weights kc) (kept_floors kc) (shared_cell_count kc) j
    Hlen Hshared Hfit) as Hdf.
  set (counts := distribute_axis_cells _ _ _) in *.
  assert ((0 < length counts)%nat -> sum_cells counts = shared_cell_count kc) as Hsum.
  { intros Hpos. apply Hds. intros E. rewrite E in Hdl. simpl in Hdl. lia. }
  split; [done|congruence| | |].
  - intros m Hm. specialize (Hsum ltac:(lia)).
    pose proof (sum_cells_take_le counts (S m)) as Ht.
    rewrite (take_S_r _ _ _ (lookup_cell_at _ _ Hm)), sum_cells_snoc in Ht.
    unfold axis_offset_at. rewrite <- Hw, <- Hdl in Hs. nia.
  - intros Hpos. specialize (Hsum Hpos). unfold axis_offset_at. rewrite take_ge by lia.
    rewrite <- Hw, <- Hdl in Hs. nia.
  - intros i child Hi Hchild. destruct (Hkept i child Hi Hchild) as [Hfl Hc]. split; [|done].
    specialize (Hdf (rank (is_child_kept kc) i)). by rewrite (cell_at_lookup _ _ _ Hfl) in Hdf.
Qed.

(** The children of a directional split, one by one. *)
Lemma directional_child_rects_lookup pane_sizing s r (flags : list bool) counts rects :
  directional_counts pane_sizing s r flags counts -> Rect_wf r ->
  (foldl (place_child (is_horizontal s) r (gap_cell_count pane_sizing) counts)
     ([], 0, 0%nat) flags).1.1 = rects ->
  length rects = length (children s)
  /\ forall i (b : bool), flags !! i = Some b ->
       rects !! i = Some (if b then
         build_directional_child_rect (is_horizontal s) r
           (axis_offset_at counts (gap_cell_count pane_sizing) (rank flags i))
           (cell_at counts (rank flags i))
         else build_empty_at_origin).
Proof.
  intros [Hl Hc Hb Hfull Hfl] Hwf Hrects.
  destruct (place_loop_spec _ _ _ _ _ _ Hc Hrects) as [H1 H2]. split; [congruence|].
  intros i b Hi. rewrite (H2 i b Hi). destruct b; [|done].
  assert (rank flags i < length counts)%nat as Hm.
  { rewrite Hc. apply rank_lt; [by eapply lookup_lt_Some|done]. }
  specialize (Hb _ Hm). pose proof (axis_length_le (is_horizontal s) r Hwf).
  rewrite N.min_l by lia. done.
Qed.

(** ** Minimums of trees without an empty split are positive *)

Lemma fits_axis_iff pane_sizing s child r :
  is_layout_within_rect child r pane_sizing = true <->
  (split_axis_and_cross_cell_counts
     (required_column_count (compute_minimum_size pane_sizing child))
     (required_row_count (compute_minimum_size pane_sizing child)) (is_horizontal s)).1
  <= axis_length (is_horizontal s) r
  /\ child_cross_minimum pane_sizing s child <= cross_length (is_horizontal s) r.
Proof.
  unfold is_layout_within_rect. rewrite RequiredSize_can_fit_inside_iff.
  unfold child_cross_minimum, axis_length, cross_length.
  destruct (is_horizontal s); simpl; tauto.
Qed.

(** The stack loop: the widest member, and the rows of the active one. *)
Lemma member_loop_spec pane_sizing s sums :
  foldl (add_member_minimum (get_active_child_index s)) (0, 0)
    (enumerate (map (compute_minimum_size pane_sizing) (children s))) = sums ->
  (forall x, sums.1 <= x <-> forall child, child ∈ children s ->
     required_column_count (compute_minimum_size pane_sizing child) <= x)
  /\ forall child, children s !! get_active_child_index s = Some child ->
     sums.2 = required_row_count (compute_minimum_size pane_sizing child).
Proof.
  intros <-. set (active := get_active_child_index s).
  set (f := compute_minimum_size pane_sizing). unfold enumerate.
  assert (forall cs k a b,
    let sums := foldl (add_member_minimum active) (a, b)
      (imap (fun i m => ((k + i)%nat, m)) (map f cs)) in
    (forall x, sums.1 <= x <-> a <= x /\ forall child, child ∈ cs -> required_column_count (f child) <= x)
    /\ (forall i child, cs !! i = Some child -> (k + i)%nat = active ->
          sums.2 = required_row_count (f child))
    /\ ((active < k)%nat -> sums.2 = b)) as H.
  { induction cs as [|c cs IH]; intros k a b sums; subst sums; simpl.
    { split_and!; [|done|done]. intros x. split; [|tauto]. intros. split; [done|].
      intros child Hc. by apply not_elem_of_nil in Hc. }
    rewrite Nat.add_0_r.
    rewrite (imap_ext _ (fun i m => ((S k + i)%nat, m))) by (intros; simpl; f_equal; lia).
    destruct (IH (S k) (a `max` required_column_count (f c))
      (if (k =? active)%nat then required_row_count (f c) else b)) as (H1 & H2 & H3).
    unfold add_member_minimum at 2 4 6. cbn [fst snd]. split_and!.
    - intros x. etransitivity; [apply H1|]. split; intros [Ha Hx].
      + split; [lia|]. intros child [->|Hc]%elem_of_cons; [lia|by apply Hx].
      + pose proof (Hx c ltac:(left)). split; [lia|]. intros child Hc. apply Hx. by right.
    - intros [|i] child Hi Hk; simplify_eq/=.
      + etransitivity; [apply H3; lia|]. by rewrite (proj2 (Nat.eqb_eq _ _)) by lia.
      + apply (H2 i); [done|lia].
    - intros Hk. etransitivity; [apply H3; lia|].
      by rewrite (proj2 (Nat.eqb_neq _ _)) by lia. }
  destruct (H (children s) 0%nat 0 0) as (H1 & H2 & _). simpl in *. split.
  - intros x. rewrite H1. split; [by intros [_ ?]|]. split; [lia|done].
  - intros child Hc. by apply (H2 active).
Qed.

Lemma get_active_child_index_lt {Node} (s : SplitNodeOf Node) :
  children s <> [] -> (get_active_child_index s < length (children s))%nat.
Proof. unfold get_active_child_index. destruct (children s); [done|simpl; lia]. Qed.

Lemma header_rows_eq m : default U32_MAX (u32_try_from_usize m) = N.of_nat m `min` U32_MAX.
Proof. unfold u32_try_from_usize, u32_try_from. case_match; bools; simpl; lia. Qed.

(** A stack fits exactly when every member's columns fit, and the headers and
    the active member's rows fit. *)
Lemma stacked_fits_iff pane_sizing s r active :
  Rect_wf r -> children s !! get_active_child_index s = Some active ->
  RequiredSize_can_fit_inside (compute_stack_minimum_size s pane_sizing) (size r) = true <->
  (forall child, child ∈ children s ->
     required_column_count (compute_minimum_size pane_sizing child) <= column_count (size r))
  /\ N.of_nat (length (children s) - 1)
     + required_row_count (compute_minimum_size pane_sizing active) <= row_count (size r).
Proof.
  intros Hwf Hactive. rewrite RequiredSize_can_fit_inside_iff.
  unfold compute_stack_minimum_size, stack_minimum_size. cbn [required_column_count required_row_count].
  destruct (member_loop_spec pane_sizing s _ eq_refl) as [H1 H2].
  set (sums := foldl _ _ _) in *. rewrite <- H1, header_rows_eq, (H2 active Hactive).
  unfold u32_saturating_add. apply and_iff_compat_l.
  assert (row_count (size r) <= U16_MAX) by solve_rect. lia.
Qed.

Lemma minimum_positive pane_sizing n :
  nonempty_splits n ->
  0 < required_column_count (compute_minimum_size pane_sizing n)
  /\ 0 < required_row_count (compute_minimum_size pane_sizing n).
Proof.
  induction n as [p|s IH] using LayoutNode_tree_ind; intros Hne.
  { simpl. lia. }
  inversion Hne as [|? Hc Hcs]; subst. rewrite Forall_forall in IH, Hcs.
  assert (forall c, c ∈ children s -> 0 < required_column_count (compute_minimum_size pane_sizing c)
    /\ 0 < required_row_count (compute_minimum_size pane_sizing c)) as Hpos by auto.
  destruct (children s) as [|c0 cs0] eqn:Ecs; [done|].
  destruct (Hpos c0 ltac:(left)) as [Hp1 Hp2].
  simpl. rewrite Ecs. destruct (decide (direction s = Stacked)) as [Hst|Hdir].
  - rewrite Hst. unfold stack_minimum_size. cbn [required_column_count required_row_count].
    destruct (member_loop_spec pane_sizing s _ eq_refl) as [H1 H2]. rewrite Ecs in H1, H2.
    set (sums := foldl _ _ _) in *.
    pose proof (proj1 (H1 sums.1) ltac:(done) c0 ltac:(left)).
    destruct (lookup_lt_is_Some_2 (c0 :: cs0) (get_active_child_index s)) as [a Ha].
    { rewrite <- Ecs. apply get_active_child_index_lt. by rewrite Ecs. }
    rewrite (H2 a Ha). apply list_elem_of_lookup_2 in Ha. destruct (Hpos a Ha).
    unfold u32_saturating_add. lia.
  - assert (0 < sum_cells (child_axis_floors pane_sizing s)) as Hsum.
    { assert (child_axis_floor pane_sizing s 0 c0 <= sum_cells (child_axis_floors pane_sizing s)).
      { apply (sum_cells_lookup_le _ 0). apply child_axis_floors_lookup. by rewrite Ecs. }
      unfold child_axis_floor, compute_child_floor in *. destruct (is_horizontal s); simpl in *; lia. }
    destruct (floor_loop_spec pane_sizing s _ eq_refl) as [H1 H2]. rewrite Ecs in H1, H2.
    assert (0 < child_cross_minimum pane_sizing s c0) as Hcross.
    { unfold child_cross_minimum. destruct (is_horizontal s); simpl; lia. }
    unfold directional_minimum_size. set (sums := foldl _ _ _) in *.
    pose proof (proj1 (H2 sums.2) ltac:(done) c0 ltac:(left)).
    unfold u32_saturating_add.
    destruct (direction s), (is_horizontal s); simpl; (done || split; lia).
Qed.

(** ** What both kinds of split promise the solve *)

(** The rectangles [rects] of the children of [s] inside [r]. A child is
    solved inside its rectangle unless it is a collapsed stack member. *)
Definition is_solved_child (s : SplitNode) (i : nat) : Prop :=
  direction s <> Stacked \/ i = get_active_child_index s.

Record children_placed (pane_sizing : PaneSizing) (s : SplitNode) (r : Rect)
    (rects : list Rect) : Prop :=
  { cp_length : length rects = length (children s);
    cp_inside : all_inside r rects;
    cp_disjoint : pairwise_disjoint rects;
    cp_fits i child r' : children s !! i = Some child -> rects !! i = Some r' ->
      is_empty r' = false -> is_solved_child s i ->
      is_layout_within_rect child r' pane_sizing = true;
    cp_all : children s <> [] -> Forall nonempty_splits (children s) ->
      is_layout_within_rect (Split s) r pane_sizing = true <->
      (forall i r', rects !! i = Some r' -> is_empty r' = false);
    cp_cover i r' p : Forall nonempty_splits (children s) ->
      gap_cell_count pane_sizing = 0 ->
      rects !! i = Some r' -> is_empty r' = false -> in_rect p r ->
      exists j r'', rects !! j = Some r'' /\ in_rect p r'' }.

(** A position before the end of the last band is in a band, at gap 0. *)
Lemma offset_find counts x :
  x < sum_cells counts ->
  exists m, (m < length counts)%nat
    /\ axis_offset_at counts 0 m <= x < axis_offset_at counts 0 m + cell_at counts m.
Proof.
  revert x. induction counts as [|c counts IH]; intros x Hx; simpl in *; [lia|].
  destruct (decide (x < c)) as [Hlt|Hge].
  - exists 0%nat. unfold axis_offset_at, cell_at. simpl. split; lia.
  - destruct (IH (x - c)) as (m & Hm & Hb); [lia|]. exists (S m). split; [lia|].
    change (cell_at (c :: counts) (S m)) with (cell_at counts m).
    unfold axis_offset_at in *. simpl. lia.
Qed.

Section directional_children.
Context (pane_sizing : PaneSizing) (s : SplitNode) (r : Rect).
Context (Hwf : Rect_wf r).
Context (flags : list bool) (counts : list N) (rects : list Rect).
Context (Hc : directional_counts pane_sizing s r flags counts).
Context (Hlength : length rects = length (children s)).
Context (Hrects : forall i (b : bool), flags !! i = Some b ->
  rects !! i = Some (if b then
    build_directional_child_rect (is_horizontal s) r
      (axis_offset_at counts (gap_cell_count pane_sizing) (rank flags i))
      (cell_at counts (rank flags i))
    else build_empty_at_origin)).

Lemma kept_rank_lt i : flags !! i = Some true -> (rank flags i < length counts)%nat.
Proof using Hc.
  intros Hi. rewrite (dc_length _ _ _ _ _ Hc). apply rank_lt; [by eapply lookup_lt_Some|done].
Qed.

Lemma directional_rect_flag i r' :
  rects !! i = Some r' -> exists b : bool, flags !! i = Some b.
Proof using Hc Hlength.
  intros Hi%lookup_lt_Some. apply lookup_lt_is_Some_2.
  by rewrite (dc_flags _ _ _ _ _ Hc), <- Hlength.
Qed.

Lemma directional_rect_kept i r' :
  rects !! i = Some r' -> is_empty r' = false -> flags !! i = Some true.
Proof using Hc Hlength Hrects.
  intros Hi He. destruct (directional_rect_flag i r' Hi) as [[] Hb]; [done|].
  rewrite (Hrects i false Hb) in Hi. by simplify_eq.
Qed.

Lemma directional_banded : banded (is_horizontal s) r rects.
Proof using Hc Hlength Hrects Hwf.
  exists (fun i => axis_offset_at counts (gap_cell_count pane_sizing) (rank flags i)),
    (fun i => cell_at counts (rank flags i)).
  intros i r' Hi. destruct (directional_rect_flag i r' Hi) as [[] Hb].
  - right. pose proof (Hrects i true Hb) as Hi'. rewrite Hi in Hi'. simplify_eq.
    split_and!; [done|apply (dc_bound _ _ _ _ _ Hc); by apply kept_rank_lt|].
    intros j r'' Hji Hj He. pose proof (directional_rect_kept j r'' Hj He) as Hbj.
    pose proof (rank_lt _ _ _ Hji Hbj) as Hlt.
    pose proof (axis_offset_at_S counts (gap_cell_count pane_sizing) _ (kept_rank_lt j Hbj)).
    pose proof (axis_offset_at_mono counts (gap_cell_count pane_sizing)
      (S (rank flags j)) (rank flags i) ltac:(lia)). lia.
  - left. rewrite (Hrects i false Hb) in Hi. simplify_eq. apply empty_at_origin_is_empty.
Qed.

Lemma directional_fits i child r' :
  children s !! i = Some child -> rects !! i = Some r' -> is_empty r' = false ->
  is_layout_within_rect child r' pane_sizing = true.
Proof using Hc Hlength Hrects.
  intros Hi Hr He. pose proof (directional_rect_kept i r' Hr He) as Hb.
  rewrite (Hrects i true Hb) in Hr. simplify_eq. rewrite (fits_axis_iff _ s).
  destruct (band_axis_length (is_horizontal s) r
    (axis_offset_at counts (gap_cell_count pane_sizing) (rank flags i))
    (cell_at counts (rank flags i))) as [-> ->].
  destruct (dc_floor _ _ _ _ _ Hc i child Hb Hi) as [Hfl Hx]. split; [|done].
  unfold child_axis_floor, compute_child_floor in Hfl. lia.
Qed.

Lemma directional_kept_nonempty i child :
  flags !! i = Some true -> children s !! i = Some child -> nonempty_splits child ->
  exists r', rects !! i = Some r' /\ is_empty r' = false.
Proof using Hc Hlength Hrects.
  intros Hb Hi Hne. eexists. split; [by apply (Hrects i true)|].
  destruct (dc_floor _ _ _ _ _ Hc i child Hb Hi) as [Hfl Hx].
  destruct (minimum_positive pane_sizing child Hne) as [Hp1 Hp2].
  rewrite is_empty_false_iff. unfold build_directional_child_rect.
  unfold child_axis_floor, compute_child_floor, child_cross_minimum, cross_length in *.
  destruct (is_horizontal s); simpl in *; lia.
Qed.

Lemma directional_cover i r' p :
  Forall nonempty_splits (children s) -> gap_cell_count pane_sizing = 0 ->
  rects !! i = Some r' -> is_empty r' = false -> in_rect p r ->
  exists j r'', rects !! j = Some r'' /\ in_rect p r''.
Proof using Hc Hlength Hrects Hwf.
  intros Hne Hgap Hi He Hp. pose proof (directional_rect_kept i r' Hi He) as Hb.
  pose proof (kept_rank_lt i Hb) as Hlt.
  pose proof (dc_full _ _ _ _ _ Hc ltac:(lia)) as Hfull.
  pose proof (axis_position_lt (is_horizontal s) r p Hp) as Hx.
  pose proof (dc_length _ _ _ _ _ Hc) as Hlen. pose proof (dc_bound _ _ _ _ _ Hc) as Hbound.
  rewrite Hgap in *. unfold axis_offset_at in Hfull. rewrite take_ge in Hfull by lia.
  destruct (offset_find counts (axis_position (is_horizontal s) r p)) as (m & Hm & Hpos); [lia|].
  rewrite Hlen in Hm. destruct (rank_onto _ _ _ Hm) as (j & Hj & Hbj & Hrank).
  exists j. eexists. split; [by apply (Hrects j true)|].
  rewrite Hrank. apply in_band; [done|apply Hbound; lia|]. done.
Qed.
End directional_children.

Lemma directional_children_placed pane_sizing s r :
  Rect_wf r -> direction s <> Stacked ->
  children_placed pane_sizing s r (compute_directional_child_rects s r pane_sizing).
Proof.
  intros Hwf Hdir. pose proof (directional_counts_spec pane_sizing s r Hwf) as Hc.
  pose proof (kc_all _ _ _ _ (list_kept_children_spec pane_sizing s r Hwf)) as Hall.
  unfold compute_directional_child_rects.
  set (kc := list_kept_children s r pane_sizing) in *. set (counts := distribute_axis_cells _ _ _) in *.
  set (rects := (foldl _ _ _).1.1).
  destruct (directional_child_rects_lookup _ _ _ _ _ rects Hc Hwf eq_refl) as [Hl Hr].
  pose proof (directional_banded _ _ _ Hwf _ _ _ Hc Hl Hr) as Hband.
  split.
  - done.
  - by eapply banded_inside.
  - by eapply banded_disjoint.
  - intros. by eapply (directional_fits pane_sizing s r).
  - intros Hne Hns. rewrite directional_fits_iff, <- Hall by done. split.
    + intros Hf i r' Hi. assert (i < length (children s))%nat as Hlt
        by (rewrite <- Hl; by eapply lookup_lt_Some).
      destruct (lookup_lt_is_Some_2 _ _ Hlt) as [child Hchild].
      rewrite Forall_lookup in Hns.
      destruct (directional_kept_nonempty _ _ _ _ _ _ Hc Hl Hr i child) as (r'' & Hr'' & He);
        [by apply Hf|done|by eapply Hns|]. congruence.
    + intros Hf i Hi. destruct (lookup_lt_is_Some_2 rects i ltac:(lia)) as [r' Hr'].
      eapply (directional_rect_kept pane_sizing s r); eauto.
  - intros. by eapply (directional_cover pane_sizing s r).
Qed.

(** *** Stacks *)

(** The rows of the members: one per header, the rest for the active one. *)
Definition member_row_counts (n active : nat) (active_row_count : N) : list N :=
  (fun i => if (i =? active)%nat then active_row_count else 1) <$> range n.

Lemma member_row_counts_at n active rows i :
  (i < n)%nat ->
  cell_at (member_row_counts n active rows) i = if (i =? active)%nat then rows else 1.
Proof.
  intros Hi. apply cell_at_lookup. unfold member_row_counts, range.
  rewrite list_lookup_fmap, lookup_seq_lt by done. done.
Qed.

Lemma member_row_counts_length n active rows : length (member_row_counts n active rows) = n.
Proof. unfold member_row_counts. by rewrite length_fmap, range_length. Qed.

Lemma member_row_counts_sum n active rows :
  (active < n)%nat -> sum_cells (member_row_counts n active rows) = N.of_nat (n - 1) + rows.
Proof.
  assert (forall k m, sum_cells ((fun i => if (i =? active)%nat then rows else 1) <$> seq k m)
    = if (k <=? active)%nat && (active <? k + m)%nat
      then N.of_nat (m - 1) + rows else N.of_nat m) as H.
  { intros k m. revert k. induction m as [|m IH]; intros k; csimpl.
    - destruct (k <=? active)%nat eqn:E1, (active <? k + 0)%nat eqn:E2; bools; simpl; lia.
    - rewrite IH.
      destruct (k =? active)%nat eqn:E0, (k <=? active)%nat eqn:E1,
        (active <? k + S m)%nat eqn:E2, (S k <=? active)%nat eqn:E3,
        (active <? S k + m)%nat eqn:E4; bools; simpl; lia. }
  intros Hlt. unfold member_row_counts, range. rewrite H.
  rewrite (proj2 (Nat.leb_le _ _)), (proj2 (Nat.ltb_lt _ _)) by lia. done.
Qed.

Lemma place_member_loop_spec r active rows n rects :
  Rect_wf r -> (active < n)%nat -> N.of_nat (n - 1) + rows = row_count (size r) ->
  (foldl (place_member r active rows) ([], row (origin r)) (range n)).1 = rects ->
  length rects = n
  /\ forall i, (i < n)%nat -> rects !! i = Some
       (build_directional_child_rect false r
          (axis_offset_at (member_row_counts n active rows) 0 i)
          (cell_at (member_row_counts n active rows) i)).
Proof.
  intros Hwf Hact Hrows <-. set (counts := member_row_counts n active rows).
  pose proof (member_row_counts_length n active rows) as Hlen. fold counts in Hlen.
  pose proof (member_row_counts_sum n active rows Hact) as Hsum. fold counts in Hsum.
  assert (forall m, row (origin r) + axis_offset_at counts 0 m <= U16_MAX) as Hoff.
  { intros m. unfold axis_offset_at. pose proof (sum_cells_take_le counts m). solve_rect. }
  assert (forall k, (k <= n)%nat ->
    let st := foldl (place_member r active rows) ([], row (origin r)) (seq 0 k) in
    st.2 = row (origin r) + axis_offset_at counts 0 k /\ length st.1 = k
    /\ forall i, (i < k)%nat -> st.1 !! i = Some (build_directional_child_rect false r
         (axis_offset_at counts 0 i) (cell_at counts i))) as H.
  { induction k as [|k IH]; intros Hk; [simpl; split_and!; [unfold axis_offset_at; simpl; lia|done|lia]|].
    rewrite seq_S, foldl_app. destruct (IH ltac:(lia)) as (H1 & H2 & H3).
    set (st := foldl _ _ (seq 0 k)) in *. simpl. unfold place_member.
    rewrite <- (member_row_counts_at n active rows k) by lia. fold counts. rewrite H1. simpl.
    pose proof (axis_offset_at_S counts 0 k ltac:(lia)) as HS.
    pose proof (Hoff (S k)) as HoffS. rewrite length_app, H2. split_and!.
    - rewrite HS. unfold u16_saturating_add. lia.
    - simpl. lia.
    - intros i Hi. destruct (decide (i = k)) as [->|Hne].
      + rewrite list_lookup_middle by done. f_equal.
        unfold build_directional_child_rect, from_origin_and_size, u16_saturating_add.
        rewrite N.min_l by apply Hoff. done.
      + rewrite lookup_app_l by lia. apply H3. lia. }
  unfold range. destruct (H n ltac:(lia)) as (_ & H2 & H3). done.
Qed.

Lemma stacked_child_rects_cases pane_sizing s r :
  Rect_wf r -> direction s = Stacked -> children s <> [] ->
  let rects := compute_stacked_child_rects s r pane_sizing in
  let n := length (children s) in
  let active := get_active_child_index s in
  let counts := member_row_counts n active (row_count (size r) - N.of_nat (n - 1)) in
  (is_layout_within_rect (Split s) r pane_sizing = false
   /\ rects = replicate n build_empty_at_origin)
  \/ (is_layout_within_rect (Split s) r pane_sizing = true
      /\ length rects = n
      /\ sum_cells counts = row_count (size r)
      /\ forall i, (i < n)%nat -> rects !! i = Some
           (build_directional_child_rect false r (axis_offset_at counts 0 i) (cell_at counts i))).
Proof.
  intros Hwf Hst Hne rects n active counts.
  assert (is_layout_within_rect (Split s) r pane_sizing
    = RequiredSize_can_fit_inside (compute_stack_minimum_size s pane_sizing) (size r)) as ->.
  { unfold is_layout_within_rect. simpl. by rewrite Hst. }
  subst rects. unfold compute_stacked_child_rects. fold n active.
  pose proof (get_active_child_index_lt s Hne) as Hact. fold n active in Hact.
  destruct (lookup_lt_is_Some_2 (children s) active Hact) as [a Ha].
  rewrite (proj2 (Nat.eqb_neq n 0)) by lia.
  destruct (RequiredSize_can_fit_inside _ _) eqn:E; simpl; [right|by left].
  apply (stacked_fits_iff _ _ _ a Hwf Ha) in E as [_ E]. fold n in E.
  assert (row_count (size r) <= U16_MAX) by solve_rect.
  unfold usize_as_u16. rewrite as_u16_exact, u16_sub_exact by lia.
  assert (N.of_nat (n - 1) + (row_count (size r) - N.of_nat (n - 1)) = row_count (size r)) as Hrows
    by lia.
  destruct (place_member_loop_spec r active _ n _ Hwf Hact Hrows eq_refl) as [Hl Hr].
  split_and!; [done|done| |done]. unfold counts. rewrite member_row_counts_sum by done. done.
Qed.

Lemma replicate_empty_rects n i r :
  replicate n build_empty_at_origin !! i = Some r -> is_empty r = true.
Proof. intros [-> _]%lookup_replicate. apply empty_at_origin_is_empty. Qed.

Section stacked_children.
Context (pane_sizing : PaneSizing) (s : SplitNode) (r : Rect).
Context (Hwf : Rect_wf r) (Hst : direction s = Stacked) (Hne : children s <> []).
Context (rects : list Rect) (counts : list N).
Context (Hcounts : counts = member_row_counts (length (children s)) (get_active_child_index s)
  (row_count (size r) - N.of_nat (length (children s) - 1))).
Context (Hlength : length rects = length (children s)).
Context (Hsum : sum_cells counts = row_count (size r)).
Context (Hrects : forall i, (i < length (children s))%nat -> rects !! i = Some
  (build_directional_child_rect false r (axis_offset_at counts 0 i) (cell_at counts i))).
Context (Hfits : is_layout_within_rect (Split s) r pane_sizing = true).

Lemma member_counts_length : length counts = length (children s).
Proof using All. rewrite Hcounts. apply member_row_counts_length. Qed.

Lemma member_bound i :
  (i < length (children s))%nat ->
  axis_offset_at counts 0 i + cell_at counts i <= axis_length false r.
Proof using All.
  intros Hi. pose proof member_counts_length as Hl.
  pose proof (axis_offset_at_S counts 0 i ltac:(lia)) as HS. unfold axis_length.
  pose proof (sum_cells_take_le counts (S i)). unfold axis_offset_at in *. lia.
Qed.

Lemma stacked_rect_at i r' :
  rects !! i = Some r' ->
  (i < length (children s))%nat
  /\ r' = build_directional_child_rect false r (axis_offset_at counts 0 i) (cell_at counts i).
Proof using All.
  intros Hi. assert (i < length (children s))%nat as Hlt
    by (rewrite <- Hlength; by eapply lookup_lt_Some).
  pose proof (Hrects i Hlt) as E. rewrite Hi in E. by injection E.
Qed.

Lemma stacked_banded : banded false r rects.
Proof using All.
  exists (axis_offset_at counts 0), (cell_at counts). intros i r' Hi. right.
  apply stacked_rect_at in Hi as [Hlt ->]. split_and!; [done|by apply member_bound|].
  intros j r'' Hji _ _. pose proof member_counts_length as Hl.
  pose proof (axis_offset_at_S counts 0 j ltac:(lia)).
  pose proof (axis_offset_at_mono counts 0 (S j) i ltac:(lia)). lia.
Qed.

Lemma stack_fits child active :
  child ∈ children s -> children s !! get_active_child_index s = Some active ->
  required_column_count (compute_minimum_size pane_sizing child) <= column_count (size r)
  /\ N.of_nat (length (children s) - 1)
     + required_row_count (compute_minimum_size pane_sizing active) <= row_count (size r).
Proof using All.
  intros Hchild Hactive. unfold is_layout_within_rect in Hfits. simpl in Hfits.
  rewrite Hst in Hfits. apply (stacked_fits_iff pane_sizing s r active Hwf Hactive) in Hfits as [Hf1 Hf2].
  split; [by apply Hf1|done].
Qed.

Lemma active_child_fits child r' :
  children s !! get_active_child_index s = Some child ->
  rects !! get_active_child_index s = Some r' ->
  is_layout_within_rect child r' pane_sizing = true.
Proof using All.
  intros Hc [Hact ->]%stacked_rect_at.
  destruct (stack_fits child child (list_elem_of_lookup_2 _ _ _ Hc) Hc) as [Hf1 Hf2].
  unfold is_layout_within_rect. rewrite RequiredSize_can_fit_inside_iff. simpl.
  rewrite Hcounts, member_row_counts_at, Nat.eqb_refl by done. split; [done|lia].
Qed.

Lemma member_rects_nonempty i r' :
  Forall nonempty_splits (children s) -> rects !! i = Some r' -> is_empty r' = false.
Proof using All.
  intros Hns [Hlt ->]%stacked_rect_at. rewrite Forall_forall in Hns.
  destruct (lookup_lt_is_Some_2 _ _ (get_active_child_index_lt s Hne)) as [a Ha].
  destruct (lookup_lt_is_Some_2 _ _ Hlt) as [c Hc].
  apply list_elem_of_lookup_2 in Hc as Hc'. apply list_elem_of_lookup_2 in Ha as Ha'.
  destruct (stack_fits c a Hc' Ha) as [Hf1 Hf2].
  destruct (minimum_positive pane_sizing c (Hns c Hc')) as [Hp1 _].
  destruct (minimum_positive pane_sizing a (Hns a Ha')) as [_ Hp2].
  rewrite is_empty_false_iff. simpl. rewrite Hcounts, member_row_counts_at by done.
  case_match; lia.
Qed.

Lemma stacked_cover p :
  in_rect p r -> exists j r'', rects !! j = Some r'' /\ in_rect p r''.
Proof using All.
  intros Hp. pose proof (axis_position_lt false r p Hp) as Hx.
  destruct (offset_find counts (axis_position false r p)) as (m & Hm & Hpos);
    [unfold axis_length in Hx; lia|].
  pose proof member_counts_length as Hl. exists m. eexists. split; [apply Hrects; lia|].
  apply in_band; [done|apply member_bound; lia|done].
Qed.
End stacked_children.

Lemma stacked_children_placed pane_sizing s r :
  Rect_wf r -> direction s = Stacked ->
  children_placed pane_sizing s r (compute_stacked_child_rects s r pane_sizing).
Proof.
  intros Hwf Hst. destruct (decide (children s = [])) as [He|Hne].
  { unfold compute_stacked_child_rects. rewrite He. simpl.
    split; rewrite ?He; [done|constructor| |intros; simplify_eq..].
    intros i j r1 r2 p Hi. by rewrite lookup_nil in Hi. }
  destruct (stacked_child_rects_cases pane_sizing s r Hwf Hst Hne)
    as [[Hfit ->]|(Hfit & Hl & Hsum & Hr)].
  - split.
    + apply length_replicate.
    + apply Forall_lookup. intros i r' Hi. left. by eapply replicate_empty_rects.
    + intros i j r1 r2 p Hi%replicate_empty_rects _ Hp. by apply empty_rect_no_point in Hp.
    + intros i child r' _ Hi%replicate_empty_rects. congruence.
    + intros _ _. rewrite Hfit. split; [done|]. intros H.
      specialize (H 0%nat build_empty_at_origin). rewrite lookup_replicate_2 in H; [by specialize (H eq_refl)|].
      destruct (children s); [done|simpl; lia].
    + intros i r' p _ _ Hi%replicate_empty_rects. congruence.
  - set (rects := compute_stacked_child_rects s r pane_sizing) in *.
    pose proof (stacked_banded pane_sizing s r Hwf Hst Hne rects _ eq_refl Hl Hsum Hr Hfit) as Hband.
    split.
    + done.
    + by eapply banded_inside.
    + by eapply banded_disjoint.
    + intros i child r' Hi Hi' _ [Hd| ->]; [done|]. by eapply active_child_fits.
    + intros _ Hns. split; [|done]. intros _ i r' Hi. by eapply member_rects_nonempty.
    + intros i r' p _ _ _ _ Hp. by eapply stacked_cover.
Qed.

(** ** The solve of a split, piece by piece *)

Definition child_rects (s : SplitNode) (r : Rect) (pane_sizing : PaneSizing) : list Rect :=
  if bool_decide (direction s = Stacked) then compute_stacked_child_rects s r pane_sizing
  else compute_directional_child_rects s r pane_sizing.

Lemma child_rects_placed pane_sizing s r :
  Rect_wf r -> children_placed pane_sizing s r (child_rects s r pane_sizing).
Proof.
  intros Hwf. unfold child_rects. case_bool_decide.
  - by apply stacked_children_placed.
  - by apply directional_children_placed.
Qed.

Lemma child_rects_length pane_sizing s r :
  Rect_wf r -> length (child_rects s r pane_sizing) = length (children s).
Proof. intros. by eapply cp_length, child_rects_placed. Qed.

(** What the loop of either split does with one child. *)
Definition solve_child (s : SplitNode) (i : nat) (child : LayoutNode) (child_rect : Rect)
    (st : LayoutSolveState) : LayoutSolveState :=
  if is_empty child_rect then suppress_layout_subtree child st
  else if bool_decide (direction s = Stacked) && negb (i =? get_active_child_index s)%nat
  then emit_stack_header child child_rect i (length (children s)) st
  else solve_layout_node child child_rect st.

Lemma zip_fold_ext {A B S} (f g : nat -> A -> B -> S -> S) i xs ys s :
  (forall i x y s, f i x y s = g i x y s) -> zip_fold f i xs ys s = zip_fold g i xs ys s.
Proof.
  intros H. revert i ys s. induction xs as [|x xs IH]; intros i [|y ys] s; simpl; try done.
  by rewrite H, IH.
Qed.

Lemma solve_layout_node_Split s r st :
  solve_layout_node (Split s) r st
  = zip_fold (solve_child s) 0 (children s) (child_rects s r (state_pane_sizing st)) st.
Proof.
  simpl. unfold child_rects. destruct (direction s) eqn:E; simpl;
    apply zip_fold_ext; intros i child child_rect st'; unfold solve_child; rewrite E; simpl;
    [done..|]. by destruct (i =? _)%nat.
Qed.

(** Every step only appends to the vectors of the state. *)
Definition state_app (st1 st2 : LayoutSolveState) : LayoutSolveState :=
  MkLayoutSolveState (state_pane_sizing st1)
    (state_pane_rects st1 ++ state_pane_rects st2)
    (state_suppressed_pane_ids st1 ++ state_suppressed_pane_ids st2)
    (state_stack_headers st1 ++ state_stack_headers st2).

(** [g] appends what it does to an empty state with the same sizing. *)
Definition appends (g : LayoutSolveState -> LayoutSolveState) : Prop :=
  forall st, g st = state_app st (g (from_pane_sizing (state_pane_sizing st))).

Lemma state_app_nil_r st pane_sizing : state_app st (from_pane_sizing pane_sizing) = st.
Proof. unfold state_app. simpl. rewrite !app_nil_r. by destruct st. Qed.

Lemma state_app_assoc st1 st2 st3 :
  state_app (state_app st1 st2) st3 = state_app st1 (state_app st2 st3).
Proof. unfold state_app. simpl. by rewrite !app_assoc. Qed.

Lemma state_app_sizing_irrel st1 st2 st2' :
  state_pane_rects st2 = state_pane_rects st2' ->
  state_suppressed_pane_ids st2 = state_suppressed_pane_ids st2' ->
  state_stack_headers st2 = state_stack_headers st2' ->
  state_app st1 st2 = state_app st1 st2'.
Proof. unfold state_app. by intros -> -> ->. Qed.

Lemma push_pane_rect_appends p r : appends (push_pane_rect p r).
Proof. intros [ps prs sup hs]. unfold state_app. simpl. by rewrite !app_nil_r. Qed.

Lemma push_suppressed_appends p : appends (push_suppressed_pane_id p).
Proof. intros [ps prs sup hs]. unfold state_app. simpl. by rewrite !app_nil_r. Qed.

Lemma push_header_appends h : appends (push_stack_header h).
Proof. intros [ps prs sup hs]. unfold state_app. simpl. by rewrite !app_nil_r. Qed.

Lemma appends_sizing g st : appends g -> state_pane_sizing (g st) = state_pane_sizing st.
Proof. intros H. by rewrite (H st). Qed.

Lemma appends_compose g h : appends g -> appends h -> appends (fun st => h (g st)).
Proof.
  intros Hg Hh st. simpl. rewrite (Hh (g st)), (Hh (g (from_pane_sizing _))).
  rewrite !(appends_sizing g) by done. simpl. rewrite (Hg st) at 1. by rewrite state_app_assoc.
Qed.

Lemma appends_id : appends (fun st => st).
Proof. intros st. by rewrite state_app_nil_r. Qed.

Lemma appends_foldl {B} (f : LayoutSolveState -> B -> LayoutSolveState) l :
  (forall b, appends (fun st => f st b)) -> appends (fun st => foldl f st l).
Proof.
  intros H. induction l as [|b l IH]; simpl; [apply appends_id|].
  by apply (appends_compose (fun st => f st b) (fun st => foldl f st l)).
Qed.

Lemma appends_zip_fold {A B} (f : nat -> A -> B -> LayoutSolveState -> LayoutSolveState) i xs ys :
  (forall i x y, x ∈ xs -> appends (f i x y)) -> appends (zip_fold f i xs ys).
Proof.
  revert i ys. induction xs as [|x xs IH]; intros i [|y ys] H; simpl; try apply appends_id.
  apply (appends_compose (f i x y) (zip_fold f (S i) xs ys)); [apply H; left|].
  apply IH. intros. apply H. by right.
Qed.

Lemma suppress_appends n : appends (suppress_layout_subtree n).
Proof.
  apply (appends_foldl (fun st p => push_suppressed_pane_id p (push_pane_rect p _ st))).
  intros p. apply (appends_compose _ _ (push_pane_rect_appends _ _) (push_suppressed_appends _)).
Qed.

Lemma emit_header_appends child r i n : appends (emit_stack_header child r i n).
Proof.
  unfold emit_stack_header. destruct (list_leaf_pane_ids child) as [|p ps]; [apply appends_id|].
  apply (appends_compose
    (fun st => push_stack_header (MkStackHeader p r i n) (push_pane_rect p r st))
    (fun st => foldl (fun st p => push_pane_rect p build_empty_at_origin st) st ps)).
  - apply (appends_compose _ _ (push_pane_rect_appends _ _) (push_header_appends _)).
  - apply (appends_foldl (fun st p => push_pane_rect p _ st)). intros. apply push_pane_rect_appends.
Qed.

#[export] Hint Resolve push_pane_rect_appends push_suppressed_appends suppress_appends
  emit_header_appends appends_id : koshi.

(** The tree recursion appends: a split reads the sizing of the state, which
    no step changes. *)
Lemma solve_layout_node_appends n r : appends (solve_layout_node n r).
Proof.
  revert r. induction n as [p|s IH] using LayoutNode_tree_ind; intros r st.
  - simpl. destruct (is_leaf_within_minimum _ _); [apply push_pane_rect_appends|].
    apply (appends_compose _ _ (push_pane_rect_appends _ _) (push_suppressed_appends _)).
  - rewrite !solve_layout_node_Split. cbn [state_pane_sizing from_pane_sizing].
    apply (appends_zip_fold (solve_child s)). intros i child child_rect Hc st'.
    unfold solve_child. rewrite Forall_forall in IH.
    destruct (is_empty child_rect); [apply suppress_appends|].
    destruct (_ && _); [apply emit_header_appends|]. by apply IH.
Qed.

Lemma solve_child_appends s i child r : appends (solve_child s i child r).
Proof.
  intros st. unfold solve_child. destruct (is_empty r); [apply suppress_appends|].
  destruct (_ && _); [apply emit_header_appends|]. apply solve_layout_node_appends.
Qed.

(** The pieces the children contribute, each to an empty state. *)
Fixpoint pieces (pane_sizing : PaneSizing) (s : SplitNode) (i : nat) (cs : list LayoutNode)
    (rects : list Rect) : list LayoutSolveState :=
  match cs, rects with
  | c :: cs', r :: rects' =>
      solve_child s i c r (from_pane_sizing pane_sizing) :: pieces pane_sizing s (S i) cs' rects'
  | _, _ => []
  end.

Lemma zip_fold_pieces s i cs rects st :
  let ps := pieces (state_pane_sizing st) s i cs rects in
  let st' := zip_fold (solve_child s) i cs rects st in
  state_pane_rects st' = state_pane_rects st ++ concat (state_pane_rects <$> ps)
  /\ state_suppressed_pane_ids st'
     = state_suppressed_pane_ids st ++ concat (state_suppressed_pane_ids <$> ps)
  /\ state_stack_headers st' = state_stack_headers st ++ concat (state_stack_headers <$> ps).
Proof.
  revert i rects st. induction cs as [|c cs IH]; intros i [|r rects] st; simpl;
    try (rewrite !app_nil_r; done).
  rewrite (solve_child_appends s i c r st).
  destruct (IH (S i) rects (state_app st (solve_child s i c r
    (from_pane_sizing (state_pane_sizing st))))) as (H1 & H2 & H3).
  simpl in *. rewrite H1, H2, H3. by rewrite <- !app_assoc.
Qed.

Lemma pieces_lookup pane_sizing s i cs rects j piece :
  pieces pane_sizing s i cs rects !! j = Some piece <->
  exists c r, cs !! j = Some c /\ rects !! j = Some r
    /\ piece = solve_child s (i + j) c r (from_pane_sizing pane_sizing).
Proof.
  revert i rects j. induction cs as [|c cs IH]; intros i [|r rects] j; simpl;
    [split; [done|intros (?&?&H&_); by rewrite lookup_nil in H]
    |split; [done|intros (?&?&H&_); by rewrite lookup_nil in H]
    |split; [done|intros (?&?&_&H&_); by rewrite lookup_nil in H]|].
  destruct j as [|j]; simpl.
  - rewrite Nat.add_0_r. naive_solver.
  - rewrite IH. by setoid_rewrite Nat.add_succ_comm.
Qed.

(** ** What a solved subtree contributes *)

Definition entry_rects (st : LayoutSolveState) : list Rect := (state_pane_rects st).*2.

(** One entry per leaf in layout order, every rectangle empty or inside
    [outer], no cell in two of them. *)
Record placed_inside (n : LayoutNode) (outer : Rect) (st : LayoutSolveState) : Prop :=
  { pi_leaves : (state_pane_rects st).*1 = list_leaf_pane_ids n;
    pi_inside : all_inside outer (entry_rects st);
    pi_disjoint : pairwise_disjoint (entry_rects st) }.

Lemma suppress_from_empty pane_sizing n :
  suppress_layout_subtree n (from_pane_sizing pane_sizing)
  = MkLayoutSolveState pane_sizing
      ((fun p => (p, build_empty_at_origin)) <$> list_leaf_pane_ids n) (list_leaf_pane_ids n) [].
Proof.
  unfold suppress_layout_subtree, from_pane_sizing. generalize (list_leaf_pane_ids n). intros ps.
  assert (forall rs sup, foldl (fun st pane_id =>
      push_suppressed_pane_id pane_id (push_pane_rect pane_id build_empty_at_origin st))
      (MkLayoutSolveState pane_sizing rs sup []) ps
    = MkLayoutSolveState pane_sizing (rs ++ ((fun p => (p, build_empty_at_origin)) <$> ps))
        (sup ++ ps) []) as H; [|apply H].
  induction ps as [|p ps IH]; intros rs sup; csimpl; [by rewrite !app_nil_r|].
  unfold push_suppressed_pane_id, push_pane_rect in *. simpl in *.
  by rewrite IH, <- !app_assoc.
Qed.

Lemma header_from_empty pane_sizing child r i n :
  emit_stack_header child r i n (from_pane_sizing pane_sizing)
  = match list_leaf_pane_ids child with
    | [] => from_pane_sizing pane_sizing
    | p :: ps => MkLayoutSolveState pane_sizing
        ((p, r) :: ((fun p => (p, build_empty_at_origin)) <$> ps)) [] [MkStackHeader p r i n]
    end.
Proof.
  unfold emit_stack_header. destruct (list_leaf_pane_ids child) as [|p ps]; [done|].
  unfold from_pane_sizing, push_stack_header, push_pane_rect. simpl.
  assert (forall rs, foldl (fun st pane_id => MkLayoutSolveState (state_pane_sizing st)
      (state_pane_rects st ++ [(pane_id, build_empty_at_origin)]) (state_suppressed_pane_ids st)
      (state_stack_headers st))
      (MkLayoutSolveState pane_sizing rs [] [MkStackHeader p r i n]) ps
    = MkLayoutSolveState pane_sizing (rs ++ ((fun p => (p, build_empty_at_origin)) <$> ps)) []
        [MkStackHeader p r i n]) as H; [|apply H].
  induction ps as [|q ps IH]; intros rs; csimpl; [by rewrite app_nil_r|].
  by rewrite IH, <- app_assoc.
Qed.

Lemma empty_entries (ps : list PaneId) :
  (((fun p => (p, build_empty_at_origin)) <$> ps).*1 = ps)
  /\ (forall r, r ∈ ((fun p : PaneId => (p, build_empty_at_origin)) <$> ps).*2 ->
        is_empty r = true).
Proof.
  split; [rewrite <- list_fmap_compose; apply list_fmap_id|].
  intros r Hr. apply list_elem_of_fmap in Hr as ([p r'] & -> & Hr).
  apply list_elem_of_fmap in Hr as (q & [= -> ->] & _). apply empty_at_origin_is_empty.
Qed.

Lemma all_empty_disjoint rects :
  (forall r, r ∈ rects -> is_empty r = true) ->
  pairwise_disjoint rects /\ forall outer, all_inside outer rects.
Proof.
  intros H. split.
  - intros i j r1 r2 p Hi _ Hp _. apply list_elem_of_lookup_2, H in Hi.
    by apply empty_rect_no_point in Hp.
  - intros outer. apply Forall_forall. intros r Hr. left. by apply H.
Qed.

Lemma pairwise_disjoint_cons r rects :
  pairwise_disjoint rects ->
  (forall r' p, r' ∈ rects -> in_rect p r -> in_rect p r' -> False) ->
  pairwise_disjoint (r :: rects).
Proof.
  intros Hd Hr [|i] [|j] r1 r2 p Hi Hj Hp1 Hp2; simplify_eq/=; [done|..].
  - exfalso. eapply Hr; [by eapply list_elem_of_lookup_2|done..].
  - exfalso. eapply Hr; [by eapply list_elem_of_lookup_2|done..].
  - f_equal. by eapply Hd.
Qed.

Lemma pairwise_disjoint_app l k :
  pairwise_disjoint l -> pairwise_disjoint k ->
  (forall r1 r2 p, r1 ∈ l -> r2 ∈ k -> in_rect p r1 -> in_rect p r2 -> False) ->
  pairwise_disjoint (l ++ k).
Proof.
  induction l as [|r l IH]; intros Hl Hk Hlk; simpl; [done|].
  apply pairwise_disjoint_cons.
  - apply IH; [|done|].
    + intros i j r1 r2 p Hi Hj H1 H2. by specialize (Hl (S i) (S j) r1 r2 p Hi Hj H1 H2) as [= ->].
    + intros r1 r2 p Hr1. apply Hlk. by right.
  - intros r' p [Hr'|Hr']%elem_of_app Hp Hp'; [|by apply (Hlk r r' p); [left|..]].
    apply list_elem_of_lookup in Hr' as [j Hj]. by specialize (Hl 0%nat (S j) r r' p eq_refl Hj Hp Hp').
Qed.

(** Blocks of rectangles inside disjoint rectangles are disjoint. *)
Lemma blocks_disjoint (outers : list Rect) (blocks : list (list Rect)) :
  Forall2 (fun outer block => all_inside outer block /\ pairwise_disjoint block) outers blocks ->
  pairwise_disjoint outers -> pairwise_disjoint (concat blocks).
Proof.
  induction 1 as [|outer block outers blocks [Hin Hd] Hrest IH]; intros Ho; simpl.
  { intros i j r1 r2 p Hi. by rewrite lookup_nil in Hi. }
  assert (forall r p, r ∈ block -> in_rect p r -> in_rect p outer) as Hblock.
  { intros r p Hr Hp. unfold all_inside in Hin. rewrite Forall_forall in Hin.
    destruct (Hin r Hr) as [He|Hi]; [by apply empty_rect_no_point in Hp|].
    by eapply inside_rect_point. }
  apply pairwise_disjoint_app; [done| |].
  - apply IH. intros i j r1 r2 p Hi Hj H1 H2.
    by specialize (Ho (S i) (S j) r1 r2 p Hi Hj H1 H2) as [= ->].
  - intros r1 r2 p Hr1 Hr2 Hp1 Hp2.
    apply list_elem_of_In, in_concat in Hr2 as (b & Hb%list_elem_of_In & Hr2%list_elem_of_In).
    apply list_elem_of_lookup in Hb as [j Hj].
    destruct (Forall2_lookup_r _ _ _ _ _ Hrest Hj) as (o & Ho' & Hin' & _).
    unfold all_inside in Hin'. rewrite Forall_forall in Hin'.
    destruct (Hin' r2 Hr2) as [He|Hi]; [by apply empty_rect_no_point in Hp2|].
    by specialize (Ho 0%nat (S j) outer o p eq_refl Ho' (Hblock _ _ Hr1 Hp1)
      (inside_rect_point _ _ _ Hi Hp2)).
Qed.

(** ** The solve of a tree *)

Lemma suppressed_placed pane_sizing n outer :
  placed_inside n outer (suppress_layout_subtree n (from_pane_sizing pane_sizing)).
Proof.
  rewrite suppress_from_empty. destruct (empty_entries (list_leaf_pane_ids n)) as [Hf He].
  apply all_empty_disjoint in He as [Hd Hi]. split; [done|apply Hi|done].
Qed.

Lemma header_placed pane_sizing child r i n :
  placed_inside child r (emit_stack_header child r i n (from_pane_sizing pane_sizing)).
Proof.
  rewrite header_from_empty. destruct (list_leaf_pane_ids child) as [|p ps] eqn:E.
  { split; [done|constructor|]. by intros [|i'] j' r1 r2 p'. }
  destruct (empty_entries ps) as [Hf He].
  pose proof (all_empty_disjoint _ He) as [Hd Hi].
  split; unfold entry_rects; cbn [state_pane_rects]; rewrite ?fmap_cons.
  - by rewrite Hf, E.
  - constructor; [right; apply is_inside_rect_refl|apply Hi].
  - apply pairwise_disjoint_cons; [done|]. intros r' p' Hr' _ Hp'.
    by apply (empty_rect_no_point r' p' (He r' Hr')).
Qed.

Lemma all_inside_trans outer inner rects :
  is_inside_rect inner outer = true -> all_inside inner rects -> all_inside outer rects.
Proof.
  intros Hi Hall. apply (Forall_impl _ _ _ Hall). intros r [|H]; [by left|right]. by eapply is_inside_rect_trans.
Qed.

(** Solving a split, seen from its children: one piece per child. *)
Lemma split_solved pane_sizing s r :
  Rect_wf r ->
  let ps := pieces pane_sizing s 0 (children s) (child_rects s r pane_sizing) in
  let st := solve_layout_node (Split s) r (from_pane_sizing pane_sizing) in
  state_pane_rects st = concat (state_pane_rects <$> ps)
  /\ state_suppressed_pane_ids st = concat (state_suppressed_pane_ids <$> ps)
  /\ state_stack_headers st = concat (state_stack_headers <$> ps).
Proof.
  intros Hwf ps st. subst st. rewrite solve_layout_node_Split. cbn [state_pane_sizing from_pane_sizing].
  apply (zip_fold_pieces s 0 (children s) (child_rects s r pane_sizing) (from_pane_sizing pane_sizing)).
Qed.

Lemma pieces_length pane_sizing s i cs rects :
  length rects = length cs -> length (pieces pane_sizing s i cs rects) = length cs.
Proof.
  revert i rects. induction cs as [|c cs IH]; intros i [|r' rects] Hc; simplify_eq/=; [done|].
  by rewrite IH.
Qed.

Lemma pieces_Forall2 {A} pane_sizing s r (l : list A) (P : A -> LayoutSolveState -> Prop) :
  Rect_wf r -> length l = length (children s) ->
  (forall j a child r', l !! j = Some a -> children s !! j = Some child ->
     child_rects s r pane_sizing !! j = Some r' ->
     P a (solve_child s j child r' (from_pane_sizing pane_sizing))) ->
  Forall2 P l (pieces pane_sizing s 0 (children s) (child_rects s r pane_sizing)).
Proof.
  intros Hwf Hl HP. apply Forall2_same_length_lookup. split.
  - by rewrite Hl, pieces_length by (by apply child_rects_length).
  - intros j a piece Ha Hp. apply pieces_lookup in Hp as (c & r' & Hc & Hr & ->). by apply HP.
Qed.

Lemma solve_child_placed pane_sizing s j child r' :
  Forall (fun c => forall r, Rect_wf r ->
    placed_inside c r (solve_layout_node c r (from_pane_sizing pane_sizing))) (children s) ->
  children s !! j = Some child -> (is_empty r' = false -> Rect_wf r') ->
  placed_inside child r' (solve_child s j child r' (from_pane_sizing pane_sizing)).
Proof.
  intros IH Hc Hwf. unfold solve_child. rewrite Forall_lookup in IH.
  destruct (is_empty r') eqn:E; [apply suppressed_placed|].
  destruct (_ && _); [apply header_placed|]. eapply IH; [done|by apply Hwf].
Qed.

Lemma child_rect_wf pane_sizing s r j r' :
  Rect_wf r -> child_rects s r pane_sizing !! j = Some r' -> is_empty r' = false -> Rect_wf r'.
Proof.
  intros Hwf Hr He. pose proof (cp_inside _ _ _ _ (child_rects_placed pane_sizing s r Hwf)) as Hi.
  unfold all_inside in Hi. rewrite Forall_lookup in Hi.
  destruct (Hi j r' Hr) as [|Hin]; [congruence|]. by eapply Rect_wf_inside.
Qed.

(** A rectangle that is empty is inside [outer] or the rectangles placed in it
    are empty too. *)
Lemma inside_empty_or outer inner rects :
  is_empty inner = true \/ is_inside_rect inner outer = true ->
  all_inside inner rects -> all_inside outer rects.
Proof.
  intros [He|Hi] Hall; [|by eapply all_inside_trans]. apply (Forall_impl _ _ _ Hall).
  intros r [|H]; [by left|]. left. apply is_inside_rect_iff in H. revert H He.
  unfold is_empty, get_right_edge, get_bottom_edge. rect_bools. lia.
Qed.


(** Every leaf is placed once, in layout order, inside the rectangle of the
    solve and apart from every other leaf. *)
Lemma solve_layout_node_placed pane_sizing n r :
  Rect_wf r -> placed_inside n r (solve_layout_node n r (from_pane_sizing pane_sizing)).
Proof.
  revert r. induction n as [p|s IH] using LayoutNode_tree_ind; intros r Hwf.
  { simpl. destruct (is_leaf_within_minimum _ _); split; unfold entry_rects; simpl; try done.
    - constructor; [right; apply is_inside_rect_refl|constructor].
    - intros [|i] [|j] r1 r2 q; simpl; done.
    - constructor; [left; apply empty_at_origin_is_empty|constructor].
    - intros [|i] [|j] r1 r2 q; simpl; done. }
  destruct (split_solved pane_sizing s r Hwf) as (Hrects & _ & _).
  destruct (child_rects_placed pane_sizing s r Hwf) as [Hlen Hin Hdis _ _ _].
  assert (forall j child r', children s !! j = Some child ->
    child_rects s r pane_sizing !! j = Some r' ->
    placed_inside child r' (solve_child s j child r' (from_pane_sizing pane_sizing))) as Hpiece.
  { intros j child r' Hc Hr. apply solve_child_placed; [done..|]. by eapply child_rect_wf. }
  unfold all_inside in Hin. rewrite Forall_lookup in Hin.
  split; unfold entry_rects; rewrite Hrects, fmap_concat, <- list_fmap_compose.
  - rewrite list_leaf_pane_ids_Split, <- concat_fmap_bind. f_equal. symmetry.
    apply Forall2_fmap_eq, pieces_Forall2; [done..|].
    intros j child ? r' Hc Hc' Hr. rewrite Hc in Hc'. injection Hc' as <-.
    symmetry. by eapply pi_leaves, Hpiece.
  - apply Forall_concat, Forall_fmap, Forall_lookup. intros j piece Hp.
    apply pieces_lookup in Hp as (child & r' & Hc & Hr & ->).
    apply (inside_empty_or r r'); [by eapply Hin|]. by eapply pi_inside, Hpiece.
  - apply (blocks_disjoint (child_rects s r pane_sizing)); [|done].
    apply Forall2_fmap_r, pieces_Forall2; [done..|].
    intros j r' child r'' Hr Hc Hr'. rewrite Hr in Hr'. injection Hr' as <-.
    destruct (Hpiece j child r' Hc Hr). done.
Qed.

(** A child's piece suppresses a pane exactly when the child has no room. *)
Lemma solve_child_suppressed pane_sizing s r j child r' :
  Rect_wf r -> children s !! j = Some child -> child_rects s r pane_sizing !! j = Some r' ->
  nonempty_splits child ->
  (forall r0, Rect_wf r0 ->
     state_suppressed_pane_ids (solve_layout_node child r0 (from_pane_sizing pane_sizing)) = []
     <-> is_layout_within_rect child r0 pane_sizing = true) ->
  state_suppressed_pane_ids (solve_child s j child r' (from_pane_sizing pane_sizing)) = []
  <-> is_empty r' = false.
Proof.
  intros Hwf Hc Hr Hne IH. unfold solve_child. destruct (is_empty r') eqn:E.
  { rewrite suppress_from_empty. simpl. split; [|done]. intros He. by apply leaves_nonempty in He. }
  split; [done|]. intros _. destruct (_ && _) eqn:Ea.
  - rewrite header_from_empty. by case_match.
  - apply IH; [by eapply child_rect_wf|].
    eapply cp_fits; [by apply child_rects_placed|done..|].
    apply andb_false_iff in Ea as [Ea|Ea]; bools; [by left|by right].
Qed.

Lemma suppressed_nil_iff pane_sizing n r :
  nonempty_splits n -> Rect_wf r ->
  state_suppressed_pane_ids (solve_layout_node n r (from_pane_sizing pane_sizing)) = []
  <-> is_layout_within_rect n r pane_sizing = true.
Proof.
  revert r. induction n as [p|s IH] using LayoutNode_tree_ind; intros r Hne Hwf.
  { change (is_layout_within_rect (Pane p) r pane_sizing)
      with (is_leaf_within_minimum r pane_sizing). simpl.
    by destruct (is_leaf_within_minimum r pane_sizing). }
  inversion Hne as [|? Hch Hcs]; subst.
  destruct (split_solved pane_sizing s r Hwf) as (_ & -> & _).
  rewrite (cp_all _ _ _ _ (child_rects_placed pane_sizing s r Hwf) Hch Hcs).
  pose proof (child_rects_length pane_sizing s r Hwf) as Hlen.
  rewrite Forall_lookup in IH, Hcs.
  assert (forall j child r', children s !! j = Some child ->
    child_rects s r pane_sizing !! j = Some r' ->
    state_suppressed_pane_ids (solve_child s j child r' (from_pane_sizing pane_sizing)) = []
    <-> is_empty r' = false) as Hpiece.
  { intros j child r' Hc Hr. eapply solve_child_suppressed; [done..|by eapply Hcs|].
    intros r0 Hwf0. eapply IH; [done|by eapply Hcs|done]. }
  rewrite concat_nil_Forall, Forall_fmap, Forall_lookup. split.
  - intros H j r' Hr.
    destruct (lookup_lt_is_Some_2 (children s) j) as [child Hc].
    { rewrite <- Hlen. by eapply lookup_lt_Some. }
    eapply Hpiece; [done..|]. apply (H j). apply pieces_lookup. eauto.
  - intros H j piece Hp. apply pieces_lookup in Hp as (child & r' & Hc & Hr & ->).
    apply Hpiece; eauto.
Qed.

(** At gap 0 a tree that fits covers its rectangle. *)
Definition covers (st : LayoutSolveState) (r : Rect) : Prop :=
  forall p, in_rect p r -> exists r', r' ∈ entry_rects st /\ in_rect p r'.

Lemma solve_child_covers pane_sizing s r j child r' :
  Rect_wf r -> children s !! j = Some child -> child_rects s r pane_sizing !! j = Some r' ->
  nonempty_splits child -> is_empty r' = false ->
  (forall r0, Rect_wf r0 -> is_layout_within_rect child r0 pane_sizing = true ->
     covers (solve_layout_node child r0 (from_pane_sizing pane_sizing)) r0) ->
  covers (solve_child s j child r' (from_pane_sizing pane_sizing)) r'.
Proof.
  intros Hwf Hc Hr Hne He IH. unfold solve_child. rewrite He. destruct (_ && _) eqn:Ea.
  - rewrite header_from_empty. pose proof (leaves_nonempty _ Hne).
    destruct (list_leaf_pane_ids child); [done|]. intros p Hp. exists r'. split; [left|done].
  - apply IH; [by eapply child_rect_wf|].
    eapply cp_fits; [by apply child_rects_placed|done..|].
    apply andb_false_iff in Ea as [Ea|Ea]; bools; [by left|by right].
Qed.

(** A split some child of which has room covers its rectangle, when its
    children cover theirs. *)
Lemma split_covers pane_sizing s r i r1 :
  Rect_wf r -> Forall nonempty_splits (children s) -> gap_cell_count pane_sizing = 0 ->
  child_rects s r pane_sizing !! i = Some r1 -> is_empty r1 = false ->
  Forall (fun child => forall r0, Rect_wf r0 ->
     is_layout_within_rect child r0 pane_sizing = true ->
     covers (solve_layout_node child r0 (from_pane_sizing pane_sizing)) r0) (children s) ->
  covers (solve_layout_node (Split s) r (from_pane_sizing pane_sizing)) r.
Proof.
  intros Hwf Hns Hgap Hi He IH p Hp.
  destruct (cp_cover _ _ _ _ (child_rects_placed pane_sizing s r Hwf) i r1 p)
    as (j & r2 & Hj & Hp2); [done..|].
  destruct (lookup_lt_is_Some_2 (children s) j) as [child Hc].
  { rewrite <- (child_rects_length pane_sizing s r Hwf). by eapply lookup_lt_Some. }
  rewrite Forall_lookup in Hns, IH.
  destruct (solve_child_covers pane_sizing s r j child r2 Hwf Hc Hj (Hns _ _ Hc)
    (in_rect_nonempty _ _ Hp2) (IH _ _ Hc) p Hp2) as (r' & Hr' & Hp').
  exists r'. split; [|done]. unfold entry_rects.
  destruct (split_solved pane_sizing s r Hwf) as (-> & _ & _).
  rewrite fmap_concat, <- list_fmap_compose. apply elem_of_concat.
  eexists. split; [|exact Hr']. apply list_elem_of_fmap. eexists. split; [done|].
  apply list_elem_of_lookup. exists j. apply pieces_lookup. eauto.
Qed.

Lemma fitting_tree_covers pane_sizing n r :
  nonempty_splits n -> gap_cell_count pane_sizing = 0 -> Rect_wf r ->
  is_layout_within_rect n r pane_sizing = true ->
  covers (solve_layout_node n r (from_pane_sizing pane_sizing)) r.
Proof.
  intros Hne Hgap. revert r Hne. induction n as [p|s IH] using LayoutNode_tree_ind; intros r Hne Hwf Hfit.
  { simpl. change (is_layout_within_rect (Pane p) r pane_sizing)
      with (is_leaf_within_minimum r pane_sizing) in Hfit. rewrite Hfit.
    intros q Hq. exists r. split; [left|done]. }
  inversion Hne as [|? Hch Hcs]; subst.
  pose proof (cp_all _ _ _ _ (child_rects_placed pane_sizing s r Hwf) Hch Hcs) as Hall.
  destruct (lookup_lt_is_Some_2 (child_rects s r pane_sizing) 0) as [r1 Hr1].
  { rewrite child_rects_length by done. unfold has_children in Hch. destruct (children s); simpl; [done|lia]. }
  apply (split_covers pane_sizing s r 0 r1); [done..|by apply (proj1 Hall Hfit 0%nat)|].
  rewrite Forall_forall in *. intros c Hc r0. by apply IH, Hcs.
Qed.

(** A solve that shows anything covers its whole rectangle. *)
Lemma shown_solve_covers pane_sizing n r r1 :
  nonempty_splits n -> gap_cell_count pane_sizing = 0 -> Rect_wf r ->
  r1 ∈ entry_rects (solve_layout_node n r (from_pane_sizing pane_sizing)) ->
  is_empty r1 = false ->
  covers (solve_layout_node n r (from_pane_sizing pane_sizing)) r.
Proof.
  intros Hne Hgap Hwf Hin He. destruct n as [p|s].
  { apply fitting_tree_covers; [done..|].
    change (is_layout_within_rect (Pane p) r pane_sizing)
      with (is_leaf_within_minimum r pane_sizing). simpl in Hin.
    destruct (is_leaf_within_minimum r pane_sizing); [done|].
    apply list_elem_of_singleton in Hin as ->. done. }
  inversion Hne as [|? Hch Hcs]; subst. unfold entry_rects in Hin.
  destruct (split_solved pane_sizing s r Hwf) as (Hrects & _ & _). rewrite Hrects in Hin.
  rewrite fmap_concat, <- list_fmap_compose in Hin.
  apply elem_of_concat in Hin as (l & (piece & -> & [j Hj]%list_elem_of_lookup)%list_elem_of_fmap & Hl).
  apply pieces_lookup in Hj as (child & r' & Hc & Hr & ->).
  apply (split_covers pane_sizing s r j r'); [done..| |].
  - destruct (is_empty r') eqn:E; [|done]. unfold solve_child in Hl. rewrite E in Hl.
    simpl in Hl. rewrite suppress_from_empty in Hl.
    apply (proj2 (empty_entries (list_leaf_pane_ids child))) in Hl. congruence.
  - apply Forall_forall. intros c Hc' r0 Hwf0. rewrite Forall_forall in Hcs.
    by apply fitting_tree_covers, Hwf0; [apply Hcs|].
Qed.

(** ** The lists of a solve agree *)

(** A suppressed pane is placed at zero area; a header is its pane's placed
    rectangle, one row that shows. *)
Record lists_agree (st : LayoutSolveState) : Prop :=
  { la_suppressed p : p ∈ state_suppressed_pane_ids st ->
      (p, build_empty_at_origin) ∈ state_pane_rects st;
    la_headers h : h ∈ state_stack_headers st ->
      (header_pane_id h, header_rect h) ∈ state_pane_rects st
      /\ row_count (size (header_rect h)) = 1 /\ is_empty (header_rect h) = false }.

Lemma lists_agree_concat (ps : list LayoutSolveState) st :
  Forall lists_agree ps ->
  state_pane_rects st = concat (state_pane_rects <$> ps) ->
  state_suppressed_pane_ids st = concat (state_suppressed_pane_ids <$> ps) ->
  state_stack_headers st = concat (state_stack_headers <$> ps) ->
  lists_agree st.
Proof.
  intros Hps E1 E2 E3. rewrite Forall_forall in Hps.
  assert (forall x e, x ∈ ps -> e ∈ state_pane_rects x -> e ∈ state_pane_rects st) as Hin.
  { intros x e Hx He. rewrite E1. apply elem_of_concat. eexists. split; [|done].
    apply list_elem_of_fmap. eauto. }
  split.
  - intros p. rewrite E2. intros (l & (x & -> & Hx)%list_elem_of_fmap & Hp)%elem_of_concat.
    eapply Hin; [done|]. by apply Hps.
  - intros h. rewrite E3. intros (l & (x & -> & Hx)%list_elem_of_fmap & Hh)%elem_of_concat.
    destruct (la_headers _ (Hps x Hx) h Hh) as (H1 & H2 & H3). split_and!; [|done..].
    by eapply Hin.
Qed.

(** The strip of a collapsed member is one row. *)
Lemma member_rect_rows pane_sizing s r j r' :
  Rect_wf r -> direction s = Stacked -> j <> get_active_child_index s ->
  child_rects s r pane_sizing !! j = Some r' -> is_empty r' = false -> row_count (size r') = 1.
Proof.
  intros Hwf Hst Hj Hr He. unfold child_rects in Hr. rewrite bool_decide_true in Hr by done.
  destruct (decide (children s = [])) as [Hc|Hne].
  { unfold compute_stacked_child_rects in Hr. rewrite Hc in Hr. done. }
  destruct (stacked_child_rects_cases pane_sizing s r Hwf Hst Hne)
    as [[_ E]|(_ & Hl & _ & Hrects)].
  - rewrite E in Hr. apply replicate_empty_rects in Hr. congruence.
  - assert (j < length (children s))%nat as Hlt by (rewrite <- Hl; by eapply lookup_lt_Some).
    rewrite Hrects in Hr by done. injection Hr as <-. simpl.
    rewrite member_row_counts_at by done. by rewrite (proj2 (Nat.eqb_neq _ _)).
Qed.

Lemma solve_layout_node_lists_agree pane_sizing n r :
  Rect_wf r -> lists_agree (solve_layout_node n r (from_pane_sizing pane_sizing)).
Proof.
  revert r. induction n as [p|s IH] using LayoutNode_tree_ind; intros r Hwf.
  { simpl. destruct (is_leaf_within_minimum _ _); split; simpl; set_solver. }
  destruct (split_solved pane_sizing s r Hwf) as (H1 & H2 & H3).
  eapply lists_agree_concat; [|done..]. apply Forall_lookup. intros j piece Hp.
  apply pieces_lookup in Hp as (child & r' & Hc & Hr & ->). simpl.
  unfold solve_child. destruct (is_empty r') eqn:E.
  - rewrite suppress_from_empty. split; simpl; [|set_solver]. intros p Hp.
    apply list_elem_of_fmap. eauto.
  - destruct (_ && _) eqn:Ea.
    + apply andb_true_iff in Ea as [Ea1 Ea2]. bools.
      pose proof (member_rect_rows pane_sizing s r j r' Hwf Ea1 Ea2 Hr E).
      rewrite header_from_empty. destruct (list_leaf_pane_ids child) as [|p ps];
        split; simpl; set_solver.
    + rewrite Forall_lookup in IH. eapply IH; [done|]. by eapply child_rect_wf.
Qed.

(** ** Fullscreen *)

Definition fullscreen_entry (focused_pane_id : PaneId) (tab_rect : Rect) (is_too_small : bool)
    (p : PaneId) : PaneId * Rect :=
  (p, if (p =? focused_pane_id) && negb is_too_small then tab_rect else build_empty_at_origin).

Lemma place_fullscreen_pane_eq f tab small st p :
  place_fullscreen_pane f tab small st p
  = MkLayoutSolveState (state_pane_sizing st)
      (state_pane_rects st ++ [fullscreen_entry f tab small p])
      (state_suppressed_pane_ids st ++ (if (p =? f) && small then [p] else []))
      (state_stack_headers st).
Proof.
  unfold place_fullscreen_pane, fullscreen_entry, push_suppressed_pane_id, push_pane_rect.
  destruct (p =? f), small; simpl; by rewrite ?app_nil_r.
Qed.

Lemma fullscreen_loop_spec f tab small pane_sizing ps :
  foldl (place_fullscreen_pane f tab small) (from_pane_sizing pane_sizing) ps
  = MkLayoutSolveState pane_sizing (fullscreen_entry f tab small <$> ps)
      (ps ≫= fun p => if (p =? f) && small then [p] else []) [].
Proof.
  assert (forall rs sup,
    foldl (place_fullscreen_pane f tab small) (MkLayoutSolveState pane_sizing rs sup []) ps
    = MkLayoutSolveState pane_sizing (rs ++ (fullscreen_entry f tab small <$> ps))
        (sup ++ (ps ≫= fun p => if (p =? f) && small then [p] else [])) []) as H; [|apply H].
  induction ps as [|p ps IH]; intros rs sup; cbn [foldl fmap list_fmap mbind list_bind];
    [by rewrite !app_nil_r|].
  rewrite place_fullscreen_pane_eq. cbn [state_pane_sizing state_pane_rects
    state_suppressed_pane_ids state_stack_headers].
  by rewrite IH, <- !app_assoc.
Qed.

Lemma fullscreen_leaves f tab small ps : (fullscreen_entry f tab small <$> ps).*1 = ps.
Proof. rewrite <- list_fmap_compose. apply list_fmap_id. Qed.

Lemma fullscreen_entries_disjoint f tab small ps :
  NoDup ps -> pairwise_disjoint (fullscreen_entry f tab small <$> ps).*2
  /\ all_inside tab (fullscreen_entry f tab small <$> ps).*2.
Proof.
  intros Hnd. rewrite <- list_fmap_compose. split.
  - intros i j r1 r2 p Hi Hj Hp1 Hp2.
    apply list_lookup_fmap_Some in Hi as (q1 & -> & Hi), Hj as (q2 & -> & Hj).
    simpl in *.
    assert (forall q, in_rect p (if (q =? f) && negb small then tab else build_empty_at_origin) ->
      q = f) as Hq.
    { intros q Hq. destruct (q =? f) eqn:E; bools; [done|]. simpl in Hq.
      by apply empty_rect_no_point in Hq. }
    apply Hq in Hp1 as ->. apply Hq in Hp2 as ->. by eapply NoDup_lookup.
  - apply Forall_fmap, Forall_true. intros p. simpl.
    destruct (_ && _); [right; apply is_inside_rect_refl|left; done].
Qed.

(** ** Properties *)

Lemma solve_layout_with_mode_cases n mode tab pane_sizing :
  let solve := solve_layout_with_mode n mode tab pane_sizing in
  solve = into_layout_solve (solve_layout_node n tab (from_pane_sizing pane_sizing))
  \/ exists f, mode = Fullscreen f /\ f ∈ list_leaf_pane_ids n
     /\ solve = into_layout_solve (foldl (place_fullscreen_pane f tab
          (negb (is_leaf_within_minimum tab pane_sizing)))
          (from_pane_sizing pane_sizing) (list_leaf_pane_ids n)).
Proof.
  destruct mode as [|f]; simpl; [by left|]. destruct (has_pane f n) eqn:E; [right|by left].
  exists f. split_and!; [done|by apply has_pane_iff|done].
Qed.

(** C38: Whatever the mode, a solve lists every leaf of the tree exactly once,
    in layout order. *)
Theorem every_leaf_placed_once n mode tab pane_sizing :
  Rect_wf tab ->
  (pane_rects (solve_layout_with_mode n mode tab pane_sizing)).*1 = list_leaf_pane_ids n.
Proof.
  intros Hwf. destruct (solve_layout_with_mode_cases n mode tab pane_sizing) as [->|(f & _ & _ & ->)].
  - by eapply pi_leaves, solve_layout_node_placed.
  - rewrite fullscreen_loop_spec. apply fullscreen_leaves.
Qed.

Definition example_tree : LayoutNode :=
  Split (with_equal_weights Horizontal
    [Pane 1; Split (with_equal_weights Vertical [Pane 2; Pane 3]);
     Split (from_stacked_pane_ids [4; 5] 1)]).
Definition example_tab : Rect := from_size_at_origin (MkSize 101 30).

Lemma every_leaf_placed_once_witness :
  Rect_wf example_tab
  /\ (pane_rects (solve_layout_with_mode example_tree Tiled example_tab default_pane_sizing)).*1
     = [1; 2; 3; 4; 5].
Proof.
  assert (Rect_wf example_tab) as H by (vm_compute; split; discriminate).
  split; [exact H|]. exact (every_leaf_placed_once example_tree Tiled example_tab _ H).
Defined.

(** C39: The rectangles of a solve are empty or inside the tab, and no cell is
    in the rectangles of two panes, in every mode and at every gap. *)
Theorem solved_panes_are_disjoint n mode tab pane_sizing :
  Rect_wf tab -> NoDup (list_leaf_pane_ids n) ->
  let rects := (pane_rects (solve_layout_with_mode n mode tab pane_sizing)).*2 in
  all_inside tab rects /\ pairwise_disjoint rects.
Proof.
  intros Hwf Hnd rects. subst rects.
  destruct (solve_layout_with_mode_cases n mode tab pane_sizing) as [->|(f & _ & _ & ->)].
  - by destruct (solve_layout_node_placed pane_sizing n tab Hwf).
  - rewrite fullscreen_loop_spec. by apply and_comm, fullscreen_entries_disjoint.
Qed.

Lemma solved_panes_are_disjoint_witness :
  all_inside example_tab
    (pane_rects (solve_layout_with_mode example_tree (Fullscreen 3) example_tab
       default_pane_sizing)).*2.
Proof.
  apply (solved_panes_are_disjoint example_tree (Fullscreen 3) example_tab default_pane_sizing).
  - vm_compute. split; discriminate.
  - apply (bool_decide_unpack _). vm_compute. exact I.
Defined.

(** C40: At gap 0 the tiled solve leaves no hole. Of a tree without an empty
    split, either no pane has any area, or every cell of the tab belongs to a
    pane. *)
Theorem tiled_solve_leaves_no_hole n tab pane_sizing :
  Rect_wf tab -> nonempty_splits n -> gap_cell_count pane_sizing = 0 ->
  let rects := (pane_rects (solve_layout_with_sizing n tab pane_sizing)).*2 in
  (forall r, r ∈ rects -> is_empty r = true)
  \/ (forall p, in_rect p tab -> exists r, r ∈ rects /\ in_rect p r).
Proof.
  intros Hwf Hne Hgap rects.
  destruct (decide (Exists (fun r => is_empty r = false) rects)) as [He|He].
  - right. apply Exists_exists in He as (r1 & Hin & He). by eapply shown_solve_covers.
  - left. intros r Hr. destruct (is_empty r) eqn:E; [done|]. exfalso. apply He, Exists_exists. eauto.
Qed.

Lemma example_tree_nonempty : nonempty_splits example_tree.
Proof. repeat (constructor; [discriminate|]); repeat constructor; discriminate. Defined.

Lemma tiled_solve_leaves_no_hole_witness :
  exists r, r ∈ (pane_rects (solve_layout_with_sizing example_tree example_tab
                   default_pane_sizing)).*2
    /\ in_rect (MkPoint 70 0) r.
Proof.
  destruct (tiled_solve_leaves_no_hole example_tree example_tab default_pane_sizing) as [H|H].
  - vm_compute. split; discriminate.
  - exact example_tree_nonempty.
  - reflexivity.
  - exfalso. specialize (H (MkRect (MkPoint 0 0) (MkSize 33 30))). discriminate H.
    vm_compute. left.
  - apply H. reflexivity.
Defined.

(** A tree without an empty split suppresses no pane exactly when
    [is_layout_within_rect] says its minimum size fits the tab: the test a
    caller makes before it edits a layout is the outcome of the solve. *)
Theorem no_pane_suppressed_iff_fits n tab pane_sizing :
  Rect_wf tab -> nonempty_splits n ->
  suppressed_pane_ids (solve_layout_with_sizing n tab pane_sizing) = []
  <-> is_layout_within_rect n tab pane_sizing = true.
Proof. intros Hwf Hne. by apply suppressed_nil_iff. Qed.

Lemma no_pane_suppressed_iff_fits_witness :
  suppressed_pane_ids (solve_layout_with_sizing example_tree example_tab default_pane_sizing) = [].
Proof.
  apply (no_pane_suppressed_iff_fits example_tree example_tab default_pane_sizing).
  - vm_compute. split; discriminate.
  - exact example_tree_nonempty.
  - reflexivity.
Defined.

(** The lists of a tiled solve agree. A suppressed pane is placed at zero
    area; a stack header is the placed rectangle of its pane, one row that
    shows; and the flag for the too-small overlay is set exactly when a pane is
    suppressed and no pane shows. *)
Theorem solve_lists_agree n tab pane_sizing :
  Rect_wf tab ->
  let solve := solve_layout_with_sizing n tab pane_sizing in
  (forall p, p ∈ suppressed_pane_ids solve -> (p, build_empty_at_origin) ∈ pane_rects solve)
  /\ (forall h, h ∈ stack_headers solve ->
        (header_pane_id h, header_rect h) ∈ pane_rects solve
        /\ row_count (size (header_rect h)) = 1 /\ is_empty (header_rect h) = false)
  /\ (is_every_pane_suppressed solve = true <->
        suppressed_pane_ids solve <> []
        /\ forall e, e ∈ pane_rects solve -> is_empty e.2 = true).
Proof.
  intros Hwf. destruct (solve_layout_node_lists_agree pane_sizing n tab Hwf) as [H1 H2].
  cbn [solve_layout_with_sizing into_layout_solve suppressed_pane_ids pane_rects stack_headers
    is_every_pane_suppressed].
  split_and!; [exact H1|exact H2|]. simpl.
  rewrite andb_true_iff, negb_true_iff, bool_decide_eq_false, forallb_forall.
  apply and_iff_compat_l. split; intros H e He; apply H; by apply list_elem_of_In.
Qed.

Lemma solve_lists_agree_witness :
  (4, MkRect (MkPoint 67 0) (MkSize 34 1))
  ∈ pane_rects (solve_layout_with_sizing example_tree example_tab default_pane_sizing).
Proof.
  refine (proj1 (proj1 (proj2 (solve_lists_agree example_tree example_tab default_pane_sizing _))
    (MkStackHeader 4 (MkRect (MkPoint 67 0) (MkSize 34 1)) 0 2) _)).
  - vm_compute. split; discriminate.
  - vm_compute. left.
Defined.

(** Fullscreen gives the focused pane the whole tab, or suppresses it when
    the tab is below its minimum; every other pane has zero area, and there is
    no stack header. A focused pane the tree does not hold falls back to the
    tiled solve. *)
Theorem fullscreen_shows_the_focused_pane n f tab pane_sizing :
  let solve := solve_layout_with_mode n (Fullscreen f) tab pane_sizing in
  (f ∉ list_leaf_pane_ids n -> solve = solve_layout_with_sizing n tab pane_sizing)
  /\ (f ∈ list_leaf_pane_ids n ->
      stack_headers solve = []
      /\ (forall p r, (p, r) ∈ pane_rects solve -> p <> f -> r = build_empty_at_origin)
      /\ (forall p, p ∈ suppressed_pane_ids solve <->
            p = f /\ is_leaf_within_minimum tab pane_sizing = false)
      /\ find_pane_rect solve f
         = Some (if is_leaf_within_minimum tab pane_sizing then tab else build_empty_at_origin)).
Proof.
  simpl. rewrite <- has_pane_iff. destruct (has_pane f n) eqn:Ef; [|by split].
  apply has_pane_iff in Ef. split; [done|]. intros _. simpl. rewrite fullscreen_loop_spec.
  cbn [into_layout_solve state_pane_rects state_suppressed_pane_ids state_stack_headers
    pane_rects suppressed_pane_ids stack_headers].
  split_and!; [done| | |].
  - intros p r Hin Hne. apply list_elem_of_fmap in Hin as (q & [= <- ->] & _).
    by rewrite (proj2 (N.eqb_neq _ _)).
  - intros p. rewrite list_elem_of_bind. split.
    + intros (q & Hp & Hq). destruct (q =? f) eqn:E; bools; simpl in Hp; [|set_solver].
      destruct (is_leaf_within_minimum tab pane_sizing); simpl in Hp; set_solver.
    + intros [-> ->]. exists f. rewrite N.eqb_refl. simpl. split; [left|done].
  - unfold find_pane_rect. cbn [pane_rects].
    induction (list_leaf_pane_ids n) as [|p ps IH]; [by apply not_elem_of_nil in Ef|].
    cbn [fmap list_fmap List.find]. unfold fullscreen_entry at 1. simpl.
    destruct (p =? f) eqn:E; bools; simpl.
    + by rewrite negb_involutive.
    + apply IH. set_solver.
Qed.

Lemma fullscreen_shows_the_focused_pane_witness :
  find_pane_rect (solve_layout_with_mode example_tree (Fullscreen 3) example_tab
    default_pane_sizing) 3 = Some example_tab.
Proof.
  refine (proj2 (proj2 (proj2 (proj2
    (fullscreen_shows_the_focused_pane example_tree 3 example_tab default_pane_sizing) _)))).
  apply (bool_decide_unpack _). vm_compute. exact I.
Defined.
