(* ===== verification/Content.v ===== *)
(** * Content rectangles of a solved layout
    ([crates/koshi-layout/src/content.rs])

    The cells a pane's program draws into: the solved rectangle less its
    border, for the panes that show content. *)

From S2P Require Import Prelude Geometry Size Tree Distribute Solver.
From stdpp Require Import options.

(** ** Definitions *)

Definition compute_content_rect (solved_layout : LayoutSolve) (pane_id : PaneId)
    (outer_pane_rect : Rect) : option Rect :=
  let has_visible_content :=
    negb (existsb (N.eqb pane_id) (suppressed_pane_ids solved_layout))
    && is_content_visible pane_id outer_pane_rect (stack_headers solved_layout) in
  if has_visible_content then Some (compute_inner_with_border outer_pane_rect) else None.

Definition list_content_rects (solved_layout : LayoutSolve) : list (PaneId * option Rect) :=
  (fun entry : PaneId * Rect => (entry.1, compute_content_rect solved_layout entry.1 entry.2))
    <$> pane_rects solved_layout.

Definition find_content_rect (solved_layout : LayoutSolve) (pane_id : PaneId) : option Rect :=
  outer_pane_rect ← find_pane_rect solved_layout pane_id;
  compute_content_rect solved_layout pane_id outer_pane_rect.

(** ** Which entries show content *)

Lemma is_content_visible_iff p r headers :
  is_content_visible p r headers = true <->
  is_empty r = false /\ p ∉ (header_pane_id <$> headers).
Proof.
  unfold is_content_visible. rewrite andb_true_iff, !negb_true_iff.
  apply and_iff_compat_l. rewrite <- not_true_iff_false, existsb_exists. apply not_iff_compat.
  rewrite list_elem_of_fmap. split.
  - intros (h & Hin%list_elem_of_In & E). bools. eauto.
  - intros (h & -> & Hin%list_elem_of_In). exists h. split; [done|apply N.eqb_refl].
Qed.

Lemma compute_content_rect_Some solve p r c :
  compute_content_rect solve p r = Some c <->
  c = compute_inner_with_border r /\ is_empty r = false
  /\ p ∉ suppressed_pane_ids solve /\ p ∉ (header_pane_id <$> stack_headers solve).
Proof.
  unfold compute_content_rect.
  assert (negb (existsb (N.eqb p) (suppressed_pane_ids solve)) = true
    <-> p ∉ suppressed_pane_ids solve) as Hsup.
  { rewrite negb_true_iff, <- not_true_iff_false, existsb_exists. apply not_iff_compat. split.
    - intros (q & Hq%list_elem_of_In & E). bools. by subst.
    - intros Hp%list_elem_of_In. exists p. split; [done|apply N.eqb_refl]. }
  pose proof (is_content_visible_iff p r (stack_headers solve)) as Hvis.
  destruct (negb _ && _) eqn:E.
  - apply andb_true_iff in E as [E1 E2]. apply Hsup in E1. apply Hvis in E2 as [E2 E3].
    split; [by intros [= <-]|by intros [-> _]].
  - split; [done|]. intros (-> & H1 & H2 & H3). exfalso.
    rewrite (proj2 Hsup H2), (proj2 Hvis (conj H1 H3)) in E. done.
Qed.

(** A pane whose rectangle is not empty and that stands on no header strip
    has the border-inclusive minimum. *)
Definition shown_meet_minimum (pane_sizing : PaneSizing) (st : LayoutSolveState) : Prop :=
  forall p r, (p, r) ∈ state_pane_rects st ->
    is_empty r = true \/ is_leaf_within_minimum r pane_sizing = true
    \/ p ∈ (header_pane_id <$> state_stack_headers st).

Lemma solve_shown_meet_minimum pane_sizing n r :
  Rect_wf r ->
  shown_meet_minimum pane_sizing (solve_layout_node n r (from_pane_sizing pane_sizing)).
Proof.
  revert r. induction n as [p|s IH] using LayoutNode_tree_ind; intros r Hwf q rq.
  { simpl. destruct (is_leaf_within_minimum r pane_sizing) eqn:E; simpl;
      intros [= -> ->]%list_elem_of_singleton; [by right; left|by left]. }
  destruct (split_solved pane_sizing s r Hwf) as (-> & _ & ->).
  intros (l & (piece & -> & Hp)%list_elem_of_fmap & Hin)%elem_of_concat.
  assert (is_empty rq = true \/ is_leaf_within_minimum rq pane_sizing = true
    \/ q ∈ (header_pane_id <$> state_stack_headers piece)) as [|[|Hq]]; [|by left|by right; left|].
  - apply list_elem_of_lookup in Hp as [j Hp].
    apply pieces_lookup in Hp as (child & r' & Hc & Hr & ->). simpl in Hin |- *.
    unfold solve_child in *. destruct (is_empty r') eqn:E.
    + rewrite suppress_from_empty in Hin. simpl in Hin.
      apply list_elem_of_fmap in Hin as (p & [= -> ->] & _). by left.
    + destruct (_ && _) eqn:Ea.
      * rewrite header_from_empty in Hin |- *. destruct (list_leaf_pane_ids child); simpl in *;
          [by apply not_elem_of_nil in Hin|].
        apply elem_of_cons in Hin as [[= -> ->]|Hin]; [right; right; left|].
        apply list_elem_of_fmap in Hin as (p' & [= -> ->] & _). by left.
      * rewrite Forall_lookup in IH. eapply IH; [done| |done]. by eapply child_rect_wf.
  - right; right. apply list_elem_of_fmap in Hq as (h & -> & Hh).
    apply list_elem_of_fmap. exists h. split; [done|]. apply elem_of_concat.
    eexists. split; [|done]. apply list_elem_of_fmap. eauto.
Qed.

Lemma inner_with_border_fits r pane_sizing :
  Rect_wf r -> is_leaf_within_minimum r pane_sizing = true ->
  Size_can_fit_inside (minimum_size pane_sizing) (size (compute_inner_with_border r)) = true
  /\ (is_empty (MkRect (origin r) (minimum_size pane_sizing)) = false ->
      is_inside_rect (compute_inner_with_border r) r = true).
Proof.
  unfold is_leaf_within_minimum. rewrite RequiredSize_can_fit_inside_iff, is_inside_rect_iff.
  rewrite is_empty_false_iff. unfold compute_inner_with_border, compute_inset.
  intros Hwf. simpl. solve_rect.
Qed.

(** ** Properties *)

(** A pane that shows content draws into its rectangle less one border
    cell per side, inside the tab, and never into fewer cells than the
    configured minimum: the solver suppresses a pane rather than show it
    smaller. In every mode. *)
Theorem content_meets_minimum n mode tab pane_sizing p c :
  Rect_wf tab -> 0 < column_count (minimum_size pane_sizing) ->
  0 < row_count (minimum_size pane_sizing) ->
  let solve := solve_layout_with_mode n mode tab pane_sizing in
  (p, Some c) ∈ list_content_rects solve ->
  Size_can_fit_inside (minimum_size pane_sizing) (size c) = true
  /\ is_inside_rect c tab = true
  /\ exists r, (p, r) ∈ pane_rects solve /\ c = compute_inner_with_border r.
Proof.
  intros Hwf Hc Hr solve Hin. apply list_elem_of_fmap in Hin as ([q r] & [= <- Hcontent] & Hin).
  simpl in Hcontent. symmetry in Hcontent.
  apply compute_content_rect_Some in Hcontent as (-> & He & Hs & Hh).
  assert (is_leaf_within_minimum r pane_sizing = true /\ is_inside_rect r tab = true) as [Hmin Hi].
  { subst solve. destruct (solve_layout_with_mode_cases n mode tab pane_sizing)
      as [E|(f & _ & _ & E)]; rewrite E in *; simpl in *.
    - destruct (solve_shown_meet_minimum pane_sizing n tab Hwf p r Hin) as [|[|]];
        [congruence| |done].
      split; [done|]. pose proof (pi_inside _ _ _ (solve_layout_node_placed pane_sizing n tab Hwf)) as Hall.
      unfold all_inside in Hall. rewrite Forall_forall in Hall.
      destruct (Hall r); [|congruence|done]. apply list_elem_of_fmap. by exists (p, r).
    - rewrite fullscreen_loop_spec in Hin. simpl in Hin.
      apply list_elem_of_fmap in Hin as (q & [= <- ->] & _).
      destruct (p =? f); [|done]. rewrite negb_involutive in *. simpl in *.
      destruct (is_leaf_within_minimum tab pane_sizing) eqn:El; [|done]. split; [done|].
      apply is_inside_rect_refl. }
  pose proof (Rect_wf_inside _ _ Hi Hwf) as Hwr.
  destruct (inner_with_border_fits r pane_sizing Hwr Hmin) as [H1 H2]. split_and!; [done| |eauto].
  eapply is_inside_rect_trans; [|done]. apply H2, is_empty_false_iff. done.
Qed.

Lemma content_meets_minimum_witness :
  is_inside_rect (MkRect (MkPoint 1 1) (MkSize 31 28)) example_tab = true.
Proof.
  refine (proj1 (proj2 (content_meets_minimum example_tree Tiled example_tab default_pane_sizing
    1 _ _ _ _ _))).
  - vm_compute. split; discriminate.
  - reflexivity.
  - reflexivity.
  - vm_compute. left.
Defined.
