(* ===== verification/Neighbor.v ===== *)
(** * Choosing a pane by geometry ([crates/koshi-layout/src/neighbor.rs] and
    [focus.rs])

    The pane a directional move lands on, and the ranked focus candidates
    after a pane is removed. Both rank candidates by a key; the proofs share
    the laws of strict orders on those keys. *)

From S2P Require Import Prelude Geometry Size Tree Distribute Solver Content.
From stdpp Require Import options.

(** ** Directional neighbor *)

Definition compute_span_overlap (first_span_start first_span_length second_span_start
    second_span_length : N) : N :=
  let overlap_start := first_span_start `max` second_span_start in
  let first_span_end := u16_saturating_add first_span_start first_span_length in
  let second_span_end := u16_saturating_add second_span_start second_span_length in
  u16_saturating_sub (first_span_end `min` second_span_end) overlap_start.

Definition compute_right_edge (pane_rect : Rect) : N :=
  u16_saturating_add (column (origin pane_rect)) (column_count (size pane_rect)).

Definition compute_bottom_edge (pane_rect : Rect) : N :=
  u16_saturating_add (row (origin pane_rect)) (row_count (size pane_rect)).

(** [condition.then(|| a - b)]: the subtraction runs under its guard. *)
Definition compute_facing_edge_distance (source_pane_rect candidate_pane_rect : Rect)
    (d : Direction) : option N :=
  let source_right_edge := compute_right_edge source_pane_rect in
  let source_bottom_edge := compute_bottom_edge source_pane_rect in
  let candidate_right_edge := compute_right_edge candidate_pane_rect in
  let candidate_bottom_edge := compute_bottom_edge candidate_pane_rect in
  match d with
  | Left =>
      if candidate_right_edge <=? column (origin source_pane_rect)
      then Some (column (origin source_pane_rect) -16 candidate_right_edge) else None
  | Right =>
      if source_right_edge <=? column (origin candidate_pane_rect)
      then Some (column (origin candidate_pane_rect) -16 source_right_edge) else None
  | Up =>
      if candidate_bottom_edge <=? row (origin source_pane_rect)
      then Some (row (origin source_pane_rect) -16 candidate_bottom_edge) else None
  | Down =>
      if source_bottom_edge <=? row (origin candidate_pane_rect)
      then Some (row (origin candidate_pane_rect) -16 source_bottom_edge) else None
  end.

Definition compute_perpendicular_overlap (source_pane_rect candidate_pane_rect : Rect)
    (d : Direction) : N :=
  match d with
  | Left | Right =>
      compute_span_overlap (row (origin source_pane_rect)) (row_count (size source_pane_rect))
        (row (origin candidate_pane_rect)) (row_count (size candidate_pane_rect))
  | Up | Down =>
      compute_span_overlap (column (origin source_pane_rect))
        (column_count (size source_pane_rect)) (column (origin candidate_pane_rect))
        (column_count (size candidate_pane_rect))
  end.

(** The rank tuple of a candidate. [Reverse] turns the comparison of its
    component around. *)
Record CandidateRank := MkCandidateRank
  { edge_distance : N;
    reverse_perpendicular_overlap : N;
    perpendicular_origin : N;
    rank_row : N;
    rank_column : N;
    rank_pane_id : PaneId }.

(** The order of the tuple: the first component that differs decides. *)
Definition candidate_rank_lt (a b : CandidateRank) : bool :=
  let lex (x y : N) (rest : bool) := if x <? y then true else if y <? x then false else rest in
  lex (edge_distance a) (edge_distance b)
  (lex (reverse_perpendicular_overlap b) (reverse_perpendicular_overlap a)
  (lex (perpendicular_origin a) (perpendicular_origin b)
  (lex (rank_row a) (rank_row b)
  (lex (rank_column a) (rank_column b)
       (rank_pane_id a <? rank_pane_id b))))).

(** The [filter] and [filter_map] of one candidate. *)
Definition rank_candidate (source_pane_rect : Rect) (d : Direction)
    (candidate : PaneId * Rect) : option CandidateRank :=
  let '(pane_id, candidate_pane_rect) := candidate in
  if is_empty candidate_pane_rect then None
  else
    edge_distance ←
      compute_facing_edge_distance source_pane_rect candidate_pane_rect d;
    let perpendicular_overlap :=
      compute_perpendicular_overlap source_pane_rect candidate_pane_rect d in
    if perpendicular_overlap =? 0 then None
    else
      let perpendicular_origin :=
        match d with
        | Left | Right => row (origin candidate_pane_rect)
        | Up | Down => column (origin candidate_pane_rect)
        end in
      Some (MkCandidateRank edge_distance perpendicular_overlap perpendicular_origin
              (row (origin candidate_pane_rect)) (column (origin candidate_pane_rect)) pane_id).

Definition select_directional_neighbor (source_pane_rect : Rect)
    (candidate_pane_rects : list (PaneId * Rect)) (d : Direction) : option PaneId :=
  rank_pane_id <$>
    min_by candidate_rank_lt (omap (rank_candidate source_pane_rect d) candidate_pane_rects).

(** ** Focus candidates *)

Record FocusCandidates := MkFocusCandidates
  { spatial_neighbor_pane_id : option PaneId;
    absorbed_space_pane_id : option PaneId;
    layout_order_pane_ids : list PaneId }.

Definition compute_doubled_center (pane_rect : Rect) : N * N :=
  (2 * column (origin pane_rect) + column_count (size pane_rect),
   2 * row (origin pane_rect) + row_count (size pane_rect)).

Definition compute_center_distance (removed_pane_rect candidate_pane_rect : Rect) : N :=
  let '(removed_doubled_column, removed_doubled_row) := compute_doubled_center removed_pane_rect in
  let '(candidate_doubled_column, candidate_doubled_row) :=
    compute_doubled_center candidate_pane_rect in
  let column_distance := (Z.of_N removed_doubled_column - Z.of_N candidate_doubled_column)%Z in
  let row_distance := (Z.of_N removed_doubled_row - Z.of_N candidate_doubled_row)%Z in
  Z.to_N (column_distance * column_distance + row_distance * row_distance).

(** One visible pane of the loop for the largest absorbed area. *)
Definition absorb_pane (removed_pane_rect : Rect) (largest_absorbed_pane : option (PaneId * N))
    (entry : PaneId * Rect) : option (PaneId * N) :=
  match compute_intersection entry.2 removed_pane_rect with
  | None => largest_absorbed_pane
  | Some overlap_rect =>
      let absorbed_cell_area := compute_cell_count (size overlap_rect) in
      match largest_absorbed_pane with
      | None => Some (entry.1, absorbed_cell_area)
      | Some (_, largest_absorbed_cell_area) =>
          if largest_absorbed_cell_area <? absorbed_cell_area
          then Some (entry.1, absorbed_cell_area) else largest_absorbed_pane
      end
  end.

Definition list_visible_pane_rects (surviving_pane_rects : list (PaneId * Rect))
    (headers : list StackHeader) : list (PaneId * Rect) :=
  List.filter (fun entry : PaneId * Rect => is_content_visible entry.1 entry.2 headers)
    surviving_pane_rects.

Definition compute_focus_candidates (removed_pane_rect : Rect)
    (surviving_pane_rects : list (PaneId * Rect)) (headers : list StackHeader)
    : FocusCandidates :=
  let visible_pane_rects := list_visible_pane_rects surviving_pane_rects headers in
  MkFocusCandidates
    (fst <$> min_by (fun a b : PaneId * Rect =>
       compute_center_distance removed_pane_rect a.2
       <? compute_center_distance removed_pane_rect b.2) visible_pane_rects)
    (fst <$> foldl (absorb_pane removed_pane_rect) None visible_pane_rects)
    (fst <$> visible_pane_rects).

(** ** Lemmas *)

Lemma candidate_rank_lt_irrefl a : candidate_rank_lt a a = false.
Proof. unfold candidate_rank_lt. by rewrite !N.ltb_irrefl. Qed.

(** The components of the comparison, as one proposition. *)
Lemma candidate_rank_lt_iff a b :
  candidate_rank_lt a b = true <->
  edge_distance a < edge_distance b \/ (edge_distance a = edge_distance b /\
  (reverse_perpendicular_overlap b < reverse_perpendicular_overlap a
   \/ (reverse_perpendicular_overlap a = reverse_perpendicular_overlap b /\
  (perpendicular_origin a < perpendicular_origin b
   \/ (perpendicular_origin a = perpendicular_origin b /\
  (rank_row a < rank_row b \/ (rank_row a = rank_row b /\
  (rank_column a < rank_column b \/ (rank_column a = rank_column b /\
   rank_pane_id a < rank_pane_id b))))))))).
Proof.
  unfold candidate_rank_lt.
  repeat match goal with |- context [if ?x <? ?y then _ else _] =>
    let E := fresh in destruct (x <? y) eqn:E; bools end; rewrite ?N.ltb_lt;
    (split; [try done; lia|intros; first [lia|done]]).
Qed.

Lemma candidate_rank_lt_trans a b c :
  candidate_rank_lt a b = true -> candidate_rank_lt b c = true -> candidate_rank_lt a c = true.
Proof. rewrite !candidate_rank_lt_iff. lia. Qed.

(** A candidate qualifies: it shows, lies wholly beyond the source's edge in
    the direction, and shares a line of cells with the source across it. *)
Definition lies_beyond (source candidate : Rect) (d : Direction) : Prop :=
  match d with
  | Left => get_right_edge candidate <= column (origin source)
  | Right => get_right_edge source <= column (origin candidate)
  | Up => get_bottom_edge candidate <= row (origin source)
  | Down => get_bottom_edge source <= row (origin candidate)
  end.

Definition shares_line (source candidate : Rect) (d : Direction) : Prop :=
  match d with
  | Left | Right =>
      exists y, row (origin source) <= y < get_bottom_edge source
        /\ row (origin candidate) <= y < get_bottom_edge candidate
  | Up | Down =>
      exists x, column (origin source) <= x < get_right_edge source
        /\ column (origin candidate) <= x < get_right_edge candidate
  end.

Definition qualifies (source : Rect) (d : Direction) (candidate : PaneId * Rect) : Prop :=
  is_empty candidate.2 = false /\ lies_beyond source candidate.2 d
  /\ shares_line source candidate.2 d.

Lemma span_overlap_iff a la b lb :
  a + la <= U16_MAX -> b + lb <= U16_MAX ->
  compute_span_overlap a la b lb <> 0 <-> exists y, a <= y < a + la /\ b <= y < b + lb.
Proof.
  intros Ha Hb. unfold compute_span_overlap. unfold_int. split; [|intros (y & ? & ?); lia].
  intros H. exists (a `max` b). lia.
Qed.

Lemma facing_edge_distance_iff source candidate d :
  Rect_wf source -> Rect_wf candidate ->
  is_Some (compute_facing_edge_distance source candidate d) <-> lies_beyond source candidate d.
Proof.
  intros [Hs1 Hs2] [Hc1 Hc2]. unfold compute_facing_edge_distance, lies_beyond,
    compute_right_edge, compute_bottom_edge, u16_saturating_add.
  unfold get_right_edge, get_bottom_edge in *. rewrite !N.min_l by done.
  destruct d; case_match; bools; (split; [intros [? [=]]; done || lia|intros; done || (exfalso; lia) || eauto]).
Qed.

Lemma rank_candidate_Some source d candidate rank :
  rank_candidate source d candidate = Some rank -> rank_pane_id rank = candidate.1.
Proof.
  destruct candidate as [p r]. unfold rank_candidate. case_match; [done|].
  intros (e & _ & Hb)%bind_Some. case_match; simplify_eq/=. done.
Qed.

Lemma rank_candidate_iff source d candidate :
  Rect_wf source -> Rect_wf candidate.2 ->
  is_Some (rank_candidate source d candidate) <-> qualifies source d candidate.
Proof.
  intros Hs Hc. destruct candidate as [p r]. unfold rank_candidate, qualifies. simpl in *.
  destruct (is_empty r) eqn:E; [split; [by intros []|by intros [? _]]|].
  pose proof (facing_edge_distance_iff source r d Hs Hc) as Hedge.
  assert (compute_perpendicular_overlap source r d <> 0 <-> shares_line source r d) as Hover.
  { destruct Hs, Hc. unfold get_right_edge, get_bottom_edge in *.
    destruct d; simpl; unfold get_right_edge, get_bottom_edge; by apply span_overlap_iff. }
  rewrite <- Hedge, <- Hover.
  destruct (compute_facing_edge_distance source r d) as [e|]; simpl.
  - case_match; bools; split; [by intros []|by intros (_ & _ & ?)|intros _; by eauto|by eauto].
  - split; [by intros []|by intros (_ & [] & _)].
Qed.

(** ** Properties *)

(** The pane a move lands on qualifies (it shows, lies wholly beyond the
    source's edge in the direction, and shares a row or column with it), and
    no candidate has a smaller rank. There is no neighbor exactly when no
    candidate qualifies: the move never wraps around. *)
Theorem directional_neighbor_is_best source candidates d :
  Rect_wf source -> Forall (fun candidate => Rect_wf candidate.2) candidates ->
  match select_directional_neighbor source candidates d with
  | Some p => exists r rank, (p, r) ∈ candidates /\ qualifies source d (p, r)
      /\ rank_candidate source d (p, r) = Some rank
      /\ forall candidate rank', candidate ∈ candidates ->
           rank_candidate source d candidate = Some rank' ->
           candidate_rank_lt rank' rank = false
  | None => forall candidate, candidate ∈ candidates -> ~ qualifies source d candidate
  end.
Proof.
  intros Hs Hc. rewrite Forall_forall in Hc. unfold select_directional_neighbor.
  destruct (min_by _ _) as [rank|] eqn:E; simpl.
  - apply min_by_Some in E as [Hin Hmin];
      [|apply candidate_rank_lt_irrefl|apply candidate_rank_lt_trans].
    apply list_elem_of_omap in Hin as ([p r] & Hin & Hr).
    pose proof (rank_candidate_Some _ _ _ _ Hr) as Hp. simpl in Hp. rewrite Hp.
    exists r, rank. split_and!; [done| |done|].
    + apply rank_candidate_iff; [done|by apply Hc|by rewrite Hr].
    + intros candidate rank' Hin' Hr'. apply Hmin. apply list_elem_of_omap. eauto.
  - apply min_by_None in E. intros candidate Hin Hq.
    apply rank_candidate_iff in Hq as [rank Hr]; [|done|by apply Hc].
    assert (rank ∈ omap (rank_candidate source d) candidates) as Hin'
      by (apply list_elem_of_omap; eauto).
    rewrite E in Hin'. by apply not_elem_of_nil in Hin'.
Qed.

Definition example_source : Rect := MkRect (MkPoint 0 0) (MkSize 10 10).
Definition example_candidates : list (PaneId * Rect) :=
  [(1, MkRect (MkPoint 10 5) (MkSize 5 5)); (2, MkRect (MkPoint 10 0) (MkSize 5 5))].

Lemma directional_neighbor_is_best_witness :
  select_directional_neighbor example_source example_candidates Right = Some 2
  /\ exists r, (2, r) ∈ example_candidates /\ qualifies example_source Right (2, r).
Proof.
  split; [reflexivity|].
  destruct (directional_neighbor_is_best example_source example_candidates Right)
    as (r & rank & H1 & H2 & _).
  - vm_compute. split; discriminate.
  - repeat constructor; vm_compute; discriminate.
  - exists r. split; [exact H1|exact H2].
Defined.

(** What the loop for the largest absorbed area has after a prefix. *)
Definition absorbed_best (removed : Rect) (entries : list (PaneId * Rect))
    (best : option (PaneId * N)) : Prop :=
  match best with
  | Some (p, area) =>
      (exists r i, (p, r) ∈ entries /\ compute_intersection r removed = Some i
         /\ area = compute_cell_count (size i))
      /\ forall q r i, (q, r) ∈ entries -> compute_intersection r removed = Some i ->
           compute_cell_count (size i) <= area
  | None => forall q r, (q, r) ∈ entries -> compute_intersection r removed = None
  end.

Lemma absorb_loop_spec removed entries :
  absorbed_best removed entries (foldl (absorb_pane removed) None entries).
Proof.
  apply (foldl_prefix_inv (absorbed_best removed)).
  { intros q r Hq. by apply not_elem_of_nil in Hq. }
  intros pre [p r] post best _ Hbest. unfold absorb_pane. simpl.
  destruct (compute_intersection r removed) as [i|] eqn:E.
  - destruct best as [[q area]|]; simpl in Hbest.
    + destruct Hbest as [Hex Hmax].
      destruct (area <? compute_cell_count (size i)) eqn:Elt; bools; simpl.
      * split; [exists r, i; set_solver|]. intros q' r' i' Hin Hi'.
        apply elem_of_app in Hin as [Hin|Hin%list_elem_of_singleton]; [|by simplify_eq].
        specialize (Hmax _ _ _ Hin Hi'). lia.
      * split; [destruct Hex as (r' & i' & ? & ? & ?); exists r', i'; set_solver|].
        intros q' r' i' Hin Hi'.
        apply elem_of_app in Hin as [Hin|Hin%list_elem_of_singleton]; [by eapply Hmax|].
        by simplify_eq.
    + split; [exists r, i; set_solver|]. intros q' r' i' Hin Hi'.
      apply elem_of_app in Hin as [Hin|Hin%list_elem_of_singleton].
      * rewrite (Hbest _ _ Hin) in Hi'. done.
      * by simplify_eq.
  - destruct best as [[q area]|]; simpl in *.
    + destruct Hbest as [(r' & i' & ? & ? & ?) Hmax].
      split; [exists r', i'; set_solver|]. intros q' r'' i'' Hin Hi'.
      apply elem_of_app in Hin as [Hin|Hin%list_elem_of_singleton]; [by eapply Hmax|].
      by simplify_eq.
    + intros q' r' [Hin|Hin%list_elem_of_singleton]%elem_of_app; [by eapply Hbest|].
      by simplify_eq.
Qed.

(** After a pane is removed, the candidates are the panes that show
    content; the spatial neighbor is one of least center distance, the
    absorber one with the largest overlap with the removed rectangle; each is
    missing exactly when no pane shows, or none overlaps. *)
Theorem focus_candidates_rank removed survivors headers :
  let visible := list_visible_pane_rects survivors headers in
  let focus := compute_focus_candidates removed survivors headers in
  (forall p r, (p, r) ∈ visible <->
     (p, r) ∈ survivors /\ is_empty r = false /\ p ∉ (header_pane_id <$> headers))
  /\ layout_order_pane_ids focus = visible.*1
  /\ match spatial_neighbor_pane_id focus with
     | Some p => exists r, (p, r) ∈ visible /\ forall q r', (q, r') ∈ visible ->
         compute_center_distance removed r <= compute_center_distance removed r'
     | None => visible = []
     end
  /\ match absorbed_space_pane_id focus with
     | Some p => exists r i, (p, r) ∈ visible /\ compute_intersection r removed = Some i
         /\ forall q r' i', (q, r') ∈ visible -> compute_intersection r' removed = Some i' ->
              compute_cell_count (size i') <= compute_cell_count (size i)
     | None => forall q r', (q, r') ∈ visible -> compute_intersection r' removed = None
     end.
Proof.
  intros visible focus. split_and!.
  - intros p r. rewrite <- is_content_visible_iff. unfold visible, list_visible_pane_rects.
    rewrite !list_elem_of_In, filter_In. done.
  - done.
  - unfold focus. simpl. fold visible. destruct (min_by _ visible) as [[p r]|] eqn:E; simpl.
    + apply min_by_Some in E as [Hin Hmin]; simpl in *.
      * exists r. split; [done|]. intros q r' Hq. specialize (Hmin _ Hq). by bools.
      * intros a. apply N.ltb_irrefl.
      * intros a b c ?%N.ltb_lt ?%N.ltb_lt. apply N.ltb_lt. lia.
    + by apply min_by_None in E.
  - unfold focus. simpl. fold visible. pose proof (absorb_loop_spec removed visible) as H.
    destruct (foldl _ None visible) as [[p area]|]; simpl in *; [|done].
    destruct H as [(r & i & Hin & Hi & ->) Hmax]. eauto.
Qed.
