(* ===== verification/Regions.v ===== *)
(** * Ordered edge regions of a viewport ([crates/koshi-layout/src/regions.rs])

    Bars and docks anchored to the four edges are cut off the viewport one
    after the other; what is left is the pane rectangle. *)

From S2P Require Import Prelude Geometry Solver.
From stdpp Require Import options.

(** ** Definitions *)

Inductive Edge := Top | Bottom | LeftEdge | RightEdge.

Record RegionGeometry := MkRegionGeometry { edge : Edge; extent_cell_count : N }.

Record SolvedRegions := MkSolvedRegions { region_rects : list Rect; pane_rect : Rect }.

(** One region of the loop, on [(remaining_pane_rect, region_rects)]: the
    plain [+=] and [-=] of the source wrap at [u16]. *)
Definition take_region (st : Rect * list Rect) (region_geometry : RegionGeometry)
    : Rect * list Rect :=
  let '(remaining, rects) := st in
  let o := origin remaining in
  let s := size remaining in
  match edge region_geometry with
  | Top =>
      let rows := extent_cell_count region_geometry `min` row_count s in
      (MkRect (MkPoint (column o) (row o +16 rows))
              (MkSize (column_count s) (row_count s -16 rows)),
       rects ++ [from_origin_and_size o (MkSize (column_count s) rows)])
  | Bottom =>
      let rows := extent_cell_count region_geometry `min` row_count s in
      (MkRect o (MkSize (column_count s) (row_count s -16 rows)),
       rects ++ [from_origin_and_size
                   (MkPoint (column o) (row o +16 row_count s -16 rows))
                   (MkSize (column_count s) rows)])
  | LeftEdge =>
      let columns := extent_cell_count region_geometry `min` column_count s in
      (MkRect (MkPoint (column o +16 columns) (row o))
              (MkSize (column_count s -16 columns) (row_count s)),
       rects ++ [from_origin_and_size o (MkSize columns (row_count s))])
  | RightEdge =>
      let columns := extent_cell_count region_geometry `min` column_count s in
      (MkRect o (MkSize (column_count s -16 columns) (row_count s)),
       rects ++ [from_origin_and_size
                   (MkPoint (column o +16 column_count s -16 columns) (row o))
                   (MkSize columns (row_count s))])
  end.

Definition solve_region_rects (viewport_size : Size) (region_geometries : list RegionGeometry)
    : SolvedRegions :=
  let '(remaining, rects) :=
    foldl take_region (from_size_at_origin viewport_size, []) region_geometries in
  MkSolvedRegions rects remaining.

Example top_and_bottom_bars :
  solve_region_rects (MkSize 80 24) [MkRegionGeometry Top 1; MkRegionGeometry Bottom 1]
  = MkSolvedRegions
      [MkRect (MkPoint 0 0) (MkSize 80 1); MkRect (MkPoint 0 23) (MkSize 80 1)]
      (MkRect (MkPoint 0 1) (MkSize 80 22)).
Proof. reflexivity. Qed.

(** ** Lemmas *)

(** One cut splits the remaining rectangle in two. *)
Lemma take_region_spec r rects g r' rects' :
  Rect_wf r -> take_region (r, rects) g = (r', rects') ->
  exists region, rects' = rects ++ [region]
    /\ is_inside_rect r' r = true /\ is_inside_rect region r = true
    /\ (forall p, in_rect p r <-> in_rect p region \/ in_rect p r')
    /\ (forall p, ~ (in_rect p region /\ in_rect p r')).
Proof.
  intros Hwf. unfold take_region. destruct Hwf. unfold get_right_edge, get_bottom_edge in *.
  destruct g as [e x]. simpl.
  destruct e; intros [= <- <-]; eexists; (split; [done|]);
    rewrite ?u16_sub_exact, ?u16_add_exact, ?u16_sub_exact by (rewrite ?u16_add_exact; lia);
    rewrite !is_inside_rect_iff; setoid_rewrite in_rect_iff;
    unfold from_origin_and_size, get_right_edge, get_bottom_edge; simpl;
    (split_and!; [lia..|intros p; lia|intros p; lia]).
Qed.

(** ** Properties *)

(** The regions and the pane rectangle partition the viewport. There is
    one rectangle per region in input order, every cell of the viewport is in
    exactly one of them or in the pane rectangle, and no arithmetic wraps. *)
Theorem regions_partition_viewport viewport regions :
  Size_wf viewport ->
  let solved := solve_region_rects viewport regions in
  let view := from_size_at_origin viewport in
  length (region_rects solved) = length regions
  /\ Forall (fun r => is_inside_rect r view = true) (pane_rect solved :: region_rects solved)
  /\ pairwise_disjoint (pane_rect solved :: region_rects solved)
  /\ forall p, in_rect p view <->
       exists r, r ∈ pane_rect solved :: region_rects solved /\ in_rect p r.
Proof.
  intros Hwf. unfold solve_region_rects. simpl.
  set (view := from_size_at_origin viewport).
  destruct (foldl_prefix_inv (fun pre st =>
    Rect_wf st.1 /\ length st.2 = length pre
    /\ Forall (fun r => is_inside_rect r view = true) (st.1 :: st.2)
    /\ pairwise_disjoint (st.1 :: st.2)
    /\ forall p, in_rect p view <-> exists r, r ∈ st.1 :: st.2 /\ in_rect p r)
    take_region regions (view, [])) as (_ & H).
  - split; [by apply from_size_at_origin_wf|]. split_and!; [done| | |].
    + repeat constructor. apply is_inside_rect_refl.
    + intros [|i] [|j] r1 r2 p; simpl; done.
    + intros p. simpl. set_solver.
  - intros pre g post [r rects] _ (Hr & Hl & Hin & Hdis & Hcov). cbn [fst snd] in *.
    destruct (take_region (r, rects) g) as [r' rects'] eqn:E.
    destruct (take_region_spec r rects g r' rects' Hr E) as (region & -> & Hi1 & Hi2 & Hsplit & Hd).
    simpl. apply Forall_cons in Hin as [Hinr Hinrs].
    split; [by apply (Rect_wf_inside r' r)|]. split_and!.
    + rewrite !length_app. simpl. lia.
    + constructor; [by eapply is_inside_rect_trans|]. apply Forall_app. split; [done|].
      constructor; [by eapply is_inside_rect_trans|constructor].
    + assert (forall r0 p, r0 ∈ rects -> in_rect p r -> in_rect p r0 -> False) as Hold.
      { intros r0 p [j Hj]%list_elem_of_lookup Hp Hp0.
        by specialize (Hdis 0%nat (S j) r r0 p eq_refl Hj Hp Hp0). }
      apply pairwise_disjoint_cons.
      * apply pairwise_disjoint_app.
        -- intros i j r1 r2 p H1 H2 H3 H4. by specialize (Hdis (S i) (S j) r1 r2 p H1 H2 H3 H4) as [= ->].
        -- intros [|i] [|j] r1 r2 p; simpl; done.
        -- intros r1 r2 p Hr1 ->%list_elem_of_singleton Hp1 Hp2.
           eapply Hold; [done| |done]. by apply (inside_rect_point p region r).
      * intros r0 p [Hr0| ->%list_elem_of_singleton]%elem_of_app Hp Hp0; [|by eapply Hd].
        eapply Hold; [done| |done]. by apply (inside_rect_point p r' r).
    + intros p. rewrite Hcov. setoid_rewrite elem_of_cons. setoid_rewrite elem_of_app.
      setoid_rewrite list_elem_of_singleton. specialize (Hsplit p). split.
      * intros (r0 & [->|Hr0] & Hp); [|eauto]. apply Hsplit in Hp as [Hp|Hp]; eauto.
      * intros (r0 & [->|[Hr0| ->]] & Hp); [|eauto|]; exists r; (split; [by left|]); apply Hsplit; eauto.
  - by destruct (foldl _ _ _).
Qed.

Lemma regions_partition_viewport_witness :
  length (region_rects (solve_region_rects (MkSize 80 24)
    [MkRegionGeometry Top 1; MkRegionGeometry LeftEdge 100])) = 2%nat.
Proof.
  apply (regions_partition_viewport (MkSize 80 24)
    [MkRegionGeometry Top 1; MkRegionGeometry LeftEdge 100]).
  vm_compute. split; discriminate.
Defined.
