(* ===== verification/Normalize.v ===== *)
(** * Layout normalization ([crates/koshi-layout/src/normalize.rs])

    One pass drops dead panes and empty splits, collapses splits with one
    child, merges same-direction splits whose weights are all plain flex
    shares, and clamps weights. The rescaling of a merge runs in [u128] with
    checked products; a share past [u32] keeps the split nested. *)

From S2P Require Import Prelude Geometry Size Tree.
From stdpp Require Import options.

(** ** Weights *)

Definition clamp_percent (p : N) : N := if p <? 1 then 1 else if 100 <? p then 100 else p.

Definition canonicalize_size_weight (w : SizeWeight) : SizeWeight :=
  let canonical_primary_constraint :=
    match primary_constraint w with
    | Flex 0 => Flex 1
    | Percent percent_value => Percent (clamp_percent percent_value)
    | Fixed 0 => Fixed 1
    | Minimum 0 => Minimum 1
    | Preferred 0 => Preferred 1
    | unchanged_constraint => unchanged_constraint
    end in
  let positive (o : option N) := c ← o; if 0 <? c then Some c else None in
  MkSizeWeight canonical_primary_constraint (positive (minimum_cell_count w))
    (positive (preferred_cell_count w)) (resize_delta w).

Definition get_plain_flex_weight (w : SizeWeight) : option FlexWeight :=
  match primary_constraint w with
  | Flex flex_weight_share =>
      if bool_decide (minimum_cell_count w = None)
         && bool_decide (preferred_cell_count w = None)
         && (resize_delta w =? 0)%Z
      then Some flex_weight_share else None
  | _ => None
  end.

Definition compute_scaled_flex (w : SizeWeight) (merge_scale : N) : option SizeWeight :=
  flex_weight_share ← get_plain_flex_weight w;
  product ← u128_checked_mul flex_weight_share merge_scale;
  rescaled_flex_weight ← u32_try_from product;
  Some (from_primary_constraint (Flex rescaled_flex_weight)).

(** ** Merging *)

Record NormalizedChild := MkNormalizedChild
  { layout_node : LayoutNode;
    size_weight : SizeWeight;
    original_child_index : nat }.

(** [try_fold] over the inner weights, from 0. *)
Fixpoint sum_plain_flex_weights (total : N) (ws : list SizeWeight) : option N :=
  match ws with
  | [] => Some total
  | w :: ws' =>
      share ← get_plain_flex_weight w;
      total' ← u32_checked_add total share;
      sum_plain_flex_weights total' ws'
  end.

Definition compute_mergeable_weight_sum (d : SplitDirection) (c : NormalizedChild) : option N :=
  match layout_node c with
  | Pane _ => None
  | Split inner_split =>
      if negb (bool_decide (direction inner_split = d)) || bool_decide (children inner_split = [])
      then None
      else
        _ ← get_plain_flex_weight (size_weight c);
        total_inner_flex_weight ← sum_plain_flex_weights 0 (weights inner_split);
        if 0 <? total_inner_flex_weight then Some total_inner_flex_weight else None
  end.

Definition merge_factor (d : SplitDirection) (c : NormalizedChild) : N :=
  default 1 (compute_mergeable_weight_sum d c).

(** The product of the factors, [None] past [u128::MAX]. *)
Fixpoint checked_product (accumulated_product : N) (factors : list N) : option N :=
  match factors with
  | [] => Some accumulated_product
  | f :: factors' =>
      p ← u128_checked_mul accumulated_product f;
      checked_product p factors'
  end.

(** The rescaled share of one inner child. *)
Definition rescale_inner_weight (slot_flex_weight_share merge_scale : N) (w : SizeWeight)
    : option SizeWeight :=
  inner_flex_weight_share ← get_plain_flex_weight w;
  p1 ← u128_checked_mul inner_flex_weight_share slot_flex_weight_share;
  rescaled_flex_weight ← u128_checked_mul p1 merge_scale;
  share ← u32_try_from rescaled_flex_weight;
  Some (from_primary_constraint (Flex share)).

(** A factor other than 1 comes from a split with plain weights in a plain
    slot ([merge_factor_split] below), so the [unreachable!] and [expect]
    branches of the source, [None] here, are never taken. *)
Definition compute_merged_size_weights (c : NormalizedChild) (factor merge_scale : N)
    : option (list SizeWeight) :=
  if factor =? 1 then w ← compute_scaled_flex (size_weight c) merge_scale; Some [w]
  else
    match layout_node c with
    | Pane _ => None
    | Split inner_split =>
        slot_flex_weight_share ← get_plain_flex_weight (size_weight c);
        mapM (rescale_inner_weight slot_flex_weight_share merge_scale) (weights inner_split)
    end.

(** The children one normalized child contributes to the merged list. *)
Definition inline_child (c : NormalizedChild) (factor : N) (size_weights : list SizeWeight)
    : list NormalizedChild :=
  if factor =? 1 then
    [MkNormalizedChild (layout_node c) (default default_size_weight (size_weights !! 0%nat))
       (original_child_index c)]
  else
    match layout_node c with
    | Pane _ => []
    | Split inner_split =>
        zip_with (fun child_node w => MkNormalizedChild child_node w (original_child_index c))
          (children inner_split) size_weights
    end.

Definition plan_size_weights (merge_weight_product : N) (d : SplitDirection)
    (normalized_children : list NormalizedChild) : option (list (list SizeWeight)) :=
  mapM (fun c =>
    let factor := merge_factor d c in
    compute_merged_size_weights c factor (merge_weight_product `div` factor))
    normalized_children.

Definition merge_same_direction (d : SplitDirection)
    (normalized_children : list NormalizedChild) : list NormalizedChild :=
  let merge_factors := merge_factor d <$> normalized_children in
  if forallb (fun factor => factor =? 1) merge_factors then normalized_children
  else
    match checked_product 1 merge_factors with
    | None => normalized_children
    | Some merge_weight_product =>
        match plan_size_weights merge_weight_product d normalized_children with
        | None => normalized_children
        | Some planned_size_weights =>
            concat (zip_with (fun c ws => inline_child c (merge_factor d c) ws)
                      normalized_children planned_size_weights)
        end
    end.

(** ** The pass *)

(** The children kept of a split, from the normalized subtrees in child
    order. *)
Definition pair_normalized_children (s : SplitNode)
    (normalized_subtrees : list (option LayoutNode)) : list NormalizedChild :=
  omap (fun ic : nat * option LayoutNode =>
    node ← ic.2;
    Some (MkNormalizedChild node
      (canonicalize_size_weight (default default_size_weight (weights s !! ic.1))) ic.1))
    (enumerate normalized_subtrees).

(** The rest of the pass at one split. *)
Definition finish_split (s : SplitNode) (normalized_children : list NormalizedChild)
    : option LayoutNode :=
  if bool_decide (length normalized_children = 0%nat) then None
  else
    let is_stacked := bool_decide (direction s = Stacked) in
    let active :=
      if is_stacked then
        default (length normalized_children - 1)%nat
          (position (fun c => active_child_index s <=? original_child_index c)%nat
             normalized_children)
      else 0%nat in
    let merged :=
      if is_stacked then normalized_children
      else merge_same_direction (direction s) normalized_children in
    match merged with
    | [c] => Some (layout_node c)
    | _ => Some (Split (MkSplitNode (direction s) (layout_node <$> merged)
                          (size_weight <$> merged) active))
    end.

Fixpoint normalize_layout_tree (n : LayoutNode) (live_pane_ids : gset PaneId)
    : option LayoutNode :=
  match n with
  | Pane pane_id => if bool_decide (pane_id ∈ live_pane_ids) then Some n else None
  | Split s =>
      finish_split s (pair_normalized_children s
        (map (fun c => normalize_layout_tree c live_pane_ids) (children s)))
  end.

Example nested_same_direction_merges :
  normalize_layout_tree
    (Split (with_equal_weights Horizontal
       [Pane 1; Split (with_equal_weights Horizontal [Pane 2; Pane 3])])) {[1; 2; 3]}
  = Some (Split (MkSplitNode Horizontal [Pane 1; Pane 2; Pane 3]
      [from_primary_constraint (Flex 2); default_size_weight; default_size_weight] 0)).
Proof. vm_compute. reflexivity. Qed.

(** ** Weights: what the arithmetic of a merge computes *)

Definition canonical_weight (w : SizeWeight) : Prop := canonicalize_size_weight w = w.

Lemma canonicalize_size_weight_idemp w : canonical_weight (canonicalize_size_weight w).
Proof.
  unfold canonical_weight, canonicalize_size_weight. destruct w as [p m f d]. simpl.
  f_equal.
  - destruct p as [n|n|n|n|n]; try (by destruct n).
    unfold clamp_percent. f_equal. repeat case_match; bools; lia.
  - destruct m as [n|]; simpl; [|done]. destruct (0 <? n) eqn:E; simpl; [|done]. by rewrite E.
  - destruct f as [n|]; simpl; [|done]. destruct (0 <? n) eqn:E; simpl; [|done]. by rewrite E.
Qed.

Lemma default_weight_canonical : canonical_weight default_size_weight.
Proof. done. Qed.

Lemma get_plain_flex_weight_flex x : get_plain_flex_weight (from_primary_constraint (Flex x)) = Some x.
Proof. done. Qed.

Lemma get_plain_flex_weight_Some w x :
  get_plain_flex_weight w = Some x -> w = from_primary_constraint (Flex x).
Proof.
  unfold get_plain_flex_weight. destruct w as [[] m f d]; simpl; try done.
  case_match eqn:E; [|done]. intros [= ->]. bools. by subst.
Qed.

Lemma flex_canonical x : 0 < x -> canonical_weight (from_primary_constraint (Flex x)).
Proof. unfold canonical_weight, canonicalize_size_weight. simpl. by destruct x. Qed.

Lemma canonical_plain_positive w x :
  canonical_weight w -> get_plain_flex_weight w = Some x -> 0 < x.
Proof.
  intros Hc Hp. apply get_plain_flex_weight_Some in Hp as ->.
  destruct x; [|lia]. discriminate Hc.
Qed.

(** Scaling a plain share fails exactly past [u32]. *)
Definition scaled_flex (w : SizeWeight) (k : N) : option SizeWeight :=
  u ← get_plain_flex_weight w;
  if u * k <=? U32_MAX then Some (from_primary_constraint (Flex (u * k))) else None.

Lemma compute_scaled_flex_eq w k : compute_scaled_flex w k = scaled_flex w k.
Proof.
  unfold compute_scaled_flex, scaled_flex. destruct (get_plain_flex_weight w) as [u|]; [|done].
  simpl. unfold u128_checked_mul, u32_try_from.
  destruct (u * k <=? U128_MAX) eqn:E1; simpl; destruct (u * k <=? U32_MAX) eqn:E2; bools; done || lia.
Qed.

Lemma rescale_inner_weight_eq slot k w :
  0 < k -> rescale_inner_weight slot k w = scaled_flex w (slot * k).
Proof.
  intros Hk. unfold rescale_inner_weight, scaled_flex.
  destruct (get_plain_flex_weight w) as [u|]; [|done].
  simpl. unfold u128_checked_mul, u32_try_from. rewrite N.mul_assoc.
  destruct (u * slot <=? U128_MAX) eqn:E0; simpl.
  - destruct (u * slot * k <=? U128_MAX) eqn:E1; simpl;
      destruct (u * slot * k <=? U32_MAX) eqn:E2; bools; done || lia.
  - destruct (u * slot * k <=? U32_MAX) eqn:E2; [|done]. bools. nia.
Qed.

Lemma scaled_flex_None w k :
  scaled_flex w k = None <->
  forall u, get_plain_flex_weight w = Some u -> U32_MAX < u * k.
Proof.
  unfold scaled_flex. destruct (get_plain_flex_weight w) as [u|]; simpl; [|done].
  destruct (u * k <=? U32_MAX) eqn:E; bools; split; [done|intros H; specialize (H u eq_refl); lia| |done].
  by intros _ u' [= <-].
Qed.

Lemma scaled_flex_Some w k w' :
  scaled_flex w k = Some w' <->
  exists u, get_plain_flex_weight w = Some u /\ u * k <= U32_MAX
    /\ w' = from_primary_constraint (Flex (u * k)).
Proof.
  unfold scaled_flex. destruct (get_plain_flex_weight w) as [u|]; simpl; [|naive_solver].
  destruct (u * k <=? U32_MAX) eqn:E; bools; [naive_solver|].
  split; [done|]. intros (u' & [= <-] & ? & _). lia.
Qed.

(** Products of merge factors. *)
Definition product (factors : list N) : N := foldr N.mul 1 factors.

Lemma product_app l k : product (l ++ k) = product l * product k.
Proof. unfold product. induction l as [|x l IH]; simpl; [lia|]. rewrite IH. lia. Qed.

Lemma product_concat ls : product (concat ls) = product (product <$> ls).
Proof. induction ls as [|l ls IH]; csimpl; [done|]. rewrite product_app, IH. done. Qed.

Lemma product_positive l : Forall (fun f => 1 <= f) l -> 1 <= product l.
Proof. induction 1; simpl; [lia|]. nia. Qed.

Lemma product_ge l f : Forall (fun f => 1 <= f) l -> f ∈ l -> f <= product l.
Proof.
  induction 1 as [|x l Hx Hl IH]; [by intros ?%not_elem_of_nil|].
  pose proof (product_positive l Hl). intros [->|Hf]%elem_of_cons; simpl; [nia|].
  specialize (IH Hf). nia.
Qed.

Lemma product_ones l : Forall (fun f => f = 1) l -> product l = 1.
Proof. induction 1 as [|x l Hx Hl IH]; simpl; [done|]. rewrite Hx, IH. done. Qed.

Lemma checked_product_eq acc fs :
  Forall (fun f => 1 <= f) fs -> acc <= U128_MAX -> 1 <= acc ->
  checked_product acc fs = if acc * product fs <=? U128_MAX then Some (acc * product fs) else None.
Proof.
  intros Hfs. revert acc. induction Hfs as [|f fs Hf Hfs IH]; intros acc Hacc Hpos; simpl.
  { rewrite N.mul_1_r, (proj2 (N.leb_le _ _)) by done. done. }
  pose proof (product_positive fs Hfs). unfold u128_checked_mul.
  destruct (acc * f <=? U128_MAX) eqn:E; bools; simpl.
  - rewrite IH by nia. by rewrite N.mul_assoc.
  - rewrite (proj2 (N.leb_gt _ _)) by nia. done.
Qed.

(** ** Merge factors *)

Definition shares (ws : list SizeWeight) : list N :=
  default 0 ∘ get_plain_flex_weight <$> ws.

Lemma sum_plain_flex_weights_Some total ws t :
  sum_plain_flex_weights total ws = Some t ->
  Forall (fun w => is_Some (get_plain_flex_weight w)) ws /\ t = total + sum_cells (shares ws).
Proof.
  revert total. induction ws as [|w ws IH]; intros total; csimpl.
  { intros [= ->]. split; [constructor|lia]. }
  intros (u & Hu & (t' & Ht' & H)%bind_Some)%bind_Some. apply IH in H as [H ->].
  unfold u32_checked_add in Ht'. case_match; simplify_eq/=. rewrite Hu. simpl.
  split; [constructor; [by rewrite Hu|done]|lia].
Qed.

Lemma merge_factor_positive d c : 1 <= merge_factor d c.
Proof.
  unfold merge_factor, compute_mergeable_weight_sum.
  destruct (layout_node c); simpl; [done|]. case_match; simpl; [done|].
  destruct (get_plain_flex_weight _); simpl; [|done].
  destruct (sum_plain_flex_weights _ _) as [t|]; simpl; [|done]. case_match; bools; simpl; lia.
Qed.

(** A factor other than 1 comes from a split of the same direction with plain
    weights in a plain slot. *)
Lemma merge_factor_split d c :
  merge_factor d c <> 1 ->
  exists inner slot, layout_node c = Split inner /\ direction inner = d
    /\ get_plain_flex_weight (size_weight c) = Some slot
    /\ Forall (fun w => is_Some (get_plain_flex_weight w)) (weights inner)
    /\ merge_factor d c = sum_cells (shares (weights inner)).
Proof.
  unfold merge_factor, compute_mergeable_weight_sum.
  destruct (layout_node c) as [p|inner]; simpl; [done|].
  destruct (negb _ || _) eqn:E; simpl; [done|]. apply orb_false_iff in E as [E1 E2]. bools.
  destruct (get_plain_flex_weight (size_weight c)) as [slot|] eqn:Es; simpl; [|done].
  destruct (sum_plain_flex_weights 0 (weights inner)) as [t|] eqn:Et; simpl; [|done].
  apply sum_plain_flex_weights_Some in Et as [Hp ->]. case_match; simpl; [|done].
  intros _. exists inner, slot. split_and!; done.
Qed.

(** Between plain slots, the factor depends on the node alone. *)
Lemma merge_factor_node d c c' :
  layout_node c = layout_node c' -> is_Some (get_plain_flex_weight (size_weight c)) ->
  is_Some (get_plain_flex_weight (size_weight c')) -> merge_factor d c = merge_factor d c'.
Proof.
  intros Hn [u Hu] [u' Hu']. unfold merge_factor, compute_mergeable_weight_sum.
  by rewrite Hn, Hu, Hu'.
Qed.

(** ** When a merge runs *)

Definition factors (d : SplitDirection) (l : list NormalizedChild) : list N := merge_factor d <$> l.

Lemma factors_positive d l : Forall (fun f => 1 <= f) (factors d l).
Proof. apply Forall_fmap, Forall_true. intros. apply merge_factor_positive. Qed.

(** Nothing merges, or the product of the factors passes [u128], or a
    rescaled share passes [u32] or belongs to a weight that is not plain. *)
Definition blocked (d : SplitDirection) (l : list NormalizedChild) : Prop :=
  Forall (fun c => merge_factor d c = 1) l
  \/ U128_MAX < product (factors d l)
  \/ Exists (fun c => compute_merged_size_weights c (merge_factor d c)
                        (product (factors d l) `div` merge_factor d c) = None) l.

Lemma merge_cases d l :
  (blocked d l /\ merge_same_direction d l = l)
  \/ (Exists (fun c => merge_factor d c <> 1) l /\ product (factors d l) <= U128_MAX
      /\ exists planned,
           Forall2 (fun c ws => compute_merged_size_weights c (merge_factor d c)
                      (product (factors d l) `div` merge_factor d c) = Some ws) l planned
           /\ merge_same_direction d l
              = concat (zip_with (fun c ws => inline_child c (merge_factor d c) ws) l planned)).
Proof.
  unfold merge_same_direction. fold (factors d l).
  destruct (forallb _ (factors d l)) eqn:Eall.
  { left. split; [|done]. left. rewrite forallb_forall in Eall. apply Forall_forall. intros c Hc.
    apply N.eqb_eq, Eall, list_elem_of_In, list_elem_of_fmap. eauto. }
  assert (Exists (fun c => merge_factor d c <> 1) l) as Hex.
  { destruct (decide (Forall (fun c => merge_factor d c = 1) l)) as [Hf|Hf];
      [|by apply not_Forall_Exists in Hf; [|intros ?; apply _]].
    exfalso. apply not_true_iff_false in Eall. apply Eall, forallb_forall. intros f Hin.
    apply list_elem_of_In, list_elem_of_fmap in Hin as (c & -> & Hc).
    rewrite Forall_forall in Hf. apply N.eqb_eq. by apply Hf. }
  rewrite checked_product_eq by (apply factors_positive || lia). rewrite N.mul_1_l.
  destruct (product (factors d l) <=? U128_MAX) eqn:EP; bools;
    [|left; split; [by right; left|done]].
  unfold plan_size_weights. destruct (mapM _ l) as [planned|] eqn:Eplan.
  - right. split_and!; [done|done|]. exists planned. split; [by apply mapM_Some in Eplan|done].
  - left. split; [|done]. right; right. apply mapM_None in Eplan. done.
Qed.

(** ** Canonical trees *)

Definition node_children (s : SplitNode) : list NormalizedChild :=
  zip_with (fun c w => MkNormalizedChild c w 0) (children s) (weights s).

Definition canonical_split (s : SplitNode) : Prop :=
  (2 <= length (children s))%nat /\ length (weights s) = length (children s)
  /\ Forall canonical_weight (weights s)
  /\ (if bool_decide (direction s = Stacked) then (active_child_index s < length (children s))%nat
      else active_child_index s = 0%nat)
  /\ (direction s <> Stacked -> blocked (direction s) (node_children s)).

Abbreviation canonical := (every_split canonical_split).

(** A child as the pass leaves it. *)
Definition canonical_child (c : NormalizedChild) : Prop :=
  canonical (layout_node c) /\ canonical_weight (size_weight c).

Definition child_leaves (c : NormalizedChild) : list PaneId := list_leaf_pane_ids (layout_node c).

Lemma canonical_Split_inv s : canonical (Split s) -> canonical_split s /\ Forall canonical (children s).
Proof. by inversion 1. Qed.

Lemma elem_of_node_children s c :
  c ∈ node_children s -> layout_node c ∈ children s /\ size_weight c ∈ weights s.
Proof.
  unfold node_children. intros (i & x & y & -> & Hx & Hy)%elem_of_lookup_zip_with. simpl.
  split; by eapply list_elem_of_lookup_2.
Qed.

(** ** One contribution to a merge *)

Section contribution.
Context (d : SplitDirection) (P : N).
Context (c : NormalizedChild) (ws : list SizeWeight).
Context (Hcanonical : canonical_child c) (HP : 1 <= P) (Hfactor : merge_factor d c <= P).
Context (Hplan : compute_merged_size_weights c (merge_factor d c) (P `div` merge_factor d c)
  = Some ws).

Lemma merge_scale_positive : 1 <= P `div` merge_factor d c.
Proof using All.
  pose proof (merge_factor_positive d c). apply N.div_le_lower_bound; lia.
Qed.

(** A kept sibling: the same node in a larger plain slot. *)
Lemma kept_contribution :
  merge_factor d c = 1 ->
  exists u, get_plain_flex_weight (size_weight c) = Some u /\ u * P <= U32_MAX
    /\ inline_child c (merge_factor d c) ws
       = [MkNormalizedChild (layout_node c) (from_primary_constraint (Flex (u * P)))
            (original_child_index c)].
Proof using All.
  intros Hf. rewrite Hf in *. unfold compute_merged_size_weights in Hplan. simpl in Hplan.
  rewrite N.div_1_r in Hplan. apply bind_Some in Hplan as (w & Hw & [= <-]).
  rewrite compute_scaled_flex_eq in Hw. apply scaled_flex_Some in Hw as (u & Hu & Hle & ->).
  exists u. split_and!; done.
Qed.

(** An inlined split: its children, each in a plain slot at least as large. *)
Lemma inlined_contribution :
  merge_factor d c <> 1 ->
  exists inner slot, layout_node c = Split inner /\ direction inner = d
    /\ get_plain_flex_weight (size_weight c) = Some slot /\ 0 < slot
    /\ Forall2 (fun w w' => exists u, get_plain_flex_weight w = Some u
         /\ u * (slot * (P `div` merge_factor d c)) <= U32_MAX
         /\ w' = from_primary_constraint (Flex (u * (slot * (P `div` merge_factor d c)))))
         (weights inner) ws
    /\ inline_child c (merge_factor d c) ws
       = zip_with (fun n w => MkNormalizedChild n w (original_child_index c)) (children inner) ws.
Proof using All.
  pose proof merge_scale_positive as Hscale. intros Hf.
  destruct (merge_factor_split d c Hf) as (inner & slot & Hn & Hd & Hs & _ & _).
  exists inner, slot. unfold compute_merged_size_weights, inline_child in *.
  rewrite (proj2 (N.eqb_neq _ _) Hf) in *. rewrite Hn, Hs in *. simpl in Hplan.
  split_and!; [done..| | |done].
  - destruct Hcanonical as [_ Hw]. by eapply canonical_plain_positive.
  - apply mapM_Some in Hplan. eapply Forall2_impl; [exact Hplan|]. intros w w' Hw. simpl in Hw.
    rewrite rescale_inner_weight_eq in Hw by lia.
    apply scaled_flex_Some in Hw. done.
Qed.

(** Both, for the children of the merged list: canonical nodes in plain slots,
    with the leaves of [c]. *)
Lemma contribution_canonical :
  let k := inline_child c (merge_factor d c) ws in
  Forall canonical_child k /\ (k ≫= child_leaves) = child_leaves c
  /\ (1 <= length k)%nat /\ (merge_factor d c <> 1 -> (2 <= length k)%nat).
Proof using All.
  pose proof merge_scale_positive as Hscale. destruct Hcanonical as [Hnode Hweight].
  destruct (decide (merge_factor d c = 1)) as [Hf|Hf]; simpl.
  - destruct (kept_contribution Hf) as (u & Hu & _ & ->). simpl. rewrite app_nil_r.
    pose proof (canonical_plain_positive _ _ Hweight Hu). split_and!; [|done|lia|done].
    constructor; [|constructor]. split; [done|apply flex_canonical; simpl; nia].
  - destruct (inlined_contribution Hf) as (inner & slot & Hn & Hd & Hs & Hpos & Hws & ->).
    rewrite Hn in Hnode. apply canonical_Split_inv in Hnode as [(H2 & Hlen & Hcw & _) Hchildren].
    pose proof (Forall2_length _ _ _ Hws) as Hlw.
    split_and!.
    + apply Forall_forall. intros x (i & n & w & -> & Hi & Hw)%elem_of_lookup_zip_with.
      rewrite Forall_lookup in Hchildren. rewrite Forall_lookup in Hcw. split; [by eapply Hchildren|]. simpl.
      destruct (Forall2_lookup_r _ _ _ _ _ Hws Hw) as (w0 & Hw0 & u & Hu & _ & ->).
      pose proof (canonical_plain_positive _ _ (Hcw _ _ Hw0) Hu). apply flex_canonical. nia.
    + unfold child_leaves. rewrite Hn, list_leaf_pane_ids_Split.
      assert (length (children inner) = length ws) as Hl by congruence. clear -Hl.
      revert ws Hl. induction (children inner) as [|n ns IH]; intros [|w ws'] Hl; simplify_eq/=; [done|].
      by rewrite IH.
    + rewrite length_zip_with. lia.
    + intros _. rewrite length_zip_with. lia.
Qed.

Lemma kept_factor : merge_factor d c = 1 -> factors d (inline_child c (merge_factor d c) ws) = [1].
Proof using All.
  intros Hf. destruct (kept_contribution Hf) as (u & Hu & _ & ->). unfold factors. csimpl.
  f_equal. rewrite <- Hf. apply merge_factor_node; [done|by eexists|by exists u].
Qed.

(** An inlined child keeps its node, and its slot does not shrink. *)
Lemma inlined_member inner :
  merge_factor d c <> 1 -> layout_node c = Split inner ->
  factors d (inline_child c (merge_factor d c) ws) = factors d (node_children inner)
  /\ forall x, x ∈ node_children inner -> exists x' u u',
       x' ∈ inline_child c (merge_factor d c) ws /\ layout_node x' = layout_node x
       /\ get_plain_flex_weight (size_weight x) = Some u
       /\ get_plain_flex_weight (size_weight x') = Some u' /\ u <= u'.
Proof using All.
  pose proof merge_scale_positive as Hscale. destruct Hcanonical as [Hnode Hweight].
  intros Hf Hn'. destruct (inlined_contribution Hf) as (inner' & slot & Hn & Hd & Hs & Hpos & Hws & ->).
  rewrite Hn in Hn'. injection Hn' as ->.
  rewrite Hn in Hnode. apply canonical_Split_inv in Hnode as [(H2 & Hlen & Hcw & _) Hchildren].
  pose proof (Forall2_length _ _ _ Hws) as Hlw. split.
  - unfold factors, node_children. apply list_eq. intros i.
    rewrite !list_lookup_fmap, !lookup_zip_with.
    destruct (children inner !! i) as [n|] eqn:Ei; simpl; [|done].
    destruct (weights inner !! i) as [w|] eqn:Ew; simpl.
    + destruct (Forall2_lookup_l _ _ _ _ _ Hws Ew) as (w' & Hw' & u & Hu & _ & ->).
      rewrite Hw'. simpl. f_equal. apply merge_factor_node; [done|by eexists|by exists u].
    + apply lookup_ge_None_1 in Ew. by rewrite (lookup_ge_None_2 ws i) by lia.
  - unfold node_children. intros x (i & n & w & -> & Hi & Hw)%elem_of_lookup_zip_with.
    destruct (Forall2_lookup_l _ _ _ _ _ Hws Hw) as (w' & Hw' & u & Hu & _ & ->).
    set (u' := u * (slot * (P `div` merge_factor d c))) in *.
    exists (MkNormalizedChild n (from_primary_constraint (Flex u')) (original_child_index c)), u, u'.
    split_and!; [|done|done|done|].
    2: { unfold u'. clear -Hscale Hpos. generalize dependent (P `div` merge_factor d c).
         intros q Hq. assert (1 <= slot * q) by nia. nia. }
    apply elem_of_lookup_zip_with. eauto 10.
Qed.
End contribution.

(** ** The merged list *)

Lemma merged_size_weights_mono c c' u u' factor scale scale' :
  layout_node c' = layout_node c ->
  get_plain_flex_weight (size_weight c) = Some u ->
  get_plain_flex_weight (size_weight c') = Some u' -> u <= u' ->
  1 <= scale -> scale <= scale' ->
  compute_merged_size_weights c factor scale = None ->
  compute_merged_size_weights c' factor scale' = None.
Proof.
  intros Hn Hu Hu' Hle Hpos Hscale. unfold compute_merged_size_weights.
  destruct (factor =? 1).
  - rewrite !compute_scaled_flex_eq, !bind_None. intros [Hs|(? & _ & [=])]. left.
    rewrite scaled_flex_None in Hs |- *. intros v Hv. specialize (Hs u Hu).
    rewrite Hu' in Hv. injection Hv as <-.
    eapply N.lt_le_trans; [exact Hs|]. by apply N.mul_le_mono.
  - rewrite Hn, Hu, Hu'. destruct (layout_node c) as [|inner]; [done|]. simpl.
    rewrite !mapM_None, !Exists_exists. intros (w & Hin & Hw). exists w. split; [done|].
    rewrite rescale_inner_weight_eq in Hw |- * by lia.
    rewrite scaled_flex_None in Hw |- *. intros v Hv. specialize (Hw v Hv).
    eapply N.lt_le_trans; [exact Hw|]. by apply N.mul_le_mono_l, N.mul_le_mono.
Qed.

(** Of a canonical split's children, a block that blocks the inner merge blocks
    every merge that has them among its children in larger slots. *)
Lemma inner_block_blocks d inner l' :
  blocked d (node_children inner) ->
  ~ Forall (fun c => merge_factor d c = 1) (node_children inner) ->
  product (factors d (node_children inner)) <= product (factors d l') ->
  (forall x, x ∈ node_children inner -> exists x' u u',
     x' ∈ l' /\ layout_node x' = layout_node x
     /\ get_plain_flex_weight (size_weight x) = Some u
     /\ get_plain_flex_weight (size_weight x') = Some u' /\ u <= u') ->
  blocked d l'.
Proof.
  intros [Hones|[Hprod|Hex]] Hnot Hle Hmem; [done|right; left; lia|].
  right; right. apply Exists_exists in Hex as (x & Hx & Hnone).
  destruct (Hmem x Hx) as (x' & u & u' & Hx' & Hn & Hu & Hu' & Huu).
  apply Exists_exists. exists x'. split; [done|].
  rewrite (merge_factor_node d x' x) by (done || (rewrite ?Hu, ?Hu'; done)).
  pose proof (merge_factor_positive d x) as Hf.
  assert (merge_factor d x <= product (factors d (node_children inner))) as Hfp.
  { apply product_ge; [apply factors_positive|]. apply list_elem_of_fmap. eauto. }
  eapply merged_size_weights_mono; [done..| | |exact Hnone].
  - apply N.div_le_lower_bound; lia.
  - by apply N.Div0.div_le_mono.
Qed.

(** Leaves and number of the merged children. *)
Lemma merge_facts d P l planned :
  1 <= P -> Forall canonical_child l -> (forall c, c ∈ l -> merge_factor d c <= P) ->
  Forall2 (fun c ws => compute_merged_size_weights c (merge_factor d c)
    (P `div` merge_factor d c) = Some ws) l planned ->
  let merged := concat (zip_with (fun c ws => inline_child c (merge_factor d c) ws) l planned) in
  (merged ≫= child_leaves) = (l ≫= child_leaves) /\ (length l <= length merged)%nat
  /\ (Exists (fun c => merge_factor d c <> 1) l -> (2 <= length merged)%nat).
Proof.
  intros HP Hl Hfp Hplan. induction Hplan as [|c ws cs pl Hm Hpl IH]; simpl.
  { split_and!; [done|lia|by inversion 1]. }
  apply Forall_cons in Hl as [Hc Hcs].
  destruct (contribution_canonical d P c ws Hc HP (Hfp c ltac:(left)) Hm) as (_ & E & H1 & H2).
  destruct (IH Hcs) as (IH0 & IH1 & IH2); [intros c' Hc'; apply Hfp; by right|].
  rewrite bind_app, length_app, E. split_and!; [by f_equal|lia|].
  intros [Hf|Hf]%Exists_cons; [specialize (H2 Hf); lia|specialize (IH2 Hf); lia].
Qed.

Section merged.
Context (d : SplitDirection) (Hd : d <> Stacked).
Context (l : list NormalizedChild) (Hl : Forall canonical_child l).
Context (planned : list (list SizeWeight)).
Context (Hplan : Forall2 (fun c ws => compute_merged_size_weights c (merge_factor d c)
  (product (factors d l) `div` merge_factor d c) = Some ws) l planned).

Definition contributions : list (list NormalizedChild) :=
  zip_with (fun c ws => inline_child c (merge_factor d c) ws) l planned.

Lemma product_factors_positive : 1 <= product (factors d l).
Proof using. apply product_positive, factors_positive. Qed.

Lemma factor_le_product c : c ∈ l -> merge_factor d c <= product (factors d l).
Proof using.
  intros Hc. apply product_ge; [apply factors_positive|]. apply list_elem_of_fmap. eauto.
Qed.

(** Each contribution, with the facts about its child. *)
Lemma contribution_inv k :
  k ∈ contributions -> exists c ws, c ∈ l /\ canonical_child c
    /\ compute_merged_size_weights c (merge_factor d c)
         (product (factors d l) `div` merge_factor d c) = Some ws
    /\ k = inline_child c (merge_factor d c) ws.
Proof using Hl Hplan.
  unfold contributions. intros (i & c & ws & -> & Hc & Hws)%elem_of_lookup_zip_with.
  exists c, ws. rewrite Forall_lookup in Hl.
  destruct (Forall2_lookup_l _ _ _ _ _ Hplan Hc) as (ws' & Hws' & Hm).
  rewrite Hws in Hws'. injection Hws' as <-.
  split; [by eapply list_elem_of_lookup_2|]. split; [by eapply Hl|]. done.
Qed.

Lemma contributions_canonical : Forall canonical_child (concat contributions).
Proof using Hl Hplan.
  apply Forall_concat, Forall_forall. intros k (c & ws & Hin & Hc & Hm & ->)%contribution_inv.
  by apply (contribution_canonical d (product (factors d l)));
    [|apply product_factors_positive|apply factor_le_product|].
Qed.

Lemma contributions_leaves : (concat contributions ≫= child_leaves) = (l ≫= child_leaves).
Proof using Hl Hplan.
  apply (merge_facts d (product (factors d l)));
    [apply product_factors_positive|done|apply factor_le_product|done].
Qed.

Lemma contributions_length : (length l <= length (concat contributions))%nat
  /\ (Exists (fun c => merge_factor d c <> 1) l -> (2 <= length (concat contributions))%nat).
Proof using Hl Hplan.
  apply (merge_facts d (product (factors d l)));
    [apply product_factors_positive|done|apply factor_le_product|done].
Qed.

Lemma contribution_product_le k :
  k ∈ contributions -> product (factors d k) <= product (factors d (concat contributions)).
Proof using.
  intros Hk. unfold factors. rewrite fmap_concat, product_concat. apply product_ge.
  - apply Forall_fmap, Forall_fmap, Forall_true. intros k'.
    apply product_positive, (factors_positive d).
  - rewrite <- list_fmap_compose. apply list_elem_of_fmap. exists k. done.
Qed.

(** The merged list merges no further. *)
Lemma contributions_blocked : blocked d (concat contributions).
Proof using Hd Hl Hplan.
  destruct (decide (Forall (fun k => Forall (fun c => merge_factor d c = 1) k) contributions))
    as [Hones|Hnot].
  { left. by apply Forall_concat. }
  apply not_Forall_Exists in Hnot; [|intros ?; apply _].
  apply Exists_exists in Hnot as (k & Hk & Hnot). simpl in Hnot.
  destruct (contribution_inv k Hk) as (c & ws & Hin & Hc & Hm & Hke).
  pose proof (factor_le_product c Hin) as Hfp. pose proof product_factors_positive as HP.
  destruct (decide (merge_factor d c = 1)) as [Hf|Hf].
  { exfalso. apply Hnot. apply (Forall_fmap _ (fun f => f = 1)). fold (factors d k). rewrite Hke.
    rewrite (kept_factor d (product (factors d l)) c ws) by done. by constructor. }
  destruct (merge_factor_split d c Hf) as (inner & slot & Hn & Hdir & _).
  destruct (inlined_member d (product (factors d l)) c ws Hc HP Hfp Hm inner Hf Hn)
    as [Hfactors Hmem]. rewrite <- Hke in *.
  destruct Hc as [Hcan _]. rewrite Hn in Hcan. apply canonical_Split_inv in Hcan as [Hcan _].
  destruct Hcan as (_ & _ & _ & _ & Hblocked). rewrite Hdir in Hblocked.
  apply (inner_block_blocks d inner); [by apply Hblocked| | |].
  - intros Hones. apply Hnot. apply (Forall_fmap _ (fun f => f = 1)). fold (factors d k).
    rewrite Hfactors. by apply Forall_fmap.
  - rewrite <- Hfactors. by apply contribution_product_le.
  - intros x Hx. destruct (Hmem x Hx) as (x' & u & u' & Hx' & ?). exists x', u, u'.
    split; [|done]. apply elem_of_concat. eauto.
Qed.
End merged.

Lemma merge_same_direction_canonical d l :
  d <> Stacked -> Forall canonical_child l ->
  let l' := merge_same_direction d l in
  Forall canonical_child l' /\ (l' ≫= child_leaves) = (l ≫= child_leaves)
  /\ blocked d l' /\ (length l <= length l')%nat.
Proof.
  intros Hd Hl. destruct (merge_cases d l) as [[Hb ->]|(Hex & HP & planned & Hplan & ->)]; [done|].
  split_and!.
  - by apply contributions_canonical.
  - by apply contributions_leaves.
  - by apply contributions_blocked.
  - by apply contributions_length.
Qed.

Lemma blocked_merge_id d l : blocked d l -> merge_same_direction d l = l.
Proof.
  intros Hb. destruct (merge_cases d l) as [[_ ?]|(Hex & HP & planned & Hplan & _)]; [done|].
  exfalso. destruct Hb as [Hones|[Hprod|Hnone]].
  - apply Exists_exists in Hex as (c & Hc & Hf). rewrite Forall_forall in Hones.
    by apply Hf, Hones.
  - lia.
  - apply Exists_exists in Hnone as (c & [i Hc]%list_elem_of_lookup & Hnone).
    destruct (Forall2_lookup_l _ _ _ _ _ Hplan Hc) as (ws & _ & Hws). congruence.
Qed.

(** The index a child had in its split plays no part in a merge. *)
Definition forget_index (c : NormalizedChild) : NormalizedChild :=
  MkNormalizedChild (layout_node c) (size_weight c) 0.

Lemma blocked_forget_index d l : blocked d l -> blocked d (forget_index <$> l).
Proof.
  assert (factors d (forget_index <$> l) = factors d l) as Hfs.
  { unfold factors. by rewrite <- list_fmap_compose. }
  unfold blocked. rewrite Hfs. intros [H|[H|H]]; [left|right; left|right; right].
  - by apply Forall_fmap.
  - done.
  - apply Exists_exists in H as (c & Hc & H). apply Exists_exists. exists (forget_index c).
    split; [apply list_elem_of_fmap; eauto|done].
Qed.

Lemma node_children_of_list d l active :
  node_children (MkSplitNode d (layout_node <$> l) (size_weight <$> l) active)
  = forget_index <$> l.
Proof. unfold node_children. simpl. induction l; csimpl; [done|]. by f_equal. Qed.

(** ** The children kept of a split *)

Lemma pair_normalized_children_spec s
    (subtrees : list (option LayoutNode)) (leaves : list (list PaneId)) :
  Forall2 (fun o ls => match o with
    | Some m => canonical m /\ list_leaf_pane_ids m = ls
    | None => ls = [] end) subtrees leaves ->
  Forall canonical_child (pair_normalized_children s subtrees)
  /\ (pair_normalized_children s subtrees ≫= child_leaves) = concat leaves.
Proof.
  intros H. unfold pair_normalized_children, enumerate.
  assert (forall (f : nat -> option LayoutNode -> nat * option LayoutNode),
    (forall i o, (f i o).2 = o) ->
    let l := omap (fun ic : nat * option LayoutNode =>
      node ← ic.2;
      Some (MkNormalizedChild node
        (canonicalize_size_weight (default default_size_weight (weights s !! ic.1))) ic.1))
      (imap f subtrees) in
    Forall canonical_child l /\ (l ≫= child_leaves) = concat leaves) as Hgen;
    [|by apply (Hgen pair)].
  induction H as [|o ls subtrees leaves Ho _ IH]; intros f Hf; simpl; [by split|].
  destruct (IH (fun i => f (S i))) as [IH1 IH2]; [intros; apply Hf|].
  rewrite (Hf 0%nat o). destruct o as [m|]; simpl; unfold compose in *.
  - destruct Ho as [Hm Hls]. split.
    + constructor; [|exact IH1]. split; [done|apply canonicalize_size_weight_idemp].
    + f_equal; [done|exact IH2].
  - subst ls. split; [exact IH1|exact IH2].
Qed.

Lemma position_default_lt {A} (f : A -> bool) l :
  l <> [] -> (default (length l - 1) (position f l) < length l)%nat.
Proof.
  intros Hl. destruct (position f l) eqn:E; simpl; [by eapply position_lt|].
  destruct l; [done|simpl; lia].
Qed.

Lemma finish_split_canonical s l m :
  Forall canonical_child l -> finish_split s l = Some m ->
  canonical m /\ list_leaf_pane_ids m = l ≫= child_leaves.
Proof.
  intros Hl. unfold finish_split. case_bool_decide as Hlen; [done|].
  assert (l <> []) as Hne by (by intros ->).
  set (merged := if bool_decide (direction s = Stacked) then _ else _).
  set (active := if bool_decide (direction s = Stacked) then _ else _).
  assert (Forall canonical_child merged /\ (merged ≫= child_leaves) = (l ≫= child_leaves)
    /\ (length l <= length merged)%nat
    /\ (if bool_decide (direction s = Stacked) then (active < length merged)%nat else active = 0%nat)
    /\ (direction s <> Stacked -> blocked (direction s) merged)) as (H1 & H2 & H3 & H4 & H5).
  { subst merged active. case_bool_decide as Hd.
    - split_and!; [done|done|done|by apply position_default_lt|done].
    - destruct (merge_same_direction_canonical (direction s) l Hd Hl) as (?&?&?&?).
      split_and!; done. }
  clearbody merged active. intros Hm.
  destruct (decide (2 <= length merged)%nat) as [Hlong|Hshort].
  - assert (m = Split (MkSplitNode (direction s) (layout_node <$> merged)
      (size_weight <$> merged) active)) as ->.
    { destruct merged as [|c1 [|c2 cs]]; simpl in *; [lia|lia|congruence]. }
    split.
    + constructor.
      * unfold canonical_split. cbn [children weights direction active_child_index].
        rewrite !length_fmap. split_and!; [done|done| |done|].
        -- apply Forall_fmap. eapply Forall_impl; [exact H1|]. by intros c [_ ?].
        -- intros Hd. rewrite node_children_of_list. by apply blocked_forget_index, H5.
      * cbn [children]. apply Forall_fmap. eapply Forall_impl; [exact H1|]. by intros c [? _].
    + rewrite list_leaf_pane_ids_Split, <- H2. cbn [children].
      clear. induction merged as [|c cs IH]; csimpl; [done|]. by rewrite IH.
  - assert (0 < length merged)%nat by (destruct l; [done|simpl in *; lia]).
    destruct merged as [|c [|]]; simpl in *; [lia| |lia]. injection Hm as <-.
    apply Forall_cons in H1 as [[Hc _] _]. split; [done|]. rewrite <- H2. by rewrite app_nil_r.
Qed.

(** ** The pass *)

Lemma normalize_layout_tree_spec n live :
  match normalize_layout_tree n live with
  | Some m => canonical m /\ list_leaf_pane_ids m = filter (.∈ live) (list_leaf_pane_ids n)
  | None => filter (.∈ live) (list_leaf_pane_ids n) = []
  end.
Proof.
  induction n as [p|s IH] using LayoutNode_tree_ind.
  { simpl. case_bool_decide as Hp; rewrite ?list_leaf_pane_ids_Pane.
    - split; [constructor|]. by rewrite filter_cons_True.
    - by rewrite filter_cons_False. }
  simpl. set (l := pair_normalized_children s _).
  assert (Forall canonical_child l
    /\ (l ≫= child_leaves) = filter (.∈ live) (list_leaf_pane_ids (Split s))) as [Hl Hleaves].
  { destruct (pair_normalized_children_spec s
      (map (fun c => normalize_layout_tree c live) (children s))
      ((fun c => filter (.∈ live) (list_leaf_pane_ids c)) <$> children s)) as [H1 H2].
    - clear l. induction IH as [|c cs Hc _ IHcs]; csimpl; constructor; [|done].
      by destruct (normalize_layout_tree c live).
    - split; [done|]. unfold l. rewrite H2, list_leaf_pane_ids_Split. clear.
      induction (children s) as [|c cs IH]; csimpl; [done|]. by rewrite filter_app, IH. }
  destruct (finish_split s l) as [m|] eqn:E.
  - destruct (finish_split_canonical s l m Hl E) as [Hm Hm']. split; [done|congruence].
  - rewrite <- Hleaves. unfold finish_split in E. case_bool_decide as Hlen.
    + by destruct l.
    + by destruct (if bool_decide (direction s = Stacked) then _ else _) as [|? []].
Qed.

(** A canonical tree whose panes are all live is left alone. *)
Lemma pair_canonical_children s :
  length (weights s) = length (children s) -> Forall canonical_weight (weights s) ->
  let l := pair_normalized_children s (Some <$> children s) in
  layout_node <$> l = children s /\ size_weight <$> l = weights s
  /\ (forall i c, l !! i = Some c -> original_child_index c = i).
Proof.
  intros Hlen Hw. unfold pair_normalized_children, enumerate.
  assert (forall k cs ws, length ws = length cs -> Forall canonical_weight ws ->
    (forall i, ws !! i = weights s !! (k + i)%nat) ->
    let l := omap (fun ic : nat * option LayoutNode =>
      node ← ic.2;
      Some (MkNormalizedChild node
        (canonicalize_size_weight (default default_size_weight (weights s !! ic.1))) ic.1))
      (imap (fun i o => ((k + i)%nat, o)) (Some <$> cs)) in
    layout_node <$> l = cs /\ size_weight <$> l = ws
    /\ (forall i c, l !! i = Some c -> original_child_index c = (k + i)%nat)) as H;
    [|by apply (H 0%nat)].
  intros k cs. revert k. induction cs as [|c cs IH]; intros k [|w ws] Hl Hcw Hlook; simplify_eq/=;
    [done|]. apply Forall_cons in Hcw as [Hc Hcw].
  rewrite (imap_ext _ (fun i o => ((S k + i)%nat, o))) by (intros; simpl; f_equal; lia).
  destruct (IH (S k) ws Hl Hcw) as (H1 & H2 & H3).
  { intros i. specialize (Hlook (S i)). simpl in Hlook. rewrite Hlook. f_equal. lia. }
  specialize (Hlook 0%nat). simpl in Hlook. rewrite Nat.add_0_r in *. split_and!.
  - by rewrite H1.
  - rewrite H2, <- Hlook. simpl. by rewrite Hc.
  - intros [|i] c' Hi; simplify_eq/=; [done|]. rewrite (H3 i c' Hi). lia.
Qed.

Lemma stack_active_position l active :
  (forall i c, l !! i = Some c -> original_child_index c = i) -> (active < length l)%nat ->
  position (fun c => active <=? original_child_index c)%nat l = Some active.
Proof.
  intros Hidx Hlt. destruct (lookup_lt_is_Some_2 l active Hlt) as [c Hc].
  apply position_Some. exists c. split_and!; [done|by rewrite (Hidx _ _ Hc), Nat.leb_refl|].
  intros j y Hj Hy. rewrite (Hidx _ _ Hy). by apply Nat.leb_gt.
Qed.

Lemma finish_canonical s l :
  canonical_split s -> layout_node <$> l = children s -> size_weight <$> l = weights s ->
  (forall i c, l !! i = Some c -> original_child_index c = i) ->
  finish_split s l = Some (Split s).
Proof.
  intros (H2 & Hlen & Hcw & Hact & Hblocked) Hn Hw Hidx.
  assert (length l = length (children s)) as Hll by (by rewrite <- Hn, length_fmap).
  unfold finish_split. rewrite bool_decide_false by lia.
  assert ((if bool_decide (direction s = Stacked) then l
           else merge_same_direction (direction s) l) = l) as ->.
  { case_bool_decide as Hd; [done|]. apply blocked_merge_id.
    specialize (Hblocked Hd). unfold node_children in Hblocked. rewrite <- Hn, <- Hw in Hblocked.
    assert (blocked (direction s) (forget_index <$> l)) as Hb.
    { rewrite <- (node_children_of_list (direction s) l 0%nat). done. }
    revert Hb. unfold blocked.
    assert (factors (direction s) (forget_index <$> l) = factors (direction s) l) as ->.
    { unfold factors. by rewrite <- list_fmap_compose. }
    rewrite Forall_fmap, Exists_fmap. done. }
  assert ((if bool_decide (direction s = Stacked)
    then default (length l - 1)%nat
           (position (fun c => active_child_index s <=? original_child_index c)%nat l)
    else 0%nat) = active_child_index s) as ->.
  { case_bool_decide; [|done]. by rewrite stack_active_position by (done || lia). }
  destruct l as [|c1 [|c2 cs]]; simpl in *; [lia|lia|].
  rewrite Hn, Hw. by destruct s.
Qed.

Lemma normalize_canonical n live :
  canonical n -> (forall p, p ∈ list_leaf_pane_ids n -> p ∈ live) ->
  normalize_layout_tree n live = Some n.
Proof.
  induction n as [p|s IH] using LayoutNode_tree_ind; intros Hc Hlive.
  { simpl. rewrite bool_decide_true; [done|]. apply Hlive. rewrite list_leaf_pane_ids_Pane. left. }
  apply canonical_Split_inv in Hc as [Hs Hcs]. simpl.
  assert (map (fun c => normalize_layout_tree c live) (children s) = Some <$> children s) as ->.
  { rewrite Forall_forall in IH. rewrite Forall_forall in Hcs.
    apply map_ext_in. intros c Hc%list_elem_of_In. apply IH; [done|by apply Hcs|].
    intros p Hp. apply Hlive, elem_of_leaves_Split. eauto. }
  pose proof Hs as (H2 & Hlen & Hcw & _).
  destruct (pair_canonical_children s Hlen Hcw) as (H3 & H4 & H5).
  by apply finish_canonical.
Qed.

Lemma canonical_leaves_nonempty n : canonical n -> list_leaf_pane_ids n <> [].
Proof.
  intros H. apply leaves_nonempty. eapply every_split_impl; [|exact H].
  intros s (H2 & _) E. rewrite E in H2. simpl in H2. lia.
Qed.

(** *** Proportions *)

Lemma product_divides l f : f ∈ l -> (f | product l).
Proof.
  induction l as [|x l IH]; [by intros ?%not_elem_of_nil|]. simpl.
  intros [->|Hf]%elem_of_cons; [apply N.divide_factor_l|].
  apply N.divide_mul_r. by apply IH.
Qed.

Lemma factor_divides d l c : c ∈ l -> (merge_factor d c | product (factors d l)).
Proof. intros Hc. apply product_divides, list_elem_of_fmap. eauto. Qed.

(** Scaling every share of a list scales their sum. *)
Lemma scaled_shares ws ws' k :
  Forall2 (fun w w' => exists u, get_plain_flex_weight w = Some u /\ u * k <= U32_MAX
    /\ w' = from_primary_constraint (Flex (u * k))) ws ws' ->
  shares ws' = (fun u => u * k) <$> shares ws /\ sum_cells (shares ws') = sum_cells (shares ws) * k.
Proof.
  induction 1 as [|w w' ws ws' (u & Hu & _ & ->) _ [IH1 IH2]]; [by split|].
  unfold shares in *. csimpl. rewrite Hu. simpl. rewrite IH2. split; [by f_equal|lia].
Qed.

(** The shares a block has, and the part of each child in it. *)
Definition proportional_block (d : SplitDirection) (P : N) (c : NormalizedChild)
    (block : list NormalizedChild) : Prop :=
  exists w, get_plain_flex_weight (size_weight c) = Some w
    /\ sum_cells (shares (size_weight <$> block)) = w * P
    /\ (merge_factor d c <> 1 -> exists inner, layout_node c = Split inner
        /\ layout_node <$> block = children inner
        /\ forall i u x, shares (weights inner) !! i = Some u -> block !! i = Some x ->
             default 0 (get_plain_flex_weight (size_weight x))
               * sum_cells (shares (weights inner)) = u * (w * P)).

Lemma contribution_proportional d P c ws :
  canonical_child c -> 1 <= P -> merge_factor d c <= P -> (merge_factor d c | P) ->
  compute_merged_size_weights c (merge_factor d c) (P `div` merge_factor d c) = Some ws ->
  proportional_block d P c (inline_child c (merge_factor d c) ws).
Proof.
  intros Hc HP Hf Hdiv Hplan. destruct (decide (merge_factor d c = 1)) as [E|E].
  { destruct (kept_contribution d P c ws Hc HP Hf Hplan E) as (u & Hu & _ & ->).
    exists u. split_and!; [done| |done]. unfold shares. csimpl. lia. }
  destruct (inlined_contribution d P c ws Hc HP Hf Hplan E)
    as (inner & slot & Hn & Hd & Hs & _ & Hws & ->).
  destruct (merge_factor_split d c E) as (inner' & _ & Hn' & _ & _ & _ & Hsum).
  rewrite Hn in Hn'. injection Hn' as <-.
  destruct (scaled_shares _ _ _ Hws) as [Hshares Htotal].
  pose proof (merge_factor_positive d c) as Hpos.
  assert (merge_factor d c * (P `div` merge_factor d c) = P) as Hexact.
  { destruct Hdiv as [q ->]. rewrite N.div_mul by lia. lia. }
  pose proof (Forall2_length _ _ _ Hws) as Hlw.
  destruct Hc as [Hcan _]. rewrite Hn in Hcan. apply canonical_Split_inv in Hcan as [(_ & Hlen & _) _].
  set (block := zip_with _ _ _).
  assert (size_weight <$> block = ws) as Hbw by (apply fmap_zip_with_r; [done|lia]).
  assert (layout_node <$> block = children inner) as Hbn by (apply fmap_zip_with_l; [done|lia]).
  exists slot. split_and!; [done| |].
  - rewrite Hbw, Htotal, <- Hsum.
    transitivity (slot * (merge_factor d c * (P `div` merge_factor d c))); [ring|by rewrite Hexact].
  - intros _. exists inner. split_and!; [done|done|]. intros i u x Hu Hx.
    assert (shares ws !! i = Some (default 0 (get_plain_flex_weight (size_weight x)))) as Hx'.
    { unfold shares. rewrite <- Hbw, !list_lookup_fmap, Hx. done. }
    rewrite Hshares, list_lookup_fmap, Hu in Hx'. injection Hx' as <-.
    rewrite <- Hsum.
    transitivity (u * (slot * (merge_factor d c * (P `div` merge_factor d c)))); [ring|by rewrite Hexact].
Qed.

Lemma merge_proportions d P l planned :
  1 <= P -> Forall canonical_child l -> (forall c, c ∈ l -> merge_factor d c <= P) ->
  (forall c, c ∈ l -> (merge_factor d c | P)) ->
  Forall2 (fun c ws => compute_merged_size_weights c (merge_factor d c)
    (P `div` merge_factor d c) = Some ws) l planned ->
  Forall2 (proportional_block d P) l
    (zip_with (fun c ws => inline_child c (merge_factor d c) ws) l planned).
Proof.
  intros HP Hl Hf Hdiv Hplan. induction Hplan as [|c ws cs pl Hm _ IH]; simpl; [constructor|].
  apply Forall_cons in Hl as [Hc Hcs]. constructor.
  - apply contribution_proportional; [done|done|apply Hf; left|apply Hdiv; left|done].
  - apply IH; [done|intros; apply Hf; by right|intros; apply Hdiv; by right].
Qed.

(** ** Properties *)

(** Normalization is idempotent: the tree it returns is canonical, and
    normalizing it again returns it unchanged, even where the rescaled shares
    of a merge would have overflowed. *)
Theorem normalize_idempotent n live m :
  normalize_layout_tree n live = Some m ->
  canonical m /\ normalize_layout_tree m live = Some m.
Proof.
  intros H. pose proof (normalize_layout_tree_spec n live) as Hspec. rewrite H in Hspec.
  destruct Hspec as [Hc Hl]. split; [done|]. apply normalize_canonical; [done|].
  intros p Hp. rewrite Hl in Hp. by apply list_elem_of_filter in Hp as [? _].
Qed.

Lemma normalize_idempotent_witness :
  normalize_layout_tree
    (Split (MkSplitNode Horizontal [Pane 1; Pane 2; Pane 3]
      [from_primary_constraint (Flex 2); default_size_weight; default_size_weight] 0)) {[1; 2; 3]}
  = Some (Split (MkSplitNode Horizontal [Pane 1; Pane 2; Pane 3]
      [from_primary_constraint (Flex 2); default_size_weight; default_size_weight] 0)).
Proof.
  apply (normalize_idempotent
    (Split (with_equal_weights Horizontal
       [Pane 1; Split (with_equal_weights Horizontal [Pane 2; Pane 3])])) {[1; 2; 3]}).
  vm_compute. reflexivity.
Defined.

(** Normalization drops exactly the dead panes. The tree it returns has
    the live leaves of the input in the same order, and there is none to
    return exactly when no leaf is live. *)
Theorem normalize_keeps_live_leaves n live :
  match normalize_layout_tree n live with
  | Some m => list_leaf_pane_ids m = filter (.∈ live) (list_leaf_pane_ids n)
              /\ list_leaf_pane_ids m <> []
  | None => forall p, p ∈ list_leaf_pane_ids n -> p ∉ live
  end.
Proof.
  pose proof (normalize_layout_tree_spec n live) as H. destruct (normalize_layout_tree n live) as [m|].
  - destruct H as [Hc Hl]. split; [done|]. by apply canonical_leaves_nonempty.
  - intros p Hp Hlive. assert (p ∈ filter (.∈ live) (list_leaf_pane_ids n)) as Hin
      by (by apply list_elem_of_filter). rewrite H in Hin. by apply not_elem_of_nil in Hin.
Qed.

(** A merge keeps every share in its exact proportion. When children are
    inlined, the merged list is one block per child, the shares of a block
    sum to the share of its child times one common factor [P], and inside an
    inlined split each child keeps its part of the split's share. *)
Theorem merge_keeps_proportions d l :
  d <> Stacked -> Forall canonical_child l -> ~ blocked d l ->
  exists P blocks, 0 < P /\ merge_same_direction d l = concat blocks
    /\ Forall2 (proportional_block d P) l blocks.
Proof.
  intros Hd Hl Hnot.
  destruct (merge_cases d l) as [[? _]|(_ & HP & planned & Hplan & ->)]; [done|].
  exists (product (factors d l)),
    (zip_with (fun c ws => inline_child c (merge_factor d c) ws) l planned).
  pose proof (product_factors_positive d l) as Hpos.
  split_and!; [lia|done|].
  apply merge_proportions; [done|done|by apply factor_le_product|by apply factor_divides|done].
Qed.

Definition example_normalized_children : list NormalizedChild :=
  [MkNormalizedChild (Pane 1) default_size_weight 0;
   MkNormalizedChild (Split (with_equal_weights Horizontal [Pane 2; Pane 3]))
     default_size_weight 1].

Lemma merge_keeps_proportions_witness :
  exists P blocks, 0 < P
    /\ merge_same_direction Horizontal example_normalized_children = concat blocks.
Proof.
  destruct (merge_keeps_proportions Horizontal example_normalized_children)
    as (P & blocks & H1 & H2 & _).
  - discriminate.
  - repeat constructor; discriminate.
  - intros Hb. apply blocked_merge_id in Hb. vm_compute in Hb. discriminate Hb.
  - exists P, blocks. split; [exact H1|exact H2].
Defined.
