(* ===== verification/Edit.v ===== *)
(** * Structural edits of a layout tree ([crates/koshi-layout/src/edit.rs])

    Splitting a pane in, stacking panes, taking a pane out. Where the source
    walks a path it found itself, the walk would panic off the tree; such an
    edit returns an [outcome], and the theorems show it never panics. *)

From S2P Require Import Prelude Geometry Size Tree Normalize.
From stdpp Require Import options.

(** ** Definitions *)

Inductive SplitError := SplitPaneNotFound (target_pane_id : PaneId).

Inductive RemoveError :=
  | RemovePaneNotFound (pane_id : PaneId)
  | LastPane (pane_id : PaneId).

Inductive PaneRemovalStatus := PaneNotFound | Removed | SubtreeEmpty.

#[export] Instance SplitError_eq_dec : EqDecision SplitError.
Proof. solve_decision. Defined.
#[export] Instance RemoveError_eq_dec : EqDecision RemoveError.
Proof. solve_decision. Defined.
#[export] Instance PaneRemovalStatus_eq_dec : EqDecision PaneRemovalStatus.
Proof. solve_decision. Defined.

(** The depth of the node a split of [pane_path]'s pane takes as operand: the
    outermost stack on the path, else the leaf. *)
Definition find_split_operand_depth (layout_tree : LayoutNode) (pane_path : list nat) : nat :=
  default (length pane_path)
    (List.find (fun pane_path_depth => is_stack_at_path layout_tree (take pane_path_depth pane_path))
       (range (length pane_path))).

Definition split_beside (new_pane_id : PaneId) (d : Direction) (existing_pane_subtree : LayoutNode)
    : LayoutNode :=
  let new_pane_node := Pane new_pane_id in
  let split_children :=
    match d with
    | Right | Down => [existing_pane_subtree; new_pane_node]
    | Left | Up => [new_pane_node; existing_pane_subtree]
    end in
  Split (with_equal_weights (compute_split_direction d) split_children).

Definition split_leaf (layout_tree : LayoutNode) (target_pane_id new_pane_id : PaneId)
    (d : Direction) : outcome SplitError LayoutNode :=
  match find_pane_path target_pane_id layout_tree with
  | None => Some (inl (SplitPaneNotFound target_pane_id))
  | Some pane_path =>
      let split_operand_depth := find_split_operand_depth layout_tree pane_path in
      inr <$> get_node_at_path_mut layout_tree (take split_operand_depth pane_path)
                (split_beside new_pane_id d)
  end.

(** The pushes of [add_panes_to_stack] on the containing stack. *)
Definition push_stack_member (stack : SplitNode) (new_pane_id : PaneId) : SplitNode :=
  MkSplitNode (direction stack) (children stack ++ [Pane new_pane_id])
    (weights stack ++ [default_size_weight]) (active_child_index stack).

Definition add_panes_to_stack (layout_tree : LayoutNode) (anchor_pane_id : PaneId)
    (new_pane_ids : list PaneId) : outcome SplitError LayoutNode :=
  if negb (has_pane anchor_pane_id layout_tree)
  then Some (inl (SplitPaneNotFound anchor_pane_id))
  else if bool_decide (new_pane_ids = []) then Some (inr layout_tree)
  else
    match find_containing_stack_path layout_tree anchor_pane_id with
    | Some stack_path =>
        inr <$> get_split_at_path_mut layout_tree stack_path
                  (fun stack => foldl push_stack_member stack new_pane_ids)
    | None =>
        pane_path ← find_pane_path anchor_pane_id layout_tree;
        inr <$> get_node_at_path_mut layout_tree pane_path
                  (fun _ => Split (from_stacked_pane_ids (anchor_pane_id :: new_pane_ids) 0))
    end.

Definition set_active_child_after_removal (s : SplitNode) (removed_child_index : nat) : SplitNode :=
  let moved :=
    if (removed_child_index <? active_child_index s)%nat then (active_child_index s - 1)%nat
    else active_child_index s in
  MkSplitNode (direction s) (children s) (weights s)
    (moved `min` (length (children s) - 1))%nat.

(** The child loop of [remove_leaf] ([Vec::remove] at an index inside the
    vector is [delete]): the first child in which [remove] finds
    the pane, its index, what happened below, and the child after it. *)
Fixpoint remove_in_children (remove : LayoutNode -> PaneRemovalStatus * LayoutNode)
    (child_index : nat) (cs : list LayoutNode) : option (nat * PaneRemovalStatus * LayoutNode) :=
  match cs with
  | [] => None
  | c :: cs' =>
      match remove c with
      | (PaneNotFound, _) => remove_in_children remove (S child_index) cs'
      | (status, c') => Some (child_index, status, c')
      end
  end.

Fixpoint remove_leaf (pane_id : PaneId) (n : LayoutNode) : PaneRemovalStatus * LayoutNode :=
  match n with
  | Pane p => (if p =? pane_id then SubtreeEmpty else PaneNotFound, n)
  | Split s =>
      match remove_in_children (remove_leaf pane_id) 0 (children s) with
      | None => (PaneNotFound, n)
      | Some (child_index, SubtreeEmpty, _) =>
          let shrunk :=
            MkSplitNode (direction s) (delete child_index (children s))
              (if (child_index <? length (weights s))%nat then delete child_index (weights s)
               else weights s)
              (active_child_index s) in
          if bool_decide (children shrunk = []) then (SubtreeEmpty, Split shrunk)
          else (Removed, Split (set_active_child_after_removal shrunk child_index))
      | Some (child_index, status, c') =>
          (status, Split (set_children (<[child_index := c']> (children s)) s))
      end
  end.

Definition remove_pane (layout_tree : LayoutNode) (pane_id : PaneId) : RemoveError + LayoutNode :=
  let '(status, edited_layout_tree) := remove_leaf pane_id layout_tree in
  match status with
  | PaneNotFound => inl (RemovePaneNotFound pane_id)
  | SubtreeEmpty => inl (LastPane pane_id)
  | Removed =>
      if bool_decide (list_leaf_pane_ids edited_layout_tree = []) then inl (LastPane pane_id)
      else inr edited_layout_tree
  end.

Definition remove_pane_and_normalize (layout_tree : LayoutNode) (pane_id : PaneId)
    : RemoveError + LayoutNode :=
  match remove_pane layout_tree pane_id with
  | inl error => inl error
  | inr edited_layout_tree =>
      let live_pane_ids : gset PaneId := list_to_set (list_leaf_pane_ids edited_layout_tree) in
      inr (default edited_layout_tree (normalize_layout_tree edited_layout_tree live_pane_ids))
  end.

Example remove_from_nested :
  remove_pane_and_normalize
    (Split (with_equal_weights Horizontal
       [Pane 1; Split (with_equal_weights Vertical [Pane 2; Pane 3])])) 3
  = inr (Split (with_equal_weights Horizontal [Pane 1; Pane 2])).
Proof. vm_compute. reflexivity. Qed.

(** ** In-place edits keep the shape of the other nodes *)

(** [P] reads no more of the children than how many there are. *)
Definition reads_shape_only (P : SplitNode -> Prop) : Prop :=
  forall s cs, length cs = length (children s) -> P s -> P (set_children cs s).

Lemma get_node_at_path_mut_every P n path f m n' :
  reads_shape_only P -> every_split P n -> get_node_at_path n path = Some m ->
  every_split P (f m) -> get_node_at_path_mut n path f = Some n' -> every_split P n'.
Proof.
  intros HP. revert n n'. induction path as [|i path IH]; intros n n' Hn Hget Hf; simpl.
  { simpl in Hget. injection Hget as ->. by intros [= <-]. }
  destruct n as [p|s]; [done|]. simpl in Hget.
  apply every_split_Split_inv in Hn as [Hs Hcs].
  intros (c & Hc & (c' & Hmut & [= <-])%bind_Some)%bind_Some. rewrite Hc in Hget. simpl in Hget.
  constructor; [by apply HP; [rewrite length_insert|]|]. simpl. apply Forall_insert; [done|].
  rewrite Forall_lookup in Hcs. eapply IH; [by eapply Hcs|done..].
Qed.

(** Every node a path reaches satisfies what every split does. *)
Lemma get_node_at_path_every P n path m :
  every_split P n -> get_node_at_path n path = Some m -> every_split P m.
Proof.
  revert n. induction path as [|i path IH]; intros n Hn; simpl; [by intros [= <-]|].
  destruct n as [p|s]; [done|]. apply every_split_Split_inv in Hn as [_ Hcs].
  intros (c & Hc & Hget)%bind_Some. rewrite Forall_lookup in Hcs. eapply IH; [by eapply Hcs|done].
Qed.

Lemma tree_ok_reads_shape_only :
  reads_shape_only (fun s => has_children s /\ has_parallel_weights s /\ has_active_in_range s).
Proof.
  intros s cs Hl (H1 & H2 & H3).
  unfold has_children, has_parallel_weights, has_active_in_range in *. simpl. rewrite Hl.
  split_and!; try tauto. intros ->. destruct (children s); done.
Qed.

(** The pane at the end of a path is a leaf of every node on it. *)
Lemma path_leaf p n path depth m :
  find_pane_path p n = Some path -> get_node_at_path n (take depth path) = Some m ->
  p ∈ list_leaf_pane_ids m.
Proof.
  intros Hp Hm. apply find_pane_path_node in Hp.
  rewrite <- (take_drop depth path), get_node_at_path_app, Hm in Hp. simpl in Hp.
  revert Hp. generalize (drop depth path). clear. intros path. revert m.
  induction path as [|i path IH]; intros m; simpl; [by intros [= ->]; left|].
  destruct m as [q|s]; [done|]. intros (c & Hc & Hget)%bind_Some.
  apply elem_of_leaves_Split. exists c. split; [by eapply list_elem_of_lookup_2|by apply IH].
Qed.

Lemma path_node p n path depth :
  find_pane_path p n = Some path -> exists m, get_node_at_path n (take depth path) = Some m.
Proof.
  intros Hp%find_pane_path_node. destruct (get_node_at_path_prefix n path depth _ Hp) as (m & H & _).
  eauto.
Qed.

(** ** Splitting a pane in *)

Lemma split_beside_leaves new d m :
  list_leaf_pane_ids (split_beside new d m)
  = match d with
    | Right | Down => list_leaf_pane_ids m ++ [new]
    | Left | Up => new :: list_leaf_pane_ids m
    end.
Proof.
  unfold split_beside. destruct d; rewrite list_leaf_pane_ids_Split; simpl; by rewrite ?app_nil_r.
Qed.

Lemma split_beside_ok new d m : tree_ok m -> tree_ok (split_beside new d m).
Proof.
  intros Hm. unfold split_beside. constructor.
  - unfold has_children, has_parallel_weights, has_active_in_range.
    destruct d; simpl; split_and!; (done || lia).
  - destruct d; repeat constructor; done.
Qed.

(** What an edit at a prefix of a pane's path does. *)
Lemma edit_on_path p n path depth f :
  find_pane_path p n = Some path ->
  exists m n' pre post,
    get_node_at_path n (take depth path) = Some m
    /\ get_node_at_path_mut n (take depth path) f = Some n'
    /\ p ∈ list_leaf_pane_ids m
    /\ list_leaf_pane_ids n = pre ++ list_leaf_pane_ids m ++ post
    /\ list_leaf_pane_ids n' = pre ++ list_leaf_pane_ids (f m) ++ post
    /\ (tree_ok n -> tree_ok (f m) -> tree_ok n').
Proof.
  intros Hp. destruct (path_node p n path depth Hp) as [m Hm].
  destruct (get_node_at_path_mut_leaves n (take depth path) f m Hm) as (n' & pre & post & H1 & H2 & H3).
  exists m, n', pre, post. split_and!; try done; [by eapply path_leaf|].
  intros Hn Hf.
  exact (get_node_at_path_mut_every _ n _ f m n' tree_ok_reads_shape_only Hn Hm Hf H1).
Qed.

Lemma split_leaf_spec t target new d :
  match split_leaf t target new d with
  | None => False
  | Some (inl e) => e = SplitPaneNotFound target /\ target ∉ list_leaf_pane_ids t
  | Some (inr t') => exists pre block post,
      target ∈ block
      /\ list_leaf_pane_ids t = pre ++ block ++ post
      /\ list_leaf_pane_ids t'
         = pre ++ (match d with Right | Down => block ++ [new] | Left | Up => new :: block end) ++ post
      /\ (tree_ok t -> tree_ok t')
  end.
Proof.
  unfold split_leaf. destruct (find_pane_path target t) as [path|] eqn:E.
  - destruct (edit_on_path target t path (find_split_operand_depth t path) (split_beside new d) E)
      as (m & t' & pre & post & Hm & -> & Hin & H1 & H2 & Hok). simpl.
    exists pre, (list_leaf_pane_ids m), post. rewrite split_beside_leaves in H2.
    split_and!; [done|done|done|]. intros Ht. apply Hok; [done|].
    apply split_beside_ok. exact (get_node_at_path_every _ t _ m Ht Hm).
  - split; [done|]. by apply find_pane_path_None, has_pane_false in E.
Qed.

(** ** Stacking panes *)

Lemma foldl_push_stack_member stack ps :
  foldl push_stack_member stack ps
  = MkSplitNode (direction stack) (children stack ++ (Pane <$> ps))
      (weights stack ++ replicate (length ps) default_size_weight) (active_child_index stack).
Proof.
  revert stack. induction ps as [|p ps IH]; intros stack; csimpl.
  { rewrite !app_nil_r. by destruct stack. }
  rewrite IH. unfold push_stack_member. simpl. by rewrite <- !app_assoc.
Qed.

Lemma leaves_of_panes (ps : list PaneId) : ((Pane <$> ps) ≫= list_leaf_pane_ids) = ps.
Proof. induction ps as [|p ps IH]; csimpl; [done|]. by rewrite IH. Qed.

Lemma push_members_leaves stack ps :
  list_leaf_pane_ids (Split (foldl push_stack_member stack ps))
  = list_leaf_pane_ids (Split stack) ++ ps.
Proof.
  rewrite foldl_push_stack_member, !list_leaf_pane_ids_Split. simpl.
  by rewrite bind_app, leaves_of_panes.
Qed.

Lemma panes_ok (ps : list PaneId) P : Forall (every_split P) (Pane <$> ps).
Proof. apply Forall_fmap, Forall_true. constructor. Qed.

Lemma push_members_ok stack ps :
  tree_ok (Split stack) -> tree_ok (Split (foldl push_stack_member stack ps)).
Proof.
  rewrite foldl_push_stack_member. intros [(H1 & H2 & H3 & H4) Hcs]%every_split_Split_inv.
  constructor; [|apply Forall_app; split; [done|apply panes_ok]].
  unfold has_children, has_parallel_weights, has_active_in_range in *. simpl.
  rewrite !length_app, length_replicate, length_fmap. split_and!; [|lia|lia|done].
  destruct (children stack); done.
Qed.

Lemma find_containing_stack_path_Some t p path :
  find_containing_stack_path t p = Some path ->
  exists pane_path depth stack, find_pane_path p t = Some pane_path /\ path = take depth pane_path
    /\ get_node_at_path t path = Some (Split stack) /\ direction stack = Stacked.
Proof.
  unfold find_containing_stack_path.
  intros (pane_path & Hp & (depth & Hd & [= <-])%bind_Some)%bind_Some.
  apply find_some in Hd as [_ Hd]. unfold is_stack_at_path in Hd.
  destruct (get_node_at_path t (take depth pane_path)) as [[q|stack]|] eqn:E; [done| |done].
  apply bool_decide_eq_true in Hd. exists pane_path, depth, stack. done.
Qed.

Lemma from_stacked_leaves ps active :
  list_leaf_pane_ids (Split (from_stacked_pane_ids ps active)) = ps.
Proof. rewrite list_leaf_pane_ids_Split. apply leaves_of_panes. Qed.

Lemma from_stacked_ok ps active : ps <> [] -> tree_ok (Split (from_stacked_pane_ids ps active)).
Proof.
  intros Hne. constructor; [|apply panes_ok].
  unfold has_children, has_parallel_weights, has_active_in_range, from_stacked_pane_ids. simpl.
  rewrite length_replicate, length_fmap.
  split_and!; [by destruct ps|done|destruct ps; [done|simpl; lia]|done].
Qed.

Lemma add_panes_to_stack_spec t anchor ps :
  match add_panes_to_stack t anchor ps with
  | None => False
  | Some (inl e) => e = SplitPaneNotFound anchor /\ anchor ∉ list_leaf_pane_ids t
  | Some (inr t') => exists pre block post,
      anchor ∈ block /\ list_leaf_pane_ids t = pre ++ block ++ post
      /\ list_leaf_pane_ids t' = pre ++ (block ++ ps) ++ post
      /\ (tree_ok t -> tree_ok t')
  end.
Proof.
  unfold add_panes_to_stack. destruct (has_pane anchor t) eqn:Eh; simpl;
    [|split; [done|by apply has_pane_false]].
  apply has_pane_iff in Eh. case_bool_decide as Hps.
  { subst ps. exists [], (list_leaf_pane_ids t), []. simpl. by rewrite !app_nil_r. }
  destruct (find_containing_stack_path t anchor) as [path|] eqn:Es.
  - apply find_containing_stack_path_Some in Es as (pp & depth & stack & Hp & -> & Hget & _).
    unfold get_split_at_path_mut. rewrite Hget.
    destruct (edit_on_path anchor t pp depth (fun _ => Split (foldl push_stack_member stack ps)) Hp)
      as (m & t' & pre & post & Hm & -> & Hin & H1 & H2 & Hok). simpl.
    rewrite Hget in Hm. injection Hm as <-. rewrite push_members_leaves in H2.
    exists pre, (list_leaf_pane_ids (Split stack)), post. split_and!; try done.
    intros Ht. apply Hok; [done|]. apply push_members_ok.
    exact (get_node_at_path_every _ t _ _ Ht Hget).
  - apply find_pane_path_is_Some in Eh as [pp Hp]. rewrite Hp. simpl.
    destruct (edit_on_path anchor t pp (length pp)
      (fun _ => Split (from_stacked_pane_ids (anchor :: ps) 0)) Hp)
      as (m & t' & pre & post & Hm & Ht' & Hin & H1 & H2 & Hok).
    rewrite take_ge in Hm, Ht' by done. rewrite Ht'. simpl.
    rewrite (find_pane_path_node _ _ _ Hp) in Hm. injection Hm as <-.
    rewrite from_stacked_leaves in H2. exists pre, [anchor], post. split_and!; try done.
    intros Ht. apply Hok; [done|by apply from_stacked_ok].
Qed.

(** ** Taking a pane out *)

Lemma remove_in_children_Some remove k cs i status c' :
  remove_in_children remove k cs = Some (i, status, c') ->
  exists j c, i = (k + j)%nat /\ cs !! j = Some c /\ remove c = (status, c')
    /\ status <> PaneNotFound
    /\ forall j' c0, (j' < j)%nat -> cs !! j' = Some c0 -> (remove c0).1 = PaneNotFound.
Proof.
  revert k. induction cs as [|c cs IH]; intros k; simpl; [done|].
  destruct (remove c) as [st cr] eqn:E.
  assert (st <> PaneNotFound -> Some (k, st, cr) = Some (i, status, c') ->
    exists j c1, i = (k + j)%nat /\ (c :: cs) !! j = Some c1 /\ remove c1 = (status, c')
      /\ status <> PaneNotFound
      /\ forall j' c0, (j' < j)%nat -> (c :: cs) !! j' = Some c0 -> (remove c0).1 = PaneNotFound)
    as Hhere.
  { intros Hst [= <- <- <-]. exists 0%nat, c. split_and!; [lia|done|done|done|]. intros; lia. }
  destruct st; [|by apply Hhere..].
  intros (j & c1 & -> & Hj & Hr & Hne & Hall)%IH. exists (S j), c1.
  split_and!; [lia|done|done|done|]. intros [|j'] c0 Hlt Hc0; simplify_eq/=; [by rewrite E|].
  eapply Hall; [|done]. lia.
Qed.

Lemma remove_in_children_None remove k cs :
  remove_in_children remove k cs = None <-> Forall (fun c => (remove c).1 = PaneNotFound) cs.
Proof.
  revert k. induction cs as [|c cs IH]; intros k; simpl; [split; [by constructor|done]|].
  rewrite Forall_cons. destruct (remove c) as [st cr]. simpl.
  destruct st; [rewrite IH; tauto|split; [done|by intros [? _]]..].
Qed.

(** What a removal does to the leaves, and to a well-formed tree. *)
Definition removal_spec (p : PaneId) (n : LayoutNode) (result : PaneRemovalStatus * LayoutNode)
    : Prop :=
  match result.1 with
  | PaneNotFound => p ∉ list_leaf_pane_ids n /\ result.2 = n
  | Removed => exists pre post, p ∉ pre /\ list_leaf_pane_ids n = pre ++ p :: post
      /\ list_leaf_pane_ids result.2 = pre ++ post /\ (tree_ok n -> tree_ok result.2)
  | SubtreeEmpty => list_leaf_pane_ids n = [p]
  end.

(** The leaves before the child in which the pane was found hold no [p]. *)
Lemma earlier_children_without p cs j :
  Forall (fun c => removal_spec p c (remove_leaf p c)) cs ->
  (forall j' c0, (j' < j)%nat -> cs !! j' = Some c0 -> (remove_leaf p c0).1 = PaneNotFound) ->
  p ∉ (take j cs ≫= list_leaf_pane_ids).
Proof.
  intros Hcs Hbefore (c & Hp & Hc)%list_elem_of_bind.
  apply list_elem_of_lookup in Hc as [i Hi]. apply lookup_take_Some in Hi as [Hi Hlt].
  rewrite Forall_lookup in Hcs. specialize (Hcs i c Hi). unfold removal_spec in Hcs.
  rewrite (Hbefore i c Hlt Hi) in Hcs. by destruct Hcs.
Qed.

Lemma set_active_child_after_removal_range s i :
  (i < S (length (children s)))%nat -> children s <> [] ->
  (active_child_index s < S (length (children s)))%nat ->
  (direction s <> Stacked -> active_child_index s = 0%nat) ->
  has_active_in_range (set_active_child_after_removal s i).
Proof.
  intros Hi Hne Hact Hdir. unfold has_active_in_range, set_active_child_after_removal. simpl.
  assert (0 < length (children s))%nat by (destruct (children s); [done|simpl; lia]).
  split; [lia|]. intros Hd. rewrite (Hdir Hd). by case_match.
Qed.

Lemma remove_leaf_spec p n : removal_spec p n (remove_leaf p n).
Proof.
  induction n as [q|s IH] using LayoutNode_tree_ind.
  { unfold removal_spec. simpl. destruct (q =? p) eqn:E; bools; rewrite list_leaf_pane_ids_Pane.
    - by subst.
    - split; [set_solver|done]. }
  simpl. destruct (remove_in_children _ _ _) as [[[i status] c']|] eqn:E.
  2: { apply remove_in_children_None in E. split; [|done]. simpl.
       rewrite elem_of_leaves_Split. intros (c & Hc & Hp).
       rewrite Forall_forall in IH. rewrite Forall_forall in E.
       specialize (IH c Hc). unfold removal_spec in IH. rewrite (E c Hc) in IH. by destruct IH. }
  apply remove_in_children_Some in E as (j & c & -> & Hj & Hr & Hne & Hbefore). simpl.
  pose proof (earlier_children_without p _ j IH Hbefore) as Hpre.
  pose proof (lookup_lt_Some _ _ _ Hj) as Hlt.
  assert (list_leaf_pane_ids (Split s) = (take j (children s) ≫= list_leaf_pane_ids)
    ++ list_leaf_pane_ids c ++ (drop (S j) (children s) ≫= list_leaf_pane_ids)) as Hleaves.
  { rewrite list_leaf_pane_ids_Split. rewrite <- (take_drop_middle _ _ _ Hj) at 1.
    by rewrite bind_app. }
  rewrite Forall_lookup in IH. specialize (IH j c Hj). unfold removal_spec in IH.
  rewrite Hr in IH. simpl in IH. destruct status; [done| |].
  - destruct IH as (pre & post & H1 & H2 & H3 & H4).
    exists ((take j (children s) ≫= list_leaf_pane_ids) ++ pre),
      (post ++ (drop (S j) (children s) ≫= list_leaf_pane_ids)).
    rewrite Hleaves, H2. split_and!; [set_solver|by rewrite <- !app_assoc| |].
    + simpl. rewrite list_leaf_pane_ids_Split. simpl.
      rewrite insert_take_drop, bind_app by done. simpl. rewrite H3. by rewrite <- !app_assoc.
    + intros [Hs Hcs]%every_split_Split_inv. constructor.
      * by apply tree_ok_reads_shape_only; [rewrite length_insert|].
      * apply Forall_insert; [done|]. apply H4. rewrite Forall_lookup in Hcs. by eapply Hcs.
  - case_bool_decide as Hempty; unfold removal_spec; simpl in *.
    + rewrite Hleaves, IH. rewrite delete_take_drop in Hempty.
      apply app_eq_nil in Hempty as [-> ->]. done.
    + exists (take j (children s) ≫= list_leaf_pane_ids),
        (drop (S j) (children s) ≫= list_leaf_pane_ids).
      rewrite Hleaves, IH. split_and!; [done|done| |].
      * rewrite list_leaf_pane_ids_Split. simpl. by rewrite delete_take_drop, bind_app.
      * intros [(H1 & H2 & H3 & H4)%id Hcs]%every_split_Split_inv.
        unfold has_parallel_weights in H2. rewrite (proj2 (Nat.ltb_lt _ _)) in * by lia.
        pose proof (length_delete (children s) j ltac:(eauto)) as Hdl.
        pose proof (length_delete (weights s) j ltac:(apply lookup_lt_is_Some_2; lia)) as Hdw.
        constructor.
        -- split; [done|]. split; [unfold has_parallel_weights; simpl; lia|].
           apply set_active_child_after_removal_range; simpl; [lia|done|lia|done].
        -- simpl. rewrite delete_take_drop. apply Forall_app. split;
             [by apply Forall_take|by apply Forall_drop].
Qed.

Lemma remove_pane_spec t p :
  match remove_pane t p with
  | inl (RemovePaneNotFound q) => q = p /\ p ∉ list_leaf_pane_ids t
  | inl (LastPane q) => q = p /\ list_leaf_pane_ids t = [p]
  | inr t' => exists pre post, p ∉ pre /\ list_leaf_pane_ids t = pre ++ p :: post
      /\ list_leaf_pane_ids t' = pre ++ post /\ list_leaf_pane_ids t' <> []
      /\ (tree_ok t -> tree_ok t')
  end.
Proof.
  unfold remove_pane. pose proof (remove_leaf_spec p t) as H. unfold removal_spec in H.
  destruct (remove_leaf p t) as [[] t']; simpl in H; [tauto| |done].
  destruct H as (pre & post & H1 & H2 & H3 & H4). case_bool_decide as He.
  - split; [done|]. rewrite H3 in He. apply app_eq_nil in He as [-> ->]. done.
  - exists pre, post. done.
Qed.

(** ** Properties *)

(** A split fails exactly when its target is not a leaf, and never walks
    off the tree. On success the new pane stands beside the operand, a block
    of leaves that holds the target: after it for [Right] and [Down], before
    it for [Left] and [Up]; every other leaf keeps its place, and a
    well-formed tree stays well-formed. *)
Theorem split_adds_beside_target t target new d :
  match split_leaf t target new d with
  | None => False
  | Some (inl e) => e = SplitPaneNotFound target /\ target ∉ list_leaf_pane_ids t
  | Some (inr t') => exists pre block post,
      target ∈ block
      /\ list_leaf_pane_ids t = pre ++ block ++ post
      /\ list_leaf_pane_ids t'
         = pre ++ (match d with Right | Down => block ++ [new] | Left | Up => new :: block end) ++ post
      /\ (tree_ok t -> tree_ok t')
  end.
Proof. apply split_leaf_spec. Qed.

(** Stacking fails exactly when the anchor is not a leaf, and never walks
    off the tree. On success the new panes stand in the order given directly
    after a block of leaves that holds the anchor; every other leaf keeps its
    place, and a well-formed tree stays well-formed. *)
Theorem stacking_appends_members t anchor ps :
  match add_panes_to_stack t anchor ps with
  | None => False
  | Some (inl e) => e = SplitPaneNotFound anchor /\ anchor ∉ list_leaf_pane_ids t
  | Some (inr t') => exists pre block post,
      anchor ∈ block /\ list_leaf_pane_ids t = pre ++ block ++ post
      /\ list_leaf_pane_ids t' = pre ++ (block ++ ps) ++ post
      /\ (tree_ok t -> tree_ok t')
  end.
Proof. apply add_panes_to_stack_spec. Qed.

(** A removal takes exactly one leaf out, the first that holds the pane,
    and keeps the order of the others. It fails with [PaneNotFound] exactly
    when no leaf holds the pane and with [LastPane] exactly when it is the
    only leaf; a well-formed tree stays well-formed, so no emptied split is
    left behind. *)
Theorem remove_takes_one_leaf t p :
  match remove_pane t p with
  | inl (RemovePaneNotFound q) => q = p /\ p ∉ list_leaf_pane_ids t
  | inl (LastPane q) => q = p /\ list_leaf_pane_ids t = [p]
  | inr t' => exists pre post, p ∉ pre /\ list_leaf_pane_ids t = pre ++ p :: post
      /\ list_leaf_pane_ids t' = pre ++ post /\ list_leaf_pane_ids t' <> []
      /\ (tree_ok t -> tree_ok t')
  end.
Proof. apply remove_pane_spec. Qed.

(** After the child at [i] of a stack is removed, another member that was
    active stays the active one; removing the active member activates the one
    that slid into its place, or the last member when there is none. *)
Theorem removal_keeps_active_member s i :
  (i < length (children s))%nat -> (active_child_index s < length (children s))%nat ->
  delete i (children s) <> [] ->
  let s' := set_active_child_after_removal
    (MkSplitNode (direction s) (delete i (children s)) (delete i (weights s))
       (active_child_index s)) i in
  (i <> active_child_index s ->
     children s' !! get_active_child_index s' = children s !! active_child_index s)
  /\ (i = active_child_index s -> (S i < length (children s))%nat ->
     children s' !! get_active_child_index s' = children s !! S i)
  /\ (i = active_child_index s -> S i = length (children s) ->
     S (get_active_child_index s') = length (children s')).
Proof.
  intros Hi Ha Hne s'. subst s'. unfold get_active_child_index, set_active_child_after_removal.
  simpl. pose proof (length_delete (children s) i ltac:(by apply lookup_lt_is_Some_2)) as Hl.
  assert (0 < length (delete i (children s)))%nat by (destruct (delete i (children s)); [done|simpl; lia]).
  destruct (i <? active_child_index s)%nat eqn:E; bools.
  - split_and!; [|lia..]. intros _. rewrite list_lookup_delete_ge by lia. f_equal. lia.
  - split_and!.
    + intros Hia. rewrite list_lookup_delete_lt by lia. f_equal. lia.
    + intros -> Hlast. rewrite list_lookup_delete_ge by lia. f_equal. lia.
    + lia.
Qed.

Lemma removal_keeps_active_member_witness :
  let s := from_stacked_pane_ids [1; 2; 3] 2 in
  let s' := set_active_child_after_removal
    (MkSplitNode (direction s) (delete 0%nat (children s)) (delete 0%nat (weights s))
       (active_child_index s)) 0 in
  children s' !! get_active_child_index s' = Some (Pane 3).
Proof.
  refine (proj1 (removal_keeps_active_member (from_stacked_pane_ids [1; 2; 3] 2) 0 _ _ _) _);
    vm_compute; [lia|lia|discriminate|discriminate].
Defined.

(** Removing a pane and normalizing keeps exactly the other leaves in
    order, in a canonical tree; the fallback to the unnormalized tree is never
    taken. *)
Theorem remove_and_normalize_is_canonical t p t' :
  remove_pane_and_normalize t p = inr t' ->
  canonical t' /\ exists pre post, p ∉ pre /\ list_leaf_pane_ids t = pre ++ p :: post
    /\ list_leaf_pane_ids t' = pre ++ post.
Proof.
  unfold remove_pane_and_normalize. pose proof (remove_pane_spec t p) as H.
  destruct (remove_pane t p) as [e|t1]; [done|]. intros [= <-].
  destruct H as (pre & post & H1 & H2 & H3 & H4 & _).
  set (live := list_to_set (list_leaf_pane_ids t1) : gset PaneId).
  pose proof (normalize_layout_tree_spec t1 live) as Hn.
  assert (filter (.∈ live) (list_leaf_pane_ids t1) = list_leaf_pane_ids t1) as Hall.
  { apply list_filter_all. intros q Hq. unfold live. by apply elem_of_list_to_set. }
  rewrite Hall in Hn. destruct (normalize_layout_tree t1 live) as [t2|]; simpl; [|done].
  destruct Hn as [Hc Hl]. split; [done|]. exists pre, post. split_and!; [done|done|congruence].
Qed.

Lemma remove_and_normalize_is_canonical_witness :
  canonical (Split (with_equal_weights Horizontal [Pane 1; Pane 2])).
Proof.
  apply (remove_and_normalize_is_canonical
    (Split (with_equal_weights Horizontal
       [Pane 1; Split (with_equal_weights Vertical [Pane 2; Pane 3])])) 3).
  vm_compute. reflexivity.
Defined.
