(* ===== verification/Template.v ===== *)
(** * Layout templates ([crates/koshi-layout/src/template.rs])

    A pane arrangement described before any pane exists: a layout tree whose
    leaves say what to spawn. Building it fills the leaves with pane ids in
    layout order. What a leaf spawns is opaque to the algorithms, so the trees
    are polymorphic in it and [TerminalTemplate] is the source's record. *)

From S2P Require Import Prelude Geometry Size Tree.
From stdpp Require Import strings.
From stdpp Require Import options.

(** ** Data *)

(** Paths and strings are kept as strings, the ordered map of environment
    variables as a finite map. *)
Record CommandTemplate := MkCommandTemplate { program : string; arguments : list string }.

Record TerminalTemplate := MkTerminalTemplate
  { command : option CommandTemplate;
    working_directory : option string;
    environment_variables : gmap string string }.

(** [TemplateSplit] mirrors [SplitNode] field for field. *)
Inductive TemplateNode :=
  | Leaf (terminal_template : TerminalTemplate)
  | TemplateSplit (template_split : SplitNodeOf TemplateNode).

Record TabTemplate := MkTabTemplate { root : TemplateNode; focused_leaf_index : nat }.

Record ProfileTemplate := MkProfileTemplate
  { tabs : list TabTemplate; focused_tab_index : nat; is_locked : bool }.

Inductive TemplateError :=
  | PaneCountMismatch (expected_leaf_count provided_pane_id_count : nat).

Section TemplateNode_induction.
Context (P : TemplateNode -> Prop).
Context (HLeaf : forall t, P (Leaf t)).
Context (HSplit : forall s, Forall P (children s) -> P (TemplateSplit s)).

Fixpoint TemplateNode_tree_ind (n : TemplateNode) : P n :=
  match n with
  | Leaf t => HLeaf t
  | TemplateSplit s =>
      HSplit s ((fix go (cs : list TemplateNode) : Forall P cs :=
        match cs with
        | [] => Forall_nil_2 P
        | c :: cs' => Forall_cons_2 P c cs' (TemplateNode_tree_ind c) (go cs')
        end) (children s))
  end.
End TemplateNode_induction.

(** ** Operations *)

Fixpoint append_leaf_templates (n : TemplateNode) (leaf_templates : list TerminalTemplate)
    : list TerminalTemplate :=
  match n with
  | Leaf t => leaf_templates ++ [t]
  | TemplateSplit s => foldl (fun acc c => append_leaf_templates c acc) leaf_templates (children s)
  end.

Definition list_leaf_templates (n : TemplateNode) : list TerminalTemplate :=
  append_leaf_templates n [].

Fixpoint count_leaf_templates (n : TemplateNode) : nat :=
  match n with
  | Leaf _ => 1
  | TemplateSplit s => list_sum (map count_leaf_templates (children s))
  end.

Fixpoint find_first_visible_leaf_index (n : TemplateNode) : nat :=
  match n with
  | Leaf _ => 0%nat
  | TemplateSplit s =>
      let active :=
        match direction s with
        | Stacked => (active_child_index s `min` (length (children s) - 1))%nat
        | Horizontal | Vertical => 0%nat
        end in
      match map find_first_visible_leaf_index (children s) !! active with
      | None => 0%nat
      | Some inner =>
          (list_sum (map count_leaf_templates (take active (children s))) + inner)%nat
      end
  end.

(** The loop of [build_layout_subtree] over the children, threading
    [next_pane_id_index]; indexing past [pane_ids] panics ([None]). *)
Section build_children.
Context (build : TemplateNode -> nat -> option (LayoutNode * nat)).

Fixpoint build_children (cs : list TemplateNode) (next_pane_id_index : nat)
    : option (list LayoutNode * nat) :=
  match cs with
  | [] => Some ([], next_pane_id_index)
  | c :: cs' =>
      '(node, next1) ← build c next_pane_id_index;
      '(nodes, next2) ← build_children cs' next1;
      Some (node :: nodes, next2)
  end.
End build_children.

Fixpoint build_layout_subtree (pane_ids : list PaneId) (n : TemplateNode)
    (next_pane_id_index : nat) : option (LayoutNode * nat) :=
  match n with
  | Leaf _ =>
      pane_id ← pane_ids !! next_pane_id_index;
      Some (Pane pane_id, S next_pane_id_index)
  | TemplateSplit s =>
      '(layout_child_nodes, next) ←
        build_children (build_layout_subtree pane_ids) (children s) next_pane_id_index;
      Some (Split (MkSplitNode (direction s) layout_child_nodes (weights s)
                     (active_child_index s)), next)
  end.

Definition build_layout_node (n : TemplateNode) (pane_ids : list PaneId)
    : option (TemplateError + LayoutNode) :=
  let expected_leaf_count := count_leaf_templates n in
  if negb (length pane_ids =? expected_leaf_count)%nat
  then Some (inl (PaneCountMismatch expected_leaf_count (length pane_ids)))
  else inr ∘ fst <$> build_layout_subtree pane_ids n 0.

(** ** Lemmas *)

Lemma append_leaf_templates_acc n acc :
  append_leaf_templates n acc = acc ++ list_leaf_templates n.
Proof.
  unfold list_leaf_templates. revert acc.
  induction n as [t|s IH] using TemplateNode_tree_ind; intros acc; [done|]. simpl.
  assert (forall acc, foldl (fun acc c => append_leaf_templates c acc) acc (children s)
            = acc ++ foldl (fun acc c => append_leaf_templates c acc) [] (children s)) as H; [|done].
  clear acc. induction IH as [|c cs Hc _ IHcs]; intros acc; simpl; [by rewrite app_nil_r|].
  rewrite IHcs, (IHcs (append_leaf_templates c [])), (Hc acc). by rewrite app_assoc.
Qed.

Lemma list_leaf_templates_Split s :
  list_leaf_templates (TemplateSplit s) = children s ≫= list_leaf_templates.
Proof.
  unfold list_leaf_templates at 1. simpl.
  assert (forall acc, foldl (fun acc c => append_leaf_templates c acc) acc (children s)
            = acc ++ (children s ≫= list_leaf_templates)) as H; [|apply H].
  induction (children s) as [|c cs IH]; intros acc; simpl; [by rewrite app_nil_r|].
  by rewrite IH, append_leaf_templates_acc, app_assoc.
Qed.

Lemma count_leaf_templates_eq n : count_leaf_templates n = length (list_leaf_templates n).
Proof.
  induction n as [t|s IH] using TemplateNode_tree_ind; [done|].
  rewrite list_leaf_templates_Split. simpl.
  induction IH as [|c cs Hc _ IHcs]; simpl; [done|]. by rewrite length_app, Hc, IHcs.
Qed.

(** The layout tree [n] describes, shape and weights alike. *)
Fixpoint same_shape (n : TemplateNode) (m : LayoutNode) {struct n} : Prop :=
  match n, m with
  | Leaf _, Pane _ => True
  | TemplateSplit s, Split s' =>
      direction s = direction s' /\ weights s = weights s'
      /\ active_child_index s = active_child_index s'
      /\ (fix go (cs : list TemplateNode) (cs' : list LayoutNode) {struct cs} : Prop :=
            match cs, cs' with
            | [], [] => True
            | c :: cs, c' :: cs' => same_shape c c' /\ go cs cs'
            | _, _ => False
            end) (children s) (children s')
  | _, _ => False
  end.

Lemma build_layout_subtree_spec ids n k :
  (k + count_leaf_templates n <= length ids)%nat ->
  exists m, build_layout_subtree ids n k = Some (m, (k + count_leaf_templates n)%nat)
    /\ list_leaf_pane_ids m = take (count_leaf_templates n) (drop k ids)
    /\ same_shape n m.
Proof.
  revert k. induction n as [t|s IH] using TemplateNode_tree_ind; intros k Hk.
  { simpl in *. destruct (lookup_lt_is_Some_2 ids k ltac:(lia)) as [p Hp].
    exists (Pane p). rewrite Hp, (drop_S _ _ _ Hp). simpl.
    by rewrite Nat.add_1_r, list_leaf_pane_ids_Pane, firstn_O. }
  simpl in *.
  assert (exists ms, build_children (build_layout_subtree ids) (children s) k
      = Some (ms, (k + list_sum (map count_leaf_templates (children s)))%nat)
    /\ (ms ≫= list_leaf_pane_ids)
       = take (list_sum (map count_leaf_templates (children s))) (drop k ids)
    /\ (fix go (cs : list TemplateNode) (cs' : list LayoutNode) {struct cs} : Prop :=
            match cs, cs' with
            | [], [] => True
            | c :: cs, c' :: cs' => same_shape c c' /\ go cs cs'
            | _, _ => False
            end) (children s) ms) as (ms & -> & Hl & Hshape).
  { revert k Hk. induction IH as [|c cs Hc _ IHcs]; intros k Hk; simpl in *.
    { exists []. by rewrite Nat.add_0_r. }
    destruct (Hc k ltac:(lia)) as (m & -> & Hm & Hs). simpl.
    destruct (IHcs (k + count_leaf_templates c)%nat ltac:(lia)) as (ms & -> & Hms & Hss). simpl.
    exists (m :: ms). split_and!; [do 2 f_equal; lia| |done|done].
    rewrite <- take_take_drop, drop_drop. csimpl. by rewrite Hm, Hms. }
  simpl. eexists. split; [done|]. rewrite list_leaf_pane_ids_Split. done.
Qed.

(** The first visible leaf, by walking: the expanded member of a stack, the
    first child of a directional split. *)
Inductive first_visible : TemplateNode -> list TerminalTemplate -> TerminalTemplate -> Prop :=
  | first_visible_leaf t : first_visible (Leaf t) [] t
  | first_visible_split s c before t :
      children s !! (if bool_decide (direction s = Stacked) then get_active_child_index s else 0%nat)
        = Some c ->
      first_visible c before t ->
      first_visible (TemplateSplit s)
        ((take (if bool_decide (direction s = Stacked) then get_active_child_index s else 0%nat)
            (children s) ≫= list_leaf_templates) ++ before) t.

Lemma list_sum_leaf_counts cs :
  list_sum (map count_leaf_templates cs) = length (cs ≫= list_leaf_templates).
Proof.
  induction cs as [|c cs IH]; simpl; [done|]. by rewrite length_app, IH, count_leaf_templates_eq.
Qed.

Lemma first_visible_index n before t :
  first_visible n before t ->
  find_first_visible_leaf_index n = length before
  /\ exists after, list_leaf_templates n = before ++ t :: after.
Proof.
  induction 1 as [t|s c before t Hc _ [IH1 (after & IH2)]]; [by split; [|exists []]|].
  set (active := if bool_decide (direction s = Stacked) then get_active_child_index s else 0%nat) in *.
  split.
  - simpl. assert ((match direction s with
      | Stacked => (active_child_index s `min` (length (children s) - 1))%nat
      | _ => 0%nat end) = active) as -> by (unfold active; by destruct (direction s)).
    change (map find_first_visible_leaf_index (children s))
      with (find_first_visible_leaf_index <$> children s). rewrite list_lookup_fmap, Hc. simpl. by rewrite list_sum_leaf_counts, length_app, IH1.
  - exists (after ++ (drop (S active) (children s) ≫= list_leaf_templates)).
    rewrite list_leaf_templates_Split. rewrite <- (take_drop_middle _ _ _ Hc) at 1.
    rewrite bind_app. csimpl. rewrite IH2. by rewrite <- !app_assoc.
Qed.

(** ** Properties *)

(** Building a template fails exactly when there is not one id per leaf,
    never indexes past the ids, and gives the template's tree (directions,
    weights and expanded members) with the ids as its leaves in layout
    order. *)
Theorem build_fills_the_leaves n ids :
  match build_layout_node n ids with
  | None => False
  | Some (inl e) =>
      e = PaneCountMismatch (length (list_leaf_templates n)) (length ids)
      /\ length ids <> length (list_leaf_templates n)
  | Some (inr m) =>
      length ids = length (list_leaf_templates n)
      /\ list_leaf_pane_ids m = ids /\ same_shape n m
  end.
Proof.
  unfold build_layout_node. rewrite <- count_leaf_templates_eq.
  destruct (length ids =? count_leaf_templates n)%nat eqn:E; bools; simpl; [|done].
  destruct (build_layout_subtree_spec ids n 0 ltac:(lia)) as (m & -> & Hm & Hs). simpl.
  split_and!; [done| |done]. rewrite Hm. simpl. apply take_ge. lia.
Qed.

(** The focused leaf of a fresh tab shows: the index the template gives is
    the number of leaves before the one the walk through expanded members
    reaches, and that leaf stands at that index. *)
Theorem first_visible_leaf_is_shown n before t :
  first_visible n before t ->
  find_first_visible_leaf_index n = length before
  /\ list_leaf_templates n !! find_first_visible_leaf_index n = Some t.
Proof.
  intros H. destruct (first_visible_index n before t H) as [-> (after & ->)].
  split; [done|]. by apply list_lookup_middle.
Qed.

Definition example_terminal (name : string) : TerminalTemplate :=
  MkTerminalTemplate (Some (MkCommandTemplate name [])) None ∅.
Definition example_stack : SplitNodeOf TemplateNode :=
  MkSplitNode Stacked [Leaf (example_terminal "a"); Leaf (example_terminal "b")]
    [default_size_weight; default_size_weight] 1.
Definition example_root : SplitNodeOf TemplateNode :=
  MkSplitNode Horizontal [TemplateSplit example_stack; Leaf (example_terminal "c")]
    [default_size_weight; default_size_weight] 0.

Lemma first_visible_leaf_is_shown_witness :
  find_first_visible_leaf_index (TemplateSplit example_root) = 1%nat.
Proof.
  refine (proj1 (first_visible_leaf_is_shown (TemplateSplit example_root) [example_terminal "a"]
    (example_terminal "b") _)).
  refine (first_visible_split example_root (TemplateSplit example_stack) [example_terminal "a"]
    (example_terminal "b") eq_refl _).
  exact (first_visible_split example_stack (Leaf (example_terminal "b")) []
    (example_terminal "b") eq_refl (first_visible_leaf _)).
Defined.
