(* ===== verification/Placement.v ===== *)
(** * Pane placement ([crates/koshi-layout/src/placement.rs], with the anchors
    of [crates/koshi-core/src/command.rs])

    Moving one pane to another slot: a swap of two leaves, an insertion beside
    a span, a stacking onto a pane; within one tree, across two tabs, or of a
    whole docking tree. The edits are checked against the minimum size of the
    tree they give. *)

From stdpp Require Import sorting.
From S2P Require Import Prelude Geometry Size Tree Distribute Solver Normalize Edit.
From stdpp Require Import options.

(** ** Data *)

Inductive PanePlacementAnchor :=
  | AnchorPane (pane_id : PaneId)
  | AnchorGroup (pane_ids : list PaneId)
  | AnchorTab.

Inductive PlacementTarget :=
  | Swap (target_pane_id : PaneId)
  | Insert (anchor : PanePlacementAnchor) (d : Direction)
  | Stack (target_pane_id : PaneId).

Inductive TiledPlacementTarget :=
  | TiledSwap (target_pane_id : PaneId)
  | TiledSplit (destination_tab_id : N) (anchor : PanePlacementAnchor) (d : Direction)
  | TiledStack (target_pane_id : PaneId).

Inductive PlacementError :=
  | SourcePaneNotFound (pane_id : PaneId)
  | TargetPaneNotFound (pane_id : PaneId)
  | AnchorIsSource (pane_id : PaneId)
  | GroupPaneDuplicated (pane_id : PaneId)
  | GroupIsNotOneSubtree (pane_ids : list PaneId)
  | AnchorInsideStack (stack_pane_ids : list PaneId)
  | PaneInBothTrees (pane_id : PaneId)
  | DestinationTooSmall (required_size : RequiredSize) (available_size : Size).

Record CrossTabPlacement := MkCrossTabPlacement
  { source_tree : option LayoutNode; destination_tree : LayoutNode }.

Record PlacedTabSolve := MkPlacedTabSolve
  { placed_focus_history : list PaneId; placed_layout_solve : LayoutSolve }.

#[export] Instance PanePlacementAnchor_eq_dec : EqDecision PanePlacementAnchor.
Proof. solve_decision. Defined.
#[export] Instance PlacementError_eq_dec : EqDecision PlacementError.
Proof. solve_decision. Defined.

Abbreviation placement := (outcome PlacementError).

Definition from_tiled_placement_target (t : TiledPlacementTarget) : PlacementTarget :=
  match t with
  | TiledSwap p => Swap p
  | TiledSplit _ anchor d => Insert anchor d
  | TiledStack p => Stack p
  end.

(** ** Resolving an anchor *)

(** [sort_unstable] on pane ids. *)
Definition sort_pane_ids (pane_ids : list PaneId) : list PaneId := merge_sort N.le pane_ids.

Fixpoint find_split_in_subtree (wanted_pane_ids : list PaneId) (n : LayoutNode)
    : option (list nat) :=
  let leaf_pane_ids := list_leaf_pane_ids n in
  if (length leaf_pane_ids =? length wanted_pane_ids)%nat
     && bool_decide (sort_pane_ids leaf_pane_ids = wanted_pane_ids)
  then Some []
  else
    match n with
    | Pane _ => None
    | Split s => find_child_path (find_split_in_subtree wanted_pane_ids) 0 (children s)
    end.

Definition find_split_path_by_leaf_set (layout_tree : LayoutNode) (pane_ids : list PaneId)
    : option (list nat) :=
  find_split_in_subtree (sort_pane_ids pane_ids) layout_tree.

Definition find_outermost_stack_above (layout_tree : LayoutNode) (node_path : list nat)
    : option (list PaneId) :=
  find_map (fun ancestor_depth =>
    match get_node_at_path layout_tree (take ancestor_depth node_path) with
    | Some (Split s) =>
        if bool_decide (direction s = Stacked) then Some (list_leaf_pane_ids (Split s)) else None
    | _ => None
    end) (range (length node_path)).

(** The loop over the ids of a group, with the ids seen so far. *)
Fixpoint check_group_pane_ids (layout_tree : LayoutNode) (seen_pane_ids : gset PaneId)
    (group_pane_ids : list PaneId) : option PlacementError :=
  match group_pane_ids with
  | [] => None
  | p :: rest =>
      if bool_decide (p ∈ seen_pane_ids) then Some (GroupPaneDuplicated p)
      else if negb (has_pane p layout_tree) then Some (TargetPaneNotFound p)
      else check_group_pane_ids layout_tree ({[p]} ∪ seen_pane_ids) rest
  end.

Definition find_group_anchor_path (layout_tree : LayoutNode) (source_pane_id : PaneId)
    (group_pane_ids : list PaneId) : placement (list nat) :=
  if bool_decide (group_pane_ids = []) then failed (GroupIsNotOneSubtree [])
  else
    match check_group_pane_ids layout_tree ∅ group_pane_ids with
    | Some e => failed e
    | None =>
        if forallb (fun p => p =? source_pane_id) group_pane_ids
        then failed (AnchorIsSource source_pane_id)
        else ok_or (find_split_path_by_leaf_set layout_tree group_pane_ids)
               (GroupIsNotOneSubtree group_pane_ids)
    end.

Definition validate_placement_anchor (layout_tree : LayoutNode) (source_pane_id : PaneId)
    (placement_anchor : PanePlacementAnchor) : placement unit :=
  let check (path : placement (list nat)) : placement unit :=
    placement_anchor_path ← path;
    match find_outermost_stack_above layout_tree placement_anchor_path with
    | Some stack_pane_ids => failed (AnchorInsideStack stack_pane_ids)
    | None => ok tt
    end in
  match placement_anchor with
  | AnchorTab => ok tt
  | AnchorPane anchor_pane_id =>
      if anchor_pane_id =? source_pane_id then failed (AnchorIsSource source_pane_id)
      else check (ok_or (find_pane_path anchor_pane_id layout_tree)
                    (TargetPaneNotFound anchor_pane_id))
  | AnchorGroup group_pane_ids =>
      check (find_group_anchor_path layout_tree source_pane_id group_pane_ids)
  end.

(** ** The edits *)

Definition normalize_all_leaves (layout_tree : LayoutNode) : placement LayoutNode :=
  let live_pane_ids : gset PaneId := list_to_set (list_leaf_pane_ids layout_tree) in
  expect (normalize_layout_tree layout_tree live_pane_ids).

Definition validate_layout_fit (layout_tree : LayoutNode) (tab_rect : Rect)
    (pane_sizing : PaneSizing) : placement LayoutNode :=
  if negb (is_layout_within_rect layout_tree tab_rect pane_sizing)
  then failed (DestinationTooSmall (compute_minimum_size pane_sizing layout_tree) (size tab_rect))
  else ok layout_tree.

(** The split that stands where the anchor stood. *)
Definition split_with_inserted (inserted_node : LayoutNode) (d : Direction)
    (placement_anchor_subtree : LayoutNode) : LayoutNode :=
  let split_children :=
    match d with
    | Right | Down => [placement_anchor_subtree; inserted_node]
    | Left | Up => [inserted_node; placement_anchor_subtree]
    end in
  Split (with_equal_weights (compute_split_direction d) split_children).

Definition find_anchor_path (layout_tree inserted_node : LayoutNode)
    (placement_anchor : PanePlacementAnchor) : option (list nat) :=
  match placement_anchor with
  | AnchorTab => Some []
  | AnchorPane anchor_pane_id => find_pane_path anchor_pane_id layout_tree
  | AnchorGroup group_pane_ids =>
      find_split_path_by_leaf_set layout_tree
        (List.filter (fun p => negb (has_pane p inserted_node)) group_pane_ids)
  end.

Definition insert_layout_node_beside_anchor (layout_tree inserted_node : LayoutNode)
    (placement_anchor : PanePlacementAnchor) (d : Direction) : placement LayoutNode :=
  placement_anchor_path ← (expect (find_anchor_path layout_tree inserted_node placement_anchor)
                            : placement (list nat));
  edited ← (expect (get_node_at_path_mut layout_tree placement_anchor_path
                      (split_with_inserted inserted_node d)) : placement LayoutNode);
  normalize_all_leaves edited.

Definition stack_panes_onto_target (layout_tree : LayoutNode) (source_pane_ids : list PaneId)
    (target_pane_id : PaneId) : placement LayoutNode :=
  stacked_layout_tree ←
    map_err (fun _ => TargetPaneNotFound target_pane_id)
      (add_panes_to_stack layout_tree target_pane_id source_pane_ids);
  normalize_all_leaves stacked_layout_tree.

(** The write of a leaf through [get_node_at_path_mut]. *)
Definition write_leaf (layout_tree : LayoutNode) (path : list nat) (pane_id : PaneId)
    : placement LayoutNode :=
  expect (get_node_at_path_mut layout_tree path (fun _ => Pane pane_id)).

Definition place_pane_within_tree (layout_tree : LayoutNode) (source_pane_id : PaneId)
    (placement_target : PlacementTarget) (layout_rect : Rect) (pane_sizing : PaneSizing)
    : placement LayoutNode :=
  source_pane_path ← ok_or (find_pane_path source_pane_id layout_tree)
    (SourcePaneNotFound source_pane_id);
  match placement_target with
  | Swap target_pane_id =>
      if target_pane_id =? source_pane_id then ok layout_tree
      else
        target_pane_path ← ok_or (find_pane_path target_pane_id layout_tree)
          (TargetPaneNotFound target_pane_id);
        tree1 ← write_leaf layout_tree source_pane_path target_pane_id;
        swapped_layout_tree ← write_leaf tree1 target_pane_path source_pane_id;
        validate_layout_fit swapped_layout_tree layout_rect pane_sizing
  | Insert placement_anchor d =>
      _ ← validate_placement_anchor layout_tree source_pane_id placement_anchor;
      match remove_leaf source_pane_id layout_tree with
      | (Removed, removed_layout_tree) =>
          inserted_layout_tree ← insert_layout_node_beside_anchor removed_layout_tree
            (Pane source_pane_id) placement_anchor d;
          validate_layout_fit inserted_layout_tree layout_rect pane_sizing
      | (SubtreeEmpty, _) => ok (Pane source_pane_id)
      | (PaneNotFound, _) => panicked
      end
  | Stack target_pane_id =>
      if target_pane_id =? source_pane_id then ok layout_tree
      else if negb (has_pane target_pane_id layout_tree)
      then failed (TargetPaneNotFound target_pane_id)
      else
        match remove_leaf source_pane_id layout_tree with
        | (Removed, removed_layout_tree) =>
            stacked_layout_tree ←
              stack_panes_onto_target removed_layout_tree [source_pane_id] target_pane_id;
            validate_layout_fit stacked_layout_tree layout_rect pane_sizing
        | _ => panicked
        end
  end.

Definition is_same_tab_placement_noop (layout_tree : LayoutNode) (source_pane_id : PaneId)
    (placement_target : PlacementTarget) (tab_rect : Rect) (pane_sizing : PaneSizing) : bool :=
  bool_decide (place_pane_within_tree layout_tree source_pane_id placement_target tab_rect
                 pane_sizing = ok layout_tree).

Definition remove_source_leaf (tree : LayoutNode) (source_pane_id : PaneId)
    : placement (option LayoutNode) :=
  match remove_pane_and_normalize tree source_pane_id with
  | inr remaining_source_tree => ok (Some remaining_source_tree)
  | inl (LastPane _) => ok None
  | inl (RemovePaneNotFound _) => panicked
  end.

Definition place_pane_across_tabs (source : LayoutNode) (source_pane_id : PaneId)
    (destination : LayoutNode) (placement_target : PlacementTarget)
    (destination_tab_rect : Rect) (pane_sizing : PaneSizing) : placement CrossTabPlacement :=
  if has_pane source_pane_id destination then failed (PaneInBothTrees source_pane_id)
  else
    source_pane_path ← ok_or (find_pane_path source_pane_id source)
      (SourcePaneNotFound source_pane_id);
    match placement_target with
    | Swap target_pane_id =>
        if has_pane target_pane_id source then failed (PaneInBothTrees target_pane_id)
        else
          target_pane_path ← ok_or (find_pane_path target_pane_id destination)
            (TargetPaneNotFound target_pane_id);
          swapped_source_tree ← write_leaf source source_pane_path target_pane_id;
          swapped_destination_tree ← write_leaf destination target_pane_path source_pane_id;
          fitting ← validate_layout_fit swapped_destination_tree destination_tab_rect pane_sizing;
          ok (MkCrossTabPlacement (Some swapped_source_tree) fitting)
    | Insert placement_anchor d =>
        _ ← validate_placement_anchor destination source_pane_id placement_anchor;
        remaining_source_tree ← remove_source_leaf source source_pane_id;
        inserted_layout_tree ← insert_layout_node_beside_anchor destination (Pane source_pane_id)
          placement_anchor d;
        fitting ← validate_layout_fit inserted_layout_tree destination_tab_rect pane_sizing;
        ok (MkCrossTabPlacement remaining_source_tree fitting)
    | Stack target_pane_id =>
        stacked_layout_tree ← stack_panes_onto_target destination [source_pane_id] target_pane_id;
        remaining_source_tree ← remove_source_leaf source source_pane_id;
        fitting ← validate_layout_fit stacked_layout_tree destination_tab_rect pane_sizing;
        ok (MkCrossTabPlacement remaining_source_tree fitting)
    end.

Definition place_docking_tree_in_tab (layout_tree docking_tree : LayoutNode)
    (placement_target : PlacementTarget) (tab_rect : Rect) (pane_sizing : PaneSizing)
    : placement LayoutNode :=
  let docking_pane_ids := list_leaf_pane_ids docking_tree in
  first_docking_pane_id ← (expect (head docking_pane_ids) : placement PaneId);
  match List.find (fun p => has_pane p layout_tree) docking_pane_ids with
  | Some pane_id => failed (PaneInBothTrees pane_id)
  | None =>
      placed_layout_tree ←
        match placement_target with
        | Swap _ => failed (SourcePaneNotFound first_docking_pane_id)
        | Insert placement_anchor d =>
            _ ← validate_placement_anchor layout_tree first_docking_pane_id placement_anchor;
            insert_layout_node_beside_anchor layout_tree docking_tree placement_anchor d
        | Stack target_pane_id =>
            stack_panes_onto_target layout_tree docking_pane_ids target_pane_id
        end;
      validate_layout_fit placed_layout_tree tab_rect pane_sizing
  end.

(** ** Renaming the leaves of a tree *)

Fixpoint rename (f : PaneId -> PaneId) (n : LayoutNode) : LayoutNode :=
  match n with
  | Pane p => Pane (f p)
  | Split s => Split (set_children (map (rename f) (children s)) s)
  end.

Definition swap_pane_ids (a b p : PaneId) : PaneId :=
  if p =? b then a else if p =? a then b else p.

Lemma rename_leaves f n : list_leaf_pane_ids (rename f n) = f <$> list_leaf_pane_ids n.
Proof.
  induction n as [p|s IH] using LayoutNode_tree_ind; [done|]. simpl.
  rewrite !list_leaf_pane_ids_Split. simpl.
  induction IH as [|c cs Hc _ IHcs]; csimpl; [done|]. by rewrite fmap_app, Hc, IHcs.
Qed.

Lemma rename_ext f g n :
  (forall p, p ∈ list_leaf_pane_ids n -> f p = g p) -> rename f n = rename g n.
Proof.
  induction n as [p|s IH] using LayoutNode_tree_ind; intros H; simpl.
  { rewrite H; [done|]. rewrite list_leaf_pane_ids_Pane. left. }
  do 2 f_equal. apply map_ext_in. intros c Hc%list_elem_of_In. rewrite Forall_forall in IH.
  apply IH; [done|]. intros p Hp. apply H, elem_of_leaves_Split. eauto.
Qed.

Lemma rename_id n : rename (fun p => p) n = n.
Proof.
  induction n as [p|s IH] using LayoutNode_tree_ind; [done|]. simpl.
  assert (map (rename (fun p => p)) (children s) = children s) as ->; [|by destruct s].
  rewrite Forall_forall in IH. rewrite <- (map_id (children s)) at 2.
  apply map_ext_in. intros c Hc%list_elem_of_In. by apply IH.
Qed.

(** A child's leaves occur in no other child of a tree without duplicates. *)
Lemma NoDup_leaves_child s i c :
  NoDup (list_leaf_pane_ids (Split s)) -> children s !! i = Some c ->
  NoDup (list_leaf_pane_ids c)
  /\ forall j c' p, children s !! j = Some c' -> p ∈ list_leaf_pane_ids c ->
       p ∈ list_leaf_pane_ids c' -> i = j.
Proof.
  rewrite list_leaf_pane_ids_Split. revert i.
  induction (children s) as [|c0 cs IH]; intros i Hnd Hi; [done|].
  simpl in Hnd. apply NoDup_app in Hnd as (Hnd0 & Hdis & Hnd).
  assert (forall k ck p, cs !! k = Some ck -> p ∈ list_leaf_pane_ids c0 ->
    p ∉ list_leaf_pane_ids ck) as Hout.
  { intros k ck p Hk Hp Hp'. apply (Hdis p Hp), list_elem_of_bind. exists ck.
    split; [done|]. by eapply list_elem_of_lookup_2. }
  destruct i as [|i]; simplify_eq/=.
  - split; [done|]. intros [|j] c' p Hj Hp Hp'; simplify_eq/=; [done|]. by exfalso; eapply Hout.
  - destruct (IH i Hnd Hi) as [H1 H2]. split; [done|].
    intros [|j] c' p Hj Hp Hp'; simplify_eq/=; [by exfalso; eapply Hout|]. f_equal. by eapply H2.
Qed.

(** Writing one leaf of a renamed tree changes the renaming at that leaf. *)
Lemma write_renamed_leaf g n path p q :
  NoDup (list_leaf_pane_ids n) -> get_node_at_path n path = Some (Pane p) ->
  get_node_at_path_mut (rename g n) path (fun _ => Pane q)
  = Some (rename (fun x => if x =? p then q else g x) n).
Proof.
  revert path. induction n as [r|s IH] using LayoutNode_tree_ind; intros path Hnd Hget.
  { destruct path; [|done]. simpl in *. injection Hget as ->. by rewrite N.eqb_refl. }
  destruct path as [|i path]; [done|]. simpl in *.
  apply bind_Some in Hget as (c & Hc & Hget).
  change (map (rename g) (children s)) with (rename g <$> children s).
  rewrite list_lookup_fmap, Hc. simpl.
  destruct (NoDup_leaves_child s i c Hnd Hc) as [Hndc Hother].
  rewrite Forall_lookup in IH. rewrite (IH i c Hc path Hndc Hget). simpl. do 2 f_equal.
  unfold set_children. simpl. f_equal.
  assert (p ∈ list_leaf_pane_ids c) as Hp.
  { destruct (get_node_at_path_mut_leaves c path (fun m => m) _ Hget) as (? & pre & post & _ & -> & _).
    rewrite list_leaf_pane_ids_Pane. set_solver. }
  apply list_eq. intros j. change (map ?f (children s)) with (f <$> children s).
  destruct (decide (i = j)) as [<-|Hne].
  - rewrite list_lookup_insert_eq by (rewrite length_fmap; by eapply lookup_lt_Some).
    by rewrite list_lookup_fmap, Hc.
  - rewrite list_lookup_insert_ne, !list_lookup_fmap by done.
    destruct (children s !! j) as [c'|] eqn:Hj; simpl; [|done]. f_equal.
    apply rename_ext. intros x Hx. destruct (x =? p) eqn:E; bools; [|done].
    subst x. exfalso. by apply Hne, (Hother j c' p).
Qed.

(** ** Normalizing every leaf *)

Lemma normalize_all_leaves_spec t :
  list_leaf_pane_ids t <> [] ->
  exists t', normalize_all_leaves t = ok t' /\ canonical t'
    /\ list_leaf_pane_ids t' = list_leaf_pane_ids t.
Proof.
  intros Hne. unfold normalize_all_leaves.
  set (live := list_to_set (list_leaf_pane_ids t) : gset PaneId).
  pose proof (normalize_layout_tree_spec t live) as H.
  rewrite list_filter_all in H by (intros x Hx; unfold live; by apply elem_of_list_to_set).
  destruct (normalize_layout_tree t live) as [t'|]; [|done]. destruct H. eauto.
Qed.

Lemma validate_layout_fit_ok t rect pane_sizing t' :
  validate_layout_fit t rect pane_sizing = ok t' <->
  t' = t /\ is_layout_within_rect t rect pane_sizing = true.
Proof.
  unfold validate_layout_fit. destruct (is_layout_within_rect t rect pane_sizing); simpl.
  - split; [by intros [= <-]|by intros [-> _]].
  - split; [done|by intros []].
Qed.

Lemma validate_layout_fit_no_panic t rect pane_sizing :
  validate_layout_fit t rect pane_sizing <> panicked.
Proof. unfold validate_layout_fit. by case_match. Qed.

(** ** Anchors *)

Lemma sort_pane_ids_eq l k : sort_pane_ids l = sort_pane_ids k <-> l ≡ₚ k.
Proof.
  unfold sort_pane_ids. split.
  - intros E. rewrite <- (merge_sort_Permutation N.le l), E. apply merge_sort_Permutation.
  - intros E. apply (StronglySorted_unique N.le).
    + apply StronglySorted_merge_sort; apply _.
    + apply StronglySorted_merge_sort; apply _.
    + by rewrite !merge_sort_Permutation.
Qed.

(** The test of [find_split_in_subtree] on one node. *)
Lemma leaf_set_test_iff n pane_ids :
  (length (list_leaf_pane_ids n) =? length (sort_pane_ids pane_ids))%nat
    && bool_decide (sort_pane_ids (list_leaf_pane_ids n) = sort_pane_ids pane_ids) = true
  <-> list_leaf_pane_ids n ≡ₚ pane_ids.
Proof.
  rewrite andb_true_iff, bool_decide_eq_true, sort_pane_ids_eq, Nat.eqb_eq. split; [tauto|].
  intros H. split; [|done]. rewrite H. symmetry. apply Permutation_length, merge_sort_Permutation.
Qed.

Lemma find_split_Some n pane_ids path :
  find_split_in_subtree (sort_pane_ids pane_ids) n = Some path ->
  exists m, get_node_at_path n path = Some m /\ list_leaf_pane_ids m ≡ₚ pane_ids.
Proof.
  revert path. induction n as [p|s IH] using LayoutNode_tree_ind; intros path;
    cbn [find_split_in_subtree]; destruct (_ && _) eqn:E.
  - apply leaf_set_test_iff in E. intros [= <-]. eauto.
  - done.
  - apply leaf_set_test_iff in E. intros [= <-]. eauto.
  - intros (i & c & path' & -> & Hc & Hf & _)%find_child_path_Some. simpl. rewrite Hc. simpl.
    rewrite Forall_lookup in IH. by eapply IH.
Qed.

Lemma find_split_is_Some n pane_ids path m :
  get_node_at_path n path = Some m -> list_leaf_pane_ids m ≡ₚ pane_ids ->
  is_Some (find_split_in_subtree (sort_pane_ids pane_ids) n).
Proof.
  revert path. induction n as [p|s IH] using LayoutNode_tree_ind; intros path Hget Hm;
    cbn [find_split_in_subtree]; destruct (_ && _) eqn:E; try by eexists.
  - exfalso. destruct path; [|done]. simpl in Hget. injection Hget as <-.
    by rewrite (proj2 (leaf_set_test_iff (Pane p) pane_ids) Hm) in E.
  - destruct path as [|i path].
    { exfalso. simpl in Hget. injection Hget as <-.
      by rewrite (proj2 (leaf_set_test_iff (Split s) pane_ids) Hm) in E. }
    simpl in Hget. apply bind_Some in Hget as (c & Hc & Hget).
    apply not_eq_None_Some. intros Hnone. apply find_child_path_None in Hnone.
    rewrite Forall_lookup in Hnone. rewrite Forall_lookup in IH.
    destruct (IH i c Hc path Hget Hm) as [path' Hp]. rewrite (Hnone i c Hc) in Hp. done.
Qed.

(** A node other than the removed leaf survives a removal, without it. *)
Lemma remove_leaf_keeps_nodes p n n' path m :
  NoDup (list_leaf_pane_ids n) -> remove_leaf p n = (Removed, n') ->
  get_node_at_path n path = Some m -> filter (fun q => q <> p) (list_leaf_pane_ids m) <> [] ->
  exists path' m', get_node_at_path n' path' = Some m'
    /\ list_leaf_pane_ids m' = filter (fun q => q <> p) (list_leaf_pane_ids m).
Proof.
  revert n' path. induction n as [r|s IH] using LayoutNode_tree_ind; intros n' path Hnd Hrem Hget Hne.
  { simpl in Hrem. by destruct (r =? p). }
  destruct path as [|i path].
  { simpl in Hget. injection Hget as <-. exists [], n'. split; [done|].
    pose proof (remove_leaf_spec p (Split s)) as H. rewrite Hrem in H.
    destruct H as (pre & post & Hpre & H1 & H2 & _). simpl in H2. rewrite H2, H1 in *.
    apply NoDup_app in Hnd as (_ & _ & [Hpost _]%NoDup_cons).
    rewrite filter_app, filter_cons_False by (intros H; by apply H).
    by rewrite !list_filter_all by (intros ? ? ->; done). }
  simpl in Hget. apply bind_Some in Hget as (c & Hc & Hget).
  assert (forall q, q ∈ list_leaf_pane_ids m -> q ∈ list_leaf_pane_ids c) as Hmc.
  { destruct (get_node_at_path_mut_leaves c path (fun m => m) _ Hget) as (? & pre & post & _ & -> & _).
    set_solver. }
  simpl in Hrem. destruct (remove_in_children _ _ _) as [[[j status] c']|] eqn:E; [|done].
  apply remove_in_children_Some in E as (j' & cj & -> & Hj & Hr & Hst & _). simpl in Hrem.
  pose proof (remove_leaf_spec p cj) as Hspec. rewrite Hr in Hspec.
  assert (p ∈ list_leaf_pane_ids cj) as Hpj.
  { destruct status; [done|destruct Hspec as (? & ? & _ & -> & _); set_solver|].
    unfold removal_spec in Hspec. simpl in Hspec. rewrite Hspec. left. }
  destruct (NoDup_leaves_child s j' cj Hnd Hj) as [Hndj Hother].
  destruct (decide (i = j')) as [->|Hij].
  - rewrite Hc in Hj. injection Hj as <-. destruct status; [done| |].
    + injection Hrem as <-. rewrite Forall_lookup in IH.
      destruct (IH j' c Hc c' path Hndj Hr Hget Hne) as (path' & m' & H1 & H2).
      exists (j' :: path'), m'. split; [|done]. simpl.
      rewrite list_lookup_insert_eq by (by eapply lookup_lt_Some). done.
    + unfold removal_spec in Hspec. simpl in Hspec. exfalso. apply Hne.
      destruct (filter _ (list_leaf_pane_ids m)) as [|q qs] eqn:Ef; [done|]. exfalso.
      assert (q ∈ filter (fun q => q <> p) (list_leaf_pane_ids m)) as [Hqp Hq]%list_elem_of_filter
        by (rewrite Ef; left).
      apply Hmc in Hq. rewrite Hspec in Hq. by apply list_elem_of_singleton in Hq.
  - assert (filter (fun q => q <> p) (list_leaf_pane_ids m) = list_leaf_pane_ids m) as ->.
    { apply list_filter_all. intros q Hq ->. apply Hij. symmetry.
      apply (Hother i c p Hc Hpj). by apply Hmc. }
    assert (exists i', forall s', children s' = (match status with SubtreeEmpty => delete j' (children s)
        | _ => <[j':=c']> (children s) end) -> get_node_at_path (Split s') (i' :: path) = Some m)
      as [i' Hi'].
    { destruct status; [done| |].
      - exists i. intros s' Hs'. simpl. rewrite Hs', list_lookup_insert_ne, Hc by done. done.
      - destruct (decide (i < j')%nat).
        + exists i. intros s' Hs'. simpl. rewrite Hs', list_lookup_delete_lt, Hc by done. done.
        + exists (i - 1)%nat. intros s' Hs'. simpl. rewrite Hs', list_lookup_delete_ge by lia.
          replace (S (i - 1)) with i by lia. by rewrite Hc. }
    exists (i' :: path), m. split; [|done]. destruct status; [done| |].
    + injection Hrem as <-. by apply Hi'.
    + case_bool_decide; simplify_eq. by apply Hi'.
Qed.

Lemma check_group_None t seen g :
  check_group_pane_ids t seen g = None -> Forall (fun p => p ∈ list_leaf_pane_ids t) g.
Proof.
  revert seen. induction g as [|p g IH]; intros seen; simpl; [by constructor|].
  case_bool_decide; [done|]. destruct (has_pane p t) eqn:E; simpl; [|done].
  intros Hg%IH. constructor; [by apply has_pane_iff|done].
Qed.

(** The panes an anchor stands for, among the [leaves] other than the source. *)
Definition anchor_block (placement_anchor : PanePlacementAnchor) (leaves block : list PaneId)
    : Prop :=
  match placement_anchor with
  | AnchorTab => block = leaves
  | AnchorPane p => block = [p]
  | AnchorGroup g => block ≡ₚ filter (fun p => p ∈ leaves) g
  end.

(** What a passed validation says of the anchor. *)
Lemma validate_placement_anchor_ok t source anchor :
  validate_placement_anchor t source anchor = ok tt ->
  match anchor with
  | AnchorTab => True
  | AnchorPane p => p <> source /\ p ∈ list_leaf_pane_ids t
  | AnchorGroup g => exists path m, get_node_at_path t path = Some m
      /\ list_leaf_pane_ids m ≡ₚ g /\ Forall (fun p => p ∈ list_leaf_pane_ids t) g
      /\ exists p, p ∈ g /\ p <> source
  end.
Proof.
  destruct anchor as [p|g|]; simpl; [| |done].
  - destruct (p =? source) eqn:E; bools; [done|].
    intros (path & Hp%ok_or_ok & _)%outcome_bind_ok. split; [done|].
    apply find_pane_path_is_Some. by eexists.
  - intros (path & Hp & _)%outcome_bind_ok. unfold find_group_anchor_path in Hp.
    case_bool_decide; [done|]. destruct (check_group_pane_ids t ∅ g) eqn:E; [done|].
    destruct (forallb _ g) eqn:Ea; [done|].
    apply ok_or_ok in Hp. apply find_split_Some in Hp as (m & Hm & Hperm).
    exists path, m. split_and!; [done|done|by eapply check_group_None|].
    apply not_true_iff_false in Ea. rewrite forallb_forall in Ea.
    destruct (decide (Exists (fun p => p <> source) g)) as [(p & Hp & Hne)%Exists_exists|Hn];
      [by eauto|].
    exfalso. apply Ea. intros p Hp%list_elem_of_In. apply N.eqb_eq.
    apply dec_stable. intros Hne. apply Hn, Exists_exists. eauto.
Qed.

Lemma List_filter_eq {A} (f : A -> bool) l : List.filter f l = filter (fun x => f x = true) l.
Proof.
  induction l as [|x l IH]; [done|]. simpl. rewrite filter_cons, IH.
  by destruct (f x); case_decide.
Qed.

(** The block of leaves an insertion writes. *)
Definition inserted_block (d : Direction) (block inserted : list PaneId) : list PaneId :=
  match d with Right | Down => block ++ inserted | Left | Up => inserted ++ block end.

Lemma inserted_block_permutation d block inserted :
  inserted_block d block inserted ≡ₚ block ++ inserted.
Proof. destruct d; simpl; [|done| |done]; apply Permutation_app_comm. Qed.

Lemma split_with_inserted_leaves x d m :
  list_leaf_pane_ids (split_with_inserted x d m)
  = inserted_block d (list_leaf_pane_ids m) (list_leaf_pane_ids x).
Proof.
  unfold split_with_inserted. rewrite list_leaf_pane_ids_Split.
  destruct d; simpl; by rewrite app_nil_r.
Qed.

(** An insertion at a resolved anchor. *)
Lemma insert_beside_spec t x anchor d path m :
  find_anchor_path t x anchor = Some path -> get_node_at_path t path = Some m ->
  list_leaf_pane_ids x <> [] ->
  exists t' pre post,
    insert_layout_node_beside_anchor t x anchor d = ok t' /\ canonical t'
    /\ list_leaf_pane_ids t = pre ++ list_leaf_pane_ids m ++ post
    /\ list_leaf_pane_ids t'
       = pre ++ inserted_block d (list_leaf_pane_ids m) (list_leaf_pane_ids x) ++ post
    /\ (path = [] -> pre = [] /\ post = []).
Proof.
  intros Hpath Hm Hx. unfold insert_layout_node_beside_anchor. rewrite Hpath. simpl.
  destruct (get_node_at_path_mut_leaves t path (split_with_inserted x d) m Hm)
    as (t1 & pre & post & Hmut & H1 & H2). rewrite Hmut. simpl.
  rewrite split_with_inserted_leaves in H2.
  destruct (normalize_all_leaves_spec t1) as (t' & Ht' & Hc & Hl).
  { rewrite H2. intros [_ [E _]%app_eq_nil]%app_eq_nil. apply Hx.
    destruct d; simpl in E; apply app_eq_nil in E; tauto. }
  exists t', pre, post. split_and!; try done; [congruence|].
  intros ->. simpl in Hm. injection Hm as ->.
  apply (f_equal length) in H1. rewrite !length_app in H1.
  split; apply nil_length_inv; lia.
Qed.

Lemma filter_not_singleton (pre post : list PaneId) p :
  NoDup (pre ++ p :: post) -> filter (fun q => q <> p) (pre ++ p :: post) = pre ++ post.
Proof.
  intros (_ & Hdis & [Hp _]%NoDup_cons)%NoDup_app.
  rewrite filter_app, filter_cons_False by (intros E; by apply E).
  rewrite !list_filter_all; [done|by intros ? ? ->|].
  intros q Hq ->. apply (Hdis p Hq). left.
Qed.

(** A validated anchor still resolves once the source has left the tree. *)
Lemma validated_anchor_survives t source anchor t1 :
  NoDup (list_leaf_pane_ids t) -> remove_leaf source t = (Removed, t1) ->
  validate_placement_anchor t source anchor = ok tt ->
  exists path m, find_anchor_path t1 (Pane source) anchor = Some path
    /\ get_node_at_path t1 path = Some m
    /\ anchor_block anchor (list_leaf_pane_ids t1) (list_leaf_pane_ids m)
    /\ (anchor = AnchorTab -> path = []).
Proof.
  intros Hnd Hrem Hval%validate_placement_anchor_ok.
  pose proof (remove_leaf_spec source t) as Hspec. rewrite Hrem in Hspec.
  destruct Hspec as (pre & post & _ & H1 & H2 & _). simpl in H2.
  assert (list_leaf_pane_ids t1 = filter (fun q => q <> source) (list_leaf_pane_ids t)) as Hl.
  { rewrite H1 in Hnd. rewrite H1, filter_not_singleton by done. done. }
  destruct anchor as [p|g|].
  - destruct Hval as [Hne Hp].
    assert (p ∈ list_leaf_pane_ids t1) as [path Hpath]%find_pane_path_is_Some
      by (rewrite Hl; by apply list_elem_of_filter).
    exists path, (Pane p). split_and!; [done|by apply find_pane_path_node|done|done].
  - destruct Hval as (path & m & Hm & Hperm & Hin & p & Hp & Hne).
    destruct (remove_leaf_keeps_nodes source t t1 path m Hnd Hrem Hm) as (path' & m' & Hm' & Hl').
    { intros E. apply (not_elem_of_nil p). rewrite <- E. apply list_elem_of_filter.
      split; [done|]. by rewrite Hperm. }
    assert (List.filter (fun q => negb (has_pane q (Pane source))) g
      = filter (fun q => q <> source) g) as Hfilter.
    { rewrite List_filter_eq. apply list_filter_iff. intros q. simpl.
      rewrite negb_true_iff, N.eqb_neq. split; congruence. }
    assert (list_leaf_pane_ids m' ≡ₚ filter (fun q => q <> source) g) as Hm'perm.
    { by rewrite Hl', Hperm. }
    destruct (find_split_is_Some t1 _ path' m' Hm' Hm'perm) as [path'' Hpath''].
    destruct (find_split_Some _ _ _ Hpath'') as (m'' & Hm'' & Hperm'').
    exists path'', m''. split_and!; [|done| |done].
    + unfold find_anchor_path. rewrite Hfilter. done.
    + simpl. rewrite Hperm''. rewrite Forall_forall in Hin.
      rewrite (list_filter_ext_in _ (fun q => q ∈ list_leaf_pane_ids t1) g); [done|].
      intros q Hq. rewrite Hl, list_elem_of_filter. specialize (Hin q Hq). tauto.
  - exists [], t1. done.
Qed.

(** What an insertion and a stacking promise, on the leaves before and after. *)
Definition placed_beside (anchor : PanePlacementAnchor) (d : Direction)
    (inserted before after : list PaneId) : Prop :=
  exists pre block post,
    anchor_block anchor before block
    /\ before = pre ++ block ++ post /\ after = pre ++ inserted_block d block inserted ++ post.

Definition placed_on_stack (target : PaneId) (stacked before after : list PaneId) : Prop :=
  exists pre block post, target ∈ block
    /\ before = pre ++ block ++ post /\ after = pre ++ (block ++ stacked) ++ post.

Lemma placed_beside_permutation anchor d inserted before after :
  placed_beside anchor d inserted before after -> after ≡ₚ before ++ inserted.
Proof.
  intros (pre & block & post & _ & -> & ->). rewrite inserted_block_permutation.
  rewrite <- !app_assoc. do 2 f_equiv. apply Permutation_app_comm.
Qed.

Lemma placed_on_stack_permutation target stacked before after :
  placed_on_stack target stacked before after -> after ≡ₚ before ++ stacked.
Proof.
  intros (pre & block & post & _ & -> & ->).
  rewrite <- !app_assoc. do 2 f_equiv. apply Permutation_app_comm.
Qed.

(** The insertion of [x] at an anchor that resolves in [t]. *)
Lemma insert_resolved t x anchor d path m :
  find_anchor_path t x anchor = Some path -> get_node_at_path t path = Some m ->
  anchor_block anchor (list_leaf_pane_ids t) (list_leaf_pane_ids m) -> list_leaf_pane_ids x <> [] ->
  exists t', insert_layout_node_beside_anchor t x anchor d = ok t' /\ canonical t'
    /\ placed_beside anchor d (list_leaf_pane_ids x)
         (list_leaf_pane_ids t) (list_leaf_pane_ids t').
Proof.
  intros Hpath Hm Hblock Hx.
  destruct (insert_beside_spec t x anchor d path m Hpath Hm Hx)
    as (t' & pre & post & H1 & H2 & H3 & H4 & _).
  exists t'. split_and!; [done|done|]. by exists pre, (list_leaf_pane_ids m), post.
Qed.

Lemma stack_panes_onto_target_spec t source_pane_ids target :
  match stack_panes_onto_target t source_pane_ids target with
  | None => False
  | Some (inl e) => e = TargetPaneNotFound target /\ target ∉ list_leaf_pane_ids t
  | Some (inr t') => canonical t'
      /\ placed_on_stack target source_pane_ids (list_leaf_pane_ids t) (list_leaf_pane_ids t')
  end.
Proof.
  unfold stack_panes_onto_target. pose proof (add_panes_to_stack_spec t target source_pane_ids) as H.
  destruct (add_panes_to_stack t target source_pane_ids) as [[e|t1]|]; simpl; [|clear - H|done].
  { split; [done|]. tauto. }
  destruct H as (pre & block & post & H1 & H2 & H3 & _).
  destruct (normalize_all_leaves_spec t1) as (t' & Ht' & Hc & Hl).
  { rewrite H3. intros [_ [[E _]%app_eq_nil _]%app_eq_nil]%app_eq_nil. subst. set_solver. }
  change (match normalize_all_leaves t1 with
    | None => False
    | Some (inl e) => e = TargetPaneNotFound target /\ target ∉ list_leaf_pane_ids t
    | Some (inr t') => canonical t'
      /\ placed_on_stack target source_pane_ids (list_leaf_pane_ids t) (list_leaf_pane_ids t')
    end).
  rewrite Ht'. simpl. split; [done|]. exists pre, block, post. split_and!; congruence.
Qed.

(** ** Placing a pane in its own tree *)

(** Two writes of leaves exchange the two panes. *)
Lemma swap_writes t source target source_path target_path :
  NoDup (list_leaf_pane_ids t) ->
  find_pane_path source t = Some source_path -> find_pane_path target t = Some target_path ->
  exists t1, write_leaf t source_path target = ok t1
    /\ write_leaf t1 target_path source = ok (rename (swap_pane_ids source target) t).
Proof.
  intros Hnd Hs%find_pane_path_node Ht%find_pane_path_node. unfold write_leaf.
  exists (rename (fun x => if x =? source then target else x) t).
  rewrite <- (rename_id t) at 1.
  by rewrite (write_renamed_leaf (fun x => x) t source_path source),
    (write_renamed_leaf _ t target_path target).
Qed.

Lemma rename_swap_permutation t source target :
  NoDup (list_leaf_pane_ids t) -> source ∈ list_leaf_pane_ids t ->
  target ∈ list_leaf_pane_ids t ->
  list_leaf_pane_ids (rename (swap_pane_ids source target) t) ≡ₚ list_leaf_pane_ids t.
Proof.
  intros Hnd Hs Ht. rewrite rename_leaves.
  assert (Inj (=) (=) (swap_pane_ids source target)).
  { intros x y. unfold swap_pane_ids. repeat case_match; bools; congruence. }
  apply NoDup_Permutation; [by apply NoDup_fmap|done|].
  intros x. rewrite list_elem_of_fmap. split.
  - intros (y & -> & Hy). unfold swap_pane_ids. by repeat case_match.
  - intros Hx. exists (swap_pane_ids source target x). unfold swap_pane_ids.
    split; repeat case_match; bools; congruence.
Qed.

(** What a placement of a pane inside its own tree promises. *)
Definition placed_within (source : PaneId) (placement_target : PlacementTarget)
    (t t' : LayoutNode) : Prop :=
  let others := filter (fun q => q <> source) (list_leaf_pane_ids t) in
  match placement_target with
  | Swap target =>
      target ∈ list_leaf_pane_ids t /\ t' = rename (swap_pane_ids source target) t
  | Insert anchor d =>
      (others = [] /\ t' = Pane source)
      \/ (canonical t' /\ placed_beside anchor d [source] others (list_leaf_pane_ids t'))
  | Stack target =>
      (target = source /\ t' = t)
      \/ (canonical t' /\ placed_on_stack target [source] others (list_leaf_pane_ids t'))
  end.

Lemma remove_leaf_removed t source t1 :
  NoDup (list_leaf_pane_ids t) -> remove_leaf source t = (Removed, t1) ->
  list_leaf_pane_ids t1 = filter (fun q => q <> source) (list_leaf_pane_ids t).
Proof.
  intros Hnd Hrem. pose proof (remove_leaf_spec source t) as Hspec. rewrite Hrem in Hspec.
  destruct Hspec as (pre & post & _ & H1 & H2 & _). simpl in H2. rewrite H1 in Hnd.
  by rewrite H1, filter_not_singleton.
Qed.

Lemma rename_swap_same t p : rename (swap_pane_ids p p) t = t.
Proof.
  rewrite <- (rename_id t) at 2. apply rename_ext. intros x _.
  unfold swap_pane_ids. case_match; bools; [by subst|done].
Qed.

(** ** What the errors mean *)

Definition anchor_error_holds (t : LayoutNode) (source : PaneId)
    (placement_anchor : PanePlacementAnchor) (e : PlacementError) : Prop :=
  match placement_anchor, e with
  | AnchorPane q, AnchorIsSource p => p = source /\ q = source
  | AnchorGroup g, AnchorIsSource p => p = source /\ Forall (fun q => q = source) g
  | AnchorPane q, TargetPaneNotFound p => p = q /\ p ∉ list_leaf_pane_ids t
  | AnchorGroup g, TargetPaneNotFound p => p ∈ g /\ p ∉ list_leaf_pane_ids t
  | AnchorGroup g, GroupPaneDuplicated p => p ∈ g /\ ~ NoDup g
  | AnchorGroup g, GroupIsNotOneSubtree g' => g' = g
      /\ (g = [] \/ forall path m, get_node_at_path t path = Some m -> ~ list_leaf_pane_ids m ≡ₚ g)
  | AnchorPane q, AnchorInsideStack ids => q ∈ ids /\ exists path s,
      get_node_at_path t path = Some (Split s) /\ direction s = Stacked
      /\ ids = list_leaf_pane_ids (Split s)
  | AnchorGroup g, AnchorInsideStack ids => g ⊆ ids /\ exists path s,
      get_node_at_path t path = Some (Split s) /\ direction s = Stacked
      /\ ids = list_leaf_pane_ids (Split s)
  | _, _ => False
  end.

Lemma check_group_Some t seen g e :
  check_group_pane_ids t seen g = Some e ->
  exists p, p ∈ g
    /\ ((e = GroupPaneDuplicated p /\ (~ NoDup g \/ exists q, q ∈ g /\ q ∈ seen))
        \/ (e = TargetPaneNotFound p /\ p ∉ list_leaf_pane_ids t)).
Proof.
  revert seen. induction g as [|p g IH]; intros seen; simpl; [done|].
  case_bool_decide as Hseen.
  { intros [= <-]. exists p. split; [left|]. left. split; [done|]. right. exists p. split; [left|done]. }
  destruct (has_pane p t) eqn:E; simpl.
  2: { intros [= <-]. exists p. split; [left|]. right. split; [done|]. by apply has_pane_false. }
  intros (q & Hq & [[-> Hdup]|[-> Hnot]])%IH; exists q; (split; [by right|]); [left|by right].
  split; [done|]. destruct Hdup as [Hdup|(r & Hr & Hrs)].
  - left. intros [_ Hg]%NoDup_cons. done.
  - destruct (decide (r = p)) as [->|Hne].
    + left. intros [Hp _]%NoDup_cons. done.
    + right. exists r. split; [by right|]. set_solver.
Qed.

(** A node's leaves are among those of every node above it. *)
Lemma leaves_below n path m : get_node_at_path n path = Some m ->
  list_leaf_pane_ids m ⊆ list_leaf_pane_ids n.
Proof.
  intros H. destruct (get_node_at_path_mut_leaves n path (fun m => m) _ H)
    as (? & pre & post & _ & -> & _). set_solver.
Qed.

Lemma find_outermost_stack_above_Some t path m ids :
  get_node_at_path t path = Some m -> find_outermost_stack_above t path = Some ids ->
  list_leaf_pane_ids m ⊆ ids
  /\ exists path' s, get_node_at_path t path' = Some (Split s) /\ direction s = Stacked
       /\ ids = list_leaf_pane_ids (Split s).
Proof.
  intros Hm. unfold find_outermost_stack_above. intros (depth & _ & H)%find_map_Some_inv.
  destruct (get_node_at_path t (take depth path)) as [[p|s]|] eqn:E; [done| |done].
  case_bool_decide; [|done]. injection H as <-. split; [|by eauto].
  rewrite <- (take_drop depth path), get_node_at_path_app, E in Hm. by eapply leaves_below.
Qed.

Lemma validate_placement_anchor_sat t source anchor :
  outcome_sat (anchor_error_holds t source anchor) (fun _ => True)
    (validate_placement_anchor t source anchor).
Proof.
  destruct anchor as [p|g|]; simpl; [| |done].
  - destruct (p =? source) eqn:E; bools; [done|].
    apply outcome_sat_bind with (P := fun path => get_node_at_path t path = Some (Pane p)).
    + apply outcome_sat_ok_or; [|apply find_pane_path_node].
      intros H. split; [done|]. by apply find_pane_path_None, has_pane_false in H.
    + intros path _ Hpath. destruct (find_outermost_stack_above t path) eqn:Es; [|done].
      simpl. destruct (find_outermost_stack_above_Some t path _ _ Hpath Es) as [H1 H2].
      split; [|done]. apply H1. left.
  - apply outcome_sat_bind with (P := fun path => exists m,
      get_node_at_path t path = Some m /\ list_leaf_pane_ids m ≡ₚ g).
    + unfold find_group_anchor_path. case_bool_decide as Hg; [subst; split; [done|by left]|].
      destruct (check_group_pane_ids t ∅ g) eqn:Ec.
      { apply check_group_Some in Ec as (r & Hr & [[-> Hdup]|[-> Hnot]]); simpl; [|done].
        split; [done|]. destruct Hdup as [|(q & _ & Hq)]; [done|set_solver]. }
      destruct (forallb _ g) eqn:Ea.
      { split; [done|]. apply Forall_forall. intros q Hq%list_elem_of_In.
        rewrite forallb_forall in Ea. by apply N.eqb_eq, Ea. }
      apply outcome_sat_ok_or; [|intros path Hpath; by apply find_split_Some].
      intros Hnone. split; [done|]. right. intros path m Hm Hperm.
      destruct (find_split_is_Some t g path m Hm Hperm) as [? H].
      unfold find_split_path_by_leaf_set in Hnone. congruence.
    + intros path _ (m & Hm & Hperm). destruct (find_outermost_stack_above t path) eqn:Es; [|done].
      simpl. destruct (find_outermost_stack_above_Some t path _ _ Hm Es) as [H1 H2].
      split; [|done]. intros q Hq. apply H1. by rewrite Hperm.
Qed.

(** What each error of a placement inside one tree means. *)
Definition placement_error_holds (t : LayoutNode) (source : PaneId)
    (placement_target : PlacementTarget) (rect : Rect) (pane_sizing : PaneSizing)
    (e : PlacementError) : Prop :=
  match e with
  | SourcePaneNotFound p => p = source /\ source ∉ list_leaf_pane_ids t
  | DestinationTooSmall required_size available_size => exists t',
      placed_within source placement_target t t'
      /\ required_size = compute_minimum_size pane_sizing t' /\ available_size = size rect
      /\ is_layout_within_rect t' rect pane_sizing = false
  | _ =>
      match placement_target with
      | Swap q | Stack q => e = TargetPaneNotFound q /\ q ∉ list_leaf_pane_ids t
      | Insert anchor _ => anchor_error_holds t source anchor e
      end
  end.

Lemma anchor_error_is_placement_error t source anchor d rect pane_sizing e :
  anchor_error_holds t source anchor e ->
  placement_error_holds t source (Insert anchor d) rect pane_sizing e.
Proof. by destruct anchor, e. Qed.

Lemma placed_within_fit t source placement_target rect pane_sizing t' :
  placed_within source placement_target t t' ->
  outcome_sat (placement_error_holds t source placement_target rect pane_sizing)
    (fun t' => placed_within source placement_target t t')
    (validate_layout_fit t' rect pane_sizing).
Proof.
  unfold validate_layout_fit. destruct (is_layout_within_rect _ _ _) eqn:E; simpl; [done|].
  intros H. by exists t'.
Qed.

Lemma place_pane_within_tree_spec t source placement_target rect pane_sizing :
  NoDup (list_leaf_pane_ids t) ->
  outcome_sat (placement_error_holds t source placement_target rect pane_sizing)
    (fun t' => source ∈ list_leaf_pane_ids t /\ placed_within source placement_target t t')
    (place_pane_within_tree t source placement_target rect pane_sizing).
Proof.
  intros Hnd. unfold place_pane_within_tree.
  eapply outcome_sat_bind with (P := fun path => find_pane_path source t = Some path).
  { apply outcome_sat_ok_or; [|done]. intros H. split; [done|].
    by apply find_pane_path_None, has_pane_false in H. }
  intros path _ Hpath.
  assert (source ∈ list_leaf_pane_ids t) as Hs by (apply find_pane_path_is_Some; by eexists).
  apply outcome_sat_impl with (Pe := placement_error_holds t source placement_target rect pane_sizing)
    (P := placed_within source placement_target t); [|done|done].
  pose proof (remove_leaf_spec source t) as Hspec.
  destruct placement_target as [target|anchor d|target].
  - destruct (target =? source) eqn:E; bools.
    { subst. simpl. by rewrite rename_swap_same. }
    eapply outcome_sat_bind with (P := fun path => find_pane_path target t = Some path).
    { apply outcome_sat_ok_or; [|done]. intros H. split; [done|].
      by apply find_pane_path_None, has_pane_false in H. }
    intros tpath _ Htpath.
    destruct (swap_writes t source target path tpath Hnd Hpath Htpath) as (t1 & -> & H2).
    simpl. rewrite H2. apply placed_within_fit. split; [|done].
    apply find_pane_path_is_Some. by eexists.
  - eapply outcome_sat_bind; [eapply outcome_sat_impl;
      [apply validate_placement_anchor_sat|intros e; apply anchor_error_is_placement_error|done]|].
    intros [] Hval _. destruct (remove_leaf source t) as [[] t1] eqn:Hrem.
    + by destruct Hspec.
    + destruct (validated_anchor_survives t source anchor t1 Hnd Hrem Hval)
        as (apath & m & H1 & H2 & H3 & _).
      destruct (insert_resolved t1 (Pane source) anchor d apath m H1 H2 H3) as (t' & -> & Hc & Hp);
        [done|].
      simpl. apply placed_within_fit. right. split; [done|].
      by rewrite <- (remove_leaf_removed t source t1).
    + left. split; [|done]. unfold removal_spec in Hspec. simpl in Hspec.
      rewrite Hspec, filter_cons_False by (intros E; by apply E). done.
  - destruct (target =? source) eqn:E; bools; [by left|].
    destruct (has_pane target t) eqn:Et; simpl; [|split; [done|by apply has_pane_false]].
    apply has_pane_iff in Et. destruct (remove_leaf source t) as [[] t1] eqn:Hrem.
    + by destruct Hspec.
    + pose proof (stack_panes_onto_target_spec t1 [source] target) as H.
      destruct (stack_panes_onto_target t1 [source] target) as [[e|t']|]; simpl; [| |done].
      * destruct H as [_ H]. exfalso. apply H. rewrite (remove_leaf_removed t source t1) by done.
        by apply list_elem_of_filter.
      * apply placed_within_fit. right. by rewrite <- (remove_leaf_removed t source t1).
    + unfold removal_spec in Hspec. simpl in Hspec. rewrite Hspec in Et. set_solver.
Qed.

Lemma placed_within_permutation source placement_target t t' :
  NoDup (list_leaf_pane_ids t) -> source ∈ list_leaf_pane_ids t ->
  placed_within source placement_target t t' -> list_leaf_pane_ids t' ≡ₚ list_leaf_pane_ids t.
Proof.
  intros Hnd Hs H.
  assert (filter (fun q => q <> source) (list_leaf_pane_ids t) ++ [source]
    ≡ₚ list_leaf_pane_ids t) as Hothers.
  { apply list_elem_of_split in Hs as (pre & post & E). rewrite E in *.
    rewrite filter_not_singleton by done. solve_Permutation. }
  destruct placement_target as [target|anchor d|target].
  - destruct H as [Ht ->]. by apply rename_swap_permutation.
  - destruct H as [[E ->]|[_ Hp]].
    + rewrite E in Hothers. done.
    + by rewrite (placed_beside_permutation _ _ _ _ _ Hp).
  - destruct H as [[_ ->]|[_ Hp]]; [done|]. by rewrite (placed_on_stack_permutation _ _ _ _ Hp).
Qed.

(** ** Placing a pane in another tab *)

(** The leaf write of a cross-tab swap: one leaf changes in place. *)
Lemma write_leaf_spec t p path q :
  find_pane_path p t = Some path ->
  exists t' pre post, write_leaf t path q = ok t'
    /\ list_leaf_pane_ids t = pre ++ p :: post /\ list_leaf_pane_ids t' = pre ++ q :: post.
Proof.
  intros Hp%find_pane_path_node. unfold write_leaf.
  destruct (get_node_at_path_mut_leaves t path (fun _ => Pane q) _ Hp)
    as (t' & pre & post & -> & H1 & H2). by exists t', pre, post.
Qed.

Lemma remove_source_leaf_spec t source :
  source ∈ list_leaf_pane_ids t ->
  exists remaining pre post, remove_source_leaf t source = ok remaining
    /\ source ∉ pre /\ list_leaf_pane_ids t = pre ++ source :: post
    /\ default [] (list_leaf_pane_ids <$> remaining) = pre ++ post
    /\ (forall r, remaining = Some r -> canonical r).
Proof.
  intros Hin. unfold remove_source_leaf, remove_pane_and_normalize.
  pose proof (remove_pane_spec t source) as H. destruct (remove_pane t source) as [[q|q]|t1].
  - tauto.
  - destruct H as [_ H]. exists None, [], []. split_and!; [done|set_solver|done|done|done].
  - destruct H as (pre & post & H1 & H2 & H3 & H4 & _).
    pose proof (normalize_layout_tree_spec t1 (list_to_set (list_leaf_pane_ids t1))) as Hn.
    rewrite list_filter_all in Hn by (intros q Hq; by apply elem_of_list_to_set).
    destruct (normalize_layout_tree t1 _) as [t2|]; [|done]. destruct Hn as [Hc Hl].
    exists (Some t2), pre, post. split_and!; [done..|simpl; congruence|by intros ? [= <-]].
Qed.

(** A validated anchor of a tree without the source resolves as it stands. *)
Lemma validated_anchor_resolves t x source anchor :
  (forall p, p ∈ list_leaf_pane_ids x -> p ∉ list_leaf_pane_ids t) ->
  validate_placement_anchor t source anchor = ok tt ->
  exists path m, find_anchor_path t x anchor = Some path
    /\ get_node_at_path t path = Some m
    /\ anchor_block anchor (list_leaf_pane_ids t) (list_leaf_pane_ids m).
Proof.
  intros Hdis Hval%validate_placement_anchor_ok. destruct anchor as [p|g|].
  - destruct Hval as [_ [path Hpath]%find_pane_path_is_Some].
    exists path, (Pane p). split_and!; [done|by apply find_pane_path_node|done].
  - destruct Hval as (path & m & Hm & Hperm & Hin & _). rewrite Forall_forall in Hin.
    assert (List.filter (fun q => negb (has_pane q x)) g = g) as Hfilter.
    { rewrite List_filter_eq. apply list_filter_all. intros q Hq.
      apply negb_true_iff, has_pane_false. intros Hx. by apply (Hdis q Hx), Hin. }
    destruct (find_split_is_Some t g path m Hm Hperm) as [path' Hpath'].
    destruct (find_split_Some _ _ _ Hpath') as (m' & Hm' & Hperm').
    exists path', m'. split_and!; [unfold find_anchor_path; by rewrite Hfilter|done|].
    simpl. by rewrite Hperm', list_filter_all.
  - by exists [], t.
Qed.

(** What a placement in another tab promises of the two trees. *)
Definition source_left (source_pane_id : PaneId) (source : LayoutNode)
    (remaining : option LayoutNode) : Prop :=
  exists pre post, source_pane_id ∉ pre /\ list_leaf_pane_ids source = pre ++ source_pane_id :: post
    /\ default [] (list_leaf_pane_ids <$> remaining) = pre ++ post
    /\ (forall r, remaining = Some r -> canonical r).

Definition placed_across (source_pane_id : PaneId) (placement_target : PlacementTarget)
    (source destination : LayoutNode) (result : CrossTabPlacement) : Prop :=
  let destination_pane_ids := list_leaf_pane_ids destination in
  let placed_pane_ids := list_leaf_pane_ids (destination_tree result) in
  match placement_target with
  | Swap target => exists source' pre post pre' post',
      source_tree result = Some source'
      /\ list_leaf_pane_ids source = pre ++ source_pane_id :: post
      /\ list_leaf_pane_ids source' = pre ++ target :: post
      /\ destination_pane_ids = pre' ++ target :: post'
      /\ placed_pane_ids = pre' ++ source_pane_id :: post'
  | Insert anchor d =>
      source_left source_pane_id source (source_tree result)
      /\ canonical (destination_tree result)
      /\ placed_beside anchor d [source_pane_id] destination_pane_ids placed_pane_ids
  | Stack target =>
      source_left source_pane_id source (source_tree result)
      /\ canonical (destination_tree result)
      /\ placed_on_stack target [source_pane_id] destination_pane_ids placed_pane_ids
  end.

(** An error of the parts the placements into another tree share. *)
Definition target_error_holds (destination : LayoutNode) (source_pane_id : PaneId)
    (placement_target : PlacementTarget) (e : PlacementError) : Prop :=
  match placement_target with
  | Swap q | Stack q => e = TargetPaneNotFound q /\ q ∉ list_leaf_pane_ids destination
  | Insert anchor _ => anchor_error_holds destination source_pane_id anchor e
  end.

Definition cross_tab_error_holds (source : LayoutNode) (source_pane_id : PaneId)
    (destination : LayoutNode) (placement_target : PlacementTarget) (rect : Rect)
    (pane_sizing : PaneSizing) (e : PlacementError) : Prop :=
  match e with
  | SourcePaneNotFound p => p = source_pane_id /\ p ∉ list_leaf_pane_ids source
  | PaneInBothTrees p => (p = source_pane_id /\ p ∈ list_leaf_pane_ids destination)
      \/ (placement_target = Swap p /\ p ∈ list_leaf_pane_ids source)
  | DestinationTooSmall required_size available_size => exists result,
      placed_across source_pane_id placement_target source destination result
      /\ required_size = compute_minimum_size pane_sizing (destination_tree result)
      /\ available_size = size rect
      /\ is_layout_within_rect (destination_tree result) rect pane_sizing = false
  | _ => target_error_holds destination source_pane_id placement_target e
  end.

Lemma remove_source_leaf_sat Pe t source :
  source ∈ list_leaf_pane_ids t ->
  outcome_sat Pe (source_left source t) (remove_source_leaf t source).
Proof.
  intros (remaining & pre & post & -> & H)%remove_source_leaf_spec. simpl. by exists pre, post.
Qed.

Lemma stack_panes_onto_target_sat (Pe : PlacementError -> Prop) t source_pane_ids target :
  (target ∉ list_leaf_pane_ids t -> Pe (TargetPaneNotFound target)) ->
  outcome_sat Pe
    (fun t' => canonical t' /\ placed_on_stack target source_pane_ids (list_leaf_pane_ids t)
       (list_leaf_pane_ids t'))
    (stack_panes_onto_target t source_pane_ids target).
Proof.
  intros HPe. pose proof (stack_panes_onto_target_spec t source_pane_ids target) as H.
  destruct (stack_panes_onto_target t source_pane_ids target) as [[e|t']|]; simpl; [|done..].
  destruct H as [-> H]. by apply HPe.
Qed.

Lemma insert_beside_sat Pe t x source anchor d :
  (forall p, p ∈ list_leaf_pane_ids x -> p ∉ list_leaf_pane_ids t) -> list_leaf_pane_ids x <> [] ->
  validate_placement_anchor t source anchor = ok tt ->
  outcome_sat Pe
    (fun t' => canonical t' /\ placed_beside anchor d (list_leaf_pane_ids x) (list_leaf_pane_ids t)
       (list_leaf_pane_ids t'))
    (insert_layout_node_beside_anchor t x anchor d).
Proof.
  intros Hdis Hx Hval.
  destruct (validated_anchor_resolves t x source anchor Hdis Hval) as (path & m & H1 & H2 & H3).
  by destruct (insert_resolved t x anchor d path m H1 H2 H3 Hx) as (t' & -> & H).
Qed.

(** The fit check and the result record that end every cross-tab placement. *)
Lemma cross_tab_fit source source_pane_id destination placement_target rect sz remaining t' :
  placed_across source_pane_id placement_target source destination (MkCrossTabPlacement remaining t') ->
  outcome_sat (cross_tab_error_holds source source_pane_id destination placement_target rect sz)
    (placed_across source_pane_id placement_target source destination)
    (fitting ← validate_layout_fit t' rect sz; ok (MkCrossTabPlacement remaining fitting)).
Proof.
  unfold validate_layout_fit. destruct (is_layout_within_rect _ _ _) eqn:E; simpl; [done|].
  intros H. by exists (MkCrossTabPlacement remaining t').
Qed.

Lemma anchor_error_is_cross_tab_error source source_pane_id destination anchor d rect sz e :
  anchor_error_holds destination source_pane_id anchor e ->
  cross_tab_error_holds source source_pane_id destination (Insert anchor d) rect sz e.
Proof. by destruct anchor, e. Qed.

Lemma place_pane_across_tabs_spec source source_pane_id destination placement_target rect sz :
  outcome_sat (cross_tab_error_holds source source_pane_id destination placement_target rect sz)
    (placed_across source_pane_id placement_target source destination)
    (place_pane_across_tabs source source_pane_id destination placement_target rect sz).
Proof.
  unfold place_pane_across_tabs. destruct (has_pane source_pane_id destination) eqn:Ed.
  { left. split; [done|]. by apply has_pane_iff. }
  apply has_pane_false in Ed.
  eapply outcome_sat_bind with (P := fun path => find_pane_path source_pane_id source = Some path).
  { apply outcome_sat_ok_or; [|done]. intros H. split; [done|].
    by apply find_pane_path_None, has_pane_false in H. }
  intros path _ Hpath.
  assert (source_pane_id ∈ list_leaf_pane_ids source) as Hs
    by (apply find_pane_path_is_Some; by eexists).
  destruct placement_target as [target|anchor d|target].
  - destruct (has_pane target source) eqn:Et; [right; split; [done|by apply has_pane_iff]|].
    eapply outcome_sat_bind with (P := fun path => find_pane_path target destination = Some path).
    { apply outcome_sat_ok_or; [|done]. intros H. split; [done|].
      by apply find_pane_path_None, has_pane_false in H. }
    intros tpath _ Htpath.
    destruct (write_leaf_spec source _ path target Hpath) as (s' & pre & post & -> & H1 & H2).
    destruct (write_leaf_spec destination _ tpath source_pane_id Htpath)
      as (d' & pre' & post' & Hd' & H3 & H4).
    simpl. rewrite Hd'. simpl. apply cross_tab_fit. by exists s', pre, post, pre', post'.
  - eapply outcome_sat_bind; [eapply outcome_sat_impl; [apply validate_placement_anchor_sat|
      intros e; apply anchor_error_is_cross_tab_error|done]|intros [] Hval _].
    eapply outcome_sat_bind; [by apply remove_source_leaf_sat|intros rest _ Hrest].
    eapply outcome_sat_bind; [apply (insert_beside_sat _ destination (Pane source_pane_id)
      source_pane_id); [set_solver|done..]|].
    intros t' _ Ht'. by apply cross_tab_fit.
  - eapply outcome_sat_bind; [by apply stack_panes_onto_target_sat|intros t' _ Ht'].
    eapply outcome_sat_bind; [by apply remove_source_leaf_sat|intros rest _ Hrest].
    by apply cross_tab_fit.
Qed.

Lemma source_left_permutation source_pane_id source remaining :
  source_left source_pane_id source remaining ->
  list_leaf_pane_ids source ≡ₚ default [] (list_leaf_pane_ids <$> remaining) ++ [source_pane_id].
Proof. intros (pre & post & _ & -> & -> & _). solve_Permutation. Qed.

Lemma placed_across_permutation source_pane_id placement_target source destination result :
  placed_across source_pane_id placement_target source destination result ->
  default [] (list_leaf_pane_ids <$> source_tree result)
    ++ list_leaf_pane_ids (destination_tree result)
  ≡ₚ list_leaf_pane_ids source ++ list_leaf_pane_ids destination.
Proof.
  destruct placement_target as [target|anchor d|target].
  - intros (s' & pre & post & pre' & post' & -> & E1 & E2 & E3 & E4). simpl. rewrite E1, E2, E3, E4.
    solve_Permutation.
  - intros (Hs%source_left_permutation & _ & Hp%placed_beside_permutation).
    rewrite Hs, Hp. solve_Permutation.
  - intros (Hs%source_left_permutation & _ & Hp%placed_on_stack_permutation).
    rewrite Hs, Hp. solve_Permutation.
Qed.

(** ** Placing a docking tree *)

Definition docked (placement_target : PlacementTarget) (t docking t' : LayoutNode) : Prop :=
  canonical t'
  /\ match placement_target with
     | Swap _ => False
     | Insert anchor d =>
         placed_beside anchor d (list_leaf_pane_ids docking) (list_leaf_pane_ids t)
           (list_leaf_pane_ids t')
     | Stack target =>
         placed_on_stack target (list_leaf_pane_ids docking) (list_leaf_pane_ids t)
           (list_leaf_pane_ids t')
     end.

Definition docking_error_holds (t docking : LayoutNode) (placement_target : PlacementTarget)
    (rect : Rect) (pane_sizing : PaneSizing) (e : PlacementError) : Prop :=
  match e with
  | SourcePaneNotFound p =>
      head (list_leaf_pane_ids docking) = Some p /\ exists q, placement_target = Swap q
  | PaneInBothTrees p => p ∈ list_leaf_pane_ids docking /\ p ∈ list_leaf_pane_ids t
  | DestinationTooSmall required_size available_size => exists t',
      docked placement_target t docking t'
      /\ required_size = compute_minimum_size pane_sizing t' /\ available_size = size rect
      /\ is_layout_within_rect t' rect pane_sizing = false
  | _ => exists p, head (list_leaf_pane_ids docking) = Some p
      /\ target_error_holds t p placement_target e
  end.

Lemma anchor_error_is_docking_error t docking p anchor d rect sz e :
  head (list_leaf_pane_ids docking) = Some p -> anchor_error_holds t p anchor e ->
  docking_error_holds t docking (Insert anchor d) rect sz e.
Proof. intros Hp. destruct anchor, e; try done; intros H; by exists p. Qed.

Lemma docked_fit t docking placement_target rect sz t' :
  docked placement_target t docking t' ->
  outcome_sat (docking_error_holds t docking placement_target rect sz)
    (docked placement_target t docking) (validate_layout_fit t' rect sz).
Proof.
  unfold validate_layout_fit. destruct (is_layout_within_rect _ _ _) eqn:E; simpl; [done|].
  intros H. by exists t'.
Qed.

Lemma place_docking_tree_in_tab_spec t docking placement_target rect sz :
  list_leaf_pane_ids docking <> [] ->
  outcome_sat (docking_error_holds t docking placement_target rect sz)
    (docked placement_target t docking)
    (place_docking_tree_in_tab t docking placement_target rect sz).
Proof.
  intros Hne. unfold place_docking_tree_in_tab.
  destruct (head (list_leaf_pane_ids docking)) as [first|] eqn:Eh;
    [|by destruct (list_leaf_pane_ids docking)].
  simpl. destruct (List.find _ _) as [p|] eqn:Ef.
  { apply find_some in Ef as [Hp%list_elem_of_In Ht%has_pane_iff]. done. }
  assert (forall p, p ∈ list_leaf_pane_ids docking -> p ∉ list_leaf_pane_ids t) as Hdis.
  { intros p Hp%list_elem_of_In. apply has_pane_false. by apply (find_none _ _ Ef). }
  apply outcome_sat_bind with (P := docked placement_target t docking).
  2: { intros a _ Ha. by apply docked_fit. }
  destruct placement_target as [target|anchor d|target].
  - split; [done|by exists target].
  - eapply outcome_sat_bind; [eapply outcome_sat_impl; [apply validate_placement_anchor_sat|
      intros e; by apply anchor_error_is_docking_error|done]|intros [] Hval _].
    by eapply insert_beside_sat.
  - apply stack_panes_onto_target_sat. intros H. by exists first.
Qed.

(** A placement that changes a tree of several panes passed the fit check. *)
Lemma place_pane_within_tree_fits t source placement_target rect sz t' :
  place_pane_within_tree t source placement_target rect sz = ok t' ->
  t' = t \/ t' = Pane source \/ is_layout_within_rect t' rect sz = true.
Proof.
  unfold place_pane_within_tree. intros (path & _ & H)%outcome_bind_ok.
  destruct placement_target as [target|anchor d|target].
  - destruct (target =? source); [left; by injection H|].
    apply outcome_bind_ok in H as (? & _ & (? & _ & (? & _ & H)%outcome_bind_ok)%outcome_bind_ok).
    apply validate_layout_fit_ok in H as [-> H]. auto.
  - apply outcome_bind_ok in H as (? & _ & H). destruct (remove_leaf source t) as [[] t1]; [done| |].
    + apply outcome_bind_ok in H as (? & _ & H). apply validate_layout_fit_ok in H as [-> H]. auto.
    + injection H as <-. auto.
  - destruct (target =? source); [left; by injection H|].
    destruct (has_pane target t); simpl in H; [|done].
    destruct (remove_leaf source t) as [[] t1]; [done| |done].
    apply outcome_bind_ok in H as (? & _ & H). apply validate_layout_fit_ok in H as [-> H]. auto.
Qed.

(** ** Properties *)

(** Placing a pane inside its own tree never panics, and does what its
    target says. A swap exchanges the two panes and leaves every split as it
    was; an insertion puts the pane right beside the block of leaves its
    anchor names, on the side of its direction, and a stacking puts it after a
    block that holds the target, each in a canonical tree with the other
    leaves in their order. The tree it gives holds exactly the panes it had,
    and a tree that is not trivially unchanged fits the tab. Every error tells
    the truth: a pane named as missing is missing, a tree named as too small
    is the one the placement would have given. *)
Theorem placement_within_tree_is_exact t source placement_target rect sz :
  NoDup (list_leaf_pane_ids t) ->
  match place_pane_within_tree t source placement_target rect sz with
  | None => False
  | Some (inl e) => placement_error_holds t source placement_target rect sz e
  | Some (inr t') =>
      placed_within source placement_target t t'
      /\ list_leaf_pane_ids t' ≡ₚ list_leaf_pane_ids t
      /\ (t' = t \/ t' = Pane source \/ is_layout_within_rect t' rect sz = true)
  end.
Proof.
  intros Hnd. pose proof (place_pane_within_tree_spec t source placement_target rect sz Hnd) as H.
  pose proof (place_pane_within_tree_fits t source placement_target rect sz) as Hfit.
  destruct (place_pane_within_tree _ _ _ _ _) as [[e|t']|]; simpl in *; [done| |done].
  destruct H as [Hs H]. split_and!; [done|by eapply placed_within_permutation|by apply Hfit].
Qed.

Definition placed_tree : LayoutNode :=
  Split (with_equal_weights Horizontal
    [Pane 1; Split (with_equal_weights Vertical [Pane 2; Pane 3])]).
Definition placed_result : LayoutNode :=
  Split (MkSplitNode Horizontal [Pane 3; Pane 1; Pane 2]
    (map (fun share => from_primary_constraint (Flex share)) [1; 1; 2]) 0).
Definition placed_rect : Rect := from_size_at_origin (MkSize 101 30).

Lemma placement_within_tree_is_exact_witness :
  place_pane_within_tree placed_tree 3 (Insert (AnchorPane 1) Left) placed_rect default_pane_sizing
  = ok placed_result
  /\ placed_within 3 (Insert (AnchorPane 1) Left) placed_tree
       placed_result.
Proof.
  split; [vm_compute; reflexivity|].
  refine (proj1 (placement_within_tree_is_exact placed_tree 3 (Insert (AnchorPane 1) Left)
    placed_rect default_pane_sizing _)).
  apply (bool_decide_eq_true_1 _). vm_compute. reflexivity.
Defined.

(** A swap with another pane of the tree succeeds exactly when the swapped
    tree fits the tab, and refuses it with the two sizes otherwise; it changes
    nothing but which pane stands at the two leaves. *)
Theorem swap_exchanges_two_leaves t source target rect sz :
  NoDup (list_leaf_pane_ids t) -> source ∈ list_leaf_pane_ids t ->
  target ∈ list_leaf_pane_ids t -> target <> source ->
  let swapped := rename (swap_pane_ids source target) t in
  place_pane_within_tree t source (Swap target) rect sz
  = if is_layout_within_rect swapped rect sz then ok swapped
    else failed (DestinationTooSmall (compute_minimum_size sz swapped) (size rect)).
Proof.
  intros Hnd [path Hs]%find_pane_path_is_Some [tpath Ht]%find_pane_path_is_Some Hne.
  unfold place_pane_within_tree. rewrite Hs. simpl.
  rewrite (proj2 (N.eqb_neq _ _) Hne), Ht. simpl.
  destruct (swap_writes t source target path tpath Hnd Hs Ht) as (t1 & -> & H2).
  simpl. rewrite H2. simpl. unfold validate_layout_fit. by destruct (is_layout_within_rect _ _ _).
Qed.

Lemma swap_exchanges_two_leaves_witness :
  place_pane_within_tree placed_tree 1 (Swap 3) placed_rect default_pane_sizing
  = ok (Split (with_equal_weights Horizontal
      [Pane 3; Split (with_equal_weights Vertical [Pane 2; Pane 1])])).
Proof.
  refine (eq_trans (swap_exchanges_two_leaves placed_tree 1 3 placed_rect default_pane_sizing
    _ _ _ _) _); [| | |lia|vm_compute; reflexivity];
    apply (bool_decide_eq_true_1 _); vm_compute; reflexivity.
Defined.

(** Placing a pane in another tab never panics. It takes the pane out of
    its tree, whose last pane takes the whole tree with it, and puts it in the
    destination where the target says, both trees canonical after an insertion
    or a stacking; a swap exchanges the two leaves in place. No pane is lost
    and none appears twice, and every error tells the truth. *)
Theorem placement_across_tabs_is_exact source source_pane_id destination placement_target rect sz :
  match place_pane_across_tabs source source_pane_id destination placement_target rect sz with
  | None => False
  | Some (inl e) =>
      cross_tab_error_holds source source_pane_id destination placement_target rect sz e
  | Some (inr result) =>
      placed_across source_pane_id placement_target source destination result
      /\ default [] (list_leaf_pane_ids <$> source_tree result)
           ++ list_leaf_pane_ids (destination_tree result)
         ≡ₚ list_leaf_pane_ids source ++ list_leaf_pane_ids destination
  end.
Proof.
  pose proof (place_pane_across_tabs_spec source source_pane_id destination placement_target rect sz)
    as H.
  destruct (place_pane_across_tabs _ _ _ _ _ _) as [[e|result]|]; simpl in H; [done| |done].
  split; [done|by eapply placed_across_permutation].
Qed.

(** Placing a docking tree that holds a pane never panics. It goes in
    beside its anchor as one block with its own leaves in order, or onto the
    target's stack pane by pane; the tab holds exactly the panes of both trees
    after it, in a canonical tree, and every error tells the truth. *)
Theorem docking_keeps_both_trees t docking placement_target rect sz :
  list_leaf_pane_ids docking <> [] ->
  match place_docking_tree_in_tab t docking placement_target rect sz with
  | None => False
  | Some (inl e) => docking_error_holds t docking placement_target rect sz e
  | Some (inr t') =>
      docked placement_target t docking t'
      /\ list_leaf_pane_ids t' ≡ₚ list_leaf_pane_ids t ++ list_leaf_pane_ids docking
  end.
Proof.
  intros Hne. pose proof (place_docking_tree_in_tab_spec t docking placement_target rect sz Hne) as H.
  destruct (place_docking_tree_in_tab _ _ _ _ _) as [[e|t']|]; simpl in H; [done| |done].
  split; [done|]. destruct H as [_ H]. destruct placement_target as [|anchor d|target]; [done| |].
  - by eapply placed_beside_permutation.
  - by eapply placed_on_stack_permutation.
Qed.

Lemma docking_keeps_both_trees_witness :
  docked (Stack 1) placed_tree (Pane 7)
    (default (Pane 0) (match place_docking_tree_in_tab placed_tree (Pane 7) (Stack 1) placed_rect
       default_pane_sizing with Some (inr t') => Some t' | _ => None end)).
Proof.
  refine (proj1 (docking_keeps_both_trees placed_tree (Pane 7) (Stack 1) placed_rect
    default_pane_sizing _)).
  discriminate.
Defined.

(** A group of one pane is accepted as an anchor: the search by leaf set
    compares the leaves of the tree too, and no split holds pane 2 alone. *)
Lemma one_pane_group_is_accepted :
  find_group_anchor_path (Split (with_equal_weights Horizontal [Pane 1; Pane 2])) 1 [2] = ok [1%nat].
Proof. vm_compute. reflexivity. Qed.
