(* ===== verification/Destinations.v ===== *)
(** * Placement destinations ([crates/koshi-layout/src/placement.rs])

    What a viewer offers while a pane is being placed: the slots and the spans
    of a solved tab, the insertion under a cell, the pane a stacking goes to,
    and the solve a client draws once the pane is placed. *)

From stdpp Require Import sorting.
From S2P Require Import Prelude Geometry Size Tree Solver Neighbor Edit Placement.
From stdpp Require Import options.

(** ** The solve of a placed tab *)

Definition place_in_focus_history (leaf_pane_ids : gset PaneId) (placed_pane_id : PaneId)
    (history : list PaneId) : list PaneId :=
  List.filter (fun pane_id => bool_decide (pane_id ∈ leaf_pane_ids))
    (placed_pane_id :: List.filter (fun pane_id => negb (pane_id =? placed_pane_id)) history).

Definition solve_placed_tab (layout_tree : LayoutNode) (placed_pane_id : PaneId)
    (history : list PaneId) (tab_size : Size) (pane_sizing : PaneSizing) : PlacedTabSolve :=
  let leaf_pane_ids : gset PaneId := list_to_set (list_leaf_pane_ids layout_tree) in
  let placed_history := place_in_focus_history leaf_pane_ids placed_pane_id history in
  let shown_layout_tree := build_shown_layout_tree layout_tree placed_history in
  MkPlacedTabSolve placed_history
    (solve_layout_with_sizing (default layout_tree shown_layout_tree)
       (from_size_at_origin tab_size) pane_sizing).

(** ** The pane a stacking goes to *)

Definition find_stack_target_pane_id (layout_tree : LayoutNode)
    (placement_anchor : PanePlacementAnchor) (focus_history : list PaneId) : option PaneId :=
  anchor_path ←
    match placement_anchor with
    | AnchorPane anchor_pane_id => find_pane_path anchor_pane_id layout_tree
    | AnchorGroup group_pane_ids => find_split_path_by_leaf_set layout_tree group_pane_ids
    | AnchorTab => Some []
    end;
  match get_node_at_path layout_tree anchor_path with
  | Some (Pane anchor_pane_id) => Some anchor_pane_id
  | Some (Split stack_node) =>
      if bool_decide (direction stack_node = Stacked) then
        match children stack_node !! get_shown_child_index stack_node focus_history with
        | Some (Pane shown_pane_id) => Some shown_pane_id
        | _ => None
        end
      else None
  | None => None
  end.

(** ** Slots and spans *)

Record TargetPaneSlot := MkTargetPaneSlot { slot_pane_id : PaneId; slot_rect : Rect }.

Record InsertionSpan := MkInsertionSpan { anchor : PanePlacementAnchor; span_rect : Rect }.

#[export] Instance InsertionSpan_eq_dec : EqDecision InsertionSpan.
Proof. solve_decision. Defined.

Record PlacementDestinations := MkPlacementDestinations
  { target_pane_slots : list TargetPaneSlot; insertion_spans : list InsertionSpan }.

(** The walk's fixed inputs and, in its last three fields, what it collects. *)
Record InsertionSpanWalk := MkInsertionSpanWalk
  { walk_source_pane_id : PaneId;
    pane_rect_by_id : gmap PaneId Rect;
    walk_suppressed_pane_ids : gset PaneId;
    walk_stack_headers : list StackHeader;
    all_pane_ids : list PaneId;
    pane_spans : list InsertionSpan;
    group_spans : list InsertionSpan;
    listed_group_pane_id_sets : list (list PaneId) }.

Definition push_pane_span (span : InsertionSpan) (walk : InsertionSpanWalk) : InsertionSpanWalk :=
  MkInsertionSpanWalk (walk_source_pane_id walk) (pane_rect_by_id walk)
    (walk_suppressed_pane_ids walk) (walk_stack_headers walk) (all_pane_ids walk)
    (pane_spans walk ++ [span]) (group_spans walk) (listed_group_pane_id_sets walk).

Definition push_group_span (span : InsertionSpan) (sorted_group_pane_ids : list PaneId)
    (walk : InsertionSpanWalk) : InsertionSpanWalk :=
  MkInsertionSpanWalk (walk_source_pane_id walk) (pane_rect_by_id walk)
    (walk_suppressed_pane_ids walk) (walk_stack_headers walk) (all_pane_ids walk)
    (pane_spans walk) (group_spans walk ++ [span])
    (listed_group_pane_id_sets walk ++ [sorted_group_pane_ids]).

(** One rectangle of the bounding loop, on the edges
    [(left, top, right, bottom)]. *)
Definition extend_edges (edges : N * N * N * N) (rect : Rect) : N * N * N * N :=
  let '(left_edge, top_edge, right_edge, bottom_edge) := edges in
  (left_edge `min` column (origin rect), top_edge `min` row (origin rect),
   right_edge `max` compute_right_edge rect, bottom_edge `max` compute_bottom_edge rect).

Definition compute_bounding_rect (rects : list Rect) : option Rect :=
  match List.filter (fun rect => negb (is_empty rect)) rects with
  | [] => None
  | first_rect :: non_empty_rects =>
      let '(left_edge, top_edge, right_edge, bottom_edge) :=
        foldl extend_edges
          (column (origin first_rect), row (origin first_rect), compute_right_edge first_rect,
           compute_bottom_edge first_rect) non_empty_rects in
      Some (from_origin_and_size (MkPoint left_edge top_edge)
              (MkSize (right_edge -16 left_edge)%int (bottom_edge -16 top_edge)%int))
  end.

Definition collect_pane_span (pane_id : PaneId) (walk : InsertionSpanWalk) : InsertionSpanWalk :=
  if pane_id =? walk_source_pane_id walk then walk
  else
    match pane_rect_by_id walk !! pane_id with
    | None => walk
    | Some pane_rect =>
        if is_content_visible pane_id pane_rect (walk_stack_headers walk)
        then push_pane_span (MkInsertionSpan (AnchorPane pane_id) pane_rect) walk
        else walk
    end.

Definition collect_group_span (group_pane_ids : list PaneId) (walk : InsertionSpanWalk)
    : InsertionSpanWalk :=
  let sorted_group_pane_ids := sort_pane_ids group_pane_ids in
  if (length group_pane_ids <? 2)%nat
     || bool_decide (sorted_group_pane_ids = all_pane_ids walk)
     || bool_decide (sorted_group_pane_ids ∈ listed_group_pane_id_sets walk)
     || existsb (fun pane_id => bool_decide (pane_id ∈ walk_suppressed_pane_ids walk))
          group_pane_ids
  then walk
  else
    let member_rects := omap (fun pane_id => pane_rect_by_id walk !! pane_id) group_pane_ids in
    match compute_bounding_rect member_rects with
    | None => walk
    | Some span_rect =>
        push_group_span (MkInsertionSpan (AnchorGroup group_pane_ids) span_rect)
          sorted_group_pane_ids walk
    end.

Fixpoint collect_insertion_spans (n : LayoutNode) (is_inside_stack : bool)
    (walk : InsertionSpanWalk) : InsertionSpanWalk :=
  match n with
  | Pane pane_id => if negb is_inside_stack then collect_pane_span pane_id walk else walk
  | Split split =>
      let walk :=
        if negb is_inside_stack then collect_group_span (list_leaf_pane_ids n) walk else walk in
      let is_child_inside_stack := is_inside_stack || bool_decide (direction split = Stacked) in
      foldl (fun walk child_node => collect_insertion_spans child_node is_child_inside_stack walk)
        walk (children split)
  end.

(** A [HashMap] collected from pairs keeps the last value of a key. *)
Definition collect_pane_rects (entries : list (PaneId * Rect)) : gmap PaneId Rect :=
  list_to_map (reverse entries).

Definition list_placement_destinations (layout_tree : LayoutNode) (solve : LayoutSolve)
    (tab_rect : Rect) (source_pane_id : PaneId) : PlacementDestinations :=
  let slots :=
    map (fun entry : PaneId * Rect => MkTargetPaneSlot entry.1 entry.2)
      (List.filter (fun entry : PaneId * Rect =>
         negb (entry.1 =? source_pane_id) && negb (is_empty entry.2)) (pane_rects solve)) in
  let all := sort_pane_ids (list_leaf_pane_ids layout_tree) in
  let has_other_pane := existsb (fun pane_id => negb (pane_id =? source_pane_id)) all in
  let span_walk :=
    collect_insertion_spans layout_tree false
      (MkInsertionSpanWalk source_pane_id (collect_pane_rects (pane_rects solve))
         (list_to_set (suppressed_pane_ids solve)) (stack_headers solve) all [] [] []) in
  MkPlacementDestinations slots
    (pane_spans span_walk ++ group_spans span_walk
     ++ (if has_other_pane then [MkInsertionSpan AnchorTab tab_rect] else [])).

Definition list_shown_placement_destinations (layout_tree : LayoutNode)
    (focus_history : list PaneId) (tab_size : Size) (pane_sizing : PaneSizing)
    (source_pane_id : PaneId) : PlacementDestinations :=
  let tab_rect := from_size_at_origin tab_size in
  let drawn_layout_tree := default layout_tree (build_shown_layout_tree layout_tree focus_history) in
  let solve := solve_layout_with_sizing drawn_layout_tree tab_rect pane_sizing in
  list_placement_destinations drawn_layout_tree solve tab_rect source_pane_id.

(** ** The insertion under a cell *)

(** The pane count of an anchor; the tab's is [usize::MAX]. *)
Definition count_anchor_panes (placement_anchor : PanePlacementAnchor) : N :=
  match placement_anchor with
  | AnchorPane _ => 1
  | AnchorGroup group_pane_ids => N.of_nat (length group_pane_ids)
  | AnchorTab => 18446744073709551615
  end.

Definition span_key_lt (a b : PanePlacementAnchor * Rect) : bool :=
  let area_a := compute_cell_count (size a.2) in
  let area_b := compute_cell_count (size b.2) in
  if area_a <? area_b then true
  else if area_b <? area_a then false
  else count_anchor_panes a.1 <? count_anchor_panes b.1.

Definition find_insertion_at_point (span_rects : list (PanePlacementAnchor * Rect)) (point : Point)
    : option (PanePlacementAnchor * Direction) :=
  span ← min_by span_key_lt
           (List.filter (fun span : PanePlacementAnchor * Rect => is_point_inside span.2 point)
              span_rects);
  Some (span.1, compute_nearest_edge_direction span.2 point).

(** ** Where the listed spans stand *)

(** No split strictly above the end of [path] is a stack. *)
Definition unstacked_path (n : LayoutNode) (path : list nat) : Prop :=
  forall depth, (depth < length path)%nat -> is_stack_at_path n (take depth path) = false.

(** The node of the tree a listed span covers. *)
Definition spans_node (source : PaneId) (n : LayoutNode) (span_anchor : PanePlacementAnchor)
    : Prop :=
  exists path m, get_node_at_path n path = Some m /\ unstacked_path n path
    /\ match span_anchor with
       | AnchorPane p => m = Pane p /\ p <> source
       | AnchorGroup g => g = list_leaf_pane_ids m /\ (2 <= length g)%nat
       | AnchorTab => False
       end.

Definition collected (walk : InsertionSpanWalk) : list InsertionSpan :=
  pane_spans walk ++ group_spans walk.

Lemma unstacked_path_nil n : unstacked_path n [].
Proof. intros depth Hd. simpl in Hd. lia. Qed.

Lemma unstacked_path_cons s i c path :
  direction s <> Stacked -> children s !! i = Some c -> unstacked_path c path ->
  unstacked_path (Split s) (i :: path).
Proof.
  intros Hs Hc Hp [|depth] Hd; unfold is_stack_at_path; simpl.
  - by apply bool_decide_eq_false.
  - rewrite Hc. simpl. apply Hp. simpl in Hd. lia.
Qed.

Lemma spans_node_child source s i c span_anchor :
  direction s <> Stacked -> children s !! i = Some c ->
  spans_node source c span_anchor -> spans_node source (Split s) span_anchor.
Proof.
  intros Hs Hc (path & m & Hm & Hu & Ha). exists (i :: path), m. split_and!; [|by eapply unstacked_path_cons|done].
  simpl. by rewrite Hc.
Qed.

(** A walk only adds spans of nodes of the tree it visits. *)
Definition walk_adds (source : PaneId) (n : LayoutNode) (is_inside_stack : bool)
    (walk walk' : InsertionSpanWalk) : Prop :=
  walk_source_pane_id walk = source ->
  walk_source_pane_id walk' = source
  /\ forall span, span ∈ collected walk' -> span ∈ collected walk
       \/ (is_inside_stack = false /\ spans_node source n (anchor span)).

Lemma collect_pane_span_adds source p walk :
  walk_adds source (Pane p) false walk (collect_pane_span p walk).
Proof.
  intros Hs. unfold collect_pane_span. destruct (p =? _) eqn:E; bools; [by auto|].
  destruct (pane_rect_by_id walk !! p) as [r|]; [|by auto].
  destruct (is_content_visible _ _ _); [|by auto]. split; [done|]. unfold collected. simpl.
  intros span Hspan. destruct (decide (span = MkInsertionSpan (AnchorPane p) r)) as [->|Hne].
  - right. split; [done|]. exists [], (Pane p). split_and!; [done|apply unstacked_path_nil|].
    split; [done|congruence].
  - left. set_solver.
Qed.

Lemma collect_group_span_adds source n walk :
  walk_adds source n false walk (collect_group_span (list_leaf_pane_ids n) walk).
Proof.
  intros Hs. unfold collect_group_span.
  destruct (_ <? 2)%nat eqn:E; simpl; [by auto|]. bools.
  destruct (_ || _); [by auto|]. destruct (compute_bounding_rect _) as [r|]; [|by auto].
  split; [done|]. unfold collected. simpl. intros span Hspan.
  destruct (decide (span = MkInsertionSpan (AnchorGroup (list_leaf_pane_ids n)) r)) as [->|Hne].
  - right. split; [done|]. exists [], n. split_and!; [done|apply unstacked_path_nil|split; [done|lia]].
  - left. set_solver.
Qed.

Lemma collect_insertion_spans_adds source n is_inside_stack walk :
  walk_adds source n is_inside_stack walk (collect_insertion_spans n is_inside_stack walk).
Proof.
  revert is_inside_stack walk. induction n as [p|s IH] using LayoutNode_tree_ind;
    intros inside walk Hs; simpl.
  { destruct inside; simpl; [by auto|]. by apply collect_pane_span_adds. }
  set (walk1 := if negb inside then _ else walk).
  assert (walk_adds source (Split s) inside walk walk1) as H1.
  { unfold walk1. destruct inside; simpl; [intros ?; by auto|apply collect_group_span_adds]. }
  destruct (H1 Hs) as [Hs1 Hadd1]. clearbody walk1.
  set (child_inside := inside || _).
  assert (walk_source_pane_id walk1 = source
    /\ forall span, span ∈ collected walk1 ->
         span ∈ collected walk \/ (inside = false /\ spans_node source (Split s) (anchor span)))
    as Hinv by done.
  apply (foldl_inv (fun w => walk_source_pane_id w = source
    /\ forall span, span ∈ collected w ->
         span ∈ collected walk \/ (inside = false /\ spans_node source (Split s) (anchor span))));
    [done|].
  clear Hs1 Hadd1 H1 Hinv walk1. intros w c Hc [Hw Hall].
  rewrite Forall_forall in IH. destruct (IH c Hc child_inside w Hw) as [Hw' Hadd].
  split; [done|]. intros span Hspan. destruct (Hadd span Hspan) as [Hold|[Hin Hnode]]; [by auto|].
  right. unfold child_inside in Hin. apply orb_false_iff in Hin as [-> Hst]. split; [done|].
  apply bool_decide_eq_false in Hst. apply list_elem_of_lookup in Hc as [i Hi].
  by eapply spans_node_child.
Qed.

(** ** The listed spans are insertions *)

(** Two nodes of a tree without duplicates that share a leaf are above one
    another. *)
Lemma nodes_sharing_leaf n p1 p2 m1 m2 x :
  NoDup (list_leaf_pane_ids n) -> get_node_at_path n p1 = Some m1 ->
  get_node_at_path n p2 = Some m2 -> x ∈ list_leaf_pane_ids m1 -> x ∈ list_leaf_pane_ids m2 ->
  p1 `prefix_of` p2 \/ p2 `prefix_of` p1.
Proof.
  revert n p2. induction p1 as [|i p1 IH]; intros n p2 Hnd H1 H2 Hx1 Hx2.
  { left. apply prefix_nil. }
  destruct p2 as [|j p2]; [right; apply prefix_nil|].
  destruct n as [q|s]; [done|]. simpl in H1, H2.
  apply bind_Some in H1 as (c1 & Hc1 & H1). apply bind_Some in H2 as (c2 & Hc2 & H2).
  destruct (NoDup_leaves_child s i c1 Hnd Hc1) as [Hndc Hother].
  assert (i = j) as <-.
  { apply (Hother j c2 x); [done|by eapply leaves_below|by eapply leaves_below]. }
  assert (c1 = c2) as <- by congruence.
  destruct (IH c1 p2 Hndc H1 H2 Hx1 Hx2); [left|right]; by apply prefix_cons.
Qed.

Lemma unstacked_path_prefix n path path' :
  path' `prefix_of` path -> unstacked_path n path -> unstacked_path n path'.
Proof.
  intros [k ->] Hu depth Hd. specialize (Hu depth). rewrite length_app, take_app_le in Hu by lia.
  apply Hu. lia.
Qed.

Lemma find_map_None_inv {A B} (f : A -> option B) l :
  (forall x, x ∈ l -> f x = None) -> find_map f l = None.
Proof.
  induction l as [|x l IH]; intros Hall; simpl; [done|]. rewrite (Hall x) by left.
  apply IH. intros y Hy. apply Hall. by right.
Qed.

Lemma unstacked_no_stack_above n path :
  unstacked_path n path -> find_outermost_stack_above n path = None.
Proof.
  intros Hu. apply find_map_None_inv. intros depth Hd%elem_of_range. specialize (Hu depth Hd).
  unfold is_stack_at_path in Hu.
  destruct (get_node_at_path n (take depth path)) as [[p|s]|]; [done| |done].
  by rewrite Hu.
Qed.

(** [find_split_in_subtree] finds the outermost node of its leaf set. *)
Lemma find_split_outermost n pane_ids path path' m :
  find_split_in_subtree (sort_pane_ids pane_ids) n = Some path' ->
  get_node_at_path n path = Some m -> list_leaf_pane_ids m ≡ₚ pane_ids ->
  path `prefix_of` path' -> path' = path.
Proof.
  revert path path'. induction n as [p|s IH] using LayoutNode_tree_ind; intros path path';
    cbn [find_split_in_subtree]; destruct (_ && _) eqn:E; [| |by (intros [= <-] _ _ ->%prefix_nil_inv)|].
  - by intros [= <-] _ _ ->%prefix_nil_inv.
  - done.
  - intros (i & c & p' & -> & Hc & Hf & _)%find_child_path_Some Hget Hperm Hpre.
    destruct path as [|j path].
    { simpl in Hget. injection Hget as <-.
      by rewrite (proj2 (leaf_set_test_iff (Split s) pane_ids) Hperm) in E. }
    apply prefix_cons_inv_1 in Hpre as Hij. apply prefix_cons_inv_2 in Hpre. simpl in Hij. subst j.
    simpl in Hget. rewrite Hc in Hget. simpl in Hget. f_equal.
    rewrite Forall_lookup in IH. by eapply (IH i c Hc).
Qed.

Lemma check_group_valid t seen g :
  NoDup g -> (forall p, p ∈ g -> p ∉ seen /\ p ∈ list_leaf_pane_ids t) ->
  check_group_pane_ids t seen g = None.
Proof.
  revert seen. induction g as [|p g IH]; intros seen Hnd Hall; simpl; [done|].
  apply NoDup_cons in Hnd as [Hp Hnd]. destruct (Hall p ltac:(left)) as [Hseen Hin].
  rewrite bool_decide_eq_false_2 by done. rewrite (proj2 (has_pane_iff p t) Hin). simpl.
  apply IH; [done|]. intros q Hq. destruct (Hall q ltac:(by right)). split; [|done]. set_solver.
Qed.

Lemma node_leaves_NoDup t path m :
  NoDup (list_leaf_pane_ids t) -> get_node_at_path t path = Some m -> NoDup (list_leaf_pane_ids m).
Proof.
  intros Hnd Hm. destruct (get_node_at_path_mut_leaves t path (fun m => m) _ Hm)
    as (? & pre & post & _ & E & _).
  rewrite E in Hnd. by apply NoDup_app in Hnd as (_ & _ & [? _]%NoDup_app).
Qed.

(** An anchor on a node below no stack is accepted. *)
Lemma spans_node_validates source t span_anchor :
  NoDup (list_leaf_pane_ids t) -> spans_node source t span_anchor ->
  validate_placement_anchor t source span_anchor = ok tt.
Proof.
  intros Hnd (path & m & Hm & Hu & Ha). destruct span_anchor as [p|g|]; [| |done].
  - destruct Ha as [-> Hne]. simpl. rewrite (proj2 (N.eqb_neq _ _) Hne).
    assert (p ∈ list_leaf_pane_ids t) as [path' Hp']%find_pane_path_is_Some
      by (eapply leaves_below; [done|left]).
    rewrite Hp'. simpl. pose proof (find_pane_path_node _ _ _ Hp') as Hn'.
    rewrite unstacked_no_stack_above; [done|].
    destruct (nodes_sharing_leaf t path path' _ _ p Hnd Hm Hn') as [Hpre|Hpre]; [left|left| |].
    + destruct Hpre as [k ->]. rewrite get_node_at_path_app, Hm in Hn'. simpl in Hn'.
      destruct k; [by rewrite app_nil_r|done].
    + by eapply unstacked_path_prefix.
  - destruct Ha as [-> Hlen]. set (g := list_leaf_pane_ids m) in *.
    pose proof (node_leaves_NoDup t path m Hnd Hm) as Hndm. fold g in Hndm.
    unfold validate_placement_anchor, find_group_anchor_path.
    rewrite bool_decide_eq_false_2 by (intros E; rewrite E in Hlen; simpl in Hlen; lia).
    rewrite check_group_valid; [|done|]; cycle 1.
    { intros p Hp. split; [set_solver|by eapply leaves_below]. }
    destruct (forallb (fun p => p =? source) g) eqn:Ea.
    { exfalso. rewrite forallb_forall in Ea. destruct g as [|p [|q l]]; simpl in Hlen; [lia..|].
      apply NoDup_cons in Hndm as [Hp _]. apply Hp.
      assert (p = source) as -> by (apply N.eqb_eq, Ea; by left).
      assert (q = source) as -> by (apply N.eqb_eq, Ea; right; by left). left. }
    destruct (find_split_is_Some t g path m Hm) as [path' Hp']; [done|].
    unfold find_split_path_by_leaf_set. rewrite Hp'. simpl.
    rewrite unstacked_no_stack_above; [done|].
    destruct (find_split_Some _ _ _ Hp') as (m' & Hm' & Hperm).
    assert (exists x, x ∈ g) as [x Hx] by (destruct g; [simpl in Hlen; lia|eexists; left]).
    destruct (nodes_sharing_leaf t path path' m m' x Hnd Hm Hm' Hx) as [Hpre|Hpre].
    + by rewrite Hperm.
    + by rewrite (find_split_outermost t g path path' m Hp' Hm ltac:(done) Hpre).
    + by eapply unstacked_path_prefix.
Qed.

Lemma listed_spans_validate t solve tab_rect source span :
  NoDup (list_leaf_pane_ids t) ->
  span ∈ insertion_spans (list_placement_destinations t solve tab_rect source) ->
  validate_placement_anchor t source (anchor span) = ok tt.
Proof.
  intros Hnd Hspan. unfold list_placement_destinations in Hspan. simpl in Hspan.
  match type of Hspan with context [collect_insertion_spans t false ?w] =>
    destruct (collect_insertion_spans_adds source t false w eq_refl) as [_ Hadd] end.
  rewrite app_assoc in Hspan. apply elem_of_app in Hspan as [Hspan|Hspan].
  - destruct (Hadd span Hspan) as [Hold|[_ Hnode]]; [by apply not_elem_of_nil in Hold|].
    by apply spans_node_validates.
  - destruct (existsb _ _) in Hspan; [|set_solver].
    apply list_elem_of_singleton in Hspan as ->. done.
Qed.

(** ** The listed destinations are accepted *)

(** A placement that fails for want of room at most. *)
Definition accepted_if_it_fits (result : placement LayoutNode) : Prop :=
  match result with
  | Some (inr _) | Some (inl (DestinationTooSmall _ _)) => True
  | _ => False
  end.

Lemma validate_layout_fit_accepted t rect pane_sizing :
  accepted_if_it_fits (validate_layout_fit t rect pane_sizing).
Proof. unfold validate_layout_fit. by case_match. Qed.

Lemma validated_insertion_accepted t source span_anchor d rect pane_sizing :
  NoDup (list_leaf_pane_ids t) -> source ∈ list_leaf_pane_ids t ->
  validate_placement_anchor t source span_anchor = ok tt ->
  accepted_if_it_fits (place_pane_within_tree t source (Insert span_anchor d) rect pane_sizing).
Proof.
  intros Hnd [path Hp]%find_pane_path_is_Some Hval. unfold place_pane_within_tree.
  rewrite Hp. simpl. rewrite Hval. simpl.
  pose proof (remove_leaf_spec source t) as Hspec.
  destruct (remove_leaf source t) as [[] t1] eqn:Hrem; [|clear Hspec|done].
  - destruct Hspec as [Hnot _]. simpl in Hnot. apply Hnot, find_pane_path_is_Some. by eexists.
  - destruct (validated_anchor_survives t source span_anchor t1 Hnd Hrem Hval)
      as (apath & m & H1 & H2 & H3 & _).
    destruct (insert_resolved t1 (Pane source) span_anchor d apath m H1 H2 H3) as (t' & -> & _);
      [done|]. apply validate_layout_fit_accepted.
Qed.

Lemma slot_placement_accepted t source target rect pane_sizing :
  NoDup (list_leaf_pane_ids t) -> source ∈ list_leaf_pane_ids t ->
  target ∈ list_leaf_pane_ids t -> target <> source ->
  accepted_if_it_fits (place_pane_within_tree t source (Swap target) rect pane_sizing)
  /\ accepted_if_it_fits (place_pane_within_tree t source (Stack target) rect pane_sizing).
Proof.
  intros Hnd Hs Ht Hne.
  pose proof (proj2 (find_pane_path_is_Some source t) Hs) as [path Hp].
  pose proof (proj2 (find_pane_path_is_Some target t) Ht) as [tpath Htp].
  unfold place_pane_within_tree. rewrite Hp. simpl. rewrite (proj2 (N.eqb_neq _ _) Hne), Htp. simpl.
  split.
  - destruct (swap_writes t source target path tpath Hnd Hp Htp) as (t1 & -> & H2). simpl.
    rewrite H2. apply validate_layout_fit_accepted.
  - rewrite (proj2 (has_pane_iff target t) Ht). simpl.
    pose proof (remove_leaf_spec source t) as Hspec.
    destruct (remove_leaf source t) as [[] t1] eqn:Hrem.
    + by destruct Hspec.
    + pose proof (stack_panes_onto_target_spec t1 [source] target) as H.
      destruct (stack_panes_onto_target t1 [source] target) as [[e|t']|]; simpl; [| |done].
      * destruct H as [_ H]. exfalso. apply H. rewrite (remove_leaf_removed t source t1) by done.
        by apply list_elem_of_filter.
      * apply validate_layout_fit_accepted.
    + unfold removal_spec in Hspec. simpl in Hspec. rewrite Hspec in Ht. set_solver.
Qed.

(** Whatever is listed as a destination of a pane is one. Over a solve of
    the tree's own leaves, every listed insertion span is accepted on each of
    its four sides, and every listed slot for a swap and for a stacking: the
    placement succeeds, or is refused because the resulting tree does not fit.
    A listed span so never lies inside a stack, and never names a set of panes
    that is not one subtree. *)
Theorem listed_destinations_are_accepted t solve tab_rect source :
  NoDup (list_leaf_pane_ids t) -> (pane_rects solve).*1 = list_leaf_pane_ids t ->
  source ∈ list_leaf_pane_ids t ->
  let destinations := list_placement_destinations t solve tab_rect source in
  (forall span d rect pane_sizing, span ∈ insertion_spans destinations ->
     accepted_if_it_fits
       (place_pane_within_tree t source (Insert (anchor span) d) rect pane_sizing))
  /\ (forall slot rect pane_sizing, slot ∈ target_pane_slots destinations ->
       accepted_if_it_fits
         (place_pane_within_tree t source (Swap (slot_pane_id slot)) rect pane_sizing)
       /\ accepted_if_it_fits
            (place_pane_within_tree t source (Stack (slot_pane_id slot)) rect pane_sizing)).
Proof.
  intros Hnd Hsolve Hs. split.
  - intros span d rect sz Hspan. apply validated_insertion_accepted; [done..|].
    by eapply listed_spans_validate.
  - intros slot rect sz Hslot. simpl in Hslot. apply list_elem_of_In, in_map_iff in Hslot.
    destruct Hslot as (entry & <- & [Hin Hkeep]%filter_In). simpl.
    apply andb_true_iff in Hkeep as [Hne _]. apply negb_true_iff, N.eqb_neq in Hne.
    apply slot_placement_accepted; [done..| |done].
    rewrite <- Hsolve. apply list_elem_of_fmap. exists entry. split; [done|].
    by apply list_elem_of_In.
Qed.

Lemma listed_destinations_are_accepted_witness :
  let solve := solve_layout_with_sizing placed_tree placed_rect default_pane_sizing in
  let destinations := list_placement_destinations placed_tree solve placed_rect 3 in
  map anchor (insertion_spans destinations)
  = [AnchorPane 1; AnchorPane 2; AnchorGroup [2; 3]; AnchorTab]
  /\ accepted_if_it_fits
       (place_pane_within_tree placed_tree 3 (Insert (AnchorGroup [2; 3]) Left) placed_rect
          default_pane_sizing).
Proof.
  split; [vm_compute; reflexivity|].
  set (solve := solve_layout_with_sizing placed_tree placed_rect default_pane_sizing).
  refine (proj1 (listed_destinations_are_accepted placed_tree solve placed_rect 3 _ _ _)
    (MkInsertionSpan (AnchorGroup [2; 3]) _) Left placed_rect default_pane_sizing _).
  - apply (bool_decide_eq_true_1 _). vm_compute. reflexivity.
  - vm_compute. reflexivity.
  - apply (bool_decide_eq_true_1 _). vm_compute. reflexivity.
  - apply list_elem_of_lookup_2 with (i := 2%nat). vm_compute. reflexivity.
Defined.

(** ** The insertion under a cell *)

(** The cells between a point of a rect and the rect's side in [d]. *)
Definition cells_to_side (r : Rect) (point : Point) (d : Direction) : N :=
  match d with
  | Left => column point - column (origin r)
  | Right => get_right_edge r - 1 - column point
  | Up => row point - row (origin r)
  | Down => get_bottom_edge r - 1 - row point
  end.

Lemma nearest_of_four (l r t b : N) :
  let n := ((l `min` r) `min` t) `min` b in
  forall d d',
    d = (if n =? t then Up else if n =? b then Down else if n =? l then Left else Right) ->
    match d with Left => l | Right => r | Up => t | Down => b end
    <= match d' with Left => l | Right => r | Up => t | Down => b end.
Proof.
  intros n d d' ->. unfold n. clear n.
  destruct (_ =? t) eqn:E1; [bools; destruct d'; lia|].
  destruct (_ =? b) eqn:E2; [bools; destruct d'; lia|].
  destruct (_ =? l) eqn:E3; [bools; destruct d'; lia|]. bools. destruct d'; lia.
Qed.

Lemma nearest_edge_direction_spec r point d :
  Rect_wf r -> is_point_inside r point = true ->
  cells_to_side r point (compute_nearest_edge_direction r point) <= cells_to_side r point d.
Proof.
  intros [Hr Hb] Hin. unfold is_point_inside in Hin. bools.
  unfold get_right_edge, get_bottom_edge in *.
  unfold cells_to_side. refine (nearest_of_four (column point - column (origin r))
    (get_right_edge r - 1 - column point) (row point - row (origin r))
    (get_bottom_edge r - 1 - row point) (compute_nearest_edge_direction r point) d _).
  unfold compute_nearest_edge_direction, u16_saturating_add, u16_saturating_sub,
    get_right_edge, get_bottom_edge.
  replace ((column (origin r) + (column_count (size r) - 1)) `min` U16_MAX)
    with (column (origin r) + column_count (size r) - 1) by lia.
  replace ((row (origin r) + (row_count (size r) - 1)) `min` U16_MAX)
    with (row (origin r) + row_count (size r) - 1) by lia. reflexivity.
Qed.

Lemma span_key_lt_irreflexive a : span_key_lt a a = false.
Proof. unfold span_key_lt. by rewrite !N.ltb_irrefl. Qed.

Lemma span_key_lt_transitive a b c :
  span_key_lt a b = true -> span_key_lt b c = true -> span_key_lt a c = true.
Proof.
  unfold span_key_lt. generalize (compute_cell_count (size a.2)), (compute_cell_count (size b.2)),
    (compute_cell_count (size c.2)), (count_anchor_panes a.1), (count_anchor_panes b.1),
    (count_anchor_panes c.1). intros x y z u v w Hab Hbc.
  destruct (x <? y) eqn:E1; [|destruct (y <? x) eqn:E2; [done|]];
    (destruct (y <? z) eqn:E3; [|destruct (z <? y) eqn:E4; [done|]]); bools;
    (destruct (x <? z) eqn:E5; [done|destruct (z <? x) eqn:E6]); bools; (lia || (apply N.ltb_lt; lia)).
Qed.

(** The insertion under a cell is at a listed span that covers the cell,
    one of the smallest area and, among those, of the fewest panes; it goes to
    the side of that span that is nearest the cell. There is none exactly when
    no span covers the cell. *)
Theorem insertion_at_point_is_nearest spans point :
  Forall (fun span => Rect_wf span.2) spans ->
  match find_insertion_at_point spans point with
  | None => forall span, span ∈ spans -> is_point_inside span.2 point = false
  | Some (a, d) => exists r, (a, r) ∈ spans /\ is_point_inside r point = true
      /\ (forall other, other ∈ spans -> is_point_inside other.2 point = true ->
            compute_cell_count (size r) < compute_cell_count (size other.2)
            \/ (compute_cell_count (size r) = compute_cell_count (size other.2)
                /\ count_anchor_panes a <= count_anchor_panes other.1))
      /\ (forall d', cells_to_side r point d <= cells_to_side r point d')
  end.
Proof.
  intros Hwf. unfold find_insertion_at_point.
  destruct (min_by _ _) as [[a r]|] eqn:E; simpl.
  - apply min_by_Some in E as [Hin Hmin];
      [|exact span_key_lt_irreflexive|exact span_key_lt_transitive].
    apply list_elem_of_In, filter_In in Hin as [Hin%list_elem_of_In Hr]. simpl in Hr.
    exists r. split_and!; [done|done| |].
    + intros other Ho Hor. specialize (Hmin other). unfold span_key_lt in Hmin. simpl in Hmin.
      assert (other ∈ List.filter (fun span : PanePlacementAnchor * Rect =>
        is_point_inside span.2 point) spans) as Hof
        by (apply list_elem_of_In, filter_In; split; [by apply list_elem_of_In|done]).
      specialize (Hmin Hof). repeat case_match; bools; try done; lia.
    + intros d'. apply nearest_edge_direction_spec; [|done].
      rewrite Forall_forall in Hwf. exact (Hwf _ Hin).
  - apply min_by_None in E. intros span Hspan.
    destruct (is_point_inside span.2 point) eqn:Hp; [|done]. exfalso.
    apply (not_elem_of_nil span). rewrite <- E.
    apply list_elem_of_In, filter_In. split; [by apply list_elem_of_In|done].
Qed.

Lemma insertion_at_point_is_nearest_witness :
  let spans := [(AnchorPane 2, MkRect (MkPoint 40 0) (MkSize 40 22));
                (AnchorTab, MkRect (MkPoint 0 0) (MkSize 80 22))] in
  Forall (fun span : PanePlacementAnchor * Rect => Rect_wf span.2) spans
  /\ find_insertion_at_point spans (MkPoint 75 10) = Some (AnchorPane 2, Right)
  /\ exists r, (AnchorPane 2, r) ∈ spans /\ is_point_inside r (MkPoint 75 10) = true.
Proof.
  intros spans.
  assert (Forall (fun span : PanePlacementAnchor * Rect => Rect_wf span.2) spans) as Hwf
    by (repeat constructor; vm_compute; discriminate).
  split; [exact Hwf|]. split; [vm_compute; reflexivity|].
  destruct (insertion_at_point_is_nearest spans (MkPoint 75 10) Hwf) as (r & H1 & H2 & _).
  exists r. split; [exact H1|exact H2].
Defined.

(** ** The placed pane is shown *)

(** The pane stands in the shown member of every stack above it. *)
Inductive opened (p : PaneId) : LayoutNode -> Prop :=
  | opened_Pane : opened p (Pane p)
  | opened_Split s i c :
      children s !! i = Some c -> opened p c ->
      (direction s = Stacked -> get_active_child_index s = i) -> opened p (Split s).

Lemma opened_leaf p n : opened p n -> p ∈ list_leaf_pane_ids n.
Proof.
  induction 1 as [|s i c Hc _ IH _]; [left|]. apply elem_of_leaves_Split. exists c.
  split; [by eapply list_elem_of_lookup_2|done].
Qed.

(** A solve gives an opened pane no header, and cells unless it is suppressed. *)
Definition shows_pane (p : PaneId) (st : LayoutSolveState) : Prop :=
  (exists r, (p, r) ∈ state_pane_rects st
     /\ (is_empty r = false \/ p ∈ state_suppressed_pane_ids st))
  /\ forall h, h ∈ state_stack_headers st -> header_pane_id h <> p.

(** The headers of a child's solve are of its own leaves. *)
Lemma solve_child_header_leaf pane_sizing s i child r h :
  (is_empty r = false -> Rect_wf r) ->
  h ∈ state_stack_headers (solve_child s i child r (from_pane_sizing pane_sizing)) ->
  header_pane_id h ∈ list_leaf_pane_ids child.
Proof.
  intros Hwf. unfold solve_child. destruct (is_empty r) eqn:E.
  { rewrite suppress_from_empty. simpl. intros H. by apply not_elem_of_nil in H. }
  destruct (_ && _).
  - rewrite header_from_empty. destruct (list_leaf_pane_ids child) as [|p ps]; simpl.
    + intros H. by apply not_elem_of_nil in H.
    + intros ->%list_elem_of_singleton. simpl. left.
  - intros H. rewrite <- (pi_leaves _ _ _ (solve_layout_node_placed pane_sizing child r (Hwf eq_refl))).
    apply (la_headers _ (solve_layout_node_lists_agree pane_sizing child r (Hwf eq_refl))) in H
      as [H _].
    apply list_elem_of_fmap. by eexists (_, _).
Qed.

Lemma opened_shown p pane_sizing n r :
  NoDup (list_leaf_pane_ids n) -> opened p n -> Rect_wf r ->
  shows_pane p (solve_layout_node n r (from_pane_sizing pane_sizing)).
Proof.
  intros Hnd Hop. revert r. induction Hop as [|s i c Hc Hop IH Hact]; intros r Hwf.
  { simpl. destruct (is_leaf_within_minimum _ _) eqn:E; (split; [|intros h H; simpl in H; set_solver]).
    - exists r. split; [simpl; set_solver|]. left.
      unfold is_leaf_within_minimum, compute_border_inclusive_minimum, from_size_sum,
        RequiredSize_can_fit_inside in E. simpl in E. unfold is_empty. bools.
      apply orb_false_iff. split; apply N.eqb_neq; lia.
    - exists build_empty_at_origin. split; simpl; set_solver. }
  destruct (NoDup_leaves_child s i c Hnd Hc) as [Hndc Hother].
  destruct (split_solved pane_sizing s r Hwf) as (H1 & H2 & H3).
  set (ps := pieces pane_sizing s 0 (children s) (child_rects s r pane_sizing)) in *.
  destruct (lookup_lt_is_Some_2 (child_rects s r pane_sizing) i) as [r' Hr'].
  { rewrite child_rects_length by done. by eapply lookup_lt_Some. }
  assert (ps !! i = Some (solve_child s i c r' (from_pane_sizing pane_sizing))) as Hpiece
    by (apply pieces_lookup; by exists c, r').
  assert (shows_pane p (solve_child s i c r' (from_pane_sizing pane_sizing))) as [(rp & Hrp & Hv) Hh].
  { unfold solve_child. destruct (is_empty r') eqn:Ee.
    - rewrite suppress_from_empty. pose proof (opened_leaf p c Hop) as Hl. split; simpl.
      + exists build_empty_at_origin. split; [|by right]. apply list_elem_of_fmap. eauto.
      + intros h Hh%not_elem_of_nil. done.
    - destruct (_ && _) eqn:Ea.
      + exfalso. apply andb_true_iff in Ea as [Ea1 Ea2]. bools. by rewrite (Hact Ea1) in Ea2.
      + apply IH; [done|]. by eapply child_rect_wf. }
  assert (forall l, l ∈ ps -> forall h, h ∈ state_stack_headers l -> header_pane_id h <> p) as Hall.
  { intros l [j Hj]%list_elem_of_lookup h Hhl. destruct (decide (i = j)) as [<-|Hne].
    { rewrite Hpiece in Hj. injection Hj as <-. by apply Hh. }
    apply pieces_lookup in Hj as (c' & rj & Hc' & Hrj & ->). intros Heq.
    apply solve_child_header_leaf in Hhl; [|intros; by eapply child_rect_wf].
    rewrite Heq in Hhl. apply Hne. apply (Hother j c' p); [done|by apply opened_leaf|done]. }
  apply list_elem_of_lookup_2 in Hpiece. split.
  - exists rp. rewrite H1, H2. split; [|destruct Hv as [Hv|Hv]; [by left|right]];
      apply elem_of_concat; eexists; (split; [|done]); apply list_elem_of_fmap; eauto.
  - intros h. rewrite H3. intros (l & (x & -> & Hx)%list_elem_of_fmap & Hhl)%elem_of_concat.
    by eapply Hall.
Qed.

(** With [p] first in the focus history, the member that holds it is shown. *)
Lemma shown_child_of_head s p history i :
  position (has_pane p) (children s) = Some i -> get_shown_child_index s (p :: history) = i.
Proof. intros H. unfold get_shown_child_index. simpl. by rewrite H. Qed.

Lemma holding_child s p :
  p ∈ list_leaf_pane_ids (Split s) ->
  exists i c, position (has_pane p) (children s) = Some i /\ children s !! i = Some c
    /\ p ∈ list_leaf_pane_ids c.
Proof.
  intros (c & Hc & Hp)%elem_of_leaves_Split.
  destruct (position (has_pane p) (children s)) as [i|] eqn:E.
  - apply position_Some in E as Hi. destruct Hi as (c' & Hc' & Hp' & _).
    exists i, c'. split_and!; [done|done|by apply has_pane_iff].
  - exfalso. apply position_None with (x := c) in E; [|done].
    by apply has_pane_false in E.
Qed.

Lemma apply_shown_opened p history n :
  p ∈ list_leaf_pane_ids n -> opened p (apply_shown_stack_members (p :: history) n).
Proof.
  induction n as [q|s IH] using LayoutNode_tree_ind; intros Hp.
  { rewrite list_leaf_pane_ids_Pane in Hp. apply list_elem_of_singleton in Hp as ->. constructor. }
  destruct (holding_child s p Hp) as (i & c & Hpos & Hc & Hpc). simpl.
  rewrite Forall_lookup in IH.
  apply opened_Split with (i := i) (c := apply_shown_stack_members (p :: history) c); simpl.
  - change (map ?f (children s)) with (f <$> children s). by rewrite list_lookup_fmap, Hc.
  - by eapply IH.
  - intros Hd. rewrite bool_decide_eq_true_2 by done. unfold get_active_child_index. simpl.
    rewrite (shown_child_of_head s p history i Hpos), length_map.
    apply lookup_lt_Some in Hc. lia.
Qed.

Lemma unchanged_shown_opened p history n :
  p ∈ list_leaf_pane_ids n -> has_stack_showing_inactive_member n (p :: history) = false ->
  opened p n.
Proof.
  induction n as [q|s IH] using LayoutNode_tree_ind; intros Hp Hno.
  { rewrite list_leaf_pane_ids_Pane in Hp. apply list_elem_of_singleton in Hp as ->. constructor. }
  destruct (holding_child s p Hp) as (i & c & Hpos & Hc & Hpc).
  cbn [has_stack_showing_inactive_member] in Hno.
  apply orb_false_iff in Hno as [Hs Hcs]. rewrite Forall_lookup in IH.
  apply opened_Split with (i := i) (c := c); [done| |].
  - apply (IH i c Hc Hpc). apply not_true_iff_false. intros Hyes.
    apply not_true_iff_false in Hcs. apply Hcs, existsb_exists. exists c.
    split; [|done]. apply list_elem_of_In. by eapply list_elem_of_lookup_2.
  - intros Hd. rewrite bool_decide_eq_true_2 in Hs by done. simpl in Hs. bools.
    by rewrite <- Hs, (shown_child_of_head s p history i Hpos).
Qed.

Lemma shown_tree_opened p history n :
  p ∈ list_leaf_pane_ids n -> opened p (default n (build_shown_layout_tree n (p :: history))).
Proof.
  intros Hp. unfold build_shown_layout_tree.
  destruct (has_stack_showing_inactive_member n (p :: history)) eqn:E; simpl.
  - by apply apply_shown_opened.
  - by eapply unchanged_shown_opened.
Qed.

Lemma apply_shown_leaves history n :
  list_leaf_pane_ids (apply_shown_stack_members history n) = list_leaf_pane_ids n.
Proof.
  induction n as [q|s IH] using LayoutNode_tree_ind; [done|]. simpl.
  rewrite !list_leaf_pane_ids_Split. simpl.
  induction IH as [|c cs Hc _ IHcs]; csimpl; [done|]. rewrite Hc. f_equal. apply IHcs.
Qed.

Lemma shown_tree_leaves history n :
  list_leaf_pane_ids (default n (build_shown_layout_tree n history)) = list_leaf_pane_ids n.
Proof.
  unfold build_shown_layout_tree. destruct (has_stack_showing_inactive_member n history); simpl;
    [apply apply_shown_leaves|done].
Qed.

Lemma placed_focus_history_head t placed history :
  placed ∈ list_leaf_pane_ids t ->
  exists rest, place_in_focus_history (list_to_set (list_leaf_pane_ids t)) placed history
    = placed :: rest.
Proof.
  intros Hp. unfold place_in_focus_history. simpl.
  rewrite bool_decide_eq_true_2 by (by apply elem_of_list_to_set). by eexists.
Qed.

Lemma find_pane_rect_elem solve p r :
  NoDup (pane_rects solve).*1 -> (p, r) ∈ pane_rects solve -> find_pane_rect solve p = Some r.
Proof.
  unfold find_pane_rect. induction (pane_rects solve) as [|[q r'] l IH]; csimpl; intros Hnd Hin.
  { by apply not_elem_of_nil in Hin. }
  apply NoDup_cons in Hnd as [Hq Hnd]. destruct (q =? p) eqn:E; bools.
  - subst q. apply elem_of_cons in Hin as [Heq|Hin]; [by injection Heq as <-|].
    exfalso. apply Hq. apply list_elem_of_fmap. by exists (p, r).
  - apply elem_of_cons in Hin as [Heq|Hin]; [congruence|]. by apply IH.
Qed.

(** The layout a client previews after a placement shows the placed pane.
    The pane leads the focus history, and in the solve it is never the header
    strip of a collapsed stack member: it shows its content, unless there is
    no room for it and it is listed as suppressed. The solve holds exactly the
    panes of the tree. *)
Theorem placed_pane_is_shown t placed history tab_size pane_sizing :
  NoDup (list_leaf_pane_ids t) -> placed ∈ list_leaf_pane_ids t -> Size_wf tab_size ->
  let placed_solve := solve_placed_tab t placed history tab_size pane_sizing in
  let solve := placed_layout_solve placed_solve in
  head (placed_focus_history placed_solve) = Some placed
  /\ (pane_rects solve).*1 = list_leaf_pane_ids t
  /\ exists r, find_pane_rect solve placed = Some r
       /\ (is_content_visible placed r (stack_headers solve) = true
           \/ placed ∈ suppressed_pane_ids solve).
Proof.
  intros Hnd Hp [Hw1 Hw2]. unfold solve_placed_tab. simpl.
  destruct (placed_focus_history_head t placed history Hp) as [rest E]. rewrite E.
  set (shown := default t (build_shown_layout_tree t (placed :: rest))).
  assert (list_leaf_pane_ids shown = list_leaf_pane_ids t) as Hl by apply shown_tree_leaves.
  assert (Rect_wf (from_size_at_origin tab_size)) as Hwf by (unfold_rect; simpl; unfold is_u16 in *; lia).
  pose proof (solve_layout_node_placed pane_sizing shown _ Hwf) as Hplaced.
  assert (opened placed shown) as Hop by (by apply shown_tree_opened).
  destruct (opened_shown placed pane_sizing shown (from_size_at_origin tab_size))
    as [(r & Hr & Hv) Hh]; [by rewrite Hl|done|done|].
  apply pi_leaves in Hplaced. rewrite Hl in Hplaced. split_and!; [done|done|].
  exists r. split.
  - apply find_pane_rect_elem; [|done]. simpl. by rewrite Hplaced.
  - destruct Hv as [Hv|Hv]; [left|by right]. unfold is_content_visible. rewrite Hv. simpl.
    apply negb_true_iff, not_true_iff_false. intros (h & Hin & Heq)%existsb_exists.
    bools. apply list_elem_of_In in Hin. by apply (Hh h Hin).
Qed.

Lemma placed_pane_is_shown_witness :
  let t := Split (from_stacked_pane_ids [1; 2] 0) in
  let placed_solve := solve_placed_tab t 2 [1] (MkSize 80 24) default_pane_sizing in
  placed_focus_history placed_solve = [2; 1]
  /\ exists r, find_pane_rect (placed_layout_solve placed_solve) 2 = Some r.
Proof.
  intros t placed_solve. split; [vm_compute; reflexivity|].
  destruct (placed_pane_is_shown t 2 [1] (MkSize 80 24) default_pane_sizing) as (_ & _ & r & Hr & _).
  - apply (bool_decide_eq_true_1 _). vm_compute. reflexivity.
  - apply (bool_decide_eq_true_1 _). vm_compute. reflexivity.
  - split; vm_compute; discriminate.
  - exists r. exact Hr.
Defined.
