(* ===== verification/Deltas.v ===== *)
(** * Weights that differ in their resize deltas

    A resize and the conversion of older trees write [resize_delta]s and
    nothing else. What depends on the other fields of a weight only, the
    floors, the minimum sizes, the kept children, the shares and the targets,
    is the same before and after. *)

From S2P Require Import Prelude Geometry Size Tree Distribute Solver.
From stdpp Require Import options.

(** ** Weight lists *)

Abbreviation same_weights := (Forall2 same_constraints).

Lemma is_flexible_same w w' : same_constraints w w' -> is_flexible w = is_flexible w'.
Proof. unfold is_flexible. by intros (-> & _ & _)%same_constraints_proj. Qed.

Lemma get_preferred_same w w' :
  same_constraints w w' -> get_preferred_cell_count w = get_preferred_cell_count w'.
Proof. unfold get_preferred_cell_count. by intros (-> & _ & ->)%same_constraints_proj. Qed.

Lemma flexible_weight_same w w' : same_constraints w w' -> flexible_weight w = flexible_weight w'.
Proof. unfold flexible_weight. by intros (-> & _ & _)%same_constraints_proj. Qed.

Lemma weight_floor_same w w' : same_constraints w w' -> weight_floor w = weight_floor w'.
Proof. unfold weight_floor. by intros (-> & -> & _)%same_constraints_proj. Qed.

Lemma weight_at_same ws ws' i :
  same_weights ws ws' -> same_constraints (weight_at ws i) (weight_at ws' i).
Proof.
  intros H. unfold weight_at. destruct (ws !! i) as [w|] eqn:E.
  - destruct (Forall2_lookup_l _ _ _ _ _ H E) as (w' & -> & Hw). done.
  - apply lookup_ge_None_1 in E. rewrite (Forall2_length _ _ _ H) in E.
    by rewrite lookup_ge_None_2.
Qed.

(** Two entries of an enumeration, at one index. *)
Definition same_entry {A} (R : A -> A -> Prop) (a b : nat * A) : Prop := a.1 = b.1 /\ R a.2 b.2.

Lemma enumerate_Forall2 {A} (R : A -> A -> Prop) l l' :
  Forall2 R l l' -> Forall2 (same_entry R) (enumerate l) (enumerate l').
Proof.
  intros H. apply Forall2_same_length_lookup_2.
  { rewrite !enumerate_length. by eapply Forall2_length. }
  intros k [i x] [j y] Hx Hy. unfold enumerate in *.
  rewrite list_lookup_imap in Hx, Hy. apply fmap_Some in Hx as (x' & Hx & [= -> ->]).
  apply fmap_Some in Hy as (y' & Hy & [= -> ->]). split; [done|]. simpl.
  by eapply Forall2_lookup_lr.
Qed.

(** Two loops that step alike over lists in relation. *)
Lemma foldl_Forall2 {A B S} (R : A -> B -> Prop) (P : S -> S -> Prop) (f : S -> A -> S)
    (g : S -> B -> S) l l' st st' :
  (forall st st' a b, R a b -> P st st' -> P (f st a) (g st' b)) ->
  Forall2 R l l' -> P st st' -> P (foldl f st l) (foldl g st' l').
Proof.
  intros Hstep H. revert st st'. induction H as [|a b l l' Hab _ IH]; intros st st' HP; simpl;
    [done|]. apply IH. by apply Hstep.
Qed.

Lemma foldl_enumerate_same {St} (f : St -> nat * SizeWeight -> St) ws ws' st :
  (forall st i w w', same_constraints w w' -> f st (i, w) = f st (i, w')) ->
  same_weights ws ws' -> foldl f st (enumerate ws) = foldl f st (enumerate ws').
Proof.
  intros Hf H%enumerate_Forall2.
  apply (foldl_Forall2 (same_entry same_constraints) eq f f); [|done|done].
  intros s1 s2 [i w] [j w'] [Hi Hw] <-. simpl in *. subst j. by apply Hf.
Qed.

Lemma flexible_pairs_same ws ws' :
  same_weights ws ws' ->
  list_flexible_child_weight_pairs ws = list_flexible_child_weight_pairs ws'.
Proof.
  intros H%enumerate_Forall2. unfold list_flexible_child_weight_pairs.
  induction H as [|[i w] [j w'] l l' [Hi Hw] _ IH]; [done|]. simpl in *. subst j.
  rewrite (flexible_weight_same _ _ Hw). destruct (flexible_weight w'); simpl; [f_equal|]; exact IH.
Qed.

Lemma claim_fixed_same st i w w' :
  same_constraints w w' -> claim_fixed_cells st (i, w) = claim_fixed_cells st (i, w').
Proof. intros (E & _ & _)%same_constraints_proj. unfold claim_fixed_cells. simpl. by rewrite E. Qed.

Lemma claim_percent_same available st i w w' :
  same_constraints w w' -> claim_percent_cells available st (i, w) = claim_percent_cells available st (i, w').
Proof. intros (E & _ & _)%same_constraints_proj. unfold claim_percent_cells. simpl. by rewrite E. Qed.

Lemma share_cell_counts_same ws ws' available :
  same_weights ws ws' ->
  compute_share_cell_counts ws available = compute_share_cell_counts ws' available.
Proof.
  intros H. unfold compute_share_cell_counts.
  rewrite (Forall2_length _ _ _ H), (flexible_pairs_same _ _ H).
  rewrite (foldl_enumerate_same claim_fixed_cells ws ws' _ claim_fixed_same H).
  by rewrite (foldl_enumerate_same _ ws ws' _ (claim_percent_same available) H).
Qed.

Lemma take_donor_pass_same ws ws' floors needed skipped pass idxs counts taken :
  same_weights ws ws' ->
  take_donor_pass ws floors needed skipped pass idxs counts taken
  = take_donor_pass ws' floors needed skipped pass idxs counts taken.
Proof.
  intros H. revert counts taken. induction idxs as [|i idxs IH]; intros counts taken; simpl; [done|].
  rewrite (is_flexible_same _ _ (weight_at_same ws ws' i H)). by rewrite !IH.
Qed.

Lemma take_donor_cell_count_same ws ws' floors counts needed skipped pool :
  same_weights ws ws' ->
  take_donor_cell_count counts ws floors needed skipped pool
  = take_donor_cell_count counts ws' floors needed skipped pool.
Proof.
  intros H. unfold take_donor_cell_count. rewrite (take_donor_pass_same ws ws') by done.
  destruct (take_donor_pass _ _ _ _ _ _ _ _) as [c t]. by rewrite (take_donor_pass_same ws ws').
Qed.

Lemma find_receiver_same ws ws' i :
  same_weights ws ws' -> find_receiver ws i = find_receiver ws' i.
Proof.
  intros H. unfold find_receiver. rewrite (Forall2_length _ _ _ H).
  induction (range_rev (length ws')) as [|j l IH]; simpl; [done|].
  by rewrite (is_flexible_same _ _ (weight_at_same ws ws' j H)), IH.
Qed.

Lemma preferred_cell_counts_same ws ws' floors counts :
  same_weights ws ws' ->
  apply_preferred_cell_counts counts ws floors = apply_preferred_cell_counts counts ws' floors.
Proof.
  intros H. unfold apply_preferred_cell_counts. rewrite (Forall2_length _ _ _ H).
  apply foldl_ext_eq. intros c i. unfold apply_preferred_at.
  rewrite (get_preferred_same _ _ (weight_at_same ws ws' i H)), (find_receiver_same ws ws') by done.
  destruct (get_preferred_cell_count _); [|done]. by rewrite (take_donor_cell_count_same ws ws').
Qed.

Lemma clamp_to_floors_same ws ws' floors counts available :
  same_weights ws ws' ->
  clamp_cell_counts_to_floors counts ws floors available
  = clamp_cell_counts_to_floors counts ws' floors available.
Proof.
  intros H. unfold clamp_cell_counts_to_floors. case_match; [done|].
  apply foldl_ext_eq. intros c i. unfold clamp_to_floor_at.
  by rewrite (take_donor_cell_count_same ws ws').
Qed.

(** ** Splits and trees *)

(** The weight of a child's slot; a missing weight is the default share. *)
Definition slot_weight (s : SplitNode) (i : nat) : SizeWeight :=
  default default_size_weight (weights s !! i).

(** Two splits whose slots differ in their resize deltas at most, above any
    children. *)
Definition same_slots (s s' : SplitNode) : Prop :=
  direction s = direction s' /\ active_child_index s = active_child_index s'
  /\ forall i, same_constraints (slot_weight s i) (slot_weight s' i).

(** The same tree up to resize deltas. *)
Inductive same_but_deltas : LayoutNode -> LayoutNode -> Prop :=
  | same_but_deltas_Pane p : same_but_deltas (Pane p) (Pane p)
  | same_but_deltas_Split s s' :
      same_slots s s' -> Forall2 same_but_deltas (children s) (children s') ->
      same_but_deltas (Split s) (Split s').

#[export] Instance same_slots_equivalence : Equivalence same_slots.
Proof.
  split; unfold same_slots.
  - intros s. split_and!; [done|done|]. intros i. reflexivity.
  - intros s s' (-> & -> & H). split_and!; [done|done|]. intros i. by symmetry.
  - intros s1 s2 s3 (-> & -> & H1) (-> & -> & H2). split_and!; [done|done|].
    intros i. by transitivity (slot_weight s2 i).
Qed.

(** [Vec::resize] to the child count, when the weights are fewer. *)
Definition pad_weights (s : SplitNode) : SplitNode :=
  if (length (weights s) <? length (children s))%nat
  then set_weights (weights s ++ replicate (length (children s) - length (weights s))
         default_size_weight) s
  else s.

Lemma slot_weight_set_weights ws s i :
  slot_weight (set_weights ws s) i = default default_size_weight (ws !! i).
Proof. done. Qed.

Lemma pad_weights_slots s i : slot_weight (pad_weights s) i = slot_weight s i.
Proof.
  unfold pad_weights. case_match; [|done]. rewrite slot_weight_set_weights. unfold slot_weight.
  destruct (decide (i < length (weights s))%nat) as [Hi|Hi].
  - by rewrite lookup_app_l.
  - rewrite lookup_app_r, (lookup_ge_None_2 (weights s)) by lia.
    destruct (_ !! (i - length (weights s))%nat) as [w|] eqn:E; [|done].
    by apply lookup_replicate in E as [-> _].
Qed.

Lemma pad_weights_same s : same_slots (pad_weights s) s.
Proof.
  split_and!; [unfold pad_weights; by case_match..|]. intros i. by rewrite pad_weights_slots.
Qed.

Lemma pad_weights_children s : children (pad_weights s) = children s.
Proof. unfold pad_weights. by case_match. Qed.

Lemma pad_weights_length s : (length (children s) <= length (weights (pad_weights s)))%nat.
Proof.
  unfold pad_weights. case_match; bools; [|done]. simpl. rewrite length_app, length_replicate. lia.
Qed.

#[export] Hint Resolve pad_weights_same : koshi.

Lemma same_but_deltas_Split_inv s n' :
  same_but_deltas (Split s) n' ->
  exists s', n' = Split s' /\ same_slots s s' /\ Forall2 same_but_deltas (children s) (children s').
Proof. inversion 1; subst. eauto. Qed.

#[export] Instance same_but_deltas_equivalence : Equivalence same_but_deltas.
Proof.
  split.
  - intros n. induction n as [p|s IH] using LayoutNode_tree_ind; constructor; [done|].
    by apply Forall_Forall2_diag.
  - intros n. induction n as [p|s IH] using LayoutNode_tree_ind; intros n' H.
    + inversion H. constructor.
    + apply same_but_deltas_Split_inv in H as (s' & -> & Hs & Hc). constructor; [by symmetry|].
      apply Forall2_flip. eapply Forall2_impl; [by apply Forall2_with_Forall|].
      simpl. intros a b [Hab H]. by apply Hab.
  - intros n1. induction n1 as [p|s IH] using LayoutNode_tree_ind; intros n2 n3 H1 H2.
    + inversion H1; subst. by inversion H2; subst.
    + apply same_but_deltas_Split_inv in H1 as (s2 & -> & Hs2 & Hc2).
      apply same_but_deltas_Split_inv in H2 as (s3 & -> & Hs3 & Hc3).
      constructor; [by transitivity s2|]. clear Hs2 Hs3. revert IH Hc3. generalize (children s3).
      induction Hc2 as [|a b l l' Hab _ IHl]; intros l3 IH Hc3; inversion Hc3; subst; constructor.
      * apply Forall_cons in IH as [Ha _]. by eapply Ha.
      * apply Forall_cons in IH as [_ IH]. by apply IHl.
Qed.

#[export] Instance list_leaf_pane_ids_Proper : Proper (same_but_deltas ==> eq) list_leaf_pane_ids.
Proof.
  intros n. induction n as [p|s IH] using LayoutNode_tree_ind; intros n' H.
  - by inversion H.
  - apply same_but_deltas_Split_inv in H as (s' & -> & _ & Hc).
    rewrite !list_leaf_pane_ids_Split, <- !concat_fmap_bind. f_equal. apply Forall2_fmap_eq.
    eapply Forall2_impl; [by apply Forall2_with_Forall|]. simpl. intros a b [Hab H]. by apply Hab.
Qed.

Lemma slot_floor s i : weight_floor (slot_weight s i)
  = default 0 (weight_floor <$> weights s !! i).
Proof. unfold slot_weight. by destruct (weights s !! i). Qed.

Lemma child_floor_same s s' i m :
  same_slots s s' -> compute_child_floor s i m = compute_child_floor s' i m.
Proof.
  intros (_ & _ & Hw). specialize (Hw i). apply weight_floor_same in Hw.
  rewrite !slot_floor in Hw. unfold compute_child_floor.
  destruct (weights s !! i), (weights s' !! i); simpl in *; congruence.
Qed.

#[export] Instance compute_minimum_size_Proper pane_sizing :
  Proper (same_but_deltas ==> eq) (compute_minimum_size pane_sizing).
Proof.
  intros n. induction n as [p|s IH] using LayoutNode_tree_ind; intros n' H.
  { by inversion H. }
  apply same_but_deltas_Split_inv in H as (s' & -> & Hs & Hc).
  assert (map (compute_minimum_size pane_sizing) (children s)
    = map (compute_minimum_size pane_sizing) (children s')) as Hm.
  { apply Forall2_fmap_eq. eapply Forall2_impl; [by apply Forall2_with_Forall|].
    simpl. intros a b [Hab H]. by apply Hab. }
  simpl. rewrite Hm. pose proof Hs as (Hd & Ha & _). pose proof (Forall2_length _ _ _ Hc) as Hl.
  rewrite Hd. set (ms := map _ _).
  assert (is_horizontal s = is_horizontal s') as Hh by (unfold is_horizontal; by rewrite Hd).
  assert (directional_minimum_size pane_sizing s ms = directional_minimum_size pane_sizing s' ms)
    as Hdir.
  { unfold directional_minimum_size. rewrite Hl, Hh.
    rewrite (foldl_ext_eq (add_child_minimum s) (add_child_minimum s')); [done|].
    intros st im. unfold add_child_minimum. rewrite Hh.
    destruct (split_axis_and_cross_cell_counts _ _ _). by rewrite (child_floor_same s s'). }
  assert (stack_minimum_size s ms = stack_minimum_size s' ms) as Hst.
  { unfold stack_minimum_size, get_active_child_index. by rewrite Hl, Ha. }
  destruct (direction s'); [exact Hdir|exact Hdir|exact Hst].
Qed.

(** The states of the keep loop over two splits of the same slots. *)
Definition same_keep_state (st st' : KeepState) : Prop :=
  keep_flags st = keep_flags st' /\ keep_floors st = keep_floors st'
  /\ can_keep_children st = can_keep_children st' /\ claimed_cell_count st = claimed_cell_count st'
  /\ same_weights (keep_weights st) (keep_weights st').

Lemma keep_child_same s s' pane_sizing available cross st st' a b :
  same_slots s s' -> same_entry same_but_deltas a b -> same_keep_state st st' ->
  same_keep_state (keep_child s pane_sizing available cross st a)
    (keep_child s' pane_sizing available cross st' b).
Proof.
  destruct a as [i c], b as [j c']. intros Hs [Hij Hc] (E1 & E2 & E3 & E4 & E5).
  simpl in Hij, Hc. subst j. unfold keep_child. simpl.
  rewrite (compute_minimum_size_Proper pane_sizing c c' Hc).
  assert (is_horizontal s = is_horizontal s') as ->
    by (unfold is_horizontal; by rewrite (proj1 Hs)).
  destruct (split_axis_and_cross_cell_counts _ _ _) as [am cm].
  rewrite (child_floor_same s s') by done. rewrite E3, E4.
  assert (bool_decide (keep_weights st = []) = bool_decide (keep_weights st' = [])) as ->.
  { apply bool_decide_ext. split; intros E; rewrite E in E5; by inversion E5. }
  repeat case_match; try done; unfold same_keep_state; simpl; split_and!; try done;
    try (by f_equal); try (by rewrite ?E1, ?E2).
  all: apply Forall2_app; [done|]; constructor; [apply Hs|done].
Qed.

Lemma list_kept_children_same s s' r pane_sizing :
  same_slots s s' -> Forall2 same_but_deltas (children s) (children s') ->
  let kc := list_kept_children s r pane_sizing in
  let kc' := list_kept_children s' r pane_sizing in
  is_child_kept kc = is_child_kept kc' /\ kept_floors kc = kept_floors kc'
  /\ shared_cell_count kc = shared_cell_count kc'
  /\ same_weights (kept_weights kc) (kept_weights kc').
Proof.
  intros Hs Hc. unfold list_kept_children.
  assert (is_horizontal s = is_horizontal s') as <-
    by (unfold is_horizontal; by rewrite (proj1 Hs)).
  destruct (split_axis_and_cross_cell_counts _ _ _) as [available cross]. simpl.
  rewrite <- (Forall2_length _ _ _ Hc). apply enumerate_Forall2 in Hc.
  destruct (foldl_Forall2 (same_entry same_but_deltas) same_keep_state
    (keep_child s pane_sizing available cross) (keep_child s' pane_sizing available cross)
    _ _ (MkKeepState (replicate (length (children s)) false) [] [] true 0)
    (MkKeepState (replicate (length (children s)) false) [] [] true 0)
    (fun st st' a b Hab Hst => keep_child_same s s' pane_sizing available cross st st' a b Hs Hab Hst)
    Hc) as (E1 & E2 & E3 & E4 & E5); [by split_and!|].
  split_and!; [done|done| |done]. by rewrite (Forall2_length _ _ _ E5).
Qed.

(** The weight of a kept child is its slot's. *)
Lemma kept_weights_lookup pane_sizing s r i :
  Rect_wf r -> let kc := list_kept_children s r pane_sizing in
  is_child_kept kc !! i = Some true ->
  kept_weights kc !! rank (is_child_kept kc) i = Some (slot_weight s i).
Proof.
  intros Hwf. unfold list_kept_children.
  pose proof (axis_length_le (is_horizontal s) r Hwf) as Hav.
  assert (split_axis_and_cross_cell_counts (column_count (size r)) (row_count (size r))
    (is_horizontal s) = (axis_length (is_horizontal s) r, cross_length (is_horizontal s) r)) as ->.
  { by destruct (is_horizontal s). }
  simpl. set (available := axis_length _ _) in *. set (cross := cross_length _ _).
  set (init := MkKeepState _ _ _ _ _).
  destruct (foldl_prefix_inv (fun pre st => keep_inv pane_sizing s available cross (length pre) st
    /\ forall i, (i < length pre)%nat -> keep_flags st !! i = Some true ->
         keep_weights st !! rank (keep_flags st) i = Some (slot_weight s i))
    (keep_child s pane_sizing available cross) (enumerate (children s)) init) as [Hinv Hall].
  - split; [|simpl; lia].
    split; cbn [keep_flags keep_weights keep_floors claimed_cell_count init]; rewrite ?rank_0;
      [apply length_replicate| |done..|simpl; lia|lia|intros; simpl in *; lia].
    intros j Hj. apply lookup_replicate_2. simpl in Hj. lia.
  - intros pre [k child] post st He [Hinv Hall].
    destruct (enumerate_split _ _ _ _ _ He) as [-> Hk].
    rewrite length_app, Nat.add_1_r. split; [by apply keep_inv_step|].
    destruct Hinv as [Hl Hrest Hw Hf Hc Hle Hkept]. pose proof (lookup_lt_Some _ _ _ Hk) as Hkl.
    assert (keep_flags st !! length pre = Some false) as Hkf by (apply Hrest; lia).
    assert (forall st', keep_flags st' = keep_flags st -> keep_weights st' = keep_weights st ->
      forall i, (i < S (length pre))%nat -> keep_flags st' !! i = Some true ->
        keep_weights st' !! rank (keep_flags st') i = Some (slot_weight s i)) as Hsame.
    { intros st' E1 E2 j Hj Hflag. rewrite E1, E2 in *. apply Hall; [|done].
      destruct (decide (j = length pre)); [congruence|lia]. }
    rewrite keep_child_eq by done. cbv zeta.
    case_match eqn:E1; [by apply Hsame|]. case_match eqn:E2; [|by apply Hsame].
    intros j Hj Hflag. cbn [keep_flags keep_weights] in *. rewrite rank_prefix_insert by lia.
    destruct (decide (j = length pre)) as [->|Hne].
    + rewrite <- Hw. apply list_lookup_middle. done.
    + rewrite list_lookup_insert_ne in Hflag by done.
      rewrite lookup_app_l; [apply Hall; [lia|done]|].
      rewrite Hw. apply rank_lt; [lia|done].
  - intros Hi. apply Hall; [|done]. rewrite enumerate_length.
    apply lookup_lt_Some in Hi. by rewrite (keep_flags_length _ _ _ _ _ _ Hinv) in Hi.
Qed.

(** ** The rectangles of the children *)

Lemma stacked_child_rects_same s s' r pane_sizing :
  direction s = Stacked -> same_slots s s' -> Forall2 same_but_deltas (children s) (children s') ->
  compute_stacked_child_rects s r pane_sizing = compute_stacked_child_rects s' r pane_sizing.
Proof.
  intros Hd Hs Hc. assert (direction s' = Stacked) as Hd' by (by rewrite <- (proj1 Hs)).
  assert (compute_stack_minimum_size s pane_sizing = compute_stack_minimum_size s' pane_sizing) as Hm.
  { assert (same_but_deltas (Split s) (Split s')) as H by (by constructor).
    apply (compute_minimum_size_Proper pane_sizing) in H. simpl in H. rewrite Hd, Hd' in H. exact H. }
  unfold compute_stacked_child_rects, get_active_child_index.
  by rewrite Hm, (Forall2_length _ _ _ Hc), (proj1 (proj2 Hs)).
Qed.

Lemma set_children_slots cs s : same_slots (set_children cs s) s.
Proof. split_and!; [done|done|reflexivity]. Qed.

(** The kept weights are read off the slots. *)
Lemma kept_weights_eq s s' r pane_sizing :
  Rect_wf r -> (forall i, slot_weight s i = slot_weight s' i) ->
  same_slots s s' -> Forall2 same_but_deltas (children s) (children s') ->
  kept_weights (list_kept_children s r pane_sizing)
  = kept_weights (list_kept_children s' r pane_sizing).
Proof.
  intros Hwf Hslot Hs Hc.
  destruct (list_kept_children_same s s' r pane_sizing Hs Hc) as (E1 & _ & _ & E4).
  pose proof (kept_weights_lookup pane_sizing s r) as H1.
  pose proof (kept_weights_lookup pane_sizing s' r) as H2.
  destruct (list_kept_children_spec pane_sizing s r Hwf) as [Hfl Hw _ _ _ _ _].
  set (kc := list_kept_children s r pane_sizing) in *.
  set (kc' := list_kept_children s' r pane_sizing) in *.
  apply list_eq. intros m. destruct (decide (m < length (kept_weights kc))%nat) as [Hm|Hm].
  - rewrite Hw in Hm. destruct (rank_onto _ _ _ Hm) as (i & _ & Hi & <-).
    rewrite (H1 i Hwf Hi). rewrite E1 in Hi |- *. by rewrite (H2 i Hwf Hi), Hslot.
  - pose proof (Forall2_length _ _ _ E4). rewrite !lookup_ge_None_2 by lia. done.
Qed.

(** The rects of a split do not change when deltas below it do. *)
Lemma directional_child_rects_same_below s cs r pane_sizing :
  Forall2 same_but_deltas cs (children s) -> Rect_wf r ->
  compute_directional_child_rects (set_children cs s) r pane_sizing
  = compute_directional_child_rects s r pane_sizing.
Proof.
  intros Hc Hwf. unfold compute_directional_child_rects.
  destruct (list_kept_children_same (set_children cs s) s r pane_sizing) as (E1 & E2 & E3 & _);
    [apply set_children_slots|done|].
  rewrite E1, E2, E3, (kept_weights_eq (set_children cs s) s r pane_sizing);
    [done|done|done|apply set_children_slots|done].
Qed.

Lemma child_rects_same_below s cs r pane_sizing :
  Forall2 same_but_deltas cs (children s) -> Rect_wf r ->
  child_rects (set_children cs s) r pane_sizing = child_rects s r pane_sizing.
Proof.
  intros Hc Hwf. unfold child_rects. cbn [direction set_children]. case_bool_decide.
  - by apply stacked_child_rects_same; [|apply set_children_slots|].
  - by apply directional_child_rects_same_below.
Qed.
