(* ===== verification/Resize.v ===== *)
(** * The resize of a pane border ([crates/koshi-layout/src/resize.rs])

    A resize finds the border, searches the count of offset cells that moves it
    as far as asked, and writes the two resize deltas. The measure of the
    border is a solve of the split; indexing and path walks that panic are
    [None]. *)

From S2P Require Import Prelude Geometry Size Tree Distribute Solver Deltas.
From stdpp Require Import options.

(** ** Data *)

Inductive ResizeError :=
  | ResizePaneNotFound (pane_id : PaneId)
  | NoAdjacentBorder (pane_id : PaneId) (d : Direction)
  | DonorAtMinimumSize (pane_id : PaneId) (d : Direction) (is_pane_growing : bool)
  | BorderHeld (pane_id : PaneId) (d : Direction) (is_pane_growing : bool).

Record BorderMeasure := MkBorderMeasure
  { moved_cell_count : Z;
    spare_cell_count : N }.

(** ** The border *)

(** The loop that stops above a collapsed stack member: how many steps of the
    path are above it. *)
Fixpoint count_visible_steps (layout_node : LayoutNode) (pane_path : list nat) : option nat :=
  match pane_path with
  | [] => Some 0%nat
  | child_index :: rest =>
      match layout_node with
      | Pane _ => Some (length pane_path)
      | Split s =>
          if bool_decide (direction s = Stacked) && negb (child_index =? get_active_child_index s)%nat
          then Some 0%nat
          else child ← children s !! child_index; S <$> count_visible_steps child rest
      end
  end.

Definition find_adjacent_child (d : Direction) (pane_path_child_index child_count : nat) : option nat :=
  match d with
  | Left | Up => match pane_path_child_index with O => None | S i => Some i end
  | Right | Down =>
      if (pane_path_child_index + 1 <? child_count)%nat then Some (pane_path_child_index + 1)%nat
      else None
  end.

(** The loop over the ancestors, deepest first; the outer [None] is a panic. *)
Fixpoint find_border_split (layout_tree : LayoutNode) (pane_path : list nat)
    (split_direction : SplitDirection) (d : Direction) (ancestor_depths : list nat)
    : option (option (nat * nat * nat)) :=
  match ancestor_depths with
  | [] => Some None
  | ancestor_depth :: rest =>
      s ← get_split_at_path layout_tree (take ancestor_depth pane_path);
      if negb (bool_decide (direction s = split_direction))
      then find_border_split layout_tree pane_path split_direction d rest
      else
        pane_path_child_index ← pane_path !! ancestor_depth;
        match find_adjacent_child d pane_path_child_index (length (children s)) with
        | Some adjacent_child_index =>
            Some (Some (ancestor_depth, pane_path_child_index, adjacent_child_index))
        | None => find_border_split layout_tree pane_path split_direction d rest
        end
  end.

Definition find_resize_border (layout_tree : LayoutNode) (pane_path : list nat)
    (split_direction : SplitDirection) (d : Direction) : option (option (nat * nat * nat)) :=
  visible_path_length ← count_visible_steps layout_tree pane_path;
  find_border_split layout_tree pane_path split_direction d (range_rev visible_path_length).

Fixpoint compute_rect_at_path (layout_node : LayoutNode) (current_layout_node_rect : Rect)
    (pane_path : list nat) (pane_sizing : PaneSizing) : option Rect :=
  match pane_path with
  | [] => Some current_layout_node_rect
  | child_index :: rest =>
      match layout_node with
      | Pane _ => None
      | Split s =>
          child_rect ←
            (match direction s with
             | Horizontal | Vertical => compute_directional_child_rects s current_layout_node_rect pane_sizing
             | Stacked => compute_stacked_child_rects s current_layout_node_rect pane_sizing
             end) !! child_index;
          child ← children s !! child_index;
          compute_rect_at_path child child_rect rest pane_sizing
      end
  end.

(** ** The search *)

(** The loop; no value once [fuel] is out. *)
Fixpoint find_first_candidate (fuel : nat) (lowest_candidate_number highest_candidate_number : Z)
    (highest_measure : BorderMeasure) (measure_candidate : Z -> option BorderMeasure)
    (is_found : BorderMeasure -> bool) : option (Z * BorderMeasure) :=
  if (lowest_candidate_number <? highest_candidate_number)%Z then
    match fuel with
    | O => None
    | S fuel =>
        let middle_candidate_number :=
          (lowest_candidate_number
           + (highest_candidate_number - lowest_candidate_number) `quot` 2)%Z in
        middle_measure ← measure_candidate middle_candidate_number;
        if is_found middle_measure
        then find_first_candidate fuel lowest_candidate_number middle_candidate_number middle_measure
               measure_candidate is_found
        else find_first_candidate fuel (middle_candidate_number + 1) highest_candidate_number
               highest_measure measure_candidate is_found
    end
  else Some (highest_candidate_number, highest_measure).

(** Every step drops a candidate of the range. *)
Definition search_fuel (lowest_candidate_number highest_candidate_number : Z) : nat :=
  Z.to_nat (highest_candidate_number - lowest_candidate_number).

(** ** The candidate counts *)

(** The variables of the two windows. *)
Record OffsetWindows := MkOffsetWindows
  { first_window_start : Z;
    first_window_length : Z;
    second_window_start : Z;
    second_window_length : Z }.

Definition list_offset_windows (axis_cell_count starting_receiving_resize_delta
    starting_donating_resize_delta : Z) : OffsetWindows :=
  let receiving_start := Z.max (1 - axis_cell_count - starting_receiving_resize_delta) 1 in
  let receiving_end := (axis_cell_count - starting_receiving_resize_delta)%Z in
  let donating_start := Z.max (1 - axis_cell_count + starting_donating_resize_delta) 1 in
  let donating_end := (axis_cell_count + starting_donating_resize_delta)%Z in
  let '(first_start, first_end, second_start, second_end) :=
    if (receiving_start <=? donating_start)%Z
    then (receiving_start, receiving_end, donating_start, donating_end)
    else (donating_start, donating_end, receiving_start, receiving_end) in
  let second_window_start := Z.max second_start (first_end + 1) in
  MkOffsetWindows first_start (Z.max (first_end - first_start + 1) 0)
    second_window_start (Z.max (second_end - second_window_start + 1) 0).

Definition candidate_count (w : OffsetWindows) : Z :=
  (first_window_length w + second_window_length w)%Z.

Definition get_added_cell_count (w : OffsetWindows) (candidate_number : Z) : Z :=
  (if (candidate_number <=? first_window_length w)%Z
   then first_window_start w + candidate_number - 1
   else second_window_start w + candidate_number - first_window_length w - 1)%Z.

(** ** The measure *)

Definition i32_clamp (x : Z) : Z := Z.max I32_MIN (Z.min x I32_MAX).

(** A write of one [resize_delta]; the index panics past the end. *)
Definition write_resize_delta (child_index : nat) (delta : Z) (s : SplitNode) : option SplitNode :=
  w ← weights s !! child_index;
  Some (set_weights (<[child_index := set_resize_delta delta w]> (weights s)) s).

(** [set_added_cell_count], from the two starting deltas. *)
Definition set_added_cell_count (receiving_child_index donating_child_index : nat)
    (starting_receiving_resize_delta starting_donating_resize_delta : Z)
    (s : SplitNode) (added_cell_count : Z) : option SplitNode :=
  s ← write_resize_delta receiving_child_index
        (i32_clamp (starting_receiving_resize_delta + added_cell_count)) s;
  write_resize_delta donating_child_index
    (i32_clamp (starting_donating_resize_delta - added_cell_count)) s.

(** The border's cell on the axis and the donor's spare cells. *)
Definition measure_border (split_rect : Rect) (pane_sizing : PaneSizing) (is_horizontal_split : bool)
    (border_child_index donating_child_index : nat) (donating_slot_floor : N) (s : SplitNode)
    : option (Z * N) :=
  let child_rects := compute_directional_child_rects s split_rect pane_sizing in
  border_rect ← child_rects !! border_child_index;
  donating_pane_rect ← child_rects !! donating_child_index;
  let '(border_cell, donating_cell_count) :=
    if is_horizontal_split
    then (column (origin border_rect), column_count (size donating_pane_rect))
    else (row (origin border_rect), row_count (size donating_pane_rect)) in
  Some (Z.of_N border_cell,
    match u16_try_from donating_slot_floor with
    | Some donating_slot_floor => u16_saturating_sub donating_cell_count donating_slot_floor
    | None => 0
    end).

(** ** The resize *)

Section resize.
Context (requested_cell_count : Z) (w : OffsetWindows) (measure_candidate : Z -> option BorderMeasure).

Definition is_move_stopped (border_measure : BorderMeasure) : bool :=
  (requested_cell_count <=? moved_cell_count border_measure)%Z || (spare_cell_count border_measure =? 0).

(** The candidate the move stops at. *)
Definition find_stopping_candidate : option (Z * BorderMeasure) :=
  let probed_candidate_number := Z.min requested_cell_count (candidate_count w) in
  probed_measure ← measure_candidate probed_candidate_number;
  if is_move_stopped probed_measure then
    if 0 <? spare_cell_count probed_measure then Some (probed_candidate_number, probed_measure)
    else find_first_candidate (search_fuel 1 probed_candidate_number) 1 probed_candidate_number
           probed_measure measure_candidate is_move_stopped
  else if (probed_candidate_number =? candidate_count w)%Z
  then Some (probed_candidate_number, probed_measure)
  else
    last_measure ← measure_candidate (candidate_count w);
    if is_move_stopped last_measure
    then find_first_candidate (search_fuel (probed_candidate_number + 1) (candidate_count w))
           (probed_candidate_number + 1) (candidate_count w) last_measure measure_candidate is_move_stopped
    else Some (candidate_count w, last_measure).

(** The moved cells and the added count kept. *)
Definition find_kept_count (starting_spare_cell_count : N) : option (N * Z) :=
  if (0 <? requested_cell_count)%Z && (0 <? starting_spare_cell_count) && (0 <? candidate_count w)%Z
  then
    '(stopping_candidate_number, stopping_measure) ← find_stopping_candidate;
    let stopping_moved_cell_count := moved_cell_count stopping_measure in
    if (0 <? stopping_moved_cell_count)%Z then
      '(first_candidate_number, _) ←
        find_first_candidate (search_fuel stopping_moved_cell_count stopping_candidate_number)
          stopping_moved_cell_count stopping_candidate_number stopping_measure measure_candidate
          (fun border_measure => (stopping_moved_cell_count <=? moved_cell_count border_measure)%Z);
      Some (as_u16 (Z.to_N stopping_moved_cell_count), get_added_cell_count w first_candidate_number)
    else Some (0, 0%Z)
  else Some (0, 0%Z).
End resize.

(** The border of one split, moved: the new split, and the cells it moved; or
    no cell, with the spare cells at the start. *)
Definition move_split_border (split_rect : Rect) (pane_sizing : PaneSizing)
    (is_horizontal_split : bool) (receiving_child_index donating_child_index : nat)
    (requested_cell_count : Z) (s : SplitNode) : option (SplitNode * N * N) :=
  let s := pad_weights s in
  let donating_slot_floor := compute_slot_floor s donating_child_index is_horizontal_split pane_sizing in
  let border_child_index := (receiving_child_index `max` donating_child_index)%nat in
  let measure := measure_border split_rect pane_sizing is_horizontal_split border_child_index
                   donating_child_index donating_slot_floor in
  receiving_weight ← weights s !! receiving_child_index;
  donating_weight ← weights s !! donating_child_index;
  let set_added := set_added_cell_count receiving_child_index donating_child_index
                     (resize_delta receiving_weight) (resize_delta donating_weight) in
  let axis_cell_count :=
    Z.of_N (if is_horizontal_split then column_count (size split_rect) else row_count (size split_rect)) in
  let w := list_offset_windows axis_cell_count (resize_delta receiving_weight) (resize_delta donating_weight) in
  '(starting_border_cell, starting_spare_cell_count) ← measure s;
  let measure_candidate candidate_number :=
    s ← set_added s (get_added_cell_count w candidate_number);
    '(border_cell, spare_cell_count) ← measure s;
    Some (MkBorderMeasure
      (if (receiving_child_index <? donating_child_index)%nat then border_cell - starting_border_cell
       else starting_border_cell - border_cell)%Z spare_cell_count) in
  '(moved_cell_count, kept_added_cell_count) ←
    find_kept_count requested_cell_count w measure_candidate starting_spare_cell_count;
  s ← set_added s kept_added_cell_count;
  Some (s, moved_cell_count, starting_spare_cell_count).

Definition resize_layout_with_sizing (layout_tree : LayoutNode) (layout_rect : Rect) (pane_id : PaneId)
    (d : Direction) (resize_cell_delta : Z) (pane_sizing : PaneSizing)
    : outcome ResizeError (LayoutNode * N) :=
  match find_pane_path pane_id layout_tree with
  | None => failed (ResizePaneNotFound pane_id)
  | Some pane_path =>
      let split_direction := compute_split_direction d in
      let is_horizontal_split := bool_decide (split_direction = Horizontal) in
      match find_resize_border layout_tree pane_path split_direction d with
      | None => panicked
      | Some None => failed (NoAdjacentBorder pane_id d)
      | Some (Some (resize_split_depth, target_pane_child_index, adjacent_child_index)) =>
          let requested_cell_count := Z.abs resize_cell_delta in
          let is_pane_growing := (0 <? resize_cell_delta)%Z in
          let '(receiving_child_index, donating_child_index) :=
            if is_pane_growing then (target_pane_child_index, adjacent_child_index)
            else (adjacent_child_index, target_pane_child_index) in
          let split_path := take resize_split_depth pane_path in
          match
            split_rect ← compute_rect_at_path layout_tree layout_rect split_path pane_sizing;
            s ← get_split_at_path layout_tree split_path;
            '(s, moved_cell_count, starting_spare_cell_count) ←
              move_split_border split_rect pane_sizing is_horizontal_split receiving_child_index
                donating_child_index requested_cell_count s;
            updated_layout_tree ← get_split_at_path_mut layout_tree split_path (fun _ => s);
            Some (updated_layout_tree, moved_cell_count, starting_spare_cell_count)
          with
          | None => panicked
          | Some (updated_layout_tree, moved_cell_count, starting_spare_cell_count) =>
              if (0 <? requested_cell_count)%Z && (moved_cell_count =? 0) then
                failed (if starting_spare_cell_count =? 0
                        then DonorAtMinimumSize pane_id d is_pane_growing
                        else BorderHeld pane_id d is_pane_growing)
              else ok (updated_layout_tree, moved_cell_count)
          end
      end
  end.

(** Two panes of 100 columns: the right border of the first moves by 5. *)
Example grow_by_5 :
  let layout_tree := Split (with_equal_weights Horizontal [Pane 1; Pane 2]) in
  let layout_rect := MkRect (MkPoint 0 0) (MkSize 200 50) in
  match resize_layout_with_sizing layout_tree layout_rect 1 Right 5 default_pane_sizing with
  | Some (inr (updated_layout_tree, moved_cell_count)) =>
      moved_cell_count = 5
      /\ (fun pane_rect => column_count (size (snd pane_rect)))
           <$> pane_rects (solve_layout updated_layout_tree layout_rect) = [105; 95]
  | _ => False
  end.
Proof. vm_compute. done. Qed.
