(* ===== verification/ResizeUnits.v ===== *)
(** * One offset cell across a border

    What a split's distribution does when one more cell of resize offset goes
    from the donor to the receiver: while the donor is above its floor, one
    cell leaves the donor for one sibling, or none does. *)

From S2P Require Import Prelude Geometry Size Tree Distribute.
From stdpp Require Import options.

(** ** Sums of prefixes *)

Definition prefix_cells (counts : list N) (k : nat) : N := sum_cells (take k counts).

Lemma prefix_cells_0 counts : prefix_cells counts 0 = 0.
Proof. by destruct counts. Qed.

Lemma prefix_cells_S counts k : prefix_cells counts (S k) = prefix_cells counts k + cell_at counts k.
Proof.
  unfold prefix_cells, cell_at. destruct (counts !! k) as [x|] eqn:E.
  - rewrite (take_S_r _ _ _ E), sum_cells_snoc. done.
  - rewrite !take_ge by (apply lookup_ge_None in E; lia). simpl. lia.
Qed.

Lemma prefix_cells_all counts k : (length counts <= k)%nat -> prefix_cells counts k = sum_cells counts.
Proof. intros H. unfold prefix_cells. by rewrite take_ge. Qed.

Lemma prefix_cells_mono counts j k : (j <= k)%nat -> prefix_cells counts j <= prefix_cells counts k.
Proof. induction 1 as [|k _ IH]; [done|]. rewrite prefix_cells_S. lia. Qed.

Lemma prefix_cells_le counts k : prefix_cells counts k <= sum_cells counts.
Proof.
  destruct (decide (length counts <= k)%nat) as [H|H]; [by rewrite prefix_cells_all|].
  rewrite <- (prefix_cells_all counts (length counts)) by done. apply prefix_cells_mono. lia.
Qed.

(** Two lists of counts are equal when their prefixes are. *)
Lemma cell_at_ext counts counts' :
  length counts = length counts' -> (forall i, cell_at counts i = cell_at counts' i) -> counts = counts'.
Proof.
  intros Hl H. apply list_eq. intros i. destruct (decide (i < length counts)%nat) as [Hi|Hi].
  - rewrite !lookup_cell_at by lia. by rewrite H.
  - by rewrite !lookup_ge_None_2 by lia.
Qed.

Lemma prefix_cells_ext counts counts' :
  length counts = length counts' -> (forall k, prefix_cells counts k = prefix_cells counts' k) -> counts = counts'.
Proof.
  intros Hl H. apply cell_at_ext; [done|]. intros i.
  pose proof (H (S i)) as E. rewrite !prefix_cells_S, H in E. lia.
Qed.

(** ** One cell from a donor to a sibling *)

Record unit_moved (donor taker : nat) (counts counts' : list N) : Prop :=
  { um_length : length counts' = length counts;
    um_donor_lt : (donor < length counts)%nat;
    um_taker_lt : (taker < length counts)%nat;
    um_ne : taker <> donor;
    um_donor : cell_at counts' donor + 1 = cell_at counts donor;
    um_taker : cell_at counts' taker = cell_at counts taker + 1;
    um_other i : i <> donor -> i <> taker -> cell_at counts' i = cell_at counts i }.

(** At most one cell left the donor. *)
Definition donor_step (donor : nat) (counts counts' : list N) : Prop :=
  counts' = counts \/ exists taker, unit_moved donor taker counts counts'.

Lemma unit_moved_right donor taker counts counts' :
  length counts' = length counts -> (donor < taker < length counts)%nat ->
  (forall k, prefix_cells counts' k + (if (donor <? k)%nat && (k <=? taker)%nat then 1 else 0)
             = prefix_cells counts k) ->
  unit_moved donor taker counts counts'.
Proof.
  intros Hl Hlt H.
  assert (forall i, cell_at counts' i + (if (donor =? i)%nat then 1 else 0)
    = cell_at counts i + if (taker =? i)%nat then 1 else 0) as Hc.
  { intros i. pose proof (H i) as H1. pose proof (H (S i)) as H2. rewrite !prefix_cells_S in H2.
    destruct (donor =? i)%nat eqn:E1, (taker =? i)%nat eqn:E2, (donor <? i)%nat eqn:E3, (i <=? taker)%nat eqn:E4,
      (donor <? S i)%nat eqn:E5, (S i <=? taker)%nat eqn:E6; cbn [andb] in *; bools; lia. }
  split; [done|lia|lia|lia| | |].
  - specialize (Hc donor). rewrite Nat.eqb_refl in Hc. destruct (taker =? donor)%nat eqn:E; bools; lia.
  - specialize (Hc taker). rewrite Nat.eqb_refl in Hc. destruct (donor =? taker)%nat eqn:E; bools; lia.
  - intros i H1 H2. specialize (Hc i). destruct (donor =? i)%nat eqn:E1, (taker =? i)%nat eqn:E2; bools; lia.
Qed.

Lemma unit_moved_left donor taker counts counts' :
  length counts' = length counts -> (taker < donor < length counts)%nat ->
  (forall k, prefix_cells counts' k
             = prefix_cells counts k + if (taker <? k)%nat && (k <=? donor)%nat then 1 else 0) ->
  unit_moved donor taker counts counts'.
Proof.
  intros Hl Hlt H.
  assert (unit_moved taker donor counts' counts) as [H1 H2 H3 H4 H5 H6 H7].
  { apply unit_moved_right; [done|lia|]. intros k. by rewrite H. }
  split; [done|lia|lia|done|lia|lia|]. intros i Hi Hj. by rewrite H7.
Qed.

(** ** The repair of the sum *)

Lemma trim_none counts : all_u16 counts -> trim_trailing 0 counts = counts.
Proof.
  destruct counts as [|x counts]; [done|]. intros [Hx _]%all_u16_cons. cbn [trim_trailing].
  rewrite N.min_0_l, as_u16_exact, u16_sub_exact by lia. rewrite N.sub_0_r. done.
Qed.

Lemma trim_prefix excess counts k :
  all_u16 counts -> excess <= sum_cells counts ->
  prefix_cells (reverse (trim_trailing excess (reverse counts))) k
  = prefix_cells counts k `min` (sum_cells counts - excess).
Proof.
  revert excess k. induction counts as [|x counts IH] using rev_ind; intros excess k Hu Hle.
  { by destruct k. }
  rewrite reverse_snoc. cbn [trim_trailing]. rewrite sum_cells_snoc in *.
  assert (all_u16 counts) as Hu'.
  { intros j. destruct (decide (j < length counts)%nat) as [Hj|Hj]; [|rewrite cell_at_ge by lia; lia].
    specialize (Hu j). unfold cell_at in *. by rewrite lookup_app_l in Hu by done. }
  assert (x <= U16_MAX) as Hx.
  { specialize (Hu (length counts)). by rewrite cell_at_app_middle in Hu. }
  rewrite as_u16_exact, u16_sub_exact by lia. rewrite reverse_cons.
  set (rest := reverse (if _ =? 0 then _ else _)).
  assert (rest = reverse (trim_trailing (excess - excess `min` x) (reverse counts))
    /\ length rest = length counts) as [Hrest Hlen].
  { subst rest. destruct (trim_trailing_spec (excess - excess `min` x) (reverse counts)) as [_ Hl];
      [by apply all_u16_reverse|rewrite sum_cells_reverse; lia|].
    case_match eqn:E; bools; [|by rewrite length_reverse, Hl, length_reverse].
    rewrite length_reverse, length_reverse. split; [|done]. f_equal.
    rewrite E, trim_none; [done|by apply all_u16_reverse]. }
  assert (forall k, prefix_cells rest k = prefix_cells counts k `min` (sum_cells counts - (excess - excess `min` x))) as IH'.
  { intros j. rewrite Hrest. apply IH; [done|lia]. }
  assert (forall l y j, prefix_cells (l ++ [y]) j = if (j <=? length l)%nat then prefix_cells l j else sum_cells l + y) as Hsnoc.
  { intros l y j. case_match eqn:E; bools; unfold prefix_cells; [by rewrite take_app_le|].
    rewrite take_ge by (rewrite length_app; simpl; lia). apply sum_cells_snoc. }
  rewrite !Hsnoc, Hlen. pose proof (IH' (length counts)) as Hsum. rewrite !prefix_cells_all in Hsum by lia.
  case_match; [|lia]. rewrite IH'. pose proof (prefix_cells_le counts k). lia.
Qed.

(** The repair caps every prefix at the axis and fills it. *)
Lemma repair_prefix counts available k :
  all_u16 counts -> available <= U16_MAX -> counts <> [] ->
  prefix_cells (repair_cell_count_sum counts available) k
  = if (k <? length counts)%nat then prefix_cells counts k `min` available else available.
Proof.
  intros Hu Ha Hne. pose proof (repair_length counts available Hu) as Hl.
  case_match eqn:E; bools; [|by rewrite prefix_cells_all, repair_sum by (done || lia)].
  pose proof (prefix_cells_le counts k). unfold repair_cell_count_sum. repeat case_match; bools; try lia.
  - unfold prefix_cells. rewrite take_insert_ge by lia. unfold prefix_cells in *. lia.
  - rewrite trim_prefix by (done || lia). lia.
Qed.

Section repair_steps.
Context (available : N) (Havailable : available <= U16_MAX).
Context (counts counts' : list N) (Hu : all_u16 counts) (Hu' : all_u16 counts').
Context (Hlength : length counts' = length counts).
Set Default Proof Using "All".

Abbreviation repaired := (repair_cell_count_sum counts available).
Abbreviation repaired' := (repair_cell_count_sum counts' available).

Lemma repaired_same :
  (forall k, (k < length counts)%nat ->
    prefix_cells counts' k `min` available = prefix_cells counts k `min` available) ->
  repaired' = repaired.
Proof.
  intros H. destruct (decide (counts = [])) as [->|Hne].
  { by destruct counts'. }
  assert (counts' <> []) as Hne' by (by destruct counts, counts').
  apply prefix_cells_ext; [rewrite !repair_length by done; done|]. intros k. rewrite !repair_prefix by done.
  rewrite Hlength. case_match eqn:E; bools; [by apply H|done].
Qed.

Lemma repaired_right donor taker :
  (donor < taker < length counts)%nat ->
  (forall k, (k < length counts)%nat ->
    prefix_cells counts' k `min` available + (if (donor <? k)%nat && (k <=? taker)%nat then 1 else 0)
    = prefix_cells counts k `min` available) ->
  unit_moved donor taker repaired repaired'.
Proof.
  intros Hlt H. assert (counts <> []) as Hne by (intros ->; simpl in Hlt; lia).
  assert (counts' <> []) as Hne' by (by destruct counts, counts').
  apply unit_moved_right; [rewrite !repair_length by done; done|rewrite repair_length by done; done|].
  intros k. rewrite !repair_prefix, Hlength by done. destruct (k <? length counts)%nat eqn:E; bools; [by apply H|].
  rewrite (proj2 (Nat.leb_gt k taker)), andb_false_r by lia. lia.
Qed.

Lemma repaired_left donor taker :
  (taker < donor < length counts)%nat ->
  (forall k, (k < length counts)%nat ->
    prefix_cells counts' k `min` available
    = prefix_cells counts k `min` available + if (taker <? k)%nat && (k <=? donor)%nat then 1 else 0) ->
  unit_moved donor taker repaired repaired'.
Proof.
  intros Hlt H. assert (counts <> []) as Hne by (intros ->; simpl in Hlt; lia).
  assert (counts' <> []) as Hne' by (by destruct counts, counts').
  apply unit_moved_left; [rewrite !repair_length by done; done|rewrite repair_length by done; done|].
  intros k. rewrite !repair_prefix, Hlength by done. destruct (k <? length counts)%nat eqn:E; bools; [by apply H|].
  rewrite (proj2 (Nat.leb_gt k donor)), andb_false_r by lia. lia.
Qed.

(** The last child a prefix through which fits the axis. *)
Lemma last_fitting donor :
  (S donor < length counts)%nat -> prefix_cells counts (S donor) <= available ->
  exists taker, (donor < taker < length counts)%nat /\ prefix_cells counts taker <= available
    /\ ((S taker < length counts)%nat -> available < prefix_cells counts (S taker)).
Proof.
  intros Hd Hp. remember (length counts - S donor)%nat as m eqn:Em.
  revert donor Hd Hp Em. induction m as [|m IH]; intros donor Hd Hp Em; [lia|].
  destruct (decide (S (S donor) < length counts)%nat) as [Hlt|Hge].
  - destruct (decide (prefix_cells counts (S (S donor)) <= available)) as [Hle|Hgt].
    + destruct (IH (S donor)) as (z & H1 & H2 & H3); [lia|done|lia|]. exists z. split; [lia|done].
    + exists (S donor). split; [lia|]. split; [done|]. lia.
  - exists (S donor). split; [lia|]. split; [done|]. lia.
Qed.

(** Only the donor's count falls. *)
Lemma donor_falls donor :
  (donor < length counts)%nat ->
  (forall k, prefix_cells counts' k + (if (donor <? k)%nat then 1 else 0) = prefix_cells counts k) ->
  donor_step donor repaired repaired'.
Proof.
  intros Hd H. destruct (decide (S donor < length counts)%nat) as [Hlt|Hge].
  - destruct (decide (prefix_cells counts (S donor) <= available)) as [Hle|Hgt].
    + destruct (last_fitting donor Hlt Hle) as (z & Hz & Hfit & Hover). right. exists z.
      apply repaired_right; [done|]. intros k Hk. specialize (H k).
      destruct (donor <? k)%nat eqn:E1; cbn [andb]; [|lia]. destruct (k <=? z)%nat eqn:E2; bools.
      * pose proof (prefix_cells_mono counts k z E2). lia.
      * pose proof (prefix_cells_mono counts (S z) k E2). specialize (Hover ltac:(lia)). lia.
    + left. apply repaired_same. intros k Hk. specialize (H k). destruct (donor <? k)%nat eqn:E1; bools; [|lia].
      pose proof (prefix_cells_mono counts (S donor) k E1). lia.
  - left. apply repaired_same. intros k Hk. specialize (H k). destruct (donor <? k)%nat eqn:E1; bools; lia.
Qed.

(** A cell goes from the donor to the child before it, or after it. *)
Lemma both_change_left donor :
  (S donor < length counts)%nat ->
  (forall k, prefix_cells counts' k = prefix_cells counts k + if (k =? S donor)%nat then 1 else 0) ->
  donor_step (S donor) repaired repaired'.
Proof.
  intros Hd H. destruct (decide (prefix_cells counts (S donor) < available)) as [Hlt|Hge].
  - right. exists donor. apply repaired_left; [lia|]. intros k Hk. specialize (H k).
    destruct (k =? S donor)%nat eqn:E1, (donor <? k)%nat eqn:E2, (k <=? S donor)%nat eqn:E3; cbn [andb]; bools; subst; lia.
  - left. apply repaired_same. intros k Hk. specialize (H k). destruct (k =? S donor)%nat eqn:E1; bools; subst; lia.
Qed.

Lemma both_change_right donor :
  (S donor < length counts)%nat ->
  (forall k, prefix_cells counts' k + (if (k =? S donor)%nat then 1 else 0) = prefix_cells counts k) ->
  donor_step donor repaired repaired'.
Proof.
  intros Hd H. destruct (decide (prefix_cells counts (S donor) <= available)) as [Hlt|Hge].
  - right. exists (S donor). apply repaired_right; [lia|]. intros k Hk. specialize (H k).
    destruct (k =? S donor)%nat eqn:E1, (donor <? k)%nat eqn:E2, (k <=? S donor)%nat eqn:E3; cbn [andb]; bools; subst; lia.
  - left. apply repaired_same. intros k Hk. specialize (H k). destruct (k =? S donor)%nat eqn:E1; bools; subst; lia.
Qed.

(** Only the receiver's count rises, next to a donor that is at the start or
    the end of the axis. *)
Lemma receiver_rises receiver donor :
  (donor = S receiver \/ receiver = S donor) -> (donor < length counts)%nat -> (receiver < length counts)%nat ->
  (forall k, prefix_cells counts' k = prefix_cells counts k + if (receiver <? k)%nat then 1 else 0) ->
  cell_at counts donor = 0 \/ available <= cell_at counts donor ->
  0 < cell_at repaired donor \/ 0 < cell_at repaired' donor ->
  donor_step donor repaired repaired'.
Proof.
  intros Hadj Hd Hr H Hends Hpos. assert (counts <> []) as Hne by (intros ->; simpl in Hd; lia).
  assert (counts' <> []) as Hne' by (by destruct counts, counts').
  assert (prefix_cells counts (S donor) = prefix_cells counts donor + cell_at counts donor) as HS
    by apply prefix_cells_S.
  assert ((S donor < length counts)%nat -> available <= prefix_cells counts (S donor)) as Hfull.
  { intros Hlt. destruct Hends as [Hz|Hz]; [|lia]. exfalso.
    pose proof (prefix_cells_S repaired donor) as E. pose proof (prefix_cells_S repaired' donor) as E'.
    rewrite !repair_prefix, !(proj2 (Nat.ltb_lt _ _)) in E by (done || lia).
    rewrite !repair_prefix, !Hlength, !(proj2 (Nat.ltb_lt _ _)) in E' by (done || lia).
    rewrite HS, Hz, N.add_0_r in E. pose proof (H donor) as H1. pose proof (H (S donor)) as H2. rewrite HS, Hz in H2.
    destruct (receiver <? donor)%nat eqn:E1, (receiver <? S donor)%nat eqn:E2; bools; lia. }
  destruct Hadj as [-> | ->].
  - destruct (decide (prefix_cells counts (S receiver) < available)) as [Hlt|Hge].
    + right. exists receiver. apply repaired_left; [lia|]. intros k Hk. specialize (H k).
      destruct (receiver <? k)%nat eqn:E1; cbn [andb]; [|lia]. destruct (k <=? S receiver)%nat eqn:E2; bools.
      * replace k with (S receiver) in * by lia. lia.
      * pose proof (prefix_cells_mono counts (S (S receiver)) k ltac:(lia)). specialize (Hfull ltac:(lia)). lia.
    + left. apply repaired_same. intros k Hk. specialize (H k). destruct (receiver <? k)%nat eqn:E1; bools; [|lia].
      pose proof (prefix_cells_mono counts (S receiver) k ltac:(lia)). lia.
  - left. apply repaired_same. intros k Hk. specialize (H k). destruct (S donor <? k)%nat eqn:E1; bools; [|lia].
    pose proof (prefix_cells_mono counts (S donor) k ltac:(lia)). specialize (Hfull ltac:(lia)). lia.
Qed.
End repair_steps.

(** ** The order of donors *)

(** [j] gives cells before [k] does. *)
Definition gives_before (weights : list SizeWeight) (j k : nat) : Prop :=
  if is_flexible (weight_at weights j)
  then is_flexible (weight_at weights k) = false \/ (k < j)%nat
  else is_flexible (weight_at weights k) = false /\ (k < j)%nat.

Lemma gives_before_total weights j k : j <> k -> gives_before weights j k \/ gives_before weights k j.
Proof.
  intros Hne. unfold gives_before. destruct (is_flexible _), (is_flexible _); try tauto;
    destruct (decide (k < j)%nat); [tauto|right; right; lia|tauto|right; split; [done|lia]].
Qed.

Lemma take_donor_pass_app weights floors needed skipped pass idxs idxs' counts taken :
  take_donor_pass weights floors needed skipped pass (idxs ++ idxs') counts taken
  = let '(counts, taken) := take_donor_pass weights floors needed skipped pass idxs counts taken in
    take_donor_pass weights floors needed skipped pass idxs' counts taken.
Proof.
  revert counts taken. induction idxs as [|i idxs IH]; intros counts taken; [done|]. cbn [app take_donor_pass].
  destruct (taken =? needed) eqn:E; [|case_match; apply IH]. destruct idxs'; cbn [take_donor_pass]; [done|by rewrite E].
Qed.

Lemma take_donor_pass_met weights floors needed skipped pass idxs counts :
  take_donor_pass weights floors needed skipped pass idxs counts needed = (counts, needed).
Proof. destruct idxs; [done|]. cbn [take_donor_pass]. by rewrite N.eqb_refl. Qed.

(** A child gives nothing while one before it is above its floor. *)
Lemma take_donor_pass_order weights floors needed skipped pass pre j post counts taken c' t' k :
  NoDup (pre ++ j :: post) -> (forall i, i ∈ pre ++ j :: post -> (i < length counts)%nat) ->
  sum_cells counts <= U16_MAX -> needed <= U16_MAX -> taken <= needed ->
  take_donor_pass weights floors needed skipped pass (pre ++ j :: post) counts taken = (c', t') ->
  k ∈ post -> j <> skipped -> is_flexible (weight_at weights j) = pass ->
  cell_at c' j <= cell_at floors j \/ cell_at c' k = cell_at counts k.
Proof.
  intros Hnd Hlt Hsum Hneed Htaken Ht Hk Hj Hf. rewrite cons_middle, app_assoc in Ht, Hnd, Hlt.
  rewrite take_donor_pass_app in Ht.
  destruct (take_donor_pass weights floors needed skipped pass (pre ++ [j]) counts taken) as [c1 t1] eqn:E1.
  apply NoDup_app in Hnd as (Hnd1 & Hdisj & Hnd2).
  destruct (take_donor_pass_spec _ _ _ _ _ _ _ _ _ _ Hnd1 ltac:(intros; apply Hlt, elem_of_app; by left)
    Hsum Hneed Htaken E1) as (H1 & H2 & H3 & H4).
  pose proof (donation_length _ _ _ _ _ H2) as Hl. pose proof (donation_sum _ _ _ _ _ H2) as Hs.
  destruct (take_donor_pass_spec weights floors needed skipped pass post c1 t1 c' t') as (_ & _ & H5 & _);
    [done|intros i Hi; rewrite Hl; apply Hlt, elem_of_app; by right|lia|done|lia|done|].
  destruct H4 as [->|H4].
  - rewrite take_donor_pass_met in Ht. injection Ht as <- <-. right. apply H3. left. intros Hin. by apply (Hdisj k).
  - left. rewrite H5; [apply H4; [set_solver|done|done]|left]. intros Hin. apply (Hdisj j); [set_solver|done].
Qed.

Lemma range_rev_split n j k :
  (k < j < n)%nat -> exists pre post, range_rev n = pre ++ j :: post /\ k ∈ post.
Proof.
  intros H. exists (reverse (seq (S j) (n - S j))), (reverse (seq 0 j)). unfold range_rev. split.
  - replace n with (j + S (n - S j))%nat at 1 by lia. rewrite seq_app. simpl.
    rewrite reverse_app, reverse_cons, <- app_assoc. done.
  - rewrite elem_of_reverse, elem_of_seq. lia.
Qed.

Lemma take_donor_order counts weights floors needed skipped c' t' j k :
  sum_cells counts <= U16_MAX -> needed <= U16_MAX ->
  take_donor_cell_count counts weights floors needed skipped AllChildren = (c', t') ->
  (j < length counts)%nat -> (k < length counts)%nat -> j <> skipped -> gives_before weights j k ->
  cell_at c' j <= cell_at floors j \/ cell_at c' k = cell_at counts k.
Proof.
  intros Hsum Hneed Ht Hj Hk Hne Hb. unfold take_donor_cell_count in Ht. rewrite bool_decide_eq_false_2 in Ht by done.
  destruct (take_donor_pass weights floors needed skipped true _ _ _) as [c1 t1] eqn:E1.
  pose proof (NoDup_range_rev (length counts)) as Hnd.
  assert (forall i, i ∈ range_rev (length counts) -> (i < length counts)%nat) as Hin by (intros i; apply elem_of_range_rev).
  destruct (take_donor_pass_spec _ _ _ _ _ _ _ _ _ _ Hnd Hin Hsum Hneed (N.le_0_l _) E1) as (H1 & H2 & H3 & H4).
  pose proof (donation_length _ _ _ _ _ H2) as Hl. pose proof (donation_sum _ _ _ _ _ H2) as Hs.
  destruct (take_donor_pass_spec weights floors needed skipped false (range_rev (length counts)) c1 t1 c' t')
    as (_ & _ & H5 & _); [done|intros i Hi; rewrite Hl; by apply Hin|lia|done|lia|done|].
  unfold gives_before in Hb. destruct (is_flexible (weight_at weights j)) eqn:Ej.
  - rewrite (H5 j) by (right; by rewrite Ej).
    destruct (is_flexible (weight_at weights k)) eqn:Ek.
    + destruct Hb as [|Hb]; [done|]. rewrite (H5 k) by (right; by rewrite Ek).
      destruct (range_rev_split (length counts) j k ltac:(lia)) as (pre & post & Er & Hkp).
      rewrite Er in E1, Hnd, Hin.
      eapply take_donor_pass_order; [exact Hnd|exact Hin|done|done|apply N.le_0_l|exact E1|done|done|done].
    + destruct H4 as [->|H4].
      * rewrite take_donor_pass_met in Ht. injection Ht as <- <-. right. apply H3. right. by rewrite Ek.
      * left. apply H4; [by apply elem_of_range_rev|done|done].
  - destruct Hb as [Ek Hb]. rewrite <- (H3 k) by (right; by rewrite Ek).
    destruct (range_rev_split (length counts) j k ltac:(lia)) as (pre & post & Er & Hkp).
    rewrite Er in Ht, Hnd, Hin.
    eapply take_donor_pass_order; [exact Hnd|intros i Hi; rewrite Hl; by apply Hin|lia|done| |exact Ht|done|done|done]. lia.
Qed.

(** ** The floors, without the loop *)

(** The cells a child holds when nothing is taken from it. *)
Definition lifted (floors counts : list N) (i : nat) : N := cell_at counts i `max` cell_at floors i.

(** [settled] is [counts] with every child at its floor or above, paid for by
    the first donors. *)
Record settled_as (weights : list SizeWeight) (floors counts settled : list N) : Prop :=
  { sa_length : length settled = length counts;
    sa_sum : sum_cells settled = sum_cells counts;
    sa_floor i : cell_at floors i <= cell_at settled i;
    sa_le i : cell_at settled i <= lifted floors counts i;
    sa_order j k : (j < length counts)%nat -> (k < length counts)%nat -> gives_before weights j k ->
      cell_at floors j < cell_at settled j -> cell_at settled k = lifted floors counts k }.

Lemma clamp_to_floor_order weights floors counts i j k :
  length floors = length counts -> (i < length counts)%nat ->
  sum_cells counts <= U16_MAX -> sum_cells floors <= sum_cells counts ->
  (j < length counts)%nat -> (k < length counts)%nat -> gives_before weights j k ->
  let counts' := clamp_to_floor_at weights floors counts i in
  cell_at floors j < cell_at counts' j ->
  cell_at floors j < cell_at counts j /\ (cell_at counts' k = cell_at counts k \/ k = i).
Proof.
  intros Hlen Hi Hsum Hfl Hj Hk Hb counts' Hlt.
  pose proof (clamp_to_floor_at_spec weights floors counts i Hlen Hi Hsum Hfl) as (Hl & Hs & Hat & Hothers).
  fold counts' in Hl, Hs, Hat, Hothers. unfold counts', clamp_to_floor_at in *.
  destruct (cell_at counts i <? cell_at floors i) eqn:E; bools; [|by auto].
  assert (j <> i) as Hji by (intros ->; lia).
  destruct (Hothers j Hji) as [_ Hle]. split; [lia|].
  destruct (decide (k = i)) as [->|Hki]; [by right|left].
  destruct (take_donor_cell_count _ _ _ _ _ _) as [c' t'] eqn:Et.
  rewrite cell_at_insert_ne in Hlt |- * by done. rewrite u16_sub_exact in Et.
  - pose proof (sum_cells_cell_at_le floors i).
    destruct (take_donor_order counts weights floors (cell_at floors i - cell_at counts i) i c' t' j k) as [Ho|Ho];
      [done|lia|exact Et|done|done|done|done|lia|exact Ho].
  - pose proof (sum_cells_cell_at_le floors i). lia.
  - lia.
Qed.

Lemma clamp_settles counts weights floors available :
  length floors = length counts -> sum_cells counts = available -> available <= U16_MAX ->
  sum_cells floors <= available ->
  settled_as weights floors counts (clamp_cell_counts_to_floors counts weights floors available).
Proof.
  intros Hlen Hs Hav Hfit. unfold clamp_cell_counts_to_floors. rewrite (proj2 (N.ltb_ge _ _)) by done.
  destruct (foldl_prefix_inv (fun pre c => length c = length counts /\ sum_cells c = available
    /\ (forall j, cell_at counts j `min` cell_at floors j <= cell_at c j /\ cell_at c j <= lifted floors counts j)
    /\ (forall j, (j < length counts)%nat ->
          if decide (j ∈ pre) then cell_at floors j <= cell_at c j
          else cell_at counts j < cell_at floors j -> cell_at c j = cell_at counts j)
    /\ (forall j k, (j < length counts)%nat -> (k < length counts)%nat -> gives_before weights j k ->
          cell_at floors j < cell_at c j ->
          cell_at c k = cell_at counts k \/ (cell_at counts k <= cell_at floors k /\ cell_at c k = cell_at floors k)))
    (clamp_to_floor_at weights floors) (range (length counts)) counts) as (H1 & H2 & H3 & H4 & H5).
  - split_and!; [done|done| | |by auto].
    + intros j. unfold lifted. lia.
    + intros j Hj. case_decide as Hin; [by apply not_elem_of_nil in Hin|done].
  - intros pre i post c Hr (H1 & H2 & H3 & H4 & H5).
    assert (i < length counts)%nat as Hi by (apply elem_of_range; rewrite Hr; set_solver).
    assert (i ∉ pre) as Hipre.
    { pose proof (NoDup_range (length counts)) as Hnd. rewrite Hr in Hnd. apply NoDup_app in Hnd as (_ & Hd & _). set_solver. }
    destruct (clamp_to_floor_at_spec weights floors c i) as (L1 & L2 & Hat & Hothers); [lia..|].
    set (c' := clamp_to_floor_at weights floors c i) in *.
    assert (forall j, cell_at counts j `min` cell_at floors j <= cell_at c' j /\ cell_at c' j <= lifted floors counts j) as H3'.
    { intros j. specialize (H3 j). unfold lifted in *. destruct (decide (j = i)) as [->|Hne]; [lia|].
      specialize (Hothers j Hne). lia. }
    split_and!; [lia|lia|done| |].
    + intros j Hj. specialize (H4 j Hj). specialize (H3' j). specialize (H3 j).
      destruct (decide (j = i)) as [->|Hne].
      * rewrite decide_True by set_solver. lia.
      * specialize (Hothers j Hne). destruct (decide (j ∈ pre)).
        -- rewrite decide_True by set_solver. lia.
        -- rewrite decide_False by set_solver. intros Hlt. specialize (H4 Hlt). lia.
    + intros j k Hj Hk Hb Hlt.
      destruct (clamp_to_floor_order weights floors c i j k) as [Hlt' [Hk'| ->]]; [lia|lia|lia|lia|lia|lia|done|done| |].
      * fold c' in Hk'. rewrite Hk'. by apply (H5 j k).
      * specialize (H4 i Hi). rewrite decide_False in H4 by done. specialize (H3 i). unfold lifted in *.
        destruct (decide (cell_at counts i < cell_at floors i)) as [Hbelow|Habove].
        -- specialize (H4 Hbelow). right. lia.
        -- destruct (H5 j i Hj Hi Hb Hlt') as [E|[E1 E2]]; [left; lia|right; lia].
  - split; [done|lia| |intros i; by apply H3|].
    + intros i. destruct (decide (i < length counts)%nat) as [Hi|Hi]; [|rewrite (cell_at_ge floors) by lia; lia].
      specialize (H4 i Hi). rewrite decide_True in H4 by (by apply elem_of_range). done.
    + intros j k Hj Hk Hb Hlt. specialize (H5 j k Hj Hk Hb Hlt). unfold lifted.
      specialize (H4 k Hk). rewrite decide_True in H4 by (by apply elem_of_range). lia.
Qed.

(** Counts with equal sums that differ are below and above somewhere. *)
Lemma unequal_counts c c' :
  length c = length c' -> sum_cells c = sum_cells c' -> c <> c' ->
  exists i, (i < length c)%nat /\ cell_at c i < cell_at c' i.
Proof.
  intros Hl Hs Hne.
  destruct (decide (Exists (fun i => cell_at c i < cell_at c' i) (range (length c)))) as [H|H].
  - apply Exists_exists in H as (i & Hi & Hlt). exists i. split; [by apply elem_of_range|done].
  - exfalso. apply Hne. apply not_Exists_Forall in H; [|intros i; apply _]. rewrite Forall_forall in H.
    assert (forall i, cell_at c' i <= cell_at c i) as Hle.
    { intros i. destruct (decide (i < length c)%nat) as [Hi|Hi]; [|rewrite !cell_at_ge by lia; done].
      specialize (H i (proj2 (elem_of_range _ _) Hi)). simpl in H. lia. }
    apply cell_at_ext; [done|]. intros i. destruct (decide (i < length c)%nat) as [Hi|Hi]; [|by rewrite !cell_at_ge by lia].
    pose proof (sum_cells_le_pointwise_except c' c i ltac:(lia) ltac:(lia) ltac:(intros; apply Hle)). specialize (Hle i). lia.
Qed.

Lemma settled_unique weights floors counts s s' :
  settled_as weights floors counts s -> settled_as weights floors counts s' -> s = s'.
Proof.
  intros [L1 S1 F1 M1 O1] [L2 S2 F2 M2 O2]. destruct (decide (s = s')) as [|Hne]; [done|exfalso].
  destruct (unequal_counts s s') as (i & Hi & Hlt); [lia|lia|done|].
  destruct (unequal_counts s' s) as (j & Hj & Hlt'); [lia|lia|by intros ->|].
  assert (i <> j) as Hij by (intros ->; lia).
  destruct (gives_before_total weights i j Hij) as [Hb|Hb].
  - specialize (O2 i j ltac:(lia) ltac:(lia) Hb). specialize (F1 i). specialize (M1 j). lia.
  - specialize (O1 j i ltac:(lia) ltac:(lia) Hb). specialize (F2 j). specialize (M2 i). lia.
Qed.

Lemma gives_before_trans weights j k l :
  gives_before weights j k -> gives_before weights k l -> gives_before weights j l.
Proof.
  unfold gives_before. destruct (is_flexible _), (is_flexible _), (is_flexible _); intuition (try done; lia).
Qed.

(** Where a child stands in the order of donors. *)
Definition donor_rank (weights : list SizeWeight) (n i : nat) : nat :=
  ((if is_flexible (weight_at weights i) then 0 else n) + (n - 1 - i))%nat.

#[export] Instance gives_before_dec weights j k : Decision (gives_before weights j k).
Proof. unfold gives_before. destruct (is_flexible (weight_at weights j)); apply _. Defined.

Lemma gives_before_rank weights n j k :
  (j < n)%nat -> (k < n)%nat -> gives_before weights j k <-> (donor_rank weights n j < donor_rank weights n k)%nat.
Proof. intros Hj Hk. unfold gives_before, donor_rank. destruct (is_flexible _), (is_flexible _); intuition (try done; lia). Qed.

Lemma exists_last_donor weights n (f : nat -> bool) i :
  (i < n)%nat -> f i = true ->
  exists w, (w < n)%nat /\ f w = true /\ forall k, (k < n)%nat -> gives_before weights w k -> f k = false.
Proof.
  remember (2 * n - donor_rank weights n i)%nat as m eqn:Em. revert i Em.
  induction (lt_wf m) as [m _ IH]; intros i -> Hi Hf.
  destruct (decide (Exists (fun k => gives_before weights i k /\ f k = true) (range n))) as [H|H].
  - apply Exists_exists in H as (k & Hk%elem_of_range & Hb & Hfk).
    pose proof (proj1 (gives_before_rank weights n i k Hi Hk) Hb) as Hr.
    apply (IH (2 * n - donor_rank weights n k)%nat) with (i := k); [|done|done|done].
    assert (donor_rank weights n k < 2 * n)%nat by (unfold donor_rank; destruct (is_flexible _); lia). lia.
  - exists i. split; [done|]. split; [done|]. intros k Hk Hb. apply not_true_iff_false. intros Hfk. apply H, Exists_exists.
    exists k. split; [by apply elem_of_range|done].
Qed.

Section settled_steps.
Context (weights : list SizeWeight) (floors counts counts' s s' : list N) (donor taker : nat).
Context (Hmoved : unit_moved donor taker counts counts').
Context (Hsettled : settled_as weights floors counts s) (Hsettled' : settled_as weights floors counts' s').
Set Default Proof Using "All".

Lemma unit_moved_sum d t c c' : unit_moved d t c c' -> sum_cells c' = sum_cells c.
Proof using Type.
  intros [H1 H2 H3 H4 H5 H6 H7].
  assert (c' = <[t := cell_at c t + 1]> (<[d := cell_at c d - 1]> c)) as ->.
  { apply cell_at_ext; [by rewrite !length_insert|]. intros i.
    destruct (decide (i = t)) as [->|Ht]; [rewrite cell_at_insert_eq by (rewrite length_insert; lia); lia|].
    rewrite cell_at_insert_ne by done. destruct (decide (i = d)) as [->|Hd]; [rewrite cell_at_insert_eq by lia; lia|].
    rewrite cell_at_insert_ne by done. by apply H7. }
  pose proof (sum_cells_insert_at c d (cell_at c d - 1) H2).
  pose proof (sum_cells_insert_at (<[d := cell_at c d - 1]> c) t (cell_at c t + 1) ltac:(rewrite length_insert; lia)) as E.
  rewrite cell_at_insert_ne in E by done. lia.
Qed.

(** A donor that is above its floor after the step was above it before. *)
Lemma donor_was_above : cell_at floors donor < cell_at s' donor -> cell_at floors donor < cell_at s donor.
Proof.
  destruct Hmoved as [U1 U2 U3 U4 U5 U6 U7], Hsettled as [L1 S1 F1 M1 O1], Hsettled' as [L2 S2 F2 M2 O2].
  intros Hab. destruct (decide (cell_at floors donor < cell_at s donor)) as [|Hnot]; [done|exfalso].
  assert (cell_at s donor = cell_at floors donor) as Hd by (specialize (F1 donor); lia).
  assert (forall i, i <> donor -> lifted floors counts i <= lifted floors counts' i) as Hl.
  { intros i Hi. unfold lifted. destruct (decide (i = taker)) as [->|Ht]; [lia|]. rewrite U7 by done. lia. }
  assert (cell_at s donor < lifted floors counts donor) as Hnotfull.
  { specialize (M2 donor). unfold lifted in *. lia. }
  pose proof (unit_moved_sum _ _ _ _ Hmoved) as Hsum.
  assert (sum_cells s + cell_at s' donor <= sum_cells s' + cell_at s donor) as Hle; [|lia].
  apply sum_cells_le_pointwise_except; [lia|lia|]. intros i Hi Hne.
  destruct (gives_before_total weights i donor Hne) as [Hb|Hb].
  - specialize (O1 i donor ltac:(lia) U2 Hb). specialize (F2 i). specialize (F1 i).
    destruct (decide (cell_at floors i < cell_at s i)) as [Hlt|Hge]; [rewrite O1 in Hnotfull by done; lia|lia].
  - rewrite (O2 donor i) by (lia || done). specialize (M1 i). specialize (Hl i Hne). lia.
Qed.

(** The last donor that still has cells it could have kept. *)
Lemma last_short :
  s = counts \/ exists w, (w < length counts)%nat /\ cell_at s w < lifted floors counts w
    /\ (forall k, (k < length counts)%nat -> gives_before weights w k -> cell_at s k = lifted floors counts k)
    /\ (forall j, (j < length counts)%nat -> gives_before weights j w -> cell_at s j = cell_at floors j).
Proof using Hsettled.
  destruct Hsettled as [L1 S1 F1 M1 O1].
  assert (forall w, (w < length counts)%nat -> cell_at s w < lifted floors counts w ->
    forall j, (j < length counts)%nat -> gives_before weights j w -> cell_at s j = cell_at floors j) as Hfl.
  { intros w Hw Hs j Hj Hb. specialize (O1 j w Hj Hw Hb). specialize (F1 j).
    destruct (decide (cell_at floors j < cell_at s j)); [rewrite O1 in Hs by done|]; lia. }
  destruct (decide (Exists (fun i => cell_at s i < lifted floors counts i) (range (length s)))) as [H|H].
  - right. apply Exists_exists in H as (i & Hi%elem_of_range & Hs). rewrite L1 in Hi.
    destruct (exists_last_donor weights (length counts) (fun i => bool_decide (cell_at s i < lifted floors counts i)) i)
      as (w & Hw & Hshort & Hlast); [done|by apply bool_decide_eq_true_2|]. apply bool_decide_eq_true in Hshort.
    exists w. split; [done|]. split; [done|]. split; [|by apply Hfl].
    intros k Hk Hb. specialize (Hlast k Hk Hb). apply bool_decide_eq_false in Hlast. specialize (M1 k). lia.
  - left. apply not_Exists_Forall in H; [|intros i; apply _]. rewrite Forall_forall in H.
    destruct (decide (s = counts)) as [|Hne]; [done|exfalso].
    destruct (unequal_counts s counts) as (i & Hi & Hlt); [lia|lia|done|].
    specialize (H i (proj2 (elem_of_range _ i) Hi)). unfold lifted in H. simpl in H. lia.
Qed.

(** The donor's count falls by one, and another child's rises. *)
Definition shifted (w : nat) : list N := <[w := cell_at s w + 1]> (<[donor := cell_at s donor - 1]> s).

Lemma shifted_unit w :
  w <> donor -> (w < length counts)%nat -> cell_at floors donor < cell_at s donor -> unit_moved donor w s (shifted w).
Proof.
  intros Hw Hlt Hab. destruct Hmoved, Hsettled. unfold shifted.
  split; rewrite ?length_insert; try done; try lia.
  - rewrite cell_at_insert_ne, cell_at_insert_eq by (done || lia). lia.
  - rewrite cell_at_insert_eq; [done|rewrite length_insert; lia].
  - intros i H1 H2. by rewrite !cell_at_insert_ne by done.
Qed.

Lemma lifted_steps :
  cell_at floors donor < cell_at s donor ->
  lifted floors counts' donor + 1 = lifted floors counts donor
  /\ (lifted floors counts' taker = lifted floors counts taker
      \/ lifted floors counts' taker = lifted floors counts taker + 1)
  /\ forall i, i <> donor -> i <> taker -> lifted floors counts' i = lifted floors counts i.
Proof.
  intros Hab. destruct Hmoved as [U1 U2 U3 U4 U5 U6 U7], Hsettled as [L1 S1 F1 M1 O1].
  specialize (M1 donor). unfold lifted in *. split_and!; [lia|lia|]. intros i Hi Ht. by rewrite U7.
Qed.

(** [shifted w] is what the floors make of the new counts when it fits, and
    children after one above its floor are full. *)
Lemma shifted_settles w :
  w <> donor -> (w < length counts)%nat -> cell_at floors donor < cell_at s donor ->
  cell_at s w + 1 <= lifted floors counts' w ->
  (forall j k, (j < length counts)%nat -> (k < length counts)%nat -> gives_before weights j k ->
    cell_at floors j < cell_at (shifted w) j -> cell_at (shifted w) k = lifted floors counts' k) ->
  unit_moved donor w s s'.
Proof.
  intros Hw Hlt Hab Hroom Horder. pose proof (shifted_unit w Hw Hlt Hab) as Hu.
  assert (s' = shifted w) as ->; [|done]. apply (settled_unique weights floors counts'); [done|].
  destruct (lifted_steps Hab) as (E1 & E2 & E3). pose proof (unit_moved_sum _ _ _ _ Hmoved) as Hs1.
  pose proof (unit_moved_sum _ _ _ _ Hu) as Hs2.
  destruct Hmoved as [U1 U2 U3 U4 U5 U6 U7], Hsettled as [L1 S1 F1 M1 O1], Hu as [V1 V2 V3 V4 V5 V6 V7].
  split; [lia|lia| | |by rewrite U1].
  - intros i. specialize (F1 i). destruct (decide (i = donor)) as [->|Hd]; [lia|].
    destruct (decide (i = w)) as [->|Hi]; [lia|]. by rewrite V7.
  - intros i. specialize (M1 i). destruct (decide (i = donor)) as [->|Hd]; [lia|].
    destruct (decide (i = w)) as [->|Hi]; [lia|]. rewrite V7 by done.
    destruct (decide (i = taker)) as [->|Ht]; [lia|]. by rewrite E3.
Qed.

Lemma short_donor_step :
  cell_at floors donor < cell_at s donor -> cell_at s donor < lifted floors counts donor ->
  donor_step donor s s'.
Proof.
  intros Hab Hshort. destruct (lifted_steps Hab) as (E1 & E2 & E3). pose proof Hsettled as [L1 S1 F1 M1 O1].
  pose proof Hmoved as [U1 U2 U3 U4 U5 U6 U7]. pose proof (unit_moved_sum _ _ _ _ Hmoved) as Hs1.
  assert (forall j, (j < length counts)%nat -> gives_before weights j donor -> cell_at s j = cell_at floors j) as Hbefore.
  { intros j Hj Hb. specialize (O1 j donor Hj U2 Hb). specialize (F1 j).
    destruct (decide (cell_at floors j < cell_at s j)); [rewrite O1 in Hshort by done|]; lia. }
  destruct (decide (lifted floors counts' taker = lifted floors counts taker \/ gives_before weights taker donor))
    as [Hsame|Hafter].
  - left. apply (settled_unique weights floors counts'); [done|]. split; [lia|lia|done| |].
    + intros i. specialize (M1 i). destruct (decide (i = donor)) as [->|Hd]; [lia|].
      destruct (decide (i = taker)) as [->|Ht]; [lia|]. by rewrite E3.
    + rewrite U1. intros j k Hj Hk Hb Hlt. pose proof (O1 j k Hj Hk Hb Hlt) as Hfull.
      destruct (decide (k = donor)) as [->|Hd]; [lia|].
      destruct (decide (k = taker)) as [->|Ht]; [|by rewrite E3]. destruct Hsame as [->|Hsame]; [done|].
      rewrite (Hbefore j) in Hlt by (done || by eapply gives_before_trans). lia.
  - assert (lifted floors counts' taker = lifted floors counts taker + 1) as Et by tauto.
    assert (gives_before weights donor taker) as Hb0
      by (destruct (gives_before_total weights taker donor U4); [tauto|done]).
    pose proof (O1 donor taker U2 U3 Hb0 Hab) as Hfull.
    right. exists taker. apply shifted_settles; [done|done|done|lia|].
    pose proof (shifted_unit taker U4 U3 Hab) as [V1 V2 V3 V4 V5 V6 V7].
    intros j k Hj Hk Hb Hlt.
    assert (cell_at s k = lifted floors counts k) as Hk'.
    { destruct (decide (j = taker)) as [->|Hjt].
      - apply (O1 donor k U2 Hk); [by eapply gives_before_trans|done].
      - apply (O1 j k Hj Hk Hb). destruct (decide (j = donor)) as [->|Hjd]; [done|]. by rewrite <- V7. }
    destruct (decide (k = donor)) as [->|Hd]; [lia|].
    destruct (decide (k = taker)) as [->|Ht]; [lia|]. by rewrite V7, E3.
Qed.

Lemma full_donor_step :
  cell_at floors donor < cell_at s donor -> cell_at s donor = lifted floors counts donor ->
  donor_step donor s s'.
Proof.
  intros Hab Hdfull. destruct (lifted_steps Hab) as (E1 & E2 & E3). pose proof Hsettled as [L1 S1 F1 M1 O1].
  pose proof Hmoved as [U1 U2 U3 U4 U5 U6 U7]. right.
  destruct last_short as [Es|(w & Hw & Hshort & Hafter & Hbefore)].
  - exists taker. rewrite Es. assert (s' = counts') as ->; [|done].
    apply (settled_unique weights floors counts'); [done|]. rewrite Es in F1, Hab.
    assert (forall i, cell_at floors i <= cell_at counts' i) as Hfl.
    { intros i. specialize (F1 i). destruct (decide (i = donor)) as [->|Hd]; [lia|].
      destruct (decide (i = taker)) as [->|Ht]; [lia|]. by rewrite U7. }
    split; [done|done|done| |]; intros i; unfold lifted; [lia|]. intros k _ _ _ _. specialize (Hfl k). lia.
  - assert (gives_before weights w donor) as Hwd.
    { destruct (gives_before_total weights w donor) as [|Hb]; [intros ->; lia|done|].
      specialize (Hbefore donor U2 Hb). lia. }
    assert (w <> donor) as Hne by (intros ->; lia).
    assert (forall t, (t = taker /\ lifted floors counts' t = lifted floors counts t + 1 /\ gives_before weights w t)
        \/ (t = w /\ (gives_before weights w taker -> lifted floors counts' taker = lifted floors counts taker)) ->
      unit_moved donor t s s') as Hgo.
    { intros t Ht.
      assert ((t < length counts)%nat /\ t <> donor /\ (w = t \/ gives_before weights w t)) as (Htl & Htd & Hwt)
        by (destruct Ht as [(-> & _ & ?)|[-> _]]; auto).
      pose proof (shifted_unit t Htd Htl Hab) as [V1 V2 V3 V4 V5 V6 V7].
      apply shifted_settles; [done|done|done| |].
      - destruct Ht as [(-> & -> & Hb)|[-> Ht]]; [rewrite (Hafter taker) by done; lia|].
        destruct (decide (w = taker)) as [->|Hwk]; [lia|]. rewrite E3 by done. lia.
      - intros j k Hj Hk Hb Hlt.
        assert (gives_before weights w k) as Hwk.
        { destruct (decide (j = t)) as [->|Hjt]; [destruct Hwt as [->|Hwt]; [done|by eapply gives_before_trans]|].
          assert (cell_at floors j < cell_at s j) as Hlt'.
          { destruct (decide (j = donor)) as [->|Hjd]; [done|]. by rewrite <- V7. }
          destruct (decide (j = w)) as [->|Hjw]; [done|]. destruct (gives_before_total weights w j) as [Hwj|Hjb]; [done| |].
          - by eapply gives_before_trans.
          - specialize (Hbefore j Hj Hjb). lia. }
        pose proof (Hafter k Hk Hwk) as Hkfull.
        destruct (decide (k = donor)) as [->|Hd]; [lia|].
        destruct Ht as [(-> & Et & Hb')|[-> Ht]].
        + destruct (decide (k = taker)) as [->|Hkt]; [lia|]. by rewrite V7, E3.
        + assert (k <> w) as Hkw by (intros ->; lia). rewrite V7 by done.
          destruct (decide (k = taker)) as [->|Hkt]; [by rewrite Ht|by rewrite E3]. }
    destruct (decide (lifted floors counts' taker = lifted floors counts taker + 1 /\ gives_before weights w taker))
      as [[Et Hb]|Hno].
    + exists taker. apply Hgo. by left.
    + exists w. apply Hgo. right. split; [done|]. intros Hb. tauto.
Qed.

(** The floors pass the step on, while the donor is above its floor. *)
Lemma settled_step : cell_at floors donor < cell_at s donor -> donor_step donor s s'.
Proof.
  intros Hab. pose proof (sa_le _ _ _ _ Hsettled donor) as Hle.
  destruct (decide (cell_at s donor < lifted floors counts donor)) as [Hlt|Hge];
    [by apply short_donor_step|apply full_donor_step; [done|lia]].
Qed.
End settled_steps.
