(* ===== verification/ResizeSearch.v ===== *)
(** * The search of a resize

    The candidate counts are the counts that can change the solve, in order,
    and the two binary searches find the smallest count that moves the border
    as far as it goes. *)

From S2P Require Import Prelude Geometry Size Tree Distribute Solver Resize.
From stdpp Require Import options.
#[local] Open Scope Z_scope.

(** ** One binary search *)

Section first_candidate.
Context (measure : Z -> option BorderMeasure) (found : BorderMeasure -> bool).
Set Default Proof Using "All".

(** The result is a match, and the candidate before it is none, unless the
    result is the lowest. *)
Record first_match (low high k : Z) (m : BorderMeasure) : Prop :=
  { fm_range : low <= k <= high;
    fm_measure : measure k = Some m;
    fm_found : found m = true;
    fm_before : k = low \/ exists m', measure (k - 1) = Some m' /\ found m' = false }.

Lemma find_first_candidate_log low high m fuel :
  (forall k, low <= k <= high -> is_Some (measure k)) ->
  low <= high -> measure high = Some m -> found m = true -> high - low < 2 ^ Z.of_nat fuel ->
  exists k m', find_first_candidate fuel low high m measure found = Some (k, m') /\ first_match low high k m'.
Proof.
  revert low high m. induction fuel as [|fuel IH]; intros low high m Htotal Hle Hm Hf Hfuel;
    cbn [find_first_candidate]; destruct (low <? high) eqn:E; bools; try (simpl in Hfuel; lia).
  - exists high, m. split; [done|]. split; [lia|done|done|left; lia].
  - set (mid := low + (high - low) `quot` 2).
    rewrite Nat2Z.inj_succ, Z.pow_succ_r in Hfuel by lia.
    assert (low <= mid < high /\ mid - low < 2 ^ Z.of_nat fuel /\ high - (mid + 1) < 2 ^ Z.of_nat fuel) as (Hmid & Hleft & Hright).
    { subst mid. rewrite Z.quot_div_nonneg by lia. pose proof (Z.div_mod (high - low) 2 ltac:(lia)).
      pose proof (Z.mod_pos_bound (high - low) 2 ltac:(lia)). lia. }
    destruct (Htotal mid) as [m' Em]; [lia|]. rewrite Em. cbn [mbind option_bind].
    destruct (found m') eqn:Ef.
    + destruct (IH low mid m') as (k & mk & Ek & [H1 H2 H3 H4]); [intros; apply Htotal; lia|lia|done|done|lia|].
      exists k, mk. split; [done|]. split; [lia|done|done|done].
    + destruct (IH (mid + 1) high m) as (k & mk & Ek & [H1 H2 H3 H4]); [intros; apply Htotal; lia|lia|done|done|lia|].
      exists k, mk. split; [done|]. split; [lia|done|done|]. right.
      destruct H4 as [->|H4]; [|done]. exists m'. by rewrite Z.add_simpl_r.
  - exists high, m. split; [done|]. split; [lia|done|done|left; lia].
Qed.
Lemma find_first_candidate_ok low high m fuel :
  (forall k, low <= k <= high -> is_Some (measure k)) ->
  low <= high -> measure high = Some m -> found m = true -> high - low <= Z.of_nat fuel ->
  exists k m', find_first_candidate fuel low high m measure found = Some (k, m') /\ first_match low high k m'.
Proof.
  intros. apply find_first_candidate_log; [done..|]. pose proof (Z.pow_gt_lin_r 2 (Z.of_nat fuel)). lia.
Qed.

(** When the matches are the candidates from some point on, it is the first. *)
Lemma first_match_is_least low high k m :
  (forall j j' mj mj', low <= j <= j' -> j' <= high -> measure j = Some mj -> measure j' = Some mj' ->
     found mj = true -> found mj' = true) ->
  first_match low high k m -> forall j mj, low <= j < k -> measure j = Some mj -> found mj = false.
Proof.
  intros Hmono [H1 H2 H3 H4] j mj Hj Hmj. destruct H4 as [->|(m' & Hm' & Hf)]; [lia|].
  destruct (found mj) eqn:E; [|done]. rewrite <- Hf. symmetry. eapply (Hmono j (k - 1)); [lia|lia|done..].
Qed.
End first_candidate.

(** ** The search of one resize *)

Section search.
Context (requested : Z) (w : OffsetWindows) (measure : Z -> option BorderMeasure).
Context (starting_spare : N).

(** What is measured at a candidate; candidate 0 is the start. *)
Context (moved : Z -> Z) (spare : Z -> N).
Context (Hstart : moved 0 = 0 /\ spare 0 = starting_spare).
Context (Hmeasure : forall k, 1 <= k <= candidate_count w -> measure k = Some (MkBorderMeasure (moved k) (spare k))).

(** One more candidate moves the border by at most one cell, until the donor
    has no cell to spare, and then it never has one again. *)
Context (Hstep : forall k, 0 <= k < candidate_count w -> (0 < spare k)%N -> moved k <= moved (k + 1) <= moved k + 1).
Context (Hspare : forall k, 0 <= k < candidate_count w -> (0 < spare (k + 1))%N -> (0 < spare k)%N).
Set Default Proof Using "All".

Lemma spare_before j k : 0 <= j <= k -> k <= candidate_count w -> (0 < spare k)%N -> (0 < spare j)%N.
Proof.
  intros Hj. replace k with (j + Z.of_nat (Z.to_nat (k - j))) by lia. induction (Z.to_nat (k - j)) as [|n IH].
  - by rewrite Z.add_0_r.
  - intros Hk Hs. apply IH; [lia|]. apply Hspare; [lia|].
    by replace (j + Z.of_nat n + 1) with (j + Z.of_nat (S n)) by lia.
Qed.

Lemma moved_mono j k :
  0 <= j <= k -> k <= candidate_count w -> (j = k \/ (0 < spare (k - 1))%N) -> moved j <= moved k <= moved j + (k - j).
Proof.
  intros Hj. replace k with (j + Z.of_nat (Z.to_nat (k - j))) by lia. induction (Z.to_nat (k - j)) as [|n IH].
  - rewrite Z.add_0_r. lia.
  - intros Hk [Hs|Hs]; [lia|]. replace (j + Z.of_nat (S n) - 1) with (j + Z.of_nat n) in Hs by lia.
    pose proof (Hstep (j + Z.of_nat n) ltac:(lia) Hs) as H1.
    replace (j + Z.of_nat n + 1) with (j + Z.of_nat (S n)) in H1 by lia.
    destruct (decide (n = 0%nat)) as [->|Hn]; [rewrite Z.add_0_r in H1; lia|].
    assert ((0 < spare (j + Z.of_nat n - 1))%N) as Hs' by (apply (spare_before _ (j + Z.of_nat n)); [lia|lia|done]).
    specialize (IH ltac:(lia) (or_intror Hs')). lia.
Qed.

(** The candidate the move stops at: every candidate before it spares a cell
    and moved less than asked. *)
Record stops_at (k : Z) : Prop :=
  { st_range : 1 <= k <= candidate_count w;
    st_before : (0 < spare (k - 1))%N /\ moved (k - 1) < requested;
    st_stop : k = candidate_count w \/ requested <= moved k \/ spare k = 0%N }.

Lemma first_match_stops low high k m :
  1 <= low -> high <= candidate_count w -> (0 < spare (low - 1))%N -> moved (low - 1) < requested ->
  first_match measure (is_move_stopped requested) low high k m ->
  stops_at k /\ m = MkBorderMeasure (moved k) (spare k).
Proof.
  intros Hl Hh Hs Hm [H1 H2 H3 H4]. rewrite Hmeasure in H2 by lia. injection H2 as <-. split; [|done].
  split; [lia| |].
  - destruct H4 as [->|(m' & E & Hn)]; [done|]. destruct (decide (k = low)) as [->|Hne]; [done|].
    rewrite Hmeasure in E by lia. injection E as <-. unfold is_move_stopped in Hn. cbn in Hn.
    apply orb_false_iff in Hn as [Hn1%Z.leb_gt Hn2%N.eqb_neq]. split; lia.
  - right. unfold is_move_stopped in H3. cbn in H3. apply orb_true_iff in H3 as [H3|H3]; [left|right]; bools; lia.
Qed.

Lemma find_stopping_ok :
  0 < requested -> (0 < starting_spare)%N -> 0 < candidate_count w ->
  exists k, find_stopping_candidate requested w measure = Some (k, MkBorderMeasure (moved k) (spare k)) /\ stops_at k.
Proof.
  intros Hreq Hs0 Hc. unfold find_stopping_candidate. destruct Hstart as [Hm0 Hsp0].
  set (p := Z.min requested (candidate_count w)).
  assert (forall k, 1 <= k <= candidate_count w -> is_Some (measure k)) as Htotal by (intros k Hk; rewrite Hmeasure by done; eauto).
  rewrite (Hmeasure p) by lia. cbn [mbind option_bind]. unfold is_move_stopped at 1.
  cbn [moved_cell_count spare_cell_count]. destruct (_ || _) eqn:E.
  - destruct (0 <? spare p)%N eqn:Esp; bools.
    + exists p. split; [done|]. assert (requested <= moved p) as Hp by (destruct E as [E|E]; bools; lia).
      assert ((0 < spare (p - 1))%N) as Hs by (apply (spare_before _ p); lia).
      pose proof (moved_mono 0 p ltac:(lia) ltac:(lia) (or_intror Hs)) as H1.
      pose proof (moved_mono 0 (p - 1) ltac:(lia) ltac:(lia)) as H2.
      split; [lia| |by right; left]. split; [done|].
      destruct (decide (p = 1)) as [->|Hp1]; [rewrite Z.sub_diag; lia|].
      assert ((0 < spare (p - 1 - 1))%N) as Hs' by (apply (spare_before _ (p - 1)); lia). specialize (H2 (or_intror Hs')). lia.
    + destruct (find_first_candidate_ok measure (is_move_stopped requested) 1 p (MkBorderMeasure (moved p) (spare p))
        (search_fuel 1 p)) as (k & m & Ek & Hk).
      * intros k Hk. apply Htotal. lia.
      * lia.
      * apply Hmeasure. lia.
      * unfold is_move_stopped. cbn. apply orb_true_iff. right. apply N.eqb_eq. lia.
      * unfold search_fuel. lia.
      * destruct (first_match_stops 1 p k m) as [H1 ->]; [lia|lia|rewrite Z.sub_diag; lia|rewrite Z.sub_diag; lia|done|].
        by exists k.
  - apply orb_false_iff in E as [E1%Z.leb_gt E2%N.eqb_neq].
    assert ((0 < spare (p - 1))%N) as Hs by (apply (spare_before _ p); lia).
    pose proof (moved_mono (p - 1) p ltac:(lia) ltac:(lia) (or_intror Hs)) as Hmono.
    destruct (p =? candidate_count w) eqn:Ep; bools.
    + exists p. split; [done|]. split; [lia|lia|by left].
    + rewrite (Hmeasure (candidate_count w)) by lia. cbn [mbind option_bind].
      destruct (is_move_stopped requested (MkBorderMeasure (moved (candidate_count w)) (spare (candidate_count w)))) eqn:El.
      * destruct (find_first_candidate_ok measure (is_move_stopped requested) (p + 1) (candidate_count w)
          (MkBorderMeasure (moved (candidate_count w)) (spare (candidate_count w)))
          (search_fuel (p + 1) (candidate_count w))) as (k & m & Ek & Hk).
        -- intros k Hk. apply Htotal. lia.
        -- lia.
        -- apply Hmeasure. lia.
        -- done.
        -- unfold search_fuel. lia.
        -- destruct (first_match_stops (p + 1) (candidate_count w) k m) as [H1 ->];
             [lia|lia|rewrite Z.add_simpl_r; lia|rewrite Z.add_simpl_r; lia|done|]. by exists k.
      * exists (candidate_count w). split; [done|]. apply orb_false_iff in El as [El1 El2]. cbn in El1, El2. bools.
        assert ((0 < spare (candidate_count w - 1))%N) as Hs' by (apply (spare_before _ (candidate_count w)); lia).
        pose proof (moved_mono (candidate_count w - 1) (candidate_count w) ltac:(lia) ltac:(lia) (or_intror Hs')).
        split; [lia|lia|by left].
Qed.

(** The outcome: the cells moved, and the candidate kept (0 for none). *)
Record kept_at_candidate (moved_cells k : Z) : Prop :=
  { kc_range : 0 <= k /\ (k = 0 \/ k <= candidate_count w);
    kc_moved : moved k = moved_cells /\ 0 <= moved_cells <= requested;
    kc_first j : 0 <= j < k -> moved j < moved_cells /\ (0 < spare j)%N;
    kc_most : moved_cells = requested
      \/ forall j, 1 <= j <= candidate_count w -> (0 < spare (j - 1))%N -> moved j <= moved_cells }.

Lemma find_kept_ok :
  0 <= requested <= 65535 ->
  exists moved_cells k,
    find_kept_count requested w measure starting_spare
    = Some (Z.to_N moved_cells, if k =? 0 then 0 else get_added_cell_count w k)
    /\ kept_at_candidate moved_cells k.
Proof.
  intros Hreq. destruct Hstart as [Hm0 Hsp0]. unfold find_kept_count.
  assert ((requested = 0 \/ starting_spare = 0%N \/ candidate_count w <= 0) -> kept_at_candidate 0 0) as Hnone.
  { intros Hno. split; [lia|lia|lia|]. destruct Hno as [->|[Hz|Hz]]; [by left| |right; lia].
    right. intros j Hj Hs. assert ((0 < spare 0)%N) by (apply (spare_before 0 (j - 1)); lia || done). lia. }
  destruct (_ && _ && _) eqn:E.
  2: { exists 0, 0. split; [done|]. apply Hnone. apply andb_false_iff in E as [[E|E]%andb_false_iff|E]; bools; lia. }
  apply andb_true_iff in E as [[E1%Z.ltb_lt E2%N.ltb_lt]%andb_true_iff E3%Z.ltb_lt].
  destruct (find_stopping_ok E1 E2 E3) as (stop & Es & [S1 [S2 S2'] S3]). rewrite Es. cbn [mbind option_bind moved_cell_count].
  pose proof (moved_mono (stop - 1) stop ltac:(lia) ltac:(lia) (or_intror S2)) as Hlast.
  assert (forall j, 0 <= j <= stop -> moved j <= moved stop) as Hle.
  { intros j Hj. pose proof (moved_mono j stop ltac:(lia) ltac:(lia) (or_intror S2)). lia. }
  assert (forall j, 0 <= j < stop -> (0 < spare j)%N) as Hsp by (intros j Hj; apply (spare_before j (stop - 1)); lia || done).
  assert (moved stop = requested \/ forall j, 1 <= j <= candidate_count w -> (0 < spare (j - 1))%N -> moved j <= moved stop) as Hmost.
  { destruct S3 as [->|[S3|S3]]; [right; intros j Hj _; apply Hle; lia|left; lia|right].
    intros j Hj Hs. apply Hle. destruct (decide (j <= stop)) as [|Hgt]; [lia|].
    assert ((0 < spare stop)%N) by (apply (spare_before stop (j - 1)); lia || done). lia. }
  destruct (0 <? moved stop) eqn:Em; bools.
  - pose proof (moved_mono 0 stop ltac:(lia) ltac:(lia) (or_intror S2)) as H0.
    destruct (find_first_candidate_ok measure (fun m => moved stop <=? moved_cell_count m) (moved stop) stop
      (MkBorderMeasure (moved stop) (spare stop)) (search_fuel (moved stop) stop))
      as (k & m & Ek & [F1 F2 F3 F4]).
    + intros k Hk. rewrite Hmeasure by lia. eauto.
    + lia.
    + apply Hmeasure. lia.
    + cbn. apply Z.leb_refl.
    + unfold search_fuel. lia.
    + rewrite Ek. cbn [mbind option_bind]. exists (moved stop), k. rewrite Hmeasure in F2 by lia. injection F2 as <-. cbn in F3. bools.
      rewrite (proj2 (Z.eqb_neq k 0)) by lia. rewrite as_u16_exact by lia. split; [done|].
      pose proof (Hle k ltac:(lia)). split; [lia|lia| |done].
      intros j Hj. split; [|apply Hsp; lia].
      destruct F4 as [->|(m' & E & Hn)].
      * pose proof (moved_mono 0 j ltac:(lia) ltac:(lia)) as Hj0.
        destruct (decide (j = 0)) as [->|Hne]; [lia|]. specialize (Hj0 (or_intror (Hsp (j - 1) ltac:(lia)))). lia.
      * destruct (decide (k = moved stop)) as [->|Hne].
        -- pose proof (moved_mono 0 j ltac:(lia) ltac:(lia)) as Hj0.
           destruct (decide (j = 0)) as [->|Hne]; [lia|]. specialize (Hj0 (or_intror (Hsp (j - 1) ltac:(lia)))). lia.
        -- rewrite Hmeasure in E by lia. injection E as <-. cbn in Hn. bools.
           pose proof (moved_mono j (k - 1) ltac:(lia) ltac:(lia)) as Hjk.
           destruct (decide (j = k - 1)) as [->|Hne']; [lia|]. specialize (Hjk (or_intror (Hsp (k - 1 - 1) ltac:(lia)))). lia.
  - exists 0, 0. split; [done|]. pose proof (moved_mono 0 stop ltac:(lia) ltac:(lia) (or_intror S2)).
    assert (moved stop = 0) as Hz by lia. split; [lia|lia|lia|]. rewrite Hz in Hmost. destruct Hmost as [<-|Hmost]; [by left|by right].
Qed.
End search.

(** ** The candidate counts *)

Section windows.
Context (axis receiving donating : Z).
Abbreviation w := (list_offset_windows axis receiving donating).

(** The counts whose last cell can change the solve: the receiver's or the
    donor's offset is inside the axis there. *)
Definition is_window_count (n : Z) : Prop :=
  1 <= n /\ (1 - axis <= receiving + n <= axis \/ 1 - axis <= n - donating <= axis).

Lemma candidates_are_the_window_counts :
  (forall k, 1 <= k <= candidate_count w -> is_window_count (get_added_cell_count w k))
  /\ (forall k, 1 <= k < candidate_count w -> get_added_cell_count w k < get_added_cell_count w (k + 1))
  /\ (forall n, is_window_count n -> exists k, 1 <= k <= candidate_count w /\ get_added_cell_count w k = n).
Proof.
  unfold is_window_count, list_offset_windows, candidate_count, get_added_cell_count.
  destruct (Z.leb_spec (Z.max (1 - axis - receiving) 1) (Z.max (1 - axis + donating) 1));
    cbn [first_window_start first_window_length second_window_start second_window_length]; split_and!.
  - intros k Hk. case_match; bools; lia.
  - intros k Hk. repeat case_match; bools; lia.
  - intros n Hn.
    set (fs := Z.max (1 - axis - receiving) 1) in *. set (ss := Z.max (Z.max (1 - axis + donating) 1) (axis - receiving + 1)) in *.
    set (fl := Z.max (axis - receiving - fs + 1) 0) in *.
    destruct (decide (fs <= n <= axis - receiving)) as [Hf|Hf].
    + exists (n - fs + 1). rewrite (proj2 (Z.leb_le _ _)) by lia. lia.
    + exists (n - ss + 1 + fl). rewrite (proj2 (Z.leb_gt _ _)) by lia. lia.
  - intros k Hk. case_match; bools; lia.
  - intros k Hk. repeat case_match; bools; lia.
  - intros n Hn.
    set (fs := Z.max (1 - axis + donating) 1) in *. set (ss := Z.max (Z.max (1 - axis - receiving) 1) (axis + donating + 1)) in *.
    set (fl := Z.max (axis + donating - fs + 1) 0) in *.
    destruct (decide (fs <= n <= axis + donating)) as [Hf|Hf].
    + exists (n - fs + 1). rewrite (proj2 (Z.leb_le _ _)) by lia. lia.
    + exists (n - ss + 1 + fl). rewrite (proj2 (Z.leb_gt _ _)) by lia. lia.
Qed.
End windows.

(** ** From candidates to counts *)

Section counts.
Context (axis receiving donating requested : Z) (moved : Z -> Z) (spare : Z -> N).
Context (measure : Z -> option BorderMeasure).
Abbreviation w := (list_offset_windows axis receiving donating).
Context (Hzero : moved 0 = 0).
Context (Hstep : forall n, 0 <= n -> (0 < spare n)%N -> moved n <= moved (n + 1) <= moved n + 1).
Context (Hspare : forall n, 0 <= n -> (0 < spare (n + 1))%N -> (0 < spare n)%N).
Context (Houtside : forall n, 0 <= n -> ~ is_window_count axis receiving donating (n + 1) ->
  moved (n + 1) = moved n /\ spare (n + 1) = spare n).
Context (Hmeasure : forall k, 1 <= k <= candidate_count w ->
  measure k = Some (MkBorderMeasure (moved (get_added_cell_count w k)) (spare (get_added_cell_count w k)))).
Context (Hrequested : 0 <= requested <= 65535).
Set Default Proof Using "All".

(** The search's outcome among all counts: the smallest count that moves the
    border so far, where no count the donor can pay for moves it farther. *)
Record kept_at_count (moved_cells n : Z) : Prop :=
  { kn_count : 0 <= n;
    kn_moved : moved n = moved_cells /\ 0 <= moved_cells <= requested;
    kn_first m : 0 <= m < n -> moved m < moved_cells /\ (0 < spare m)%N;
    kn_most : moved_cells = requested
      \/ forall m, 1 <= m -> (0 < spare (m - 1))%N -> moved m <= moved_cells }.

Definition added (k : Z) : Z := if k =? 0 then 0 else get_added_cell_count w k.

Lemma candidate_count_nonneg : 0 <= candidate_count w.
Proof using Type.
  unfold candidate_count, list_offset_windows. destruct (_ <=? _); cbn [first_window_length second_window_length]; lia.
Qed.

Lemma added_succ k : 0 <= k < candidate_count w -> added k < added (k + 1).
Proof using Type.
  destruct (candidates_are_the_window_counts axis receiving donating) as (H1 & H2 & _). intros Hk. unfold added.
  rewrite (proj2 (Z.eqb_neq (k + 1) 0)) by lia. destruct (k =? 0) eqn:E; bools; [|apply H2; lia].
  destruct (H1 (k + 1)) as [H _]; lia.
Qed.

Lemma added_mono j k : 0 <= j -> j < k <= candidate_count w -> added j < added k.
Proof using Type.
  intros Hj Hk. replace k with (j + 1 + Z.of_nat (Z.to_nat (k - j - 1))) in Hk |- * by lia.
  induction (Z.to_nat (k - j - 1)) as [|n IH]; [rewrite Z.add_0_r; apply added_succ; lia|].
  specialize (IH ltac:(lia)). pose proof (added_succ (j + 1 + Z.of_nat n) ltac:(lia)) as H.
  replace (j + 1 + Z.of_nat n + 1) with (j + 1 + Z.of_nat (S n)) in H by lia. lia.
Qed.

(** Count [n] solves like candidate [j]. *)
Definition located (n j : Z) : Prop :=
  0 <= j <= candidate_count w /\ added j <= n /\ (j = candidate_count w \/ n < added (j + 1)).

Lemma locate n : 0 <= n -> exists j, located n j.
Proof using Type.
  intros Hn. pose proof candidate_count_nonneg as HK. unfold located.
  assert (forall m, (Z.of_nat m <= candidate_count w) ->
    (exists j, 0 <= j < Z.of_nat m /\ added j <= n /\ n < added (j + 1)) \/ added (Z.of_nat m) <= n) as H.
  { induction m as [|m IH]; intros Hm; [by right|]. destruct IH as [(j & H1 & H2 & H3)|IH]; [lia| |].
    - left. exists j. split; [lia|done].
    - destruct (decide (n < added (Z.of_nat m + 1))) as [Hlt|Hge].
      + left. exists (Z.of_nat m). split; [lia|done].
      + right. replace (Z.of_nat (S m)) with (Z.of_nat m + 1) by lia. lia. }
  destruct (H (Z.to_nat (candidate_count w))) as [(j & H1 & H2 & H3)|H1]; [lia| |].
  - exists j. split; [lia|]. split; [done|by right].
  - exists (candidate_count w). rewrite Z2Nat.id in H1 by lia. split; [lia|]. split; [done|by left].
Qed.

Lemma located_same n j : located n j -> moved n = moved (added j) /\ spare n = spare (added j).
Proof using Houtside.
  intros (Hj & Hle & Hlt). destruct (candidates_are_the_window_counts axis receiving donating) as (_ & _ & H3).
  assert (0 <= added j) as H0.
  { destruct (decide (j = 0)) as [->|Hne]; [done|]. pose proof (added_mono 0 j ltac:(lia) ltac:(lia)). unfold added in *. simpl in *. lia. }
  remember (Z.to_nat (n - added j)) as m eqn:Em. revert n Hle Hlt Em. induction m as [|m IH]; intros n Hle Hlt Em.
  { by replace n with (added j) by lia. }
  destruct (IH (n - 1)) as [E1 E2]; [lia|lia|lia|].
  destruct (Houtside (n - 1)) as [E3 E4]; [lia| |].
  - intros Hw. rewrite Z.sub_add in Hw. destruct (H3 n Hw) as (k & Hk & Ek).
    assert (added k = n) as Eadd by (unfold added; rewrite (proj2 (Z.eqb_neq k 0)) by lia; done).
    destruct (Z.lt_trichotomy k j) as [Hkj|[->|Hkj]]; [|lia|].
    + pose proof (added_mono k j ltac:(lia) ltac:(lia)). lia.
    + destruct Hlt as [->|Hlt]; [lia|]. destruct (decide (k = j + 1)) as [->|Hne]; [lia|].
      pose proof (added_mono (j + 1) k ltac:(lia) ltac:(lia)). lia.
  - rewrite Z.sub_add in E3, E4. split; congruence.
Qed.

Lemma spare_chain m n : 0 <= m <= n -> (0 < spare n)%N -> (0 < spare m)%N.
Proof using Hspare.
  intros H. replace n with (m + Z.of_nat (Z.to_nat (n - m))) by lia. induction (Z.to_nat (n - m)) as [|k IH].
  - by rewrite Z.add_0_r.
  - intros Hs. apply IH, Hspare; [lia|]. by replace (m + Z.of_nat k + 1) with (m + Z.of_nat (S k)) by lia.
Qed.

Lemma located_before k : 1 <= k <= candidate_count w -> located (added k - 1) (k - 1).
Proof using Type.
  intros Hk. pose proof (added_mono (k - 1) k ltac:(lia) ltac:(lia)). split; [lia|]. split; [lia|]. right. rewrite Z.sub_add. lia.
Qed.

Lemma find_kept_count_ok :
  exists moved_cells n,
    find_kept_count requested w measure (spare 0) = Some (Z.to_N moved_cells, n) /\ kept_at_count moved_cells n.
Proof.
  assert (forall k, 1 <= k <= candidate_count w -> 0 <= added k - 1) as Hpos.
  { intros k Hk. pose proof (added_mono 0 k ltac:(lia) ltac:(lia)) as H. unfold added in H at 1. simpl in H. lia. }
  destruct (find_kept_ok requested w measure (spare 0) (fun k => moved (added k)) (fun k => spare (added k)))
    as (moved_cells & k & E & [K1 K2 K3 K4]).
  - done.
  - intros k Hk. rewrite Hmeasure by done. unfold added. by rewrite (proj2 (Z.eqb_neq k 0)) by lia.
  - intros k Hk Hs. destruct (located_same _ _ (located_before (k + 1) ltac:(lia))) as [E1 E2].
    rewrite Z.add_simpl_r in E1, E2. specialize (Hpos (k + 1) ltac:(lia)).
    rewrite <- E2 in Hs. specialize (Hstep _ Hpos Hs). rewrite Z.sub_add, E1 in Hstep. done.
  - intros k Hk Hs. destruct (located_same _ _ (located_before (k + 1) ltac:(lia))) as [E1 E2].
    rewrite Z.add_simpl_r in E1, E2. specialize (Hpos (k + 1) ltac:(lia)). rewrite <- E2. apply Hspare; [done|].
    by rewrite Z.sub_add.
  - done.
  - exists moved_cells, (added k). split; [exact E|].
    assert (k <= candidate_count w) as Hk by (pose proof candidate_count_nonneg; lia).
    assert (0 <= added k) as Hadd.
    { destruct (decide (k = 0)) as [->|Hne]; [done|]. specialize (Hpos k ltac:(lia)). lia. }
    split; [done|done| |].
    + intros n Hn. destruct (locate n ltac:(lia)) as [j Hj]. destruct (located_same _ _ Hj) as [-> ->]. apply K3.
      destruct Hj as (H1 & H2 & H3). split; [lia|]. destruct (decide (j < k)) as [|Hge]; [done|exfalso].
      destruct (decide (j = k)) as [->|Hne]; [lia|]. pose proof (added_mono k j ltac:(lia) ltac:(lia)). lia.
    + destruct K4 as [K4|K4]; [by left|right]. intros n Hn Hs. destruct (locate n ltac:(lia)) as [j Hj].
      destruct (located_same _ _ Hj) as [-> _]. destruct Hj as (H1 & H2 & H3).
      destruct (decide (j = 0)) as [->|Hne]; [unfold added; simpl; lia|]. apply K4; [lia|].
      destruct (located_same _ _ (located_before j ltac:(lia))) as [_ E2]. rewrite <- E2.
      specialize (Hpos j ltac:(lia)). apply (spare_chain _ (n - 1)); [lia|done].
Qed.
End counts.

Lemma find_kept_count_no_spare requested w measure : find_kept_count requested w measure 0 = Some (0%N, 0).
Proof. unfold find_kept_count. by rewrite N.ltb_irrefl, andb_false_r. Qed.
