(* ===== verification/ResizeBorder.v ===== *)
(** * The border of a split under added offset cells

    [measure_border] at one more added cell: the border moves by at most one
    cell in the asked direction while the donor spares a cell, and a donor
    with no cell to spare never has one again. *)

From S2P Require Import Prelude Geometry Size Tree Distribute Solver Deltas Resize ResizeUnits ResizeSearch.
From stdpp Require Import options.

(** ** One more cell of offset in a distribution *)

(** A count with an offset, on an axis. *)
Definition offset_count (available c : N) (delta : Z) : N :=
  Z.to_N (i64_clamp (Z.of_N c + delta) 0 (Z.of_N available)).

Lemma i32_clamp_spec x : (i32_clamp x = x /\ I32_MIN <= x <= I32_MAX \/ i32_clamp x = I32_MIN /\ x < I32_MIN
  \/ i32_clamp x = I32_MAX /\ I32_MAX < x)%Z.
Proof. unfold i32_clamp. lia. Qed.

Lemma i64_clamp_spec x low high : (low <= high)%Z ->
  (i64_clamp x low high = x /\ low <= x <= high \/ i64_clamp x low high = low /\ x < low
  \/ i64_clamp x low high = high /\ high < x)%Z.
Proof. unfold i64_clamp. intros H. repeat case_match; bools; lia. Qed.

Lemma offset_count_up available c y :
  c <= available -> available <= U16_MAX ->
  offset_count available c (i32_clamp (y + 1)) = offset_count available c (i32_clamp y)
  \/ offset_count available c (i32_clamp (y + 1)) = offset_count available c (i32_clamp y) + 1.
Proof.
  intros Hc Ha. unfold offset_count.
  pose proof (i64_clamp_spec (Z.of_N c + i32_clamp (y + 1)) 0 (Z.of_N available) ltac:(lia)).
  pose proof (i64_clamp_spec (Z.of_N c + i32_clamp y) 0 (Z.of_N available) ltac:(lia)).
  pose proof (i32_clamp_spec y). pose proof (i32_clamp_spec (y + 1)). lia.
Qed.

(** An offset that does not change the count leaves it at an end. *)
Lemma offset_count_stuck available c y :
  c <= available -> available <= U16_MAX ->
  offset_count available c (i32_clamp (y + 1)) = offset_count available c (i32_clamp y) ->
  offset_count available c (i32_clamp y) = 0 \/ available <= offset_count available c (i32_clamp y).
Proof.
  intros Hc Ha. unfold offset_count.
  pose proof (i64_clamp_spec (Z.of_N c + i32_clamp (y + 1)) 0 (Z.of_N available) ltac:(lia)).
  pose proof (i64_clamp_spec (Z.of_N c + i32_clamp y) 0 (Z.of_N available) ltac:(lia)).
  pose proof (i32_clamp_spec y). pose proof (i32_clamp_spec (y + 1)). lia.
Qed.

Lemma offset_count_outside available c y :
  c <= available -> available <= U16_MAX -> ~ (1 - Z.of_N available <= y + 1 <= Z.of_N available)%Z ->
  offset_count available c (i32_clamp (y + 1)) = offset_count available c (i32_clamp y).
Proof.
  intros Hc Ha Hy. unfold offset_count.
  pose proof (i64_clamp_spec (Z.of_N c + i32_clamp (y + 1)) 0 (Z.of_N available) ltac:(lia)).
  pose proof (i64_clamp_spec (Z.of_N c + i32_clamp y) 0 (Z.of_N available) ltac:(lia)).
  pose proof (i32_clamp_spec y). pose proof (i32_clamp_spec (y + 1)). lia.
Qed.

Definition delta_at (weights : list SizeWeight) (i : nat) : Z := resize_delta (weight_at weights i).

(** The weights after one more cell: [yr] and [yd] are the offsets before it. *)
Record offset_step (receiver : option nat) (donor : nat) (yr yd : Z) (weights weights' : list SizeWeight) : Prop :=
  { os_same : same_weights weights weights';
    os_receiver r : receiver = Some r -> r <> donor /\ delta_at weights r = i32_clamp yr /\ delta_at weights' r = i32_clamp (yr + 1);
    os_donor : delta_at weights donor = i32_clamp yd /\ delta_at weights' donor = i32_clamp (yd - 1);
    os_other i : i <> donor -> receiver <> Some i -> delta_at weights' i = delta_at weights i }.

Lemma prefix_change c c' (receiver : option nat) donor a b :
  (forall i, cell_at c' i + (if (donor =? i)%nat then b else 0)
             = cell_at c i + (if bool_decide (receiver = Some i) then a else 0)) ->
  forall k, prefix_cells c' k + (if (donor <? k)%nat then b else 0)
    = prefix_cells c k + match receiver with Some r => if (r <? k)%nat then a else 0 | None => 0 end.
Proof.
  intros H k. induction k as [|k IH].
  - rewrite !prefix_cells_0. destruct receiver; done.
  - rewrite !prefix_cells_S. specialize (H k).
    assert ((if (donor <? S k)%nat then b else 0)
      = (if (donor <? k)%nat then b else 0) + (if (donor =? k)%nat then b else 0)) as ->.
    { destruct (donor <? S k)%nat eqn:E1, (donor <? k)%nat eqn:E2, (donor =? k)%nat eqn:E3; bools; lia. }
    destruct receiver as [r|]; [|rewrite bool_decide_eq_false_2 in H by done; lia].
    assert ((if (r <? S k)%nat then a else 0) = (if (r <? k)%nat then a else 0) + (if (r =? k)%nat then a else 0)) as ->.
    { destruct (r <? S k)%nat eqn:E1, (r <? k)%nat eqn:E2, (r =? k)%nat eqn:E3; bools; lia. }
    destruct (r =? k)%nat eqn:E; bools; [subst; rewrite bool_decide_eq_true_2 in H by done|
      rewrite bool_decide_eq_false_2 in H by congruence]; lia.
Qed.

Lemma cell_at_offsets available counts weights i :
  length weights = length counts -> (i < length counts)%nat ->
  cell_at (zip_with (resized_cell_count available) counts weights) i
  = offset_count available (cell_at counts i) (delta_at weights i).
Proof.
  intros Hl Hi. destruct (lookup_lt_is_Some_2 weights i ltac:(lia)) as [w Hw].
  rewrite (cell_at_zip_with _ _ _ _ w) by done. unfold delta_at, weight_at. by rewrite Hw.
Qed.

Section distribution_step.
Context (floors : list N) (available : N) (receiver : option nat) (donor : nat) (yr yd : Z).
Context (weights weights' : list SizeWeight).
Context (Hstep : offset_step receiver donor yr yd weights weights').
Context (Hlength : length floors = length weights) (Havailable : available <= U16_MAX).
Context (Hfit : sum_cells floors <= available).
Context (Hdonor : (donor < length weights)%nat).
Context (Hreceiver : forall r, receiver = Some r -> (r < length weights)%nat /\ (donor = S r \/ r = S donor)).
Set Default Proof Using "All".

Definition targeted : list N :=
  apply_preferred_cell_counts
    (repair_cell_count_sum (compute_share_cell_counts weights available) available) weights floors.

Lemma targeted_spec : length targeted = length weights /\ (forall i, cell_at targeted i <= available) /\ targeted <> [].
Proof.
  assert (weights <> []) as Hne by (intros E; rewrite E in Hdonor; simpl in Hdonor; lia).
  pose proof (targeted_length weights floors available Havailable Hlength Hne) as L3. fold targeted in L3.
  split; [done|]. split; [|by intros E; rewrite E in L3; destruct weights].
  destruct (compute_share_cell_counts_spec weights available Havailable) as (L1 & S1 & _).
  set (shares := compute_share_cell_counts weights available) in *.
  assert (all_u16 shares) as Hu by (apply all_u16_sum; lia).
  assert (shares <> []) as Hs by (intros E; rewrite E in L1; by destruct weights).
  pose proof (repair_length shares available Hu) as L2.
  pose proof (repair_sum shares available Hu Hs Havailable) as S2.
  destruct (apply_preferred_spec weights floors (repair_cell_count_sum shares available)) as (_ & S3 & _); [lia|lia|].
  intros i. etransitivity; [apply sum_cells_cell_at_le|]. unfold targeted. fold shares. rewrite S3, S2. done.
Qed.

Abbreviation offsets ws := (zip_with (resized_cell_count available) targeted ws).

Lemma distribute_eq ws :
  same_weights weights ws ->
  distribute_axis_cells ws floors available
  = clamp_cell_counts_to_floors (repair_cell_count_sum (offsets ws) available) weights floors available.
Proof.
  intros H. destruct targeted_spec as [Hl _]. unfold distribute_axis_cells.
  rewrite <- (share_cell_counts_same weights ws available H), <- (preferred_cell_counts_same weights ws floors _ H).
  rewrite <- (clamp_to_floors_same weights ws floors _ available H). fold targeted. f_equal.
  unfold apply_resize_deltas. f_equal. apply resize_loop_eq. rewrite Hl. symmetry. by eapply Forall2_length.
Qed.

Lemma offsets_u16 ws : all_u16 (offsets ws).
Proof using Havailable. by apply resize_loop_all_u16. Qed.

Lemma offsets_length ws : length ws = length weights -> length (offsets ws) = length weights.
Proof. intros H. destruct targeted_spec as [Hl _]. rewrite length_zip_with. lia. Qed.

Lemma repaired_settles ws :
  same_weights weights ws ->
  settled_as weights floors (repair_cell_count_sum (offsets ws) available) (distribute_axis_cells ws floors available).
Proof.
  intros H. rewrite (distribute_eq ws H). pose proof (Forall2_length _ _ _ H) as Hl.
  pose proof (offsets_length ws (eq_sym Hl)) as Ho.
  assert (offsets ws <> []) as Hne by (intros E; rewrite E in Ho; simpl in Ho; lia).
  apply clamp_settles; [|by apply repair_sum; [apply offsets_u16| |]|done|done].
  rewrite repair_length by apply offsets_u16. lia.
Qed.

(** The donor's count loses a cell or none, the receiver's gains one or none. *)
Lemma offsets_change :
  exists a b, a <= 1 /\ b <= 1
    /\ (forall k, prefix_cells (offsets weights') k + (if (donor <? k)%nat then b else 0)
         = prefix_cells (offsets weights) k + match receiver with Some r => if (r <? k)%nat then a else 0 | None => 0 end)
    /\ (b = 0 -> cell_at (offsets weights) donor = 0 \/ available <= cell_at (offsets weights) donor)
    /\ (~ (1 - Z.of_N available <= yr + 1 <= Z.of_N available)%Z -> a = 0)
    /\ (~ (1 - Z.of_N available <= 1 - yd <= Z.of_N available)%Z -> b = 0).
Proof.
  destruct targeted_spec as (Hl & Ht & _). destruct Hstep as [Hs Hr [Hd1 Hd2] Hother].
  pose proof (Forall2_length _ _ _ Hs) as Hlw.
  assert (forall ws i, length ws = length weights -> cell_at (offsets ws) i
    = if (i <? length weights)%nat then offset_count available (cell_at targeted i) (delta_at ws i) else 0) as Hat.
  { intros ws i Hws. case_match eqn:E; bools; [by apply cell_at_offsets; lia|].
    apply cell_at_ge. rewrite (offsets_length ws Hws). lia. }
  set (td := cell_at targeted donor) in *.
  assert (exists b, b <= 1 /\ cell_at (offsets weights') donor + b = cell_at (offsets weights) donor
    /\ (b = 0 -> cell_at (offsets weights) donor = 0 \/ available <= cell_at (offsets weights) donor)
    /\ (~ (1 - Z.of_N available <= 1 - yd <= Z.of_N available)%Z -> b = 0)) as (b & Hb1 & Hb2 & Hb3 & Hb4).
  { rewrite !Hat, (proj2 (Nat.ltb_lt _ _) Hdonor), Hd1, Hd2 by done. fold td.
    pose proof (offset_count_up available td (yd - 1) (Ht _) Havailable) as Hup.
    pose proof (offset_count_stuck available td (yd - 1) (Ht _) Havailable) as Hstuck.
    pose proof (offset_count_outside available td (yd - 1) (Ht _) Havailable) as Hout.
    rewrite (Z.sub_add 1 yd) in Hup, Hstuck, Hout.
    destruct Hup as [E|E].
    - exists 0. split; [lia|]. split; [lia|]. split; [|done]. intros _. rewrite E. by apply Hstuck, E.
    - exists 1. split; [lia|]. split; [lia|]. split; [done|]. intros Hno. rewrite Hout in E by lia. lia. }
  assert (exists a, a <= 1 /\ (forall r, receiver = Some r -> cell_at (offsets weights') r = cell_at (offsets weights) r + a)
    /\ (~ (1 - Z.of_N available <= yr + 1 <= Z.of_N available)%Z -> a = 0)) as (a & Ha1 & Ha2 & Ha3).
  { destruct receiver as [r|]; [|by exists 0]. destruct (Hr r eq_refl) as (Hne & E1 & E2). destruct (Hreceiver r eq_refl) as [Hrl _].
    pose proof (offset_count_up available (cell_at targeted r) yr (Ht _) Havailable) as Hup.
    pose proof (offset_count_outside available (cell_at targeted r) yr (Ht _) Havailable) as Hout.
    assert (forall a, offset_count available (cell_at targeted r) (i32_clamp (yr + 1))
        = offset_count available (cell_at targeted r) (i32_clamp yr) + a ->
      forall r', Some r = Some r' -> cell_at (offsets weights') r' = cell_at (offsets weights) r' + a) as Hgo.
    { intros a E r' [= <-]. rewrite !Hat, (proj2 (Nat.ltb_lt _ _) Hrl), E1, E2 by done. done. }
    destruct Hup as [E|E].
    - exists 0. split; [lia|]. split; [apply Hgo; lia|done].
    - exists 1. split; [lia|]. split; [apply Hgo; lia|]. intros Hno. rewrite Hout in E by done. lia. }
  exists a, b. split; [done|]. split; [done|]. split; [|done]. apply prefix_change. intros i.
  destruct (donor =? i)%nat eqn:Ei; bools.
  - subst i. rewrite bool_decide_eq_false_2; [lia|]. intros E. by destruct (Hr donor E).
  - case_bool_decide as Er; [rewrite (Ha2 i Er); lia|].
    rewrite !Hat, Hother by done. lia.
Qed.

(** While the donor is above its floor, at the old counts or the new ones, one
    cell leaves it or none does. *)
Lemma repaired_step :
  cell_at floors donor < cell_at (distribute_axis_cells weights floors available) donor
  \/ cell_at floors donor < cell_at (distribute_axis_cells weights' floors available) donor ->
  donor_step donor (repair_cell_count_sum (offsets weights) available)
    (repair_cell_count_sum (offsets weights') available).
Proof.
  intros Habove. pose proof (os_same _ _ _ _ _ _ Hstep) as Hs. pose proof (Forall2_length _ _ _ Hs) as Hl.
  pose proof (offsets_length weights eq_refl) as L1. pose proof (offsets_length weights' (eq_sym Hl)) as L2.
  destruct offsets_change as (a & b & Ha & Hb & Hp & Hstuck & _ & _).
  assert (0 < cell_at (repair_cell_count_sum (offsets weights) available) donor
    \/ 0 < cell_at (repair_cell_count_sum (offsets weights') available) donor) as Hpos.
  { destruct Habove as [H|H]; [left; pose proof (sa_le _ _ _ _ (repaired_settles weights ltac:(reflexivity)) donor)
      |right; pose proof (sa_le _ _ _ _ (repaired_settles weights' Hs) donor)]; unfold lifted in *; lia. }
  assert (a = 0 \/ a = 1) as [-> | ->] by lia; assert (b = 0 \/ b = 1) as [-> | ->] by lia.
  - left. apply repaired_same; [done|apply offsets_u16..|lia|]. intros k _. specialize (Hp k).
    destruct (donor <? k)%nat, receiver as [r|]; [destruct (r <? k)%nat| |destruct (r <? k)%nat|]; lia.
  - apply donor_falls; [done|apply offsets_u16..|lia|lia|]. intros k. rewrite Hp.
    destruct receiver as [r|]; [destruct (r <? k)%nat|]; lia.
  - destruct receiver as [r|].
    + destruct (Hreceiver r eq_refl) as [Hrl Hadj].
      apply (receiver_rises available Havailable _ _ (offsets_u16 weights) (offsets_u16 weights')
        (eq_trans L2 (eq_sym L1)) r);
        [done|lia|lia| |by apply Hstuck|done].
      intros k. specialize (Hp k). destruct (donor <? k)%nat; lia.
    + left. apply repaired_same; [done|apply offsets_u16..|lia|]. intros k _. specialize (Hp k).
      destruct (donor <? k)%nat; lia.
  - destruct receiver as [r|].
    + destruct (Hreceiver r eq_refl) as [Hrl [E|E]].
      * rewrite E. apply both_change_left; [done|apply offsets_u16..|lia|lia|]. intros k. specialize (Hp k).
        destruct (donor <? k)%nat eqn:E1, (r <? k)%nat eqn:E2, (k =? S r)%nat eqn:E3; bools; lia.
      * subst r. apply both_change_right; [done|apply offsets_u16..|lia|lia|]. intros k. specialize (Hp k).
        destruct (donor <? k)%nat eqn:E1, (S donor <? k)%nat eqn:E2, (k =? S donor)%nat eqn:E3; bools; lia.
    + apply donor_falls; [done|apply offsets_u16..|lia|lia|]. intros k. rewrite Hp. lia.
Qed.

Lemma distribution_step :
  let counts := distribute_axis_cells weights floors available in
  let counts' := distribute_axis_cells weights' floors available in
  (cell_at floors donor < cell_at counts' donor -> cell_at floors donor < cell_at counts donor)
  /\ (cell_at floors donor < cell_at counts donor -> donor_step donor counts counts').
Proof.
  pose proof (os_same _ _ _ _ _ _ Hstep) as Hs.
  pose proof (repaired_settles weights ltac:(reflexivity)) as H1. pose proof (repaired_settles weights' Hs) as H2.
  split; intros Habove; (destruct repaired_step as [E|[t Hu]]; [by auto| |]).
  - rewrite E in H2. by rewrite (settled_unique _ _ _ _ _ H1 H2).
  - by eapply donor_was_above.
  - left. rewrite E in H2. by apply (settled_unique _ _ _ _ _ H2 H1).
  - by eapply settled_step.
Qed.

(** A count outside the windows changes nothing. *)
Lemma distribution_outside :
  ~ (1 - Z.of_N available <= yr + 1 <= Z.of_N available)%Z ->
  ~ (1 - Z.of_N available <= 1 - yd <= Z.of_N available)%Z ->
  distribute_axis_cells weights' floors available = distribute_axis_cells weights floors available.
Proof.
  intros Hr Hd. pose proof (os_same _ _ _ _ _ _ Hstep) as Hs. pose proof (Forall2_length _ _ _ Hs) as Hl.
  destruct offsets_change as (a & b & _ & _ & Hp & _ & Ha & Hb). specialize (Ha Hr). specialize (Hb Hd). subst a b.
  rewrite (distribute_eq weights' Hs), (distribute_eq weights ltac:(reflexivity)). do 2 f_equal.
  apply prefix_cells_ext; [rewrite !offsets_length by done; done|]. intros k. specialize (Hp k).
  destruct (donor <? k)%nat, receiver as [r|]; [destruct (r <? k)%nat| |destruct (r <? k)%nat|]; lia.
Qed.
End distribution_step.

(** ** One more cell of offset in a split *)

Lemma prefix_unit_moved d t c c' k :
  unit_moved d t c c' ->
  prefix_cells c' k + (if (d <? k)%nat then 1 else 0) = prefix_cells c k + (if (t <? k)%nat then 1 else 0).
Proof.
  intros [H1 H2 H3 H4 H5 H6 H7].
  apply (prefix_change c c' (Some t) d 1 1). intros i.
  destruct (decide (i = d)) as [->|Hd].
  { rewrite Nat.eqb_refl, bool_decide_eq_false_2 by congruence. lia. }
  rewrite (proj2 (Nat.eqb_neq d i)) by congruence. case_bool_decide as E; [injection E as <-; lia|].
  rewrite H7 by congruence. lia.
Qed.

Definition is_i32 (x : Z) : Prop := (I32_MIN <= x <= I32_MAX)%Z.

Section split_steps.
Context (s : SplitNode) (r : Rect) (pane_sizing : PaneSizing) (ri di : nat).
Context (Hwf : Rect_wf r).
Context (Hri : (ri < length (children s))%nat) (Hdi : (di < length (children s))%nat).
Context (Hadjacent : di = S ri \/ ri = S di).
Context (Hweights : (length (children s) <= length (weights s))%nat).
Set Default Proof Using "All".

Abbreviation dr := (resize_delta (slot_weight s ri)).
Abbreviation dd := (resize_delta (slot_weight s di)).

Definition with_added (n : Z) : SplitNode :=
  set_weights
    (<[di := set_resize_delta (i32_clamp (dd - n)) (slot_weight s di)]>
      (<[ri := set_resize_delta (i32_clamp (dr + n)) (slot_weight s ri)]> (weights s))) s.

Lemma ri_di : ri <> di.
Proof. lia. Qed.

Lemma weights_lookup i : (i < length (children s))%nat -> weights s !! i = Some (slot_weight s i).
Proof. intros Hi. unfold slot_weight. destruct (lookup_lt_is_Some_2 (weights s) i ltac:(lia)) as [w Hw]. by rewrite Hw. Qed.

Lemma set_added_ok n : set_added_cell_count ri di dr dd s n = Some (with_added n).
Proof.
  pose proof ri_di. unfold set_added_cell_count, write_resize_delta. rewrite (weights_lookup ri) by done.
  cbn [mbind option_bind weights set_weights]. rewrite list_lookup_insert_ne, (weights_lookup di) by done. done.
Qed.

Lemma slot_weight_added n i :
  slot_weight (with_added n) i
  = if (i =? di)%nat then set_resize_delta (i32_clamp (dd - n)) (slot_weight s di)
    else if (i =? ri)%nat then set_resize_delta (i32_clamp (dr + n)) (slot_weight s ri) else slot_weight s i.
Proof.
  pose proof ri_di. unfold slot_weight at 1, with_added. cbn [weights set_weights].
  destruct (i =? di)%nat eqn:E1; bools; [subst; rewrite list_lookup_insert_eq by (rewrite length_insert; lia); done|].
  rewrite list_lookup_insert_ne by lia. destruct (i =? ri)%nat eqn:E2; bools; [subst|].
  - by rewrite list_lookup_insert_eq by lia.
  - by rewrite list_lookup_insert_ne by lia.
Qed.

Lemma same_slots_added n : same_slots s (with_added n) /\ children (with_added n) = children s.
Proof.
  split; [|done]. split; [done|]. split; [done|]. intros i. rewrite slot_weight_added.
  repeat case_match; bools; subst; done.
Qed.

Lemma with_added_0 : is_i32 dr -> is_i32 dd -> with_added 0 = s.
Proof.
  intros H1 H2. pose proof ri_di. pose proof (i32_clamp_spec dr). pose proof (i32_clamp_spec dd). unfold is_i32 in *.
  unfold with_added. rewrite Z.sub_0_r, Z.add_0_r.
  replace (i32_clamp dd) with dd by lia. replace (i32_clamp dr) with dr by lia.
  assert (forall i, set_resize_delta (resize_delta (slot_weight s i)) (slot_weight s i) = slot_weight s i) as E
    by (intros i; by destruct (slot_weight s i)).
  rewrite !E, (list_insert_id (weights s) ri), (list_insert_id (weights s) di) by (by apply weights_lookup).
  by destruct s.
Qed.

Lemma same_children_added n : Forall2 same_but_deltas (children s) (children (with_added n)).
Proof. apply Forall_Forall2_diag, Forall_forall. intros c _. reflexivity. Qed.

Abbreviation kept n := (list_kept_children (with_added n) r pane_sizing).
Abbreviation flags := (is_child_kept (list_kept_children s r pane_sizing)).
Abbreviation floors := (kept_floors (list_kept_children s r pane_sizing)).
Abbreviation shared := (shared_cell_count (list_kept_children s r pane_sizing)).

Lemma kept_same n :
  is_child_kept (kept n) = flags /\ kept_floors (kept n) = floors /\ shared_cell_count (kept n) = shared.
Proof.
  destruct (list_kept_children_same s (with_added n) r pane_sizing (proj1 (same_slots_added n)) (same_children_added n))
    as (E1 & E2 & E3 & _). by rewrite E1, E2, E3.
Qed.

Lemma kept_weights_same n m : same_weights (kept_weights (kept n)) (kept_weights (kept m)).
Proof.
  destruct (list_kept_children_same s (with_added n) r pane_sizing (proj1 (same_slots_added n)) (same_children_added n))
    as (_ & _ & _ & E1).
  destruct (list_kept_children_same s (with_added m) r pane_sizing (proj1 (same_slots_added m)) (same_children_added m))
    as (_ & _ & _ & E2). by rewrite <- E1.
Qed.

(** The counts of the kept children with [n] cells added. *)
Definition counts_at (n : Z) : list N := distribute_axis_cells (kept_weights (kept n)) floors shared.

Lemma delta_at_rank n i :
  flags !! i = Some true -> delta_at (kept_weights (kept n)) (rank flags i) = resize_delta (slot_weight (with_added n) i).
Proof.
  intros Hi. destruct (kept_same n) as (E & _ & _). rewrite <- E in Hi |- *.
  unfold delta_at, weight_at. by rewrite (kept_weights_lookup _ _ _ _ Hwf Hi).
Qed.

Lemma rank_inj i j : flags !! i = Some true -> flags !! j = Some true -> rank flags i = rank flags j -> i = j.
Proof.
  intros Hi Hj E. destruct (Nat.lt_trichotomy i j) as [H|[H|H]]; [|done|].
  - pose proof (rank_lt flags i j H Hi). lia.
  - pose proof (rank_lt flags j i H Hj). lia.
Qed.

Definition receiver_rank : option nat := if flags !! ri is Some true then Some (rank flags ri) else None.

Lemma kept_length n : length (kept_weights (kept n)) = rank flags (length (children s)) /\ length floors = rank flags (length (children s)).
Proof.
  destruct (kept_same n) as (E1 & E2 & E3). pose proof (list_kept_children_spec pane_sizing (with_added n) r Hwf) as Hk.
  rewrite <- E2, <- E1. split; [apply (kc_weights _ _ _ _ Hk)|apply (kc_floors _ _ _ _ Hk)].
Qed.

Lemma added_step n :
  flags !! di = Some true ->
  offset_step receiver_rank (rank flags di) (dr + n) (dd - n) (kept_weights (kept n)) (kept_weights (kept (n + 1))).
Proof.
  intros Hd. pose proof ri_di as Hne. split; [apply kept_weights_same| | |].
  - intros m Hm. unfold receiver_rank in Hm. destruct (flags !! ri) as [[]|] eqn:Hr; [|done..]. injection Hm as <-.
    split; [intros E; by apply Hne, rank_inj|]. rewrite !delta_at_rank, !slot_weight_added, Nat.eqb_refl by done.
    rewrite (proj2 (Nat.eqb_neq ri di)) by done. cbn [resize_delta set_resize_delta]. split; f_equal; lia.
  - rewrite !delta_at_rank, !slot_weight_added, Nat.eqb_refl by done. cbn [resize_delta set_resize_delta].
    split; f_equal; lia.
  - intros m Hm Hmr. destruct (kept_length n) as [L1 _]. destruct (kept_length (n + 1)) as [L2 _].
    destruct (decide (m < rank flags (length (children s)))%nat) as [Hlt|Hge].
    + destruct (rank_onto _ _ _ Hlt) as (i & Hi & Hf & <-).
      assert (i <> di) as Hid by (by intros ->). assert (i <> ri) as Hir.
      { intros ->. unfold receiver_rank in Hmr. by rewrite Hf in Hmr. }
      by rewrite !delta_at_rank, !slot_weight_added, (proj2 (Nat.eqb_neq i di)), (proj2 (Nat.eqb_neq i ri)).
    + unfold delta_at, weight_at. by rewrite !lookup_ge_None_2 by lia.
Qed.

Lemma receiver_rank_adjacent n m :
  flags !! di = Some true -> receiver_rank = Some m ->
  (m < length (kept_weights (kept n)))%nat /\ (rank flags di = S m \/ m = S (rank flags di)).
Proof.
  intros Hd Hm. unfold receiver_rank in Hm. destruct (flags !! ri) as [[]|] eqn:Hr; [|done..]. injection Hm as <-.
  destruct (kept_length n) as [-> _]. split; [by apply rank_lt|].
  destruct Hadjacent as [E|E]; [left; rewrite E, (rank_S _ _ _ Hr)|right; rewrite E, (rank_S _ _ _ Hd)]; lia.
Qed.

Lemma kept_fits : sum_cells floors <= shared /\ shared <= axis_length (is_horizontal s) r /\ shared <= U16_MAX.
Proof.
  pose proof (list_kept_children_spec pane_sizing s r Hwf) as [_ _ _ H1 H2 _ _].
  pose proof (axis_length_le (is_horizontal s) r Hwf) as Ha.
  assert (shared <= axis_length (is_horizontal s) r) as Hs by (rewrite <- H1; apply N.le_add_r).
  split; [done|]. split; [done|]. by etransitivity.
Qed.

Lemma counts_step n :
  flags !! di = Some true ->
  let d := rank flags di in
  (cell_at floors d < cell_at (counts_at (n + 1)) d -> cell_at floors d < cell_at (counts_at n) d)
  /\ (cell_at floors d < cell_at (counts_at n) d -> donor_step d (counts_at n) (counts_at (n + 1))).
Proof.
  intros Hd. destruct kept_fits as (F1 & F2 & F3). destruct (kept_length n) as [L1 L2].
  apply (distribution_step floors shared receiver_rank (rank flags di) (dr + n) (dd - n)); [by apply added_step|lia|done|done| |].
  - rewrite L1. by apply rank_lt.
  - intros m Hm. by apply receiver_rank_adjacent.
Qed.

Lemma counts_outside n :
  flags !! di = Some true ->
  ~ is_window_count (Z.of_N (axis_length (is_horizontal s) r)) dr dd (n + 1) -> (0 <= n)%Z ->
  counts_at (n + 1) = counts_at n.
Proof.
  intros Hd Hno Hn. destruct kept_fits as (F1 & F2 & F3). destruct (kept_length n) as [L1 L2].
  unfold is_window_count in Hno.
  apply (distribution_outside floors shared receiver_rank (rank flags di) (dr + n) (dd - n)); [by apply added_step|lia|done|done| | |lia|lia].
  - rewrite L1. by apply rank_lt.
  - intros m Hm. by apply receiver_rank_adjacent.
Qed.

(** *** The measure *)

Abbreviation is_h := (is_horizontal s).
Abbreviation slot_floor := (compute_slot_floor s di is_h pane_sizing).
Abbreviation border_child := (ri `max` di)%nat.

Lemma flags_lookup i : (i < length (children s))%nat -> exists b, flags !! i = Some b.
Proof.
  intros Hi. pose proof (list_kept_children_spec pane_sizing s r Hwf) as [Hl _ _ _ _ _ _].
  apply lookup_lt_is_Some_2. by rewrite Hl.
Qed.

Lemma child_rect n i (b : bool) :
  flags !! i = Some b ->
  compute_directional_child_rects (with_added n) r pane_sizing !! i
  = Some (if b then build_directional_child_rect is_h r
            (axis_offset_at (counts_at n) (gap_cell_count pane_sizing) (rank flags i))
            (cell_at (counts_at n) (rank flags i))
          else build_empty_at_origin).
Proof.
  intros Hi. destruct (kept_same n) as (E1 & E2 & E3).
  pose proof (directional_counts_spec pane_sizing (with_added n) r Hwf) as Hc.
  unfold compute_directional_child_rects. rewrite E1, E2, E3 in *. fold (counts_at n) in *.
  destruct (directional_child_rects_lookup pane_sizing (with_added n) r flags (counts_at n) _ Hc Hwf eq_refl) as [_ H].
  by apply H.
Qed.

Lemma counts_bound n m :
  (m < length (counts_at n))%nat ->
  axis_offset_at (counts_at n) (gap_cell_count pane_sizing) m + cell_at (counts_at n) m <= axis_length is_h r.
Proof.
  intros Hm. destruct (kept_same n) as (E1 & E2 & E3).
  pose proof (directional_counts_spec pane_sizing (with_added n) r Hwf) as Hc. rewrite E1, E2, E3 in Hc.
  fold (counts_at n) in Hc. by apply (dc_bound _ _ _ _ _ Hc).
Qed.

Lemma counts_length n : length (counts_at n) = rank flags (length (children s)).
Proof.
  destruct (kept_length n) as [L1 L2]. destruct kept_fits as (F1 & F2 & F3). unfold counts_at.
  rewrite dist_length; [done|by rewrite L1|done].
Qed.

Definition rect_start : N := if is_h then column (origin r) else row (origin r).

Definition border_at (n : Z) : Z :=
  Z.of_N (if flags !! border_child is Some true
          then rect_start + axis_offset_at (counts_at n) (gap_cell_count pane_sizing) (rank flags border_child)
          else 0).

Definition spare_at (n : Z) : N :=
  if flags !! di is Some true then cell_at (counts_at n) (rank flags di) - cell_at floors (rank flags di) else 0.

Lemma kept_floor :
  flags !! di = Some true -> cell_at floors (rank flags di) = slot_floor /\ slot_floor <= U16_MAX.
Proof.
  intros Hd. destruct (lookup_lt_is_Some_2 _ _ Hdi) as [child Hchild]. destruct kept_fits as (F1 & F2 & F3).
  pose proof (list_kept_children_spec pane_sizing s r Hwf) as [_ _ _ _ _ Hk _].
  destruct (Hk di child Hd Hchild) as [Hf _].
  assert (child_axis_floor pane_sizing s di child = slot_floor) as E.
  { unfold child_axis_floor, compute_slot_floor. rewrite Hchild. by destruct (split_axis_and_cross_cell_counts _ _ _). }
  rewrite E in Hf. rewrite (cell_at_lookup _ _ _ Hf). split; [done|].
  pose proof (sum_cells_lookup_le _ _ _ Hf). lia.
Qed.

Lemma measure_ok n :
  measure_border r pane_sizing is_h border_child di slot_floor (with_added n) = Some (border_at n, spare_at n).
Proof.
  assert (border_child < length (children s))%nat as Hb by lia.
  destruct (flags_lookup border_child Hb) as [b Eb]. destruct (flags_lookup di Hdi) as [d Ed].
  unfold measure_border. rewrite (child_rect n _ _ Eb), (child_rect n _ _ Ed). cbn [mbind option_bind].
  unfold border_at, spare_at. rewrite Eb, Ed.
  assert ((if d then cell_at (counts_at n) (rank flags di) - cell_at floors (rank flags di) else 0)
    = match u16_try_from slot_floor with
      | Some f => u16_saturating_sub (if d then cell_at (counts_at n) (rank flags di) else 0) f
      | None => 0 end) as Hsp.
  { destruct d.
    - destruct (kept_floor Ed) as [-> Hle]. unfold u16_try_from. by rewrite (proj2 (N.leb_le _ _)) by done.
    - unfold u16_saturating_sub. by destruct (u16_try_from _). }
  assert (b = true -> u16_saturating_add rect_start
      (axis_offset_at (counts_at n) (gap_cell_count pane_sizing) (rank flags border_child))
    = rect_start + axis_offset_at (counts_at n) (gap_cell_count pane_sizing) (rank flags border_child)) as Hstart.
  { intros ->. assert (rank flags border_child < length (counts_at n))%nat as Hlt
      by (rewrite counts_length; by apply rank_lt).
    pose proof (counts_bound n _ Hlt). unfold u16_saturating_add, rect_start, axis_length in *.
    destruct Hwf as [W1 W2]. unfold get_right_edge, get_bottom_edge in *. destruct is_h; lia. }
  destruct is_h eqn:Eh.
  - f_equal. f_equal; [|rewrite Hsp; by destruct d]. destruct b; [|done]. cbn. f_equal.
    unfold rect_start in *. rewrite Eh in *. by apply Hstart.
  - f_equal. f_equal; [|rewrite Hsp; by destruct d]. destruct b; [|done]. cbn. f_equal.
    unfold rect_start in *. rewrite Eh in *. by apply Hstart.
Qed.

(** How far the border is from where it started, in the asked direction. *)
Definition moved_at (n : Z) : Z :=
  (if (ri <? di)%nat then border_at n - border_at 0 else border_at 0 - border_at n)%Z.

Lemma spare_law n : (0 < spare_at (n + 1))%N -> (0 < spare_at n)%N.
Proof.
  unfold spare_at. destruct (flags !! di) as [[]|] eqn:Ed; [|done..]. destruct (counts_step n Ed) as [H _]. cbv zeta in H. lia.
Qed.

Lemma moved_law n : (0 < spare_at n)%N -> (moved_at n <= moved_at (n + 1) <= moved_at n + 1)%Z.
Proof.
  unfold spare_at. destruct (flags !! di) as [[]|] eqn:Ed; [|done..]. intros Hs.
  destruct (counts_step n Ed) as [_ H]. cbv zeta in H. specialize (H ltac:(lia)).
  unfold moved_at, border_at, axis_offset_at. fold (prefix_cells (counts_at n)) (prefix_cells (counts_at (n + 1))).
  destruct Hadjacent as [E|E].
  - assert (border_child = di) as -> by lia. rewrite Ed, (proj2 (Nat.ltb_lt ri di)) by lia.
    destruct H as [-> | [t Hu]]; [lia|]. pose proof (prefix_unit_moved _ _ _ _ (rank flags di) Hu) as Hp.
    rewrite Nat.ltb_irrefl in Hp. unfold prefix_cells in Hp. destruct (t <? rank flags di)%nat; lia.
  - assert (border_child = ri) as -> by lia. rewrite (proj2 (Nat.ltb_ge ri di)) by lia.
    destruct (flags !! ri) as [[]|] eqn:Er; [|lia..].
    destruct H as [-> | [t Hu]]; [lia|]. pose proof (prefix_unit_moved _ _ _ _ (rank flags ri) Hu) as Hp.
    assert (rank flags di < rank flags ri)%nat as Hlt by (apply rank_lt; [lia|done]).
    rewrite (proj2 (Nat.ltb_lt _ _) Hlt) in Hp. unfold prefix_cells in Hp. destruct (t <? rank flags ri)%nat; lia.
Qed.

Lemma outside_law n :
  flags !! di = Some true -> (0 <= n)%Z ->
  ~ is_window_count (Z.of_N (axis_length is_h r)) dr dd (n + 1) ->
  moved_at (n + 1) = moved_at n /\ spare_at (n + 1) = spare_at n.
Proof.
  intros Hd Hn Hno. pose proof (counts_outside n Hd Hno Hn) as E. unfold moved_at, border_at, spare_at. by rewrite E.
Qed.
End split_steps.
