(* ===== verification/ResizeContract.v ===== *)
(** * What a resize promises
    ([crates/koshi-layout/src/resize.rs])

    The split whose border a resize moves, stated without the search: the
    deepest split on the axis that is above every collapsed stack member and
    has a child beside the pane's, and the rectangle that split solves into.
    Then which error a resize reports and when, how far the border moves on
    screen, which weights it writes, and the counts its search visits. *)

From S2P Require Import Prelude Geometry Size Tree Distribute Solver Edit Deltas Resize ResizeUnits ResizeSearch.
From S2P Require Import ResizeBorder.
From stdpp Require Import options.

(** ** The paths of a tree *)

(** No stack above depth [depth] of the path shows another child. *)
Definition shown_above (t : LayoutNode) (pane_path : list nat) (depth : nat) : Prop :=
  forall k s child_index, (k < depth)%nat ->
    get_split_at_path t (take k pane_path) = Some s -> pane_path !! k = Some child_index ->
    is_child_collapsed s child_index = false.

Lemma get_split_at_path_node t path s :
  get_split_at_path t path = Some s <-> get_node_at_path t path = Some (Split s).
Proof. unfold get_split_at_path. destruct (get_node_at_path t path) as [[p|s']|]; naive_solver. Qed.

Lemma get_split_at_path_cons s i path child :
  children s !! i = Some child -> get_split_at_path (Split s) (i :: path) = get_split_at_path child path.
Proof. intros H. unfold get_split_at_path. simpl. by rewrite H. Qed.

(** Every step of a path that reaches a node is a split with that child. *)
Lemma path_step t path m k :
  get_node_at_path t path = Some m -> (k < length path)%nat ->
  exists s i child, get_split_at_path t (take k path) = Some s /\ path !! k = Some i /\ children s !! i = Some child.
Proof.
  intros Hp Hk. destruct (get_node_at_path_prefix _ _ k _ Hp) as (m' & H1 & H2).
  destruct (lookup_lt_is_Some_2 _ _ Hk) as [i Hi]. rewrite (drop_S _ _ _ Hi) in H2. simpl in H2.
  destruct m' as [p|s]; [done|]. destruct (children s !! i) as [child|] eqn:Hc; [|done].
  exists s, i, child. by rewrite get_split_at_path_node.
Qed.

Lemma shown_above_0 t path : shown_above t path 0.
Proof. intros k s i Hk. lia. Qed.

Lemma shown_above_S s i path child depth :
  children s !! i = Some child ->
  shown_above (Split s) (i :: path) (S depth) <-> is_child_collapsed s i = false /\ shown_above child path depth.
Proof.
  intros Hc. split.
  - intros H. split.
    + by apply (H 0%nat s i); [lia| |].
    + intros k s' j Hk Hs Hj. apply (H (S k) s' j); [lia| |done].
      simpl. by rewrite (get_split_at_path_cons _ _ _ _ Hc).
  - intros [H1 H2] [|k] s' j Hk Hs Hj; simpl in Hs, Hj.
    + unfold get_split_at_path in Hs. simpl in Hs. naive_solver.
    + rewrite (get_split_at_path_cons _ _ _ _ Hc) in Hs. apply (H2 k); [lia|done..].
Qed.

(** The loop stops at the first collapsed step. *)
Lemma count_visible_steps_ok t path m :
  get_node_at_path t path = Some m ->
  exists n, count_visible_steps t path = Some n
    /\ forall depth, (depth <= n)%nat <-> (depth <= length path)%nat /\ shown_above t path depth.
Proof.
  revert t. induction path as [|i path IH]; intros t; simpl.
  { intros _. exists 0%nat. split; [done|]. intros depth. split; [|lia]. intros H. split; [done|].
    replace depth with 0%nat by lia. apply shown_above_0. }
  destruct t as [p|s]; [done|]. intros (child & Hc & Hp)%bind_Some.
  assert (is_child_collapsed s i = bool_decide (direction s = Stacked) && negb (i =? get_active_child_index s)%nat) as E.
  { unfold is_child_collapsed. rewrite (proj2 (Nat.ltb_lt _ _)) by (by eapply lookup_lt_Some).
    by rewrite andb_true_r. }
  rewrite <- E. destruct (is_child_collapsed s i) eqn:Ec.
  - exists 0%nat. split; [done|]. intros [|depth]; [split; [split; [lia|apply shown_above_0]|lia]|].
    rewrite (shown_above_S _ _ _ _ _ Hc). split; [lia|]. intros (_ & H & _). congruence.
  - rewrite Hc. cbn [mbind option_bind]. destruct (IH _ Hp) as (n & -> & Hn). exists (S n). split; [done|].
    intros [|depth]; [split; [split; [lia|apply shown_above_0]|lia]|].
    rewrite (shown_above_S _ _ _ _ _ Hc). specialize (Hn depth). split.
    + intros H. destruct (proj1 Hn ltac:(lia)) as [H1 H2]. split; [lia|done].
    + intros (H1 & _ & H2). assert (depth <= n)%nat by (apply Hn; split; [lia|done]). lia.
Qed.

(** ** The border *)

(** A border of the pane at [pane_path] on side [d]: between child
    [pane_child] and child [neighbor] of the split at that depth. *)
Record border_at_depth (t : LayoutNode) (pane_path : list nat) (d : Direction) (depth pane_child neighbor : nat) : Prop :=
  { bd_split : exists s, get_split_at_path t (take depth pane_path) = Some s
      /\ direction s = compute_split_direction d
      /\ find_adjacent_child d pane_child (length (children s)) = Some neighbor;
    bd_child : pane_path !! depth = Some pane_child;
    bd_shown : shown_above t pane_path (S depth) }.

Definition deepest_border (t : LayoutNode) (pane_path : list nat) (d : Direction) (depth pane_child neighbor : nat) : Prop :=
  border_at_depth t pane_path d depth pane_child neighbor
  /\ forall depth' i j, border_at_depth t pane_path d depth' i j -> (depth' <= depth)%nat.

Lemma range_rev_S n : range_rev (S n) = n :: range_rev n.
Proof. unfold range_rev. rewrite seq_S. by rewrite reverse_snoc. Qed.

Lemma find_border_split_ok t path d m n :
  get_node_at_path t path = Some m -> (n <= length path)%nat -> shown_above t path n ->
  exists found, find_border_split t path (compute_split_direction d) d (range_rev n) = Some found
    /\ match found with
       | Some (depth, i, j) => (depth < n)%nat /\ border_at_depth t path d depth i j
           /\ forall depth' i' j', (depth' < n)%nat -> border_at_depth t path d depth' i' j' -> (depth' <= depth)%nat
       | None => forall depth i j, (depth < n)%nat -> ~ border_at_depth t path d depth i j
       end.
Proof.
  intros Hp. induction n as [|n IH]; intros Hn Hshown.
  { exists None. split; [done|]. intros. lia. }
  assert (shown_above t path n) as Hn' by (intros k s i Hk; apply Hshown; lia).
  destruct (IH ltac:(lia) Hn') as (found & E & Hfound). clear IH.
  destruct (path_step _ _ _ _ Hp (ltac:(lia) : (n < length path)%nat)) as (s & i & child & Hs & Hi & Hc).
  rewrite range_rev_S. cbn [find_border_split]. rewrite Hs. cbn [mbind option_bind].
  assert ((direction s = compute_split_direction d /\ exists j, find_adjacent_child d i (length (children s)) = Some j
      /\ find_border_split t path (compute_split_direction d) d (n :: range_rev n) = Some (Some (n, i, j)))
    \/ (forall i' j, ~ border_at_depth t path d n i' j)
      /\ find_border_split t path (compute_split_direction d) d (n :: range_rev n) = Some found) as Hcases.
  { cbn [find_border_split]. rewrite Hs. cbn [mbind option_bind]. case_bool_decide as Ed; simpl.
    - rewrite Hi. cbn [mbind option_bind]. destruct (find_adjacent_child _ _ _) as [j|] eqn:Ej; [left; eauto|right].
      split; [|done]. intros i' j [(s' & Hs' & _ & Hj) Hi' _]. simplify_eq.
    - right. split; [|done]. intros i' j [(s' & Hs' & Hd & _) _ _]. simplify_eq. }
  cbn [find_border_split] in Hcases. rewrite Hs in Hcases. cbn [mbind option_bind] in Hcases.
  destruct Hcases as [(Hd & j & Hj & ->)|[Hno ->]].
  - exists (Some (n, i, j)). split; [done|]. split; [lia|]. split; [by split; eauto|]. intros. lia.
  - exists found. split; [done|]. destruct found as [[[depth i'] j]|].
    + destruct Hfound as (H1 & H2 & H3). split; [lia|]. split; [done|]. intros depth' i'' j' Hd' Hb.
      destruct (decide (depth' = n)) as [->|]; [by apply Hno in Hb|]. apply (H3 depth' i'' j'); [lia|done].
    + intros depth i' j Hd'. destruct (decide (depth = n)) as [->|]; [apply Hno|]. apply Hfound. lia.
Qed.

Lemma find_resize_border_ok t path d m :
  get_node_at_path t path = Some m ->
  exists found, find_resize_border t path (compute_split_direction d) d = Some found
    /\ match found with
       | Some (depth, i, j) => deepest_border t path d depth i j
       | None => forall depth i j, ~ border_at_depth t path d depth i j
       end.
Proof.
  intros Hp. destruct (count_visible_steps_ok _ _ _ Hp) as (n & En & Hn). unfold find_resize_border. rewrite En.
  cbn [mbind option_bind]. destruct (proj1 (Hn n) ltac:(lia)) as [Hl Hs].
  destruct (find_border_split_ok t path d m n Hp Hl Hs) as (found & E & Hf). exists found. split; [done|].
  assert (forall depth i j, border_at_depth t path d depth i j -> (depth < n)%nat) as Hlt.
  { intros depth i j [_ Hi Hsh]. apply Hn. split; [|done]. apply lookup_lt_Some in Hi. lia. }
  destruct found as [[[depth i] j]|].
  - destruct Hf as (H1 & H2 & H3). split; [done|]. intros depth' i' j' Hb. eapply H3; [by eapply Hlt|done].
  - intros depth i j Hb. by apply (Hf depth i j (Hlt _ _ _ Hb)).
Qed.

Lemma find_adjacent_child_spec d i n j :
  find_adjacent_child d i n = Some j -> (i < n)%nat -> (j < n)%nat /\ (j = S i \/ i = S j).
Proof.
  unfold find_adjacent_child. destruct d; repeat case_match; intros [= <-] Hi; bools; lia.
Qed.

(** ** The rectangle of a split *)

Lemma child_rects_wf ps s r i r' : Rect_wf r -> child_rects s r ps !! i = Some r' -> Rect_wf r'.
Proof.
  intros Hwf. assert (Rect_wf build_empty_at_origin) as He by done.
  unfold child_rects. case_bool_decide as Hd.
  - destruct (decide (children s = [])) as [Hnil|Hne].
    { unfold compute_stacked_child_rects. by rewrite Hnil. }
    destruct (stacked_child_rects_cases ps s r Hwf Hd Hne) as [[_ ->]|(Hf & Hl & Hs & Hr)].
    { intros Hi. by apply lookup_replicate in Hi as [-> _]. }
    intros Hi. pose proof (lookup_lt_Some _ _ _ Hi) as Hlt. rewrite Hl in Hlt. rewrite Hr in Hi by done. injection Hi as <-.
    refine (Rect_wf_inside _ _ (band_inside false r _ _ Hwf _) Hwf).
    by eapply (member_bound ps s r Hwf Hd Hne (compute_stacked_child_rects s r ps) _ eq_refl Hl Hs Hr Hf).
  - pose proof (directional_counts_spec ps s r Hwf) as Hc.
    destruct (directional_child_rects_lookup ps s r _ _ (compute_directional_child_rects s r ps) Hc Hwf eq_refl) as [_ H].
    intros Hi. pose proof (list_kept_children_spec ps s r Hwf) as [Hl _ _ _ _ _ _].
    assert (i < length (children s))%nat as Hlt.
    { apply lookup_lt_Some in Hi. rewrite <- (child_rects_length ps s r Hwf). unfold child_rects.
      by rewrite bool_decide_eq_false_2. }
    destruct (lookup_lt_is_Some_2 (is_child_kept (list_kept_children s r ps)) i) as [b Hb]; [by rewrite Hl|].
    rewrite (H i b Hb) in Hi. injection Hi as <-. destruct b; [|done].
    refine (Rect_wf_inside _ _ (band_inside _ r _ _ Hwf _) Hwf). apply (dc_bound _ _ _ _ _ Hc).
    rewrite (dc_length _ _ _ _ _ Hc). apply rank_lt; [by rewrite Hl|done].
Qed.

Lemma compute_rect_at_path_ok t path m r ps :
  get_node_at_path t path = Some m -> Rect_wf r ->
  exists r', compute_rect_at_path t r path ps = Some r' /\ Rect_wf r'.
Proof.
  revert t r. induction path as [|i path IH]; intros t r; simpl.
  { intros _ H. by exists r. }
  destruct t as [p|s]; [done|]. intros (child & Hc & Hp)%bind_Some Hwf.
  assert ((match direction s with
     | Horizontal | Vertical => compute_directional_child_rects s r ps
     | Stacked => compute_stacked_child_rects s r ps end) = child_rects s r ps) as ->.
  { unfold child_rects. by destruct (direction s). }
  destruct (lookup_lt_is_Some_2 (child_rects s r ps) i) as [r' Hr'].
  { rewrite child_rects_length by done. by eapply lookup_lt_Some. }
  rewrite Hr', Hc. cbn [mbind option_bind]. apply IH; [done|].
  by eapply child_rects_wf.
Qed.

(** ** A change of deltas at one split *)

Lemma compute_rect_at_path_cons u r i path ps :
  compute_rect_at_path (Split u) r (i :: path) ps
  = rc ← child_rects u r ps !! i; child ← children u !! i; compute_rect_at_path child rc path ps.
Proof. simpl. unfold child_rects. by destruct (direction u). Qed.

Lemma edited_split_same t path s s' t' layout_rect ps :
  get_node_at_path t path = Some (Split s) -> same_but_deltas (Split s) (Split s') ->
  get_node_at_path_mut t path (fun _ => Split s') = Some t' -> Rect_wf layout_rect ->
  same_but_deltas t t'
  /\ compute_rect_at_path t' layout_rect path ps = compute_rect_at_path t layout_rect path ps.
Proof.
  intros Hn Hs. revert t t' layout_rect Hn. induction path as [|i path IH]; intros t t' layout_rect.
  { intros [= ->] [= <-] _. done. }
  destruct t as [p|u]; [done|]. cbn [get_node_at_path get_node_at_path_mut]. intros (child & Hc & Hn)%bind_Some (c & Hc' & (child' & Hm & [= <-])%bind_Some)%bind_Some Hwf.
  rewrite Hc in Hc'. injection Hc' as <-.
  assert (same_but_deltas child child') as Hsame by (by destruct (IH _ _ _ Hn Hm Hwf)).
  assert (Forall2 same_but_deltas (<[i:=child']> (children u)) (children u)) as Hbelow.
  { apply Forall2_same_length_lookup_2; [by rewrite length_insert|]. intros k x y Hx Hy.
    destruct (decide (i = k)) as [<-|Hne].
    - rewrite list_lookup_insert_eq in Hx by (by eapply lookup_lt_Some). simplify_eq. by symmetry.
    - rewrite list_lookup_insert_ne in Hx by done. simplify_eq. reflexivity. }
  split.
  { symmetry. constructor; [apply set_children_slots|done]. }
  rewrite !compute_rect_at_path_cons, child_rects_same_below by done. cbn [children set_children].
  rewrite list_lookup_insert_eq, Hc by (by eapply lookup_lt_Some).
  destruct (child_rects u layout_rect ps !! i) as [rc|] eqn:Hrc; cbn [mbind option_bind]; [|done].
  by apply (IH _ _ _ Hn Hm), (child_rects_wf _ _ _ _ _ Hwf Hrc).
Qed.

(** The site is unique. *)
Lemma border_at_depth_inj t pane_path d depth i j i' j' :
  border_at_depth t pane_path d depth i j -> border_at_depth t pane_path d depth i' j' -> i = i' /\ j = j'.
Proof. intros [(s & Hs & _ & Hj) Hi _] [(s' & Hs' & _ & Hj') Hi' _]. simplify_eq. done. Qed.

Lemma deepest_border_inj t pane_path d depth i j depth' i' j' :
  deepest_border t pane_path d depth i j -> deepest_border t pane_path d depth' i' j' ->
  depth = depth' /\ i = i' /\ j = j'.
Proof.
  intros [H1 M1] [H2 M2]. pose proof (M1 _ _ _ H2). pose proof (M2 _ _ _ H1). assert (depth = depth') as <- by lia.
  split; [done|]. by eapply border_at_depth_inj.
Qed.

(** ** Definitions *)

(** The deltas of a tree are machine integers. *)
Definition i32_deltas (s : SplitNode) : Prop := Forall (fun w => is_i32 (resize_delta w)) (weights s).

(** The split a resize works on: its path, the split, the rectangle it solves
    into, and the two children at the border. *)
Record resize_site (t : LayoutNode) (layout_rect : Rect) (pane_id : PaneId) (d : Direction) (is_pane_growing : bool)
    (pane_sizing : PaneSizing) (path : list nat) (s : SplitNode) (r : Rect) (receiver donor : nat) : Prop :=
  { rs_border : exists pane_path pane_child neighbor,
      find_pane_path pane_id t = Some pane_path
      /\ deepest_border t pane_path d (length path) pane_child neighbor
      /\ path = take (length path) pane_path
      /\ (receiver, donor) = if is_pane_growing then (pane_child, neighbor) else (neighbor, pane_child);
    rs_split : get_split_at_path t path = Some s;
    rs_rect : compute_rect_at_path t layout_rect path pane_sizing = Some r }.

(** The leading edge of a child on the split's axis, and the cells a child
    has above its floor. *)
Definition child_start (s : SplitNode) (r : Rect) (pane_sizing : PaneSizing) (i : nat) : Z :=
  match compute_directional_child_rects s r pane_sizing !! i with
  | Some child_rect => Z.of_N (if is_horizontal s then column (origin child_rect) else row (origin child_rect))
  | None => 0
  end.

Definition spare_cells (s : SplitNode) (r : Rect) (pane_sizing : PaneSizing) (i : nat) : N :=
  match compute_directional_child_rects s r pane_sizing !! i with
  | Some child_rect => axis_length (is_horizontal s) child_rect - compute_slot_floor s i (is_horizontal s) pane_sizing
  | None => 0
  end.

(** The cells by which the border between two neighbours of [s] is farther in
    the receiver's favour in [s']. *)
Definition border_moved (s s' : SplitNode) (r : Rect) (pane_sizing : PaneSizing) (receiver donor : nat) : Z :=
  let border := (receiver `max` donor)%nat in
  (if (receiver <? donor)%nat
   then child_start s' r pane_sizing border - child_start s r pane_sizing border
   else child_start s r pane_sizing border - child_start s' r pane_sizing border)%Z.

(** [n] cells of offset from the donor to the receiver. *)
Definition transferred (s : SplitNode) (receiver donor : nat) (n : Z) : SplitNode :=
  with_added (pad_weights s) receiver donor n.

(** [n] cells of offset move the border as far as asked, or as far as the
    donor can pay for, and no fewer do. *)
Record farthest_transfer (s : SplitNode) (r : Rect) (pane_sizing : PaneSizing) (receiver donor : nat)
    (requested moved n : Z) : Prop :=
  { ft_count : (0 <= n)%Z;
    ft_moved : border_moved s (transferred s receiver donor n) r pane_sizing receiver donor = moved
      /\ (0 <= moved <= requested)%Z;
    ft_fewest m : (0 <= m < n)%Z ->
      (border_moved s (transferred s receiver donor m) r pane_sizing receiver donor < moved)%Z
      /\ 0 < spare_cells (transferred s receiver donor m) r pane_sizing donor;
    ft_farthest : moved = requested \/ forall m, (1 <= m)%Z ->
      0 < spare_cells (transferred s receiver donor (m - 1)) r pane_sizing donor ->
      (border_moved s (transferred s receiver donor m) r pane_sizing receiver donor <= moved)%Z }.

(** ** The border of one split *)

Section border.
Context (s : SplitNode) (r : Rect) (ps : PaneSizing) (ri di : nat).
Context (Hwf : Rect_wf r) (Hri : (ri < length (children s))%nat) (Hdi : (di < length (children s))%nat).
Context (Hadjacent : di = S ri \/ ri = S di) (Hi32 : i32_deltas s).
Set Default Proof Using "All".

Abbreviation padded := (pad_weights s).

Lemma slot_delta_i32 i : is_i32 (resize_delta (slot_weight s i)).
Proof using Hi32.
  unfold slot_weight. destruct (weights s !! i) as [w|] eqn:E; [|done].
  unfold i32_deltas in Hi32. rewrite Forall_lookup in Hi32. by apply (Hi32 i).
Qed.

Lemma is_horizontal_pad : is_horizontal padded = is_horizontal s.
Proof using Type. unfold pad_weights. by case_match. Qed.

Lemma padded_bounds : (ri < length (children padded))%nat /\ (di < length (children padded))%nat.
Proof. by rewrite pad_weights_children. Qed.

Lemma transferred_same n : same_slots s (transferred s ri di n) /\ children (transferred s ri di n) = children s.
Proof.
  destruct padded_bounds as [H1 H2].
  destruct (same_slots_added padded r ps ri di Hwf H1 H2 Hadjacent) with n as [H3 H4];
    [rewrite pad_weights_children; apply pad_weights_length|].
  split; [|by rewrite <- (pad_weights_children s)]. by transitivity (pad_weights s); [symmetry; apply pad_weights_same|].
Qed.

(** The solve reads a missing weight as the padding. *)
Lemma child_rects_padded : compute_directional_child_rects padded r ps = compute_directional_child_rects s r ps.
Proof using Type.
  assert (list_kept_children padded r ps = list_kept_children s r ps) as E.
  { unfold list_kept_children. rewrite is_horizontal_pad, pad_weights_children.
    destruct (split_axis_and_cross_cell_counts _ _ _) as [a c].
    rewrite (foldl_ext_eq (keep_child padded ps a c) (keep_child s ps a c)); [done|]. intros st [i child].
    unfold keep_child. rewrite is_horizontal_pad. destruct (split_axis_and_cross_cell_counts _ _ _) as [am cm].
    rewrite (child_floor_same padded s) by apply pad_weights_same. cbn [fst].
    pose proof (pad_weights_slots s i) as Hs. unfold slot_weight in Hs. by rewrite Hs. }
  unfold compute_directional_child_rects. by rewrite E, is_horizontal_pad.
Qed.

Lemma slot_floor_same n b : compute_slot_floor (transferred s ri di n) di b ps = compute_slot_floor padded di b ps.
Proof.
  destruct (transferred_same n) as [H1 H2]. unfold compute_slot_floor. rewrite H2, pad_weights_children.
  destruct (split_axis_and_cross_cell_counts _ _ _) as [a c]. apply child_floor_same.
  transitivity s; [by symmetry|]. symmetry. apply pad_weights_same.
Qed.

Lemma border_start n : child_start (transferred s ri di n) r ps (ri `max` di) = border_at padded r ps ri di n.
Proof.
  destruct padded_bounds as [H1 H2]. pose proof (pad_weights_length s) as Hl. rewrite <- (pad_weights_children s) in Hl.
  pose proof (measure_ok padded r ps ri di Hwf H1 H2 Hadjacent Hl n) as Hm.
  unfold measure_border, child_start in *. fold (transferred s ri di n) in Hm.
  destruct (_ !! (ri `max` di)%nat) as [b|]; [|done]. destruct (_ !! di) as [c|]; [|done]. cbn [mbind option_bind] in Hm.
  change (is_horizontal (transferred s ri di n)) with (is_horizontal padded). destruct (is_horizontal padded); injection Hm; congruence.
Qed.

Lemma padded_weights : (length (children padded) <= length (weights padded))%nat.
Proof using Type. rewrite pad_weights_children. apply pad_weights_length. Qed.

Lemma spare_cells_at n : spare_cells (transferred s ri di n) r ps di = spare_at padded r ps ri di n.
Proof.
  destruct padded_bounds as [H1 H2]. pose proof padded_weights as Hl.
  destruct (flags_lookup padded r ps ri di Hwf H1 H2 Hadjacent Hl di H2) as [b Hb].
  pose proof (child_rect padded r ps ri di Hwf H1 H2 Hadjacent Hl n di b Hb) as Hc. fold (transferred s ri di n) in Hc.
  unfold spare_cells, spare_at. rewrite Hc, Hb, slot_floor_same.
  change (is_horizontal (transferred s ri di n)) with (is_horizontal padded). destruct b.
  - rewrite (proj1 (band_axis_length _ _ _ _)).
    by rewrite (proj1 (kept_floor padded r ps ri di Hwf H1 H2 Hadjacent Hl Hb)).
  - by destruct (is_horizontal padded).
Qed.

Lemma transferred_0 : transferred s ri di 0 = padded.
Proof.
  destruct padded_bounds as [H1 H2]. pose proof padded_weights as Hl.
  apply (with_added_0 padded r ps ri di Hwf H1 H2 Hadjacent Hl); rewrite pad_weights_slots; apply slot_delta_i32.
Qed.

Lemma border_moved_at n : border_moved s (transferred s ri di n) r ps ri di = moved_at padded r ps ri di n.
Proof.
  unfold border_moved, moved_at. rewrite <- !border_start, transferred_0.
  assert (child_start padded r ps (ri `max` di) = child_start s r ps (ri `max` di)) as ->; [|done].
  unfold child_start. by rewrite child_rects_padded, is_horizontal_pad.
Qed.

Lemma spare_cells_start : spare_cells s r ps di = spare_at padded r ps ri di 0.
Proof.
  rewrite <- spare_cells_at, transferred_0. unfold spare_cells. rewrite child_rects_padded, is_horizontal_pad.
  assert (compute_slot_floor padded di (is_horizontal s) ps = compute_slot_floor s di (is_horizontal s) ps) as ->; [|done].
  unfold compute_slot_floor. rewrite pad_weights_children. destruct (split_axis_and_cross_cell_counts _ _ _) as [a c].
  apply child_floor_same, pad_weights_same.
Qed.

(** A count outside the windows solves like the one before it. *)
Lemma same_rects_outside n :
  0 < spare_cells s r ps di -> (0 <= n)%Z ->
  ~ is_window_count (Z.of_N (axis_length (is_horizontal s) r)) (resize_delta (slot_weight s ri)) (resize_delta (slot_weight s di)) (n + 1) ->
  compute_directional_child_rects (transferred s ri di (n + 1)) r ps
  = compute_directional_child_rects (transferred s ri di n) r ps.
Proof.
  intros Hsp Hn Hno. destruct padded_bounds as [H1 H2]. pose proof padded_weights as Hl.
  rewrite spare_cells_start in Hsp. rewrite <- is_horizontal_pad, <- (pad_weights_slots s ri), <- (pad_weights_slots s di) in Hno.
  assert (is_child_kept (list_kept_children padded r ps) !! di = Some true) as Hd.
  { unfold spare_at in Hsp. destruct (_ !! di) as [[]|]; [done|lia..]. }
  pose proof (counts_outside padded r ps ri di Hwf H1 H2 Hadjacent Hl n Hd Hno Hn) as E.
  apply list_eq. intros i. destruct (decide (i < length (children padded))%nat) as [Hi|Hi].
  - destruct (flags_lookup padded r ps ri di Hwf H1 H2 Hadjacent Hl i Hi) as [b Hb].
    pose proof (child_rect padded r ps ri di Hwf H1 H2 Hadjacent Hl (n + 1) i b Hb) as E1.
    pose proof (child_rect padded r ps ri di Hwf H1 H2 Hadjacent Hl n i b Hb) as E2.
    rewrite E in E1. unfold transferred. by rewrite E1, E2.
  - assert (forall m, (length (compute_directional_child_rects (transferred s ri di m) r ps) <= i)%nat) as Hlen.
    { intros m. pose proof (directional_counts_spec ps (transferred s ri di m) r Hwf) as Hc.
      destruct (directional_child_rects_lookup _ _ _ _ _ _ Hc Hwf eq_refl) as [Hlen _].
      unfold compute_directional_child_rects. rewrite Hlen, (proj2 (transferred_same m)).
      rewrite pad_weights_children in Hi. lia. }
    by rewrite !lookup_ge_None_2 by done.
Qed.

(** The search keeps the farthest transfer. *)
Lemma move_split_border_ok requested :
  (0 <= requested <= 65535)%Z ->
  exists moved n,
    move_split_border r ps (is_horizontal s) ri di requested s
    = Some (transferred s ri di n, Z.to_N moved, spare_cells s r ps di)
    /\ farthest_transfer s r ps ri di requested moved n.
Proof.
  intros Hreq. destruct padded_bounds as [H1 H2]. pose proof padded_weights as Hl.
  pose proof (measure_ok padded r ps ri di Hwf H1 H2 Hadjacent Hl) as Hm. rewrite is_horizontal_pad in Hm.
  pose proof transferred_0 as E0. unfold transferred in E0.
  unfold move_split_border. cbv zeta.
  rewrite (weights_lookup padded r ps ri di Hwf H1 H2 Hadjacent Hl ri H1).
  rewrite (weights_lookup padded r ps ri di Hwf H1 H2 Hadjacent Hl di H2). cbn [mbind option_bind].
  set (dr := resize_delta (slot_weight padded ri)). set (dd := resize_delta (slot_weight padded di)).
  replace (Z.of_N (if is_horizontal s then column_count (size r) else row_count (size r)))
    with (Z.of_N (axis_length (is_horizontal padded) r)) by (by rewrite is_horizontal_pad).
  pose proof (Hm 0%Z) as Hm0. rewrite E0 in Hm0. rewrite Hm0. cbn [mbind option_bind].
  set (w := list_offset_windows _ dr dd) in *. set (spare := spare_at padded r ps ri di).
  match goal with |- context [find_kept_count _ _ ?m _] => set (measure := m) end.
  assert (exists moved n, find_kept_count requested w measure (spare 0%Z) = Some (Z.to_N moved, n)
    /\ kept_at_count requested (moved_at padded r ps ri di) spare moved n) as (moved & n & -> & Hkept).
  { destruct (flags_lookup padded r ps ri di Hwf H1 H2 Hadjacent Hl di H2) as [[] Hd].
    - apply (find_kept_count_ok (Z.of_N (axis_length (is_horizontal padded) r)) dr dd); [| | | | |done].
      + unfold moved_at. case_match; lia.
      + intros n _. apply (moved_law padded r ps ri di Hwf H1 H2 Hadjacent Hl).
      + intros n _. apply (spare_law padded r ps ri di Hwf H1 H2 Hadjacent Hl).
      + intros n Hn. by apply (outside_law padded r ps ri di Hwf H1 H2 Hadjacent Hl).
      + intros k _. unfold measure.
        rewrite (set_added_ok padded r ps ri di Hwf H1 H2 Hadjacent Hl). cbn [mbind option_bind].
        by rewrite Hm.
    - assert (forall n, spare n = 0%N) as Hz by (intros n; unfold spare, spare_at; by rewrite Hd).
      rewrite Hz, find_kept_count_no_spare. exists 0%Z, 0%Z. split; [done|]. split; [done| |intros; lia|].
      + split; [unfold moved_at; case_match; lia|lia].
      + right. intros m _ Hs. rewrite Hz in Hs. lia. }
  cbn [mbind option_bind]. rewrite (set_added_ok padded r ps ri di Hwf H1 H2 Hadjacent Hl). cbn [mbind option_bind].
  exists moved, n. split; [by rewrite spare_cells_start|]. destruct Hkept as [K1 K2 K3 K4].
  split; [done|by rewrite border_moved_at| |].
  - intros m Hlt. rewrite border_moved_at, spare_cells_at. by apply K3.
  - destruct K4 as [K4|K4]; [by left|right]. intros m Hm'. rewrite spare_cells_at, border_moved_at. by apply K4.
Qed.
End border.

(** ** The whole resize *)

Section outcome.
Context (t : LayoutNode) (layout_rect : Rect) (pane_id : PaneId) (d : Direction) (delta : Z) (ps : PaneSizing).
Context (Hwf : Rect_wf layout_rect) (Hi32 : every_split i32_deltas t) (Hdelta : (-32768 <= delta <= 32767)%Z).
Set Default Proof Using "All".

Abbreviation site := (resize_site t layout_rect pane_id d (0 <? delta)%Z ps).
Abbreviation result := (resize_layout_with_sizing t layout_rect pane_id d delta ps).

Lemma site_facts path s r ri di :
  site path s r ri di ->
  Rect_wf r /\ i32_deltas s /\ (ri < length (children s))%nat /\ (di < length (children s))%nat /\ (di = S ri \/ ri = S di)
  /\ direction s = compute_split_direction d.
Proof using Hwf Hi32.
  intros [(pp & i & j & Hpp & [[(s' & Hs' & Hd & Hj) Hi Hsh] _] & Hpath & Hsides) Hs Hr].
  rewrite <- Hpath in Hs'. rewrite Hs in Hs'. injection Hs' as <-. pose proof Hs as Hn. apply get_split_at_path_node in Hn.
  destruct (compute_rect_at_path_ok _ _ _ _ ps Hn Hwf) as (r' & Hr' & Hwf'). rewrite Hr in Hr'. injection Hr' as <-.
  pose proof (get_node_at_path_every _ _ _ _ Hi32 Hn) as [His _]%every_split_Split_inv.
  apply find_pane_path_node in Hpp. destruct (path_step _ _ _ (length path) Hpp) as (s' & i' & child & Hs' & Hi' & Hc).
  { by eapply lookup_lt_Some. }
  rewrite <- Hpath, Hs in Hs'. injection Hs' as <-. rewrite Hi in Hi'. injection Hi' as <-. apply lookup_lt_Some in Hc.
  destruct (find_adjacent_child_spec _ _ _ _ Hj Hc) as [Hjl Hadj].
  destruct (0 <? delta)%Z; injection Hsides as -> ->; split_and!; done || lia.
Qed.

(** A border on that side gives a site, none gives an error. *)
Lemma resize_site_or_error :
  (pane_id ∉ list_leaf_pane_ids t /\ result = failed (ResizePaneNotFound pane_id))
  \/ (exists pane_path, find_pane_path pane_id t = Some pane_path
      /\ (forall depth i j, ~ border_at_depth t pane_path d depth i j) /\ result = failed (NoAdjacentBorder pane_id d))
  \/ exists path s r ri di moved n t',
      site path s r ri di /\ farthest_transfer s r ps ri di (Z.abs delta) moved n
      /\ get_split_at_path_mut t path (fun _ => transferred s ri di n) = Some t'
      /\ result = (if (delta =? 0)%Z || negb (moved =? 0)%Z then ok (t', Z.to_N moved)
           else failed (if spare_cells s r ps di =? 0 then DonorAtMinimumSize pane_id d (0 <? delta)%Z
                        else BorderHeld pane_id d (0 <? delta)%Z)).
Proof.
  unfold resize_layout_with_sizing. destruct (find_pane_path pane_id t) as [pp|] eqn:Hpp.
  2: { left. split; [|done]. intros [? H]%find_pane_path_is_Some. congruence. }
  right. pose proof (find_pane_path_node _ _ _ Hpp) as Hn.
  destruct (find_resize_border_ok t pp d _ Hn) as ([[[depth i] j]|] & -> & Hb).
  2: { left. by exists pp. }
  right. destruct Hb as [Hb Hdeepest]. pose proof Hb as [(s & Hs & Hd & Hj) Hi Hsh].
  pose proof Hs as Hsn. apply get_split_at_path_node in Hsn.
  destruct (compute_rect_at_path_ok _ _ _ _ ps Hsn Hwf) as (r & Hr & _).
  assert (length (take depth pp) = depth) as Hlen.
  { rewrite length_take. apply lookup_lt_Some in Hi. lia. }
  set (ri := if (0 <? delta)%Z then i else j). set (di := if (0 <? delta)%Z then j else i).
  assert (site (take depth pp) s r ri di) as Hsite.
  { split; [|done|done]. exists pp, i, j. rewrite Hlen. split_and!; [done|by split|done|].
    unfold ri, di. by destruct (0 <? delta)%Z. }
  destruct (site_facts _ _ _ _ _ Hsite) as (F1 & F2 & F3 & F4 & F5 & F6).
  destruct (move_split_border_ok s r ps ri di F1 F3 F4 F5 F2 (Z.abs delta) ltac:(lia)) as (moved & n & Hmove & Hfar).
  assert (exists t', get_split_at_path_mut t (take depth pp) (fun _ => transferred s ri di n) = Some t') as (t' & Ht').
  { unfold get_split_at_path_mut. rewrite Hsn.
    destruct (get_node_at_path_mut_leaves t (take depth pp) (fun _ => Split (transferred s ri di n)) _ Hsn)
      as (t' & _ & _ & E & _). by exists t'. }
  exists (take depth pp), s, r, ri, di, moved, n, t'. split; [done|]. split; [done|]. split; [done|].
  assert ((if (0 <? delta)%Z then (i, j) else (j, i)) = (ri, di)) as -> by (unfold ri, di; by destruct (0 <? delta)%Z).
  rewrite Hr, Hs, <- F6. fold (is_horizontal s). cbn [mbind option_bind]. rewrite Hmove. cbn [mbind option_bind].
  rewrite Ht'. cbn [mbind option_bind]. destruct Hfar as [_ [_ Hm] _ _].
  destruct (delta =? 0)%Z eqn:Ez; bools; [subst delta; done|].
  rewrite (proj2 (Z.ltb_lt 0 (Z.abs delta))) by lia. simpl.
  destruct (moved =? 0)%Z eqn:Em; bools; [by subst moved|]. rewrite (proj2 (N.eqb_neq _ 0)) by lia. done.
Qed.
End outcome.

(** ** The errors *)

(** When an error is the right answer. *)
Definition resize_error_holds (t : LayoutNode) (layout_rect : Rect) (pane_id : PaneId) (d : Direction) (delta : Z)
    (ps : PaneSizing) (e : ResizeError) : Prop :=
  let grows := (0 <? delta)%Z in
  match e with
  | ResizePaneNotFound p => p = pane_id /\ pane_id ∉ list_leaf_pane_ids t
  | NoAdjacentBorder p d' => p = pane_id /\ d' = d
      /\ exists pane_path, find_pane_path pane_id t = Some pane_path
        /\ forall depth i j, ~ border_at_depth t pane_path d depth i j
  | DonorAtMinimumSize p d' g => p = pane_id /\ d' = d /\ g = grows /\ delta <> 0%Z
      /\ exists path s r ri di, resize_site t layout_rect pane_id d grows ps path s r ri di
        /\ spare_cells s r ps di = 0
  | BorderHeld p d' g => p = pane_id /\ d' = d /\ g = grows /\ delta <> 0%Z
      /\ exists path s r ri di, resize_site t layout_rect pane_id d grows ps path s r ri di
        /\ 0 < spare_cells s r ps di
        /\ forall m, (1 <= m)%Z -> 0 < spare_cells (transferred s ri di (m - 1)) r ps di ->
             (border_moved s (transferred s ri di m) r ps ri di <= 0)%Z
  end.

Lemma resize_site_inj t R pane_id d g ps path s r ri di path' s' r' ri' di' :
  resize_site t R pane_id d g ps path s r ri di -> resize_site t R pane_id d g ps path' s' r' ri' di' ->
  path = path' /\ s = s' /\ r = r' /\ ri = ri' /\ di = di'.
Proof.
  intros [(pp & i & j & Hpp & Hb & Hp & Hsides) Hs Hr] [(pp' & i' & j' & Hpp' & Hb' & Hp' & Hsides') Hs' Hr'].
  rewrite Hpp in Hpp'. injection Hpp' as <-.
  destruct (deepest_border_inj _ _ _ _ _ _ _ _ _ Hb Hb') as (El & <- & <-).
  rewrite <- El, <- Hp in Hp'. subst path'. rewrite Hs in Hs'. rewrite Hr in Hr'. injection Hs' as <-. injection Hr' as <-.
  rewrite <- Hsides in Hsides'. by injection Hsides' as -> ->.
Qed.

(** A site rules out the two errors of the lookups. *)
Lemma site_found t R pane_id d g ps path s r ri di :
  resize_site t R pane_id d g ps path s r ri di ->
  pane_id ∈ list_leaf_pane_ids t
  /\ exists pane_path depth i j, find_pane_path pane_id t = Some pane_path /\ border_at_depth t pane_path d depth i j.
Proof.
  intros [(pp & i & j & Hpp & [Hb _] & _) _ _]. split; [apply find_pane_path_is_Some; eauto|]. eauto 10.
Qed.

(** A move starts from a spare cell, and a border that moved is not held. *)
Lemma moved_not_rejected s r ps ri di requested moved n :
  farthest_transfer s r ps ri di requested moved n ->
  border_moved s (transferred s ri di 0) r ps ri di = 0%Z -> moved <> 0%Z ->
  0 < spare_cells (transferred s ri di 0) r ps di
  /\ ~ (forall m, (1 <= m)%Z -> 0 < spare_cells (transferred s ri di (m - 1)) r ps di ->
         (border_moved s (transferred s ri di m) r ps ri di <= 0)%Z).
Proof.
  intros [H1 [H2 H3] H4 H5] H0 Hmoved. assert (n <> 0)%Z by (intros ->; congruence).
  split; [by apply (H4 0%Z); lia|]. intros Hheld.
  destruct (H4 (n - 1)%Z ltac:(lia)) as [_ Hs]. specialize (Hheld n ltac:(lia) Hs). lia.
Qed.

Lemma no_site_error t R pane_id d delta ps e :
  pane_id ∉ list_leaf_pane_ids t ->
  failed (A := LayoutNode * N) (ResizePaneNotFound pane_id) = failed e <-> resize_error_holds t R pane_id d delta ps e.
Proof.
  intros Hno. split; [by intros [= <-]|]. destruct e; simpl.
  - by intros [-> _].
  - intros (_ & _ & pp & Hpp & _). exfalso. apply Hno, find_pane_path_is_Some. eauto.
  - intros (_ & _ & _ & _ & path & s & r & ri & di & Hsite & _). by destruct (site_found _ _ _ _ _ _ _ _ _ _ _ Hsite).
  - intros (_ & _ & _ & _ & path & s & r & ri & di & Hsite & _). by destruct (site_found _ _ _ _ _ _ _ _ _ _ _ Hsite).
Qed.

Lemma no_border_error t R pane_id d delta ps pane_path e :
  find_pane_path pane_id t = Some pane_path -> (forall depth i j, ~ border_at_depth t pane_path d depth i j) ->
  failed (A := LayoutNode * N) (NoAdjacentBorder pane_id d) = failed e <-> resize_error_holds t R pane_id d delta ps e.
Proof.
  intros Hpp Hno.
  assert (forall path s r ri di, ~ resize_site t R pane_id d (0 <? delta)%Z ps path s r ri di) as Hnone.
  { intros path s r ri di Hsite. destruct (site_found _ _ _ _ _ _ _ _ _ _ _ Hsite) as (_ & pp & depth & i & j & Hpp' & Hb).
    simplify_eq. by apply Hno in Hb. }
  split; [intros [= <-]; simpl; eauto 10|]. destruct e; simpl.
  - intros [-> H]. exfalso. apply H, find_pane_path_is_Some. eauto.
  - by intros (-> & -> & _).
  - intros (_ & _ & _ & _ & path & s & r & ri & di & Hsite & _). by apply Hnone in Hsite.
  - intros (_ & _ & _ & _ & path & s & r & ri & di & Hsite & _). by apply Hnone in Hsite.
Qed.

Lemma site_error t R pane_id d delta ps path s r ri di moved n (t' : LayoutNode) e :
  Rect_wf R -> every_split i32_deltas t ->
  resize_site t R pane_id d (0 <? delta)%Z ps path s r ri di ->
  farthest_transfer s r ps ri di (Z.abs delta) moved n ->
  (if (delta =? 0)%Z || negb (moved =? 0)%Z then ok (t', Z.to_N moved)
   else failed (if spare_cells s r ps di =? 0 then DonorAtMinimumSize pane_id d (0 <? delta)%Z
                else BorderHeld pane_id d (0 <? delta)%Z)) = failed e
  <-> resize_error_holds t R pane_id d delta ps e.
Proof.
  intros Hwf Hi32 Hsite Hfar. destruct (site_facts _ _ _ _ _ _ Hwf Hi32 _ _ _ _ _ Hsite) as (F1 & F2 & F3 & F4 & F5 & _).
  pose proof (site_found _ _ _ _ _ _ _ _ _ _ _ Hsite) as (Hin & pp & depth & i & j & Hpp & Hb).
  assert (border_moved s (transferred s ri di 0) r ps ri di = 0%Z) as H0.
  { rewrite (border_moved_at s r ps ri di F1 F3 F4 F5 F2). unfold moved_at. case_match; lia. }
  assert (spare_cells (transferred s ri di 0) r ps di = spare_cells s r ps di) as Hs0.
  { by rewrite (spare_cells_at s r ps ri di F1 F3 F4 F5 F2), (spare_cells_start s r ps ri di F1 F3 F4 F5 F2). }
  assert (delta = 0%Z \/ moved <> 0%Z \/ (delta <> 0%Z /\ moved = 0%Z)) as [Hz|[Hz|[Hz1 Hz2]]] by lia.
  - subst delta. split; [done|]. destruct e; simpl; naive_solver.
  - rewrite (proj2 (Z.eqb_neq moved 0)), orb_true_r by done.
    destruct (moved_not_rejected _ _ _ _ _ _ _ _ Hfar H0 Hz) as [Hsp Hnh]. rewrite Hs0 in Hsp.
    split; [done|]. destruct e; simpl.
    + by intros [-> ?].
    + intros (-> & -> & pp' & Hpp' & Hno). simplify_eq. by apply Hno in Hb.
    + intros (-> & -> & -> & _ & path' & s' & r' & ri' & di' & Hsite' & Hz').
      destruct (resize_site_inj _ _ _ _ _ _ _ _ _ _ _ _ _ _ _ _ Hsite Hsite') as (<- & <- & <- & <- & <-). lia.
    + intros (-> & -> & -> & _ & path' & s' & r' & ri' & di' & Hsite' & _ & Hz').
      destruct (resize_site_inj _ _ _ _ _ _ _ _ _ _ _ _ _ _ _ _ Hsite Hsite') as (<- & <- & <- & <- & <-). done.
  - rewrite (proj2 (Z.eqb_neq delta 0)) by done. subst moved. cbn [orb negb Z.eqb].
    assert (forall m, (1 <= m)%Z -> 0 < spare_cells (transferred s ri di (m - 1)) r ps di ->
      (border_moved s (transferred s ri di m) r ps ri di <= 0)%Z) as Hheld.
    { destruct (ft_farthest _ _ _ _ _ _ _ _ Hfar) as [E|H]; [lia|done]. }
    split.
    + intros [= <-]. case_match; bools; simpl; split_and!; try done; exists path, s, r, ri, di; [done|].
      split_and!; [done|lia|done].
    + destruct e; simpl.
      * by intros [-> ?].
      * intros (-> & -> & pp' & Hpp' & Hno). simplify_eq. by apply Hno in Hb.
      * intros (-> & -> & -> & _ & path' & s' & r' & ri' & di' & Hsite' & Hz').
        destruct (resize_site_inj _ _ _ _ _ _ _ _ _ _ _ _ _ _ _ _ Hsite Hsite') as (<- & <- & <- & <- & <-). by rewrite Hz'.
      * intros (-> & -> & -> & _ & path' & s' & r' & ri' & di' & Hsite' & Hz' & _).
        destruct (resize_site_inj _ _ _ _ _ _ _ _ _ _ _ _ _ _ _ _ Hsite Hsite') as (<- & <- & <- & <- & <-).
        rewrite (proj2 (N.eqb_neq _ 0)) by lia. done.
Qed.

(** The edit at a site. *)
Lemma edited_site t path s s' t' layout_rect ps :
  get_split_at_path t path = Some s -> same_slots s s' /\ children s' = children s ->
  get_split_at_path_mut t path (fun _ => s') = Some t' -> Rect_wf layout_rect ->
  same_but_deltas t t' /\ get_split_at_path t' path = Some s'
  /\ compute_rect_at_path t' layout_rect path ps = compute_rect_at_path t layout_rect path ps.
Proof.
  intros Hs [Hsame Hc] Hmut Hwf. apply get_split_at_path_node in Hs. unfold get_split_at_path_mut in Hmut. rewrite Hs in Hmut.
  assert (same_but_deltas (Split s) (Split s')) as Hd.
  { constructor; [done|]. rewrite Hc. apply Forall_Forall2_diag, Forall_forall. intros c _. reflexivity. }
  destruct (edited_split_same _ _ _ _ _ _ ps Hs Hd Hmut Hwf) as [H1 H2]. split; [done|]. split; [|done].
  apply get_node_at_path_mut_Some in Hmut as (m & _ & Hm). by apply get_split_at_path_node.
Qed.

(** C20: A resize never panics, and reports each error exactly when it holds:
    the pane is not in the tree; no split on the axis, above the collapsed
    stack members, has a child beside the pane's; the donor has no cell above
    its floor; or it has one and no count of offset cells it can pay for
    moves the border. *)
Theorem resize_errors_are_exact t layout_rect pane_id d delta ps e :
  Rect_wf layout_rect -> every_split i32_deltas t -> (-32768 <= delta <= 32767)%Z ->
  resize_layout_with_sizing t layout_rect pane_id d delta ps <> panicked
  /\ (resize_layout_with_sizing t layout_rect pane_id d delta ps = failed e
      <-> resize_error_holds t layout_rect pane_id d delta ps e).
Proof.
  intros Hwf Hi32 Hdelta.
  destruct (resize_site_or_error t layout_rect pane_id d delta ps Hwf Hi32 Hdelta)
    as [[Hno ->]|[(pp & Hpp & Hno & ->)|(path & s & r & ri & di & moved & n & t' & Hsite & Hfar & Hmut & ->)]].
  - split; [done|]. by apply no_site_error.
  - split; [done|]. by apply no_border_error with pp.
  - split; [by destruct (_ || _)|]. by apply (site_error t layout_rect pane_id d delta ps path s r ri di moved n t').
Qed.

(** C10: A resize that succeeds moves the border of the deepest split that
    borders the pane on that side, by exactly the cells it returns, measured
    in the solve of the new tree: as far as asked, or as far as any count of
    offset cells the donor can pay for moves it, with the fewest such cells,
    and with no other change to the tree. *)
Theorem resize_moves_the_border_as_asked t layout_rect pane_id d delta ps t' moved_cells :
  Rect_wf layout_rect -> every_split i32_deltas t -> (-32768 <= delta <= 32767)%Z ->
  resize_layout_with_sizing t layout_rect pane_id d delta ps = ok (t', moved_cells) ->
  exists path s r receiver donor n,
    resize_site t layout_rect pane_id d (0 <? delta)%Z ps path s r receiver donor
    /\ get_split_at_path_mut t path (fun _ => transferred s receiver donor n) = Some t'
    /\ get_split_at_path t' path = Some (transferred s receiver donor n)
    /\ compute_rect_at_path t' layout_rect path ps = Some r
    /\ farthest_transfer s r ps receiver donor (Z.abs delta) (Z.of_N moved_cells) n.
Proof.
  intros Hwf Hi32 Hdelta Hok.
  destruct (resize_site_or_error t layout_rect pane_id d delta ps Hwf Hi32 Hdelta)
    as [[_ E]|[(pp & _ & _ & E)|(path & s & r & ri & di & moved & n & t1 & Hsite & Hfar & Hmut & E)]];
    rewrite Hok in E; [done..|].
  case_match; [|done]. injection E as <- ->. exists path, s, r, ri, di, n. split; [done|]. split; [done|].
  destruct (site_facts _ _ _ _ _ _ Hwf Hi32 _ _ _ _ _ Hsite) as (F1 & F2 & F3 & F4 & F5 & _).
  pose proof (edited_site t path s _ t' layout_rect ps (rs_split _ _ _ _ _ _ _ _ _ _ _ Hsite)
    (transferred_same s r ps ri di F1 F3 F4 F5 F2 n) Hmut Hwf) as (_ & H1 & H2).
  rewrite (rs_rect _ _ _ _ _ _ _ _ _ _ _ Hsite) in H2. split; [done|]. split; [done|].
  rewrite Z2N.id; [done|]. apply Hfar.
Qed.

(** ** The tree after a resize *)

Lemma transferred_i32 s ri di n : i32_deltas s -> i32_deltas (transferred s ri di n).
Proof.
  intros H. unfold i32_deltas, transferred, with_added. cbn [weights set_weights].
  assert (forall x w, is_i32 (resize_delta (set_resize_delta (i32_clamp x) w))) as Hc.
  { intros x w. cbn [resize_delta set_resize_delta]. unfold is_i32. pose proof (i32_clamp_spec x). lia. }
  apply Forall_insert; [|apply Hc]. apply Forall_insert; [|apply Hc].
  unfold pad_weights. case_match; [|done]. cbn [weights set_weights]. apply Forall_app. split; [done|].
  apply Forall_replicate. done.
Qed.

Lemma transferred_children s ri di n :
  children (transferred s ri di n) = children s /\ direction (transferred s ri di n) = direction s
  /\ active_child_index (transferred s ri di n) = active_child_index s
  /\ (has_parallel_weights s -> has_parallel_weights (transferred s ri di n)).
Proof.
  unfold transferred, with_added, pad_weights. destruct (_ <? _)%nat eqn:E; bools; (split_and!; [done..|]); intros Hp;
    unfold has_parallel_weights in *; cbn [children weights set_weights]; rewrite !length_insert; [lia|done].
Qed.

(** C37: The tree a resize returns is the tree it was given up to resize
    deltas: the same panes in the same splits with the same constraints. The
    deltas are machine integers again and a well-formed tree stays one. *)
Theorem resized_trees_stay_well_formed t layout_rect pane_id d delta ps t' moved_cells :
  Rect_wf layout_rect -> every_split i32_deltas t -> (-32768 <= delta <= 32767)%Z ->
  resize_layout_with_sizing t layout_rect pane_id d delta ps = ok (t', moved_cells) ->
  same_but_deltas t t' /\ every_split i32_deltas t' /\ (tree_ok t -> tree_ok t')
  /\ moved_cells <= Z.to_N (Z.abs delta).
Proof.
  intros Hwf Hi32 Hdelta Hok.
  destruct (resize_site_or_error t layout_rect pane_id d delta ps Hwf Hi32 Hdelta)
    as [[_ E]|[(pp & _ & _ & E)|(path & s & r & ri & di & moved & n & t1 & Hsite & Hfar & Hmut & E)]];
    rewrite Hok in E; [done..|].
  case_match; [|done]. injection E as <- ->.
  destruct (site_facts _ _ _ _ _ _ Hwf Hi32 _ _ _ _ _ Hsite) as (F1 & F2 & F3 & F4 & F5 & _).
  pose proof (rs_split _ _ _ _ _ _ _ _ _ _ _ Hsite) as Hs.
  destruct (edited_site t path s _ t' layout_rect ps Hs (transferred_same s r ps ri di F1 F3 F4 F5 F2 n) Hmut Hwf) as (H1 & _).
  apply get_split_at_path_node in Hs. unfold get_split_at_path_mut in Hmut. rewrite Hs in Hmut.
  split; [done|]. split; [|split].
  - refine (get_node_at_path_mut_every _ _ _ _ _ _ _ Hi32 Hs _ Hmut); [by intros u cs|].
    constructor; [by apply transferred_i32|]. rewrite (proj1 (transferred_children _ _ _ _)).
    by pose proof (get_node_at_path_every _ _ _ _ Hi32 Hs) as [_ ?]%every_split_Split_inv.
  - intros Hok'. refine (get_node_at_path_mut_every _ _ _ _ _ _ tree_ok_reads_shape_only Hok' Hs _ Hmut).
    pose proof (get_node_at_path_every _ _ _ _ Hok' Hs) as [(K1 & K2 & K3) Kc]%every_split_Split_inv.
    destruct (transferred_children s ri di n) as (E1 & E2 & E3 & E4).
    constructor; [|by rewrite E1]. unfold has_children, has_active_in_range in *. rewrite E1, E2, E3. auto.
  - destruct (ft_moved _ _ _ _ _ _ _ _ Hfar) as [_ Hm]. lia.
Qed.

(** ** The search *)

(** The binary search ends within as many measures as its range has
    binary digits, eight for two hundred candidates, at the first match. *)
Theorem first_candidate_is_found measure is_found low high highest steps :
  (low <= high)%Z -> (high - low < 2 ^ Z.of_nat steps)%Z ->
  (forall k, (low <= k <= high)%Z -> is_Some (measure k)) ->
  measure high = Some highest -> is_found highest = true ->
  (forall j j' mj mj', (low <= j <= j')%Z -> (j' <= high)%Z -> measure j = Some mj -> measure j' = Some mj' ->
     is_found mj = true -> is_found mj' = true) ->
  exists k mk, find_first_candidate steps low high highest measure is_found = Some (k, mk)
    /\ (low <= k <= high)%Z /\ measure k = Some mk /\ is_found mk = true
    /\ forall j mj, (low <= j < k)%Z -> measure j = Some mj -> is_found mj = false.
Proof.
  intros Hle Hsteps Htotal Hm Hf Hmono.
  destruct (find_first_candidate_log measure is_found low high highest steps) as (k & mk & E & Hk); [done..|].
  exists k, mk. split; [done|]. pose proof (first_match_is_least _ _ _ _ _ _ Hmono Hk) as Hleast.
  by destruct Hk as [H1 H2 H3 _].
Qed.

(** The candidates are at most four times the axis, each an added count
    far inside 64 bits, in increasing order; and no other count changes the
    solve of the split, while the donor has a cell to spare. *)
Theorem only_candidates_change_the_solve s r ps receiver donor :
  let axis := Z.of_N (axis_length (is_horizontal s) r) in
  let w := list_offset_windows axis (resize_delta (slot_weight s receiver)) (resize_delta (slot_weight s donor)) in
  Rect_wf r -> i32_deltas s -> (receiver < length (children s))%nat -> (donor < length (children s))%nat ->
  donor = S receiver \/ receiver = S donor -> 0 < spare_cells s r ps donor ->
  (0 <= candidate_count w <= 4 * axis)%Z
  /\ (forall k, (1 <= k <= candidate_count w)%Z -> (1 <= get_added_cell_count w k <= I32_MAX + 65536)%Z)
  /\ (forall k, (1 <= k < candidate_count w)%Z -> (get_added_cell_count w k < get_added_cell_count w (k + 1))%Z)
  /\ forall n, (0 <= n)%Z -> (forall k, (1 <= k <= candidate_count w)%Z -> get_added_cell_count w k <> (n + 1)%Z) ->
       compute_directional_child_rects (transferred s receiver donor (n + 1)) r ps
       = compute_directional_child_rects (transferred s receiver donor n) r ps.
Proof.
  intros axis w Hwf Hi32 Hr Hd Hadj Hspare.
  pose proof (slot_delta_i32 s Hi32 receiver) as I1. pose proof (slot_delta_i32 s Hi32 donor) as I2.
  pose proof (axis_length_le (is_horizontal s) r Hwf) as Ha. unfold is_i32 in *.
  destruct (candidates_are_the_window_counts axis (resize_delta (slot_weight s receiver)) (resize_delta (slot_weight s donor)))
    as (W1 & W2 & W3). fold w in W1, W2, W3. split; [|split; [|split]].
  - unfold w, candidate_count, list_offset_windows. destruct (_ <=? _)%Z; cbn [first_window_length second_window_length]; lia.
  - intros k Hk. destruct (W1 k Hk) as [H1 H2]. lia.
  - exact W2.
  - intros n Hn Hno. apply (same_rects_outside s r ps receiver donor Hwf Hr Hd Hadj Hi32 n Hspare Hn).
    intros Hw. destruct (W3 _ Hw) as (k & Hk & E). by apply (Hno k).
Qed.

(** ** The hypotheses can hold *)

Definition two_panes : LayoutNode := Split (with_equal_weights Horizontal [Pane 1; Pane 2]).
Definition two_panes_rect : Rect := MkRect (MkPoint 0 0) (MkSize 200 50).

Lemma two_panes_typed : every_split i32_deltas two_panes.
Proof. constructor; repeat constructor; done. Qed.

Lemma resize_errors_are_exact_witness :
  resize_layout_with_sizing two_panes two_panes_rect 1 Left 5 default_pane_sizing <> panicked
  /\ resize_error_holds two_panes two_panes_rect 1 Left 5 default_pane_sizing (NoAdjacentBorder 1 Left).
Proof.
  destruct (resize_errors_are_exact two_panes two_panes_rect 1 Left 5 default_pane_sizing (NoAdjacentBorder 1 Left))
    as [H1 H2]; [by vm_compute|apply two_panes_typed|lia|].
  split; [exact H1|]. apply H2. vm_compute. reflexivity.
Defined.

Lemma resize_moves_the_border_as_asked_witness :
  exists t', resize_layout_with_sizing two_panes two_panes_rect 1 Right 5 default_pane_sizing = ok (t', 5)
  /\ exists path s r receiver donor n,
    resize_site two_panes two_panes_rect 1 Right true default_pane_sizing path s r receiver donor
    /\ farthest_transfer s r default_pane_sizing receiver donor 5 5 n.
Proof.
  eexists. split; [vm_compute; reflexivity|].
  edestruct (resize_moves_the_border_as_asked two_panes two_panes_rect 1 Right 5 default_pane_sizing)
    as (path & s & r & receiver & donor & n & H1 & _ & _ & _ & H2);
    [by vm_compute|apply two_panes_typed|lia|vm_compute; reflexivity|].
  exists path, s, r, receiver, donor, n. split; [exact H1|exact H2].
Defined.

Lemma resized_trees_stay_well_formed_witness :
  exists t', resize_layout_with_sizing two_panes two_panes_rect 1 Right 5 default_pane_sizing = ok (t', 5)
  /\ same_but_deltas two_panes t' /\ every_split i32_deltas t'.
Proof.
  eexists. split; [vm_compute; reflexivity|].
  edestruct (resized_trees_stay_well_formed two_panes two_panes_rect 1 Right 5 default_pane_sizing)
    as (H1 & H2 & _); [by vm_compute|apply two_panes_typed|lia|vm_compute; reflexivity|].
  split; [exact H1|exact H2].
Defined.

(** Candidate [k] of 200 moved [k] cells; the first of 137 cells is found in
    eight measures. *)
Lemma first_candidate_is_found_witness :
  exists k mk, find_first_candidate 8 1 200 (MkBorderMeasure 200 1) (fun k => Some (MkBorderMeasure k 1))
    (fun m => (137 <=? moved_cell_count m)%Z) = Some (k, mk) /\ (1 <= k <= 200)%Z /\ (137 <=? moved_cell_count mk)%Z = true.
Proof.
  destruct (first_candidate_is_found (fun k => Some (MkBorderMeasure k 1)) (fun m => (137 <=? moved_cell_count m)%Z)
    1 200 (MkBorderMeasure 200 1) 8) as (k & mk & H1 & H2 & _ & H3 & _).
  - lia.
  - vm_compute. reflexivity.
  - intros k _. eexists. reflexivity.
  - reflexivity.
  - reflexivity.
  - intros j j' mj mj' Hj _ [= <-] [= <-] H. cbn [moved_cell_count] in *. bools. apply Z.leb_le. lia.
  - exists k, mk. split; [exact H1|]. split; [exact H2|exact H3].
Defined.

Lemma only_candidates_change_the_solve_witness :
  let s := with_equal_weights Horizontal [Pane 1; Pane 2] in
  (0 <= candidate_count (list_offset_windows 200 0 0) <= 800)%Z
  /\ compute_directional_child_rects (transferred s 0 1 1001) two_panes_rect default_pane_sizing
     = compute_directional_child_rects (transferred s 0 1 1000) two_panes_rect default_pane_sizing.
Proof.
  destruct (only_candidates_change_the_solve (with_equal_weights Horizontal [Pane 1; Pane 2]) two_panes_rect
    default_pane_sizing 0 1) as (H1 & _ & _ & H2).
  - by vm_compute.
  - repeat constructor; done.
  - simpl. lia.
  - simpl. lia.
  - left. reflexivity.
  - vm_compute. reflexivity.
  - split; [exact H1|]. apply (H2 1000%Z); [lia|]. intros k Hk E.
    change (get_added_cell_count (list_offset_windows 200 0 0) k = 1001%Z) in E.
    change (1 <= k <= 200)%Z in Hk. unfold get_added_cell_count in E.
    change (first_window_length (list_offset_windows 200 0 0)) with 200%Z in E.
    change (first_window_start (list_offset_windows 200 0 0)) with 1%Z in E.
    rewrite (proj2 (Z.leb_le k 200)) in E by lia. lia.
Defined.
