(* ===== verification/DeltaConversion.v ===== *)
(** * Converting older resize deltas
    ([crates/koshi-layout/src/solver/resize_delta_conversion.rs])

    A tree laid out by the earlier solve, which applied each resize delta
    before the preferred targets, is rewritten for the present one, which
    applies it after them. *)

From S2P Require Import Prelude Geometry Size Tree Distribute Solver Content Deltas.
From stdpp Require Import options.

(** ** Definitions *)

(** [koshi_core::process::PtySize]. *)
Record PtySize := MkPtySize { pty_column_count : N; pty_row_count : N }.

(** One child of the directional loop, as its own measurement, on
    [((axis_cell_count, cross_cell_count), measured_pane_count)]. A failed
    measurement ([None]) drops the count, which its one caller then ignores. *)
Definition measure_child (gap : N) (is_horizontal_split : bool) (st : option (N * N * nat))
    (im : nat * (nat -> option (Size * nat))) : option (N * N * nat) :=
  '(axis_cell_count, _, measured_pane_count) ← st;
  '(child_size, measured_pane_count) ← im.2 measured_pane_count;
  let '(child_axis_cell_count, child_cross_cell_count) :=
    split_axis_and_cross_cell_counts (column_count child_size) (row_count child_size)
      is_horizontal_split in
  let leading_gap_cell_count := if (im.1 =? 0)%nat then 0 else gap in
  with_gap ← u16_checked_add axis_cell_count leading_gap_cell_count;
  with_child ← u16_checked_add with_gap child_axis_cell_count;
  Some (with_child, child_cross_cell_count, measured_pane_count).

Fixpoint measure_layout_size (pty_size_by_pane_id : gmap PaneId PtySize) (gap : N)
    (n : LayoutNode) (measured_pane_count : nat) : option (Size * nat) :=
  match n with
  | Pane pane_id =>
      pty_size ← pty_size_by_pane_id !! pane_id;
      columns ← u16_checked_add (pty_column_count pty_size) 2;
      rows ← u16_checked_add (pty_row_count pty_size) 2;
      Some (MkSize columns rows, S measured_pane_count)
  | Split split =>
      let measures := map (measure_layout_size pty_size_by_pane_id gap) (children split) in
      match direction split with
      | Stacked =>
          measure_shown_member ← measures !! get_active_child_index split;
          '(shown_member_size, measured_pane_count) ← measure_shown_member measured_pane_count;
          header_row_count ← u16_try_from (N.of_nat (length (children split) - 1));
          rows ← u16_checked_add (row_count shown_member_size) header_row_count;
          Some (MkSize (column_count shown_member_size) rows, measured_pane_count)
      | Horizontal | Vertical =>
          '(axis_cell_count, cross_cell_count, measured_pane_count) ←
            foldl (measure_child gap (is_horizontal split)) (Some (0, 0, measured_pane_count))
              (enumerate measures);
          let '(columns, rows) :=
            split_axis_and_cross_cell_counts axis_cell_count cross_cell_count
              (is_horizontal split) in
          Some (MkSize columns rows, measured_pane_count)
      end
  end.

(** The loop over the content rects: [None] once a shown pane lacks its
    carried size, else the panes shown. *)
Definition count_carried_pane (pty_size_by_pane_id : gmap PaneId PtySize) (st : option nat)
    (entry : PaneId * option Rect) : option nat :=
  shown_pane_count ← st;
  match entry.2 with
  | None => Some shown_pane_count
  | Some content_rect =>
      let carried_size :=
        (fun pty_size => MkSize (pty_column_count pty_size) (pty_row_count pty_size))
          <$> pty_size_by_pane_id !! entry.1 in
      if bool_decide (carried_size = Some (size content_rect)) then Some (S shown_pane_count)
      else None
  end.

Definition is_every_carried_pane_size_preserved (layout_tree : LayoutNode) (tab_rect : Rect)
    (pty_size_by_pane_id : gmap PaneId PtySize) (measured_pane_count : nat)
    (pane_sizing : PaneSizing) : bool :=
  let layout_solve := solve_layout_with_sizing layout_tree tab_rect pane_sizing in
  match foldl (count_carried_pane pty_size_by_pane_id) (Some 0%nat)
          (list_content_rects layout_solve) with
  | None => false
  | Some shown_pane_count => (shown_pane_count =? measured_pane_count)%nat
  end.

(** The write of one [resize_delta] at an index inside the weights. *)
Definition write_resize_delta (delta : Z) (i : nat) (s : SplitNode) : SplitNode :=
  match weights s !! i with
  | Some w => set_weights (<[i := set_resize_delta delta w]> (weights s)) s
  | None => s
  end.

(** The counts of the earlier solve, and the counts its deltas started from. *)
Definition compute_earlier_cell_counts (kc : KeptChildren) : list N :=
  let shares := compute_share_cell_counts (kept_weights kc) (shared_cell_count kc) in
  let resized := apply_resize_deltas shares (kept_weights kc) (shared_cell_count kc) in
  let targeted := apply_preferred_cell_counts resized (kept_weights kc) (kept_floors kc) in
  clamp_cell_counts_to_floors targeted (kept_weights kc) (kept_floors kc) (shared_cell_count kc).

Definition compute_target_cell_counts (kc : KeptChildren) : list N :=
  let shares := compute_share_cell_counts (kept_weights kc) (shared_cell_count kc) in
  let repaired := repair_cell_count_sum shares (shared_cell_count kc) in
  apply_preferred_cell_counts repaired (kept_weights kc) (kept_floors kc).

Definition list_kept_child_indices (flags : list bool) : list nat :=
  omap (fun ib : nat * bool => if ib.2 then Some ib.1 else None) (enumerate flags).

Definition write_kept_delta (s : SplitNode) (entry : nat * N * N) : SplitNode :=
  let '(child_index, earlier_cell_count, target_cell_count) := entry in
  write_resize_delta (Z.of_N earlier_cell_count - Z.of_N target_cell_count) child_index s.

Definition convert_split_resize_deltas (s : SplitNode) (split_rect : Rect)
    (pane_sizing : PaneSizing) : SplitNode :=
  let kc := list_kept_children s split_rect pane_sizing in
  let earlier_cell_counts := compute_earlier_cell_counts kc in
  if bool_decide (earlier_cell_counts
       = distribute_axis_cells (kept_weights kc) (kept_floors kc) (shared_cell_count kc))
  then s
  else
    foldl write_kept_delta (pad_weights s)
      (zip (zip (list_kept_child_indices (is_child_kept kc)) earlier_cell_counts)
         (compute_target_cell_counts kc)).

(** [iter_mut().zip(rects)]: a child without a rect keeps its value. *)
Section zip_update.
Context {A B : Type} (f : A -> B -> A).

Fixpoint zip_update (xs : list A) (ys : list B) {struct xs} : list A :=
  match xs, ys with
  | x :: xs', y :: ys' => f x y :: zip_update xs' ys'
  | _, _ => xs
  end.
End zip_update.

(** The rewrite of a split leaves its children alone
    ([convert_split_children]), so the loop runs over the children of [split]. *)
Fixpoint convert_resize_deltas_at_rect (n : LayoutNode) (tab_rect : Rect)
    (pane_sizing : PaneSizing) : LayoutNode :=
  match n with
  | Pane _ => n
  | Split split =>
      match direction split with
      | Horizontal | Vertical =>
          let converted := convert_split_resize_deltas split tab_rect pane_sizing in
          let child_rects := compute_directional_child_rects converted tab_rect pane_sizing in
          Split (set_children
            (zip_update (fun child child_rect =>
               if negb (is_empty child_rect)
               then convert_resize_deltas_at_rect child child_rect pane_sizing else child)
               (children split) child_rects) converted)
      | Stacked =>
          match compute_stacked_child_rects split tab_rect pane_sizing
                  !! get_active_child_index split with
          | None => n
          | Some shown_member_rect =>
              if is_empty shown_member_rect then n
              else
                Split (set_children
                  (map (fun member =>
                     convert_resize_deltas_at_rect member shown_member_rect pane_sizing)
                     (children split)) split)
          end
      end
  end.

Definition i32_saturating_add (a b : Z) : Z := (I32_MIN `max` (I32_MAX `min` (a + b)))%Z.

(** The trailing-most flexible sibling, with missing weights as the default. *)
Definition find_fold_receiver (s : SplitNode) (child_index : nat) : option nat :=
  List.find (fun sibling_index =>
      negb (sibling_index =? child_index)%nat
      && is_flexible (default default_size_weight (weights s !! sibling_index)))
    (range_rev (length (children s))).

(** One child of the fold loop. *)
Definition fold_child_resize_delta (s : SplitNode) (child_index : nat) : SplitNode :=
  match weights s !! child_index with
  | None => s
  | Some child_weight =>
      match get_preferred_cell_count child_weight, find_fold_receiver s child_index with
      | Some _, Some receiver_child_index =>
          let padded := if (length (weights s) <=? receiver_child_index)%nat then pad_weights s else s in
          let folded_resize_delta := resize_delta child_weight in
          let emptied := write_resize_delta 0 child_index padded in
          match weights emptied !! receiver_child_index with
          | Some receiver_weight =>
              write_resize_delta
                (i32_saturating_add (resize_delta receiver_weight) folded_resize_delta)
                receiver_child_index emptied
          | None => emptied
          end
      | _, _ => s
      end
  end.

Definition fold_split_preferred_resize_deltas (s : SplitNode) : SplitNode :=
  foldl fold_child_resize_delta s (range (length (children s))).

Fixpoint fold_preferred_resize_deltas (n : LayoutNode) : LayoutNode :=
  match n with
  | Pane _ => n
  | Split split =>
      let folded :=
        if bool_decide (direction split = Stacked) then split
        else fold_split_preferred_resize_deltas split in
      Split (set_children (map fold_preferred_resize_deltas (children split)) folded)
  end.

Definition convert_resize_deltas_to_apply_after_preferred (layout_tree : LayoutNode)
    (pty_size_by_pane_id : gmap PaneId PtySize) (pane_sizing : PaneSizing) : LayoutNode :=
  match measure_layout_size pty_size_by_pane_id (gap_cell_count pane_sizing) layout_tree 0 with
  | Some (tab_size, measured_pane_count) =>
      let tab_rect := from_size_at_origin tab_size in
      let converted_layout_tree :=
        convert_resize_deltas_at_rect layout_tree tab_rect pane_sizing in
      if is_every_carried_pane_size_preserved converted_layout_tree tab_rect pty_size_by_pane_id
           measured_pane_count pane_sizing
      then converted_layout_tree
      else fold_preferred_resize_deltas layout_tree
  | None => fold_preferred_resize_deltas layout_tree
  end.

(** The example of the source: a [preferred 20] pane beside a flexible one. *)
Definition preferred_beside_flexible : LayoutNode :=
  Split (MkSplitNode Horizontal [Pane 1; Pane 2]
    [set_resize_delta 10 (from_primary_constraint (Preferred 20));
     set_resize_delta (-10) default_size_weight] 0).

Example conversion_of_the_example :
  convert_resize_deltas_to_apply_after_preferred preferred_beside_flexible
    {[1 := MkPtySize 18 22; 2 := MkPtySize 58 22]} default_pane_sizing
  = Split (MkSplitNode Horizontal [Pane 1; Pane 2]
      [from_primary_constraint (Preferred 20); default_size_weight] 0).
Proof. vm_compute. reflexivity. Qed.

(** ** Only resize deltas change *)

Lemma write_resize_delta_slots delta i s j :
  slot_weight (write_resize_delta delta i s) j
  = if decide (i = j /\ (i < length (weights s))%nat)
    then set_resize_delta delta (slot_weight s i) else slot_weight s j.
Proof.
  unfold write_resize_delta. destruct (weights s !! i) as [w|] eqn:E.
  - rewrite slot_weight_set_weights. unfold slot_weight.
    pose proof (lookup_lt_Some _ _ _ E) as Hi. case_decide as H.
    + destruct H as [<- _]. by rewrite list_lookup_insert_eq, E.
    + rewrite list_lookup_insert_ne; [done|]. intros ->. by apply H.
  - case_decide as H; [|done]. apply lookup_ge_None_1 in E. lia.
Qed.

Lemma write_resize_delta_same delta i s : same_slots (write_resize_delta delta i s) s.
Proof.
  split_and!; [unfold write_resize_delta; by case_match..|]. intros j.
  rewrite write_resize_delta_slots. case_decide as H; [|reflexivity]. by destruct H as [<- _].
Qed.

Lemma write_resize_delta_length delta i s :
  length (weights (write_resize_delta delta i s)) = length (weights s).
Proof. unfold write_resize_delta. case_match; [|done]. simpl. by rewrite length_insert. Qed.

Lemma write_resize_delta_children delta i s : children (write_resize_delta delta i s) = children s.
Proof. unfold write_resize_delta. by case_match. Qed.

#[export] Hint Resolve write_resize_delta_same : koshi.

Lemma convert_split_same s r pane_sizing : same_slots (convert_split_resize_deltas s r pane_sizing) s.
Proof.
  unfold convert_split_resize_deltas. case_match; [reflexivity|].
  apply (foldl_inv (fun s' => same_slots s' s)); [apply pad_weights_same|].
  intros s' [[i e] t] _ Hs'. transitivity s'; [apply write_resize_delta_same|done].
Qed.

Lemma convert_split_children s r pane_sizing :
  children (convert_split_resize_deltas s r pane_sizing) = children s.
Proof.
  unfold convert_split_resize_deltas. case_match; [done|].
  apply (foldl_inv (fun s' => children s' = children s)); [apply pad_weights_children|].
  intros s' [[i e] t] _ Hs'. simpl. by rewrite write_resize_delta_children.
Qed.

Lemma set_children_same cs s s' :
  same_slots s s' -> Forall2 same_but_deltas cs (children s') ->
  same_but_deltas (Split (set_children cs s)) (Split s').
Proof. intros Hs Hc. by constructor. Qed.

Lemma zip_update_Forall2 {A B} (R : A -> A -> Prop) (f : A -> B -> A) xs ys :
  (forall x, R x x) -> (forall x y, x ∈ xs -> R (f x y) x) -> Forall2 R (zip_update f xs ys) xs.
Proof.
  intros Hrefl. revert ys. induction xs as [|x xs IH]; intros [|y ys] Hf; simpl; constructor; auto.
  - clear - Hrefl. induction xs; constructor; auto.
  - apply Hf. left.
  - apply IH. intros z y' Hz. apply Hf. by right.
Qed.

Lemma convert_at_rect_same n r pane_sizing :
  same_but_deltas (convert_resize_deltas_at_rect n r pane_sizing) n.
Proof.
  revert r. induction n as [p|s IH] using LayoutNode_tree_ind; intros r; [reflexivity|].
  rewrite Forall_forall in IH. simpl.
  assert (same_but_deltas (Split (set_children
    (zip_update (fun child child_rect => if negb (is_empty child_rect)
       then convert_resize_deltas_at_rect child child_rect pane_sizing else child) (children s)
       (compute_directional_child_rects (convert_split_resize_deltas s r pane_sizing) r pane_sizing))
    (convert_split_resize_deltas s r pane_sizing))) (Split s)) as Hdir.
  { apply set_children_same; [apply convert_split_same|]. apply zip_update_Forall2; [done|].
    intros c rc Hc. case_match; [by apply IH|done]. }
  destruct (direction s); [exact Hdir|exact Hdir|].
  destruct (_ !! _) as [shown|]; [|reflexivity]. case_match; [reflexivity|].
  apply set_children_same; [reflexivity|]. apply Forall2_fmap_l.
  apply Forall_Forall2_diag, Forall_forall. intros c Hc. by apply IH.
Qed.

Lemma fold_child_same s i :
  same_slots (fold_child_resize_delta s i) s
  /\ children (fold_child_resize_delta s i) = children s.
Proof.
  unfold fold_child_resize_delta. destruct (weights s !! i) as [w|]; [|split; [reflexivity|done]].
  destruct (get_preferred_cell_count w); [|split; [reflexivity|done]].
  destruct (find_fold_receiver s i) as [r|]; [|split; [reflexivity|done]].
  set (padded := if (_ <=? r)%nat then pad_weights s else s).
  assert (same_slots padded s /\ children padded = children s) as [Hp Hpc].
  { unfold padded. case_match; [|split; [reflexivity|done]].
    split; [apply pad_weights_same|apply pad_weights_children]. }
  set (emptied := write_resize_delta 0 i padded).
  assert (same_slots emptied s /\ children emptied = children s) as [He Hec].
  { split; [transitivity padded; [apply write_resize_delta_same|done]|].
    unfold emptied. by rewrite write_resize_delta_children. }
  destruct (weights emptied !! r) as [wr|]; [|done]. split.
  - transitivity emptied; [apply write_resize_delta_same|done].
  - by rewrite write_resize_delta_children.
Qed.

Lemma fold_split_same s :
  same_slots (fold_split_preferred_resize_deltas s) s
  /\ children (fold_split_preferred_resize_deltas s) = children s.
Proof.
  unfold fold_split_preferred_resize_deltas.
  apply (foldl_inv (fun s' => same_slots s' s /\ children s' = children s)).
  - split; [reflexivity|done].
  - intros s' i _ [H1 H2]. destruct (fold_child_same s' i) as [H3 H4].
    split; [by transitivity s'|by rewrite H4].
Qed.

Lemma fold_preferred_same n : same_but_deltas (fold_preferred_resize_deltas n) n.
Proof.
  induction n as [p|s IH] using LayoutNode_tree_ind; [reflexivity|]. simpl.
  apply set_children_same.
  - case_bool_decide; [reflexivity|apply fold_split_same].
  - apply Forall2_fmap_l. by apply Forall_Forall2_diag.
Qed.

(** ** The rewritten split gives the earlier counts *)

Lemma kept_child_indices_prefix flags k :
  let kept l := omap (fun ib : nat * bool => if ib.2 then Some ib.1 else None) l in
  (k <= length flags)%nat ->
  length (kept (take k (enumerate flags))) = rank flags k
  /\ forall i, (i < k)%nat -> flags !! i = Some true ->
       kept (take k (enumerate flags)) !! rank flags i = Some i.
Proof.
  intros kept. induction k as [|k IH]; intros Hk; [split; [done|lia]|].
  destruct (IH ltac:(lia)) as [Hl Hall].
  destruct (lookup_lt_is_Some_2 flags k ltac:(lia)) as [b Hb].
  assert (enumerate flags !! k = Some (k, b)) as He
    by (unfold enumerate; by rewrite list_lookup_imap, Hb).
  rewrite (take_S_r _ _ _ He). unfold kept in *. rewrite omap_app, (rank_S _ _ _ Hb). split.
  - rewrite length_app, Hl. destruct b; simpl; lia.
  - intros i Hi Hf. destruct (decide (i = k)) as [->|Hne].
    + rewrite Hf in Hb. injection Hb as <-. rewrite <- Hl. by apply list_lookup_middle.
    + rewrite lookup_app_l; [apply Hall; [lia|done]|]. rewrite Hl. apply rank_lt; [lia|done].
Qed.

Lemma kept_child_indices_spec flags :
  length (list_kept_child_indices flags) = rank flags (length flags)
  /\ forall i, flags !! i = Some true -> list_kept_child_indices flags !! rank flags i = Some i.
Proof.
  destruct (kept_child_indices_prefix flags (length flags)) as [H1 H2]; [done|].
  rewrite take_ge in H1, H2 by (by rewrite enumerate_length).
  split; [done|]. intros i Hi. apply H2; [by eapply lookup_lt_Some|done].
Qed.

Lemma kept_child_indices_elem flags i :
  i ∈ list_kept_child_indices flags -> flags !! i = Some true.
Proof.
  unfold list_kept_child_indices. intros ([j b] & Hj & Hb)%list_elem_of_omap.
  simpl in Hb. destruct b; [|done]. injection Hb as ->. by apply elem_of_enumerate in Hj.
Qed.

Lemma NoDup_kept_child_indices flags : NoDup (list_kept_child_indices flags).
Proof.
  apply NoDup_alt. intros m1 m2 i H1 H2.
  pose proof (kept_child_indices_elem flags i ltac:(by eapply list_elem_of_lookup_2)) as Hi.
  destruct (kept_child_indices_spec flags) as [Hl Hall]. specialize (Hall i Hi).
  assert (forall m, list_kept_child_indices flags !! m = Some i -> m = rank flags i) as Hm.
  { intros m Hm. apply lookup_lt_Some in Hm as Hlt. rewrite Hl in Hlt.
    destruct (rank_onto flags (length flags) m Hlt) as (i' & _ & Hi' & <-).
    pose proof (proj2 (kept_child_indices_spec flags) i' Hi'). congruence. }
  by rewrite (Hm m1 H1), (Hm m2 H2).
Qed.

(** The loop of writes gives each listed slot its delta. *)
Lemma write_kept_deltas s idxs es ts m i e t :
  NoDup idxs -> (forall j, j ∈ idxs -> (j < length (weights s))%nat) ->
  idxs !! m = Some i -> es !! m = Some e -> ts !! m = Some t ->
  slot_weight (foldl write_kept_delta s (zip (zip idxs es) ts)) i
  = set_resize_delta (Z.of_N e - Z.of_N t) (slot_weight s i).
Proof.
  revert s es ts m. induction idxs as [|j idxs IH]; intros s es ts m Hnd Hlt Hi He Ht; [done|].
  destruct es as [|e' es]; [done|]. destruct ts as [|t' ts]; [by destruct m|].
  apply NoDup_cons in Hnd as [Hj Hnd]. simpl.
  destruct m as [|m]; simplify_eq/=.
  - assert (forall s', (slot_weight (foldl write_kept_delta s' (zip (zip idxs es) ts)) i)
      = slot_weight s' i) as Hrest.
    { intros s'. apply (foldl_inv (fun s'' => slot_weight s'' i = slot_weight s' i)); [done|].
      intros s'' [[k ek] tk] Hk Hs''. simpl. rewrite write_resize_delta_slots.
      case_decide as Hik; [|done]. destruct Hik as [-> _]. exfalso. apply Hj.
      apply elem_of_zip_l in Hk. by apply elem_of_zip_l in Hk. }
    rewrite Hrest, write_resize_delta_slots, decide_True; [done|].
    split; [done|]. apply Hlt. left.
  - rewrite (IH _ es ts m); [|done| |done..].
    + rewrite write_resize_delta_slots, decide_False; [done|]. intros [-> _]. apply Hj.
      by eapply list_elem_of_lookup_2.
    + intros k Hk. rewrite write_resize_delta_length. apply Hlt. by right.
Qed.

(** The earlier counts are counts: they fill the axis and respect the floors. *)
Lemma earlier_cell_counts_spec pane_sizing s r :
  Rect_wf r -> let kc := list_kept_children s r pane_sizing in kept_weights kc <> [] ->
  let counts := compute_earlier_cell_counts kc in
  length counts = length (kept_weights kc) /\ sum_cells counts = shared_cell_count kc
  /\ forall j, cell_at (kept_floors kc) j <= cell_at counts j.
Proof.
  intros Hwf kc Hne. destruct (list_kept_children_spec pane_sizing s r Hwf)
    as [Hfl Hw Hf Hs Hfit _ _]. fold kc in Hfl, Hw, Hf, Hs, Hfit.
  assert (shared_cell_count kc <= U16_MAX) as Hav.
  { etransitivity; [|exact (axis_length_le (is_horizontal s) r Hwf)]. rewrite <- Hs. apply N.le_add_r. }
  unfold compute_earlier_cell_counts.
  destruct (compute_share_cell_counts_spec (kept_weights kc) _ Hav) as (H1 & H2 & _).
  set (shares := compute_share_cell_counts _ _) in *.
  assert (shares <> []) as Hsne by (intros E; rewrite E in H1; by destruct (kept_weights kc)).
  destruct (apply_resize_deltas_spec shares (kept_weights kc) _ (eq_sym H1) Hsne Hav) as (H3 & H4).
  set (resized := apply_resize_deltas _ _ _) in *.
  destruct (apply_preferred_spec (kept_weights kc) (kept_floors kc) resized) as (H5 & H6 & _);
    [congruence|lia|].
  set (targeted := apply_preferred_cell_counts _ _ _) in *.
  destruct (clamp_cell_counts_to_floors_spec targeted (kept_weights kc) (kept_floors kc)
    (shared_cell_count kc)) as (H7 & H8 & H9); [congruence|congruence|done|].
  split_and!; [congruence|done|by apply H9].
Qed.

Lemma share_nil available : compute_share_cell_counts [] available = [].
Proof.
  unfold compute_share_cell_counts. change (list_flexible_child_weight_pairs []) with (@nil (nat * N)).
  simpl. by rewrite reverse_nil, take_nil.
Qed.

Lemma repair_nil available : repair_cell_count_sum [] available = [].
Proof. unfold repair_cell_count_sum. simpl. repeat case_match; bools; [done|lia|done]. Qed.

Lemma convert_split_counts pane_sizing s r :
  Rect_wf r ->
  let kc := list_kept_children s r pane_sizing in
  let kc' := list_kept_children (convert_split_resize_deltas s r pane_sizing) r pane_sizing in
  is_child_kept kc' = is_child_kept kc
  /\ distribute_axis_cells (kept_weights kc') (kept_floors kc') (shared_cell_count kc')
     = compute_earlier_cell_counts kc.
Proof.
  intros Hwf kc kc'.
  destruct (list_kept_children_same (convert_split_resize_deltas s r pane_sizing) s r pane_sizing)
    as (E1 & E2 & E3 & E4); [apply convert_split_same|by rewrite convert_split_children|].
  fold kc kc' in E1, E2, E3, E4. split; [done|].
  destruct (bool_decide (compute_earlier_cell_counts kc
    = distribute_axis_cells (kept_weights kc) (kept_floors kc) (shared_cell_count kc))) eqn:Eb.
  { assert (kc' = kc) as ->.
    { unfold kc', convert_split_resize_deltas. fold kc. by rewrite Eb. }
    by apply bool_decide_eq_true in Eb. }
  apply bool_decide_eq_false in Eb.
  destruct (decide (kept_weights kc = [])) as [Hnil|Hne].
  { exfalso. apply Eb. destruct (list_kept_children_spec pane_sizing s r Hwf)
      as [Hfl Hw Hf _ _ _ _]. fold kc in Hfl, Hw, Hf.
    assert (kept_floors kc = []) as Hfnil
      by (apply nil_length_inv; rewrite Hf, <- Hw, Hnil; done).
    unfold compute_earlier_cell_counts. rewrite Hnil, Hfnil, distribute_axis_cells_nil, share_nil.
    unfold clamp_cell_counts_to_floors, apply_resize_deltas. simpl. rewrite repair_nil.
    by case_match. }
  destruct (earlier_cell_counts_spec pane_sizing s r Hwf Hne) as (Hel & Hes & Hef).
  fold kc in Hel, Hes, Hef. destruct (list_kept_children_spec pane_sizing s r Hwf)
    as [Hfl Hw Hf Hs Hfit _ _]. fold kc in Hfl, Hw, Hf, Hs, Hfit.
  assert (shared_cell_count kc <= U16_MAX) as Hav.
  { etransitivity; [|exact (axis_length_le (is_horizontal s) r Hwf)]. rewrite <- Hs. apply N.le_add_r. }
  pose proof (Forall2_length _ _ _ E4) as Hl4. rewrite E2, E3.
  apply distribute_exact; [congruence|done| |congruence|done|done|].
  { intros E. rewrite E in Hl4. by destruct (kept_weights kc). }
  rewrite (share_cell_counts_same _ _ _ E4), (preferred_cell_counts_same _ _ _ _ E4).
  fold (compute_target_cell_counts kc). intros m w Hm.
  apply lookup_lt_Some in Hm as Hmlt. rewrite Hl4, Hw in Hmlt. rewrite <- Hfl in Hmlt.
  destruct (rank_onto _ _ _ Hmlt) as (i & _ & Hi & <-).
  pose proof (kept_weights_lookup pane_sizing (convert_split_resize_deltas s r pane_sizing) r i Hwf)
    as Hslot. fold kc' in Hslot. cbv zeta in Hslot. rewrite E1 in Hslot. rewrite (Hslot Hi) in Hm.
  injection Hm as <-.
  assert (length (compute_target_cell_counts kc) = length (kept_weights kc)) as Htl.
  { symmetry. apply targeted_length; [done|congruence|done]. }
  unfold convert_split_resize_deltas. fold kc. rewrite bool_decide_eq_false_2 by done.
  rewrite <- Hfl in Hw. assert (rank (is_child_kept kc) i < length (kept_weights kc))%nat as Hlt by lia.
  rewrite (write_kept_deltas _ _ _ _ (rank (is_child_kept kc) i) i
    (cell_at (compute_earlier_cell_counts kc) (rank (is_child_kept kc) i))
    (cell_at (compute_target_cell_counts kc) (rank (is_child_kept kc) i)));
    [simpl; lia|apply NoDup_kept_child_indices| |by apply kept_child_indices_spec
    |apply lookup_cell_at; lia|apply lookup_cell_at; lia].
  intros j Hj%kept_child_indices_elem%lookup_lt_Some. pose proof (pad_weights_length s). lia.
Qed.

(** ** The earlier solve *)

(** The rectangles of the earlier solve: the earlier counts, laid out as the
    present solve lays out its own. *)
Definition earlier_child_rects (s : SplitNode) (split_rect : Rect) (pane_sizing : PaneSizing)
    : list Rect :=
  let kc := list_kept_children s split_rect pane_sizing in
  (foldl (place_child (is_horizontal s) split_rect (gap_cell_count pane_sizing)
            (compute_earlier_cell_counts kc)) ([], 0, 0%nat) (is_child_kept kc)).1.1.

(** The earlier solve itself. *)
Fixpoint solve_earlier_node (n : LayoutNode) (layout_rect : Rect) (st : LayoutSolveState)
    {struct n} : LayoutSolveState :=
  match n with
  | Pane _ => solve_layout_node n layout_rect st
  | Split s =>
      let place i child child_rect st :=
        if is_empty child_rect then suppress_layout_subtree child st
        else if bool_decide (direction s = Stacked) && negb (i =? get_active_child_index s)%nat
        then emit_stack_header child child_rect i (length (children s)) st
        else solve_earlier_node child child_rect st in
      zip_fold place 0 (children s)
        (if bool_decide (direction s = Stacked)
         then compute_stacked_child_rects s layout_rect (state_pane_sizing st)
         else earlier_child_rects s layout_rect (state_pane_sizing st)) st
  end.

Lemma suppress_same n n' st :
  same_but_deltas n n' -> suppress_layout_subtree n st = suppress_layout_subtree n' st.
Proof. intros H. unfold suppress_layout_subtree. by rewrite (list_leaf_pane_ids_Proper n n' H). Qed.

Lemma header_same n n' r i k st :
  same_but_deltas n n' -> emit_stack_header n r i k st = emit_stack_header n' r i k st.
Proof. intros H. unfold emit_stack_header. by rewrite (list_leaf_pane_ids_Proper n n' H). Qed.

(** Two loops in step over the same rects. *)
Lemma zip_fold_lookup_ext {A B St} (Inv : St -> Prop) (f g : nat -> A -> B -> St -> St) k xs ys bs st :
  length xs = length ys -> Inv st ->
  (forall i x y b st, xs !! i = Some x -> ys !! i = Some y -> bs !! i = Some b -> Inv st ->
     f (k + i)%nat x b st = g (k + i)%nat y b st /\ Inv (f (k + i)%nat x b st)) ->
  zip_fold f k xs bs st = zip_fold g k ys bs st.
Proof.
  revert k ys bs st. induction xs as [|x xs IH]; intros k [|y ys] [|b bs] st Hl Hinv Hstep;
    simplify_eq/=; try done.
  destruct (Hstep 0%nat x y b st) as [E Hinv']; [done..|]. rewrite Nat.add_0_r in E, Hinv'.
  rewrite <- E. apply IH; [done|done|]. intros i x' y' b' st' Hx Hy Hb Hst.
  rewrite Nat.add_succ_comm. by apply (Hstep (S i)).
Qed.

Lemma zip_update_lookup {A B} (f : A -> B -> A) xs ys i x y :
  xs !! i = Some x -> ys !! i = Some y -> zip_update f xs ys !! i = Some (f x y).
Proof.
  revert ys i. induction xs as [|x0 xs IH]; intros [|y0 ys] [|i] Hx Hy; simplify_eq/=; auto.
Qed.

Lemma zip_update_length {A B} (f : A -> B -> A) xs ys : length (zip_update f xs ys) = length xs.
Proof. revert ys. induction xs; intros [|y ys]; simpl; auto. Qed.

Lemma converted_child_rects s r pane_sizing :
  Rect_wf r -> direction s <> Stacked ->
  compute_directional_child_rects (convert_split_resize_deltas s r pane_sizing) r pane_sizing
  = earlier_child_rects s r pane_sizing.
Proof.
  intros Hwf Hd. unfold compute_directional_child_rects, earlier_child_rects.
  destruct (convert_split_counts pane_sizing s r Hwf) as [-> ->].
  unfold is_horizontal. by rewrite (proj1 (convert_split_same s r pane_sizing)).
Qed.

Lemma zip_convert_same s rects pane_sizing :
  Forall2 same_but_deltas
    (zip_update (fun child child_rect => if negb (is_empty child_rect)
       then convert_resize_deltas_at_rect child child_rect pane_sizing else child)
       (children s) rects) (children s).
Proof.
  apply zip_update_Forall2; [done|]. intros c rc _. case_match; [apply convert_at_rect_same|done].
Qed.

(** The present solve of the rewritten tree is the earlier solve of the tree
    it was. *)
Lemma solve_converted n r st :
  Rect_wf r ->
  solve_layout_node (convert_resize_deltas_at_rect n r (state_pane_sizing st)) r st
  = solve_earlier_node n r st.
Proof.
  revert r st. induction n as [p|s IH] using LayoutNode_tree_ind; intros r st Hwf; [done|].
  rewrite Forall_lookup in IH. set (sz := state_pane_sizing st).
  assert (forall s' (cs := children s'),
    length cs = length (children s) -> direction s' = direction s ->
    get_active_child_index s' = get_active_child_index s ->
    child_rects s' r sz = (if bool_decide (direction s = Stacked)
      then compute_stacked_child_rects s r sz else earlier_child_rects s r sz) ->
    (forall i c' c rc, cs !! i = Some c' -> children s !! i = Some c ->
       child_rects s' r sz !! i = Some rc ->
       same_but_deltas c' c /\ (is_empty rc = false ->
         bool_decide (direction s = Stacked) && negb (i =? get_active_child_index s)%nat = false ->
         c' = convert_resize_deltas_at_rect c rc sz)) ->
    solve_layout_node (Split s') r st = solve_earlier_node (Split s) r st) as Hgoal.
  { intros s' cs Hl Hd Ha Hrects Hcs. subst cs. rewrite solve_layout_node_Split. simpl.
    fold sz. rewrite Hrects in *.
    apply (zip_fold_lookup_ext (fun st => state_pane_sizing st = sz)); [done|done|].
    intros i c' c rc st' Hc' Hc Hrc Hst. destruct (Hcs i c' c rc Hc' Hc Hrc) as [Hsame Hconv].
    split; [|rewrite <- Hst; by apply appends_sizing, solve_child_appends].
    unfold solve_child. rewrite Hd, Ha, Hl. simpl. destruct (is_empty rc) eqn:Ee.
    { by apply suppress_same. }
    destruct (_ && _) eqn:Eb; [by apply header_same|].
    rewrite (Hconv eq_refl eq_refl). rewrite <- Hst. eapply IH; [exact Hc|].
    eapply (child_rect_wf sz s' r i); [done| |done]. by rewrite Hrects. }
  cbn [convert_resize_deltas_at_rect].
  destruct (decide (direction s = Stacked)) as [Hst|Hdir].
  - rewrite Hst. destruct (compute_stacked_child_rects s r sz !! get_active_child_index s)
      as [shown|] eqn:Eshown; [destruct (is_empty shown) eqn:Ee|].
    + apply Hgoal; [done..| |].
      * unfold child_rects. by rewrite bool_decide_eq_true_2.
      * intros i c' c rc Hc' Hc Hrc. assert (c' = c) as -> by congruence. split; [reflexivity|].
        intros Hne Hb. exfalso. rewrite bool_decide_eq_true_2 in Hb by done. simpl in Hb. bools.
        subst i. unfold child_rects in Hrc. rewrite bool_decide_eq_true_2 in Hrc by done. congruence.
    + assert (Forall2 same_but_deltas (children s) (map (fun member =>
        convert_resize_deltas_at_rect member shown sz) (children s))) as Hmembers.
      { apply Forall2_fmap_r, Forall_Forall2_diag, Forall_forall. intros c _. simpl. symmetry.
        apply convert_at_rect_same. }
      apply Hgoal; cbn [direction children set_children];
        [by rewrite length_map|done|unfold get_active_child_index; simpl; by rewrite length_map| |].
      * unfold child_rects. cbn [direction set_children]. rewrite bool_decide_eq_true_2 by done.
        symmetry. apply stacked_child_rects_same; [done|symmetry; apply set_children_slots|done].
      * intros i c' c rc Hc' Hc Hrc. change (map ?f (children s)) with (f <$> children s) in Hc'.
        rewrite list_lookup_fmap, Hc in Hc'. injection Hc' as <-.
        split; [apply convert_at_rect_same|]. intros Hne Hb.
        rewrite bool_decide_eq_true_2 in Hb by done. simpl in Hb. bools. subst i.
        unfold child_rects in Hrc. cbn [direction set_children] in Hrc.
        rewrite bool_decide_eq_true_2 in Hrc by done.
        rewrite <- (stacked_child_rects_same s) in Hrc;
          [congruence|done|symmetry; apply set_children_slots|done].
    + apply Hgoal; [done..| |].
      * unfold child_rects. by rewrite bool_decide_eq_true_2.
      * intros i c' c rc Hc' Hc Hrc. assert (c' = c) as -> by congruence. split; [reflexivity|].
        intros Hne Hb. exfalso. rewrite bool_decide_eq_true_2 in Hb by done. simpl in Hb. bools.
        subst i. unfold child_rects in Hrc. rewrite bool_decide_eq_true_2 in Hrc by done. congruence.
  - set (conv := convert_split_resize_deltas s r sz).
    set (rects := compute_directional_child_rects conv r sz).
    set (cs := zip_update _ (children s) rects).
    assert (Forall2 same_but_deltas cs (children s)) as Hcs by apply zip_convert_same.
    assert (rects = earlier_child_rects s r sz) as Hrects by (by apply converted_child_rects).
    assert (child_rects (set_children cs conv) r sz = rects) as Hcr.
    { unfold child_rects. cbn [direction set_children].
      rewrite bool_decide_eq_false_2 by (unfold conv; by rewrite (proj1 (convert_split_same s r sz))).
      apply directional_child_rects_same_below; [|done]. unfold conv. by rewrite convert_split_children. }
    assert (solve_layout_node (Split (set_children cs conv)) r st = solve_earlier_node (Split s) r st)
      as H; [|by destruct (direction s)].
    apply Hgoal; cbn [direction children set_children].
    + unfold cs. by rewrite zip_update_length.
    + apply (proj1 (convert_split_same s r sz)).
    + unfold get_active_child_index. cbn [children active_child_index set_children].
      unfold cs. rewrite zip_update_length. unfold conv.
      by rewrite (proj1 (proj2 (convert_split_same s r sz))).
    + rewrite bool_decide_eq_false_2 by done. congruence.
    + intros i c' c rc Hc' Hc Hrc. rewrite Hcr in Hrc. unfold cs in Hc'.
      rewrite (zip_update_lookup _ _ _ i c rc) in Hc' by done. injection Hc' as <-.
      split; [destruct (negb (is_empty rc)); [apply convert_at_rect_same|reflexivity]|].
      intros -> _. done.
Qed.

(** ** The fold keeps the balance of a split *)

(** The sum of a count over the slots of a split's children. *)
Definition slot_sum (f : SizeWeight -> Z) (s : SplitNode) (n : nat) : Z :=
  foldr (fun i acc => (f (slot_weight s i) + acc)%Z) 0%Z (range n).

Definition total_resize_delta (s : SplitNode) : Z :=
  slot_sum resize_delta s (length (children s)).
Definition total_resize_distance (s : SplitNode) : Z :=
  slot_sum (fun w => Z.abs (resize_delta w)) s (length (children s)).

Lemma slot_sum_S f s n : slot_sum f s (S n) = (slot_sum f s n + f (slot_weight s n))%Z.
Proof.
  unfold slot_sum, range. rewrite seq_S, foldr_app. simpl.
  generalize (f (slot_weight s n)). intros z.
  induction (seq 0 n) as [|i l IH]; simpl; lia.
Qed.

Lemma slot_sum_ext f s s' n :
  (forall i, (i < n)%nat -> f (slot_weight s i) = f (slot_weight s' i)) ->
  slot_sum f s n = slot_sum f s' n.
Proof.
  induction n as [|n IH]; intros H; [done|]. rewrite !slot_sum_S, (H n) by lia.
  rewrite IH; [done|]. intros i Hi. apply H. lia.
Qed.

(** Changing one slot changes the sum by the difference. *)
Lemma slot_sum_change f s s' i n :
  (i < n)%nat -> (forall j, j <> i -> slot_weight s' j = slot_weight s j) ->
  slot_sum f s' n = (slot_sum f s n - f (slot_weight s i) + f (slot_weight s' i))%Z.
Proof.
  intros Hi Hother. induction n as [|n IH]; [lia|]. rewrite !slot_sum_S.
  destruct (decide (i = n)) as [->|Hne].
  - rewrite (slot_sum_ext f s' s n); [lia|]. intros j Hj. rewrite Hother; [done|lia].
  - rewrite (IH ltac:(lia)), (Hother n) by done. lia.
Qed.

Lemma slot_sum_nonneg f s n : (forall w, 0 <= f w)%Z -> (0 <= slot_sum f s n)%Z.
Proof.
  intros Hf. induction n as [|n IH]; [done|]. rewrite slot_sum_S. specialize (Hf (slot_weight s n)). lia.
Qed.

Lemma slot_sum_two f s n i j :
  (forall w, 0 <= f w)%Z -> (i < n)%nat -> (j < n)%nat -> i <> j ->
  (f (slot_weight s i) + f (slot_weight s j) <= slot_sum f s n)%Z.
Proof.
  intros Hf. induction n as [|n IH]; intros Hi Hj Hij; [lia|]. rewrite slot_sum_S.
  assert (forall k, (k < n)%nat -> (f (slot_weight s k) <= slot_sum f s n)%Z) as Hone.
  { clear - Hf. induction n as [|n IH]; intros k Hk; [lia|]. rewrite slot_sum_S.
    destruct (decide (k = n)) as [->|]; [pose proof (slot_sum_nonneg f s n Hf); lia|].
    specialize (IH k ltac:(lia)). specialize (Hf (slot_weight s n)). lia. }
  destruct (decide (i = n)) as [->|]; [specialize (Hone j ltac:(lia)); lia|].
  destruct (decide (j = n)) as [->|]; [specialize (Hone i ltac:(lia)); lia|].
  specialize (IH ltac:(lia) ltac:(lia) Hij). specialize (Hf (slot_weight s n)). lia.
Qed.

Lemma find_fold_receiver_Some s i r :
  find_fold_receiver s i = Some r -> (r < length (children s))%nat /\ r <> i.
Proof.
  unfold find_fold_receiver. intros [Hin Hr]%find_some.
  apply list_elem_of_In, elem_of_range_rev in Hin. apply andb_true_iff in Hr as [Hr _].
  apply negb_true_iff, Nat.eqb_neq in Hr. done.
Qed.

Lemma fold_child_balance s i :
  (i < length (children s))%nat -> (total_resize_distance s <= I32_MAX)%Z ->
  total_resize_delta (fold_child_resize_delta s i) = total_resize_delta s
  /\ (total_resize_distance (fold_child_resize_delta s i) <= total_resize_distance s)%Z.
Proof.
  intros Hi Hbound. unfold fold_child_resize_delta.
  destruct (weights s !! i) as [w|] eqn:Ew; [|done].
  destruct (get_preferred_cell_count w); [|done].
  destruct (find_fold_receiver s i) as [r|] eqn:Er; [|done].
  destruct (find_fold_receiver_Some s i r Er) as [Hr Hne].
  set (padded := if (_ <=? r)%nat then pad_weights s else s).
  assert ((forall j, slot_weight padded j = slot_weight s j)
    /\ (r < length (weights padded))%nat /\ (i < length (weights padded))%nat
    /\ children padded = children s) as (Hps & Hpr & Hpi & Hpc).
  { unfold padded. apply lookup_lt_Some in Ew. case_match; bools.
    - pose proof (pad_weights_length s). split_and!; [apply pad_weights_slots|lia|lia|].
      apply pad_weights_children.
    - split_and!; [done|lia|done|done]. }
  set (emptied := write_resize_delta 0 i padded).
  assert (length (weights emptied) = length (weights padded)) as Hel
    by apply write_resize_delta_length.
  destruct (lookup_lt_is_Some_2 (weights emptied) r ltac:(lia)) as [wr Hwr]. rewrite Hwr.
  assert (slot_weight s i = w) as Hsi by (unfold slot_weight; by rewrite Ew).
  assert (forall j, j <> i -> slot_weight emptied j = slot_weight s j) as Hes.
  { intros j Hj. unfold emptied. rewrite write_resize_delta_slots, decide_False by naive_solver. done. }
  assert (resize_delta (slot_weight emptied i) = 0%Z) as Hei.
  { unfold emptied. rewrite write_resize_delta_slots, decide_True by done. done. }
  assert (wr = slot_weight s r) as ->.
  { rewrite <- Hes by done. unfold slot_weight. by rewrite Hwr. }
  pose proof (slot_sum_two (fun w => Z.abs (resize_delta w)) s (length (children s)) i r
    ltac:(intros; apply Z.abs_nonneg) Hi Hr ltac:(done)) as Htwo.
  unfold total_resize_distance in Hbound. rewrite Hsi in Htwo. cbn beta in Htwo.
  assert (i32_saturating_add (resize_delta (slot_weight s r)) (resize_delta w)
    = (resize_delta (slot_weight s r) + resize_delta w)%Z) as -> by (unfold i32_saturating_add; lia).
  set (final := write_resize_delta _ r emptied).
  assert (forall j, j <> r -> slot_weight final j = slot_weight emptied j) as Hfs.
  { intros j Hj. unfold final. rewrite write_resize_delta_slots, decide_False by naive_solver. done. }
  assert (resize_delta (slot_weight final r)
    = (resize_delta (slot_weight s r) + resize_delta w)%Z) as Hfr.
  { unfold final. rewrite write_resize_delta_slots, decide_True by (split; [done|lia]). done. }
  assert (length (children final) = length (children s)) as Hfc.
  { unfold final, emptied. rewrite !write_resize_delta_children. by rewrite Hpc. }
  unfold total_resize_delta, total_resize_distance. rewrite Hfc.
  rewrite !(slot_sum_change _ emptied final r (length (children s))) by done.
  rewrite !(slot_sum_change _ s emptied i (length (children s))) by done.
  rewrite Hfr, Hei, (Hes r) by done. rewrite Hsi. lia.
Qed.

Lemma fold_split_balance s :
  (total_resize_distance s <= I32_MAX)%Z ->
  total_resize_delta (fold_split_preferred_resize_deltas s) = total_resize_delta s.
Proof.
  intros Hbound. unfold fold_split_preferred_resize_deltas.
  apply (foldl_inv (fun s' => length (children s') = length (children s)
    /\ total_resize_delta s' = total_resize_delta s
    /\ (total_resize_distance s' <= total_resize_distance s)%Z)); [split_and!; [done|done|lia]|].
  intros s' i Hi%elem_of_range (H1 & H2 & H3).
  destruct (fold_child_balance s' i) as [H4 H5]; [lia|lia|].
  split_and!; [by rewrite (proj2 (fold_child_same s' i))|congruence|lia].
Qed.

(** ** The whole conversion *)

Lemma u16_checked_add_Some a b c : u16_checked_add a b = Some c -> c = a + b /\ c <= U16_MAX.
Proof. unfold u16_checked_add. case_match; bools; intros ?; simplify_eq. done. Qed.

Lemma measured_children_wf gap is_horizontal_split measures a c count a' c' count' :
  (forall m n sz n', m ∈ measures -> m n = Some (sz, n') -> Size_wf sz) ->
  is_u16 a -> is_u16 c ->
  forall k, foldl (measure_child gap is_horizontal_split) (Some (a, c, count))
    (imap (fun i m => ((k + i)%nat, m)) measures) = Some (a', c', count') ->
  is_u16 a' /\ is_u16 c'.
Proof.
  revert a c count. induction measures as [|m ms IH]; intros a c count Hms Ha Hc k; csimpl.
  { intros [=]. by subst. }
  assert (forall l, foldl (measure_child gap is_horizontal_split) None l = None) as Hnone.
  { intros l. induction l as [|x l IHl]; [done|]. exact IHl. }
  destruct (m count) as [[sz n]|] eqn:Em; csimpl; [|by rewrite Hnone].
  destruct (Hms m count sz n ltac:(left) Em) as [Hw1 Hw2].
  destruct (split_axis_and_cross_cell_counts (column_count sz) (row_count sz) is_horizontal_split)
    as [ca cc] eqn:Es.
  destruct (u16_checked_add a _) as [g|] eqn:Eg; csimpl; [|by rewrite Hnone].
  destruct (u16_checked_add g ca) as [g'|] eqn:Eg'; csimpl; [|by rewrite Hnone].
  apply u16_checked_add_Some in Eg' as [_ Hg'].
  assert (imap ((fun i m => ((k + i)%nat, m)) ∘ S) ms = imap (fun i m => ((S k + i)%nat, m)) ms) as ->.
  { apply imap_ext. intros i x _. simpl. f_equal. lia. }
  apply IH; [|done|].
  - intros m' n' sz' n'' Hm'. apply Hms. by right.
  - unfold split_axis_and_cross_cell_counts in Es. destruct is_horizontal_split; by simplify_eq.
Qed.

Lemma measured_size_wf sizes gap n count sz count' :
  measure_layout_size sizes gap n count = Some (sz, count') -> Size_wf sz.
Proof.
  revert count sz count'. induction n as [p|s IH] using LayoutNode_tree_ind; intros count sz count'; simpl.
  - destruct (sizes !! p) as [pty|]; simpl; [|done].
    destruct (u16_checked_add (pty_column_count pty) 2) as [c|] eqn:Ec; simpl; [|done].
    destruct (u16_checked_add (pty_row_count pty) 2) as [r|] eqn:Er; simpl; [|done].
    intros [= <- <-]. apply u16_checked_add_Some in Ec as [_ Hc].
    apply u16_checked_add_Some in Er as [_ Hr]. done.
  - rewrite Forall_forall in IH.
    assert (forall m n sz n', m ∈ map (measure_layout_size sizes gap) (children s) ->
      m n = Some (sz, n') -> Size_wf sz) as Hms.
    { intros m k sz' n' (c & -> & Hc)%list_elem_of_fmap Hm. by eapply IH. }
    destruct (direction s).
    1,2: destruct (foldl _ _ _) as [[[a c] k]|] eqn:E; simpl; [|done];
      unfold enumerate in E; apply (measured_children_wf gap _ _ _ _ _ _ _ _ Hms) with (k := 0%nat) in E;
      [|done..]; destruct E as [Ha Hc]; unfold split_axis_and_cross_cell_counts;
      destruct (is_horizontal s); intros [= <- <-]; by split.
    destruct (_ !! _) as [m|] eqn:Em; simpl; [|done].
    destruct (m count) as [[msz mcount]|] eqn:Emc; simpl; [|done].
    destruct (u16_try_from _) as [h|]; simpl; [|done].
    destruct (u16_checked_add _ _) as [r|] eqn:Er; simpl; [|done]. intros [= <- <-].
    apply u16_checked_add_Some in Er as [_ Hr].
    destruct (Hms m count msz mcount ltac:(by eapply list_elem_of_lookup_2) Emc). by split.
Qed.

(** Every pane that shows content shows its carried size. *)
Definition shows_carried_sizes (sizes : gmap PaneId PtySize) (solve : LayoutSolve) : Prop :=
  forall p content_rect, (p, Some content_rect) ∈ list_content_rects solve ->
    exists pty, sizes !! p = Some pty /\ size content_rect = MkSize (pty_column_count pty) (pty_row_count pty).

Lemma count_carried_None sizes l : foldl (count_carried_pane sizes) None l = None.
Proof. induction l as [|e l IH]; [done|exact IH]. Qed.

Lemma count_carried_Some sizes l k m :
  foldl (count_carried_pane sizes) (Some k) l = Some m ->
  m = (k + length (omap snd l))%nat
  /\ forall p rect, (p, Some rect) ∈ l ->
       exists pty, sizes !! p = Some pty /\ size rect = MkSize (pty_column_count pty) (pty_row_count pty).
Proof.
  revert k. induction l as [|[p [rect|]] l IH]; intros k; csimpl.
  - intros [= ->]. split; [lia|]. by intros p rect ?%not_elem_of_nil.
  - case_bool_decide as E; [|by rewrite count_carried_None]. intros H.
    destruct (IH _ H) as [-> Hall]. split; [lia|]. intros q rect' Hin.
    apply elem_of_cons in Hin as [[= -> ->]|Hin]; [|by apply Hall].
    destruct (sizes !! p) as [pty|]; [|done]. exists pty. split; [done|]. by injection E.
  - intros H. destruct (IH _ H) as [-> Hall]. split; [done|]. intros q rect' Hin.
    apply elem_of_cons in Hin as [?|Hin]; [done|by apply Hall].
Qed.

Lemma carried_sizes_preserved tree rect sizes count pane_sizing :
  is_every_carried_pane_size_preserved tree rect sizes count pane_sizing = true ->
  let solve := solve_layout_with_sizing tree rect pane_sizing in
  shows_carried_sizes sizes solve /\ length (omap snd (list_content_rects solve)) = count.
Proof.
  unfold is_every_carried_pane_size_preserved. destruct (foldl _ _ _) as [m|] eqn:E; [|done].
  intros H. bools. subst m. by destruct (count_carried_Some _ _ _ _ E) as [-> Hall].
Qed.

(** The conversion changes resize deltas only, and is kept only when it
    reproduces what was drawn. The result is the tree with other resize deltas.
    It is either the fold of the tree, or the rewrite at the measured rect; in
    the second case the present solve of the result is, to the last rect, the
    earlier solve of the tree, every pane that shows content shows exactly its
    carried size, and as many panes show content as were measured. *)
Theorem conversion_reproduces_drawn_sizes t sizes pane_sizing :
  let converted := convert_resize_deltas_to_apply_after_preferred t sizes pane_sizing in
  same_but_deltas converted t
  /\ (converted = fold_preferred_resize_deltas t
      \/ exists tab_size count,
           measure_layout_size sizes (gap_cell_count pane_sizing) t 0 = Some (tab_size, count)
           /\ let tab_rect := from_size_at_origin tab_size in
              let solve := solve_layout_with_sizing converted tab_rect pane_sizing in
              solve = into_layout_solve (solve_earlier_node t tab_rect (from_pane_sizing pane_sizing))
              /\ shows_carried_sizes sizes solve
              /\ length (omap snd (list_content_rects solve)) = count).
Proof.
  unfold convert_resize_deltas_to_apply_after_preferred.
  destruct (measure_layout_size _ _ _ _) as [[tab_size count]|] eqn:Em;
    [|split; [apply fold_preferred_same|by left]].
  case_match eqn:Ep; (split; [|]); [apply convert_at_rect_same|right|apply fold_preferred_same|by left].
  exists tab_size, count. split; [done|]. destruct (carried_sizes_preserved _ _ _ _ _ Ep) as [H1 H2].
  split_and!; [|done|done]. unfold solve_layout_with_sizing. f_equal.
  apply (solve_converted t (from_size_at_origin tab_size) (from_pane_sizing pane_sizing)).
  destruct (measured_size_wf _ _ _ _ _ _ Em). unfold_rect. simpl. unfold is_u16 in *. lia.
Qed.

(** At any rect the rewritten tree solves now as the tree solved before.
    The earlier solve applied each resize delta before the preferred targets,
    the present one applies it after them; rewriting the deltas at a rect makes
    the present solve at that rect equal to the earlier one, at every level of
    the tree, floors and stacks included. *)
Theorem rewritten_tree_solves_as_before t tab_rect pane_sizing :
  Rect_wf tab_rect ->
  solve_layout_with_sizing (convert_resize_deltas_at_rect t tab_rect pane_sizing) tab_rect pane_sizing
  = into_layout_solve (solve_earlier_node t tab_rect (from_pane_sizing pane_sizing)).
Proof.
  intros Hwf. unfold solve_layout_with_sizing. f_equal.
  exact (solve_converted t tab_rect (from_pane_sizing pane_sizing) Hwf).
Qed.

Lemma rewritten_tree_solves_as_before_witness :
  let r := from_size_at_origin (MkSize 80 24) in
  find_pane_rect (solve_layout_with_sizing preferred_beside_flexible r default_pane_sizing) 1
    = Some (MkRect (MkPoint 0 0) (MkSize 30 24))
  /\ find_pane_rect (solve_layout_with_sizing
       (convert_resize_deltas_at_rect preferred_beside_flexible r default_pane_sizing) r
       default_pane_sizing) 1 = Some (MkRect (MkPoint 0 0) (MkSize 20 24)).
Proof.
  intros r. split; [vm_compute; reflexivity|].
  rewrite (rewritten_tree_solves_as_before preferred_beside_flexible r default_pane_sizing).
  - vm_compute. reflexivity.
  - split; vm_compute; discriminate.
Defined.

(** The fold moves resize deltas between the children of a split and loses
    none. The constraints of every slot stay, and the deltas of the split sum
    to what they summed to, as long as the deltas together stay within the
    range of one of them (otherwise an addition may saturate). *)
Theorem fold_keeps_the_balance s :
  (total_resize_distance s <= I32_MAX)%Z ->
  same_slots (fold_split_preferred_resize_deltas s) s
  /\ children (fold_split_preferred_resize_deltas s) = children s
  /\ total_resize_delta (fold_split_preferred_resize_deltas s) = total_resize_delta s.
Proof.
  intros H. destruct (fold_split_same s) as [H1 H2]. split_and!; [done|done|].
  by apply fold_split_balance.
Qed.

(** The second example of the source: [+5], [+3] and [-8] become [+5], [0]
    and [-5]. *)
Lemma fold_keeps_the_balance_witness :
  let s := MkSplitNode Horizontal [Pane 1; Pane 2; Pane 3]
    [set_resize_delta 5 default_size_weight;
     set_resize_delta 3 (from_primary_constraint (Preferred 20));
     set_resize_delta (-8) default_size_weight] 0 in
  resize_delta <$> weights (fold_split_preferred_resize_deltas s) = [5; 0; -5]%Z
  /\ total_resize_delta (fold_split_preferred_resize_deltas s) = 0%Z.
Proof.
  intros s. split; [vm_compute; reflexivity|].
  destruct (fold_keeps_the_balance s) as (_ & _ & ->).
  - vm_compute. discriminate.
  - vm_compute. reflexivity.
Defined.
