(* ===== verification/Varint.v ===== *)
(** * Unsigned LEB128 varints ([crates/koshi-core/src/varint.rs])

    A byte string is a [list N] of numbers below 256. The writer and the reader
    of 64-bit varints are each other's inverse, and the reader is described on
    every input: which prefix it takes, and which error it gives. *)

From S2P Require Import Prelude.
From stdpp Require Import options.

(** ** Definitions *)

Definition U8_MODULUS : N := 256.
Definition U64_MODULUS : N := 18446744073709551616.
Abbreviation U64_MAX := 18446744073709551615%N (only parsing).

Definition is_byte (b : N) : Prop := b < U8_MODULUS.
Definition is_u64 (x : N) : Prop := x < U64_MODULUS.

(** [x as u8], and [x << k] at [u64]. *)
Definition as_u8 (x : N) : N := x `mod` U8_MODULUS.
Definition u64_shl (x : N) (k : N) : N := N.shiftl x k `mod` U64_MODULUS.

Definition MAX_VARINT_BYTE_COUNT : nat := 10.

Inductive VarintError := VarintTruncated | VarintTooLong.

(** The loop of [write_varint]: each round shifts seven bits out, so a round
    per bit of the value is enough ([write_varint_eq]). *)
Fixpoint write_varint_loop (fuel : nat) (varint_value : N) : list N :=
  match fuel with
  | O => []
  | S fuel =>
      let low_bits := as_u8 (N.land varint_value 127) in
      let varint_value := N.shiftr varint_value 7 in
      if varint_value =? 0 then [low_bits]
      else N.lor low_bits 128 :: write_varint_loop fuel varint_value
  end.

Definition write_varint (varint_value : N) : list N :=
  write_varint_loop (S (N.size_nat varint_value)) varint_value.

(** The loop of [read_long_varint] at byte [byte_index] with the value so far;
    the list is what [iter().take(MAX_VARINT_BYTE_COUNT)] has left. *)
Fixpoint read_long_varint_loop (varint_value : N) (byte_index : nat) (remaining_bytes : list N)
    : VarintError + N * list N :=
  match remaining_bytes with
  | [] => inl VarintTruncated
  | varint_byte :: bytes_after =>
      if (byte_index =? MAX_VARINT_BYTE_COUNT)%nat then inl VarintTruncated
      else
        let low_bits := N.land varint_byte 127 in
        if (byte_index =? MAX_VARINT_BYTE_COUNT - 1)%nat
           && ((1 <? low_bits) || negb (N.land varint_byte 128 =? 0))
        then inl VarintTooLong
        else
          let varint_value := N.lor varint_value (u64_shl low_bits (7 * N.of_nat byte_index)) in
          if N.land varint_byte 128 =? 0 then inr (varint_value, bytes_after)
          else read_long_varint_loop varint_value (S byte_index) bytes_after
  end.

Definition read_long_varint (remaining_bytes : list N) : VarintError + N * list N :=
  read_long_varint_loop 0 0 remaining_bytes.

(** The value read and the bytes after it; an error leaves the bytes as they
    were, which is the caller's list. *)
Definition read_varint (remaining_bytes : list N) : VarintError + N * list N :=
  match remaining_bytes with
  | varint_byte :: bytes_after_varint =>
      if N.land varint_byte 128 =? 0 then inr (varint_byte, bytes_after_varint)
      else read_long_varint remaining_bytes
  | [] => read_long_varint remaining_bytes
  end.

Example varint_5 : write_varint 5 = [5]. Proof. reflexivity. Qed.
Example varint_300 : write_varint 300 = [172; 2]. Proof. reflexivity. Qed.
Example varint_300_read : read_varint [172; 2; 7] = inr (300, [7]).
Proof. vm_compute. reflexivity. Qed.
Example varint_max : length (write_varint U64_MAX) = MAX_VARINT_BYTE_COUNT.
Proof. vm_compute. reflexivity. Qed.

(** ** Bits of a byte *)

Lemma land_127 x : N.land x 127 = x `mod` 128.
Proof. exact (N.land_ones x 7). Qed.

Lemma shiftr_7 x : N.shiftr x 7 = x / 128.
Proof. exact (N.shiftr_div_pow2 x 7). Qed.

Lemma land_128 b : is_byte b -> (N.land b 128 =? 0) = (b <? 128).
Proof.
  unfold is_byte, U8_MODULUS. intros Hb.
  assert (forall n, (n < 256)%nat ->
    (N.land (N.of_nat n) 128 =? 0) = (N.of_nat n <? 128)) as H.
  { intros n Hn. do 256 (destruct n as [|n]; [reflexivity|]). lia. }
  specialize (H (N.to_nat b) ltac:(lia)). by rewrite N2Nat.id in H.
Qed.

Lemma lor_128 x : x < 128 -> N.lor x 128 = x + 128.
Proof.
  intros Hx. assert (forall n, (n < 128)%nat -> N.lor (N.of_nat n) 128 = N.of_nat n + 128) as H.
  { intros n Hn. do 128 (destruct n as [|n]; [reflexivity|]). lia. }
  specialize (H (N.to_nat x) ltac:(lia)). by rewrite N2Nat.id in H.
Qed.

(** Bits below a shift do not carry into it. *)
Lemma lor_shiftl a b k : a < 2 ^ k -> N.lor a (N.shiftl b k) = a + b * 2 ^ k.
Proof.
  intros Ha. rewrite <- N.shiftl_mul_pow2.
  assert (N.land a (N.shiftl b k) = 0) as Hd.
  { apply N.bits_inj_0. intros n. rewrite N.land_spec.
    destruct (N.le_gt_cases k n) as [Hn|Hn].
    - rewrite <- (N.mod_small a (2 ^ k)) by done. by rewrite N.mod_pow2_bits_high.
    - rewrite (N.shiftl_spec_low b k n Hn). apply andb_false_r. }
  by rewrite N.add_nocarry_lxor, N.lxor_lor.
Qed.

(** ** The writer *)

Lemma size_nat_bound x : x < 2 ^ N.of_nat (N.size_nat x).
Proof.
  destruct x as [|p]; [done|]. simpl N.size_nat.
  induction p as [p IH|p IH|]; simpl Pos.size_nat; rewrite ?Nat2N.inj_succ, ?N.pow_succ_r'; lia.
Qed.

Lemma write_loop_fuel f1 f2 v :
  v < 2 ^ N.of_nat f1 -> v < 2 ^ N.of_nat f2 ->
  write_varint_loop (S f1) v = write_varint_loop (S f2) v.
Proof.
  revert f2 v. induction f1 as [|f1 IH]; intros f2 v H1 H2.
  - assert (v = 0) as -> by (simpl in H1; lia). done.
  - cbn [write_varint_loop]. rewrite shiftr_7. destruct (v / 128 =? 0) eqn:E; [done|]. bools.
    f_equal. destruct f2 as [|f2].
    { exfalso. assert (v = 0) as -> by (simpl in H2; lia). by apply E. }
    rewrite Nat2N.inj_succ, N.pow_succ_r' in H1, H2.
    apply IH; apply N.Div0.div_lt_upper_bound; lia.
Qed.

Lemma write_varint_eq v :
  write_varint v
  = if v <? 128 then [v] else v `mod` 128 + 128 :: write_varint (v / 128).
Proof.
  unfold write_varint at 1. cbn [write_varint_loop].
  rewrite shiftr_7, land_127. unfold as_u8, U8_MODULUS.
  pose proof (N.mod_upper_bound v 128 ltac:(lia)) as Hm. rewrite (N.mod_small _ 256) by lia.
  destruct (v <? 128) eqn:E; bools.
  - by rewrite N.div_small, (N.mod_small v) by done.
  - assert (v / 128 <> 0) as Hd.
    { intros Hd. apply N.div_small_iff in Hd; lia. }
    rewrite (proj2 (N.eqb_neq _ _) Hd), lor_128 by done. f_equal. unfold write_varint.
    pose proof (size_nat_bound v) as Hs. pose proof (size_nat_bound (v / 128)) as Hs'.
    destruct (N.size_nat v) as [|n]; [simpl in Hs; lia|].
    apply write_loop_fuel; [|done].
    rewrite Nat2N.inj_succ, N.pow_succ_r' in Hs.
    apply N.Div0.div_lt_upper_bound. lia.
Qed.

Lemma write_varint_ind (P : N -> Prop) :
  (forall v, v < 128 -> P v) -> (forall v, 128 <= v -> P (v / 128) -> P v) -> forall v, P v.
Proof.
  intros Hs Hl v. induction v as [v IH] using (well_founded_induction N.lt_wf_0).
  destruct (N.lt_ge_cases v 128) as [H|H]; [by apply Hs|]. apply Hl; [done|]. apply IH.
  apply N.div_lt; lia.
Qed.

(** The value of seven-bit groups, low group first. *)
Fixpoint varint_groups (bytes : list N) : N :=
  match bytes with
  | [] => 0
  | b :: bytes' => b `mod` 128 + 128 * varint_groups bytes'
  end.

Definition continues (b : N) : Prop := 128 <= b < U8_MODULUS.

(** A written varint is a run of bytes with the high bit set and one without. *)
Lemma write_varint_shape v :
  exists pre b, write_varint v = pre ++ [b] /\ Forall continues pre /\ b < 128
    /\ varint_groups (pre ++ [b]) = v
    /\ (pre = [] \/ b <> 0) /\ (pre <> [] -> 128 ^ N.of_nat (length pre) <= v).
Proof.
  induction v as [v Hv|v Hv (pre & b & H1 & H2 & H3 & H4 & H5 & H6)] using write_varint_ind;
    rewrite write_varint_eq.
  - rewrite (proj2 (N.ltb_lt _ _) Hv). exists [], v. simpl.
    rewrite N.mod_small by done. split_and!; [done|constructor|done|lia|by left|done].
  - rewrite (proj2 (N.ltb_ge _ _) Hv), H1. exists (v `mod` 128 + 128 :: pre), b.
    pose proof (N.mod_upper_bound v 128 ltac:(lia)) as Hm.
    split_and!; [done| |done| | |].
    + constructor; [|done]. unfold continues, U8_MODULUS. revert Hm. generalize (v `mod` 128). lia.
    + simpl. rewrite H4. replace (v `mod` 128 + 128) with (v `mod` 128 + 1 * 128) by lia.
      rewrite N.Div0.mod_add, N.Div0.mod_mod. rewrite (N.div_mod v 128) at 3 by lia. lia.
    + right. destruct H5 as [->|H5]; [|done]. simpl in H4. rewrite N.mod_small in H4 by done.
      intros ->. assert (v / 128 <> 0) by (intros E; apply N.div_small_iff in E; lia). lia.
    + intros _. simpl length. rewrite Nat2N.inj_succ, N.pow_succ_r'.
      transitivity (128 * (v / 128)); [|apply N.Div0.mul_div_le].
      destruct pre as [|c pre]; [|by apply N.mul_le_mono_l, H6].
      simpl length. rewrite N.pow_0_r. assert (1 <= v / 128) by (by apply N.div_le_lower_bound). lia.
Qed.

Lemma write_varint_bytes v : Forall is_byte (write_varint v).
Proof.
  destruct (write_varint_shape v) as (pre & b & -> & H & Hb & _).
  apply Forall_app. split; [|repeat constructor; unfold is_byte, U8_MODULUS; lia].
  eapply Forall_impl; [exact H|]. unfold continues, is_byte. lia.
Qed.

Lemma write_varint_not_nil v : write_varint v <> [].
Proof. destruct (write_varint_shape v) as (pre & b & -> & _). by destruct pre. Qed.

Lemma write_varint_length v : is_u64 v -> (length (write_varint v) <= MAX_VARINT_BYTE_COUNT)%nat.
Proof.
  intros Hv. destruct (write_varint_shape v) as (pre & b & -> & _ & _ & _ & _ & H).
  rewrite length_app. simpl. unfold MAX_VARINT_BYTE_COUNT.
  destruct (decide (length pre <= 9)%nat) as [Hl|Hl]; [lia|]. exfalso.
  assert (128 ^ 10 <= v) as Hbig.
  { transitivity (128 ^ N.of_nat (length pre)); [apply N.pow_le_mono_r; lia|].
    apply H. intros ->. simpl in Hl. lia. }
  unfold is_u64, U64_MODULUS in Hv. change (128 ^ 10) with 1180591620717411303424 in Hbig. lia.
Qed.

(** ** The reader *)

Lemma groups_app pre post :
  varint_groups (pre ++ post)
  = varint_groups pre + 128 ^ N.of_nat (length pre) * varint_groups post.
Proof.
  induction pre as [|b pre IH]; [simpl; lia|].
  cbn [app varint_groups length]. rewrite IH, Nat2N.inj_succ, N.pow_succ_r'. lia.
Qed.

Lemma groups_bound bytes : varint_groups bytes < 128 ^ N.of_nat (length bytes).
Proof.
  induction bytes as [|b bytes IH]; [done|].
  cbn [varint_groups length]. rewrite Nat2N.inj_succ, N.pow_succ_r'.
  pose proof (N.mod_upper_bound b 128 ltac:(lia)). lia.
Qed.

Lemma continues_high b : continues b -> (N.land b 128 =? 0) = false.
Proof. intros [H1 H2]. rewrite land_128 by done. by apply N.ltb_ge. Qed.

Lemma low_byte b : b < 128 -> (N.land b 128 =? 0) = true.
Proof.
  intros H. rewrite land_128 by (unfold is_byte, U8_MODULUS; lia). by apply N.ltb_lt.
Qed.

(** One round of the loop, at any byte but the last that is read. *)
Lemma read_loop_step acc i b bytes :
  (i < 9)%nat -> acc < 128 ^ N.of_nat i ->
  read_long_varint_loop acc i (b :: bytes)
  = let acc' := acc + 128 ^ N.of_nat i * (b `mod` 128) in
    if N.land b 128 =? 0 then inr (acc', bytes) else read_long_varint_loop acc' (S i) bytes.
Proof.
  intros Hi Hacc. cbn [read_long_varint_loop]. unfold MAX_VARINT_BYTE_COUNT.
  rewrite (proj2 (Nat.eqb_neq i 10)), (proj2 (Nat.eqb_neq i (10 - 1))) by lia. cbn [andb].
  rewrite land_127. pose proof (N.mod_upper_bound b 128 ltac:(lia)) as Hm.
  change 128 with (2 ^ 7) in Hacc at 1. rewrite <- N.pow_mul_r in Hacc.
  assert (u64_shl (b `mod` 128) (7 * N.of_nat i) = N.shiftl (b `mod` 128) (7 * N.of_nat i)) as ->.
  { apply N.mod_small. rewrite N.shiftl_mul_pow2.
    apply N.lt_le_trans with (128 * 2 ^ (7 * N.of_nat i)).
    - apply N.mul_lt_mono_pos_r; [|done]. apply N.neq_0_lt_0, N.pow_nonzero. lia.
    - change 128 with (2 ^ 7). rewrite <- N.pow_add_r. change U64_MODULUS with (2 ^ 64).
      apply N.pow_le_mono_r; lia. }
  rewrite lor_shiftl by done. rewrite N.pow_mul_r. change (2 ^ 7) with 128.
  by rewrite (N.mul_comm (b `mod` 128)).
Qed.

Lemma read_loop_last acc b bytes :
  acc < 128 ^ 9 -> is_byte b ->
  read_long_varint_loop acc 9 (b :: bytes)
  = if b <? 2 then inr (acc + 128 ^ 9 * b, bytes) else inl VarintTooLong.
Proof.
  intros Hacc Hb. cbn [read_long_varint_loop]. unfold MAX_VARINT_BYTE_COUNT. cbn [Nat.eqb Nat.sub andb].
  rewrite land_127, land_128 by done. destruct (b <? 2) eqn:E; bools.
  - rewrite (N.mod_small b 128), (proj2 (N.ltb_ge 1 b)), (proj2 (N.ltb_lt b 128)) by lia. cbn [negb orb].
    assert (u64_shl b (7 * N.of_nat 9) = N.shiftl b (7 * N.of_nat 9)) as ->.
    { apply N.mod_small. rewrite N.shiftl_mul_pow2. unfold U64_MODULUS. simpl. lia. }
    rewrite lor_shiftl by done. f_equal. f_equal. change (2 ^ (7 * N.of_nat 9)) with (128 ^ 9). lia.
  - destruct (N.lt_ge_cases b 128) as [H|H].
    + rewrite N.mod_small, (proj2 (N.ltb_lt 1 b)) by lia. done.
    + rewrite (proj2 (N.ltb_ge b 128)) by done. cbn [negb]. by rewrite orb_true_r.
Qed.

Lemma read_loop_run pre bytes acc i :
  Forall continues pre -> (i + length pre <= 9)%nat -> acc < 128 ^ N.of_nat i ->
  read_long_varint_loop acc i (pre ++ bytes)
  = read_long_varint_loop (acc + 128 ^ N.of_nat i * varint_groups pre) (i + length pre) bytes
  /\ acc + 128 ^ N.of_nat i * varint_groups pre < 128 ^ N.of_nat (i + length pre).
Proof.
  revert acc i. induction pre as [|b pre IH]; intros acc i Hpre Hi Hacc.
  - simpl. by rewrite N.mul_0_r, N.add_0_r, Nat.add_0_r.
  - apply Forall_cons in Hpre as [Hb Hpre]. simpl app. simpl length in Hi.
    rewrite read_loop_step, continues_high by (done || lia). cbv zeta.
    pose proof (N.mod_upper_bound b 128 ltac:(lia)) as Hm.
    assert (acc + 128 ^ N.of_nat i * (b `mod` 128) < 128 ^ N.of_nat (S i)) as Hacc'.
    { rewrite Nat2N.inj_succ, N.pow_succ_r'. revert Hm. generalize (b `mod` 128). intros. nia. }
    destruct (IH _ (S i) Hpre ltac:(lia) Hacc') as [-> Hlt]. revert Hlt.
    cbn [varint_groups length]. rewrite <- Nat.add_succ_comm.
    replace (acc + 128 ^ N.of_nat i * (b `mod` 128) + 128 ^ N.of_nat (S i) * varint_groups pre)
      with (acc + 128 ^ N.of_nat i * (b `mod` 128 + 128 * varint_groups pre)); [done|].
    rewrite Nat2N.inj_succ, N.pow_succ_r'. lia.
Qed.

Lemma read_varint_long bytes :
  match bytes with b :: _ => is_byte b | [] => True end ->
  read_varint bytes = read_long_varint_loop 0 0 bytes.
Proof.
  intros Hb. destruct bytes as [|b bytes]; [done|].
  rewrite read_loop_step by (done || lia). unfold read_varint. cbv zeta. rewrite land_128 by done.
  destruct (b <? 128) eqn:E; bools.
  - rewrite (N.mod_small b) by done. simpl N.of_nat. by rewrite N.pow_0_r, N.mul_1_l.
  - unfold read_long_varint. rewrite read_loop_step by (done || lia). cbv zeta.
    by rewrite land_128, (proj2 (N.ltb_ge b 128)).
Qed.

(** The bytes that continue a varint, up to nine of them, and what follows. *)
Lemma continuing_prefix bytes k :
  Forall is_byte bytes ->
  exists pre post, bytes = pre ++ post /\ Forall continues pre /\ (length pre <= k)%nat
    /\ (post = [] \/ exists b rest, post = b :: rest /\ is_byte b /\ (b < 128 \/ length pre = k)).
Proof.
  revert k. induction bytes as [|b bytes IH]; intros k Hb.
  { exists [], []. split_and!; [done|constructor|simpl; lia|by left]. }
  apply Forall_cons in Hb as [Hb Hbs]. destruct (decide (b < 128 \/ k = 0%nat)) as [H|H].
  { exists [], (b :: bytes). split_and!; [done|constructor|simpl; lia|]. right.
    exists b, bytes. destruct H as [H| ->]; eauto. }
  destruct k as [|k]; [tauto|]. destruct (IH k Hbs) as (pre & post & -> & H1 & H2 & H3).
  exists (b :: pre), post. split_and!; [done| |simpl; lia|].
  - constructor; [|done]. unfold continues, is_byte in *. lia.
  - destruct H3 as [H3|(c & rest & -> & Hc & H3)]; [by left|right]. exists c, rest.
    split_and!; [done|done|]. destruct H3; [by left|right; simpl; lia].
Qed.

(** What the reader does on every byte string. *)
Lemma read_varint_spec bytes :
  Forall is_byte bytes ->
  match read_varint bytes with
  | inr (v, rest) =>
      is_u64 v /\ exists pre b, bytes = pre ++ b :: rest /\ Forall continues pre /\ b < 128
        /\ (length pre < MAX_VARINT_BYTE_COUNT)%nat /\ v = varint_groups (pre ++ [b])
  | inl VarintTruncated => Forall continues bytes /\ (length bytes < MAX_VARINT_BYTE_COUNT)%nat
  | inl VarintTooLong =>
      exists pre b rest, bytes = pre ++ b :: rest /\ Forall continues pre /\ 2 <= b
        /\ length pre = (MAX_VARINT_BYTE_COUNT - 1)%nat
  end.
Proof.
  intros Hbytes. rewrite read_varint_long by (destruct Hbytes; done).
  destruct (continuing_prefix bytes 9 Hbytes) as (pre & post & -> & Hpre & Hlen & Hpost).
  destruct (read_loop_run pre post 0 0 Hpre) as [-> Hlt]; [simpl; lia|done|].
  change (0 + length pre)%nat with (length pre) in *. change (128 ^ N.of_nat 0) with 1 in *.
  rewrite N.mul_1_l, N.add_0_l in *.
  destruct Hpost as [->|(b & rest & -> & Hb & Hend)].
  { simpl. rewrite app_nil_r. unfold MAX_VARINT_BYTE_COUNT. split; [done|lia]. }
  destruct (decide (length pre = 9%nat)) as [E|E].
  - rewrite E in *. rewrite read_loop_last by done. destruct (b <? 2) eqn:E2; bools.
    + split.
      * unfold is_u64, U64_MODULUS. change (128 ^ N.of_nat 9) with 9223372036854775808 in Hlt.
        change (128 ^ 9) with 9223372036854775808. lia.
      * exists pre, b. unfold MAX_VARINT_BYTE_COUNT. split_and!; [done|done|lia|lia|].
        rewrite groups_app, E. simpl varint_groups. rewrite (N.mod_small b) by lia.
        change (N.of_nat 9) with 9. lia.
    + exists pre, b, rest. split_and!; [done|done|done|]. rewrite E. done.
  - destruct Hend as [Hend|]; [|done]. rewrite read_loop_step by (done || lia). cbv zeta.
    rewrite low_byte by done. rewrite (N.mod_small b) by done.
    assert (varint_groups pre + 128 ^ N.of_nat (length pre) * b = varint_groups (pre ++ [b])) as ->.
    { rewrite groups_app. simpl. rewrite (N.mod_small b) by done. lia. }
    split.
    + pose proof (groups_bound (pre ++ [b])) as H. rewrite length_app in H. simpl length in H.
      eapply N.lt_le_trans; [exact H|]. transitivity (128 ^ 9); [apply N.pow_le_mono_r; lia|done].
    + exists pre, b. unfold MAX_VARINT_BYTE_COUNT. split_and!; [done|done|done|lia|done].
Qed.

(** A run of seven-bit groups below the limit reads as its value. *)
Lemma read_varint_run pre b rest :
  Forall continues pre -> b < 128 -> is_u64 (varint_groups (pre ++ [b])) ->
  (length pre < MAX_VARINT_BYTE_COUNT)%nat ->
  read_varint (pre ++ b :: rest) = inr (varint_groups (pre ++ [b]), rest).
Proof.
  intros Hpre Hb Hv Hlen. unfold MAX_VARINT_BYTE_COUNT in Hlen.
  rewrite read_varint_long.
  2: { destruct pre as [|c pre]; [unfold is_byte, U8_MODULUS; simpl; lia|].
       by apply Forall_cons in Hpre as [[_ Hc] _]. }
  destruct (read_loop_run pre (b :: rest) 0 0 Hpre) as [-> Hlt]; [simpl; lia|done|].
  change (0 + length pre)%nat with (length pre) in *. change (128 ^ N.of_nat 0) with 1 in *.
  rewrite N.mul_1_l, N.add_0_l in *. rewrite groups_app in *. simpl varint_groups in *.
  rewrite (N.mod_small b), N.mul_0_r, N.add_0_r in * by done.
  destruct (decide (length pre = 9%nat)) as [E|E].
  - rewrite E in *. rewrite read_loop_last; [|done|unfold is_byte, U8_MODULUS; lia].
    unfold is_u64, U64_MODULUS in Hv. change (128 ^ N.of_nat 9) with 9223372036854775808 in *.
    change (128 ^ 9) with 9223372036854775808. rewrite (proj2 (N.ltb_lt b 2)) by lia. done.
  - rewrite read_loop_step by (done || lia). cbv zeta. by rewrite low_byte, (N.mod_small b) by done.
Qed.

Lemma read_write_varint v rest :
  is_u64 v -> read_varint (write_varint v ++ rest) = inr (v, rest).
Proof.
  intros Hv. pose proof (write_varint_length v Hv) as Hlen.
  destruct (write_varint_shape v) as (pre & b & E & Hpre & Hb & Hg & _).
  rewrite E in Hlen |- *. rewrite length_app in Hlen. simpl in Hlen.
  rewrite <- app_assoc, <- Hg. apply read_varint_run; [done..| |lia]. by rewrite Hg.
Qed.

(** A successful read takes at least one byte and at most ten. *)
Lemma read_varint_suffix bytes v rest :
  Forall is_byte bytes -> read_varint bytes = inr (v, rest) ->
  is_u64 v /\ exists taken, bytes = taken ++ rest /\ taken <> []
    /\ (length taken <= MAX_VARINT_BYTE_COUNT)%nat.
Proof.
  intros Hb Hr. pose proof (read_varint_spec bytes Hb) as H. rewrite Hr in H.
  destruct H as (Hv & pre & b & -> & _ & _ & Hlen & _). split; [done|]. exists (pre ++ [b]).
  rewrite <- app_assoc, length_app. simpl. split_and!; [done|by destruct pre|lia].
Qed.

(** No encoding of a value is shorter than the written one. *)
Lemma write_varint_shortest pre b :
  Forall continues pre -> b < 128 ->
  (length (write_varint (varint_groups (pre ++ [b]))) <= length pre + 1)%nat.
Proof.
  intros Hpre Hb. destruct (write_varint_shape (varint_groups (pre ++ [b])))
    as (pre' & b' & -> & _ & _ & _ & _ & H). rewrite length_app. simpl.
  destruct (decide (length pre' <= length pre)%nat) as [|Hl]; [lia|]. exfalso.
  assert (pre' <> []) as Hne by (intros ->; simpl in Hl; lia). specialize (H Hne).
  pose proof (groups_bound (pre ++ [b])) as Hg. rewrite length_app in Hg. simpl length in Hg.
  assert (128 ^ N.of_nat (length pre + 1) <= 128 ^ N.of_nat (length pre')); [|lia].
  apply N.pow_le_mono_r; lia.
Qed.

#[export] Hint Resolve write_varint_bytes : koshi.

(** Varints round-trip, and the reader is exact. A written [u64] is read
    back with whatever follows it, in at most ten bytes and no more than any
    other encoding of the value takes. On any byte string the reader either
    takes a run of at most nine continuing bytes and a final one, whose
    seven-bit groups fit a [u64]; or the string ends inside the varint; or its
    tenth byte goes past the range. *)
Theorem varints_round_trip v rest bytes :
  is_u64 v -> Forall is_byte bytes ->
  read_varint (write_varint v ++ rest) = inr (v, rest)
  /\ (length (write_varint v) <= MAX_VARINT_BYTE_COUNT)%nat
  /\ match read_varint bytes with
     | inr (w, after) =>
         is_u64 w /\ exists taken, bytes = taken ++ after /\ w = varint_groups taken
           /\ (length (write_varint w) <= length taken <= MAX_VARINT_BYTE_COUNT)%nat
     | inl VarintTruncated => Forall continues bytes /\ (length bytes < MAX_VARINT_BYTE_COUNT)%nat
     | inl VarintTooLong =>
         exists pre b after, bytes = pre ++ b :: after /\ Forall continues pre /\ 2 <= b
           /\ length pre = (MAX_VARINT_BYTE_COUNT - 1)%nat
     end.
Proof.
  intros Hv Hb. split_and!; [by apply read_write_varint|by apply write_varint_length|].
  pose proof (read_varint_spec bytes Hb) as H. destruct (read_varint bytes) as [[]|[w after]]; [done..|].
  destruct H as (Hw & pre & b & -> & Hpre & Hlow & Hlen & ->). split; [done|].
  exists (pre ++ [b]). rewrite <- app_assoc. split_and!; [done|done| |].
  - rewrite length_app. by apply write_varint_shortest.
  - rewrite length_app. simpl. lia.
Qed.

Lemma varints_round_trip_witness :
  read_varint (write_varint 300 ++ [7]) = inr (300, [7])
  /\ match read_varint [172; 130; 0] with
     | inr (w, after) => is_u64 w /\ exists taken, [172; 130; 0] = taken ++ after
         /\ w = varint_groups taken
         /\ (length (write_varint w) <= length taken <= MAX_VARINT_BYTE_COUNT)%nat
     | _ => False
     end.
Proof.
  destruct (varints_round_trip 300 [7] [172; 130; 0]) as (H1 & _ & H2).
  - reflexivity.
  - repeat constructor.
  - split; [exact H1|exact H2].
Defined.
