(* ===== verification/Utf8.v ===== *)
(** * Characters and UTF-8

    The parts of Rust's [char] and [str] that the row encoding uses: a [char]
    is a Unicode scalar value, [encode_utf8] writes one, [from_utf8] checks a
    byte string, and [chars] reads the characters of a checked one. The two
    directions are inverse to each other. *)

From S2P Require Import Prelude Varint.
From stdpp Require Import options.

(** ** Definitions *)

(** A [char]. *)
Definition is_scalar (c : N) : Prop := c < 55296 \/ 57344 <= c < 1114112.

Definition is_ascii (c : N) : bool := c <? 128.

(** [char::len_utf8] and [char::encode_utf8]. *)
Definition len_utf8 (c : N) : nat :=
  if c <? 128 then 1%nat else if c <? 2048 then 2%nat else if c <? 65536 then 3%nat else 4%nat.

Definition encode_utf8 (c : N) : list N :=
  if c <? 128 then [c]
  else if c <? 2048 then
    [N.lor (N.shiftr c 6) 192; N.lor (N.land c 63) 128]
  else if c <? 65536 then
    [N.lor (N.shiftr c 12) 224; N.lor (N.land (N.shiftr c 6) 63) 128; N.lor (N.land c 63) 128]
  else
    [N.lor (N.shiftr c 18) 240; N.lor (N.land (N.shiftr c 12) 63) 128;
     N.lor (N.land (N.shiftr c 6) 63) 128; N.lor (N.land c 63) 128].

(** A continuation byte. A [str] is sliced only where no such byte starts. *)
Definition is_continuation_byte (b : N) : bool := (128 <=? b) && (b <? 192).

Definition in_range (low b high : N) : bool := (low <=? b) && (b <=? high).

(** The first character of a byte string and the bytes after it, by the table
    of well-formed UTF-8: [None] when the string is empty or starts with no
    well-formed sequence. *)
Definition utf8_next (bytes : list N) : option (N * list N) :=
  match bytes with
  | [] => None
  | b0 :: bytes1 =>
      if b0 <? 128 then Some (b0, bytes1)
      else
        match bytes1 with
        | b1 :: bytes2 =>
            if in_range 194 b0 223 then
              if is_continuation_byte b1
              then Some (N.lor (N.shiftl (N.land b0 31) 6) (N.land b1 63), bytes2) else None
            else
              match bytes2 with
              | b2 :: bytes3 =>
                  if in_range 224 b0 239 then
                    let low := if b0 =? 224 then 160 else 128 in
                    let high := if b0 =? 237 then 159 else 191 in
                    if in_range low b1 high && is_continuation_byte b2
                    then Some (N.lor (N.shiftl (N.land b0 15) 12)
                           (N.lor (N.shiftl (N.land b1 63) 6) (N.land b2 63)), bytes3)
                    else None
                  else
                    match bytes3 with
                    | b3 :: bytes4 =>
                        let low := if b0 =? 240 then 144 else 128 in
                        let high := if b0 =? 244 then 143 else 191 in
                        if in_range 240 b0 244 && in_range low b1 high
                           && is_continuation_byte b2 && is_continuation_byte b3
                        then Some (N.lor (N.shiftl (N.land b0 7) 18)
                               (N.lor (N.shiftl (N.land b1 63) 12)
                                 (N.lor (N.shiftl (N.land b2 63) 6) (N.land b3 63))), bytes4)
                        else None
                    | [] => None
                    end
              | [] => None
              end
        | [] => None
        end
  end.

(** [std::str::from_utf8], as the characters of the text. Each round takes at
    least one byte. *)
Fixpoint from_utf8_loop (fuel : nat) (bytes : list N) : option (list N) :=
  match bytes, fuel with
  | [], _ => Some []
  | _, O => None
  | _, S fuel => '(c, rest) ← utf8_next bytes; cons c <$> from_utf8_loop fuel rest
  end.

Definition from_utf8 (bytes : list N) : option (list N) := from_utf8_loop (length bytes) bytes.

(** The bytes of a text. *)
Definition utf8_bytes (text : list N) : list N := text ≫= encode_utf8.

Example utf8_e_acute : encode_utf8 233 = [195; 169]. Proof. reflexivity. Qed.
Example utf8_han : encode_utf8 28450 = [230; 188; 162]. Proof. reflexivity. Qed.
Example utf8_emoji : encode_utf8 128512 = [240; 159; 152; 128]. Proof. reflexivity. Qed.
Example utf8_surrogate : from_utf8 [237; 160; 128] = None. Proof. reflexivity. Qed.
Example utf8_overlong : from_utf8 [192; 128] = None. Proof. reflexivity. Qed.
Example utf8_text : from_utf8 [97; 230; 188; 162; 98] = Some [97; 28450; 98].
Proof. vm_compute. reflexivity. Qed.

(** ** Arithmetic of the bit fields *)

Lemma lor_low x high k : x < 2 ^ k -> N.lor x (high * 2 ^ k) = high * 2 ^ k + x.
Proof. intros Hx. rewrite <- N.shiftl_mul_pow2, lor_shiftl, N.shiftl_mul_pow2 by done. apply N.add_comm. Qed.

Lemma lor_high x high k : x < 2 ^ k -> N.lor (N.shiftl high k) x = high * 2 ^ k + x.
Proof. intros Hx. rewrite N.lor_comm, lor_shiftl by done. apply N.add_comm. Qed.

Lemma land_low x k : N.land x (N.ones k) = x `mod` 2 ^ k.
Proof. apply N.land_ones. Qed.

Ltac div_mod := zify; Z.to_euclidean_division_equations; lia.

(** The fields of [encode_utf8], as arithmetic. *)
Lemma encode_utf8_eq c :
  is_scalar c ->
  encode_utf8 c
  = if c <? 128 then [c]
    else if c <? 2048 then [192 + c / 64; 128 + c `mod` 64]
    else if c <? 65536 then [224 + c / 4096; 128 + (c / 64) `mod` 64; 128 + c `mod` 64]
    else [240 + c / 262144; 128 + (c / 4096) `mod` 64; 128 + (c / 64) `mod` 64; 128 + c `mod` 64].
Proof.
  intros Hc. unfold encode_utf8.
  assert (forall x, N.lor (N.land x 63) 128 = 128 + x `mod` 64) as Hcont.
  { intros x. change 63 with (N.ones 6). rewrite land_low. change 128 with (2 * 2 ^ 6) at 1.
    rewrite lor_low; [done|]. apply N.mod_upper_bound. done. }
  rewrite !Hcont, !N.shiftr_div_pow2.
  change (2 ^ 6) with 64. change (2 ^ 12) with 4096. change (2 ^ 18) with 262144.
  destruct (c <? 128) eqn:E1; [done|]. destruct (c <? 2048) eqn:E2; bools.
  { f_equal. change 192 with (6 * 2 ^ 5) at 1. rewrite lor_low; [done|]. unfold is_scalar in Hc. div_mod. }
  destruct (c <? 65536) eqn:E3; bools.
  { f_equal. change 224 with (14 * 2 ^ 4) at 1. rewrite lor_low; [done|]. div_mod. }
  f_equal. change 240 with (30 * 2 ^ 3) at 1. rewrite lor_low; [done|]. unfold is_scalar in Hc. div_mod.
Qed.

Lemma land_field high x k : x < 2 ^ k -> N.land (high * 2 ^ k + x) (N.ones k) = x.
Proof.
  intros Hx. rewrite land_low, N.add_comm, N.Div0.mod_add. by apply N.mod_small.
Qed.

Lemma continuation_field x : x < 64 -> N.land (128 + x) 63 = x.
Proof. exact (land_field 2 x 6). Qed.

Lemma continuation_byte x : x < 64 -> is_continuation_byte (128 + x) = true.
Proof. intros Hx. unfold is_continuation_byte. apply andb_true_iff. split; [apply N.leb_le|apply N.ltb_lt]; lia. Qed.

Lemma continuation_byte_inv b :
  is_continuation_byte b = true -> exists x, x < 64 /\ b = 128 + x.
Proof. unfold is_continuation_byte. intros H. bools. exists (b - 128). lia. Qed.

Lemma in_range_true low b high : in_range low b high = true <-> low <= b <= high.
Proof. unfold in_range. by rewrite andb_true_iff, !N.leb_le. Qed.

Lemma in_range_false low b high : in_range low b high = false <-> b < low \/ high < b.
Proof. unfold in_range. rewrite andb_false_iff, !N.leb_gt. tauto. Qed.

(** The table row by row: what each form of sequence decodes to. *)
Lemma utf8_next_1 b rest : b < 128 -> utf8_next (b :: rest) = Some (b, rest).
Proof. intros Hb. unfold utf8_next. by rewrite (proj2 (N.ltb_lt _ _) Hb). Qed.

Lemma utf8_next_2 q r rest :
  2 <= q < 32 -> r < 64 -> utf8_next (192 + q :: 128 + r :: rest) = Some (q * 64 + r, rest).
Proof.
  intros Hq Hr. unfold utf8_next. rewrite (proj2 (N.ltb_ge (192 + q) 128)) by lia.
  rewrite (proj2 (in_range_true _ _ _)) by lia. rewrite continuation_byte, continuation_field by done.
  change 31 with (N.ones 5). change 192 with (6 * 2 ^ 5) at 1.
  rewrite land_field by (change (2 ^ 5) with 32; lia). by rewrite lor_high.
Qed.

Definition three_ok (a b : N) : Prop :=
  a < 16 /\ b < 64 /\ (a = 0 -> 32 <= b) /\ (a = 13 -> b < 32).

Lemma utf8_next_3 a b r rest :
  three_ok a b -> r < 64 ->
  utf8_next (224 + a :: 128 + b :: 128 + r :: rest) = Some (a * 4096 + (b * 64 + r), rest).
Proof.
  intros (Ha & Hb & H0 & H13) Hr. unfold utf8_next. rewrite (proj2 (N.ltb_ge (224 + a) 128)) by lia.
  rewrite (proj2 (in_range_false 194 _ 223)), (proj2 (in_range_true 224 _ 239)) by lia.
  rewrite (proj2 (in_range_true _ (128 + b) _)).
  2: { destruct (224 + a =? 224) eqn:E1, (224 + a =? 237) eqn:E2; bools; lia. }
  rewrite !continuation_byte, !continuation_field by done. cbn [andb].
  change 15 with (N.ones 4). change 224 with (14 * 2 ^ 4) at 1.
  rewrite land_field by (change (2 ^ 4) with 16; lia).
  rewrite (lor_high r) by done. change (2 ^ 6) with 64. rewrite lor_high; [done|].
  change (2 ^ 12) with 4096. lia.
Qed.

Definition four_ok (a b : N) : Prop :=
  a <= 4 /\ b < 64 /\ (a = 0 -> 16 <= b) /\ (a = 4 -> b < 16).

Lemma utf8_next_4 a b d r rest :
  four_ok a b -> d < 64 -> r < 64 ->
  utf8_next (240 + a :: 128 + b :: 128 + d :: 128 + r :: rest)
  = Some (a * 262144 + (b * 4096 + (d * 64 + r)), rest).
Proof.
  intros (Ha & Hb & H0 & H4) Hd Hr. unfold utf8_next.
  rewrite (proj2 (N.ltb_ge (240 + a) 128)) by lia.
  rewrite (proj2 (in_range_false 194 _ 223)), (proj2 (in_range_false 224 _ 239)) by lia.
  rewrite (proj2 (in_range_true 240 _ 244)) by lia.
  rewrite (proj2 (in_range_true _ (128 + b) _)).
  2: { destruct (240 + a =? 240) eqn:E1, (240 + a =? 244) eqn:E2; bools; lia. }
  rewrite !continuation_byte, !continuation_field by done. cbn [andb].
  change 7 with (N.ones 3). change 240 with (30 * 2 ^ 3) at 1.
  rewrite land_field by (change (2 ^ 3) with 8; lia).
  rewrite (lor_high r) by done. change (2 ^ 6) with 64.
  rewrite (lor_high (d * 64 + r)) by (change (2 ^ 12) with 4096; lia).
  change (2 ^ 12) with 4096. rewrite lor_high; [done|]. change (2 ^ 18) with 262144. lia.
Qed.

(** Every first sequence the table accepts is one of these. *)
Lemma utf8_next_inv bytes c rest :
  utf8_next bytes = Some (c, rest) ->
  (c < 128 /\ bytes = c :: rest)
  \/ (exists q r, 2 <= q < 32 /\ r < 64 /\ bytes = 192 + q :: 128 + r :: rest /\ c = q * 64 + r)
  \/ (exists a b r, three_ok a b /\ r < 64 /\ bytes = 224 + a :: 128 + b :: 128 + r :: rest
        /\ c = a * 4096 + (b * 64 + r))
  \/ (exists a b d r, four_ok a b /\ d < 64 /\ r < 64
        /\ bytes = 240 + a :: 128 + b :: 128 + d :: 128 + r :: rest
        /\ c = a * 262144 + (b * 4096 + (d * 64 + r))).
Proof.
  intros H. assert (H' := H). unfold utf8_next in H'. destruct bytes as [|b0 bytes]; [done|].
  destruct (b0 <? 128) eqn:E0; bools; [left; by simplify_eq|]. right.
  destruct bytes as [|b1 bytes]; [done|]. destruct (in_range 194 b0 223) eqn:E1.
  { destruct (is_continuation_byte b1) eqn:E2; [|done].
    apply continuation_byte_inv in E2 as (r & Hr & ->). apply in_range_true in E1.
    left. exists (b0 - 192), r. replace b0 with (192 + (b0 - 192)) in H |- * by lia.
    rewrite utf8_next_2 in H by lia. simplify_eq. split_and!; lia || done || (repeat f_equal; lia). }
  right. apply in_range_false in E1. destruct bytes as [|b2 bytes]; [done|].
  destruct (in_range 224 b0 239) eqn:E3.
  { destruct (in_range _ b1 _) eqn:E4; [|done]. destruct (is_continuation_byte b2) eqn:E5; [|done].
    apply continuation_byte_inv in E5 as (r & Hr & ->). apply in_range_true in E3, E4.
    left. exists (b0 - 224), (b1 - 128), r.
    assert (three_ok (b0 - 224) (b1 - 128) /\ 128 <= b1) as [Hok Hb1].
    { unfold three_ok. destruct (b0 =? 224) eqn:E6, (b0 =? 237) eqn:E7; bools; lia. }
    replace b0 with (224 + (b0 - 224)) in H by lia. replace b1 with (128 + (b1 - 128)) in H by lia.
    rewrite utf8_next_3 in H by done. simplify_eq. split_and!; try done. repeat f_equal; lia. }
  apply in_range_false in E3. destruct bytes as [|b3 bytes]; [done|].
  destruct (in_range 240 b0 244) eqn:E8; [|done]. destruct (in_range _ b1 _) eqn:E4; [|done].
  destruct (is_continuation_byte b2) eqn:E5; [|done].
  destruct (is_continuation_byte b3) eqn:E9; [|done].
  apply continuation_byte_inv in E5 as (d & Hd & ->), E9 as (r & Hr & ->).
  apply in_range_true in E8, E4. right. exists (b0 - 240), (b1 - 128), d, r.
  assert (four_ok (b0 - 240) (b1 - 128) /\ 128 <= b1) as [Hok Hb1].
  { unfold four_ok. destruct (b0 =? 240) eqn:E6, (b0 =? 244) eqn:E7; bools; lia. }
  replace b0 with (240 + (b0 - 240)) in H by lia. replace b1 with (128 + (b1 - 128)) in H by lia.
  rewrite utf8_next_4 in H by done. simplify_eq. split_and!; try done. repeat f_equal; lia.
Qed.

(** ** One character there and back *)

Lemma utf8_next_encode c rest :
  is_scalar c -> utf8_next (encode_utf8 c ++ rest) = Some (c, rest).
Proof.
  intros Hc. rewrite encode_utf8_eq by done.
  destruct (c <? 128) eqn:E1; bools; [by apply utf8_next_1|]. unfold is_scalar in Hc.
  destruct (c <? 2048) eqn:E2; bools.
  { cbn [app]. rewrite utf8_next_2; [f_equal; f_equal; div_mod|div_mod..]. }
  destruct (c <? 65536) eqn:E3; bools; cbn [app].
  { rewrite utf8_next_3; [f_equal; f_equal; div_mod|unfold three_ok; div_mod|div_mod]. }
  rewrite utf8_next_4; [f_equal; f_equal; div_mod|unfold four_ok; div_mod|div_mod..].
Qed.

Lemma utf8_next_decode bytes c rest :
  utf8_next bytes = Some (c, rest) -> is_scalar c /\ bytes = encode_utf8 c ++ rest.
Proof.
  intros H. assert (is_scalar c) as Hc.
  { apply utf8_next_inv in H
      as [(? & _)|[(q & r & ? & ? & _ & ->)|[(a & b & r & Hok & ? & _ & ->)
         |(a & b & d & r & Hok & ? & ? & _ & ->)]]]; unfold is_scalar, three_ok, four_ok in *; lia. }
  split; [done|]. rewrite encode_utf8_eq by done. apply utf8_next_inv in H
      as [(? & ->)|[(q & r & ? & ? & -> & ->)|[(a & b & r & Hok & ? & -> & ->)
         |(a & b & d & r & Hok & ? & ? & -> & ->)]]].
  - by rewrite (proj2 (N.ltb_lt c 128)).
  - rewrite (proj2 (N.ltb_ge _ 128)), (proj2 (N.ltb_lt _ 2048)) by lia. simpl.
    repeat f_equal; div_mod.
  - unfold three_ok in Hok.
    rewrite (proj2 (N.ltb_ge _ 128)), (proj2 (N.ltb_ge _ 2048)), (proj2 (N.ltb_lt _ 65536)) by lia.
    simpl. repeat f_equal; div_mod.
  - unfold four_ok in Hok.
    rewrite (proj2 (N.ltb_ge _ 128)), (proj2 (N.ltb_ge _ 2048)), (proj2 (N.ltb_ge _ 65536)) by lia.
    simpl. repeat f_equal; div_mod.
Qed.

Lemma encode_utf8_length c : is_scalar c -> length (encode_utf8 c) = len_utf8 c.
Proof. intros Hc. unfold encode_utf8, len_utf8. by repeat case_match. Qed.

Lemma len_utf8_pos c : (0 < len_utf8 c)%nat.
Proof. unfold len_utf8. repeat case_match; lia. Qed.

Lemma encode_utf8_bytes c : is_scalar c -> Forall is_byte (encode_utf8 c).
Proof.
  intros Hc. rewrite encode_utf8_eq by done. unfold is_scalar in Hc. unfold is_byte, U8_MODULUS.
  repeat case_match; bools; repeat constructor; div_mod.
Qed.

Lemma encode_utf8_ascii c : is_ascii c = true -> encode_utf8 c = [c].
Proof. unfold is_ascii, encode_utf8. by intros ->. Qed.

Lemma encode_utf8_cons c : is_scalar c ->
  exists b t, encode_utf8 c = b :: t /\ is_continuation_byte b = false /\ (is_ascii b = is_ascii c).
Proof.
  intros Hc. rewrite encode_utf8_eq by done. unfold is_scalar in Hc.
  unfold is_continuation_byte, is_ascii. repeat case_match; bools; eexists _, _; (split; [done|]).
  - rewrite (proj2 (N.leb_gt 128 c)), (proj2 (N.ltb_lt c 128)) by lia. done.
  - rewrite (proj2 (N.ltb_ge _ 192)), (proj2 (N.ltb_ge _ 128)), andb_false_r by div_mod. done.
  - rewrite (proj2 (N.ltb_ge _ 192)), (proj2 (N.ltb_ge _ 128)), andb_false_r by div_mod. done.
  - rewrite (proj2 (N.ltb_ge _ 192)), (proj2 (N.ltb_ge _ 128)), andb_false_r by div_mod. done.
Qed.

Lemma ascii_scalar c : is_ascii c = true -> is_scalar c.
Proof. unfold is_ascii, is_scalar. intros H. bools. lia. Qed.

(** ** Texts *)

Lemma utf8_bytes_app t u : utf8_bytes (t ++ u) = utf8_bytes t ++ utf8_bytes u.
Proof. apply bind_app. Qed.

Lemma utf8_bytes_cons c t : utf8_bytes (c :: t) = encode_utf8 c ++ utf8_bytes t.
Proof. done. Qed.

Lemma utf8_bytes_bytes t : Forall is_scalar t -> Forall is_byte (utf8_bytes t).
Proof.
  induction 1 as [|c t Hc _ IH]; [constructor|]. rewrite utf8_bytes_cons.
  apply Forall_app. split; [by apply encode_utf8_bytes|done].
Qed.

Lemma utf8_bytes_ascii t : forallb is_ascii t = true -> utf8_bytes t = t.
Proof.
  induction t as [|c t IH]; [done|]. cbn [forallb]. intros H. bools.
  by rewrite utf8_bytes_cons, encode_utf8_ascii, IH.
Qed.

Lemma from_utf8_loop_fuel f1 f2 bytes :
  (length bytes <= f1)%nat -> (length bytes <= f2)%nat ->
  from_utf8_loop f1 bytes = from_utf8_loop f2 bytes.
Proof.
  revert f2 bytes. induction f1 as [|f1 IH]; intros f2 [|b bytes] H1 H2; simpl in H1, H2; try lia.
  - by destruct f2.
  - by destruct f2.
  - destruct f2 as [|f2]; [lia|]. cbn [from_utf8_loop].
    destruct (utf8_next (b :: bytes)) as [[c rest]|] eqn:E; [|done]. simpl. f_equal.
    apply utf8_next_decode in E as [Hc E]. apply (f_equal length) in E.
    rewrite length_app, encode_utf8_length in E by done. pose proof (len_utf8_pos c). simpl in E.
    apply IH; lia.
Qed.

Lemma from_utf8_eq bytes :
  bytes <> [] ->
  from_utf8 bytes = '(c, rest) ← utf8_next bytes; cons c <$> from_utf8 rest.
Proof.
  intros Hne. unfold from_utf8 at 1. destruct bytes as [|b bytes]; [done|].
  cbn [length from_utf8_loop]. destruct (utf8_next (b :: bytes)) as [[c rest]|] eqn:E; [|done].
  simpl. f_equal. apply utf8_next_decode in E as [Hc E]. apply (f_equal length) in E.
  rewrite length_app, encode_utf8_length in E by done. pose proof (len_utf8_pos c). simpl in E.
  apply from_utf8_loop_fuel; lia.
Qed.

(** [from_utf8] reads back what [encode_utf8] wrote. *)
Lemma from_utf8_bytes t : Forall is_scalar t -> from_utf8 (utf8_bytes t) = Some t.
Proof.
  induction 1 as [|c t Hc _ IH]; [done|]. rewrite utf8_bytes_cons, from_utf8_eq.
  - rewrite utf8_next_encode by done. simpl. by rewrite IH.
  - destruct (encode_utf8_cons c Hc) as (b & u & -> & _). done.
Qed.

(** It accepts nothing else. *)
Lemma from_utf8_Some bytes t :
  from_utf8 bytes = Some t -> Forall is_scalar t /\ bytes = utf8_bytes t.
Proof.
  revert bytes. induction t as [|c t IH]; intros [|b bytes] H; [done| |done|];
    rewrite from_utf8_eq in H by done;
    destruct (utf8_next (b :: bytes)) as [[c' rest]|] eqn:E; [|done| |done];
    apply fmap_Some in H as (t' & Ht & [=]).
  subst. destruct (IH rest Ht) as [Hs ->]. apply utf8_next_decode in E as [Hc ->].
  split; [by constructor|done].
Qed.

Lemma from_utf8_ascii bytes : forallb is_ascii bytes = true -> from_utf8 bytes = Some bytes.
Proof.
  intros H. rewrite <- (utf8_bytes_ascii bytes) at 1 by done. apply from_utf8_bytes.
  apply Forall_forall. intros c Hc. apply ascii_scalar.
  rewrite forallb_forall in H. apply H. by apply list_elem_of_In.
Qed.

Lemma utf8_bytes_length_le t : Forall is_scalar t -> (length t <= length (utf8_bytes t))%nat.
Proof.
  induction 1 as [|c t Hc _ IH]; [done|]. rewrite utf8_bytes_cons, length_app, encode_utf8_length by done.
  pose proof (len_utf8_pos c). simpl. lia.
Qed.
