(* ===== verification/Style.v ===== *)
(** * Text styles ([crates/koshi-terminal/src/style.rs])

    Colors, the packed attribute word, and the pen style. *)

From S2P Require Import Prelude Varint.
From stdpp Require Import options.

(** ** Definitions *)

Inductive Color :=
  | DefaultColor
  | Indexed (palette_index : N)
  | Rgb (red green blue : N).

Inductive UnderlineStyle :=
  | NoUnderline | Single | Double | Curly | Dotted | Dashed.

#[export] Instance Color_eq_dec : EqDecision Color.
Proof. solve_decision. Defined.
#[export] Instance UnderlineStyle_eq_dec : EqDecision UnderlineStyle.
Proof. solve_decision. Defined.

(** [AttributeFlags], the packed [u16]. *)
Definition AttributeFlags : Type := N.

Definition BOLD : N := N.shiftl 1 0.
Definition ITALIC : N := N.shiftl 1 1.
Definition REVERSE : N := N.shiftl 1 2.
Definition FAINT : N := N.shiftl 1 3.
Definition BLINK : N := N.shiftl 1 4.
Definition CONCEAL : N := N.shiftl 1 5.
Definition STRIKETHROUGH : N := N.shiftl 1 6.
Definition OVERLINE : N := N.shiftl 1 7.
Definition UNDERLINE_SHIFT : N := 8.
Definition UNDERLINE_MASK : N := N.shiftl 7 UNDERLINE_SHIFT.
Definition DEFINED_MASK : N := 2047.

Definition get_underline_code (s : UnderlineStyle) : N :=
  match s with
  | NoUnderline => 0 | Single => 1 | Double => 2 | Curly => 3 | Dotted => 4 | Dashed => 5
  end.

Definition from_underline_code (underline_code : N) : UnderlineStyle :=
  match underline_code with
  | 1 => Single | 2 => Double | 3 => Curly | 4 => Dotted | 5 => Dashed | _ => NoUnderline
  end.

(** [!mask] at [u16] is only used under [&]: [N.ldiff]. *)
Definition from_attribute_word (attribute_word : N) : AttributeFlags :=
  let attribute_word := N.land attribute_word DEFINED_MASK in
  let underline_code := N.shiftr (N.land attribute_word UNDERLINE_MASK) UNDERLINE_SHIFT in
  if bool_decide (from_underline_code underline_code = NoUnderline)
  then N.ldiff attribute_word UNDERLINE_MASK
  else attribute_word.

Definition has_attribute_bit (flags : AttributeFlags) (attribute_flag_bit : N) : bool :=
  negb (N.land flags attribute_flag_bit =? 0).

Definition set_attribute_bit (flags : AttributeFlags) (attribute_flag_bit : N) (is_enabled : bool)
    : AttributeFlags :=
  if is_enabled then N.lor flags attribute_flag_bit else N.ldiff flags attribute_flag_bit.

Definition set_underline_style (flags : AttributeFlags) (underline_style : UnderlineStyle)
    : AttributeFlags :=
  N.lor (N.ldiff flags UNDERLINE_MASK)
    (N.shiftl (get_underline_code underline_style) UNDERLINE_SHIFT).

Definition get_underline_style (flags : AttributeFlags) : UnderlineStyle :=
  from_underline_code (N.shiftr (N.land flags UNDERLINE_MASK) UNDERLINE_SHIFT).

Definition is_bold (flags : AttributeFlags) : bool := has_attribute_bit flags BOLD.
Definition is_italic (flags : AttributeFlags) : bool := has_attribute_bit flags ITALIC.
Definition is_reverse (flags : AttributeFlags) : bool := has_attribute_bit flags REVERSE.
Definition is_faint (flags : AttributeFlags) : bool := has_attribute_bit flags FAINT.
Definition is_blinking (flags : AttributeFlags) : bool := has_attribute_bit flags BLINK.
Definition is_concealed (flags : AttributeFlags) : bool := has_attribute_bit flags CONCEAL.
Definition is_strikethrough (flags : AttributeFlags) : bool := has_attribute_bit flags STRIKETHROUGH.
Definition is_overlined (flags : AttributeFlags) : bool := has_attribute_bit flags OVERLINE.

Record Style := from_style_parts
  { foreground_color : Color;
    background_color : Color;
    attributes : AttributeFlags;
    underline_color : option Color }.

#[export] Instance Style_eq_dec : EqDecision Style.
Proof. solve_decision. Defined.

Definition default_style : Style := from_style_parts DefaultColor DefaultColor 0 None.

Definition clear_style (_ : Style) : Style := default_style.

Definition set_attributes (a : AttributeFlags) (s : Style) : Style :=
  from_style_parts (foreground_color s) (background_color s) a (underline_color s).

Definition set_bold (is_bold : bool) (s : Style) : Style :=
  set_attributes (set_attribute_bit (attributes s) BOLD is_bold) s.
Definition set_italic (is_italic : bool) (s : Style) : Style :=
  set_attributes (set_attribute_bit (attributes s) ITALIC is_italic) s.
Definition set_underline (underline_style : UnderlineStyle) (s : Style) : Style :=
  set_attributes (set_underline_style (attributes s) underline_style) s.
Definition set_reverse (is_reverse : bool) (s : Style) : Style :=
  set_attributes (set_attribute_bit (attributes s) REVERSE is_reverse) s.
Definition set_faint (is_faint : bool) (s : Style) : Style :=
  set_attributes (set_attribute_bit (attributes s) FAINT is_faint) s.
Definition set_blinking (is_blinking : bool) (s : Style) : Style :=
  set_attributes (set_attribute_bit (attributes s) BLINK is_blinking) s.
Definition set_concealed (is_concealed : bool) (s : Style) : Style :=
  set_attributes (set_attribute_bit (attributes s) CONCEAL is_concealed) s.
Definition set_strikethrough (is_strikethrough : bool) (s : Style) : Style :=
  set_attributes (set_attribute_bit (attributes s) STRIKETHROUGH is_strikethrough) s.
Definition set_overlined (is_overlined : bool) (s : Style) : Style :=
  set_attributes (set_attribute_bit (attributes s) OVERLINE is_overlined) s.

Definition set_background_color (c : Color) (s : Style) : Style :=
  from_style_parts (foreground_color s) c (attributes s) (underline_color s).
Definition set_foreground_color (c : Color) (s : Style) : Style :=
  from_style_parts c (background_color s) (attributes s) (underline_color s).
Definition set_underline_color (c : option Color) (s : Style) : Style :=
  from_style_parts (foreground_color s) (background_color s) (attributes s) c.

Definition get_background_fill_style (s : Style) : Style :=
  set_background_color (background_color s) default_style.

Example bold_italic : attributes (set_italic true (set_bold true default_style)) = 3.
Proof. reflexivity. Qed.
Example underline_strikethrough :
  attributes (set_strikethrough true (set_underline Single default_style)) = 320.
Proof. reflexivity. Qed.
Example spare_bit_dropped : from_attribute_word (N.shiftl 1 15) = 0. Proof. reflexivity. Qed.
Example code_6_dropped : from_attribute_word (N.shiftl 6 8) = 0. Proof. reflexivity. Qed.
Example underlined_bold_kept : from_attribute_word 257 = 257. Proof. reflexivity. Qed.

(** ** Well-formed styles *)

(** The bytes of a color. *)
Definition Color_wf (c : Color) : Prop :=
  match c with
  | DefaultColor => True
  | Indexed palette_index => is_byte palette_index
  | Rgb red green blue => is_byte red /\ is_byte green /\ is_byte blue
  end.

(** The words [from_attribute_word] keeps whole: eleven bits, no unnamed
    underline code. *)
Definition flags_wf (flags : AttributeFlags) : Prop := from_attribute_word flags = flags.

Record Style_wf (s : Style) : Prop :=
  { wf_foreground : Color_wf (foreground_color s);
    wf_background : Color_wf (background_color s);
    wf_attributes : flags_wf (attributes s);
    wf_underline : match underline_color s with Some c => Color_wf c | None => True end }.

(** Every getter of the attribute word. *)
Definition attribute_bits : list N :=
  [BOLD; ITALIC; REVERSE; FAINT; BLINK; CONCEAL; STRIKETHROUGH; OVERLINE].

(** What the getters read. *)
Definition same_attributes (f g : AttributeFlags) : Prop :=
  (forall bit, bit ∈ attribute_bits -> has_attribute_bit f bit = has_attribute_bit g bit)
  /\ get_underline_style f = get_underline_style g.

(** ** Bits of the attribute word *)

Lemma has_attribute_bit_testbit f k : has_attribute_bit f (N.shiftl 1 k) = N.testbit f k.
Proof.
  unfold has_attribute_bit. destruct (N.testbit f k) eqn:E.
  - apply negb_true_iff, N.eqb_neq. intros H. apply (f_equal (fun x => N.testbit x k)) in H.
    rewrite N.land_spec, E, N.shiftl_spec_high', N.sub_diag in H by lia. done.
  - apply negb_false_iff, N.eqb_eq, N.bits_inj_0. intros n. rewrite N.land_spec.
    destruct (decide (n = k)) as [->|Hne]; [by rewrite E|].
    rewrite N.shiftl_1_l, N.pow2_bits_false by done. apply andb_false_r.
Qed.

Lemma attribute_bits_elem bit : bit ∈ attribute_bits -> exists k, k < 8 /\ bit = N.shiftl 1 k.
Proof.
  unfold attribute_bits. intros H. repeat (apply elem_of_cons in H as [->|H];
    [match goal with |- exists k, _ /\ ?b = _ => exists (N.log2 b) end; split; reflexivity|]).
  by apply not_elem_of_nil in H.
Qed.

Lemma attribute_bits_all k : k < 8 -> N.shiftl 1 k ∈ attribute_bits.
Proof.
  intros Hk. assert (k = 0 \/ k = 1 \/ k = 2 \/ k = 3 \/ k = 4 \/ k = 5 \/ k = 6 \/ k = 7)
    as [->|[->|[->|[->|[->|[->|[->| ->]]]]]]] by lia; apply (bool_decide_eq_true_1 _); reflexivity.
Qed.

Lemma set_attribute_bit_spec f k e n :
  N.testbit (set_attribute_bit f (N.shiftl 1 k) e) n
  = if n =? k then e else N.testbit f n.
Proof.
  unfold set_attribute_bit. destruct (n =? k) eqn:E; bools.
  - subst n. destruct e; rewrite ?N.lor_spec, ?N.ldiff_spec, N.shiftl_1_l, N.pow2_bits_true;
      [apply orb_true_r|apply andb_false_r].
  - destruct e; rewrite ?N.lor_spec, ?N.ldiff_spec, N.shiftl_1_l, N.pow2_bits_false by done;
      [apply orb_false_r|apply andb_true_r].
Qed.

Lemma testbit_small x k n : x < 2 ^ k -> k <= n -> N.testbit x n = false.
Proof. intros Hx Hn. rewrite <- (N.mod_small x (2 ^ k)) by done. by apply N.mod_pow2_bits_high. Qed.

Lemma small_of_testbit x k : (forall n, k <= n -> N.testbit x n = false) -> x < 2 ^ k.
Proof.
  intros H. rewrite <- (N.div_small_iff x (2 ^ k)) by (apply N.pow_nonzero; lia).
  rewrite <- N.shiftr_div_pow2. apply N.bits_inj_0. intros n. rewrite N.shiftr_spec'. apply H. lia.
Qed.

(** The underline code is bits 8 to 10. *)
Lemma underline_code_eq f :
  N.shiftr (N.land f UNDERLINE_MASK) UNDERLINE_SHIFT = N.shiftr f 8 `mod` 8.
Proof.
  unfold UNDERLINE_MASK, UNDERLINE_SHIFT. rewrite N.shiftr_land.
  rewrite N.shiftr_shiftl_l, N.sub_diag by lia. exact (N.land_ones (N.shiftr f 8) 3).
Qed.

Lemma underline_code_testbit f g :
  (forall n, 8 <= n < 11 -> N.testbit f n = N.testbit g n) -> get_underline_style f = get_underline_style g.
Proof.
  intros H. unfold get_underline_style. rewrite !underline_code_eq. f_equal.
  apply N.bits_inj. intros n. change 8 with (2 ^ 3) at 2 4. destruct (N.lt_ge_cases n 3) as [Hn|Hn].
  - rewrite !N.mod_pow2_bits_low, !N.shiftr_spec' by done. apply H. lia.
  - by rewrite !N.mod_pow2_bits_high.
Qed.

(** *** Well-formed words, by checking all of them *)

Definition word_is_whole (n : nat) : bool :=
  let f := N.of_nat n in
  (from_attribute_word (from_attribute_word f) =? from_attribute_word f)
  && (from_attribute_word f <=? DEFINED_MASK)
  && (from_attribute_word f
      =? get_underline_code (get_underline_style f) * 256 + f `mod` 256)
  && bool_decide (get_underline_style (from_attribute_word f) = get_underline_style f).

Lemma words_are_whole : forallb word_is_whole (seq 0 2048) = true.
Proof. vm_compute. reflexivity. Qed.

Lemma defined_bits f : N.land f DEFINED_MASK = f `mod` 2 ^ 11.
Proof. exact (N.land_ones f 11). Qed.

Lemma from_attribute_word_mod f : from_attribute_word f = from_attribute_word (f `mod` 2 ^ 11).
Proof. unfold from_attribute_word. by rewrite !defined_bits, N.Div0.mod_mod. Qed.

Lemma underline_style_mod f : get_underline_style f = get_underline_style (f `mod` 2 ^ 11).
Proof. apply underline_code_testbit. intros n Hn. rewrite N.mod_pow2_bits_low; [done|lia]. Qed.

Lemma from_attribute_word_spec f :
  flags_wf (from_attribute_word f)
  /\ from_attribute_word f <= DEFINED_MASK
  /\ from_attribute_word f = get_underline_code (get_underline_style f) * 256 + f `mod` 256
  /\ get_underline_style (from_attribute_word f) = get_underline_style f.
Proof.
  rewrite from_attribute_word_mod, underline_style_mod.
  replace (f `mod` 256) with ((f `mod` (2 ^ 11)) `mod` (2 ^ 8)).
  2: { change (2 ^ 11) with (2 ^ 8 * 8). by rewrite N.Div0.mod_mul_r, N.mul_comm, N.Div0.mod_add, N.Div0.mod_mod. }
  pose proof (N.mod_upper_bound f (2 ^ 11) ltac:(done)) as Hb.
  revert Hb. generalize (f `mod` 2 ^ 11). intros x Hx. change (2 ^ 11) with 2048 in Hx.
  pose proof (proj1 (forallb_forall _ _) words_are_whole (N.to_nat x)) as H.
  unfold word_is_whole in H. rewrite N2Nat.id in H.
  specialize (H ltac:(apply in_seq; lia)). bools. done.
Qed.

Lemma flags_wf_bound f : flags_wf f -> f < 2 ^ 11.
Proof.
  intros H. pose proof (from_attribute_word_spec f) as (_ & Hb & _). rewrite H in Hb.
  unfold DEFINED_MASK in Hb. change (2 ^ 11) with 2048. lia.
Qed.

Lemma flags_wf_eq f :
  flags_wf f -> f = get_underline_code (get_underline_style f) * 256 + f `mod` 256.
Proof. intros H. pose proof (from_attribute_word_spec f) as (_ & _ & E & _). by rewrite H in E. Qed.

(** A word whose underline code names a style, in eleven bits, is whole. *)
Lemma flags_wf_intro f :
  f = get_underline_code (get_underline_style f) * 256 + f `mod` 256 -> flags_wf f.
Proof.
  intros E. unfold flags_wf. pose proof (from_attribute_word_spec f) as (_ & _ & E' & _). congruence.
Qed.

Lemma low_bits_eq f g :
  (forall n, n < 8 -> N.testbit f n = N.testbit g n) -> f `mod` 256 = g `mod` 256.
Proof.
  intros H. apply N.bits_inj. intros n. change 256 with (2 ^ 8). destruct (N.lt_ge_cases n 8) as [Hn|Hn].
  - rewrite !N.mod_pow2_bits_low by done. by apply H.
  - by rewrite !N.mod_pow2_bits_high.
Qed.

Lemma flags_wf_ext f g : flags_wf f -> flags_wf g -> same_attributes f g -> f = g.
Proof.
  intros Hf Hg [Hbits Hu]. rewrite (flags_wf_eq f Hf), (flags_wf_eq g Hg), Hu. f_equal.
  apply low_bits_eq. intros n Hn. rewrite <- !has_attribute_bit_testbit.
  by apply Hbits, attribute_bits_all.
Qed.

Lemma set_attribute_bit_wf f k e :
  k < 8 -> flags_wf f -> flags_wf (set_attribute_bit f (N.shiftl 1 k) e).
Proof.
  intros Hk Hf. set (g := set_attribute_bit f (N.shiftl 1 k) e).
  assert (get_underline_style g = get_underline_style f) as Hu.
  { apply underline_code_testbit. intros n Hn. unfold g. rewrite set_attribute_bit_spec.
    by rewrite (proj2 (N.eqb_neq n k)) by lia. }
  apply flags_wf_intro. rewrite Hu. rewrite (N.div_mod g 256) at 1 by done. f_equal.
  rewrite N.mul_comm. f_equal.
  transitivity (f / 256).
  - rewrite <- !(N.shiftr_div_pow2 _ 8). apply N.bits_inj. intros n. rewrite !N.shiftr_spec'.
    unfold g. rewrite set_attribute_bit_spec. by rewrite (proj2 (N.eqb_neq (n + 8) k)) by lia.
  - rewrite (flags_wf_eq f Hf) at 1. rewrite N.div_add_l by done.
    rewrite N.div_small; [lia|]. by apply N.mod_upper_bound.
Qed.

Lemma set_underline_style_testbit f u n :
  n < 8 -> N.testbit (set_underline_style f u) n = N.testbit f n.
Proof.
  intros Hn. unfold set_underline_style. rewrite N.lor_spec, N.ldiff_spec.
  unfold UNDERLINE_MASK, UNDERLINE_SHIFT. rewrite !N.shiftl_spec_low by done.
  by rewrite andb_true_r, orb_false_r.
Qed.

Lemma set_underline_code_eq f u :
  N.shiftr (set_underline_style f u) 8 `mod` 8 = get_underline_code u.
Proof.
  unfold set_underline_style, UNDERLINE_SHIFT.
  rewrite N.shiftr_lor, N.shiftr_shiftl_l, N.sub_diag by lia. cbn [N.shiftl].
  apply N.bits_inj. intros n. change 8 with (2 ^ 3) at 2. destruct (N.lt_ge_cases n 3) as [Hn|Hn].
  - rewrite N.mod_pow2_bits_low, N.lor_spec, N.shiftr_spec', N.ldiff_spec by done.
    assert (N.testbit UNDERLINE_MASK (n + 8) = true) as ->.
    { assert (n = 0 \/ n = 1 \/ n = 2) as [->|[->| ->]] by lia; reflexivity. }
    by rewrite andb_false_r, N.shiftl_0_r.
  - rewrite N.mod_pow2_bits_high by done. symmetry. apply (testbit_small _ 3); [by destruct u|done].
Qed.

Lemma set_underline_style_get f u : get_underline_style (set_underline_style f u) = u.
Proof. unfold get_underline_style. rewrite underline_code_eq, set_underline_code_eq. by destruct u. Qed.

Lemma set_underline_style_wf f u : flags_wf f -> flags_wf (set_underline_style f u).
Proof.
  intros Hf. apply flags_wf_intro. rewrite set_underline_style_get.
  set (g := set_underline_style f u). rewrite (N.div_mod g 256) at 1 by done. f_equal.
  rewrite N.mul_comm. f_equal. apply flags_wf_bound in Hf.
  assert (g < 2 ^ 11) as Hg.
  { apply small_of_testbit. intros n Hn. unfold g, set_underline_style.
    rewrite N.lor_spec, N.ldiff_spec, (testbit_small f 11) by done. cbn [andb orb].
    apply (testbit_small _ 11); [by destruct u|done]. }
  change 256 with (2 ^ 8). rewrite <- N.shiftr_div_pow2.
  assert (N.shiftr g 8 = N.shiftr g 8 `mod` 8) as E.
  { symmetry. apply N.mod_small. rewrite N.shiftr_div_pow2. apply N.Div0.div_lt_upper_bound.
    exact Hg. }
  rewrite E. first [apply set_underline_code_eq|symmetry; apply set_underline_code_eq].
Qed.

Lemma flags_wf_0 : flags_wf 0.
Proof. reflexivity. Qed.

Lemma default_style_wf : Style_wf default_style.
Proof. by split. Qed.

#[export] Hint Resolve flags_wf_0 default_style_wf set_underline_style_wf : koshi.

(** Each text attribute is set and read on its own. In a whole attribute
    word, setting one of the eight boolean attributes changes what that getter
    reads and no other, the underline style included; setting the underline
    style changes what its getter reads and no boolean attribute. The word
    stays whole, a word read from storage is made whole without changing what
    any getter reads, and two whole words that every getter reads alike are
    equal. *)
Theorem attributes_are_independent f g bit is_enabled u :
  flags_wf f -> flags_wf g -> bit ∈ attribute_bits ->
  (let f' := set_attribute_bit f bit is_enabled in
   flags_wf f' /\ has_attribute_bit f' bit = is_enabled
   /\ (forall other, other ∈ attribute_bits -> other <> bit ->
         has_attribute_bit f' other = has_attribute_bit f other)
   /\ get_underline_style f' = get_underline_style f)
  /\ (let f' := set_underline_style f u in
      flags_wf f' /\ get_underline_style f' = u
      /\ forall other, other ∈ attribute_bits ->
           has_attribute_bit f' other = has_attribute_bit f other)
  /\ (forall word, flags_wf (from_attribute_word word)
        /\ same_attributes (from_attribute_word word) word)
  /\ (same_attributes f g -> f = g).
Proof.
  intros Hf Hg (k & Hk & ->)%attribute_bits_elem. split_and!.
  - split_and!.
    + by apply set_attribute_bit_wf.
    + by rewrite has_attribute_bit_testbit, set_attribute_bit_spec, N.eqb_refl.
    + intros other (j & Hj & ->)%attribute_bits_elem Hne.
      rewrite !has_attribute_bit_testbit, set_attribute_bit_spec.
      rewrite (proj2 (N.eqb_neq j k)); [done|]. by intros ->.
    + apply underline_code_testbit. intros n Hn. rewrite set_attribute_bit_spec.
      by rewrite (proj2 (N.eqb_neq n k)) by lia.
  - split_and!; [by apply set_underline_style_wf|apply set_underline_style_get|].
    intros other (j & Hj & ->)%attribute_bits_elem.
    by rewrite !has_attribute_bit_testbit, set_underline_style_testbit.
  - intros word. destruct (from_attribute_word_spec word) as (H1 & _ & H2 & H3).
    split; [done|]. split; [|done]. intros other (j & Hj & ->)%attribute_bits_elem.
    rewrite !has_attribute_bit_testbit, H2, N.add_comm.
    change 256 with (2 ^ 8). rewrite <- (N.mod_pow2_bits_low _ 8) by done.
    rewrite N.Div0.mod_add, N.Div0.mod_mod. by apply N.mod_pow2_bits_low.
  - by apply flags_wf_ext.
Qed.

Lemma attributes_are_independent_witness :
  has_attribute_bit (set_attribute_bit 257 ITALIC true) BOLD = true
  /\ get_underline_style (set_underline_style 257 Curly) = Curly.
Proof.
  destruct (attributes_are_independent 257 257 ITALIC true Curly) as ((_ & _ & H1 & _) & (_ & H2 & _) & _).
  - reflexivity.
  - reflexivity.
  - apply (bool_decide_eq_true_1 _). reflexivity.
  - split; [|exact H2]. rewrite H1; [reflexivity|apply (bool_decide_eq_true_1 _); reflexivity|discriminate].
Defined.
