(* ===== verification/Cell.v ===== *)
(** * Terminal cells (the cell part of [crates/koshi-terminal/src/grid/state.rs])

    One grid cell: its base character and width, its style, and the rare data
    behind one pointer: continuation code points, a Kitty placeholder and
    native image fragments. *)

From S2P Require Import Prelude Varint Utf8 Style.
From stdpp Require Import options.

(** ** Definitions *)

Definition MAX_GRAPHEME_CONTINUATION_COUNT : nat := 32.

Record ImageCellFragment := MkImageCellFragment
  { image_source_id : N; source_row_index : N; source_column_index : N }.

#[export] Instance ImageCellFragment_eq_dec : EqDecision ImageCellFragment.
Proof. solve_decision. Defined.

Inductive ImageFragments :=
  | NoFragment
  | OneFragment (fragment : ImageCellFragment)
  | ManyFragments (fragments : list ImageCellFragment).

#[export] Instance ImageFragments_eq_dec : EqDecision ImageFragments.
Proof. solve_decision. Defined.

Definition has_no_fragment (fragments : ImageFragments) : bool :=
  match fragments with NoFragment => true | _ => false end.

Definition get_fragment_slice (fragments : ImageFragments) : list ImageCellFragment :=
  match fragments with
  | NoFragment => []
  | OneFragment fragment => [fragment]
  | ManyFragments fragments => fragments
  end.

Definition same_source (fragment existing : ImageCellFragment) : bool :=
  image_source_id existing =? image_source_id fragment.

(** The replacement and whether there was one. *)
Definition replace_fragment_by_image_source_id (fragments : ImageFragments)
    (fragment : ImageCellFragment) : bool * ImageFragments :=
  match fragments with
  | OneFragment existing =>
      if same_source fragment existing then (true, OneFragment fragment) else (false, fragments)
  | ManyFragments existing_fragments =>
      match position (same_source fragment) existing_fragments with
      | Some i => (true, ManyFragments (<[i := fragment]> existing_fragments))
      | None => (false, fragments)
      end
  | NoFragment => (false, fragments)
  end.

Definition append_image_fragment (fragments : ImageFragments) (fragment : ImageCellFragment)
    : ImageFragments :=
  match fragments with
  | NoFragment => OneFragment fragment
  | OneFragment existing => ManyFragments [existing; fragment]
  | ManyFragments fragments => ManyFragments (fragments ++ [fragment])
  end.

Record ImagePlaceholder := MkImagePlaceholder
  { image_id : N;
    placement_id : option N;
    source_row : option N;
    source_column : option N;
    image_id_msb : option N }.

#[export] Instance ImagePlaceholder_eq_dec : EqDecision ImagePlaceholder.
Proof. solve_decision. Defined.

Definition get_color_value (color : Color) : option N :=
  match color with
  | DefaultColor => None
  | Indexed color_index => Some color_index
  | Rgb red green blue => Some (N.lor (N.lor (N.shiftl red 16) (N.shiftl green 8)) blue)
  end.

Definition from_placeholder_style (s : Style) : ImagePlaceholder :=
  MkImagePlaceholder (default 0 (get_color_value (foreground_color s)))
    (placement_color_value ← underline_color s ≫= get_color_value;
     if negb (placement_color_value =? 0) then Some placement_color_value else None)
    None None None.

Record CellExtra := MkCellExtra
  { combining : list N;
    image_placeholder : option ImagePlaceholder;
    image_fragments : ImageFragments }.

#[export] Instance CellExtra_eq_dec : EqDecision CellExtra.
Proof. solve_decision. Defined.

Definition default_extra : CellExtra := MkCellExtra [] None NoFragment.

Definition has_image_data (extra : CellExtra) : bool :=
  bool_decide (is_Some (image_placeholder extra)) || negb (has_no_fragment (image_fragments extra)).

Record Cell := MkCell
  { character : N;
    cell_extra : option CellExtra;
    display_width : N;
    cell_style : Style }.

#[export] Instance Cell_eq_dec : EqDecision Cell.
Proof. solve_decision. Defined.

(** A space is character 32. *)
Definition build_blank_with_style (s : Style) : Cell := MkCell 32 None 1 s.
Definition build_blank : Cell := build_blank_with_style default_style.
Definition from_character (character display_width : N) (s : Style) : Cell :=
  MkCell character None display_width s.

Definition list_combining_characters (c : Cell) : list N :=
  match cell_extra c with Some extra => combining extra | None => [] end.

Definition get_image_cell_extra (c : Cell) : option CellExtra :=
  extra ← cell_extra c; if has_image_data extra then Some extra else None.

Definition set_cell_extra (extra : CellExtra) (c : Cell) : Cell :=
  MkCell (character c) (Some extra) (display_width c) (cell_style c).

Definition get_image_fragments (c : Cell) : list ImageCellFragment :=
  match cell_extra c with Some extra => get_fragment_slice (image_fragments extra) | None => [] end.

Definition set_fragments (fragments : ImageFragments) (extra : CellExtra) : CellExtra :=
  MkCellExtra (combining extra) (image_placeholder extra) fragments.

Definition set_image_fragment (fragment : ImageCellFragment) (should_overlay : bool) (c : Cell) : Cell :=
  let append c :=
    let extra := default default_extra (cell_extra c) in
    set_cell_extra (set_fragments (append_image_fragment (image_fragments extra) fragment) extra) c in
  if negb should_overlay then append (build_blank_with_style (cell_style c))
  else
    match cell_extra c with
    | Some extra =>
        match replace_fragment_by_image_source_id (image_fragments extra) fragment with
        | (true, fragments) => set_cell_extra (set_fragments fragments extra) c
        | (false, _) => append c
        end
    | None => append c
    end.

Definition clear_image_fragments (c : Cell) : Cell :=
  match cell_extra c with
  | Some extra =>
      let extra := set_fragments NoFragment extra in
      if bool_decide (combining extra = []) && bool_decide (image_placeholder extra = None)
      then MkCell (character c) None (display_width c) (cell_style c)
      else set_cell_extra extra c
  | None => c
  end.

Definition get_image_placeholder (c : Cell) : option ImagePlaceholder :=
  extra ← cell_extra c; image_placeholder extra.

Definition has_image_placeholder (c : Cell) : bool := bool_decide (is_Some (get_image_placeholder c)).

Definition set_placeholder (placeholder : ImagePlaceholder) (extra : CellExtra) : CellExtra :=
  MkCellExtra (combining extra) (Some placeholder) (image_fragments extra).

Definition set_image_placeholder (placeholder : ImagePlaceholder) (c : Cell) : Cell :=
  MkCell 32 (Some (set_placeholder placeholder (default default_extra (cell_extra c))))
    (display_width c) (cell_style c).

Definition IMAGE_PLACEHOLDER_DIACRITICS : list N :=
  [773; 781; 782; 784; 786; 829; 830; 831; 838; 842; 843; 844;
   848; 849; 850; 855; 859; 867; 868; 869; 870; 871; 872; 873;
   874; 875; 876; 877; 878; 879; 1155; 1156; 1157; 1158; 1159; 1426;
   1427; 1428; 1429; 1431; 1432; 1433; 1436; 1437; 1438; 1439; 1440; 1441;
   1448; 1449; 1451; 1452; 1455; 1476; 1552; 1553; 1554; 1555; 1556; 1557;
   1558; 1559; 1623; 1624; 1625; 1626; 1627; 1629; 1630; 1750; 1751; 1752;
   1753; 1754; 1755; 1756; 1759; 1760; 1761; 1762; 1764; 1767; 1768; 1771;
   1772; 1840; 1842; 1843; 1845; 1846; 1850; 1853; 1855; 1856; 1857; 1859;
   1861; 1863; 1865; 1866; 2027; 2028; 2029; 2030; 2031; 2032; 2033; 2035;
   2070; 2071; 2072; 2073; 2075; 2076; 2077; 2078; 2079; 2080; 2081; 2082;
   2083; 2085; 2086; 2087; 2089; 2090; 2091; 2092; 2093; 2385; 2387; 2388;
   3970; 3971; 3974; 3975; 4957; 4958; 4959; 6109; 6458; 6679; 6773; 6774;
   6775; 6776; 6777; 6778; 6779; 6780; 7019; 7021; 7022; 7023; 7024; 7025;
   7026; 7027; 7376; 7377; 7378; 7386; 7387; 7392; 7616; 7617; 7619; 7620;
   7621; 7622; 7623; 7624; 7625; 7627; 7628; 7633; 7634; 7635; 7636; 7637;
   7638; 7639; 7640; 7641; 7642; 7643; 7644; 7645; 7646; 7647; 7648; 7649;
   7650; 7651; 7652; 7653; 7654; 7678; 8400; 8401; 8404; 8405; 8406; 8407;
   8411; 8412; 8417; 8423; 8425; 8432; 11503; 11504; 11505; 11744; 11745; 11746;
   11747; 11748; 11749; 11750; 11751; 11752; 11753; 11754; 11755; 11756; 11757; 11758;
   11759; 11760; 11761; 11762; 11763; 11764; 11765; 11766; 11767; 11768; 11769; 11770;
   11771; 11772; 11773; 11774; 11775; 42607; 42620; 42621; 42736; 42737; 43232; 43233;
   43234; 43235; 43236; 43237].

Definition find_image_placeholder_diacritic_index (mark : N) : option N :=
  diacritic_index ← position (N.eqb mark) IMAGE_PLACEHOLDER_DIACRITICS;
  u16_try_from (N.of_nat diacritic_index).

(** The first empty slot of row, column and high byte takes the index; the high
    byte only when it fits a byte. *)
Definition add_diacritic_index (diacritic_index : N) (p : ImagePlaceholder) : ImagePlaceholder :=
  match source_row p, source_column p, image_id_msb p with
  | None, _, _ =>
      MkImagePlaceholder (image_id p) (placement_id p) (Some diacritic_index) (source_column p) (image_id_msb p)
  | Some _, None, _ =>
      MkImagePlaceholder (image_id p) (placement_id p) (source_row p) (Some diacritic_index) (image_id_msb p)
  | Some _, Some _, None =>
      MkImagePlaceholder (image_id p) (placement_id p) (source_row p) (source_column p)
        (if diacritic_index <=? U8_MAX then Some diacritic_index else None)
  | Some _, Some _, Some _ => p
  end.

Definition set_image_placeholder_diacritic (placeholder_diacritic : N) (c : Cell) : bool * Cell :=
  match cell_extra c with
  | None => (false, c)
  | Some extra =>
      match image_placeholder extra, find_image_placeholder_diacritic_index placeholder_diacritic with
      | Some placeholder, Some diacritic_index =>
          (true, set_cell_extra (set_placeholder (add_diacritic_index diacritic_index placeholder) extra) c)
      | _, _ => (false, c)
      end
  end.

Definition push_combining (mark : N) (c : Cell) : Cell :=
  let extra := default default_extra (cell_extra c) in
  set_cell_extra (MkCellExtra (combining extra ++ [mark]) (image_placeholder extra) (image_fragments extra)) c.

Inductive RowEnd := Hard | Soft | SoftWide.

#[export] Instance RowEnd_eq_dec : EqDecision RowEnd.
Proof. solve_decision. Defined.

Record RowMetadata := MkRowMetadata { row_end : RowEnd; has_prompt_mark : bool }.

#[export] Instance RowMetadata_eq_dec : EqDecision RowMetadata.
Proof. solve_decision. Defined.

(** [iter().rposition(f)], from the end of the list. *)
Definition rposition {A} (f : A -> bool) (l : list A) : option nat :=
  (fun i => (length l - 1 - i)%nat) <$> position f (reverse l).

Definition count_row_content_cells (row_cells : list Cell) : nat :=
  match rposition (fun c => bool_decide (c <> build_blank)) row_cells with
  | Some content_cell_index => S content_cell_index
  | None => 0%nat
  end.

Example content_of_padded_row :
  count_row_content_cells [from_character 97 1 default_style; build_blank; build_blank] = 1%nat.
Proof. vm_compute. reflexivity. Qed.

(** ** Trailing blanks *)

(** The cells past the content are default blanks, and the last content cell is
    not one. *)
Lemma count_row_content_cells_spec row_cells :
  let n := count_row_content_cells row_cells in
  (n <= length row_cells)%nat
  /\ drop n row_cells = replicate (length row_cells - n) build_blank
  /\ (forall c, n <> 0%nat -> row_cells !! (n - 1)%nat = Some c -> c <> build_blank).
Proof.
  unfold count_row_content_cells, rposition.
  destruct (position _ (reverse row_cells)) as [i|] eqn:E; simpl.
  - apply position_Some in E as (c & Hc & Hf & Hall). bools.
    pose proof (lookup_lt_Some _ _ _ Hc) as Hi. rewrite length_reverse in Hi.
    assert (S (length row_cells - 1 - i) = length row_cells - i)%nat as -> by lia.
    split_and!; [lia| |].
    + apply list_eq. intros j. rewrite lookup_drop.
      destruct (decide (j < i)%nat) as [Hj|Hj].
      * rewrite lookup_replicate_2 by lia.
        destruct (lookup_lt_is_Some_2 row_cells (length row_cells - i + j)%nat ltac:(lia)) as [d Hd].
        rewrite Hd. f_equal. specialize (Hall (i - 1 - j)%nat d ltac:(lia)).
        rewrite reverse_lookup in Hall by lia.
        replace (length row_cells - S (i - 1 - j))%nat with (length row_cells - i + j)%nat in Hall by lia.
        specialize (Hall Hd). apply bool_decide_eq_false in Hall.
        by destruct (decide (d = build_blank)).
      * rewrite !lookup_ge_None_2; [done|rewrite length_replicate; lia|lia].
    + intros d _ Hd. rewrite reverse_lookup in Hc by lia.
      replace (length row_cells - 1 - i - 0)%nat with (length row_cells - S i)%nat in Hd by lia.
      rewrite Hd in Hc. by simplify_eq.
  - split_and!; [lia| |done]. rewrite drop_0, Nat.sub_0_r.
    rewrite position_None in E. apply list_eq. intros j.
    destruct (decide (j < length row_cells)%nat) as [Hj|Hj].
    + rewrite lookup_replicate_2 by done. destruct (lookup_lt_is_Some_2 row_cells j Hj) as [d Hd].
      rewrite Hd. f_equal. apply list_elem_of_lookup_2 in Hd.
      specialize (E d ltac:(by rewrite elem_of_reverse)). apply bool_decide_eq_false in E.
      by destruct (decide (d = build_blank)).
    + rewrite !lookup_ge_None_2; [done|rewrite length_replicate; lia|lia].
Qed.

Lemma row_content_split row_cells :
  let n := count_row_content_cells row_cells in
  row_cells = take n row_cells ++ replicate (length row_cells - n) build_blank.
Proof.
  intros n. destruct (count_row_content_cells_spec row_cells) as (_ & H & _).
  fold n in H. rewrite <- H. by rewrite take_drop.
Qed.

(** Default blanks after the row add nothing to its content. *)
Lemma count_row_content_cells_padded row_cells k :
  count_row_content_cells (row_cells ++ replicate k build_blank) = count_row_content_cells row_cells.
Proof.
  induction k as [|k IH]; [by rewrite app_nil_r|].
  rewrite replicate_S_end, app_assoc. rewrite <- IH.
  generalize (row_cells ++ replicate k build_blank). intros l.
  unfold count_row_content_cells, rposition. rewrite reverse_snoc. cbn [position].
  rewrite bool_decide_eq_false_2 by tauto. rewrite length_app. cbn [length].
  destruct (position _ (reverse l)) as [i|] eqn:E; simpl; [|done].
  apply position_lt in E. rewrite length_reverse in E. lia.
Qed.

(** ** Diacritics *)

Lemma diacritics_distinct : NoDup IMAGE_PLACEHOLDER_DIACRITICS.
Proof. apply (bool_decide_eq_true_1 _). vm_compute. reflexivity. Qed.

Lemma diacritic_index_lookup mark i :
  find_image_placeholder_diacritic_index mark = Some i
  <-> IMAGE_PLACEHOLDER_DIACRITICS !! N.to_nat i = Some mark.
Proof.
  unfold find_image_placeholder_diacritic_index.
  assert (length IMAGE_PLACEHOLDER_DIACRITICS = 256%nat) as Hlen by reflexivity.
  pose proof diacritics_distinct as Hnd. revert Hlen Hnd.
  generalize IMAGE_PLACEHOLDER_DIACRITICS. intros table Hlen Hnd. split.
  - destruct (position _ table) as [j|] eqn:E; [|done]. simpl.
    apply position_Some in E as (c & Hc & Hf & _). bools. subst c.
    unfold u16_try_from. case_match; intros [= <-]. by rewrite Nat2N.id.
  - intros H. assert (position (N.eqb mark) table = Some (N.to_nat i)) as ->.
    { apply position_Some. exists mark. split_and!; [done|apply N.eqb_refl|].
      intros j c Hj Hc. apply N.eqb_neq. intros ->. pose proof (NoDup_lookup _ _ _ _ Hnd Hc H). lia. }
    simpl. apply lookup_lt_Some in H. unfold u16_try_from. rewrite N2Nat.id.
    rewrite (proj2 (N.leb_le i U16_MAX)) by lia. done.
Qed.
