(* ===== verification/RowEncoder.v ===== *)
(** * The row encoder (the writing half of
    [crates/koshi-terminal/src/row_encoding.rs])

    One terminal row as a compact byte string: a header, a table of the styles
    the row uses, and the runs of cells in one style. The work buffers of the
    source are the fields of the states threaded here. A [usize] index or count
    is a [nat]. *)

From S2P Require Import Prelude Varint Utf8 Style Cell.
From stdpp Require Import options.

(** ** Definitions *)

Definition ROW_END_HARD_CODE : N := 0.
Definition ROW_END_SOFT_CODE : N := 1.
Definition ROW_END_SOFT_WIDE_CODE : N := 2.
Definition COLOR_DEFAULT_KIND : N := 0.
Definition COLOR_INDEXED_KIND : N := 1.
Definition COLOR_RGB_KIND : N := 2.
Definition WIDE_PAIR_EXCEPTION_KIND : N := 0.
Definition WIDTH_EXCEPTION_KIND : N := 1.
Definition COMBINING_EXCEPTION_KIND : N := 2.
Definition REPEAT_EXCEPTION_KIND : N := 3.
Definition MIN_REPEATED_ITEM_COUNT : nat := 4.
Definition MAX_LINEAR_STYLE_SEARCH_COUNT : nat := 32.

(** *** The style table *)

Definition compute_color_key (c : Color) : N :=
  match c with
  | DefaultColor => 0
  | Indexed palette_index => N.lor 16777216 palette_index
  | Rgb red green blue =>
      N.lor (N.lor (N.lor 33554432 (N.shiftl red 16)) (N.shiftl green 8)) blue
  end.

Definition compute_style_key (s : Style) : N :=
  let underline_color_key :=
    match underline_color s with
    | Some underline_color => 1 + compute_color_key underline_color
    | None => 0
    end in
  N.lor
    (N.lor
      (N.lor (compute_color_key (foreground_color s))
         (N.shiftl (compute_color_key (background_color s)) 32))
      (N.shiftl (attributes s) 64))
    (N.shiftl underline_color_key 80).

Record RowStyleTable := MkRowStyleTable
  { styles : list Style;
    style_keys : list N;
    style_index_by_key : gmap N nat }.

Definition empty_style_table : RowStyleTable := MkRowStyleTable [] [] ∅.

Definition find_or_add_style (s : Style) (table : RowStyleTable) : nat * RowStyleTable :=
  let style_key := compute_style_key s in
  let found_style_index :=
    if (length (style_keys table) <=? MAX_LINEAR_STYLE_SEARCH_COUNT)%nat
    then position (N.eqb style_key) (style_keys table)
    else style_index_by_key table !! style_key in
  match found_style_index with
  | Some style_index => (style_index, table)
  | None =>
      let style_index := length (styles table) in
      let style_keys := style_keys table ++ [style_key] in
      let style_index_by_key :=
        if (length style_keys =? MAX_LINEAR_STYLE_SEARCH_COUNT + 1)%nat
        then foldl (fun m entry => <[entry.2 := entry.1]> m) (style_index_by_key table)
               (enumerate style_keys)
        else if (MAX_LINEAR_STYLE_SEARCH_COUNT + 1 <? length style_keys)%nat
        then <[style_key := style_index]> (style_index_by_key table)
        else style_index_by_key table in
      (style_index, MkRowStyleTable (styles table ++ [s]) style_keys style_index_by_key)
  end.

(** *** Cells as items *)

Definition list_encoded_combining_characters (c : Cell) : list N :=
  if has_image_placeholder c then [] else list_combining_characters c.

Definition is_plain_narrow_cell (c : Cell) : bool :=
  (display_width c =? 1) && bool_decide (list_encoded_combining_characters c = []).

Definition is_standard_continuation_cell (c : Cell) : bool :=
  (display_width c =? 0) && (character c =? 32)
  && bool_decide (list_encoded_combining_characters c = []).

Definition is_cell_encoding_equal (first_cell second_cell : Cell) : bool :=
  (character first_cell =? character second_cell)
  && (display_width first_cell =? display_width second_cell)
  && bool_decide (list_encoded_combining_characters first_cell
                  = list_encoded_combining_characters second_cell).

Definition is_item_encoding_equal (first_item_cells second_item_cells : list Cell) : bool :=
  forallb (fun cells : Cell * Cell => is_cell_encoding_equal cells.1 cells.2)
    (zip first_item_cells second_item_cells).

Definition count_utf8_bytes (characters : list N) : nat := sum_list (len_utf8 <$> characters).

(** [&cells[from..to]]. *)
Definition slice {A} (from to : nat) (cells : list A) : list A := take (to - from) (drop from cells).

(** *** One run *)

(** The buffers of [encode_run]. *)
Record RunState := MkRunState
  { item_index : nat;
    previous_exception_item_index : nat;
    run_text : list N;
    run_exceptions : list N;
    exception_count : N;
    text_byte_count : nat }.

Definition empty_run_state : RunState := MkRunState 0 0 [] [] 0 0.

Definition push_text (bytes : list N) (st : RunState) : RunState :=
  MkRunState (item_index st) (previous_exception_item_index st) (run_text st ++ bytes)
    (run_exceptions st) (exception_count st) (text_byte_count st).

Definition advance_items (count : nat) (st : RunState) : RunState :=
  MkRunState (item_index st + count) (previous_exception_item_index st) (run_text st)
    (run_exceptions st) (exception_count st) (text_byte_count st).

Definition add_text_byte_count (count : nat) (st : RunState) : RunState :=
  MkRunState (item_index st) (previous_exception_item_index st) (run_text st)
    (run_exceptions st) (exception_count st) (text_byte_count st + count).

(** [write_exception_header], the exception's payload, and [exception_count += 1].
    Exceptions are written in rising item order, so the distance does not wrap. *)
Definition write_exception (exception_item_index : nat) (exception_kind : N) (payload : list N)
    (st : RunState) : RunState :=
  MkRunState (item_index st) exception_item_index (run_text st)
    (run_exceptions st
     ++ write_varint (N.of_nat (exception_item_index - previous_exception_item_index st))
     ++ write_varint exception_kind ++ payload)
    (exception_count st + 1) (text_byte_count st).

Definition push_ascii_cell_text (ascii_cells : list Cell) (st : RunState) : RunState :=
  push_text ((fun c => as_u8 (character c)) <$> ascii_cells) st.

Definition write_repeated_ascii_group (ascii_cells : list Cell) (group_start_index : nat)
    (st : RunState) : RunState :=
  let st := push_ascii_cell_text (take (S group_start_index) ascii_cells) st in
  let group_item_index := (item_index st + group_start_index)%nat in
  let st :=
    write_exception group_item_index REPEAT_EXCEPTION_KIND
      (write_varint (N.of_nat (length ascii_cells - group_start_index - 1))) st in
  advance_items (S group_start_index) st.

(** The locals of the scan over plain narrow ASCII cells. *)
Record AsciiScan := MkAsciiScan
  { scan_cell_index : nat;
    unwritten_cell_index : nat;
    group_start_index : nat;
    group_character : N }.

(** The write of a finished group, when it is long enough to be one item. *)
Definition finish_group (run_cells : list Cell) (scan : AsciiScan) (st : RunState)
    : option RunState :=
  if (MIN_REPEATED_ITEM_COUNT <=? scan_cell_index scan - group_start_index scan)%nat
  then
    Some (write_repeated_ascii_group
      (slice (unwritten_cell_index scan) (scan_cell_index scan) run_cells)
      (group_start_index scan - unwritten_cell_index scan) st)
  else None.

(** [cells] is [run_cells] from [scan_cell_index] on. *)
Fixpoint scan_ascii_cells (is_plain_ascii_run : bool) (run_cells cells : list Cell)
    (scan : AsciiScan) (st : RunState) : AsciiScan * RunState :=
  match cells with
  | [] => (scan, st)
  | ascii_cell :: following_cells =>
      let ascii_character := character ascii_cell in
      if negb is_plain_ascii_run
         && (negb (is_ascii ascii_character) || negb (is_plain_narrow_cell ascii_cell))
      then (scan, st)
      else
        let '(scan, st) :=
          if negb (ascii_character =? group_character scan) then
            let '(unwritten, st) :=
              match finish_group run_cells scan st with
              | Some st => (scan_cell_index scan, st)
              | None => (unwritten_cell_index scan, st)
              end in
            (MkAsciiScan (scan_cell_index scan) unwritten (scan_cell_index scan) ascii_character, st)
          else (scan, st) in
        scan_ascii_cells is_plain_ascii_run run_cells following_cells
          (MkAsciiScan (S (scan_cell_index scan)) (unwritten_cell_index scan)
             (group_start_index scan) (group_character scan)) st
  end.

(** The text written once the scan has stopped past at least one cell. *)
Definition finish_ascii_cells (run_cells : list Cell) (scan : AsciiScan) (st : RunState) : RunState :=
  match finish_group run_cells scan st with
  | Some st => st
  | None =>
      advance_items (scan_cell_index scan - unwritten_cell_index scan)
        (push_ascii_cell_text
           (slice (unwritten_cell_index scan) (scan_cell_index scan) run_cells) st)
  end.

(** The [while] over the items equal to the one at [cell_index]; each round
    passes over a cell at least. *)
Fixpoint count_repeated_items (fuel : nat) (run_cells : list Cell) (cell_index item_cell_count : nat)
    (repeat_item_count : nat) : nat :=
  match fuel with
  | O => repeat_item_count
  | S fuel =>
      let item_cells := slice cell_index (cell_index + item_cell_count) run_cells in
      let following_item_cells :=
        take item_cell_count (drop (cell_index + repeat_item_count * item_cell_count) run_cells) in
      if (length following_item_cells =? item_cell_count)%nat
         && is_item_encoding_equal item_cells following_item_cells
      then count_repeated_items fuel run_cells cell_index item_cell_count (S repeat_item_count)
      else repeat_item_count
  end.

(** One item that is no plain ASCII cell: the cell index after it. *)
Definition encode_item (run_cells : list Cell) (cell_index : nat) (base_cell : Cell)
    (st : RunState) : nat * RunState :=
  let is_wide_pair :=
    (display_width base_cell =? 2)
    && match run_cells !! S cell_index with
       | Some next_cell => is_standard_continuation_cell next_cell
       | None => false
       end in
  let item_cell_count := if is_wide_pair then 2%nat else 1%nat in
  let repeat_item_count :=
    count_repeated_items (length run_cells) run_cells cell_index item_cell_count 1 in
  let repeat_item_count :=
    if (repeat_item_count <? MIN_REPEATED_ITEM_COUNT)%nat then 1%nat else repeat_item_count in
  let base_character := character base_cell in
  let st := push_text (encode_utf8 base_character) st in
  let combining_characters := list_encoded_combining_characters base_cell in
  let combining_byte_count := count_utf8_bytes combining_characters in
  let st :=
    if negb (display_width base_cell =? 0)
    then add_text_byte_count ((len_utf8 base_character + combining_byte_count) * repeat_item_count) st
    else st in
  let st :=
    if is_wide_pair then write_exception (item_index st) WIDE_PAIR_EXCEPTION_KIND [] st
    else if negb (display_width base_cell =? 1)
    then write_exception (item_index st) WIDTH_EXCEPTION_KIND
           (write_varint (display_width base_cell)) st
    else st in
  let st :=
    if negb (bool_decide (combining_characters = []))
    then write_exception (item_index st) COMBINING_EXCEPTION_KIND
           (write_varint (N.of_nat combining_byte_count) ++ utf8_bytes combining_characters) st
    else st in
  let st :=
    if (1 <? repeat_item_count)%nat
    then write_exception (item_index st) REPEAT_EXCEPTION_KIND
           (write_varint (N.of_nat (repeat_item_count - 1))) st
    else st in
  ((cell_index + item_cell_count * repeat_item_count)%nat, advance_items 1 st).

(** The outer loop: each round passes over a cell at least. *)
Fixpoint encode_items (fuel : nat) (is_plain_ascii_run : bool) (run_cells : list Cell)
    (cell_index : nat) (st : RunState) : nat * RunState :=
  match fuel, run_cells !! cell_index with
  | S fuel, Some base_cell =>
      let '(scan, st) :=
        scan_ascii_cells is_plain_ascii_run run_cells (drop cell_index run_cells)
          (MkAsciiScan cell_index cell_index cell_index 0) st in
      if (cell_index <? scan_cell_index scan)%nat then
        let st := finish_ascii_cells run_cells scan st in
        encode_items fuel is_plain_ascii_run run_cells (scan_cell_index scan)
          (add_text_byte_count (scan_cell_index scan - cell_index) st)
      else
        let '(cell_index, st) := encode_item run_cells cell_index base_cell st in
        encode_items fuel is_plain_ascii_run run_cells cell_index st
  | _, _ => (cell_index, st)
  end.

(** The bytes of the run and its text byte count. *)
Definition encode_run (run_cells : list Cell) (style_index : nat) (is_plain_ascii_run : bool)
    : list N * nat :=
  let '(cell_index, st) :=
    encode_items (length run_cells) is_plain_ascii_run run_cells 0 empty_run_state in
  (write_varint (N.of_nat style_index) ++ write_varint (N.of_nat cell_index)
   ++ write_varint (N.of_nat (length (run_text st))) ++ run_text st
   ++ write_varint (exception_count st) ++ run_exceptions st,
   text_byte_count st).

(** *** A row *)

Definition write_color (c : Color) : list N :=
  match c with
  | DefaultColor => write_varint COLOR_DEFAULT_KIND
  | Indexed palette_index => write_varint COLOR_INDEXED_KIND ++ [palette_index]
  | Rgb red green blue => write_varint COLOR_RGB_KIND ++ [red; green; blue]
  end.

(** The fields first, then their count in the byte left for it. *)
Definition write_style_entry (s : Style) : list N :=
  let fields :=
    write_color (foreground_color s) ++ write_color (background_color s)
    ++ write_varint (attributes s)
    ++ match underline_color s with
       | None => write_varint 0
       | Some underline_color => write_varint 1 ++ write_color underline_color
       end in
  as_u8 (N.of_nat (length fields)) :: fields.

Definition compute_row_end_code (e : RowEnd) : N :=
  match e with
  | Hard => ROW_END_HARD_CODE
  | Soft => ROW_END_SOFT_CODE
  | SoftWide => ROW_END_SOFT_WIDE_CODE
  end.

Fixpoint compute_varint_byte_count_loop (fuel : nat) (remaining_value : N) (varint_byte_count : nat)
    : nat :=
  match fuel with
  | O => varint_byte_count
  | S fuel =>
      if remaining_value =? 0 then varint_byte_count
      else compute_varint_byte_count_loop fuel (N.shiftr remaining_value 7) (S varint_byte_count)
  end.

Definition compute_varint_byte_count (varint_value : N) : nat :=
  compute_varint_byte_count_loop (S (N.size_nat varint_value)) (N.shiftr varint_value 7) 1.

(** What the loop over the runs threads. *)
Record RowState := MkRowState
  { row_style_table : RowStyleTable;
    run_bytes : list N;
    run_count : N;
    row_text_byte_count : nat }.

(** The loop over the runs, [following_cells] being the content from
    [run_start_index] on; a run holds a cell at least. *)
Fixpoint encode_runs (fuel : nat) (is_plain_row : bool) (following_cells : list Cell) (st : RowState)
    : RowState :=
  match fuel, following_cells with
  | S fuel, first_cell :: _ =>
      let run_style := cell_style first_cell in
      let run_cell_count :=
        if is_plain_row then length following_cells
        else default (length following_cells)
               (position (fun c => bool_decide (cell_style c <> run_style)) following_cells) in
      let '(style_index, table) := find_or_add_style run_style (row_style_table st) in
      let '(bytes, count) := encode_run (take run_cell_count following_cells) style_index is_plain_row in
      encode_runs fuel is_plain_row (drop run_cell_count following_cells)
        (MkRowState table (run_bytes st ++ bytes) (run_count st + 1) (row_text_byte_count st + count))
  | _, _ => st
  end.

Definition encode_row_cells_with_buffers (row_cells : list Cell) (column_count : N)
    (is_plain_row : bool) (e : RowEnd) : list N * nat :=
  let content_cell_count := count_row_content_cells row_cells in
  let trailing_blank_count := (N.to_nat column_count - content_cell_count)%nat in
  let content_cells := take content_cell_count row_cells in
  let st :=
    encode_runs (length content_cells) is_plain_row content_cells
      (MkRowState empty_style_table [] 0
         (if bool_decide (e = Hard) then 0%nat else trailing_blank_count)) in
  let head_bytes :=
    write_varint column_count ++ write_varint (compute_row_end_code e)
    ++ write_varint (N.of_nat trailing_blank_count)
    ++ write_varint (N.of_nat (length (styles (row_style_table st))))
    ++ (styles (row_style_table st) ≫= write_style_entry)
    ++ write_varint (run_count st) in
  let body_byte_count := (length head_bytes + length (run_bytes st))%nat in
  (write_varint (N.of_nat body_byte_count) ++ head_bytes ++ run_bytes st, row_text_byte_count st).

(** [None] is the panic of the [assert!]. *)
Definition encode_padded_row_cells (row_cells : list Cell) (column_count : N)
    (plain_row_style : option Style) (e : RowEnd) : option (list N * nat) :=
  if (length row_cells <=? N.to_nat column_count)%nat
  then Some (encode_row_cells_with_buffers row_cells column_count
               (bool_decide (is_Some plain_row_style)) e)
  else None.

Definition encode_row_cells (row_cells : list Cell) (e : RowEnd) : option (list N * nat) :=
  column_count ← u16_try_from (N.of_nat (length row_cells));
  encode_padded_row_cells row_cells column_count None e.

Definition compute_text_byte_count (row_cells : list Cell) (e : RowEnd) : nat :=
  let retained_cell_count :=
    if bool_decide (e = Hard) then count_row_content_cells row_cells else length row_cells in
  sum_list
    ((fun c => (len_utf8 (character c) + count_utf8_bytes (list_encoded_combining_characters c))%nat)
       <$> filter (fun c => display_width c <> 0) (take retained_cell_count row_cells)).

(** The example of the module's documentation: [ab] and two blanks. *)
Definition example_row : list Cell :=
  [from_character 97 1 default_style; from_character 98 1 default_style; build_blank; build_blank].

Example example_row_encoded :
  encode_row_cells example_row Hard
  = Some ([16; 4; 0; 2; 1; 4; 0; 0; 0; 0; 1; 0; 2; 2; 97; 98; 0], 2%nat).
Proof. vm_compute. reflexivity. Qed.

(** [ab----]: the group is one item with a repeat exception. *)
Example repeated_group_encoded :
  (encode_run ((fun c => from_character c 1 default_style) <$> [97; 98; 45; 45; 45; 45]) 0 false).1
  = [0; 6; 3; 97; 98; 45; 1; 2; 3; 3].
Proof. vm_compute. reflexivity. Qed.
