(* ===== verification/RowDecoder.v ===== *)
(** * The row decoder (the reading half of
    [crates/koshi-terminal/src/row_encoding.rs])

    Reads an encoded row back, with an error for every way a byte string can
    fail to be one. A reader is a function of the bytes that are left; its
    [panicked] outcome stands for an index or a slice out of range and for a
    loop that does not end, and [decoding_is_total] shows it is never taken. *)

From S2P Require Import Prelude Varint Utf8 Style Cell RowEncoder.
From stdpp Require Import strings options.
#[local] Open Scope N_scope.

(** ** Definitions *)

Inductive RowDecodeError :=
  | Truncated
  | VarintTooLong
  | BodyPastEnd (body_byte_count : N) (available_byte_count : nat)
  | TrailingBytes (trailing_byte_count : nat)
  | ValueOutOfRange (field_name : string) (decoded_value : N)
  | UnknownRowEnd (row_end_code : N)
  | UnknownColorKind (color_kind : N)
  | StyleEntryPastEnd
  | StyleIndexOutOfTable (style_index : N) (style_count : nat)
  | InvalidUtf8
  | WidthTooLarge (width : N)
  | UnknownExceptionKind (exception_kind : N)
  | ExceptionOutOfOrder
  | ExceptionPastRun
  | TooManyCombiningCharacters (combining_count : nat)
  | CellCountMismatch (column_count : N) (cell_count : N).

Definition decoding (A : Type) : Type := outcome RowDecodeError A.

(** [ByteReader]: a step over the bytes that remain. *)
Definition reader (A : Type) : Type := list N -> decoding (A * list N).

Definition read_ret {A} (a : A) : reader A := fun bytes => ok (a, bytes).
Definition read_fail {A} (e : RowDecodeError) : reader A := fun _ => failed e.
Definition lift_decoding {A} (m : decoding A) : reader A := fun bytes =>
  a ← m; ok (a, bytes).

#[export] Instance reader_bind : MBind reader := fun A B f m bytes =>
  mbind (M := outcome RowDecodeError) (fun r : A * list N => f r.1 r.2) (m bytes).

(** [self.remaining_bytes.len()]. *)
Definition read_remaining_byte_count : reader N := fun bytes => ok (N.of_nat (length bytes), bytes).

Definition reader_read_varint : reader N := fun bytes =>
  match read_varint bytes with
  | inr r => ok r
  | inl VarintTruncated => failed Truncated
  | inl Varint.VarintTooLong => failed VarintTooLong
  end.

Definition read_bounded_varint (field_name : string) (maximum_value : N) : reader N :=
  decoded_value ← reader_read_varint;
  if maximum_value <? decoded_value then read_fail (ValueOutOfRange field_name decoded_value)
  else read_ret decoded_value.

Record EncodedRowShape := MkEncodedRowShape
  { shape_column_count : N; shape_row_end : RowEnd; shape_trailing_blank_count : N }.

Definition read_row_end : reader RowEnd :=
  row_end_code ← reader_read_varint;
  if row_end_code =? ROW_END_HARD_CODE then read_ret Hard
  else if row_end_code =? ROW_END_SOFT_CODE then read_ret Soft
  else if row_end_code =? ROW_END_SOFT_WIDE_CODE then read_ret SoftWide
  else read_fail (UnknownRowEnd row_end_code).

Definition read_row_header : reader EncodedRowShape :=
  _ ← reader_read_varint;
  column_count ← read_bounded_varint "column_count" U16_MAX;
  e ← read_row_end;
  trailing_blank_count ← read_bounded_varint "trailing_blank_count" column_count;
  read_ret (MkEncodedRowShape column_count e trailing_blank_count).

(** [split_at_checked]. A [u64] fits a [usize]. *)
Definition read_bytes (byte_count : N) : reader (list N) := fun bytes =>
  if byte_count <=? N.of_nat (length bytes)
  then ok (take (N.to_nat byte_count) bytes, drop (N.to_nat byte_count) bytes)
  else failed Truncated.

Definition read_byte : reader N :=
  bytes ← read_bytes 1; lift_decoding (expect (bytes !! 0%nat)).

Definition read_color : reader Color :=
  color_kind ← reader_read_varint;
  if color_kind =? COLOR_DEFAULT_KIND then read_ret DefaultColor
  else if color_kind =? COLOR_INDEXED_KIND then
    palette_index ← read_byte; read_ret (Indexed palette_index)
  else if color_kind =? COLOR_RGB_KIND then
    color_bytes ← read_bytes 3;
    red ← lift_decoding (expect (color_bytes !! 0%nat));
    green ← lift_decoding (expect (color_bytes !! 1%nat));
    blue ← lift_decoding (expect (color_bytes !! 2%nat));
    read_ret (Rgb red green blue)
  else read_fail (UnknownColorKind color_kind).

(** The row's own bytes and the bytes after it. *)
Definition split_encoded_row (stream_bytes : list N) : decoding (list N * list N) :=
  '(body_byte_count, remaining_bytes) ← reader_read_varint stream_bytes;
  let prefix_byte_count := (length stream_bytes - length remaining_bytes)%nat in
  let available_byte_count := length remaining_bytes in
  if body_byte_count <=? N.of_nat available_byte_count then
    let row_byte_count := (prefix_byte_count + N.to_nat body_byte_count)%nat in
    ok (take row_byte_count stream_bytes, drop row_byte_count stream_bytes)
  else failed (BodyPastEnd body_byte_count available_byte_count).

(** The row written and the cells its runs hold. *)
Definition repad_encoded_row (encoded_row_bytes : list N) (column_count : N)
    : decoding (option (list N * N)) :=
  '(encoded_row_shape, style_and_run_bytes) ← read_row_header encoded_row_bytes;
  let row_end_code := compute_row_end_code (shape_row_end encoded_row_shape) in
  let run_cell_count :=
    shape_column_count encoded_row_shape - shape_trailing_blank_count encoded_row_shape in
  if column_count <=? run_cell_count then ok None
  else
    let repadded_trailing_blank_count := column_count - run_cell_count in
    let body_byte_count :=
      (compute_varint_byte_count column_count + compute_varint_byte_count row_end_code
       + compute_varint_byte_count repadded_trailing_blank_count + length style_and_run_bytes)%nat in
    ok (Some (write_varint (N.of_nat body_byte_count) ++ write_varint column_count
      ++ write_varint row_end_code ++ write_varint repadded_trailing_blank_count
      ++ style_and_run_bytes, run_cell_count)).

Definition read_encoded_row_shape (encoded_row_bytes : list N) : decoding EncodedRowShape :=
  '(encoded_row_shape, _) ← read_row_header encoded_row_bytes; ok encoded_row_shape.

(** Bytes an entry holds past the known fields are left unread. *)
Definition read_style_fields (style_entry_bytes : list N) : decoding Style :=
  let read : reader Style :=
    foreground_color ← read_color;
    background_color ← read_color;
    attribute_word ← reader_read_varint;
    underline_kind ← reader_read_varint;
    underline_color ←
      (if underline_kind =? 0 then read_ret None
       else if underline_kind =? 1 then underline_color ← read_color; read_ret (Some underline_color)
       else read_fail (UnknownColorKind underline_kind));
    read_ret (from_style_parts foreground_color background_color
      (from_attribute_word (as_u16 attribute_word)) underline_color) in
  '(s, _) ← read style_entry_bytes; ok s.

(** The loop over the style table. *)
Fixpoint read_style_table (style_count : nat) (row_styles : list Style) : reader (list Style) :=
  match style_count with
  | O => read_ret row_styles
  | S style_count =>
      style_entry_byte_count ← reader_read_varint;
      style_entry_bytes ← (fun bytes =>
        map_err (fun _ => StyleEntryPastEnd) (read_bytes style_entry_byte_count bytes));
      s ← lift_decoding (read_style_fields style_entry_bytes);
      read_style_table style_count (row_styles ++ [s])
  end.

(** *** Exceptions *)

Inductive ExceptionPayload :=
  | WidePair
  | Width (display_width : N)
  | Combining (combining_text : list N)
  | Repeat (extra_item_count : N).

Record ItemException := MkItemException
  { exception_item_index : N; exception_kind : N; payload : ExceptionPayload }.

Definition read_next_exception (remaining_exception_count previous_item_index : N)
    : reader (option ItemException * N) :=
  if remaining_exception_count =? 0 then read_ret (None, remaining_exception_count)
  else
    let remaining_exception_count := remaining_exception_count - 1 in
    item_index_delta ← reader_read_varint;
    let item_index := previous_item_index + item_index_delta in
    if U64_MAX <? item_index then read_fail ExceptionPastRun
    else
      exception_kind ← reader_read_varint;
      payload ←
        (if exception_kind =? WIDE_PAIR_EXCEPTION_KIND then read_ret WidePair
         else if exception_kind =? WIDTH_EXCEPTION_KIND then
           display_width ← reader_read_varint;
           if 2 <? display_width then read_fail (WidthTooLarge display_width)
           else read_ret (Width display_width)
         else if exception_kind =? COMBINING_EXCEPTION_KIND then
           combining_byte_count ← reader_read_varint;
           combining_bytes ← read_bytes combining_byte_count;
           combining_text ← lift_decoding (ok_or (from_utf8 combining_bytes) InvalidUtf8);
           read_ret (Combining combining_text)
         else if exception_kind =? REPEAT_EXCEPTION_KIND then
           extra_item_count ← reader_read_varint; read_ret (Repeat extra_item_count)
         else read_fail (UnknownExceptionKind exception_kind));
      read_ret (Some (MkItemException item_index exception_kind payload), remaining_exception_count).

(** *** One run *)

Definition u64_saturating_add (a b : N) : N := (a + b) `min` U64_MAX.
Definition u64_saturating_mul (a b : N) : N := (a * b) `min` U64_MAX.

Inductive ItemShape := SingleCell (display_width : N) | WidePairCells.

Inductive RunText := AsciiText | Utf8Text.

(** [read_character_at], with the text from [text_byte_index] on. Slicing a
    [str] where a continuation byte starts is a panic. *)
Definition read_character_at (run_text : RunText) (remaining_text_bytes : list N)
    : decoding (option N) :=
  match remaining_text_bytes with
  | [] => ok None
  | text_byte :: _ =>
      match run_text with
      | AsciiText => ok (Some text_byte)
      | Utf8Text =>
          if is_continuation_byte text_byte then panicked
          else '(c, _) ← expect (utf8_next remaining_text_bytes); ok (Some c)
      end
  end.

(** The exceptions read for one item. *)
Record ItemState := MkItemState
  { item_shape : ItemShape;
    combining_characters : list N;
    repeat_item_count : N;
    last_exception_kind : option N }.

Definition is_exception_in_order (last_exception_kind : option N) (exception_kind : N) : bool :=
  match last_exception_kind with
  | None => true
  | Some previous_kind =>
      if (previous_kind =? WIDE_PAIR_EXCEPTION_KIND) || (previous_kind =? WIDTH_EXCEPTION_KIND)
      then WIDTH_EXCEPTION_KIND <? exception_kind
      else previous_kind <? exception_kind
  end.

Definition apply_exception (item_exception : ItemException) (st : ItemState) : decoding ItemState :=
  let kind := Some (exception_kind item_exception) in
  if negb (is_exception_in_order (last_exception_kind st) (exception_kind item_exception))
  then failed ExceptionOutOfOrder
  else
    match payload item_exception with
    | WidePair => ok (MkItemState WidePairCells (combining_characters st) (repeat_item_count st) kind)
    | Width display_width =>
        ok (MkItemState (SingleCell display_width) (combining_characters st) (repeat_item_count st) kind)
    | Combining combining_text =>
        let combining_characters := combining_characters st ++ combining_text in
        if (MAX_GRAPHEME_CONTINUATION_COUNT <? length combining_characters)%nat
        then failed (TooManyCombiningCharacters (length combining_characters))
        else ok (MkItemState (item_shape st) combining_characters (repeat_item_count st) kind)
    | Repeat extra_item_count =>
        ok (MkItemState (item_shape st) (combining_characters st)
              (u64_saturating_add extra_item_count 1) kind)
    end.

(** The [while] over the exceptions that name [item_index]: each round takes
    one of those that remain. *)
Fixpoint read_item_exceptions (fuel : nat) (item_index : N) (st : ItemState)
    (next_exception : option ItemException) (remaining_exception_count : N)
    : reader (ItemState * option ItemException * N) :=
  match next_exception with
  | Some item_exception =>
      if exception_item_index item_exception =? item_index then
        match fuel with
        | O => lift_decoding panicked
        | S fuel =>
            st ← lift_decoding (apply_exception item_exception st);
            next ← read_next_exception remaining_exception_count (exception_item_index item_exception);
            read_item_exceptions fuel item_index st next.1 next.2
        end
      else read_ret (st, next_exception, remaining_exception_count)
  | None => read_ret (st, next_exception, remaining_exception_count)
  end.

(** The cells of one item of the given shape. *)
Definition build_item_cells (base_character : N) (st : ItemState) (run_style : Style) : list Cell :=
  let base_display_width :=
    match item_shape st with WidePairCells => 2 | SingleCell display_width => display_width end in
  let base_cell :=
    foldl (fun c mark => push_combining mark c)
      (from_character base_character base_display_width run_style) (combining_characters st) in
  base_cell :: match item_shape st with
               | WidePairCells => [from_character 32 0 run_style]
               | SingleCell _ => []
               end.

(** What the loop over the items of a run threads, beside the reader:
    [decoded_cells] are the row's cells so far. *)
Record RunDecodeState := MkRunDecodeState
  { remaining_text_bytes : list N;
    run_item_index : N;
    decoded_cells : list Cell;
    decoded_cell_count : N;
    next_exception : option ItemException;
    remaining_exception_count : N }.

(** The bytes of the plain items before the next exception that are ASCII. *)
Definition list_plain_ascii_bytes (st : RunDecodeState) (next_exception_item_index : N) : list N :=
  let plain_item_count := next_exception_item_index - run_item_index st in
  let plain_text_bytes :=
    take (N.to_nat (plain_item_count `min` N.of_nat (length (remaining_text_bytes st))))
      (remaining_text_bytes st) in
  if forallb is_ascii plain_text_bytes then plain_text_bytes
  else take (default (length plain_text_bytes)
               (position (fun b => negb (is_ascii b)) plain_text_bytes)) plain_text_bytes.

(** [text_byte_index += base_character.len_utf8()]. *)
Definition skip_character (base_character : N) (st : RunDecodeState) : list N :=
  drop (len_utf8 base_character) (remaining_text_bytes st).

(** One round of the loop, at the character read. *)
Definition decode_item (column_count run_end_cell_count : N) (run_style : Style)
    (base_character : N) (st : RunDecodeState) : reader RunDecodeState :=
  let next_exception_item_index :=
    match next_exception st with
    | Some item_exception => exception_item_index item_exception
    | None => U64_MAX
    end in
  let is_plain := run_item_index st <? next_exception_item_index in
  let ascii_bytes := list_plain_ascii_bytes st next_exception_item_index in
  let ascii_item_count := N.of_nat (length ascii_bytes) in
  if is_plain && (0 <? ascii_item_count) then
    if run_end_cell_count <? decoded_cell_count st + ascii_item_count
    then read_fail (CellCountMismatch column_count (run_end_cell_count + 1))
    else
      read_ret (MkRunDecodeState (drop (length ascii_bytes) (remaining_text_bytes st))
        (run_item_index st + ascii_item_count)
        (decoded_cells st ++ ((fun b => from_character b 1 run_style) <$> ascii_bytes))
        (decoded_cell_count st + ascii_item_count)
        (next_exception st) (remaining_exception_count st))
  else if is_plain then
    if run_end_cell_count <=? decoded_cell_count st
    then read_fail (CellCountMismatch column_count (decoded_cell_count st + 1))
    else
      read_ret (MkRunDecodeState (skip_character base_character st) (run_item_index st + 1)
        (decoded_cells st ++ [from_character base_character 1 run_style])
        (decoded_cell_count st + 1) (next_exception st) (remaining_exception_count st))
  else
    r ← read_item_exceptions (S (N.to_nat (remaining_exception_count st))) (run_item_index st)
          (MkItemState (SingleCell 1) [] 1 None) (next_exception st) (remaining_exception_count st);
    let '(item, next, remaining) := r : ItemState * option ItemException * N in
    let item_cell_count := match item_shape item with WidePairCells => 2 | SingleCell _ => 1 end in
    let item_end_cell_count := decoded_cell_count st + item_cell_count * repeat_item_count item in
    if (U64_MAX <? item_cell_count * repeat_item_count item) || (U64_MAX <? item_end_cell_count)
       || (run_end_cell_count <? item_end_cell_count)
    then read_fail (CellCountMismatch column_count
           (u64_saturating_add (decoded_cell_count st)
             (u64_saturating_mul item_cell_count (repeat_item_count item))))
    else
      read_ret (MkRunDecodeState (skip_character base_character st) (run_item_index st + 1)
        (decoded_cells st
         ++ concat (replicate (N.to_nat (repeat_item_count item))
                      (build_item_cells base_character item run_style)))
        item_end_cell_count next remaining).

(** Each round takes a byte of the text at least. *)
Fixpoint decode_items (fuel : nat) (column_count run_end_cell_count : N) (run_style : Style)
    (run_text : RunText) (st : RunDecodeState) : reader RunDecodeState :=
  base_character ← lift_decoding (read_character_at run_text (remaining_text_bytes st));
  match base_character with
  | None => read_ret st
  | Some base_character =>
      match fuel with
      | O => lift_decoding panicked
      | S fuel =>
          st ← decode_item column_count run_end_cell_count run_style base_character st;
          decode_items fuel column_count run_end_cell_count run_style run_text st
      end
  end.

(** The row's cells with those of the run appended. *)
Definition decode_run (styles : list Style) (column_count content_cell_count : N)
    (row_cells : list Cell) : reader (list Cell) :=
  style_index ← reader_read_varint;
  run_style ← lift_decoding (ok_or (styles !! N.to_nat style_index)
                (StyleIndexOutOfTable style_index (length styles)));
  run_cell_count ← reader_read_varint;
  let start_cell_count := N.of_nat (length row_cells) in
  let run_end_cell_count := start_cell_count + run_cell_count in
  if (U64_MAX <? run_end_cell_count) || (content_cell_count <? run_end_cell_count)
  then read_fail (CellCountMismatch column_count (u64_saturating_add start_cell_count run_cell_count))
  else
    text_byte_count ← reader_read_varint;
    run_text_bytes ← read_bytes text_byte_count;
    run_text ← lift_decoding
      (if forallb is_ascii run_text_bytes then ok AsciiText
       else _ ← ok_or (from_utf8 run_text_bytes) InvalidUtf8; ok Utf8Text);
    remaining_byte_count ← read_remaining_byte_count;
    exception_count ← read_bounded_varint "exception_count" remaining_byte_count;
    next ← read_next_exception exception_count 0;
    st ← decode_items (length run_text_bytes) column_count run_end_cell_count run_style run_text
           (MkRunDecodeState run_text_bytes 0 row_cells start_cell_count next.1 next.2);
    if bool_decide (is_Some (next_exception st)) then read_fail ExceptionPastRun
    else if negb (decoded_cell_count st =? run_end_cell_count)
    then read_fail (CellCountMismatch column_count (decoded_cell_count st))
    else read_ret (decoded_cells st).

(** *** A row *)

Fixpoint decode_runs (run_count : nat) (styles : list Style) (column_count content_cell_count : N)
    (row_cells : list Cell) : reader (list Cell) :=
  match run_count with
  | O => read_ret row_cells
  | S run_count =>
      row_cells ← decode_run styles column_count content_cell_count row_cells;
      decode_runs run_count styles column_count content_cell_count row_cells
  end.

(** The cells of the runs. A failed read leaves the caller's buffer as it was,
    since only this row's cells are appended to it. *)
Definition decode_row_runs (encoded_row_bytes : list N) : decoding (EncodedRowShape * list Cell) :=
  '(encoded_row, trailing_bytes) ← split_encoded_row encoded_row_bytes;
  if negb (bool_decide (trailing_bytes = [])) then failed (TrailingBytes (length trailing_bytes))
  else
    let read : reader (EncodedRowShape * list Cell) :=
      encoded_row_shape ← read_row_header;
      let column_count := shape_column_count encoded_row_shape in
      let trailing_blank_count := shape_trailing_blank_count encoded_row_shape in
      remaining_byte_count ← read_remaining_byte_count;
      style_count ← read_bounded_varint "style_count" remaining_byte_count;
      row_styles ← read_style_table (N.to_nat style_count) [];
      let content_cell_count := column_count - trailing_blank_count in
      remaining_byte_count ← read_remaining_byte_count;
      run_count ← read_bounded_varint "run_count" remaining_byte_count;
      row_cells ← decode_runs (N.to_nat run_count) row_styles column_count content_cell_count [];
      let decoded_cell_count := N.of_nat (length row_cells) in
      if negb (decoded_cell_count =? content_cell_count)
      then read_fail (CellCountMismatch column_count (decoded_cell_count + trailing_blank_count))
      else
        remaining_byte_count ← read_remaining_byte_count;
        if negb (remaining_byte_count =? 0)
        then read_fail (TrailingBytes (N.to_nat remaining_byte_count))
        else read_ret (encoded_row_shape, row_cells) in
    '(row, _) ← read encoded_row; ok row.

Definition decode_row_run_cells_into (encoded_row_bytes : list N) (row_cells : list Cell)
    : decoding EncodedRowShape * list Cell :=
  match decode_row_runs encoded_row_bytes with
  | Some (inr (encoded_row_shape, run_cells)) => (ok encoded_row_shape, row_cells ++ run_cells)
  | Some (inl e) => (failed e, row_cells)
  | None => (panicked, row_cells)
  end.

Record DecodedRow := MkDecodedRow { row_cells : list Cell; decoded_row_end : RowEnd }.

(** [resize_with] pads or cuts to the column count. *)
Definition resize_cells (count : nat) (cells : list Cell) : list Cell :=
  take count cells ++ replicate (count - length cells) build_blank.

Definition decode_row_cells (encoded_row_bytes : list N) : decoding DecodedRow :=
  let '(result, run_cells) := decode_row_run_cells_into encoded_row_bytes [] in
  encoded_row_shape ← result;
  ok (MkDecodedRow (resize_cells (N.to_nat (shape_column_count encoded_row_shape)) run_cells)
        (shape_row_end encoded_row_shape)).

Example example_row_decoded :
  decode_row_cells [16; 4; 0; 2; 1; 4; 0; 0; 0; 0; 1; 0; 2; 2; 97; 98; 0]
  = ok (MkDecodedRow example_row Hard).
Proof. vm_compute. reflexivity. Qed.

Example example_row_repadded :
  repad_encoded_row [16; 4; 0; 2; 1; 4; 0; 0; 0; 0; 1; 0; 2; 2; 97; 98; 0] 6
  = ok (Some ([16; 6; 0; 4; 1; 4; 0; 0; 0; 0; 1; 0; 2; 2; 97; 98; 0], 2)).
Proof. vm_compute. reflexivity. Qed.

Example truncated_row : decode_row_cells [16; 4; 0] = failed (BodyPastEnd 16 2).
Proof. vm_compute. reflexivity. Qed.

(** ** Cells a row can hold *)

Record Cell_wf (c : Cell) : Prop :=
  { wf_character : is_scalar (character c);
    wf_display_width : display_width c <= 2;
    wf_style : Style_wf (cell_style c);
    wf_combining : Forall is_scalar (list_combining_characters c);
    wf_combining_count : (length (list_combining_characters c) <= MAX_GRAPHEME_CONTINUATION_COUNT)%nat }.

(** What the encoding carries of a cell: no image data. *)
Definition encoded_cell (c : Cell) : Cell :=
  MkCell (character c)
    (match list_encoded_combining_characters c with
     | [] => None
     | marks => Some (MkCellExtra marks None NoFragment)
     end) (display_width c) (cell_style c).

(** A base cell with its continuation code points pushed one by one. *)
Definition cell_with_marks (character display_width : N) (s : Style) (marks : list N) : Cell :=
  MkCell character
    (match marks with [] => None | _ => Some (MkCellExtra marks None NoFragment) end)
    display_width s.

Lemma push_marks character display_width s marks :
  foldl (fun c mark => push_combining mark c) (from_character character display_width s) marks
  = cell_with_marks character display_width s marks.
Proof.
  rewrite <- (reverse_involutive marks). induction (reverse marks) as [|m l IH]; [done|].
  rewrite reverse_cons, foldl_app, IH. simpl. unfold cell_with_marks, push_combining, set_cell_extra.
  destruct (reverse l); done.
Qed.

Lemma encoded_cell_with_marks c :
  encoded_cell c
  = cell_with_marks (character c) (display_width c) (cell_style c) (list_encoded_combining_characters c).
Proof. unfold encoded_cell, cell_with_marks. by destruct (list_encoded_combining_characters c). Qed.

Lemma cell_with_marks_wf character display_width s marks :
  is_scalar character -> display_width <= 2 -> Style_wf s -> Forall is_scalar marks ->
  (length marks <= MAX_GRAPHEME_CONTINUATION_COUNT)%nat ->
  Cell_wf (cell_with_marks character display_width s marks)
  /\ encoded_cell (cell_with_marks character display_width s marks)
     = cell_with_marks character display_width s marks.
Proof.
  intros Hc Hw Hs Hm Hl. split; [|by destruct marks].
  split; try done; by destruct marks.
Qed.

(** A cell that is all in the encoding. *)
Definition decoded_cell_ok (c : Cell) : Prop := Cell_wf c /\ encoded_cell c = c.

Lemma encoded_no_image c : encoded_cell c = c -> get_image_cell_extra c = None.
Proof. intros <-. unfold encoded_cell. by destruct (list_encoded_combining_characters c). Qed.

Lemma narrow_cell_ok character display_width s :
  is_scalar character -> display_width <= 2 -> Style_wf s ->
  decoded_cell_ok (from_character character display_width s).
Proof.
  intros. apply (cell_with_marks_wf character display_width s []); [done..|].
  unfold MAX_GRAPHEME_CONTINUATION_COUNT. simpl. lia.
Qed.

Lemma space_scalar : is_scalar 32.
Proof. left. done. Qed.

Lemma blank_ok : decoded_cell_ok build_blank.
Proof. apply narrow_cell_ok; [apply space_scalar|done|apply default_style_wf]. Qed.

#[export] Hint Resolve space_scalar blank_ok : koshi.

(** ** Readers that never panic

    [reader_sat P m]: on every byte string, [m] returns; a result satisfies
    [P] and what is left is a suffix of what was there. *)

Definition reader_sat {A} (P : A -> Prop) (m : reader A) : Prop :=
  forall bytes, Forall is_byte bytes ->
    outcome_sat (fun _ => True)
      (fun r : A * list N => P r.1 /\ exists taken, bytes = taken ++ r.2) (m bytes).

Lemma reader_sat_bind {A B} (P : A -> Prop) (Q : B -> Prop) (m : reader A) (f : A -> reader B) :
  reader_sat P m -> (forall a, P a -> reader_sat Q (f a)) -> reader_sat Q (mbind (M := reader) f m).
Proof.
  intros Hm Hf bytes Hb. unfold mbind, reader_bind. specialize (Hm bytes Hb).
  eapply outcome_sat_bind; [exact Hm|]. intros [a rest] _ (HP & taken & ->). simpl in *.
  apply Forall_app in Hb as [_ Hb]. eapply outcome_sat_impl; [apply (Hf a HP rest Hb)|done|].
  intros [b rest'] (HQ & taken' & ->). split; [done|]. exists (taken ++ taken'). by rewrite app_assoc.
Qed.

Lemma reader_sat_ret {A} (P : A -> Prop) a : P a -> reader_sat P (read_ret a).
Proof. intros HP bytes _. split; [done|]. by exists []. Qed.

Lemma reader_sat_fail {A} (P : A -> Prop) e : reader_sat P (read_fail (A := A) e).
Proof. by intros bytes _. Qed.

Lemma reader_sat_lift {A} (P : A -> Prop) (m : decoding A) :
  outcome_sat (fun _ => True) P m -> reader_sat P (lift_decoding m).
Proof.
  intros Hm bytes _. unfold lift_decoding. eapply outcome_sat_bind; [exact Hm|].
  intros a _ HP. split; [done|]. by exists [].
Qed.

Lemma reader_sat_impl {A} (P Q : A -> Prop) (m : reader A) :
  reader_sat P m -> (forall a, P a -> Q a) -> reader_sat Q m.
Proof.
  intros Hm HPQ bytes Hb. eapply outcome_sat_impl; [apply (Hm bytes Hb)|done|].
  intros [a rest] [HP Hs]. by split; [apply HPQ|].
Qed.

Lemma reader_varint_sat : reader_sat is_u64 reader_read_varint.
Proof.
  intros bytes Hb. unfold reader_read_varint. destruct (read_varint bytes) as [[]|[v rest]] eqn:E; [done..|].
  destruct (read_varint_suffix bytes v rest Hb E) as (Hv & taken & -> & _). split; [done|]. by exists taken.
Qed.

Lemma bounded_varint_sat field maximum_value :
  reader_sat (fun v => v <= maximum_value) (read_bounded_varint field maximum_value).
Proof.
  eapply reader_sat_bind; [apply reader_varint_sat|]. intros v _. simpl.
  destruct (maximum_value <? v) eqn:E; bools; [apply reader_sat_fail|by apply reader_sat_ret].
Qed.

Lemma remaining_count_sat : reader_sat (fun _ => True) read_remaining_byte_count.
Proof. intros bytes _. split; [done|]. by exists []. Qed.

Lemma read_bytes_sat byte_count :
  reader_sat (fun bs => length bs = N.to_nat byte_count /\ Forall is_byte bs) (read_bytes byte_count).
Proof.
  intros bytes Hb. unfold read_bytes. destruct (_ <=? _) eqn:E; bools; [|done]. simpl. split_and!.
  - rewrite length_take. lia.
  - by apply Forall_take.
  - exists (take (N.to_nat byte_count) bytes). by rewrite take_drop.
Qed.

#[export] Hint Resolve reader_sat_ret reader_sat_fail reader_varint_sat bounded_varint_sat
  remaining_count_sat read_bytes_sat : koshi.

Lemma read_byte_sat : reader_sat is_byte read_byte.
Proof.
  eapply reader_sat_bind; [apply read_bytes_sat|]. intros bs [Hl Hb]. apply reader_sat_lift.
  destruct bs as [|b bs]; [done|]. by apply Forall_cons in Hb as [Hb _].
Qed.

Lemma read_color_sat : reader_sat Color_wf read_color.
Proof.
  eapply reader_sat_bind; [apply reader_varint_sat|]. intros kind _. simpl.
  destruct (kind =? _); [by apply reader_sat_ret|]. destruct (kind =? _).
  { eapply reader_sat_bind; [apply read_byte_sat|]. intros b Hb. by apply reader_sat_ret. }
  destruct (kind =? _); [|apply reader_sat_fail].
  eapply reader_sat_bind; [apply read_bytes_sat|]. intros bs [Hl Hb]. simpl in Hl.
  destruct bs as [|r [|g [|b [|]]]]; try done. apply Forall_cons in Hb as [Hr Hb].
  apply Forall_cons in Hb as [Hg Hb]. apply Forall_cons in Hb as [Hb _].
  eapply reader_sat_bind; [by apply (reader_sat_lift is_byte)|]. intros r' Hr'.
  eapply reader_sat_bind; [by apply (reader_sat_lift is_byte)|]. intros g' Hg'.
  eapply reader_sat_bind; [by apply (reader_sat_lift is_byte)|]. intros b' Hb'.
  by apply reader_sat_ret.
Qed.

Lemma read_row_end_sat : reader_sat (fun _ => True) read_row_end.
Proof.
  eapply reader_sat_bind; [apply reader_varint_sat|]. intros code _. simpl.
  repeat case_match; auto with koshi.
Qed.

Definition shape_ok (s : EncodedRowShape) : Prop :=
  shape_column_count s <= U16_MAX /\ shape_trailing_blank_count s <= shape_column_count s.

Lemma read_row_header_sat : reader_sat shape_ok read_row_header.
Proof.
  eapply reader_sat_bind; [apply reader_varint_sat|]. intros _ _.
  eapply reader_sat_bind; [apply bounded_varint_sat|]. intros columns Hc.
  eapply reader_sat_bind; [apply read_row_end_sat|]. intros e _.
  eapply reader_sat_bind; [apply bounded_varint_sat|]. intros blanks Hb. by apply reader_sat_ret.
Qed.

Lemma read_style_fields_sat bytes :
  Forall is_byte bytes -> outcome_sat (fun _ => True) Style_wf (read_style_fields bytes).
Proof.
  intros Hb. unfold read_style_fields.
  match goal with |- outcome_sat _ _ (mbind _ (?m bytes)) => assert (reader_sat Style_wf m) as Hm end.
  2: { eapply outcome_sat_bind; [exact (Hm bytes Hb)|]. by intros [s rest] _ [Hs _]. }
  eapply reader_sat_bind; [apply read_color_sat|]. intros fg Hfg.
  eapply reader_sat_bind; [apply read_color_sat|]. intros bg Hbg.
  eapply reader_sat_bind; [apply reader_varint_sat|]. intros word _.
  eapply reader_sat_bind; [apply reader_varint_sat|]. intros kind _.
  apply reader_sat_bind with (P := fun o => match o with Some c => Color_wf c | None => True end).
  - repeat case_match; [by apply reader_sat_ret| |apply reader_sat_fail].
    eapply reader_sat_bind; [apply read_color_sat|]. intros c Hc. by apply reader_sat_ret.
  - intros o Ho. apply reader_sat_ret. split; simpl; [done|done| |by destruct o].
    apply from_attribute_word_spec.
Qed.

Lemma read_style_table_sat n row_styles :
  Forall Style_wf row_styles -> reader_sat (Forall Style_wf) (read_style_table n row_styles).
Proof.
  revert row_styles. induction n as [|n IH]; intros row_styles Hs; [by apply reader_sat_ret|].
  cbn [read_style_table]. eapply reader_sat_bind; [apply reader_varint_sat|]. intros count _.
  apply reader_sat_bind with (P := Forall is_byte).
  - intros bytes Hb. pose proof (read_bytes_sat count bytes Hb) as H. unfold map_err.
    destruct (read_bytes count bytes) as [[e|r]|]; simpl in *; [done| |done]. tauto.
  - intros entry Hentry. eapply reader_sat_bind; [by apply reader_sat_lift, read_style_fields_sat|].
    intros s Hwf. apply IH. apply Forall_app. by rewrite Forall_singleton.
Qed.

Definition payload_ok (p : ExceptionPayload) : Prop :=
  match p with
  | WidePair => True
  | Width w => w <= 2
  | Combining text => Forall is_scalar text
  | Repeat _ => True
  end.

(** A read exception takes one of those that remain. *)
Definition next_ok (remaining : N) (r : option ItemException * N) : Prop :=
  match r.1 with
  | Some e => payload_ok (payload e) /\ r.2 + 1 = remaining
  | None => r.2 = remaining
  end.

Lemma read_next_exception_sat remaining previous :
  reader_sat (next_ok remaining) (read_next_exception remaining previous).
Proof.
  unfold read_next_exception. destruct (remaining =? 0) eqn:E; bools; [by apply reader_sat_ret|].
  eapply reader_sat_bind; [apply reader_varint_sat|]. intros delta _. cbn beta zeta.
  case_match; [apply reader_sat_fail|].
  eapply reader_sat_bind; [apply reader_varint_sat|]. intros kind _.
  apply reader_sat_bind with (P := payload_ok).
  - destruct (kind =? _); [by apply reader_sat_ret|]. destruct (kind =? _).
    { eapply reader_sat_bind; [apply reader_varint_sat|]. intros w _. cbn beta.
      destruct (2 <? w) eqn:Ew; bools; [apply reader_sat_fail|by apply reader_sat_ret]. }
    destruct (kind =? _).
    { eapply reader_sat_bind; [apply reader_varint_sat|]. intros n _.
      eapply reader_sat_bind; [apply read_bytes_sat|]. intros bs [_ Hb].
      eapply reader_sat_bind with (P := Forall is_scalar).
      - apply reader_sat_lift. apply outcome_sat_ok_or; [done|]. intros t [Ht _]%from_utf8_Some. done.
      - intros t Ht. by apply reader_sat_ret. }
    destruct (kind =? _); [|apply reader_sat_fail].
    eapply reader_sat_bind; [apply reader_varint_sat|]. intros n _. by apply reader_sat_ret.
  - intros p Hp. apply reader_sat_ret. split; [done|]. simpl. lia.
Qed.

(** ** Items *)

Record item_ok (st : ItemState) : Prop :=
  { ok_shape : match item_shape st with SingleCell w => w <= 2 | WidePairCells => True end;
    ok_combining : Forall is_scalar (combining_characters st);
    ok_combining_count : (length (combining_characters st) <= MAX_GRAPHEME_CONTINUATION_COUNT)%nat;
    ok_repeat : 1 <= repeat_item_count st }.

Lemma empty_item_ok : item_ok (MkItemState (SingleCell 1) [] 1 None).
Proof. split; simpl; [done|constructor|unfold MAX_GRAPHEME_CONTINUATION_COUNT; lia|done]. Qed.

Lemma apply_exception_sat e st :
  item_ok st -> payload_ok (payload e) ->
  outcome_sat (fun _ => True) item_ok (apply_exception e st).
Proof.
  intros [H1 H2 H3 H4] Hp. unfold apply_exception. cbv zeta. destruct (negb _); [done|].
  destruct (payload e) as [|w|text|n]; simpl in Hp.
  - by split.
  - by split.
  - destruct (_ <? _)%nat eqn:E; [done|]. bools. split; simpl; [done| |done|done]. by apply Forall_app.
  - split; simpl; [done..|]. unfold u64_saturating_add. lia.
Qed.

Definition exceptions_left (next : option ItemException) (remaining : N) : nat :=
  (match next with Some _ => 1 | None => 0 end + N.to_nat remaining)%nat.

Definition pending_ok (next : option ItemException) : Prop :=
  match next with Some e => payload_ok (payload e) | None => True end.

Lemma read_item_exceptions_sat fuel item st next remaining :
  item_ok st -> pending_ok next -> (exceptions_left next remaining <= fuel)%nat ->
  reader_sat (fun r : ItemState * option ItemException * N =>
    item_ok r.1.1 /\ pending_ok r.1.2
    /\ match r.1.2 with Some e => exception_item_index e <> item | None => True end)
    (read_item_exceptions fuel item st next remaining).
Proof.
  revert st next remaining. induction fuel as [|fuel IH]; intros st next remaining Hst Hnext Hfuel;
    cbn [read_item_exceptions]; (destruct next as [e|]; [|by apply reader_sat_ret]);
    (destruct (exception_item_index e =? item) eqn:E; bools; [|by apply reader_sat_ret]).
  { unfold exceptions_left in Hfuel. lia. }
  eapply reader_sat_bind; [by apply reader_sat_lift, apply_exception_sat|]. intros st' Hst'.
  eapply reader_sat_bind; [apply read_next_exception_sat|]. intros [next' remaining'] Hn.
  unfold next_ok in Hn. simpl in Hn |- *. apply IH; [done|by destruct next' as [e'|]; [apply Hn|]|].
  unfold exceptions_left in *. destruct next'; lia.
Qed.

Lemma build_item_cells_ok c st s :
  is_scalar c -> item_ok st -> Style_wf s ->
  Forall decoded_cell_ok (build_item_cells c st s)
  /\ N.of_nat (length (build_item_cells c st s))
     = match item_shape st with WidePairCells => 2 | SingleCell _ => 1 end.
Proof.
  intros Hc [H1 H2 H3 H4] Hs. unfold build_item_cells. rewrite push_marks. split.
  - constructor.
    + apply cell_with_marks_wf; try done. by destruct (item_shape st).
    + destruct (item_shape st); [constructor|]. rewrite Forall_singleton.
      by apply narrow_cell_ok; auto with koshi.
  - by destruct (item_shape st).
Qed.

Lemma length_concat_replicate {A} n (l : list A) :
  length (concat (replicate n l)) = (n * length l)%nat.
Proof. induction n as [|n IH]; simpl; [done|]. rewrite length_app, IH. done. Qed.

Lemma Forall_concat_replicate {A} (P : A -> Prop) n (l : list A) :
  Forall P l -> Forall P (concat (replicate n l)).
Proof. intros H. induction n as [|n IH]; simpl; [constructor|]. by apply Forall_app. Qed.

(** ** The loop over the items of a run *)

(** The text left is the encoding of characters, all ASCII in an ASCII run. *)
Definition text_ok (run_text : RunText) (text : list N) : Prop :=
  exists t, Forall is_scalar t /\ text = utf8_bytes t
    /\ match run_text with AsciiText => forallb is_ascii t = true | Utf8Text => True end.

Record run_ok (run_text : RunText) (run_end : N) (st : RunDecodeState) : Prop :=
  { ok_text : text_ok run_text (remaining_text_bytes st);
    ok_count : decoded_cell_count st = N.of_nat (length (decoded_cells st));
    ok_bound : decoded_cell_count st <= run_end;
    ok_cells : Forall decoded_cell_ok (decoded_cells st);
    ok_pending : pending_ok (next_exception st) }.

Lemma read_character_sat run_text text :
  text_ok run_text text ->
  match read_character_at run_text text with
  | Some (inr None) => text = []
  | Some (inr (Some c)) => is_scalar c /\ exists rest, text = encode_utf8 c ++ rest /\ text_ok run_text rest
  | _ => False
  end.
Proof.
  intros (t & Ht & -> & Ha). destruct t as [|c t]; [done|]. rewrite utf8_bytes_cons.
  apply Forall_cons in Ht as [Hc Ht]. destruct run_text.
  - cbn [forallb] in Ha. bools. rewrite encode_utf8_ascii by done. simpl. split; [done|].
    exists (utf8_bytes t). rewrite encode_utf8_ascii by done. split; [done|]. by exists t.
  - destruct (encode_utf8_cons c Hc) as (b & u & E & Hb & _).
    assert (read_character_at Utf8Text (encode_utf8 c ++ utf8_bytes t) = ok (Some c)) as ->.
    { pose proof (utf8_next_encode c (utf8_bytes t) Hc) as Hn. rewrite E in Hn |- *.
      cbn [read_character_at app]. rewrite Hb. cbn [app] in Hn. by rewrite Hn. }
    simpl. split; [done|]. exists (utf8_bytes t). split; [done|]. by exists t.
Qed.

(** A prefix of ASCII bytes is a prefix of characters. *)
Lemma ascii_prefix t k :
  Forall is_scalar t -> (k <= length (utf8_bytes t))%nat ->
  forallb is_ascii (take k (utf8_bytes t)) = true ->
  (k <= length t)%nat /\ take k t = take k (utf8_bytes t) /\ drop k (utf8_bytes t) = utf8_bytes (drop k t).
Proof.
  revert k. induction t as [|c t IH]; intros [|k] Ht Hk Ha; try (split_and!; [simpl; lia|done|done]).
  - simpl in Hk. lia.
  - apply Forall_cons in Ht as [Hc Ht]. rewrite utf8_bytes_cons in *.
    destruct (encode_utf8_cons c Hc) as (b & u & E & _ & Hb). rewrite E in *. cbn [app take forallb] in Ha.
    apply andb_true_iff in Ha as [Ha1 Ha2]. rewrite Ha1 in Hb. symmetry in Hb.
    rewrite encode_utf8_ascii in E by done. injection E as <- <-. cbn [app take drop length] in *.
    destruct (IH k Ht ltac:(lia) Ha2) as (H1 & H2 & H3). split_and!; [lia|by f_equal|done].
Qed.

Lemma list_plain_ascii_bytes_spec st next_index :
  let bytes := list_plain_ascii_bytes st next_index in
  bytes = take (length bytes) (remaining_text_bytes st)
  /\ forallb is_ascii bytes = true
  /\ (length bytes <= length (remaining_text_bytes st))%nat
  /\ N.of_nat (length bytes) <= next_index - run_item_index st.
Proof.
  unfold list_plain_ascii_bytes.
  set (text := remaining_text_bytes st).
  set (n := N.to_nat ((next_index - run_item_index st) `min` N.of_nat (length text))).
  assert (n <= length text)%nat as Hn by (unfold n; lia).
  assert (N.of_nat n <= next_index - run_item_index st) as Hn' by (unfold n; lia).
  assert (forall k, (k <= n)%nat -> let bytes := take k text in
    bytes = take (length bytes) text /\ (length bytes <= length text)%nat
    /\ N.of_nat (length bytes) <= next_index - run_item_index st) as Hpre.
  { intros k Hk. simpl. rewrite !length_take. rewrite Nat.min_l by lia. split_and!; [done|lia|lia]. }
  destruct (forallb is_ascii (take n text)) eqn:Ea.
  { destruct (Hpre n ltac:(lia)) as (H1 & H2 & H3). split_and!; done. }
  assert (length (take n text) = n) as Hl by (rewrite length_take; lia).
  set (k := default (length (take n text)) (position (fun b => negb (is_ascii b)) (take n text))).
  assert (k <= n)%nat as Hk.
  { unfold k. destruct (position _ _) as [i|] eqn:E; simpl; [|lia]. apply position_lt in E. lia. }
  rewrite take_take, Nat.min_l by done. destruct (Hpre k Hk) as (H1 & H2 & H3).
  split_and!; [done| |done|done].
  apply forallb_forall. intros b Hb. apply list_elem_of_In, list_elem_of_lookup in Hb as [i Hi].
  apply lookup_take_Some in Hi as [Hi Hik].
  assert (take n text !! i = Some b) as Hib by (by apply lookup_take_Some; split; [|lia]).
  unfold k in Hik. destruct (position _ _) as [j|] eqn:E; simpl in Hik.
  - apply position_Some in E as (x & _ & _ & Hall). specialize (Hall i b Hik Hib). by bools.
  - rewrite position_None in E. specialize (E b ltac:(by eapply list_elem_of_lookup_2)). by bools.
Qed.

Lemma text_ok_drop_ascii run_text text k :
  text_ok run_text text -> (k <= length text)%nat -> forallb is_ascii (take k text) = true ->
  text_ok run_text (drop k text).
Proof.
  intros (t & Ht & -> & Ha) Hk Hascii. destruct (ascii_prefix t k Ht Hk Hascii) as (_ & _ & ->).
  exists (drop k t). split_and!; [by apply Forall_drop|done|]. destruct run_text; [|done].
  rewrite <- (take_drop k t), forallb_app in Ha. by bools.
Qed.

Lemma skip_character_eq c rest st :
  is_scalar c -> remaining_text_bytes st = encode_utf8 c ++ rest -> skip_character c st = rest.
Proof.
  intros Hc E. unfold skip_character. rewrite E, drop_app_ge by (rewrite encode_utf8_length; done).
  by rewrite encode_utf8_length, Nat.sub_diag.
Qed.

Lemma decode_item_sat run_text column_count run_end s c rest st :
  Style_wf s -> run_ok run_text run_end st -> is_scalar c ->
  remaining_text_bytes st = encode_utf8 c ++ rest -> text_ok run_text rest ->
  reader_sat (fun st' => run_ok run_text run_end st'
    /\ (length (remaining_text_bytes st') < length (remaining_text_bytes st))%nat)
    (decode_item column_count run_end s c st).
Proof.
  intros Hs [H1 H2 H3 H4 H5] Hc E Hrest. unfold decode_item.
  assert (length rest < length (remaining_text_bytes st))%nat as Hlen.
  { rewrite E, length_app, encode_utf8_length by done. pose proof (len_utf8_pos c). lia. }
  pose proof (skip_character_eq c rest st Hc E) as Hskip.
  set (next_index := match next_exception st with Some e => _ | None => _ end).
  destruct (list_plain_ascii_bytes_spec st next_index) as (Hpre & Hascii & Hle & _).
  set (bytes := list_plain_ascii_bytes st next_index) in *. cbv zeta.
  destruct (_ && _) eqn:E1; [|destruct (_ <? next_index); [|clear E1]].
  - bools. case_match eqn:E2; [apply reader_sat_fail|]. bools. apply reader_sat_ret.
    split; [split; simpl|simpl; rewrite length_drop; lia].
    + apply text_ok_drop_ascii; [done|done|]. by rewrite <- Hpre.
    + rewrite length_app, length_fmap. lia.
    + lia.
    + apply Forall_app. split; [done|]. apply Forall_fmap, Forall_forall. intros b Hb.
      apply narrow_cell_ok; [|done|done]. apply ascii_scalar.
      rewrite forallb_forall in Hascii. apply Hascii. by apply list_elem_of_In.
    + done.
  - case_match eqn:E2; [apply reader_sat_fail|]. bools. apply reader_sat_ret. rewrite Hskip.
    split; [split; simpl|done]; [done|rewrite length_app; simpl; lia|lia| |done].
    apply Forall_app. rewrite Forall_singleton. split; [done|]. by apply narrow_cell_ok.
  - eapply reader_sat_bind.
    { apply read_item_exceptions_sat; [apply empty_item_ok|done|].
      unfold exceptions_left. destruct (next_exception st); lia. }
    intros [[item next] remaining] (Hitem & Hnext & _). cbn [fst snd] in Hitem, Hnext.
    cbv beta iota zeta. destruct (build_item_cells_ok c item s Hc Hitem Hs) as [Hcells Hcount].
    rewrite <- Hcount.
    destruct (_ || _ || _) eqn:E2; [apply reader_sat_fail|]. bools. apply reader_sat_ret. rewrite Hskip. split; [split; simpl|done]; [done| | | |done].
    + rewrite length_app, length_concat_replicate, Nat2N.inj_add, Nat2N.inj_mul, N2Nat.id, H2.
      by rewrite N.mul_comm.
    + match goal with H : _ <= run_end |- _ => exact H end.
    + apply Forall_app. split; [done|]. by apply Forall_concat_replicate.
Qed.

Lemma decode_items_sat fuel run_text column_count run_end s st :
  Style_wf s -> run_ok run_text run_end st ->
  (length (remaining_text_bytes st) <= fuel)%nat ->
  reader_sat (run_ok run_text run_end) (decode_items fuel column_count run_end s run_text st).
Proof.
  intros Hs. revert st. induction fuel as [|fuel IH]; intros st Hst Hfuel; cbn [decode_items];
    pose proof (read_character_sat run_text _ (ok_text _ _ _ Hst)) as Hread;
    destruct (read_character_at run_text (remaining_text_bytes st)) as [[|o]|] eqn:Er; try done;
    (eapply reader_sat_bind with (P := fun o' => o' = o); [by apply reader_sat_lift|]; intros ? ->).
  - destruct o as [c|]; [|by apply reader_sat_ret]. destruct Hread as (Hc & rest & E & _).
    destruct (encode_utf8_cons c Hc) as (b & u & Eu & _). rewrite E, Eu in Hfuel. simpl in Hfuel. lia.
  - destruct o as [c|]; [|by apply reader_sat_ret]. destruct Hread as (Hc & rest & E & Hrest).
    eapply reader_sat_bind; [by eapply decode_item_sat|]. intros st' [Hst' Hlen]. apply IH; [done|lia].
Qed.

Definition cells_ok (content_cell_count : N) (cells : list Cell) : Prop :=
  Forall decoded_cell_ok cells /\ N.of_nat (length cells) <= content_cell_count.

Lemma decode_run_sat styles column_count content cells :
  Forall Style_wf styles -> cells_ok content cells ->
  reader_sat (cells_ok content) (decode_run styles column_count content cells).
Proof.
  intros Hs [Hcells Hcount]. unfold decode_run.
  eapply reader_sat_bind; [apply reader_varint_sat|]. intros style_index _.
  eapply reader_sat_bind with (P := Style_wf).
  { apply reader_sat_lift. apply outcome_sat_ok_or; [done|]. intros s Hl.
    rewrite Forall_lookup in Hs. by eapply Hs. }
  intros s Hwf. eapply reader_sat_bind; [apply reader_varint_sat|]. intros run_count _. cbv zeta beta.
  case_match eqn:E; [apply reader_sat_fail|]. bools.
  eapply reader_sat_bind; [apply reader_varint_sat|]. intros text_count _.
  eapply reader_sat_bind; [apply read_bytes_sat|]. intros text [Hl Hb].
  eapply reader_sat_bind with (P := fun run_text => text_ok run_text text).
  { apply reader_sat_lift. destruct (forallb is_ascii text) eqn:Ea.
    - exists text. split_and!; [|by rewrite utf8_bytes_ascii|done].
      apply Forall_forall. intros c Hc. apply ascii_scalar. rewrite forallb_forall in Ea.
      apply Ea. by apply list_elem_of_In.
    - destruct (from_utf8 text) as [t|] eqn:Et; [|done]. simpl.
      apply from_utf8_Some in Et as [Ht ->]. by exists t. }
  intros run_text Htext. eapply reader_sat_bind; [apply remaining_count_sat|]. intros remaining _.
  eapply reader_sat_bind; [apply bounded_varint_sat|]. intros exceptions _.
  eapply reader_sat_bind; [apply read_next_exception_sat|]. intros [next left] Hnext.
  eapply reader_sat_bind.
  { apply (decode_items_sat _ run_text); [done| |done]. split; simpl; [done|done|lia|done|].
    unfold next_ok in Hnext. simpl in Hnext. destruct next; [apply Hnext|done]. }
  intros st [_ Hst Hend Hok _]. cbv beta. case_match; [apply reader_sat_fail|].
  case_match eqn:Ee; [apply reader_sat_fail|]. bools. apply reader_sat_ret. split; [done|]. lia.
Qed.

Lemma decode_runs_sat n styles column_count content cells :
  Forall Style_wf styles -> cells_ok content cells ->
  reader_sat (cells_ok content) (decode_runs n styles column_count content cells).
Proof.
  intros Hs. revert cells. induction n as [|n IH]; intros cells Hc; [by apply reader_sat_ret|].
  cbn [decode_runs]. eapply reader_sat_bind; [by apply decode_run_sat|]. intros cells' Hc'. by apply IH.
Qed.

Lemma split_encoded_row_sat bytes :
  Forall is_byte bytes ->
  outcome_sat (fun _ => True) (fun r : list N * list N => bytes = r.1 ++ r.2) (split_encoded_row bytes).
Proof.
  intros Hb. unfold split_encoded_row. eapply outcome_sat_bind; [apply (reader_varint_sat bytes Hb)|].
  intros [n rest] _ _. cbv beta iota zeta. case_match; [|done]. simpl. by rewrite take_drop.
Qed.

Lemma reader_bind_run {A B} (m : reader A) (f : A -> reader B) bytes :
  mbind (M := reader) f m bytes
  = mbind (M := outcome RowDecodeError) (fun r : A * list N => f r.1 r.2) (m bytes).
Proof. reflexivity. Qed.

Lemma decode_row_runs_sat bytes :
  Forall is_byte bytes ->
  outcome_sat (fun _ => True)
    (fun r : EncodedRowShape * list Cell => shape_ok r.1 /\ Forall decoded_cell_ok r.2
       /\ N.of_nat (length r.2) = shape_column_count r.1 - shape_trailing_blank_count r.1
       /\ read_encoded_row_shape bytes = ok r.1)
    (decode_row_runs bytes).
Proof.
  intros Hb. unfold decode_row_runs. eapply outcome_sat_bind; [by apply split_encoded_row_sat|].
  intros [row trailing] _ E. cbv beta iota in E |- *. simpl in E.
  destruct (bool_decide (trailing = [])) eqn:Et; [|done]. bools. subst trailing.
  rewrite app_nil_r in E. subst row. cbv zeta. cbn [negb]. pose proof (read_row_header_sat bytes Hb) as Hh.
  match goal with |- outcome_sat _ ?P (mbind _ (?m bytes)) =>
    apply (outcome_sat_bind _ (fun r => P r.1) _ (m bytes)); [|by intros [r rest] _ Hr] end.
  rewrite reader_bind_run. unfold read_encoded_row_shape.
  destruct (read_row_header bytes) as [[e|[shape rest]]|]; simpl in Hh; [exact I| |done].
  destruct Hh as [Hshape [taken ->]]. apply Forall_app in Hb as [_ Hb]. cbn [mbind outcome_bind fst snd].
  match goal with |- outcome_sat _ ?P (?m rest) =>
    assert (reader_sat (fun r => P (r, [])) m) as Hm; [|
      eapply outcome_sat_impl; [exact (Hm rest Hb)|done|by intros [r rest'] [Hr _]]] end.
  simpl. eapply reader_sat_bind; [apply remaining_count_sat|]. intros remaining _.
  eapply reader_sat_bind; [apply bounded_varint_sat|]. intros count _.
  eapply reader_sat_bind; [apply read_style_table_sat; constructor|]. intros styles Hs.
  eapply reader_sat_bind; [apply remaining_count_sat|]. intros remaining' _.
  eapply reader_sat_bind; [apply bounded_varint_sat|]. intros runs _.
  eapply reader_sat_bind.
  { apply (decode_runs_sat _ styles _ (shape_column_count shape - shape_trailing_blank_count shape));
      [done|]. split; [constructor|simpl; lia]. }
  intros cells [Hc _]. cbv beta. destruct (negb _) eqn:En; [apply reader_sat_fail|]. bools.
  eapply reader_sat_bind; [apply remaining_count_sat|]. intros left _. cbv beta.
  case_match; [apply reader_sat_fail|]. by apply reader_sat_ret.
Qed.

Lemma resize_cells_length n cells : length (resize_cells n cells) = n.
Proof. unfold resize_cells. rewrite length_app, length_take, length_replicate. lia. Qed.

(** C35: Decoding is total. On any byte string the decoder returns, with no
    panic and no endless loop: it reports an error, or a row of exactly the
    column count its header names, at most 65535, whose cells are all well
    formed (scalar characters, widths up to two, at most 32 continuation code
    points, whole styles) and carry no image data. *)
Theorem decoding_is_total bytes :
  Forall is_byte bytes ->
  outcome_sat (fun _ => True)
    (fun row => Forall Cell_wf (row_cells row)
       /\ Forall (fun c => get_image_cell_extra c = None) (row_cells row)
       /\ exists shape, read_encoded_row_shape bytes = ok shape
            /\ N.of_nat (length (row_cells row)) = shape_column_count shape
            /\ shape_column_count shape <= U16_MAX /\ decoded_row_end row = shape_row_end shape)
    (decode_row_cells bytes).
Proof.
  intros Hb. pose proof (decode_row_runs_sat bytes Hb) as H.
  unfold decode_row_cells, decode_row_run_cells_into.
  destruct (decode_row_runs bytes) as [[e|[shape cells]]|]; simpl in *; [done| |done].
  destruct H as ([Hs1 Hs2] & Hcells & Hlen & Hread).
  assert (Forall decoded_cell_ok (resize_cells (N.to_nat (shape_column_count shape)) cells)) as Hall.
  { unfold resize_cells. apply Forall_app. split; [by apply Forall_take|].
    apply Forall_replicate, blank_ok. }
  split_and!.
  - eapply Forall_impl; [exact Hall|]. by intros c [Hc _].
  - eapply Forall_impl; [exact Hall|]. intros c [_ Hc]. by apply encoded_no_image.
  - exists shape. rewrite resize_cells_length. split_and!; [done|lia|done|done].
Qed.

Lemma decoding_is_total_witness :
  exists row, decode_row_cells [16; 4; 0; 2; 1; 4; 0; 0; 0; 0; 1; 0; 2; 2; 97; 98; 0] = ok row
    /\ Forall Cell_wf (row_cells row).
Proof.
  pose proof (decoding_is_total [16; 4; 0; 2; 1; 4; 0; 0; 0; 0; 1; 0; 2; 2; 97; 98; 0]) as H.
  assert (decode_row_cells [16; 4; 0; 2; 1; 4; 0; 0; 0; 0; 1; 0; 2; 2; 97; 98; 0]
    = ok (MkDecodedRow example_row Hard)) as E by (vm_compute; reflexivity).
  exists (MkDecodedRow example_row Hard). split; [exact E|]. rewrite E in H. apply H.
  repeat constructor.
Defined.
