(* ===== verification/RowItems.v ===== *)
(** * The items of a run

    What one run of an encoded row says, between the encoder's buffers and the
    decoder's loop: a list of items, each a base character, a shape, its
    continuation code points and how often it repeats. The encoder writes the
    items of its cells, by whichever of its paths. *)

From S2P Require Import Prelude Varint Utf8 Style Cell RowEncoder RowDecoder.
From stdpp Require Import options.

(** ** Definitions *)

Record Item := MkItem
  { it_character : N;
    it_shape : ItemShape;
    it_marks : list N;
    it_repeat : nat }.

(** The cells an item stands for, in the style of its run. *)
Definition item_state (it : Item) : ItemState :=
  MkItemState (it_shape it) (it_marks it) (N.of_nat (it_repeat it)) None.
Definition item_cells (s : Style) (it : Item) : list Cell :=
  concat (replicate (it_repeat it) (build_item_cells (it_character it) (item_state it) s)).
Definition items_cells (s : Style) (items : list Item) : list Cell := items ≫= item_cells s.

(** The exceptions an item takes, and their bytes. *)
Definition item_payloads (it : Item) : list ExceptionPayload :=
  match it_shape it with
  | WidePairCells => [WidePair]
  | SingleCell w => if w =? 1 then [] else [Width w]
  end
  ++ (if bool_decide (it_marks it = []) then [] else [Combining (it_marks it)])
  ++ (if (1 <? it_repeat it)%nat then [Repeat (N.of_nat (it_repeat it - 1))] else []).

Definition payload_kind (p : ExceptionPayload) : N :=
  match p with
  | WidePair => WIDE_PAIR_EXCEPTION_KIND
  | Width _ => WIDTH_EXCEPTION_KIND
  | Combining _ => COMBINING_EXCEPTION_KIND
  | Repeat _ => REPEAT_EXCEPTION_KIND
  end.

Definition payload_bytes (p : ExceptionPayload) : list N :=
  match p with
  | WidePair => []
  | Width w => write_varint w
  | Combining text => write_varint (N.of_nat (length (utf8_bytes text))) ++ utf8_bytes text
  | Repeat n => write_varint n
  end.

Definition exception_at (i : nat) (p : ExceptionPayload) : ItemException :=
  MkItemException (N.of_nat i) (payload_kind p) p.

(** The exceptions of items from index [i] on. *)
Fixpoint items_exceptions (i : nat) (items : list Item) : list ItemException :=
  match items with
  | [] => []
  | it :: items' => (exception_at i <$> item_payloads it) ++ items_exceptions (S i) items'
  end.

Definition exception_bytes (previous : N) (e : ItemException) : list N :=
  write_varint (exception_item_index e - previous) ++ write_varint (exception_kind e)
  ++ payload_bytes (payload e).

Fixpoint exceptions_bytes (previous : N) (es : list ItemException) : list N :=
  match es with
  | [] => []
  | e :: es' => exception_bytes previous e ++ exceptions_bytes (exception_item_index e) es'
  end.

(** The index the next distance is measured from. *)
Definition last_index (es : list ItemException) : N :=
  match last es with Some e => exception_item_index e | None => 0 end.

(** The buffers hold exactly these exceptions, and these items. *)
Record exceptions_written (es : list ItemException) (st : RunState) : Prop :=
  { wr_exceptions : run_exceptions st = exceptions_bytes 0 es;
    wr_count : exception_count st = N.of_nat (length es);
    wr_previous : N.of_nat (previous_exception_item_index st) = last_index es }.

Record items_written (items : list Item) (st : RunState) : Prop :=
  { wr_text : run_text st = utf8_bytes (it_character <$> items);
    wr_index : item_index st = length items;
    wr_items : exceptions_written (items_exceptions 0 items) st }.

(** ** Exceptions *)

Lemma last_index_snoc es e : last_index (es ++ [e]) = exception_item_index e.
Proof. unfold last_index. by rewrite last_snoc. Qed.

Lemma exceptions_bytes_snoc es e previous :
  exceptions_bytes previous (es ++ [e])
  = exceptions_bytes previous es
    ++ exception_bytes (match last es with Some l => exception_item_index l | None => previous end) e.
Proof.
  revert previous. induction es as [|d es IH]; intros previous; cbn [app exceptions_bytes].
  - by rewrite app_nil_r.
  - rewrite IH, app_assoc. f_equal. rewrite last_cons. by destruct (last es).
Qed.

Lemma write_exception_written es st i p :
  exceptions_written es st ->
  exceptions_written (es ++ [exception_at i p]) (write_exception i (payload_kind p) (payload_bytes p) st).
Proof.
  intros [H1 H2 H3]. split; cbn [write_exception run_exceptions exception_count previous_exception_item_index].
  - rewrite exceptions_bytes_snoc, H1. f_equal. unfold exception_bytes, exception_at. cbn [exception_item_index exception_kind payload].
    rewrite Nat2N.inj_sub, H3. done.
  - rewrite length_app, H2. cbn [length]. lia.
  - by rewrite last_index_snoc.
Qed.

Lemma items_exceptions_app i items items' :
  items_exceptions i (items ++ items')
  = items_exceptions i items ++ items_exceptions (i + length items) items'.
Proof.
  revert i. induction items as [|it items IH]; intros i; cbn [app items_exceptions length].
  - by rewrite Nat.add_0_r.
  - by rewrite IH, <- app_assoc, Nat.add_succ_comm.
Qed.

Lemma items_cells_app s items items' :
  items_cells s (items ++ items') = items_cells s items ++ items_cells s items'.
Proof. apply bind_app. Qed.

(** ** Plain ASCII cells *)

Definition plain_ascii (c : Cell) : bool := is_ascii (character c) && is_plain_narrow_cell c.

(** One item for a cell of width one, repeated or not. *)
Definition ascii_item (repeat : nat) (c : Cell) : Item := MkItem (character c) (SingleCell 1) [] repeat.

Lemma plain_ascii_inv c :
  plain_ascii c = true ->
  is_ascii (character c) = true /\ display_width c = 1 /\ list_encoded_combining_characters c = [].
Proof. unfold plain_ascii, is_plain_narrow_cell. intros H. bools. done. Qed.

Lemma ascii_item_cells s repeat c :
  plain_ascii c = true -> cell_style c = s ->
  item_cells s (ascii_item repeat c) = replicate repeat (encoded_cell c).
Proof.
  intros (_ & Hw & Hm)%plain_ascii_inv Hs. unfold item_cells. cbn [ascii_item it_repeat].
  assert (build_item_cells (it_character (ascii_item repeat c)) (item_state (ascii_item repeat c)) s
    = [encoded_cell c]) as ->.
  { unfold encoded_cell. by rewrite Hw, Hm, Hs. }
  induction repeat as [|repeat IH]; [done|]. simpl. by rewrite IH.
Qed.

Lemma ascii_items_cells s cells :
  Forall (fun c => plain_ascii c = true) cells -> Forall (fun c => cell_style c = s) cells ->
  items_cells s (ascii_item 1 <$> cells) = encoded_cell <$> cells.
Proof.
  induction cells as [|c cells IH]; intros Hp Hs; [done|].
  apply Forall_cons in Hp as [Hp Hps], Hs as [Hs Hss]. cbn [fmap list_fmap].
  unfold items_cells in *. cbn [mbind list_bind]. rewrite IH, ascii_item_cells by done. done.
Qed.

Lemma ascii_items_exceptions i cells : items_exceptions i (ascii_item 1 <$> cells) = [].
Proof. revert i. induction cells as [|c cells IH]; intros i; [done|]. apply (IH (S i)). Qed.

Lemma ascii_text cells :
  Forall (fun c => plain_ascii c = true) cells ->
  (fun c => as_u8 (character c)) <$> cells = utf8_bytes (character <$> cells)
  /\ Forall is_scalar (character <$> cells).
Proof.
  induction 1 as [|c cells Hc _ [IH1 IH2]]; [done|]. apply plain_ascii_inv in Hc as (Ha & _ & _).
  rewrite !fmap_cons, utf8_bytes_cons, encode_utf8_ascii by done. split.
  - rewrite IH1. cbn [app]. f_equal. unfold as_u8, is_ascii, U8_MODULUS in *. bools.
    by rewrite N.mod_small by lia.
  - constructor; [by apply ascii_scalar|done].
Qed.

Lemma it_character_ascii_items repeat (cells : list Cell) :
  it_character <$> (ascii_item repeat <$> cells) = character <$> cells.
Proof. by rewrite <- list_fmap_compose. Qed.

(** Writing plain cells one item each. *)
Lemma push_ascii_written items st cells :
  items_written items st -> Forall (fun c => plain_ascii c = true) cells ->
  items_written (items ++ (ascii_item 1 <$> cells))
    (advance_items (length cells) (push_ascii_cell_text cells st)).
Proof.
  intros [H1 H2 [H3 H4 H5]] Hp. split; [|cbn; by rewrite length_app, length_fmap, H2|].
  - cbn [push_ascii_cell_text push_text advance_items run_text].
    rewrite H1, fmap_app, utf8_bytes_app, it_character_ascii_items. f_equal. by apply ascii_text.
  - rewrite items_exceptions_app, ascii_items_exceptions, app_nil_r. by split.
Qed.

(** Writing plain cells that end in a group of equal ones. *)
Lemma write_group_written items st cells group_start c :
  items_written items st -> Forall (fun c => plain_ascii c = true) cells ->
  (group_start + 1 < length cells)%nat -> cells !! group_start = Some c ->
  items_written (items ++ (ascii_item 1 <$> take group_start cells)
                       ++ [ascii_item (length cells - group_start) c])
    (write_repeated_ascii_group cells group_start st).
Proof.
  intros [H1 H2 H3] Hp Hlt Hc. unfold write_repeated_ascii_group. cbv zeta.
  assert (length (take group_start cells) = group_start) as Hl by (rewrite length_take; lia).
  set (st1 := push_ascii_cell_text _ st).
  assert (exceptions_written (items_exceptions 0 items) st1) as Hst1 by (by destruct H3).
  apply (write_exception_written _ _ (item_index st1 + group_start)
    (Repeat (N.of_nat (length cells - group_start - 1)))) in Hst1.
  split.
  - cbn [advance_items write_exception run_text st1 push_ascii_cell_text push_text].
    rewrite H1, !fmap_app, !utf8_bytes_app, it_character_ascii_items. f_equal.
    rewrite (proj1 (ascii_text _ (Forall_take _ _ _ Hp))).
    rewrite (take_S_r _ _ _ Hc), fmap_app, utf8_bytes_app. done.
  - cbn. rewrite !length_app, length_fmap, Hl, H2. cbn [length]. lia.
  - rewrite !items_exceptions_app, ascii_items_exceptions. cbn [app items_exceptions].
    rewrite length_fmap, Hl, app_nil_r. unfold item_payloads. cbn [ascii_item it_shape it_marks it_repeat].
    rewrite bool_decide_eq_true_2 by done. rewrite (proj2 (Nat.ltb_lt 1 _)) by lia.
    cbn [app fmap list_fmap N.eqb Pos.eqb].
    replace (0 + length items + group_start)%nat with (item_index st1 + group_start)%nat
      by (cbn; lia). by destruct Hst1.
Qed.

(** ** Slices *)

Lemma take_slice {A} a b (l : list A) : (a <= b)%nat -> take b l = take a l ++ slice a b l.
Proof. intros H. unfold slice. rewrite take_take_drop. f_equal. lia. Qed.

Lemma slice_length {A} a b (l : list A) : (b <= length l)%nat -> length (slice a b l) = (b - a)%nat.
Proof. intros H. unfold slice. rewrite length_take, length_drop. lia. Qed.

Lemma slice_lookup {A} a b (l : list A) j :
  (j < b - a)%nat -> slice a b l !! j = l !! (a + j)%nat.
Proof. intros H. unfold slice. by rewrite lookup_take_lt, lookup_drop by lia. Qed.

Lemma Forall_slice {A} (P : A -> Prop) a b l : Forall P l -> Forall P (slice a b l).
Proof. intros H. unfold slice. by apply Forall_take, Forall_drop. Qed.

(** ** Well-formed items *)

Record Item_wf (it : Item) : Prop :=
  { iw_character : is_scalar (it_character it);
    iw_shape : match it_shape it with SingleCell w => w <= 2 | WidePairCells => True end;
    iw_marks : Forall is_scalar (it_marks it);
    iw_mark_count : (length (it_marks it) <= MAX_GRAPHEME_CONTINUATION_COUNT)%nat;
    iw_repeat : (1 <= it_repeat it)%nat }.

Lemma ascii_item_wf repeat c : plain_ascii c = true -> (1 <= repeat)%nat -> Item_wf (ascii_item repeat c).
Proof.
  intros (Ha & _)%plain_ascii_inv Hr. split; simpl; [by apply ascii_scalar|done|constructor| |done].
  unfold MAX_GRAPHEME_CONTINUATION_COUNT. lia.
Qed.

(** Equal plain cells encode to equal cells. *)
Lemma plain_encoded_eq c d :
  plain_ascii c = true -> plain_ascii d = true -> character c = character d ->
  cell_style c = cell_style d -> encoded_cell c = encoded_cell d.
Proof.
  intros (_ & Hw & Hm)%plain_ascii_inv (_ & Hw' & Hm')%plain_ascii_inv Hc Hs.
  unfold encoded_cell. by rewrite Hw, Hw', Hm, Hm', Hc, Hs.
Qed.

(** ** Text byte counts *)

(** The bytes of text a cell counts for. *)
Definition cell_text_bytes (c : Cell) : nat :=
  if display_width c =? 0 then 0%nat
  else (len_utf8 (character c) + count_utf8_bytes (list_encoded_combining_characters c))%nat.

Definition cells_text_bytes (cells : list Cell) : nat := sum_list (cell_text_bytes <$> cells).


Lemma cells_text_bytes_app l k :
  cells_text_bytes (l ++ k) = (cells_text_bytes l + cells_text_bytes k)%nat.
Proof. unfold cells_text_bytes. by rewrite fmap_app, sum_list_with_app. Qed.

Lemma cell_text_bytes_encoded c : cell_text_bytes (encoded_cell c) = cell_text_bytes c.
Proof.
  unfold cell_text_bytes. rewrite encoded_cell_with_marks. cbn [cell_with_marks display_width character].
  replace (list_encoded_combining_characters _) with (list_encoded_combining_characters c) at 1; [done|].
  unfold cell_with_marks. unfold list_encoded_combining_characters at 2.
  by destruct (list_encoded_combining_characters c).
Qed.

Lemma cells_text_bytes_of_encoded l :
  cells_text_bytes l = cells_text_bytes (encoded_cell <$> l).
Proof.
  unfold cells_text_bytes. rewrite <- list_fmap_compose. f_equal. apply list_fmap_ext.
  intros _ c _. symmetry. apply cell_text_bytes_encoded.
Qed.

Lemma cells_text_bytes_replicate n l :
  cells_text_bytes (concat (replicate n l)) = (n * cells_text_bytes l)%nat.
Proof. induction n as [|n IH]; [done|]. cbn [replicate concat]. by rewrite cells_text_bytes_app, IH. Qed.

Lemma count_utf8_bytes_length t : Forall is_scalar t -> count_utf8_bytes t = length (utf8_bytes t).
Proof.
  unfold count_utf8_bytes. induction 1 as [|c t Hc _ IH]; [done|].
  rewrite utf8_bytes_cons, length_app, encode_utf8_length by done. csimpl. by rewrite IH.
Qed.

(** The marks of a well-formed cell that the encoding carries. *)
Lemma encoded_marks_wf c :
  Cell_wf c ->
  Forall is_scalar (list_encoded_combining_characters c)
  /\ (length (list_encoded_combining_characters c) <= MAX_GRAPHEME_CONTINUATION_COUNT)%nat.
Proof.
  intros [_ _ _ H1 H2]. unfold list_encoded_combining_characters. case_match; [|done].
  split; [constructor|simpl; unfold MAX_GRAPHEME_CONTINUATION_COUNT; lia].
Qed.

(** Writing one item: its text and its exceptions, in the order of their kinds. *)
Lemma item_written_snoc items st st' it :
  items_written items st -> Item_wf it ->
  run_text st' = run_text st ++ encode_utf8 (it_character it) ->
  item_index st' = S (item_index st) ->
  exceptions_written (items_exceptions 0 items ++ (exception_at (item_index st) <$> item_payloads it)) st' ->
  items_written (items ++ [it]) st'.
Proof.
  intros [H1 H2 H3] Hwf Ht Hi He. split.
  - rewrite Ht, H1, fmap_app, utf8_bytes_app. f_equal. cbn. by rewrite app_nil_r.
  - rewrite Hi, H2, length_app. simpl. lia.
  - rewrite items_exceptions_app. cbn [items_exceptions]. rewrite app_nil_r, Nat.add_0_l, <- H2. done.
Qed.

Lemma take_slice_two {A} (l : list A) i c d :
  l !! i = Some c -> l !! S i = Some d -> slice i (i + 2) l = [c; d].
Proof.
  intros Hc Hd. unfold slice. replace (i + 2 - i)%nat with 2%nat by lia.
  by rewrite (drop_S _ _ _ Hc), (drop_S _ _ _ Hd).
Qed.

(** A conditional write of an exception. *)
Lemma write_exception_if_written (b : bool) es st i p :
  exceptions_written es st ->
  let st' := if b then write_exception i (payload_kind p) (payload_bytes p) st else st in
  exceptions_written (es ++ if b then [exception_at i p] else []) st'
  /\ run_text st' = run_text st /\ item_index st' = item_index st
  /\ text_byte_count st' = text_byte_count st.
Proof.
  intros H. destruct b; cbv zeta; [|by rewrite app_nil_r].
  split; [by apply write_exception_written|done].
Qed.

Lemma slice_one {A} (l : list A) i c : l !! i = Some c -> slice i (i + 1) l = [c].
Proof.
  intros H. unfold slice. replace (i + 1 - i)%nat with 1%nat by lia. by rewrite (drop_S _ _ _ H).
Qed.

(** ** The encoder's loops over one run *)

Section run.
Context (run_cells : list Cell) (s : Style) (is_plain_ascii_run : bool).
Hypothesis same_style : Forall (fun c => cell_style c = s) run_cells.
Hypothesis cells_wf : Forall Cell_wf run_cells.
Hypothesis plain_run :
  is_plain_ascii_run = true -> Forall (fun c => plain_ascii c = true) run_cells.

Set Default Proof Using "All".

(** The buffers hold the items of the first [k] cells. *)
Record encoded_to (k : nat) (items : list Item) (st : RunState) : Prop :=
  { en_written : items_written items st;
    en_cells : items_cells s items = encoded_cell <$> take k run_cells;
    en_wf : Forall Item_wf items;
    en_bound : (k <= length run_cells)%nat }.

(** What the scan over plain cells maintains, from cell [i0] on. *)
Record scan_ok (i0 : nat) (scan : AsciiScan) (st0 : RunState) (items : list Item) (st : RunState) : Prop :=
  { sc_encoded : encoded_to (unwritten_cell_index scan) items st;
    sc_order : (i0 <= unwritten_cell_index scan <= group_start_index scan)%nat
               /\ (group_start_index scan <= scan_cell_index scan <= length run_cells)%nat;
    sc_plain : Forall (fun c => plain_ascii c = true) (slice i0 (scan_cell_index scan) run_cells);
    sc_group : forall j c, (group_start_index scan <= j < scan_cell_index scan)%nat ->
                 run_cells !! j = Some c -> character c = group_character scan;
    sc_text : text_byte_count st = text_byte_count st0 }.

Lemma unwritten_plain i0 scan st0 items st :
  scan_ok i0 scan st0 items st ->
  Forall (fun c => plain_ascii c = true)
    (slice (unwritten_cell_index scan) (scan_cell_index scan) run_cells).
Proof.
  intros [_ [H1 H2] Hp _ _]. rewrite Forall_lookup in *. intros j c Hj.
  pose proof (lookup_lt_Some _ _ _ Hj) as Hlt. rewrite slice_length in Hlt by lia.
  rewrite slice_lookup in Hj by lia. apply (Hp (unwritten_cell_index scan + j - i0)%nat).
  rewrite slice_lookup by lia. rewrite <- Hj. f_equal. lia.
Qed.

Lemma finish_group_ok i0 scan st0 items st st' :
  scan_ok i0 scan st0 items st -> finish_group run_cells scan st = Some st' ->
  exists items', encoded_to (scan_cell_index scan) items' st' /\ text_byte_count st' = text_byte_count st0.
Proof.
  intros Hok. pose proof (unwritten_plain _ _ _ _ _ Hok) as Hplain.
  destruct Hok as [[Hw Hc Hwf _] [H1 H2] _ Hgroup Htext].
  unfold finish_group. case_match eqn:E; [|done]. bools. intros [= <-].
  unfold MIN_REPEATED_ITEM_COUNT in E.
  set (u := unwritten_cell_index scan) in *. set (g := group_start_index scan) in *.
  set (e := scan_cell_index scan) in *.
  set (cells := slice u e run_cells) in *.
  assert (length cells = e - u)%nat as Hlen by (apply slice_length; lia).
  destruct (lookup_lt_is_Some_2 cells (g - u)%nat ltac:(lia)) as [c Hcg].
  exists (items ++ (ascii_item 1 <$> take (g - u) cells) ++ [ascii_item (length cells - (g - u)) c]).
  split; [|done]. split; [| | |lia].
  - apply write_group_written; [done|done|lia|done].
  - assert (Forall (fun c => cell_style c = s) cells) as Hs by (by apply Forall_slice).
    assert (plain_ascii c = true /\ cell_style c = s) as [Hpc Hsc].
    { rewrite Forall_lookup in Hplain, Hs. split; [by eapply Hplain|by eapply Hs]. }
    rewrite (take_slice u e) by lia. fold cells. rewrite fmap_app, <- Hc, !items_cells_app. f_equal.
    rewrite ascii_items_cells by (by apply Forall_take). unfold items_cells. cbn [mbind list_bind].
    rewrite app_nil_r, ascii_item_cells by done.
    rewrite <- (take_drop (g - u) cells) at 3. rewrite fmap_app. f_equal.
    apply list_eq. intros j. rewrite list_lookup_fmap, lookup_drop.
    destruct (decide (j < length cells - (g - u))%nat) as [Hj|Hj].
    + rewrite lookup_replicate_2 by done.
      destruct (lookup_lt_is_Some_2 cells (g - u + j)%nat ltac:(lia)) as [d Hd]. rewrite Hd. simpl.
      f_equal. rewrite Forall_lookup in Hplain, Hs. apply plain_encoded_eq; [done|by eapply Hplain| |].
      * unfold cells in Hd, Hcg. rewrite slice_lookup in Hd, Hcg by lia.
        rewrite (Hgroup (u + (g - u + j))%nat d ltac:(lia) Hd), (Hgroup (u + (g - u))%nat c ltac:(lia) Hcg). done.
      * rewrite Hsc. symmetry. by eapply Hs.
    + rewrite (lookup_ge_None_2 (replicate _ _)) by (rewrite length_replicate; lia).
      rewrite (lookup_ge_None_2 cells) by lia. done.
  - rewrite !Forall_app, Forall_singleton. split_and!; [done| |].
    + apply Forall_fmap, Forall_take. eapply Forall_impl; [exact Hplain|]. intros d Hd.
      by apply ascii_item_wf.
    + apply ascii_item_wf; [|lia]. rewrite Forall_lookup in Hplain. by eapply Hplain.
Qed.

Lemma finish_ascii_ok i0 scan st0 items st :
  scan_ok i0 scan st0 items st ->
  exists items', encoded_to (scan_cell_index scan) items' (finish_ascii_cells run_cells scan st)
    /\ text_byte_count (finish_ascii_cells run_cells scan st) = text_byte_count st0.
Proof.
  intros Hok. unfold finish_ascii_cells. destruct (finish_group run_cells scan st) as [st'|] eqn:E.
  { by eapply finish_group_ok. }
  pose proof (unwritten_plain _ _ _ _ _ Hok) as Hplain. destruct Hok as [[Hw Hc Hwf Hb] [H1 H2] _ _ Htext].
  set (cells := slice _ _ run_cells) in *.
  exists (items ++ (ascii_item 1 <$> cells)). split; [|done]. split; [| | |lia].
  - rewrite <- (slice_length _ _ run_cells) by lia. by apply push_ascii_written.
  - rewrite (take_slice (unwritten_cell_index scan)) by lia. fold cells.
    rewrite fmap_app, <- Hc, items_cells_app. f_equal. apply ascii_items_cells; [done|].
    by apply Forall_slice.
  - apply Forall_app. split; [done|]. apply Forall_fmap. eapply Forall_impl; [exact Hplain|].
    intros d Hd. by apply ascii_item_wf.
Qed.

(** The scan keeps its invariant, and stops before a cell that is not plain. *)
Lemma scan_ascii_ok i0 cells scan st0 items st :
  cells = drop (scan_cell_index scan) run_cells -> scan_ok i0 scan st0 items st ->
  let '(scan', st') := scan_ascii_cells is_plain_ascii_run run_cells cells scan st in
  exists items', scan_ok i0 scan' st0 items' st'
    /\ (scan_cell_index scan <= scan_cell_index scan')%nat
    /\ (forall c, run_cells !! scan_cell_index scan' = Some c ->
          is_plain_ascii_run = false /\ plain_ascii c = false).
Proof.
  revert scan items st. induction cells as [|c cells IH]; intros scan items st Hcells Hok; cbn [scan_ascii_cells].
  { exists items. split_and!; [done|done|]. intros c Hc. exfalso.
    rewrite <- (Nat.add_0_r (scan_cell_index scan)), <- lookup_drop, <- Hcells in Hc. done. }
  assert (run_cells !! scan_cell_index scan = Some c) as Hc.
  { rewrite <- (Nat.add_0_r (scan_cell_index scan)), <- lookup_drop, <- Hcells. done. }
  destruct (negb is_plain_ascii_run && _) eqn:Estop.
  { exists items. split_and!; [done|done|]. intros d Hd. assert (d = c) as -> by congruence.
    unfold plain_ascii. destruct is_plain_ascii_run; [done|]. split; [done|].
    destruct (is_ascii (character c)); [|done]. by destruct (is_plain_narrow_cell c). }
  assert (plain_ascii c = true) as Hpc.
  { destruct is_plain_ascii_run eqn:Ep.
    - specialize (plain_run eq_refl). rewrite Forall_lookup in plain_run. by eapply plain_run.
    - unfold plain_ascii. destruct (is_ascii (character c)); [|done].
      by destruct (is_plain_narrow_cell c). }
  assert (drop (S (scan_cell_index scan)) run_cells = cells) as Hdrop.
  { change (S (scan_cell_index scan)) with (1 + scan_cell_index scan)%nat.
    rewrite Nat.add_comm, <- drop_drop, <- Hcells. done. }
  pose proof (lookup_lt_Some _ _ _ Hc) as Hlt.
  assert (forall (group_start : nat) (ch : N) (unwritten : nat) items1 st1,
    encoded_to unwritten items1 st1 -> (i0 <= unwritten <= group_start)%nat ->
    (group_start <= scan_cell_index scan)%nat -> ch = character c ->
    (forall j d, (group_start <= j < scan_cell_index scan)%nat -> run_cells !! j = Some d -> character d = ch) ->
    text_byte_count st1 = text_byte_count st0 ->
    scan_ok i0 (MkAsciiScan (S (scan_cell_index scan)) unwritten group_start ch) st0 items1 st1) as Hnext.
  { intros group_start ch unwritten items1 st1 Hen H1 H2 Hch Hg Ht.
    split; simpl; [done|lia| | |done].
    - destruct Hok as [_ [Ho1 Ho2] Hp _ _]. rewrite Forall_lookup in Hp |- *. intros j d Hj.
      pose proof (lookup_lt_Some _ _ _ Hj) as Hjl. rewrite slice_length in Hjl by lia.
      rewrite slice_lookup in Hj by lia.
      destruct (decide (i0 + j = scan_cell_index scan)%nat) as [E|E]; [congruence|].
      apply (Hp j). rewrite slice_lookup by lia. done.
    - intros j d Hj Hd. destruct (decide (j = scan_cell_index scan)) as [->|E]; [congruence|].
      apply (Hg j d); [lia|done]. }
  destruct (negb (character c =? group_character scan)) eqn:Ech.
  - destruct (finish_group run_cells scan st) as [st'|] eqn:Ef.
    + destruct (finish_group_ok _ _ _ _ _ _ Hok Ef) as (items' & Hen & Ht).
      destruct Hok as [_ [Ho1 Ho2] _ _ _].
      specialize (IH (MkAsciiScan (S (scan_cell_index scan)) (scan_cell_index scan)
        (scan_cell_index scan) (character c)) items' st' ltac:(by simpl)).
      cbn [scan_cell_index unwritten_cell_index group_start_index group_character] in IH |- *.
      destruct (scan_ascii_cells _ _ _ _ _) as [scan' st''].
      destruct IH as (items'' & H1 & H2 & H3).
      { apply Hnext; [done|lia|lia|done| |done]. intros; lia. }
      exists items''. split_and!; [done|lia|done].
    + destruct Hok as [Hen [Ho1 Ho2] _ _ Ht].
      specialize (IH (MkAsciiScan (S (scan_cell_index scan)) (unwritten_cell_index scan)
        (scan_cell_index scan) (character c)) items st ltac:(by simpl)).
      cbn [scan_cell_index unwritten_cell_index group_start_index group_character] in IH |- *.
      destruct (scan_ascii_cells _ _ _ _ _) as [scan' st''].
      destruct IH as (items'' & H1 & H2 & H3).
      { apply Hnext; [done|lia|lia|done| |done]. intros; lia. }
      exists items''. split_and!; [done|lia|done].
  - bools. destruct Hok as [Hen [Ho1 Ho2] _ Hg Ht].
    specialize (IH (MkAsciiScan (S (scan_cell_index scan)) (unwritten_cell_index scan)
      (group_start_index scan) (group_character scan)) items st ltac:(by simpl)).
    destruct (scan_ascii_cells _ _ _ _ _) as [scan' st''].
    destruct IH as (items'' & H1 & H2 & H3).
    { apply Hnext; [done|lia|lia|done|done|done]. }
    simpl in H2. exists items''. split_and!; [done|lia|done].
Qed.

(** *** Items that are no plain ASCII cell *)

(** Item [j] after [cell_index] encodes as the item there. *)
Definition equal_items (cell_index item_cell_count count : nat) : Prop :=
  (cell_index + count * item_cell_count <= length run_cells)%nat
  /\ forall j, (j < count)%nat ->
       encoded_cell <$> slice (cell_index + j * item_cell_count)
         (cell_index + S j * item_cell_count) run_cells
       = encoded_cell <$> slice cell_index (cell_index + item_cell_count) run_cells.

Lemma item_encoding_equal_encoded l k :
  Forall (fun c => cell_style c = s) l -> Forall (fun c => cell_style c = s) k ->
  length l = length k -> is_item_encoding_equal l k = true -> encoded_cell <$> l = encoded_cell <$> k.
Proof.
  revert k. induction l as [|c l IH]; intros [|d k] Hl Hk Hlen H; try done.
  apply Forall_cons in Hl as [Hc Hl], Hk as [Hd Hk]. unfold is_item_encoding_equal in H.
  cbn [zip zip_with forallb] in H. bools. rewrite !fmap_cons. f_equal.
  - unfold is_cell_encoding_equal in *. simpl in *. bools. rewrite !encoded_cell_with_marks. congruence.
  - apply IH; [done|done|by injection Hlen|done].
Qed.

Lemma count_repeated_ok fuel cell_index item_cell_count count :
  (1 <= count)%nat -> equal_items cell_index item_cell_count count ->
  let r := count_repeated_items fuel run_cells cell_index item_cell_count count in
  (1 <= r)%nat /\ equal_items cell_index item_cell_count r.
Proof.
  revert count. induction fuel as [|fuel IH]; intros count H1 Heq; [done|]. cbn [count_repeated_items].
  cbv zeta. case_match eqn:E; [|done]. bools. apply IH; [lia|]. destruct Heq as [Hb Heq].
  rewrite length_take, length_drop in *. split; [lia|].
  intros j Hj. destruct (decide (j = count)) as [->|Hne]; [|apply Heq; lia].
  assert (slice (cell_index + count * item_cell_count) (cell_index + S count * item_cell_count) run_cells
    = take item_cell_count (drop (cell_index + count * item_cell_count) run_cells)) as ->.
  { unfold slice. f_equal. lia. }
  symmetry. apply item_encoding_equal_encoded.
  - by apply Forall_slice.
  - by apply Forall_take, Forall_drop.
  - rewrite slice_length, length_take, length_drop by lia. lia.
  - done.
Qed.

Lemma equal_items_cells cell_index item_cell_count count :
  equal_items cell_index item_cell_count count ->
  encoded_cell <$> slice cell_index (cell_index + item_cell_count * count) run_cells
  = concat (replicate count
      (encoded_cell <$> slice cell_index (cell_index + item_cell_count) run_cells)).
Proof.
  intros [Hb Heq]. induction count as [|count IH].
  { unfold slice at 1. rewrite Nat.mul_0_r, Nat.add_0_r, Nat.sub_diag, take_0. done. }
  rewrite replicate_S_end, concat_app. cbn [concat]. rewrite app_nil_r.
  rewrite <- IH, <- (Heq count) by (lia || (intros; apply Heq; lia)). rewrite <- fmap_app. f_equal.
  unfold slice. rewrite (Nat.mul_comm count).
  replace (drop (cell_index + item_cell_count * count) run_cells)
    with (drop (item_cell_count * count) (drop cell_index run_cells)) by (by rewrite drop_drop).
  replace (cell_index + item_cell_count * count - cell_index)%nat with (item_cell_count * count)%nat by lia.
  rewrite take_take_drop. f_equal. lia.
Qed.

(** The cells of the item at [cell_index], on their own. *)
Lemma one_item_cells cell_index base_cell repeat :
  run_cells !! cell_index = Some base_cell ->
  let wide :=
    (display_width base_cell =? 2)
    && match run_cells !! S cell_index with
       | Some next_cell => is_standard_continuation_cell next_cell | None => false end in
  let icc := if wide then 2%nat else 1%nat in
  let it := MkItem (character base_cell)
    (if wide then WidePairCells else SingleCell (display_width base_cell))
    (list_encoded_combining_characters base_cell) repeat in
  (cell_index + icc <= length run_cells)%nat
  /\ encoded_cell <$> slice cell_index (cell_index + icc) run_cells
     = build_item_cells (character base_cell) (item_state it) s
  /\ cells_text_bytes (slice cell_index (cell_index + icc) run_cells) = cell_text_bytes base_cell.
Proof.
  intros Hbase wide icc it. pose proof (lookup_lt_Some _ _ _ Hbase) as Hlt.
  assert (forall c i, run_cells !! i = Some c -> cell_style c = s) as Hs
    by (intros c i Hi; rewrite Forall_lookup in same_style; by eapply same_style).
  unfold icc, it, build_item_cells. rewrite push_marks.
  cbn [item_state item_shape combining_characters it_shape it_marks].
  destruct wide eqn:Ew; unfold wide in Ew.
  - destruct (run_cells !! S cell_index) as [next|] eqn:En; [|by rewrite andb_false_r in Ew].
    unfold is_standard_continuation_cell in Ew. bools.
    split; [pose proof (lookup_lt_Some _ _ _ En); lia|].
    rewrite (take_slice_two _ _ base_cell next) by done. cbn [fmap list_fmap]. split.
    + rewrite !encoded_cell_with_marks, (Hs _ _ Hbase), (Hs _ _ En).
      by repeat match goal with
        | H : _ next = _ |- _ => rewrite H
        | H : display_width base_cell = _ |- _ => rewrite H
        end.
    + unfold cells_text_bytes, cell_text_bytes. simpl.
      repeat match goal with H : display_width next = _ |- _ => rewrite H end. simpl. lia.
  - split; [lia|]. rewrite (slice_one _ _ _ Hbase). cbn [fmap list_fmap]. split.
    + by rewrite encoded_cell_with_marks, (Hs _ _ Hbase).
    + unfold cells_text_bytes. simpl. lia.
Qed.

(** The item at [cell_index] that the encoder takes. *)
Lemma encode_item_ok cell_index items st base_cell :
  encoded_to cell_index items st -> run_cells !! cell_index = Some base_cell ->
  let '(cell_index', st') := encode_item run_cells cell_index base_cell st in
  exists items', encoded_to cell_index' items' st' /\ (cell_index < cell_index')%nat
    /\ text_byte_count st'
       = (text_byte_count st + cells_text_bytes (slice cell_index cell_index' run_cells))%nat.
Proof.
  intros [Hw Hc Hwf Hb] Hbase. unfold encode_item.
  set (counted := count_repeated_items _ _ _ _ _).
  set (repeat := if (counted <? MIN_REPEATED_ITEM_COUNT)%nat then 1%nat else counted).
  destruct (one_item_cells cell_index base_cell repeat Hbase) as (Hicc & Hone & Hbytes).
  cbv zeta in Hicc, Hone, Hbytes.
  set (wide := (display_width base_cell =? 2) && _) in *.
  set (icc := if wide then 2%nat else 1%nat) in *.
  set (marks := list_encoded_combining_characters base_cell) in *.
  set (it := MkItem _ _ _ repeat) in Hone.
  assert (Cell_wf base_cell) as Hbwf by (rewrite Forall_lookup in cells_wf; by eapply cells_wf).
  destruct (encoded_marks_wf base_cell Hbwf) as [Hm1 Hm2]. fold marks in Hm1, Hm2.
  assert (equal_items cell_index icc 1) as H1.
  { split; [lia|]. intros j Hj. assert (j = 0%nat) as -> by lia. by rewrite !Nat.mul_0_l, Nat.add_0_r, Nat.mul_1_l. }
  destruct (count_repeated_ok (length run_cells) cell_index icc 1 ltac:(lia) H1) as [Hr1 Hr2].
  fold counted in Hr1, Hr2.
  assert ((1 <= repeat)%nat /\ equal_items cell_index icc repeat) as [Hrep Heq]
    by (unfold repeat; by case_match).
  clearbody repeat. clear counted Hr1 Hr2 H1.
  pose proof (equal_items_cells _ _ _ Heq) as Hcells. rewrite Hone in Hcells.
  assert (Item_wf it) as Hit.
  { destruct Hbwf. split; simpl; [done|by destruct wide|done|done|done]. }
  (* the writes *)
  cbv zeta. set (st1 := push_text _ st). set (st2 := if negb (display_width base_cell =? 0) then _ else st1).
  assert (exceptions_written (items_exceptions 0 items) st2
    /\ run_text st2 = run_text st ++ encode_utf8 (character base_cell) /\ item_index st2 = item_index st
    /\ text_byte_count st2 = (text_byte_count st + repeat * cell_text_bytes base_cell)%nat)
    as (He2 & Ht2 & Hi2 & Hx2).
  { destruct Hw as [_ _ [? ? ?]]. unfold st2, st1, cell_text_bytes. fold marks.
    destruct (display_width base_cell =? 0); cbn [negb]; (split_and!; [by split|done|done|]);
      cbn [text_byte_count add_text_byte_count push_text]; lia. }
  set (st3 := if wide then _ else _).
  assert (exceptions_written (items_exceptions 0 items ++ (exception_at (item_index st) <$>
      match it_shape it with
      | WidePairCells => [WidePair]
      | SingleCell w => if w =? 1 then [] else [Width w]
      end)) st3
    /\ run_text st3 = run_text st2 /\ item_index st3 = item_index st
    /\ text_byte_count st3 = text_byte_count st2) as (He3 & Ht3 & Hi3 & Hx3).
  { unfold st3, it. cbn [it_shape]. rewrite Hi2. destruct wide; [|destruct (display_width base_cell =? 1)]; cbn [negb].
    - destruct (write_exception_if_written true _ _ (item_index st) WidePair He2) as (? & ? & ? & ?).
      split_and!; [done|done|exact Hi2|done].
    - rewrite fmap_nil, app_nil_r. done.
    - destruct (write_exception_if_written true _ _ (item_index st) (Width (display_width base_cell)) He2)
        as (? & ? & ? & ?). split_and!; [done|done|exact Hi2|done]. }
  rewrite Hi3.
  destruct (write_exception_if_written (negb (bool_decide (marks = []))) _ _ (item_index st)
    (Combining marks) He3) as (He4 & Ht4 & Hi4 & Hx4).
  cbn [payload_kind payload_bytes] in He4, Ht4, Hi4, Hx4.
  rewrite <- count_utf8_bytes_length in He4, Ht4, Hi4, Hx4 by done. cbv zeta in He4, Ht4, Hi4, Hx4.
  set (st4 := if negb (bool_decide (marks = [])) then _ else st3) in *. rewrite Hi4, Hi3.
  destruct (write_exception_if_written (1 <? repeat)%nat _ _ (item_index st)
    (Repeat (N.of_nat (repeat - 1))) He4) as (He5 & Ht5 & Hi5 & Hx5).
  cbn [payload_kind payload_bytes] in He5, Ht5, Hi5, Hx5. cbv zeta in He5, Ht5, Hi5, Hx5.
  set (st5 := if (1 <? repeat)%nat then _ else st4) in *.
  exists (items ++ [it]). split_and!.
  - destruct Heq as [Hbound _]. split.
    + apply (item_written_snoc _ st); [done|done| | |].
      * cbn [advance_items run_text]. by rewrite Ht5, Ht4, Ht3, Ht2.
      * cbn [advance_items item_index]. rewrite Hi5, Hi4, Hi3. lia.
      * assert (forall st es, exceptions_written es st -> exceptions_written es (advance_items 1 st)) as Hadv
          by (intros ? ? []; by split).
        apply Hadv. revert He5. unfold item_payloads. cbn [it it_marks it_repeat].
        rewrite !fmap_app, <- !app_assoc. by destruct (bool_decide (marks = [])), (1 <? repeat)%nat.
    + rewrite items_cells_app, Hc, (take_slice cell_index (cell_index + icc * repeat)) by lia. rewrite fmap_app, Hcells. f_equal.
      unfold items_cells. cbn [mbind list_bind]. rewrite app_nil_r. done.
    + by apply Forall_app; rewrite Forall_singleton.
    + lia.
  - unfold icc. destruct wide; lia.
  - cbn [advance_items text_byte_count]. rewrite Hx5, Hx4, Hx3, Hx2. f_equal.
    rewrite cells_text_bytes_of_encoded, Hcells, <- Hone.
    rewrite cells_text_bytes_replicate, <- cells_text_bytes_of_encoded. by f_equal.
Qed.

Lemma drop_slice_app a b c : (a <= b)%nat -> (b <= c)%nat ->
  slice a c run_cells = slice a b run_cells ++ slice b c run_cells.
Proof.
  intros H1 H2. unfold slice. replace (drop b run_cells) with (drop (b - a) (drop a run_cells)).
  - rewrite take_take_drop. f_equal. lia.
  - rewrite drop_drop. f_equal. lia.
Qed.

Lemma plain_cells_text cells :
  Forall (fun c => plain_ascii c = true) cells -> cells_text_bytes cells = length cells.
Proof.
  unfold cells_text_bytes. induction 1 as [|c cells Hc _ IH]; [done|].
  rewrite fmap_cons. simpl. rewrite IH. apply plain_ascii_inv in Hc as (Ha & Hw & Hm).
  unfold cell_text_bytes. rewrite Hw, Hm. unfold len_utf8, is_ascii in *. rewrite Ha. done.
Qed.

Lemma encode_items_ok fuel cell_index items st :
  encoded_to cell_index items st -> (length run_cells - cell_index <= fuel)%nat ->
  let '(cell_index', st') := encode_items fuel is_plain_ascii_run run_cells cell_index st in
  cell_index' = length run_cells
  /\ exists items', encoded_to (length run_cells) items' st'
       /\ text_byte_count st'
          = (text_byte_count st + cells_text_bytes (slice cell_index (length run_cells) run_cells))%nat.
Proof.
  revert cell_index items st. induction fuel as [|fuel IH]; intros cell_index items st Hen Hfuel;
    pose proof (en_bound _ _ _ Hen) as Hb; cbn [encode_items].
  { assert (cell_index = length run_cells) as -> by lia. split; [done|]. exists items. split; [done|].
    unfold slice. rewrite Nat.sub_diag, take_0. unfold cells_text_bytes. simpl. lia. }
  destruct (run_cells !! cell_index) as [base_cell|] eqn:Hbase.
  2: { apply lookup_ge_None in Hbase. assert (cell_index = length run_cells) as -> by lia.
       split; [done|]. exists items. split; [done|].
       unfold slice. rewrite Nat.sub_diag, take_0. unfold cells_text_bytes. simpl. lia. }
  pose proof (lookup_lt_Some _ _ _ Hbase) as Hlt.
  assert (scan_ok cell_index (MkAsciiScan cell_index cell_index cell_index 0) st items st) as Hscan.
  { split; simpl; [done|lia| |intros; lia|done]. unfold slice. rewrite Nat.sub_diag, take_0. constructor. }
  pose proof (scan_ascii_ok cell_index (drop cell_index run_cells)
    (MkAsciiScan cell_index cell_index cell_index 0) st items st eq_refl Hscan) as Hs.
  destruct (scan_ascii_cells _ _ _ _ st) as [scan st1].
  destruct Hs as (items1 & Hs & Hle & _). cbn [scan_cell_index] in Hle.
  destruct (cell_index <? scan_cell_index scan)%nat eqn:E; bools.
  - destruct (finish_ascii_ok _ _ _ _ _ Hs) as (items2 & Hen2 & Ht2).
    set (st2 := finish_ascii_cells run_cells scan st1) in *.
    assert (encoded_to (scan_cell_index scan) items2
      (add_text_byte_count (scan_cell_index scan - cell_index) st2)) as Hen3.
    { destruct Hen2 as [[? ? [? ? ?]] ? ? ?]. by split. }
    pose proof (sc_order _ _ _ _ _ Hs) as [_ Ho].
    specialize (IH _ _ _ Hen3 ltac:(lia)). destruct (encode_items _ _ _ _ _) as [ci st3].
    destruct IH as [-> (items3 & Hen4 & Ht3)]. split; [done|]. exists items3. split; [done|].
    rewrite Ht3. cbn [text_byte_count add_text_byte_count]. rewrite Ht2.
    rewrite (drop_slice_app cell_index (scan_cell_index scan) (length run_cells)), cells_text_bytes_app by lia.
    rewrite (plain_cells_text (slice cell_index _ _)) by apply (sc_plain _ _ _ _ _ Hs).
    rewrite slice_length by lia. lia.
  - assert (encoded_to cell_index items1 st1 /\ text_byte_count st1 = text_byte_count st) as [Hen1 Ht1].
    { destruct Hs as [He [Ho1 Ho2] _ _ Ht]. split; [|done].
      by replace cell_index with (unwritten_cell_index scan) by lia. }
    pose proof (encode_item_ok cell_index items1 st1 base_cell Hen1 Hbase) as Hi.
    destruct (encode_item _ _ _ _) as [ci st2]. destruct Hi as (items2 & Hen2 & Hlt2 & Ht2).
    pose proof (en_bound _ _ _ Hen2) as Hb2.
    specialize (IH _ _ _ Hen2 ltac:(lia)). destruct (encode_items _ _ _ _ _) as [ci' st3].
    destruct IH as [-> (items3 & Hen4 & Ht3)]. split; [done|]. exists items3. split; [done|].
    rewrite Ht3, Ht2, Ht1. rewrite (drop_slice_app cell_index ci (length run_cells)), cells_text_bytes_app by lia. lia.
Qed.

(** The run's bytes and its text byte count, by its items. *)
Definition run_bytes_of (style_index : nat) (cell_count : nat) (items : list Item) : list N :=
  let text := utf8_bytes (it_character <$> items) in
  let es := items_exceptions 0 items in
  write_varint (N.of_nat style_index) ++ write_varint (N.of_nat cell_count)
  ++ write_varint (N.of_nat (length text)) ++ text
  ++ write_varint (N.of_nat (length es)) ++ exceptions_bytes 0 es.

Lemma encode_run_ok style_index :
  exists items,
    encode_run run_cells style_index is_plain_ascii_run
    = (run_bytes_of style_index (length run_cells) items, cells_text_bytes run_cells)
    /\ items_cells s items = encoded_cell <$> run_cells /\ Forall Item_wf items.
Proof.
  unfold encode_run.
  assert (encoded_to 0 [] empty_run_state) as H0.
  { split; [|done|constructor|lia]. split; [done|done|by split]. }
  pose proof (encode_items_ok (length run_cells) 0 [] empty_run_state H0 ltac:(lia)) as H.
  destruct (encode_items _ _ _ _ _) as [ci st]. destruct H as [-> (items & [[H1 H2 [H3 H4 H5]] Hc Hwf _] & Ht)].
  exists items. split_and!; [|by rewrite Hc, take_ge|done].
  rewrite Ht, H1, H3, H4. unfold slice. by rewrite Nat.sub_0_r, drop_0, take_ge.
Qed.
End run.
