(* ===== verification/RowRoundTrip.v ===== *)
(** * Encoded rows round-trip

    The decoder reads back every row the encoder writes, run by run and item
    by item; the styles of the table are found again; a stream of rows splits
    where it was joined; a row repadded to another width is the row padded. *)

From S2P Require Import Prelude Varint Utf8 Style Cell RowEncoder RowDecoder RowItems.
From stdpp Require Import strings options.
#[local] Open Scope N_scope.

(** ** Reading what was written *)

Lemma reader_read_written v rest :
  is_u64 v -> reader_read_varint (write_varint v ++ rest) = ok (v, rest).
Proof. intros Hv. unfold reader_read_varint. by rewrite read_write_varint. Qed.

Lemma bounded_written field maximum_value v rest :
  is_u64 v -> v <= maximum_value ->
  read_bounded_varint field maximum_value (write_varint v ++ rest) = ok (v, rest).
Proof.
  intros Hv Hm. unfold read_bounded_varint. rewrite reader_bind_run, reader_read_written by done.
  cbn [mbind outcome_bind ok fst snd]. by rewrite (proj2 (N.ltb_ge _ _)).
Qed.

Lemma read_bytes_written bs rest :
  read_bytes (N.of_nat (length bs)) (bs ++ rest) = ok (bs, rest).
Proof.
  unfold read_bytes. rewrite length_app, (proj2 (N.leb_le _ _)) by lia. rewrite Nat2N.id.
  by rewrite take_app_length, drop_app_length.
Qed.

(** [reads m bytes a rest]: a step of a reader that succeeds. *)
Definition reads {A} (m : reader A) (bytes : list N) (a : A) (rest : list N) : Prop :=
  m bytes = ok (a, rest).

Lemma reads_bind {A B} (m : reader A) (f : A -> reader B) bytes a rest b rest' :
  reads m bytes a rest -> reads (f a) rest b rest' -> reads (mbind (M := reader) f m) bytes b rest'.
Proof. unfold reads. intros Hm Hf. rewrite reader_bind_run, Hm. exact Hf. Qed.

Lemma reads_ret {A} (a : A) bytes : reads (read_ret a) bytes a bytes.
Proof. done. Qed.

Lemma reads_lift {A} (m : decoding A) a bytes : m = ok a -> reads (lift_decoding m) bytes a bytes.
Proof. unfold reads, lift_decoding. by intros ->. Qed.

Lemma reads_varint v rest : is_u64 v -> reads reader_read_varint (write_varint v ++ rest) v rest.
Proof. apply reader_read_written. Qed.

Lemma reads_remaining bytes :
  reads read_remaining_byte_count bytes (N.of_nat (length bytes)) bytes.
Proof. done. Qed.

(** Counts of what fits in memory fit a [u64]; all are far below it here. *)
Lemma small_u64 x : x <= 1099511627776 -> is_u64 x.
Proof. unfold is_u64, U64_MODULUS. lia. Qed.

(** ** Exceptions *)

Definition payload_written_ok (p : ExceptionPayload) : Prop :=
  match p with
  | WidePair => True
  | Width w => w <= 2
  | Combining text => Forall is_scalar text /\ N.of_nat (length (utf8_bytes text)) <= 65536
  | Repeat n => n <= 65536
  end.

(** Exceptions in rising item order, of payloads the encoder writes. *)
Fixpoint exceptions_ok (previous : N) (es : list ItemException) : Prop :=
  match es with
  | [] => True
  | e :: es' =>
      previous <= exception_item_index e /\ exception_item_index e <= 65536
      /\ exception_kind e = payload_kind (payload e) /\ payload_written_ok (payload e)
      /\ exceptions_ok (exception_item_index e) es'
  end.

(** The one read ahead, the count still to read, and their bytes. *)
Definition look (es : list ItemException) : option ItemException * N :=
  (head es, N.of_nat (length es - 1)).
Definition bytes_after (es : list ItemException) : list N :=
  match es with [] => [] | e :: es' => exceptions_bytes (exception_item_index e) es' end.

Lemma reads_payload p rest :
  payload_written_ok p ->
  reads
    (if payload_kind p =? WIDE_PAIR_EXCEPTION_KIND then read_ret WidePair
     else if payload_kind p =? WIDTH_EXCEPTION_KIND then
       display_width ← reader_read_varint;
       if 2 <? display_width then read_fail (WidthTooLarge display_width)
       else read_ret (Width display_width)
     else if payload_kind p =? COMBINING_EXCEPTION_KIND then
       combining_byte_count ← reader_read_varint;
       combining_bytes ← read_bytes combining_byte_count;
       combining_text ← lift_decoding (ok_or (from_utf8 combining_bytes) InvalidUtf8);
       read_ret (Combining combining_text)
     else if payload_kind p =? REPEAT_EXCEPTION_KIND then
       extra_item_count ← reader_read_varint; read_ret (Repeat extra_item_count)
     else read_fail (UnknownExceptionKind (payload_kind p)))
    (payload_bytes p ++ rest) p rest.
Proof.
  destruct p as [|w|text|n]; cbn [payload_kind payload_bytes]; intros Hp; simpl in Hp.
  - done.
  - cbn. eapply reads_bind; [apply reads_varint, small_u64; lia|].
    by rewrite (proj2 (N.ltb_ge 2 w)).
  - cbn -[payload_bytes]. destruct Hp as [Ht Hl]. rewrite <- app_assoc.
    eapply reads_bind; [apply reads_varint, small_u64; lia|].
    eapply reads_bind; [apply read_bytes_written|].
    eapply reads_bind; [apply reads_lift; by rewrite from_utf8_bytes|done].
  - cbn. eapply reads_bind; [apply reads_varint, small_u64; lia|done].
Qed.

Lemma reads_next_exception previous es rest :
  exceptions_ok previous es ->
  reads (read_next_exception (N.of_nat (length es)) previous) (exceptions_bytes previous es ++ rest)
    (look es) (bytes_after es ++ rest).
Proof.
  intros Hok. unfold read_next_exception. destruct es as [|e es]; [done|].
  destruct Hok as (H1 & H2 & H3 & H4 & H5). cbn [length exceptions_bytes].
  rewrite (proj2 (N.eqb_neq (N.of_nat (S (length es))) 0)) by lia. unfold exception_bytes.
  rewrite <- !app_assoc. cbv zeta.
  eapply reads_bind; [apply reads_varint, small_u64; lia|]. cbv beta.
  replace (previous + (exception_item_index e - previous)) with (exception_item_index e) by lia.
  rewrite (proj2 (N.ltb_ge _ (exception_item_index e))) by lia.
  eapply reads_bind; [apply reads_varint, small_u64|].
  { rewrite H3. by destruct (payload e). }
  rewrite H3. eapply reads_bind; [by apply reads_payload|].
  unfold reads, read_ret, look. cbn [head length bytes_after]. do 2 f_equal.
  - destruct e as [i k p]; simpl in *. subst k. f_equal. lia.
Qed.

(** ** One item *)

(** The exceptions of an item, applied in order. *)
Fixpoint apply_payloads (i : nat) (ps : list ExceptionPayload) (st : ItemState) : decoding ItemState :=
  match ps with
  | [] => ok st
  | p :: ps' => st' ← apply_exception (exception_at i p) st; apply_payloads i ps' st'
  end.

Lemma reads_item_exceptions fuel i ps es st st' previous rest :
  exceptions_ok previous ((exception_at i <$> ps) ++ es) -> apply_payloads i ps st = ok st' ->
  match head es with Some e => exception_item_index e <> N.of_nat i | None => True end ->
  (length ps <= fuel)%nat ->
  let all := (exception_at i <$> ps) ++ es in
  reads (read_item_exceptions fuel (N.of_nat i) st (look all).1 (look all).2) (bytes_after all ++ rest)
    (st', (look es).1, (look es).2) (bytes_after es ++ rest).
Proof.
  revert fuel st previous. induction ps as [|p ps IH]; intros fuel st previous Hok Happly Hes Hfuel; cbv zeta.
  - cbn [fmap list_fmap app]. injection Happly as <-. unfold look in *. cbn [fst snd].
    destruct fuel; cbn [read_item_exceptions]; (destruct (head es) as [e|]; [|done]);
      by rewrite (proj2 (N.eqb_neq _ _) Hes).
  - destruct fuel as [|fuel]; [simpl in Hfuel; lia|]. cbn [fmap list_fmap app] in *.
    destruct Hok as (_ & _ & _ & _ & Hok).
    cbn [look fst snd head length bytes_after read_item_exceptions].
    change (exception_item_index (exception_at i p)) with (N.of_nat i) in *. rewrite N.eqb_refl.
    cbn [apply_payloads] in Happly.
    destruct (apply_exception (exception_at i p) st) as [[|st1]|] eqn:E; try done.
    eapply reads_bind; [by apply reads_lift|].
    eapply reads_bind.
    { replace (N.of_nat (S (length ((exception_at i <$> ps) ++ es)) - 1))
        with (N.of_nat (length ((exception_at i <$> ps) ++ es))) by lia.
      by apply reads_next_exception. }
    eapply IH; [done|done|done|simpl in Hfuel; lia].
Qed.

(** The exceptions of a well-formed item give its shape, marks and repeat. *)
Lemma apply_item_payloads i it :
  Item_wf it -> N.of_nat (it_repeat it) <= 65536 ->
  exists st, apply_payloads i (item_payloads it) (MkItemState (SingleCell 1) [] 1 None) = ok st
    /\ item_shape st = it_shape it /\ combining_characters st = it_marks it
    /\ repeat_item_count st = N.of_nat (it_repeat it).
Proof.
  intros [_ _ _ Hm Hr] Hbound. unfold item_payloads.
  assert (u64_saturating_add (N.of_nat (it_repeat it - 1)) 1 = N.of_nat (it_repeat it)) as Hsat
    by (unfold u64_saturating_add; lia).
  assert ((1 <? it_repeat it)%nat = false -> it_repeat it = 1%nat) as Hone by (intros; bools; lia).
  assert (match it_shape it with SingleCell w => w =? 1 | _ => false end = true ->
    it_shape it = SingleCell 1) as Hnarrow.
  { destruct (it_shape it) as [w|]; [|done]. intros; bools. by subst. }
  destruct (it_shape it) as [w|]; [destruct (w =? 1)|];
    (destruct (bool_decide (it_marks it = [])) eqn:Em; bools);
    (destruct (1 <? it_repeat it)%nat eqn:E1);
    cbn [app apply_payloads]; unfold apply_exception;
    cbn [exception_at exception_kind payload payload_kind item_shape combining_characters
         repeat_item_count last_exception_kind is_exception_in_order negb
         WIDE_PAIR_EXCEPTION_KIND WIDTH_EXCEPTION_KIND COMBINING_EXCEPTION_KIND REPEAT_EXCEPTION_KIND
         N.eqb Pos.eqb orb N.ltb N.compare Pos.compare Pos.compare_cont app mbind outcome_bind ok];
    rewrite ?(proj2 (Nat.ltb_ge _ _) Hm); cbn [mbind outcome_bind ok];
    eexists; (split; [done|]); cbn [item_shape combining_characters repeat_item_count];
    rewrite ?Hsat; split_and!; auto; try (by rewrite Hone); by rewrite Hnarrow.
Qed.

(** ** The loop over the items *)

(** An item of a row at most 65535 columns wide. *)
Record Item_bounded (it : Item) : Prop :=
  { ib_wf : Item_wf it; ib_repeat : N.of_nat (it_repeat it) <= 65536 }.

Lemma utf8_bytes_length_four t : (length (utf8_bytes t) <= 4 * length t)%nat.
Proof.
  induction t as [|c t IH]; [done|]. rewrite utf8_bytes_cons, length_app.
  assert (length (encode_utf8 c) <= 4)%nat by (unfold encode_utf8; repeat case_match; simpl; lia).
  simpl. lia.
Qed.

Lemma item_payloads_written it :
  Item_bounded it -> Forall payload_written_ok (item_payloads it).
Proof.
  intros [[_ Hw Hs Hm _] Hr]. unfold item_payloads. rewrite !Forall_app. split_and!.
  - destruct (it_shape it); repeat case_match; by repeat constructor.
  - destruct (bool_decide _); [constructor|]. constructor; [|constructor]. split; [done|].
    pose proof (utf8_bytes_length_four (it_marks it)).
    unfold MAX_GRAPHEME_CONTINUATION_COUNT in Hm. lia.
  - destruct (1 <? _)%nat; [|constructor]. constructor; [simpl; lia|constructor].
Qed.

Lemma exceptions_ok_payloads previous i ps es :
  previous <= N.of_nat i -> N.of_nat i <= 65536 -> Forall payload_written_ok ps ->
  (forall p, p <= N.of_nat i -> exceptions_ok p es) ->
  exceptions_ok previous ((exception_at i <$> ps) ++ es).
Proof.
  intros Hp Hi Hps Hes. revert previous Hp. induction Hps as [|p ps H _ IH]; intros previous Hp.
  - by apply Hes.
  - split_and!; [exact Hp|exact Hi|done|exact H|]. by apply IH.
Qed.

Lemma items_exceptions_ok i items previous :
  Forall Item_bounded items -> N.of_nat (i + length items) <= 65536 -> previous <= N.of_nat i ->
  exceptions_ok previous (items_exceptions i items).
Proof.
  intros Hit. revert i previous. induction Hit as [|it items H _ IH]; intros i previous Hi Hp; [done|].
  simpl length in Hi. cbn [items_exceptions]. apply exceptions_ok_payloads; [done|lia| |].
  - by apply item_payloads_written.
  - intros p Hp'. apply IH; lia.
Qed.

(** The index of the next exception, as [decode_item] takes it. *)
Definition next_index (next : option ItemException) : N :=
  match next with Some e => exception_item_index e | None => U64_MAX end.

Lemma no_exceptions_before i items k :
  (k <= length items)%nat ->
  N.of_nat k <= next_index (head (items_exceptions i items)) - N.of_nat i ->
  items_exceptions i (take k items) = [].
Proof.
  revert i k. induction items as [|it items IH]; intros i [|k] Hk Hn; [done..|].
  cbn [take items_exceptions] in *. destruct (item_payloads it) as [|p ps].
  - cbn [fmap list_fmap app] in *. simpl in Hk. apply IH; lia.
  - simpl in Hn. lia.
Qed.

(** An item with no exceptions is one narrow cell. *)
Lemma plain_item_cells s it :
  Item_wf it -> item_payloads it = [] -> item_cells s it = [from_character (it_character it) 1 s].
Proof.
  intros [_ _ _ _ Hr] H. unfold item_payloads in H. apply app_eq_nil in H as [H1 H].
  apply app_eq_nil in H as [H2 H3].
  assert (it_shape it = SingleCell 1) as Hs by (destruct (it_shape it) as [w|]; [destruct (w =? 1) eqn:E; bools; [by subst|done]|done]).
  assert (it_marks it = []) as Hm by (destruct (bool_decide _) eqn:E; by bools).
  assert (it_repeat it = 1%nat) as H1r by (destruct (1 <? it_repeat it)%nat eqn:E; bools; [done|lia]).
  unfold item_cells, item_state. by rewrite Hs, Hm, H1r.
Qed.

Lemma plain_items_cells s i items :
  Forall Item_wf items -> items_exceptions i items = [] ->
  items_cells s items = (fun c => from_character c 1 s) <$> (it_character <$> items).
Proof.
  intros Hit. revert i. induction Hit as [|it items H _ IH]; intros i Hes; [done|].
  cbn [items_exceptions] in Hes. apply app_eq_nil in Hes as [H1 H2]. apply fmap_nil_inv in H1.
  unfold items_cells in *. cbn [mbind list_bind fmap list_fmap]. by rewrite plain_item_cells, (IH _ H2).
Qed.

(** The state of the loop before the item at [i], [items] being those left. *)
Definition loop_state (i : nat) (items : list Item) (cells : list Cell) : RunDecodeState :=
  let next := look (items_exceptions i items) in
  MkRunDecodeState (utf8_bytes (it_character <$> items)) (N.of_nat i) cells (N.of_nat (length cells))
    next.1 next.2.

(** The exceptions read ahead are gone from the bytes of the run. *)
Definition loop_bytes (i : nat) (items : list Item) (rest : list N) : list N :=
  bytes_after (items_exceptions i items) ++ rest.

Lemma loop_state_skip i items items' :
  items_exceptions i items = [] ->
  look (items_exceptions i (items ++ items')) = look (items_exceptions (i + length items) items')
  /\ bytes_after (items_exceptions i (items ++ items'))
     = bytes_after (items_exceptions (i + length items) items').
Proof. intros H. by rewrite items_exceptions_app, H. Qed.

Lemma items_scalar items : Forall Item_wf items -> Forall is_scalar (it_character <$> items).
Proof. intros H. apply Forall_fmap. eapply Forall_impl; [exact H|]. by intros it []. Qed.

Lemma item_cells_length s it :
  N.of_nat (length (item_cells s it))
  = match it_shape it with WidePairCells => 2 | SingleCell _ => 1 end * N.of_nat (it_repeat it).
Proof.
  unfold item_cells. rewrite length_concat_replicate. unfold build_item_cells, item_state.
  cbn [item_shape]. destruct (it_shape it); simpl length; lia.
Qed.

Lemma next_index_ge i items :
  N.of_nat i <= U64_MAX -> N.of_nat i <= next_index (head (items_exceptions i items)).
Proof.
  intros Hi. assert (forall k, (i <= k)%nat -> Forall (fun e => N.of_nat i <= exception_item_index e)
    (items_exceptions k items)) as H.
  { induction items as [|it items IH]; intros k Hk; [constructor|]. cbn [items_exceptions].
    apply Forall_app. split; [|apply IH; lia]. apply Forall_fmap, Forall_true. intros p. simpl. lia. }
  specialize (H i ltac:(lia)). destruct (items_exceptions i items) as [|e es]; [exact Hi|].
  by apply Forall_cons in H as [H _].
Qed.

(** The characters of an ASCII run are ASCII. *)
Definition text_kind_ok (run_text : RunText) (items : list Item) : Prop :=
  run_text = AsciiText -> forallb is_ascii (it_character <$> items) = true.

Lemma read_character_written run_text it items :
  Item_wf it -> text_kind_ok run_text (it :: items) ->
  read_character_at run_text (utf8_bytes (it_character <$> it :: items)) = ok (Some (it_character it)).
Proof.
  intros [Hc _ _ _ _] Hk. rewrite fmap_cons, utf8_bytes_cons.
  destruct (encode_utf8_cons _ Hc) as (b & u & E & Hb & _). destruct run_text.
  - specialize (Hk eq_refl). cbn [fmap list_fmap forallb] in Hk. bools.
    by rewrite encode_utf8_ascii.
  - pose proof (utf8_next_encode _ (utf8_bytes (it_character <$> items)) Hc) as Hn.
    rewrite E in Hn |- *. cbn [read_character_at app]. rewrite Hb. cbn [app] in Hn. by rewrite Hn.
Qed.

Lemma text_kind_drop run_text k items :
  text_kind_ok run_text items -> text_kind_ok run_text (drop k items).
Proof.
  intros Hk E. specialize (Hk E). rewrite <- (take_drop k items), fmap_app, forallb_app in Hk. by bools.
Qed.

(** A stretch of items with no exceptions, read at once or one by one. *)
Lemma reads_plain_items s k i items cells :
  Forall Item_wf items -> (k <= length items)%nat ->
  N.of_nat k <= next_index (head (items_exceptions i items)) - N.of_nat i ->
  MkRunDecodeState (utf8_bytes (it_character <$> drop k items)) (N.of_nat i + N.of_nat k)
    (cells ++ ((fun c => from_character c 1 s) <$> (it_character <$> take k items)))
    (N.of_nat (length cells) + N.of_nat k)
    (look (items_exceptions i items)).1 (look (items_exceptions i items)).2
  = loop_state (i + k) (drop k items) (cells ++ items_cells s (take k items))
  /\ (forall rest, loop_bytes i items rest = loop_bytes (i + k) (drop k items) rest)
  /\ length (items_cells s (take k items)) = k.
Proof.
  intros Hit Hk Hn. pose proof (no_exceptions_before i items k Hk Hn) as Hno.
  pose proof (plain_items_cells s i (take k items) (Forall_take _ _ _ Hit) Hno) as Hcells.
  destruct (loop_state_skip i (take k items) (drop k items) Hno) as [H1 H2].
  rewrite take_drop, length_take, Nat.min_l in H1, H2 by done.
  assert (length (items_cells s (take k items)) = k) as Hlen
    by (rewrite Hcells, !length_fmap, length_take; lia).
  split_and!; [|intros rest; unfold loop_bytes; by rewrite H2|done].
  unfold loop_state. rewrite H1, <- Hcells, length_app, Hlen. f_equal; lia.
Qed.

(** The fields of the loop's state. *)
Ltac loop_fields i all cells :=
  change (match next_exception (loop_state i all cells) with
    | Some e => exception_item_index e | None => U64_MAX end)
    with (next_index (head (items_exceptions i all)));
  change (run_item_index (loop_state i all cells)) with (N.of_nat i);
  change (decoded_cell_count (loop_state i all cells)) with (N.of_nat (length cells));
  change (decoded_cells (loop_state i all cells)) with cells;
  change (next_exception (loop_state i all cells)) with (look (items_exceptions i all)).1;
  change (remaining_exception_count (loop_state i all cells)) with (look (items_exceptions i all)).2.

Lemma items_cells_take_le s k items :
  (length (items_cells s (take k items)) <= length (items_cells s items))%nat.
Proof. rewrite <- (take_drop k items) at 2. rewrite items_cells_app, length_app. lia. Qed.

(** A round of the loop: [k] items are read, at least one. *)
Definition reads_some column_count run_end s i (it : Item) items cells rest : Prop :=
  let all := it :: items in
  exists k, (1 <= k <= length all)%nat
    /\ reads (decode_item column_count run_end s (it_character it) (loop_state i all cells))
         (loop_bytes i all rest)
         (loop_state (i + k) (drop k all) (cells ++ items_cells s (take k all)))
         (loop_bytes (i + k) (drop k all) rest).

Lemma reads_plain_item column_count run_end s i it items cells rest :
  Forall Item_wf (it :: items) ->
  N.of_nat (length cells + length (items_cells s (it :: items))) <= run_end ->
  N.of_nat i < next_index (head (items_exceptions i (it :: items))) ->
  reads_some column_count run_end s i it items cells rest.
Proof.
  intros Hwf Hend Hplain. unfold reads_some. set (all := it :: items) in *.
  pose proof (items_scalar _ Hwf) as Hscalar.
  unfold decode_item. cbv zeta. loop_fields i all cells.
  set (next := next_index (head (items_exceptions i all))) in *.
  destruct (list_plain_ascii_bytes_spec (loop_state i all cells) next) as (Hpre & Hascii & Hle & Hn).
  set (bytes := list_plain_ascii_bytes (loop_state i all cells) next) in *.
  change (remaining_text_bytes (loop_state i all cells)) with (utf8_bytes (it_character <$> all)) in *.
  change (run_item_index (loop_state i all cells)) with (N.of_nat i) in *.
  rewrite Hpre in Hascii. destruct (ascii_prefix _ _ Hscalar Hle Hascii) as (Hlen & Htake & Hdrop).
  rewrite length_fmap in Hlen. rewrite <- Hpre, <- fmap_take in Htake. rewrite <- fmap_drop in Hdrop.
  rewrite (proj2 (N.ltb_lt _ _) Hplain). cbn [andb].
  destruct (0 <? N.of_nat (length bytes)) eqn:Ea; bools.
  - exists (length bytes). split; [lia|].
    destruct (reads_plain_items s (length bytes) i all cells Hwf Hlen Hn) as (H1 & H2 & H3).
    pose proof (items_cells_take_le s (length bytes) all).
    rewrite (proj2 (N.ltb_ge _ _)) by lia. rewrite Htake, <- Hdrop in H1.
    unfold reads, read_ret. by rewrite <- (H2 rest), <- H1.
  - exists 1%nat. split; [simpl; lia|].
    destruct (reads_plain_items s 1 i all cells Hwf) as (H1 & H2 & H3); [simpl; lia|fold next; lia|].
    pose proof (items_cells_take_le s 1 all).
    rewrite (proj2 (N.leb_gt _ _)) by lia.
    unfold reads, read_ret. rewrite <- (H2 rest), <- H1. do 3 f_equal.
    apply (skip_character_eq _ (utf8_bytes (it_character <$> items))); [|done]. by inversion Hscalar.
Qed.

Lemma reads_exception_item column_count run_end s i it items cells rest :
  Forall Item_bounded (it :: items) -> N.of_nat (i + length (it :: items)) <= 65536 ->
  N.of_nat (length cells + length (items_cells s (it :: items))) <= run_end -> run_end <= 65535 ->
  next_index (head (items_exceptions i (it :: items))) <= N.of_nat i ->
  reads_some column_count run_end s i it items cells rest.
Proof.
  intros Hb Hi Hend Hend' Hnext. unfold reads_some. set (all := it :: items) in *.
  pose proof (Forall_inv Hb) as [Hwf Hrepeat]. simpl length in Hi. simpl length.
  exists 1%nat. split; [lia|]. unfold decode_item. cbv zeta. loop_fields i all cells.
  rewrite (proj2 (N.ltb_ge _ _) Hnext). cbn [andb].
  destruct (apply_item_payloads i it Hwf Hrepeat) as (st & Happly & Hshape & Hmarks & Hst).
  assert (items_exceptions i all = (exception_at i <$> item_payloads it) ++ items_exceptions (S i) items)
    as Hes by done.
  assert (match head (items_exceptions (S i) items) with
    | Some e => exception_item_index e <> N.of_nat i | None => True end) as Hhead.
  { pose proof (next_index_ge (S i) items ltac:(lia)) as Hge.
    destruct (head (items_exceptions (S i) items)); [simpl in Hge; lia|done]. }
  pose proof (items_exceptions_ok i all 0 Hb) as Hok. simpl length in Hok.
  specialize (Hok ltac:(lia) ltac:(lia)). rewrite Hes in Hok.
  eapply reads_bind.
  { unfold loop_bytes. rewrite Hes.
    apply (reads_item_exceptions _ i (item_payloads it) _ _ st 0); [done|done|done|].
    unfold look. cbn [snd]. rewrite length_app, length_fmap.
    destruct (item_payloads it); simpl; lia. }
  cbv beta iota. rewrite Hshape, Hst.
  assert (items_cells s all = item_cells s it ++ items_cells s items) as Hcells by done.
  rewrite Hcells, length_app in Hend. pose proof (item_cells_length s it) as Hlen.
  rewrite <- Hlen, !(proj2 (N.ltb_ge _ _)) by lia. cbn [orb].
  assert (concat (replicate (N.to_nat (N.of_nat (it_repeat it)))
    (build_item_cells (it_character it) st s)) = item_cells s it) as ->.
  { unfold item_cells. rewrite Nat2N.id. do 2 f_equal. unfold build_item_cells.
    by rewrite Hshape, Hmarks. }
  assert (items_cells s (take 1 all) = item_cells s it) as -> by (unfold items_cells; simpl; by rewrite app_nil_r).
  rewrite (skip_character_eq _ (utf8_bytes (it_character <$> items))); [|by destruct Hwf|done].
  unfold reads, read_ret, loop_bytes, loop_state. replace (i + 1)%nat with (S i) by lia.
  change (drop 1 all) with items. rewrite length_app. do 3 f_equal; lia.
Qed.

Lemma reads_items fuel column_count run_end s run_text i items cells rest :
  Forall Item_bounded items -> N.of_nat (i + length items) <= 65536 ->
  N.of_nat (length cells + length (items_cells s items)) <= run_end -> run_end <= 65535 ->
  text_kind_ok run_text items -> (length items <= fuel)%nat ->
  reads (decode_items fuel column_count run_end s run_text (loop_state i items cells))
    (loop_bytes i items rest)
    (loop_state (i + length items) [] (cells ++ items_cells s items)) rest.
Proof.
  intros Hb. revert i items cells Hb. induction fuel as [|fuel IH];
    intros i items cells Hb Hi Hend Hend' Hkind Hfuel; (destruct items as [|it items];
      [unfold items_cells; cbn [mbind list_bind length]; rewrite app_nil_r, Nat.add_0_r; done|]).
  { simpl in Hfuel. lia. }
  cbn [decode_items].
  assert (Forall Item_wf (it :: items)) as Hwf by (eapply Forall_impl; [exact Hb|by intros ? []]).
  eapply reads_bind.
  { apply reads_lift. unfold loop_state. cbn [remaining_text_bytes].
    apply read_character_written; [by inversion Hwf|done]. }
  cbv beta iota.
  assert (reads_some column_count run_end s i it items cells rest) as (k & Hk & Hread).
  { destruct (decide (N.of_nat i < next_index (head (items_exceptions i (it :: items))))).
    - by apply reads_plain_item.
    - apply reads_exception_item; [done..|lia]. }
  eapply reads_bind; [exact Hread|]. cbv zeta in Hk. set (all := it :: items) in *.
  assert (length (drop k all) = length all - k)%nat as Hl by apply length_drop.
  replace (cells ++ items_cells s all)
    with ((cells ++ items_cells s (take k all)) ++ items_cells s (drop k all))
    by (rewrite <- app_assoc, <- items_cells_app, take_drop; done).
  replace (i + length all)%nat with (i + k + length (drop k all))%nat by lia.
  apply IH; [by apply Forall_drop|lia| |done|by apply text_kind_drop|lia].
  rewrite length_app, <- Nat.add_assoc, <- length_app, <- items_cells_app, take_drop. done.
Qed.

(** ** One run *)

Lemma items_cells_length_ge s items :
  Forall Item_wf items -> (length items <= length (items_cells s items))%nat
  /\ Forall (fun it => (it_repeat it <= length (items_cells s items))%nat) items.
Proof.
  induction 1 as [|it items H _ [IH1 IH2]]; [done|].
  assert (items_cells s (it :: items) = item_cells s it ++ items_cells s items) as -> by done.
  rewrite length_app. pose proof (item_cells_length s it) as Hl. destruct H as [_ _ _ _ Hr].
  assert (it_repeat it <= length (item_cells s it))%nat by (destruct (it_shape it); lia).
  split; [simpl; lia|]. constructor; [lia|]. eapply Forall_impl; [exact IH2|]. simpl. intros. lia.
Qed.

Lemma exceptions_bytes_count previous es :
  (length es <= length (exceptions_bytes previous es))%nat.
Proof.
  revert previous. induction es as [|e es IH]; intros previous; [done|]. cbn [exceptions_bytes length].
  rewrite length_app. specialize (IH (exception_item_index e)). unfold exception_bytes.
  rewrite length_app. pose proof (write_varint_not_nil (exception_item_index e - previous)) as H.
  destruct (write_varint _); [done|]. simpl. lia.
Qed.

Lemma run_text_kind items :
  Forall Item_wf items ->
  exists run_text,
    (if forallb is_ascii (utf8_bytes (it_character <$> items)) then ok AsciiText
     else _ ← ok_or (from_utf8 (utf8_bytes (it_character <$> items))) InvalidUtf8; ok Utf8Text)
    = ok run_text /\ text_kind_ok run_text items.
Proof.
  intros Hwf. pose proof (items_scalar _ Hwf) as Hs. destruct (forallb is_ascii _) eqn:Ea.
  - exists AsciiText. split; [done|]. intros _.
    destruct (ascii_prefix _ _ Hs (le_n _)) as (Hlen & Htake & _); [by rewrite take_ge|].
    rewrite (take_ge (utf8_bytes _)) in Htake by done. rewrite take_ge in Htake; [by rewrite Htake|].
    by apply utf8_bytes_length_le.
  - exists Utf8Text. split; [by rewrite from_utf8_bytes|done].
Qed.

Lemma items_exceptions_length i items :
  (length (items_exceptions i items) <= 3 * length items)%nat.
Proof.
  revert i. induction items as [|it items IH]; intros i; [done|]. cbn [items_exceptions].
  rewrite length_app, length_fmap. specialize (IH (S i)).
  assert (length (item_payloads it) <= 3)%nat; [|simpl; lia].
  unfold item_payloads. rewrite !length_app.
  assert (forall b (x : ExceptionPayload), (length (if b : bool then [] else [x]) <= 1)%nat) as H1
    by (intros []; simpl; lia).
  assert (forall b (x : ExceptionPayload), (length (if b : bool then [x] else []) <= 1)%nat) as H2
    by (intros []; simpl; lia).
  pose proof (H1 (bool_decide (it_marks it = [])) (Combining (it_marks it))).
  pose proof (H2 (1 <? it_repeat it)%nat (Repeat (N.of_nat (it_repeat it - 1)))).
  destruct (it_shape it) as [w|]; [pose proof (H1 (w =? 1) (Width w))|simpl]; lia.
Qed.

(** The decoder reads back the cells of a run's items, in the style found at
    its index. *)
Lemma reads_run styles column_count content cells s si items rest :
  styles !! si = Some s -> N.of_nat si <= 65536 -> Forall Item_wf items ->
  N.of_nat (length cells + length (items_cells s items)) <= content -> content <= U16_MAX ->
  reads (decode_run styles column_count content cells)
    (run_bytes_of si (length (items_cells s items)) items ++ rest)
    (cells ++ items_cells s items) rest.
Proof.
  intros Hsi Hlt Hwf Hend Hcontent.
  destruct (items_cells_length_ge s items Hwf) as [Hcount Hrepeat].
  assert (Forall Item_bounded items) as Hb.
  { rewrite Forall_forall in Hwf, Hrepeat |- *. intros it Hit. specialize (Hrepeat it Hit).
    split; [by apply Hwf|lia]. }
  pose proof (utf8_bytes_length_four (it_character <$> items)) as Htext. rewrite length_fmap in Htext.
  pose proof (items_exceptions_length 0 items) as Hexc.
  destruct (run_text_kind items Hwf) as (run_text & Hkind & Hkind').
  pose proof (exceptions_bytes_count 0 (items_exceptions 0 items)) as Hcount'.
  unfold decode_run, run_bytes_of. cbv zeta. rewrite <- !app_assoc.
  eapply reads_bind; [apply reads_varint, small_u64; lia|]. cbv beta.
  eapply reads_bind; [apply reads_lift; rewrite Nat2N.id, Hsi; done|]. cbv beta.
  eapply reads_bind; [apply reads_varint, small_u64; lia|]. cbv beta.
  rewrite !(proj2 (N.ltb_ge _ _)) by lia. cbn [orb].
  eapply reads_bind; [apply reads_varint, small_u64; lia|]. cbv beta.
  eapply reads_bind; [apply read_bytes_written|]. cbv beta.
  eapply reads_bind; [apply reads_lift; exact Hkind|]. cbv beta.
  eapply reads_bind; [apply reads_remaining|]. cbv beta.
  eapply reads_bind; [apply bounded_written; [apply small_u64; lia|]|]. 
  { rewrite !length_app. lia. }
  cbv beta. eapply reads_bind; [apply reads_next_exception|].
  { apply items_exceptions_ok; [done|lia|lia]. }
  eapply reads_bind.
  { apply (reads_items _ _ _ s run_text 0 items cells rest); [done|lia|lia|lia|done|].
    pose proof (utf8_bytes_length_le _ (items_scalar _ Hwf)) as H. by rewrite length_fmap in H. }
  cbv beta. unfold loop_state. cbn [items_exceptions look head fst next_exception decoded_cell_count decoded_cells].
  rewrite bool_decide_eq_false_2 by (intros [? ?]; done). rewrite length_app.
  rewrite (proj2 (N.eqb_eq _ _)) by lia. done.
Qed.

(** ** The style table *)

Lemma lor_shift x high k : x < 2 ^ k -> N.lor x (N.shiftl high k) = high * 2 ^ k + x.
Proof. intros H. rewrite N.shiftl_mul_pow2. by apply lor_low. Qed.

Lemma color_key_eq c :
  Color_wf c ->
  compute_color_key c
  = match c with
    | DefaultColor => 0
    | Indexed i => 16777216 + i
    | Rgb r g b => 33554432 + r * 65536 + g * 256 + b
    end.
Proof.
  unfold Color_wf, is_byte, U8_MODULUS. destruct c as [|i|r g b]; [done| |]; intros H; simpl compute_color_key.
  - change 16777216 with (1 * 2 ^ 24). rewrite N.lor_comm, lor_low by (simpl; lia). lia.
  - destruct H as (Hr & Hg & Hb). rewrite !N.shiftl_mul_pow2.
    change 33554432 with (N.shiftl 2 24) at 1. rewrite lor_high by (simpl; lia).
    replace (2 * 2 ^ 24 + r * 2 ^ 16) with (N.shiftl (512 + r) 16) by (rewrite N.shiftl_mul_pow2; lia).
    rewrite lor_high by (simpl; lia).
    replace ((512 + r) * 2 ^ 16 + g * 2 ^ 8) with (N.shiftl ((512 + r) * 256 + g) 8)
      by (rewrite N.shiftl_mul_pow2; lia).
    rewrite lor_high by (simpl; lia). lia.
Qed.

Lemma color_key_bound c : Color_wf c -> compute_color_key c < 67108864.
Proof.
  intros H. rewrite color_key_eq by done. unfold Color_wf, is_byte, U8_MODULUS in H. destruct c; lia.
Qed.

Lemma color_key_inj c d :
  Color_wf c -> Color_wf d -> compute_color_key c = compute_color_key d -> c = d.
Proof.
  intros Hc Hd. rewrite !color_key_eq by done. unfold Color_wf, is_byte, U8_MODULUS in *.
  destruct c as [|i|r g b], d as [|i'|r' g' b']; intros E; try lia; [done|f_equal; lia|].
  assert (r = r' /\ g = g' /\ b = b') as (-> & -> & ->) by lia. done.
Qed.

Definition underline_key (o : option Color) : N :=
  match o with Some c => 1 + compute_color_key c | None => 0 end.

Lemma style_key_eq s :
  Style_wf s ->
  compute_style_key s
  = underline_key (underline_color s) * 2 ^ 80 + attributes s * 2 ^ 64
    + compute_color_key (background_color s) * 2 ^ 32 + compute_color_key (foreground_color s).
Proof.
  intros [H1 H2 H3%flags_wf_bound H4]. unfold compute_style_key. cbv zeta.
  fold (underline_key (underline_color s)).
  pose proof (color_key_bound _ H1) as K1. pose proof (color_key_bound _ H2) as K2.
  revert H3 K1 K2. generalize (compute_color_key (foreground_color s)) as f,
    (compute_color_key (background_color s)) as b, (attributes s) as a,
    (underline_key (underline_color s)) as u. intros f b a u Ha Hf Hb.
  change (2 ^ 11) with 2048 in Ha. assert (2 ^ 32 = 4294967296) as E32 by done.
  assert (2 ^ 64 = 18446744073709551616) as E64 by done.
  assert (2 ^ 80 = 1208925819614629174706176) as E80 by done.
  rewrite (lor_shift f b 32), (lor_shift (b * 2 ^ 32 + f) a 64),
    (lor_shift (a * 2 ^ 64 + (b * 2 ^ 32 + f)) u 80) by lia. lia.
Qed.

Lemma style_key_inj s t :
  Style_wf s -> Style_wf t -> compute_style_key s = compute_style_key t -> s = t.
Proof.
  intros Hs Ht. rewrite !style_key_eq by done.
  destruct Hs as [H1 H2 H3%flags_wf_bound H4], Ht as [K1 K2 K3%flags_wf_bound K4].
  change (2 ^ 11) with 2048 in *. change (2 ^ 80) with 1208925819614629174706176.
  change (2 ^ 64) with 18446744073709551616. change (2 ^ 32) with 4294967296.
  pose proof (color_key_bound _ H1). pose proof (color_key_bound _ H2).
  pose proof (color_key_bound _ K1). pose proof (color_key_bound _ K2). intros E.
  assert (compute_color_key (foreground_color s) = compute_color_key (foreground_color t)
    /\ compute_color_key (background_color s) = compute_color_key (background_color t)
    /\ attributes s = attributes t
    /\ underline_key (underline_color s) = underline_key (underline_color t))
    as (E1 & E2 & E3 & E4) by lia.
  apply color_key_inj in E1, E2; [|done..]. destruct s as [f b a u], t as [f' b' a' u']; simpl in *.
  subst. f_equal. destruct u as [c|], u' as [c'|]; simpl in E4; try lia; [|done].
  f_equal. apply color_key_inj; [done|done|lia].
Qed.

(** What the table maintains: one key per style, none twice, and past the
    linear limit the map gives the place of each key. *)
Record table_ok (table : RowStyleTable) : Prop :=
  { tb_keys : style_keys table = compute_style_key <$> styles table;
    tb_wf : Forall Style_wf (styles table);
    tb_nodup : NoDup (style_keys table);
    tb_small : (length (style_keys table) <= MAX_LINEAR_STYLE_SEARCH_COUNT)%nat ->
                 style_index_by_key table = ∅;
    tb_large : (MAX_LINEAR_STYLE_SEARCH_COUNT < length (style_keys table))%nat ->
                 forall k i, style_index_by_key table !! k = Some i <-> style_keys table !! i = Some k }.

Lemma empty_table_ok : table_ok empty_style_table.
Proof. split; simpl; [done|constructor|constructor|done|lia]. Qed.

Lemma snoc_lookup_fresh (keys : list N) (m : gmap N nat) x :
  x ∉ keys -> (forall k i, m !! k = Some i <-> keys !! i = Some k) ->
  forall k i, <[x := length keys]> m !! k = Some i <-> (keys ++ [x]) !! i = Some k.
Proof.
  intros Hx Hm k i. destruct (decide (x = k)) as [<-|Hne].
  - rewrite lookup_insert_eq. split; [intros [= <-]; by rewrite lookup_app_r, Nat.sub_diag by lia|].
    intros H. apply lookup_app_Some in H as [H|[Hi H]].
    + exfalso. by apply Hx, (list_elem_of_lookup_2 _ i).
    + destruct (i - length keys)%nat as [|n] eqn:En; [f_equal; lia|done].
  - rewrite lookup_insert_ne, Hm by done. rewrite lookup_app_Some. split; [by left|].
    intros [H|[_ H]]; [done|]. destruct (i - length keys)%nat; simplify_eq/=.
Qed.

Lemma index_keys (keys : list N) :
  NoDup keys ->
  forall k i, foldl (fun (m : gmap N nat) entry => <[entry.2 := entry.1]> m) ∅ (enumerate keys) !! k = Some i
    <-> keys !! i = Some k.
Proof.
  induction keys as [|x keys IH] using rev_ind; intros Hnd.
  { intros k i. simpl. by rewrite lookup_empty, lookup_nil. }
  apply NoDup_app in Hnd as (Hnd & Hdis & _). unfold enumerate in *. rewrite imap_app, foldl_app.
  cbn [imap foldl fst snd]. rewrite Nat.add_0_r. apply snoc_lookup_fresh; [|by apply IH].
  intros H. apply (Hdis x H). by left.
Qed.

(** The lookup of the reference: a search of the list of styles. *)
Definition find_or_append (s : Style) (styles : list Style) : nat * list Style :=
  match position (fun t => bool_decide (t = s)) styles with
  | Some i => (i, styles)
  | None => (length styles, styles ++ [s])
  end.

Lemma position_key s styles :
  Style_wf s -> Forall Style_wf styles ->
  position (N.eqb (compute_style_key s)) (compute_style_key <$> styles)
  = position (fun t => bool_decide (t = s)) styles.
Proof.
  intros Hs. induction 1 as [|t styles Ht _ IH]; [done|]. cbn [fmap list_fmap position].
  rewrite IH. destruct (bool_decide (t = s)) eqn:E; bools; [subst; by rewrite N.eqb_refl|].
  rewrite (proj2 (N.eqb_neq _ _)); [done|]. intros K. symmetry in K. apply style_key_inj in K; done.
Qed.

(** The keyed lookup agrees with the search at every size. *)
Lemma find_key_eq table key :
  table_ok table ->
  (if (length (style_keys table) <=? MAX_LINEAR_STYLE_SEARCH_COUNT)%nat
   then position (N.eqb key) (style_keys table) else style_index_by_key table !! key)
  = position (N.eqb key) (style_keys table).
Proof.
  intros [_ _ Hnd _ Hlarge]. destruct (_ <=? _)%nat eqn:E; bools; [done|].
  specialize (Hlarge ltac:(lia) key). apply option_eq. intros i. rewrite Hlarge. split.
  - intros Hi. destruct (position _ _) as [j|] eqn:Ep.
    + apply position_Some in Ep as (k & Hk & Hkey & _). bools. subst k.
      f_equal. by eapply NoDup_lookup.
    + rewrite position_None in Ep. specialize (Ep key (list_elem_of_lookup_2 _ _ _ Hi)).
      by rewrite N.eqb_refl in Ep.
  - intros (k & Hk & Hkey & _)%position_Some. bools. by subst k.
Qed.

Lemma find_or_add_style_spec s table :
  table_ok table -> Style_wf s ->
  table_ok (find_or_add_style s table).2
  /\ ((find_or_add_style s table).1, styles (find_or_add_style s table).2)
     = find_or_append s (styles table).
Proof.
  intros Hok Hs. unfold find_or_add_style, find_or_append. cbv zeta. rewrite find_key_eq by done.
  destruct Hok as [Hk Hwf Hnd Hsmall Hlarge].
  assert (position (N.eqb (compute_style_key s)) (style_keys table)
    = position (fun t => bool_decide (t = s)) (styles table)) as -> by (rewrite Hk; by apply position_key).
  destruct (position _ _) as [i|] eqn:Ep; [by split|]. split; [|done].
  assert (compute_style_key s ∉ style_keys table) as Hfresh.
  { rewrite Hk. intros (t & Et & Ht)%list_elem_of_fmap. rewrite position_None in Ep.
    specialize (Ep t Ht). rewrite Forall_forall in Hwf. apply style_key_inj in Et; auto. by bools. }
  assert (NoDup (style_keys table ++ [compute_style_key s])) as Hnd'.
  { apply NoDup_app. split_and!; [done| |apply NoDup_singleton]. intros x Hx.
    rewrite list_elem_of_singleton. by intros ->. }
  cbn [snd]. split; cbn [styles style_keys style_index_by_key].
  - by rewrite fmap_app, Hk.
  - by apply Forall_app; rewrite Forall_singleton.
  - done.
  - intros Hl. rewrite length_app in *. cbn [length] in *.
    rewrite (proj2 (Nat.eqb_neq _ _)), (proj2 (Nat.ltb_ge _ _)) by lia. apply Hsmall. lia.
  - intros Hl. rewrite length_app in *. cbn [length] in *. case_match eqn:E; bools.
    + rewrite Hsmall by lia. by apply index_keys.
    + rewrite (proj2 (Nat.ltb_lt _ _)) by lia.
      assert (length (styles table) = length (style_keys table)) as -> by (by rewrite Hk, length_fmap).
      apply snoc_lookup_fresh; [done|]. apply Hlarge. lia.
Qed.

(** ** Styles *)

Lemma reads_color c rest : reads read_color (write_color c ++ rest) c rest.
Proof.
  unfold read_color, write_color, read_byte. destruct c as [|i|r g b]; rewrite <- ?app_assoc;
    (eapply reads_bind; [apply reads_varint; by apply small_u64|]); cbn [N.eqb Pos.eqb
      COLOR_DEFAULT_KIND COLOR_INDEXED_KIND COLOR_RGB_KIND].
  - done.
  - eapply reads_bind; [|done]. eapply reads_bind; [apply (read_bytes_written [i])|]. by apply reads_lift.
  - eapply reads_bind; [apply (read_bytes_written [r; g; b])|].
    do 3 (eapply reads_bind; [by apply reads_lift|]). done.
Qed.

Lemma write_color_length c : (length (write_color c) <= 4)%nat.
Proof. destruct c; simpl; vm_compute; lia. Qed.

(** The fields of a style entry. *)
Definition style_fields (s : Style) : list N :=
  write_color (foreground_color s) ++ write_color (background_color s)
  ++ write_varint (attributes s)
  ++ match underline_color s with
     | None => write_varint 0
     | Some underline_color => write_varint 1 ++ write_color underline_color
     end.

Lemma reads_style_fields s : Style_wf s -> read_style_fields (style_fields s) = ok s.
Proof.
  intros [H1 H2 H3 H4]. pose proof (flags_wf_bound _ H3) as Hb. change (2 ^ 11) with 2048 in Hb.
  unfold read_style_fields, style_fields.
  match goal with |- mbind _ (?m ?bytes) = _ => assert (reads m bytes s []) as -> end; [|done].
  eapply reads_bind; [apply reads_color|]. eapply reads_bind; [apply reads_color|].
  eapply reads_bind; [apply reads_varint, small_u64; lia|].
  assert (from_attribute_word (as_u16 (attributes s)) = attributes s) as E
    by (unfold as_u16; by rewrite N.mod_small by lia).
  destruct (underline_color s) as [c|] eqn:Eu.
  - eapply reads_bind; [by apply reads_varint, small_u64|].
    eapply reads_bind; [eapply reads_bind; [rewrite <- (app_nil_r (write_color c)); apply reads_color|done]|].
    rewrite E, <- Eu. by destruct s.
  - rewrite <- (app_nil_r (write_varint 0)). eapply reads_bind; [by apply reads_varint, small_u64|].
    eapply reads_bind; [done|]. rewrite E, <- Eu. by destruct s.
Qed.

Lemma style_fields_length s : Style_wf s -> (length (style_fields s) <= 23)%nat.
Proof.
  intros [_ _ H3%flags_wf_bound _]. change (2 ^ 11) with 2048 in H3. unfold style_fields. rewrite !length_app.
  pose proof (write_color_length (foreground_color s)). pose proof (write_color_length (background_color s)).
  assert (is_u64 (attributes s)) as Hv%write_varint_length by (apply small_u64; lia).
  unfold MAX_VARINT_BYTE_COUNT in Hv. destruct (underline_color s) as [c|].
  - rewrite length_app. pose proof (write_color_length c). change (length (write_varint 1)) with 1%nat. lia.
  - change (length (write_varint 0)) with 1%nat. lia.
Qed.

Lemma style_entry_eq s :
  Style_wf s -> write_style_entry s = write_varint (N.of_nat (length (style_fields s))) ++ style_fields s.
Proof.
  intros Hs. pose proof (style_fields_length s Hs) as Hl. unfold write_style_entry. cbv zeta.
  fold (style_fields s). unfold as_u8, U8_MODULUS. rewrite N.mod_small by lia.
  by rewrite write_varint_eq, (proj2 (N.ltb_lt _ _)) by lia.
Qed.

Lemma reads_style_table styles done_styles rest :
  Forall Style_wf styles ->
  reads (read_style_table (length styles) done_styles) ((styles ≫= write_style_entry) ++ rest)
    (done_styles ++ styles) rest.
Proof.
  intros Hs. revert done_styles. induction Hs as [|s styles H _ IH]; intros done_styles.
  { by rewrite app_nil_r. }
  cbn [mbind list_bind length read_style_table]. rewrite (style_entry_eq s H), <- !app_assoc.
  pose proof (style_fields_length s H).
  eapply reads_bind; [apply reads_varint, small_u64; lia|].
  eapply reads_bind with (a := style_fields s).
  { unfold reads. by rewrite read_bytes_written. }
  eapply reads_bind; [by apply reads_lift, reads_style_fields|].
  replace (done_styles ++ s :: styles) with ((done_styles ++ [s]) ++ styles) by (by rewrite <- app_assoc).
  apply IH.
Qed.

Lemma style_entries_length styles :
  Forall Style_wf styles ->
  (length styles <= length (styles ≫= write_style_entry) <= 24 * length styles)%nat.
Proof.
  induction 1 as [|s styles H _ IH]; [done|]. cbn [mbind list_bind]. rewrite length_app.
  pose proof (style_fields_length s H). unfold write_style_entry at 1 3. cbv zeta. fold (style_fields s).
  simpl. lia.
Qed.

(** ** The runs of a row *)

Record Run := MkRun { rn_style_index : nat; rn_style : Style; rn_items : list Item }.

Definition run_cells (r : Run) : list Cell := items_cells (rn_style r) (rn_items r).
Definition run_encoding (r : Run) : list N :=
  run_bytes_of (rn_style_index r) (length (run_cells r)) (rn_items r).

(** A run of a row whose style table is [table_styles]. *)
Record Run_wf (table_styles : list Style) (r : Run) : Prop :=
  { rw_style : table_styles !! rn_style_index r = Some (rn_style r);
    rw_items : Forall Item_wf (rn_items r) }.

Lemma reads_runs table_styles column_count content runs cells rest :
  Forall (Run_wf table_styles) runs -> N.of_nat (length table_styles) <= 65536 ->
  N.of_nat (length cells + length (runs ≫= run_cells)) <= content -> content <= U16_MAX ->
  reads (decode_runs (length runs) table_styles column_count content cells)
    ((runs ≫= run_encoding) ++ rest) (cells ++ (runs ≫= run_cells)) rest.
Proof.
  intros Hruns Hstyles. revert cells. induction Hruns as [|r runs [H1 H2] _ IH]; intros cells Hend Hc.
  { by rewrite app_nil_r. }
  cbn [mbind list_bind length decode_runs] in *. rewrite length_app in Hend. rewrite <- app_assoc.
  pose proof (lookup_lt_Some _ _ _ H1).
  eapply reads_bind.
  { apply (reads_run table_styles column_count content cells (rn_style r));
      [done|lia|done|fold (run_cells r); lia|done]. }
  fold (run_cells r). rewrite (app_assoc cells). apply IH; [rewrite length_app; lia|done].
Qed.

(** A plain row holds plain cells in one style. *)
Definition plain_row_ok (is_plain_row : bool) (cells : list Cell) : Prop :=
  is_plain_row = true ->
  Forall (fun c => plain_ascii c = true) cells
  /\ (forall c d, c ∈ cells -> d ∈ cells -> cell_style c = cell_style d).

(** What the loop over the runs adds for [cells]. *)
Record runs_written (cells : list Cell) (runs : list Run) (st st' : RowState) : Prop :=
  { rs_bytes : run_bytes st' = run_bytes st ++ (runs ≫= run_encoding);
    rs_count : run_count st' = run_count st + N.of_nat (length runs);
    rs_text : row_text_byte_count st' = (row_text_byte_count st + cells_text_bytes cells)%nat;
    rs_cells : (runs ≫= run_cells) = encoded_cell <$> cells;
    rs_wf : Forall (Run_wf (styles (row_style_table st'))) runs;
    rs_few : (length runs <= length cells)%nat;
    rs_table : table_ok (row_style_table st');
    rs_prefix : styles (row_style_table st) `prefix_of` styles (row_style_table st');
    rs_styles : (length (styles (row_style_table st'))
                 <= length (styles (row_style_table st)) + length runs)%nat }.

(** The cells of the next run are in its style. *)
Lemma next_run_cells is_plain_row first_cell following_cells :
  plain_row_ok is_plain_row (first_cell :: following_cells) ->
  let cells := first_cell :: following_cells in
  let count :=
    if is_plain_row then length cells
    else default (length cells)
           (position (fun c => bool_decide (cell_style c <> cell_style first_cell)) cells) in
  (1 <= count <= length cells)%nat
  /\ Forall (fun c => cell_style c = cell_style first_cell) (take count cells).
Proof.
  intros Hplain cells count. destruct is_plain_row.
  { destruct (Hplain eq_refl) as [_ Hs]. split; [unfold count; simpl; lia|]. apply Forall_take, Forall_forall.
    intros c Hc. apply Hs; [done|left]. }
  unfold count. destruct (position _ cells) as [k|] eqn:E; cbn [from_option id].
  - pose proof (position_lt _ _ _ E) as Hk. apply position_Some in E as (x & Hx & Hf & Hall). split.
    + destruct k as [|k]; [|lia]. simpl in Hx. simplify_eq. by bools.
    + apply Forall_lookup. intros i c [Hi Hik]%lookup_take_Some. specialize (Hall i c Hik Hi).
      rewrite bool_decide_eq_false in Hall. by apply dec_stable.
  - split; [simpl; lia|]. rewrite take_ge by done. apply Forall_forall. intros c Hc.
    rewrite position_None in E. specialize (E c Hc). rewrite bool_decide_eq_false in E. by apply dec_stable.
Qed.

Lemma find_or_append_spec s table_styles :
  let '(i, table_styles') := find_or_append s table_styles in
  table_styles' !! i = Some s /\ table_styles `prefix_of` table_styles'
  /\ (length table_styles' <= length table_styles + 1)%nat.
Proof.
  unfold find_or_append. destruct (position _ _) as [i|] eqn:E.
  - apply position_Some in E as (t & Ht & Hts & _). bools. subst t. split_and!; [done|done|lia].
  - split_and!; [by rewrite lookup_app_r, Nat.sub_diag by lia|by apply prefix_app_r|].
    rewrite length_app. simpl. lia.
Qed.

Lemma encode_runs_ok fuel is_plain_row cells st :
  Forall Cell_wf cells -> plain_row_ok is_plain_row cells -> table_ok (row_style_table st) ->
  (length cells <= fuel)%nat ->
  exists runs, runs_written cells runs st (encode_runs fuel is_plain_row cells st).
Proof.
  revert cells st. induction fuel as [|fuel IH]; intros cells st Hwf Hplain Htable Hfuel;
    (destruct cells as [|first_cell following_cells];
     [exists []; split; cbn [mbind list_bind length fmap list_fmap encode_runs];
      rewrite ?app_nil_r; unfold cells_text_bytes; simpl; (done || lia || constructor)|]).
  { simpl in Hfuel. lia. }
  cbn [encode_runs]. destruct (next_run_cells _ _ _ Hplain) as [Hk Hstyle]. cbv zeta in Hk, Hstyle |- *.
  set (cells := first_cell :: following_cells) in *.
  set (k := if is_plain_row then length cells else _) in *. clearbody k.
  pose proof (Forall_inv (P := Cell_wf) Hwf) as Hfirst.
  destruct (find_or_add_style_spec (cell_style first_cell) (row_style_table st) Htable (wf_style _ Hfirst))
    as [Htable' Hfind].
  pose proof (find_or_append_spec (cell_style first_cell) (styles (row_style_table st))) as Hspec.
  rewrite <- Hfind in Hspec. destruct (find_or_add_style _ _) as [si table]. cbn [fst snd] in *.
  destruct Hspec as (Hsi & Hprefix & Hgrow).
  destruct (encode_run_ok (take k cells) (cell_style first_cell) is_plain_row Hstyle
    (Forall_take _ _ _ Hwf) (fun E => Forall_take _ _ _ (proj1 (Hplain E))) si)
    as (items & -> & Hcells & Hitems).
  assert (length (drop k cells) = length cells - k)%nat as Hl by apply length_drop.
  destruct (IH (drop k cells) (MkRowState table (run_bytes st
      ++ run_bytes_of si (length (take k cells)) items) (run_count st + 1)
      (row_text_byte_count st + cells_text_bytes (take k cells))))
    as [runs [R1 R2 R3 R4 R5 R6 R7 R8 R9]];
    [by apply Forall_drop| |exact Htable'|lia|].
  { intros E. destruct (Hplain E) as [P1 P2]. split; [by apply Forall_drop|].
    intros c d Hc Hd. apply P2; by eapply subseteq_drop. }
  cbn [row_style_table run_bytes run_count row_text_byte_count] in *.
  assert (run_cells (MkRun si (cell_style first_cell) items) = encoded_cell <$> take k cells) as Hrun
    by done.
  exists (MkRun si (cell_style first_cell) items :: runs). split; cbn [mbind list_bind length].
  - rewrite R1, <- app_assoc. do 2 f_equal. unfold run_encoding. by rewrite Hrun, length_fmap.
  - lia.
  - rewrite R3. rewrite <- (take_drop k cells) at 3. rewrite cells_text_bytes_app. lia.
  - rewrite R4, Hrun, <- fmap_app. by rewrite take_drop.
  - constructor; [|exact R5]. split; [|done]. cbn [rn_style_index rn_style].
    destruct R8 as [more ->]. by apply lookup_app_l_Some.
  - lia.
  - done.
  - by etransitivity.
  - lia.
Qed.

(** ** Byte counts *)

Lemma varint_byte_count_loop fuel r n :
  r < 2 ^ N.of_nat fuel ->
  compute_varint_byte_count_loop (S fuel) r n
  = (n + if (r =? 0)%N then 0 else length (write_varint r))%nat.
Proof.
  assert (forall f r n, compute_varint_byte_count_loop (S f) r n
    = if r =? 0 then n else compute_varint_byte_count_loop f (r / 128) (S n)) as Hstep
    by (intros; cbn [compute_varint_byte_count_loop]; by rewrite shiftr_7).
  revert r n. induction fuel as [|fuel IH]; intros r n Hr; rewrite Hstep.
  - assert (r = 0) as -> by (simpl in Hr; lia). simpl. lia.
  - destruct (r =? 0) eqn:E; bools; [lia|].
    rewrite Nat2N.inj_succ, N.pow_succ_r' in Hr.
    rewrite IH by (apply N.Div0.div_lt_upper_bound; lia). rewrite (write_varint_eq r).
    destruct (r <? 128) eqn:E2; bools.
    + rewrite N.div_small by done. simpl. lia.
    + destruct (r / 128 =? 0) eqn:E3; bools; [|simpl; lia].
      apply N.div_small_iff in E3; lia.
Qed.

Lemma varint_byte_count_eq v : compute_varint_byte_count v = length (write_varint v).
Proof.
  unfold compute_varint_byte_count. rewrite shiftr_7. rewrite varint_byte_count_loop.
  - rewrite (write_varint_eq v). destruct (v <? 128) eqn:E; bools.
    + by rewrite N.div_small.
    + destruct (v / 128 =? 0) eqn:E3; bools; [|simpl; lia]. apply N.div_small_iff in E3; lia.
  - apply N.le_lt_trans with v; [|apply size_nat_bound]. apply N.Div0.div_le_upper_bound. lia.
Qed.

Lemma exceptions_bytes_length previous es :
  exceptions_ok previous es ->
  N.of_nat (length (exceptions_bytes previous es)) <= 70000 * N.of_nat (length es).
Proof.
  assert (forall v, v <= 65536 -> (length (write_varint v) <= 10)%nat) as Hv.
  { intros v H. apply write_varint_length, small_u64. lia. }
  revert previous. induction es as [|e es IH]; intros previous Hok; [done|].
  destruct Hok as (H1 & H2 & H3 & H4 & H5). cbn [exceptions_bytes length]. specialize (IH _ H5).
  unfold exception_bytes. rewrite !length_app, H3.
  pose proof (Hv (exception_item_index e - previous) ltac:(lia)).
  assert (length (write_varint (payload_kind (payload e))) <= 10)%nat by (apply Hv; by destruct (payload e)).
  assert (N.of_nat (length (payload_bytes (payload e))) <= 65546); [|lia].
  destruct (payload e) as [|w|text|n]; simpl in H4; cbn [payload_bytes].
  - done.
  - pose proof (Hv w ltac:(lia)). lia.
  - destruct H4 as [_ H4]. rewrite length_app. pose proof (Hv _ H4). lia.
  - pose proof (Hv n H4). lia.
Qed.

(** A run takes a bounded count of bytes for each of its cells. *)
Lemma run_encoding_length table_styles r :
  Run_wf table_styles r -> N.of_nat (length table_styles) <= 65536 ->
  N.of_nat (length (run_cells r)) <= 65535 ->
  N.of_nat (length (run_encoding r)) <= 300000 * N.of_nat (length (run_cells r)) + 40.
Proof.
  intros [H1 H2] Hstyles Hc. pose proof (lookup_lt_Some _ _ _ H1) as Hsi.
  destruct (items_cells_length_ge (rn_style r) (rn_items r) H2) as [Hcount Hrepeat].
  fold (run_cells r) in Hcount, Hrepeat.
  assert (Forall Item_bounded (rn_items r)) as Hb.
  { rewrite Forall_forall in H2, Hrepeat |- *. intros it Hit. specialize (Hrepeat it Hit).
    split; [by apply H2|lia]. }
  pose proof (utf8_bytes_length_four (it_character <$> rn_items r)) as Htext. rewrite length_fmap in Htext.
  pose proof (items_exceptions_length 0 (rn_items r)) as Hexc.
  pose proof (exceptions_bytes_length 0 _ (items_exceptions_ok 0 (rn_items r) 0 Hb ltac:(lia) ltac:(lia))) as He.
  assert (forall v, v <= 1000000 -> (length (write_varint v) <= 10)%nat) as Hv.
  { intros v H. apply write_varint_length, small_u64. lia. }
  unfold run_encoding, run_bytes_of. cbv zeta. rewrite !length_app.
  set (t := utf8_bytes _) in *. set (es := items_exceptions _ _) in *.
  pose proof (Hv (N.of_nat (rn_style_index r)) ltac:(lia)).
  pose proof (Hv (N.of_nat (length (run_cells r))) ltac:(lia)).
  pose proof (Hv (N.of_nat (length t)) ltac:(lia)).
  pose proof (Hv (N.of_nat (length es)) ltac:(lia)). lia.
Qed.

(** ** A row *)

(** A row behind the count of its bytes. *)
Definition framed (body : list N) : list N := write_varint (N.of_nat (length body)) ++ body.

Lemma split_framed body rest :
  is_u64 (N.of_nat (length body)) ->
  split_encoded_row (framed body ++ rest) = ok (framed body, rest).
Proof.
  intros Hb. unfold split_encoded_row, framed. rewrite <- app_assoc.
  rewrite reader_read_written by done. cbn [mbind outcome_bind ok]. cbv zeta.
  rewrite !length_app, (proj2 (N.leb_le _ _)) by lia. rewrite Nat2N.id.
  replace (length (write_varint (N.of_nat (length body))) + (length body + length rest)
      - (length body + length rest) + length body)%nat
    with (length (write_varint (N.of_nat (length body)) ++ body)) by (rewrite length_app; lia).
  by rewrite app_assoc, take_app_length, drop_app_length.
Qed.

Lemma reads_row_end e rest :
  reads read_row_end (write_varint (compute_row_end_code e) ++ rest) e rest.
Proof. eapply reads_bind; [apply reads_varint, small_u64; by destruct e|]. by destruct e. Qed.

Lemma reads_header column_count e trailing_blank_count body rest :
  is_u64 body -> column_count <= U16_MAX -> trailing_blank_count <= column_count ->
  reads read_row_header
    (write_varint body ++ write_varint column_count ++ write_varint (compute_row_end_code e)
     ++ write_varint trailing_blank_count ++ rest)
    (MkEncodedRowShape column_count e trailing_blank_count) rest.
Proof.
  intros Hb Hc Ht. eapply reads_bind; [by apply reads_varint|].
  eapply reads_bind; [apply bounded_written; [apply small_u64; lia|done]|].
  eapply reads_bind; [apply reads_row_end|].
  eapply reads_bind; [apply bounded_written; [apply small_u64; lia|done]|]. done.
Qed.

(** The body of a row of [runs]. *)
Definition row_body (column_count : N) (e : RowEnd) (trailing_blank_count : N)
    (table_styles : list Style) (runs : list Run) : list N :=
  write_varint column_count ++ write_varint (compute_row_end_code e)
  ++ write_varint trailing_blank_count ++ write_varint (N.of_nat (length table_styles))
  ++ (table_styles ≫= write_style_entry) ++ write_varint (N.of_nat (length runs))
  ++ (runs ≫= run_encoding).

Lemma run_encodings_length table_styles runs :
  Forall (Run_wf table_styles) runs -> N.of_nat (length table_styles) <= 65536 ->
  N.of_nat (length (runs ≫= run_cells)) <= 65535 ->
  N.of_nat (length (runs ≫= run_encoding))
    <= 300000 * N.of_nat (length (runs ≫= run_cells)) + 40 * N.of_nat (length runs)
  /\ (length runs <= length (runs ≫= run_encoding))%nat.
Proof.
  intros Hruns Hs. induction Hruns as [|r runs Hr _ IH]; intros Hc; [done|].
  cbn [mbind list_bind length] in *. rewrite length_app in Hc. rewrite !length_app.
  destruct (IH ltac:(lia)) as [IH1 IH2]. pose proof (run_encoding_length _ r Hr Hs ltac:(lia)).
  assert (1 <= length (run_encoding r))%nat; [|lia].
  unfold run_encoding, run_bytes_of. cbv zeta. rewrite length_app.
  pose proof (write_varint_not_nil (N.of_nat (rn_style_index r))). destruct (write_varint _); [done|].
  simpl. lia.
Qed.

Lemma row_body_length column_count e blanks table_styles runs :
  Forall (Run_wf table_styles) runs -> Forall Style_wf table_styles ->
  column_count <= 65535 -> blanks <= 65535 -> (length table_styles <= length runs)%nat ->
  N.of_nat (length runs) <= 65535 -> N.of_nat (length (runs ≫= run_cells)) <= 65535 ->
  is_u64 (N.of_nat (length (row_body column_count e blanks table_styles runs))).
Proof.
  intros Hr Hs Hc Hb Ht Hn Hcells. unfold row_body. rewrite !length_app.
  destruct (run_encodings_length _ _ Hr ltac:(lia) Hcells) as [He _].
  destruct (style_entries_length _ Hs) as [_ Hse].
  assert (forall v, v <= 1000000 -> (length (write_varint v) <= 10)%nat) as Hv.
  { intros v H. apply write_varint_length, small_u64. lia. }
  pose proof (Hv column_count ltac:(lia)). pose proof (Hv blanks ltac:(lia)).
  pose proof (Hv (N.of_nat (length table_styles)) ltac:(lia)).
  pose proof (Hv (N.of_nat (length runs)) ltac:(lia)).
  assert (length (write_varint (compute_row_end_code e)) <= 10)%nat by (apply Hv; by destruct e).
  apply small_u64. lia.
Qed.

Lemma decode_framed column_count e blanks table_styles runs :
  Forall (Run_wf table_styles) runs -> Forall Style_wf table_styles ->
  column_count <= U16_MAX -> blanks <= column_count -> (length table_styles <= length runs)%nat ->
  (length runs <= length (runs ≫= run_cells))%nat ->
  N.of_nat (length (runs ≫= run_cells)) = column_count - blanks ->
  decode_row_runs (framed (row_body column_count e blanks table_styles runs))
  = ok (MkEncodedRowShape column_count e blanks, runs ≫= run_cells).
Proof.
  intros Hr Hs Hc Hb Ht Hn Hcells.
  assert (is_u64 (N.of_nat (length (row_body column_count e blanks table_styles runs)))) as Hu
    by (apply row_body_length; (done || lia)).
  destruct (run_encodings_length _ _ Hr ltac:(lia) ltac:(lia)) as [_ He].
  destruct (style_entries_length _ Hs) as [Hse _].
  unfold decode_row_runs. rewrite <- (app_nil_r (framed _)), split_framed by done.
  cbn [mbind outcome_bind ok]. rewrite bool_decide_eq_true_2 by done. cbn [negb].
  match goal with |- mbind _ (?m ?bytes) = _ =>
    assert (reads m bytes (MkEncodedRowShape column_count e blanks, runs ≫= run_cells) []) as ->; [|done] end.
  unfold framed. unfold row_body at 2.
  eapply reads_bind; [by apply reads_header|]. cbv beta. cbn [shape_column_count shape_trailing_blank_count].
  eapply reads_bind; [apply reads_remaining|]. cbv beta.
  eapply reads_bind; [apply bounded_written; [apply small_u64; lia|rewrite !length_app; lia]|]. cbv beta.
  rewrite Nat2N.id. eapply reads_bind; [by apply reads_style_table|]. cbv beta zeta. cbn [app].
  eapply reads_bind; [apply reads_remaining|]. cbv beta.
  eapply reads_bind; [apply bounded_written; [apply small_u64; lia|rewrite !length_app; lia]|]. cbv beta.
  rewrite Nat2N.id. eapply reads_bind.
  { rewrite <- (app_nil_r (runs ≫= run_encoding)). apply reads_runs; [done|lia|simpl; lia|lia]. }
  cbv beta. cbn [app]. rewrite Hcells, N.eqb_refl. cbn [negb].
  eapply reads_bind; [apply reads_remaining|]. done.
Qed.

(** ** Text byte counts *)

Lemma text_bytes_filter cells :
  sum_list
    ((fun c => (len_utf8 (character c) + count_utf8_bytes (list_encoded_combining_characters c))%nat)
       <$> filter (fun c => display_width c <> 0) cells)
  = cells_text_bytes cells.
Proof.
  unfold cells_text_bytes, cell_text_bytes. induction cells as [|c cells IH]; [done|].
  rewrite filter_cons, fmap_cons. case_decide as E; simpl sum_list; rewrite <- IH.
  - by rewrite (proj2 (N.eqb_neq _ _) E).
  - by rewrite E.
Qed.

Lemma blanks_text_bytes n : cells_text_bytes (replicate n build_blank) = n.
Proof.
  unfold cells_text_bytes. induction n as [|n IH]; [done|]. cbn [replicate]. rewrite fmap_cons.
  simpl sum_list. by rewrite IH.
Qed.

(** The row padded to its column count with default blanks. *)
Definition padded (column_count : N) (row_cells : list Cell) : list Cell :=
  row_cells ++ replicate (N.to_nat column_count - length row_cells) build_blank.

Lemma padded_content column_count row_cells :
  (length row_cells <= N.to_nat column_count)%nat ->
  let k := count_row_content_cells row_cells in
  padded column_count row_cells
  = take k row_cells ++ replicate (N.to_nat column_count - k) build_blank.
Proof.
  intros Hl k. destruct (count_row_content_cells_spec row_cells) as (Hk & _ & _). fold k in Hk.
  unfold padded. rewrite (row_content_split row_cells) at 1. fold k.
  rewrite <- app_assoc, <- replicate_add. do 2 f_equal. lia.
Qed.

Lemma padded_text_bytes column_count row_cells e :
  (length row_cells <= N.to_nat column_count)%nat ->
  let k := count_row_content_cells row_cells in
  compute_text_byte_count (padded column_count row_cells) e
  = (cells_text_bytes (take k row_cells)
     + if bool_decide (e = Hard) then 0 else N.to_nat column_count - k)%nat.
Proof.
  intros Hl k. unfold compute_text_byte_count. rewrite text_bytes_filter.
  destruct (count_row_content_cells_spec row_cells) as (Hk & _ & _). fold k in Hk.
  assert (count_row_content_cells (padded column_count row_cells) = k) as ->
    by apply count_row_content_cells_padded.
  rewrite (padded_content column_count row_cells Hl). fold k.
  destruct (bool_decide (e = Hard)).
  - rewrite take_app_le, take_ge by (rewrite length_take; lia). lia.
  - by rewrite take_ge, cells_text_bytes_app, blanks_text_bytes.
Qed.

Lemma encoded_blanks n : encoded_cell <$> replicate n build_blank = replicate n build_blank.
Proof. by rewrite fmap_replicate. Qed.

(** ** The whole row *)

(** The text counted so far does not change what is written. *)
Lemma encode_runs_text fuel is_plain_row cells table bytes count n :
  encode_runs fuel is_plain_row cells (MkRowState table bytes count n)
  = let st := encode_runs fuel is_plain_row cells (MkRowState table bytes count 0) in
    MkRowState (row_style_table st) (run_bytes st) (run_count st) (n + row_text_byte_count st).
Proof.
  revert cells table bytes count n. induction fuel as [|fuel IH]; intros cells table bytes count n;
    (destruct cells as [|c cells]; [cbn; by rewrite Nat.add_0_r|]).
  { cbn. by rewrite Nat.add_0_r. }
  cbn [encode_runs row_style_table run_bytes run_count row_text_byte_count].
  destruct (find_or_add_style _ _) as [si table']. destruct (encode_run _ _ _) as [run m].
  rewrite (IH _ _ _ _ (n + m)%nat), (IH _ _ _ _ (0 + m)%nat). cbv zeta.
  cbn [row_style_table run_bytes run_count row_text_byte_count]. f_equal. lia.
Qed.

(** The styles and runs written for a row, at any column count that holds its
    content. *)
Record row_written (row_cells : list Cell) (is_plain_row : bool) (table_styles : list Style)
    (runs : list Run) : Prop :=
  { rt_runs : Forall (Run_wf table_styles) runs;
    rt_styles : Forall Style_wf table_styles;
    rt_few : (length table_styles <= length runs <= length (runs ≫= run_cells))%nat;
    rt_cells : (runs ≫= run_cells) = encoded_cell <$> take (count_row_content_cells row_cells) row_cells;
    rt_encoded : forall column_count e,
      let blanks := (N.to_nat column_count - count_row_content_cells row_cells)%nat in
      encode_row_cells_with_buffers row_cells column_count is_plain_row e
      = (framed (row_body column_count e (N.of_nat blanks) table_styles runs),
         ((if bool_decide (e = Hard) then 0 else blanks)
          + cells_text_bytes (take (count_row_content_cells row_cells) row_cells))%nat) }.

Lemma plain_row_take is_plain_row k cells :
  plain_row_ok is_plain_row cells -> plain_row_ok is_plain_row (take k cells).
Proof.
  intros Hplain E. destruct (Hplain E) as [P1 P2]. split; [by apply Forall_take|].
  intros c d Hc Hd. apply P2; by eapply subseteq_take.
Qed.

Lemma encode_row_ok row_cells is_plain_row :
  Forall Cell_wf row_cells -> plain_row_ok is_plain_row row_cells ->
  exists table_styles runs, row_written row_cells is_plain_row table_styles runs.
Proof.
  intros Hwf Hplain. set (content := take (count_row_content_cells row_cells) row_cells).
  destruct (encode_runs_ok (length content) is_plain_row content (MkRowState empty_style_table [] 0 0)
    (Forall_take _ _ _ Hwf) (plain_row_take _ _ _ Hplain) empty_table_ok (le_n _))
    as [runs [R1 R2 R3 R4 R5 R6 R7 R8 R9]].
  cbn [run_bytes run_count row_text_byte_count row_style_table styles empty_style_table app length] in *.
  set (st := encode_runs _ _ _ _) in *. exists (styles (row_style_table st)), runs. split.
  - done.
  - apply (tb_wf _ R7).
  - rewrite R4, length_fmap. lia.
  - done.
  - intros column_count e blanks. unfold encode_row_cells_with_buffers. cbv zeta.
    rewrite encode_runs_text. fold content. fold st.
    cbn [run_bytes run_count row_text_byte_count row_style_table]. rewrite R1, R2, R3, N.add_0_l.
    f_equal. unfold framed, row_body. by rewrite <- length_app, <- !app_assoc.
Qed.

(** What can be read from a written row. *)
Lemma row_written_reads row_cells is_plain_row table_styles runs column_count e :
  row_written row_cells is_plain_row table_styles runs ->
  column_count <= U16_MAX -> (count_row_content_cells row_cells <= N.to_nat column_count)%nat ->
  let k := count_row_content_cells row_cells in
  let blanks := N.of_nat (N.to_nat column_count - k) in
  let body := row_body column_count e blanks table_styles runs in
  is_u64 (N.of_nat (length body))
  /\ decode_row_runs (framed body)
     = ok (MkEncodedRowShape column_count e blanks, encoded_cell <$> take k row_cells)
  /\ decode_row_cells (framed body) = ok (MkDecodedRow (encoded_cell <$>
       (take k row_cells ++ replicate (N.to_nat column_count - k) build_blank)) e).
Proof.
  intros [R1 R2 [R3 R4] R5 _] Hc Hk k blanks body.
  destruct (count_row_content_cells_spec row_cells) as (Hk' & _ & _). fold k in Hk, Hk', R5.
  pose proof (f_equal length R5) as Hlen. rewrite length_fmap, length_take, Nat.min_l in Hlen by done.
  assert (decode_row_runs (framed body)
    = ok (MkEncodedRowShape column_count e blanks, encoded_cell <$> take k row_cells)) as Hdecode.
  { unfold body. rewrite decode_framed; [by rewrite R5|done|done|done|lia|lia|lia|lia]. }
  split_and!; [apply row_body_length; (done || lia)|done|].
  unfold decode_row_cells, decode_row_run_cells_into. rewrite Hdecode.
  cbn [app mbind outcome_bind ok shape_column_count shape_row_end]. do 3 f_equal.
  unfold resize_cells. rewrite fmap_app, encoded_blanks, length_fmap, length_take, Nat.min_l by done.
  rewrite take_ge by (rewrite length_fmap, length_take; lia). done.
Qed.
