(* ===== verification/RowContract.v ===== *)
(** * The contract of encoded rows

    What the row encoder and decoder promise their callers: a row read back is
    the row written, the bytes depend on the padded row alone and not on the
    path that wrote them, rows can be split off a stream, and a row can be
    repadded without being decoded. *)

From S2P Require Import Prelude Varint Utf8 Style Cell RowEncoder RowDecoder RowItems RowRoundTrip.
From stdpp Require Import strings options.
#[local] Open Scope N_scope.

(** What the caller of [encode_padded_row_cells] promises of a plain row. *)
Definition plain_style_ok (plain_row_style : option Style) (row_cells : list Cell) : Prop :=
  match plain_row_style with
  | Some s => Forall (fun c => plain_ascii c = true /\ cell_style c = s) row_cells
  | None => True
  end.

Lemma plain_style_row_ok plain_row_style row_cells :
  plain_style_ok plain_row_style row_cells ->
  plain_row_ok (bool_decide (is_Some plain_row_style)) row_cells.
Proof.
  intros Hs E. bools. destruct plain_row_style as [s|]; [|by destruct E].
  split; [eapply Forall_impl; [exact Hs|by intros c []]|].
  simpl in Hs. rewrite Forall_forall in Hs. intros c d Hc Hd.
  destruct (Hs c Hc) as [_ ->], (Hs d Hd) as [_ ->]. done.
Qed.

Lemma plain_style_take plain_row_style k row_cells :
  plain_style_ok plain_row_style row_cells -> plain_style_ok plain_row_style (take k row_cells).
Proof. destruct plain_row_style; [apply Forall_take|done]. Qed.

(** ** The plain path *)

Lemma scan_plain run_cells cells scan st :
  Forall (fun c => plain_ascii c = true) cells ->
  scan_ascii_cells true run_cells cells scan st = scan_ascii_cells false run_cells cells scan st.
Proof.
  intros Hp. revert scan st. induction Hp as [|c cells Hc _ IH]; intros scan st; [done|].
  cbn [scan_ascii_cells negb andb]. unfold plain_ascii in Hc. apply andb_true_iff in Hc as [-> ->].
  cbn [negb orb]. destruct (negb _); [|apply IH]. destruct (finish_group _ _ _); apply IH.
Qed.

Lemma encode_items_plain fuel run_cells cell_index st :
  Forall (fun c => plain_ascii c = true) run_cells ->
  encode_items fuel true run_cells cell_index st = encode_items fuel false run_cells cell_index st.
Proof.
  intros Hp. revert cell_index st. induction fuel as [|fuel IH]; intros cell_index st; [done|].
  cbn [encode_items]. destruct (run_cells !! cell_index); [|done].
  rewrite scan_plain by (by apply Forall_drop).
  destruct (scan_ascii_cells _ _ _ _ _) as [scan st1]. case_match; [apply IH|].
  destruct (encode_item _ _ _ _) as [i st2]. apply IH.
Qed.

Lemma encode_run_plain run_cells style_index :
  Forall (fun c => plain_ascii c = true) run_cells ->
  encode_run run_cells style_index true = encode_run run_cells style_index false.
Proof. intros Hp. unfold encode_run. by rewrite encode_items_plain. Qed.

Lemma encode_runs_plain fuel cells s st :
  Forall (fun c => plain_ascii c = true /\ cell_style c = s) cells ->
  encode_runs fuel true cells st = encode_runs fuel false cells st.
Proof.
  intros Hp. destruct fuel as [|fuel]; [by destruct cells|]. destruct cells as [|c cells]; [done|].
  cbn [encode_runs]. set (all := c :: cells) in *.
  assert (position (fun d => bool_decide (cell_style d <> cell_style c)) all = None) as ->.
  { apply position_None. intros d Hd. apply bool_decide_eq_false. rewrite Forall_forall in Hp.
    destruct (Hp d Hd) as [_ ->], (Hp c) as [_ ->]; [left|]. tauto. }
  cbn [from_option]. destruct (find_or_add_style _ _) as [si table]. rewrite take_ge, drop_ge by done.
  rewrite encode_run_plain by (eapply Forall_impl; [exact Hp|by intros d []]).
  destruct (encode_run _ _ _) as [bytes n]. by destruct fuel.
Qed.

(** A row's bytes depend on its content and its column count. *)
Lemma encode_buffers_padded row_cells column_count is_plain_row e :
  encode_row_cells_with_buffers (padded column_count row_cells) column_count is_plain_row e
  = encode_row_cells_with_buffers row_cells column_count is_plain_row e.
Proof.
  unfold encode_row_cells_with_buffers, padded. rewrite count_row_content_cells_padded.
  destruct (count_row_content_cells_spec row_cells) as (Hk & _ & _).
  by rewrite (take_app_le row_cells) by done.
Qed.

Lemma padded_length column_count row_cells :
  (length row_cells <= N.to_nat column_count)%nat ->
  length (padded column_count row_cells) = N.to_nat column_count.
Proof. intros H. unfold padded. rewrite length_app, length_replicate. lia. Qed.

Lemma encode_padded_alike row_cells column_count plain_row_style e :
  (length row_cells <= N.to_nat column_count)%nat -> column_count <= U16_MAX ->
  plain_style_ok plain_row_style row_cells ->
  encode_padded_row_cells row_cells column_count plain_row_style e
  = encode_row_cells (padded column_count row_cells) e.
Proof.
  intros Hl Hc Hs. unfold encode_row_cells, u16_try_from.
  rewrite padded_length, N2Nat.id, (proj2 (N.leb_le _ _) Hc) by done. simpl.
  unfold encode_padded_row_cells. rewrite padded_length, Nat.leb_refl, (proj2 (Nat.leb_le _ _) Hl) by done.
  rewrite encode_buffers_padded. f_equal. destruct plain_row_style as [s|]; [|done].
  rewrite bool_decide_eq_true_2 by done. rewrite bool_decide_eq_false_2 by (by intros []).
  unfold encode_row_cells_with_buffers. by rewrite (encode_runs_plain _ _ s) by (by apply Forall_take).
Qed.

(** Padding and the plain path change nothing. A row written with a column
    count gives the bytes, and the text count, that [encode_row_cells] gives
    for the row padded with default blanks; whether its caller passes the
    style of a plain row or not. *)
Theorem padded_rows_encode_alike row_cells column_count plain_row_style e :
  (length row_cells <= N.to_nat column_count)%nat -> column_count <= U16_MAX ->
  plain_style_ok plain_row_style row_cells ->
  encode_padded_row_cells row_cells column_count plain_row_style e
  = encode_row_cells (padded column_count row_cells) e.
Proof. apply encode_padded_alike. Qed.

Lemma padded_rows_encode_alike_witness :
  encode_padded_row_cells (take 2 example_row) 4 (Some default_style) Soft
  = encode_row_cells example_row Soft.
Proof.
  apply (padded_rows_encode_alike (take 2 example_row) 4 (Some default_style) Soft); simpl;
    [lia|lia|repeat constructor].
Defined.

(** ** Reading back *)

(** The row as it is encoded, for the rows the encoder accepts. *)
Lemma encode_padded_written row_cells column_count plain_row_style :
  Forall Cell_wf row_cells -> plain_style_ok plain_row_style row_cells ->
  exists table_styles runs,
    row_written row_cells (bool_decide (is_Some plain_row_style)) table_styles runs
    /\ forall e, (length row_cells <= N.to_nat column_count)%nat ->
       encode_padded_row_cells row_cells column_count plain_row_style e
       = Some (framed (row_body column_count e
                  (N.of_nat (N.to_nat column_count - count_row_content_cells row_cells)) table_styles runs),
               compute_text_byte_count (padded column_count row_cells) e).
Proof.
  intros Hwf Hs.
  destruct (encode_row_ok row_cells _ Hwf (plain_style_row_ok _ _ Hs)) as (table_styles & runs & Hw).
  exists table_styles, runs. split; [done|]. intros e Hl. unfold encode_padded_row_cells.
  rewrite (proj2 (Nat.leb_le _ _) Hl), (rt_encoded _ _ _ _ Hw), padded_text_bytes by done.
  cbv zeta. do 2 f_equal. apply Nat.add_comm.
Qed.

(** C11: Encoded rows round-trip. Every row of well-formed cells that fits its
    column count is written, with the text byte count the accounting function
    gives for the padded row; the decoder reads the bytes back as that padded
    row, cell by cell, without the image data the encoding leaves out, and with
    the row end; and in a stream the row is split off exactly. *)
Theorem encoded_rows_round_trip row_cells column_count plain_row_style e :
  Forall Cell_wf row_cells -> (length row_cells <= N.to_nat column_count)%nat ->
  column_count <= U16_MAX -> plain_style_ok plain_row_style row_cells ->
  exists bytes,
    encode_padded_row_cells row_cells column_count plain_row_style e
    = Some (bytes, compute_text_byte_count (padded column_count row_cells) e)
    /\ decode_row_cells bytes
       = ok (MkDecodedRow (encoded_cell <$> padded column_count row_cells) e)
    /\ forall rest, split_encoded_row (bytes ++ rest) = ok (bytes, rest).
Proof.
  intros Hwf Hl Hc Hs.
  destruct (encode_padded_written row_cells column_count plain_row_style Hwf Hs) as (ts & runs & Hw & He).
  destruct (count_row_content_cells_spec row_cells) as (Hk & _ & _).
  destruct (row_written_reads _ _ _ _ column_count e Hw Hc ltac:(lia)) as (Hu & _ & Hd).
  eexists. split_and!; [by apply He| |intros rest; by apply split_framed].
  rewrite Hd, padded_content by done. done.
Qed.

Lemma encoded_rows_round_trip_witness :
  exists bytes,
    encode_padded_row_cells (take 2 example_row) 4 None SoftWide
    = Some (bytes, compute_text_byte_count (padded 4 (take 2 example_row)) SoftWide)
    /\ decode_row_cells bytes = ok (MkDecodedRow (encoded_cell <$> padded 4 (take 2 example_row)) SoftWide)
    /\ forall rest, split_encoded_row (bytes ++ rest) = ok (bytes, rest).
Proof.
  apply (encoded_rows_round_trip (take 2 example_row) 4 None SoftWide); [|simpl; lia|simpl; lia|exact I].
  repeat constructor; simpl; unfold MAX_GRAPHEME_CONTINUATION_COUNT; lia.
Defined.

(** ** Repadding *)

Lemma content_of_content row_cells :
  let k := count_row_content_cells row_cells in count_row_content_cells (take k row_cells) = k.
Proof.
  intros k. rewrite <- (count_row_content_cells_padded _ (length row_cells - k)).
  pose proof (row_content_split row_cells) as H. cbv zeta in H. fold k in H. by rewrite <- H.
Qed.

Lemma encode_content row_cells column_count is_plain_row e :
  let k := count_row_content_cells row_cells in
  encode_row_cells_with_buffers (take k row_cells) column_count is_plain_row e
  = encode_row_cells_with_buffers row_cells column_count is_plain_row e.
Proof.
  cbv zeta. unfold encode_row_cells_with_buffers. rewrite content_of_content.
  by rewrite take_take, Nat.min_id.
Qed.

Lemma repad_encoded_ok row_cells column_count column_count' plain_row_style e bytes n :
  Forall Cell_wf row_cells -> column_count <= U16_MAX -> column_count' <= U16_MAX ->
  plain_style_ok plain_row_style row_cells ->
  encode_padded_row_cells row_cells column_count plain_row_style e = Some (bytes, n) ->
  let k := count_row_content_cells row_cells in
  if column_count' <=? N.of_nat k
  then repad_encoded_row bytes column_count' = ok None
  else exists bytes' n',
    encode_padded_row_cells (take k row_cells) column_count' plain_row_style e = Some (bytes', n')
    /\ repad_encoded_row bytes column_count' = ok (Some (bytes', N.of_nat k)).
Proof.
  intros Hwf Hc Hc' Hs Hencode k.
  destruct (count_row_content_cells_spec row_cells) as (Hk & _ & _). fold k in Hk.
  assert (length row_cells <= N.to_nat column_count)%nat as Hl.
  { unfold encode_padded_row_cells in Hencode. case_match eqn:E; [by bools|done]. }
  destruct (encode_row_ok row_cells _ Hwf (plain_style_row_ok _ _ Hs)) as (ts & runs & Hw).
  unfold encode_padded_row_cells in Hencode. rewrite (proj2 (Nat.leb_le _ _) Hl) in Hencode.
  rewrite (rt_encoded _ _ _ _ Hw) in Hencode. cbv zeta in Hencode. fold k in Hencode.
  injection Hencode as <- _.
  destruct (row_written_reads _ _ _ _ column_count e Hw Hc ltac:(fold k; lia)) as (Hu & _ & _).
  fold k in Hu. set (blanks := N.of_nat (N.to_nat column_count - k)) in *.
  assert (repad_encoded_row (framed (row_body column_count e blanks ts runs)) column_count'
    = ok (if column_count' <=? N.of_nat k then None
          else Some (framed (row_body column_count' e (N.of_nat (N.to_nat column_count' - k)) ts runs),
                     N.of_nat k))) as ->.
  { unfold repad_encoded_row, framed. unfold row_body at 2.
    assert (blanks <= column_count) as Hb by (unfold blanks; lia).
    erewrite (reads_header _ _ _ _ _ Hu Hc Hb). cbn [mbind outcome_bind ok]. cbv zeta.
    cbn [shape_column_count shape_trailing_blank_count shape_row_end].
    replace (column_count - blanks) with (N.of_nat k) by (unfold blanks; lia).
    case_match; [done|]. do 2 f_equal. rewrite !varint_byte_count_eq. unfold row_body.
    replace (column_count' - N.of_nat k) with (N.of_nat (N.to_nat column_count' - k)) by lia.
    do 2 f_equal. f_equal. rewrite !length_app. f_equal. lia. }
  destruct (column_count' <=? N.of_nat k) eqn:E; bools; [done|].
  unfold encode_padded_row_cells.
  rewrite length_take, (proj2 (Nat.leb_le _ _)) by lia. unfold k at 1. rewrite encode_content. fold k.
  rewrite (rt_encoded _ _ _ _ Hw). cbv zeta. fold k. eauto.
Qed.

(** Repadding writes the row anew at another width. On the bytes of an
    encoded row it gives [None] when the content fills the new column count or
    more, and else the very bytes the encoder writes for the row's content at the new
    column count, with the count of content cells. *)
Theorem repadding_reencodes row_cells column_count column_count' plain_row_style e bytes n :
  Forall Cell_wf row_cells -> column_count <= U16_MAX -> column_count' <= U16_MAX ->
  plain_style_ok plain_row_style row_cells ->
  encode_padded_row_cells row_cells column_count plain_row_style e = Some (bytes, n) ->
  let k := count_row_content_cells row_cells in
  if column_count' <=? N.of_nat k
  then repad_encoded_row bytes column_count' = ok None
  else exists bytes' n',
    encode_padded_row_cells (take k row_cells) column_count' plain_row_style e = Some (bytes', n')
    /\ repad_encoded_row bytes column_count' = ok (Some (bytes', N.of_nat k)).
Proof. apply repad_encoded_ok. Qed.

Lemma repadding_reencodes_witness :
  exists bytes' n',
    encode_padded_row_cells (take (count_row_content_cells example_row) example_row) 6 None Hard
    = Some (bytes', n')
    /\ repad_encoded_row [16; 4; 0; 2; 1; 4; 0; 0; 0; 0; 1; 0; 2; 2; 97; 98; 0] 6 = ok (Some (bytes', 2)).
Proof.
  refine (repadding_reencodes example_row 4 6 None Hard _ 2 _ _ _ _ _); try exact I; try (simpl; lia).
  - repeat constructor; simpl; unfold MAX_GRAPHEME_CONTINUATION_COUNT; lia.
  - vm_compute. reflexivity.
Defined.

(** ** The style table *)

(** The indices given to a sequence of styles, and the table after it. *)
Fixpoint find_or_add_styles (ss : list Style) (table : RowStyleTable) : list nat * RowStyleTable :=
  match ss with
  | [] => ([], table)
  | s :: ss' =>
      let '(i, table) := find_or_add_style s table in
      let '(indices, table) := find_or_add_styles ss' table in (i :: indices, table)
  end.

(** The same by a search of the list of styles, with no keys and no map. *)
Fixpoint find_or_append_styles (ss : list Style) (table_styles : list Style) : list nat * list Style :=
  match ss with
  | [] => ([], table_styles)
  | s :: ss' =>
      let '(i, table_styles) := find_or_append s table_styles in
      let '(indices, table_styles) := find_or_append_styles ss' table_styles in (i :: indices, table_styles)
  end.

Lemma find_or_add_styles_ok ss table :
  Forall Style_wf ss -> table_ok table ->
  let '(indices, table') := find_or_add_styles ss table in
  find_or_append_styles ss (styles table) = (indices, styles table') /\ table_ok table'.
Proof.
  intros Hss. revert table. induction Hss as [|s ss Hs _ IH]; intros table Hok; [done|].
  cbn [find_or_add_styles find_or_append_styles].
  destruct (find_or_add_style_spec s table Hok Hs) as [Hok' <-].
  destruct (find_or_add_style s table) as [i table']. cbn [fst snd] in *. specialize (IH table' Hok').
  destruct (find_or_add_styles ss table') as [indices table'']. destruct IH as [-> H]. done.
Qed.

Lemma find_or_append_styles_spec ss before :
  let '(indices, after) := find_or_append_styles ss before in
  before `prefix_of` after /\ Forall2 (fun s i => after !! i = Some s) ss indices.
Proof.
  revert before. induction ss as [|s ss IH]; intros before; cbn [find_or_append_styles].
  { split; [done|constructor]. }
  pose proof (find_or_append_spec s before) as Hs. destruct (find_or_append s before) as [i middle].
  destruct Hs as (Hs & Hp & _). specialize (IH middle).
  destruct (find_or_append_styles ss middle) as [indices after]. destruct IH as [[more ->] IH].
  split; [etransitivity; [exact Hp|by apply prefix_app_r]|]. constructor; [|exact IH].
  by apply lookup_app_l_Some.
Qed.

(** The keyed style table is a linear search. Whatever sequence of styles a
    row asks for, and past the size where the table turns to its map, the
    packed keys tell apart exactly the different styles: the indices and the
    styles are those of a plain search of the list of styles, which holds each
    style once. *)
Theorem style_table_is_linear_search ss :
  Forall Style_wf ss ->
  let '(indices, table) := find_or_add_styles ss empty_style_table in
  find_or_append_styles ss [] = (indices, styles table) /\ NoDup (styles table)
  /\ Forall2 (fun s i => styles table !! i = Some s) ss indices.
Proof.
  intros Hss. pose proof (find_or_add_styles_ok ss empty_style_table Hss empty_table_ok) as H.
  destruct (find_or_add_styles ss empty_style_table) as [indices table]. destruct H as [H Hok]. change (styles empty_style_table) with (@nil Style) in H.
  split_and!; [exact H| |].
  - destruct Hok as [Hk _ Hnd _ _]. rewrite Hk in Hnd. by apply NoDup_fmap_1 in Hnd.
  - pose proof (find_or_append_styles_spec ss []) as Hs. rewrite H in Hs. apply Hs.
Qed.

Lemma style_table_is_linear_search_witness :
  let ss := [default_style; set_bold true default_style; default_style] in
  let '(indices, table) := find_or_add_styles ss empty_style_table in
  indices = [0; 1; 0]%nat
  /\ find_or_append_styles ss [] = (indices, styles table) /\ NoDup (styles table)
  /\ Forall2 (fun s i => styles table !! i = Some s) ss indices.
Proof.
  pose proof (style_table_is_linear_search [default_style; set_bold true default_style; default_style]) as H.
  assert (Forall Style_wf [default_style; set_bold true default_style; default_style]) as Hwf.
  { repeat (constructor; [constructor; try exact I; reflexivity|]). constructor. }
  specialize (H Hwf). split; [reflexivity|exact H].
Defined.
