(* ===== verification/Snapshot.v ===== *)
(** * Row snapshots ([crates/koshi-terminal/src/grid/row_snapshot.rs])

    One row as frames and history share it: its encoded bytes, its metadata,
    its text byte count, the image cells the encoding leaves out, and the
    decoded cells once somebody asked for them. [None] is a panic. A buffer
    passed in to encode into is cleared first and its capacity is not part of
    the model; the base64 of a stored row is a library's. *)

From S2P Require Import Prelude Varint Utf8 Style Cell RowEncoder RowDecoder RowItems RowRoundTrip.
From S2P Require Import RowContract.
From stdpp Require Import strings options.
#[local] Open Scope N_scope.

(** ** Definitions *)

Record RowImageCell := MkRowImageCell { image_column_index : N; image_cell_extra : CellExtra }.

Record RowSnapshot := MkRowSnapshot
  { encoded_row_bytes : list N;
    snapshot_metadata : RowMetadata;
    snapshot_text_byte_count : nat;
    image_cells : list RowImageCell;
    decoded_row_cells : option (list Cell) }.

Record RepaddedRow := MkRepaddedRow { row_snapshot : RowSnapshot; run_cell_count : N }.

Inductive StoredRowError :=
  | InvalidBase64
  | Undecodable (e : RowDecodeError)
  | RowEndMismatch
  | ImageCellPastRow (column_index : N)
  | ImageCellsOutOfOrder
  | ImageCellWithoutImage (column_index : N).

(** The loop that collects the image cells. *)
Definition list_row_image_cells (row_cells : list Cell) : list RowImageCell :=
  omap (fun cell : nat * Cell =>
    extra ← get_image_cell_extra cell.2; Some (MkRowImageCell (as_u16 (N.of_nat cell.1)) extra))
    (enumerate row_cells).

Definition from_padded_row_cells (row_cells : list Cell) (column_count : N)
    (plain_row_style : option Style) (metadata : RowMetadata) : option RowSnapshot :=
  '(bytes, text_byte_count) ←
    encode_padded_row_cells row_cells column_count plain_row_style (row_end metadata);
  let cells_with_image_data := if bool_decide (is_Some plain_row_style) then [] else row_cells in
  Some (MkRowSnapshot bytes metadata text_byte_count (list_row_image_cells cells_with_image_data) None).

Definition from_row_cells (row_cells : list Cell) (metadata : RowMetadata) : option RowSnapshot :=
  column_count ← u16_try_from (N.of_nat (length row_cells));
  from_padded_row_cells row_cells column_count None metadata.

Definition from_encoded_row_bytes (bytes : list N) (column_count : N) : decoding RowSnapshot :=
  encoded_row_shape ← read_encoded_row_shape bytes;
  if negb (shape_column_count encoded_row_shape =? column_count)
  then failed (ValueOutOfRange "column_count" (shape_column_count encoded_row_shape))
  else
    row ← decode_row_cells bytes;
    ok (MkRowSnapshot bytes (MkRowMetadata (decoded_row_end row) false)
          (compute_text_byte_count (row_cells row) (decoded_row_end row)) [] (Some (row_cells row))).

(** The loop of [from_stored_row] over the image cells. *)
Fixpoint place_stored_image_cells (previous_column_index : option N) (image_cells : list RowImageCell)
    (row_cells : list Cell) : outcome StoredRowError (list Cell) :=
  match image_cells with
  | [] => ok row_cells
  | image_cell :: image_cells =>
      let column_index := image_column_index image_cell in
      if match previous_column_index with Some p => column_index <=? p | None => false end
      then failed ImageCellsOutOfOrder
      else
        match row_cells !! N.to_nat column_index with
        | None => failed (ImageCellPastRow column_index)
        | Some row_cell =>
            let row_cell := set_cell_extra (image_cell_extra image_cell) row_cell in
            if bool_decide (get_image_cell_extra row_cell = None)
            then failed (ImageCellWithoutImage column_index)
            else place_stored_image_cells (Some column_index) image_cells
                   (<[N.to_nat column_index := row_cell]> row_cells)
        end
  end.

Definition from_stored_row (bytes : list N) (metadata : RowMetadata) (image_cells : list RowImageCell)
    : outcome StoredRowError RowSnapshot :=
  row ← map_err Undecodable (decode_row_cells bytes);
  if negb (bool_decide (decoded_row_end row = row_end metadata)) then failed RowEndMismatch
  else
    stored_cells ← place_stored_image_cells None image_cells (row_cells row);
    expect (from_row_cells stored_cells metadata).

Definition restore_image_cells (snapshot : RowSnapshot) (row_cells : list Cell) : option (list Cell) :=
  foldl (fun cells image_cell =>
    cells ← cells;
    let i := N.to_nat (image_column_index image_cell) in
    c ← cells !! i;
    Some (<[i := set_cell_extra (image_cell_extra image_cell) c]> cells))
    (Some row_cells) (image_cells snapshot).

Definition get_encoded_row_shape (snapshot : RowSnapshot) : option EncodedRowShape :=
  match read_encoded_row_shape (encoded_row_bytes snapshot) with
  | Some (inr shape) => Some shape
  | _ => None
  end.

(** The method of that name. *)
Definition snapshot_decode_row_cells (snapshot : RowSnapshot) : option (list Cell) :=
  match decode_row_cells (encoded_row_bytes snapshot) with
  | Some (inr row) => restore_image_cells snapshot (row_cells row)
  | _ => None
  end.

Definition repad_hard_row (snapshot : RowSnapshot) (column_count : N) : option (option RepaddedRow) :=
  if negb (bool_decide (row_end (snapshot_metadata snapshot) = Hard)) then Some None
  else
    match repad_encoded_row (encoded_row_bytes snapshot) column_count with
    | Some (inr (Some (bytes, run_cell_count))) =>
        Some (Some (MkRepaddedRow
          (MkRowSnapshot bytes (snapshot_metadata snapshot) (snapshot_text_byte_count snapshot)
             (image_cells snapshot) None) run_cell_count))
    | Some (inr None) => Some None
    | _ => None
    end.

(** The method of that name: the caller's cells with the run cells appended. *)
Definition snapshot_decode_row_run_cells_into (snapshot : RowSnapshot) (cells : list Cell)
    : option (EncodedRowShape * list Cell) :=
  let '(result, all_cells) := decode_row_run_cells_into (encoded_row_bytes snapshot) cells in
  match result with
  | Some (inr shape) =>
      restored_cells ← restore_image_cells snapshot (drop (length cells) all_cells);
      Some (shape, take (length cells) all_cells ++ restored_cells)
  | _ => None
  end.

(** The cells, and the snapshot that keeps them. *)
Definition list_row_cells (snapshot : RowSnapshot) : option (list Cell * RowSnapshot) :=
  match decoded_row_cells snapshot with
  | Some cells => Some (cells, snapshot)
  | None =>
      cells ← snapshot_decode_row_cells snapshot;
      Some (cells, MkRowSnapshot (encoded_row_bytes snapshot) (snapshot_metadata snapshot)
                     (snapshot_text_byte_count snapshot) (image_cells snapshot) (Some cells))
  end.

Example example_snapshot :
  from_row_cells example_row (MkRowMetadata Hard false)
  = Some (MkRowSnapshot [16; 4; 0; 2; 1; 4; 0; 0; 0; 0; 1; 0; 2; 2; 97; 98; 0]
      (MkRowMetadata Hard false) 2 [] None).
Proof. vm_compute. reflexivity. Qed.

(** ** Image cells *)

(** A cell allocates its rare data only to hold some. *)
Definition Cell_canonical (c : Cell) : Prop :=
  match cell_extra c with
  | Some extra => combining extra <> [] \/ has_image_data extra = true
  | None => True
  end.

(** The image cells of a row from column [i] on. *)
Fixpoint images_from (i : nat) (row : list Cell) : list RowImageCell :=
  match row with
  | [] => []
  | c :: row' =>
      match get_image_cell_extra c with Some extra => [MkRowImageCell (N.of_nat i) extra] | None => [] end
      ++ images_from (S i) row'
  end.

Lemma omap_imap_images i row :
  N.of_nat (i + length row) <= 65536 ->
  omap (fun cell : nat * Cell =>
    extra ← get_image_cell_extra cell.2; Some (MkRowImageCell (as_u16 (N.of_nat cell.1)) extra))
    (imap (fun j c => (i + j, c)%nat) row)
  = images_from i row.
Proof.
  revert i. induction row as [|c row IH]; intros i Hi; [done|]. simpl length in Hi.
  cbn [imap images_from omap list_omap]. rewrite <- (IH (S i)) by lia. rewrite Nat.add_0_r.
  assert (imap ((fun j c => (i + j, c)%nat) ∘ S) row = imap (fun j c => (S i + j, c)%nat) row) as ->
    by (apply imap_ext; intros; simpl; f_equal; lia).
  cbn [fst snd]. destruct (get_image_cell_extra c); [|done]. cbn. unfold as_u16. by rewrite N.mod_small by lia.
Qed.

Lemma list_row_image_cells_eq row :
  N.of_nat (length row) <= 65536 -> list_row_image_cells row = images_from 0 row.
Proof. intros H. rewrite <- omap_imap_images by done. done. Qed.

Lemma images_from_app i row row' :
  images_from i (row ++ row') = images_from i row ++ images_from (i + length row) row'.
Proof.
  revert i. induction row as [|c row IH]; intros i; cbn [app images_from length]; [by rewrite Nat.add_0_r|].
  by rewrite IH, <- app_assoc, Nat.add_succ_comm.
Qed.

Lemma images_from_none i row :
  Forall (fun c => get_image_cell_extra c = None) row -> images_from i row = [].
Proof. intros H. revert i. induction H as [|c row Hc _ IH]; intros i; [done|]. cbn. by rewrite Hc, IH. Qed.

Lemma images_of_blanks i n : images_from i (replicate n build_blank) = [].
Proof. apply images_from_none. by apply Forall_replicate. Qed.

(** The image data put back on the encoded cell gives the cell. *)
Lemma restore_cell c :
  Cell_canonical c ->
  match get_image_cell_extra c with
  | Some extra => set_cell_extra extra (encoded_cell c)
  | None => encoded_cell c
  end = c.
Proof.
  unfold Cell_canonical, get_image_cell_extra, encoded_cell, list_encoded_combining_characters,
    has_image_placeholder, get_image_placeholder, list_combining_characters.
  destruct c as [ch [[marks placeholder fragments]|] w s]; [|done].
  cbn [cell_extra combining image_placeholder mbind option_bind].
  unfold has_image_data. cbn [image_placeholder image_fragments].
  destruct placeholder as [p|]; [done|]. destruct fragments; [|done..]. simpl.
  intros [Hm|]; [by destruct marks|done].
Qed.

Definition restore_step (cells : option (list Cell)) (image_cell : RowImageCell) : option (list Cell) :=
  cells ← cells;
  let i := N.to_nat (image_column_index image_cell) in
  c ← cells !! i;
  Some (<[i := set_cell_extra (image_cell_extra image_cell) c]> cells).

Lemma restore_images pre row :
  Forall Cell_canonical row ->
  foldl restore_step (Some (pre ++ (encoded_cell <$> row))) (images_from (length pre) row)
  = Some (pre ++ row).
Proof.
  intros H. revert pre. induction H as [|c row Hc _ IH]; intros pre; [done|].
  cbn [images_from fmap list_fmap]. rewrite foldl_app.
  apply restore_cell in Hc.
  assert (foldl restore_step (Some (pre ++ encoded_cell c :: (encoded_cell <$> row)))
    match get_image_cell_extra c with
    | Some extra => [MkRowImageCell (N.of_nat (length pre)) extra] | None => [] end
    = Some ((pre ++ [c]) ++ (encoded_cell <$> row))) as ->.
  { rewrite <- app_assoc. cbn [app]. destruct (get_image_cell_extra c); [|by rewrite Hc]. cbn [foldl].
    unfold restore_step. cbn [mbind option_bind image_column_index image_cell_extra]. rewrite Nat2N.id.
    rewrite list_lookup_middle by done. cbn [mbind option_bind].
    by rewrite insert_app_r_alt, Nat.sub_diag, Hc by lia. }
  specialize (IH (pre ++ [c])). rewrite length_app in IH. cbn [length] in IH.
  rewrite Nat.add_1_r in IH. by rewrite IH, <- app_assoc.
Qed.

(** ** Snapshots of rows *)

Lemma reader_bind_ok {A B} (m : reader A) (f : A -> reader B) bytes b rest :
  mbind (M := reader) f m bytes = ok (b, rest) ->
  exists a rest', m bytes = ok (a, rest') /\ f a rest' = ok (b, rest).
Proof.
  rewrite reader_bind_run. intros H. apply outcome_bind_ok in H as ([a rest'] & Hm & Hf). eauto.
Qed.

(** The shape of a row whose runs decode is read from its header. *)
Lemma decode_row_runs_shape bytes shape cells :
  decode_row_runs bytes = ok (shape, cells) -> read_encoded_row_shape bytes = ok shape.
Proof.
  unfold decode_row_runs. intros H. apply outcome_bind_ok in H as ([row trailing] & Hsplit & H).
  destruct (negb _) eqn:Et; [done|]. bools. subst trailing.
  assert (row = bytes) as ->.
  { unfold split_encoded_row in Hsplit. apply outcome_bind_ok in Hsplit as ([n rest] & _ & Hsplit).
    cbv beta iota zeta in Hsplit. case_match; [|done]. injection Hsplit as <- Hd.
    pose proof (take_drop (length bytes - length rest + N.to_nat n) bytes) as E.
    by rewrite Hd, app_nil_r in E. }
  cbv zeta in H. apply outcome_bind_ok in H as ([[shape' cells'] rest] & H & E).
  injection E as -> ->. apply reader_bind_ok in H as (shape' & rest' & Hh & H).
  unfold read_encoded_row_shape. rewrite Hh. cbn [mbind outcome_bind ok]. f_equal. f_equal.
  repeat (apply reader_bind_ok in H as (? & ? & _ & H)). case_match; [done|].
  repeat (apply reader_bind_ok in H as (? & ? & _ & H)). case_match; [done|].
  by injection H.
Qed.

(** [s] holds the row [row]: its runs decode to the row's first [so_count] cells, up to
    the blanks at its end, and beside them it holds what the encoding leaves out. *)
Record snapshot_of (so_count : nat) (row : list Cell) (s : RowSnapshot) : Prop :=
  { so_length : N.of_nat (length row) <= U16_MAX;
    so_runs : decode_row_runs (encoded_row_bytes s)
      = ok (MkEncodedRowShape (N.of_nat (length row)) (row_end (snapshot_metadata s))
              (N.of_nat (length row - so_count)), encoded_cell <$> take so_count row);
    so_bound : (so_count <= length row)%nat;
    so_blanks : drop so_count row = replicate (length row - so_count) build_blank;
    so_images : image_cells s = images_from 0 row;
    so_text : snapshot_text_byte_count s = compute_text_byte_count row (row_end (snapshot_metadata s));
    so_cache : decoded_row_cells s = None \/ decoded_row_cells s = Some row;
    so_wf : Forall Cell_wf row;
    so_canonical : Forall Cell_canonical row }.

(** What the caller of [from_padded_row_cells] promises of a plain row. *)
Definition plain_row_promise (plain_row_style : option Style) (row_cells : list Cell) : Prop :=
  match plain_row_style with
  | Some s => Forall (fun c => plain_ascii c = true /\ cell_style c = s /\ get_image_cell_extra c = None) row_cells
  | None => True
  end.

Lemma plain_promise_ok plain_row_style row_cells :
  plain_row_promise plain_row_style row_cells -> plain_style_ok plain_row_style row_cells.
Proof.
  destruct plain_row_style; [|done]. intros H. eapply Forall_impl; [exact H|]. by intros c (? & ? & ?).
Qed.

Lemma blank_canonical n : Forall Cell_canonical (replicate n build_blank).
Proof. by apply Forall_replicate. Qed.

Lemma padded_drop column_count row_cells :
  let k := count_row_content_cells row_cells in
  (length row_cells <= N.to_nat column_count)%nat ->
  take k (padded column_count row_cells) = take k row_cells
  /\ drop k (padded column_count row_cells) = replicate (N.to_nat column_count - k) build_blank.
Proof.
  intros k Hl. destruct (count_row_content_cells_spec row_cells) as (Hk & _ & _). fold k in Hk.
  rewrite padded_content by done. cbv zeta. fold k.
  assert (length (take k row_cells) = k) as E by (rewrite length_take; lia).
  split; [by rewrite <- E at 1; rewrite take_app_length|by rewrite <- E at 1; rewrite drop_app_length].
Qed.

Lemma from_padded_snapshot row_cells column_count plain_row_style metadata :
  Forall Cell_wf row_cells -> Forall Cell_canonical row_cells ->
  (length row_cells <= N.to_nat column_count)%nat -> column_count <= U16_MAX ->
  plain_row_promise plain_row_style row_cells ->
  exists s, from_padded_row_cells row_cells column_count plain_row_style metadata = Some s
    /\ snapshot_of (count_row_content_cells row_cells) (padded column_count row_cells) s
    /\ encode_padded_row_cells row_cells column_count plain_row_style (row_end metadata)
       = Some (encoded_row_bytes s, snapshot_text_byte_count s)
    /\ snapshot_metadata s = metadata /\ decoded_row_cells s = None.
Proof.
  intros Hwf Hcan Hl Hc Hp. unfold from_padded_row_cells.
  destruct (encode_padded_written row_cells column_count plain_row_style Hwf (plain_promise_ok _ _ Hp))
    as (ts & runs & Hw & He).
  destruct (count_row_content_cells_spec row_cells) as (Hk & _ & _).
  destruct (row_written_reads _ _ _ _ column_count (row_end metadata) Hw Hc ltac:(lia)) as (Hu & Hd & _).
  rewrite (He _ Hl). cbn [mbind option_bind]. eexists. split; [done|].
  cbn [encoded_row_bytes snapshot_text_byte_count snapshot_metadata decoded_row_cells].
  split; [|done]. pose proof (padded_length column_count row_cells Hl) as Hpl.
  destruct (padded_drop column_count row_cells Hl) as [Ht Hdr].
  assert (Forall Cell_wf (padded column_count row_cells)) as Hwf'.
  { apply Forall_app. split; [done|]. apply Forall_replicate, blank_ok. }
  split; cbn [encoded_row_bytes snapshot_text_byte_count snapshot_metadata decoded_row_cells image_cells];
    rewrite ?Hpl; [lia| |lia|done| |done|by left|done|].
  - rewrite Hd, N2Nat.id, Ht. done.
  - assert (forall l, Forall Cell_wf l -> images_from 0 (padded column_count l) = images_from 0 l) as Hpad.
    { intros l _. unfold padded. by rewrite images_from_app, images_of_blanks, app_nil_r. }
    rewrite Hpad by done. destruct plain_row_style as [s|].
    + rewrite bool_decide_eq_true_2 by done. symmetry. apply images_from_none.
      eapply Forall_impl; [exact Hp|]. by intros c (_ & _ & ?).
    + rewrite bool_decide_eq_false_2 by (by intros []). apply list_row_image_cells_eq. lia.
  - apply Forall_app. split; [done|apply blank_canonical].
Qed.

Lemma restore_row k row s n :
  snapshot_of k row s -> (k <= n <= length row)%nat ->
  restore_image_cells s (encoded_cell <$> take n row) = Some (take n row).
Proof.
  intros [_ _ Hb Hbl Him _ _ _ Hcan] Hn. unfold restore_image_cells. fold restore_step.
  assert (image_cells s = images_from 0 (take n row)) as ->.
  { rewrite Him. rewrite <- (take_drop n row) at 1. rewrite images_from_app.
    assert (drop n row = replicate (length row - n) build_blank) as ->.
    { replace n with (k + (n - k))%nat at 1 by lia. rewrite <- drop_drop, Hbl, drop_replicate. f_equal. lia. }
    by rewrite images_of_blanks, app_nil_r. }
  apply (restore_images [] (take n row)). by apply Forall_take.
Qed.

Lemma snapshot_reads k row s cells :
  snapshot_of k row s ->
  let shape := MkEncodedRowShape (N.of_nat (length row)) (row_end (snapshot_metadata s))
                 (N.of_nat (length row - k)) in
  get_encoded_row_shape s = Some shape
  /\ decode_row_cells (encoded_row_bytes s)
     = ok (MkDecodedRow (encoded_cell <$> row) (row_end (snapshot_metadata s)))
  /\ snapshot_decode_row_cells s = Some row
  /\ snapshot_decode_row_run_cells_into s cells = Some (shape, cells ++ take k row).
Proof.
  intros Hs shape. pose proof Hs as [_ Hr Hb Hbl _ _ _ _ _].
  assert (decode_row_cells (encoded_row_bytes s)
     = ok (MkDecodedRow (encoded_cell <$> row) (row_end (snapshot_metadata s)))) as Hd.
  { unfold decode_row_cells, decode_row_run_cells_into. rewrite Hr.
    cbn [app mbind outcome_bind ok shape_column_count shape_row_end]. do 3 f_equal.
    unfold resize_cells. rewrite Nat2N.id, length_fmap, length_take, Nat.min_l by done.
    rewrite take_ge by (rewrite length_fmap, length_take; lia).
    rewrite <- (take_drop k row) at 3. by rewrite Hbl, fmap_app, encoded_blanks. }
  split_and!; [|done| |].
  - unfold get_encoded_row_shape. by rewrite (decode_row_runs_shape _ _ _ Hr).
  - unfold snapshot_decode_row_cells. rewrite Hd. cbn [row_cells].
    rewrite <- (take_ge row (length row)) at 1 2 by done. by eapply restore_row.
  - unfold snapshot_decode_row_run_cells_into, decode_row_run_cells_into. rewrite Hr.
    unfold ok. cbv beta iota. rewrite drop_app_length, (restore_row k row s k) by done. cbn [mbind option_bind].
    by rewrite take_app_length.
Qed.

(** ** Stored rows *)

Lemma place_stored_images pre row previous :
  Forall Cell_canonical row ->
  match previous with Some p => p < N.of_nat (length pre) | None => True end ->
  place_stored_image_cells previous (images_from (length pre) row) (pre ++ (encoded_cell <$> row))
  = ok (pre ++ row).
Proof.
  intros H. revert pre previous. induction H as [|c row Hc _ IH]; intros pre previous Hp; [done|].
  cbn [images_from fmap list_fmap]. pose proof (restore_cell c Hc) as Hr.
  assert (length (pre ++ [c]) = S (length pre)) as El by (rewrite length_app; simpl; lia).
  assert (pre ++ c :: row = (pre ++ [c]) ++ row) as -> by (by rewrite <- app_assoc).
  destruct (get_image_cell_extra c) as [extra|] eqn:Ei.
  - cbn [app place_stored_image_cells image_column_index image_cell_extra]. rewrite Nat2N.id.
    assert (match previous with Some p => N.of_nat (length pre) <=? p | None => false end = false) as ->
      by (destruct previous; [by apply N.leb_gt|done]).
    rewrite list_lookup_middle by done. rewrite Hr, Ei, bool_decide_eq_false_2 by done.
    rewrite insert_app_r_alt, Nat.sub_diag by lia. cbn [list_insert insert].
    rewrite <- El. specialize (IH (pre ++ [c]) (Some (N.of_nat (length pre)))).
    rewrite <- app_assoc in IH. apply IH. rewrite El. lia.
  - cbn [app]. rewrite Hr, <- El. specialize (IH (pre ++ [c]) previous).
    rewrite <- app_assoc in IH. apply IH. destruct previous; [lia|done].
Qed.

Lemma padded_full column_count row :
  length row = N.to_nat column_count -> padded column_count row = row.
Proof. intros H. unfold padded. by rewrite H, Nat.sub_diag, app_nil_r. Qed.

Lemma from_stored_same row_cells column_count plain_row_style metadata s :
  Forall Cell_wf row_cells -> Forall Cell_canonical row_cells ->
  (length row_cells <= N.to_nat column_count)%nat -> column_count <= U16_MAX ->
  plain_row_promise plain_row_style row_cells ->
  from_padded_row_cells row_cells column_count plain_row_style metadata = Some s ->
  from_stored_row (encoded_row_bytes s) (snapshot_metadata s) (image_cells s) = ok s.
Proof.
  intros Hwf Hcan Hl Hc Hp Hs.
  destruct (from_padded_snapshot _ _ _ metadata Hwf Hcan Hl Hc Hp) as (s' & Hs' & Hrow & He & Hm & Hcache).
  rewrite Hs in Hs'. injection Hs' as <-.
  destruct (snapshot_reads _ _ _ [] Hrow) as (_ & Hd & _). unfold from_stored_row. rewrite Hd.
  cbn [map_err ok mbind outcome_bind decoded_row_end RowDecoder.row_cells].
  rewrite bool_decide_eq_true_2 by done. cbn [negb].
  rewrite (so_images _ _ _ Hrow).
  pose proof (place_stored_images [] _ None (so_canonical _ _ _ Hrow) I) as Hplace.
  cbn [app length] in Hplace. rewrite Hplace. cbn [app ok mbind outcome_bind].
  pose proof (padded_length column_count row_cells Hl) as Hpl. unfold from_row_cells, u16_try_from.
  rewrite Hpl, N2Nat.id, (proj2 (N.leb_le _ _) Hc). cbn [mbind option_bind].
  unfold from_padded_row_cells.
  rewrite (encode_padded_alike _ column_count None) by (done || lia).
  rewrite (padded_full _ (padded column_count row_cells)) by done.
  rewrite <- (encode_padded_alike _ _ plain_row_style) by (done || by apply plain_promise_ok).
  rewrite Hm, He. cbn [mbind option_bind expect ok]. rewrite bool_decide_eq_false_2 by (by intros []).
  rewrite list_row_image_cells_eq by (rewrite Hpl; lia). rewrite <- (so_images _ _ _ Hrow).
  rewrite <- Hm, <- Hcache. by destruct s.
Qed.

Lemma repad_hard_ok row_cells column_count column_count' plain_row_style metadata s :
  Forall Cell_wf row_cells -> Forall Cell_canonical row_cells ->
  (length row_cells <= N.to_nat column_count)%nat -> column_count <= U16_MAX ->
  column_count' <= U16_MAX -> plain_row_promise plain_row_style row_cells ->
  from_padded_row_cells row_cells column_count plain_row_style metadata = Some s ->
  let k := count_row_content_cells row_cells in
  repad_hard_row s column_count'
  = if bool_decide (row_end metadata = Hard) && (N.of_nat k <? column_count')
    then (fun s' => Some (MkRepaddedRow s' (N.of_nat k)))
           <$> from_padded_row_cells (take k row_cells) column_count' plain_row_style metadata
    else Some None.
Proof.
  intros Hwf Hcan Hl Hc Hc' Hp Hs k.
  destruct (from_padded_snapshot _ _ _ metadata Hwf Hcan Hl Hc Hp) as (s1 & Hs1 & Hrow & He & Hm & Hcache).
  rewrite Hs in Hs1. injection Hs1 as <-. unfold repad_hard_row. rewrite Hm.
  destruct (bool_decide (row_end metadata = Hard)) eqn:Eh; [|done]. bools. cbn [negb andb].
  pose proof (repad_encoded_ok _ _ column_count' _ _ _ _ Hwf Hc Hc' (plain_promise_ok _ _ Hp) He) as Hr.
  cbv zeta in Hr. fold k in Hr. destruct (count_row_content_cells_spec row_cells) as (Hk & _ & _). fold k in Hk.
  destruct (column_count' <=? N.of_nat k) eqn:E; bools.
  { rewrite Hr, (proj2 (N.ltb_ge _ _)) by done. done. }
  rewrite (proj2 (N.ltb_lt _ _)) by lia. destruct Hr as (bytes' & n' & He' & ->). cbn [ok].
  assert (plain_row_promise plain_row_style (take k row_cells)) as Hp'
    by (destruct plain_row_style; [by apply Forall_take|done]).
  destruct (from_padded_snapshot (take k row_cells) column_count' plain_row_style metadata)
    as (s' & Hs' & Hrow' & He'' & Hm' & Hcache');
    [by apply Forall_take|by apply Forall_take|rewrite length_take; lia|done|done|].
  rewrite Hs'. cbn [fmap option_fmap option_map]. rewrite He' in He''. injection He'' as -> Hn.
  assert (count_row_content_cells (take k row_cells) = k) as Hkk by apply content_of_content.
  do 3 f_equal. destruct s' as [b m t i d], s as [b0 m0 t0 i0 d0]. simpl in *. subst.
  pose proof (so_text _ _ _ Hrow) as T. pose proof (so_text _ _ _ Hrow') as T'.
  pose proof (so_images _ _ _ Hrow) as I. pose proof (so_images _ _ _ Hrow') as I'. simpl in T, T', I, I'.
  f_equal.
  - rewrite T, T', !padded_text_bytes by (rewrite ?length_take; lia). fold k. rewrite Hkk, Eh.
    by rewrite take_take, Nat.min_id.
  - rewrite I, I'. rewrite !padded_content by (rewrite ?length_take; lia). fold k. rewrite Hkk.
    by rewrite !images_from_app, !images_of_blanks, take_take, Nat.min_id.
Qed.

(** A snapshot keeps its row. The snapshot of a row of well-formed cells,
    written for a column count by either path, gives back the padded row, cell
    by cell and image data included, as often as it is asked and without
    decoding again; its shape and its run cells; the text count of the row.
    Repadding a hard-ended snapshot gives the snapshot of its content at the
    new column count, and [None] for another row end or a content that does
    not fit. None of it panics. *)
Theorem snapshots_keep_their_rows row_cells column_count column_count' plain_row_style metadata cells :
  Forall Cell_wf row_cells -> Forall Cell_canonical row_cells ->
  (length row_cells <= N.to_nat column_count)%nat -> column_count <= U16_MAX ->
  column_count' <= U16_MAX -> plain_row_promise plain_row_style row_cells ->
  let row := padded column_count row_cells in
  let k := count_row_content_cells row_cells in
  let shape := MkEncodedRowShape column_count (row_end metadata) (column_count - N.of_nat k) in
  exists s, from_padded_row_cells row_cells column_count plain_row_style metadata = Some s
    /\ snapshot_decode_row_cells s = Some row
    /\ (exists s', list_row_cells s = Some (row, s') /\ list_row_cells s' = Some (row, s'))
    /\ snapshot_decode_row_run_cells_into s cells = Some (shape, cells ++ take k row_cells)
    /\ get_encoded_row_shape s = Some shape
    /\ snapshot_text_byte_count s = compute_text_byte_count row (row_end metadata)
    /\ repad_hard_row s column_count'
       = (if bool_decide (row_end metadata = Hard) && (N.of_nat k <? column_count')
          then (fun s' => Some (MkRepaddedRow s' (N.of_nat k)))
                 <$> from_padded_row_cells (take k row_cells) column_count' plain_row_style metadata
          else Some None).
Proof.
  intros Hwf Hcan Hl Hc Hc' Hp row k shape.
  destruct (from_padded_snapshot _ _ _ metadata Hwf Hcan Hl Hc Hp) as (s & Hs & Hrow & _ & Hm & Hcache).
  exists s. destruct (snapshot_reads _ _ _ cells Hrow) as (Hshape & _ & Hd & Hruns).
  fold row k in Hrow, Hshape, Hd, Hruns. destruct (padded_drop column_count row_cells Hl) as [Ht _].
  fold row k in Ht. pose proof (padded_length column_count row_cells Hl) as Hpl. fold row in Hpl.
  assert (MkEncodedRowShape (N.of_nat (length row)) (row_end (snapshot_metadata s))
    (N.of_nat (length row - k)) = shape) as Eshape.
  { unfold shape. rewrite Hm, Hpl, N2Nat.id. f_equal. lia. }
  rewrite Eshape in Hshape, Hruns. rewrite Ht in Hruns.
  split_and!; [done|done| |done|done|by rewrite (so_text _ _ _ Hrow), Hm|by eapply repad_hard_ok].
  unfold list_row_cells at 1. rewrite Hcache, Hd. eexists. split; done.
Qed.

(** A cell with an accent and a native image fragment, in a padded row. *)
Definition example_image_row : list Cell :=
  [from_character 97 1 default_style;
   MkCell 101 (Some (MkCellExtra [769] None (OneFragment (MkImageCellFragment 7 0 0)))) 1
     (set_bold true default_style)].

Lemma example_image_row_wf : Forall Cell_wf example_image_row /\ Forall Cell_canonical example_image_row.
Proof.
  assert (Style_wf (set_bold true default_style)) as Hb by (repeat split; reflexivity).
  split; (constructor; [|constructor; [|constructor]]).
  - constructor; simpl; [left; reflexivity|lia|repeat split; reflexivity|constructor|].
    unfold MAX_GRAPHEME_CONTINUATION_COUNT. lia.
  - constructor; simpl; [left; reflexivity|lia|exact Hb| |].
    + constructor; [left; reflexivity|constructor].
    + unfold MAX_GRAPHEME_CONTINUATION_COUNT. lia.
  - exact I.
  - left. discriminate.
Qed.

Lemma snapshots_keep_their_rows_witness :
  exists s, from_padded_row_cells example_image_row 4 None (MkRowMetadata Hard true) = Some s
    /\ snapshot_decode_row_cells s = Some (example_image_row ++ [build_blank; build_blank])
    /\ repad_hard_row s 3
       = (fun s' => Some (MkRepaddedRow s' 2))
           <$> from_padded_row_cells example_image_row 3 None (MkRowMetadata Hard true).
Proof.
  destruct example_image_row_wf as [Hwf Hcan].
  destruct (snapshots_keep_their_rows example_image_row 4 3 None (MkRowMetadata Hard true) [] Hwf Hcan)
    as (s & Hs & Hd & _ & _ & _ & _ & Hr); [simpl; lia|lia|lia|exact I|].
  exists s. split; [exact Hs|]. split; [exact Hd|exact Hr].
Defined.

(** Stored rows round-trip. What a resume file stores of a snapshot, its
    bytes, its metadata and its image cells, reads as that snapshot again. *)
Theorem stored_rows_round_trip row_cells column_count plain_row_style metadata :
  Forall Cell_wf row_cells -> Forall Cell_canonical row_cells ->
  (length row_cells <= N.to_nat column_count)%nat -> column_count <= U16_MAX ->
  plain_row_promise plain_row_style row_cells ->
  exists s, from_padded_row_cells row_cells column_count plain_row_style metadata = Some s
    /\ from_stored_row (encoded_row_bytes s) (snapshot_metadata s) (image_cells s) = ok s.
Proof.
  intros Hwf Hcan Hl Hc Hp.
  destruct (from_padded_snapshot _ _ _ metadata Hwf Hcan Hl Hc Hp) as (s & Hs & _).
  exists s. split; [done|]. by eapply from_stored_same.
Qed.

Lemma stored_rows_round_trip_witness :
  exists s, from_padded_row_cells example_image_row 4 None (MkRowMetadata SoftWide true) = Some s
    /\ from_stored_row (encoded_row_bytes s) (snapshot_metadata s) (image_cells s) = ok s.
Proof.
  destruct example_image_row_wf as [Hwf Hcan].
  apply (stored_rows_round_trip example_image_row 4 None (MkRowMetadata SoftWide true) Hwf Hcan);
    [simpl; lia|lia|exact I].
Defined.

(** ** Rows of a peer *)

Lemma encoded_canonical c : encoded_cell c = c -> Cell_canonical c.
Proof.
  intros <-. unfold Cell_canonical, encoded_cell. cbn [cell_extra].
  destruct (list_encoded_combining_characters c) eqn:E; [done|]. by left.
Qed.

Lemma from_encoded_snapshot bytes column_count s :
  Forall is_byte bytes -> from_encoded_row_bytes bytes column_count = ok s ->
  exists k row, snapshot_of k row s /\ N.of_nat (length row) = column_count
    /\ decoded_row_cells s = Some row /\ image_cells s = [] /\ encoded_row_bytes s = bytes
    /\ has_prompt_mark (snapshot_metadata s) = false.
Proof.
  intros Hb H. pose proof (decode_row_runs_sat bytes Hb) as Hsat.
  unfold from_encoded_row_bytes in H. apply outcome_bind_ok in H as (shape & Hshape & H).
  destruct (negb _) eqn:Ec; [done|]. bools. apply outcome_bind_ok in H as (row & Hrow & H).
  injection H as <-. unfold decode_row_cells, decode_row_run_cells_into in Hrow.
  destruct (decode_row_runs bytes) as [[e|[shape' cells]]|] eqn:Er; simpl in Hsat; [done| |done].
  destruct Hsat as ([Hs1 Hs2] & Hcells & Hlen & Hread).
  assert (shape' = shape) as -> by (rewrite Hread in Hshape; by injection Hshape).
  injection Hrow as <-. cbn [RowDecoder.row_cells decoded_row_end app].
  set (n := N.to_nat (shape_column_count shape)).
  set (row := resize_cells n cells).
  assert (length row = n) as Hrl by apply resize_cells_length.
  assert (length cells <= n)%nat as Hcl by (unfold n; lia).
  assert (row = cells ++ replicate (n - length cells) build_blank) as Erow.
  { unfold row, resize_cells. by rewrite take_ge. }
  assert (Forall decoded_cell_ok row) as Hall.
  { rewrite Erow. apply Forall_app. split; [done|]. apply Forall_replicate, blank_ok. }
  assert (take (length cells) row = cells) as Ht by (rewrite Erow; apply take_app_length).
  assert (forall l, Forall decoded_cell_ok l -> encoded_cell <$> l = l) as Henc.
  { intros l Hl. rewrite <- (list_fmap_id l) at 2. apply list_fmap_ext. intros i c Hi.
    rewrite Forall_lookup in Hl. destruct (Hl i c Hi) as [_ ->]. done. }
  exists (length cells), row. cbn [decoded_row_cells image_cells encoded_row_bytes snapshot_metadata has_prompt_mark].
  split_and!; [|unfold n in Hrl; lia|done|done|done|done].
  split; cbn [encoded_row_bytes snapshot_text_byte_count snapshot_metadata decoded_row_cells image_cells row_end].
  - unfold n in Hrl. lia.
  - rewrite Er, Ht, Henc by done. rewrite Hrl. unfold n. rewrite N2Nat.id.
    destruct shape as [cc e tb]; cbn [shape_column_count shape_trailing_blank_count shape_row_end] in *.
    by replace (N.of_nat (N.to_nat cc - length cells)) with tb by lia.
  - lia.
  - rewrite Erow at 1. rewrite drop_app_length. by rewrite Hrl.
  - symmetry. apply images_from_none. eapply Forall_impl; [exact Hall|]. intros c [_ Hc].
    by apply encoded_no_image.
  - done.
  - by right.
  - eapply Forall_impl; [exact Hall|]. by intros c [Hc _].
  - eapply Forall_impl; [exact Hall|]. intros c [_ Hc]. by apply encoded_canonical.
Qed.

Lemma from_encoded_no_panic bytes column_count :
  Forall is_byte bytes -> from_encoded_row_bytes bytes column_count <> panicked.
Proof.
  intros Hb E. pose proof (decode_row_runs_sat bytes Hb) as Hsat. unfold from_encoded_row_bytes in E.
  unfold decode_row_cells, decode_row_run_cells_into in E.
  assert (read_encoded_row_shape bytes <> panicked) as Hne.
  { unfold read_encoded_row_shape. pose proof (read_row_header_sat bytes Hb) as Hh.
    by destruct (read_row_header bytes) as [[?|[? ?]]|]. }
  destruct (read_encoded_row_shape bytes) as [[e|shape]|]; [done| |done]. cbn [mbind outcome_bind] in E.
  destruct (negb _); [done|]. by destruct (decode_row_runs bytes) as [[e|[shape' cells]]|].
Qed.

(** Rows of a peer are checked. On any bytes a peer sends, reading them as
    a row of the window's width never panics. An accepted row is exactly that
    wide, carries no image and no prompt mark, and its kept cells are those its
    bytes decode to; a row of another width is refused by its header; any other
    refusal is the decoder's own error. *)
Theorem peer_rows_are_checked bytes column_count :
  Forall is_byte bytes ->
  match from_encoded_row_bytes bytes column_count with
  | Some (inr s) =>
      exists k row, snapshot_of k row s /\ N.of_nat (length row) = column_count
        /\ list_row_cells s = Some (row, s) /\ snapshot_decode_row_cells s = Some row
        /\ image_cells s = [] /\ has_prompt_mark (snapshot_metadata s) = false
  | Some (inl e) =>
      read_encoded_row_shape bytes = failed e
      \/ exists shape, read_encoded_row_shape bytes = ok shape
           /\ (if shape_column_count shape =? column_count then decode_row_cells bytes = failed e
               else e = ValueOutOfRange "column_count" (shape_column_count shape))
  | None => False
  end.
Proof.
  intros Hb. destruct (from_encoded_row_bytes bytes column_count) as [[e|s]|] eqn:E.
  - unfold from_encoded_row_bytes in E. destruct (read_encoded_row_shape bytes) as [[e'|shape]|] eqn:Es;
      [left; by injection E as ->| |done].
    right. exists shape. split; [done|]. cbn [mbind outcome_bind] in E.
    destruct (shape_column_count shape =? column_count); cbn [negb] in E; [|by injection E].
    destruct (decode_row_cells bytes) as [[e'|row]|] eqn:Ed; [by injection E as ->|done|done].
  - destruct (from_encoded_snapshot bytes column_count s Hb E) as (k & row & Hs & Hl & Hc & Hi & _ & Hp).
    destruct (snapshot_reads _ _ _ [] Hs) as (_ & _ & Hd & _). exists k, row.
    split_and!; [done|done| |done|done|done]. unfold list_row_cells. by rewrite Hc.
  - by apply (from_encoded_no_panic bytes column_count).
Qed.

Lemma peer_rows_are_checked_witness :
  match from_encoded_row_bytes [16; 4; 0; 2; 1; 4; 0; 0; 0; 0; 1; 0; 2; 2; 97; 98; 0] 4 with
  | Some (inr s) => list_row_cells s = Some (example_row, s)
  | _ => False
  end
  /\ from_encoded_row_bytes [16; 4; 0; 2; 1; 4; 0; 0; 0; 0; 1; 0; 2; 2; 97; 98; 0] 5
     = failed (ValueOutOfRange "column_count" 4).
Proof.
  pose proof (peer_rows_are_checked [16; 4; 0; 2; 1; 4; 0; 0; 0; 0; 1; 0; 2; 2; 97; 98; 0] 4) as H.
  split; [|reflexivity].
  assert (from_encoded_row_bytes [16; 4; 0; 2; 1; 4; 0; 0; 0; 0; 1; 0; 2; 2; 97; 98; 0] 4
    = ok (MkRowSnapshot [16; 4; 0; 2; 1; 4; 0; 0; 0; 0; 1; 0; 2; 2; 97; 98; 0] (MkRowMetadata Hard false)
            2 [] (Some example_row))) as E by (vm_compute; reflexivity).
  rewrite E in H |- *. destruct H as (k & row & _ & _ & Hl & _); [repeat constructor|].
  injection Hl as Hrow. reflexivity.
Defined.

(** A stored image cell is not held to the limit on continuation code points:
    the row is accepted and encoded again, and then does not decode. *)
Example stored_marks_past_limit :
  match from_stored_row [16; 4; 0; 2; 1; 4; 0; 0; 0; 0; 1; 0; 2; 2; 97; 98; 0] (MkRowMetadata Hard false)
    [MkRowImageCell 0 (MkCellExtra (replicate 33 769) None (OneFragment (MkImageCellFragment 7 0 0)))] with
  | Some (inr s) => snapshot_decode_row_cells s = None
  | _ => False
  end.
Proof. vm_compute. reflexivity. Qed.
