(* ===== verification/Grid.v ===== *)
(** * The terminal grid ([GridRow] and [Grid] of
    [crates/koshi-terminal/src/grid/state.rs])

    Rows of cells with what the source keeps beside them to do less work: how
    far a row was written, the style of its blanks, whether it is plain text in
    one style, and the snapshot of the last frame. Each operation is written
    with that bookkeeping, [None] being a panic. A method that hands out a
    mutable slice takes the function its caller applies to it. *)

From S2P Require Import Prelude Varint Utf8 Style Cell RowEncoder RowDecoder RowItems RowRoundTrip.
From S2P Require Import RowContract Snapshot.
From stdpp Require Import options.
#[local] Open Scope N_scope.

(** ** Definitions *)

(** [rotate_left] and [rotate_right] of a slice. *)
Definition rotate_left {A} (n : nat) (l : list A) : list A := drop n l ++ take n l.
Definition rotate_right {A} (n : nat) (l : list A) : list A :=
  drop (length l - n) l ++ take (length l - n) l.

Definition default_metadata : RowMetadata := MkRowMetadata Hard false.

Record GridRow := MkGridRow
  { cells : list Cell;
    row_metadata : RowMetadata;
    written_cell_count : nat;
    blank_fill_style : Style;
    plain_row_style : option Style;
    published_row_snapshot : option RowSnapshot }.

(** *** One row *)

Definition from_blank (column_count : nat) (fill_style : Style) : GridRow :=
  MkGridRow (replicate column_count (build_blank_with_style fill_style)) default_metadata 0 fill_style
    (Some fill_style) None.

Definition from_cells (cells : list Cell) (metadata : RowMetadata) : GridRow :=
  MkGridRow cells metadata (length cells) default_style None None.

(** The cells of [first..last] changed by [f], which keeps their count. *)
Definition get_cells_mut (first last : nat) (f : list Cell -> list Cell) (row : GridRow)
    : option GridRow :=
  if (first <=? last)%nat && (last <=? length (cells row))%nat then
    Some (MkGridRow (take first (cells row) ++ f (slice first last (cells row)) ++ drop last (cells row))
      (row_metadata row) (written_cell_count row `max` last) (blank_fill_style row) None None)
  else None.

Definition set_plain_row_style (plain_row_style : option Style) (row : GridRow) : GridRow :=
  MkGridRow (cells row) (row_metadata row) (written_cell_count row) (blank_fill_style row)
    plain_row_style (published_row_snapshot row).

(** [(self.plain_row_style == Some(style) || is_whole_row).then_some(style)]. *)
Definition plain_style_after (first last : nat) (style : Style) (row : GridRow) : option Style :=
  let is_whole_row := (first =? 0)%nat && (last =? length (cells row))%nat in
  if bool_decide (plain_row_style row = Some style) || is_whole_row then Some style else None.

Definition row_write_ascii_cells (first_column_index : nat) (ascii_bytes : list N) (style : Style)
    (row : GridRow) : option GridRow :=
  let last := (first_column_index + length ascii_bytes)%nat in
  let plain_row_style := plain_style_after first_column_index last style row in
  row ← get_cells_mut first_column_index last
          (fun _ => (fun ascii_byte => from_character ascii_byte 1 style) <$> ascii_bytes) row;
  Some (set_plain_row_style plain_row_style row).

Definition get_row_metadata_mut (f : RowMetadata -> RowMetadata) (row : GridRow) : GridRow :=
  MkGridRow (cells row) (f (row_metadata row)) (written_cell_count row) (blank_fill_style row)
    (plain_row_style row) None.

(** [slice.fill(cell)]. *)
Definition fill (cell : Cell) (span : list Cell) : list Cell := replicate (length span) cell.

Definition fill_with_blank (first last : nat) (fill_style : Style) (row : GridRow) : option GridRow :=
  let blank_cell := build_blank_with_style fill_style in
  let plain_row_style := plain_style_after first last fill_style row in
  if (last <? length (cells row))%nat then
    row ← get_cells_mut first last (fill blank_cell) row;
    Some (set_plain_row_style plain_row_style row)
  else
    let '(rewritten_end_index, written_cell_count) :=
      if bool_decide (fill_style = blank_fill_style row)
      then (written_cell_count row `max` first, written_cell_count row `min` first)%nat
      else (length (cells row), first) in
    if (first <=? rewritten_end_index)%nat && (rewritten_end_index <=? length (cells row))%nat then
      Some (MkGridRow
        (take first (cells row) ++ fill blank_cell (slice first rewritten_end_index (cells row))
         ++ drop rewritten_end_index (cells row))
        (row_metadata row) written_cell_count fill_style plain_row_style None)
    else None.

Definition set_row_metadata (metadata : RowMetadata) (row : GridRow) : GridRow :=
  MkGridRow (cells row) metadata (written_cell_count row) (blank_fill_style row)
    (plain_row_style row) (published_row_snapshot row).

Definition reset_to_blank (fill_style : Style) (row : GridRow) : option GridRow :=
  row ← fill_with_blank 0 (length (cells row)) fill_style row;
  Some (set_row_metadata default_metadata row).

Definition set_published (snapshot : option RowSnapshot) (row : GridRow) : GridRow :=
  MkGridRow (cells row) (row_metadata row) (written_cell_count row) (blank_fill_style row)
    (plain_row_style row) snapshot.

Definition encode_row_snapshot (row : GridRow) : option RowSnapshot :=
  column_count ← u16_try_from (N.of_nat (length (cells row)));
  from_padded_row_cells (cells row) column_count (plain_row_style row) (row_metadata row).

(** The snapshot, and the row that keeps it. *)
Definition row_get_snapshot (row : GridRow) : option (RowSnapshot * GridRow) :=
  match published_row_snapshot row with
  | Some snapshot => Some (snapshot, row)
  | None =>
      snapshot ← encode_row_snapshot row;
      Some (snapshot, set_published (Some snapshot) row)
  end.

Definition row_take_snapshot (row : GridRow) : option (RowSnapshot * GridRow) :=
  match published_row_snapshot row with
  | Some snapshot => Some (snapshot, set_published None row)
  | None => snapshot ← encode_row_snapshot row; Some (snapshot, row)
  end.

(** *** The grid *)

Record Grid := MkGrid { rows : list GridRow }.

Definition build_blank_grid (row_count column_count : N) (fill_style : Style) : Grid :=
  MkGrid (replicate (N.to_nat row_count) (from_blank (N.to_nat column_count) fill_style)).

(** [Vec::resize]. *)
Definition resize_with (count : nat) (cell : Cell) (cells : list Cell) : list Cell :=
  take count cells ++ replicate (count - length cells) cell.

Definition from_rows_with_metadata (row_cells : list (list Cell * RowMetadata)) (column_count : N)
    (fill_style : Style) : Grid :=
  MkGrid ((fun row => from_cells
    (resize_with (N.to_nat column_count) (build_blank_with_style fill_style) row.1) row.2) <$> row_cells).

Definition get_row_metadata (row_index : N) (grid : Grid) : RowMetadata :=
  default default_metadata (row_metadata <$> rows grid !! N.to_nat row_index).

Definition get_row_end (row_index : N) (grid : Grid) : RowEnd := row_end (get_row_metadata row_index grid).

(** The row at the index changed by [f], which may panic; no row is no change. *)
Definition update_row (row_index : nat) (f : GridRow -> option GridRow) (grid : Grid) : option Grid :=
  match rows grid !! row_index with
  | Some row => row ← f row; Some (MkGrid (<[row_index := row]> (rows grid)))
  | None => Some grid
  end.

Definition set_row_end (row_index : N) (e : RowEnd) (grid : Grid) : option Grid :=
  update_row (N.to_nat row_index) (fun row =>
    Some (if negb (bool_decide (row_end (row_metadata row) = e))
          then get_row_metadata_mut (fun m => MkRowMetadata e (has_prompt_mark m)) row else row)) grid.

Definition grid_has_prompt_mark (row_index : N) (grid : Grid) : bool :=
  has_prompt_mark (get_row_metadata row_index grid).

Definition set_prompt_mark (row_index : N) (mark : bool) (grid : Grid) : option Grid :=
  update_row (N.to_nat row_index) (fun row =>
    Some (if negb (Bool.eqb (has_prompt_mark (row_metadata row)) mark)
          then get_row_metadata_mut (fun m => MkRowMetadata (row_end m) mark) row else row)) grid.

Definition get_grid_dimensions (grid : Grid) : N * N :=
  (usize_as_u16 (length (rows grid)),
   usize_as_u16 (default 0%nat ((fun row => length (cells row)) <$> head (rows grid)))).

Definition get_cell (row_index column_index : N) (grid : Grid) : option Cell :=
  row ← rows grid !! N.to_nat row_index; cells row !! N.to_nat column_index.

(** [f] is what the caller does to the cell; no cell is no change. *)
Definition get_cell_mut (row_index column_index : N) (f : Cell -> Cell) (grid : Grid) : option Grid :=
  update_row (N.to_nat row_index) (fun row =>
    let column_index := N.to_nat column_index in
    if (length (cells row) <=? column_index)%nat then Some row
    else get_cells_mut column_index (column_index + 1) (fmap f) row) grid.

Definition get_row_cells (row_index : N) (grid : Grid) : option (list Cell) :=
  cells <$> rows grid !! N.to_nat row_index.

Definition grid_list_row_cells (grid : Grid) : list (list Cell) := cells <$> rows grid.

(** The snapshot, and the grid whose row keeps it. *)
Definition get_row_snapshot (row_index : N) (grid : Grid) : option (option RowSnapshot * Grid) :=
  match rows grid !! N.to_nat row_index with
  | Some row =>
      '(snapshot, row) ← row_get_snapshot row;
      Some (Some snapshot, MkGrid (<[N.to_nat row_index := row]> (rows grid)))
  | None => Some (None, grid)
  end.

Definition list_row_snapshots (grid : Grid) : option (list RowSnapshot * Grid) :=
  snapshots ← mapM row_get_snapshot (rows grid);
  Some (snapshots.*1, MkGrid snapshots.*2).

Definition take_row_snapshot (row_index : N) (grid : Grid) : option (option RowSnapshot * Grid) :=
  match rows grid !! N.to_nat row_index with
  | Some row =>
      '(snapshot, row) ← row_take_snapshot row;
      Some (Some snapshot, MkGrid (<[N.to_nat row_index := row]> (rows grid)))
  | None => Some (None, grid)
  end.

(** *** Cell edits *)

Definition write_ascii_cells (row_index first_column_index : N) (ascii_bytes : list N) (style : Style)
    (grid : Grid) : option Grid :=
  update_row (N.to_nat row_index) (fun row =>
    let first_column_index := N.to_nat first_column_index in
    let written_byte_count := (length ascii_bytes `min` (length (cells row) - first_column_index))%nat in
    if (written_byte_count =? 0)%nat then Some row
    else row_write_ascii_cells first_column_index (take written_byte_count ascii_bytes) style row) grid.

Definition clear_wide_glyph_at (row_index column_index : N) (fill_style : Style) (grid : Grid)
    : option Grid :=
  let display_width :=
    match get_cell row_index column_index grid with Some c => display_width c | None => 1 end in
  let paired_column_index :=
    if display_width =? 2 then u16_checked_add column_index 1
    else if display_width =? 0 then if column_index =? 0 then None else Some (column_index - 1)
    else None in
  match paired_column_index with
  | Some paired_column_index =>
      get_cell_mut row_index paired_column_index (fun _ => build_blank_with_style fill_style) grid
  | None => Some grid
  end.

Definition clear_line (row_index first_column_index last_column_index_exclusive : N)
    (fill_style : Style) (grid : Grid) : option Grid :=
  grid ← update_row (N.to_nat row_index) (fun row =>
    let end_column_index := (N.to_nat last_column_index_exclusive `min` length (cells row))%nat in
    if (N.to_nat first_column_index <? end_column_index)%nat
    then fill_with_blank (N.to_nat first_column_index) end_column_index fill_style row
    else Some row) grid;
  let column_count := (get_grid_dimensions grid).2 in
  if (column_count <=? last_column_index_exclusive) && (first_column_index <? column_count)
  then set_row_end row_index Hard grid else Some grid.

(** A column span of one row rewritten by [f] of the span and its length, and
    the row end reset; a row past the last and an empty span change nothing. *)
Definition edit_columns (row_index first_column_index last_column_index : N)
    (f : nat -> list Cell -> list Cell) (grid : Grid) : option Grid :=
  match rows grid !! N.to_nat row_index with
  | None => Some grid
  | Some row =>
      let first_column_index := N.to_nat first_column_index in
      let last_column_index := ((N.to_nat last_column_index + 1) `min` length (cells row))%nat in
      if (last_column_index <=? first_column_index)%nat then Some grid
      else
        let column_span := (last_column_index - first_column_index)%nat in
        row ← get_cells_mut first_column_index last_column_index (f column_span) row;
        set_row_end row_index Hard (MkGrid (<[N.to_nat row_index := row]> (rows grid)))
  end.

Definition insert_cells_in_columns (row_index first_column_index last_column_index insert_cell_count : N)
    (fill_style : Style) (grid : Grid) : option Grid :=
  edit_columns row_index first_column_index last_column_index (fun column_span span_cells =>
    let inserted_cell_count := (column_span `min` N.to_nat insert_cell_count)%nat in
    let span_cells := rotate_right inserted_cell_count span_cells in
    fill (build_blank_with_style fill_style) (take inserted_cell_count span_cells)
    ++ drop inserted_cell_count span_cells) grid.

Definition delete_cells_in_columns (row_index first_column_index last_column_index delete_cell_count : N)
    (fill_style : Style) (grid : Grid) : option Grid :=
  edit_columns row_index first_column_index last_column_index (fun column_span span_cells =>
    let deleted_cell_count := (column_span `min` N.to_nat delete_cell_count)%nat in
    let span_cells := rotate_left deleted_cell_count span_cells in
    take (column_span - deleted_cell_count) span_cells
    ++ fill (build_blank_with_style fill_style) (drop (column_span - deleted_cell_count) span_cells)) grid.

(** *** Line edits *)

(** The rows of the band [first..=last] changed by [f]. *)
Definition update_band (first last : nat) (f : list GridRow -> option (list GridRow)) (grid : Grid)
    : option Grid :=
  if (last <? length (rows grid))%nat then
    band_rows ← f (slice first (S last) (rows grid));
    Some (MkGrid (take first (rows grid) ++ band_rows ++ drop (S last) (rows grid)))
  else None.

(** [swap_with_slice] of the same columns of two rows. *)
Definition swap_row_spans (i j first last : nat) (band_rows : list GridRow) : option (list GridRow) :=
  row_i ← band_rows !! i;
  row_j ← band_rows !! j;
  let span_i := slice first last (cells row_i) in
  let span_j := slice first last (cells row_j) in
  row_i ← get_cells_mut first last (fun _ => span_j) row_i;
  row_j ← get_cells_mut first last (fun _ => span_i) row_j;
  Some (<[j := row_j]> (<[i := row_i]> band_rows)).

(** A loop that runs [f] over the indices, stopping at a panic. *)
Definition try_for {A S} (f : S -> A -> option S) (indices : list A) (s : S) : option S :=
  foldl (fun acc i => s ← acc; f s i) (Some s) indices.

(** The columns of each row of [vacated_rows] blanked. *)
Definition blank_row_spans (first last : nat) (fill_style : Style) (vacated_rows : list GridRow)
    : option (list GridRow) :=
  mapM (get_cells_mut first last (fill (build_blank_with_style fill_style))) vacated_rows.

(** The early returns of the four line edits in columns and rows. *)
Definition is_band_outside (first_row_index last_row_index row_count : N) : bool :=
  (row_count <=? first_row_index) || (row_count <=? last_row_index) || (last_row_index <? first_row_index).

Definition delete_lines_in_columns
    (first_row_index last_row_index delete_row_count first_column_index last_column_index : N)
    (fill_style : Style) (grid : Grid) : option Grid :=
  let '(row_count, column_count) := get_grid_dimensions grid in
  if is_band_outside first_row_index last_row_index row_count || (column_count =? 0) then Some grid
  else
    let first_column_index := N.to_nat (first_column_index `min` (column_count - 1)) in
    let last_column_index := S (N.to_nat (last_column_index `min` (column_count - 1))) in
    if (last_column_index <=? first_column_index)%nat then Some grid
    else
      let removed_row_count :=
        N.to_nat (delete_row_count `min` u16_add (last_row_index - first_row_index) 1) in
      if (removed_row_count =? 0)%nat then Some grid
      else
        update_band (N.to_nat first_row_index) (N.to_nat last_row_index) (fun band_rows =>
          let band_row_count := length band_rows in
          band_rows ← try_for (fun band_rows source_row_index =>
              swap_row_spans (source_row_index - removed_row_count) source_row_index
                first_column_index last_column_index band_rows)
            (seq removed_row_count (band_row_count - removed_row_count)) band_rows;
          vacated_rows ← blank_row_spans first_column_index last_column_index fill_style
                           (drop (band_row_count - removed_row_count) band_rows);
          Some (take (band_row_count - removed_row_count) band_rows ++ vacated_rows)) grid.

Definition insert_lines_in_columns
    (first_row_index last_row_index insert_row_count first_column_index last_column_index : N)
    (fill_style : Style) (grid : Grid) : option Grid :=
  let '(row_count, column_count) := get_grid_dimensions grid in
  if is_band_outside first_row_index last_row_index row_count || (column_count =? 0) then Some grid
  else
    let first_column_index := N.to_nat (first_column_index `min` (column_count - 1)) in
    let last_column_index := S (N.to_nat (last_column_index `min` (column_count - 1))) in
    if (last_column_index <=? first_column_index)%nat then Some grid
    else
      let inserted_row_count :=
        N.to_nat (insert_row_count `min` u16_add (last_row_index - first_row_index) 1) in
      if (inserted_row_count =? 0)%nat then Some grid
      else
        update_band (N.to_nat first_row_index) (N.to_nat last_row_index) (fun band_rows =>
          let band_row_count := length band_rows in
          band_rows ← try_for (fun band_rows destination_row_index =>
              swap_row_spans destination_row_index (destination_row_index - inserted_row_count)
                first_column_index last_column_index band_rows)
            (reverse (seq inserted_row_count (band_row_count - inserted_row_count))) band_rows;
          vacated_rows ← blank_row_spans first_column_index last_column_index fill_style
                           (take inserted_row_count band_rows);
          Some (vacated_rows ++ drop inserted_row_count band_rows)) grid.

Definition delete_lines (first_row_index last_row_index delete_row_count : N) (fill_style : Style)
    (grid : Grid) : option Grid :=
  if is_band_outside first_row_index last_row_index (get_grid_dimensions grid).1 then Some grid
  else
    let removed_line_count := delete_row_count `min` u16_add (last_row_index - first_row_index) 1 in
    grid ← update_band (N.to_nat first_row_index) (N.to_nat last_row_index) (fun band_rows =>
      let band_row_count := length band_rows in
      let band_rows := rotate_left (N.to_nat removed_line_count) band_rows in
      recycled_rows ← mapM (reset_to_blank fill_style)
        (drop (band_row_count - N.to_nat removed_line_count) band_rows);
      Some (take (band_row_count - N.to_nat removed_line_count) band_rows ++ recycled_rows)) grid;
    if 0 <? removed_line_count then
      grid ← (if 0 <? first_row_index then set_row_end (first_row_index - 1) Hard grid else Some grid);
      if removed_line_count <=? last_row_index
      then set_row_end (last_row_index - removed_line_count) Hard grid else Some grid
    else Some grid.

Definition insert_lines (first_row_index last_row_index insert_row_count : N) (fill_style : Style)
    (grid : Grid) : option Grid :=
  if is_band_outside first_row_index last_row_index (get_grid_dimensions grid).1 then Some grid
  else
    let inserted_line_count := insert_row_count `min` u16_add (last_row_index - first_row_index) 1 in
    grid ← update_band (N.to_nat first_row_index) (N.to_nat last_row_index) (fun band_rows =>
      let band_rows := rotate_right (N.to_nat inserted_line_count) band_rows in
      recycled_rows ← mapM (reset_to_blank fill_style) (take (N.to_nat inserted_line_count) band_rows);
      Some (recycled_rows ++ drop (N.to_nat inserted_line_count) band_rows)) grid;
    if 0 <? inserted_line_count then
      grid ← (if 0 <? first_row_index then set_row_end (first_row_index - 1) Hard grid else Some grid);
      set_row_end last_row_index Hard grid
    else Some grid.

(** ** One row *)

(** [cells] with those of [first..last] replaced by [span]. *)
Definition splice {A} (first last : nat) (span cells : list A) : list A :=
  take first cells ++ span ++ drop last cells.

(** A row of [column_count] cells whose bookkeeping is true of its cells. *)
Record row_ok (column_count : nat) (row : GridRow) : Prop :=
  { rk_length : length (cells row) = column_count;
    rk_written : (written_cell_count row <= column_count)%nat;
    rk_blank : drop (written_cell_count row) (cells row)
      = replicate (column_count - written_cell_count row) (build_blank_with_style (blank_fill_style row));
    rk_plain : plain_row_promise (plain_row_style row) (cells row);
    rk_published : match published_row_snapshot row with
                   | Some snapshot => encode_row_snapshot row = Some snapshot
                   | None => True
                   end;
    rk_wf : Forall Cell_wf (cells row);
    rk_canonical : Forall Cell_canonical (cells row) }.

Lemma splice_length {A} first last (span l : list A) :
  (first <= last <= length l)%nat -> length span = (last - first)%nat ->
  length (splice first last span l) = length l.
Proof. intros H1 H2. unfold splice. rewrite !length_app, length_take, length_drop, H2. lia. Qed.

Lemma Forall_splice {A} (P : A -> Prop) first last (span l : list A) :
  Forall P l -> Forall P span -> Forall P (splice first last span l).
Proof.
  intros Hl Hs. unfold splice. rewrite !Forall_app. split_and!; [by apply Forall_take|done|by apply Forall_drop].
Qed.

Lemma drop_splice {A} first last (span l : list A) k :
  (first <= last <= length l)%nat -> length span = (last - first)%nat -> (last <= k)%nat ->
  drop k (splice first last span l) = drop k l.
Proof.
  intros H1 H2 H3. unfold splice. rewrite drop_app_ge by (rewrite length_take; lia).
  rewrite length_take, Nat.min_l by lia. rewrite drop_app_ge by lia. rewrite H2, drop_drop. f_equal. lia.
Qed.

Lemma splice_whole {A} (span l : list A) : splice 0 (length l) span l = span.
Proof. unfold splice. by rewrite take_0, drop_all, app_nil_r. Qed.

Lemma blank_with_style_ok s :
  Style_wf s -> Cell_wf (build_blank_with_style s) /\ Cell_canonical (build_blank_with_style s).
Proof. intros Hs. split; [|done]. apply (narrow_cell_ok 32 1 s); auto with koshi. lia. Qed.

Lemma blank_plain s :
  plain_ascii (build_blank_with_style s) = true /\ cell_style (build_blank_with_style s) = s
  /\ get_image_cell_extra (build_blank_with_style s) = None.
Proof. done. Qed.

Lemma ascii_plain c s :
  is_ascii c = true ->
  plain_ascii (from_character c 1 s) = true /\ cell_style (from_character c 1 s) = s
  /\ get_image_cell_extra (from_character c 1 s) = None.
Proof. intros Hc. split_and!; [|done|done]. unfold plain_ascii. simpl. by rewrite Hc. Qed.

(** Every change through [get_cells_mut], and what it does. *)
Lemma get_cells_mut_ok column_count first last f row :
  row_ok column_count row -> (first <= last <= column_count)%nat ->
  (let span := slice first last (cells row) in
   length (f span) = (last - first)%nat /\ Forall Cell_wf (f span) /\ Forall Cell_canonical (f span)) ->
  exists row', get_cells_mut first last f row = Some row' /\ row_ok column_count row'
    /\ cells row' = splice first last (f (slice first last (cells row))) (cells row)
    /\ row_metadata row' = row_metadata row /\ plain_row_style row' = None
    /\ published_row_snapshot row' = None.
Proof.
  intros [H1 H2 H3 H4 H5 H6 H7] Hr (Hl & Hw & Hc). unfold get_cells_mut.
  rewrite H1, !(proj2 (Nat.leb_le _ _)) by lia. cbn [andb]. eexists. split; [done|].
  cbn [cells row_metadata plain_row_style published_row_snapshot]. split; [|done].
  split; cbn [cells row_metadata plain_row_style published_row_snapshot written_cell_count blank_fill_style];
    try fold (splice first last (f (slice first last (cells row))) (cells row)).
  - rewrite splice_length; [done|lia|done].
  - lia.
  - rewrite (drop_splice first last) by (done || lia).
    replace (written_cell_count row `max` last)%nat
      with (written_cell_count row + (last - written_cell_count row))%nat by lia.
    rewrite <- drop_drop, H3, drop_replicate. f_equal. lia.
  - done.
  - done.
  - by apply (Forall_splice Cell_wf).
  - by apply (Forall_splice Cell_canonical).
Qed.

(** A row that is plain in [s] stays so when plain cells in [s] are written,
    and a row written whole becomes so. *)
Lemma plain_after_ok column_count first last s row span :
  row_ok column_count row -> (first <= last <= column_count)%nat -> length span = (last - first)%nat ->
  plain_row_promise (Some s) span ->
  plain_row_promise (plain_style_after first last s row) (splice first last span (cells row)).
Proof.
  intros Hok Hr Hl Hp. unfold plain_style_after. rewrite (rk_length _ _ Hok). destruct (_ || _) eqn:E; [|done].
  apply orb_true_iff in E as [E|E]; bools.
  - pose proof (rk_plain _ _ Hok) as Hplain. rewrite E in Hplain. by apply Forall_splice.
  - subst. pose proof (rk_length _ _ Hok) as <-. by rewrite splice_whole.
Qed.

Lemma set_plain_ok column_count row p :
  row_ok column_count row -> published_row_snapshot row = None -> plain_row_promise p (cells row) ->
  row_ok column_count (set_plain_row_style p row).
Proof. intros [H1 H2 H3 H4 H5 H6 H7] Hn Hp. split; simpl; try done. by rewrite Hn. Qed.

(** The cells and metadata a row shows. *)
Definition Row : Type := list Cell * RowMetadata.
Definition row_view (row : GridRow) : Row := (cells row, row_metadata row).

Lemma replicate_Forall {A} (P : A -> Prop) n x : P x -> Forall P (replicate n x).
Proof. intros H. by apply Forall_replicate. Qed.

(** Blanking the end of a row rewrites only what can differ from the blank. *)
Lemma fill_to_end column_count first s row :
  row_ok column_count row -> (first <= column_count)%nat -> s = blank_fill_style row ->
  let rewritten := (written_cell_count row `max` first)%nat in
  let blank := build_blank_with_style s in
  let cells' := take first (cells row) ++ fill blank (slice first rewritten (cells row))
                ++ drop rewritten (cells row) in
  (rewritten <= column_count)%nat
  /\ cells' = splice first column_count (replicate (column_count - first) blank) (cells row)
  /\ drop (written_cell_count row `min` first) cells'
     = replicate (column_count - written_cell_count row `min` first) blank.
Proof.
  intros [H1 H2 H3 _ _ _ _] Hf -> rewritten blank cells'.
  assert (drop rewritten (cells row) = replicate (column_count - rewritten) blank) as Hd.
  { unfold rewritten. replace (written_cell_count row `max` first)%nat
      with (written_cell_count row + (first - written_cell_count row))%nat by lia.
    rewrite <- drop_drop, H3, drop_replicate. f_equal. lia. }
  assert (cells' = take first (cells row) ++ replicate (column_count - first) blank) as E.
  { unfold cells'. rewrite Hd. unfold fill. rewrite slice_length by (unfold rewritten; lia).
    rewrite <- replicate_add. do 2 f_equal. unfold rewritten. lia. }
  split_and!; [unfold rewritten; lia| |].
  - rewrite E. unfold splice. rewrite (drop_ge (cells row)) by lia. by rewrite app_nil_r.
  - rewrite E. set (w := written_cell_count row) in *.
    rewrite <- (take_drop (w `min` first) (take first (cells row))), <- app_assoc.
    rewrite drop_app_ge by (rewrite !length_take; lia).
    rewrite !length_take, H1, (Nat.min_l first), (Nat.min_l (w `min` first)), Nat.sub_diag, drop_0 by lia.
    assert (drop (w `min` first) (take first (cells row)) = replicate (first - w `min` first) blank) as ->.
    { destruct (Nat.le_gt_cases w first) as [Hle|Hgt].
      - rewrite (Nat.min_l w first) by done.
        replace first with (w + (first - w))%nat at 1 by lia.
        rewrite <- take_drop_commute, H3, take_replicate. f_equal. lia.
      - rewrite (Nat.min_r w first) by lia. rewrite drop_ge by (rewrite length_take; lia).
        by rewrite Nat.sub_diag. }
    rewrite <- replicate_add. f_equal. lia.
Qed.

Lemma fill_with_blank_ok column_count first last s row :
  row_ok column_count row -> (first <= last <= column_count)%nat -> Style_wf s ->
  exists row', fill_with_blank first last s row = Some row' /\ row_ok column_count row'
    /\ row_view row'
       = (splice first last (replicate (last - first) (build_blank_with_style s)) (cells row),
          row_metadata row)
    /\ published_row_snapshot row' = None.
Proof.
  intros Hok Hr Hs. pose proof (rk_length _ _ Hok) as Hlen. unfold fill_with_blank. cbv zeta.
  destruct (blank_with_style_ok s Hs) as [Hbw Hbc]. set (blank := build_blank_with_style s) in *.
  set (span := replicate (last - first) blank).
  assert (length span = last - first)%nat as Hspan by apply length_replicate.
  assert (plain_row_promise (plain_style_after first last s row) (splice first last span (cells row))) as Hplain.
  { eapply plain_after_ok; [done|done|done|]. apply replicate_Forall, blank_plain. }
  destruct (last <? length (cells row))%nat eqn:El; bools.
  - destruct (get_cells_mut_ok column_count first last (fill blank) row Hok Hr)
      as (row' & -> & Hok' & Hc & Hm & _ & Hpub).
    { unfold fill. rewrite length_replicate, slice_length by lia.
      split_and!; [done|by apply replicate_Forall|by apply replicate_Forall]. }
    assert (fill blank (slice first last (cells row)) = span) as E
      by (unfold fill; by rewrite slice_length by lia).
    rewrite E in Hc. cbn [mbind option_bind]. eexists. split; [done|].
    split; [apply set_plain_ok; [done|done|by rewrite Hc]|].
    split; [|done]. unfold row_view. cbn [cells row_metadata set_plain_row_style]. by rewrite Hc, Hm.
  - assert (last = column_count) as -> by lia.
    destruct (bool_decide (s = blank_fill_style row)) eqn:Es; bools.
    + destruct (fill_to_end column_count first s row Hok ltac:(lia) Es) as (Hb & Hc & Hd).
      fold blank in Hc, Hd. rewrite Hlen, !(proj2 (Nat.leb_le _ _)) by lia. cbn [andb].
      rewrite Hc in Hd. rewrite Hc. fold span in Hd |- *. eexists. split; [done|].
      split; [|done]. destruct Hok as [H1 H2 H3 H4 H5 H6 H7].
      split; cbn [cells row_metadata plain_row_style published_row_snapshot written_cell_count blank_fill_style];
        [rewrite splice_length by (done || lia); done|lia|exact Hd|done|done| |].
      * by apply Forall_splice, replicate_Forall.
      * by apply Forall_splice, replicate_Forall.
    + rewrite Hlen, !(proj2 (Nat.leb_le _ _)) by lia. cbn [andb].
      assert (take first (cells row) ++ fill blank (slice first column_count (cells row))
        ++ drop column_count (cells row) = splice first column_count span (cells row)) as ->.
      { unfold splice, fill. by rewrite slice_length by lia. }
      eexists. split; [done|]. split; [|done]. destruct Hok as [H1 H2 H3 H4 H5 H6 H7].
      split; cbn [cells row_metadata plain_row_style published_row_snapshot written_cell_count blank_fill_style];
        [rewrite splice_length by (done || lia); done|lia| |done|done| |].
      * unfold splice. rewrite (drop_ge (cells row)), app_nil_r by lia.
        rewrite drop_app_ge by (rewrite length_take; lia). rewrite length_take, Nat.min_l by lia.
        by rewrite Nat.sub_diag, drop_0.
      * by apply Forall_splice, replicate_Forall.
      * by apply Forall_splice, replicate_Forall.
Qed.

Lemma write_ascii_row_ok column_count first bytes s row :
  row_ok column_count row -> (first + length bytes <= column_count)%nat -> Style_wf s ->
  Forall (fun b => is_ascii b = true) bytes ->
  exists row', row_write_ascii_cells first bytes s row = Some row' /\ row_ok column_count row'
    /\ row_view row'
       = (splice first (first + length bytes) ((fun b => from_character b 1 s) <$> bytes) (cells row),
          row_metadata row).
Proof.
  intros Hok Hr Hs Hb. unfold row_write_ascii_cells.
  set (span := (fun b => from_character b 1 s) <$> bytes).
  assert (length span = first + length bytes - first)%nat as Hspan by (unfold span; rewrite length_fmap; lia).
  assert (Forall (fun c => Cell_wf c /\ Cell_canonical c) span) as Hcells.
  { apply Forall_fmap. eapply Forall_impl; [exact Hb|]. intros b Ha. split; [|done].
    apply narrow_cell_ok; [by apply ascii_scalar|done|done]. }
  apply Forall_and in Hcells as [Hw Hc].
  destruct (get_cells_mut_ok column_count first (first + length bytes) (fun _ => span) row Hok)
    as (row' & -> & Hok' & Hcells' & Hm & _ & Hpub); [lia|done|].
  cbn [mbind option_bind]. eexists. split; [done|].
  split; [|unfold row_view; cbn [cells row_metadata set_plain_row_style]; by rewrite Hcells', Hm].
  apply set_plain_ok; [done|done|]. rewrite Hcells'. eapply plain_after_ok; [done|lia|done|].
  apply Forall_fmap. eapply Forall_impl; [exact Hb|]. intros b Ha. by apply ascii_plain.
Qed.

Lemma set_metadata_ok column_count metadata row :
  row_ok column_count row -> published_row_snapshot row = None ->
  row_ok column_count (set_row_metadata metadata row).
Proof. intros [H1 H2 H3 H4 H5 H6 H7] Hp. split; simpl; try done. by rewrite Hp. Qed.

Lemma metadata_mut_ok column_count f row :
  row_ok column_count row -> row_ok column_count (get_row_metadata_mut f row).
Proof. by intros [H1 H2 H3 H4 H5 H6 H7]. Qed.

Lemma reset_to_blank_ok column_count s row :
  row_ok column_count row -> Style_wf s ->
  exists row', reset_to_blank s row = Some row' /\ row_ok column_count row'
    /\ row_view row' = (replicate column_count (build_blank_with_style s), default_metadata).
Proof.
  intros Hok Hs. pose proof (rk_length _ _ Hok) as Hlen. unfold reset_to_blank.
  destruct (fill_with_blank_ok column_count 0 (length (cells row)) s row Hok) as (row' & -> & Hok' & Hv & Hp);
    [lia|done|].
  cbn [mbind option_bind]. eexists. split; [done|]. split; [by apply set_metadata_ok|].
  rewrite splice_whole, Nat.sub_0_r, Hlen in Hv. injection Hv as Hc _.
  unfold row_view. cbn [set_row_metadata cells row_metadata]. by rewrite Hc.
Qed.

(** The snapshot a row gives is always that of the cells it holds now. *)
Lemma encode_row_snapshot_ok column_count row :
  row_ok column_count row -> N.of_nat column_count <= U16_MAX ->
  exists s, encode_row_snapshot row = Some s
    /\ snapshot_of (count_row_content_cells (cells row)) (cells row) s
    /\ snapshot_metadata s = row_metadata row /\ decoded_row_cells s = None.
Proof.
  intros [H1 H2 H3 H4 H5 H6 H7] Hc. unfold encode_row_snapshot, u16_try_from.
  rewrite H1, (proj2 (N.leb_le _ _) Hc). cbn [mbind option_bind].
  destruct (from_padded_snapshot (cells row) (N.of_nat column_count) (plain_row_style row)
    (row_metadata row) H6 H7) as (s & Hs & Hrow & _ & Hm & Hcache); [lia|done|done|].
  exists s. rewrite padded_full in Hrow by lia. done.
Qed.

Lemma row_get_snapshot_ok column_count row :
  row_ok column_count row -> N.of_nat column_count <= U16_MAX ->
  exists s row', row_get_snapshot row = Some (s, row') /\ encode_row_snapshot row = Some s
    /\ row_ok column_count row' /\ row_view row' = row_view row
    /\ row_get_snapshot row' = Some (s, row').
Proof.
  intros Hok Hc. destruct (encode_row_snapshot_ok _ _ Hok Hc) as (s & Hs & _). unfold row_get_snapshot.
  pose proof (rk_published _ _ Hok) as Hp. destruct (published_row_snapshot row) as [t|] eqn:E.
  - assert (t = s) as -> by (rewrite Hp in Hs; by injection Hs). exists s, row. rewrite E. done.
  - rewrite Hs. cbn [mbind option_bind]. eexists _, _. split; [done|]. split; [done|].
    split; [|split; [done|done]]. by destruct Hok.
Qed.

Lemma row_take_snapshot_ok column_count row :
  row_ok column_count row -> N.of_nat column_count <= U16_MAX ->
  exists s row', row_take_snapshot row = Some (s, row') /\ encode_row_snapshot row = Some s
    /\ row_ok column_count row' /\ row_view row' = row_view row.
Proof.
  intros Hok Hc. destruct (encode_row_snapshot_ok _ _ Hok Hc) as (s & Hs & _). unfold row_take_snapshot.
  pose proof (rk_published _ _ Hok) as Hp. destruct (published_row_snapshot row) as [t|] eqn:E.
  - assert (t = s) as -> by (rewrite Hp in Hs; by injection Hs).
    eexists _, _. split; [done|]. split; [done|]. split; [|done]. by destruct Hok.
  - rewrite Hs. cbn [mbind option_bind]. exists s, row. done.
Qed.
