(* ===== verification/GridView.v ===== *)
(** * What the grid shows

    The grid as its cells and metadata alone, each edit of the source written
    on them without any bookkeeping, and the proof that the edits of [Grid.v]
    do exactly that, never panic, and keep the bookkeeping true. *)

From S2P Require Import Prelude Varint Utf8 Style Cell RowEncoder RowDecoder RowItems RowRoundTrip.
From S2P Require Import RowContract Snapshot Grid.
From stdpp Require Import options.
#[local] Open Scope N_scope.

(** ** The plain edits *)

Definition view (grid : Grid) : list Row := row_view <$> rows grid.

(** [f] at index [i] of a list, nothing past its end. *)
Definition at_index {A} (i : nat) (f : A -> A) (l : list A) : list A :=
  match l !! i with Some x => <[i := f x]> l | None => l end.

Definition with_row_end (e : RowEnd) (row : Row) : Row := (row.1, MkRowMetadata e (has_prompt_mark row.2)).
Definition blank_row (column_count : nat) (s : Style) : Row :=
  (replicate column_count (build_blank_with_style s), default_metadata).

(** The bytes that fit, as narrow cells. *)
Definition show_ascii (first : nat) (bytes : list N) (s : Style) (row : Row) : Row :=
  let count := (length bytes `min` (length row.1 - first))%nat in
  (splice first (first + count) ((fun b => from_character b 1 s) <$> take count bytes) row.1, row.2).

(** The other half of a wide glyph at the column, blanked. *)
Definition show_split_glyph (column : nat) (s : Style) (row : Row) : Row :=
  match display_width <$> row.1 !! column with
  | Some 2 => (<[S column := build_blank_with_style s]> row.1, row.2)
  | Some 0 =>
      if (column =? 0)%nat then row else (<[(column - 1)%nat := build_blank_with_style s]> row.1, row.2)
  | _ => row
  end.

Definition show_cleared (first last : nat) (s : Style) (row : Row) : Row :=
  let stop := (last `min` length row.1)%nat in
  let cleared :=
    if (first <? stop)%nat
    then splice first stop (replicate (stop - first) (build_blank_with_style s)) row.1 else row.1 in
  if (length row.1 <=? last)%nat && (first <? length row.1)%nat
  then with_row_end Hard (cleared, row.2) else (cleared, row.2).

(** A span of columns, its cells moved right or left by [count]. *)
Definition show_inserted (first last count : nat) (s : Style) (row : Row) : Row :=
  let stop := ((last + 1) `min` length row.1)%nat in
  if (stop <=? first)%nat then row
  else
    let n := ((stop - first) `min` count)%nat in
    with_row_end Hard
      (splice first stop (replicate n (build_blank_with_style s)
         ++ take (stop - first - n) (slice first stop row.1)) row.1, row.2).

Definition show_deleted (first last count : nat) (s : Style) (row : Row) : Row :=
  let stop := ((last + 1) `min` length row.1)%nat in
  if (stop <=? first)%nat then row
  else
    let n := ((stop - first) `min` count)%nat in
    with_row_end Hard
      (splice first stop (drop n (slice first stop row.1)
         ++ replicate n (build_blank_with_style s)) row.1, row.2).

(** The columns [first..last] of each row of the band taken from the row that
    [source] names, blank where it names none. *)
Definition take_spans (first last : nat) (s : Style) (source : nat -> option nat) (band : list Row)
    : list Row :=
  imap (fun i (row : Row) =>
    let span :=
      match source i ≫= fun j => band !! j with
      | Some (source_cells, _) => slice first last source_cells
      | None => replicate (last - first) (build_blank_with_style s)
      end in
    (splice first last span row.1, row.2)) band.

(** A band of rows changed by [f]. *)
Definition at_band (first last : nat) (f : list Row -> list Row) (shown : list Row) : list Row :=
  take first shown ++ f (slice first (S last) shown) ++ drop (S last) shown.

Definition columns_of (shown : list Row) : nat := default 0%nat (length ∘ fst <$> head shown).

Definition show_spans_up (first_row last_row count first_column last_column : nat) (s : Style)
    (shown : list Row) : list Row :=
  let width := columns_of shown in
  let first := (first_column `min` (width - 1))%nat in
  let last := S (last_column `min` (width - 1)) in
  let n := (count `min` (last_row - first_row + 1))%nat in
  if (last_row <? length shown)%nat && (first_row <=? last_row)%nat && (0 <? width)%nat
     && (first <? last)%nat && (0 <? n)%nat
  then at_band first_row last_row (take_spans first last s (fun i => Some (i + n)%nat)) shown
  else shown.

Definition show_spans_down (first_row last_row count first_column last_column : nat) (s : Style)
    (shown : list Row) : list Row :=
  let width := columns_of shown in
  let first := (first_column `min` (width - 1))%nat in
  let last := S (last_column `min` (width - 1)) in
  let n := (count `min` (last_row - first_row + 1))%nat in
  if (last_row <? length shown)%nat && (first_row <=? last_row)%nat && (0 <? width)%nat
     && (first <? last)%nat && (0 <? n)%nat
  then at_band first_row last_row
         (take_spans first last s (fun i => if (i <? n)%nat then None else Some (i - n)%nat)) shown
  else shown.

Definition show_lines_deleted (first last count : nat) (s : Style) (shown : list Row) : list Row :=
  let n := (count `min` (last - first + 1))%nat in
  if (last <? length shown)%nat && (first <=? last)%nat && (0 <? n)%nat then
    let moved := at_band first last (fun band =>
      drop n band ++ replicate n (blank_row (columns_of shown) s)) shown in
    let above := if (0 <? first)%nat then at_index (first - 1) (with_row_end Hard) moved else moved in
    if (n <=? last)%nat then at_index (last - n) (with_row_end Hard) above else above
  else shown.

Definition show_lines_inserted (first last count : nat) (s : Style) (shown : list Row) : list Row :=
  let n := (count `min` (last - first + 1))%nat in
  if (last <? length shown)%nat && (first <=? last)%nat && (0 <? n)%nat then
    let moved := at_band first last (fun band =>
      replicate n (blank_row (columns_of shown) s) ++ take (length band - n) band) shown in
    let above := if (0 <? first)%nat then at_index (first - 1) (with_row_end Hard) moved else moved in
    at_index last (with_row_end Hard) above
  else shown.

(** An edit of the grid, by the method that makes it. *)
Inductive GridEdit :=
  | SetRowEnd (row_index : N) (e : RowEnd)
  | SetPromptMark (row_index : N) (mark : bool)
  | GetCellMut (row_index column_index : N) (f : Cell -> Cell)
  | WriteAsciiCells (row_index first_column_index : N) (ascii_bytes : list N) (s : Style)
  | ClearWideGlyphAt (row_index column_index : N) (s : Style)
  | ClearLine (row_index first_column_index last_column_index_exclusive : N) (s : Style)
  | InsertCells (row_index first_column_index last_column_index insert_cell_count : N) (s : Style)
  | DeleteCells (row_index first_column_index last_column_index delete_cell_count : N) (s : Style)
  | DeleteLinesInColumns
      (first_row_index last_row_index row_count first_column_index last_column_index : N) (s : Style)
  | InsertLinesInColumns
      (first_row_index last_row_index row_count first_column_index last_column_index : N) (s : Style)
  | DeleteLines (first_row_index last_row_index row_count : N) (s : Style)
  | InsertLines (first_row_index last_row_index row_count : N) (s : Style)
  | GetRowSnapshot (row_index : N)
  | TakeRowSnapshot (row_index : N).

Definition edit (e : GridEdit) (grid : Grid) : option Grid :=
  match e with
  | SetRowEnd i e => set_row_end i e grid
  | SetPromptMark i mark => set_prompt_mark i mark grid
  | GetCellMut i j f => get_cell_mut i j f grid
  | WriteAsciiCells i first bytes s => write_ascii_cells i first bytes s grid
  | ClearWideGlyphAt i j s => clear_wide_glyph_at i j s grid
  | ClearLine i first last s => clear_line i first last s grid
  | InsertCells i first last n s => insert_cells_in_columns i first last n s grid
  | DeleteCells i first last n s => delete_cells_in_columns i first last n s grid
  | DeleteLinesInColumns r r' n c c' s => delete_lines_in_columns r r' n c c' s grid
  | InsertLinesInColumns r r' n c c' s => insert_lines_in_columns r r' n c c' s grid
  | DeleteLines r r' n s => delete_lines r r' n s grid
  | InsertLines r r' n s => insert_lines r r' n s grid
  | GetRowSnapshot i => snd <$> get_row_snapshot i grid
  | TakeRowSnapshot i => snd <$> take_row_snapshot i grid
  end.

Definition show (e : GridEdit) : list Row -> list Row :=
  match e with
  | SetRowEnd i e => at_index (N.to_nat i) (with_row_end e)
  | SetPromptMark i mark => at_index (N.to_nat i) (fun row => (row.1, MkRowMetadata (row_end row.2) mark))
  | GetCellMut i j f => at_index (N.to_nat i) (fun row => (at_index (N.to_nat j) f row.1, row.2))
  | WriteAsciiCells i first bytes s => at_index (N.to_nat i) (show_ascii (N.to_nat first) bytes s)
  | ClearWideGlyphAt i j s => at_index (N.to_nat i) (show_split_glyph (N.to_nat j) s)
  | ClearLine i first last s => at_index (N.to_nat i) (show_cleared (N.to_nat first) (N.to_nat last) s)
  | InsertCells i first last n s =>
      at_index (N.to_nat i) (show_inserted (N.to_nat first) (N.to_nat last) (N.to_nat n) s)
  | DeleteCells i first last n s =>
      at_index (N.to_nat i) (show_deleted (N.to_nat first) (N.to_nat last) (N.to_nat n) s)
  | DeleteLinesInColumns r r' n c c' s =>
      show_spans_up (N.to_nat r) (N.to_nat r') (N.to_nat n) (N.to_nat c) (N.to_nat c') s
  | InsertLinesInColumns r r' n c c' s =>
      show_spans_down (N.to_nat r) (N.to_nat r') (N.to_nat n) (N.to_nat c) (N.to_nat c') s
  | DeleteLines r r' n s => show_lines_deleted (N.to_nat r) (N.to_nat r') (N.to_nat n) s
  | InsertLines r r' n s => show_lines_inserted (N.to_nat r) (N.to_nat r') (N.to_nat n) s
  | GetRowSnapshot _ | TakeRowSnapshot _ => id
  end.

(** What the callers of an edit keep to: indices at [u16], styles and cells
    the row encoding can hold, ASCII where ASCII is promised. *)
Definition edit_ok (e : GridEdit) : Prop :=
  match e with
  | SetRowEnd i _ | SetPromptMark i _ | GetRowSnapshot i | TakeRowSnapshot i => is_u16 i
  | GetCellMut i j f =>
      is_u16 i /\ is_u16 j
      /\ forall c, Cell_wf c -> Cell_canonical c -> Cell_wf (f c) /\ Cell_canonical (f c)
  | WriteAsciiCells i j bytes s =>
      is_u16 i /\ is_u16 j /\ Style_wf s /\ Forall (fun b => is_ascii b = true) bytes
  | ClearWideGlyphAt i j s => is_u16 i /\ is_u16 j /\ Style_wf s
  | ClearLine i j k s => is_u16 i /\ is_u16 j /\ is_u16 k /\ Style_wf s
  | InsertCells i j k n s | DeleteCells i j k n s =>
      is_u16 i /\ is_u16 j /\ is_u16 k /\ is_u16 n /\ Style_wf s
  | DeleteLinesInColumns i j n k l s | InsertLinesInColumns i j n k l s =>
      is_u16 i /\ is_u16 j /\ is_u16 n /\ is_u16 k /\ is_u16 l /\ Style_wf s
  | DeleteLines i j n s | InsertLines i j n s => is_u16 i /\ is_u16 j /\ is_u16 n /\ Style_wf s
  end.

(** Rows of one width, no more of either than a [u16] counts. *)
Record grid_ok (row_count column_count : nat) (grid : Grid) : Prop :=
  { gk_rows : Forall (row_ok column_count) (rows grid);
    gk_row_count : length (rows grid) = row_count;
    gk_row_bound : N.of_nat row_count <= U16_MAX;
    gk_column_bound : N.of_nat column_count <= U16_MAX }.

(** ** Shared steps *)

Lemma at_index_length {A} i f (l : list A) : length (at_index i f l) = length l.
Proof. unfold at_index. case_match; [apply length_insert|done]. Qed.

Lemma at_index_ext {A} i f g (l : list A) :
  (forall x, l !! i = Some x -> f x = g x) -> at_index i f l = at_index i g l.
Proof. intros H. unfold at_index. destruct (l !! i) eqn:E; [by rewrite H|done]. Qed.

Lemma at_index_id {A} i (l : list A) : at_index i id l = l.
Proof. unfold at_index. destruct (l !! i) eqn:E; [by apply list_insert_id|done]. Qed.

Lemma at_index_compose {A} i f g (l : list A) : at_index i f (at_index i g l) = at_index i (f ∘ g) l.
Proof.
  unfold at_index. destruct (l !! i) eqn:E; [|by rewrite E].
  rewrite list_lookup_insert_eq by (by eapply lookup_lt_Some). by rewrite list_insert_insert_eq.
Qed.

Lemma view_length grid : length (view grid) = length (rows grid).
Proof. apply length_fmap. Qed.

Lemma dimensions_eq row_count column_count grid :
  grid_ok row_count column_count grid ->
  get_grid_dimensions grid
  = (N.of_nat row_count, if (row_count =? 0)%nat then 0 else N.of_nat column_count)
  /\ columns_of (view grid) = if (row_count =? 0)%nat then 0%nat else column_count.
Proof.
  intros [Hr Hl Hrb Hcb]. unfold get_grid_dimensions, usize_as_u16, columns_of, view.
  rewrite Hl, as_u16_exact by done. destruct (rows grid) as [|row rs]; simpl in Hl; subst row_count; [done|].
  cbn [head fmap option_fmap option_map from_option id list_fmap Nat.eqb].
  apply Forall_cons in Hr as [Hr _]. unfold row_view. cbn [fst compose].
  by rewrite (rk_length _ _ Hr), as_u16_exact.
Qed.

(** One row changed. *)
Lemma update_row_ok row_count column_count i f F grid :
  grid_ok row_count column_count grid ->
  (forall row, row_ok column_count row ->
     exists row', f row = Some row' /\ row_ok column_count row' /\ row_view row' = F (row_view row)) ->
  exists grid', update_row i f grid = Some grid' /\ grid_ok row_count column_count grid'
    /\ view grid' = at_index i F (view grid).
Proof.
  intros Hg Hf. unfold update_row, at_index, view. rewrite list_lookup_fmap.
  destruct (rows grid !! i) as [row|] eqn:E; [|by exists grid].
  destruct Hg as [Hr Hl Hrb Hcb]. pose proof Hr as Hr'. rewrite Forall_lookup in Hr'.
  destruct (Hf row (Hr' _ _ E)) as (row' & -> & Hok & Hv). cbn [mbind option_bind fmap option_fmap option_map].
  eexists. split; [done|]. cbn [rows]. rewrite list_fmap_insert, Hv. split; [|done].
  split; cbn [rows]; [by apply Forall_insert|by rewrite length_insert|done|done].
Qed.

(** ** Edits of one row *)

Ltac row_edit := intros row Hok; pose proof (rk_length _ _ Hok) as Hlen.

Lemma set_row_end_ok row_count column_count i e grid :
  grid_ok row_count column_count grid ->
  exists grid', set_row_end i e grid = Some grid' /\ grid_ok row_count column_count grid'
    /\ view grid' = at_index (N.to_nat i) (with_row_end e) (view grid).
Proof.
  intros Hg. apply (update_row_ok row_count column_count); [done|]. row_edit. eexists. split; [done|].
  destruct (bool_decide _) eqn:E; cbn [negb].
  - bools. split; [done|]. unfold row_view, with_row_end. cbn [fst snd]. rewrite <- E.
    by destruct (row_metadata row).
  - split; [by apply metadata_mut_ok|done].
Qed.

Lemma set_prompt_mark_ok row_count column_count i mark grid :
  grid_ok row_count column_count grid ->
  exists grid', set_prompt_mark i mark grid = Some grid' /\ grid_ok row_count column_count grid'
    /\ view grid' = at_index (N.to_nat i) (fun row => (row.1, MkRowMetadata (row_end row.2) mark)) (view grid).
Proof.
  intros Hg. apply (update_row_ok row_count column_count); [done|]. row_edit. eexists. split; [done|].
  destruct (Bool.eqb _ _) eqn:E; cbn [negb].
  - apply eqb_prop in E. split; [done|]. unfold row_view. cbn [fst snd]. rewrite <- E.
    by destruct (row_metadata row).
  - split; [by apply metadata_mut_ok|done].
Qed.

Lemma splice_one {A} i x (l : list A) : (i < length l)%nat -> splice i (i + 1) [x] l = <[i := x]> l.
Proof.
  intros H. unfold splice. rewrite insert_take_drop by done. rewrite Nat.add_1_r. done.
Qed.

Lemma get_cell_mut_ok row_count column_count i j f grid :
  grid_ok row_count column_count grid ->
  (forall c, Cell_wf c -> Cell_canonical c -> Cell_wf (f c) /\ Cell_canonical (f c)) ->
  exists grid', get_cell_mut i j f grid = Some grid' /\ grid_ok row_count column_count grid'
    /\ view grid' = at_index (N.to_nat i) (fun row => (at_index (N.to_nat j) f row.1, row.2)) (view grid).
Proof.
  intros Hg Hf. apply (update_row_ok row_count column_count); [done|]. row_edit. cbv zeta.
  unfold row_view. cbn [fst snd]. destruct (length (cells row) <=? N.to_nat j)%nat eqn:E; bools.
  - eexists. split; [done|]. split; [done|]. unfold at_index.
    by rewrite (lookup_ge_None_2 (cells row)) by done.
  - destruct (lookup_lt_is_Some_2 (cells row) (N.to_nat j) ltac:(lia)) as [c Hc].
    pose proof (rk_wf _ _ Hok) as Hw. pose proof (rk_canonical _ _ Hok) as Hcan.
    rewrite Forall_lookup in Hw, Hcan. destruct (Hf c (Hw _ _ Hc) (Hcan _ _ Hc)) as [Hw' Hcan'].
    destruct (get_cells_mut_ok column_count (N.to_nat j) (N.to_nat j + 1) (fmap f) row Hok)
      as (row' & -> & Hok' & Hcells & Hm & _); [lia| |].
    { rewrite (slice_one _ _ _ Hc). cbn [fmap list_fmap]. rewrite !Forall_singleton. split_and!; [simpl; lia|done|done]. }
    rewrite (slice_one _ _ _ Hc) in Hcells. cbn [fmap list_fmap] in Hcells.
    eexists. split; [done|]. split; [done|]. rewrite Hcells, Hm. unfold at_index. rewrite Hc.
    rewrite splice_one by lia. done.
Qed.

Lemma write_ascii_ok row_count column_count i first bytes s grid :
  grid_ok row_count column_count grid -> Style_wf s -> Forall (fun b => is_ascii b = true) bytes ->
  exists grid', write_ascii_cells i first bytes s grid = Some grid' /\ grid_ok row_count column_count grid'
    /\ view grid' = at_index (N.to_nat i) (show_ascii (N.to_nat first) bytes s) (view grid).
Proof.
  intros Hg Hs Hb. apply (update_row_ok row_count column_count); [done|]. row_edit. cbv zeta.
  unfold row_view, show_ascii. cbn [fst snd].
  set (n := (length bytes `min` (length (cells row) - N.to_nat first))%nat).
  destruct (n =? 0)%nat eqn:E; bools.
  - eexists. split; [done|]. split; [done|]. rewrite E. unfold splice. simpl.
    by rewrite Nat.add_0_r, take_drop.
  - assert (length (take n bytes) = n) as Hn by (rewrite length_take; lia).
    destruct (write_ascii_row_ok column_count (N.to_nat first) (take n bytes) s row Hok)
      as (row' & -> & Hok' & Hv); [lia|done|by apply Forall_take|].
    eexists. split; [done|]. split; [done|]. unfold row_view in Hv. by rewrite Hv, Hn.
Qed.

Lemma at_index_row_id i (f : Row -> Row) (shown : list Row) :
  (forall row, shown !! i = Some row -> f row = row) -> at_index i f shown = shown.
Proof. intros H. rewrite (at_index_ext i f id) by done. apply at_index_id. Qed.

Lemma clear_wide_ok row_count column_count i j s grid :
  grid_ok row_count column_count grid -> is_u16 j -> Style_wf s ->
  exists grid', clear_wide_glyph_at i j s grid = Some grid' /\ grid_ok row_count column_count grid'
    /\ view grid' = at_index (N.to_nat i) (show_split_glyph (N.to_nat j) s) (view grid).
Proof.
  intros Hg Hj Hs. unfold clear_wide_glyph_at. cbv zeta.
  destruct (blank_with_style_ok s Hs) as [Hbw Hbc].
  assert (forall j', exists grid', get_cell_mut i j' (fun _ => build_blank_with_style s) grid = Some grid'
    /\ grid_ok row_count column_count grid'
    /\ view grid' = at_index (N.to_nat i)
         (fun row => (<[N.to_nat j' := build_blank_with_style s]> row.1, row.2)) (view grid)) as Hset.
  { intros j'. destruct (get_cell_mut_ok row_count column_count i j' (fun _ => build_blank_with_style s) grid Hg)
      as (grid' & H1 & H2 & H3); [done|]. exists grid'. split; [done|]. split; [done|].
    rewrite H3. apply at_index_ext. intros [l m] _. cbn [fst snd]. f_equal. unfold at_index.
    destruct (l !! N.to_nat j') eqn:E; [done|]. by rewrite list_insert_ge by (by apply lookup_ge_None_1). }
  assert (get_cell i j grid = (view grid !! N.to_nat i) ≫= fun row : Row => row.1 !! N.to_nat j) as ->.
  { unfold get_cell, view. rewrite list_lookup_fmap. by destruct (rows grid !! N.to_nat i). }
  destruct (view grid !! N.to_nat i) as [row|] eqn:Erow; cbn [mbind option_bind].
  2: { exists grid. split; [done|]. split; [done|]. unfold at_index. by rewrite Erow. }
  assert (N.of_nat (length row.1) <= U16_MAX) as Hwidth.
  { unfold view in Erow. rewrite list_lookup_fmap in Erow. destruct (rows grid !! N.to_nat i) as [r|] eqn:Er; [|done].
    injection Erow as <-. destruct Hg as [Hr _ _ Hc]. rewrite Forall_lookup in Hr.
    unfold row_view. cbn [fst]. by rewrite (rk_length _ _ (Hr _ _ Er)). }
  destruct (row.1 !! N.to_nat j) as [c|] eqn:Ec.
  2: { exists grid. split; [done|]. split; [done|]. symmetry. apply at_index_row_id. intros row' Hrow'.
       rewrite Erow in Hrow'. injection Hrow' as <-. unfold show_split_glyph. by rewrite Ec. }
  pose proof (lookup_lt_Some _ _ _ Ec) as Hlt.
  assert (forall F, at_index (N.to_nat i) F (view grid) = <[N.to_nat i := F row]> (view grid)) as Hat
    by (intros F; unfold at_index; by rewrite Erow).
  rewrite Hat. unfold show_split_glyph. rewrite Ec. cbn [fmap option_fmap option_map].
  destruct (display_width c =? 2) eqn:E2; [|destruct (display_width c =? 0) eqn:E0; [destruct (j =? 0) eqn:Ej|]];
    bools.
  - unfold u16_checked_add.
    destruct (j + 1 <=? U16_MAX) eqn:E1; bools.
    + destruct (Hset (j + 1)) as (grid' & H1 & H2 & H3). exists grid'. split; [done|]. split; [done|].
      rewrite H3, Hat, E2. do 3 f_equal. lia.
    + exfalso. lia.
  - exists grid. split; [done|]. split; [done|]. rewrite E0. subst j. simpl. by rewrite list_insert_id.
  - destruct (Hset (j - 1)) as (grid' & H1 & H2 & H3). exists grid'. split; [done|]. split; [done|].
    rewrite H3, Hat, E0. rewrite (proj2 (Nat.eqb_neq (N.to_nat j) 0)) by lia. do 3 f_equal. lia.
  - exists grid. split; [done|]. split; [done|]. rewrite list_insert_id by (rewrite Erow; f_equal;
      destruct (display_width c) as [|[p|[p|p|]|]]; done). done.
Qed.

Lemma view_width row_count column_count grid i (row : Row) :
  grid_ok row_count column_count grid -> view grid !! i = Some row ->
  length row.1 = column_count /\ (i < row_count)%nat.
Proof.
  intros [Hr Hl _ _] Hi. pose proof (lookup_lt_Some _ _ _ Hi) as Hlt. rewrite view_length, Hl in Hlt.
  split; [|done]. unfold view in Hi. rewrite list_lookup_fmap in Hi.
  destruct (rows grid !! i) as [r|] eqn:E; [|done]. injection Hi as <-.
  rewrite Forall_lookup in Hr. apply (rk_length _ _ (Hr _ _ E)).
Qed.

Lemma clear_line_ok row_count column_count i first last s grid :
  grid_ok row_count column_count grid -> Style_wf s ->
  exists grid', clear_line i first last s grid = Some grid' /\ grid_ok row_count column_count grid'
    /\ view grid' = at_index (N.to_nat i) (show_cleared (N.to_nat first) (N.to_nat last) s) (view grid).
Proof.
  intros Hg Hs. unfold clear_line.
  set (F := fun row : Row =>
    let stop := (N.to_nat last `min` length row.1)%nat in
    (if (N.to_nat first <? stop)%nat
     then splice (N.to_nat first) stop
            (replicate (stop - N.to_nat first) (build_blank_with_style s)) row.1 else row.1, row.2)).
  match goal with |- context [update_row _ ?f _] =>
    destruct (update_row_ok row_count column_count (N.to_nat i) f F grid Hg) as (grid1 & -> & Hg1 & Hv1) end.
  { row_edit. cbv zeta. unfold F. cbn [row_view fst snd]. destruct (_ <? _)%nat eqn:E; bools; [|by exists row].
    destruct (fill_with_blank_ok column_count (N.to_nat first) (N.to_nat last `min` length (cells row)) s row Hok)
      as (row' & -> & Hok' & Hv & _); [lia|done|]. by exists row'. }
  cbn [mbind option_bind]. destruct (dimensions_eq _ _ _ Hg1) as [-> _]. cbn [snd].
  destruct (row_count =? 0)%nat eqn:E0; bools.
  { subst. rewrite (proj2 (N.ltb_ge first 0)), andb_false_r by lia. exists grid1. split; [done|]. split; [done|].
    rewrite Hv1. apply at_index_ext. intros row Hrow. by destruct (view_width _ _ _ _ _ Hg Hrow) as [_ ?]; lia. }
  assert (forall row, view grid !! N.to_nat i = Some row ->
    show_cleared (N.to_nat first) (N.to_nat last) s row
    = if (N.of_nat column_count <=? last) && (first <? N.of_nat column_count)
      then with_row_end Hard (F row) else F row) as Hshow.
  { intros row Hrow. destruct (view_width _ _ _ _ _ Hg Hrow) as [Hw _]. unfold show_cleared, F. rewrite Hw.
    assert ((column_count <=? N.to_nat last)%nat = (N.of_nat column_count <=? last)) as ->
      by (destruct (N.of_nat column_count <=? last) eqn:E; bools; [apply Nat.leb_le|apply Nat.leb_gt]; lia).
    assert ((N.to_nat first <? column_count)%nat = (first <? N.of_nat column_count)) as ->
      by (destruct (first <? N.of_nat column_count) eqn:E; bools; [apply Nat.ltb_lt|apply Nat.ltb_ge]; lia).
    done. }
  rewrite (at_index_ext _ _ _ _ Hshow). destruct (_ && _).
  - destruct (set_row_end_ok _ _ i Hard _ Hg1) as (grid2 & H1 & H2 & H3). exists grid2.
    split; [done|]. split; [done|]. by rewrite H3, Hv1, at_index_compose.
  - by exists grid1.
Qed.

(** A span of columns rewritten. *)
Lemma edit_columns_ok row_count column_count i first last f F grid :
  grid_ok row_count column_count grid ->
  (forall n span, (0 < n)%nat -> length span = n -> Forall Cell_wf span -> Forall Cell_canonical span ->
     f n span = F n span /\ length (F n span) = n /\ Forall Cell_wf (F n span)
     /\ Forall Cell_canonical (F n span)) ->
  exists grid', edit_columns i first last f grid = Some grid' /\ grid_ok row_count column_count grid'
    /\ view grid' = at_index (N.to_nat i) (fun row : Row =>
         let stop := ((N.to_nat last + 1) `min` length row.1)%nat in
         if (stop <=? N.to_nat first)%nat then row
         else with_row_end Hard
                (splice (N.to_nat first) stop
                   (F (stop - N.to_nat first)%nat (slice (N.to_nat first) stop row.1)) row.1, row.2)) (view grid).
Proof.
  intros Hg Hf. unfold edit_columns.
  destruct (rows grid !! N.to_nat i) as [row|] eqn:E.
  2: { exists grid. split; [done|]. split; [done|]. unfold at_index, view. by rewrite list_lookup_fmap, E. }
  assert (row_ok column_count row) as Hok.
  { destruct Hg as [Hr _ _ _]. rewrite Forall_lookup in Hr. by eapply Hr. }
  pose proof (rk_length _ _ Hok) as Hlen. rewrite Hlen.
  set (stop := ((N.to_nat last + 1) `min` column_count)%nat).
  assert (view grid !! N.to_nat i = Some (row_view row)) as Ev by (unfold view; by rewrite list_lookup_fmap, E).
  destruct (stop <=? N.to_nat first)%nat eqn:Es; bools.
  { exists grid. split; [done|]. split; [done|]. symmetry. apply at_index_row_id. intros r Hr.
    rewrite Ev in Hr. injection Hr as <-. cbv zeta. cbn [row_view fst]. rewrite Hlen. fold stop.
    by rewrite (proj2 (Nat.leb_le _ _) Es). }
  set (span := slice (N.to_nat first) stop (cells row)).
  assert (length span = (stop - N.to_nat first)%nat) as Hspan by (apply slice_length; unfold stop; lia).
  destruct (Hf (stop - N.to_nat first)%nat span ltac:(lia) Hspan
    (Forall_slice _ _ _ _ (rk_wf _ _ Hok)) (Forall_slice _ _ _ _ (rk_canonical _ _ Hok))) as (Ef & Hl & Hw & Hc).
  destruct (get_cells_mut_ok column_count (N.to_nat first) stop (f (stop - N.to_nat first)%nat) row Hok)
    as (row' & -> & Hok' & Hcells & Hm & _); [unfold stop; lia|cbv zeta; fold span; by rewrite Ef|].
  cbn [mbind option_bind].
  assert (grid_ok row_count column_count (MkGrid (<[N.to_nat i := row']> (rows grid)))) as Hg1.
  { destruct Hg as [Hr Hn Hrb Hcb]. split; cbn [rows]; [by apply Forall_insert|by rewrite length_insert|done|done]. }
  destruct (set_row_end_ok _ _ i Hard _ Hg1) as (grid2 & H1 & H2 & H3). exists grid2. split; [done|].
  split; [done|]. rewrite H3. unfold view at 1. cbn [rows]. rewrite list_fmap_insert.
  unfold at_index. rewrite Ev. rewrite list_lookup_insert_eq
    by (rewrite length_fmap; by eapply lookup_lt_Some). rewrite list_insert_insert_eq.
  cbn [row_view fst snd]. rewrite Hlen. fold stop. rewrite (proj2 (Nat.leb_gt _ _)) by lia.
  fold span in Hcells |- *. rewrite <- Ef, <- Hcells. unfold view. do 2 f_equal. unfold with_row_end, row_view. cbn [fst snd].
  by rewrite Hm.
Qed.

Lemma insert_cells_ok row_count column_count i first last n s grid :
  grid_ok row_count column_count grid -> Style_wf s ->
  exists grid', insert_cells_in_columns i first last n s grid = Some grid'
    /\ grid_ok row_count column_count grid'
    /\ view grid' = at_index (N.to_nat i)
         (show_inserted (N.to_nat first) (N.to_nat last) (N.to_nat n) s) (view grid).
Proof.
  intros Hg Hs. destruct (blank_with_style_ok s Hs) as [Hbw Hbc].
  apply (edit_columns_ok row_count column_count i first last _ (fun width span =>
    replicate (width `min` N.to_nat n) (build_blank_with_style s) ++ take (width - width `min` N.to_nat n) span) grid Hg).
  intros width span Hwidth Hl Hw Hc. set (k := (width `min` N.to_nat n)%nat).
  assert (k <= width)%nat by (unfold k; lia). unfold rotate_right, fill. rewrite Hl.
  assert (length (drop (width - k) span) = k) as Hd by (rewrite length_drop; lia).
  rewrite !take_app_le, take_ge by lia. rewrite drop_app_ge by lia.
  rewrite Hd, Nat.sub_diag, drop_0. split_and!; [done| | |].
  - rewrite length_app, length_replicate, length_take. lia.
  - apply Forall_app. split; [by apply Forall_replicate|by apply Forall_take].
  - apply Forall_app. split; [by apply Forall_replicate|by apply Forall_take].
Qed.

Lemma delete_cells_ok row_count column_count i first last n s grid :
  grid_ok row_count column_count grid -> Style_wf s ->
  exists grid', delete_cells_in_columns i first last n s grid = Some grid'
    /\ grid_ok row_count column_count grid'
    /\ view grid' = at_index (N.to_nat i)
         (show_deleted (N.to_nat first) (N.to_nat last) (N.to_nat n) s) (view grid).
Proof.
  intros Hg Hs. destruct (blank_with_style_ok s Hs) as [Hbw Hbc].
  apply (edit_columns_ok row_count column_count i first last _ (fun width span =>
    drop (width `min` N.to_nat n) span ++ replicate (width `min` N.to_nat n) (build_blank_with_style s)) grid Hg).
  intros width span Hwidth Hl Hw Hc. set (k := (width `min` N.to_nat n)%nat).
  assert (k <= width)%nat by (unfold k; lia). unfold rotate_left, fill.
  assert (length (drop k span) = (width - k)%nat) as Hd by (rewrite length_drop; lia).
  rewrite take_app_le, take_ge by lia. rewrite drop_app_ge by lia.
  rewrite Hd, Nat.sub_diag, drop_0, length_take, Hl, Nat.min_l by lia. split_and!; [done| | |].
  - rewrite length_app, length_replicate. lia.
  - apply Forall_app. split; [by apply Forall_drop|by apply Forall_replicate].
  - apply Forall_app. split; [by apply Forall_drop|by apply Forall_replicate].
Qed.

(** ** Edits of a band of rows *)

Lemma slice_fmap {A B} (f : A -> B) a b (l : list A) : slice a b (f <$> l) = f <$> slice a b l.
Proof. unfold slice. by rewrite fmap_take, fmap_drop. Qed.

Lemma update_band_ok row_count column_count first last f F grid :
  grid_ok row_count column_count grid -> (first <= last < row_count)%nat ->
  (forall band, length band = (S last - first)%nat -> Forall (row_ok column_count) band ->
     exists band', f band = Some band' /\ length band' = length band /\ Forall (row_ok column_count) band'
       /\ row_view <$> band' = F (row_view <$> band)) ->
  exists grid', update_band first last f grid = Some grid' /\ grid_ok row_count column_count grid'
    /\ view grid' = at_band first last F (view grid).
Proof.
  intros [Hr Hl Hrb Hcb] Hband Hf. unfold update_band. rewrite Hl, (proj2 (Nat.ltb_lt _ _)) by lia.
  destruct (Hf (slice first (S last) (rows grid))) as (band' & -> & Hlen & Hok & Hv);
    [apply slice_length; lia|by apply Forall_slice|].
  cbn [mbind option_bind]. eexists. split; [done|]. rewrite slice_length in Hlen by lia.
  split; [split; cbn [rows]|].
  - rewrite !Forall_app. split_and!; [by apply Forall_take|done|by apply Forall_drop].
  - rewrite !length_app, length_take, length_drop. lia.
  - done.
  - done.
  - unfold view, at_band. cbn [rows]. rewrite !fmap_app, Hv, fmap_take, fmap_drop, slice_fmap. done.
Qed.

(** Blanking every row of a list. *)
Lemma reset_rows_ok column_count s band :
  Forall (row_ok column_count) band -> Style_wf s ->
  exists band', mapM (reset_to_blank s) band = Some band' /\ Forall (row_ok column_count) band'
    /\ row_view <$> band' = replicate (length band) (blank_row column_count s).
Proof.
  intros Hband Hs. induction Hband as [|row band Hrow _ IH]; [by exists []|].
  destruct IH as (band' & H1 & H2 & H3). destruct (reset_to_blank_ok _ s _ Hrow Hs) as (row' & E1 & E2 & E3).
  exists (row' :: band'). split; [|split; [by constructor|]].
  - cbn [mapM]. rewrite E1. cbn [mbind option_bind]. by rewrite H1.
  - cbn [fmap list_fmap length replicate]. by rewrite E3, H3.
Qed.

Lemma outside_eq first last row_count grid :
  length (rows grid) = row_count ->
  is_band_outside (N.of_nat first) (N.of_nat last) (N.of_nat row_count)
  = negb ((last <? row_count)%nat && (first <=? last)%nat).
Proof.
  intros _. unfold is_band_outside.
  destruct (last <? row_count)%nat eqn:E1, (first <=? last)%nat eqn:E2; bools; cbn [andb negb];
    rewrite ?orb_true_iff, ?orb_false_iff, ?N.leb_le, ?N.leb_gt, ?N.ltb_lt, ?N.ltb_ge; lia.
Qed.

Lemma band_outside row_count column_count first last grid :
  grid_ok row_count column_count grid ->
  is_band_outside first last (get_grid_dimensions grid).1
  = negb ((N.to_nat last <? length (view grid))%nat && (N.to_nat first <=? N.to_nat last)%nat).
Proof.
  intros Hg. destruct (dimensions_eq _ _ _ Hg) as [-> _]. cbn [fst].
  rewrite <- (N2Nat.id first) at 1. rewrite <- (N2Nat.id last) at 1.
  rewrite (outside_eq _ _ _ grid) by apply (gk_row_count _ _ _ Hg).
  by rewrite view_length, (gk_row_count _ _ _ Hg).
Qed.

(** The count of rows an edit moves, at [u16]. *)
Lemma band_count row_count first last n :
  N.of_nat row_count <= U16_MAX -> (N.to_nat last < row_count)%nat -> (N.to_nat first <= N.to_nat last)%nat ->
  N.to_nat (n `min` u16_add (last - first) 1)
  = (N.to_nat n `min` (N.to_nat last - N.to_nat first + 1))%nat.
Proof. intros H1 H2 H3. rewrite u16_add_exact by lia. lia. Qed.

(** The row above the band ends hard. *)
Lemma harden_above_ok row_count column_count first grid :
  grid_ok row_count column_count grid ->
  exists grid', (if 0 <? first then set_row_end (first - 1) Hard grid else Some grid) = Some grid'
    /\ grid_ok row_count column_count grid'
    /\ view grid' = if (0 <? N.to_nat first)%nat
         then at_index (N.to_nat first - 1) (with_row_end Hard) (view grid) else view grid.
Proof.
  intros Hg. destruct (0 <? first) eqn:E; bools.
  - destruct (set_row_end_ok _ _ (first - 1) Hard _ Hg) as (g & H1 & H2 & H3). exists g.
    split; [done|]. split; [done|]. rewrite (proj2 (Nat.ltb_lt _ _)) by lia. rewrite H3. f_equal. lia.
  - exists grid. split; [done|]. split; [done|]. by rewrite (proj2 (Nat.ltb_ge _ _)) by lia.
Qed.

(** A band left as it was. *)
Lemma at_band_id first last (shown : list Row) :
  (first <= last)%nat -> take first shown ++ slice first (S last) shown ++ drop (S last) shown = shown.
Proof.
  intros H. rewrite <- (take_drop first shown) at 4. f_equal.
  unfold slice. rewrite <- (take_drop (S last - first) (drop first shown)) at 2.
  rewrite drop_drop. do 2 f_equal. lia.
Qed.

Lemma delete_lines_ok row_count column_count first last n s grid :
  grid_ok row_count column_count grid -> Style_wf s ->
  exists grid', delete_lines first last n s grid = Some grid' /\ grid_ok row_count column_count grid'
    /\ view grid' = show_lines_deleted (N.to_nat first) (N.to_nat last) (N.to_nat n) s (view grid).
Proof.
  intros Hg Hs. unfold delete_lines, show_lines_deleted. rewrite (band_outside _ _ _ _ _ Hg).
  destruct (_ && _) eqn:Ein; cbn [negb]; [|by exists grid]. bools.
  rewrite view_length, (gk_row_count _ _ _ Hg) in *.
  pose proof (gk_row_bound _ _ _ Hg) as Hrb. cbv zeta.
  set (k := n `min` u16_add (last - first) 1).
  assert (N.to_nat k = (N.to_nat n `min` (N.to_nat last - N.to_nat first + 1))%nat) as Hk
    by (apply (band_count row_count); (done || lia)).
  rewrite <- Hk. cbn [andb].
  destruct (dimensions_eq _ _ _ Hg) as [_ ->]. rewrite (proj2 (Nat.eqb_neq row_count 0)) by lia.
  match goal with |- context [update_band _ _ ?f _] =>
    destruct (update_band_ok row_count column_count (N.to_nat first) (N.to_nat last) f
      (fun band => drop (N.to_nat k) band ++ replicate (N.to_nat k) (blank_row column_count s)) grid Hg)
      as (grid1 & -> & Hg1 & Hv1); [lia| |] end.
  { intros band Hlen Hband. cbv zeta. unfold rotate_left.
    assert (length (drop (N.to_nat k) band) = length band - N.to_nat k)%nat as Hd by apply length_drop.
    rewrite <- Hd, take_app_length, drop_app_length.
    destruct (reset_rows_ok column_count s (take (N.to_nat k) band) (Forall_take _ _ _ Hband) Hs)
      as (band' & -> & Hok' & Hv'). cbn [mbind option_bind]. eexists. split; [done|].
    pose proof (f_equal length Hv') as Hl'. rewrite length_fmap, length_replicate, length_take in Hl'.
    split_and!.
    - rewrite length_app, Hl', Hd. lia.
    - apply Forall_app. split; [by apply Forall_drop|done].
    - rewrite fmap_app, Hv', fmap_drop, length_take, Nat.min_l by lia. done. }
  cbn [mbind option_bind].
  assert ((0 <? k) = (0 <? N.to_nat k)%nat) as -> by (destruct (0 <? k) eqn:E; bools; symmetry;
    [apply Nat.ltb_lt|apply Nat.ltb_ge]; lia).
  destruct (0 <? N.to_nat k)%nat eqn:Ek; bools.
  2: { exists grid1. split; [done|]. split; [done|]. rewrite Hv1. unfold at_band.
       assert (N.to_nat k = 0%nat) as -> by lia. cbn [replicate]. rewrite drop_0, app_nil_r.
       apply at_band_id. lia. }
  rewrite <- Hv1.
  destruct (harden_above_ok _ _ first _ Hg1) as (grid2 & -> & Hg2 & Hv2).
  cbn [mbind option_bind]. rewrite <- Hv2. destruct (k <=? last) eqn:E; bools.
  - destruct (set_row_end_ok _ _ (last - k) Hard _ Hg2) as (g & H1 & H2 & H3). exists g.
    split; [done|]. split; [done|]. rewrite (proj2 (Nat.leb_le _ _)) by lia. rewrite H3. f_equal. lia.
  - exists grid2. split; [done|]. split; [done|]. by rewrite (proj2 (Nat.leb_gt _ _)) by lia.
Qed.

Lemma insert_lines_ok row_count column_count first last n s grid :
  grid_ok row_count column_count grid -> Style_wf s ->
  exists grid', insert_lines first last n s grid = Some grid' /\ grid_ok row_count column_count grid'
    /\ view grid' = show_lines_inserted (N.to_nat first) (N.to_nat last) (N.to_nat n) s (view grid).
Proof.
  intros Hg Hs. unfold insert_lines, show_lines_inserted. rewrite (band_outside _ _ _ _ _ Hg).
  destruct (_ && _) eqn:Ein; cbn [negb]; [|by exists grid]. bools.
  rewrite view_length, (gk_row_count _ _ _ Hg) in *.
  pose proof (gk_row_bound _ _ _ Hg) as Hrb. cbv zeta.
  set (k := n `min` u16_add (last - first) 1).
  assert (N.to_nat k = (N.to_nat n `min` (N.to_nat last - N.to_nat first + 1))%nat) as Hk
    by (apply (band_count row_count); (done || lia)).
  rewrite <- Hk. cbn [andb].
  destruct (dimensions_eq _ _ _ Hg) as [_ ->]. rewrite (proj2 (Nat.eqb_neq row_count 0)) by lia.
  match goal with |- context [update_band _ _ ?f _] =>
    destruct (update_band_ok row_count column_count (N.to_nat first) (N.to_nat last) f
      (fun band => replicate (N.to_nat k) (blank_row column_count s) ++ take (length band - N.to_nat k) band) grid Hg)
      as (grid1 & -> & Hg1 & Hv1); [lia| |] end.
  { intros band Hlen Hband. cbv zeta. unfold rotate_right.
    set (tail := drop (length band - N.to_nat k) band).
    assert (length tail = N.to_nat k) as Hd by (unfold tail; rewrite length_drop; lia).
    rewrite take_app_length', drop_app_length' by done.
    destruct (reset_rows_ok column_count s tail (Forall_drop _ _ _ Hband) Hs)
      as (band' & -> & Hok' & Hv'). cbn [mbind option_bind]. eexists. split; [done|].
    pose proof (f_equal length Hv') as Hl'. rewrite length_fmap, length_replicate in Hl'.
    split_and!.
    - rewrite length_app, Hl', length_take. lia.
    - apply Forall_app. split; [done|by apply Forall_take].
    - by rewrite fmap_app, Hv', fmap_take, Hd, length_fmap. }
  cbn [mbind option_bind].
  assert ((0 <? k) = (0 <? N.to_nat k)%nat) as -> by (destruct (0 <? k) eqn:E; bools; symmetry;
    [apply Nat.ltb_lt|apply Nat.ltb_ge]; lia).
  destruct (0 <? N.to_nat k)%nat eqn:Ek; bools.
  2: { exists grid1. split; [done|]. split; [done|]. rewrite Hv1. unfold at_band.
       assert (N.to_nat k = 0%nat) as -> by lia. cbn [replicate app]. rewrite Nat.sub_0_r.
       rewrite (take_ge (slice _ _ _)) by done.
       apply at_band_id. lia. }
  rewrite <- Hv1. destruct (harden_above_ok _ _ first _ Hg1) as (grid2 & -> & Hg2 & Hv2).
  cbn [mbind option_bind]. rewrite <- Hv2. apply set_row_end_ok. done.
Qed.

(** ** Columns of a band *)

Lemma splice_splice {A} first last (span span' l : list A) :
  (first <= last <= length l)%nat -> length span' = (last - first)%nat ->
  splice first last span (splice first last span' l) = splice first last span l.
Proof.
  intros H1 H2. unfold splice at 1 3. f_equal.
  - unfold splice. rewrite take_app_le by (rewrite length_take; lia). rewrite take_take. f_equal. lia.
  - f_equal. apply drop_splice; (done || lia).
Qed.

Lemma slice_splice {A} first last (span l : list A) :
  (first <= last <= length l)%nat -> length span = (last - first)%nat ->
  slice first last (splice first last span l) = span.
Proof.
  intros H1 H2. unfold slice, splice. rewrite drop_app_ge by (rewrite length_take; lia).
  rewrite length_take, Nat.min_l, Nat.sub_diag, drop_0 by lia. by rewrite take_app_length'.
Qed.

Lemma splice_slice {A} first last (l : list A) :
  (first <= last)%nat -> splice first last (slice first last l) l = l.
Proof.
  intros H. unfold splice, slice. rewrite <- (take_drop first l) at 4. f_equal.
  rewrite <- (take_drop (last - first) (drop first l)) at 2. rewrite drop_drop. do 2 f_equal. lia.
Qed.

Lemma try_for_inv {A S} (f : S -> A -> option S) (P : nat -> S -> Prop) l s :
  P 0%nat s ->
  (forall t s x, l !! t = Some x -> P t s -> exists s', f s x = Some s' /\ P (Datatypes.S t) s') ->
  exists s', try_for f l s = Some s' /\ P (length l) s'.
Proof.
  revert P s. induction l as [|x l IH]; intros P s H0 Hstep; [by exists s|].
  destruct (Hstep 0%nat s x eq_refl H0) as (s1 & E & H1). unfold try_for. cbn [foldl].
  cbn [mbind option_bind]. rewrite E. apply (IH (fun t => P (Datatypes.S t))); [done|].
  intros t s' y Hy Hp. by apply (Hstep (Datatypes.S t)).
Qed.

Section spans.
Context (column_count first last : nat).
Hypothesis span_in_row : (first <= last <= column_count)%nat.

Set Default Proof Using "All".

(** The rows [band'] are those of [band] with other spans in the columns: the
    span of row [settled j] in row [j], the own span in a [fresh] row. *)
Record moved (band band' : list GridRow) (settled : nat -> option nat) (fresh : nat -> Prop) : Prop :=
  { mv_length : length band' = length band;
    mv_ok : Forall (row_ok column_count) band';
    mv_rows : forall j row, band !! j = Some row ->
      exists row' span, band' !! j = Some row' /\ length span = (last - first)%nat
        /\ row_view row' = (splice first last span (cells row), row_metadata row)
        /\ (forall i source, settled j = Some i -> band !! i = Some source ->
              span = slice first last (cells source))
        /\ (fresh j -> span = slice first last (cells row)) }.

Lemma moved_start band :
  Forall (row_ok column_count) band -> moved band band (fun _ => None) (fun _ => True).
Proof.
  intros Hb. split; [done|done|]. intros j row Hj. rewrite Forall_lookup in Hb.
  pose proof (rk_length _ _ (Hb _ _ Hj)). exists row, (slice first last (cells row)).
  split_and!; [done|apply slice_length; lia| |done|done].
  unfold row_view. by rewrite splice_slice by lia.
Qed.

Lemma moved_weaken band band' settled settled' (fresh fresh' : nat -> Prop) :
  moved band band' settled fresh ->
  (forall j i, settled' j = Some i -> settled j = Some i) -> (forall j, fresh' j -> fresh j) ->
  moved band band' settled' fresh'.
Proof.
  intros [H1 H2 H3] Hs Hf. split; [done|done|]. intros j row Hj.
  destruct (H3 j row Hj) as (row' & span & ? & ? & ? & ? & ?). exists row', span. eauto 10.
Qed.

Lemma swap_step band band' settled fresh i j :
  Forall (row_ok column_count) band ->
  moved band band' settled fresh -> fresh j -> i <> j -> (i < length band)%nat -> (j < length band)%nat ->
  exists band'', swap_row_spans i j first last band' = Some band''
    /\ moved band band'' (fun x => if decide (x = i) then Some j else if decide (x = j) then None else settled x)
         (fun x => fresh x /\ x <> i /\ x <> j).
Proof.
  intros Hband [H1 H2 H3] Hfresh Hne Hi Hj.
  destruct (lookup_lt_is_Some_2 band i Hi) as [ri Hri], (lookup_lt_is_Some_2 band j Hj) as [rj Hrj].
  pose proof Hband as Hband'. rewrite Forall_lookup in Hband'.
  pose proof (rk_length _ _ (Hband' _ _ Hri)) as Li. pose proof (rk_length _ _ (Hband' _ _ Hrj)) as Lj.
  destruct (H3 i ri Hri) as (ri' & si & Eri & Lsi & Vi & _ & _).
  destruct (H3 j rj Hrj) as (rj' & sj & Erj & Lsj & Vj & _ & Fj). specialize (Fj Hfresh).
  injection Vi as Ci Mi. injection Vj as Cj Mj. unfold swap_row_spans. rewrite Eri, Erj. cbn [mbind option_bind].
  assert (slice first last (cells ri') = si) as -> by (rewrite Ci; apply slice_splice; (done || lia)).
  assert (slice first last (cells rj') = sj) as -> by (rewrite Cj; apply slice_splice; (done || lia)).
  pose proof H2 as H2'. rewrite Forall_lookup in H2'.
  pose proof (H2' _ _ Eri) as Oki. pose proof (H2' _ _ Erj) as Okj.
  assert (forall r s0 l, row_ok column_count r -> cells r = splice first last s0 l -> length l = column_count ->
    length s0 = (last - first)%nat -> Forall Cell_wf s0 /\ Forall Cell_canonical s0) as Hspan.
  { intros r s0 l Hr Er El Es. rewrite <- (slice_splice first last s0 l) by (done || lia). rewrite <- Er.
    split; [apply Forall_slice, (rk_wf _ _ Hr)|apply Forall_slice, (rk_canonical _ _ Hr)]. }
  destruct (Hspan _ _ _ Oki Ci Li Lsi) as [Wi Ki], (Hspan _ _ _ Okj Cj Lj Lsj) as [Wj Kj].
  destruct (get_cells_mut_ok column_count first last (fun _ => sj) ri' Oki) as (ri2 & -> & Oki2 & Ci2 & Mi2 & _);
    [lia|done|].
  destruct (get_cells_mut_ok column_count first last (fun _ => si) rj' Okj) as (rj2 & -> & Okj2 & Cj2 & Mj2 & _);
    [lia|done|].
  cbn [mbind option_bind]. eexists. split; [done|]. split.
  - by rewrite !length_insert.
  - by apply Forall_insert; [apply Forall_insert|].
  - intros x row Hx. destruct (decide (x = j)) as [->|Hxj].
    + rewrite Hrj in Hx. injection Hx as <-. exists rj2, si.
      rewrite list_lookup_insert_eq by (rewrite length_insert; lia). split_and!; [done|done| | |].
      * unfold row_view. rewrite Cj2, Cj, Mj2, Mj, splice_splice by (done || lia). done.
      * intros y src. rewrite decide_False by done. done.
      * intros (_ & _ & ?). done.
    + rewrite list_lookup_insert_ne by done. destruct (decide (x = i)) as [->|Hxi].
      * rewrite Hri in Hx. injection Hx as <-. exists ri2, sj.
        rewrite list_lookup_insert_eq by (rewrite H1; lia). split_and!; [done|done| | |].
        -- unfold row_view. rewrite Ci2, Ci, Mi2, Mi, splice_splice by (done || lia). done.
        -- intros y src [= <-] Hy. rewrite Hrj in Hy. injection Hy as <-. done.
        -- intros (_ & ? & _). done.
      * rewrite list_lookup_insert_ne by done. destruct (H3 x row Hx) as (r & sp & ? & ? & ? & ? & Hf).
        exists r, sp. split_and!; [done|done|done|done|]. intros (? & _ & _). by apply Hf.
Qed.
End spans.

Section band_columns.
Context (column_count first last : nat) (band : list GridRow) (s : Style) (k : nat).
Hypothesis span_in_row : (first <= last <= column_count)%nat.
Hypothesis band_ok : Forall (row_ok column_count) band.
Hypothesis style_ok : Style_wf s.
Hypothesis count_ok : (1 <= k <= length band)%nat.

Set Default Proof Using "All".

(** The loop of [delete_lines_in_columns]: each row takes the columns of the
    row [k] below it. *)
Lemma spans_up_loop :
  exists band',
    try_for (fun band source => swap_row_spans (source - k) source first last band)
      (seq k (length band - k)) band = Some band'
    /\ moved column_count first last band band'
         (fun j => if (j <? length band - k)%nat then Some (j + k)%nat else None) (fun _ => False).
Proof.
  set (P := fun t band' => moved column_count first last band band'
    (fun j => if (j <? t)%nat then Some (j + k)%nat else None) (fun j => (t + k <= j)%nat)).
  destruct (try_for_inv (fun band source => swap_row_spans (source - k) source first last band) P
    (seq k (length band - k)) band) as (band' & E & HP).
  - eapply moved_weaken; [done|by apply moved_start|done|done].
  - intros t band' source Hs HP. apply lookup_seq in Hs as [-> Ht].
    replace (k + t - k)%nat with t by lia.
    destruct (swap_step column_count first last span_in_row band band' _ _ t (k + t) band_ok HP)
      as (band'' & E & Hm); [lia|lia|lia|lia|].
    exists band''. split; [done|]. eapply moved_weaken; [done|exact Hm| |].
    + intros j i. simpl. intros H. destruct (j <? S t)%nat eqn:Ej; [|done]. bools. injection H as <-.
      destruct (decide (j = t)) as [->|]; [f_equal; lia|]. rewrite decide_False by lia.
      by rewrite (proj2 (Nat.ltb_lt _ _)) by lia.
    + simpl. intros j Hj. lia.
  - exists band'. split; [done|]. rewrite length_seq in HP.
    eapply moved_weaken; [done|exact HP|done|done].
Qed.

(** The loop of [insert_lines_in_columns], from the bottom up. *)
Lemma spans_down_loop :
  exists band',
    try_for (fun band destination => swap_row_spans destination (destination - k) first last band)
      (reverse (seq k (length band - k))) band = Some band'
    /\ moved column_count first last band band'
         (fun j => if (k <=? j)%nat && (j <? length band)%nat then Some (j - k)%nat else None) (fun _ => False).
Proof.
  set (n := length band). set (P := fun t band' => moved column_count first last band band'
    (fun j => if (n - t <=? j)%nat && (j <? n)%nat then Some (j - k)%nat else None)
    (fun j => (j < n - t - k)%nat)).
  destruct (try_for_inv (fun band destination => swap_row_spans destination (destination - k) first last band) P
    (reverse (seq k (n - k))) band) as (band' & E & HP).
  - eapply moved_weaken; [done|by apply moved_start| |done]. intros j i. simpl. intros H.
    destruct (_ && _) eqn:Ej; [|done]. bools. lia.
  - intros t b m Hm HP. pose proof (lookup_lt_Some _ _ _ Hm) as Ht. rewrite length_reverse, length_seq in Ht.
    rewrite reverse_lookup in Hm by (by rewrite length_seq). rewrite length_seq in Hm.
    apply lookup_seq in Hm as [-> _]. fold n in count_ok.
    destruct (swap_step column_count first last span_in_row band b _ _ (k + (n - k - S t)) (k + (n - k - S t) - k)
      band_ok HP) as (b' & E & Hmv); [lia|lia|lia|fold n; lia|].
    exists b'. split; [done|]. eapply moved_weaken; [done|exact Hmv| |].
    + intros j i. simpl. intros H. destruct (_ && _) eqn:Ej; [|done]. bools. injection H as <-.
      destruct (decide (j = k + (n - k - S t))%nat) as [->|]; [done|]. rewrite decide_False by lia.
      by rewrite (proj2 (Nat.leb_le _ _)), (proj2 (Nat.ltb_lt _ _)) by lia.
    + simpl. intros j Hj. lia.
  - exists band'. split; [done|]. rewrite length_reverse, length_seq in HP. fold n in count_ok.
    eapply moved_weaken; [done|exact HP| |done]. intros j i. simpl.
    by replace (n - (n - k))%nat with k by lia.
Qed.

(** Rows whose columns are blanked, the others as they were. *)
Lemma blank_spans_ok vacated :
  Forall (row_ok column_count) vacated ->
  exists vacated', blank_row_spans first last s vacated = Some vacated'
    /\ Forall (row_ok column_count) vacated'
    /\ row_view <$> vacated'
       = (fun row : GridRow => (splice first last (replicate (last - first) (build_blank_with_style s)) (cells row),
                      row_metadata row)) <$> vacated.
Proof.
  destruct (blank_with_style_ok s style_ok) as [Hbw Hbc].
  induction 1 as [|row rs Hrow _ IH]; [by exists []|]. destruct IH as (rs' & H1 & H2 & H3).
  pose proof (rk_length _ _ Hrow) as Hlen.
  destruct (get_cells_mut_ok column_count first last (fill (build_blank_with_style s)) row Hrow)
    as (row' & E1 & E2 & E3 & E4 & _); [lia| |].
  { unfold fill. rewrite length_replicate, slice_length by lia.
    split_and!; [done|by apply replicate_Forall|by apply replicate_Forall]. }
  exists (row' :: rs'). split; [|split; [by constructor|]].
  - unfold blank_row_spans. cbn [mapM]. rewrite E1. cbn [mbind option_bind].
    unfold blank_row_spans in H1. by rewrite H1.
  - cbn [fmap list_fmap]. rewrite H3. f_equal. unfold row_view. rewrite E3, E4. unfold fill.
    by rewrite slice_length by lia.
Qed.

(** What the loop and the blanking leave in a row. *)
Lemma moved_view (band1 : list GridRow) settled (blanked : bool) j (row row1 : GridRow) (final : Row) :
  moved column_count first last band band1 settled (fun _ => False) ->
  band !! j = Some row -> band1 !! j = Some row1 ->
  (if blanked then settled j = None else exists i, settled j = Some i /\ (i < length band)%nat) ->
  final = (if blanked
           then (splice first last (replicate (last - first) (build_blank_with_style s)) (cells row1),
                 row_metadata row1)
           else row_view row1) ->
  Some final = (fun row0 : Row =>
    (splice first last
       match settled j ≫= fun i => (row_view <$> band) !! i with
       | Some (source_cells, _) => slice first last source_cells
       | None => replicate (last - first) (build_blank_with_style s)
       end row0.1, row0.2)) <$> (row_view <$> band) !! j.
Proof.
  intros [Hl Hok Hrows] Hj Hj1 Hset ->. rewrite list_lookup_fmap, Hj. cbn [fmap option_fmap option_map].
  destruct (Hrows j row Hj) as (row' & span & Hr & Hspan & Hv & Hsource & _).
  rewrite Hj1 in Hr. injection Hr as <-. f_equal. cbn [fst snd row_view].
  pose proof band_ok as Hb. rewrite Forall_lookup in Hb. pose proof (rk_length _ _ (Hb _ _ Hj)) as Hlen.
  destruct blanked.
  - rewrite Hset. cbn [mbind option_bind]. unfold row_view in Hv. injection Hv as -> ->.
    rewrite splice_splice by (done || lia). done.
  - destruct Hset as (i & Hi & Hlt). rewrite Hi. cbn [mbind option_bind].
    destruct (lookup_lt_is_Some_2 band i Hlt) as [src Hsrc].
    rewrite list_lookup_fmap, Hsrc. cbn [fmap option_fmap option_map row_view].
    rewrite Hv. by rewrite (Hsource i src Hi Hsrc).
Qed.

Lemma columns_up_ok :
  exists band',
    (band1 ← try_for (fun band source => swap_row_spans (source - k) source first last band)
       (seq k (length band - k)) band;
     vacated ← blank_row_spans first last s (drop (length band - k) band1);
     Some (take (length band - k) band1 ++ vacated)) = Some band'
    /\ length band' = length band /\ Forall (row_ok column_count) band'
    /\ row_view <$> band' = take_spans first last s (fun i => Some (i + k)%nat) (row_view <$> band).
Proof.
  destruct spans_up_loop as (band1 & -> & Hm). cbn [mbind option_bind].
  pose proof (mv_length _ _ _ _ _ _ _ Hm) as Hl. pose proof (mv_ok _ _ _ _ _ _ _ Hm) as Hok.
  destruct (blank_spans_ok (drop (length band - k) band1) (Forall_drop _ _ _ Hok)) as (vac & -> & Hvac & Hview).
  cbn [mbind option_bind]. eexists. split; [done|].
  pose proof (f_equal length Hview) as Hlv. rewrite !length_fmap, length_drop in Hlv.
  split_and!.
  - rewrite length_app, length_take. lia.
  - apply Forall_app. split; [by apply Forall_take|done].
  - rewrite fmap_app, Hview. apply list_eq. intros j. unfold take_spans. rewrite list_lookup_imap.
    destruct (band !! j) as [row|] eqn:Hj.
    2: { apply lookup_ge_None_1 in Hj. rewrite list_lookup_fmap, (lookup_ge_None_2 band) by done.
         apply lookup_ge_None_2. rewrite length_app, !length_fmap, length_take, length_drop. lia. }
    pose proof (lookup_lt_Some _ _ _ Hj) as Hlt.
    destruct (lookup_lt_is_Some_2 band1 j ltac:(lia)) as [row1 Hj1].
    rewrite lookup_app, list_lookup_fmap, length_fmap.
    destruct (j <? length band - k)%nat eqn:Ej; bools.
    + rewrite lookup_take_lt, Hj1 by done. cbn [fmap option_fmap option_map].
      rewrite (moved_view band1 _ false j row row1 _ Hm Hj Hj1); [|exists (j + k)%nat|done].
      2: { rewrite (proj2 (Nat.ltb_lt _ _) Ej). split; [done|lia]. }
      by rewrite (proj2 (Nat.ltb_lt _ _) Ej).
    + rewrite lookup_take_ge by done. cbn [fmap option_fmap option_map].
      rewrite length_take, list_lookup_fmap, lookup_drop, Nat.min_l by lia.
      replace (length band - k + (j - (length band - k)))%nat with j by lia. rewrite Hj1.
      cbn [fmap option_fmap option_map].
      rewrite (moved_view band1 _ true j row row1 _ Hm Hj Hj1); [|by rewrite (proj2 (Nat.ltb_ge _ _) Ej)|done].
      rewrite (proj2 (Nat.ltb_ge _ _) Ej). cbn [mbind option_bind].
      by rewrite (lookup_ge_None_2 (row_view <$> band) (j + k)) by (rewrite length_fmap; lia).
Qed.

Lemma columns_down_ok :
  exists band',
    (band1 ← try_for (fun band destination => swap_row_spans destination (destination - k) first last band)
       (reverse (seq k (length band - k))) band;
     vacated ← blank_row_spans first last s (take k band1);
     Some (vacated ++ drop k band1)) = Some band'
    /\ length band' = length band /\ Forall (row_ok column_count) band'
    /\ row_view <$> band'
       = take_spans first last s (fun i => if (i <? k)%nat then None else Some (i - k)%nat) (row_view <$> band).
Proof.
  destruct spans_down_loop as (band1 & -> & Hm). cbn [mbind option_bind].
  pose proof (mv_length _ _ _ _ _ _ _ Hm) as Hl. pose proof (mv_ok _ _ _ _ _ _ _ Hm) as Hok.
  destruct (blank_spans_ok (take k band1) (Forall_take _ _ _ Hok)) as (vac & -> & Hvac & Hview).
  cbn [mbind option_bind]. eexists. split; [done|].
  pose proof (f_equal length Hview) as Hlv. rewrite !length_fmap, length_take in Hlv.
  split_and!.
  - rewrite length_app, length_drop. lia.
  - apply Forall_app. split; [done|by apply Forall_drop].
  - rewrite fmap_app, Hview. apply list_eq. intros j. unfold take_spans. rewrite list_lookup_imap.
    destruct (band !! j) as [row|] eqn:Hj.
    2: { apply lookup_ge_None_1 in Hj. rewrite list_lookup_fmap, (lookup_ge_None_2 band) by done.
         apply lookup_ge_None_2. rewrite length_app, !length_fmap, length_take, length_drop. lia. }
    pose proof (lookup_lt_Some _ _ _ Hj) as Hlt.
    destruct (lookup_lt_is_Some_2 band1 j ltac:(lia)) as [row1 Hj1].
    rewrite lookup_app, list_lookup_fmap, length_fmap.
    destruct (j <? k)%nat eqn:Ej; bools.
    + rewrite lookup_take_lt, Hj1 by done. cbn [fmap option_fmap option_map].
      rewrite (moved_view band1 _ true j row row1 _ Hm Hj Hj1); [|by rewrite (proj2 (Nat.leb_gt _ _)) by done|done].
      by rewrite (proj2 (Nat.leb_gt _ _)), (proj2 (Nat.ltb_lt _ _)) by done.
    + rewrite lookup_take_ge by done. cbn [fmap option_fmap option_map].
      rewrite length_take, list_lookup_fmap, lookup_drop, Nat.min_l by lia.
      replace (k + (j - k))%nat with j by lia. rewrite Hj1.
      cbn [fmap option_fmap option_map].
      assert ((k <=? j)%nat && (j <? length band)%nat = true) as Eb
        by (rewrite (proj2 (Nat.leb_le _ _)), (proj2 (Nat.ltb_lt _ _)) by lia; done).
      rewrite (moved_view band1 _ false j row row1 _ Hm Hj Hj1); [|exists (j - k)%nat; rewrite Eb; split; [done|lia]|done].
      by rewrite Eb.
Qed.
End band_columns.

(** The guards of an edit in columns, on the plain grid. *)
Lemma columns_guard row_count column_count first last n c c' grid :
  grid_ok row_count column_count grid ->
  let '(gr, gc) := get_grid_dimensions grid in
  let width := columns_of (view grid) in
  let a := (N.to_nat c `min` (width - 1))%nat in
  let b := S (N.to_nat c' `min` (width - 1)) in
  is_band_outside first last gr || (gc =? 0)
    = negb ((N.to_nat last <? length (view grid))%nat && (N.to_nat first <=? N.to_nat last)%nat
            && (0 <? width)%nat)
  /\ N.to_nat (c `min` (gc - 1)) = a /\ S (N.to_nat (c' `min` (gc - 1))) = b
  /\ (is_band_outside first last gr || (gc =? 0) = false ->
      width = column_count /\ (0 < column_count)%nat
      /\ (N.to_nat first <= N.to_nat last < row_count)%nat
      /\ N.to_nat (n `min` u16_add (last - first) 1)
         = (N.to_nat n `min` (N.to_nat last - N.to_nat first + 1))%nat).
Proof.
  intros Hg. pose proof (band_outside _ _ first last _ Hg) as Hout.
  destruct (dimensions_eq _ _ _ Hg) as [Hd Hw]. rewrite Hd in *. cbn [fst] in Hout. cbv zeta. rewrite Hout, Hw.
  rewrite view_length, (gk_row_count _ _ _ Hg). pose proof (gk_row_bound _ _ _ Hg).
  set (w := if (row_count =? 0)%nat then 0%nat else column_count).
  assert ((if (row_count =? 0)%nat then 0 else N.of_nat column_count) = N.of_nat w) as ->
    by (unfold w; by destruct (row_count =? 0)%nat).
  assert ((N.of_nat w =? 0) = negb (0 <? w)%nat) as -> by (by destruct w).
  rewrite <- negb_andb. split_and!; [done|lia|lia|].
  intros H1. apply negb_false_iff in H1. bools.
  assert (w = column_count) as Ew by (unfold w; by rewrite (proj2 (Nat.eqb_neq row_count 0)) by lia).
  split_and!; [done|lia|lia|lia|]. apply (band_count row_count); (done || lia).
Qed.

Lemma delete_lines_in_columns_ok row_count column_count first last n c c' s grid :
  grid_ok row_count column_count grid -> Style_wf s ->
  exists grid', delete_lines_in_columns first last n c c' s grid = Some grid'
    /\ grid_ok row_count column_count grid'
    /\ view grid' = show_spans_up (N.to_nat first) (N.to_nat last) (N.to_nat n) (N.to_nat c) (N.to_nat c') s
                      (view grid).
Proof.
  intros Hg Hs. unfold delete_lines_in_columns, show_spans_up.
  pose proof (columns_guard row_count column_count first last n c c' grid Hg) as Hguard.
  destruct (get_grid_dimensions grid) as [gr gc]. cbv zeta in Hguard |- *.
  destruct Hguard as (Hout & -> & -> & Hin). destruct (_ || _) eqn:E.
  { symmetry in Hout. apply negb_true_iff in Hout. rewrite Hout. by exists grid. }
  destruct (Hin eq_refl) as (Hw & Hc & Hband & ->). rewrite Hw in Hout |- *. symmetry in Hout. apply negb_false_iff in Hout.
  rewrite Hout. cbn [andb].
  set (a := (N.to_nat c `min` (column_count - 1))%nat). set (b := S (N.to_nat c' `min` (column_count - 1))).
  set (k := (N.to_nat n `min` (N.to_nat last - N.to_nat first + 1))%nat).
  rewrite Nat.leb_antisym. destruct (a <? b)%nat eqn:Eab; cbn [negb andb]; [|by exists grid].
  destruct (k =? 0)%nat eqn:Ek; bools.
  { rewrite Ek. by exists grid. }
  rewrite (proj2 (Nat.ltb_lt 0 k)) by lia.
  apply (update_band_ok row_count column_count); [done|lia|]. intros band Hlen Hband'.
  destruct (columns_up_ok column_count a b band s k) as (band' & ? & ? & ? & ?);
    [unfold a, b in *; lia|done|done|lia|].
  exists band'. done.
Qed.

Lemma insert_lines_in_columns_ok row_count column_count first last n c c' s grid :
  grid_ok row_count column_count grid -> Style_wf s ->
  exists grid', insert_lines_in_columns first last n c c' s grid = Some grid'
    /\ grid_ok row_count column_count grid'
    /\ view grid' = show_spans_down (N.to_nat first) (N.to_nat last) (N.to_nat n) (N.to_nat c) (N.to_nat c') s
                      (view grid).
Proof.
  intros Hg Hs. unfold insert_lines_in_columns, show_spans_down.
  pose proof (columns_guard row_count column_count first last n c c' grid Hg) as Hguard.
  destruct (get_grid_dimensions grid) as [gr gc]. cbv zeta in Hguard |- *.
  destruct Hguard as (Hout & -> & -> & Hin). destruct (_ || _) eqn:E.
  { symmetry in Hout. apply negb_true_iff in Hout. rewrite Hout. by exists grid. }
  destruct (Hin eq_refl) as (Hw & Hc & Hband & ->). rewrite Hw in Hout |- *. symmetry in Hout. apply negb_false_iff in Hout.
  rewrite Hout. cbn [andb].
  set (a := (N.to_nat c `min` (column_count - 1))%nat). set (b := S (N.to_nat c' `min` (column_count - 1))).
  set (k := (N.to_nat n `min` (N.to_nat last - N.to_nat first + 1))%nat).
  rewrite Nat.leb_antisym. destruct (a <? b)%nat eqn:Eab; cbn [negb andb]; [|by exists grid].
  destruct (k =? 0)%nat eqn:Ek; bools.
  { rewrite Ek. by exists grid. }
  rewrite (proj2 (Nat.ltb_lt 0 k)) by lia.
  apply (update_band_ok row_count column_count); [done|lia|]. intros band Hlen Hband'.
  destruct (columns_down_ok column_count a b band s k) as (band' & ? & ? & ? & ?);
    [unfold a, b in *; lia|done|done|lia|].
  exists band'. done.
Qed.

(** ** Every edit *)

Lemma row_snapshot_ok row_count column_count i get grid :
  grid_ok row_count column_count grid ->
  (forall row, row_ok column_count row -> exists s row', get row = Some (s, row')
     /\ row_ok column_count row' /\ row_view row' = row_view row) ->
  exists grid', snd <$> match rows grid !! i with
                        | Some row => '(s, row) ← get row; Some (Some s, MkGrid (<[i := row]> (rows grid)))
                        | None => Some (@None RowSnapshot, grid)
                        end = Some grid'
    /\ grid_ok row_count column_count grid' /\ view grid' = view grid.
Proof.
  intros Hg Hget. destruct (rows grid !! i) as [row|] eqn:E; [|by exists grid].
  destruct Hg as [Hr Hl Hrb Hcb]. pose proof Hr as Hr'. rewrite Forall_lookup in Hr'.
  destruct (Hget row (Hr' _ _ E)) as (s & row' & -> & Hok & Hv). cbn [mbind option_bind fmap option_fmap option_map snd].
  eexists. split; [done|]. split.
  - split; cbn [rows]; [by apply Forall_insert|by rewrite length_insert|done|done].
  - unfold view. cbn [rows]. rewrite list_fmap_insert, Hv. apply list_insert_id.
    by rewrite list_lookup_fmap, E.
Qed.

Lemma edit_shows row_count column_count e grid :
  grid_ok row_count column_count grid -> edit_ok e ->
  exists grid', edit e grid = Some grid' /\ grid_ok row_count column_count grid'
    /\ view grid' = show e (view grid).
Proof.
  intros Hg He. pose proof (gk_column_bound _ _ _ Hg) as Hcb.
  destruct e; cbn [edit show edit_ok] in *; destruct_and? He.
  - by apply set_row_end_ok.
  - by apply set_prompt_mark_ok.
  - by apply get_cell_mut_ok.
  - by apply write_ascii_ok.
  - by apply clear_wide_ok.
  - by apply clear_line_ok.
  - by apply insert_cells_ok.
  - by apply delete_cells_ok.
  - by apply delete_lines_in_columns_ok.
  - by apply insert_lines_in_columns_ok.
  - by apply delete_lines_ok.
  - by apply insert_lines_ok.
  - apply row_snapshot_ok; [done|]. intros row Hrow.
    destruct (row_get_snapshot_ok column_count row Hrow Hcb) as (s & row' & ? & _ & ? & ? & _). by exists s, row'.
  - apply row_snapshot_ok; [done|]. intros row Hrow.
    destruct (row_take_snapshot_ok column_count row Hrow Hcb) as (s & row' & ? & _ & ? & ?). by exists s, row'.
Qed.

(** A frame: every row's snapshot, kept by the row. *)
Lemma frame_ok row_count column_count grid :
  grid_ok row_count column_count grid ->
  exists snapshots grid', list_row_snapshots grid = Some (snapshots, grid')
    /\ grid_ok row_count column_count grid' /\ view grid' = view grid
    /\ Forall2 (fun (row : Row) s => snapshot_of (count_row_content_cells row.1) row.1 s
                  /\ snapshot_metadata s = row.2) (view grid) snapshots
    /\ list_row_snapshots grid' = Some (snapshots, grid').
Proof.
  intros [Hr Hl Hrb Hcb]. unfold list_row_snapshots.
  enough (exists pairs, mapM row_get_snapshot (rows grid) = Some pairs
    /\ Forall (row_ok column_count) pairs.*2 /\ row_view <$> pairs.*2 = row_view <$> rows grid
    /\ Forall2 (fun (row : Row) s => snapshot_of (count_row_content_cells row.1) row.1 s
                  /\ snapshot_metadata s = row.2) (row_view <$> rows grid) pairs.*1
    /\ mapM row_get_snapshot pairs.*2 = Some pairs) as (pairs & -> & H1 & H2 & H3 & H4).
  { cbn [mbind option_bind]. eexists _, _. split; [done|]. cbn [rows]. split_and!; [|done|done|by rewrite H4].
    split; [done|cbn [rows]|done|done]. rewrite <- (length_fmap row_view), H2, length_fmap. done. }
  clear Hl. induction Hr as [|row rs Hrow _ (pairs & H1 & H2 & H3 & H4 & H5)]; [by exists []|].
  destruct (row_get_snapshot_ok column_count row Hrow Hcb) as (s & row' & E1 & E2 & E3 & E4 & E5).
  destruct (encode_row_snapshot_ok column_count row Hrow Hcb) as (s' & E6 & E7 & E8 & _).
  rewrite E2 in E6. injection E6 as <-. exists ((s, row') :: pairs).
  cbn [mapM]. rewrite E1. cbn [mbind option_bind]. rewrite H1. cbn [mbind option_bind fmap list_fmap fst snd].
  split_and!; [done|by constructor|by rewrite E4, H3|by constructor|].
  cbn [mapM mbind option_bind]. rewrite E5. cbn [mbind option_bind]. by rewrite H5.
Qed.

Lemma build_blank_grid_ok row_count column_count s :
  is_u16 row_count -> is_u16 column_count -> Style_wf s ->
  grid_ok (N.to_nat row_count) (N.to_nat column_count) (build_blank_grid row_count column_count s)
  /\ view (build_blank_grid row_count column_count s)
     = replicate (N.to_nat row_count) (blank_row (N.to_nat column_count) s).
Proof.
  intros Hr Hc Hs. destruct (blank_with_style_ok s Hs) as [Hw Hcan]. unfold is_u16 in *. split.
  - split; cbn [build_blank_grid rows].
    + apply replicate_Forall. split; cbn; [apply length_replicate|lia| | |done| |].
      * by rewrite drop_0, Nat.sub_0_r.
      * by apply replicate_Forall.
      * by apply replicate_Forall.
      * by apply replicate_Forall.
    + apply length_replicate.
    + by rewrite N2Nat.id.
    + by rewrite N2Nat.id.
  - unfold view, build_blank_grid. cbn [rows]. by rewrite fmap_replicate.
Qed.

(** Rows given with their metadata, cut or padded to the column count. *)
Lemma from_rows_ok row_cells column_count s :
  N.of_nat (length row_cells) <= U16_MAX -> is_u16 column_count -> Style_wf s ->
  Forall (fun row : Row => Forall Cell_wf row.1 /\ Forall Cell_canonical row.1) row_cells ->
  grid_ok (length row_cells) (N.to_nat column_count) (from_rows_with_metadata row_cells column_count s)
  /\ view (from_rows_with_metadata row_cells column_count s)
     = (fun row : Row => (resize_with (N.to_nat column_count) (build_blank_with_style s) row.1, row.2)) <$> row_cells.
Proof.
  intros Hr Hc Hs Hrows. destruct (blank_with_style_ok s Hs) as [Hw Hcan]. unfold is_u16 in *. split.
  - split; cbn [from_rows_with_metadata rows]; [|apply length_fmap|done|by rewrite N2Nat.id].
    apply Forall_fmap. eapply Forall_impl; [exact Hrows|]. intros row [H1 H2]. cbn.
    assert (length (resize_with (N.to_nat column_count) (build_blank_with_style s) row.1)
      = N.to_nat column_count) as Hlen by (unfold resize_with; rewrite length_app, length_take, length_replicate; lia).
    split; cbn; [done|lia| |done|done| |].
    + rewrite Hlen, drop_ge, Nat.sub_diag by lia. done.
    + apply Forall_app. split; [by apply Forall_take|by apply replicate_Forall].
    + apply Forall_app. split; [by apply Forall_take|by apply replicate_Forall].
  - unfold view, from_rows_with_metadata. cbn [rows]. by rewrite <- list_fmap_compose.
Qed.

(** The grids a pane can come to, with the rows each shows. *)
Inductive reachable : nat -> nat -> Grid -> list Row -> Prop :=
  | reached_blank row_count column_count s :
      is_u16 row_count -> is_u16 column_count -> Style_wf s ->
      reachable (N.to_nat row_count) (N.to_nat column_count) (build_blank_grid row_count column_count s)
        (replicate (N.to_nat row_count) (blank_row (N.to_nat column_count) s))
  | reached_rows row_cells column_count s :
      N.of_nat (length row_cells) <= U16_MAX -> is_u16 column_count -> Style_wf s ->
      Forall (fun row : Row => Forall Cell_wf row.1 /\ Forall Cell_canonical row.1) row_cells ->
      reachable (length row_cells) (N.to_nat column_count) (from_rows_with_metadata row_cells column_count s)
        ((fun row : Row => (resize_with (N.to_nat column_count) (build_blank_with_style s) row.1, row.2))
           <$> row_cells)
  | reached_edit row_count column_count e grid grid' shown :
      reachable row_count column_count grid shown -> edit_ok e -> edit e grid = Some grid' ->
      reachable row_count column_count grid' (show e shown)
  | reached_frame row_count column_count grid grid' shown snapshots :
      reachable row_count column_count grid shown -> list_row_snapshots grid = Some (snapshots, grid') ->
      reachable row_count column_count grid' shown.

Lemma reachable_ok row_count column_count grid shown :
  reachable row_count column_count grid shown -> grid_ok row_count column_count grid /\ view grid = shown.
Proof.
  induction 1 as [| |r c e g g' shown H [Hg <-] He E|r c g g' shown snapshots H [Hg <-] E].
  - by apply build_blank_grid_ok.
  - by apply from_rows_ok.
  - destruct (edit_shows _ _ e g Hg He) as (g1 & E1 & H1 & H2). rewrite E in E1. by injection E1 as <-.
  - destruct (frame_ok _ _ g Hg) as (s1 & g1 & E1 & H1 & H2 & _). rewrite E in E1. by injection E1 as <- <-.
Qed.

(** ** Claims *)

(** C6: Every edit of a grid whose bookkeeping is true succeeds, keeps it
    true, and changes the cells and metadata as the plain edit does: writes,
    clears, moves of cells in a row and of rows or columns in a band, with
    everything outside untouched and every out-of-range index a no-op. *)
Theorem grid_edits_show_plainly row_count column_count e grid :
  grid_ok row_count column_count grid -> edit_ok e ->
  exists grid', edit e grid = Some grid' /\ grid_ok row_count column_count grid'
    /\ view grid' = show e (view grid).
Proof. apply edit_shows. Qed.

Definition example_grid : Grid := build_blank_grid 3 4 default_style.

Definition example_edits : list GridEdit :=
  [WriteAsciiCells 0 0 [97; 98; 99; 100; 101] default_style; WriteAsciiCells 1 1 [120; 121] default_style;
   SetRowEnd 0 Soft; DeleteLinesInColumns 0 1 1 1 2 default_style; InsertCells 0 0 3 1 default_style;
   ClearLine 2 1 4 default_style; InsertLines 0 2 1 default_style].

(** The characters of each row. *)
Definition example_text (shown : list Row) : list (list N) :=
  (fun row : Row => character <$> row.1) <$> shown.

Lemma example_edits_ok : Forall edit_ok example_edits.
Proof. repeat constructor; vm_compute; done. Qed.

Lemma grid_edits_show_plainly_witness :
  exists grid', edit (WriteAsciiCells 0 2 [97; 98; 99] default_style) example_grid = Some grid'
    /\ grid_ok 3 4 grid'
    /\ view grid' = show (WriteAsciiCells 0 2 [97; 98; 99] default_style) (view example_grid).
Proof.
  apply (grid_edits_show_plainly 3 4).
  - apply (build_blank_grid_ok 3 4); vm_compute; done.
  - repeat constructor; vm_compute; done.
Defined.

(** C31: In every grid a pane can come to, from blank rows or from given rows
    by any sequence of edits and frames, the bookkeeping is true: the grid
    shows what the plain edits show, its rows keep their count and width, and
    no further edit panics. *)
Theorem reachable_grids_never_panic row_count column_count grid shown :
  reachable row_count column_count grid shown ->
  view grid = shown /\ length shown = row_count
  /\ Forall (fun row : Row => length row.1 = column_count) shown
  /\ Forall (row_ok column_count) (rows grid)
  /\ forall e, edit_ok e -> exists grid', edit e grid = Some grid' /\ view grid' = show e shown.
Proof.
  intros H. destruct (reachable_ok _ _ _ _ H) as [Hg <-]. split; [done|].
  pose proof Hg as [Hr Hl _ _]. split_and!; [by rewrite view_length| |done|].
  - unfold view. apply Forall_fmap. eapply Forall_impl; [exact Hr|]. intros row. apply rk_length.
  - intros e He. destruct (edit_shows _ _ e grid Hg He) as (g & ? & _ & ?). by exists g.
Qed.

Lemma reachable_run row_count column_count edits grid grid' shown :
  reachable row_count column_count grid shown -> Forall edit_ok edits ->
  try_for (fun grid e => edit e grid) edits grid = Some grid' ->
  reachable row_count column_count grid' (foldl (fun shown e => show e shown) shown edits).
Proof.
  intros H He. revert grid shown H. induction He as [|e edits He _ IH]; intros grid shown H E.
  { by injection E as <-. }
  destruct (edit_shows _ _ e grid (proj1 (reachable_ok _ _ _ _ H)) He) as (g & E1 & _).
  unfold try_for in E. cbn [foldl mbind option_bind] in E. rewrite E1 in E.
  apply (IH g); [by eapply reached_edit|done].
Qed.

Lemma reachable_grids_never_panic_witness :
  exists grid, try_for (fun grid e => edit e grid) example_edits example_grid = Some grid
    /\ (let shown := foldl (fun shown e => show e shown) (view example_grid) example_edits in
        view grid = shown /\ length shown = 3%nat
        /\ Forall (fun row : Row => length row.1 = 4%nat) shown
        /\ Forall (row_ok 4) (rows grid)
        /\ forall e, edit_ok e -> exists grid', edit e grid = Some grid' /\ view grid' = show e shown)
    /\ example_text (view grid)
       = [[32; 32; 32; 32]; [32; 97; 120; 121]; [32; 32; 32; 32]].
Proof.
  eexists. split; [vm_compute; reflexivity|]. split; [|vm_compute; reflexivity].
  apply (reachable_grids_never_panic 3 4).
  eapply reachable_run; [apply (reached_blank 3 4); vm_compute; done|apply example_edits_ok|vm_compute; reflexivity].
Defined.

(** C30: A frame of a reachable grid, whatever snapshots its rows still keep
    from earlier frames, holds one snapshot per row whose bytes decode to the
    cells the row shows now and whose metadata is the row's, without changing
    what the grid shows; with no edit since, the next frame is the same one. *)
Theorem frames_show_the_grid row_count column_count grid shown :
  reachable row_count column_count grid shown ->
  exists snapshots grid', list_row_snapshots grid = Some (snapshots, grid')
    /\ mapM snapshot_decode_row_cells snapshots = Some shown.*1
    /\ snapshot_metadata <$> snapshots = shown.*2
    /\ view grid' = shown
    /\ list_row_snapshots grid' = Some (snapshots, grid').
Proof.
  intros H. destruct (reachable_ok _ _ _ _ H) as [Hg <-].
  destruct (frame_ok _ _ _ Hg) as (snapshots & grid' & H1 & _ & H2 & H3 & H4).
  exists snapshots, grid'. split_and!; [done| | |done|done].
  - apply mapM_Some. clear -H3. induction H3 as [|row s rs ss [Hs _] _ IH]; [done|]. constructor; [|done].
    apply (snapshot_reads _ _ _ [] Hs).
  - clear -H3. induction H3 as [|row s rs ss [_ Hm] _ IH]; [done|]. cbn. by rewrite Hm, IH.
Qed.

Lemma frames_show_the_grid_witness :
  exists grid, try_for (fun grid e => edit e grid) example_edits example_grid = Some grid
    /\ (let shown := foldl (fun shown e => show e shown) (view example_grid) example_edits in
        exists snapshots grid', list_row_snapshots grid = Some (snapshots, grid')
          /\ mapM snapshot_decode_row_cells snapshots = Some shown.*1
          /\ snapshot_metadata <$> snapshots = shown.*2
          /\ view grid' = shown
          /\ list_row_snapshots grid' = Some (snapshots, grid')).
Proof.
  eexists. split; [vm_compute; reflexivity|]. apply (frames_show_the_grid 3 4).
  eapply reachable_run; [apply (reached_blank 3 4); vm_compute; done|apply example_edits_ok|vm_compute; reflexivity].
Defined.
