(* ===== verification/Scrollback.v ===== *)
(** * Scrollback ([crates/koshi-terminal/src/scrollback.rs])

    The rows that scrolled off a pane's primary screen, oldest first, under a
    cap on their count and a cap on their text bytes. [None] is a panic: the
    overflow of a count or the underflow of the byte total. The callback that
    sees the dropped rows is the list of those rows, oldest first. The bytes
    given back for reuse are a capacity, not a content. *)

From S2P Require Import Prelude Varint Style Cell RowEncoder RowDecoder RowContract Snapshot Grid.
From stdpp Require Import options.
#[local] Open Scope N_scope.

(** ** Definitions *)

Record ScrollbackLimit := MkScrollbackLimit { limit_line_count : nat; limit_byte_count : nat }.

(** 10 000 lines and 32 MiB. *)
Definition default_scrollback_limit : ScrollbackLimit :=
  MkScrollbackLimit (N.to_nat 10000) (N.to_nat (32 * 1024 * 1024)).

Record Scrollback := MkScrollback
  { retained_lines : list RowSnapshot;
    maximum_line_count : nat;
    maximum_byte_count : nat;
    retained_byte_count : nat;
    total_pushed_line_count : N }.

(** [-=] at [usize] and [+=] at [u64]. *)
Definition usize_sub (a b : nat) : option nat := if (b <=? a)%nat then Some (a - b)%nat else None.
Definition u64_add (a b : N) : option N := if a + b <? U64_MODULUS then Some (a + b) else None.

Definition compute_retained_byte_count (lines : list RowSnapshot) : nat :=
  sum_list (snapshot_text_byte_count <$> lines).

Definition from_scrollback_limit (limit : ScrollbackLimit) : Scrollback :=
  MkScrollback [] (limit_line_count limit) (limit_byte_count limit) 0 0.

(** The condition of the loop of [evict_oldest_lines_to_limits]. *)
Definition is_over_limits (max_lines max_bytes line_count byte_count : nat) : bool :=
  (max_lines <? line_count)%nat || ((max_bytes <? byte_count)%nat && (1 <? line_count)%nat).

(** The loop: the rows dropped, the rows kept and their byte total. *)
Fixpoint evict_lines (max_lines max_bytes : nat) (lines : list RowSnapshot) (byte_count : nat)
    : option (list RowSnapshot * list RowSnapshot * nat) :=
  if is_over_limits max_lines max_bytes (length lines) byte_count then
    match lines with
    | oldest_line :: lines =>
        byte_count ← usize_sub byte_count (snapshot_text_byte_count oldest_line);
        '(evicted, lines, byte_count) ← evict_lines max_lines max_bytes lines byte_count;
        Some (oldest_line :: evicted, lines, byte_count)
    | [] => Some ([], [], byte_count)
    end
  else Some ([], lines, byte_count).

(** The rows dropped, and the buffer. *)
Definition evict_oldest_lines_to_limits (sb : Scrollback) : option (list RowSnapshot * Scrollback) :=
  '(evicted, lines, byte_count) ←
    evict_lines (maximum_line_count sb) (maximum_byte_count sb) (retained_lines sb) (retained_byte_count sb);
  Some (evicted, MkScrollback lines (maximum_line_count sb) (maximum_byte_count sb) byte_count
                   (total_pushed_line_count sb)).

Definition evict_oldest_line_for_next_push (sb : Scrollback) : option (list RowSnapshot * Scrollback) :=
  if (length (retained_lines sb) <? maximum_line_count sb)%nat then Some ([], sb)
  else
    match retained_lines sb with
    | [] => Some ([], sb)
    | oldest_line :: lines =>
        byte_count ← usize_sub (retained_byte_count sb) (snapshot_text_byte_count oldest_line);
        Some ([oldest_line],
          MkScrollback lines (maximum_line_count sb) (maximum_byte_count sb) byte_count
            (total_pushed_line_count sb))
    end.

Definition push_row_with_evicted (row_snapshot : RowSnapshot) (sb : Scrollback)
    : option (list RowSnapshot * Scrollback) :=
  total ← u64_add (total_pushed_line_count sb) 1;
  evict_oldest_lines_to_limits
    (MkScrollback (retained_lines sb ++ [row_snapshot]) (maximum_line_count sb) (maximum_byte_count sb)
       (retained_byte_count sb + snapshot_text_byte_count row_snapshot) total).

Definition take_retained_lines (sb : Scrollback) : list RowSnapshot * Scrollback :=
  (retained_lines sb,
   MkScrollback [] (maximum_line_count sb) (maximum_byte_count sb) 0 (total_pushed_line_count sb)).

Definition replace_retained_lines (lines : list RowSnapshot) (retained_line_count_before : N)
    (sb : Scrollback) : option Scrollback :=
  '(_, sb) ← evict_oldest_lines_to_limits
    (MkScrollback lines (maximum_line_count sb) (maximum_byte_count sb)
       (compute_retained_byte_count lines) (total_pushed_line_count sb));
  let retained_line_count_after := N.of_nat (length (retained_lines sb)) in
  total ← u64_add (total_pushed_line_count sb) (retained_line_count_after - retained_line_count_before);
  Some (MkScrollback (retained_lines sb) (maximum_line_count sb) (maximum_byte_count sb)
          (retained_byte_count sb) total).

Definition clear_scrollback (sb : Scrollback) : Scrollback :=
  MkScrollback [] (maximum_line_count sb) (maximum_byte_count sb) 0 (total_pushed_line_count sb).

Definition from_stored_lines (lines : list RowSnapshot) (max_lines max_bytes : nat) (total : N)
    : option Scrollback :=
  '(_, sb) ← evict_oldest_lines_to_limits
    (MkScrollback lines max_lines max_bytes (compute_retained_byte_count lines) total);
  Some sb.

Definition crop_columns (row_cells : list Cell) (column_count : N) (fill_style : Style) : list Cell :=
  let row_cells := resize_with (N.to_nat column_count) (build_blank_with_style fill_style) row_cells in
  match last row_cells with
  | Some trailing_cell =>
      if 1 <? display_width trailing_cell
      then <[(length row_cells - 1)%nat := build_blank_with_style fill_style]> row_cells
      else row_cells
  | None => row_cells
  end.

(** The body of the loop of [fit_lines_to_column_count]. *)
Definition fit_line (column_count : N) (line : RowSnapshot) : option RowSnapshot :=
  shape ← get_encoded_row_shape line;
  if shape_column_count shape =? column_count then Some line
  else
    row_cells ← snapshot_decode_row_cells line;
    from_row_cells (crop_columns row_cells column_count default_style) (snapshot_metadata line).

Definition fit_lines_to_column_count (column_count : N) (sb : Scrollback) : option Scrollback :=
  lines ← mapM (fit_line column_count) (retained_lines sb);
  Some (MkScrollback lines (maximum_line_count sb) (maximum_byte_count sb)
          (compute_retained_byte_count lines) (total_pushed_line_count sb)).

Definition has_only_lines_of_column_count (column_count : N) (sb : Scrollback) : option bool :=
  shapes ← mapM get_encoded_row_shape (retained_lines sb);
  Some (forallb (fun shape => shape_column_count shape =? column_count) shapes).

(** The rows of [CellRowLines]: [None] for a line of more than 65 535 cells. *)
Definition read_cell_row_lines (lines : list (list Cell * RowMetadata)) : option (list RowSnapshot) :=
  mapM (fun line : list Cell * RowMetadata =>
    if U16_MAX <? N.of_nat (length line.1) then None else from_row_cells line.1 line.2) lines.

(** ** The caps *)

(** [lines] fit under the caps: never more rows than the line cap, and no more
    bytes than the byte cap unless one row alone holds them. *)
Definition lines_fit (max_lines max_bytes : nat) (lines : list RowSnapshot) : Prop :=
  (length lines <= max_lines)%nat
  /\ ((compute_retained_byte_count lines <= max_bytes)%nat \/ (length lines <= 1)%nat).

Lemma over_limits_fit max_lines max_bytes lines :
  is_over_limits max_lines max_bytes (length lines) (compute_retained_byte_count lines) = false
  <-> lines_fit max_lines max_bytes lines.
Proof.
  unfold is_over_limits, lines_fit. rewrite orb_false_iff, andb_false_iff, !Nat.ltb_ge. done.
Qed.

(** [kept] are the newest of [lines] that fit: no longer tail of them does. *)
Record keeps_newest (max_lines max_bytes : nat) (lines dropped kept : list RowSnapshot) : Prop :=
  { kn_split : lines = dropped ++ kept;
    kn_fit : lines_fit max_lines max_bytes kept;
    kn_longest : forall dropped' kept', lines = dropped' ++ kept' ->
      lines_fit max_lines max_bytes kept' -> (length kept' <= length kept)%nat }.

Lemma byte_count_cons line lines :
  compute_retained_byte_count (line :: lines)
  = (snapshot_text_byte_count line + compute_retained_byte_count lines)%nat.
Proof. done. Qed.

Lemma usize_sub_add a b : usize_sub (a + b) a = Some b.
Proof. unfold usize_sub. rewrite (proj2 (Nat.leb_le _ _)) by lia. f_equal. lia. Qed.

Lemma evict_lines_ok max_lines max_bytes lines :
  exists dropped kept,
    evict_lines max_lines max_bytes lines (compute_retained_byte_count lines)
      = Some (dropped, kept, compute_retained_byte_count kept)
    /\ keeps_newest max_lines max_bytes lines dropped kept.
Proof.
  induction lines as [|line lines IH].
  - exists [], []. split.
    + unfold evict_lines. by destruct (is_over_limits _ _ _ _).
    + split; [done|split; simpl; lia|]. intros d k E _. symmetry in E. by apply app_eq_nil in E as [_ ->].
  - destruct (is_over_limits max_lines max_bytes (length (line :: lines))
      (compute_retained_byte_count (line :: lines))) eqn:E.
    + destruct IH as (dropped & kept & He & [Hs Hf Hl]). exists (line :: dropped), kept. split.
      * cbn [evict_lines]. rewrite E, byte_count_cons, usize_sub_add. cbn [mbind option_bind]. by rewrite He.
      * split; [by rewrite Hs|done|]. intros [|x d] k Ek Hk.
        -- simpl in Ek. subst k. apply over_limits_fit in Hk. by rewrite Hk in E.
        -- injection Ek as _ Ek. by apply (Hl d k).
    + exists [], (line :: lines). split; [cbn [evict_lines]; by rewrite E|].
      split; [done|by apply over_limits_fit|]. intros d k Ek _. rewrite Ek, length_app. lia.
Qed.

(** The byte total is that of the lines, and the lines fit. *)
Record scrollback_ok (sb : Scrollback) : Prop :=
  { sb_bytes : retained_byte_count sb = compute_retained_byte_count (retained_lines sb);
    sb_fit : lines_fit (maximum_line_count sb) (maximum_byte_count sb) (retained_lines sb) }.

Definition with_lines (lines : list RowSnapshot) (total : N) (sb : Scrollback) : Scrollback :=
  MkScrollback lines (maximum_line_count sb) (maximum_byte_count sb) (compute_retained_byte_count lines) total.

Lemma evict_oldest_ok lines total sb :
  exists dropped kept,
    evict_oldest_lines_to_limits (with_lines lines total sb) = Some (dropped, with_lines kept total sb)
    /\ keeps_newest (maximum_line_count sb) (maximum_byte_count sb) lines dropped kept
    /\ scrollback_ok (with_lines kept total sb).
Proof.
  destruct (evict_lines_ok (maximum_line_count sb) (maximum_byte_count sb) lines) as (d & k & He & Hk).
  exists d, k. unfold evict_oldest_lines_to_limits, with_lines. cbn. rewrite He. cbn.
  split; [done|]. split; [done|]. split; [done|]. apply (kn_fit _ _ _ _ _ Hk).
Qed.

Lemma byte_count_app lines lines' :
  compute_retained_byte_count (lines ++ lines')
  = (compute_retained_byte_count lines + compute_retained_byte_count lines')%nat.
Proof. unfold compute_retained_byte_count. by rewrite fmap_app, sum_list_with_app. Qed.

Lemma push_with_lines row sb :
  retained_byte_count sb = compute_retained_byte_count (retained_lines sb) ->
  push_row_with_evicted row sb
  = (total ← u64_add (total_pushed_line_count sb) 1;
     evict_oldest_lines_to_limits (with_lines (retained_lines sb ++ [row]) total sb)).
Proof.
  intros Hb. unfold push_row_with_evicted, with_lines. rewrite byte_count_app, Hb.
  unfold compute_retained_byte_count at 3. cbn. by rewrite Nat.add_0_r.
Qed.

Lemma u64_add_ok a b : a + b < U64_MODULUS -> u64_add a b = Some (a + b).
Proof. intros H. unfold u64_add. by rewrite (proj2 (N.ltb_lt _ _) H). Qed.

(** At the line cap, the first row a push drops is the oldest one. *)
Lemma evict_full_lines max_lines max_bytes oldest lines :
  (max_lines < S (length lines))%nat ->
  evict_lines max_lines max_bytes (oldest :: lines) (compute_retained_byte_count (oldest :: lines))
  = ('(evicted, lines, byte_count) ← evict_lines max_lines max_bytes lines (compute_retained_byte_count lines);
     Some (oldest :: evicted, lines, byte_count)).
Proof.
  intros H. cbn [evict_lines]. unfold is_over_limits at 1. rewrite (proj2 (Nat.ltb_lt _ _)) by done.
  cbn [orb]. by rewrite byte_count_cons, usize_sub_add.
Qed.

Lemma lines_fit_tail max_lines max_bytes line lines :
  lines_fit max_lines max_bytes (line :: lines) -> lines_fit max_lines max_bytes lines.
Proof.
  unfold lines_fit. rewrite byte_count_cons. simpl. intros [H1 H2]. split; [lia|]. destruct H2; [left|right]; lia.
Qed.

Lemma evict_early_ok row sb :
  scrollback_ok sb -> total_pushed_line_count sb + 1 < U64_MODULUS ->
  exists evicted sb' evicted' sb'',
    evict_oldest_line_for_next_push sb = Some (evicted, sb') /\ scrollback_ok sb'
    /\ push_row_with_evicted row sb' = Some (evicted', sb'')
    /\ push_row_with_evicted row sb = Some (evicted ++ evicted', sb'').
Proof.
  intros Hok Htotal. pose proof Hok as [Hb Hf]. unfold evict_oldest_line_for_next_push.
  assert (exists evicted' sb'', push_row_with_evicted row sb = Some (evicted', sb'')) as Hpush.
  { rewrite (push_with_lines row sb (sb_bytes _ Hok)), u64_add_ok by done. cbn [mbind option_bind].
    destruct (evict_oldest_ok (retained_lines sb ++ [row]) (total_pushed_line_count sb + 1) sb)
      as (d & k & -> & _). eauto. }
  destruct Hpush as (evicted' & sb'' & Hpush).
  destruct (_ <? _)%nat eqn:El; [by exists [], sb, evicted', sb''|].
  destruct (retained_lines sb) as [|oldest lines] eqn:Elines; [by exists [], sb, evicted', sb''|]. bools.
  assert (retained_byte_count sb = snapshot_text_byte_count oldest + compute_retained_byte_count lines)%nat as Eb
    by done.
  rewrite Eb, usize_sub_add. cbn [mbind option_bind].
  set (sb1 := MkScrollback lines (maximum_line_count sb) (maximum_byte_count sb)
    (compute_retained_byte_count lines) (total_pushed_line_count sb)).
  assert (scrollback_ok sb1) as Hok1 by (split; [done|by eapply lines_fit_tail]).
  rewrite (push_with_lines row sb (sb_bytes _ Hok)), Elines, u64_add_ok in Hpush by done. cbn [mbind option_bind] in Hpush.
  unfold evict_oldest_lines_to_limits in Hpush.
  cbn [with_lines maximum_line_count maximum_byte_count retained_lines retained_byte_count app] in Hpush.
  rewrite evict_full_lines in Hpush by (rewrite length_app; simpl in *; lia).
  exists [oldest], sb1. rewrite (push_with_lines row sb1 (sb_bytes _ Hok1)).
  cbn [sb1 total_pushed_line_count retained_lines]. rewrite u64_add_ok by done. cbn [mbind option_bind].
  unfold evict_oldest_lines_to_limits.
  cbn [with_lines maximum_line_count maximum_byte_count retained_lines retained_byte_count sb1].
  destruct (evict_lines_ok (maximum_line_count sb) (maximum_byte_count sb) (lines ++ [row])) as (d & k & He & _).
  rewrite He in Hpush |- *. cbn [mbind option_bind] in Hpush |- *. injection Hpush as <- <-.
  eexists _, _. split; [done|]. split; [done|]. split; [done|].
  rewrite (push_with_lines row sb (sb_bytes _ Hok)), Elines, u64_add_ok by done. cbn [mbind option_bind].
  unfold evict_oldest_lines_to_limits.
  cbn [with_lines maximum_line_count maximum_byte_count retained_lines retained_byte_count app].
  rewrite evict_full_lines by (rewrite length_app; simpl in *; lia). by rewrite He.
Qed.

(** ** Fitting the lines to a width *)

(** The cells and metadata of a history line. *)
Definition line_holds (row : list Cell * RowMetadata) (s : RowSnapshot) : Prop :=
  snapshot_metadata s = row.2 /\ exists k, snapshot_of k row.1 s.

Lemma resize_with_length count c (l : list Cell) : length (resize_with count c l) = count.
Proof. unfold resize_with. rewrite length_app, length_take, length_replicate. lia. Qed.

Lemma crop_columns_ok row_cells column_count s :
  Forall Cell_wf row_cells -> Forall Cell_canonical row_cells -> Style_wf s ->
  length (crop_columns row_cells column_count s) = N.to_nat column_count
  /\ Forall Cell_wf (crop_columns row_cells column_count s)
  /\ Forall Cell_canonical (crop_columns row_cells column_count s).
Proof.
  intros Hw Hc Hs. destruct (blank_with_style_ok s Hs) as [Hbw Hbc]. unfold crop_columns. cbv zeta.
  set (cells := resize_with (N.to_nat column_count) (build_blank_with_style s) row_cells).
  assert (length cells = N.to_nat column_count) as Hlen by apply resize_with_length.
  assert (Forall Cell_wf cells /\ Forall Cell_canonical cells) as [Hw' Hc'].
  { split; apply Forall_app; (split; [by apply Forall_take|by apply Forall_replicate]). }
  case_match; [case_match|]; split_and!; rewrite ?length_insert; try done; by apply Forall_insert.
Qed.

Lemma from_row_cells_ok row_cells metadata :
  Forall Cell_wf row_cells -> Forall Cell_canonical row_cells -> N.of_nat (length row_cells) <= U16_MAX ->
  exists s, from_row_cells row_cells metadata = Some s /\ line_holds (row_cells, metadata) s.
Proof.
  intros Hw Hc Hl. unfold from_row_cells, u16_try_from. rewrite (proj2 (N.leb_le _ _) Hl). cbn [mbind option_bind].
  destruct (from_padded_snapshot row_cells (N.of_nat (length row_cells)) None metadata Hw Hc)
    as (s & Hs & Hrow & _ & Hm & _); [lia|done|done|].
  rewrite padded_full in Hrow by lia. exists s. split; [done|]. split; [done|]. by eexists.
Qed.

(** What a line is after the fit: itself, or cropped. *)
Definition fitted (column_count : N) (row : list Cell * RowMetadata) : list Cell * RowMetadata :=
  (if (length row.1 =? N.to_nat column_count)%nat then row.1
   else crop_columns row.1 column_count default_style, row.2).

Lemma line_shape row s :
  line_holds row s ->
  exists trailing, get_encoded_row_shape s
    = Some (MkEncodedRowShape (N.of_nat (length row.1)) (row_end row.2) trailing).
Proof.
  intros [Hm [k Hk]]. destruct (snapshot_reads _ _ _ [] Hk) as (H & _). rewrite H, Hm. by eexists.
Qed.

Lemma fitted_length column_count row :
  Forall Cell_wf row.1 -> Forall Cell_canonical row.1 ->
  length (fitted column_count row).1 = N.to_nat column_count.
Proof.
  intros Hw Hc. unfold fitted. destruct (_ =? _)%nat eqn:E; bools; [done|].
  by apply crop_columns_ok, default_style_wf.
Qed.

Lemma fit_line_ok column_count row s :
  line_holds row s -> column_count <= U16_MAX ->
  exists s', fit_line column_count s = Some s' /\ line_holds (fitted column_count row) s'
    /\ length (fitted column_count row).1 = N.to_nat column_count.
Proof.
  intros Hline Hc. destruct (line_shape _ _ Hline) as [t Ht]. unfold fit_line. rewrite Ht.
  cbn [mbind option_bind shape_column_count]. pose proof Hline as [Hm [k Hk]].
  pose proof (fitted_length column_count row (so_wf _ _ _ Hk) (so_canonical _ _ _ Hk)) as Hlen.
  assert ((N.of_nat (length row.1) =? column_count) = (length row.1 =? N.to_nat column_count)%nat) as ->
    by (destruct (length row.1 =? N.to_nat column_count)%nat eqn:E; bools; [apply N.eqb_eq|apply N.eqb_neq]; lia).
  unfold fitted in *. destruct (_ =? _)%nat.
  - exists s. split; [done|]. split; [|done]. split; [done|]. by exists k.
  - destruct (snapshot_reads _ _ _ [] Hk) as (_ & _ & -> & _). cbn [mbind option_bind].
    destruct (crop_columns_ok row.1 column_count default_style (so_wf _ _ _ Hk) (so_canonical _ _ _ Hk) default_style_wf)
      as (_ & Hw & Hcan).
    destruct (from_row_cells_ok (crop_columns row.1 column_count default_style) (snapshot_metadata s) Hw Hcan)
      as (s' & -> & Hs'); [simpl in Hlen; lia|].
    exists s'. rewrite Hm in Hs'. done.
Qed.

Lemma fit_lines_ok column_count history lines :
  Forall2 line_holds history lines -> column_count <= U16_MAX ->
  exists lines', mapM (fit_line column_count) lines = Some lines'
    /\ Forall2 line_holds (fitted column_count <$> history) lines'
    /\ Forall (fun row => length row.1 = N.to_nat column_count) (fitted column_count <$> history).
Proof.
  intros H Hc. induction H as [|row s history lines Hs _ (lines' & H1 & H2 & H3)]; [by exists []|].
  destruct (fit_line_ok _ _ _ Hs Hc) as (s' & E1 & E2 & E3). exists (s' :: lines').
  cbn [mapM]. rewrite E1. cbn [mbind option_bind]. rewrite H1. split_and!; [done|by constructor|by constructor].
Qed.

Lemma fitted_id column_count history :
  Forall (fun row : list Cell * RowMetadata => length row.1 = N.to_nat column_count) history ->
  fitted column_count <$> history = history.
Proof.
  induction 1 as [|[l m] history Hl _ IH]; [done|]. cbn. rewrite IH. f_equal. unfold fitted. simpl in *.
  by rewrite (proj2 (Nat.eqb_eq _ _) Hl).
Qed.

Lemma only_lines_ok column_count history lines :
  Forall2 line_holds history lines -> column_count <= U16_MAX ->
  has_only_lines_of_column_count column_count (MkScrollback lines 0 0 0 0)
  = Some (forallb (fun row : list Cell * RowMetadata => length row.1 =? N.to_nat column_count)%nat history).
Proof.
  intros H Hc. unfold has_only_lines_of_column_count. cbn [retained_lines].
  enough (exists shapes, mapM get_encoded_row_shape lines = Some shapes
    /\ forallb (fun shape => shape_column_count shape =? column_count) shapes
       = forallb (fun row : list Cell * RowMetadata => length row.1 =? N.to_nat column_count)%nat history)
    as (shapes & -> & E) by (cbn [mbind option_bind]; by rewrite E).
  induction H as [|row s history lines Hs _ (shapes & H1 & H2)]; [by exists []|].
  destruct (line_shape _ _ Hs) as [t Ht]. eexists. cbn [mapM]. rewrite Ht. cbn [mbind option_bind].
  rewrite H1. split; [done|]. cbn [forallb shape_column_count]. rewrite H2. f_equal.
  destruct (length row.1 =? N.to_nat column_count)%nat eqn:E; bools; [apply N.eqb_eq|apply N.eqb_neq]; lia.
Qed.

(** ** Every operation *)

(** An operation on a pane's history, by the method that makes it. *)
Inductive ScrollbackEdit :=
  | PushRow (row_snapshot : RowSnapshot)
  | EvictForNextPush
  | TakeRetainedLines
  | ReplaceRetainedLines (lines : list RowSnapshot) (retained_line_count_before : N)
  | ClearScrollback
  | FitLines (column_count : N).

(** The buffer after the operation, and the rows it dropped or gave back. *)
Definition scrollback_edit (e : ScrollbackEdit) (sb : Scrollback) : option (list RowSnapshot * Scrollback) :=
  match e with
  | PushRow row => push_row_with_evicted row sb
  | EvictForNextPush => evict_oldest_line_for_next_push sb
  | TakeRetainedLines => Some (take_retained_lines sb)
  | ReplaceRetainedLines lines before => sb ← replace_retained_lines lines before sb; Some ([], sb)
  | ClearScrollback => Some ([], clear_scrollback sb)
  | FitLines column_count => sb ← fit_lines_to_column_count column_count sb; Some ([], sb)
  end.

(** The rows it holds are rows, its byte total is theirs, its line cap holds. *)
Record history_counted (sb : Scrollback) : Prop :=
  { hc_lines : Forall (fun s => exists row, line_holds row s) (retained_lines sb);
    hc_bytes : retained_byte_count sb = compute_retained_byte_count (retained_lines sb);
    hc_cap : (length (retained_lines sb) <= maximum_line_count sb)%nat }.

Definition scrollback_edit_ok (e : ScrollbackEdit) : Prop :=
  match e with
  | PushRow row => exists cells, line_holds cells row
  | ReplaceRetainedLines lines _ => Forall (fun s => exists row, line_holds row s) lines
  | FitLines column_count => column_count <= U16_MAX
  | EvictForNextPush | TakeRetainedLines | ClearScrollback => True
  end.

(** The rows an operation counts as pushed. *)
Definition pushed_by (e : ScrollbackEdit) (sb' : Scrollback) : N :=
  match e with
  | PushRow _ => 1
  | ReplaceRetainedLines _ before => N.of_nat (length (retained_lines sb')) - before
  | _ => 0
  end.

Lemma counted_with_lines lines dropped kept total sb :
  keeps_newest (maximum_line_count sb) (maximum_byte_count sb) lines dropped kept ->
  Forall (fun s => exists row, line_holds row s) lines ->
  history_counted (with_lines kept total sb).
Proof.
  intros [-> [Hf _] _] H. apply Forall_app in H as [_ H]. by split.
Qed.

Lemma fit_counted column_count sb :
  Forall (fun s => exists row, line_holds row s) (retained_lines sb) -> column_count <= U16_MAX ->
  exists lines, mapM (fit_line column_count) (retained_lines sb) = Some lines
    /\ length lines = length (retained_lines sb)
    /\ Forall (fun s => exists row, line_holds row s) lines.
Proof.
  intros H Hc. apply Forall_exists_Forall2_l in H as (history & H). apply Forall2_flip in H.
  destruct (fit_lines_ok column_count history (retained_lines sb)) as (lines & E & Hl & _);
    [eapply Forall2_impl; [exact H|done]|done|].
  exists lines. split; [done|]. split; [by apply mapM_Some, Forall2_length in E|].
  clear -Hl. induction Hl; constructor; eauto.
Qed.

Lemma scrollback_edit_counts e sb :
  history_counted sb -> scrollback_edit_ok e ->
  (forall sb', total_pushed_line_count sb + pushed_by e sb' < U64_MODULUS) ->
  exists dropped sb', scrollback_edit e sb = Some (dropped, sb')
    /\ history_counted sb' /\ maximum_line_count sb' = maximum_line_count sb
    /\ maximum_byte_count sb' = maximum_byte_count sb
    /\ total_pushed_line_count sb' = total_pushed_line_count sb + pushed_by e sb'.
Proof.
  intros Hcount He Ht. pose proof Hcount as [Hl Hb Hc]. destruct e as [row| | |lines before| |column_count]; cbn [scrollback_edit].
  - rewrite push_with_lines, u64_add_ok by (done || apply (Ht sb)). cbn [mbind option_bind].
    destruct (evict_oldest_ok (retained_lines sb ++ [row]) (total_pushed_line_count sb + 1) sb)
      as (d & k & -> & Hk & _).
    eexists _, _. split; [done|]. split; [|done]. eapply counted_with_lines; [done|].
    apply Forall_app. split; [done|]. by constructor.
  - unfold evict_oldest_line_for_next_push.
    destruct (_ <? _)%nat; [exists [], sb; by rewrite N.add_0_r|].
    destruct (retained_lines sb) as [|oldest lines] eqn:E; [exists [], sb; by rewrite N.add_0_r|].
    rewrite Hb, byte_count_cons, usize_sub_add. cbn [mbind option_bind].
    eexists _, _. rewrite N.add_0_r. split; [done|]. split; [|done]. apply Forall_cons in Hl as [_ Hl].
    split; [done|done|]. simpl in *. lia.
  - eexists _, _. cbn [pushed_by]. rewrite N.add_0_r. split; [done|]. split; [|done]. split; [constructor|done|simpl; lia].
  - unfold replace_retained_lines.
    destruct (evict_oldest_ok lines (total_pushed_line_count sb) sb) as (d & k & Hev & Hk & _).
    unfold with_lines in Hev at 1. rewrite Hev. cbn [mbind option_bind with_lines retained_lines total_pushed_line_count].
    specialize (Ht (with_lines k 0 sb)). cbn [pushed_by with_lines retained_lines] in Ht.
    rewrite u64_add_ok by done. cbn [mbind option_bind]. eexists _, _. split; [done|]. split; [|done].
    apply (counted_with_lines lines d k _ sb Hk He).
  - eexists _, _. cbn [pushed_by]. rewrite N.add_0_r. split; [done|]. split; [|done]. split; [constructor|done|simpl; lia].
  - unfold fit_lines_to_column_count. destruct (fit_counted column_count sb Hl He) as (lines & -> & Hlen & Hlines).
    cbn [mbind option_bind pushed_by]. eexists _, _. rewrite N.add_0_r. split; [done|]. split; [|done].
    split; [done|done|]. cbn [retained_lines maximum_line_count]. lia.
Qed.

Lemma fit_lines_same column_count history lines :
  Forall2 line_holds history lines ->
  Forall (fun row => length row.1 = N.to_nat column_count) history ->
  mapM (fit_line column_count) lines = Some lines.
Proof.
  induction 1 as [|row s history lines Hs _ IH]; [done|]. rewrite Forall_cons. intros [Hr H].
  destruct (line_shape _ _ Hs) as [t Ht]. assert (fit_line column_count s = Some s) as E.
  { unfold fit_line. rewrite Ht. cbn [mbind option_bind shape_column_count]. by rewrite Hr, N2Nat.id, N.eqb_refl. }
  cbn [mapM]. rewrite E. cbn [mbind option_bind]. by rewrite IH.
Qed.

(** ** Claims *)

Lemma keeps_newest_last max_lines max_bytes lines row dropped kept :
  keeps_newest max_lines max_bytes (lines ++ [row]) dropped kept -> (1 <= max_lines)%nat ->
  last kept = Some row.
Proof.
  intros [Hs _ Hl] H. specialize (Hl lines [row] eq_refl).
  assert (lines_fit max_lines max_bytes [row]) as Hf by (split; simpl; lia). specialize (Hl Hf). simpl in Hl.
  destruct kept as [|x kept] using rev_ind; [simpl in Hl; lia|]. rewrite app_assoc in Hs.
  apply app_inj_tail in Hs as [_ ->]. apply last_snoc.
Qed.

(** C36: A push appends the row and drops the oldest rows, in order, down to the
    longest tail under both caps; the byte total is that of the rows kept, the
    count of pushed rows grows by one, and with a line cap of one or more the
    new row is kept however large it is. *)
Theorem history_keeps_newest_lines row sb :
  scrollback_ok sb -> total_pushed_line_count sb + 1 < U64_MODULUS ->
  exists evicted sb', push_row_with_evicted row sb = Some (evicted, sb')
    /\ keeps_newest (maximum_line_count sb) (maximum_byte_count sb) (retained_lines sb ++ [row]) evicted
         (retained_lines sb')
    /\ scrollback_ok sb' /\ total_pushed_line_count sb' = total_pushed_line_count sb + 1
    /\ ((1 <= maximum_line_count sb)%nat -> last (retained_lines sb') = Some row).
Proof.
  intros Hok Ht. rewrite (push_with_lines row sb (sb_bytes _ Hok)), u64_add_ok by done. cbn [mbind option_bind].
  destruct (evict_oldest_ok (retained_lines sb ++ [row]) (total_pushed_line_count sb + 1) sb)
    as (d & k & -> & Hk & Hok').
  eexists _, _. split_and!; [done|done|done|done|]. by apply (keeps_newest_last _ _ _ _ _ _ Hk).
Qed.

(** A row with [n] text bytes. *)
Definition example_line (n : nat) : RowSnapshot := MkRowSnapshot [] default_metadata n [] None.

(** Three rows at most and ten bytes. *)
Definition example_history : Scrollback :=
  MkScrollback [example_line 4; example_line 2; example_line 3] 3 10 9 3.

Lemma history_keeps_newest_lines_witness :
  exists sb', push_row_with_evicted (example_line 6) example_history = Some ([example_line 4; example_line 2], sb')
    /\ retained_lines sb' = [example_line 3; example_line 6] /\ last (retained_lines sb') = Some (example_line 6).
Proof.
  destruct (history_keeps_newest_lines (example_line 6) example_history)
    as (evicted & sb' & E & _ & _ & _ & Hlast).
  - split; [done|split; [simpl; lia|left; vm_compute; lia]].
  - done.
  - assert (E' := E). vm_compute in E'. injection E' as <- <-. eexists. split; [exact E|]. split; [done|].
    apply Hlast. simpl. lia.
Defined.

(** Dropping the oldest row before a push, to reuse its bytes, is unseen:
    the push then leaves the buffer it leaves without that, and the same rows
    were dropped in the same order. *)
Theorem evicting_early_is_unseen row sb :
  scrollback_ok sb -> total_pushed_line_count sb + 1 < U64_MODULUS ->
  exists evicted sb' evicted' sb'',
    evict_oldest_line_for_next_push sb = Some (evicted, sb')
    /\ push_row_with_evicted row sb' = Some (evicted', sb'')
    /\ push_row_with_evicted row sb = Some (evicted ++ evicted', sb'').
Proof.
  intros Hok Ht. destruct (evict_early_ok row sb Hok Ht) as (e & sb' & e' & sb'' & H1 & _ & H2 & H3). eauto 10.
Qed.

Lemma evicting_early_is_unseen_witness :
  exists evicted sb' evicted' sb'',
    evict_oldest_line_for_next_push example_history = Some (evicted, sb')
    /\ push_row_with_evicted (example_line 6) sb' = Some (evicted', sb'')
    /\ push_row_with_evicted (example_line 6) example_history = Some (evicted ++ evicted', sb'').
Proof. apply evicting_early_is_unseen; [split; [done|split; [simpl; lia|left; vm_compute; lia]]|done]. Defined.

(** No operation on a history panics while its count of pushed rows fits a
    [u64], and each keeps the byte total equal to the text of the rows held and
    the line cap satisfied; the count of pushed rows grows by exactly the rows
    the operation counts as pushed, and never shrinks. *)
Theorem history_stays_counted e sb :
  history_counted sb -> scrollback_edit_ok e ->
  (forall sb', total_pushed_line_count sb + pushed_by e sb' < U64_MODULUS) ->
  exists dropped sb', scrollback_edit e sb = Some (dropped, sb') /\ history_counted sb'
    /\ total_pushed_line_count sb' = total_pushed_line_count sb + pushed_by e sb'.
Proof.
  intros H He Ht. destruct (scrollback_edit_counts e sb H He Ht) as (d & sb' & ? & ? & _ & _ & ?). eauto 10.
Qed.

Lemma history_stays_counted_witness :
  exists dropped sb', scrollback_edit (FitLines 7) (from_scrollback_limit default_scrollback_limit)
    = Some (dropped, sb') /\ history_counted sb' /\ total_pushed_line_count sb' = 0.
Proof.
  apply (history_stays_counted (FitLines 7) (from_scrollback_limit default_scrollback_limit)).
  - split; [constructor|done|apply Nat.le_0_l].
  - done.
  - intros sb'. done.
Defined.

(** Fitting a history to a width leaves every line at exactly that width,
    padded with default blanks or cut with a split wide glyph blanked, its
    metadata kept and the byte total recounted; a line of that width is
    untouched, and fitting again changes nothing. *)
Theorem history_fits_the_width column_count history sb :
  Forall2 line_holds history (retained_lines sb) -> column_count <= U16_MAX ->
  exists sb', fit_lines_to_column_count column_count sb = Some sb'
    /\ Forall2 line_holds (fitted column_count <$> history) (retained_lines sb')
    /\ Forall (fun row => length row.1 = N.to_nat column_count) (fitted column_count <$> history)
    /\ retained_byte_count sb' = compute_retained_byte_count (retained_lines sb')
    /\ has_only_lines_of_column_count column_count sb' = Some true
    /\ has_only_lines_of_column_count column_count sb
       = Some (forallb (fun row : list Cell * RowMetadata => length row.1 =? N.to_nat column_count)%nat history)
    /\ fit_lines_to_column_count column_count sb' = Some sb'.
Proof.
  intros H Hc. unfold fit_lines_to_column_count.
  destruct (fit_lines_ok column_count history (retained_lines sb) H Hc) as (lines & -> & H2 & H3).
  cbn [mbind option_bind]. eexists. split; [done|]. cbn [retained_lines retained_byte_count].
  split_and!; [done|done|done| | |].
  - transitivity (has_only_lines_of_column_count column_count (MkScrollback lines 0 0 0 0)); [done|].
    rewrite (only_lines_ok column_count _ _ H2 Hc). f_equal.
    apply forallb_forall. intros row Hr. rewrite Forall_forall in H3. by apply Nat.eqb_eq, H3, list_elem_of_In.
  - by rewrite <- (only_lines_ok column_count _ _ H Hc).
  - by rewrite (fit_lines_same _ _ _ H2 H3).
Qed.

Lemma history_fits_the_width_witness :
  exists s, from_row_cells example_image_row (MkRowMetadata Hard true) = Some s
    /\ exists sb', fit_lines_to_column_count 5 (MkScrollback [s] 3 10 2 1) = Some sb'
       /\ has_only_lines_of_column_count 5 sb' = Some true
       /\ fit_lines_to_column_count 5 sb' = Some sb'.
Proof.
  destruct example_image_row_wf as [Hwf Hcan].
  destruct (from_row_cells_ok example_image_row (MkRowMetadata Hard true) Hwf Hcan) as (s & Hs & Hline); [done|].
  exists s. split; [exact Hs|].
  destruct (history_fits_the_width 5 [(example_image_row, MkRowMetadata Hard true)] (MkScrollback [s] 3 10 2 1))
    as (sb' & H1 & _ & _ & _ & H2 & _ & H3); [by constructor|done|by exists sb'].
Defined.
