(* ===== verification/Reflow.v ===== *)
(** * Resize reflow of the primary screen
    ([crates/koshi-terminal/src/state/reflow.rs])

    A resize unwinds history and screen into logical lines by the row ends,
    wraps every line to the new width and splits the rows into history and
    screen again. [None] is a panic. The two buffers that [ReflowOutput] keeps
    to reuse an allocation, [row_spans] and [spacer_row_cells], are emptied
    before each use and are values of the step that fills them. *)

From S2P Require Import Prelude Varint Style Cell RowEncoder RowDecoder Snapshot Grid Scrollback.
From stdpp Require Import options.
#[local] Open Scope N_scope.

(** ** Data *)

Record LogicalLine := MkLogicalLine { line_cells : list Cell; prompt_cell_offsets : list nat }.

Record RewrappedRowSpan := MkRewrappedRowSpan
  { first_cell_index : nat; end_cell_index : nat; span_metadata : RowMetadata }.

Definition count_content_cells (span : RewrappedRowSpan) : nat :=
  (end_cell_index span - first_cell_index span)%nat.

Definition count_row_cells (span : RewrappedRowSpan) : nat :=
  match row_end (span_metadata span) with
  | SoftWide => count_content_cells span + 1
  | Soft | Hard => count_content_cells span
  end.

Record RewrappedRow := MkRewrappedRow { rewrapped_snapshot : RowSnapshot; row_cell_count : nat }.

Record SourceRow := MkSourceRow
  { logical_line_index : nat;
    start_content_cell_offset : nat;
    contributed_cell_count : nat;
    source_row_end : RowEnd }.

Record RewrappedLineShape := MkRewrappedLineShape
  { first_rewrapped_row_index : nat; shape_row_count : nat }.

Record ReflowOutput := MkReflowOutput
  { output_column_count : N;
    background_style : Style;
    rewrapped_rows : list RewrappedRow;
    rewrapped_line_shapes : list RewrappedLineShape;
    rewrapped_row_content_cell_counts : list nat;
    source_rows : list SourceRow;
    new_cursor_physical_row_index : nat;
    new_cursor_column_index : nat }.

Inductive PhysicalRow :=
  | History (row_snapshot : RowSnapshot)
  | Screen (row_cells : list Cell) (metadata : RowMetadata).

(** The fields of [TerminalState] that the reflow reads and writes. *)
Record PrimaryScreen := MkPrimaryScreen
  { primary : Grid;
    scrollback : Scrollback;
    primary_cursor_row : N;
    primary_cursor_column : N }.

(** ** One line *)

(** [RewrappedRow::from_leading_cells]. *)
Definition from_leading_cells (leading_cells : list Cell) (row_cell_count : nat) (metadata : RowMetadata)
    (column_count : N) : option RewrappedRow :=
  let encoded_column_count := N.max column_count (N.of_nat row_cell_count) in
  encoded_column_count ← u16_try_from encoded_column_count;
  row_snapshot ← from_padded_row_cells leading_cells encoded_column_count None metadata;
  Some (MkRewrappedRow row_snapshot row_cell_count).

Definition rewrapped_decode_row_cells (row : RewrappedRow) : option (list Cell) :=
  row_cells ← snapshot_decode_row_cells (rewrapped_snapshot row);
  Some (take (row_cell_count row) row_cells).

Definition rebuild_cell_with_width (terminal_cell : Cell) (cell_width : N) : Cell :=
  foldl (fun c mark => push_combining mark c)
    (from_character (character terminal_cell) cell_width (cell_style terminal_cell))
    (list_combining_characters terminal_cell).

(** The closure of [retain_mut], with the flag it carries. *)
Fixpoint narrow_cells (follows_wide_glyph : bool) (cells : list Cell) : list Cell :=
  match cells with
  | [] => []
  | line_cell :: cells =>
      let is_wide_glyph_continuation := follows_wide_glyph && (display_width line_cell =? 0) in
      let follows_wide_glyph := negb is_wide_glyph_continuation && (display_width line_cell =? 2) in
      let line_cell := if follows_wide_glyph then rebuild_cell_with_width line_cell 1 else line_cell in
      if is_wide_glyph_continuation then narrow_cells follows_wide_glyph cells
      else line_cell :: narrow_cells follows_wide_glyph cells
  end.

Definition narrow_wide_glyphs (cells : list Cell) : list Cell := narrow_cells false cells.

(** A row of the line's cells [first..last]. *)
Definition span (first last : nat) (e : RowEnd) : RewrappedRowSpan :=
  MkRewrappedRowSpan first last (MkRowMetadata e false).

(** The body of the loop over the cells. *)
Definition span_step (column_count : nat) (acc : nat * list RewrappedRowSpan) (cell : nat * Cell)
    : nat * list RewrappedRowSpan :=
  let '(first_cell_index, row_spans) := acc in
  let '(cell_index, line_cell) := cell in
  let '(first_cell_index, row_spans) :=
    if (cell_index - first_cell_index =? column_count)%nat
    then (cell_index, row_spans ++ [span first_cell_index cell_index Soft])
    else (first_cell_index, row_spans) in
  if (display_width line_cell =? 2) && (cell_index - first_cell_index + 1 =? column_count)%nat
  then (cell_index, row_spans ++ [span first_cell_index cell_index SoftWide])
  else (first_cell_index, row_spans).

Definition compute_rewrapped_row_spans (line_cells : list Cell) (column_count : N)
    : list RewrappedRowSpan :=
  let column_count := N.to_nat (N.max column_count 1) in
  let cells_to_scan := if (length line_cells <? column_count)%nat then [] else line_cells in
  let '(first_cell_index, row_spans) := foldl (span_step column_count) (0%nat, []) (enumerate cells_to_scan) in
  row_spans ++ [span first_cell_index (length line_cells) Hard].

(** The loop, from the row [row_index] on. *)
Fixpoint locate_from (row_index : nat) (row_content_cell_counts : list nat)
    (remaining_content_cell_offset : nat) : nat * nat :=
  match row_content_cell_counts with
  | [] => (0, 0)%nat
  | row_content_cell_count :: counts =>
      if (remaining_content_cell_offset <? row_content_cell_count)%nat || bool_decide (counts = [])
      then (row_index, remaining_content_cell_offset)
      else locate_from (S row_index) counts (remaining_content_cell_offset - row_content_cell_count)
  end.

Definition locate_content_cell_offset (row_content_cell_counts : list nat) (content_cell_offset : nat)
    : nat * nat :=
  locate_from 0 row_content_cell_counts content_cell_offset.

Example offset_9 : locate_content_cell_offset [4; 4; 2]%nat 9 = (2, 1)%nat.
Proof. reflexivity. Qed.
Example offset_11 : locate_content_cell_offset [4; 4; 2]%nat 11 = (2, 3)%nat.
Proof. reflexivity. Qed.

(** ** The output *)

Definition from_column_count (column_count : N) (background_style : Style) : ReflowOutput :=
  MkReflowOutput column_count background_style [] [] [] [] 0 0.

(** The prompt mark set on the row the offset lands in. *)
Definition mark_prompt_row (counts : list nat) (row_spans : option (list RewrappedRowSpan))
    (prompt_cell_offset : nat) : option (list RewrappedRowSpan) :=
  row_spans ← row_spans;
  let row_index := (locate_content_cell_offset counts prompt_cell_offset).1 in
  s ← row_spans !! row_index;
  Some (<[row_index := MkRewrappedRowSpan (first_cell_index s) (end_cell_index s)
                         (MkRowMetadata (row_end (span_metadata s)) true)]> row_spans).

(** The body of the loop that encodes the rows. *)
Definition encode_span (output : ReflowOutput) (cells : list Cell) (s : RewrappedRowSpan)
    : option RewrappedRow :=
  let span_cells := slice (first_cell_index s) (end_cell_index s) cells in
  let has_styled_spacer :=
    bool_decide (row_end (span_metadata s) = SoftWide) &&
    bool_decide (background_style output <> default_style) in
  let leading_cells :=
    if has_styled_spacer then span_cells ++ [build_blank_with_style (background_style output)]
    else span_cells in
  from_leading_cells leading_cells (count_row_cells s) (span_metadata s) (output_column_count output).

Definition push_logical_line (line : LogicalLine) (cursor_content_cell_offset : option nat)
    (output : ReflowOutput) : option ReflowOutput :=
  let cells :=
    if output_column_count output <=? 1 then narrow_wide_glyphs (line_cells line) else line_cells line in
  let start := length (rewrapped_rows output) in
  let row_spans := compute_rewrapped_row_spans cells (output_column_count output) in
  let counts := count_content_cells <$> row_spans in
  let '(cursor_row, cursor_column) :=
    match cursor_content_cell_offset with
    | Some offset =>
        let '(row_index, column_index) := locate_content_cell_offset counts offset in
        ((start + row_index)%nat, column_index)
    | None => (new_cursor_physical_row_index output, new_cursor_column_index output)
    end in
  marked_spans ← foldl (mark_prompt_row counts) (Some row_spans) (prompt_cell_offsets line);
  rows ← mapM (encode_span output cells) marked_spans;
  Some (MkReflowOutput (output_column_count output) (background_style output)
    (rewrapped_rows output ++ rows)
    (rewrapped_line_shapes output ++ [MkRewrappedLineShape start (length row_spans)])
    (rewrapped_row_content_cell_counts output ++ counts)
    (source_rows output) cursor_row cursor_column).

Definition push_source_row (row : SourceRow) (output : ReflowOutput) : ReflowOutput :=
  MkReflowOutput (output_column_count output) (background_style output) (rewrapped_rows output)
    (rewrapped_line_shapes output) (rewrapped_row_content_cell_counts output)
    (source_rows output ++ [row]) (new_cursor_physical_row_index output) (new_cursor_column_index output).

Definition push_repadded_line (row : RepaddedRow) (output : ReflowOutput) : ReflowOutput :=
  let run_cell_count := N.to_nat (run_cell_count row) in
  MkReflowOutput (output_column_count output) (background_style output)
    (rewrapped_rows output ++ [MkRewrappedRow (row_snapshot row) run_cell_count])
    (rewrapped_line_shapes output ++ [MkRewrappedLineShape (length (rewrapped_rows output)) 1])
    (rewrapped_row_content_cell_counts output ++ [run_cell_count])
    (source_rows output) (new_cursor_physical_row_index output) (new_cursor_column_index output).

(** ** The re-wrap *)

(** A physical row read into the line: the output, the line and where the
    cursor is in it. *)
Definition rewrap_row (column_count : N) (cursor_physical_row_index cursor_column_index : nat)
    (state : ReflowOutput * LogicalLine * option nat) (row : nat * PhysicalRow)
    : option (ReflowOutput * LogicalLine * option nat) :=
  let '(output, line, cursor) := state in
  let '(physical_row_index, physical_row) := row in
  repadded_row ←
    match physical_row with
    | History row_snapshot =>
        let is_line_start :=
          bool_decide (line_cells line = []) && bool_decide (prompt_cell_offsets line = []) in
        if is_line_start && (1 <? column_count) then repad_hard_row row_snapshot column_count else Some None
    | Screen _ _ => Some None
    end;
  match repadded_row with
  | Some repadded_row =>
      let source_row :=
        MkSourceRow (length (rewrapped_line_shapes output)) 0 (N.to_nat (run_cell_count repadded_row)) Hard in
      Some (push_repadded_line repadded_row (push_source_row source_row output), line, cursor)
  | None =>
      let row_start_cell_offset := length (line_cells line) in
      '(metadata, cells) ←
        match physical_row with
        | History row_snapshot =>
            let metadata := snapshot_metadata row_snapshot in
            '(shape, cells) ← snapshot_decode_row_run_cells_into row_snapshot (line_cells line);
            Some (metadata,
              if bool_decide (row_end metadata = Hard) then cells
              else resize_with (row_start_cell_offset + N.to_nat (shape_column_count shape)) build_blank cells)
        | Screen row_cells metadata => Some (metadata, line_cells line ++ row_cells)
        end;
      let row_cells := drop row_start_cell_offset cells in
      let content_cell_count :=
        match row_end metadata with
        | Soft => length row_cells
        | SoftWide => (length row_cells - 1)%nat
        | Hard => count_row_content_cells row_cells
        end in
      let output :=
        push_source_row (MkSourceRow (length (rewrapped_line_shapes output)) row_start_cell_offset
          content_cell_count (row_end metadata)) output in
      let line :=
        MkLogicalLine (take (row_start_cell_offset + content_cell_count) cells)
          (prompt_cell_offsets line ++ if has_prompt_mark metadata then [row_start_cell_offset] else []) in
      let cursor :=
        if (physical_row_index =? cursor_physical_row_index)%nat
        then Some (row_start_cell_offset
                   + if bool_decide (row_end metadata = Hard) then cursor_column_index
                     else cursor_column_index `min` content_cell_count)%nat
        else cursor in
      if bool_decide (row_end metadata = Hard)
      then output ← push_logical_line line cursor output; Some (output, MkLogicalLine [] [], None)
      else Some (output, line, cursor)
  end.

(** The rows of the screen with their metadata, read by index as a [u16]. *)
Definition list_screen_rows (grid : Grid) : list (list Cell * RowMetadata) :=
  imap (fun row_index row_cells => (row_cells, get_row_metadata (usize_as_u16 row_index) grid))
    (grid_list_row_cells grid).

Definition rewrap_primary_rows (column_count : N) (background_style : Style) (screen : PrimaryScreen)
    : option (ReflowOutput * Scrollback) :=
  let '(history_lines, scrollback) := take_retained_lines (scrollback screen) in
  let physical_rows :=
    (History <$> history_lines) ++ ((fun row => Screen row.1 row.2) <$> list_screen_rows (primary screen)) in
  let cursor_physical_row_index := (length history_lines + N.to_nat (primary_cursor_row screen))%nat in
  '(output, line, cursor) ←
    try_for (rewrap_row column_count cursor_physical_row_index (N.to_nat (primary_cursor_column screen)))
      (enumerate physical_rows) (from_column_count column_count background_style, MkLogicalLine [] [], None);
  output ←
    (if bool_decide (line_cells line <> []) || bool_decide (prompt_cell_offsets line <> [])
     then push_logical_line line cursor output else Some output);
  Some (output, scrollback).

(** ** Rows kept as they are *)

Record KeptRowReflow := MkKeptRowReflow
  { reflow_output : ReflowOutput;
    current_line_first_row_index : nat;
    current_line_cell_count : nat;
    previous_row_end : RowEnd }.

(** The row's cell count; no value where a re-wrap changes the row. *)
Definition push_kept_row (metadata : RowMetadata) (content_cell_count : nat)
    (has_leading_wide_glyph has_trailing_spacer : bool) (kept : KeptRowReflow)
    : option (nat * KeptRowReflow) :=
  let output := reflow_output kept in
  let column_cell_count := N.to_nat (output_column_count output) in
  let '(row_cell_count, contributed_cell_count) :=
    match row_end metadata with
    | Hard => (content_cell_count, content_cell_count)
    | Soft => (column_cell_count, column_cell_count)
    | SoftWide => (column_cell_count, column_cell_count - 1)%nat
    end in
  let is_kept_after_previous_row :=
    match previous_row_end kept with
    | Hard => true
    | Soft => (0 <? contributed_cell_count)%nat
    | SoftWide => has_leading_wide_glyph
    end in
  if negb is_kept_after_previous_row
     || (bool_decide (row_end metadata = SoftWide) && negb has_trailing_spacer)
  then None
  else
    let output :=
      push_source_row (MkSourceRow (length (rewrapped_line_shapes output)) (current_line_cell_count kept)
        contributed_cell_count (row_end metadata)) output in
    let current_line_cell_count := (current_line_cell_count kept + contributed_cell_count)%nat in
    let counts := rewrapped_row_content_cell_counts output ++ [contributed_cell_count] in
    let '(shapes, first_row_index, cell_count) :=
      if bool_decide (row_end metadata = Hard) then
        let row_index_after_line := length (source_rows output) in
        (rewrapped_line_shapes output
           ++ [MkRewrappedLineShape (current_line_first_row_index kept)
                 (row_index_after_line - current_line_first_row_index kept)],
         row_index_after_line, 0%nat)
      else (rewrapped_line_shapes output, current_line_first_row_index kept, current_line_cell_count) in
    Some (row_cell_count,
      MkKeptRowReflow
        (MkReflowOutput (output_column_count output) (background_style output) (rewrapped_rows output)
           shapes counts (source_rows output) (new_cursor_physical_row_index output)
           (new_cursor_column_index output))
        first_row_index cell_count (row_end metadata)).

Definition is_wide_glyph_first (row_cells : list Cell) : bool :=
  match head row_cells with Some row_cell => display_width row_cell =? 2 | None => false end.

Definition push_rewrapped_row (row : RewrappedRow) (kept : KeptRowReflow) : KeptRowReflow :=
  let output := reflow_output kept in
  MkKeptRowReflow
    (MkReflowOutput (output_column_count output) (background_style output) (rewrapped_rows output ++ [row])
       (rewrapped_line_shapes output) (rewrapped_row_content_cell_counts output) (source_rows output)
       (new_cursor_physical_row_index output) (new_cursor_column_index output))
    (current_line_first_row_index kept) (current_line_cell_count kept) (previous_row_end kept).

Definition set_new_cursor (row_index column_index : nat) (kept : KeptRowReflow) : KeptRowReflow :=
  let output := reflow_output kept in
  MkKeptRowReflow
    (MkReflowOutput (output_column_count output) (background_style output) (rewrapped_rows output)
       (rewrapped_line_shapes output) (rewrapped_row_content_cell_counts output) (source_rows output)
       row_index column_index)
    (current_line_first_row_index kept) (current_line_cell_count kept) (previous_row_end kept).

(** The loop over the history. The inner [None] is the method's. *)
Fixpoint keep_history_lines (column_count : N) (spacer_cell : Cell) (history_lines : list RowSnapshot)
    (kept : KeptRowReflow) : option (option KeptRowReflow) :=
  match history_lines with
  | [] => Some (Some kept)
  | history_line :: history_lines =>
      let metadata := snapshot_metadata history_line in
      shape ← get_encoded_row_shape history_line;
      row_cells ←
        (if bool_decide (previous_row_end kept = SoftWide) || bool_decide (row_end metadata = SoftWide)
         then snapshot_decode_row_cells history_line else Some []);
      let content_cell_count := N.to_nat (u16_sub column_count (shape_trailing_blank_count shape)) in
      match push_kept_row metadata content_cell_count (is_wide_glyph_first row_cells)
              (bool_decide (last row_cells = Some spacer_cell)) kept with
      | None => Some None
      | Some (row_cell_count, kept) =>
          keep_history_lines column_count spacer_cell history_lines
            (push_rewrapped_row (MkRewrappedRow history_line row_cell_count) kept)
      end
  end.

(** The loop over the screen. *)
Fixpoint keep_screen_rows (column_count : N) (spacer_cell : Cell)
    (cursor_physical_row_index cursor_column_index : nat)
    (screen_rows : list (list Cell * RowMetadata)) (kept : KeptRowReflow) : option (option KeptRowReflow) :=
  match screen_rows with
  | [] => Some (Some kept)
  | (row_cells, metadata) :: screen_rows =>
      let physical_row_index := length (rewrapped_rows (reflow_output kept)) in
      let is_cursor_row := (physical_row_index =? cursor_physical_row_index)%nat in
      if is_cursor_row && bool_decide (row_end metadata = SoftWide)
         && (N.to_nat column_count <=? cursor_column_index + 1)%nat
      then Some None
      else
        let kept :=
          if is_cursor_row then set_new_cursor physical_row_index cursor_column_index kept else kept in
        match push_kept_row metadata (count_row_content_cells row_cells) (is_wide_glyph_first row_cells)
                (bool_decide (last row_cells = Some spacer_cell)) kept with
        | None => Some None
        | Some (row_cell_count, kept) =>
            row ← from_leading_cells row_cells row_cell_count metadata column_count;
            keep_screen_rows column_count spacer_cell cursor_physical_row_index cursor_column_index
              screen_rows (push_rewrapped_row row kept)
        end
  end.

Definition keep_primary_rows (column_count : N) (background_style : Style) (screen : PrimaryScreen)
    : option (option ReflowOutput) :=
  let '(screen_row_count, screen_column_count) := get_grid_dimensions (primary screen) in
  if (column_count <? 2) || negb (column_count =? screen_column_count) || (screen_row_count =? 0)
  then Some None
  else
    let spacer_cell := build_blank_with_style background_style in
    let history_lines := retained_lines (scrollback screen) in
    let cursor_physical_row_index := (length history_lines + N.to_nat (primary_cursor_row screen))%nat in
    kept ← keep_history_lines column_count spacer_cell history_lines
             (MkKeptRowReflow (from_column_count column_count background_style) 0 0 Hard);
    match kept with
    | None => Some None
    | Some kept =>
        kept ← keep_screen_rows column_count spacer_cell cursor_physical_row_index
                 (N.to_nat (primary_cursor_column screen)) (list_screen_rows (primary screen)) kept;
        match kept with
        | Some kept =>
            if bool_decide (previous_row_end kept = Hard) then Some (Some (reflow_output kept)) else Some None
        | None => Some None
        end
    end.

(** ** The new screen *)

(** Whether the loop that drops rows drops this one. *)
Definition is_dropped_row (row : RewrappedRow) : option bool :=
  let metadata := snapshot_metadata (rewrapped_snapshot row) in
  if bool_decide (row_end metadata = Hard) && negb (has_prompt_mark metadata)
  then row_cells ← rewrapped_decode_row_cells row; Some (count_row_content_cells row_cells =? 0)%nat
  else Some false.

(** The loop, on the rows from the last one up. *)
Fixpoint drop_blank_rows (row_count cursor_row_index : nat) (rows_from_last : list RewrappedRow)
    : option (list RewrappedRow) :=
  match rows_from_last with
  | [] => Some []
  | row :: rows =>
      if (row_count <? length rows_from_last)%nat && (cursor_row_index + 1 <? length rows_from_last)%nat then
        is_dropped ← is_dropped_row row;
        if is_dropped : bool then drop_blank_rows row_count cursor_row_index rows else Some rows_from_last
      else Some rows_from_last
  end.

(** The split of the rows into history and screen, and the cursor. *)
Definition apply_reflow_output (column_count row_count : N) (output : ReflowOutput)
    (old_retained_history_row_count : nat) (screen : PrimaryScreen) : option PrimaryScreen :=
  rows ←
    (if bool_decide (rewrapped_rows output = []) && (0 <? row_count)
     then row ← from_leading_cells [] 0 default_metadata column_count; Some [row]
     else Some (rewrapped_rows output));
  kept_rows ← drop_blank_rows (N.to_nat row_count) (new_cursor_physical_row_index output) (reverse rows);
  let rows := reverse kept_rows in
  let overflow_row_count := (length rows - N.to_nat row_count)%nat in
  scrollback ← replace_retained_lines (rewrapped_snapshot <$> take overflow_row_count rows)
                 (N.of_nat old_retained_history_row_count) (scrollback screen);
  screen_rows ← mapM (fun row =>
    row_cells ← rewrapped_decode_row_cells row; Some (row_cells, snapshot_metadata (rewrapped_snapshot row)))
    (drop overflow_row_count rows);
  let blank_row :=
    (replicate (N.to_nat column_count) (build_blank_with_style (background_style output)), default_metadata) in
  let screen_rows := screen_rows ++ replicate (N.to_nat row_count - length screen_rows) blank_row in
  Some (MkPrimaryScreen
    (from_rows_with_metadata screen_rows column_count (background_style output)) scrollback
    (usize_as_u16 ((new_cursor_physical_row_index output - overflow_row_count)
                   `min` (N.to_nat row_count - 1))%nat)
    (usize_as_u16 (new_cursor_column_index output `min` (N.to_nat column_count - 1))%nat)).

Definition reflow_primary (column_count row_count : N) (background_style : Style) (screen : PrimaryScreen)
    : option PrimaryScreen :=
  let old_retained_history_row_count := length (retained_lines (scrollback screen)) in
  kept ← keep_primary_rows column_count background_style screen;
  '(output, scrollback) ←
    match kept with
    | Some output => Some (output, scrollback screen)
    | None => rewrap_primary_rows column_count background_style screen
    end;
  apply_reflow_output column_count row_count output old_retained_history_row_count
    (MkPrimaryScreen (primary screen) scrollback (primary_cursor_row screen) (primary_cursor_column screen)).

(** Where an image cell of the old screen and history is after the reflow: its
    absolute row and column, or nothing once its row is gone.
    [retained_count] and [total] are the history's after the reflow. *)
Definition map_primary_image_position (row_count : N) (output : ReflowOutput)
    (old_total_pushed_row_count : N) (old_retained_history_row_count overflow_row_count retained_count : nat)
    (total old_absolute_row old_column_index : N) : option (N * N) :=
  let old_history_first_row := old_total_pushed_row_count - N.of_nat old_retained_history_row_count in
  old_physical_row_index ←
    (if old_absolute_row <? old_total_pushed_row_count then
       if old_history_first_row <=? old_absolute_row
       then Some (N.to_nat (old_absolute_row - old_history_first_row)) else None
     else Some (old_retained_history_row_count
                + N.to_nat (old_absolute_row - old_total_pushed_row_count))%nat);
  source_row ← source_rows output !! old_physical_row_index;
  shape ← rewrapped_line_shapes output !! logical_line_index source_row;
  let old_column := N.to_nat old_column_index in
  let is_hard := bool_decide (source_row_end source_row = Hard) in
  let offset :=
    (start_content_cell_offset source_row
     + if is_hard then old_column else old_column `min` contributed_cell_count source_row)%nat in
  let first := first_rewrapped_row_index shape in
  if (first + shape_row_count shape <=? length (rewrapped_row_content_cell_counts output))%nat then
    let '(row_index, column_index) :=
      locate_content_cell_offset
        (slice first (first + shape_row_count shape) (rewrapped_row_content_cell_counts output)) offset in
    let column_index :=
      if is_hard && (contributed_cell_count source_row <=? old_column)%nat then old_column else column_index in
    let new_row := (first + row_index)%nat in
    if (overflow_row_count + N.to_nat row_count <=? new_row)%nat then None
    else
      let retained_start := (overflow_row_count - retained_count)%nat in
      absolute_row ←
        (if (new_row <? overflow_row_count)%nat then
           if (new_row <? retained_start)%nat || (total <? N.of_nat retained_count) then None
           else Some (total - N.of_nat retained_count + N.of_nat (new_row - retained_start))
         else Some (total + N.of_nat (new_row - overflow_row_count)));
      column_index ← u16_try_from (N.of_nat column_index);
      Some (absolute_row, column_index)
  else None.
