(* ===== verification/ReflowPlain.v ===== *)
(** * How a logical line wraps, and the reflow on plain rows

    The rows a line wraps into, stated without the loop: the spans of
    [compute_rewrapped_row_spans] are the only ones that satisfy it. Then the
    re-wrap without encodings: lines of cells with the rows they wrap into.
    [rewrap_primary_rows] does exactly this to the cells its snapshots
    encode. *)

From S2P Require Import Prelude Varint Style Cell RowEncoder RowDecoder RowItems RowRoundTrip RowContract Snapshot.
From S2P Require Import Grid GridView Scrollback Reflow.
From stdpp Require Import options.
#[local] Open Scope N_scope.

(** ** Wrapped rows *)

Definition ends_wide (row : list Cell) : bool :=
  match last row with Some c => display_width c =? 2 | None => false end.

(** Content cells with the row ends: full rows, short rows where a wide glyph
    did not fit, and the last one. *)
Inductive wrapped (column_count : nat) : list (list Cell * RowEnd) -> Prop :=
  | wrapped_hard row :
      (length row <= column_count)%nat -> (length row = column_count -> ends_wide row = false) ->
      wrapped column_count [(row, Hard)]
  | wrapped_soft row rows :
      length row = column_count -> ends_wide row = false -> mjoin rows.*1 <> [] ->
      wrapped column_count rows -> wrapped column_count ((row, Soft) :: rows)
  | wrapped_wide row rows :
      S (length row) = column_count -> is_wide_glyph_first (mjoin rows.*1) = true ->
      wrapped column_count rows -> wrapped column_count ((row, SoftWide) :: rows).

(** The spans of the rows, one after the other. *)
Fixpoint spans_of (first : nat) (rows : list (list Cell * RowEnd)) : list RewrappedRowSpan :=
  match rows with
  | [] => []
  | (row, e) :: rows => span first (first + length row) e :: spans_of (first + length row) rows
  end.

Definition no_wide (cells : list Cell) : Prop := Forall (fun c => display_width c <> 2) cells.

Lemma ends_wide_snoc row c : ends_wide (row ++ [c]) = (display_width c =? 2).
Proof. unfold ends_wide. by rewrite last_snoc. Qed.

Lemma row_cells_cons (row : list Cell) (e : RowEnd) rows :
  mjoin ((row, e) :: rows).*1 = row ++ mjoin rows.*1.
Proof. done. Qed.

Lemma scan_wraps column_count rest first cur spans :
  (1 <= column_count)%nat -> (column_count = 1%nat -> no_wide (cur ++ rest)) ->
  (length cur <= column_count)%nat -> (length cur = column_count -> ends_wide cur = false) ->
  let '(f, spans') :=
    foldl (span_step column_count) (first, spans) (imap (fun i c => (first + length cur + i, c)%nat) rest) in
  exists rows, wrapped column_count rows /\ mjoin rows.*1 = cur ++ rest
    /\ spans' ++ [span f (first + length cur + length rest) Hard] = spans ++ spans_of first rows.
Proof.
  intros Hcc. revert first cur spans. induction rest as [|c rest IH]; intros first cur spans H1 Hl He.
  { exists [(cur, Hard)]. cbn. rewrite !app_nil_r, Nat.add_0_r. split; [by constructor|done]. }
  cbn [imap foldl]. unfold span_step at 2. rewrite Nat.add_0_r.
  replace (first + length cur - first)%nat with (length cur) by lia.
  assert (forall first' (cur' : list Cell), (first' + length cur' = first + length cur + 1)%nat ->
    imap ((fun i c => (first + length cur + i, c)%nat) ∘ S) rest
    = imap (fun i c => (first' + length cur' + i, c)%nat) rest) as Hshift.
  { intros first' cur' E. apply imap_ext. intros i x _. simpl. f_equal. lia. }
  assert (column_count = 1%nat -> display_width c <> 2) as Hc.
  { intros E. specialize (H1 E). unfold no_wide in H1. rewrite Forall_app, Forall_cons in H1.
    tauto. }
  assert (column_count = 1%nat -> no_wide ([c] ++ rest)) as Hrest.
  { intros E. specialize (H1 E). by apply Forall_app in H1 as [_ H1]. }
  destruct (length cur =? column_count)%nat eqn:Efull; bools.
  - assert ((display_width c =? 2) && (first + length cur - (first + length cur) + 1 =? column_count)%nat = false) as ->.
    { destruct (display_width c =? 2) eqn:Ew; [|done]. bools. apply Nat.eqb_neq. intros E. apply Hc; [lia|done]. }
    specialize (IH (first + length cur)%nat [c] (spans ++ [span first (first + length cur) Soft])).
    rewrite <- (Hshift (first + length cur)%nat [c]) in IH by done.
    destruct (foldl _ _ _) as [f spans'].
    destruct IH as (rows & Hr & Hj & Hs); [done|simpl; lia|intros; apply N.eqb_neq, Hc; simpl in *; lia|].
    exists ((cur, Soft) :: rows). split; [constructor; [done|by apply He|by rewrite Hj|done]|].
    split; [by rewrite row_cells_cons, Hj|]. cbn [spans_of]. rewrite <- app_assoc in Hs. cbn [app] in Hs.
    rewrite <- Hs. do 3 f_equal. simpl. lia.
  - replace (first + length cur - first + 1)%nat with (S (length cur)) by lia.
    destruct (_ && _) eqn:Ew; bools.
    + specialize (IH (first + length cur)%nat [c] (spans ++ [span first (first + length cur) SoftWide])).
      rewrite <- (Hshift (first + length cur)%nat [c]) in IH by done.
      destruct (foldl _ _ _) as [f spans'].
      destruct IH as (rows & Hr & Hj & Hs); [done|simpl; lia| |].
      { intros E. apply N.eqb_neq, Hc. simpl in E. lia. }
      exists ((cur, SoftWide) :: rows). split; [constructor; [done|rewrite Hj; by apply N.eqb_eq|done]|].
      split; [by rewrite row_cells_cons, Hj|]. cbn [spans_of]. rewrite <- app_assoc in Hs. cbn [app] in Hs.
      rewrite <- Hs. do 3 f_equal. simpl. lia.
    + specialize (IH first (cur ++ [c]) spans).
      rewrite <- (Hshift first (cur ++ [c])) in IH by (rewrite length_app; simpl; lia).
      destruct (foldl _ _ _) as [f spans'].
      destruct IH as (rows & Hr & Hj & Hs).
      * intros E. specialize (H1 E). by rewrite <- app_assoc.
      * rewrite length_app. simpl. lia.
      * rewrite length_app, ends_wide_snoc. simpl. intros E. destruct (display_width c =? 2); [|done]. destruct Ew; [done|]. bools. lia.
      * exists rows. split; [done|]. split; [by rewrite Hj, <- app_assoc|].
        rewrite <- Hs. do 3 f_equal. rewrite length_app. simpl. lia.
Qed.

(** The loop wraps the line. *)
Lemma compute_spans_wraps cells column_count :
  (column_count <= 1 -> no_wide cells) ->
  exists rows, wrapped (N.to_nat (N.max column_count 1)) rows /\ mjoin rows.*1 = cells
    /\ compute_rewrapped_row_spans cells column_count = spans_of 0 rows.
Proof.
  intros Hw. unfold compute_rewrapped_row_spans. cbv zeta. set (cc := N.to_nat (N.max column_count 1)).
  destruct (length cells <? cc)%nat eqn:El; bools.
  { exists [(cells, Hard)]. cbn. rewrite app_nil_r. split; [constructor; lia|done]. }
  pose proof (scan_wraps cc cells 0 [] []) as H. cbn [app length Nat.add] in H.
  change (imap (fun i c => (i, c)) cells) with (enumerate cells) in H.
  destruct (foldl _ _ _) as [f spans].
  destruct H as (rows & H1 & H2 & H3); [unfold cc; lia|intros; apply Hw; unfold cc in *; lia|lia|simpl; unfold cc; lia|].
  by exists rows.
Qed.

(** A full row that does not end in a wide glyph is no short row. *)
Lemma full_row_ends_wide column_count row rest row' rest' :
  row ++ rest = row' ++ rest' -> length row = column_count -> S (length row') = column_count ->
  is_wide_glyph_first rest' = true -> ends_wide row = true.
Proof.
  intros E Hl Hl' Hw. destruct rest' as [|c rest']; [done|].
  rewrite cons_middle, app_assoc in E. apply app_inj_1 in E as [-> _]; [by rewrite ends_wide_snoc|].
  rewrite length_app. simpl. lia.
Qed.

Lemma starts_wide_length cells : is_wide_glyph_first cells = true -> (0 < length cells)%nat.
Proof. destruct cells; simpl; [done|lia]. Qed.

Lemma wrapped_unique column_count rows rows' :
  wrapped column_count rows -> wrapped column_count rows' -> mjoin rows.*1 = mjoin rows'.*1 -> rows = rows'.
Proof.
  intros H. revert rows'. induction H as [row Hl He|row rows Hl He Hn H IH|row rows Hl Hw H IH]; intros rows' H' E;
    destruct H' as [row' Hl' He'|row' rs' Hl' He' Hn' Hr'|row' rs' Hl' Hw' Hr'];
    rewrite !row_cells_cons in E; pose proof (f_equal length E) as El; rewrite !length_app in El; simpl in El.
  - rewrite !app_nil_r in E. by subst.
  - destruct (mjoin rs'.*1); [done|]. simpl in El. lia.
  - pose proof (starts_wide_length _ Hw'). pose proof (full_row_ends_wide column_count _ _ _ _ E ltac:(lia) Hl' Hw').
    rewrite He in *; [done|lia].
  - destruct (mjoin rows.*1); [done|]. simpl in El. lia.
  - apply app_inj_1 in E as [-> E]; [|lia]. f_equal. by apply IH.
  - pose proof (full_row_ends_wide column_count _ _ _ _ E Hl Hl' Hw'). congruence.
  - pose proof (starts_wide_length _ Hw). pose proof (full_row_ends_wide column_count _ _ _ _ (eq_sym E) ltac:(lia) Hl Hw).
    rewrite He' in *; [done|lia].
  - pose proof (full_row_ends_wide column_count _ _ _ _ (eq_sym E) Hl' Hl Hw). congruence.
  - apply app_inj_1 in E as [-> E]; [|lia]. f_equal. by apply IH.
Qed.

(** The spans of a line are those of its only wrapping. *)
Lemma compute_spans_of_wrapped rows column_count :
  (column_count <= 1 -> no_wide (mjoin rows.*1)) -> wrapped (N.to_nat (N.max column_count 1)) rows ->
  compute_rewrapped_row_spans (mjoin rows.*1) column_count = spans_of 0 rows.
Proof.
  intros Hw H. destruct (compute_spans_wraps (mjoin rows.*1) column_count Hw) as (rows' & H' & E & ->).
  by rewrite (wrapped_unique _ _ _ H' H E).
Qed.

(** Narrowed lines hold no wide glyph. *)
Lemma rebuild_width c w : display_width (rebuild_cell_with_width c w) = w.
Proof.
  unfold rebuild_cell_with_width. generalize (list_combining_characters c). intros marks.
  assert (display_width (from_character (character c) w (cell_style c)) = w) as Hw by done.
  revert Hw. generalize (from_character (character c) w (cell_style c)).
  induction marks as [|m marks IH]; intros x Hx; [done|]. by apply IH.
Qed.

Lemma narrow_no_wide cells : no_wide (narrow_wide_glyphs cells).
Proof.
  unfold narrow_wide_glyphs. generalize false. induction cells as [|c cells IH]; intros b; [constructor|].
  cbn [narrow_cells]. destruct (b && (display_width c =? 0)); cbn [negb andb]; [apply IH|].
  constructor; [|apply IH]. destruct (display_width c =? 2) eqn:E; [by rewrite rebuild_width|by bools].
Qed.

Lemma spans_of_inj first rows rows' :
  spans_of first rows = spans_of first rows' -> mjoin rows.*1 = mjoin rows'.*1 -> rows = rows'.
Proof.
  revert first rows'. induction rows as [|[row e] rows IH]; intros first [|[row' e'] rows'] E Hj; try done.
  cbn [spans_of] in E. injection E as E1 E2 E3. rewrite !row_cells_cons in Hj.
  assert (length row = length row') as Hl by lia. apply app_inj_1 in Hj as [-> Hj]; [|done].
  rewrite E2. f_equal. by apply (IH (first + length row')%nat).
Qed.

(** ** Lines and rows *)

(** The cells of a row that belong to its line. *)
Definition row_content (row : Row) : list Cell :=
  match row_end row.2 with
  | Soft => row.1
  | SoftWide => take (length row.1 - 1) row.1
  | Hard => take (count_row_content_cells row.1) row.1
  end.

(** The rows of a line, each with the cells it takes. *)
Definition wrap_line (column_count : N) (cells : list Cell) : list (list Cell * RowEnd) :=
  (fun s => (slice (first_cell_index s) (end_cell_index s) cells, row_end (span_metadata s)))
    <$> compute_rewrapped_row_spans cells column_count.

(** The rows that hold one of the offsets. *)
Definition marked_rows (counts : list nat) (marks : list nat) : list nat :=
  (fun offset => (locate_content_cell_offset counts offset).1) <$> marks.

Definition line_rows (column_count : N) (cells : list Cell) (marks : list nat) : list Row :=
  let rows := wrap_line column_count cells in
  let counts := (fun row => length row.1) <$> rows in
  imap (fun i row => (row.1, MkRowMetadata row.2 (bool_decide (i ∈ marked_rows counts marks)))) rows.

Record PlainReflow := MkPlainReflow
  { plain_lines : list (list Row);
    plain_source_rows : list SourceRow;
    plain_cells : list Cell;
    plain_marks : list nat;
    plain_cursor : option nat;
    plain_cursor_at : nat * nat }.

Definition plain_push (column_count : N) (p : PlainReflow) : PlainReflow :=
  let cells := if column_count <=? 1 then narrow_wide_glyphs (plain_cells p) else plain_cells p in
  let rows := line_rows column_count cells (plain_marks p) in
  MkPlainReflow (plain_lines p ++ [rows]) (plain_source_rows p) [] [] None
    (match plain_cursor p with
     | Some offset =>
         let '(row_index, column_index) := locate_content_cell_offset ((fun row => length row.1) <$> rows) offset in
         ((length (mjoin (plain_lines p)) + row_index)%nat, column_index)
     | None => plain_cursor_at p
     end).

Definition plain_row (column_count : N) (cursor_physical_row_index cursor_column_index : nat)
    (p : PlainReflow) (row : nat * Row) : PlainReflow :=
  let '(physical_row_index, row) := row in
  let start := length (plain_cells p) in
  let content := row_content row in
  let is_hard := bool_decide (row_end row.2 = Hard) in
  let p :=
    MkPlainReflow (plain_lines p)
      (plain_source_rows p ++ [MkSourceRow (length (plain_lines p)) start (length content) (row_end row.2)])
      (plain_cells p ++ content)
      (plain_marks p ++ if has_prompt_mark row.2 then [start] else [])
      (if (physical_row_index =? cursor_physical_row_index)%nat
       then Some (start + if is_hard then cursor_column_index
                          else cursor_column_index `min` length content)%nat
       else plain_cursor p)
      (plain_cursor_at p) in
  if is_hard then plain_push column_count p else p.

(** The line that no hard-ended row ends. *)
Definition plain_finish (column_count : N) (p : PlainReflow) : PlainReflow :=
  if bool_decide (plain_cells p <> []) || bool_decide (plain_marks p <> [])
  then plain_push column_count p else p.

Definition plain_start : PlainReflow := MkPlainReflow [] [] [] [] None (0%nat, 0%nat).

Definition plain_reflow (column_count : N) (cursor_physical_row_index cursor_column_index : nat)
    (rows : list Row) : PlainReflow :=
  plain_finish column_count
    (foldl (plain_row column_count cursor_physical_row_index cursor_column_index) plain_start (enumerate rows)).

(** ** Encoded rows *)

(** The row's cells, with the spacer of a soft-wide row. *)
Definition full_row (s : Style) (row : Row) : list Cell :=
  row.1 ++ if bool_decide (row_end row.2 = SoftWide) then [build_blank_with_style s] else [].

Definition encode_row (column_count : N) (s : Style) (row : Row) : option RewrappedRow :=
  from_leading_cells (full_row s row) (length (full_row s row)) row.2 column_count.

(** Where each line's rows are. *)
Fixpoint shapes_of (first : nat) (lines : list (list Row)) : list RewrappedLineShape :=
  match lines with
  | [] => []
  | rows :: lines => MkRewrappedLineShape first (length rows) :: shapes_of (first + length rows) lines
  end.

(** [output] holds the lines encoded. *)
Record represents (column_count : N) (s : Style) (output : ReflowOutput) (lines : list (list Row)) : Prop :=
  { rp_columns : output_column_count output = column_count;
    rp_style : background_style output = s;
    rp_rows : mapM (encode_row column_count s) (mjoin lines) = Some (rewrapped_rows output);
    rp_shapes : rewrapped_line_shapes output = shapes_of 0 lines;
    rp_counts : rewrapped_row_content_cell_counts output = (fun row => length row.1) <$> mjoin lines }.

Lemma padded_snoc_blank column_count row_cells :
  (length row_cells < N.to_nat column_count)%nat ->
  padded column_count (row_cells ++ [build_blank]) = padded column_count row_cells.
Proof.
  intros H. unfold padded. rewrite length_app, <- app_assoc. simpl. f_equal.
  replace (N.to_nat column_count - length row_cells)%nat with (S (N.to_nat column_count - (length row_cells + 1))) by lia.
  done.
Qed.

Lemma images_padded column_count row_cells :
  images_from 0 (padded column_count row_cells) = images_from 0 row_cells.
Proof. unfold padded. by rewrite images_from_app, images_of_blanks, app_nil_r. Qed.

(** A row encoded by either path, for a column count, is the encoding of the
    padded row. *)
Lemma from_padded_eq row_cells column_count plain_row_style metadata :
  (length row_cells <= N.to_nat column_count)%nat -> column_count <= U16_MAX ->
  plain_row_promise plain_row_style row_cells ->
  from_padded_row_cells row_cells column_count plain_row_style metadata
  = from_row_cells (padded column_count row_cells) metadata.
Proof.
  intros Hl Hc Hp. pose proof (padded_length column_count row_cells Hl) as Hpl.
  unfold from_row_cells, u16_try_from. rewrite Hpl, N2Nat.id, (proj2 (N.leb_le _ _) Hc). cbn [mbind option_bind].
  unfold from_padded_row_cells. rewrite encode_padded_alike by (done || by apply plain_promise_ok).
  rewrite (encode_padded_alike _ column_count None) by (done || lia).
  rewrite (padded_full _ (padded column_count row_cells)) by done.
  destruct (encode_row_cells _ _) as [[bytes n]|]; [|done]. cbn [mbind option_bind]. do 2 f_equal.
  rewrite (bool_decide_eq_false_2 (is_Some None)) by (by intros []).
  rewrite (list_row_image_cells_eq (padded _ _)), images_padded by (rewrite Hpl; lia).
  destruct plain_row_style as [s|].
  - rewrite bool_decide_eq_true_2 by done. symmetry. apply images_from_none.
    eapply Forall_impl; [exact Hp|]. by intros c (_ & _ & ?).
  - rewrite bool_decide_eq_false_2 by (by intros []). apply list_row_image_cells_eq. lia.
Qed.

Lemma from_leading_eq leading_cells n metadata column_count :
  (length leading_cells <= n)%nat -> N.max column_count (N.of_nat n) <= U16_MAX ->
  from_leading_cells leading_cells n metadata column_count
  = (fun s => MkRewrappedRow s n)
      <$> from_row_cells (padded (N.max column_count (N.of_nat n)) leading_cells) metadata.
Proof.
  intros Hl Hc. unfold from_leading_cells, u16_try_from. rewrite (proj2 (N.leb_le _ _) Hc).
  cbn [mbind option_bind]. rewrite from_padded_eq by (done || lia). by destruct (from_row_cells _ _).
Qed.

Lemma encode_span_row output cells s :
  N.max (output_column_count output) (N.of_nat (count_row_cells s)) <= U16_MAX ->
  (end_cell_index s <= length cells)%nat -> (first_cell_index s <= end_cell_index s)%nat ->
  encode_span output cells s
  = encode_row (output_column_count output) (background_style output)
      (slice (first_cell_index s) (end_cell_index s) cells, span_metadata s).
Proof.
  intros Hc He Hf. unfold encode_span, encode_row, full_row. cbn [fst snd].
  set (row := slice _ _ cells). assert (length row = count_content_cells s) as Hl
    by (unfold row, count_content_cells; rewrite slice_length; lia).
  unfold count_row_cells in *. destruct (row_end (span_metadata s)) eqn:E.
  - rewrite bool_decide_eq_false_2 by done. cbn [andb]. by rewrite app_nil_r, Hl.
  - rewrite bool_decide_eq_false_2 by done. cbn [andb]. by rewrite app_nil_r, Hl.
  - rewrite bool_decide_eq_true_2 by done. cbn [andb].
    assert (length (row ++ [build_blank_with_style (background_style output)]) = count_content_cells s + 1)%nat as Hl'
      by (rewrite length_app, Hl; done).
    destruct (bool_decide _) eqn:Es; bools; [by rewrite Hl'|].
    rewrite Hl'. destruct (decide (background_style output = default_style)) as [Ed|]; [|done].
    rewrite Ed, !from_leading_eq by (done || rewrite ?length_app; simpl; lia).
    fold build_blank. by rewrite padded_snoc_blank by lia.
Qed.

(** ** The line that is pushed *)

Lemma spans_of_length first rows : length (spans_of first rows) = length rows.
Proof. revert first. induction rows as [|[row e] rows IH]; intros first; simpl; [done|by rewrite IH]. Qed.

Lemma spans_of_lookup first rows i row e :
  rows !! i = Some (row, e) ->
  exists a, spans_of first rows !! i = Some (span (first + a) (first + a + length row) e)
    /\ slice a (a + length row) (mjoin rows.*1) = row /\ (a + length row <= length (mjoin rows.*1))%nat.
Proof.
  revert first i. induction rows as [|[row0 e0] rows IH]; intros first [|i] H; [done|done| |].
  - injection H as -> ->. exists 0%nat. rewrite row_cells_cons, Nat.add_0_r. split; [done|]. split; [|rewrite length_app; lia].
    unfold slice. by rewrite drop_0, Nat.add_0_l, Nat.sub_0_r, take_app_length.
  - destruct (IH (first + length row0)%nat i H) as (a & E & Es & Hl). exists (length row0 + a)%nat.
    rewrite row_cells_cons.
    split; [transitivity (spans_of (first + length row0) rows !! i); [done|]; rewrite E; do 2 f_equal; lia|].
    split; [|rewrite length_app; lia]. transitivity (slice a (a + length row) (mjoin rows.*1)); [|done]. unfold slice.
    rewrite drop_app_ge by lia. f_equal; [lia|f_equal; lia].
Qed.

Lemma wrap_line_rows column_count cells :
  (column_count <= 1 -> no_wide cells) ->
  exists rows, wrapped (N.to_nat (N.max column_count 1)) rows /\ mjoin rows.*1 = cells
    /\ compute_rewrapped_row_spans cells column_count = spans_of 0 rows
    /\ wrap_line column_count cells = rows.
Proof.
  intros Hw. destruct (compute_spans_wraps cells column_count Hw) as (rows & H1 & H2 & H3).
  exists rows. split_and!; [done|done|done|]. unfold wrap_line. rewrite H3. apply list_eq. intros i.
  rewrite list_lookup_fmap. destruct (rows !! i) as [[row e]|] eqn:E.
  - destruct (spans_of_lookup 0 rows i row e E) as (a & -> & Es & _). rewrite H2 in Es. cbn [fmap option_fmap option_map span first_cell_index end_cell_index span_metadata row_end].
    rewrite Nat.add_0_l. by rewrite Es.
  - apply lookup_ge_None_1 in E. by rewrite lookup_ge_None_2 by (by rewrite spans_of_length).
Qed.

Lemma wrapped_nonempty column_count rows : wrapped column_count rows -> rows <> [].
Proof. by destruct 1. Qed.

Lemma locate_from_lt i counts offset :
  counts <> [] -> let r := (locate_from i counts offset).1 in (i <= r < i + length counts)%nat.
Proof.
  revert i offset. induction counts as [|n counts IH]; intros i offset H; [done|]. cbn [locate_from].
  destruct (_ || _) eqn:E; [simpl; lia|]. bools. cbv zeta. specialize (IH (S i) (offset - n)%nat ltac:(done)).
  simpl in *. lia.
Qed.

(** A span marked, where it holds a mark. *)
Definition mark_span (is_marked : bool) (s : RewrappedRowSpan) : RewrappedRowSpan :=
  MkRewrappedRowSpan (first_cell_index s) (end_cell_index s)
    (MkRowMetadata (row_end (span_metadata s)) (is_marked || has_prompt_mark (span_metadata s))).

Lemma mark_prompt_rows_ok counts marks row_spans :
  counts <> [] -> length row_spans = length counts ->
  foldl (mark_prompt_row counts) (Some row_spans) marks
  = Some (imap (fun i s => mark_span (bool_decide (i ∈ marked_rows counts marks)) s) row_spans).
Proof.
  intros Hc. revert row_spans. induction marks as [|m marks IH]; intros row_spans Hl.
  - cbn. f_equal. apply list_eq. intros i. rewrite list_lookup_imap.
    destruct (row_spans !! i) as [[a b [e p]]|]; [|done]. cbn. done.
  - cbn [foldl]. pose proof (locate_from_lt 0 counts m Hc) as Hr. cbv zeta in Hr.
    fold (locate_content_cell_offset counts m) in Hr. unfold mark_prompt_row at 2. cbn [mbind option_bind].
    set (r := (locate_content_cell_offset counts m).1) in *.
    destruct (lookup_lt_is_Some_2 row_spans r ltac:(lia)) as [s Hs]. rewrite Hs. cbn [mbind option_bind].
    rewrite IH by (by rewrite length_insert). f_equal. apply list_eq. intros i.
    rewrite !list_lookup_imap. destruct (decide (i = r)) as [->|Hne].
    + rewrite list_lookup_insert_eq by lia. rewrite Hs. cbn [fmap option_fmap option_map]. f_equal.
      unfold mark_span. cbn. fold r. rewrite (bool_decide_eq_true_2 (r ∈ r :: _)) by constructor.
      by rewrite orb_true_r.
    + rewrite list_lookup_insert_ne by done. destruct (row_spans !! i) as [s'|]; [|done].
      cbn [fmap option_fmap option_map]. do 2 f_equal. unfold marked_rows. cbn [fmap list_fmap]. fold r.
      apply bool_decide_ext. rewrite elem_of_cons. naive_solver.
Qed.

Lemma mapM_ext2 {A B C} (f : A -> option C) (g : B -> option C) l l' :
  Forall2 (fun x y => f x = g y) l l' -> mapM f l = mapM g l'.
Proof. induction 1 as [|x y l l' H _ IH]; [done|]. cbn [mapM]. by rewrite H, IH. Qed.

Lemma mapM_app_some {A B} (f : A -> option B) l l' k k' :
  mapM f l = Some k -> mapM f l' = Some k' -> mapM f (l ++ l') = Some (k ++ k').
Proof.
  intros H. revert k H. induction l as [|x l IH]; intros k H H'; [by injection H as <-|].
  cbn [mapM app] in *. destruct (f x) as [y|]; [|done]. cbn [mbind option_bind] in *.
  destruct (mapM f l) as [z|]; [|done]. cbn [mbind option_bind] in *. injection H as <-.
  by rewrite (IH z).
Qed.

Lemma shapes_of_app first lines lines' :
  shapes_of first (lines ++ lines') = shapes_of first lines ++ shapes_of (first + length (mjoin lines)) lines'.
Proof.
  revert first. induction lines as [|rows lines IH]; intros first; [by rewrite Nat.add_0_r|].
  cbn [app shapes_of]. rewrite IH. do 2 f_equal.
  change (mjoin (rows :: lines)) with (rows ++ mjoin lines). rewrite length_app. f_equal. lia.
Qed.

Lemma mapM_length_eq {A B} (f : A -> option B) l k : mapM f l = Some k -> length k = length l.
Proof. intros H. apply mapM_Some, Forall2_length in H. done. Qed.

Lemma encode_row_some column_count s row :
  Forall Cell_wf row.1 -> Forall Cell_canonical row.1 -> Style_wf s ->
  N.max column_count (N.of_nat (length (full_row s row))) <= U16_MAX ->
  exists r, encode_row column_count s row = Some r /\ row_cell_count r = length (full_row s row)
    /\ snapshot_metadata (rewrapped_snapshot r) = row.2
    /\ from_row_cells (padded (N.max column_count (N.of_nat (length (full_row s row)))) (full_row s row)) row.2
       = Some (rewrapped_snapshot r).
Proof.
  intros Hw Hc Hs Hb. unfold encode_row. rewrite from_leading_eq by done.
  set (cc := N.max _ _) in *. destruct (blank_with_style_ok s Hs) as [Hbw Hbc].
  assert (Forall Cell_wf (full_row s row) /\ Forall Cell_canonical (full_row s row)) as [Hfw Hfc].
  { unfold full_row. split; apply Forall_app; (split; [done|]); (case_bool_decide; [by apply Forall_singleton|done]). }
  assert (length (padded cc (full_row s row)) = N.to_nat cc) as Hpl by (apply padded_length; lia).
  destruct (from_row_cells_ok (padded cc (full_row s row)) row.2) as (x & -> & [Hm _]).
  - apply Forall_app. split; [done|]. apply Forall_replicate, blank_ok.
  - apply Forall_app. split; [done|]. apply blank_canonical.
  - lia.
  - by exists (MkRewrappedRow x (length (full_row s row))).
Qed.

Definition cells_ok (cells : list Cell) : Prop := Forall Cell_wf cells /\ Forall Cell_canonical cells.

Lemma cells_ok_app cells cells' : cells_ok (cells ++ cells') <-> cells_ok cells /\ cells_ok cells'.
Proof. unfold cells_ok. rewrite !Forall_app. naive_solver. Qed.

Lemma cells_ok_take n cells : cells_ok cells -> cells_ok (take n cells).
Proof. intros [? ?]. split; by apply Forall_take. Qed.

Lemma cells_ok_rows {A} (rows : list (list Cell * A)) :
  cells_ok (mjoin rows.*1) -> Forall (fun row => cells_ok row.1) rows.
Proof.
  induction rows as [|[row e] rows IH]; [done|]. change (mjoin ((row, e) :: rows).*1) with (row ++ mjoin rows.*1).
  rewrite cells_ok_app. intros [H1 H2]. constructor; [done|by apply IH].
Qed.

Lemma wrapped_row_length column_count rows :
  wrapped column_count rows ->
  Forall (fun row => (length row.1 + (if bool_decide (row.2 = SoftWide) then 1 else 0) <= column_count)%nat) rows.
Proof. induction 1; constructor; simpl; (done || lia). Qed.

Lemma full_row_length s row :
  length (full_row s row) = (length row.1 + if bool_decide (row_end row.2 = SoftWide) then 1 else 0)%nat.
Proof. unfold full_row. rewrite length_app. by case_bool_decide. Qed.

(** The rows of a line, and what they say about it. *)
Lemma line_rows_ok column_count cells marks :
  (column_count <= 1 -> no_wide cells) ->
  let rows := line_rows column_count cells marks in
  wrapped (N.to_nat (N.max column_count 1)) ((fun row => (row.1, row_end row.2)) <$> rows)
  /\ mjoin rows.*1 = cells /\ rows <> []
  /\ length (compute_rewrapped_row_spans cells column_count) = length rows
  /\ count_content_cells <$> compute_rewrapped_row_spans cells column_count
     = (fun row => length row.1) <$> rows.
Proof.
  intros Hw. destruct (wrap_line_rows column_count cells Hw) as (rows & H1 & H2 & H3 & H4).
  unfold line_rows. rewrite H4. cbv zeta. set (f := fun (i : nat) (row : list Cell * RowEnd) => _).
  assert ((fun row : Row => (row.1, row_end row.2)) <$> imap f rows = rows) as Ef.
  { apply list_eq. intros i. rewrite list_lookup_fmap, list_lookup_imap. destruct (rows !! i) as [[row e]|]; done. }
  assert ((imap f rows).*1 = rows.*1) as E1.
  { apply list_eq. intros i. rewrite !list_lookup_fmap, list_lookup_imap. by destruct (rows !! i) as [[row e]|]. }
  rewrite <- Ef in H1 at 1. split_and!; [exact H1|by rewrite E1| | |].
  - intros E. apply wrapped_nonempty in H1. by destruct rows.
  - by rewrite H3, spans_of_length, length_imap.
  - rewrite H3. apply list_eq. intros i. rewrite !list_lookup_fmap, list_lookup_imap.
    destruct (rows !! i) as [[row e]|] eqn:E.
    + destruct (spans_of_lookup 0 rows i row e E) as (a & -> & _ & _). cbn. f_equal.
      unfold count_content_cells. simpl. lia.
    + apply lookup_ge_None_1 in E. by rewrite lookup_ge_None_2 by (by rewrite spans_of_length).
Qed.

Lemma marked_spans_encode output cells marks :
  let column_count := output_column_count output in
  (column_count <= 1 -> no_wide cells) -> column_count <= U16_MAX ->
  let row_spans := compute_rewrapped_row_spans cells column_count in
  exists marked_spans,
    foldl (mark_prompt_row (count_content_cells <$> row_spans)) (Some row_spans) marks = Some marked_spans
    /\ mapM (encode_span output cells) marked_spans
       = mapM (encode_row column_count (background_style output)) (line_rows column_count cells marks).
Proof.
  intros column_count Hw Hc row_spans. unfold row_spans. clear row_spans.
  destruct (line_rows_ok column_count cells marks Hw) as (_ & _ & Hne & Hlen & Hcounts).
  rewrite mark_prompt_rows_ok.
  2: { rewrite Hcounts. by destruct (line_rows column_count cells marks). }
  2: { by rewrite length_fmap. }
  eexists. split; [done|]. apply mapM_ext2. apply Forall2_lookup. intros i. rewrite list_lookup_imap.
  destruct (wrap_line_rows column_count cells Hw) as (rows & H1 & H2 & H3 & H4).
  assert (count_content_cells <$> compute_rewrapped_row_spans cells column_count
    = (fun row => length row.1) <$> rows) as ->.
  { rewrite Hcounts. unfold line_rows. rewrite H4. apply list_eq. intros j.
    rewrite !list_lookup_fmap, list_lookup_imap. by destruct (rows !! j). }
  rewrite H3. unfold line_rows. rewrite H4, list_lookup_imap.
  destruct (rows !! i) as [[row e]|] eqn:E.
  - destruct (spans_of_lookup 0 rows i row e E) as (a & -> & Es & Hl). rewrite H2 in Es, Hl.
    cbn [fmap option_fmap option_map fst snd]. constructor.
    pose proof (wrapped_row_length _ _ H1) as Hrow. rewrite Forall_lookup in Hrow. specialize (Hrow _ _ E). simpl in Hrow.
    rewrite encode_span_row; cbn [mark_span span first_cell_index end_cell_index span_metadata row_end has_prompt_mark].
    + by rewrite Nat.add_0_l, Es, orb_false_r.
    + unfold count_row_cells, count_content_cells. cbn. fold column_count. destruct e; simpl in *; lia.
    + lia.
    + lia.
  - apply lookup_ge_None_1 in E. rewrite lookup_ge_None_2 by (by rewrite spans_of_length). constructor.
Qed.

Lemma rebuild_ok c : Cell_wf c -> Cell_wf (rebuild_cell_with_width c 1) /\ Cell_canonical (rebuild_cell_with_width c 1).
Proof.
  intros [H1 H2 H3 H4 H5]. unfold rebuild_cell_with_width. rewrite push_marks. split.
  - apply cell_with_marks_wf; done.
  - unfold cell_with_marks, Cell_canonical. destruct (list_combining_characters c); [done|by left].
Qed.

Lemma narrow_ok cells : cells_ok cells -> cells_ok (narrow_wide_glyphs cells).
Proof.
  unfold narrow_wide_glyphs. generalize false. induction cells as [|c cells IH]; intros b H; [done|].
  change (c :: cells) with ([c] ++ cells) in H. apply cells_ok_app in H as [[Hw Hc] H].
  apply Forall_cons_1 in Hw as [Hw _]. apply Forall_cons_1 in Hc as [Hc _]. cbn [narrow_cells].
  destruct (b && (display_width c =? 0)); cbn [negb andb]; [by apply IH|].
  apply (cells_ok_app [_]). split; [|by apply IH]. destruct (rebuild_ok c Hw).
  split; apply Forall_singleton; by destruct (display_width c =? 2).
Qed.

(** Rows whose encoding does not panic. *)
Definition row_fits (column_count : N) (s : Style) (row : Row) : Prop :=
  cells_ok row.1 /\ N.max column_count (N.of_nat (length (full_row s row))) <= U16_MAX.

Lemma encode_rows_some column_count s rows :
  Forall (row_fits column_count s) rows -> Style_wf s ->
  exists encoded, mapM (encode_row column_count s) rows = Some encoded.
Proof.
  intros H Hs. induction H as [|row rows [[Hw Hc] Hb] _ [encoded IH]]; [by exists []|].
  destruct (encode_row_some column_count s row Hw Hc Hs Hb) as (r & E & _).
  exists (r :: encoded). cbn [mapM]. rewrite E. cbn [mbind option_bind]. by rewrite IH.
Qed.

Lemma line_rows_fit column_count s cells marks :
  (column_count <= 1 -> no_wide cells) -> cells_ok cells -> column_count <= U16_MAX ->
  Forall (row_fits column_count s) (line_rows column_count cells marks).
Proof.
  intros Hw Hok Hc. destruct (line_rows_ok column_count cells marks Hw) as (Hwr & Hj & _).
  apply wrapped_row_length in Hwr. rewrite Forall_fmap in Hwr.
  rewrite <- Hj in Hok at 1. apply cells_ok_rows in Hok.
  eapply Forall_impl; [apply Forall_and; split; [exact Hwr|exact Hok]|].
  intros row [Hl Hcells]. cbn [compose fst snd] in Hl. split; [done|]. rewrite full_row_length. lia.
Qed.

Lemma push_line_ok column_count s output lines line cursor :
  represents column_count s output lines -> cells_ok (line_cells line) -> Style_wf s -> column_count <= U16_MAX ->
  let p := plain_push column_count (MkPlainReflow lines (source_rows output) (line_cells line)
    (prompt_cell_offsets line) cursor (new_cursor_physical_row_index output, new_cursor_column_index output)) in
  exists output', push_logical_line line cursor output = Some output'
    /\ represents column_count s output' (plain_lines p)
    /\ source_rows output' = source_rows output
    /\ (new_cursor_physical_row_index output', new_cursor_column_index output') = plain_cursor_at p.
Proof.
  intros [H1 H2 H3 H4 H5] Hcells Hs Hc p.
  set (cells := if column_count <=? 1 then narrow_wide_glyphs (line_cells line) else line_cells line).
  assert (column_count <= 1 -> no_wide cells) as Hw.
  { intros Hle. unfold cells. rewrite (proj2 (N.leb_le _ _) Hle). apply narrow_no_wide. }
  assert (cells_ok cells) as Hok by (unfold cells; case_match; [by apply narrow_ok|done]).
  unfold push_logical_line. rewrite H1. fold cells.
  destruct (line_rows_ok column_count cells (prompt_cell_offsets line) Hw) as (Hwr & Hj & Hne & Hlen & Hcounts).
  destruct (marked_spans_encode output cells (prompt_cell_offsets line)) as (marked & Hm & He); [by rewrite H1|by rewrite H1|].
  rewrite H1 in Hm, He. destruct (encode_rows_some column_count s _
    (line_rows_fit column_count s cells (prompt_cell_offsets line) Hw Hok Hc) Hs) as [encoded Henc].
  rewrite H2, Henc in He. unfold p, plain_push. cbn [plain_cells plain_marks plain_lines plain_cursor plain_cursor_at].
  fold cells. rewrite Hcounts in Hm |- *.
  set (rows := line_rows column_count cells (prompt_cell_offsets line)) in *.
  pose proof (mapM_length_eq _ _ _ H3) as Hlr.
  set (at_row := match cursor with Some _ => _ | None => _ end). cbn zeta.
  destruct at_row as [r c] eqn:Eat. rewrite Hm. cbn [mbind option_bind]. rewrite He. cbn [mbind option_bind].
  eexists. split; [done|]. split; [|split; [done|]].
  - split; cbn [output_column_count background_style rewrapped_rows rewrapped_line_shapes
      rewrapped_row_content_cell_counts]; [done|done| | |].
    + rewrite join_app. cbn. rewrite app_nil_r. by apply mapM_app_some.
    + rewrite shapes_of_app, H4. cbn [shapes_of Nat.add]. by rewrite Hlen, Hlr.
    + rewrite join_app. cbn. by rewrite app_nil_r, fmap_app, H5.
  - cbn [new_cursor_physical_row_index new_cursor_column_index]. rewrite <- Eat. unfold at_row.
    rewrite Hlr. done.
Qed.
