(* ===== verification/ReflowRewrap.v ===== *)
(** * The re-wrap does the plain reflow

    [rewrap_primary_rows] reads every row of history and screen, never panics,
    and holds the encodings of the rows the plain reflow gives. *)

From S2P Require Import Prelude Varint Style Cell RowEncoder RowDecoder RowItems RowRoundTrip RowContract Snapshot.
From S2P Require Import Grid GridView Scrollback Reflow ReflowPlain.
From stdpp Require Import options.
#[local] Open Scope N_scope.

(** ** History lines *)

(** A snapshot without the cells it keeps decoded. *)
Definition uncached (s : RowSnapshot) : RowSnapshot :=
  MkRowSnapshot (encoded_row_bytes s) (snapshot_metadata s) (snapshot_text_byte_count s) (image_cells s) None.

(** A line of the history: the encoding of its row, with the cells somebody
    decoded, if anybody did. *)
Record history_line (row : Row) (s : RowSnapshot) : Prop :=
  { hl_cells : cells_ok row.1;
    hl_width : N.of_nat (length row.1) <= U16_MAX;
    hl_encoded : from_row_cells row.1 row.2 = Some (uncached s);
    hl_cache : decoded_row_cells s = None \/ decoded_row_cells s = Some row.1 }.

Lemma history_line_snapshot row s :
  history_line row s ->
  snapshot_of (count_row_content_cells row.1) row.1 s /\ snapshot_metadata s = row.2.
Proof.
  intros [[Hw Hc] Hl He Hcache]. unfold from_row_cells, u16_try_from in He.
  rewrite (proj2 (N.leb_le _ _) Hl) in He. cbn [mbind option_bind] in He.
  destruct (from_padded_snapshot row.1 (N.of_nat (length row.1)) None row.2 Hw Hc)
    as (s' & Hs' & Hrow & _ & Hm & _); [lia|done|done|].
  rewrite He in Hs'. injection Hs' as <-. rewrite padded_full in Hrow by lia.
  split; [|done]. destruct Hrow. by split.
Qed.

Lemma history_line_repad row s column_count :
  history_line row s -> column_count <= U16_MAX ->
  let k := count_row_content_cells row.1 in
  repad_hard_row s column_count
  = if bool_decide (row_end row.2 = Hard) && (N.of_nat k <? column_count)
    then (fun s' => Some (MkRepaddedRow s' (N.of_nat k)))
           <$> from_padded_row_cells (take k row.1) column_count None row.2
    else Some None.
Proof.
  intros [[Hw Hc] Hl He _] Hcc. unfold from_row_cells, u16_try_from in He.
  rewrite (proj2 (N.leb_le _ _) Hl) in He. cbn [mbind option_bind] in He.
  change (repad_hard_row s column_count) with (repad_hard_row (uncached s) column_count).
  by apply (repad_hard_ok row.1 (N.of_nat (length row.1)) column_count None row.2); [..|lia|done|done| |].
Qed.

(** ** One row *)

(** The loop's state, and the plain reflow's. *)
Record rewrap_at (column_count : N) (s : Style) (state : ReflowOutput * LogicalLine * option nat)
    (p : PlainReflow) : Prop :=
  { ra_lines : represents column_count s state.1.1 (plain_lines p);
    ra_sources : source_rows state.1.1 = plain_source_rows p;
    ra_cells : line_cells state.1.2 = plain_cells p;
    ra_marks : prompt_cell_offsets state.1.2 = plain_marks p;
    ra_cursor : state.2 = plain_cursor p;
    ra_cursor_at :
      (new_cursor_physical_row_index state.1.1, new_cursor_column_index state.1.1) = plain_cursor_at p;
    ra_ok : cells_ok (plain_cells p) }.

Definition holds_row (row : Row) (physical_row : PhysicalRow) : Prop :=
  match physical_row with
  | History s => history_line row s
  | Screen row_cells metadata => row = (row_cells, metadata) /\ cells_ok row_cells
  end.

Lemma row_content_ok row : cells_ok row.1 -> cells_ok (row_content row).
Proof. intros H. unfold row_content. destruct (row_end row.2); [by apply cells_ok_take|done|by apply cells_ok_take]. Qed.

Lemma row_content_length row :
  length (row_content row)
  = match row_end row.2 with
    | Soft => length row.1
    | SoftWide => (length row.1 - 1)%nat
    | Hard => count_row_content_cells row.1
    end.
Proof.
  unfold row_content. destruct (row_end row.2); rewrite ?length_take; [|done|lia].
  pose proof (count_row_content_cells_spec row.1) as (H & _). lia.
Qed.

(** What is read of a row into its line. *)
Lemma read_row row physical_row line_cells :
  holds_row row physical_row ->
  exists cells,
    match physical_row with
    | History row_snapshot =>
        let metadata := snapshot_metadata row_snapshot in
        '(shape, cells) ← snapshot_decode_row_run_cells_into row_snapshot line_cells;
        Some (metadata,
          if bool_decide (row_end metadata = Hard) then cells
          else resize_with (length line_cells + N.to_nat (shape_column_count shape)) build_blank cells)
    | Screen row_cells metadata => Some (metadata, line_cells ++ row_cells)
    end = Some (row.2, cells)
    /\ match row_end row.2 with
       | Soft => length (drop (length line_cells) cells)
       | SoftWide => (length (drop (length line_cells) cells) - 1)%nat
       | Hard => count_row_content_cells (drop (length line_cells) cells)
       end = length (row_content row)
    /\ take (length line_cells + length (row_content row)) cells = line_cells ++ row_content row.
Proof.
  intros H.
  assert (forall cells, cells = line_cells ++ row.1 \/
    (row_end row.2 = Hard /\ cells = line_cells ++ take (count_row_content_cells row.1) row.1) ->
    match row_end row.2 with
    | Soft => length (drop (length line_cells) cells)
    | SoftWide => (length (drop (length line_cells) cells) - 1)%nat
    | Hard => count_row_content_cells (drop (length line_cells) cells)
    end = length (row_content row)
    /\ take (length line_cells + length (row_content row)) cells = line_cells ++ row_content row) as Hread.
  { intros cells Hcells. rewrite row_content_length.
    pose proof (count_row_content_cells_spec row.1) as (Hk & _).
    destruct Hcells as [->|[He ->]]; rewrite drop_app_length.
    - split; [done|]. rewrite take_app_add. f_equal. unfold row_content.
      destruct (row_end row.2); [done|by rewrite take_ge|done].
    - unfold row_content. rewrite He. split; [by rewrite content_of_content|].
      rewrite take_app_add, take_take. f_equal. f_equal. lia. }
  destruct physical_row as [s|row_cells metadata].
  - destruct (history_line_snapshot row s H) as [Hrow Hm]. rewrite Hm.
    destruct (snapshot_reads _ _ _ line_cells Hrow) as (_ & _ & _ & ->). cbn [mbind option_bind shape_column_count].
    rewrite Nat2N.id. eexists. split; [done|]. apply Hread. case_bool_decide as E; [by right|left].
    unfold resize_with. pose proof (so_bound _ _ _ Hrow) as Hb. pose proof (so_blanks _ _ _ Hrow) as Hbl.
    set (k := count_row_content_cells row.1) in *.
    rewrite take_ge by (rewrite length_app, length_take; lia). rewrite <- app_assoc. f_equal.
    trans (take k row.1 ++ drop k row.1); [|apply take_drop]. f_equal. rewrite Hbl, length_app, length_take.
    f_equal. lia.
  - destruct H as [-> H]. eexists. split; [done|]. apply Hread. by left.
Qed.

Lemma wrap_short_line column_count cells :
  N.of_nat (length cells) < column_count -> wrap_line column_count cells = [(cells, Hard)].
Proof.
  intros H. unfold wrap_line, compute_rewrapped_row_spans. rewrite (proj2 (Nat.ltb_lt _ _)) by lia. cbn.
  unfold slice. by rewrite drop_0, Nat.sub_0_r, take_ge.
Qed.

(** A line of one short row, read at its start. *)
Lemma short_line_rows column_count cells has_prompt_mark :
  N.of_nat (length cells) < column_count ->
  line_rows column_count cells (if has_prompt_mark : bool then [0%nat] else [])
  = [(cells, MkRowMetadata Hard has_prompt_mark)].
Proof.
  intros H. unfold line_rows. rewrite (wrap_short_line _ _ H). cbn. unfold compose. do 3 f_equal.
  destruct has_prompt_mark; [|done]. unfold marked_rows, locate_content_cell_offset. cbn.
  rewrite orb_true_r. by rewrite bool_decide_eq_true_2 by constructor.
Qed.

Lemma shapes_of_length first lines : length (shapes_of first lines) = length lines.
Proof. revert first. induction lines as [|rows lines IH]; intros first; simpl; [done|by rewrite IH]. Qed.

Lemma holds_row_ok row physical_row : holds_row row physical_row -> cells_ok row.1.
Proof. destruct physical_row; [by intros []|by intros [-> ?]]. Qed.

Lemma rewrap_at_hard column_count s output line cursor p :
  rewrap_at column_count s (output, line, cursor) p -> Style_wf s -> column_count <= U16_MAX ->
  exists output', push_logical_line line cursor output = Some output'
    /\ rewrap_at column_count s (output', MkLogicalLine [] [], None) (plain_push column_count p).
Proof.
  intros [H1 H2 H3 H4 H5 H6 H7] Hs Hc. cbn [fst snd] in *. rewrite <- H3 in H7.
  destruct (push_line_ok column_count s output (plain_lines p) line cursor H1 H7 Hs Hc)
    as (output' & E & Hr & Hsrc & Hcur).
  exists output'. split; [done|]. destruct p as [pl ps pc pm pcur pat]. cbn in *. subst.
  split; cbn [fst snd line_cells prompt_cell_offsets]; try done.
Qed.

(** A row that keeps its cells at the new width. *)
Lemma repadded_row_at column_count s cursor_index cursor_column output line cursor p i row s0 r :
  rewrap_at column_count s (output, line, cursor) p -> history_line row s0 -> column_count <= U16_MAX ->
  plain_cursor p = None -> i <> cursor_index -> line_cells line = [] -> prompt_cell_offsets line = [] ->
  1 < column_count -> repad_hard_row s0 column_count = Some (Some r) ->
  rewrap_at column_count s
    (push_repadded_line r (push_source_row
       (MkSourceRow (length (rewrapped_line_shapes output)) 0 (N.to_nat (run_cell_count r)) Hard) output),
     line, cursor)
    (plain_row column_count cursor_index cursor_column p (i, row)).
Proof.
  intros [H1 H2 H3 H4 H5 H6 H7] Hrow Hc Hcur Hne Hl Hm Hcc Er. cbn [fst snd] in *.
  destruct H1 as [R1 R2 R3 R4 R5]. rewrite (history_line_repad row) in Er by done. cbv zeta in Er.
  pose proof (row_content_length row) as Hlen.
  destruct row as [row_cells [e mark]]. cbn [fst snd row_end] in *. destruct e; try done.
  rewrite bool_decide_eq_true_2 in Er by done. cbn [andb] in Er.
  set (k := count_row_content_cells row_cells) in *.
  destruct (N.of_nat k <? column_count) eqn:Ek; [|done]. bools.
  destruct (from_padded_row_cells _ _ _ _) as [s'|] eqn:Es; [|done]. injection Er as <-.
  destruct p as [pl ps pc pm pcur pat]. cbn in H3, H4, H5, H6, Hcur, H7, R3, R4, R5, H2. subst pc pm pcur pat cursor ps.
  rewrite Hl, Hm. unfold plain_row. cbn [fst snd plain_cells plain_lines plain_source_rows plain_marks plain_cursor
    plain_cursor_at row_end has_prompt_mark length app Nat.add].
  rewrite bool_decide_eq_true_2, (proj2 (Nat.eqb_neq _ _) Hne) by done. unfold plain_push.
  cbn [plain_cells plain_lines plain_source_rows plain_marks plain_cursor plain_cursor_at].
  rewrite (proj2 (N.leb_gt _ _)) by done. rewrite short_line_rows by (rewrite Hlen; done). rewrite Hlen.
  cbn [run_cell_count row_snapshot]. rewrite Nat2N.id.
  pose proof (mapM_length_eq _ _ _ R3) as Hlr.
  split; cbn [fst snd push_repadded_line push_source_row source_rows new_cursor_physical_row_index
    new_cursor_column_index plain_lines plain_source_rows plain_cells plain_marks plain_cursor plain_cursor_at];
    [|by rewrite R4, shapes_of_length|done|done|done|done|done].
  unfold push_repadded_line, push_source_row. cbn [run_cell_count row_snapshot]. rewrite Nat2N.id.
  split; cbn [output_column_count background_style rewrapped_rows rewrapped_line_shapes
    rewrapped_row_content_cell_counts]; [done|done| | |].
  - rewrite join_app. apply mapM_app_some; [done|]. cbn [mjoin list_join mapM app].
    unfold encode_row, full_row. cbn [fst snd row_end]. rewrite bool_decide_eq_false_2, app_nil_r, Hlen by done.
    unfold from_leading_cells, u16_try_from. rewrite N.max_l by lia. rewrite (proj2 (N.leb_le _ _) Hc).
    cbn [mbind option_bind]. unfold row_content. cbn [fst snd row_end]. fold k. by rewrite Es.
  - rewrite shapes_of_app, R4. cbn [shapes_of Nat.add length]. by rewrite Hlr.
  - rewrite join_app, fmap_app, R5. f_equal. rewrite <- Hlen. done.
Qed.

Lemma rewrap_row_ok column_count s cursor_index cursor_column state p i row physical_row :
  rewrap_at column_count s state p -> holds_row row physical_row -> Style_wf s -> column_count <= U16_MAX ->
  (match physical_row with History _ => plain_cursor p = None /\ i <> cursor_index | Screen _ _ => True end) ->
  exists state', rewrap_row column_count cursor_index cursor_column state (i, physical_row) = Some state'
    /\ rewrap_at column_count s state' (plain_row column_count cursor_index cursor_column p (i, row)).
Proof.
  destruct state as [[output line] cursor]. intros Hsim Hrow Hs Hc Hcur.
  pose proof Hsim as [H1 H2 H3 H4 H5 H6 H7]. cbn [fst snd] in *.
  assert (forall r, match physical_row with
    | History row_snapshot =>
        if bool_decide (line_cells line = []) && bool_decide (prompt_cell_offsets line = []) && (1 <? column_count)
        then repad_hard_row row_snapshot column_count else Some None
    | Screen _ _ => Some None end = Some (Some r) ->
    exists state', rewrap_row column_count cursor_index cursor_column (output, line, cursor) (i, physical_row) = Some state'
    /\ rewrap_at column_count s state' (plain_row column_count cursor_index cursor_column p (i, row))) as Hrepad.
  { intros r Er. destruct physical_row as [s0|]; [|done]. destruct Hcur as [Hcur Hne].
    destruct (_ && (1 <? column_count)) eqn:Estart; [|done]. bools.
    unfold rewrap_row. rewrite !(bool_decide_eq_true_2 (_ = [])) by done.
    rewrite (proj2 (N.ltb_lt _ _)) by done. cbn [andb]. rewrite Er. cbn [mbind option_bind].
    eexists. split; [done|]. by apply (repadded_row_at _ _ _ _ _ _ _ _ _ row s0). }
  unfold rewrap_row in *.
  destruct (match physical_row with History _ => _ | Screen _ _ => _ end) as [[r|]|] eqn:Er; [by eapply Hrepad| |].
  - cbn [mbind option_bind].
    destruct (read_row row physical_row (line_cells line) Hrow) as (cells & Eread & Hcount & Htake).
    cbv zeta in Eread |- *. rewrite Eread.
    cbn [mbind option_bind]. rewrite Hcount, Htake. rewrite H3 in *. unfold plain_row.
    set (p' := MkPlainReflow _ _ _ _ _ _).
    match goal with |- context [push_logical_line ?l ?c ?o] => set (line' := l); set (cursor' := c); set (output' := o) end.
    assert (rewrap_at column_count s (output', line', cursor') p') as Hsim'.
    { unfold output', line', cursor', p'. rewrite H5, H4.
      split; cbn [fst snd]; [by destruct H1| |done|done|done|done|].
      - cbn. by rewrite H2, (rp_shapes _ _ _ _ H1), shapes_of_length.
      - cbn. apply cells_ok_app. split; [done|]. by apply row_content_ok, (holds_row_ok _ physical_row). }
    destruct (bool_decide (row_end row.2 = Hard)); [|by eexists; split; [done|exact Hsim']].
    destruct (rewrap_at_hard _ _ _ _ _ _ Hsim' Hs Hc) as (o & -> & Ho). by eexists; split; [done|exact Ho].
  - exfalso. destruct physical_row as [s0|]; [|done]. destruct (_ && (1 <? column_count)); [|done].
    rewrite (history_line_repad row) in Er by done. cbv zeta in Er. destruct (_ && _) eqn:Eb; [|done]. bools.
    pose proof (hl_cells _ _ Hrow) as [Hw Hcan].
    destruct (from_padded_snapshot (take (count_row_content_cells row.1) row.1) column_count None row.2)
      as (x & Ex & _); [by apply Forall_take|by apply Forall_take| |done|done|by rewrite Ex in Er].
    rewrite length_take. lia.
Qed.

(** ** Every row *)

Lemma plain_row_cursor column_count cursor_index cursor_column p i row :
  plain_cursor p = None -> i <> cursor_index ->
  plain_cursor (plain_row column_count cursor_index cursor_column p (i, row)) = None.
Proof.
  intros H Hi. unfold plain_row. rewrite (proj2 (Nat.eqb_neq _ _) Hi).
  by destruct (bool_decide (row_end row.2 = Hard)).
Qed.

Lemma rewrap_loop_ok column_count s cursor_index cursor_column n rows physical_rows state p :
  Forall2 holds_row rows physical_rows -> Style_wf s -> column_count <= U16_MAX ->
  rewrap_at column_count s state p ->
  ((n <= cursor_index)%nat -> plain_cursor p = None) ->
  (forall j s, physical_rows !! j = Some (History s) -> (n + j < cursor_index)%nat) ->
  exists state',
    try_for (rewrap_row column_count cursor_index cursor_column)
      (imap (fun i row => (n + i, row)%nat) physical_rows) state = Some state'
    /\ rewrap_at column_count s state'
         (foldl (plain_row column_count cursor_index cursor_column) p
            (imap (fun i (row : Row) => (n + i, row)%nat) rows)).
Proof.
  intros H Hs Hc. revert n state p.
  induction H as [|row physical_row rows physical_rows Hrow _ IH]; intros n state p Hat Hcur Hhist.
  { by exists state. }
  destruct (rewrap_row_ok column_count s cursor_index cursor_column state p n row physical_row Hat Hrow Hs Hc)
    as (state' & E & Hat').
  { destruct physical_row as [x|]; [|done]. specialize (Hhist 0%nat x eq_refl). split; [apply Hcur|]; lia. }
  destruct (IH (S n) state' (plain_row column_count cursor_index cursor_column p (n, row)) Hat')
    as (state'' & E' & Hat'').
  - intros Hn. apply plain_row_cursor; [apply Hcur; lia|lia].
  - intros j x Hj. specialize (Hhist (S j) x Hj). lia.
  - exists state''. cbn [imap]. unfold try_for. cbn [foldl mbind option_bind]. rewrite Nat.add_0_r, E.
    assert (forall {A} (l : list A), imap ((fun i x => (n + i, x)%nat) ∘ S) l = imap (fun i x => (S n + i, x)%nat) l)
      as Hshift by (intros A l; apply imap_ext; intros; simpl; f_equal; lia).
    rewrite !Hshift. done.
Qed.

(** A screen whose bookkeeping is true and whose history lines are the
    encodings of the rows [history]. *)
Record screen_ok (row_count column_count : nat) (history : list Row) (screen : PrimaryScreen) : Prop :=
  { sc_grid : grid_ok row_count column_count (primary screen);
    sc_history : Forall2 history_line history (retained_lines (scrollback screen)) }.

(** Every row of the screen, oldest first. *)
Definition all_rows (history : list Row) (screen : PrimaryScreen) : list Row :=
  history ++ view (primary screen).

Lemma list_screen_rows_view row_count column_count grid :
  grid_ok row_count column_count grid -> list_screen_rows grid = view grid.
Proof.
  intros [_ Hl Hb _]. unfold list_screen_rows, grid_list_row_cells, view. apply list_eq. intros i.
  rewrite list_lookup_imap, !list_lookup_fmap. destruct (rows grid !! i) as [row|] eqn:E; [|done].
  cbn [fmap option_fmap option_map]. unfold row_view, get_row_metadata, usize_as_u16.
  pose proof (lookup_lt_Some _ _ _ E). rewrite as_u16_exact by lia. by rewrite Nat2N.id, E.
Qed.

Definition cursor_index (screen : PrimaryScreen) : nat :=
  (length (retained_lines (scrollback screen)) + N.to_nat (primary_cursor_row screen))%nat.

Definition plain_of (column_count : N) (history : list Row) (screen : PrimaryScreen) : PlainReflow :=
  plain_reflow column_count (cursor_index screen) (N.to_nat (primary_cursor_column screen))
    (all_rows history screen).

(** [output] is the plain reflow, encoded. *)
Definition output_is (column_count : N) (s : Style) (output : ReflowOutput) (p : PlainReflow) : Prop :=
  represents column_count s output (plain_lines p)
  /\ source_rows output = plain_source_rows p
  /\ (new_cursor_physical_row_index output, new_cursor_column_index output) = plain_cursor_at p.

Lemma rewrap_primary_ok row_count old_column_count history screen column_count s :
  screen_ok row_count old_column_count history screen -> Style_wf s -> column_count <= U16_MAX ->
  exists output,
    rewrap_primary_rows column_count s screen = Some (output, (take_retained_lines (scrollback screen)).2)
    /\ output_is column_count s output (plain_of column_count history screen).
Proof.
  intros [Hg Hh] Hs Hc. unfold rewrap_primary_rows. cbn [take_retained_lines snd].
  rewrite (list_screen_rows_view _ _ _ Hg). fold (cursor_index screen).
  set (physical_rows := (History <$> _) ++ _).
  assert (Forall2 holds_row (all_rows history screen) physical_rows) as Hrows.
  { apply Forall2_app; [apply Forall2_fmap_r; eapply Forall2_impl; [exact Hh|done]|].
    apply Forall2_fmap_r, Forall_Forall2_diag. unfold view. apply Forall_fmap.
    eapply Forall_impl; [apply (gk_rows _ _ _ Hg)|]. intros row Hrow. simpl.
    split; [by destruct row|]. split; [apply (rk_wf _ _ Hrow)|apply (rk_canonical _ _ Hrow)]. }
  destruct (rewrap_loop_ok column_count s (cursor_index screen) (N.to_nat (primary_cursor_column screen)) 0
    (all_rows history screen) physical_rows
    (from_column_count column_count s, MkLogicalLine [] [], None) plain_start Hrows Hs Hc)
    as ([[output line] cursor] & E & Hat).
  - by split.
  - done.
  - intros j x Hj. unfold physical_rows in Hj. apply lookup_app_Some in Hj as [Hj|[_ Hj]].
    + apply lookup_lt_Some in Hj. rewrite length_fmap in Hj. unfold cursor_index. lia.
    + apply list_lookup_fmap_Some in Hj as (row & ? & _). done.
  - change (imap (fun i row => (0 + i, row)%nat) physical_rows) with (enumerate physical_rows) in E.
    rewrite E. cbn [mbind option_bind]. unfold plain_of, plain_reflow, plain_finish.
    change (enumerate (all_rows history screen))
      with (imap (fun i (row : Row) => (0 + i, row)%nat) (all_rows history screen)).
    set (p := foldl _ _ _) in *. pose proof Hat as [H1 H2 H3 H4 H5 H6 H7]. cbn [fst snd] in *.
    rewrite H3, H4. destruct (_ || _).
    + destruct (rewrap_at_hard _ _ _ _ _ _ Hat Hs Hc) as (o & -> & [R1 R2 _ _ _ R6 _]). by exists o.
    + by exists output.
Qed.
