(* ===== verification/ReflowKeep.v ===== *)
(** * Rows kept as they are

    [keep_primary_rows] gives what the re-wrap gives, without re-wrapping: the
    same rows, line shapes, source rows and cursor. *)

From S2P Require Import Prelude Varint Style Cell RowEncoder RowDecoder RowItems RowRoundTrip RowContract Snapshot.
From S2P Require Import Grid GridView Scrollback Reflow ReflowPlain ReflowRewrap.
From stdpp Require Import options.
#[local] Open Scope N_scope.

(** ** Offsets in a line *)

Definition row_lengths (rows : list Row) : list nat := (fun row => length row.1) <$> rows.

Lemma rows_join_cons (row : Row) rows : mjoin (row :: rows).*1 = row.1 ++ mjoin rows.*1.
Proof. done. Qed.

Lemma row_lengths_cons row rows : row_lengths (row :: rows) = length row.1 :: row_lengths rows.
Proof. done. Qed.

Lemma rows_cells_length (rows : list Row) : length (mjoin rows.*1) = sum_list (row_lengths rows).
Proof.
  induction rows as [|row rows IH]; [done|]. rewrite rows_join_cons, row_lengths_cons, length_app, IH. done.
Qed.

(** An offset inside a row, or past the end of the last row. *)
Lemma locate_split i pre n post c :
  (c < n)%nat \/ post = [] ->
  locate_from i (pre ++ n :: post) (sum_list pre + c) = ((i + length pre)%nat, c).
Proof.
  intros H. revert i. induction pre as [|m pre IH]; intros i.
  - cbn [app locate_from length]. change (sum_list [] + c)%nat with c. assert ((c <? n)%nat || bool_decide (post = []) = true) as ->; [|f_equal; lia].
    destruct H as [H| ->]; [by rewrite (proj2 (Nat.ltb_lt _ _) H)|by rewrite bool_decide_eq_true_2, orb_true_r].
  - cbn [app locate_from length]. change (sum_list (m :: pre)) with (m + sum_list pre)%nat.
    rewrite (proj2 (Nat.ltb_ge _ _)), bool_decide_eq_false_2 by (lia || by destruct pre). cbn [orb].
    replace (m + sum_list pre + c - m)%nat with (sum_list pre + c)%nat by lia. rewrite IH. f_equal. lia.
Qed.

(** Where the marked rows of a line start. *)
Fixpoint marks_of (start : nat) (rows : list Row) : list nat :=
  match rows with
  | [] => []
  | row :: rows =>
      (if has_prompt_mark row.2 then [start] else []) ++ marks_of (start + length row.1) rows
  end.

Lemma marks_of_app start rows rows' :
  marks_of start (rows ++ rows') = marks_of start rows ++ marks_of (start + length (mjoin rows.*1)) rows'.
Proof.
  revert start. induction rows as [|row rows IH]; intros start; [by rewrite Nat.add_0_r|].
  cbn [app marks_of]. rewrite IH, <- app_assoc, rows_join_cons, length_app. do 3 f_equal. lia.
Qed.

Lemma elem_of_marks_of start rows offset :
  offset ∈ marks_of start rows <->
  exists pre row post, rows = pre ++ row :: post /\ has_prompt_mark row.2 = true
    /\ offset = (start + sum_list (row_lengths pre))%nat.
Proof.
  revert start. induction rows as [|row rows IH]; intros start.
  - cbn. split; [by intros ?%elem_of_nil|]. by intros ([|] & ? & ? & ? & _).
  - cbn [marks_of]. rewrite elem_of_app, IH. split.
    + intros [H|(pre & r & post & -> & Hm & ->)].
      * destruct (has_prompt_mark row.2) eqn:E; [|by apply elem_of_nil in H].
        apply list_elem_of_singleton in H as ->. exists [], row, rows. cbn. split; [done|]. split; [done|lia].
      * exists (row :: pre), r, post. split; [done|]. split; [done|].
        rewrite row_lengths_cons. simpl. lia.
    + intros ([|r0 pre] & r & post & E & Hm & ->).
      * injection E as <- <-. left. rewrite Hm. apply list_elem_of_singleton. cbn. lia.
      * injection E as <- ->. right. exists pre, r, post. split; [done|]. split; [done|].
        rewrite row_lengths_cons. simpl. lia.
Qed.

(** The rows a line's prompt marks are found in are the marked ones. *)
Lemma marked_rows_of rows last_row :
  Forall (fun row : Row => row.1 <> []) rows ->
  forall i row, (rows ++ [last_row]) !! i = Some row ->
  bool_decide (i ∈ marked_rows (row_lengths (rows ++ [last_row])) (marks_of 0 (rows ++ [last_row])))
  = has_prompt_mark row.2.
Proof.
  intros Hne i row Hi.
  assert (forall pre r post, rows ++ [last_row] = pre ++ r :: post ->
    (locate_content_cell_offset (row_lengths (rows ++ [last_row])) (0 + sum_list (row_lengths pre))).1
    = length pre) as Hloc.
  { intros pre r post E. rewrite E. unfold row_lengths. rewrite fmap_app, fmap_cons.
    unfold locate_content_cell_offset. rewrite Nat.add_0_l, <- (Nat.add_0_r (sum_list _)).
    rewrite locate_split; [by rewrite length_fmap|].
    destruct post as [|r' post]; [by right|left].
    assert (r ∈ rows) as Hr.
    { destruct post as [|p post _] using rev_ind.
      - replace (pre ++ [r; r']) with ((pre ++ [r]) ++ [r']) in E by (by rewrite <- app_assoc).
        apply app_inj_tail in E as [-> _]. apply elem_of_app. right. by apply list_elem_of_singleton.
      - replace (pre ++ r :: r' :: post ++ [p]) with ((pre ++ r :: r' :: post) ++ [p]) in E by (by rewrite <- app_assoc).
        apply app_inj_tail in E as [-> _]. apply elem_of_app. right. constructor. }
    rewrite Forall_forall in Hne. specialize (Hne _ Hr). destruct r.1; [done|simpl; lia]. }
  destruct (has_prompt_mark row.2) eqn:Em.
  - apply bool_decide_eq_true. unfold marked_rows. apply list_elem_of_fmap.
    pose proof (lookup_lt_Some _ _ _ Hi) as Hle. apply take_drop_middle in Hi. symmetry in Hi. pose proof (Hloc _ _ _ Hi) as Hl.
    exists (0 + sum_list (row_lengths (take i (rows ++ [last_row]))))%nat. split.
    + etrans; [|symmetry; exact Hl]. rewrite length_take. symmetry. apply Nat.min_l, Nat.lt_le_incl, Hle.
    + apply elem_of_marks_of. by eexists _, _, _.
  - apply bool_decide_eq_false. intros H. unfold marked_rows in H. apply list_elem_of_fmap in H as (o & Ho & Hin).
    apply elem_of_marks_of in Hin as (pre & r & post & E & Hm & ->). rewrite (Hloc _ _ _ E) in Ho. subst i.
    rewrite E, list_lookup_middle in Hi by done. injection Hi as ->. congruence.
Qed.

(** ** Kept rows *)

(** A row with only its content cells. *)
Definition content_row (row : Row) : Row := (row_content row, row.2).
Definition strip (row : Row) : list Cell * RowEnd := (row.1, row_end row.2).

(** The cells a snapshot keeps decoded are those its bytes decode to. *)
Definition cache_ok (s : RowSnapshot) : Prop :=
  decoded_row_cells s = None \/ decoded_row_cells s = snapshot_decode_row_cells s.

Lemma history_line_cache row s : history_line row s -> cache_ok s.
Proof.
  intros H. destruct (hl_cache _ _ H) as [E|E]; [by left|right].
  destruct (history_line_snapshot _ _ H) as [Hs _]. destruct (snapshot_reads _ _ _ [] Hs) as (_ & _ & -> & _).
  done.
Qed.

(** Rows that hold the same, but for the cells the second keeps decoded. *)
Definition same_row (row row' : RewrappedRow) : Prop :=
  row_cell_count row = row_cell_count row'
  /\ uncached (rewrapped_snapshot row) = uncached (rewrapped_snapshot row')
  /\ cache_ok (rewrapped_snapshot row').

(** What a row that continues a line has to start with. *)
Definition starts_after (previous : RowEnd) (cells : list Cell) : Prop :=
  match previous with
  | Hard => True
  | Soft => cells <> []
  | SoftWide => is_wide_glyph_first cells = true
  end.

Lemma strip_cells (rows : list Row) : (strip <$> rows).*1 = rows.*1.
Proof. rewrite <- list_fmap_compose. by apply list_fmap_ext. Qed.

Lemma starts_wide_app cells cells' : is_wide_glyph_first cells = true -> is_wide_glyph_first (cells ++ cells') = true.
Proof. by destruct cells. Qed.

(** A wide glyph at the start of a row is content. *)
Lemma wide_first_content row_cells :
  is_wide_glyph_first row_cells = true ->
  is_wide_glyph_first (take (count_row_content_cells row_cells) row_cells) = true.
Proof.
  intros H. pose proof (row_content_split row_cells) as E. cbv zeta in E.
  pose proof (count_row_content_cells_spec row_cells) as (Hk & _).
  destruct (take (count_row_content_cells row_cells) row_cells) as [|c l] eqn:Et.
  - simpl in E. rewrite E in H. by destruct (length row_cells - count_row_content_cells row_cells)%nat.
  - rewrite E in H. done.
Qed.

Lemma from_row_cells_uncached row_cells metadata x :
  from_row_cells row_cells metadata = Some x -> uncached x = x.
Proof.
  unfold from_row_cells. destruct (u16_try_from _) as [n|]; [|done]. cbn [mbind option_bind].
  unfold from_padded_row_cells. destruct (encode_padded_row_cells _ _ _ _) as [[b t]|]; [|done].
  cbn [mbind option_bind]. by intros [= <-].
Qed.


Section kept.
Context (column_count : N) (s : Style) (cursor_index cursor_column : nat).
Hypothesis columns : 2 <= column_count <= U16_MAX.
Hypothesis cursor_in_row : (cursor_column < N.to_nat column_count)%nat.
Hypothesis style_ok : Style_wf s.

Set Default Proof Using "All".

(** A row of the screen's width that no wide glyph leaves. *)
Record kept_row_ok (row : Row) : Prop :=
  { kr_width : length row.1 = N.to_nat column_count;
    kr_cells : cells_ok row.1;
    kr_last : ends_wide row.1 = false }.

(** Its last cell, where it is soft-wide. *)
Definition spacer_ok (row : Row) : Prop :=
  row_end row.2 = SoftWide -> last row.1 = Some (build_blank_with_style s).

Lemma content_length_le row : kept_row_ok row -> (length (row_content row) <= N.to_nat column_count)%nat.
Proof.
  intros [H _ _]. rewrite row_content_length. pose proof (count_row_content_cells_spec row.1) as (Hk & _).
  destruct (row_end row.2); lia.
Qed.

Lemma kept_full_row row :
  kept_row_ok row -> spacer_ok row ->
  length (full_row s (content_row row))
  = match row_end row.2 with Hard => count_row_content_cells row.1 | _ => N.to_nat column_count end
  /\ padded column_count (full_row s (content_row row)) = row.1.
Proof.
  intros [Hl _ _] Hs. rewrite full_row_length. cbn [content_row fst snd]. rewrite row_content_length.
  unfold full_row, content_row, row_content. cbn [fst snd]. destruct (row_end row.2) eqn:E.
  - rewrite bool_decide_eq_false_2, Nat.add_0_r, app_nil_r by done. split; [done|]. unfold padded.
    pose proof (count_row_content_cells_spec row.1) as (Hk & _). rewrite length_take, Nat.min_l by done.
    rewrite <- Hl. symmetry. apply row_content_split.
  - rewrite bool_decide_eq_false_2, Nat.add_0_r, app_nil_r by done. split; [done|]. by apply padded_full.
  - rewrite bool_decide_eq_true_2 by done. split; [lia|]. specialize (Hs E).
    destruct row.1 as [|c l _] using rev_ind; [done|]. rewrite last_snoc in Hs. injection Hs as ->.
    rewrite length_app in *. simpl in Hl |- *. rewrite Nat.add_sub, take_app_length.
    apply padded_full. rewrite length_app. simpl. lia.
Qed.

Lemma kept_encode row :
  kept_row_ok row -> spacer_ok row ->
  exists r, encode_row column_count s (content_row row) = Some r
    /\ row_cell_count r = length (full_row s (content_row row))
    /\ from_row_cells row.1 row.2 = Some (rewrapped_snapshot r)
    /\ uncached (rewrapped_snapshot r) = rewrapped_snapshot r.
Proof.
  intros Hrow Hs. destruct (kept_full_row row Hrow Hs) as [Hl Hp]. pose proof Hrow as [Hw Hok _].
  pose proof (count_row_content_cells_spec row.1) as (Hk & _).
  assert (length (full_row s (content_row row)) <= N.to_nat column_count)%nat as Hle
    by (rewrite Hl; destruct (row_end row.2); lia).
  destruct (row_content_ok row Hok) as [Hw' Hc'].
  destruct (encode_row_some column_count s (content_row row) Hw' Hc' style_ok) as (r & E & E1 & E2 & E3); [lia|].
  rewrite N.max_l, Hp in E3 by lia. exists r. split_and!; [done|done|done|].
  unfold from_row_cells in E3. destruct (u16_try_from _) as [n|]; [|done]. cbn [mbind option_bind] in E3.
  unfold from_padded_row_cells in E3. destruct (encode_padded_row_cells _ _ _ _) as [[b t]|]; [|done].
  cbn [mbind option_bind] in E3. injection E3 as <-. done.
Qed.

Lemma content_starts previous row :
  kept_row_ok row ->
  match previous with
  | Hard => True
  | Soft => (0 < length (row_content row))%nat
  | SoftWide => is_wide_glyph_first row.1 = true
  end -> starts_after previous (row_content row).
Proof.
  intros [Hl _ _] H. destruct previous; [done|by destruct (row_content row); [simpl in H; lia|]|].
  unfold row_content, starts_after. destruct (row_end row.2); [by apply wide_first_content|done|].
  destruct row.1 as [|c [|d l]]; simpl in *; [lia|lia|done].
Qed.

(** What [push_kept_row] gives when it keeps the row. *)
Lemma push_kept_inv row has_leading has_trailing kept n kept' :
  output_column_count (reflow_output kept) = column_count -> kept_row_ok row ->
  push_kept_row row.2 (count_row_content_cells row.1) has_leading has_trailing kept = Some (n, kept') ->
  let output := reflow_output kept in
  let is_hard := bool_decide (row_end row.2 = Hard) in
  let index_after := (length (source_rows output) + 1)%nat in
  n = match row_end row.2 with Hard => count_row_content_cells row.1 | _ => N.to_nat column_count end
  /\ match previous_row_end kept with
     | Hard => True
     | Soft => (0 < length (row_content row))%nat
     | SoftWide => has_leading = true
     end
  /\ (row_end row.2 = SoftWide -> has_trailing = true)
  /\ kept' = MkKeptRowReflow
       (MkReflowOutput (output_column_count output) (background_style output) (rewrapped_rows output)
          (rewrapped_line_shapes output
             ++ if is_hard then [MkRewrappedLineShape (current_line_first_row_index kept)
                                   (index_after - current_line_first_row_index kept)] else [])
          (rewrapped_row_content_cell_counts output ++ [length (row_content row)])
          (source_rows output
             ++ [MkSourceRow (length (rewrapped_line_shapes output)) (current_line_cell_count kept)
                   (length (row_content row)) (row_end row.2)])
          (new_cursor_physical_row_index output) (new_cursor_column_index output))
       (if is_hard then index_after else current_line_first_row_index kept)
       (if is_hard then 0 else current_line_cell_count kept + length (row_content row))%nat
       (row_end row.2).
Proof.
  intros Hcols Hrow H. cbv zeta. rewrite row_content_length, (kr_width _ Hrow).
  unfold push_kept_row in H. rewrite Hcols in H.
  destruct (row_end row.2) eqn:E; cbn in H; rewrite ?app_nil_r.
  all: destruct (previous_row_end kept) eqn:Ep; cbn in H.
  all: repeat match type of H with
    | (if ?b then _ else _) = Some _ => let Eb := fresh "Eb" in destruct b eqn:Eb; [done|]
    end.
  all: bools; rewrite ?length_app in H; cbn [length] in H; injection H as <- <-; try done.
  all: split_and!; try done; try lia.
  all: try (by destruct has_trailing); try (by destruct has_leading).
  all: try (intros _; destruct has_trailing; [done|];
    match goal with H : _ \/ _ |- _ => by destruct H end).
  by destruct (count_row_content_cells row.1); [|lia].
Qed.

(** ** The kept rows and the plain reflow, side by side *)

(** Where the cursor is: after the [done] rows of ended lines and the pending
    rows, in an ended line, or in the pending one. *)
Inductive cursor_agrees (at_row : nat * nat) (p : PlainReflow) (ended : nat) (pend : list Row) : Prop :=
  | cursor_ahead :
      (ended + length pend <= cursor_index)%nat -> plain_cursor p = None ->
      plain_cursor_at p = (0, 0)%nat -> at_row = (0, 0)%nat -> cursor_agrees at_row p ended pend
  | cursor_behind :
      (cursor_index < ended)%nat -> plain_cursor p = None ->
      plain_cursor_at p = (cursor_index, cursor_column) -> at_row = (cursor_index, cursor_column) ->
      cursor_agrees at_row p ended pend
  | cursor_in_line pre row post :
      pend = pre ++ row :: post -> cursor_index = (ended + length pre)%nat ->
      plain_cursor p = Some (sum_list (row_lengths pre) + cursor_column)%nat ->
      (cursor_column < length row.1)%nat -> at_row = (cursor_index, cursor_column) ->
      cursor_agrees at_row p ended pend.

(** [pend] are the rows of the line no row has ended yet. *)
Record kept_at (kept : KeptRowReflow) (p : PlainReflow) (pend : list Row) : Prop :=
  { ka_cells : plain_cells p = mjoin pend.*1;
    ka_marks : plain_marks p = marks_of 0 pend;
    ka_nonempty : Forall (fun row : Row => row.1 <> []) pend;
    ka_wraps : forall rows, wrapped (N.to_nat column_count) rows ->
      starts_after (previous_row_end kept) (mjoin rows.*1) ->
      wrapped (N.to_nat column_count) ((strip <$> pend) ++ rows);
    ka_previous : pend = [] <-> previous_row_end kept = Hard;
    ka_first : current_line_first_row_index kept = length (mjoin (plain_lines p));
    ka_count : current_line_cell_count kept = length (mjoin pend.*1);
    ka_columns : output_column_count (reflow_output kept) = column_count;
    ka_style : background_style (reflow_output kept) = s;
    ka_rows : exists encoded,
      mapM (encode_row column_count s) (mjoin (plain_lines p) ++ pend) = Some encoded
      /\ Forall2 same_row encoded (rewrapped_rows (reflow_output kept));
    ka_shapes : rewrapped_line_shapes (reflow_output kept) = shapes_of 0 (plain_lines p);
    ka_counts : rewrapped_row_content_cell_counts (reflow_output kept)
      = row_lengths (mjoin (plain_lines p) ++ pend);
    ka_sources : source_rows (reflow_output kept) = plain_source_rows p;
    ka_source_count : length (plain_source_rows p) = length (mjoin (plain_lines p) ++ pend);
    ka_cursor : cursor_agrees (new_cursor_physical_row_index (reflow_output kept),
                                new_cursor_column_index (reflow_output kept)) p
                  (length (mjoin (plain_lines p))) pend }.

Lemma kept_at_count kept p pend :
  kept_at kept p pend ->
  length (rewrapped_rows (reflow_output kept)) = (length (mjoin (plain_lines p)) + length pend)%nat.
Proof.
  intros H. destruct (ka_rows _ _ _ H) as (encoded & E & H2). apply mapM_length_eq in E.
  apply Forall2_length in H2. rewrite <- H2, E, length_app. done.
Qed.

(** The wrapping a row that ends the line completes. *)
Lemma kept_line_wraps kept p pend row :
  kept_at kept p pend -> kept_row_ok row -> row_end row.2 = Hard ->
  starts_after (previous_row_end kept) (row_content row) ->
  wrapped (N.to_nat column_count) (strip <$> (pend ++ [content_row row])).
Proof.
  intros H Hrow He Hs. rewrite fmap_app.
  assert (strip <$> [content_row row] = [(row_content row, Hard)]) as -> by (cbn; unfold strip; cbn; by rewrite He).
  apply (ka_wraps _ _ _ H); [|by rewrite row_cells_cons; simpl; rewrite app_nil_r].
  constructor; [by apply content_length_le|]. intros Hl.
  unfold row_content in *. rewrite He in *. pose proof Hrow as [Hw _ Hlast].
  rewrite length_take in Hl. by rewrite take_ge by lia.
Qed.

(** So the line wraps into its own rows, marks and all. *)
Lemma kept_line_rows kept p pend row :
  kept_at kept p pend -> kept_row_ok row -> row_end row.2 = Hard ->
  starts_after (previous_row_end kept) (row_content row) ->
  let rows := pend ++ [content_row row] in
  line_rows column_count (mjoin rows.*1) (marks_of 0 rows) = rows.
Proof.
  intros H Hrow He Hs rows. pose proof (kept_line_wraps _ _ _ _ H Hrow He Hs) as Hw. fold rows in Hw.
  assert (wrap_line column_count (mjoin rows.*1) = strip <$> rows) as Ewrap.
  { rewrite <- (strip_cells rows).
    destruct (wrap_line_rows column_count (mjoin (strip <$> rows).*1)) as (rows' & H1 & H2 & _ & H4); [lia|].
    rewrite H4. rewrite N.max_l in H1 by lia. by apply (wrapped_unique _ _ _ H1 Hw). }
  unfold line_rows. rewrite Ewrap.
  assert ((fun row : list Cell * RowEnd => length row.1) <$> (strip <$> rows) = row_lengths rows) as ->
    by (rewrite <- list_fmap_compose; by apply list_fmap_ext).
  apply list_eq. intros i. rewrite list_lookup_imap, list_lookup_fmap.
  destruct (rows !! i) as [row'|] eqn:E; [|done]. cbn [fmap option_fmap option_map strip fst snd].
  pose proof (marked_rows_of pend (content_row row) (ka_nonempty _ _ _ H) i row' E) as Em.
  fold rows in Em. rewrite Em.
  by destruct row' as [cells [e m]].
Qed.

(** *** The cursor *)

(** The plain reflow with a row read, before it is pushed. *)
Definition plain_read (p : PlainReflow) (i : nat) (row : Row) : PlainReflow :=
  let start := length (plain_cells p) in
  let content := row_content row in
  MkPlainReflow (plain_lines p)
    (plain_source_rows p ++ [MkSourceRow (length (plain_lines p)) start (length content) (row_end row.2)])
    (plain_cells p ++ content)
    (plain_marks p ++ if has_prompt_mark row.2 then [start] else [])
    (if (i =? cursor_index)%nat
     then Some (start + if bool_decide (row_end row.2 = Hard) then cursor_column
                        else cursor_column `min` length content)%nat
     else plain_cursor p)
    (plain_cursor_at p).

Lemma plain_row_eq p i row :
  plain_row column_count cursor_index cursor_column p (i, row)
  = if bool_decide (row_end row.2 = Hard) then plain_push column_count (plain_read p i row)
    else plain_read p i row.
Proof using Type. done. Qed.

Lemma pend_length (pend : list Row) : length (mjoin pend.*1) = sum_list (row_lengths pend).
Proof. apply rows_cells_length. Qed.

Lemma cursor_soft at_row p ended pend row :
  cursor_agrees at_row p ended pend -> plain_cells p = mjoin pend.*1 -> row_end row.2 <> Hard ->
  (ended + length pend = cursor_index -> cursor_column < length (row_content row))%nat ->
  let i := (ended + length pend)%nat in
  cursor_agrees (if (i =? cursor_index)%nat then (cursor_index, cursor_column) else at_row)
    (plain_read p i row) ended (pend ++ [content_row row]).
Proof.
  intros H Hcells He Hcol i. destruct (i =? cursor_index)%nat eqn:Ei; bools.
  - apply cursor_in_line with (pre := pend) (row := content_row row) (post := []); [done|done| |by apply Hcol|done].
    unfold plain_read. cbn [plain_cursor]. rewrite (proj2 (Nat.eqb_eq _ _) Ei), bool_decide_eq_false_2 by done.
    specialize (Hcol Ei). rewrite Hcells, pend_length. do 2 f_equal. lia.
  - unfold i in *. assert (plain_cursor (plain_read p (ended + length pend) row) = plain_cursor p) as Ep
      by (unfold plain_read; cbn [plain_cursor]; by rewrite (proj2 (Nat.eqb_neq _ _) Ei)).
    destruct H as [H1 H2 H3 H4|H1 H2 H3 H4|pre r post H1 H2 H3 H4 H5].
    + apply cursor_ahead; [rewrite length_app; simpl; lia|by rewrite Ep|done|done].
    + apply cursor_behind; [done|by rewrite Ep|done|done].
    + apply cursor_in_line with (pre := pre) (row := r) (post := post ++ [content_row row]);
        [by rewrite H1, <- app_assoc|done|by rewrite Ep|done|done].
Qed.

Lemma cursor_hard at_row p pend row :
  cursor_agrees at_row p (length (mjoin (plain_lines p))) pend -> plain_cells p = mjoin pend.*1 ->
  row_end row.2 = Hard ->
  let i := (length (mjoin (plain_lines p)) + length pend)%nat in
  let p' := plain_read p i row in
  line_rows column_count (plain_cells p') (plain_marks p') = pend ++ [content_row row] ->
  cursor_agrees (if (i =? cursor_index)%nat then (cursor_index, cursor_column) else at_row)
    (plain_push column_count p') (i + 1) [].
Proof.
  intros H Hcells He i p' Hrows. unfold plain_push. rewrite (proj2 (N.leb_gt _ _)) by lia. rewrite Hrows.
  fold (row_lengths (pend ++ [content_row row])).
  assert (forall pre r post, pend ++ [content_row row] = pre ++ r :: post ->
    (cursor_column < length r.1)%nat \/ post = [] ->
    locate_content_cell_offset (row_lengths (pend ++ [content_row row]))
      (sum_list (row_lengths pre) + cursor_column) = (length pre, cursor_column)) as Hloc.
  { intros pre r post E Hr. rewrite E. unfold row_lengths. rewrite fmap_app, fmap_cons.
    unfold locate_content_cell_offset. rewrite locate_split; [by rewrite length_fmap|].
    destruct Hr as [Hr| ->]; [by left|by right]. }
  destruct (i =? cursor_index)%nat eqn:Ei; bools.
  - apply cursor_behind; cbn [plain_cursor plain_cursor_at]; [lia|done| |done].
    unfold p', plain_read. cbn [plain_cursor plain_lines].
    rewrite (proj2 (Nat.eqb_eq _ _) Ei), bool_decide_eq_true_2 by done.
    rewrite Hcells, pend_length, (Hloc pend (content_row row) []) by (done || by right). by rewrite <- Ei.
  - assert (plain_cursor p' = plain_cursor p) as Ep
      by (unfold p', plain_read; cbn [plain_cursor]; by rewrite (proj2 (Nat.eqb_neq _ _) Ei)).
    rewrite Ep. unfold i in *. destruct H as [H1 H2 H3 H4|H1 H2 H3 H4|pre r post H1 H2 H3 H4 H5]; rewrite ?H2.
    + apply cursor_ahead; cbn; [lia|done|done|done].
    + apply cursor_behind; cbn; [lia|done|done|done].
    + rewrite H3. rewrite (Hloc pre r (post ++ [content_row row]));
        [|by rewrite H1, <- app_assoc|by left].
      apply cursor_behind; cbn; [|done|by rewrite H2|done].
      apply (f_equal length) in H1. rewrite length_app in H1. simpl in H1. lia.
Qed.

(** *** One row *)

Ltac kept_fields :=
  cbn [push_rewrapped_row reflow_output rewrapped_row_content_cell_counts rewrapped_rows rewrapped_line_shapes
    source_rows new_cursor_physical_row_index new_cursor_column_index output_column_count previous_row_end
    current_line_cell_count current_line_first_row_index].

Lemma rows_snoc kept row r m :
  (exists encoded, mapM (encode_row column_count s) m = Some encoded
     /\ Forall2 same_row encoded (rewrapped_rows (reflow_output kept))) ->
  kept_row_ok row -> spacer_ok row ->
  row_cell_count r
  = match row_end row.2 with Hard => count_row_content_cells row.1 | _ => N.to_nat column_count end ->
  from_row_cells row.1 row.2 = Some (uncached (rewrapped_snapshot r)) -> cache_ok (rewrapped_snapshot r) ->
  exists encoded, mapM (encode_row column_count s) (m ++ [content_row row]) = Some encoded
    /\ Forall2 same_row encoded (rewrapped_rows (reflow_output kept) ++ [r]).
Proof.
  intros (encoded & E & H) Hrow Hsp Hm Hr Hcache.
  destruct (kept_encode row Hrow Hsp) as (x & Ex & E1 & E2 & E3).
  exists (encoded ++ [x]). split; [apply mapM_app_some; [done|]; cbn [mapM]; by rewrite Ex|].
  apply Forall2_app; [done|]. constructor; [|done]. destruct (kept_full_row row Hrow Hsp) as [Hl _].
  split; [by rewrite E1, Hl|]. split; [|done]. rewrite E3. rewrite Hr in E2. by injection E2.
Qed.

Lemma kept_row_step kept p pend row has_leading has_trailing m kept' r :
  let n := (length (mjoin (plain_lines p)) + length pend)%nat in
  let kept0 := if (n =? cursor_index)%nat then set_new_cursor n cursor_column kept else kept in
  kept_at kept p pend -> kept_row_ok row ->
  (previous_row_end kept = SoftWide -> has_leading = true -> is_wide_glyph_first row.1 = true) ->
  (row_end row.2 = SoftWide -> has_trailing = true -> last row.1 = Some (build_blank_with_style s)) ->
  (n = cursor_index -> row_end row.2 = SoftWide -> (cursor_column + 1 < N.to_nat column_count)%nat) ->
  push_kept_row row.2 (count_row_content_cells row.1) has_leading has_trailing kept0 = Some (m, kept') ->
  row_cell_count r = m -> from_row_cells row.1 row.2 = Some (uncached (rewrapped_snapshot r)) ->
  cache_ok (rewrapped_snapshot r) ->
  exists pend', kept_at (push_rewrapped_row r kept')
    (plain_row column_count cursor_index cursor_column p (n, row)) pend'.
Proof.
  intros n kept0 H Hrow Hlead Htrail Hcol Hpush Hm Hr Hcache. pose proof H as
    [Hcells Hmarks Hne Hwraps Hprev Hfirst Hcount Hcols Hstyle Hrows Hshapes Hcounts Hsrc Hsrcn Hcur].
  assert (previous_row_end kept0 = previous_row_end kept) as E0 by (unfold kept0; by destruct (n =? _)%nat).
  assert (current_line_first_row_index kept0 = current_line_first_row_index kept) as E1 by (unfold kept0; by destruct (n =? _)%nat).
  assert (current_line_cell_count kept0 = current_line_cell_count kept) as E2 by (unfold kept0; by destruct (n =? _)%nat).
  assert (reflow_output kept0 = MkReflowOutput column_count s (rewrapped_rows (reflow_output kept))
    (shapes_of 0 (plain_lines p)) (row_lengths (mjoin (plain_lines p) ++ pend)) (plain_source_rows p)
    (if (n =? cursor_index)%nat then cursor_index else new_cursor_physical_row_index (reflow_output kept))
    (if (n =? cursor_index)%nat then cursor_column else new_cursor_column_index (reflow_output kept))) as E3.
  { rewrite <- Hcols, <- Hstyle, <- Hshapes, <- Hcounts, <- Hsrc. unfold kept0.
    destruct (n =? cursor_index)%nat eqn:En; [|by destruct (reflow_output kept)]. bools. by rewrite <- En. }
  destruct (push_kept_inv row has_leading has_trailing kept0 m kept') as (Em & Hafter & Htr & ->);
    [by rewrite E3|done|done|].
  rewrite E0 in Hafter. rewrite E3, E2, E1.
  cbn [output_column_count background_style rewrapped_rows rewrapped_line_shapes
    rewrapped_row_content_cell_counts source_rows new_cursor_physical_row_index new_cursor_column_index].
  rewrite shapes_of_length, Hcount, Hfirst, <- Hcells.
  assert (starts_after (previous_row_end kept) (row_content row)) as Hstart.
  { apply content_starts; [done|]. destruct (previous_row_end kept); [done|done|by apply Hlead]. }
  assert (spacer_ok row) as Hsp by (intros Hw; by apply Htrail, Htr).
  rewrite <- Hm in Em. pose proof (rows_snoc kept row r (mjoin (plain_lines p) ++ pend) Hrows Hrow Hsp Em Hr Hcache) as Hrows'.
  rewrite plain_row_eq. fold n. set (p' := plain_read p n row).
  assert (plain_cells p' = mjoin (pend ++ [content_row row]).*1) as Hcells'.
  { unfold p', plain_read. cbn [plain_cells]. rewrite Hcells, fmap_app, join_app. cbn.
    by rewrite app_nil_r. }
  assert (plain_marks p' = marks_of 0 (pend ++ [content_row row])) as Hmarks'.
  { unfold p', plain_read. cbn [plain_marks]. rewrite marks_of_app, Hmarks, Hcells. cbn [marks_of]. by rewrite app_nil_r. }
  destruct (bool_decide (row_end row.2 = Hard)) eqn:Eh; bools.
  - assert (line_rows column_count (plain_cells p') (plain_marks p') = pend ++ [content_row row]) as Erows
      by (rewrite Hcells', Hmarks'; by apply (kept_line_rows kept p)).
    assert (mjoin (plain_lines (plain_push column_count p')) = (mjoin (plain_lines p) ++ pend) ++ [content_row row]) as Ejoin.
    { unfold plain_push. rewrite (proj2 (N.leb_gt _ _)) by lia. cbn [plain_lines]. rewrite Erows, join_app.
      change (mjoin [pend ++ [content_row row]]) with ((pend ++ [content_row row]) ++ []).
      rewrite app_nil_r. by rewrite <- app_assoc. }
    pose proof (cursor_hard _ p pend row Hcur Hcells Eh Erows) as Hcur'. fold n p' in Hcur'.
    exists []. split; try done.
    + kept_fields. rewrite Ejoin, !length_app. cbn [length]. rewrite Hsrcn, length_app. lia.
    + cbn [push_rewrapped_row reflow_output rewrapped_rows]. by rewrite app_nil_r, Ejoin.
    + unfold plain_push. rewrite (proj2 (N.leb_gt _ _)) by lia. cbn [plain_lines]. rewrite Erows.
      rewrite shapes_of_app. cbn. rewrite length_app, Hsrcn, length_app. cbn. do 3 f_equal. lia.
    + kept_fields. rewrite app_nil_r, Ejoin. unfold row_lengths. by rewrite (fmap_app _ (_ ++ _)).
    + rewrite app_nil_r, Ejoin. unfold plain_push, p', plain_read. cbn [plain_source_rows].
      rewrite !length_app, Hsrcn, length_app. simpl. lia.
    + kept_fields. rewrite Ejoin, !length_app. cbn [length]. unfold n in *. destruct (_ =? cursor_index)%nat; apply Hcur'.
  - exists (pend ++ [content_row row]). assert (mjoin (plain_lines p) ++ (pend ++ [content_row row])
      = (mjoin (plain_lines p) ++ pend) ++ [content_row row]) as Ejoin by (by rewrite app_assoc).
    assert (row_content row <> []) as Hcne.
    { intros E. apply (f_equal length) in E. rewrite row_content_length, (kr_width _ Hrow) in E. simpl in E.
      destruct (row_end row.2); [done|lia|lia]. }
    assert (n = cursor_index -> cursor_column < length (row_content row))%nat as Hcc.
    { intros En. specialize (Hcol En). rewrite row_content_length, (kr_width _ Hrow).
      destruct (row_end row.2); [done|lia|specialize (Hcol eq_refl); lia]. }
    pose proof (cursor_soft _ p _ pend row Hcur Hcells Eh Hcc) as Hcur'. fold n p' in Hcur'.
    change (plain_lines p) with (plain_lines p') in Ejoin, Hrows', Hsrcn.
    split; try done.
    + apply Forall_app. split; [done|]. by apply Forall_singleton.
    + cbn [push_rewrapped_row previous_row_end]. intros rows Hw Hs. rewrite fmap_app, <- app_assoc.
      assert (wrapped (N.to_nat column_count) (strip (content_row row) :: rows)) as Hw'.
      { unfold strip, content_row. cbn [fst snd]. pose proof (row_content_length row) as Hl.
        rewrite (kr_width _ Hrow) in Hl. destruct (row_end row.2) eqn:Ee; [done| |].
        - constructor; [done| |done|done]. unfold row_content. rewrite Ee. apply (kr_last _ Hrow).
        - constructor; [lia|done|done]. }
      apply Hwraps; [done|].
      change (mjoin (strip (content_row row) :: rows).*1) with (row_content row ++ mjoin rows.*1).
      destruct (previous_row_end kept); [done| |by apply starts_wide_app].
      cbn. intros E. by apply app_eq_nil in E as [E _].
    + split; [by destruct pend|intros Ee; cbn in Ee; done].
    + cbn. by rewrite <- Hcells', <- length_app.
    + cbn [push_rewrapped_row reflow_output rewrapped_rows]. by rewrite Ejoin.
    + cbn. by rewrite app_nil_r.
    + kept_fields. rewrite Ejoin. unfold row_lengths. by rewrite (fmap_app _ (_ ++ _)).
    + rewrite Ejoin. cbn. rewrite !length_app, Hsrcn, length_app. done.
    + kept_fields. unfold n in *. destruct (_ =? cursor_index)%nat; apply Hcur'.
Qed.

(** *** Every row *)

Lemma kept_at_next kept p pend row r kept' p' pend' m has_leading has_trailing kept0 :
  kept_at kept p pend -> rewrapped_rows (reflow_output kept0) = rewrapped_rows (reflow_output kept) ->
  output_column_count (reflow_output kept0) = column_count -> kept_row_ok row ->
  push_kept_row row.2 (count_row_content_cells row.1) has_leading has_trailing kept0 = Some (m, kept') ->
  kept_at (push_rewrapped_row r kept') p' pend' ->
  (length (mjoin (plain_lines p')) + length pend' = S (length (mjoin (plain_lines p)) + length pend))%nat.
Proof.
  intros H Hr Hc Hrow Hp H'. pose proof (kept_at_count _ _ _ H). pose proof (kept_at_count _ _ _ H') as E.
  destruct (push_kept_inv _ _ _ _ _ _ Hc Hrow Hp) as (_ & _ & _ & ->).
  cbn [push_rewrapped_row reflow_output rewrapped_rows] in E. rewrite length_app, Hr in E. simpl in E. lia.
Qed.

Lemma keep_history_ok history lines kept p pend :
  Forall2 history_line history lines -> Forall kept_row_ok history -> kept_at kept p pend ->
  let n := (length (mjoin (plain_lines p)) + length pend)%nat in
  (n + length history <= cursor_index)%nat ->
  let p' := foldl (plain_row column_count cursor_index cursor_column) p
    (imap (fun i (row : Row) => (n + i, row)%nat) history) in
  keep_history_lines column_count (build_blank_with_style s) lines kept = Some None
  \/ exists kept' pend',
       keep_history_lines column_count (build_blank_with_style s) lines kept = Some (Some kept')
       /\ kept_at kept' p' pend'
       /\ (length (mjoin (plain_lines p')) + length pend' = n + length history)%nat.
Proof.
  intros H. revert kept p pend. induction H as [|row line history lines Hline _ IH]; intros kept p pend Hrows Hat n Hn p'.
  { right. exists kept, pend. split; [done|]. split; [done|]. simpl. unfold n, p'. simpl. lia. }
  apply Forall_cons in Hrows as [Hrow Hrows]. cbn [keep_history_lines].
  destruct (history_line_snapshot _ _ Hline) as [Hsnap Hm].
  destruct (snapshot_reads _ _ _ [] Hsnap) as (-> & _ & Hdec & _). cbn [mbind option_bind shape_trailing_blank_count].
  rewrite Hm, (kr_width _ Hrow).
  set (decoded := if _ || _ then _ else Some []).
  assert (exists cells, decoded = Some cells /\
    (previous_row_end kept = SoftWide \/ row_end row.2 = SoftWide -> cells = row.1)) as (cells & -> & Hcells).
  { unfold decoded. destruct (_ || _) eqn:E.
    - exists row.1. done.
    - exists []. split; [done|]. apply orb_false_iff in E as [E1 E2]. bools. by intros []. }
  cbn [mbind option_bind].
  set (k := count_row_content_cells row.1). pose proof (count_row_content_cells_spec row.1) as (Hk & _).
  fold k in Hk. rewrite (kr_width _ Hrow) in Hk.
  assert (N.to_nat (u16_sub column_count (N.of_nat (N.to_nat column_count - k))) = k) as ->
    by (rewrite u16_sub_exact by lia; lia).
  destruct (push_kept_row _ _ _ _ _) as [[m kept']|] eqn:Ep; [|by left].
  assert ((n =? cursor_index)%nat = false) as En by (apply Nat.eqb_neq; simpl in Hn; lia).
  destruct (kept_row_step kept p pend row (is_wide_glyph_first cells)
    (bool_decide (last cells = Some (build_blank_with_style s))) m kept' (MkRewrappedRow line m) Hat Hrow)
    as (pend' & Hat').
  - intros E1 E2. by rewrite <- (Hcells (or_introl E1)).
  - intros E1 E2. rewrite <- (Hcells (or_intror E1)). by bools.
  - intros E. fold n in E. simpl in Hn. lia.
  - fold n. rewrite En. exact Ep.
  - done.
  - apply (hl_encoded _ _ Hline).
  - by apply (history_line_cache row).
  - fold n in Hat'. pose proof (kept_at_next _ _ _ _ _ _ _ _ _ _ _ _ Hat eq_refl (ka_columns _ _ _ Hat) Hrow Ep Hat') as Hnext.
    fold n in Hnext. destruct (IH _ _ _ Hrows Hat') as [E|(kept2 & pend2 & E & Hat2 & Hn2)].
    + rewrite Hnext. simpl in Hn. lia.
    + by left.
    + right. exists kept2, pend2. unfold p'. cbn [imap foldl]. rewrite Nat.add_0_r.
      rewrite Hnext in Hat2, Hn2.
      assert (imap ((fun i (row : Row) => (n + i, row)%nat) ∘ S) history
        = imap (fun i (row : Row) => (S n + i, row)%nat) history) as ->
        by (apply imap_ext; intros; simpl; f_equal; lia).
      split; [done|]. split; [done|]. simpl. simpl in Hn2. lia.
Qed.

Lemma keep_screen_ok screen_rows kept p pend :
  Forall kept_row_ok screen_rows -> kept_at kept p pend ->
  let n := (length (mjoin (plain_lines p)) + length pend)%nat in
  let p' := foldl (plain_row column_count cursor_index cursor_column) p
    (imap (fun i (row : Row) => (n + i, row)%nat) screen_rows) in
  keep_screen_rows column_count (build_blank_with_style s) cursor_index cursor_column screen_rows kept = Some None
  \/ exists kept' pend',
       keep_screen_rows column_count (build_blank_with_style s) cursor_index cursor_column screen_rows kept
         = Some (Some kept')
       /\ kept_at kept' p' pend'.
Proof.
  intros Hrows. revert kept p pend. induction Hrows as [|row rows Hrow _ IH]; intros kept p pend Hat n p'.
  { right. by exists kept, pend. }
  destruct row as [cells metadata] eqn:Erow. rewrite <- Erow in Hrow. cbn [keep_screen_rows].
  rewrite (kept_at_count _ _ _ Hat). fold n.
  destruct (_ && _ && _) eqn:Ecur; [by left|].
  set (kept0 := if (n =? cursor_index)%nat then set_new_cursor n cursor_column kept else kept).
  destruct (push_kept_row _ _ _ _ kept0) as [[m kept']|] eqn:Ep; [|by left].
  assert (rewrapped_rows (reflow_output kept0) = rewrapped_rows (reflow_output kept)
    /\ output_column_count (reflow_output kept0) = column_count) as [E0 E1]
    by (unfold kept0; destruct (n =? cursor_index)%nat; split; done || apply (ka_columns _ _ _ Hat)).
  assert (cells = row.1 /\ metadata = row.2) as [Ec Em] by (by rewrite Erow).
  rewrite Ec, Em in Ep |- *. destruct (push_kept_inv _ _ _ _ _ _ E1 Hrow Ep) as (Hm & _ & _ & _).
  pose proof (count_row_content_cells_spec row.1) as (Hk & _). rewrite (kr_width _ Hrow) in Hk.
  pose proof (kr_cells _ Hrow) as [Hw Hc].
  destruct (from_row_cells_ok row.1 row.2 Hw Hc) as (x & Ex & _); [rewrite (kr_width _ Hrow); lia|].
  assert (from_leading_cells row.1 m row.2 column_count = Some (MkRewrappedRow x m)) as ->.
  { unfold from_leading_cells, u16_try_from. rewrite N.max_l by (rewrite Hm; destruct (row_end row.2); lia).
    rewrite (proj2 (N.leb_le _ _)) by lia. cbn [mbind option_bind].
    rewrite from_padded_eq by (done || lia || (rewrite (kr_width _ Hrow); lia)).
    rewrite padded_full by (apply (kr_width _ Hrow)). by rewrite Ex. }
  cbn [mbind option_bind].
  destruct (kept_row_step kept p pend row (is_wide_glyph_first row.1)
    (bool_decide (last row.1 = Some (build_blank_with_style s))) m kept' (MkRewrappedRow x m) Hat Hrow)
    as (pend' & Hat').
  - done.
  - intros _ ?. by bools.
  - intros E Ew. fold n in E. rewrite Em in Ecur.
    rewrite (proj2 (Nat.eqb_eq _ _) E), bool_decide_eq_true_2 in Ecur by done. cbn [andb] in Ecur. bools. lia.
  - exact Ep.
  - done.
  - cbn [rewrapped_snapshot]. by rewrite (from_row_cells_uncached _ _ _ Ex).
  - rewrite <- (from_row_cells_uncached _ _ _ Ex). by left.
  - fold n in Hat'. pose proof (kept_at_next _ _ _ _ _ _ _ _ _ _ _ _ Hat E0 E1 Hrow Ep Hat') as Hnext.
    fold n in Hnext. destruct (IH _ _ _ Hat') as [E|(kept2 & pend2 & E & Hat2)].
    + by left.
    + right. exists kept2, pend2. unfold p'. cbn [imap foldl]. rewrite Nat.add_0_r.
      rewrite Hnext in Hat2.
      assert (imap ((fun i (row : Row) => (n + i, row)%nat) ∘ S) rows
        = imap (fun i (row : Row) => (S n + i, row)%nat) rows) as ->
        by (apply imap_ext; intros; simpl; f_equal; lia).
      rewrite <- Erow. done.
Qed.

Lemma kept_start : kept_at (MkKeptRowReflow (from_column_count column_count s) 0 0 Hard) plain_start [].
Proof.
  split; try done.
  - by exists [].
  - destruct cursor_index as [|c]; by apply cursor_ahead; cbn; try lia.
Qed.
End kept.

(** ** The whole screen *)

(** Outputs that hold the same. *)
Record same_output (output output' : ReflowOutput) : Prop :=
  { so_columns : output_column_count output = output_column_count output';
    so_style : background_style output = background_style output';
    so_rows : Forall2 same_row (rewrapped_rows output) (rewrapped_rows output');
    so_shapes : rewrapped_line_shapes output = rewrapped_line_shapes output';
    so_counts : rewrapped_row_content_cell_counts output = rewrapped_row_content_cell_counts output';
    so_sources : source_rows output = source_rows output';
    so_cursor : (new_cursor_physical_row_index output, new_cursor_column_index output)
      = (new_cursor_physical_row_index output', new_cursor_column_index output') }.

(** Every row has the screen's width, none ends in half a wide glyph, and the
    cursor is in a column. *)
Record rows_whole (column_count : nat) (history : list Row) (screen : PrimaryScreen) : Prop :=
  { rw_rows : Forall (fun row : Row => length row.1 = column_count /\ ends_wide row.1 = false)
      (all_rows history screen);
    rw_cursor : (N.to_nat (primary_cursor_column screen) < column_count)%nat }.

Lemma all_rows_ok row_count column_count history screen :
  screen_ok row_count column_count history screen ->
  Forall (fun row : Row => cells_ok row.1) (all_rows history screen).
Proof.
  intros [Hg Hh]. apply Forall_app. split.
  - clear -Hh. induction Hh as [|row line history lines H _ IH]; constructor; [apply (hl_cells _ _ H)|done].
  - unfold view. apply Forall_fmap. eapply Forall_impl; [apply (gk_rows _ _ _ Hg)|]. intros row Hrow.
    split; [apply (rk_wf _ _ Hrow)|apply (rk_canonical _ _ Hrow)].
Qed.

Lemma keep_primary_ok row_count old_column_count history screen column_count s :
  screen_ok row_count old_column_count history screen -> rows_whole old_column_count history screen ->
  Style_wf s -> column_count <= U16_MAX ->
  keep_primary_rows column_count s screen = Some None
  \/ exists output output',
       keep_primary_rows column_count s screen = Some (Some output)
       /\ rewrap_primary_rows column_count s screen = Some (output', (take_retained_lines (scrollback screen)).2)
       /\ same_output output' output
       /\ output_is column_count s output' (plain_of column_count history screen).
Proof.
  intros Hscreen [Hwhole Hcur] Hs Hc. pose proof Hscreen as [Hg Hh].
  destruct (rewrap_primary_ok _ _ _ _ column_count s Hscreen Hs Hc) as (output' & E' & Hout).
  unfold keep_primary_rows. destruct (dimensions_eq _ _ _ Hg) as [-> _].
  destruct (_ || _) eqn:Eguard; [by left|]. apply orb_false_iff in Eguard as [[Hcc Hcols]%orb_false_iff Hrc].
  bools. destruct (row_count =? 0)%nat eqn:E0; bools; [lia|].
  fold (cursor_index screen). rewrite (list_screen_rows_view _ _ _ Hg).
  assert (2 <= column_count <= U16_MAX) as Hcolumns by lia.
  assert (N.to_nat (primary_cursor_column screen) < N.to_nat column_count)%nat as Hcursor by lia.
  assert (Forall (kept_row_ok column_count) (all_rows history screen)) as Hrows.
  { pose proof (all_rows_ok _ _ _ _ Hscreen) as Hok. eapply Forall_impl; [apply Forall_and; split; [exact Hwhole|exact Hok]|].
    intros row [[H1 H2] H3]. split; [lia|done|done]. }
  apply Forall_app in Hrows as [Hrows_h Hrows_s].
  pose proof (kept_start column_count s (cursor_index screen) _ Hcolumns Hcursor Hs) as Hstart.
  pose proof (Forall2_length _ _ _ Hh) as Hlen.
  destruct (keep_history_ok column_count s (cursor_index screen) _ Hcolumns Hcursor Hs history
    (retained_lines (scrollback screen)) _ _ _ Hh Hrows_h Hstart) as [->|(kept & pend & -> & Hat & Hn)];
    [cbn; unfold cursor_index; lia|by left|].
  cbn [mbind option_bind].
  destruct (keep_screen_ok column_count s (cursor_index screen) _ Hcolumns Hcursor Hs (view (primary screen)) _ _ _
    Hrows_s Hat) as [->|(kept' & pend' & -> & Hat')]; [by left|].
  cbn [mbind option_bind]. destruct (bool_decide (previous_row_end kept' = Hard)) eqn:Eh; [|by left]. bools.
  right. exists (reflow_output kept'), output'. split; [done|]. split; [done|]. split; [|done].
  rewrite Hn in Hat'. apply (ka_previous _ _ _ _ _ _ _ Hat') in Eh as ->.
  set (p := foldl _ _ _) in Hat'.
  assert (plain_of column_count history screen = p) as Ep.
  { unfold plain_of, plain_reflow.
    assert (foldl (plain_row column_count (cursor_index screen) (N.to_nat (primary_cursor_column screen)))
      plain_start (enumerate (all_rows history screen)) = p) as ->
      by (unfold enumerate, all_rows; by rewrite imap_app, foldl_app).
    unfold plain_finish.
    rewrite (ka_cells _ _ _ _ _ _ _ Hat'), (ka_marks _ _ _ _ _ _ _ Hat'). done. }
  rewrite Ep in Hout. destruct Hout as ([R1 R2 R3 R4 R5] & Hsrc & Hat_cur).
  destruct (ka_rows _ _ _ _ _ _ _ Hat') as (encoded & Henc & Hsame). rewrite app_nil_r, R3 in Henc. injection Henc as <-.
  split; [rewrite R1; symmetry; apply (ka_columns _ _ _ _ _ _ _ Hat')
    |rewrite R2; symmetry; apply (ka_style _ _ _ _ _ _ _ Hat')|done
    |rewrite R4; symmetry; apply (ka_shapes _ _ _ _ _ _ _ Hat')
    |rewrite R5; symmetry; rewrite (ka_counts _ _ _ _ _ _ _ Hat'), app_nil_r; done
    |rewrite Hsrc; symmetry; apply (ka_sources _ _ _ _ _ _ _ Hat')|].
  rewrite Hat_cur. destruct (ka_cursor _ _ _ _ _ _ _ Hat') as [_ _ H3 H4|_ _ H3 H4|pre r post H _ _ _ _];
    [congruence|congruence|by destruct pre].
Qed.
