(* ===== verification/ReflowScreen.v ===== *)
(** * The screen after a resize

    [reflow_primary] never panics, gives a screen and a history that can be
    resized again, and keeps the text of every logical line. *)

From S2P Require Import Prelude Varint Style Cell RowEncoder RowDecoder RowItems RowRoundTrip RowContract Snapshot.
From S2P Require Import Grid GridView Scrollback Reflow ReflowPlain ReflowRewrap ReflowKeep.
From stdpp Require Import options.
#[local] Open Scope N_scope.

(** ** Rows held by an output *)

(** A row as the history holds it: padded with default blanks. *)
Definition stored_row (column_count : N) (s : Style) (row : Row) : Row :=
  (padded (N.max column_count (N.of_nat (length (full_row s row)))) (full_row s row), row.2).

Definition row_held (column_count : N) (s : Style) (row : Row) (r : RewrappedRow) : Prop :=
  history_line (stored_row column_count s row) (rewrapped_snapshot r)
  /\ row_cell_count r = length (full_row s row).

Lemma full_row_ok s row : cells_ok row.1 -> Style_wf s -> cells_ok (full_row s row).
Proof.
  intros H Hs. apply cells_ok_app. split; [done|]. case_bool_decide; [|done].
  destruct (blank_with_style_ok s Hs). split; by apply Forall_singleton.
Qed.

Lemma padded_ok column_count cells : cells_ok cells -> cells_ok (padded column_count cells).
Proof.
  intros H. apply cells_ok_app. split; [done|]. split; [apply Forall_replicate, blank_ok|apply blank_canonical].
Qed.

Lemma encode_row_held column_count s row :
  row_fits column_count s row -> Style_wf s ->
  exists r, encode_row column_count s row = Some r /\ row_held column_count s row r.
Proof.
  intros [[Hw Hc] Hb] Hs. destruct (encode_row_some column_count s row Hw Hc Hs Hb) as (r & E & E1 & E2 & E3).
  exists r. split; [done|]. split; [|done].
  pose proof (from_row_cells_uncached _ _ _ E3) as Hu.
  split; cbn [stored_row fst snd].
  - by apply padded_ok, full_row_ok.
  - rewrite padded_length; lia.
  - by rewrite Hu.
  - left. by rewrite <- Hu.
Qed.

Lemma same_row_held column_count s row r r' :
  row_held column_count s row r -> same_row r r' -> row_held column_count s row r'.
Proof.
  intros [H Hn] (E1 & E2 & E3). split; [|congruence]. pose proof H as [H1 H2 H3 _].
  split; [done|done|congruence|]. destruct E3 as [E3|E3]; [by left|right]. rewrite E3.
  destruct (history_line_snapshot _ _ H) as [Hs _]. destruct (snapshot_reads _ _ _ [] Hs) as (_ & _ & Hd & _).
  rewrite <- Hd. change (snapshot_decode_row_cells (uncached (rewrapped_snapshot r'))
    = snapshot_decode_row_cells (uncached (rewrapped_snapshot r))). by rewrite E2.
Qed.

Lemma row_held_reads column_count s row r :
  row_held column_count s row r ->
  rewrapped_decode_row_cells r = Some (full_row s row) /\ snapshot_metadata (rewrapped_snapshot r) = row.2.
Proof.
  intros [H Hn]. destruct (history_line_snapshot _ _ H) as [Hs Hm]. split; [|done].
  destruct (snapshot_reads _ _ _ [] Hs) as (_ & _ & Hd & _). unfold rewrapped_decode_row_cells. rewrite Hd, Hn.
  cbn [mbind option_bind stored_row fst]. unfold padded. by rewrite take_app_length.
Qed.

(** ** The rows dropped below the cursor *)

Definition is_blank_row (s : Style) (row : Row) : bool :=
  bool_decide (row_end row.2 = Hard) && negb (has_prompt_mark row.2)
  && (count_row_content_cells (full_row s row) =? 0)%nat.

Lemma is_dropped_row_ok column_count s row r :
  row_held column_count s row r -> is_dropped_row r = Some (is_blank_row s row).
Proof.
  intros H. destruct (row_held_reads _ _ _ _ H) as [Hd Hm]. unfold is_dropped_row, is_blank_row. rewrite Hm, Hd.
  by destruct (_ && _).
Qed.

(** [kept] is [rows] without the blank rows at its end that neither the screen
    height nor the cursor needs. *)
Record blanks_dropped (row_count cursor_row : nat) (s : Style) (rows kept : list Row) : Prop :=
  { bd_split : exists blanks, rows = kept ++ blanks /\ Forall (fun row => is_blank_row s row = true) blanks
      /\ (blanks <> [] -> (row_count <= length kept /\ cursor_row < length kept)%nat);
    bd_longest : (length kept <= row_count)%nat \/ (length kept <= cursor_row + 1)%nat
      \/ exists row, last kept = Some row /\ is_blank_row s row = false }.

Lemma drop_blank_rows_ok column_count s row_count cursor_row rows rs :
  Forall2 (row_held column_count s) rows rs ->
  exists kept ks, drop_blank_rows row_count cursor_row (reverse rs) = Some (reverse ks)
    /\ Forall2 (row_held column_count s) kept ks
    /\ blanks_dropped row_count cursor_row s rows kept.
Proof.
  intros H. revert rows H. induction rs as [|r rs IH] using rev_ind; intros rows H.
  { apply Forall2_nil_inv_r in H as ->. exists [], []. split; [done|]. split; [constructor|].
    split; [by exists []|left; simpl; lia]. }
  apply Forall2_app_inv_r in H as (rows' & last_rows & H1 & H2 & ->).
  apply Forall2_cons_inv_r in H2 as (row & nil & Hrow & H2 & ->). apply Forall2_nil_inv_r in H2 as ->.
  rewrite reverse_snoc. cbn [drop_blank_rows length]. rewrite length_reverse.
  pose proof (Forall2_length _ _ _ H1) as Hlen.
  assert (blanks_dropped row_count cursor_row s (rows' ++ [row]) (rows' ++ [row]) ->
    exists kept ks, Some (r :: reverse rs) = Some (reverse ks) /\ Forall2 (row_held column_count s) kept ks
      /\ blanks_dropped row_count cursor_row s (rows' ++ [row]) kept) as Hwhole.
  { intros Hb. exists (rows' ++ [row]), (rs ++ [r]). split; [by rewrite reverse_snoc|].
    split; [by apply Forall2_app; [|constructor]|done]. }
  assert (exists blanks, rows' ++ [row] = (rows' ++ [row]) ++ blanks
    /\ Forall (fun row => is_blank_row s row = true) blanks
    /\ (blanks <> [] -> (row_count <= length (rows' ++ [row]) /\ cursor_row < length (rows' ++ [row]))%nat)) as Hnone
    by (exists []; rewrite app_nil_r; split; [done|]; split; [constructor|done]).
  destruct (_ && _) eqn:E.
  - rewrite (is_dropped_row_ok _ _ _ _ Hrow). cbn [mbind option_bind].
    destruct (is_blank_row s row) eqn:Eb.
    + destruct (IH rows' H1) as (kept & ks & Hd & Hk & [(blanks & -> & Hb & Hneed) Hlong]).
      exists kept, ks. split; [done|]. split; [done|]. split; [|done]. exists (blanks ++ [row]).
      rewrite app_assoc. split; [done|]. split; [apply Forall_app; split; [done|by apply Forall_singleton]|].
      intros _. destruct blanks as [|b blanks]; [|by apply Hneed]. rewrite app_nil_r in Hlen. bools. lia.
    + apply Hwhole. split; [done|]. right. right. exists row. by rewrite last_snoc.
  - apply Hwhole. split; [done|]. rewrite length_app. simpl. bools. destruct E as [E|E]; bools; lia.
Qed.

(** ** The lines of the plain reflow *)

(** A line that wraps at the width. *)
Definition line_ok (column_count : N) (line : list Row) : Prop :=
  exists cells marks, (column_count <= 1 -> no_wide cells) /\ cells_ok cells
    /\ line = line_rows column_count cells marks.

Lemma plain_push_lines column_count p :
  Forall (line_ok column_count) (plain_lines p) -> cells_ok (plain_cells p) ->
  Forall (line_ok column_count) (plain_lines (plain_push column_count p)).
Proof.
  intros H Hc. unfold plain_push. cbn [plain_lines]. apply Forall_app. split; [done|]. apply Forall_singleton.
  eexists _, (plain_marks p). split; [|split; [|done]].
  - intros Hle. rewrite (proj2 (N.leb_le _ _) Hle). apply narrow_no_wide.
  - case_match; [by apply narrow_ok|done].
Qed.

Lemma plain_row_lines column_count cursor_index cursor_column p i row :
  Forall (line_ok column_count) (plain_lines p) /\ cells_ok (plain_cells p) -> cells_ok row.1 ->
  Forall (line_ok column_count) (plain_lines (plain_row column_count cursor_index cursor_column p (i, row)))
  /\ cells_ok (plain_cells (plain_row column_count cursor_index cursor_column p (i, row))).
Proof.
  intros [H1 H2] Hrow. rewrite plain_row_eq. set (p' := plain_read _ _ _ _ _).
  assert (cells_ok (plain_cells p')) as H3 by (apply cells_ok_app; split; [done|by apply row_content_ok]).
  case_bool_decide; [|done]. split; [by apply plain_push_lines|done].
Qed.

Lemma plain_reflow_lines column_count cursor_index cursor_column rows :
  Forall (fun row : Row => cells_ok row.1) rows ->
  Forall (line_ok column_count) (plain_lines (plain_reflow column_count cursor_index cursor_column rows)).
Proof.
  intros H. unfold plain_reflow.
  assert (forall n p, Forall (line_ok column_count) (plain_lines p) /\ cells_ok (plain_cells p) ->
    let p' := foldl (plain_row column_count cursor_index cursor_column) p
                (imap (fun i (row : Row) => (n + i, row)%nat) rows) in
    Forall (line_ok column_count) (plain_lines p') /\ cells_ok (plain_cells p')) as Hloop.
  { induction H as [|row rows Hrow _ IH]; intros n p Hp; [done|]. cbn [imap foldl].
    assert (imap ((fun i (row : Row) => (n + i, row)%nat) ∘ S) rows
      = imap (fun i (row : Row) => (S n + i, row)%nat) rows) as -> by (apply imap_ext; intros; simpl; f_equal; lia).
    apply IH. by apply plain_row_lines. }
  destruct (Hloop 0%nat plain_start) as [H1 H2]; [by split; [constructor|]|].
  unfold plain_finish. change (enumerate rows) with (imap (fun i (row : Row) => (0 + i, row)%nat) rows).
  destruct (_ || _); [by apply plain_push_lines|done].
Qed.

(** A row no wider than the screen, whose last column is no half of a glyph. *)
Definition row_whole (column_count : N) (s : Style) (row : Row) : Prop :=
  let width := N.to_nat (N.max column_count 1) in
  cells_ok row.1 /\ (length (full_row s row) <= width)%nat
  /\ (length (full_row s row) = width -> ends_wide (full_row s row) = false).

Lemma blank_ends_narrow cells s : ends_wide (cells ++ [build_blank_with_style s]) = false.
Proof. by rewrite ends_wide_snoc. Qed.

Lemma wrapped_lookup column_count rows i row :
  wrapped column_count rows -> rows !! i = Some row -> exists rest, wrapped column_count (row :: rest).
Proof.
  intros H. revert i. induction H as [l Hl He|l rs Hl He Hn H IH|l rs Hl Hw H IH]; intros [|i] Hi;
    try (injection Hi as <-; eexists; by constructor); [done|by apply (IH i)|by apply (IH i)].
Qed.

Lemma wrapped_rows_whole column_count s (rows : list Row) :
  wrapped (N.to_nat (N.max column_count 1)) (strip <$> rows) -> Forall (fun row : Row => cells_ok row.1) rows ->
  Forall (row_whole column_count s) rows.
Proof.
  intros H Hc. apply Forall_lookup. intros i row Hi. rewrite Forall_lookup in Hc. specialize (Hc _ _ Hi).
  assert (exists pre, wrapped (N.to_nat (N.max column_count 1)) (strip row :: pre)) as [rest Hw].
  { apply (wrapped_lookup _ (strip <$> rows) i); [done|]. by rewrite list_lookup_fmap, Hi. }
  split; [done|]. unfold strip in Hw. unfold full_row.
  destruct (row_end row.2); inversion Hw; subst.
  - rewrite bool_decide_eq_false_2, app_nil_r by done. done.
  - rewrite bool_decide_eq_false_2, app_nil_r by done. split; [lia|done].
  - rewrite bool_decide_eq_true_2 by done. rewrite length_app. simpl. split; [lia|]. intros _. apply blank_ends_narrow.
Qed.

Lemma lines_rows_whole column_count s lines :
  Forall (line_ok column_count) lines -> Forall (row_whole column_count s) (mjoin lines).
Proof.
  induction 1 as [|line lines (cells & marks & Hw & Hc & ->) _ IH]; [constructor|].
  change (mjoin (?a :: ?b)) with (a ++ mjoin b). apply Forall_app. split; [|done].
  destruct (line_rows_ok column_count cells marks Hw) as (Hwr & Hj & _).
  apply wrapped_rows_whole; [done|]. apply cells_ok_rows. by rewrite Hj.
Qed.

Lemma row_whole_fits column_count s row :
  row_whole column_count s row -> column_count <= U16_MAX -> row_fits column_count s row.
Proof. intros (H1 & H2 & _) Hc. split; [done|]. lia. Qed.

(** ** The new screen *)

(** The rows the reflow splits: one empty row for a screen with no line. *)
Definition rows_to_split (row_count : N) (rows : list Row) : list Row :=
  if bool_decide (rows = []) && (0 <? row_count) then [([], default_metadata)] else rows.

(** A row as the screen holds it: padded in the background style. *)
Definition screen_row (column_count : N) (s : Style) (row : Row) : Row :=
  (resize_with (N.to_nat column_count) (build_blank_with_style s) (full_row s row), row.2).

(** [screen'] shows the last [row_count] of the rows [kept], its history holds
    the newest rows above them that fit, and the cursor is on its row. *)
Record reflowed (column_count row_count : N) (s : Style) (kept history : list Row) (cursor_at : nat * nat)
    (before screen' : PrimaryScreen) : Prop :=
  { rf_view : let over := (length kept - N.to_nat row_count)%nat in
      view (primary screen') = (screen_row column_count s <$> drop over kept)
        ++ replicate (N.to_nat row_count - (length kept - over)) (blank_row (N.to_nat column_count) s);
    rf_grid : grid_ok (N.to_nat row_count) (N.to_nat column_count) (primary screen');
    rf_history : exists lines evicted_rows evicted,
      Forall2 history_line (stored_row column_count s <$> take (length kept - N.to_nat row_count) kept) lines
      /\ stored_row column_count s <$> take (length kept - N.to_nat row_count) kept = evicted_rows ++ history
      /\ keeps_newest (maximum_line_count (scrollback before)) (maximum_byte_count (scrollback before)) lines
           evicted (retained_lines (scrollback screen'))
      /\ Forall2 history_line history (retained_lines (scrollback screen'));
    rf_scrollback : scrollback_ok (scrollback screen');
    rf_cursor_row : N.to_nat (primary_cursor_row screen')
      = ((cursor_at.1 - (length kept - N.to_nat row_count)) `min` (N.to_nat row_count - 1))%nat;
    rf_cursor_column : N.to_nat (primary_cursor_column screen')
      = (cursor_at.2 `min` (N.to_nat column_count - 1))%nat }.

Lemma decode_screen_rows column_count s rows rs :
  Forall2 (row_held column_count s) rows rs ->
  mapM (fun row => row_cells ← rewrapped_decode_row_cells row;
          Some (row_cells, snapshot_metadata (rewrapped_snapshot row))) rs
  = Some ((fun row : Row => (full_row s row, row.2)) <$> rows).
Proof.
  induction 1 as [|row r rows rs H _ IH]; [done|]. cbn [mapM].
  destruct (row_held_reads _ _ _ _ H) as [-> ->]. cbn [mbind option_bind]. rewrite IH. done.
Qed.

Lemma usize_as_u16_le n m : (n <= m)%nat -> N.of_nat m <= U16_MAX -> N.to_nat (usize_as_u16 n) = n.
Proof. intros H1 H2. unfold usize_as_u16. rewrite as_u16_exact by lia. lia. Qed.

Lemma rows_to_split_held column_count row_count s rows output :
  Forall2 (row_held column_count s) rows (rewrapped_rows output) -> Forall (row_whole column_count s) rows ->
  Style_wf s -> column_count <= U16_MAX ->
  exists rs,
    (if bool_decide (rewrapped_rows output = []) && (0 <? row_count)
     then row ← from_leading_cells [] 0 default_metadata column_count; Some [row]
     else Some (rewrapped_rows output)) = Some rs
    /\ Forall2 (row_held column_count s) (rows_to_split row_count rows) rs
    /\ Forall (row_whole column_count s) (rows_to_split row_count rows).
Proof.
  intros H Hw Hs Hc. unfold rows_to_split. pose proof (Forall2_length _ _ _ H) as Hlen.
  assert (bool_decide (rewrapped_rows output = []) = bool_decide (rows = [])) as ->.
  { apply bool_decide_ext. destruct rows, (rewrapped_rows output); done. }
  destruct (_ && _) eqn:E; [|by eexists].
  assert (row_whole column_count s ([], default_metadata)) as Hrow.
  { split; [done|]. change (full_row s ([], default_metadata)) with (@nil Cell). cbn [length]. split; [lia|done]. }
  destruct (encode_row_held column_count s ([], default_metadata)) as (r & Er & Hr);
    [by apply row_whole_fits|done|].
  change (encode_row column_count s ([], default_metadata))
    with (from_leading_cells [] 0 default_metadata column_count) in Er. rewrite Er. cbn [mbind option_bind].
  exists [r]. split; [done|]. split; constructor; (done || constructor).
Qed.

Lemma screen_rows_ok column_count s rows :
  Forall (row_whole column_count s) rows -> Style_wf s ->
  Forall (fun row : Row => Forall Cell_wf row.1 /\ Forall Cell_canonical row.1)
    ((fun row : Row => (full_row s row, row.2)) <$> rows).
Proof.
  intros H Hs. apply Forall_fmap. eapply Forall_impl; [exact H|]. intros row (Hc & _). by apply full_row_ok.
Qed.

Lemma apply_output_ok column_count row_count s output rows before screen :
  Forall2 (row_held column_count s) rows (rewrapped_rows output) -> Forall (row_whole column_count s) rows ->
  background_style output = s -> Style_wf s -> column_count <= U16_MAX -> row_count <= U16_MAX ->
  total_pushed_line_count (scrollback screen) + N.of_nat (length rows) + 1 < U64_MODULUS ->
  exists kept history screen',
    apply_reflow_output column_count row_count output before screen = Some screen'
    /\ blanks_dropped (N.to_nat row_count) (new_cursor_physical_row_index output) s
         (rows_to_split row_count rows) kept
    /\ reflowed column_count row_count s kept history
         (new_cursor_physical_row_index output, new_cursor_column_index output) screen screen'
    /\ Forall (row_whole column_count s) kept.
Proof.
  intros H Hw Hbg Hs Hc Hr Ht. unfold apply_reflow_output.
  destruct (rows_to_split_held column_count row_count s rows output H Hw Hs Hc) as (rs & -> & Hheld & Hwhole).
  cbn [mbind option_bind].
  destruct (drop_blank_rows_ok column_count s (N.to_nat row_count) (new_cursor_physical_row_index output) _ _ Hheld)
    as (kept & ks & -> & Hk & Hdrop).
  cbn [mbind option_bind]. rewrite reverse_involutive. pose proof (Forall2_length _ _ _ Hk) as Hlen. rewrite <- Hlen.
  set (over := (length kept - N.to_nat row_count)%nat).
  assert (Forall (row_whole column_count s) kept) as Hkw.
  { destruct (bd_split _ _ _ _ _ Hdrop) as (blanks & E & _). rewrite E in Hwhole. by apply Forall_app in Hwhole as [? _]. }
  assert (length kept <= length rows + 1)%nat as Hkl.
  { destruct (bd_split _ _ _ _ _ Hdrop) as (blanks & E & _). apply (f_equal length) in E. rewrite length_app in E.
    unfold rows_to_split in E. destruct (_ && _); simpl in E; lia. }
  unfold replace_retained_lines.
  destruct (evict_oldest_ok (rewrapped_snapshot <$> take over ks) (total_pushed_line_count (scrollback screen))
    (scrollback screen)) as (evicted & retained & Hev & Hnew & Hok).
  unfold with_lines in Hev at 1. rewrite Hev. cbn [mbind option_bind with_lines retained_lines total_pushed_line_count].
  pose proof (kn_split _ _ _ _ _ Hnew) as Hsplit. pose proof (f_equal length Hsplit) as Hsl.
  rewrite length_fmap, length_take, length_app in Hsl.
  rewrite u64_add_ok by lia. cbn [mbind option_bind].
  rewrite (decode_screen_rows column_count s (drop over kept)) by (by apply Forall2_drop).
  cbn [mbind option_bind]. rewrite Hbg.
  set (shown := ((fun row : Row => (full_row s row, row.2)) <$> drop over kept) ++ _).
  assert (length shown = N.to_nat row_count) as Hshown.
  { unfold shown. rewrite length_app, length_replicate, length_fmap, length_drop. unfold over. lia. }
  destruct (blank_with_style_ok s Hs) as [Hbw Hbc].
  assert (N.of_nat (length shown) <= U16_MAX) as Hbound by (rewrite Hshown; lia).
  destruct (from_rows_ok shown column_count s) as [Hgrid Hview]; [exact Hbound|done|done| |].
  { apply Forall_app. split; [apply (screen_rows_ok column_count); [by apply Forall_drop|done]|].
    apply replicate_Forall. split; by apply replicate_Forall. }
  assert (Forall2 history_line (stored_row column_count s <$> take over kept) (rewrapped_snapshot <$> take over ks)) as Hhist.
  { apply Forall2_fmap. eapply Forall2_impl; [apply Forall2_take, Hk|]. by intros row r [? _]. }
  rewrite Hsplit in Hhist. apply Forall2_app_inv_r in Hhist as (evicted_rows & history & He & Hh & Erows).
  exists kept, history. eexists. split; [done|]. split; [done|]. split; [|done].
  assert (grid_ok (N.to_nat row_count) (N.to_nat column_count)
    (from_rows_with_metadata shown column_count s)) as Hgrid' by (by rewrite <- Hshown).
  split; cbn [primary scrollback primary_cursor_row primary_cursor_column fst snd].
  - fold over. rewrite Hview. unfold shown. rewrite fmap_app, <- list_fmap_compose, fmap_replicate. f_equal.
    rewrite length_fmap, length_drop. unfold blank_row. f_equal. f_equal. unfold resize_with. cbn [fst snd].
    rewrite take_ge, length_replicate, Nat.sub_diag, app_nil_r by (by rewrite length_replicate). done.
  - done.
  - fold over. exists (rewrapped_snapshot <$> take over ks), evicted_rows, evicted. rewrite Hsplit at 1.
    split; [by rewrite Erows; apply Forall2_app|]. done.
  - destruct Hok as [Hb Hf]. by split.
  - fold over. apply (usize_as_u16_le _ (N.to_nat row_count)); lia.
  - apply (usize_as_u16_le _ (N.to_nat column_count)); lia.
Qed.

(** ** A whole resize *)

(** A screen that can be resized: its bookkeeping is true and, from two
    columns up, its rows are whole. *)
Record screen_whole (row_count column_count : N) (history : list Row) (screen : PrimaryScreen) : Prop :=
  { wh_screen : screen_ok (N.to_nat row_count) (N.to_nat column_count) history screen;
    wh_rows : 2 <= column_count -> rows_whole (N.to_nat column_count) history screen }.

Lemma filled_whole n c cells :
  display_width c = 1 -> (0 < n)%nat -> (length cells <= n)%nat -> (length cells = n -> ends_wide cells = false) ->
  length (cells ++ replicate (n - length cells) c) = n
  /\ ends_wide (cells ++ replicate (n - length cells) c) = false.
Proof.
  intros Hc Hn Hl He. split; [rewrite length_app, length_replicate; lia|].
  destruct (decide (length cells = n)) as [E|E]; [rewrite E, Nat.sub_diag, app_nil_r; by apply He|].
  replace (n - length cells)%nat with ((n - length cells - 1) + 1)%nat by lia.
  rewrite replicate_add, app_assoc. simpl. by rewrite ends_wide_snoc, Hc.
Qed.

Lemma stored_row_whole column_count s row :
  1 <= column_count -> row_whole column_count s row ->
  length (stored_row column_count s row).1 = N.to_nat column_count
  /\ ends_wide (stored_row column_count s row).1 = false.
Proof.
  intros Hc (_ & Hl & He). cbn [stored_row fst]. rewrite N.max_l in * by lia. unfold padded.
  by apply filled_whole; [|lia| |].
Qed.

Lemma screen_row_whole column_count s row :
  1 <= column_count -> row_whole column_count s row ->
  length (screen_row column_count s row).1 = N.to_nat column_count
  /\ ends_wide (screen_row column_count s row).1 = false.
Proof.
  intros Hc (_ & Hl & He). cbn [screen_row fst]. rewrite N.max_l in * by lia. unfold resize_with.
  rewrite take_ge by lia. by apply filled_whole; [|lia| |].
Qed.

Lemma reflowed_whole column_count row_count s kept history cursor_at before screen' :
  reflowed column_count row_count s kept history cursor_at before screen' ->
  Forall (row_whole column_count s) kept ->
  screen_whole row_count column_count history screen'.
Proof.
  intros [H1 H2 H3 H4 H5 H6] Hw. destruct H3 as (lines & evicted_rows & evicted & E1 & E2 & E3 & E4).
  split; [by split|]. intros Hc. split; [|lia].
  apply Forall_app. split.
  - assert (Forall (fun row : Row => length row.1 = N.to_nat column_count /\ ends_wide row.1 = false)
      (evicted_rows ++ history)) as Hall.
    { rewrite <- E2. apply Forall_fmap. eapply Forall_impl; [apply Forall_take, Hw|].
      intros row Hrow. by apply (stored_row_whole _ s); [lia|]. }
    by apply Forall_app in Hall as [_ ?].
  - cbv zeta in H1. rewrite H1. apply Forall_app. split.
    + apply Forall_fmap. eapply Forall_impl; [apply Forall_drop, Hw|].
      intros row Hrow. by apply (screen_row_whole _ s); [lia|].
    + apply Forall_replicate.
      destruct (filled_whole (N.to_nat column_count) (build_blank_with_style s) []) as [Hn He]; [done|lia|simpl; lia..|].
      cbn [length app] in Hn, He. rewrite Nat.sub_0_r in Hn, He. done.
Qed.

Lemma keep_primary_total row_count old_column_count history screen column_count s :
  screen_whole row_count old_column_count history screen -> Style_wf s -> column_count <= U16_MAX ->
  keep_primary_rows column_count s screen = Some None
  \/ exists output output',
       keep_primary_rows column_count s screen = Some (Some output)
       /\ rewrap_primary_rows column_count s screen = Some (output', (take_retained_lines (scrollback screen)).2)
       /\ same_output output' output
       /\ output_is column_count s output' (plain_of column_count history screen).
Proof.
  intros [H1 H2] Hs Hc. destruct (decide (2 <= old_column_count)) as [Hle|Hlt].
  { by eapply keep_primary_ok; [exact H1|apply H2| |]. }
  left. unfold keep_primary_rows. pose proof H1 as [Hg _]. destruct (dimensions_eq _ _ _ Hg) as [-> _].
  destruct (_ || _) eqn:E; [done|]. apply orb_false_iff in E as [[E1 E2]%orb_false_iff E3].
  apply negb_false_iff in E2. bools. destruct (_ =? 0)%nat; lia.
Qed.

Lemma plain_rows_whole row_count old_column_count history screen column_count s :
  screen_ok row_count old_column_count history screen -> Style_wf s ->
  Forall (row_whole column_count s) (mjoin (plain_lines (plain_of column_count history screen))).
Proof.
  intros H Hs. apply lines_rows_whole, plain_reflow_lines. by eapply all_rows_ok.
Qed.

Lemma output_rows_held column_count s output p :
  output_is column_count s output p -> Forall (row_whole column_count s) (mjoin (plain_lines p)) ->
  Style_wf s -> column_count <= U16_MAX ->
  Forall2 (row_held column_count s) (mjoin (plain_lines p)) (rewrapped_rows output).
Proof.
  intros ([_ _ H _ _] & _ & _) Hw Hs Hc. revert H Hw. generalize (rewrapped_rows output).
  induction (mjoin (plain_lines p)) as [|row rows IH]; intros rs H Hw; [by injection H as <-|].
  apply Forall_cons in Hw as [Hrow Hw].
  destruct (encode_row_held column_count s row) as (r & E & Hr); [by apply row_whole_fits|done|].
  cbn [mapM] in H. rewrite E in H. cbn [mbind option_bind] in H.
  destruct (mapM _ rows) as [rs'|] eqn:Ers; [|done]. injection H as <-. constructor; [done|by apply IH].
Qed.

Lemma reflow_primary_ok row_count column_count old_row_count old_column_count history screen s :
  screen_whole old_row_count old_column_count history screen -> Style_wf s ->
  column_count <= U16_MAX -> row_count <= U16_MAX ->
  let p := plain_of column_count history screen in
  total_pushed_line_count (scrollback screen) + N.of_nat (length (mjoin (plain_lines p))) + 1 < U64_MODULUS ->
  exists kept history' screen',
    reflow_primary column_count row_count s screen = Some screen'
    /\ blanks_dropped (N.to_nat row_count) (plain_cursor_at p).1 s
         (rows_to_split row_count (mjoin (plain_lines p))) kept
    /\ reflowed column_count row_count s kept history' (plain_cursor_at p) screen screen'
    /\ Forall (row_whole column_count s) kept.
Proof.
  intros H Hs Hc Hr p Ht. pose proof (wh_screen _ _ _ _ H) as Hok.
  pose proof (plain_rows_whole _ _ _ _ column_count s Hok Hs) as Hw. fold p in Hw.
  unfold reflow_primary.
  destruct (keep_primary_total _ _ _ _ column_count s H Hs Hc) as [->|(output & output' & -> & _ & Hsame & Hout)];
    cbn [mbind option_bind].
  - destruct (rewrap_primary_ok _ _ _ _ column_count s Hok Hs Hc) as (output & -> & Hout).
    cbn [mbind option_bind]. pose proof (output_rows_held _ _ _ _ Hout Hw Hs Hc) as Hheld.
    destruct Hout as ([_ Hbg _ _ _] & _ & Hcur). fold p in Hcur. rewrite <- Hcur.
    destruct (apply_output_ok column_count row_count s output _ (length (retained_lines (scrollback screen)))
      (MkPrimaryScreen (primary screen) (take_retained_lines (scrollback screen)).2
        (primary_cursor_row screen) (primary_cursor_column screen)) Hheld Hw Hbg Hs Hc Hr Ht)
      as (kept & history' & screen' & E1 & E2 & E3 & E4).
    exists kept, history', screen'. split; [done|]. split; [done|]. split; [|done].
    destruct E3. by split.
  - pose proof (output_rows_held _ _ _ _ Hout Hw Hs Hc) as Hheld.
    destruct Hout as ([_ Hbg _ _ _] & _ & Hcur). fold p in Hcur. rewrite <- Hcur.
    destruct Hsame as [_ Sbg Srows _ _ _ Scur]. rewrite Scur. injection Scur as Sr Sc.
    assert (Forall2 (row_held column_count s) (mjoin (plain_lines p)) (rewrapped_rows output)) as Hheld'.
    { clear -Hheld Srows. revert Srows. generalize (rewrapped_rows output). fold p in Hheld.
      induction Hheld as [|row r rows rs Hr _ IH]; intros rs' H; inversion H; subst; constructor;
        [by eapply same_row_held|by apply IH]. }
    destruct screen as [g sb cr cc].
    destruct (apply_output_ok column_count row_count s output _ (length (retained_lines sb))
      (MkPrimaryScreen g sb cr cc) Hheld' Hw (eq_trans (eq_sym Sbg) Hbg) Hs Hc Hr Ht)
      as (kept & history' & screen' & E1 & E2 & E3 & E4).
    by exists kept, history', screen'.
Qed.
