(* ===== verification/ReflowText.v ===== *)
(** * The text of a screen across a resize

    The logical lines of a screen's rows, and the proof that [reflow_primary]
    gives rows with the same lines, the cursor on the same cell. *)

From S2P Require Import Prelude Varint Style Cell RowEncoder RowDecoder RowItems RowRoundTrip RowContract Snapshot.
From S2P Require Import Grid GridView Scrollback Reflow ReflowPlain ReflowRewrap ReflowKeep ReflowScreen.
From stdpp Require Import options.
#[local] Open Scope N_scope.

(** ** Lines *)

(** The cells up to the last one that is no default blank. *)
Definition written (cells : list Cell) : list Cell := take (count_row_content_cells cells) cells.

(** The lines of rows given as their content and whether it ends a line. *)
Fixpoint join_lines (line : list Cell) (rows : list (list Cell * bool)) : list (list Cell) :=
  match rows with
  | [] => [written line]
  | (content, is_hard) :: rows =>
      if is_hard : bool then written (line ++ content) :: join_lines [] rows
      else join_lines (line ++ content) rows
  end.

Definition read (row : Row) : list Cell * bool := (row_content row, bool_decide (row_end row.2 = Hard)).

(** The text of a screen or a history: one list of cells per logical line. *)
Definition lines_of (rows : list Row) : list (list Cell) := join_lines [] (read <$> rows).

(** Equal up to empty lines at the end. *)
Definition same_lines (lines lines' : list (list Cell)) : Prop :=
  exists n m, lines ++ replicate n [] = lines' ++ replicate m [].

#[global] Instance same_lines_equivalence : Equivalence same_lines.
Proof.
  split.
  - intros lines. by exists 0%nat, 0%nat.
  - intros l l' (n & m & H). by exists m, n.
  - intros l1 l2 l3 (n1 & m1 & H1) (n2 & m2 & H2). exists (n1 + n2)%nat, (m1 + m2)%nat.
    rewrite (Nat.add_comm m1 m2), !replicate_add, !app_assoc, H1, <- H2, <- !app_assoc, <- !replicate_add.
    by rewrite (Nat.add_comm m1 n2).
Qed.

Lemma same_lines_app lines l l' : same_lines l l' -> same_lines (lines ++ l) (lines ++ l').
Proof. intros (n & m & H). exists n, m. by rewrite <- !app_assoc, H. Qed.

(** ** Written cells *)

Lemma written_eq cells : cells = written cells ++ replicate (length cells - count_row_content_cells cells) build_blank.
Proof. apply row_content_split. Qed.

Lemma written_padded cells k : written (cells ++ replicate k build_blank) = written cells.
Proof.
  unfold written. rewrite count_row_content_cells_padded. apply take_app_le.
  by pose proof (count_row_content_cells_spec cells) as (? & _).
Qed.

Lemma written_app cells cells' : written (cells ++ written cells') = written (cells ++ cells').
Proof. rewrite (written_eq cells') at 2. by rewrite app_assoc, written_padded. Qed.

Lemma written_nil : written [] = [].
Proof. done. Qed.


(** ** The lines of the plain reflow *)

(** A row of the plain reflow, read as a row of a screen is. *)
Definition read_plain (row : Row) : list Cell * bool :=
  (if bool_decide (row_end row.2 = Hard) then written row.1 else row.1, bool_decide (row_end row.2 = Hard)).

Definition line_texts (lines : list (list Row)) : list (list Cell) :=
  (fun line : list Row => written (mjoin line.*1)) <$> lines.

Lemma plain_push_texts column_count p :
  2 <= column_count ->
  line_texts (plain_lines (plain_push column_count p)) = line_texts (plain_lines p) ++ [written (plain_cells p)]
  /\ plain_cells (plain_push column_count p) = [].
Proof.
  intros Hc. split; [|done]. unfold plain_push, line_texts. cbn [plain_lines]. rewrite fmap_app. f_equal.
  rewrite (proj2 (N.leb_gt _ _)) by lia. cbn [fmap list_fmap].
  destruct (line_rows_ok column_count (plain_cells p) (plain_marks p)) as (_ & -> & _); [lia|done].
Qed.

Lemma plain_rows_texts column_count cursor_index cursor_column n rows p :
  2 <= column_count ->
  let p' := foldl (plain_row column_count cursor_index cursor_column) p
              (imap (fun i (row : Row) => (n + i, row)%nat) rows) in
  line_texts (plain_lines p') ++ [written (plain_cells p')]
  = line_texts (plain_lines p) ++ join_lines (plain_cells p) (read <$> rows).
Proof.
  intros Hc. revert n p. induction rows as [|row rows IH]; intros n p; [done|]. cbn [imap foldl].
  rewrite (imap_ext _ (fun i (row : Row) => (S n + i, row)%nat)) by (intros; simpl; f_equal; lia).
  specialize (IH (S n)). cbv zeta in IH |- *. rewrite IH, plain_row_eq.
  set (p' := plain_read _ _ _ _ _).
  assert (plain_lines p' = plain_lines p) as El by done.
  assert (plain_cells p' = plain_cells p ++ row_content row) as Ec by done.
  rewrite fmap_cons. unfold read at 2. cbn [join_lines].
  destruct (bool_decide _).
  - destruct (plain_push_texts column_count p' Hc) as [-> ->]. by rewrite El, Ec, <- app_assoc.
  - by rewrite El, Ec.
Qed.

Lemma plain_reflow_texts column_count cursor_index cursor_column rows :
  2 <= column_count ->
  same_lines (lines_of rows)
    (line_texts (plain_lines (plain_reflow column_count cursor_index cursor_column rows))).
Proof.
  intros Hc. pose proof (plain_rows_texts column_count cursor_index cursor_column 0 rows plain_start Hc) as H.
  cbv zeta in H. unfold plain_reflow, plain_finish.
  change (enumerate rows) with (imap (fun i (row : Row) => (0 + i, row)%nat) rows).
  set (p := foldl _ _ _) in *. change (lines_of rows)
    with (line_texts (plain_lines plain_start) ++ join_lines (plain_cells plain_start) (read <$> rows)).
  rewrite <- H. destruct (bool_decide _ || _) eqn:E.
  - by destruct (plain_push_texts column_count p Hc) as [-> _].
  - apply orb_false_iff in E as [E _]. apply bool_decide_eq_false, dec_stable in E. rewrite E.
    exists 0%nat, 1%nat. by rewrite app_nil_r.
Qed.

(** The rows a line wraps into are read as the line. *)
Lemma wrapped_join column_count (line : list Row) cells rest :
  wrapped column_count (strip <$> line) ->
  join_lines cells ((read_plain <$> line) ++ rest) = written (cells ++ mjoin line.*1) :: join_lines [] rest.
Proof.
  revert cells. induction line as [|row line IH]; intros cells H; [inversion H|].
  change (strip <$> row :: line) with ((row.1, row_end row.2) :: (strip <$> line)) in H.
  rewrite fmap_cons, rows_join_cons. unfold read_plain at 1.
  cbn [app join_lines]. destruct (row_end row.2) eqn:E; inversion H; subst.
  - rewrite bool_decide_eq_true_2 by done. destruct line; [|done]. cbn. by rewrite written_app, app_nil_r.
  - rewrite bool_decide_eq_false_2 by done. rewrite IH by done. by rewrite <- app_assoc.
  - rewrite bool_decide_eq_false_2 by done. rewrite IH by done. by rewrite <- app_assoc.
Qed.

Lemma lines_join column_count lines rest :
  2 <= column_count -> Forall (line_ok column_count) lines ->
  join_lines [] ((read_plain <$> mjoin lines) ++ rest) = line_texts lines ++ join_lines [] rest.
Proof.
  intros Hc. induction 1 as [|line lines (cells & marks & Hw & _ & ->) _ IH]; [done|].
  change (mjoin (?a :: ?b)) with (a ++ mjoin b). rewrite fmap_app, <- app_assoc.
  destruct (line_rows_ok column_count cells marks Hw) as (H & Hj & _).
  rewrite (wrapped_join _ _ _ _ H), IH, Hj. unfold line_texts at 2. rewrite fmap_cons, Hj. done.
Qed.

(** ** The lines of the screen *)

(** A row that fills its width unless it ends its line. *)
Definition row_filled (column_count : N) (row : Row) : Prop :=
  match row_end row.2 with
  | Hard => (length row.1 <= N.to_nat column_count)%nat
  | Soft => length row.1 = N.to_nat column_count
  | SoftWide => S (length row.1) = N.to_nat column_count
  end.

Lemma wrapped_rows_filled column_count (rows : list Row) :
  wrapped (N.to_nat column_count) (strip <$> rows) -> Forall (row_filled column_count) rows.
Proof.
  intros H. apply Forall_lookup. intros i row Hi.
  assert (exists rest, wrapped (N.to_nat column_count) (strip row :: rest)) as [rest Hw].
  { apply (wrapped_lookup _ (strip <$> rows) i); [done|]. by rewrite list_lookup_fmap, Hi. }
  unfold strip in Hw. unfold row_filled. by destruct (row_end row.2); inversion Hw.
Qed.

Lemma lines_rows_filled column_count lines :
  1 <= column_count -> Forall (line_ok column_count) lines -> Forall (row_filled column_count) (mjoin lines).
Proof.
  intros Hc. induction 1 as [|line lines (cells & marks & Hw & _ & ->) _ IH]; [constructor|].
  change (mjoin (?a :: ?b)) with (a ++ mjoin b). apply Forall_app. split; [|done].
  destruct (line_rows_ok column_count cells marks Hw) as (Hwr & _). rewrite N.max_l in Hwr by done.
  by apply wrapped_rows_filled.
Qed.

Lemma full_row_filled column_count s row :
  row_filled column_count row -> row_end row.2 <> Hard ->
  length (full_row s row) = N.to_nat column_count /\ row_content (full_row s row, row.2) = row.1.
Proof.
  unfold row_filled, row_content, full_row. cbn [fst snd]. destruct (row_end row.2); intros H Hne; [done| |].
  - rewrite bool_decide_eq_false_2, app_nil_r by done. done.
  - rewrite bool_decide_eq_true_2 by done. rewrite length_app. simpl. split; [lia|].
    apply take_app_length'. lia.
Qed.

(** A row padded with default blanks is read as the row. *)
Lemma read_filled n s row column_count :
  row_filled column_count row -> (row_end row.2 <> Hard -> n = 0%nat) ->
  read (full_row s row ++ replicate n build_blank, row.2) = read_plain row.
Proof.
  intros H Hn. unfold read, read_plain. cbn [fst snd]. case_bool_decide as E.
  - f_equal. unfold row_content, full_row. cbn [fst snd]. rewrite E, bool_decide_eq_false_2, app_nil_r by done.
    apply written_padded.
  - rewrite Hn, app_nil_r by done. by destruct (full_row_filled column_count s row H E) as [_ ->].
Qed.

Lemma read_stored column_count s row :
  row_filled column_count row -> read (stored_row column_count s row) = read_plain row.
Proof.
  intros H. apply (read_filled _ s row column_count H). intros Hne.
  destruct (full_row_filled column_count s row H Hne). lia.
Qed.

Lemma read_screen column_count s row :
  row_filled column_count row -> build_blank_with_style s = build_blank ->
  read (screen_row column_count s row) = read_plain row.
Proof.
  intros H Hs. unfold screen_row, resize_with. rewrite Hs.
  assert (length (full_row s row) <= N.to_nat column_count)%nat as Hl.
  { destruct (decide (row_end row.2 = Hard)) as [E|E].
    - unfold row_filled in H. rewrite E in H. unfold full_row.
      by rewrite bool_decide_eq_false_2, app_nil_r by (by rewrite E).
    - destruct (full_row_filled column_count s row H E). lia. }
  rewrite take_ge by done. apply (read_filled _ s row column_count H).
  intros Hne. destruct (full_row_filled column_count s row H Hne). lia.
Qed.

(** Rows that read as empty add no line. *)
Lemma join_blanks cells rows rest :
  Forall (fun row => row = ([], true)) rest ->
  same_lines (join_lines cells (rows ++ rest)) (join_lines cells rows).
Proof.
  intros Hr. revert cells. induction rows as [|[content is_hard] rows IH]; intros cells; cbn [app join_lines].
  - assert (forall rest, Forall (fun row => row = ([], true)) rest ->
      join_lines [] rest = replicate (S (length rest)) []) as Hall.
    { clear. induction 1 as [|? rest -> _ IH]; [done|]. cbn [join_lines length]. rewrite IH. done. }
    destruct Hr as [|? rest -> Hr]; [done|]. cbn [join_lines]. rewrite app_nil_r, (Hall rest Hr).
    exists 0%nat, (S (length rest)). by rewrite app_nil_r.
  - destruct is_hard; [|apply IH]. apply (same_lines_app [_]), IH.
Qed.

Lemma read_blank_row s row :
  is_blank_row s row = true -> read_plain row = ([], true).
Proof.
  unfold is_blank_row, read_plain. intros H. apply andb_true_iff in H as [[E _]%andb_true_iff H2]. rewrite E.
  apply bool_decide_eq_true in E. unfold full_row in H2. rewrite bool_decide_eq_false_2, app_nil_r in H2 by (by rewrite E).
  apply Nat.eqb_eq in H2. unfold written. by rewrite H2.
Qed.

Lemma rows_to_split_filled column_count row_count rows :
  Forall (row_filled column_count) rows -> Forall (row_filled column_count) (rows_to_split row_count rows).
Proof.
  intros H. unfold rows_to_split. destruct (_ && _); [|done]. apply Forall_singleton. unfold row_filled. simpl. lia.
Qed.

Lemma rows_to_split_lines row_count rows :
  same_lines (join_lines [] (read_plain <$> rows_to_split row_count rows)) (join_lines [] (read_plain <$> rows)).
Proof.
  unfold rows_to_split. destruct (_ && _) eqn:E; [|done]. apply andb_true_iff in E as [E _].
  apply bool_decide_eq_true in E as ->. by exists 0%nat, 1%nat.
Qed.

Lemma kept_lines row_count cursor_row s rows kept :
  blanks_dropped row_count cursor_row s rows kept ->
  same_lines (join_lines [] (read_plain <$> rows)) (join_lines [] (read_plain <$> kept)).
Proof.
  intros [(blanks & -> & Hb & _) _]. rewrite fmap_app. apply join_blanks, Forall_fmap.
  eapply Forall_impl; [exact Hb|]. intros row. apply read_blank_row.
Qed.

(** The evicted rows, the history and the screen hold the lines of [kept]. *)
Lemma reflowed_lines column_count row_count s kept history cursor_at before screen' :
  reflowed column_count row_count s kept history cursor_at before screen' ->
  Forall (row_filled column_count) kept -> build_blank_with_style s = build_blank ->
  exists evicted_rows,
    same_lines (lines_of (evicted_rows ++ all_rows history screen')) (join_lines [] (read_plain <$> kept))
    /\ (lines_fit (maximum_line_count (scrollback before)) (maximum_byte_count (scrollback before))
          (retained_lines (scrollback screen')) /\
        (evicted_rows <> [] ->
         exists lines, Forall2 history_line (evicted_rows ++ history) lines
           /\ ~ lines_fit (maximum_line_count (scrollback before)) (maximum_byte_count (scrollback before)) lines)).
Proof.
  intros [H1 _ H3 _ _ _] Hf Hs. destruct H3 as (lines & evicted_rows & evicted & E1 & E2 & E3 & E4).
  exists evicted_rows. split; [|split].
  - cbv zeta in H1. unfold lines_of, all_rows. rewrite H1, app_assoc, <- E2, app_assoc, fmap_app.
    set (over := (length kept - N.to_nat row_count)%nat) in *.
    assert (read <$> (stored_row column_count s <$> take over kept) ++ (screen_row column_count s <$> drop over kept)
      = read_plain <$> kept) as ->.
    { rewrite <- (take_drop over kept) at 3. rewrite !fmap_app, <- !list_fmap_compose. f_equal;
        apply list_fmap_ext; intros i row Hi; cbn.
      - apply read_stored. rewrite Forall_lookup in Hf. eapply Hf. by eapply lookup_take_Some.
      - apply read_screen; [|done]. rewrite Forall_lookup in Hf. rewrite lookup_drop in Hi. by eapply Hf. }
    apply join_blanks, Forall_fmap, Forall_replicate. cbn. unfold read, blank_row. cbn.
    unfold row_content. cbn. rewrite Hs. change (replicate ?n build_blank) with ([] ++ replicate n build_blank).
    rewrite count_row_content_cells_padded. done.
  - apply (kn_fit _ _ _ _ _ E3).
  - intros Hne. exists lines. split; [by rewrite <- E2|]. intros Hfit.
    pose proof (kn_longest _ _ _ _ _ E3 [] lines eq_refl Hfit) as Hl. rewrite (kn_split _ _ _ _ _ E3), length_app in Hl.
    pose proof (Forall2_length _ _ _ E1) as H4. pose proof (Forall2_length _ _ _ E4) as H5.
    rewrite E2, (kn_split _ _ _ _ _ E3), !length_app in H4. destruct evicted_rows; [done|]. simpl in H4. lia.
Qed.

(** ** The cursor *)

(** The cell of the rows at a position. *)
Definition cell_at (rows : list Row) (at_position : nat * nat) : option Cell :=
  row ← rows !! at_position.1; row.1 !! at_position.2.

Lemma locate_cell i (rows : list Row) offset c :
  mjoin rows.*1 !! offset = Some c ->
  let '(row_index, column_index) := locate_from i (row_lengths rows) offset in
  (i <= row_index)%nat /\ cell_at rows (row_index - i, column_index)%nat = Some c.
Proof.
  revert i offset. induction rows as [|row rows IH]; intros i offset H; [done|].
  rewrite rows_join_cons in H. rewrite row_lengths_cons. cbn [locate_from].
  destruct (_ || _) eqn:E.
  - rewrite Nat.sub_diag. split; [done|]. unfold cell_at. cbn. apply lookup_app_Some in H as [H|[Hge H]]; [done|].
    exfalso. apply orb_true_iff in E as [E|E].
    + apply Nat.ltb_lt in E. lia.
    + apply bool_decide_eq_true in E. unfold row_lengths in E. by destruct rows.
  - apply orb_false_iff in E as [E%Nat.ltb_ge _]. rewrite lookup_app_r in H by done.
    specialize (IH (S i) _ H). replace (i + 1)%nat with (S i) by lia.
    destruct (locate_from _ _ _) as [r col]. destruct IH as [Hr IH]. split; [lia|].
    unfold cell_at in *. cbn [fst snd] in *. by replace (r - i)%nat with (S (r - S i)) by lia.
Qed.

(** The cursor is on a cell [c]: of the line being read, or of a line pushed. *)
Definition cursor_on (c : Cell) (p : PlainReflow) : Prop :=
  match plain_cursor p with
  | Some offset => plain_cells p !! offset = Some c
  | None => cell_at (mjoin (plain_lines p)) (plain_cursor_at p) = Some c
  end.

Lemma cell_at_app rows rows' at_position c :
  cell_at rows at_position = Some c -> cell_at (rows ++ rows') at_position = Some c.
Proof.
  unfold cell_at. destruct (rows !! _) as [row|] eqn:E; [|done]. by rewrite (lookup_app_l_Some _ _ _ _ E).
Qed.

Lemma cursor_on_push column_count c p : 2 <= column_count -> cursor_on c p -> cursor_on c (plain_push column_count p).
Proof.
  intros Hc H. unfold cursor_on, plain_push in *. cbn [plain_cursor plain_lines plain_cursor_at].
  rewrite (proj2 (N.leb_gt _ _)) by lia. rewrite join_app.
  destruct (plain_cursor p) as [offset|]; [|by apply cell_at_app].
  destruct (line_rows_ok column_count (plain_cells p) (plain_marks p)) as (_ & Hj & _); [lia|].
  rewrite <- Hj in H. apply (locate_cell 0) in H. unfold locate_content_cell_offset.
  change ((fun row : list Cell * RowMetadata => length row.1) <$> line_rows column_count (plain_cells p) (plain_marks p))
    with (row_lengths (line_rows column_count (plain_cells p) (plain_marks p))).
  destruct (locate_from _ _ _) as [r col]. destruct H as [_ H]. rewrite Nat.sub_0_r in H.
  unfold cell_at in *. cbn [fst snd mjoin list_join] in *. rewrite app_nil_r.
  rewrite lookup_app_r by apply Nat.le_add_r. by rewrite Nat.add_comm, Nat.add_sub.
Qed.

Lemma cursor_on_row column_count cursor_index cursor_column c p i row :
  2 <= column_count -> cursor_on c p -> i <> cursor_index ->
  cursor_on c (plain_row column_count cursor_index cursor_column p (i, row)).
Proof.
  intros Hc H Hi. rewrite plain_row_eq.
  assert (cursor_on c (plain_read cursor_index cursor_column p i row)) as Hr.
  { unfold cursor_on, plain_read in *. cbn [plain_cursor plain_cells plain_lines plain_cursor_at].
    rewrite (proj2 (Nat.eqb_neq _ _) Hi). destruct (plain_cursor p); [|done]. by apply lookup_app_l_Some. }
  destruct (bool_decide _); [by apply cursor_on_push|done].
Qed.

Lemma cursor_on_read column_count cursor_index cursor_column c p row :
  2 <= column_count -> row_content row !! cursor_column = Some c ->
  cursor_on c (plain_row column_count cursor_index cursor_column p (cursor_index, row)).
Proof.
  intros Hc H. rewrite plain_row_eq.
  assert (cursor_on c (plain_read cursor_index cursor_column p cursor_index row)) as Hr.
  { unfold cursor_on, plain_read. cbn [plain_cursor plain_cells]. rewrite Nat.eqb_refl.
    pose proof (lookup_lt_Some _ _ _ H). rewrite lookup_app_r by lia.
    case_bool_decide; rewrite Nat.add_sub_swap, Nat.sub_diag by lia; [done|].
    by rewrite Nat.min_l by lia. }
  destruct (bool_decide _); [by apply cursor_on_push|done].
Qed.

Lemma plain_cursor_cell column_count cursor_index cursor_column rows row c :
  2 <= column_count -> rows !! cursor_index = Some row -> row_content row !! cursor_column = Some c ->
  let p := plain_reflow column_count cursor_index cursor_column rows in
  cell_at (mjoin (plain_lines p)) (plain_cursor_at p) = Some c.
Proof.
  intros Hc Hrow Hcell p.
  assert (forall n rows q, cursor_on c q -> (cursor_index < n)%nat ->
    cursor_on c (foldl (plain_row column_count cursor_index cursor_column) q
      (imap (fun i (row : Row) => (n + i, row)%nat) rows))) as Hafter.
  { clear -Hc. intros n rows. revert n. induction rows as [|row rows IH]; intros n q Hq Hn; [done|]. cbn [imap foldl].
    rewrite (imap_ext _ (fun i (row : Row) => (S n + i, row)%nat)) by (intros; simpl; f_equal; lia).
    apply IH; [|lia]. apply cursor_on_row; [done|done|lia]. }
  assert (cursor_on c (foldl (plain_row column_count cursor_index cursor_column) plain_start (enumerate rows))) as Hon.
  { unfold enumerate. rewrite <- (take_drop_middle _ _ _ Hrow), imap_app, foldl_app. cbn [imap foldl].
    pose proof (lookup_lt_Some _ _ _ Hrow) as Hlt.
    assert (length (take cursor_index rows) = cursor_index) as El by (rewrite length_take; lia).
    unfold compose at 1. rewrite El, Nat.add_0_r.
    match goal with |- cursor_on _ (foldl _ ?q (imap ?f ?l)) =>
      rewrite (imap_ext f (fun i (row : Row) => (S cursor_index + i, row)%nat) l)
        by (intros; unfold compose; rewrite ?El; f_equal; lia) end.
    apply Hafter; [|lia]. by apply cursor_on_read. }
  subst p. unfold plain_reflow, plain_finish. set (q := foldl _ _ _) in *.
  destruct (_ || _) eqn:E; [by apply (cursor_on_push column_count c q Hc) in Hon|].
  apply orb_false_iff in E as [E _]. apply bool_decide_eq_false, dec_stable in E.
  unfold cursor_on in Hon. rewrite E in Hon. by destruct (plain_cursor q).
Qed.

Lemma position_cell (rows : list Row) i j row c :
  rows !! i = Some row -> row.1 !! j = Some c -> cell_at rows (i, j) = Some c.
Proof. intros H Hc. unfold cell_at. cbn [fst snd]. by rewrite H. Qed.

(** The cell a cursor is on stays at its place in the rows kept, on the screen
    or in the history. *)
Lemma reflowed_cell column_count row_count s kept history at_position before screen' c :
  reflowed column_count row_count s kept history at_position before screen' ->
  Forall (row_whole column_count s) kept -> 1 <= column_count ->
  cell_at kept at_position = Some c ->
  exists evicted_rows,
    length (evicted_rows ++ history) = (length kept - N.to_nat row_count)%nat
    /\ cell_at (evicted_rows ++ all_rows history screen') at_position = Some c
    /\ ((length (evicted_rows ++ history) <= at_position.1)%nat ->
        cell_at (view (primary screen'))
          (N.to_nat (primary_cursor_row screen'), N.to_nat (primary_cursor_column screen')) = Some c).
Proof.
  intros [H1 _ H3 _ H5 H6] Hw Hcc Hc. destruct H3 as (lines & evicted_rows & evicted & _ & E2 & _ & _).
  cbv zeta in H1. set (over := (length kept - N.to_nat row_count)%nat) in *.
  destruct at_position as [i j]. unfold cell_at in Hc. cbn [fst snd] in *.
  destruct (kept !! i) as [row|] eqn:Erow; [|done]. cbn [mbind option_bind] in Hc.
  assert (i < length kept)%nat as Hi by exact (lookup_lt_Some _ _ _ Erow). pose proof (lookup_lt_Some _ _ _ Hc) as Hj.
  pose proof Hw as Hrow. rewrite Forall_lookup in Hrow. destruct (Hrow _ _ Erow) as (_ & Hlen & _).
  rewrite N.max_l in Hlen by done.
  assert (length row.1 <= length (full_row s row))%nat as Hfull by (rewrite full_row_length; lia).
  assert (full_row s row !! j = Some c) as Hf by (by apply lookup_app_l_Some).
  assert ((stored_row column_count s row).1 !! j = Some c) as Hstored by (by apply lookup_app_l_Some).
  assert ((screen_row column_count s row).1 !! j = Some c) as Hscreen.
  { cbn [screen_row fst]. unfold resize_with. rewrite take_ge by lia. by apply lookup_app_l_Some. }
  assert (length (evicted_rows ++ history) = over) as Hover
    by (rewrite <- E2, length_fmap, length_take; unfold over; lia).
  assert (forall k, (over + k = i)%nat -> view (primary screen') !! k = Some (screen_row column_count s row)) as Hview.
  { intros k Hk. rewrite H1. apply lookup_app_l_Some, list_lookup_fmap_Some. exists row.
    split; [done|]. rewrite lookup_drop, Hk. exact Erow. }
  exists evicted_rows. unfold all_rows. rewrite app_assoc, Hover. split; [done|]. split.
  - destruct (decide (i < over)%nat) as [Hlt|Hge].
    + apply cell_at_app. rewrite <- E2. apply (position_cell _ i j (stored_row column_count s row)); [|done].
      apply list_lookup_fmap_Some. exists row. split; [done|]. rewrite lookup_take_lt by done. exact Erow.
    + apply (position_cell _ i j (screen_row column_count s row)); [|done].
      assert (length (evicted_rows ++ history) <= i)%nat as Hle by (rewrite Hover; lia).
      assert (over + (i - length (evicted_rows ++ history)) = i)%nat as Heq by (rewrite Hover; lia).
      apply lookup_app_Some. right. split; [exact Hle|apply Hview, Heq].
  - intros Hge. rewrite H5, H6. apply (position_cell _ _ _ (screen_row column_count s row)).
    + apply Hview. unfold over in *. lia.
    + by rewrite Nat.min_l by lia.
Qed.

Lemma kept_cell row_count s rows kept at_position c :
  blanks_dropped (N.to_nat row_count) at_position.1 s (rows_to_split row_count rows) kept ->
  cell_at rows at_position = Some c ->
  cell_at kept at_position = Some c /\ (length kept <= length rows)%nat.
Proof.
  intros [(blanks & E & _ & Hneed) _] Hc. destruct at_position as [i j]. unfold cell_at in *. cbn [fst snd] in *.
  destruct (rows !! i) as [row|] eqn:Erow; [|done].
  assert (rows_to_split row_count rows = rows) as Er.
  { unfold rows_to_split. rewrite bool_decide_eq_false_2; [done|]. by intros ->. }
  rewrite Er in E. rewrite E in Erow.
  split; [|rewrite E, length_app; lia]. assert (kept !! i = Some row) as ->; [|done].
  destruct (decide (blanks = [])) as [->|Hne]; [by rewrite app_nil_r in Erow|].
  rewrite lookup_app_l in Erow by (by apply Hneed). exact Erow.
Qed.

Lemma written_length cells : (length (written cells) <= length cells)%nat.
Proof. unfold written. rewrite length_take. lia. Qed.

Lemma written_tail cells cells' : written (cells ++ cells') = cells ++ cells' -> written cells' = cells'.
Proof.
  intros H. pose proof (written_eq cells') as E.
  destruct (decide (length cells' - count_row_content_cells cells' = 0)%nat) as [E0|Hne].
  - by rewrite E0, app_nil_r in E.
  - pose proof (written_length (cells ++ written cells')) as Hl. rewrite written_app, H, !length_app in Hl.
    apply (f_equal length) in E. rewrite length_app, length_replicate in E. lia.
Qed.

(** The rows of a line, stored and read back, are its text. *)
Lemma stored_line_content column_count s (line : list Row) :
  wrapped (N.to_nat column_count) (strip <$> line) -> written (mjoin line.*1) = mjoin line.*1 ->
  mjoin (row_content <$> (stored_row column_count s <$> line)) = mjoin line.*1.
Proof.
  intros H Hw. pose proof (wrapped_rows_filled _ _ H) as Hf. rewrite <- list_fmap_compose.
  rewrite (Forall_fmap_ext_1 _ (fun row => (read_plain row).1))
    by (eapply Forall_impl; [exact Hf|]; intros row Hrow; by rewrite <- (read_stored _ s row Hrow)).
  clear Hf. assert (forall pre, written (pre ++ mjoin line.*1) = pre ++ mjoin line.*1 ->
    mjoin ((fun row => (read_plain row).1) <$> line) = mjoin line.*1) as Hgo; [|by apply (Hgo [])].
  clear Hw. induction line as [|row line IH]; intros pre Hw; [done|].
  change (strip <$> row :: line) with ((row.1, row_end row.2) :: (strip <$> line)) in H.
  rewrite rows_join_cons in *. rewrite fmap_cons. cbn [mjoin list_join]. unfold read_plain at 1. cbn [fst].
  case_bool_decide as E.
  - rewrite E in H. inversion H; subst; [|done..]. destruct line; [|done]. cbn in Hw |- *. rewrite !app_nil_r in *.
    by apply (written_tail pre).
  - f_equal. apply (IH ltac:(by inversion H) (pre ++ row.1)). by rewrite <- app_assoc.
Qed.
