(* ===== verification/ReflowContract.v ===== *)
(** * What a resize promises

    The theorems about [reflow_primary] and the two ways it reads the old
    rows, with a screen of two rows below a history of one as the example. *)

From S2P Require Import Prelude Varint Style Cell RowEncoder RowDecoder RowItems RowRoundTrip RowContract Snapshot.
From S2P Require Import Grid GridView Scrollback Reflow ReflowPlain ReflowRewrap ReflowKeep ReflowScreen.
From S2P Require Import ReflowText.
From stdpp Require Import options.
#[local] Open Scope N_scope.

(** ** The example *)

Definition letter (c : N) : Cell := from_character c 1 default_style.

(** U+6F22 in two columns. *)
Definition example_glyph : list Cell :=
  [from_character 28450 2 default_style; MkCell 32 None 0 default_style].

(** "hi", above a wrapped line "ab" with a wide glyph and "c". *)
Definition example_history_rows : list Row :=
  [([letter 104; letter 105; build_blank; build_blank], MkRowMetadata Hard true)].

Definition example_screen_rows : list Row :=
  [([letter 97; letter 98] ++ example_glyph, MkRowMetadata Soft false);
   ([letter 99; build_blank; build_blank; build_blank], MkRowMetadata Hard false)].

Definition example_scrollback (lines : list RowSnapshot) : Scrollback :=
  MkScrollback lines 100 1000 (compute_retained_byte_count lines) 1.

(** The cursor is on the "c". *)
Definition example_screen (lines : list RowSnapshot) : PrimaryScreen :=
  MkPrimaryScreen (from_rows_with_metadata example_screen_rows 4 default_style) (example_scrollback lines) 1 0.

Lemma example_cells_ok : Forall (fun row : Row => cells_ok row.1) (example_history_rows ++ example_screen_rows).
Proof. repeat constructor; vm_compute; done. Qed.

Lemma example_screen_whole :
  exists lines, mapM (fun row : Row => from_row_cells row.1 row.2) example_history_rows = Some lines
    /\ screen_whole 2 4 example_history_rows (example_screen lines).
Proof.
  pose proof example_cells_ok as Hok. apply Forall_app in Hok as [Hh Hs].
  inversion Hh as [|row rows Hrow _ E]; subst. destruct Hrow as [Hw Hc].
  destruct (from_row_cells_ok _ (MkRowMetadata Hard true) Hw Hc) as (s & Es & _); [done|].
  exists [s]. split; [unfold example_history_rows; cbn [mapM fst snd] in Es |- *; by rewrite Es|].
  destruct (from_rows_ok example_screen_rows 4 default_style) as [Hg Hv]; [done|done|done|exact Hs|].
  split; [split; [exact Hg|]|].
  - constructor; [|constructor]. pose proof (from_row_cells_uncached _ _ _ Es) as Hu.
    split; [by split|done|by rewrite Hu|left; by rewrite <- Hu].
  - intros _. split; [|vm_compute; lia]. unfold all_rows. cbn [primary example_screen]. rewrite Hv.
    repeat constructor.
Qed.

(** ** Claims *)

(** C7: The re-wrap of a screen never panics, and its output is the plain
    reflow of the rows the history and the screen hold: the encodings of
    exactly its rows, in order, with its line shapes, its per-row cell counts,
    where each old row went, and its cursor. *)
Theorem rewrap_is_the_plain_reflow row_count old_column_count column_count history screen s :
  screen_ok row_count old_column_count history screen -> Style_wf s -> column_count <= U16_MAX ->
  exists output,
    rewrap_primary_rows column_count s screen = Some (output, (take_retained_lines (scrollback screen)).2)
    /\ let p := plain_of column_count history screen in
       mapM (encode_row column_count s) (mjoin (plain_lines p)) = Some (rewrapped_rows output)
       /\ rewrapped_line_shapes output = shapes_of 0 (plain_lines p)
       /\ rewrapped_row_content_cell_counts output = row_lengths (mjoin (plain_lines p))
       /\ source_rows output = plain_source_rows p
       /\ (new_cursor_physical_row_index output, new_cursor_column_index output) = plain_cursor_at p.
Proof.
  intros H Hs Hc. destruct (rewrap_primary_ok _ _ _ _ _ _ H Hs Hc) as (output & E & [_ _ R3 R4 R5] & R6 & R7).
  by exists output.
Qed.

(** The rows the example re-wraps to at three columns. *)
Definition example_rewrapped_texts (output : ReflowOutput) : option (list (list N)) :=
  rows ← mapM rewrapped_decode_row_cells (rewrapped_rows output);
  Some ((fun row : list Cell => character <$> row) <$> rows).

Lemma rewrap_is_the_plain_reflow_witness :
  exists lines, mapM (fun row : Row => from_row_cells row.1 row.2) example_history_rows = Some lines
    /\ exists output, rewrap_primary_rows 3 default_style (example_screen lines)
         = Some (output, (take_retained_lines (example_scrollback lines)).2)
       /\ source_rows output = plain_source_rows (plain_of 3 example_history_rows (example_screen lines)).
Proof.
  destruct example_screen_whole as (lines & E & [Hok _]). exists lines. split; [exact E|].
  destruct (rewrap_is_the_plain_reflow 2 4 3 _ _ default_style Hok) as (output & Ho & _ & _ & _ & Hsrc & _);
    [done|done|]. by exists output.
Defined.

(** C32: On a screen whose rows are whole, the pass that keeps rows as they are
    never panics, and where it keeps them it gives what the re-wrap would:
    rows that encode the same cells, the same line shapes, counts and sources,
    and the same cursor. *)
Theorem kept_rows_are_the_rewrapped_rows row_count old_column_count column_count history screen s :
  screen_whole row_count old_column_count history screen -> Style_wf s -> column_count <= U16_MAX ->
  keep_primary_rows column_count s screen = Some None
  \/ exists output output',
       keep_primary_rows column_count s screen = Some (Some output)
       /\ rewrap_primary_rows column_count s screen = Some (output', (take_retained_lines (scrollback screen)).2)
       /\ same_output output' output.
Proof.
  intros H Hs Hc. destruct (keep_primary_total _ _ _ _ _ _ H Hs Hc) as [E|(o & o' & E & E' & Hsame & _)]; [by left|].
  right. by exists o, o'.
Qed.

Lemma kept_rows_are_the_rewrapped_rows_witness :
  exists lines, mapM (fun row : Row => from_row_cells row.1 row.2) example_history_rows = Some lines
    /\ exists output output',
       keep_primary_rows 4 default_style (example_screen lines) = Some (Some output)
       /\ rewrap_primary_rows 4 default_style (example_screen lines)
          = Some (output', (take_retained_lines (example_scrollback lines)).2)
       /\ same_output output' output.
Proof.
  destruct example_screen_whole as (lines & E & Hw). exists lines. split; [exact E|].
  destruct (kept_rows_are_the_rewrapped_rows 2 4 4 _ _ default_style Hw) as [Hn|(o & o' & H)]; [done|done| |by exists o, o'].
  exfalso. vm_compute in E. injection E as <-. vm_compute in Hn. done.
Defined.

(** C34: Resizing a screen whose rows are whole never panics while the count of
    pushed rows fits, and gives a screen that can be resized again: exactly
    [row_count] rows of [column_count] cells with true bookkeeping, a history
    of whole encoded rows within its caps, and the cursor inside the screen. *)
Theorem resizes_give_whole_screens row_count column_count old_row_count old_column_count history screen s :
  screen_whole old_row_count old_column_count history screen -> Style_wf s ->
  column_count <= U16_MAX -> row_count <= U16_MAX ->
  total_pushed_line_count (scrollback screen)
    + N.of_nat (length (mjoin (plain_lines (plain_of column_count history screen)))) + 1 < U64_MODULUS ->
  exists history' screen',
    reflow_primary column_count row_count s screen = Some screen'
    /\ screen_whole row_count column_count history' screen'
    /\ scrollback_ok (scrollback screen')
    /\ length (view (primary screen')) = N.to_nat row_count
    /\ Forall (fun row : Row => length row.1 = N.to_nat column_count) (view (primary screen'))
    /\ (0 < row_count -> primary_cursor_row screen' < row_count)
    /\ (0 < column_count -> primary_cursor_column screen' < column_count).
Proof.
  intros H Hs Hc Hr Ht.
  destruct (reflow_primary_ok row_count column_count _ _ _ _ s H Hs Hc Hr Ht) as (kept & h' & s' & E & _ & Hr' & Hw).
  pose proof (reflowed_whole _ _ _ _ _ _ _ _ Hr' Hw) as Hwh. exists h', s'.
  pose proof (rf_grid _ _ _ _ _ _ _ _ Hr') as Hg. pose proof (rf_cursor_row _ _ _ _ _ _ _ _ Hr').
  pose proof (rf_cursor_column _ _ _ _ _ _ _ _ Hr').
  split_and!; [done|done|by apply (rf_scrollback _ _ _ _ _ _ _ _ Hr')| | |lia|lia].
  - rewrite view_length. apply (gk_row_count _ _ _ Hg).
  - unfold view. apply Forall_fmap. eapply Forall_impl; [apply (gk_rows _ _ _ Hg)|]. intros row Hrow. apply (rk_length _ _ Hrow).
Qed.

Lemma resizes_give_whole_screens_witness :
  exists lines, mapM (fun row : Row => from_row_cells row.1 row.2) example_history_rows = Some lines
    /\ exists history' screen', reflow_primary 3 2 default_style (example_screen lines) = Some screen'
       /\ screen_whole 2 3 history' screen' /\ length (view (primary screen')) = 2%nat.
Proof.
  destruct example_screen_whole as (lines & E & Hw). exists lines. split; [exact E|].
  destruct (resizes_give_whole_screens 2 3 2 4 _ _ default_style Hw) as (h' & s' & E' & Hw' & _ & Hl & _);
    [done|done|done| |by exists h', s'].
  vm_compute in E. injection E as <-. vm_compute. done.
Defined.

(** C19: On a whole screen ([screen_whole]: a history and a screen of valid
    rows at their width, with the cursor on the screen, as every resize leaves
    them), at two or more columns and with a background that leaves blanks as
    they are, a resize keeps the text: the rows dropped from the history, the
    history and the screen after it hold the same logical lines as the history
    and the screen before it, up to blanks at the end of a line and empty
    lines at the end; rows are dropped only when all together do not fit the
    history's caps. *)
Theorem resizes_keep_every_line row_count column_count old_row_count old_column_count history screen s :
  screen_whole old_row_count old_column_count history screen -> Style_wf s ->
  build_blank_with_style s = build_blank -> 2 <= column_count <= U16_MAX -> row_count <= U16_MAX ->
  total_pushed_line_count (scrollback screen)
    + N.of_nat (length (mjoin (plain_lines (plain_of column_count history screen)))) + 1 < U64_MODULUS ->
  exists evicted_rows history' screen',
    reflow_primary column_count row_count s screen = Some screen'
    /\ Forall2 history_line history' (retained_lines (scrollback screen'))
    /\ same_lines (lines_of (all_rows history screen)) (lines_of (evicted_rows ++ all_rows history' screen'))
    /\ (evicted_rows <> [] ->
        exists lines, Forall2 history_line (evicted_rows ++ history') lines
          /\ ~ lines_fit (maximum_line_count (scrollback screen)) (maximum_byte_count (scrollback screen)) lines).
Proof.
  intros H Hs Hblank [Hc2 Hc] Hr Ht.
  destruct (reflow_primary_ok row_count column_count _ _ _ _ s H Hs Hc Hr Ht) as (kept & h' & s' & E & Hd & Hr' & Hw).
  assert (Forall (line_ok column_count) (plain_lines (plain_of column_count history screen))) as Hlines
    by (eapply plain_reflow_lines, all_rows_ok, (wh_screen _ _ _ _ H)).
  assert (Forall (row_filled column_count) kept) as Hf.
  { destruct (bd_split _ _ _ _ _ Hd) as (blanks & Es & _).
    assert (Forall (row_filled column_count) (kept ++ blanks)) as Hall
      by (rewrite <- Es; apply rows_to_split_filled, lines_rows_filled; [lia|done]).
    by apply Forall_app in Hall as [? _]. }
  destruct (reflowed_lines _ _ _ _ _ _ _ _ Hr' Hf Hblank) as (evicted & Hsame & _ & Hev).
  exists evicted, h', s'. split; [done|]. split; [apply (wh_screen _ _ _ _ (reflowed_whole _ _ _ _ _ _ _ _ Hr' Hw))|].
  split; [|done]. rewrite Hsame, <- (kept_lines _ _ _ _ _ Hd), rows_to_split_lines.
  rewrite (plain_reflow_texts column_count (cursor_index screen) (N.to_nat (primary_cursor_column screen))) by done.
  pose proof (lines_join column_count _ [] Hc2 Hlines) as Hj. rewrite app_nil_r in Hj. rewrite Hj.
  exists 1%nat, 0%nat. by rewrite app_nil_r.
Qed.

Lemma resizes_keep_every_line_witness :
  exists lines, mapM (fun row : Row => from_row_cells row.1 row.2) example_history_rows = Some lines
    /\ exists evicted_rows history' screen', reflow_primary 3 2 default_style (example_screen lines) = Some screen'
       /\ same_lines (lines_of (all_rows example_history_rows (example_screen lines)))
            (lines_of (evicted_rows ++ all_rows history' screen')).
Proof.
  destruct example_screen_whole as (lines & E & Hw). exists lines. split; [exact E|].
  destruct (resizes_keep_every_line 2 3 2 4 _ _ default_style Hw) as (e & h' & s' & E' & _ & Hsame & _);
    [done|done|done|done| |by exists e, h', s'].
  vm_compute in E. injection E as <-. vm_compute. done.
Defined.


(** C33: The cursor stays on its cell: on a whole screen ([screen_whole], as in
    [resizes_give_whole_screens]), when the cursor is on a cell of its row's text, that cell is, after a resize to two or more columns, at the
    place the reflow gives the cursor among the rows dropped, kept in the
    history and shown; and unless that row went to the history the cursor on
    the new screen is on that cell. *)
Theorem cursor_stays_on_its_cell row_count column_count old_row_count old_column_count history screen s row c :
  screen_whole old_row_count old_column_count history screen -> Style_wf s ->
  2 <= column_count <= U16_MAX -> row_count <= U16_MAX ->
  total_pushed_line_count (scrollback screen)
    + N.of_nat (length (mjoin (plain_lines (plain_of column_count history screen)))) + 1 < U64_MODULUS ->
  all_rows history screen !! cursor_index screen = Some row ->
  row_content row !! N.to_nat (primary_cursor_column screen) = Some c ->
  exists evicted_rows history' screen',
    reflow_primary column_count row_count s screen = Some screen'
    /\ Forall2 history_line history' (retained_lines (scrollback screen'))
    /\ let p := plain_of column_count history screen in
       let at_position := plain_cursor_at p in
       (length (evicted_rows ++ history') <= length (mjoin (plain_lines p)) - N.to_nat row_count)%nat
       /\ cell_at (evicted_rows ++ all_rows history' screen') at_position = Some c
       /\ ((length (evicted_rows ++ history') <= at_position.1)%nat ->
           cell_at (view (primary screen'))
             (N.to_nat (primary_cursor_row screen'), N.to_nat (primary_cursor_column screen')) = Some c).
Proof.
  intros H Hs [Hc2 Hc] Hr Ht Hrow Hcell.
  destruct (reflow_primary_ok row_count column_count _ _ _ _ s H Hs Hc Hr Ht) as (kept & h' & s' & E & Hd & Hr' & Hw).
  pose proof (plain_cursor_cell column_count (cursor_index screen) _ _ _ _ Hc2 Hrow Hcell) as Hat.
  cbv zeta in Hat. fold (plain_of column_count history screen) in Hat.
  assert (cell_at kept (plain_cursor_at (plain_of column_count history screen)) = Some c
    /\ (length kept <= length (mjoin (plain_lines (plain_of column_count history screen))))%nat) as [Hkept Hlen]
    by (eapply kept_cell; eassumption).
  destruct (reflowed_cell _ _ _ _ _ _ _ _ c Hr' Hw ltac:(lia) Hkept) as (evicted & Hl & H1 & H2).
  exists evicted, h', s'. split; [done|].
  split; [apply (wh_screen _ _ _ _ (reflowed_whole _ _ _ _ _ _ _ _ Hr' Hw))|].
  split; [rewrite Hl; lia|done].
Qed.

Lemma cursor_stays_on_its_cell_witness :
  exists lines, mapM (fun row : Row => from_row_cells row.1 row.2) example_history_rows = Some lines
    /\ exists screen', reflow_primary 3 2 default_style (example_screen lines) = Some screen'
       /\ primary_cursor_row screen' = 1 /\ primary_cursor_column screen' = 2
       /\ cell_at (view (primary screen'))
            (N.to_nat (primary_cursor_row screen'), N.to_nat (primary_cursor_column screen')) = Some (letter 99).
Proof.
  destruct example_screen_whole as (lines & E & Hw). exists lines. split; [exact E|].
  assert (E' := E). vm_compute in E'. injection E' as <-.
  destruct (cursor_stays_on_its_cell 2 3 2 4 _ _ default_style ([letter 99; build_blank; build_blank; build_blank], MkRowMetadata Hard false) (letter 99) Hw)
    as (e & h' & s' & Er & Hh & Hle & _ & Hcur); [done|done|done|vm_compute; done|vm_compute; done|vm_compute; done|].
  exists s'. split; [exact Er|].
  assert (Er' := Er). vm_compute in Er'. injection Er' as <-. split; [done|]. split; [done|].
  apply Hcur. eapply Nat.le_trans; [exact Hle|]. apply Nat.leb_le. vm_compute. done.
Defined.

(** The spans a line wraps into are the only way to cut it into rows that
    fill the width, break before a wide glyph that does not fit, and end with
    its last cells: the spans are those of the rows exactly when the rows are
    such a cut of the line's cells. *)
Theorem lines_wrap_in_one_way cells column_count (rows : list (list Cell * RowEnd)) :
  (column_count <= 1 -> no_wide cells) -> mjoin rows.*1 = cells ->
  (compute_rewrapped_row_spans cells column_count = spans_of 0 rows
   <-> wrapped (N.to_nat (N.max column_count 1)) rows).
Proof.
  intros Hw <-. split; [|by apply compute_spans_of_wrapped].
  intros E. destruct (compute_spans_wraps (mjoin rows.*1) column_count Hw) as (rows' & H1 & H2 & H3).
  rewrite E in H3. by rewrite (spans_of_inj _ _ _ H3 (eq_sym H2)).
Qed.

Lemma lines_wrap_in_one_way_witness :
  compute_rewrapped_row_spans ([letter 97; letter 98] ++ example_glyph ++ [letter 99]) 3
  = spans_of 0 [([letter 97; letter 98], SoftWide); (example_glyph ++ [letter 99], Hard)].
Proof.
  apply (lines_wrap_in_one_way _ 3 [([letter 97; letter 98], SoftWide); (example_glyph ++ [letter 99], Hard)]);
    [done|done|].
  apply wrapped_wide; [done|done|]. by apply wrapped_hard.
Defined.

(** Wrapping is undone by wrapping back: the rows of a line whose text does
    not end in a default blank, wrapped to another width, stored in the
    history with their padding and spacers, read as one line and wrapped to
    the first width, are the rows they were. *)
Theorem wrapping_back_restores_rows column_count other_count (rows : list (list Cell * RowEnd)) marks s :
  wrapped (N.to_nat column_count) rows -> written (mjoin rows.*1) = mjoin rows.*1 ->
  2 <= column_count -> 2 <= other_count ->
  wrap_line column_count
    (mjoin (row_content <$> (stored_row other_count s <$> line_rows other_count (mjoin rows.*1) marks)))
  = rows.
Proof.
  intros H Hw Hc Ho.
  destruct (line_rows_ok other_count (mjoin rows.*1) marks) as (Hl & Hj & _); [lia|]. rewrite N.max_l in Hl by lia.
  rewrite (stored_line_content other_count s _ Hl), Hj by (by rewrite Hj).
  destruct (wrap_line_rows column_count (mjoin rows.*1)) as (rows' & H1 & H2 & _ & ->); [lia|].
  rewrite N.max_l in H1 by lia. by apply (wrapped_unique _ _ _ H1 H).
Qed.

Lemma wrapping_back_restores_rows_witness :
  wrap_line 3
    (mjoin (row_content <$> (stored_row 2 default_style
      <$> line_rows 2 ([letter 97; letter 98] ++ example_glyph ++ [letter 99]) [])))
  = [([letter 97; letter 98], SoftWide); (example_glyph ++ [letter 99], Hard)].
Proof.
  apply (wrapping_back_restores_rows 3 2 [([letter 97; letter 98], SoftWide); (example_glyph ++ [letter 99], Hard)]);
    [|done|done|done].
  apply wrapped_wide; [done|done|]. by apply wrapped_hard.
Defined.
