(* ===== verification/PaintedUpdate.v ===== *)
(** * Painted updates on the wire ([crates/koshi-ipc/src/painted_update.rs,
    image_chunk.rs])

    One update of a client's screen as the payloads of its binary frames, and
    the frames read back. The JSON of the structure and of the placement
    preview is a library's: its types and its parser are parameters. *)

From S2P Require Import Prelude Varint.
From stdpp Require Import strings options.
#[local] Open Scope N_scope.

(** ** Big-endian numbers *)

(** [to_be_bytes] of a number of [k] bytes, and [from_be_bytes]. *)
Fixpoint to_be_bytes (k : nat) (x : N) : list N :=
  match k with
  | O => []
  | S k => to_be_bytes k (x / U8_MODULUS) ++ [x `mod` U8_MODULUS]
  end.

Definition from_be_bytes (bytes : list N) : N := foldl (fun x b => x * U8_MODULUS + b) 0 bytes.

Example be_7 : to_be_bytes 8 7 = [0; 0; 0; 0; 0; 0; 0; 7]. Proof. reflexivity. Qed.

(** [Vec::len], as the 64-bit number it is. *)
Definition byte_count (bytes : list N) : N := N.of_nat (length bytes).

(** ** Constants *)

Definition MAX_FRAME_BYTE_COUNT : N := 16 * 1024 * 1024.
Definition PAINTED_UPDATE_FRAME_KIND : N := 1.
Definition IMAGE_CHUNK_FRAME_KIND : N := 2.
Definition IMAGE_CHUNK_FRAME_HEAD_BYTE_COUNT : nat := 18.

Definition PART_OPENS_UPDATE_FLAG : N := N.shiftl 1 0.
Definition PART_ENDS_UPDATE_FLAG : N := N.shiftl 1 1.
Definition PART_CHANGES_PLACEMENT_PREVIEW_FLAG : N := N.shiftl 1 2.
Definition SECTION_OPENS_PANE_FLAG : N := N.shiftl 1 0.
Definition SECTION_HAS_WINDOW_FLAG : N := N.shiftl 1 1.
Definition SECTION_RESETS_ROWS_FLAG : N := N.shiftl 1 2.
Definition CURSOR_VISIBLE_FLAG : N := N.shiftl 1 0.
Definition CURSOR_BLINKING_FLAG : N := N.shiftl 1 1.

Definition CURSOR_SHAPE_NONE_CODE : N := 0.
Definition CURSOR_SHAPE_BLOCK_CODE : N := 1.
Definition CURSOR_SHAPE_UNDERLINE_CODE : N := 2.
Definition CURSOR_SHAPE_BAR_CODE : N := 3.

Definition KEEP_INSTRUCTION_TAG : N := 0.
Definition COPY_INSTRUCTION_TAG : N := 1.
Definition NEW_INSTRUCTION_TAG : N := 2.

Definition SECTION_FRAME_BYTE_COUNT : N := 16 + N.of_nat MAX_VARINT_BYTE_COUNT.
Definition PART_FRAME_BYTE_COUNT : N := 1 + 1 + N.of_nat MAX_VARINT_BYTE_COUNT.

(** ** Data *)

Inductive PlacementPreviewUpdate (PreviewValue : Type) :=
  | PreviewUnchanged
  | PreviewCleared
  | PreviewReplaced (preview : PreviewValue).
Arguments PreviewUnchanged {_}.
Arguments PreviewCleared {_}.
Arguments PreviewReplaced {_} preview.

Inductive PaneCursorShape := Block | Underline | Bar.

Record PaneCursor := MkPaneCursor
  { cursor_row_index : N;
    cursor_column_index : N;
    is_cursor_visible : bool;
    is_cursor_blinking : bool;
    cursor_shape : option PaneCursorShape }.

Record PaneWindow := MkPaneWindow
  { window_column_count : N; window_row_count : N; view_row_offset : N; is_reset : bool }.

Record PaneHeader := MkPaneHeader
  { header_cursor : PaneCursor;
    view_top_row_index : N;
    retained_line_count : N;
    pane_window : option PaneWindow }.

#[export] Instance PaneCursorShape_eq_dec : EqDecision PaneCursorShape.
Proof. solve_decision. Defined.
#[export] Instance PaneCursor_eq_dec : EqDecision PaneCursor.
Proof. solve_decision. Defined.
#[export] Instance PaneWindow_eq_dec : EqDecision PaneWindow.
Proof. solve_decision. Defined.
#[export] Instance PaneHeader_eq_dec : EqDecision PaneHeader.
Proof. solve_decision. Defined.

(** [RowBytes] is a byte list on both sides. *)
Inductive RowInstruction :=
  | Keep (row_count : N)
  | Copy (source_row_index row_count : N)
  | New (encoded_row_bytes : list N).

Record PaneSection := MkPaneSection
  { section_pane_id : N;
    section_header : option PaneHeader;
    section_instructions : list RowInstruction }.

Record PaneUpdate := MkPaneUpdate
  { update_pane_id : N; update_header : PaneHeader; update_instructions : list RowInstruction }.

Inductive PaintedUpdateEncodeError :=
  | StructureTooLarge (structure_byte_count placement_preview_byte_count : N)
  | RowTooLarge (row_byte_count : N).

Inductive SessionBinaryFrameDecodeError :=
  | MissingFrameKind
  | FrameTruncated
  | FrameVarintTooLong
  | FieldOutOfRange (field_name : string) (decoded_value : N)
  | UnknownFlags (field_name : string) (flag_bits : N)
  | UnknownRowInstruction (instruction_tag : N)
  | FrameTrailingBytes (trailing_byte_count : N)
  | MalformedStructure (error_detail : string).

Record ImageChunkFrame := MkImageChunkFrame
  { image_transfer_id : N; byte_offset : N; is_last_chunk : bool; frame_payload : list N }.

(** ** Encoding *)

Record PartWriter := MkPartWriter
  { maximum_part_byte_count : N;
    part_payloads : list (list N);
    opening_bytes : list N;
    opening_flags : N;
    writer_section_bytes : list N;
    section_count : N }.

Record OpenSection := MkOpenSection
  { open_pane_id : N; header_bytes : list N; instruction_bytes : list N; instruction_count : N }.

Definition can_take_section_bytes (w : PartWriter) (section_byte_count : N) : bool :=
  PART_FRAME_BYTE_COUNT + byte_count (opening_bytes w) + byte_count (writer_section_bytes w)
    + section_byte_count <=? maximum_part_byte_count w.

Definition add_section (s : OpenSection) (w : PartWriter) : PartWriter :=
  MkPartWriter (maximum_part_byte_count w) (part_payloads w) (opening_bytes w) (opening_flags w)
    (writer_section_bytes w ++ to_be_bytes 16 (open_pane_id s) ++ header_bytes s
       ++ write_varint (instruction_count s) ++ instruction_bytes s)
    (section_count w + 1).

Definition close_part (is_last_part : bool) (w : PartWriter) : PartWriter :=
  let is_first_part := bool_decide (part_payloads w = []) in
  let part_flags :=
    N.lor (if is_first_part then opening_flags w else 0)
      (if is_last_part then PART_ENDS_UPDATE_FLAG else 0) in
  let part_payload :=
    PAINTED_UPDATE_FRAME_KIND :: part_flags :: opening_bytes w
      ++ write_varint (section_count w) ++ writer_section_bytes w in
  MkPartWriter (maximum_part_byte_count w) (part_payloads w ++ [part_payload]) [] (opening_flags w) [] 0.

Definition cursor_shape_code (shape : option PaneCursorShape) : N :=
  match shape with
  | None => CURSOR_SHAPE_NONE_CODE
  | Some Block => CURSOR_SHAPE_BLOCK_CODE
  | Some Underline => CURSOR_SHAPE_UNDERLINE_CODE
  | Some Bar => CURSOR_SHAPE_BAR_CODE
  end.

Definition compute_section_flags (h : PaneHeader) : N :=
  N.lor SECTION_OPENS_PANE_FLAG
    (match pane_window h with
     | Some w => N.lor SECTION_HAS_WINDOW_FLAG (if is_reset w then SECTION_RESETS_ROWS_FLAG else 0)
     | None => 0
     end).

Definition compute_cursor_flags (c : PaneCursor) : N :=
  N.lor (if is_cursor_visible c then CURSOR_VISIBLE_FLAG else 0)
    (if is_cursor_blinking c then CURSOR_BLINKING_FLAG else 0).

Definition write_pane_header (h : PaneHeader) : list N :=
  let cursor := header_cursor h in
  compute_section_flags h
    :: write_varint (cursor_row_index cursor) ++ write_varint (cursor_column_index cursor)
    ++ compute_cursor_flags cursor :: cursor_shape_code (cursor_shape cursor)
    :: write_varint (view_top_row_index h) ++ write_varint (retained_line_count h)
    ++ match pane_window h with
       | Some w =>
           write_varint (window_column_count w) ++ write_varint (window_row_count w)
             ++ write_varint (view_row_offset w)
       | None => []
       end.

Definition from_pane_update (u : PaneUpdate) : OpenSection :=
  MkOpenSection (update_pane_id u) (write_pane_header (update_header u)) [] 0.

Definition from_continued_pane_id (pane_id : N) : OpenSection := MkOpenSection pane_id [0] [] 0.

Definition compute_byte_count_bound (s : OpenSection) : N :=
  SECTION_FRAME_BYTE_COUNT + byte_count (header_bytes s) + byte_count (instruction_bytes s).

Definition encode_row_instruction (i : RowInstruction) : list N :=
  match i with
  | Keep row_count => KEEP_INSTRUCTION_TAG :: write_varint row_count
  | Copy source_row_index row_count =>
      COPY_INSTRUCTION_TAG :: write_varint source_row_index ++ write_varint row_count
  | New encoded_row_bytes => NEW_INSTRUCTION_TAG :: encoded_row_bytes
  end.

Definition push_instruction_bytes (bytes : list N) (s : OpenSection) : OpenSection :=
  MkOpenSection (open_pane_id s) (header_bytes s) (instruction_bytes s ++ bytes) (instruction_count s + 1).

(** The body of the loop over one pane's instructions. *)
Definition encode_instruction (pane_id : N) (w : PartWriter) (s : OpenSection) (i : RowInstruction)
    : outcome PaintedUpdateEncodeError (PartWriter * OpenSection) :=
  let bytes := encode_row_instruction i in
  if can_take_section_bytes w (compute_byte_count_bound s + byte_count bytes)
  then ok (w, push_instruction_bytes bytes s)
  else
    let w := close_part false (add_section s w) in
    let s := from_continued_pane_id pane_id in
    if can_take_section_bytes w (compute_byte_count_bound s + byte_count bytes)
    then ok (w, push_instruction_bytes bytes s)
    else failed (RowTooLarge (byte_count bytes - 1)).

Fixpoint encode_instructions (pane_id : N) (instructions : list RowInstruction) (w : PartWriter) (s : OpenSection)
    : outcome PaintedUpdateEncodeError (PartWriter * OpenSection) :=
  match instructions with
  | [] => ok (w, s)
  | i :: instructions =>
      '(w, s) ← encode_instruction pane_id w s i;
      encode_instructions pane_id instructions w s
  end.

(** The loop over the panes. *)
Fixpoint encode_pane_updates (pane_updates : list PaneUpdate) (w : PartWriter)
    : outcome PaintedUpdateEncodeError PartWriter :=
  match pane_updates with
  | [] => ok w
  | u :: pane_updates =>
      let s := from_pane_update u in
      let w := if can_take_section_bytes w (compute_byte_count_bound s) then w else close_part false w in
      '(w, s) ← encode_instructions (update_pane_id u) (update_instructions u) w s;
      encode_pane_updates pane_updates (add_section s w)
  end.

Definition preview_json_bytes (p : PlacementPreviewUpdate (list N)) : option (list N) :=
  match p with
  | PreviewUnchanged => None
  | PreviewCleared => Some []
  | PreviewReplaced bytes => Some bytes
  end.

Definition write_opening (update_sequence : N) (structure_json_bytes : list N) (preview : option (list N)) : list N :=
  write_varint update_sequence ++ write_varint (byte_count structure_json_bytes) ++ structure_json_bytes
    ++ match preview with Some bytes => write_varint (byte_count bytes) ++ bytes | None => [] end.

Definition encode_painted_update_in_parts (update_sequence : N) (structure_json_bytes : option (list N))
    (placement_preview_update : PlacementPreviewUpdate (list N)) (pane_updates : list PaneUpdate)
    (maximum_part_byte_count : N) : outcome PaintedUpdateEncodeError (list (list N)) :=
  let structure_json_bytes := default [] structure_json_bytes in
  let preview := preview_json_bytes placement_preview_update in
  let opening_bytes := write_opening update_sequence structure_json_bytes preview in
  if maximum_part_byte_count <? PART_FRAME_BYTE_COUNT + byte_count opening_bytes
  then failed (StructureTooLarge (byte_count structure_json_bytes)
         (match preview with Some bytes => byte_count bytes | None => 0 end))
  else
    let opening_flags :=
      match preview with
      | Some _ => N.lor PART_OPENS_UPDATE_FLAG PART_CHANGES_PLACEMENT_PREVIEW_FLAG
      | None => PART_OPENS_UPDATE_FLAG
      end in
    w ← encode_pane_updates pane_updates
          (MkPartWriter maximum_part_byte_count [] opening_bytes opening_flags [] 0);
    ok (part_payloads (close_part true w)).

Definition encode_painted_update (update_sequence : N) (structure_json_bytes : option (list N))
    (placement_preview_update : PlacementPreviewUpdate (list N)) (pane_updates : list PaneUpdate)
    : outcome PaintedUpdateEncodeError (list (list N)) :=
  encode_painted_update_in_parts update_sequence structure_json_bytes placement_preview_update pane_updates
    MAX_FRAME_BYTE_COUNT.

(** ** Decoding *)

(** [PartReader]: a step over the bytes that remain. *)
Definition part_reader (A : Type) : Type := list N -> outcome SessionBinaryFrameDecodeError (A * list N).

Definition part_ret {A} (a : A) : part_reader A := fun bytes => ok (a, bytes).
Definition part_fail {A} (e : SessionBinaryFrameDecodeError) : part_reader A := fun _ => failed e.

#[export] Instance part_reader_bind : MBind part_reader := fun A B f m bytes =>
  mbind (M := outcome SessionBinaryFrameDecodeError) (fun r : A * list N => f r.1 r.2) (m bytes).

Definition part_read_varint : part_reader N := fun bytes =>
  match read_varint bytes with
  | inr r => ok r
  | inl VarintTruncated => failed FrameTruncated
  | inl VarintTooLong => failed FrameVarintTooLong
  end.

(** [split_at_checked]; a [u64] fits a [usize]. *)
Definition part_read_bytes (n : N) : part_reader (list N) := fun bytes =>
  if n <=? byte_count bytes then ok (take (N.to_nat n) bytes, drop (N.to_nat n) bytes)
  else failed FrameTruncated.

Definition part_read_byte : part_reader N :=
  bytes ← part_read_bytes 1;
  match bytes !! 0%nat with Some b => part_ret b | None => fun _ => panicked end.

Definition part_read_u16 (field_name : string) : part_reader N :=
  decoded_value ← part_read_varint;
  if decoded_value <=? U16_MAX then part_ret decoded_value
  else part_fail (FieldOutOfRange field_name decoded_value).

Definition read_row_count : part_reader N :=
  row_count ← part_read_u16 "row_count";
  if row_count =? 0 then part_fail (FieldOutOfRange "row_count" 0) else part_ret row_count.

Definition read_row_instruction : part_reader RowInstruction :=
  instruction_tag ← part_read_byte;
  if instruction_tag =? KEEP_INSTRUCTION_TAG then
    row_count ← read_row_count; part_ret (Keep row_count)
  else if instruction_tag =? COPY_INSTRUCTION_TAG then
    source_row_index ← part_read_u16 "source_row_index";
    row_count ← read_row_count;
    part_ret (Copy source_row_index row_count)
  else if instruction_tag =? NEW_INSTRUCTION_TAG then
    fun row_start_bytes =>
      '(_, remaining_bytes) ←
        (body_byte_count ← part_read_varint; part_read_bytes body_byte_count) row_start_bytes;
      let row_byte_count := (length row_start_bytes - length remaining_bytes)%nat in
      ok (New (take row_byte_count row_start_bytes), remaining_bytes)
  else part_fail (UnknownRowInstruction instruction_tag).

(** [flags & flag != 0]. *)
Definition has_flag (flags flag : N) : bool := negb (N.land flags flag =? 0).

(** [flags & !known != 0]. *)
Definition has_unknown_flag (flags known : N) : bool := negb (N.ldiff flags known =? 0).

Definition decode_cursor_shape (code : N) : option PaneCursorShape :=
  if code =? CURSOR_SHAPE_BLOCK_CODE then Some Block
  else if code =? CURSOR_SHAPE_UNDERLINE_CODE then Some Underline
  else if code =? CURSOR_SHAPE_BAR_CODE then Some Bar
  else None.

Definition read_pane_window (section_flags : N) : part_reader (option PaneWindow) :=
  if has_flag section_flags SECTION_HAS_WINDOW_FLAG then
    column_count ← part_read_u16 "column_count";
    row_count ← part_read_u16 "row_count";
    view_row_offset ← part_read_varint;
    part_ret (Some (MkPaneWindow column_count row_count view_row_offset
      (has_flag section_flags SECTION_RESETS_ROWS_FLAG)))
  else if has_flag section_flags SECTION_RESETS_ROWS_FLAG
  then part_fail (UnknownFlags "section_flags" section_flags)
  else part_ret None.

Definition read_pane_header (section_flags : N) : part_reader PaneHeader :=
  row_index ← part_read_u16 "cursor_row_index";
  column_index ← part_read_u16 "cursor_column_index";
  cursor_flags ← part_read_byte;
  if has_unknown_flag cursor_flags (N.lor CURSOR_VISIBLE_FLAG CURSOR_BLINKING_FLAG)
  then part_fail (UnknownFlags "cursor_flags" cursor_flags)
  else
    shape_code ← part_read_byte;
    view_top_row_index ← part_read_varint;
    retained_line_count ← part_read_varint;
    pane_window ← read_pane_window section_flags;
    part_ret (MkPaneHeader
      (MkPaneCursor row_index column_index (has_flag cursor_flags CURSOR_VISIBLE_FLAG)
         (has_flag cursor_flags CURSOR_BLINKING_FLAG) (decode_cursor_shape shape_code))
      view_top_row_index retained_line_count pane_window).

(** [for _ in 0..count]: a step that fails ends the loop; no value once
    [fuel] is out. *)
Fixpoint read_times {A} (fuel : nat) (count : N) (step : part_reader A) : part_reader (list A) :=
  if count =? 0 then part_ret []
  else
    match fuel with
    | O => fun _ => panicked
    | S fuel => a ← step; values ← read_times fuel (count - 1) step; part_ret (a :: values)
    end.

(** Every step reads a byte at least. *)
Definition read_sequence {A} (count : N) (step : part_reader A) : part_reader (list A) := fun bytes =>
  read_times (S (length bytes)) count step bytes.

(** [split_first_chunk::<16>] fails as a read of 16 bytes does. *)
Definition read_pane_section : part_reader PaneSection :=
  pane_uuid_bytes ← part_read_bytes 16;
  section_flags ← part_read_byte;
  let known_section_flags :=
    N.lor SECTION_OPENS_PANE_FLAG (N.lor SECTION_HAS_WINDOW_FLAG SECTION_RESETS_ROWS_FLAG) in
  let is_pane_opening := has_flag section_flags SECTION_OPENS_PANE_FLAG in
  if has_unknown_flag section_flags known_section_flags || (negb is_pane_opening && negb (section_flags =? 0))
  then part_fail (UnknownFlags "section_flags" section_flags)
  else
    pane_header ← (if is_pane_opening then h ← read_pane_header section_flags; part_ret (Some h)
                   else part_ret None);
    instruction_count ← part_read_varint;
    row_instructions ← read_sequence instruction_count read_row_instruction;
    part_ret (MkPaneSection (from_be_bytes pane_uuid_bytes) pane_header row_instructions).

Definition build_image_chunk_frame_head (image_transfer_id byte_offset : N) (is_last_chunk : bool) : list N :=
  IMAGE_CHUNK_FRAME_KIND :: to_be_bytes 8 image_transfer_id ++ to_be_bytes 8 byte_offset
    ++ [if is_last_chunk then 1 else 0].

Definition get_chunk_bytes (f : ImageChunkFrame) : list N :=
  drop IMAGE_CHUNK_FRAME_HEAD_BYTE_COUNT (frame_payload f).

Definition decode_image_chunk_frame (payload : list N)
    : outcome SessionBinaryFrameDecodeError ImageChunkFrame :=
  match payload with
  | [] => failed FrameTruncated
  | _ :: after_frame_kind =>
      if (length after_frame_kind <? 8)%nat then failed FrameTruncated
      else
        let after_transfer_id := drop 8 after_frame_kind in
        if (length after_transfer_id <? 8)%nat then failed FrameTruncated
        else
          match drop 8 after_transfer_id with
          | [] => failed FrameTruncated
          | last_chunk_flag :: _ =>
              if last_chunk_flag =? 0
              then ok (MkImageChunkFrame (from_be_bytes (take 8 after_frame_kind))
                     (from_be_bytes (take 8 after_transfer_id)) false payload)
              else if last_chunk_flag =? 1
              then ok (MkImageChunkFrame (from_be_bytes (take 8 after_frame_kind))
                     (from_be_bytes (take 8 after_transfer_id)) true payload)
              else failed (FieldOutOfRange "last_chunk_flag" last_chunk_flag)
          end
  end.

(** *** The part, over the JSON library *)

Section parts.
Context {PaintedFrame PanePlacementPreview : Type}.
Context (parse_painted_frame : list N -> string + PaintedFrame).
Context (parse_placement_preview : list N -> string + PanePlacementPreview).

Record PaintedUpdateOpening := MkPaintedUpdateOpening
  { opening_sequence : N;
    opening_frame : option PaintedFrame;
    opening_preview : PlacementPreviewUpdate PanePlacementPreview }.

Record PaintedUpdatePart := MkPaintedUpdatePart
  { update_opening : option PaintedUpdateOpening;
    is_last_part : bool;
    pane_sections : list PaneSection }.

Inductive SessionBinaryFrame :=
  | PaintedUpdatePartFrame (part : PaintedUpdatePart)
  | ImageChunk (frame : ImageChunkFrame)
  | UnknownFrame (frame_kind : N).

(** [parse_structure_json]. *)
Definition parse_structure_json {A} (parse : list N -> string + A) (bytes : list N) : part_reader A :=
  match parse bytes with
  | inr a => part_ret a
  | inl error_detail => part_fail (MalformedStructure error_detail)
  end.

Definition read_update_opening (is_placement_preview_changed : bool) : part_reader PaintedUpdateOpening :=
  update_sequence ← part_read_varint;
  structure_byte_count ← part_read_varint;
  structure_json_bytes ← part_read_bytes structure_byte_count;
  painted_frame ←
    (if bool_decide (structure_json_bytes = []) then part_ret None
     else f ← parse_structure_json parse_painted_frame structure_json_bytes; part_ret (Some f));
  placement_preview_update ←
    (if is_placement_preview_changed then
       placement_preview_byte_count ← part_read_varint;
       placement_preview_json_bytes ← part_read_bytes placement_preview_byte_count;
       if bool_decide (placement_preview_json_bytes = []) then part_ret PreviewCleared
       else p ← parse_structure_json parse_placement_preview placement_preview_json_bytes;
            part_ret (PreviewReplaced p)
     else part_ret PreviewUnchanged);
  part_ret (MkPaintedUpdateOpening update_sequence painted_frame placement_preview_update).

Definition read_painted_update_part : part_reader PaintedUpdatePart :=
  part_flags ← part_read_byte;
  let is_update_opening := has_flag part_flags PART_OPENS_UPDATE_FLAG in
  let is_placement_preview_changed := has_flag part_flags PART_CHANGES_PLACEMENT_PREVIEW_FLAG in
  if has_unknown_flag part_flags
       (N.lor PART_OPENS_UPDATE_FLAG (N.lor PART_ENDS_UPDATE_FLAG PART_CHANGES_PLACEMENT_PREVIEW_FLAG))
     || (is_placement_preview_changed && negb is_update_opening)
  then part_fail (UnknownFlags "part_flags" part_flags)
  else
    update_opening ←
      (if is_update_opening then o ← read_update_opening is_placement_preview_changed; part_ret (Some o)
       else part_ret None);
    section_count ← part_read_varint;
    pane_sections ← read_sequence section_count read_pane_section;
    part_ret (MkPaintedUpdatePart update_opening (has_flag part_flags PART_ENDS_UPDATE_FLAG) pane_sections).

Definition decode_session_binary_frame (payload : list N)
    : outcome SessionBinaryFrameDecodeError SessionBinaryFrame :=
  match payload with
  | [] => failed MissingFrameKind
  | frame_kind :: part_bytes =>
      if frame_kind =? IMAGE_CHUNK_FRAME_KIND then
        frame ← decode_image_chunk_frame payload; ok (ImageChunk frame)
      else if negb (frame_kind =? PAINTED_UPDATE_FRAME_KIND) then ok (UnknownFrame frame_kind)
      else
        '(part, remaining_bytes) ← read_painted_update_part part_bytes;
        if bool_decide (remaining_bytes = []) then ok (PaintedUpdatePartFrame part)
        else failed (FrameTrailingBytes (byte_count remaining_bytes))
  end.
End parts.
