(* ===== verification/PaintedWire.v ===== *)
(** * Frames of painted updates round-trip

    Every field, header, instruction and section reads back from the bytes it
    is written as, and the parts of an update read back as its panes. *)

From S2P Require Import Prelude Varint PaintedUpdate.
From stdpp Require Import strings options.
#[local] Open Scope N_scope.

(** ** Reading what was written *)

(** [m] reads [a] off [bytes], whatever follows. *)
Definition part_reads {A} (m : part_reader A) (a : A) (bytes : list N) : Prop :=
  forall rest, m (bytes ++ rest) = ok (a, rest).

Lemma part_reads_ret {A} (a : A) : part_reads (part_ret a) a [].
Proof. done. Qed.

Lemma part_reads_bind {A B} (m : part_reader A) (f : A -> part_reader B) a b bytes bytes' :
  part_reads m a bytes -> part_reads (f a) b bytes' -> part_reads (m ≫= f) b (bytes ++ bytes').
Proof.
  intros Hm Hf rest. unfold mbind, part_reader_bind. rewrite <- app_assoc, Hm. apply Hf.
Qed.

(** The last step of a chain reads all that is left of [bytes]. *)
Lemma part_reads_bind_nil {A B} (m : part_reader A) (f : A -> part_reader B) a b bytes :
  part_reads m a bytes -> part_reads (f a) b [] -> part_reads (m ≫= f) b bytes.
Proof. intros Hm Hf. rewrite <- (app_nil_r bytes). by eapply part_reads_bind. Qed.

Lemma part_read_varint_ok v : is_u64 v -> part_reads part_read_varint v (write_varint v).
Proof. intros Hv rest. unfold part_read_varint. by rewrite read_write_varint. Qed.

Lemma part_read_bytes_ok bytes : part_reads (part_read_bytes (byte_count bytes)) bytes bytes.
Proof.
  intros rest. unfold part_read_bytes, byte_count. rewrite length_app, (proj2 (N.leb_le _ _)) by lia.
  by rewrite Nat2N.id, take_app_length, drop_app_length.
Qed.

Lemma part_read_byte_ok b : part_reads part_read_byte b [b].
Proof.
  intros rest. unfold part_read_byte. pose proof (part_read_bytes_ok [b] rest) as H.
  unfold mbind, part_reader_bind. change (byte_count [b]) with 1 in H. by rewrite H.
Qed.

Lemma part_read_u16_ok name v : v <= U16_MAX -> part_reads (part_read_u16 name) v (write_varint v).
Proof.
  intros Hv. eapply part_reads_bind_nil; [apply part_read_varint_ok; unfold is_u64, U64_MODULUS; lia|].
  intros rest. by rewrite (proj2 (N.leb_le _ _)).
Qed.

Lemma read_row_count_ok v : 1 <= v <= U16_MAX -> part_reads read_row_count v (write_varint v).
Proof.
  intros Hv. eapply part_reads_bind_nil; [apply part_read_u16_ok; lia|].
  intros rest. by rewrite (proj2 (N.eqb_neq _ _)) by lia.
Qed.

Lemma to_be_bytes_length k x : length (to_be_bytes k x) = k.
Proof. revert x. induction k as [|k IH]; intros x; simpl; [done|]. rewrite length_app, IH. simpl. lia. Qed.

Lemma be_bytes_round_trip k x : x < U8_MODULUS ^ N.of_nat k -> from_be_bytes (to_be_bytes k x) = x.
Proof.
  revert x. induction k as [|k IH]; intros x Hx; [change (x < 1) in Hx; change (0 = x); lia|].
  rewrite Nat2N.inj_succ, N.pow_succ_r' in Hx. cbn [to_be_bytes]. unfold from_be_bytes in *.
  rewrite foldl_app. cbn [foldl]. rewrite IH by (apply N.Div0.div_lt_upper_bound; lia).
  rewrite N.mul_comm. symmetry. apply N.Div0.div_mod.
Qed.

(** ** Well-formed updates *)

(** The bytes of a row open with their own count. *)
Definition row_framed (bytes : list N) : Prop :=
  exists body, bytes = write_varint (byte_count body) ++ body /\ is_u64 (byte_count body).

Definition RowInstruction_wf (i : RowInstruction) : Prop :=
  match i with
  | Keep row_count => 1 <= row_count <= U16_MAX
  | Copy source_row_index row_count => source_row_index <= U16_MAX /\ 1 <= row_count <= U16_MAX
  | New bytes => row_framed bytes
  end.

Record PaneHeader_wf (h : PaneHeader) : Prop :=
  { hw_row : cursor_row_index (header_cursor h) <= U16_MAX;
    hw_column : cursor_column_index (header_cursor h) <= U16_MAX;
    hw_top : is_u64 (view_top_row_index h);
    hw_retained : is_u64 (retained_line_count h);
    hw_window w : pane_window h = Some w ->
      window_column_count w <= U16_MAX /\ window_row_count w <= U16_MAX /\ is_u64 (view_row_offset w) }.

Record PaneSection_wf (s : PaneSection) : Prop :=
  { sw_id : section_pane_id s < U8_MODULUS ^ 16;
    sw_header h : section_header s = Some h -> PaneHeader_wf h;
    sw_instructions : Forall RowInstruction_wf (section_instructions s);
    sw_count : is_u64 (N.of_nat (length (section_instructions s))) }.

(** ** Instructions, headers and sections *)

Lemma row_instruction_reads i :
  RowInstruction_wf i -> part_reads read_row_instruction i (encode_row_instruction i).
Proof.
  destruct i as [n|source n|bytes]; simpl; intros Hwf; (eapply (part_reads_bind _ _ _ _ [_]); [apply part_read_byte_ok|]); simpl.
  - eapply part_reads_bind_nil; [by apply read_row_count_ok|apply part_reads_ret].
  - destruct Hwf as [H1 H2]. eapply part_reads_bind; [by apply part_read_u16_ok|].
    eapply part_reads_bind_nil; [by apply read_row_count_ok|apply part_reads_ret].
  - destruct Hwf as (body & -> & Hb). intros rest.
    assert (part_reads (body_byte_count ← part_read_varint; part_read_bytes body_byte_count) body
      (write_varint (byte_count body) ++ body)) as Hread.
    { eapply part_reads_bind; [by apply part_read_varint_ok|apply part_read_bytes_ok]. }
    rewrite Hread. unfold mbind, outcome_bind, ok. cbn [fst snd]. do 3 f_equal. f_equal.
    rewrite length_app. rewrite Nat.add_sub. by rewrite take_app_length.
Qed.

Lemma encode_row_instruction_not_nil i : encode_row_instruction i <> [].
Proof. by destruct i. Qed.

Lemma cursor_shape_round_trip shape : decode_cursor_shape (cursor_shape_code shape) = shape.
Proof. by destruct shape as [[]|]. Qed.

Lemma cursor_flags_round_trip c :
  has_unknown_flag (compute_cursor_flags c) (N.lor CURSOR_VISIBLE_FLAG CURSOR_BLINKING_FLAG) = false
  /\ has_flag (compute_cursor_flags c) CURSOR_VISIBLE_FLAG = is_cursor_visible c
  /\ has_flag (compute_cursor_flags c) CURSOR_BLINKING_FLAG = is_cursor_blinking c.
Proof. unfold compute_cursor_flags. by destruct (is_cursor_visible c), (is_cursor_blinking c). Qed.

Lemma section_flags_round_trip h :
  let flags := compute_section_flags h in
  has_unknown_flag flags (N.lor SECTION_OPENS_PANE_FLAG (N.lor SECTION_HAS_WINDOW_FLAG SECTION_RESETS_ROWS_FLAG)) = false
  /\ has_flag flags SECTION_OPENS_PANE_FLAG = true
  /\ has_flag flags SECTION_HAS_WINDOW_FLAG = bool_decide (is_Some (pane_window h))
  /\ has_flag flags SECTION_RESETS_ROWS_FLAG = match pane_window h with Some w => is_reset w | None => false end.
Proof. unfold compute_section_flags. destruct (pane_window h) as [w|]; [|done]. by destruct (is_reset w). Qed.

Lemma pane_window_reads h :
  PaneHeader_wf h ->
  part_reads (read_pane_window (compute_section_flags h)) (pane_window h)
    (match pane_window h with
     | Some w => write_varint (window_column_count w) ++ write_varint (window_row_count w) ++ write_varint (view_row_offset w)
     | None => []
     end).
Proof.
  intros [_ _ _ _ Hw]. destruct (section_flags_round_trip h) as (_ & _ & E1 & E2). unfold read_pane_window. rewrite E1, E2.
  destruct (pane_window h) as [w|]; [|apply part_reads_ret]. destruct (Hw w eq_refl) as (H1 & H2 & H3).
  rewrite bool_decide_eq_true_2 by done.
  eapply part_reads_bind; [by apply part_read_u16_ok|]. eapply part_reads_bind; [by apply part_read_u16_ok|].
  eapply part_reads_bind_nil; [by apply part_read_varint_ok|]. by destruct w.
Qed.

Lemma pane_header_reads h :
  PaneHeader_wf h ->
  exists bytes, write_pane_header h = compute_section_flags h :: bytes
    /\ part_reads (read_pane_header (compute_section_flags h)) h bytes.
Proof.
  intros Hwf. eexists. split; [reflexivity|]. destruct (cursor_flags_round_trip (header_cursor h)) as (C1 & C2 & C3).
  pose proof Hwf as [H1 H2 H3 H4 _]. unfold read_pane_header.
  eapply part_reads_bind; [by apply part_read_u16_ok|]. eapply part_reads_bind; [by apply part_read_u16_ok|].
  eapply (part_reads_bind _ _ _ _ [_]); [apply part_read_byte_ok|]. rewrite C1.
  eapply (part_reads_bind _ _ _ _ [_]); [apply part_read_byte_ok|]. eapply part_reads_bind; [by apply part_read_varint_ok|].
  eapply part_reads_bind; [by apply part_read_varint_ok|]. eapply part_reads_bind_nil; [by apply pane_window_reads|].
  rewrite C2, C3, cursor_shape_round_trip. by destruct h as [[] ? ? ?].
Qed.

(** A counted list of values reads back, each value taking a byte at least. *)
Lemma read_times_ok {A} (step : part_reader A) (write : A -> list N) values fuel :
  Forall (fun a => part_reads step a (write a)) values -> (length values < fuel)%nat ->
  part_reads (read_times fuel (N.of_nat (length values)) step) values (values ≫= write).
Proof.
  intros H. revert fuel. induction H as [|a values Ha _ IH]; intros fuel Hf; destruct fuel as [|fuel]; [lia| |lia|].
  - simpl. apply part_reads_ret.
  - cbn [length read_times]. rewrite (proj2 (N.eqb_neq _ 0)) by lia.
    change ((a :: values) ≫= write) with (write a ++ (values ≫= write)).
    eapply part_reads_bind; [done|]. replace (N.of_nat (S (length values)) - 1) with (N.of_nat (length values)) by lia.
    eapply part_reads_bind_nil; [apply IH; simpl in Hf; lia|apply part_reads_ret].
Qed.

Lemma written_at_least {A} (write : A -> list N) values :
  (forall a, write a <> []) -> (length values <= length (values ≫= write))%nat.
Proof.
  intros Hne. induction values as [|a values IH]; [done|].
  change ((a :: values) ≫= write) with (write a ++ (values ≫= write)). rewrite length_app.
  pose proof (Hne a) as Ha. destruct (write a); [done|]. simpl. lia.
Qed.

Lemma read_sequence_ok {A} (step : part_reader A) (write : A -> list N) values :
  (forall a, write a <> []) -> Forall (fun a => part_reads step a (write a)) values ->
  part_reads (read_sequence (N.of_nat (length values)) step) values (values ≫= write).
Proof.
  intros Hne H rest. unfold read_sequence. apply (read_times_ok step write values); [done|].
  rewrite length_app. pose proof (written_at_least write values Hne). lia.
Qed.

(** The bytes of a section. *)
Definition write_section (s : PaneSection) : list N :=
  to_be_bytes 16 (section_pane_id s)
    ++ (match section_header s with Some h => write_pane_header h | None => [0] end)
    ++ write_varint (N.of_nat (length (section_instructions s)))
    ++ (section_instructions s ≫= encode_row_instruction).

Lemma write_section_not_nil s : write_section s <> [].
Proof.
  unfold write_section. pose proof (to_be_bytes_length 16 (section_pane_id s)).
  destruct (to_be_bytes 16 _); simpl in *; [lia|done].
Qed.

Lemma section_header_reads (header : option PaneHeader) :
  (forall h, header = Some h -> PaneHeader_wf h) ->
  exists flags bytes,
    (match header with Some h => write_pane_header h | None => [0] end) = flags :: bytes
    /\ has_unknown_flag flags (N.lor SECTION_OPENS_PANE_FLAG (N.lor SECTION_HAS_WINDOW_FLAG SECTION_RESETS_ROWS_FLAG)) = false
    /\ negb (has_flag flags SECTION_OPENS_PANE_FLAG) && negb (flags =? 0) = false
    /\ part_reads (if has_flag flags SECTION_OPENS_PANE_FLAG then h ← read_pane_header flags; part_ret (Some h)
                   else part_ret None) header bytes.
Proof.
  intros Hwf. destruct header as [h|].
  - destruct (pane_header_reads h (Hwf h eq_refl)) as (bytes & E & Hh). destruct (section_flags_round_trip h) as (F1 & F2 & _).
    exists (compute_section_flags h), bytes. rewrite F2. split_and!; [done..|].
    eapply part_reads_bind_nil; [done|apply part_reads_ret].
  - exists 0, []. split_and!; [done..|]. apply part_reads_ret.
Qed.

Lemma section_reads s : PaneSection_wf s -> part_reads read_pane_section s (write_section s).
Proof.
  intros [Hid Hheader Hinstructions Hcount]. destruct (section_header_reads _ Hheader) as (flags & bytes & E & F1 & F2 & Hh).
  unfold read_pane_section, write_section. rewrite E.
  eapply part_reads_bind.
  { pose proof (part_read_bytes_ok (to_be_bytes 16 (section_pane_id s))) as H. unfold byte_count in H.
    rewrite to_be_bytes_length in H. exact H. }
  eapply (part_reads_bind _ _ _ _ [_]); [apply part_read_byte_ok|]. cbv zeta. rewrite F1, F2. cbn [orb].
  eapply part_reads_bind; [done|]. eapply part_reads_bind; [by apply part_read_varint_ok|].
  eapply part_reads_bind_nil.
  { apply (read_sequence_ok _ encode_row_instruction); [apply encode_row_instruction_not_nil|].
    eapply Forall_impl; [done|]. apply row_instruction_reads. }
  rewrite be_bytes_round_trip by done. by destruct s.
Qed.

(** ** One part *)

Section parts.
Context {PaintedFrame PanePlacementPreview : Type}.
Context (parse_painted_frame : list N -> string + PaintedFrame).
Context (parse_placement_preview : list N -> string + PanePlacementPreview).
Abbreviation decode := (decode_session_binary_frame parse_painted_frame parse_placement_preview).
Abbreviation opening := (@PaintedUpdateOpening PaintedFrame PanePlacementPreview).
Abbreviation part := (@PaintedUpdatePart PaintedFrame PanePlacementPreview).

(** [o] is what an opening written from these bytes reads as. *)
Record opening_decodes (update_sequence : N) (structure : option (list N))
    (preview : PlacementPreviewUpdate (list N)) (o : opening) : Prop :=
  { od_sequence : opening_sequence o = update_sequence /\ is_u64 update_sequence;
    od_frame : match structure with
      | None => opening_frame o = None
      | Some bytes => bytes <> [] /\ is_u64 (byte_count bytes)
          /\ exists f, parse_painted_frame bytes = inr f /\ opening_frame o = Some f
      end;
    od_preview : match preview with
      | PreviewUnchanged => opening_preview o = PreviewUnchanged
      | PreviewCleared => opening_preview o = PreviewCleared
      | PreviewReplaced bytes => bytes <> [] /\ is_u64 (byte_count bytes)
          /\ exists p, parse_placement_preview bytes = inr p /\ opening_preview o = PreviewReplaced p
      end }.

Definition changes_preview (preview : PlacementPreviewUpdate (list N)) : bool :=
  bool_decide (is_Some (preview_json_bytes preview)).

Lemma structure_reads structure o update_sequence preview :
  opening_decodes update_sequence structure preview o ->
  is_u64 (byte_count (default [] structure))
  /\ part_reads (if bool_decide (default [] structure = []) then part_ret None
                 else f ← parse_structure_json parse_painted_frame (default [] structure); part_ret (Some f))
       (opening_frame o) [].
Proof.
  intros [_ Hf _]. destruct structure as [bytes|]; simpl; [|rewrite Hf; by split].
  destruct Hf as (Hne & Hl & f & Hp & ->). split; [done|]. rewrite bool_decide_eq_false_2 by done.
  unfold parse_structure_json. rewrite Hp. done.
Qed.

Lemma preview_reads structure o update_sequence preview :
  opening_decodes update_sequence structure preview o ->
  part_reads
    (if changes_preview preview then
       placement_preview_byte_count ← part_read_varint;
       placement_preview_json_bytes ← part_read_bytes placement_preview_byte_count;
       if bool_decide (placement_preview_json_bytes = []) then part_ret PreviewCleared
       else p ← parse_structure_json parse_placement_preview placement_preview_json_bytes; part_ret (PreviewReplaced p)
     else part_ret PreviewUnchanged)
    (opening_preview o)
    (match preview_json_bytes preview with Some bytes => write_varint (byte_count bytes) ++ bytes | None => [] end).
Proof.
  intros [_ _ Hp]. unfold changes_preview. destruct preview as [| |bytes]; cbn [preview_json_bytes].
  - rewrite Hp. apply part_reads_ret.
  - rewrite Hp, bool_decide_eq_true_2 by done. eapply part_reads_bind; [by apply part_read_varint_ok|].
    eapply part_reads_bind_nil; [apply part_read_bytes_ok|apply part_reads_ret].
  - destruct Hp as (Hne & Hl & p & Hp & ->). rewrite bool_decide_eq_true_2 by done.
    eapply part_reads_bind; [by apply part_read_varint_ok|].
    eapply part_reads_bind_nil; [apply part_read_bytes_ok|]. rewrite bool_decide_eq_false_2 by done.
    unfold parse_structure_json. by rewrite Hp.
Qed.

Lemma opening_reads update_sequence structure preview o :
  opening_decodes update_sequence structure preview o ->
  part_reads (read_update_opening parse_painted_frame parse_placement_preview (changes_preview preview)) o
    (write_opening update_sequence (default [] structure) (preview_json_bytes preview)).
Proof.
  intros H. destruct (structure_reads _ _ _ _ H) as [Hl Hs]. pose proof (preview_reads _ _ _ _ H) as Hp.
  destruct (od_sequence _ _ _ _ H) as [Eseq Hseq]. unfold read_update_opening, write_opening.
  eapply part_reads_bind; [by apply part_read_varint_ok|]. eapply part_reads_bind; [by apply part_read_varint_ok|].
  eapply part_reads_bind; [apply part_read_bytes_ok|]. eapply (part_reads_bind _ _ _ _ []); [exact Hs|].
  eapply part_reads_bind_nil; [exact Hp|]. rewrite <- Eseq. by destruct o.
Qed.

Definition opening_flags_of (preview : PlacementPreviewUpdate (list N)) : N :=
  match preview_json_bytes preview with
  | Some _ => N.lor PART_OPENS_UPDATE_FLAG PART_CHANGES_PLACEMENT_PREVIEW_FLAG
  | None => PART_OPENS_UPDATE_FLAG
  end.

(** The bytes of a part; [opens] holds the flags and bytes of an opening. *)
Definition write_part (opens : option (N * list N)) (is_last : bool) (sections : list PaneSection) : list N :=
  PAINTED_UPDATE_FRAME_KIND
    :: N.lor (match opens with Some (flags, _) => flags | None => 0 end)
         (if is_last then PART_ENDS_UPDATE_FLAG else 0)
    :: (match opens with Some (_, bytes) => bytes | None => [] end)
    ++ write_varint (N.of_nat (length sections)) ++ (sections ≫= write_section).

Lemma sections_read sections :
  Forall PaneSection_wf sections ->
  part_reads (read_sequence (N.of_nat (length sections)) read_pane_section) sections (sections ≫= write_section).
Proof.
  intros H. apply read_sequence_ok; [apply write_section_not_nil|]. eapply Forall_impl; [done|]. apply section_reads.
Qed.

Lemma decode_part_of (bytes : list N) (p : part) :
  part_reads (read_painted_update_part parse_painted_frame parse_placement_preview) p bytes ->
  decode (PAINTED_UPDATE_FRAME_KIND :: bytes) = ok (PaintedUpdatePartFrame p).
Proof.
  intros H. specialize (H []). rewrite app_nil_r in H. unfold decode_session_binary_frame.
  change (PAINTED_UPDATE_FRAME_KIND =? IMAGE_CHUNK_FRAME_KIND) with false.
  change (negb (PAINTED_UPDATE_FRAME_KIND =? PAINTED_UPDATE_FRAME_KIND)) with false. cbv iota. rewrite H. done.
Qed.

Lemma opening_part_decodes update_sequence structure preview o is_last sections :
  opening_decodes update_sequence structure preview o -> Forall PaneSection_wf sections ->
  is_u64 (N.of_nat (length sections)) ->
  decode (write_part (Some (opening_flags_of preview,
      write_opening update_sequence (default [] structure) (preview_json_bytes preview))) is_last sections)
  = ok (PaintedUpdatePartFrame (MkPaintedUpdatePart (Some o) is_last sections)).
Proof.
  intros Ho Hs Hl. apply decode_part_of. unfold read_painted_update_part.
  eapply (part_reads_bind _ _ _ _ [_]); [apply part_read_byte_ok|]. cbv zeta.
  assert (forall flags, flags = N.lor (opening_flags_of preview) (if is_last then PART_ENDS_UPDATE_FLAG else 0) ->
    has_unknown_flag flags
       (N.lor PART_OPENS_UPDATE_FLAG (N.lor PART_ENDS_UPDATE_FLAG PART_CHANGES_PLACEMENT_PREVIEW_FLAG)) = false
    /\ has_flag flags PART_OPENS_UPDATE_FLAG = true /\ has_flag flags PART_ENDS_UPDATE_FLAG = is_last
    /\ has_flag flags PART_CHANGES_PLACEMENT_PREVIEW_FLAG = changes_preview preview) as Hflags.
  { intros flags ->. unfold opening_flags_of, changes_preview. by destruct preview, is_last. }
  destruct (Hflags _ eq_refl) as (-> & -> & -> & ->). rewrite andb_false_r. cbn [orb].
  eapply part_reads_bind; [eapply part_reads_bind_nil; [by apply opening_reads|apply part_reads_ret]|].
  eapply part_reads_bind; [by apply part_read_varint_ok|].
  eapply part_reads_bind_nil; [by apply sections_read|apply part_reads_ret].
Qed.

Lemma later_part_decodes is_last sections :
  Forall PaneSection_wf sections -> is_u64 (N.of_nat (length sections)) ->
  decode (write_part None is_last sections) = ok (PaintedUpdatePartFrame (MkPaintedUpdatePart None is_last sections)).
Proof.
  intros Hs Hl. apply decode_part_of. unfold read_painted_update_part.
  eapply (part_reads_bind _ _ _ _ [_]); [apply part_read_byte_ok|]. cbv zeta.
  assert (forall flags, flags = N.lor 0 (if is_last then PART_ENDS_UPDATE_FLAG else 0) ->
    has_unknown_flag flags
       (N.lor PART_OPENS_UPDATE_FLAG (N.lor PART_ENDS_UPDATE_FLAG PART_CHANGES_PLACEMENT_PREVIEW_FLAG)) = false
    /\ has_flag flags PART_OPENS_UPDATE_FLAG = false /\ has_flag flags PART_ENDS_UPDATE_FLAG = is_last
    /\ has_flag flags PART_CHANGES_PLACEMENT_PREVIEW_FLAG = false) as Hflags by (intros flags ->; by destruct is_last).
  destruct (Hflags _ eq_refl) as (-> & -> & -> & ->). cbn [orb andb].
  eapply (part_reads_bind _ _ _ _ []); [apply part_reads_ret|].
  eapply part_reads_bind; [by apply part_read_varint_ok|].
  eapply part_reads_bind_nil; [by apply sections_read|apply part_reads_ret].
Qed.
End parts.
