(* ===== verification/PaintedParts.v ===== *)
(** * An update in parts

    What [encode_painted_update_in_parts] writes: parts of at most the maximum
    size whose sections, joined, are the panes of the update. *)

From S2P Require Import Prelude Varint PaintedUpdate PaintedWire.
From stdpp Require Import strings options.
#[local] Open Scope N_scope.

(** ** The sections of an update *)

(** The sections one pane's instructions are cut into: the first opens the
    pane, the others go on with it. *)
Inductive pane_split (pane_id : N) (h : PaneHeader) : list RowInstruction -> list PaneSection -> Prop :=
  | split_open ls : pane_split pane_id h ls [MkPaneSection pane_id (Some h) ls]
  | split_continue ls ls' sections :
      pane_split pane_id h ls sections ->
      pane_split pane_id h (ls ++ ls') (sections ++ [MkPaneSection pane_id None ls']).

Definition section_of_update (u : PaneUpdate) (sections : list PaneSection) : Prop :=
  pane_split (update_pane_id u) (update_header u) (update_instructions u) sections.

(** The sections of all panes, in order. *)
Definition update_split (pane_updates : list PaneUpdate) (sections : list PaneSection) : Prop :=
  exists split, Forall2 section_of_update pane_updates split /\ sections = concat split.

Record PaneUpdate_wf (u : PaneUpdate) : Prop :=
  { uw_id : update_pane_id u < U8_MODULUS ^ 16;
    uw_header : PaneHeader_wf (update_header u);
    uw_instructions : Forall RowInstruction_wf (update_instructions u) }.

Definition with_instruction (i : RowInstruction) (s : PaneSection) : PaneSection :=
  MkPaneSection (section_pane_id s) (section_header s) (section_instructions s ++ [i]).

Lemma pane_split_extend pane_id h ls sections s i :
  pane_split pane_id h ls (sections ++ [s]) ->
  pane_split pane_id h (ls ++ [i]) (sections ++ [with_instruction i s]).
Proof.
  intros H. inversion H as [ls' E1 E2|is1 is2 sections' H' E1 E2]; subst.
  - destruct sections as [|? [|? ?]]; simplify_eq/=. apply split_open.
  - apply app_inj_tail in E2 as [-> <-]. rewrite <- app_assoc. apply split_continue. exact H'.
Qed.

Lemma pane_split_last pane_id h ls sections s :
  pane_split pane_id h ls (sections ++ [s]) -> section_pane_id s = pane_id.
Proof.
  intros H. inversion H as [ls' E1 E2|is1 is2 sections' H' E1 E2]; subst.
  - destruct sections as [|? [|? ?]]; simplify_eq/=. done.
  - by apply app_inj_tail in E2 as [-> <-].
Qed.

Lemma update_split_snoc pane_updates sections u sections' :
  update_split pane_updates sections -> section_of_update u sections' ->
  update_split (pane_updates ++ [u]) (sections ++ sections').
Proof.
  intros (split & H & ->) Hu. exists (split ++ [sections']). split; [by apply Forall2_app; [|constructor]|].
  rewrite concat_app. simpl. by rewrite app_nil_r.
Qed.

(** ** The writer *)

Lemma frame_bytes_app a b : byte_count (a ++ b) = byte_count a + byte_count b.
Proof. unfold byte_count. rewrite length_app. lia. Qed.

Lemma frame_bytes_cons a b : byte_count (a :: b) = 1 + byte_count b.
Proof. unfold byte_count. simpl. lia. Qed.

Lemma varint_byte_count v : is_u64 v -> byte_count (write_varint v) <= N.of_nat MAX_VARINT_BYTE_COUNT.
Proof. intros H. pose proof (write_varint_length v H). unfold byte_count. lia. Qed.

(** The section a filled [OpenSection] ls. *)
Record is_section (o : OpenSection) (s : PaneSection) : Prop :=
  { is_id : open_pane_id o = section_pane_id s;
    is_header : header_bytes o = match section_header s with Some h => write_pane_header h | None => [0] end;
    is_instructions : instruction_bytes o = (section_instructions s ≫= encode_row_instruction);
    is_count : instruction_count o = N.of_nat (length (section_instructions s)) }.

Lemma write_section_bound o s :
  is_section o s -> PaneSection_wf s -> byte_count (write_section s) <= compute_byte_count_bound o.
Proof.
  intros [E1 E2 E3 E4] Hwf. unfold write_section, compute_byte_count_bound, SECTION_FRAME_BYTE_COUNT.
  rewrite !frame_bytes_app, E2, E3. pose proof (varint_byte_count _ (sw_count _ Hwf)).
  assert (byte_count (to_be_bytes 16 (section_pane_id s)) = 16) as -> by (unfold byte_count; by rewrite to_be_bytes_length).
  lia.
Qed.

Lemma push_is_section o s i :
  is_section o s -> is_section (push_instruction_bytes (encode_row_instruction i) o) (with_instruction i s).
Proof.
  intros [E1 E2 E3 E4]. split; simpl; [done|done| |].
  - rewrite E3, bind_app. simpl. by rewrite app_nil_r.
  - rewrite E4, length_app. simpl. lia.
Qed.

Section writer.
Context (opening_flags_value : N) (opening : list N) (maximum : N).
Context (Hopening : PART_FRAME_BYTE_COUNT + byte_count opening <= maximum).
Set Default Proof Using "All".

(** The payloads of a list of closed parts; the first opens the update. *)
Definition closed_payloads (groups : list (list PaneSection)) : list (list N) :=
  imap (fun i => write_part (if decide (i = 0%nat) then Some (opening_flags_value, opening) else None) false) groups.

(** [w] has closed the parts [groups] and holds [current]. *)
Record writer_holds (w : PartWriter) (groups : list (list PaneSection)) (current : list PaneSection) : Prop :=
  { wh_maximum : maximum_part_byte_count w = maximum;
    wh_flags : opening_flags w = opening_flags_value;
    wh_payloads : part_payloads w = closed_payloads groups;
    wh_opening : opening_bytes w = if decide (groups = []) then opening else [];
    wh_sections : writer_section_bytes w = (current ≫= write_section);
    wh_count : section_count w = N.of_nat (length current);
    wh_wf : Forall (Forall PaneSection_wf) groups /\ Forall PaneSection_wf current;
    wh_room : can_take_section_bytes w 0 = true;
    wh_small : Forall (fun payload => byte_count payload <= maximum) (part_payloads w);
    wh_counts : Forall (fun g => is_u64 (N.of_nat (length g))) groups }.

Lemma closed_payloads_snoc groups g :
  closed_payloads (groups ++ [g])
  = closed_payloads groups
    ++ [write_part (if decide (groups = []) then Some (opening_flags_value, opening) else None) false g].
Proof.
  unfold closed_payloads. rewrite imap_app. f_equal. simpl. rewrite Nat.add_0_r. f_equal.
  destruct groups as [|g' groups]; [done|]. by rewrite !decide_False by done.
Qed.

Lemma close_payload is_last w groups current :
  writer_holds w groups current ->
  part_payloads (close_part is_last w)
  = part_payloads w
    ++ [write_part (if decide (groups = []) then Some (opening_flags_value, opening) else None) is_last current].
Proof.
  intros [H1 H2 H3 H4 H5 H6 H7 H8 H9 _]. unfold close_part. cbn [part_payloads]. f_equal. f_equal.
  assert (bool_decide (part_payloads w = []) = bool_decide (groups = [])) as ->.
  { apply bool_decide_ext. rewrite H3. unfold closed_payloads. by destruct groups. }
  unfold write_part. rewrite H2, H4, H5, H6. by destruct (decide (groups = [])) as [E|E];
    [rewrite bool_decide_eq_true_2|rewrite bool_decide_eq_false_2].
Qed.

Lemma payload_small is_last w groups current :
  writer_holds w groups current -> is_u64 (N.of_nat (length current)) ->
  byte_count (write_part (if decide (groups = []) then Some (opening_flags_value, opening) else None) is_last current)
  <= maximum.
Proof.
  intros [H1 H2 H3 H4 H5 H6 H7 H8 _ _] Hcount. unfold can_take_section_bytes in H8. apply N.leb_le in H8.
  rewrite H1, H4, H5 in H8. unfold write_part. rewrite !frame_bytes_cons, !frame_bytes_app.
  pose proof (varint_byte_count _ Hcount). unfold PART_FRAME_BYTE_COUNT in *.
  destruct (decide (groups = [])); cbv iota beta in *; lia.
Qed.

Lemma close_holds w groups current :
  writer_holds w groups current -> is_u64 (N.of_nat (length current)) ->
  writer_holds (close_part false w) (groups ++ [current]) [].
Proof.
  intros Hw Hcount. pose proof (close_payload false w groups current Hw) as Hp.
  pose proof (payload_small false w groups current Hw Hcount) as Hs.
  destruct Hw as [H1 H2 H3 H4 H5 H6 [H7 H7'] H8 H9 H10]. split; [done|done| | |done|done| | | |].
  - rewrite Hp, H3. symmetry. apply closed_payloads_snoc.
  - rewrite decide_False by (by destruct groups). done.
  - split; [|done]. apply Forall_app. by split; [|constructor].
  - unfold can_take_section_bytes, close_part. cbn [opening_bytes writer_section_bytes maximum_part_byte_count].
    rewrite H1. change (byte_count []) with 0. apply N.leb_le. lia.
  - rewrite Hp. apply Forall_app. by split; [|constructor].
  - apply Forall_app. by split; [|constructor].
Qed.

Lemma add_holds w groups current o s :
  writer_holds w groups current -> is_section o s -> PaneSection_wf s ->
  can_take_section_bytes w (compute_byte_count_bound o) = true ->
  writer_holds (add_section o w) groups (current ++ [s]).
Proof.
  intros [H1 H2 H3 H4 H5 H6 [H7 H7'] H8 H9 H10] Ho Hwf Hfit. pose proof (write_section_bound o s Ho Hwf) as Hb.
  destruct Ho as [E1 E2 E3 E4].
  assert (writer_section_bytes (add_section o w) = ((current ++ [s]) ≫= write_section)) as Hbytes.
  { unfold add_section. cbn [writer_section_bytes]. rewrite bind_app, H5, E1, E2, E3, E4. f_equal.
    simpl. by rewrite app_nil_r. }
  split; [done|done|done|done|done| | | |done|done].
  - unfold add_section. cbn [section_count]. rewrite H6, length_app. simpl. lia.
  - split; [done|]. apply Forall_app. by split; [|constructor].
  - unfold can_take_section_bytes in *. rewrite Hbytes, bind_app, frame_bytes_app, <- H5.
    change ([s] ≫= write_section) with (write_section s ++ []). rewrite app_nil_r. apply N.leb_le in Hfit. apply N.leb_le. change (opening_bytes (add_section o w)) with (opening_bytes w).
    change (maximum_part_byte_count (add_section o w)) with (maximum_part_byte_count w). lia.
Qed.
(** *** The loops *)

Context (Hmaximum : 128 <= maximum /\ is_u64 maximum).

Lemma values_counted {A} (write : A -> list N) values :
  (forall a, write a <> []) -> byte_count (values ≫= write) <= maximum -> is_u64 (N.of_nat (length values)).
Proof.
  intros Hne Hle. pose proof (written_at_least write values Hne). unfold byte_count, is_u64 in *. lia.
Qed.

Lemma current_counted w groups current : writer_holds w groups current -> is_u64 (N.of_nat (length current)).
Proof.
  intros [H1 H2 H3 H4 H5 H6 H7 H8 _ _]. apply (values_counted write_section); [apply write_section_not_nil|].
  unfold can_take_section_bytes in H8. apply N.leb_le in H8. rewrite H1, H5 in H8. lia.
Qed.

(** The room a part has for a section of a pane in progress. *)
Lemma room_counted w o s :
  maximum_part_byte_count w = maximum -> is_section o s ->
  can_take_section_bytes w (compute_byte_count_bound o) = true ->
  is_u64 (N.of_nat (length (section_instructions s))).
Proof.
  intros Hmax [E1 E2 E3 E4] Hfit. apply (values_counted encode_row_instruction); [apply encode_row_instruction_not_nil|].
  unfold can_take_section_bytes, compute_byte_count_bound in Hfit. apply N.leb_le in Hfit. rewrite Hmax, E3 in Hfit. lia.
Qed.

(** An instruction with no room in a part of its own. *)
Definition too_large (i : RowInstruction) : Prop :=
  maximum < PART_FRAME_BYTE_COUNT + SECTION_FRAME_BYTE_COUNT + 1 + byte_count (encode_row_instruction i).

(** One pane in progress: [done] of its instructions are in the sections
    [emitted] and the open one. *)
Record pane_progress (u : PaneUpdate) (base : list PaneSection) (done : list RowInstruction)
    (w : PartWriter) (o : OpenSection) (groups : list (list PaneSection)) (current emitted : list PaneSection)
    (s : PaneSection) : Prop :=
  { pp_writer : writer_holds w groups current;
    pp_sections : concat groups ++ current = base ++ emitted;
    pp_open : is_section o s;
    pp_split : pane_split (update_pane_id u) (update_header u) done (emitted ++ [s]);
    pp_header : forall h, section_header s = Some h -> PaneHeader_wf h;
    pp_instructions : Forall RowInstruction_wf (section_instructions s);
    pp_room : can_take_section_bytes w (compute_byte_count_bound o) = true }.

Lemma progress_wf u base done w o groups current emitted s :
  PaneUpdate_wf u -> pane_progress u base done w o groups current emitted s -> PaneSection_wf s.
Proof.
  intros Hu [P1 P2 P3 P4 P5 P6 P7]. split; [|done|done|].
  - rewrite (pane_split_last _ _ _ _ _ P4). apply Hu.
  - by apply (room_counted w o); [apply P1| |].
Qed.

Lemma push_bound o bytes :
  compute_byte_count_bound (push_instruction_bytes bytes o) = compute_byte_count_bound o + byte_count bytes.
Proof.
  unfold compute_byte_count_bound, push_instruction_bytes. cbn [header_bytes instruction_bytes].
  rewrite frame_bytes_app. lia.
Qed.

Lemma push_progress u base done w o groups current emitted s i :
  pane_progress u base done w o groups current emitted s -> RowInstruction_wf i ->
  can_take_section_bytes w (compute_byte_count_bound o + byte_count (encode_row_instruction i)) = true ->
  pane_progress u base (done ++ [i]) w (push_instruction_bytes (encode_row_instruction i) o) groups current emitted
    (with_instruction i s).
Proof.
  intros [P1 P2 P3 P4 P5 P6 P7] Hi Hfit. split; [done|done|by apply push_is_section|by apply pane_split_extend|done| |].
  - simpl. apply Forall_app. by split; [|constructor].
  - by rewrite push_bound.
Qed.

Lemma encode_instruction_ok u base done w o groups current emitted s i :
  PaneUpdate_wf u -> pane_progress u base done w o groups current emitted s -> RowInstruction_wf i ->
  (too_large i /\ encode_instruction (update_pane_id u) w o i
     = failed (RowTooLarge (byte_count (encode_row_instruction i) - 1)))
  \/ (~ too_large i /\ exists w' o' groups' current' emitted' s',
        encode_instruction (update_pane_id u) w o i = ok (w', o')
        /\ pane_progress u base (done ++ [i]) w' o' groups' current' emitted' s').
Proof.
  intros Hu Hp Hi. pose proof (progress_wf _ _ _ _ _ _ _ _ _ Hu Hp) as Hs.
  unfold encode_instruction. destruct (can_take_section_bytes w _) eqn:E1.
  - right. pose proof Hp as [P1 P2 P3 P4 P5 P6 P7]. split.
    + unfold too_large. unfold can_take_section_bytes, compute_byte_count_bound in E1. apply N.leb_le in E1.
      rewrite (wh_maximum _ _ _ P1), (is_header _ _ P3) in E1.
      assert (1 <= byte_count (match section_header s with Some h => write_pane_header h | None => [0] end)) as Hb.
      { destruct (section_header s); unfold byte_count; simpl; lia. }
      lia.
    + exists w, (push_instruction_bytes (encode_row_instruction i) o), groups, current, emitted, (with_instruction i s).
      split; [done|]. by apply push_progress.
  - pose proof Hp as [P1 P2 P3 P4 P5 P6 P7]. pose proof (add_holds _ _ _ _ _ P1 P3 Hs P7) as Hadd.
    pose proof (close_holds _ _ _ Hadd (current_counted _ _ _ Hadd)) as Hclose.
    set (w' := close_part false (add_section o w)) in *. set (o' := from_continued_pane_id (update_pane_id u)).
    assert (can_take_section_bytes w' (compute_byte_count_bound o' + byte_count (encode_row_instruction i)) = true
      <-> ~ too_large i) as Hiff.
    { unfold can_take_section_bytes, too_large. rewrite (wh_maximum _ _ _ Hclose).
      change (compute_byte_count_bound o') with (SECTION_FRAME_BYTE_COUNT + 1 + 0).
      change (byte_count (opening_bytes w')) with 0. change (byte_count (writer_section_bytes w')) with 0.
      rewrite N.leb_le. lia. }
    destruct (can_take_section_bytes w' _) eqn:E2.
    + right. split; [by apply Hiff|].
      assert (pane_progress u base done w' o' (groups ++ [current ++ [s]]) [] (emitted ++ [s])
        (MkPaneSection (update_pane_id u) None [])) as Hnext.
      { split; [done| | | |done|constructor|].
        - rewrite app_nil_r, concat_app. simpl. rewrite app_nil_r, app_assoc, P2. by rewrite <- app_assoc.
        - by split.
        - rewrite <- (app_nil_r done). by apply split_continue.
        - unfold can_take_section_bytes in *. apply N.leb_le in E2. apply N.leb_le. lia. }
      eexists w', _, _, _, _, _. split; [done|]. by apply push_progress.
    + left. split; [|done]. unfold too_large in *. destruct (decide (maximum < PART_FRAME_BYTE_COUNT
        + SECTION_FRAME_BYTE_COUNT + 1 + byte_count (encode_row_instruction i))) as [|Hn]; [done|].
      apply Hiff in Hn. congruence.
Qed.

(** The error of an update, or none. *)
Definition first_too_large (instructions : list RowInstruction) (result : option PaintedUpdateEncodeError) : Prop :=
  match result with
  | None => Forall (fun i => ~ too_large i) instructions
  | Some e => exists before i after, instructions = before ++ i :: after
      /\ Forall (fun i => ~ too_large i) before /\ too_large i
      /\ e = RowTooLarge (byte_count (encode_row_instruction i) - 1)
  end.

Lemma first_too_large_app is1 is2 e :
  Forall (fun i => ~ too_large i) is1 -> first_too_large is2 e -> first_too_large (is1 ++ is2) e.
Proof.
  intros H1. destruct e as [e|]; simpl.
  - intros (before & i & after & -> & H2 & H3). exists (is1 ++ before), i, after. rewrite <- app_assoc.
    split; [done|]. split; [by apply Forall_app|done].
  - intros H2. by apply Forall_app.
Qed.

Lemma first_too_large_more is1 is2 e : first_too_large is1 (Some e) -> first_too_large (is1 ++ is2) (Some e).
Proof.
  intros (before & i & after & -> & H). exists before, i, (after ++ is2). by rewrite <- app_assoc.
Qed.

Lemma encode_instructions_ok u base instructions done w o groups current emitted s :
  PaneUpdate_wf u -> pane_progress u base done w o groups current emitted s ->
  Forall RowInstruction_wf instructions ->
  match encode_instructions (update_pane_id u) instructions w o with
  | Some (inr (w', o')) => first_too_large instructions None
      /\ exists groups' current' emitted' s', pane_progress u base (done ++ instructions) w' o' groups' current' emitted' s'
  | Some (inl e) => first_too_large instructions (Some e)
  | None => False
  end.
Proof.
  intros Hu. revert done w o groups current emitted s.
  induction instructions as [|i instructions IH]; intros done w o groups current emitted s Hp Hwf; cbn [encode_instructions].
  - split; [by constructor|]. exists groups, current, emitted, s. by rewrite app_nil_r.
  - apply Forall_cons in Hwf as [Hi Hwf].
    destruct (encode_instruction_ok u base done w o groups current emitted s i Hu Hp Hi)
      as [[Hlarge ->]|(Hfits & w' & o' & groups' & current' & emitted' & s' & -> & Hp')].
    + simpl. exists [], i, instructions. by repeat split.
    + unfold mbind, outcome_bind, ok at 1. specialize (IH _ _ _ _ _ _ _ Hp' Hwf).
      destruct (encode_instructions _ _ w' o') as [[e|[w2 o2]]|]; [|destruct IH as [H1 H2]|done].
      * by apply (first_too_large_app [i]); [constructor|].
      * split; [by constructor|]. rewrite <- app_assoc in H2. exact H2.
Qed.

Lemma header_byte_count h : PaneHeader_wf h -> byte_count (write_pane_header h) <= 80.
Proof.
  intros [H1 H2 H3 H4 H5]. unfold write_pane_header. cbv zeta.
  assert (forall v, v <= U16_MAX -> byte_count (write_varint v) <= 10) as H16.
  { intros v Hv. apply varint_byte_count. unfold is_u64, U64_MODULUS. lia. }
  pose proof (H16 _ H1). pose proof (H16 _ H2). pose proof (varint_byte_count _ H3) as B3. pose proof (varint_byte_count _ H4) as B4.
  change (N.of_nat MAX_VARINT_BYTE_COUNT) with 10 in B3, B4.
  rewrite frame_bytes_cons, !frame_bytes_app, !frame_bytes_cons, !frame_bytes_app.
  destruct (pane_window h) as [w|]; [|change (byte_count []) with 0; lia].
  destruct (H5 w eq_refl) as (W1 & W2 & W3). rewrite !frame_bytes_app. pose proof (H16 _ W1). pose proof (H16 _ W2).
  pose proof (varint_byte_count _ W3) as B5. change (N.of_nat MAX_VARINT_BYTE_COUNT) with 10 in B5. lia.
Qed.

Lemma open_pane w groups current u :
  writer_holds w groups current -> PaneUpdate_wf u ->
  let o := from_pane_update u in
  let w' := if can_take_section_bytes w (compute_byte_count_bound o) then w else close_part false w in
  exists groups' current',
    concat groups' ++ current' = concat groups ++ current
    /\ pane_progress u (concat groups ++ current) [] w' o groups' current' []
         (MkPaneSection (update_pane_id u) (Some (update_header u)) []).
Proof.
  intros Hw Hu o w'. pose proof (close_holds _ _ _ Hw (current_counted _ _ _ Hw)) as Hclose.
  assert (is_section o (MkPaneSection (update_pane_id u) (Some (update_header u)) [])) as Ho by done.
  pose proof (header_byte_count _ (uw_header _ Hu)) as Hh.
  assert (can_take_section_bytes w' (compute_byte_count_bound o) = true) as Hfit.
  { unfold w'. destruct (can_take_section_bytes w _) eqn:E; [done|]. unfold can_take_section_bytes.
    rewrite (wh_maximum _ _ _ Hclose). change (byte_count (opening_bytes (close_part false w))) with 0.
    change (byte_count (writer_section_bytes (close_part false w))) with 0. apply N.leb_le.
    unfold compute_byte_count_bound, o, from_pane_update, PART_FRAME_BYTE_COUNT, SECTION_FRAME_BYTE_COUNT, MAX_VARINT_BYTE_COUNT.
    cbn [header_bytes instruction_bytes]. change (byte_count []) with 0. lia. }
  assert (forall groups' current', writer_holds w' groups' current' -> concat groups' ++ current' = concat groups ++ current ->
    pane_progress u (concat groups ++ current) [] w' o groups' current' []
      (MkPaneSection (update_pane_id u) (Some (update_header u)) [])) as Hgo.
  { intros groups' current' Hw' E. split; [done|by rewrite app_nil_r|done|apply split_open| |constructor|done].
    intros h [= <-]. apply Hu. }
  unfold w' in *. destruct (can_take_section_bytes w _).
  - exists groups, current. split; [done|]. by apply Hgo.
  - exists (groups ++ [current]), []. assert (concat (groups ++ [current]) ++ [] = concat groups ++ current) as E.
    { rewrite concat_app. simpl. by rewrite !app_nil_r. }
    split; [done|]. by apply Hgo.
Qed.

Lemma encode_pane_updates_ok panes done w groups current :
  writer_holds w groups current -> update_split done (concat groups ++ current) -> Forall PaneUpdate_wf panes ->
  match encode_pane_updates panes w with
  | Some (inr w') => first_too_large (panes ≫= update_instructions) None
      /\ exists groups' current', writer_holds w' groups' current' /\ update_split (done ++ panes) (concat groups' ++ current')
  | Some (inl e) => first_too_large (panes ≫= update_instructions) (Some e)
  | None => False
  end.
Proof.
  revert done w groups current. induction panes as [|u panes IH]; intros done w groups current Hw Hsplit Hwf;
    cbn [encode_pane_updates].
  - split; [by constructor|]. exists groups, current. by rewrite app_nil_r.
  - apply Forall_cons in Hwf as [Hu Hwf]. destruct (open_pane w groups current u Hw Hu) as (groups1 & current1 & E1 & Hp).
    pose proof (encode_instructions_ok u _ (update_instructions u) _ _ _ _ _ _ _ Hu Hp (uw_instructions _ Hu)) as H.
    change ((u :: panes) ≫= update_instructions) with (update_instructions u ++ (panes ≫= update_instructions)).
    cbv zeta. destruct (encode_instructions _ _ _ _) as [[e|[w2 o2]]|]; cbn [mbind outcome_bind]; [| |done].
    { by apply first_too_large_more. }
    destruct H as (Hfits & groups2 & current2 & emitted & s & Hp2). rewrite app_nil_l in Hp2.
    pose proof (progress_wf _ _ _ _ _ _ _ _ _ Hu Hp2) as Hs. destruct Hp2 as [P1 P2 P3 P4 P5 P6 P7].
    pose proof (add_holds _ _ _ _ _ P1 P3 Hs P7) as Hadd.
    assert (update_split (done ++ [u]) (concat groups2 ++ current2 ++ [s])) as Hsplit'.
    { rewrite app_assoc, P2, <- app_assoc. by apply update_split_snoc. }
    specialize (IH _ _ _ _ Hadd Hsplit' Hwf). destruct (encode_pane_updates panes _) as [[e|w3]|]; [| |done].
    + by apply first_too_large_app.
    + destruct IH as [H1 H2]. rewrite <- app_assoc in H2. split; [by apply Forall_app|exact H2].
Qed.
End writer.

(** ** The whole update *)

Section updates.
Set Default Proof Using "Type".
Context {PaintedFrame PanePlacementPreview : Type}.
Context (parse_painted_frame : list N -> string + PaintedFrame).
Context (parse_placement_preview : list N -> string + PanePlacementPreview).
Abbreviation decode := (decode_session_binary_frame parse_painted_frame parse_placement_preview).
Abbreviation opening_value := (@PaintedUpdateOpening PaintedFrame PanePlacementPreview).
Abbreviation part := (@PaintedUpdatePart PaintedFrame PanePlacementPreview).

(** The parts that carry the groups of sections: the first opens the update
    and the last ends it. *)
Definition parts_of (o : opening_value) (groups : list (list PaneSection)) : list part :=
  imap (fun i g => MkPaintedUpdatePart (if decide (i = 0%nat) then Some o else None)
          (bool_decide (S i = length groups)) g) groups.

Definition opening_of (update_sequence : N) (structure : option (list N))
    (preview : PlacementPreviewUpdate (list N)) : list N :=
  write_opening update_sequence (default [] structure) (preview_json_bytes preview).

Lemma closed_decode update_sequence structure preview o groups current :
  opening_decodes parse_painted_frame parse_placement_preview update_sequence structure preview o ->
  Forall (Forall PaneSection_wf) groups -> Forall PaneSection_wf current ->
  Forall (fun g => is_u64 (N.of_nat (length g))) groups -> is_u64 (N.of_nat (length current)) ->
  Forall2 (fun payload p => decode payload = ok (PaintedUpdatePartFrame p))
    (closed_payloads (opening_flags_of preview) (opening_of update_sequence structure preview) groups
       ++ [write_part (if decide (groups = []) then Some (opening_flags_of preview, opening_of update_sequence structure preview)
                       else None) true current])
    (parts_of o (groups ++ [current])).
Proof.
  intros Ho Hg Hc Hgn Hcn. unfold parts_of. rewrite imap_app, length_app. apply Forall2_app.
  - unfold closed_payloads. apply Forall2_same_length_lookup_2; [by rewrite !length_imap|].
    intros i payload p Hi Hp. rewrite list_lookup_imap in Hi. rewrite list_lookup_imap in Hp.
    apply fmap_Some in Hi as (g & Hlg & ->). apply fmap_Some in Hp as (g' & Hlg' & ->). simplify_eq.
    pose proof (lookup_lt_Some _ _ _ Hlg) as Hlt. rewrite bool_decide_eq_false_2 by (simpl; lia).
    rewrite Forall_lookup in Hg. specialize (Hg i g Hlg). rewrite Forall_lookup in Hgn. specialize (Hgn i g Hlg).
    case_decide; [by apply opening_part_decodes|by apply later_part_decodes].
  - simpl. rewrite Nat.add_0_r. constructor; [|constructor]. rewrite bool_decide_eq_true_2 by lia.
    destruct groups as [|g groups].
    + rewrite !decide_True by done. by apply opening_part_decodes.
    + rewrite !decide_False by done. by apply later_part_decodes.
Qed.

Lemma first_writer_holds maximum preview opening_bytes :
  PART_FRAME_BYTE_COUNT + byte_count opening_bytes <= maximum ->
  writer_holds (opening_flags_of preview) opening_bytes maximum
    (MkPartWriter maximum [] opening_bytes (opening_flags_of preview) [] 0) [] [].
Proof.
  intros H. split; try done. unfold can_take_section_bytes. cbn. change (byte_count []) with 0. apply N.leb_le. lia.
Qed.

Lemma encode_in_parts_cases update_sequence structure preview panes maximum :
  128 <= maximum -> is_u64 maximum -> Forall PaneUpdate_wf panes ->
  let bytes := opening_of update_sequence structure preview in
  (maximum < PART_FRAME_BYTE_COUNT + byte_count bytes
   /\ encode_painted_update_in_parts update_sequence structure preview panes maximum
      = failed (StructureTooLarge (byte_count (default [] structure)) (byte_count (default [] (preview_json_bytes preview)))))
  \/ (PART_FRAME_BYTE_COUNT + byte_count bytes <= maximum
      /\ ((exists e, encode_painted_update_in_parts update_sequence structure preview panes maximum = failed e
             /\ first_too_large maximum (panes ≫= update_instructions) (Some e))
          \/ first_too_large maximum (panes ≫= update_instructions) None
             /\ exists w groups current, writer_holds (opening_flags_of preview) bytes maximum w groups current
               /\ update_split panes (concat groups ++ current)
               /\ encode_painted_update_in_parts update_sequence structure preview panes maximum
                  = ok (part_payloads (close_part true w)))).
Proof.
  intros Hmax Hu64 Hwf bytes. unfold encode_painted_update_in_parts. cbv zeta.
  change (write_opening update_sequence (default [] structure) (preview_json_bytes preview)) with bytes.
  destruct (maximum <? PART_FRAME_BYTE_COUNT + byte_count bytes) eqn:E; bools.
  - left. split; [exact E|]. destruct preview; reflexivity.
  - right. split; [exact E|]. change (match preview_json_bytes preview with
      | Some _ => N.lor PART_OPENS_UPDATE_FLAG PART_CHANGES_PLACEMENT_PREVIEW_FLAG
      | None => PART_OPENS_UPDATE_FLAG end) with (opening_flags_of preview).
    assert (update_split [] (concat [] ++ [])) as H0 by (exists []; split; [constructor|done]).
    pose proof (encode_pane_updates_ok (opening_flags_of preview) bytes maximum E (conj Hmax Hu64) panes [] _ [] []
      (first_writer_holds maximum preview bytes E) H0 Hwf) as H.
    destruct (encode_pane_updates panes _) as [[e|w]|]; [left; by exists e| |done].
    right. destruct H as (H1 & groups & current & H2 & H3). split; [done|]. exists w, groups, current. done.
Qed.
End updates.
