(* ===== verification/PaintedDecode.v ===== *)
(** * Frames from any bytes

    What [decode_session_binary_frame] makes of a payload it did not write: it
    ends without a panic, every read takes the bytes it needs, which alone
    settle what it returns, the fields it returns are within their types, and
    every error names a fault of the bytes or says that they end too early. *)

From S2P Require Import Prelude Varint PaintedUpdate PaintedWire PaintedParts.
From stdpp Require Import strings options.
#[local] Open Scope N_scope.

(** ** The faults of a part *)

(** Flags of a field the decoder knows no meaning for: a bit beyond those
    defined, or a bit whose condition does not hold. *)
Definition refused_flags (field_name : string) (flags : N) : Prop :=
  (field_name = "part_flags" /\ (8 <= flags \/ (N.testbit flags 2 = true /\ N.testbit flags 0 = false)))
  \/ (field_name = "section_flags"
      /\ (8 <= flags \/ (N.testbit flags 0 = false /\ flags <> 0)
          \/ (N.testbit flags 2 = true /\ N.testbit flags 1 = false)))
  \/ (field_name = "cursor_flags" /\ 4 <= flags).

(** The fields of sixteen bits. *)
Definition u16_fields : list string :=
  ["row_count"; "source_row_index"; "column_count"; "cursor_row_index"; "cursor_column_index"].

Section parts.
Context {PaintedFrame PanePlacementPreview : Type}.
Context (parse_painted_frame : list N -> string + PaintedFrame).
Context (parse_placement_preview : list N -> string + PanePlacementPreview).

(** The bytes of a part hold the fault an error names. *)
Definition part_fault (bytes : list N) (e : SessionBinaryFrameDecodeError) : Prop :=
  match e with
  | FrameVarintTooLong =>
      exists before rest, bytes = before ++ rest /\ read_varint rest = inl VarintTooLong
  | FieldOutOfRange field_name v =>
      field_name ∈ u16_fields /\ (U16_MAX < v \/ (field_name = "row_count" /\ v = 0))
  | UnknownFlags field_name flags => refused_flags field_name flags
  | UnknownRowInstruction tag => NEW_INSTRUCTION_TAG < tag
  | MalformedStructure detail =>
      exists before json after, bytes = before ++ json ++ after
        /\ (parse_painted_frame json = inl detail \/ parse_placement_preview json = inl detail)
  | MissingFrameKind | FrameTruncated | FrameTrailingBytes _ => False
  end.

Lemma part_fault_app before bytes e : part_fault bytes e -> part_fault (before ++ bytes) e.
Proof.
  destruct e; try done.
  - intros (b & rest & -> & H). exists (before ++ b), rest. by rewrite app_assoc.
  - intros (b & json & after & -> & H). exists (before ++ b), json, after. by rewrite app_assoc.
Qed.

(** [m] fails on [bytes] because they end too early, and then goes further on
    some longer run, or because of a fault in them, whatever follows. *)
Definition read_fails {A} (m : part_reader A) (bytes : list N) (e : SessionBinaryFrameDecodeError) : Prop :=
  (e = FrameTruncated /\ exists more, Forall is_byte more /\ m (bytes ++ more) <> failed FrameTruncated)
  \/ (part_fault bytes e /\ forall more, Forall is_byte more -> m (bytes ++ more) = failed e).

(** ** Reads of at least [k] bytes *)

(** What [m] does on any bytes: it takes [k] bytes or more, which alone settle
    the value it returns, a value of [P]; or it fails as [read_fails] says. *)
Definition reads_some {A} (k : nat) (P : A -> Prop) (m : part_reader A) : Prop :=
  forall bytes, Forall is_byte bytes ->
    outcome_sat (read_fails m bytes)
      (fun r => P r.1 /\ exists taken, bytes = taken ++ r.2 /\ (k <= length taken)%nat
         /\ forall rest, Forall is_byte rest -> m (taken ++ rest) = ok (r.1, rest)) (m bytes).

Lemma reads_some_ret {A} (P : A -> Prop) a : P a -> reads_some 0 P (part_ret a).
Proof. intros Ha bytes _. split; [done|]. by exists []. Qed.

Lemma reads_some_fail {A} k (P : A -> Prop) e : (forall bytes, part_fault bytes e) -> reads_some k P (part_fail e).
Proof. intros He bytes _. by right. Qed.

Lemma reads_some_weaken {A} k k' (P P' : A -> Prop) m :
  reads_some k P m -> (k' <= k)%nat -> (forall a, P a -> P' a) -> reads_some k' P' m.
Proof.
  intros Hm Hk HP bytes Hb. eapply outcome_sat_impl; [by apply Hm|done|].
  intros [a rest] (Ha & taken & -> & Hl & Hr). split; [by apply HP|]. exists taken. split_and!; [done|lia|done].
Qed.

(** A reader that goes on after [m] fails as [m] does. *)
Lemma read_fails_bind {A B} k (P : A -> Prop) (Q : B -> Prop) (m : part_reader A) (f : A -> part_reader B) bytes e :
  reads_some k P m -> (forall a, P a -> reads_some 0 Q (f a)) ->
  Forall is_byte bytes -> read_fails m bytes e -> read_fails (m ≫= f) bytes e.
Proof.
  intros Hm Hf Hb [[-> (more & Hmore & Hne)]|[Hfault Hmore]].
  2:{ right. split; [done|]. intros more H. unfold mbind, part_reader_bind. by rewrite (Hmore more H). }
  left. split; [done|]. pose proof (Hm (bytes ++ more) ltac:(by apply Forall_app)) as H.
  destruct (m (bytes ++ more)) as [[e|[a rest]]|] eqn:E; [| |done].
  { exists more. split; [done|]. unfold mbind, part_reader_bind. rewrite E. simpl. intros [= ->]. by apply Hne. }
  destruct H as (Ha & taken & Et & _ & Hr). cbn [fst snd] in *.
  assert (Forall is_byte rest) as Hrest.
  { assert (Forall is_byte (bytes ++ more)) as H by (by apply Forall_app). rewrite Et in H. by apply Forall_app in H as [_ H]. }
  pose proof (Hf a Ha rest Hrest) as H. destruct (f a rest) as [[e|[b rest']]|] eqn:Ef; [| |done].
  2:{ exists more. split; [done|]. unfold mbind, part_reader_bind. rewrite E. simpl. by rewrite Ef. }
  assert (exists more', Forall is_byte more' /\ f a (rest ++ more') <> failed FrameTruncated) as (more' & Hmore' & Hne').
  { destruct H as [[-> H]|[Hfault _]]; [exact H|]. exists []. split; [done|]. rewrite app_nil_r, Ef. by intros [= ->]. }
  exists (more ++ more'). split; [by apply Forall_app|]. rewrite app_assoc, Et, <- app_assoc.
  unfold mbind, part_reader_bind. rewrite Hr by (by apply Forall_app). exact Hne'.
Qed.

Lemma reads_some_bind {A B} k k' (P : A -> Prop) (Q : B -> Prop) (m : part_reader A) (f : A -> part_reader B) :
  reads_some k P m -> (forall a, P a -> reads_some k' Q (f a)) -> reads_some (k + k') Q (m ≫= f).
Proof.
  intros Hm Hf bytes Hb. pose proof (Hm bytes Hb) as H.
  assert ((m ≫= f) bytes = mbind (M := outcome SessionBinaryFrameDecodeError) (fun r => f r.1 r.2) (m bytes)) as -> by done.
  destruct (m bytes) as [[e|[a rest]]|] eqn:E; [| |done].
  { cbn. eapply read_fails_bind; [exact Hm| |done|exact H]. intros a Ha. eapply reads_some_weaken; [by apply Hf|lia|done]. }
  destruct H as (Ha & taken & -> & Hl & Hr). cbn [fst snd mbind outcome_bind ok] in *.
  apply Forall_app in Hb as [Hb1 Hb2]. pose proof (Hf a Ha rest Hb2) as H.
  destruct (f a rest) as [[e|[b rest']]|] eqn:Ef; [| |done]; cbn.
  - destruct H as [[-> (more & Hmore & Hne)]|[Hfault Hmore]].
    + left. split; [done|]. exists more. split; [done|]. rewrite <- app_assoc.
      unfold mbind, part_reader_bind. by rewrite Hr by (by apply Forall_app).
    + right. split; [by apply part_fault_app|]. intros more H. rewrite <- app_assoc.
      unfold mbind, part_reader_bind. rewrite Hr by (by apply Forall_app). by apply Hmore.
  - destruct H as (HQ & taken' & -> & Hl' & Hr'). cbn [fst snd] in *. split; [done|]. exists (taken ++ taken').
    rewrite <- app_assoc, length_app. split_and!; [done|lia|]. intros rest H. rewrite <- app_assoc.
    apply Forall_app in Hb2 as [Hb2 _]. unfold mbind, part_reader_bind. rewrite Hr by (by apply Forall_app). by apply Hr'.
Qed.

(** A step that need not be counted. *)
Lemma reads_some_then {A B} k k' (P : A -> Prop) (Q : B -> Prop) (m : part_reader A) (f : A -> part_reader B) :
  reads_some k' P m -> (k <= k')%nat -> (forall a, P a -> reads_some 0 Q (f a)) -> reads_some k Q (m ≫= f).
Proof.
  intros Hm Hk Hf. eapply reads_some_weaken; [by eapply reads_some_bind|lia|done].
Qed.

Create HintDb reads.
#[local] Hint Resolve reads_some_ret : reads.

(** One more step of a reader, whose result satisfies what its lemma says. *)
Ltac reads_step :=
  match goal with
  | |- reads_some _ _ (_ ≫= _) =>
      eapply reads_some_then; [solve [eauto with reads]|lia|let v := fresh "v" in let Hv := fresh "Hv" in intros v Hv; cbv beta in Hv]
  | |- reads_some _ _ (if ?c then _ else _) => destruct c eqn:?; bools
  end.
Ltac reads := repeat (cbv zeta; reads_step); eauto with reads.

(** What a varint reads as does not depend on what follows it. *)
Lemma read_varint_prefix bytes v rest :
  Forall is_byte bytes -> read_varint bytes = inr (v, rest) ->
  exists taken, bytes = taken ++ rest /\ taken <> [] /\ forall rest', read_varint (taken ++ rest') = inr (v, rest').
Proof.
  intros Hb Hr. pose proof (read_varint_spec bytes Hb) as H. rewrite Hr in H.
  destruct H as (Hv & pre & b & -> & Hpre & Hlow & Hlen & ->). exists (pre ++ [b]). rewrite <- app_assoc.
  split_and!; [done|by destruct pre|]. intros rest'. rewrite <- app_assoc. by apply read_varint_run.
Qed.

(** A varint that ends too early is continued by a zero. *)
Lemma truncated_varint_goes_on bytes :
  Forall is_byte bytes -> read_varint bytes = inl VarintTruncated ->
  read_varint (bytes ++ [0]) = inr (varint_groups (bytes ++ [0]), []).
Proof.
  intros Hb Hr. pose proof (read_varint_spec bytes Hb) as H. rewrite Hr in H. destruct H as [Hc Hl].
  apply read_varint_run; [done|lia| |done]. unfold is_u64, U64_MODULUS. rewrite groups_app. simpl varint_groups.
  pose proof (groups_bound bytes) as Hg. rewrite N.mul_0_r, N.add_0_r. unfold MAX_VARINT_BYTE_COUNT in Hl.
  eapply N.lt_le_trans; [exact Hg|]. transitivity (128 ^ 9); [apply N.pow_le_mono_r; lia|done].
Qed.

(** A varint that is too long is so whatever follows. *)
Lemma long_varint_stays_long bytes more :
  Forall is_byte bytes -> Forall is_byte more -> read_varint bytes = inl VarintTooLong ->
  read_varint (bytes ++ more) = inl VarintTooLong.
Proof.
  intros Hb Hm Hr. pose proof (read_varint_spec bytes Hb) as H. rewrite Hr in H.
  destruct H as (pre & b & rest & -> & Hpre & H2 & Hl). rewrite <- app_assoc. cbn [app].
  apply Forall_app in Hb as [_ Hb]. apply Forall_cons in Hb as [Hb _].
  unfold MAX_VARINT_BYTE_COUNT in Hl. simpl in Hl. rewrite read_varint_long.
  2: { destruct pre as [|c pre]; [done|]. by apply Forall_cons in Hpre as [[_ Hc] _]. }
  destruct (read_loop_run pre (b :: rest ++ more) 0 0 Hpre) as [-> Hlt]; [lia|done|].
  cbn [Nat.add] in *. rewrite Hl in Hlt |- *. rewrite read_loop_last; [|exact Hlt|done].
  by rewrite (proj2 (N.ltb_ge b 2)) by lia.
Qed.

Lemma varint_reads_some : reads_some 1 is_u64 part_read_varint.
Proof.
  intros bytes Hb. unfold part_read_varint. destruct (read_varint bytes) as [[]|[v rest]] eqn:E; cbn.
  - left. split; [done|]. exists [0]. split; [by repeat constructor|]. by rewrite truncated_varint_goes_on.
  - right. split; [by exists [], bytes|]. intros more Hm. by rewrite long_varint_stays_long.
  - destruct (read_varint_suffix bytes v rest Hb E) as [Hv _].
    destruct (read_varint_prefix bytes v rest Hb E) as (taken & -> & Hne & Hr). split; [done|].
    exists taken. split_and!; [done|by destruct taken; simpl; [|lia]|]. intros rest' _. by rewrite Hr.
Qed.

Lemma bytes_read_some n : reads_some (N.to_nat n) (fun bytes => byte_count bytes = n /\ Forall is_byte bytes) (part_read_bytes n).
Proof.
  intros bytes Hb. unfold part_read_bytes. destruct (n <=? byte_count bytes) eqn:E; bools; unfold byte_count in *; cbn.
  - split; [split; [rewrite length_take; lia|by apply Forall_take]|]. exists (take (N.to_nat n) bytes).
    assert (length (take (N.to_nat n) bytes) = N.to_nat n) as El by (rewrite length_take; lia).
    rewrite take_drop. split_and!; [done|lia|]. intros rest _. rewrite length_app, El.
    rewrite (proj2 (N.leb_le _ _)) by lia. by rewrite take_app_length', drop_app_length' by done.
  - left. split; [done|]. exists (replicate (N.to_nat n) 0). split; [by apply Forall_replicate|].
    rewrite length_app, length_replicate. by rewrite (proj2 (N.leb_le _ _)) by lia.
Qed.

Lemma byte_reads_some : reads_some 1 is_byte part_read_byte.
Proof.
  unfold part_read_byte. eapply (reads_some_weaken (1 + 0)); [|lia|done].
  eapply reads_some_bind; [apply (bytes_read_some 1)|]. intros bytes [Hl Hb].
  destruct bytes as [|b bytes]; [done|]. apply reads_some_ret. by apply Forall_cons in Hb as [Hb _].
Qed.
#[local] Hint Resolve varint_reads_some bytes_read_some byte_reads_some : reads.

Lemma u16_reads_some name : name ∈ u16_fields -> reads_some 1 (fun v => v <= U16_MAX) (part_read_u16 name).
Proof. intros Hn. unfold part_read_u16. reads. apply reads_some_fail. intros ?. split; [done|by left]. Qed.

Lemma row_count_reads_some : reads_some 1 (fun v => 1 <= v <= U16_MAX) read_row_count.
Proof.
  unfold read_row_count. eapply reads_some_then; [apply u16_reads_some; set_solver|lia|intros v Hv].
  destruct (v =? 0) eqn:E; bools; [|apply reads_some_ret; cbv beta in *; lia].
  apply reads_some_fail. intros ?. split; [set_solver|by right].
Qed.
#[local] Hint Resolve row_count_reads_some : reads.
#[local] Hint Extern 3 (reads_some _ _ (part_read_u16 _)) => eapply u16_reads_some; set_solver : reads.

(** A row that was read opens with the count of its other bytes. *)
Definition row_delimited (bytes : list N) : Prop :=
  exists count body, read_varint bytes = inr (count, body) /\ byte_count body = count.

Definition decoded_instruction (i : RowInstruction) : Prop :=
  match i with
  | Keep row_count => 1 <= row_count <= U16_MAX
  | Copy source_row_index row_count => source_row_index <= U16_MAX /\ 1 <= row_count <= U16_MAX
  | New bytes => row_delimited bytes /\ Forall is_byte bytes
  end.

(** The reader of a row's own bytes, given back as they were read. *)
Lemma row_reads_some :
  let m : part_reader (list N) := (count ← part_read_varint; part_read_bytes count) in
  reads_some 1 decoded_instruction (fun bytes => '(_, rest) ← m bytes;
    ok (New (take (length bytes - length rest) bytes), rest)).
Proof.
  intros m bytes Hb. assert (reads_some 1 (fun _ => True) m) as Hreads.
  { eapply reads_some_then; [apply varint_reads_some|lia|]. intros count _. eapply reads_some_weaken; [apply bytes_read_some|lia|done]. }
  assert (forall bs, m bs = (count ← part_read_varint; part_read_bytes count) bs) as Hm by done. clearbody m.
  pose proof (Hreads bytes Hb) as H. destruct (m bytes) as [[e|[body rest]]|] eqn:E; [| |done]; cbn.
  - destruct H as [[-> (more & Hmore & Hne)]|[Hfault Hmore]].
    + left. split; [done|]. exists more. split; [done|]. destruct (m (bytes ++ more)) as [[e|[]]|]; cbn; [|done..]. intros [= ->]. by apply Hne.
    + right. split; [done|]. intros more H. by rewrite Hmore.
  - destruct H as (_ & taken & Et & Hl & Hr). cbn [fst snd] in *. subst bytes.
    rewrite length_app, Nat.add_sub, take_app_length. apply Forall_app in Hb as [Hb Hrest].
    split; [|exists taken; split_and!; [done|done|]; intros rest' H; rewrite Hr by done; cbn;
      by rewrite length_app, Nat.add_sub, take_app_length].
    split; [|done]. specialize (Hr [] ltac:(done)). rewrite app_nil_r, Hm in Hr.
    unfold mbind, part_reader_bind, part_read_varint, part_read_bytes in Hr.
    destruct (read_varint taken) as [[]|[count bs]] eqn:Ev; [done..|]. cbn in Hr.
    destruct (count <=? byte_count bs) eqn:Ec; [|done]. bools. injection Hr as _ Hr.
    exists count, bs. split; [done|]. unfold byte_count in *. apply (f_equal length) in Hr. rewrite length_drop in Hr.
    simpl in Hr. lia.
Qed.

Lemma instruction_reads_some : reads_some 1 decoded_instruction read_row_instruction.
Proof.
  unfold read_row_instruction. reads; [by apply reads_some_ret..| |].
  - eapply reads_some_weaken; [by apply row_reads_some|lia|done].
  - apply reads_some_fail. intros ?. cbn. unfold KEEP_INSTRUCTION_TAG, COPY_INSTRUCTION_TAG, NEW_INSTRUCTION_TAG in *. lia.
Qed.
#[local] Hint Resolve instruction_reads_some : reads.

Lemma reads_some_ext {A} k (P : A -> Prop) (m m' : part_reader A) :
  (forall bytes, Forall is_byte bytes -> m' bytes = m bytes) -> reads_some k P m -> reads_some k P m'.
Proof.
  intros Heq Hm bytes Hb. rewrite Heq by done. pose proof (Hm bytes Hb) as H.
  destruct (m bytes) as [[e|[a rest]]|]; [| |done]; cbn in *.
  - destruct H as [[-> (more & Hmore & Hne)]|[Hfault Hmore]]; [left|right]; split; [done| |done|].
    + exists more. split; [done|]. by rewrite Heq by (by apply Forall_app).
    + intros more H. rewrite Heq by (by apply Forall_app). by apply Hmore.
  - destruct H as (Ha & taken & -> & Hl & Hr). split; [done|]. exists taken. split_and!; [done|done|].
    intros rest' H. apply Forall_app in Hb as [Hb _]. rewrite Heq by (by apply Forall_app). by apply Hr.
Qed.

(** A count of values that each take a byte is read in as many rounds as there
    are bytes: more fuel changes nothing. *)
Lemma times_fuel {A} (P : A -> Prop) (step : part_reader A) fuel fuel' count bytes :
  reads_some 1 P step -> Forall is_byte bytes -> (length bytes < fuel)%nat -> (length bytes < fuel')%nat ->
  read_times fuel count step bytes = read_times fuel' count step bytes.
Proof.
  intros Hstep. revert fuel' count bytes.
  induction fuel as [|fuel IH]; intros [|fuel'] count bytes Hb Hf Hf'; [lia..|].
  cbn [read_times]. destruct (count =? 0); [done|]. unfold mbind, part_reader_bind.
  pose proof (Hstep bytes Hb) as H. destruct (step bytes) as [[e|[a rest]]|]; [done| |done]. cbn in *.
  destruct H as (_ & taken & -> & Hl & _). rewrite length_app in *. apply Forall_app in Hb as [_ Hb].
  by rewrite (IH fuel' _ rest) by (done || lia).
Qed.

Lemma sequence_reads_some {A} (P : A -> Prop) (step : part_reader A) count :
  reads_some 1 P step ->
  reads_some 0 (fun values => Forall P values /\ count = N.of_nat (length values)) (read_sequence count step).
Proof.
  intros Hstep. induction count as [|count IH] using N.peano_ind; [by apply reads_some_ret|].
  apply (reads_some_ext _ _ (a ← step; values ← read_sequence count step; part_ret (a :: values))).
  { intros bytes Hb. unfold read_sequence at 1. cbn [read_times]. rewrite (proj2 (N.eqb_neq _ _)) by lia.
    unfold mbind, part_reader_bind. pose proof (Hstep bytes Hb) as H.
    destruct (step bytes) as [[e|[a rest]]|]; [done| |done]. cbn in *.
    destruct H as (_ & taken & -> & Hl & _). rewrite length_app in *. apply Forall_app in Hb as [_ Hb].
    unfold read_sequence. replace (N.succ count - 1) with count by lia.
    by rewrite (times_fuel P step _ (S (length rest)) count rest) by (done || lia). }
  eapply reads_some_then; [exact Hstep|lia|intros a Ha].
  eapply reads_some_then; [exact IH|lia|intros values [Hv ->]].
  apply reads_some_ret. split; [by constructor|]. cbn [length]. lia.
Qed.

(** The flags of a byte, bit by bit. *)
Lemma byte_cases (test : N -> bool) b :
  forallb (fun n => test (N.of_nat n)) (seq 0 256) = true -> is_byte b -> test b = true.
Proof.
  intros H Hb. rewrite forallb_forall in H. specialize (H (N.to_nat b)). rewrite N2Nat.id in H.
  apply H. apply in_seq. unfold is_byte, U8_MODULUS in Hb. lia.
Qed.

Lemma flag_bits b : is_byte b ->
  has_flag b (N.shiftl 1 0) = N.testbit b 0 /\ has_flag b (N.shiftl 1 1) = N.testbit b 1
  /\ has_flag b (N.shiftl 1 2) = N.testbit b 2
  /\ has_unknown_flag b 7 = (8 <=? b) /\ has_unknown_flag b 3 = (4 <=? b).
Proof.
  intros Hb. split_and!; apply Bool.eqb_prop;
    [apply (byte_cases (fun b => Bool.eqb (has_flag b (N.shiftl 1 0)) (N.testbit b 0)))
    |apply (byte_cases (fun b => Bool.eqb (has_flag b (N.shiftl 1 1)) (N.testbit b 1)))
    |apply (byte_cases (fun b => Bool.eqb (has_flag b (N.shiftl 1 2)) (N.testbit b 2)))
    |apply (byte_cases (fun b => Bool.eqb (has_unknown_flag b 7) (8 <=? b)))
    |apply (byte_cases (fun b => Bool.eqb (has_unknown_flag b 3) (4 <=? b)))]; done.
Qed.

Lemma window_reads_some flags :
  is_byte flags ->
  reads_some 0 (fun window => forall w, window = Some w ->
    window_column_count w <= U16_MAX /\ window_row_count w <= U16_MAX /\ is_u64 (view_row_offset w))
    (read_pane_window flags).
Proof.
  intros Hb. destruct (flag_bits flags Hb) as (_ & F1 & F2 & _). unfold read_pane_window.
  unfold SECTION_HAS_WINDOW_FLAG, SECTION_RESETS_ROWS_FLAG. rewrite F1, F2. reads.
  - apply reads_some_ret. by intros w [= <-].
  - apply reads_some_fail. intros ?. right. left. split; [done|]. right. right. by split.
  - by apply reads_some_ret.
Qed.
#[local] Hint Resolve window_reads_some : reads.

Lemma header_reads_some flags : is_byte flags -> reads_some 1 PaneHeader_wf (read_pane_header flags).
Proof.
  intros Hb. unfold read_pane_header. reads; [|apply reads_some_ret; by split].
  apply reads_some_fail. intros ?. right. right. split; [done|].
  match goal with H : is_byte ?c, H' : has_unknown_flag ?c _ = true |- _ =>
    destruct (flag_bits c H) as (_ & _ & _ & _ & F); change (N.lor _ _) with 3 in H'; rewrite F in H'; by apply N.leb_le in H' end.
Qed.
#[local] Hint Resolve header_reads_some : reads.

Lemma from_be_bytes_bound bytes :
  Forall is_byte bytes -> from_be_bytes bytes < U8_MODULUS ^ N.of_nat (length bytes).
Proof.
  unfold from_be_bytes. induction bytes as [|b bytes IH] using rev_ind; [done|]. intros H.
  apply Forall_app in H as [Hbs Hb]. apply Forall_cons in Hb as [Hb _]. rewrite foldl_app, length_app. cbn [foldl length].
  rewrite Nat.add_1_r, Nat2N.inj_succ, N.pow_succ_r'. specialize (IH Hbs). unfold is_byte in Hb.
  apply N.lt_le_trans with ((foldl (fun x b => x * U8_MODULUS + b) 0 bytes + 1) * U8_MODULUS). { lia. }
  rewrite (N.mul_comm U8_MODULUS). apply N.mul_le_mono_r. lia.
Qed.

(** A section as it was read. *)
Record decoded_section (s : PaneSection) : Prop :=
  { ds_id : section_pane_id s < U8_MODULUS ^ 16;
    ds_header h : section_header s = Some h -> PaneHeader_wf h;
    ds_instructions : Forall decoded_instruction (section_instructions s) }.

Lemma section_reads_some : reads_some 1 decoded_section read_pane_section.
Proof.
  unfold read_pane_section. eapply reads_some_then; [apply (bytes_read_some 16)|simpl; lia|]. intros id [Hid Hb].
  assert (from_be_bytes id < U8_MODULUS ^ 16) as Hlt.
  { pose proof (from_be_bytes_bound id Hb) as H. unfold byte_count in Hid. by rewrite Hid in H. }
  eapply reads_some_then; [apply byte_reads_some|lia|]. intros flags Hflags. cbv zeta.
  destruct (flag_bits flags Hflags) as (F0 & _ & _ & F7 & _). change (N.lor SECTION_OPENS_PANE_FLAG _) with 7.
  unfold SECTION_OPENS_PANE_FLAG. rewrite F0, F7.
  destruct (_ || _) eqn:E.
  { apply reads_some_fail. intros ?. right. left. split; [done|]. apply orb_true_iff in E as [E|E]; bools; [by left|right; left; by split]. }
  eapply (reads_some_then 0 0 (fun header => forall h, header = Some h -> PaneHeader_wf h)); [|lia|].
  { reads; apply reads_some_ret; [|done]. by intros h [= <-]. }
  intros header Hh. eapply reads_some_then; [apply varint_reads_some|lia|]. intros count _.
  eapply reads_some_then; [by apply sequence_reads_some, instruction_reads_some|lia|]. intros is_ [H _].
  apply reads_some_ret. by split.
Qed.

(** ** Payloads *)

(** The bytes of an image chunk's head. *)
Lemma image_head_length transfer_id offset is_last :
  length (build_image_chunk_frame_head transfer_id offset is_last) = IMAGE_CHUNK_FRAME_HEAD_BYTE_COUNT.
Proof.
  unfold build_image_chunk_frame_head. cbn [length]. by rewrite !length_app, !to_be_bytes_length.
Qed.

Lemma to_from_be_bytes bytes :
  Forall is_byte bytes -> to_be_bytes (length bytes) (from_be_bytes bytes) = bytes.
Proof.
  unfold from_be_bytes. induction bytes as [|b bytes IH] using rev_ind; [done|]. intros H.
  apply Forall_app in H as [Hbs Hb]. apply Forall_cons in Hb as [Hb _]. specialize (IH Hbs).
  rewrite foldl_app, length_app, Nat.add_1_r. cbn [foldl to_be_bytes]. set (x := foldl _ _ _) in *.
  rewrite N.div_add_l by done. rewrite N.div_small by done. rewrite N.add_0_r, IH.
  rewrite N.add_comm, N.Div0.mod_add, N.mod_small by done. done.
Qed.

Lemma image_chunk_reads transfer_id offset is_last chunk :
  is_u64 transfer_id -> is_u64 offset ->
  decode_image_chunk_frame (build_image_chunk_frame_head transfer_id offset is_last ++ chunk)
  = ok (MkImageChunkFrame transfer_id offset is_last
          (build_image_chunk_frame_head transfer_id offset is_last ++ chunk)).
Proof.
  intros Ht Ho. unfold decode_image_chunk_frame. cbn [app build_image_chunk_frame_head].
  rewrite <- !app_assoc. pose proof (to_be_bytes_length 8 transfer_id) as L1. pose proof (to_be_bytes_length 8 offset) as L2.
  rewrite length_app, L1. cbn [Nat.ltb Nat.leb Nat.add]. rewrite drop_app_length' by done. rewrite length_app, L2.
  cbn [Nat.ltb Nat.leb Nat.add]. rewrite drop_app_length' by done. rewrite !take_app_length' by done. cbn [app].
  rewrite !be_bytes_round_trip by done. by destruct is_last.
Qed.

Lemma image_chunk_shape payload f :
  Forall is_byte payload -> head payload = Some IMAGE_CHUNK_FRAME_KIND -> decode_image_chunk_frame payload = ok f ->
  is_u64 (image_transfer_id f) /\ is_u64 (byte_offset f) /\ frame_payload f = payload
  /\ payload = build_image_chunk_frame_head (image_transfer_id f) (byte_offset f) (is_last_chunk f) ++ get_chunk_bytes f.
Proof.
  intros Hb Hk Hd. destruct payload as [|kind after]; [done|]. injection Hk as ->. apply Forall_cons in Hb as [_ Hb].
  unfold decode_image_chunk_frame in Hd. destruct (length after <? 8)%nat eqn:E1; [done|]. apply Nat.ltb_ge in E1.
  rewrite <- (take_drop 8 after) in Hb. set (id := take 8 after) in *. set (after1 := drop 8 after) in *.
  assert (length id = 8%nat) as Lid by (unfold id; rewrite length_take; lia).
  destruct (length after1 <? 8)%nat eqn:E2; [done|]. apply Nat.ltb_ge in E2.
  rewrite <- (take_drop 8 after1) in Hb. set (offset := take 8 after1) in *.
  assert (length offset = 8%nat) as Lo by (unfold offset; rewrite length_take; lia).
  apply Forall_app in Hb as [Bid Hb]. apply Forall_app in Hb as [Bo _].
  destruct (drop 8 after1) as [|flag chunk] eqn:E3; [done|].
  pose proof (from_be_bytes_bound id Bid) as U1. pose proof (from_be_bytes_bound offset Bo) as U2.
  pose proof (to_from_be_bytes id Bid) as T1. pose proof (to_from_be_bytes offset Bo) as T2.
  rewrite Lid in U1, T1. rewrite Lo in U2, T2.
  assert (exists is_last : bool, flag = (if is_last then 1 else 0)
    /\ f = MkImageChunkFrame (from_be_bytes id) (from_be_bytes offset) is_last (IMAGE_CHUNK_FRAME_KIND :: after))
    as (is_last & -> & ->).
  { destruct (flag =? 0) eqn:F0; bools; [exists false; split; [done|by injection Hd as <-]|].
    destruct (flag =? 1) eqn:F1; bools; [exists true; split; [done|by injection Hd as <-]|done]. }
  assert (after = id ++ offset ++ (if is_last then 1 else 0) :: chunk) as Ea.
  { unfold offset. rewrite <- E3, take_drop. unfold id, after1. by rewrite take_drop. }
  split_and!; [done|done|done|]. unfold get_chunk_bytes, build_image_chunk_frame_head.
  cbn [image_transfer_id byte_offset is_last_chunk frame_payload]. rewrite T1, T2, Ea. cbn [app]. f_equal.
  rewrite <- !app_assoc. do 3 f_equal. change IMAGE_CHUNK_FRAME_HEAD_BYTE_COUNT with (1 + (8 + (8 + 1)))%nat.
  symmetry. set (flag := if is_last then 1 else 0).
  assert (IMAGE_CHUNK_FRAME_KIND :: id ++ offset ++ flag :: chunk
    = (IMAGE_CHUNK_FRAME_KIND :: id ++ offset ++ [flag]) ++ chunk) as -> by (cbn [app]; by rewrite <- !app_assoc).
  apply drop_app_length'. cbn [length]. rewrite !length_app, Lid, Lo. done.
Qed.

(** *** Painted parts *)

Abbreviation decode := (decode_session_binary_frame parse_painted_frame parse_placement_preview).

Lemma reads_some_assoc {A B C} k (P : C -> Prop) (m : part_reader A) (f : A -> part_reader B) (g : B -> part_reader C) :
  reads_some k P ((m ≫= f) ≫= g) -> reads_some k P (m ≫= fun a => f a ≫= g).
Proof.
  apply reads_some_ext. intros bytes _. unfold mbind, part_reader_bind. by destruct (m bytes) as [[]|].
Qed.

(** A structure: absent when it has no bytes, else what the library makes of
    them. *)
Definition read_structure {A B} (parse : list N -> string + A) (absent : B) (present : A -> B) (json : list N) : part_reader B :=
  if bool_decide (json = []) then part_ret absent
  else a ← parse_structure_json parse json; part_ret (present a).

Lemma structure_outcome {A B} (parse : list N -> string + A) (absent : B) (present : A -> B) json :
  (exists b, forall bytes, read_structure parse absent present json bytes = ok (b, bytes))
  \/ (exists detail, parse json = inl detail
        /\ forall bytes, read_structure parse absent present json bytes = failed (MalformedStructure detail)).
Proof.
  unfold read_structure, parse_structure_json. case_bool_decide; [left; by eexists|].
  destruct (parse json) as [detail|a] eqn:E; [right; by exists detail|left; by exists (present a)].
Qed.

Lemma structure_reads_some {A B} (parse : list N -> string + A) n (absent : B) (present : A -> B) :
  (forall json detail, parse json = inl detail ->
     parse_painted_frame json = inl detail \/ parse_placement_preview json = inl detail) ->
  reads_some 0 (fun _ => True) (json ← part_read_bytes n; read_structure parse absent present json).
Proof.
  intros Hparse bytes Hb. pose proof (bytes_read_some n bytes Hb) as H.
  destruct (part_read_bytes n bytes) as [[e|[json rest]]|] eqn:E; [| |done];
    unfold mbind, part_reader_bind; rewrite E; cbn in *.
  - destruct H as [[-> (more & Hmore & Hne)]|[Hfault Hmore]].
    + left. split; [done|]. exists more. split; [done|]. unfold mbind, part_reader_bind.
      destruct (part_read_bytes n (bytes ++ more)) as [[e|[json rest]]|]; cbn; [intros [= ->]; by apply Hne| |done].
      destruct (structure_outcome parse absent present json) as [[b ->]|(detail & _ & ->)]; done.
    + right. split; [done|]. intros more H. unfold mbind, part_reader_bind. by rewrite Hmore.
  - destruct H as (_ & taken & -> & _ & Hr).
    destruct (structure_outcome parse absent present json) as [[b Hok]|(detail & Hd & Hfail)].
    + rewrite Hok. split; [done|]. exists taken. split_and!; [done|lia|]. intros rest' H.
      unfold mbind, part_reader_bind. rewrite Hr by done. cbn. by rewrite Hok.
    + rewrite Hfail. right. split.
      * exists [], json, rest. split; [|by apply Hparse]. unfold part_read_bytes in E.
        case_match; [|done]. injection E as E1 E2. pose proof (take_drop (N.to_nat n) (taken ++ rest)) as T. by rewrite E1, E2 in T.
      * intros more H. apply Forall_app in Hb as [_ Hb]. unfold mbind, part_reader_bind.
        rewrite <- app_assoc, Hr by (by apply Forall_app). cbn. by rewrite Hfail.
Qed.

Definition decoded_opening (o : @PaintedUpdateOpening PaintedFrame PanePlacementPreview) : Prop :=
  is_u64 (opening_sequence o).

Lemma opening_reads_some changed :
  reads_some 1 decoded_opening (read_update_opening parse_painted_frame parse_placement_preview changed).
Proof.
  unfold read_update_opening. reads_step.
  eapply reads_some_then; [apply varint_reads_some|lia|intros count _].
  apply reads_some_assoc. eapply (reads_some_then 0 0 (fun _ => True)); [|lia|intros frame _].
  { apply (structure_reads_some parse_painted_frame count None Some). by left. }
  eapply (reads_some_then 0 0 (fun _ => True)); [|lia|intros preview _; by apply reads_some_ret].
  destruct changed; [|by apply reads_some_ret].
  eapply reads_some_then; [apply varint_reads_some|lia|intros count' _].
  apply (structure_reads_some parse_placement_preview count' PreviewCleared PreviewReplaced). by right.
Qed.

(** A part as it was read. *)
Record decoded_part (p : @PaintedUpdatePart PaintedFrame PanePlacementPreview) : Prop :=
  { dp_opening o : update_opening p = Some o -> decoded_opening o;
    dp_sections : Forall decoded_section (pane_sections p) }.

Lemma part_reads_some : reads_some 1 decoded_part (read_painted_update_part parse_painted_frame parse_placement_preview).
Proof.
  unfold read_painted_update_part. eapply reads_some_then; [apply byte_reads_some|lia|intros flags Hflags]. cbv zeta.
  destruct (flag_bits flags Hflags) as (F0 & _ & F2 & F7 & _). change (N.lor PART_OPENS_UPDATE_FLAG _) with 7.
  unfold PART_OPENS_UPDATE_FLAG, PART_CHANGES_PLACEMENT_PREVIEW_FLAG. rewrite F0, F2, F7.
  destruct (_ || _) eqn:E.
  { apply reads_some_fail. intros ?. left. split; [done|]. apply orb_true_iff in E as [E|E]; bools; [by left|by right]. }
  eapply (reads_some_then 0 0 (fun opening => forall o, opening = Some o -> decoded_opening o)); [|lia|intros opening Ho].
  { destruct (N.testbit flags 0); [|by apply reads_some_ret].
    eapply reads_some_then; [apply opening_reads_some|lia|]. intros o Ho. apply reads_some_ret. by intros o' [= <-]. }
  eapply reads_some_then; [apply varint_reads_some|lia|intros count _].
  eapply reads_some_then; [apply sequence_reads_some, section_reads_some|lia|intros sections [H _]].
  apply reads_some_ret. by split.
Qed.

(** The value a payload decodes to, whatever its bytes. *)
Definition decoded_frame (payload : list N)
    (frame : @SessionBinaryFrame PaintedFrame PanePlacementPreview) : Prop :=
  match frame with
  | PaintedUpdatePartFrame p => head payload = Some PAINTED_UPDATE_FRAME_KIND /\ decoded_part p
  | ImageChunk f =>
      is_u64 (image_transfer_id f) /\ is_u64 (byte_offset f)
      /\ payload = build_image_chunk_frame_head (image_transfer_id f) (byte_offset f) (is_last_chunk f) ++ get_chunk_bytes f
  | UnknownFrame kind =>
      head payload = Some kind /\ kind <> PAINTED_UPDATE_FRAME_KIND /\ kind <> IMAGE_CHUNK_FRAME_KIND
  end.

(** Why a payload does not decode. An image chunk is shorter than its head or
    has a flag that is no boolean. A part ends too early, and some longer
    payload goes further; or it holds a fault, whatever follows; or bytes are
    left after a part that decodes alone. Other payloads fail only without a
    kind. *)
Definition payload_error (payload : list N) (e : SessionBinaryFrameDecodeError) : Prop :=
  match payload with
  | [] => e = MissingFrameKind
  | frame_kind :: part_bytes =>
      if frame_kind =? IMAGE_CHUNK_FRAME_KIND then
        (e = FrameTruncated /\ (length payload < IMAGE_CHUNK_FRAME_HEAD_BYTE_COUNT)%nat)
        \/ (exists flag, payload !! 17%nat = Some flag /\ 1 < flag /\ e = FieldOutOfRange "last_chunk_flag" flag)
      else if frame_kind =? PAINTED_UPDATE_FRAME_KIND then
        (e = FrameTruncated
           /\ exists more, Forall is_byte more /\ decode (payload ++ more) <> failed FrameTruncated)
        \/ (part_fault part_bytes e /\ forall more, Forall is_byte more -> decode (payload ++ more) = failed e)
        \/ (exists whole extra part, payload = whole ++ extra /\ extra <> []
              /\ decode whole = ok (PaintedUpdatePartFrame part) /\ e = FrameTrailingBytes (byte_count extra))
      else False
  end.

Lemma image_chunk_errors bytes :
  outcome_sat (payload_error (IMAGE_CHUNK_FRAME_KIND :: bytes)) (fun _ => True)
    (decode_image_chunk_frame (IMAGE_CHUNK_FRAME_KIND :: bytes)).
Proof.
  unfold decode_image_chunk_frame, payload_error. cbn [N.eqb Pos.eqb length].
  change (IMAGE_CHUNK_FRAME_KIND =? IMAGE_CHUNK_FRAME_KIND) with true. cbv iota.
  change IMAGE_CHUNK_FRAME_HEAD_BYTE_COUNT with 18%nat.
  destruct (length bytes <? 8)%nat eqn:E1; bools. { left. split; [done|lia]. }
  rewrite length_drop. destruct (length bytes - 8 <? 8)%nat eqn:E2; bools. { left. split; [done|lia]. }
  rewrite drop_drop. destruct (drop (8 + 8) bytes) as [|flag chunk] eqn:E3.
  { left. split; [done|]. apply (f_equal length) in E3. rewrite length_drop in E3. simpl in E3. lia. }
  destruct (flag =? 0) eqn:E4; [done|]. destruct (flag =? 1) eqn:E5; [done|]. bools.
  right. exists flag. split_and!; [|lia|done]. change ((_ :: bytes) !! 17%nat) with (bytes !! (8 + 8 + 0)%nat).
  by rewrite <- lookup_drop, E3.
Qed.

(** The payload of a part, by what its reader does. *)
Lemma part_payload bytes :
  decode (PAINTED_UPDATE_FRAME_KIND :: bytes)
  = match read_painted_update_part parse_painted_frame parse_placement_preview bytes with
    | None => panicked
    | Some (inl e) => failed e
    | Some (inr (part, rest)) =>
        if bool_decide (rest = []) then ok (PaintedUpdatePartFrame part) else failed (FrameTrailingBytes (byte_count rest))
    end.
Proof. by destruct (read_painted_update_part _ _ bytes) as [[e|[part rest]]|] eqn:E; cbn; rewrite E. Qed.

Lemma part_payload_decodes bytes :
  Forall is_byte bytes ->
  outcome_sat (payload_error (PAINTED_UPDATE_FRAME_KIND :: bytes)) (decoded_frame (PAINTED_UPDATE_FRAME_KIND :: bytes))
    (decode (PAINTED_UPDATE_FRAME_KIND :: bytes)).
Proof.
  intros Hb. rewrite part_payload. pose proof (part_reads_some bytes Hb) as H. unfold payload_error.
  change (PAINTED_UPDATE_FRAME_KIND =? IMAGE_CHUNK_FRAME_KIND) with false.
  change (PAINTED_UPDATE_FRAME_KIND =? PAINTED_UPDATE_FRAME_KIND) with true. cbv iota. cbn [app].
  destruct (read_painted_update_part _ _ bytes) as [[e|[part rest]]|] eqn:E; [| |done]; cbn [outcome_sat ok failed] in *.
  - destruct H as [[-> (more & Hmore & Hne)]|[Hfault Hmore]].
    + left. split; [done|]. exists more. split; [done|]. rewrite part_payload.
      destruct (read_painted_update_part _ _ (bytes ++ more)) as [[e|[part rest]]|]; [|by case_bool_decide|done].
      intros [= ->]. by apply Hne.
    + right. left. split; [done|]. intros more H. by rewrite part_payload, Hmore.
  - destruct H as (Hp & taken & -> & _ & Hr). cbn [fst snd] in *. case_bool_decide as Hrest; cbn [outcome_sat ok failed].
    + by split.
    + right. right. exists (PAINTED_UPDATE_FRAME_KIND :: taken), rest, part. split_and!; [done|done| |done].
      specialize (Hr [] ltac:(done)). rewrite app_nil_r in Hr. by rewrite part_payload, Hr.
Qed.

Lemma unknown_payload kind bytes :
  kind <> PAINTED_UPDATE_FRAME_KIND -> kind <> IMAGE_CHUNK_FRAME_KIND -> decode (kind :: bytes) = ok (UnknownFrame kind).
Proof.
  intros H1 H2. unfold decode_session_binary_frame.
  by rewrite (proj2 (N.eqb_neq _ _) H2), (proj2 (N.eqb_neq _ _) H1).
Qed.

Lemma payload_decodes payload :
  Forall is_byte payload -> outcome_sat (payload_error payload) (decoded_frame payload) (decode payload).
Proof.
  intros Hb. destruct payload as [|kind bytes]; [done|].
  destruct (decide (kind = IMAGE_CHUNK_FRAME_KIND)) as [->|H1].
  - unfold decode_session_binary_frame. change (IMAGE_CHUNK_FRAME_KIND =? IMAGE_CHUNK_FRAME_KIND) with true. cbv iota.
    pose proof (image_chunk_errors bytes) as Hn.
    destruct (decode_image_chunk_frame _) as [[e|f]|] eqn:E; [exact Hn| |done].
    by destruct (image_chunk_shape _ _ Hb eq_refl E) as (H1 & H2 & _ & H3).
  - destruct (decide (kind = PAINTED_UPDATE_FRAME_KIND)) as [->|H2].
    + apply part_payload_decodes. by apply Forall_cons in Hb as [_ Hb].
    + rewrite unknown_payload by done. by split_and!.
Qed.
End parts.
