(* ===== verification/PaintedContract.v ===== *)
(** * What painted updates promise on the wire

    The sections of an update join to its panes again; the errors of the
    encoder, and what the decoder does with any payload. *)

From S2P Require Import Prelude Varint PaintedUpdate PaintedWire PaintedParts PaintedDecode.
From stdpp Require Import strings options.
#[local] Open Scope N_scope.

(** ** Joining the sections of an update *)

(** A section with a header opens a pane, one without goes on with the last
    pane, which is its own. *)
Definition join_section (panes : option (list PaneUpdate)) (s : PaneSection) : option (list PaneUpdate) :=
  panes ← panes;
  match section_header s, last panes with
  | Some h, _ => Some (panes ++ [MkPaneUpdate (section_pane_id s) h (section_instructions s)])
  | None, Some u =>
      if section_pane_id s =? update_pane_id u
      then Some (take (pred (length panes)) panes
                   ++ [MkPaneUpdate (update_pane_id u) (update_header u) (update_instructions u ++ section_instructions s)])
      else None
  | None, None => None
  end.

Definition join_sections (sections : list PaneSection) : option (list PaneUpdate) :=
  foldl join_section (Some []) sections.

Lemma join_pane base pane_id h instructions sections :
  pane_split pane_id h instructions sections ->
  foldl join_section (Some base) sections = Some (base ++ [MkPaneUpdate pane_id h instructions]).
Proof.
  induction 1 as [is1|is1 is2 sections _ IH]; [done|]. rewrite foldl_app, IH. cbn [foldl].
  unfold join_section. cbn [mbind option_bind section_header section_pane_id section_instructions].
  rewrite last_snoc. cbn [update_pane_id update_header update_instructions]. rewrite N.eqb_refl.
  rewrite length_app, Nat.add_1_r. cbn [pred]. by rewrite take_app_length.
Qed.

Lemma join_split panes sections : update_split panes sections -> join_sections sections = Some panes.
Proof.
  intros (split & H & ->). unfold join_sections.
  assert (forall base, foldl join_section (Some base) (concat split) = Some (base ++ panes)) as Hgo; [|by apply Hgo].
  induction H as [|u sections panes split Hu _ IH]; intros base; [by rewrite app_nil_r|].
  cbn [concat]. rewrite foldl_app, (join_pane base _ _ _ _ Hu), IH, <- app_assoc. by destruct u.
Qed.

(** ** The rows that do not fit *)

(** The bytes of a row that a part of its own has no room for. *)
Definition row_too_large (maximum : N) (row : list N) : Prop :=
  maximum < PART_FRAME_BYTE_COUNT + SECTION_FRAME_BYTE_COUNT + 2 + byte_count row.

Lemma too_large_row maximum i :
  128 <= maximum -> RowInstruction_wf i -> too_large maximum i ->
  exists row, i = New row /\ row_too_large maximum row /\ byte_count (encode_row_instruction i) - 1 = byte_count row.
Proof.
  assert (forall v, v <= U16_MAX -> byte_count (write_varint v) <= 10) as H16.
  { intros v Hv. apply varint_byte_count. unfold is_u64, U64_MODULUS. lia. }
  unfold too_large. intros Hmax Hwf Hlarge.
  unfold PART_FRAME_BYTE_COUNT, SECTION_FRAME_BYTE_COUNT, MAX_VARINT_BYTE_COUNT in *.
  destruct i as [n|source n|row]; cbn [encode_row_instruction RowInstruction_wf] in *; rewrite frame_bytes_cons in *.
  - pose proof (H16 n). lia.
  - rewrite frame_bytes_app in Hlarge. pose proof (H16 source). pose proof (H16 n). lia.
  - exists row. unfold row_too_large, PART_FRAME_BYTE_COUNT, SECTION_FRAME_BYTE_COUNT, MAX_VARINT_BYTE_COUNT. split_and!; [done|lia|lia].
Qed.

Lemma row_too_large_iff maximum row : too_large maximum (New row) <-> row_too_large maximum row.
Proof. unfold too_large, row_too_large. cbn [encode_row_instruction]. rewrite frame_bytes_cons. lia. Qed.

(** ** The update in its parts *)

Section updates.
Context {PaintedFrame PanePlacementPreview : Type}.
Context (parse_painted_frame : list N -> string + PaintedFrame).
Context (parse_placement_preview : list N -> string + PanePlacementPreview).
Abbreviation decode := (decode_session_binary_frame parse_painted_frame parse_placement_preview).

(** Payloads of at most [maximum] bytes that read back as the parts of the
    update. *)
Record payloads_read (maximum : N) (o : @PaintedUpdateOpening PaintedFrame PanePlacementPreview)
    (panes : list PaneUpdate) (payloads : list (list N)) (groups : list (list PaneSection)) : Prop :=
  { pr_parts : payloads <> [];
    pr_small : Forall (fun payload => byte_count payload <= maximum) payloads;
    pr_split : update_split panes (concat groups);
    pr_panes : join_sections (concat groups) = Some panes;
    pr_decode : Forall2 (fun payload p => decode payload = ok (PaintedUpdatePartFrame p)) payloads (parts_of o groups) }.

Lemma closed_writer_reads update_sequence structure preview o maximum panes w groups current :
  let bytes := opening_of update_sequence structure preview in
  128 <= maximum -> is_u64 maximum -> PART_FRAME_BYTE_COUNT + byte_count bytes <= maximum ->
  opening_decodes parse_painted_frame parse_placement_preview update_sequence structure preview o ->
  writer_holds (opening_flags_of preview) bytes maximum w groups current ->
  update_split panes (concat groups ++ current) ->
  payloads_read maximum o panes (part_payloads (close_part true w)) (groups ++ [current]).
Proof.
  intros bytes Hmax Hu Hopening Ho Hw Hsplit.
  pose proof (current_counted _ _ _ Hopening (conj Hmax Hu) _ _ _ Hw) as Hcount.
  rewrite (close_payload _ _ _ Hopening true _ _ _ Hw).
  pose proof (payload_small _ _ _ Hopening true _ _ _ Hw Hcount) as Hsmall.
  destruct Hw as [_ _ H3 _ _ _ [H7 H7'] _ H9 H10]. split.
  - by destruct (part_payloads w).
  - apply Forall_app. by split; [|constructor].
  - rewrite concat_app. cbn [concat]. by rewrite app_nil_r.
  - apply join_split. rewrite concat_app. cbn [concat]. by rewrite app_nil_r.
  - rewrite H3. by apply closed_decode.
Qed.

Lemma painted_update_reads update_sequence structure preview o maximum panes payloads :
  128 <= maximum -> is_u64 maximum -> Forall PaneUpdate_wf panes ->
  opening_decodes parse_painted_frame parse_placement_preview update_sequence structure preview o ->
  encode_painted_update_in_parts update_sequence structure preview panes maximum = ok payloads ->
  exists groups, payloads_read maximum o panes payloads groups.
Proof.
  intros Hmax Hu Hwf Ho Hencode.
  destruct (encode_in_parts_cases update_sequence structure preview panes maximum Hmax Hu Hwf)
    as [[_ E]|[Hopening [(e & E & _)|(_ & w & groups & current & Hw & Hsplit & E)]]]; rewrite E in Hencode; [done..|].
  injection Hencode as <-.
  exists (groups ++ [current]). by eapply closed_writer_reads.
Qed.

(** C8: A painted update round-trips through its frames. When the encoder
    returns the payloads of an update, each of them is within the byte limit
    and reads back as a part, the first part alone carrying the update's
    number, structure and preview and the last alone ending it; the sections of
    the parts, joined in order, are the panes of the update with the same
    headers and the same instructions. *)
Theorem painted_updates_round_trip update_sequence structure preview o maximum panes payloads :
  128 <= maximum -> is_u64 maximum -> Forall PaneUpdate_wf panes ->
  opening_decodes parse_painted_frame parse_placement_preview update_sequence structure preview o ->
  encode_painted_update_in_parts update_sequence structure preview panes maximum = ok payloads ->
  exists groups, payloads_read maximum o panes payloads groups.
Proof. apply painted_update_reads. Qed.

(** The encoder fails exactly when something cannot fit. It never panics;
    it reports the structure when the opening of the update is larger than a
    part, with both byte counts; otherwise it reports the first row, in the
    order of the panes, that a part of its own cannot hold, with its byte
    count; and with no such row it returns payloads. *)
Theorem painted_update_errors_are_exact update_sequence structure preview maximum panes :
  128 <= maximum -> is_u64 maximum -> Forall PaneUpdate_wf panes ->
  let opening_fits :=
    PART_FRAME_BYTE_COUNT + byte_count (opening_of update_sequence structure preview) <= maximum in
  let fits i := match i with New row => ~ row_too_large maximum row | _ => True end in
  match encode_painted_update_in_parts update_sequence structure preview panes maximum with
  | None => False
  | Some (inr _) => opening_fits /\ Forall fits (panes ≫= update_instructions)
  | Some (inl (StructureTooLarge structure_bytes preview_bytes)) =>
      ~ opening_fits /\ structure_bytes = byte_count (default [] structure)
      /\ preview_bytes = byte_count (default [] (preview_json_bytes preview))
  | Some (inl (RowTooLarge row_bytes)) =>
      opening_fits /\ exists before row after,
        (panes ≫= update_instructions) = before ++ New row :: after
        /\ Forall fits before /\ row_too_large maximum row /\ row_bytes = byte_count row
  end.
Proof.
  intros Hmax Hu Hwf opening_fits fits.
  assert (forall i, RowInstruction_wf i -> ~ too_large maximum i -> fits i) as Hfits.
  { intros [| |row] _ H; [done..|]. cbn. by rewrite <- row_too_large_iff. }
  assert (Forall RowInstruction_wf (panes ≫= update_instructions)) as Hall.
  { apply Forall_bind. eapply Forall_impl; [exact Hwf|]. intros u Huw. apply Huw. }
  assert (forall l, Forall RowInstruction_wf l -> Forall (fun i => ~ too_large maximum i) l -> Forall fits l) as Hlist.
  { intros l H1 H2. rewrite Forall_forall in *. intros i Hi. apply Hfits; auto. }
  destruct (encode_in_parts_cases update_sequence structure preview panes maximum Hmax Hu Hwf)
    as [[Hlarge ->]|[Hopening [(e & -> & before & i & after & E & Hb & Hi & ->)|(H & w & groups & current & _ & _ & ->)]]].
  - simpl. split; [unfold opening_fits; lia|done].
  - simpl. split; [done|]. rewrite E in Hall. apply Forall_app in Hall as [W1 W2]. apply Forall_cons in W2 as [W2 _].
    destruct (too_large_row maximum i Hmax W2 Hi) as (row & -> & Hrow & El). exists before, row, after. auto.
  - split; [done|]. by apply Hlist.
Qed.

(** C23: Every payload decodes to a frame within its types or to the error it
    deserves. On any bytes the decoder ends without a panic. A part it returns
    holds only headers and instructions a well-formed update can hold: row
    counts of 1 to 65535, numbers of their widths, rows that open with the
    count of their other bytes. An image chunk it returns is its head and its
    chunk, byte for byte. Any other kind byte is reported as unknown, never as
    an error. The only error of a payload without bytes is that its kind is
    missing, and no other payload has it. An image chunk fails because it is
    shorter than its head, or because its last flag, which the error carries,
    is neither 0 nor 1. A part fails with [FrameTruncated] only where a longer
    payload goes further; with a varint, field, flag, instruction or structure
    error only for a fault of that kind (for a field or flag error, a value
    that field cannot hold), and then however it goes on; and for trailing
    bytes only when what precedes them decodes alone, with their count. *)
Theorem every_payload_decodes payload :
  Forall is_byte payload ->
  outcome_sat (payload_error parse_painted_frame parse_placement_preview payload) (decoded_frame payload) (decode payload)
  /\ (payload = [] -> decode payload = failed MissingFrameKind)
  /\ (forall frame_kind bytes, payload = frame_kind :: bytes ->
       frame_kind <> PAINTED_UPDATE_FRAME_KIND -> frame_kind <> IMAGE_CHUNK_FRAME_KIND ->
       decode payload = ok (UnknownFrame frame_kind)).
Proof.
  intros Hb. split_and!; [by apply payload_decodes|by intros ->|]. intros frame_kind bytes ->. apply unknown_payload.
Qed.

(** An image chunk reads back from its frame: the payload that starts with
    the head of a chunk decodes to that chunk, and its bytes are what follows
    the head. *)
Theorem image_chunks_round_trip transfer_id offset is_last chunk :
  is_u64 transfer_id -> is_u64 offset ->
  let payload := build_image_chunk_frame_head transfer_id offset is_last ++ chunk in
  exists f, decode payload = ok (ImageChunk f)
    /\ image_transfer_id f = transfer_id /\ byte_offset f = offset /\ is_last_chunk f = is_last
    /\ get_chunk_bytes f = chunk.
Proof.
  intros Ht Ho payload. exists (MkImageChunkFrame transfer_id offset is_last payload).
  pose proof (image_chunk_reads transfer_id offset is_last chunk Ht Ho) as E.
  fold payload in E. split_and!; [|done..|].
  - unfold decode_session_binary_frame. change payload with (IMAGE_CHUNK_FRAME_KIND :: tail payload) at 1.
    cbv iota. change (IMAGE_CHUNK_FRAME_KIND =? IMAGE_CHUNK_FRAME_KIND) with true. cbv iota. by rewrite E.
  - unfold get_chunk_bytes. cbn [frame_payload]. apply drop_app_length'. symmetry. apply image_head_length.
Qed.
End updates.

(** ** Witnesses *)

(** A parser that takes any bytes. *)
Definition example_parse (bytes : list N) : string + list N := inr bytes.

Definition example_row : list N := write_varint 3 ++ [0; 65; 1].

Definition example_long_row : list N := write_varint 40 ++ replicate 40 7.

Definition example_header : PaneHeader :=
  MkPaneHeader (MkPaneCursor 2 7 true false (Some Underline)) 40 1000 (Some (MkPaneWindow 80 24 300 true)).

Definition example_panes : list PaneUpdate :=
  [MkPaneUpdate 5 example_header [Keep 2; Copy 4 3; New example_row; New example_row];
   MkPaneUpdate 9 example_header [New example_row; New example_long_row; New example_row]].

Lemma example_header_wf : PaneHeader_wf example_header.
Proof. split; try done. by intros w [= <-]. Qed.

Lemma example_panes_wf : Forall PaneUpdate_wf example_panes.
Proof.
  assert (row_framed example_row) as Hrow by (by exists [0; 65; 1]).
  assert (row_framed example_long_row) as Hlong by (by exists (replicate 40 7)).
  pose proof example_header_wf as Hh.
  assert (forall id instructions, id < U8_MODULUS ^ 16 -> Forall RowInstruction_wf instructions ->
    PaneUpdate_wf (MkPaneUpdate id example_header instructions)) as Hu by done.
  apply Forall_cons; split; [|apply Forall_singleton]; apply Hu; try done;
    repeat (apply Forall_cons; split; [done|]); apply Forall_nil_2.
Qed.

Lemma painted_updates_round_trip_witness :
  exists payloads groups,
    encode_painted_update_in_parts 12 (Some [123; 125]) PreviewCleared example_panes 128 = ok payloads
    /\ length payloads = 2%nat
    /\ payloads_read example_parse example_parse 128
         (MkPaintedUpdateOpening 12 (Some [123; 125]) PreviewCleared) example_panes payloads groups.
Proof.
  destruct (encode_painted_update_in_parts 12 (Some [123; 125]) PreviewCleared example_panes 128) as [[|payloads]|] eqn:E;
    [vm_compute in E; discriminate| |vm_compute in E; discriminate].
  destruct (painted_updates_round_trip example_parse example_parse 12 (Some [123; 125]) PreviewCleared
    (MkPaintedUpdateOpening 12 (Some [123; 125]) PreviewCleared) 128 example_panes payloads) as [groups H].
  - done.
  - done.
  - apply example_panes_wf.
  - split; [done|split_and!; [done|done|by eexists]|done].
  - exact E.
  - exists payloads, groups. split; [done|]. split; [|exact H].
    vm_compute in E. injection E as <-. reflexivity.
Defined.

Lemma painted_update_errors_are_exact_witness :
  encode_painted_update_in_parts 12 None PreviewUnchanged
    [MkPaneUpdate 5 example_header [Keep 2; New (write_varint 120 ++ replicate 120 7)]] 128
    = failed (RowTooLarge 121)
  /\ row_too_large 128 (write_varint 120 ++ replicate 120 7).
Proof.
  pose proof (painted_update_errors_are_exact 12 None PreviewUnchanged 128
    [MkPaneUpdate 5 example_header [Keep 2; New (write_varint 120 ++ replicate 120 7)]]) as H.
  assert (encode_painted_update_in_parts 12 None PreviewUnchanged
    [MkPaneUpdate 5 example_header [Keep 2; New (write_varint 120 ++ replicate 120 7)]] 128
    = failed (RowTooLarge 121)) as E by (vm_compute; reflexivity).
  split; [exact E|]. rewrite E in H. destruct H as (_ & before & row & after & Eq & _ & Hr & _).
  - done.
  - done.
  - apply Forall_singleton. split; [done|apply example_header_wf|].
    apply Forall_cons; split; [done|]. apply Forall_singleton. by exists (replicate 120 7).
  - destruct before as [|? [|? [|? ?]]]; cbn in Eq; injection Eq; try discriminate; intros; by subst.
Defined.

(** A part, the same with a byte more, with an instruction of no known tag,
    one that ends too early, and a payload of another kind. *)
Lemma every_payload_decodes_witness :
  decoded_frame [1; 2; 0] (PaintedUpdatePartFrame (MkPaintedUpdatePart (PaintedFrame := list N) (PanePlacementPreview := list N) None true []))
  /\ payload_error example_parse example_parse [1; 2; 0; 9] (FrameTrailingBytes 1)
  /\ payload_error example_parse example_parse (1 :: 2 :: 1 :: replicate 16 0 ++ [0; 1; 7]) (UnknownRowInstruction 7)
  /\ payload_error example_parse example_parse [1; 2] FrameTruncated
  /\ decode_session_binary_frame example_parse example_parse [77; 2; 0] = ok (UnknownFrame 77).
Proof.
  pose proof (every_payload_decodes example_parse example_parse [1; 2; 0] ltac:(repeat constructor)) as [H1 _].
  pose proof (every_payload_decodes example_parse example_parse [1; 2; 0; 9] ltac:(repeat constructor)) as [H2 _].
  pose proof (every_payload_decodes example_parse example_parse (1 :: 2 :: 1 :: replicate 16 0 ++ [0; 1; 7]) ltac:(repeat constructor)) as [H3 _].
  pose proof (every_payload_decodes example_parse example_parse [1; 2] ltac:(repeat constructor)) as [H4 _].
  pose proof (every_payload_decodes example_parse example_parse [77; 2; 0] ltac:(repeat constructor)) as (_ & _ & H5).
  split_and!; [exact H1|exact H2|exact H3|exact H4|]. by apply (H5 77 [2; 0]).
Defined.

Lemma image_chunks_round_trip_witness :
  exists f, decode_session_binary_frame example_parse example_parse
              (build_image_chunk_frame_head 7 1048576 true ++ [255; 0; 0; 255]) = ok (ImageChunk f)
    /\ image_transfer_id f = 7 /\ byte_offset f = 1048576 /\ is_last_chunk f = true
    /\ get_chunk_bytes f = [255; 0; 0; 255].
Proof. apply (image_chunks_round_trip example_parse example_parse); reflexivity. Defined.
