(* ===== verification/PaintedSender.v ===== *)
(** * The writer of painted updates
    ([crates/koshi-runtime/src/runtime/painted_update.rs])

    [PaintedUpdateSender]: what one connection's writer sent last, and the
    update that turns it into the next snapshot. An [Arc] is a value with the
    address it lives at, and [Arc::ptr_eq] compares addresses. The JSON library
    and the part of a frame that is JSON are parameters. *)

From S2P Require Import Prelude Varint Cell Snapshot PaintedUpdate.
From stdpp Require Import strings gmap options.
#[local] Open Scope N_scope.

(** ** Snapshots *)

(** [Arc<A>]. *)
Record Shared (A : Type) := MkShared { address : N; shared_value : A }.
Arguments MkShared {_} address shared_value.
Arguments address {_} _.
Arguments shared_value {_} _.

Definition ptr_eq {A} (a b : Shared A) : bool := address a =? address b.

Abbreviation SharedRow := (Shared RowSnapshot).

Definition get_encoded_row_bytes (r : SharedRow) : list N := encoded_row_bytes (shared_value r).

Inductive CursorShape := CursorBlock | CursorUnderline | CursorBar.

Record CursorSnapshot := MkCursorSnapshot
  { snapshot_row_index : N;
    snapshot_column_index : N;
    is_snapshot_visible : bool;
    is_snapshot_blinking : bool;
    snapshot_shape : option CursorShape }.

Record GridView (R : Type) := MkGridView
  { view_rows : list R; view_column_count : N; grid_view_row_offset : N }.
Arguments MkGridView {_} view_rows view_column_count grid_view_row_offset.
Arguments view_rows {_} _.
Arguments view_column_count {_} _.
Arguments grid_view_row_offset {_} _.

(** The fields of a [PaneSnapshot] that an update reads. *)
Record PaneSnapshot := MkPaneSnapshot
  { snapshot_pane_id : N;
    cursor_snapshot : CursorSnapshot;
    terminal_grid_view : option (GridView SharedRow);
    is_on_alternate_screen : bool;
    snapshot_top_row_index : N;
    snapshot_retained_line_count : N }.

(** ** One pane *)

Record SentPane := MkSentPane
  { sent_pane_header : PaneHeader;
    sent_on_alternate_screen : bool;
    sent_rows : list SharedRow }.

Definition build_pane_cursor (c : CursorSnapshot) : PaneCursor :=
  MkPaneCursor (snapshot_row_index c) (snapshot_column_index c) (is_snapshot_visible c) (is_snapshot_blinking c)
    ((fun shape => match shape with CursorBlock => Block | CursorUnderline => Underline | CursorBar => Bar end)
       <$> snapshot_shape c).

Definition row_kept (held : list SharedRow) (shown_row_index : nat) (shown_row : SharedRow) : bool :=
  match held !! shown_row_index with
  | Some held_row =>
      ptr_eq held_row shown_row
        || bool_decide (get_encoded_row_bytes held_row = get_encoded_row_bytes shown_row)
  | None => false
  end.

(** The collected map: of two rows at one address the later index stays. *)
Definition build_held_row_index (held : list SharedRow) : gmap N N :=
  foldl (fun held_row_index_by_address row => <[address row.2 := N.of_nat row.1]> held_row_index_by_address)
    ∅ (enumerate held).

(** [match row_instructions.last_mut()] of a kept row, and of a copied one. *)
Definition push_keep (row_instructions : list RowInstruction) : list RowInstruction :=
  match last row_instructions with
  | Some (Keep row_count) => removelast row_instructions ++ [Keep (row_count + 1)]
  | _ => row_instructions ++ [Keep 1]
  end.

Definition push_copy (source_row_index : N) (row_instructions : list RowInstruction) : list RowInstruction :=
  match last row_instructions with
  | Some (Copy run_source_row_index row_count) =>
      if run_source_row_index + row_count =? source_row_index
      then removelast row_instructions ++ [Copy run_source_row_index (row_count + 1)]
      else row_instructions ++ [Copy source_row_index 1]
  | _ => row_instructions ++ [Copy source_row_index 1]
  end.

(** The loop over the shown rows, the map built from the held ones. *)
Fixpoint compute_row_instructions_loop (held : list SharedRow) (held_row_index_by_address : gmap N N)
    (shown_row_index : nat) (shown : list SharedRow) (row_instructions : list RowInstruction) : list RowInstruction :=
  match shown with
  | [] => row_instructions
  | shown_row :: shown =>
      compute_row_instructions_loop held held_row_index_by_address (S shown_row_index) shown
        (if row_kept held shown_row_index shown_row then push_keep row_instructions
         else
           match held_row_index_by_address !! address shown_row with
           | Some source_row_index => push_copy source_row_index row_instructions
           | None => row_instructions ++ [New (get_encoded_row_bytes shown_row)]
           end)
  end.

Definition compute_row_instructions (held shown : list SharedRow) : list RowInstruction :=
  compute_row_instructions_loop held (build_held_row_index held) 0 shown [].

(** The rows the writer may build on: those of the same screen and size. *)
Definition held_rows (p : PaneSnapshot) (g : GridView SharedRow) (row_count : N) (sent : option SentPane)
    : option (list SharedRow) :=
  sent_pane ← sent;
  window ← pane_window (sent_pane_header sent_pane);
  if eqb (sent_on_alternate_screen sent_pane) (is_on_alternate_screen p)
     && ((window_column_count window =? view_column_count g) && (window_row_count window =? row_count))
  then Some (sent_rows sent_pane) else None.

(** [None]: a window of more rows than a [u16] counts panics. *)
Definition build_pane_update (p : PaneSnapshot) (sent : option SentPane) : option PaneUpdate :=
  '(window, row_instructions) ←
    match terminal_grid_view p with
    | None => Some (None, [])
    | Some g =>
        row_count ← u16_try_from (N.of_nat (length (view_rows g)));
        let held := held_rows p g row_count sent in
        Some (Some (MkPaneWindow (view_column_count g) row_count (grid_view_row_offset g)
                      (bool_decide (held = None))),
              compute_row_instructions (default [] held) (view_rows g))
    end;
  Some (MkPaneUpdate (snapshot_pane_id p)
    (MkPaneHeader (build_pane_cursor (cursor_snapshot p)) (snapshot_top_row_index p)
       (snapshot_retained_line_count p) window)
    row_instructions).

Definition is_keep (i : RowInstruction) : bool := match i with Keep _ => true | _ => false end.

Definition is_pane_update_unchanged (u : PaneUpdate) (sent : option SentPane) : bool :=
  match sent with
  | Some sent_pane =>
      bool_decide (sent_pane_header sent_pane = update_header u) && forallb is_keep (update_instructions u)
  | None => false
  end.

(** The record of what was sent for one pane. *)
Definition build_sent_pane (p : PaneSnapshot) (u : PaneUpdate) : SentPane :=
  let h := update_header u in
  MkSentPane
    (MkPaneHeader (header_cursor h) (view_top_row_index h) (retained_line_count h)
       ((fun w => MkPaneWindow (window_column_count w) (window_row_count w) (view_row_offset w) false) <$> pane_window h))
    (is_on_alternate_screen p)
    (match terminal_grid_view p with Some g => view_rows g | None => [] end).

(** ** The connection *)

Section sender.
Context {PaintedFrame PlacementPreview : Type}.
(** [serde_json::to_vec] of a frame, and of the preview built for the wire. *)
Context (frame_json : PaintedFrame -> list N).
Context (preview_json : PlacementPreview -> list N).

Record RenderSnapshot := MkRenderSnapshot
  { pane_snapshots : list PaneSnapshot; placement_preview : option (Shared PlacementPreview) }.

Record PaintedUpdateSender := MkPaintedUpdateSender
  { sent_structure_json_bytes : list N;
    sent_placement_preview : option (Shared PlacementPreview);
    sent_pane_by_id : gmap N SentPane;
    next_update_sequence : N }.

Definition new_sender : PaintedUpdateSender := MkPaintedUpdateSender [] None ∅ 1.

Definition get_last_update_sequence (s : PaintedUpdateSender) : N := next_update_sequence s - 1.

Definition compute_placement_preview_update (r : RenderSnapshot) (s : PaintedUpdateSender)
    : PlacementPreviewUpdate (list N) :=
  match placement_preview r, sent_placement_preview s with
  | None, None => PreviewUnchanged
  | None, Some _ => PreviewCleared
  | Some preview, Some sent_preview =>
      if ptr_eq preview sent_preview then PreviewUnchanged
      else PreviewReplaced (preview_json (shared_value preview))
  | Some preview, None => PreviewReplaced (preview_json (shared_value preview))
  end.

Definition is_preview_unchanged (u : PlacementPreviewUpdate (list N)) : bool :=
  match u with PreviewUnchanged => true | _ => false end.

(** The loop over the panes. *)
Fixpoint build_pane_updates (sent_pane_by_id : gmap N SentPane) (panes : list PaneSnapshot)
    : option (list PaneUpdate) :=
  match panes with
  | [] => Some []
  | p :: panes =>
      u ← build_pane_update p (sent_pane_by_id !! snapshot_pane_id p);
      pane_updates ← build_pane_updates sent_pane_by_id panes;
      Some (u :: pane_updates)
  end.

Definition is_every_pane_unchanged (sent_pane_by_id : gmap N SentPane) (pane_updates : list PaneUpdate) : bool :=
  forallb (fun u => is_pane_update_unchanged u (sent_pane_by_id !! update_pane_id u)) pane_updates.

Definition record_sent_panes (panes : list PaneSnapshot) (pane_updates : list PaneUpdate) : gmap N SentPane :=
  foldl (fun sent_pane_by_id pane =>
    <[snapshot_pane_id pane.1 := build_sent_pane pane.1 pane.2]> sent_pane_by_id) ∅ (zip panes pane_updates).

(** The payloads, if any, and the sender after; an error leaves it as it was. *)
Definition build_update_frames (r : RenderSnapshot) (f : PaintedFrame) (is_update_required : bool)
    (s : PaintedUpdateSender) : outcome PaintedUpdateEncodeError (option (list (list N)) * PaintedUpdateSender) :=
  let structure_json_bytes := frame_json f in
  let is_structure_unchanged := bool_decide (structure_json_bytes = sent_structure_json_bytes s) in
  let preview_update := compute_placement_preview_update r s in
  match build_pane_updates (sent_pane_by_id s) (pane_snapshots r) with
  | None => panicked
  | Some pane_updates =>
      if is_structure_unchanged && is_preview_unchanged preview_update
         && is_every_pane_unchanged (sent_pane_by_id s) pane_updates && negb is_update_required
      then ok (None, s)
      else
        part_payloads ← encode_painted_update (next_update_sequence s)
          (if is_structure_unchanged then None else Some structure_json_bytes) preview_update pane_updates;
        ok (Some part_payloads,
            MkPaintedUpdateSender structure_json_bytes (placement_preview r)
              (record_sent_panes (pane_snapshots r) pane_updates) (next_update_sequence s + 1))
  end.
End sender.
