(* ===== verification/PaintedReceiver.v ===== *)
(** * The reader of painted updates
    ([crates/koshi-runtime/src/runtime/painted_update.rs])

    [PaintedUpdateReceiver]: the rows, the structure and the preview the last
    applied update left, and the update whose parts are arriving. A frame of
    the connection goes in; a message, an image chunk or an applied update
    comes out. *)

From S2P Require Import Prelude Varint Cell RowDecoder Snapshot PaintedUpdate PaintedSender.
From stdpp Require Import strings gmap options.
#[local] Open Scope N_scope.

(** ** Data *)

Record ReceivedPaneView := MkReceivedPaneView
  { view_pane_id : N;
    view_cursor_snapshot : CursorSnapshot;
    view_top_row : N;
    view_retained_line_count : N;
    view_grid : option (GridView RowSnapshot) }.

Inductive PaintedUpdateError :=
  | UpdateAlreadyOpen
  | MissingUpdateOpening
  | UpdateOutOfSequence (expected_update_sequence received_update_sequence : N)
  | MissingStructure
  | SectionContinuesNoPane (pane_id : N)
  | PaneRowCountMismatch (pane_id expected_row_count : N) (received_row_count : nat)
  | RowsWithoutWindow (pane_id : N)
  | HeldRowOutOfRange (pane_id : N)
  | UndecodableRow (pane_id : N) (row_decode_error : RowDecodeError)
  | PaneListMismatch
  | CountTooLarge.

Record HeldPane := MkHeldPane { held_column_count : N; held_row_snapshots : list RowSnapshot }.

Record StagedPane := MkStagedPane
  { staged_pane_id : N; staged_header : PaneHeader; staged_rows : list RowSnapshot }.

(** [usize::try_from] of a [u64] on a 64-bit machine. *)
Definition usize_try_from (x : N) : option N := if x <=? U64_MAX then Some x else None.

(** ** One section *)

(** [slice.get(first..first + count)]. *)
Definition get_range {A} (l : list A) (first count : nat) : option (list A) :=
  if (first + count <=? length l)%nat then Some (take count (drop first l)) else None.

(** One round of the loop over a section's instructions. *)
Definition apply_row_instruction (pane_id : N) (window : PaneWindow) (held : list RowSnapshot)
    (rows : list RowSnapshot) (i : RowInstruction) : outcome PaintedUpdateError (list RowSnapshot) :=
  rows ←
    match i with
    | Keep row_count =>
        held_rows ← ok_or (get_range held (length rows) (N.to_nat row_count)) (HeldRowOutOfRange pane_id);
        ok (rows ++ held_rows)
    | Copy source_row_index row_count =>
        held_rows ← ok_or (get_range held (N.to_nat source_row_index) (N.to_nat row_count)) (HeldRowOutOfRange pane_id);
        ok (rows ++ held_rows)
    | New encoded_row_bytes =>
        row_snapshot ← map_err (UndecodableRow pane_id)
          (from_encoded_row_bytes encoded_row_bytes (window_column_count window));
        ok (rows ++ [row_snapshot])
    end;
  if (N.to_nat (window_row_count window) <? length rows)%nat
  then failed (PaneRowCountMismatch pane_id (window_row_count window) (length rows))
  else ok rows.

Fixpoint apply_row_instructions (pane_id : N) (window : PaneWindow) (held : list RowSnapshot)
    (rows : list RowSnapshot) (instructions : list RowInstruction) : outcome PaintedUpdateError (list RowSnapshot) :=
  match instructions with
  | [] => ok rows
  | i :: instructions =>
      rows ← apply_row_instruction pane_id window held rows i;
      apply_row_instructions pane_id window held rows instructions
  end.

Definition validate_staged_pane_row_count (s : StagedPane) : outcome PaintedUpdateError unit :=
  let expected_row_count := default 0 (window_row_count <$> pane_window (staged_header s)) in
  if negb (length (staged_rows s) =? N.to_nat expected_row_count)%nat
  then failed (PaneRowCountMismatch (staged_pane_id s) expected_row_count (length (staged_rows s)))
  else ok tt.

(** [validate] of the last staged pane, where there is one. *)
Definition validate_last_staged_pane (staged_panes : list StagedPane) : outcome PaintedUpdateError unit :=
  match last staged_panes with Some s => validate_staged_pane_row_count s | None => ok tt end.

(** The rows a section may keep or copy. *)
Definition held_section_rows (held_pane_by_id : gmap N HeldPane) (pane_id : N) (window : PaneWindow)
    : list RowSnapshot :=
  if is_reset window then []
  else
    match held_pane_by_id !! pane_id with
    | Some held_pane =>
        if held_column_count held_pane =? window_column_count window then held_row_snapshots held_pane else []
    | None => []
    end.

Definition build_cursor_snapshot (c : PaneCursor) : CursorSnapshot :=
  MkCursorSnapshot (cursor_row_index c) (cursor_column_index c) (is_cursor_visible c) (is_cursor_blinking c)
    ((fun shape => match shape with Block => CursorBlock | Underline => CursorUnderline | Bar => CursorBar end)
       <$> cursor_shape c).

(** ** The connection *)

Section receiver.
Context {PaintedFrame PanePlacementPreview : Type}.
Context (parse_painted_frame : list N -> string + PaintedFrame).
Context (parse_placement_preview : list N -> string + PanePlacementPreview).
(** The panes of a frame: the [pane_id]s of its [pane_snapshots]. *)
Context (frame_pane_ids : PaintedFrame -> list N).
Abbreviation part := (@PaintedUpdatePart PaintedFrame PanePlacementPreview).

Record ReceivedPaintedFrame := MkReceivedPaintedFrame
  { received_update_sequence : N;
    received_frame : PaintedFrame;
    received_preview : option PanePlacementPreview;
    received_pane_views : list ReceivedPaneView }.

Record OpenUpdate := MkOpenUpdate
  { open_update_sequence : N;
    open_frame : PaintedFrame;
    open_preview : option PanePlacementPreview;
    staged_panes : list StagedPane }.

Record PaintedUpdateReceiver := MkPaintedUpdateReceiver
  { held_painted_frame : option PaintedFrame;
    held_placement_preview : option PanePlacementPreview;
    held_pane_by_id : gmap N HeldPane;
    last_update_sequence : N;
    open_update : option OpenUpdate }.

Definition new_receiver : PaintedUpdateReceiver := MkPaintedUpdateReceiver None None ∅ 0 None.

Definition with_staged_panes (staged : list StagedPane) (o : OpenUpdate) : OpenUpdate :=
  MkOpenUpdate (open_update_sequence o) (open_frame o) (open_preview o) staged.

Definition apply_pane_section (held_pane_by_id : gmap N HeldPane) (o : OpenUpdate) (s : PaneSection)
    : outcome PaintedUpdateError OpenUpdate :=
  let pane_id := section_pane_id s in
  '(before, staged_pane) ←
    match section_header s with
    | Some pane_header =>
        _ ← validate_last_staged_pane (staged_panes o);
        if bool_decide (frame_pane_ids (open_frame o) !! length (staged_panes o) = Some pane_id)
        then ok (staged_panes o, MkStagedPane pane_id pane_header [])
        else failed PaneListMismatch
    | None =>
        match last (staged_panes o) with
        | Some staged_pane =>
            if staged_pane_id staged_pane =? pane_id then ok (removelast (staged_panes o), staged_pane)
            else failed (SectionContinuesNoPane pane_id)
        | None => failed (SectionContinuesNoPane pane_id)
        end
    end;
  match pane_window (staged_header staged_pane) with
  | None =>
      if bool_decide (section_instructions s = []) then ok (with_staged_panes (before ++ [staged_pane]) o)
      else failed (RowsWithoutWindow pane_id)
  | Some window =>
      rows ← apply_row_instructions pane_id window (held_section_rows held_pane_by_id pane_id window)
               (staged_rows staged_pane) (section_instructions s);
      ok (with_staged_panes (before ++ [MkStagedPane (staged_pane_id staged_pane) (staged_header staged_pane) rows]) o)
  end.

Fixpoint apply_pane_sections (held_pane_by_id : gmap N HeldPane) (o : OpenUpdate) (sections : list PaneSection)
    : outcome PaintedUpdateError OpenUpdate :=
  match sections with
  | [] => ok o
  | s :: sections =>
      o ← apply_pane_section held_pane_by_id o s;
      apply_pane_sections held_pane_by_id o sections
  end.

(** One round of the loop over the staged panes: the pane's view, and the map
    with the pane. *)
Definition commit_staged_pane (staged_pane : StagedPane) (held_pane_by_id : gmap N HeldPane)
    : outcome PaintedUpdateError (ReceivedPaneView * gmap N HeldPane) :=
  let h := staged_header staged_pane in
  retained_line_count ← ok_or (usize_try_from (retained_line_count h)) CountTooLarge;
  '(grid_view, held_pane_by_id) ←
    match pane_window h with
    | Some w =>
        view_row_offset ← ok_or (usize_try_from (view_row_offset w)) CountTooLarge;
        ok (Some (MkGridView (staged_rows staged_pane) (window_column_count w) view_row_offset),
            <[staged_pane_id staged_pane := MkHeldPane (window_column_count w) (staged_rows staged_pane)]> held_pane_by_id)
    | None => ok (None, held_pane_by_id)
    end;
  ok (MkReceivedPaneView (staged_pane_id staged_pane) (build_cursor_snapshot (header_cursor h))
        (view_top_row_index h) retained_line_count grid_view, held_pane_by_id).

Fixpoint commit_staged_panes (staged : list StagedPane) (held_pane_by_id : gmap N HeldPane)
    : outcome PaintedUpdateError (list ReceivedPaneView * gmap N HeldPane) :=
  match staged with
  | [] => ok ([], held_pane_by_id)
  | s :: staged =>
      '(view, held_pane_by_id) ← commit_staged_pane s held_pane_by_id;
      '(views, held_pane_by_id) ← commit_staged_panes staged held_pane_by_id;
      ok (view :: views, held_pane_by_id)
  end.

Definition commit_update (o : OpenUpdate) : outcome PaintedUpdateError (ReceivedPaintedFrame * PaintedUpdateReceiver) :=
  _ ← validate_last_staged_pane (staged_panes o);
  if negb (length (staged_panes o) =? length (frame_pane_ids (open_frame o)))%nat then failed PaneListMismatch
  else
    '(pane_views, held_pane_by_id) ← commit_staged_panes (staged_panes o) ∅;
    ok (MkReceivedPaintedFrame (open_update_sequence o) (open_frame o) (open_preview o) pane_views,
        MkPaintedUpdateReceiver (Some (open_frame o)) (open_preview o) held_pane_by_id (open_update_sequence o) None).

(** The update a part opens. *)
Definition begin_update (r : PaintedUpdateReceiver) (o : @PaintedUpdateOpening PaintedFrame PanePlacementPreview)
    : outcome PaintedUpdateError OpenUpdate :=
  let expected_update_sequence := last_update_sequence r + 1 in
  if negb (opening_sequence o =? expected_update_sequence)
  then failed (UpdateOutOfSequence expected_update_sequence (opening_sequence o))
  else
    painted_frame ←
      match opening_frame o with
      | Some painted_frame => ok painted_frame
      | None => ok_or (held_painted_frame r) MissingStructure
      end;
    let preview :=
      match opening_preview o with
      | PreviewUnchanged => held_placement_preview r
      | PreviewCleared => None
      | PreviewReplaced preview => Some preview
      end in
    ok (MkOpenUpdate (opening_sequence o) painted_frame preview []).

(** A receiver is used no more after an error, which is why it gives none. *)
Definition accept_painted_update_part (r : PaintedUpdateReceiver) (p : part)
    : outcome PaintedUpdateError (option ReceivedPaintedFrame * PaintedUpdateReceiver) :=
  opened ←
    match update_opening p, open_update r with
    | Some _, Some _ => failed UpdateAlreadyOpen
    | None, None => failed MissingUpdateOpening
    | None, Some opened => ok opened
    | Some opening, None => begin_update r opening
    end;
  opened ← apply_pane_sections (held_pane_by_id r) opened (pane_sections p);
  if is_last_part p then
    '(received, r) ← commit_update opened;
    ok (Some received, r)
  else
    ok (None, MkPaintedUpdateReceiver (held_painted_frame r) (held_placement_preview r) (held_pane_by_id r)
                (last_update_sequence r) (Some opened)).

(** ** The frames of a connection *)

Inductive ReceivedFrame (Message : Type) :=
  | ReceivedMessage (message : Message)
  | ReceivedBinary (payload : list N).

Inductive SessionFrame (Message : Type) :=
  | Event (message : Message)
  | Painted (frame : ReceivedPaintedFrame)
  | SessionImageChunk (frame : ImageChunkFrame).

(** [IpcError::MalformedFrame]: the error its text is printed from. *)
Inductive SessionFrameError :=
  | MalformedFrame (decode_error : SessionBinaryFrameDecodeError)
  | RefusedPart (painted_update_error : PaintedUpdateError).

Definition accept_session_frame {Message} (r : PaintedUpdateReceiver) (f : ReceivedFrame Message)
    : outcome SessionFrameError (option (SessionFrame Message) * PaintedUpdateReceiver) :=
  match f with
  | ReceivedMessage _ message => ok (Some (Event _ message), r)
  | ReceivedBinary _ payload =>
      frame ← map_err MalformedFrame (decode_session_binary_frame parse_painted_frame parse_placement_preview payload);
      match frame with
      | PaintedUpdatePartFrame p =>
          '(received, r) ← map_err RefusedPart (accept_painted_update_part r p);
          ok (Painted _ <$> received, r)
      | ImageChunk chunk => ok (Some (SessionImageChunk _ chunk), r)
      | UnknownFrame _ => ok (None, r)
      end
  end.
End receiver.
