(* ===== verification/PaintedRows.v ===== *)
(** * The row instructions of an update rebuild its rows

    What a list of instructions makes of the rows that are held, and that the
    instructions [compute_row_instructions] gives make the shown rows of
    them. *)

From S2P Require Import Prelude Varint Cell RowDecoder Snapshot PaintedUpdate PaintedWire PaintedSender PaintedReceiver.
From stdpp Require Import strings gmap options.
#[local] Open Scope N_scope.

(** ** What instructions build *)

Definition build_step (held : list (list N)) (rows : option (list (list N))) (i : RowInstruction)
    : option (list (list N)) :=
  rows ← rows;
  match i with
  | Keep row_count => app rows <$> get_range held (length rows) (N.to_nat row_count)
  | Copy source_row_index row_count =>
      app rows <$> get_range held (N.to_nat source_row_index) (N.to_nat row_count)
  | New bytes => Some (rows ++ [bytes])
  end.

(** The rows, as their bytes, that instructions make of [held]. *)
Definition built (held : list (list N)) (instructions : list RowInstruction) : option (list (list N)) :=
  foldl (build_step held) (Some []) instructions.

Lemma built_snoc held instructions i :
  built held (instructions ++ [i]) = build_step held (built held instructions) i.
Proof. unfold built. by rewrite foldl_app. Qed.

Lemma get_range_some {A} (l : list A) first count r :
  get_range l first count = Some r <-> (first + count <= length l)%nat /\ r = take count (drop first l).
Proof.
  unfold get_range. destruct (_ <=? _)%nat eqn:E; [apply Nat.leb_le in E|apply Nat.leb_gt in E];
    split; [intros [= <-]|intros [_ ->]| |intros [? _]]; [done|done|done|lia].
Qed.

Lemma get_range_length {A} (l : list A) first count r : get_range l first count = Some r -> length r = count.
Proof. intros [H ->]%get_range_some. rewrite length_take, length_drop. lia. Qed.

Lemma get_range_fmap {A B} (f : A -> B) (l : list A) first count :
  get_range (f <$> l) first count = (fun r : list A => f <$> r) <$> get_range l first count.
Proof.
  unfold get_range. rewrite length_fmap. destruct (_ <=? _)%nat; [|done]. simpl.
  by rewrite fmap_take, fmap_drop.
Qed.

(** One row more of a run. *)
Lemma get_range_more {A} (l : list A) first count r b :
  get_range l first count = Some r -> l !! (first + count)%nat = Some b ->
  get_range l first (S count) = Some (r ++ [b]).
Proof.
  intros [H ->]%get_range_some Hb. apply get_range_some. pose proof (lookup_lt_Some _ _ _ Hb). split; [lia|].
  symmetry. apply take_S_r. by rewrite lookup_drop.
Qed.

Lemma get_range_one {A} (l : list A) first b : l !! first = Some b -> get_range l first 1 = Some [b].
Proof.
  intros Hb. apply (get_range_more l first 0 []); [|by rewrite Nat.add_0_r].
  apply get_range_some. pose proof (lookup_lt_Some _ _ _ Hb). split; [lia|]. by rewrite take_0.
Qed.

(** A list that ends with [i] is its front and [i]. *)
Lemma last_front {A} (l : list A) (a : A) : last l = Some a -> l = removelast l ++ [a].
Proof.
  intros H. apply last_Some in H as [front ->]. by rewrite removelast_last.
Qed.

Lemma push_keep_built held instructions rows b :
  built held instructions = Some rows -> held !! length rows = Some b ->
  built held (push_keep instructions) = Some (rows ++ [b]).
Proof.
  intros Hrows Hb. unfold push_keep.
  assert (built held (instructions ++ [Keep 1]) = Some (rows ++ [b])) as Hone.
  { rewrite built_snoc, Hrows. cbn [build_step mbind option_bind]. by rewrite (get_range_one _ _ b). }
  destruct (last instructions) as [[n|source n|row]|] eqn:E; [|done..].
  apply last_front in E. rewrite E in Hrows. rewrite built_snoc in Hrows |- *.
  destruct (built held (removelast instructions)) as [r0|]; [|done]. cbn [build_step mbind option_bind] in Hrows |- *.
  destruct (get_range held (length r0) (N.to_nat n)) as [r|] eqn:Er; [|done]. injection Hrows as <-.
  pose proof (get_range_length _ _ _ _ Er) as Hl. rewrite length_app, Hl in Hb.
  rewrite N.add_1_r, N2Nat.inj_succ, (get_range_more _ _ _ _ _ Er Hb). cbn [fmap option_fmap option_map].
  by rewrite app_assoc.
Qed.

Lemma push_copy_built held instructions rows source b :
  built held instructions = Some rows -> held !! N.to_nat source = Some b ->
  built held (push_copy source instructions) = Some (rows ++ [b]).
Proof.
  intros Hrows Hb. unfold push_copy.
  assert (built held (instructions ++ [Copy source 1]) = Some (rows ++ [b])) as Hone.
  { rewrite built_snoc, Hrows. cbn [build_step mbind option_bind]. by rewrite (get_range_one _ _ b). }
  destruct (last instructions) as [[n|run n|row]|] eqn:E; [done| |done..].
  destruct (run + n =? source) eqn:Es; [|done]. bools. subst source.
  apply last_front in E. rewrite E in Hrows. rewrite built_snoc in Hrows |- *.
  destruct (built held (removelast instructions)) as [r0|]; [|done]. cbn [build_step mbind option_bind] in Hrows |- *.
  destruct (get_range held (N.to_nat run) (N.to_nat n)) as [r|] eqn:Er; [|done]. injection Hrows as <-.
  rewrite N2Nat.inj_add in Hb.
  rewrite N.add_1_r, N2Nat.inj_succ, (get_range_more _ _ _ _ _ Er Hb). cbn [fmap option_fmap option_map].
  by rewrite app_assoc.
Qed.

(** What has been built stays as instructions are added. *)
Lemma built_prefix held is1 is2 total :
  built held (is1 ++ is2) = Some total -> exists rows, built held is1 = Some rows /\ rows `prefix_of` total.
Proof.
  revert total. induction is2 as [|i is2 IH] using rev_ind; intros total H.
  - rewrite app_nil_r in H. by exists total.
  - rewrite app_assoc, built_snoc in H. destruct (built held (is1 ++ is2)) as [rows'|] eqn:E; [|done].
    destruct (IH _ eq_refl) as (rows & Hr & Hp). exists rows. split; [done|]. etransitivity; [exact Hp|].
    cbn [build_step mbind option_bind] in H.
    destruct i as [n|source n|row]; [destruct (get_range _ _ _) as [r|]; [|done]..|];
      injection H as <-; eexists; reflexivity.
Qed.

(** ** The instructions of the writer *)

Abbreviation row_bytes rows := (get_encoded_row_bytes <$> (rows : list SharedRow)).

(** Rows at one address are one row. *)
Definition addresses_agree (rows : list SharedRow) : Prop :=
  forall r r', r ∈ rows -> r' ∈ rows -> address r = address r' -> r = r'.

Lemma enumerate_snoc_map {A} (l : list A) a : enumerate (l ++ [a]) = enumerate l ++ [(length l, a)].
Proof. unfold enumerate. rewrite imap_app. simpl. by rewrite Nat.add_0_r. Qed.

Lemma held_index_lookup held a i :
  build_held_row_index held !! a = Some i ->
  exists r, held !! N.to_nat i = Some r /\ address r = a.
Proof.
  unfold build_held_row_index. induction held as [|r held IH] using rev_ind; [done|].
  rewrite enumerate_snoc_map, foldl_app. cbn [foldl fst snd]. intros H.
  apply lookup_insert_Some in H as [[<- <-]|[_ H]].
  - exists r. split; [|done]. rewrite Nat2N.id. by apply list_lookup_middle.
  - destruct (IH H) as (r' & Hr & <-). exists r'. split; [|done]. by apply lookup_app_l_Some.
Qed.

Definition counted (i : RowInstruction) : Prop :=
  match i with Keep n => 1 <= n | Copy _ n => 1 <= n | New _ => True end.

Lemma push_keep_counted is_ : Forall counted is_ -> Forall counted (push_keep is_).
Proof.
  intros H. unfold push_keep. assert (Forall counted (is_ ++ [Keep 1])) as Hone.
  { apply Forall_app. split; [done|]. by apply Forall_singleton. }
  destruct (last is_) as [[n|? ?|?]|] eqn:E; [|done..]. apply last_front in E. rewrite E in H.
  apply Forall_app in H as [H _]. apply Forall_app. split; [done|]. apply Forall_singleton. cbn. lia.
Qed.

Lemma push_copy_counted source is_ : Forall counted is_ -> Forall counted (push_copy source is_).
Proof.
  intros H. unfold push_copy. assert (Forall counted (is_ ++ [Copy source 1])) as Hone.
  { apply Forall_app. split; [done|]. by apply Forall_singleton. }
  destruct (last is_) as [[n|run n|?]|] eqn:E; [done| |done..]. destruct (_ =? _); [|done].
  apply last_front in E. rewrite E in H.
  apply Forall_app in H as [H _]. apply Forall_app. split; [done|]. apply Forall_singleton. cbn. lia.
Qed.

Lemma row_kept_bytes held i r :
  addresses_agree (held ++ [r]) -> row_kept held i r = true ->
  row_bytes held !! i = Some (get_encoded_row_bytes r).
Proof.
  intros Hagree H. unfold row_kept in H. rewrite list_lookup_fmap. destruct (held !! i) as [h|] eqn:E; [|done].
  cbn [fmap option_fmap option_map]. f_equal. apply orb_true_iff in H as [H|H].
  - apply N.eqb_eq in H. f_equal. apply Hagree; [|by apply elem_of_app; right; apply list_elem_of_singleton|done].
    apply elem_of_app. left. by eapply list_elem_of_lookup_2.
  - by apply bool_decide_eq_true in H.
Qed.

Lemma loop_builds held all shown pre is_ :
  addresses_agree (held ++ all) -> all = pre ++ shown ->
  built (row_bytes held) is_ = Some (row_bytes pre) -> Forall counted is_ ->
  let is' := compute_row_instructions_loop held (build_held_row_index held) (length pre) shown is_ in
  built (row_bytes held) is' = Some (row_bytes all) /\ Forall counted is'.
Proof.
  intros Hagree. revert pre is_. induction shown as [|r shown IH]; intros pre is_ E Hb Hc;
    cbn [compute_row_instructions_loop]; [by rewrite E, app_nil_r|].
  assert (r ∈ all) as Hr by (rewrite E; apply elem_of_app; right; left).
  assert (addresses_agree (held ++ [r])) as Hr_agree.
  { intros a b Ha Hb'. apply Hagree; set_solver. }
  assert (forall is', built (row_bytes held) is' = Some (row_bytes pre ++ [get_encoded_row_bytes r]) -> Forall counted is' ->
    let is'' := compute_row_instructions_loop held (build_held_row_index held) (S (length pre)) shown is' in
    built (row_bytes held) is'' = Some (row_bytes all) /\ Forall counted is'') as Hnext.
  { intros is' H1 H2. replace (S (length pre)) with (length (pre ++ [r])) by (rewrite length_app; simpl; lia).
    apply IH; [by rewrite <- app_assoc| |done]. by rewrite fmap_app. }
  destruct (row_kept held (length pre) r) eqn:Ek.
  { apply Hnext; [|by apply push_keep_counted]. apply push_keep_built; [done|]. rewrite length_fmap.
    by apply row_kept_bytes. }
  destruct (build_held_row_index held !! address r) as [i|] eqn:Ei.
  - apply Hnext; [|by apply push_copy_counted]. apply push_copy_built; [done|].
    destruct (held_index_lookup _ _ _ Ei) as (h & Hh & Ha). rewrite list_lookup_fmap, Hh. simpl. do 2 f_equal.
    apply Hr_agree; [|set_solver|done]. apply elem_of_app. left. by eapply list_elem_of_lookup_2.
  - apply Hnext; [by rewrite built_snoc, Hb|]. apply Forall_app. split; [done|]. by apply Forall_singleton.
Qed.

Lemma row_instructions_build held shown :
  addresses_agree (held ++ shown) ->
  built (row_bytes held) (compute_row_instructions held shown) = Some (row_bytes shown)
  /\ Forall counted (compute_row_instructions held shown).
Proof. intros H. by apply (loop_builds held shown shown [] []). Qed.

(** ** What building needs *)

Lemma built_bounded held is_ total :
  built held is_ = Some total ->
  Forall (fun i => match i with
    | Keep n => N.to_nat n <= length held
    | Copy source n => N.to_nat source + N.to_nat n <= length held
    | New bytes => bytes ∈ total
    end%nat) is_.
Proof.
  revert total. induction is_ as [|i is_ IH] using rev_ind; intros total H; [constructor|].
  rewrite built_snoc in H. destruct (built held is_) as [rows|] eqn:E; [|done]. specialize (IH _ eq_refl).
  cbn [build_step mbind option_bind] in H.
  assert (rows `prefix_of` total) as Hp.
  { destruct i; [destruct (get_range _ _ _); [|done]..|]; injection H as <-; eexists; reflexivity. }
  apply Forall_app. split.
  - eapply Forall_impl; [exact IH|]. intros [n|source n|bytes]; [done..|]. destruct Hp as [rest ->]. set_solver.
  - apply Forall_singleton. destruct i as [n|source n|bytes].
    + destruct (get_range _ _ _) as [r|] eqn:Er; [|done]. apply get_range_some in Er as [? _]. lia.
    + destruct (get_range _ _ _) as [r|] eqn:Er; [|done]. apply get_range_some in Er as [? _]. lia.
    + injection H as <-. set_solver.
Qed.

Lemma built_wf held is_ total :
  built held is_ = Some total -> Forall counted is_ -> N.of_nat (length held) <= U16_MAX -> Forall row_framed total ->
  Forall RowInstruction_wf is_.
Proof.
  intros Hb Hc Hl Hf. apply built_bounded in Hb. apply Forall_forall. intros i Hi.
  eapply Forall_forall in Hb, Hc; [|exact Hi..]. destruct i as [n|source n|bytes]; cbn in *; [lia|lia|].
  by eapply Forall_forall in Hf.
Qed.

(** ** The reader builds the same rows *)

Abbreviation snapshot_bytes rows := (encoded_row_bytes <$> (rows : list RowSnapshot)).

(** The bytes of a row that the reader takes at a width. *)
Definition readable (column_count : N) (bytes : list N) : Prop :=
  exists s, from_encoded_row_bytes bytes column_count = ok s.

Lemma from_encoded_bytes bytes column_count s :
  from_encoded_row_bytes bytes column_count = ok s -> encoded_row_bytes s = bytes.
Proof.
  unfold from_encoded_row_bytes. intros H. apply outcome_bind_ok in H as (shape & _ & H).
  destruct (negb _); [done|]. apply outcome_bind_ok in H as (row & _ & H). by injection H as <-.
Qed.

Lemma apply_instruction_ok pane_id w held rows i total :
  build_step (snapshot_bytes held) (Some (snapshot_bytes rows)) i = Some total ->
  (length total <= N.to_nat (window_row_count w))%nat -> Forall (readable (window_column_count w)) total ->
  exists rows', apply_row_instruction pane_id w held rows i = ok rows' /\ snapshot_bytes rows' = total.
Proof.
  intros Hb Hl Hr. cbn [build_step mbind option_bind] in Hb.
  assert (forall rows', snapshot_bytes rows' = total ->
    (if (N.to_nat (window_row_count w) <? length rows')%nat
     then failed (PaneRowCountMismatch pane_id (window_row_count w) (length rows')) else ok rows') = ok rows') as Hok.
  { intros rows' <-. rewrite length_fmap in Hl. by rewrite (proj2 (Nat.ltb_ge _ _)). }
  assert (forall first count, app (snapshot_bytes rows) <$> get_range (snapshot_bytes held) first count = Some total ->
    exists r, get_range held first count = Some r /\ snapshot_bytes (rows ++ r) = total) as Hrange.
  { intros first count H. rewrite get_range_fmap in H. destruct (get_range held first count) as [r|]; [|done].
    injection H as <-. exists r. by rewrite fmap_app. }
  unfold apply_row_instruction. destruct i as [n|source n|bytes].
  - rewrite length_fmap in Hb. destruct (Hrange _ _ Hb) as (r & -> & E). exists (rows ++ r). split; [by apply Hok|done].
  - destruct (Hrange _ _ Hb) as (r & -> & E). exists (rows ++ r). split; [by apply Hok|done].
  - injection Hb as <-. apply Forall_app in Hr as [_ Hr]. apply Forall_singleton in Hr as [s Hs].
    assert (snapshot_bytes (rows ++ [s]) = snapshot_bytes rows ++ [bytes]) as E.
    { rewrite fmap_app. simpl. by rewrite (from_encoded_bytes _ _ _ Hs). }
    exists (rows ++ [s]). rewrite Hs. split; [by apply Hok|done].
Qed.

(** A run of instructions in the middle of a pane's. *)
Lemma apply_instructions_ok pane_id w held is1 is2 rows total :
  built (snapshot_bytes held) is1 = Some (snapshot_bytes rows) ->
  built (snapshot_bytes held) (is1 ++ is2) = Some total ->
  (length total <= N.to_nat (window_row_count w))%nat -> Forall (readable (window_column_count w)) total ->
  exists rows', apply_row_instructions pane_id w held rows is2 = ok rows' /\ snapshot_bytes rows' = total.
Proof.
  revert is1 rows. induction is2 as [|i is2 IH]; intros is1 rows Hrows Htotal Hl Hr; cbn [apply_row_instructions].
  - rewrite app_nil_r, Hrows in Htotal. injection Htotal as <-. by exists rows.
  - replace (is1 ++ i :: is2) with ((is1 ++ [i]) ++ is2) in Htotal by (by rewrite <- app_assoc).
    destruct (built_prefix _ _ _ _ Htotal) as (mid & Hmid & Hp). pose proof Hmid as Hstep.
    rewrite built_snoc, Hrows in Hstep. pose proof (prefix_length _ _ Hp) as Hlp.
    destruct (apply_instruction_ok pane_id w held rows i mid Hstep) as (rows' & -> & E).
    + lia.
    + destruct Hp as [rest ->]. by apply Forall_app in Hr as [? _].
    + subst mid. by apply (IH (is1 ++ [i])).
Qed.
