(* ===== verification/PaintedApply.v ===== *)
(** * An update applied by the reader

    The parts of a written update, accepted one after the other, stage the
    panes of the update with the rows their instructions build, and the last
    part gives them back. *)

From S2P Require Import Prelude Varint Cell RowDecoder Snapshot PaintedUpdate PaintedWire PaintedParts PaintedContract.
From S2P Require Import PaintedSender PaintedReceiver PaintedRows.
From stdpp Require Import strings gmap options.
#[local] Open Scope N_scope.

Section apply.
Context {PaintedFrame PanePlacementPreview : Type}.
Context (parse_painted_frame : list N -> string + PaintedFrame).
Context (parse_placement_preview : list N -> string + PanePlacementPreview).
Context (frame_pane_ids : PaintedFrame -> list N).
Abbreviation decode := (decode_session_binary_frame parse_painted_frame parse_placement_preview).
Abbreviation apply_section := (apply_pane_section frame_pane_ids).
Abbreviation apply_sections := (apply_pane_sections frame_pane_ids).
Abbreviation open := (@OpenUpdate PaintedFrame PanePlacementPreview).
Abbreviation receiver := (@PaintedUpdateReceiver PaintedFrame PanePlacementPreview).

(** ** The sections of one pane *)

(** The instructions of [u] fit the rows the reader holds for its pane. *)
Definition update_applies (held : gmap N HeldPane) (u : PaneUpdate) (total : list (list N)) : Prop :=
  match pane_window (update_header u) with
  | None => update_instructions u = [] /\ total = []
  | Some w =>
      built (snapshot_bytes (held_section_rows held (update_pane_id u) w)) (update_instructions u) = Some total
      /\ length total = N.to_nat (window_row_count w) /\ Forall (readable (window_column_count w)) total
  end.

(** What one section adds to the staged rows of its pane. *)
Lemma section_rows_ok held u total is1 is2 is3 rows :
  update_applies held u total -> update_instructions u = is1 ++ is2 ++ is3 ->
  match pane_window (update_header u) with
  | None => is2 = []
  | Some w =>
      built (snapshot_bytes (held_section_rows held (update_pane_id u) w)) is1 = Some (snapshot_bytes rows) ->
      exists rows', apply_row_instructions (update_pane_id u) w (held_section_rows held (update_pane_id u) w) rows is2 = ok rows'
        /\ built (snapshot_bytes (held_section_rows held (update_pane_id u) w)) (is1 ++ is2) = Some (snapshot_bytes rows')
  end.
Proof.
  intros Ha E. unfold update_applies in Ha. destruct (pane_window (update_header u)) as [w|].
  - destruct Ha as (Hb & Hl & Hr). intros Hrows. rewrite E, app_assoc in Hb.
    destruct (built_prefix _ _ _ _ Hb) as (mid & Hmid & Hp). pose proof (prefix_length _ _ Hp) as Hlp.
    destruct (apply_instructions_ok (update_pane_id u) w _ is1 is2 rows mid Hrows Hmid) as (rows' & -> & Erows).
    + lia.
    + destruct Hp as [rest ->]. by apply Forall_app in Hr as [? _].
    + exists rows'. by rewrite Erows.
  - destruct Ha as [Ha _]. rewrite Ha in E. by destruct is1, is2.
Qed.

(** The staged rows after the instructions [is1]. *)
Definition staged_built (held : gmap N HeldPane) (u : PaneUpdate) (is1 : list RowInstruction) (rows : list RowSnapshot) : Prop :=
  match pane_window (update_header u) with
  | None => rows = []
  | Some w => built (snapshot_bytes (held_section_rows held (update_pane_id u) w)) is1 = Some (snapshot_bytes rows)
  end.

Definition last_is_valid (staged : list StagedPane) : Prop := validate_last_staged_pane staged = ok tt.

Lemma apply_sections_app held (o o' : open) sections sections' :
  apply_sections held o sections = ok o' ->
  apply_sections held o (sections ++ sections') = apply_sections held o' sections'.
Proof.
  revert o. induction sections as [|s sections IH]; intros o H; cbn [app apply_pane_sections] in *; [by injection H as ->|].
  destruct (apply_section held o s) as [[?|o1]|]; [done| |done]. by apply IH.
Qed.

Lemma pane_sections_apply held u total (o : open) is1 sections is2 :
  update_applies held u total -> pane_split (update_pane_id u) (update_header u) is1 sections ->
  update_instructions u = is1 ++ is2 ->
  last_is_valid (staged_panes o) ->
  frame_pane_ids (open_frame o) !! length (staged_panes o) = Some (update_pane_id u) ->
  exists rows, apply_sections held o sections
      = ok (with_staged_panes (staged_panes o ++ [MkStagedPane (update_pane_id u) (update_header u) rows]) o)
    /\ staged_built held u is1 rows.
Proof.
  intros Ha Hsplit. revert is2. induction Hsplit as [is1|is1 is1' sections Hsplit IH]; intros is2 E Hlast Hid.
  - cbn [apply_pane_sections]. unfold apply_pane_section at 1. cbn [section_pane_id section_header section_instructions].
    rewrite Hlast. cbn [mbind outcome_bind ok]. rewrite (bool_decide_eq_true_2 _ Hid). cbn [mbind outcome_bind ok staged_header].
    pose proof (section_rows_ok held u total [] is1 is2 [] Ha E) as H. unfold staged_built.
    destruct (pane_window (update_header u)) as [w|].
    + cbn [staged_rows staged_pane_id]. destruct (H eq_refl) as (rows & -> & Hb). by exists rows.
    + subst is1. exists []. by rewrite bool_decide_eq_true_2.
  - destruct (IH (is1' ++ is2)) as (rows & Happly & Hb); [by rewrite E, <- app_assoc|done|done|].
    rewrite (apply_sections_app _ _ _ _ _ Happly). cbn [apply_pane_sections]. unfold apply_pane_section.
    cbn [section_pane_id section_header section_instructions staged_panes with_staged_panes].
    rewrite last_snoc, N.eqb_refl, removelast_last. cbn [mbind outcome_bind ok staged_header].
    pose proof (section_rows_ok held u total is1 is1' is2 rows Ha) as H. rewrite E, <- app_assoc in H. specialize (H eq_refl).
    unfold staged_built in *. destruct (pane_window (update_header u)) as [w|].
    + cbn [staged_rows staged_pane_id staged_header]. destruct (H Hb) as (rows' & -> & Hb'). by exists rows'.
    + subst is1' rows. exists []. by rewrite bool_decide_eq_true_2.
Qed.

(** ** All panes *)

Record staged_for (held : gmap N HeldPane) (u : PaneUpdate) (total : list (list N)) (s : StagedPane) : Prop :=
  { sf_id : staged_pane_id s = update_pane_id u;
    sf_header : staged_header s = update_header u;
    sf_rows : snapshot_bytes (staged_rows s) = total }.

Lemma staged_complete held u total rows :
  update_applies held u total -> staged_built held u (update_instructions u) rows ->
  staged_for held u total (MkStagedPane (update_pane_id u) (update_header u) rows).
Proof.
  unfold update_applies, staged_built. intros Ha Hb. split; [done|done|]. cbn [staged_rows].
  destruct (pane_window (update_header u)); [|by destruct Ha as [_ ->]; rewrite Hb].
  destruct Ha as (Ha & _). rewrite Ha in Hb. by injection Hb as <-.
Qed.

Lemma staged_valid held u total s :
  update_applies held u total -> staged_for held u total s -> validate_staged_pane_row_count s = ok tt.
Proof.
  unfold update_applies. intros Ha [H1 H2 H3]. unfold validate_staged_pane_row_count. rewrite H2.
  assert (length (staged_rows s) = length total) as -> by (by rewrite <- H3, length_fmap).
  destruct (pane_window (update_header u)) as [w|]; simpl.
  - destruct Ha as (_ & -> & _). by rewrite Nat.eqb_refl.
  - by destruct Ha as [_ ->].
Qed.

Lemma last_staged_valid held us totals staged :
  Forall2 (update_applies held) us totals -> Forall3 (staged_for held) us totals staged -> last_is_valid staged.
Proof.
  intros Ha Hs. unfold last_is_valid, validate_last_staged_pane. destruct (last staged) as [s|] eqn:E; [|done].
  rewrite last_lookup in E. destruct (Forall3_lookup_r _ _ _ _ _ _ Hs E) as (u & total & Hu & Ht & H).
  eapply staged_valid; [|exact H]. by eapply Forall2_lookup_lr.
Qed.

Lemma all_sections_apply held us totals split done_us done_totals (o : open) :
  Forall2 (update_applies held) us totals -> Forall2 section_of_update us split ->
  Forall2 (update_applies held) done_us done_totals -> Forall3 (staged_for held) done_us done_totals (staged_panes o) ->
  frame_pane_ids (open_frame o) = (update_pane_id <$> done_us) ++ (update_pane_id <$> us) ->
  exists staged, apply_sections held o (concat split) = ok (with_staged_panes staged o)
    /\ Forall3 (staged_for held) (done_us ++ us) (done_totals ++ totals) staged.
Proof.
  intros Ha. revert split done_us done_totals o.
  induction Ha as [|u total us totals Hu Ha IH]; intros split done_us done_totals o Hsplit Hdone Hstaged Hids.
  - inversion Hsplit; subst. exists (staged_panes o). rewrite !app_nil_r. by destruct o.
  - inversion Hsplit as [|? sections ? split' Hs Hsplit']; subst.
    pose proof (Forall3_length_lr _ _ _ _ Hstaged) as Hl.
    destruct (pane_sections_apply held u total o (update_instructions u) sections [] Hu Hs) as (rows & E & Hb).
    + by rewrite app_nil_r.
    + by eapply last_staged_valid.
    + rewrite Hids, lookup_app_r, length_fmap by (rewrite length_fmap; lia).
      by replace (length (staged_panes o) - length done_us)%nat with 0%nat by lia.
    + pose proof (staged_complete _ _ _ _ Hu Hb) as Hsu. cbn [concat]. rewrite (apply_sections_app _ _ _ _ _ E).
      destruct (IH split' (done_us ++ [u]) (done_totals ++ [total])
        (with_staged_panes (staged_panes o ++ [MkStagedPane (update_pane_id u) (update_header u) rows]) o))
        as (staged & Es & Hall).
      * done.
      * apply Forall2_app; [done|]. by constructor.
      * cbn [staged_panes with_staged_panes]. apply Forall3_app; [done|]. constructor; [done|constructor].
      * rewrite fmap_app, <- app_assoc. exact Hids.
      * exists staged. rewrite <- !app_assoc in Hall. by rewrite Es.
Qed.

Lemma update_sections_apply held us totals (o : open) sections :
  Forall2 (update_applies held) us totals -> update_split us sections -> staged_panes o = [] ->
  frame_pane_ids (open_frame o) = update_pane_id <$> us ->
  exists staged, apply_sections held o sections = ok (with_staged_panes staged o)
    /\ Forall3 (staged_for held) us totals staged.
Proof.
  intros Ha (split & Hs & ->) Ho Hids.
  apply (all_sections_apply held us totals split [] [] o); [done|done|constructor|rewrite Ho; constructor|done].
Qed.

(** ** Committing *)

Definition staged_view (s : StagedPane) : ReceivedPaneView :=
  MkReceivedPaneView (staged_pane_id s) (build_cursor_snapshot (header_cursor (staged_header s)))
    (view_top_row_index (staged_header s)) (retained_line_count (staged_header s))
    ((fun w => MkGridView (staged_rows s) (window_column_count w) (view_row_offset w)) <$> pane_window (staged_header s)).

Definition hold_staged (held : gmap N HeldPane) (s : StagedPane) : gmap N HeldPane :=
  match pane_window (staged_header s) with
  | Some w => <[staged_pane_id s := MkHeldPane (window_column_count w) (staged_rows s)]> held
  | None => held
  end.

Lemma commit_staged_ok staged held :
  Forall (fun s => PaneHeader_wf (staged_header s)) staged ->
  commit_staged_panes staged held = ok (staged_view <$> staged, foldl hold_staged held staged).
Proof.
  assert (forall x, is_u64 x -> usize_try_from x = Some x) as Husize.
  { intros x Hx. unfold usize_try_from. rewrite (proj2 (N.leb_le _ _)); [done|]. unfold is_u64, U64_MODULUS in Hx. lia. }
  intros H. revert held. induction H as [|s staged Hs _ IH]; intros held; [done|].
  cbn [commit_staged_panes]. unfold commit_staged_pane. destruct Hs as [_ _ _ H4 H5]. rewrite (Husize _ H4).
  cbn [foldl fmap list_fmap]. unfold hold_staged at 2, staged_view at 1.
  destruct (pane_window (staged_header s)) as [w|]; [destruct (H5 w eq_refl) as (_ & _ & Hw); rewrite (Husize _ Hw)|];
    cbn [ok_or mbind outcome_bind ok]; by rewrite IH.
Qed.

Lemma commit_ok held us totals (o : open) :
  Forall2 (update_applies held) us totals -> Forall3 (staged_for held) us totals (staged_panes o) ->
  Forall (fun u => PaneHeader_wf (update_header u)) us ->
  frame_pane_ids (open_frame o) = update_pane_id <$> us ->
  commit_update frame_pane_ids o
  = ok (MkReceivedPaintedFrame (open_update_sequence o) (open_frame o) (open_preview o) (staged_view <$> staged_panes o),
        MkPaintedUpdateReceiver (Some (open_frame o)) (open_preview o) (foldl hold_staged ∅ (staged_panes o))
          (open_update_sequence o) None).
Proof.
  intros Ha Hs Hwf Hids. unfold commit_update. rewrite (last_staged_valid _ _ _ _ Ha Hs). cbn [mbind outcome_bind ok].
  rewrite Hids, length_fmap, (Forall3_length_lr _ _ _ _ Hs), Nat.eqb_refl. cbn [negb].
  rewrite commit_staged_ok; [done|]. apply Forall_forall. intros s Hin. apply list_elem_of_lookup in Hin as [i Hi].
  destruct (Forall3_lookup_r _ _ _ _ _ _ Hs Hi) as (u & total & Hu & _ & [_ -> _]).
  by eapply Forall_lookup_1 in Hwf.
Qed.

(** ** The frames of an update *)

Context {Message : Type}.
Abbreviation accept := (accept_session_frame (Message := Message) parse_painted_frame parse_placement_preview frame_pane_ids).
Abbreviation frame_out := (@SessionFrame PaintedFrame PanePlacementPreview Message).

(** What a run of frames gives out. *)
Fixpoint accept_session_frames (r : receiver) (frames : list (ReceivedFrame Message))
    : outcome SessionFrameError (list frame_out * receiver) :=
  match frames with
  | [] => ok ([], r)
  | f :: frames =>
      '(given, r) ← accept r f;
      '(rest, r) ← accept_session_frames r frames;
      ok (option_list given ++ rest, r)
  end.

(** The parts after the first. *)
Definition later_parts (groups : list (list PaneSection)) : list (@PaintedUpdatePart PaintedFrame PanePlacementPreview) :=
  imap (fun i g => MkPaintedUpdatePart None (bool_decide (S i = length groups)) g) groups.

Lemma later_parts_cons g groups :
  later_parts (g :: groups) = MkPaintedUpdatePart None (bool_decide (groups = [])) g :: later_parts groups.
Proof.
  unfold later_parts. rewrite imap_cons. f_equal.
  - f_equal. apply bool_decide_ext. cbn [length]. destruct groups; simpl; split; (done || lia).
  - apply imap_ext. intros i g' _. cbn [length compose]. f_equal. apply bool_decide_ext. lia.
Qed.

Lemma parts_of_cons o g groups :
  parts_of o (g :: groups) = MkPaintedUpdatePart (Some o) (bool_decide (groups = [])) g :: later_parts groups.
Proof.
  unfold parts_of, later_parts. rewrite imap_cons. rewrite decide_True by done. f_equal.
  - f_equal. apply bool_decide_ext. cbn [length]. destruct groups; simpl; split; (done || lia).
  - apply imap_ext. intros i g' _. cbn [length compose]. rewrite decide_False by done. f_equal.
    apply bool_decide_ext. lia.
Qed.

(** One part, once its update is open as [o1]. *)
Lemma accept_one_part (r : receiver) payload p (o1 final : open) :
  decode payload = ok (PaintedUpdatePartFrame p) ->
  match update_opening p, open_update r with
  | Some _, Some _ => failed UpdateAlreadyOpen
  | None, None => failed MissingUpdateOpening
  | None, Some opened => ok opened
  | Some opening, None => begin_update r opening
  end = ok o1 ->
  apply_sections (held_pane_by_id r) o1 (pane_sections p) = ok final ->
  accept r (ReceivedBinary Message payload)
  = if is_last_part p
    then '(received, r') ← map_err RefusedPart (commit_update frame_pane_ids final); ok (Some (Painted Message received), r')
    else ok (None, MkPaintedUpdateReceiver (held_painted_frame r) (held_placement_preview r) (held_pane_by_id r)
                     (last_update_sequence r) (Some final)).
Proof.
  intros Hd Ho Ha. cbn [accept_session_frame]. rewrite Hd. cbn [map_err mbind outcome_bind ok].
  unfold accept_painted_update_part. rewrite Ho. cbn [mbind outcome_bind ok]. rewrite Ha. cbn [mbind outcome_bind ok].
  destruct (is_last_part p); [|done]. by destruct (commit_update frame_pane_ids final) as [[?|[? ?]]|].
Qed.

Lemma apply_sections_bind held (o : open) sections sections' :
  apply_sections held o (sections ++ sections')
  = mbind (M := outcome PaintedUpdateError) (fun o' => apply_sections held o' sections') (apply_sections held o sections).
Proof.
  revert o. induction sections as [|s sections IH]; intros o; [done|]. cbn [app apply_pane_sections].
  destruct (apply_section held o s) as [[?|o1]|]; [done| |done]. apply IH.
Qed.

Lemma later_parts_accept groups payloads (r r' : receiver) (o1 final : open) view :
  groups <> [] -> open_update r = Some o1 ->
  apply_sections (held_pane_by_id r) o1 (concat groups) = ok final ->
  commit_update frame_pane_ids final = ok (view, r') ->
  Forall2 (fun payload p => decode payload = ok (PaintedUpdatePartFrame p)) payloads (later_parts groups) ->
  accept_session_frames r (ReceivedBinary Message <$> payloads) = ok ([Painted Message view], r').
Proof.
  intros Hne Ho Ha Hc. revert payloads r o1 Hne Ho Ha. induction groups as [|g groups IH]; intros payloads r o1 Hne Ho Ha Hd; [done|].
  rewrite later_parts_cons in Hd. apply Forall2_cons_inv_r in Hd as (payload & payloads' & Hp & Hd & ->).
  cbn [fmap list_fmap accept_session_frames concat] in *.
  assert (exists o2, apply_sections (held_pane_by_id r) o1 g = ok o2 /\ apply_sections (held_pane_by_id r) o2 (concat groups) = ok final)
    as (o2 & Hg & Hrest).
  { rewrite apply_sections_bind in Ha. by apply outcome_bind_ok in Ha. }
  rewrite (accept_one_part r payload _ o1 o2 Hp); [|by rewrite Ho|done]. cbn [is_last_part].
  destruct groups as [|g' groups].
  - rewrite bool_decide_eq_true_2 by done. cbn [concat apply_pane_sections] in Hrest. injection Hrest as ->.
    apply Forall2_nil_inv_r in Hd as ->. rewrite Hc. done.
  - rewrite bool_decide_eq_false_2 by done. cbn [mbind outcome_bind ok option_list app].
    rewrite (IH payloads' _ o2); done.
Qed.

(** All the frames of an update: one frame comes out, at the end. *)
Lemma update_accepted (r r' : receiver) opening groups payloads (o1 final : open) view :
  groups <> [] -> open_update r = None -> begin_update r opening = ok o1 ->
  apply_sections (held_pane_by_id r) o1 (concat groups) = ok final ->
  commit_update frame_pane_ids final = ok (view, r') ->
  Forall2 (fun payload p => decode payload = ok (PaintedUpdatePartFrame p)) payloads (parts_of opening groups) ->
  accept_session_frames r (ReceivedBinary Message <$> payloads) = ok ([Painted Message view], r').
Proof.
  intros Hne Ho Hb Ha Hc Hd. destruct groups as [|g groups]; [done|]. rewrite parts_of_cons in Hd.
  apply Forall2_cons_inv_r in Hd as (payload & payloads' & Hp & Hd & ->).
  cbn [fmap list_fmap accept_session_frames concat] in *.
  rewrite apply_sections_bind in Ha. apply outcome_bind_ok in Ha as (o2 & Hg & Hrest).
  rewrite (accept_one_part r payload _ o1 o2 Hp); [|by rewrite Ho|done]. cbn [is_last_part].
  destruct groups as [|g' groups].
  - rewrite bool_decide_eq_true_2 by done. cbn [concat apply_pane_sections] in Hrest. injection Hrest as ->.
    apply Forall2_nil_inv_r in Hd as ->. rewrite Hc. done.
  - rewrite bool_decide_eq_false_2 by done. cbn [mbind outcome_bind ok option_list app].
    rewrite (later_parts_accept (g' :: groups) payloads' _ r' o2 final view); done.
Qed.
End apply.
