(* ===== verification/PaintedStream.v ===== *)
(** * The two ends of a connection stay in step

    What the writer records as sent is what the reader holds, from the first
    update on. *)

From S2P Require Import Prelude Varint Cell RowDecoder Snapshot PaintedUpdate PaintedWire PaintedParts PaintedContract.
From S2P Require Import PaintedSender PaintedReceiver PaintedRows PaintedApply.
From stdpp Require Import strings gmap options.
#[local] Open Scope N_scope.

(** ** What a snapshot shows *)

(** The header a pane is recorded with. *)
Definition pane_header_of (p : PaneSnapshot) : PaneHeader :=
  MkPaneHeader (build_pane_cursor (cursor_snapshot p)) (snapshot_top_row_index p) (snapshot_retained_line_count p)
    ((fun g => MkPaneWindow (view_column_count g) (N.of_nat (length (view_rows g))) (grid_view_row_offset g) false)
       <$> terminal_grid_view p).

Definition pane_rows (p : PaneSnapshot) : list SharedRow :=
  match terminal_grid_view p with Some g => view_rows g | None => [] end.

(** A view that shows a pane as the snapshot has it. Its rows are rows of the
    same bytes. *)
Record pane_shows (p : PaneSnapshot) (v : ReceivedPaneView) : Prop :=
  { ps_id : view_pane_id v = snapshot_pane_id p;
    ps_cursor : view_cursor_snapshot v = cursor_snapshot p;
    ps_top : view_top_row v = snapshot_top_row_index p;
    ps_retained : view_retained_line_count v = snapshot_retained_line_count p;
    ps_grid : match terminal_grid_view p, view_grid v with
      | Some g, Some g' =>
          view_column_count g' = view_column_count g /\ grid_view_row_offset g' = grid_view_row_offset g
          /\ snapshot_bytes (view_rows g') = row_bytes (view_rows g)
      | None, None => True
      | _, _ => False
      end }.

(** A row that can be sent at a width: its bytes open with their own count, and
    read as a row of that width. *)
Definition sendable (column_count : N) (r : SharedRow) : Prop :=
  row_framed (get_encoded_row_bytes r) /\ readable column_count (get_encoded_row_bytes r).

Record pane_ok (p : PaneSnapshot) : Prop :=
  { po_id : snapshot_pane_id p < U8_MODULUS ^ 16;
    po_cursor : snapshot_row_index (cursor_snapshot p) <= U16_MAX /\ snapshot_column_index (cursor_snapshot p) <= U16_MAX;
    po_top : is_u64 (snapshot_top_row_index p);
    po_retained : is_u64 (snapshot_retained_line_count p);
    po_grid g : terminal_grid_view p = Some g ->
      view_column_count g <= U16_MAX /\ N.of_nat (length (view_rows g)) <= U16_MAX /\ is_u64 (grid_view_row_offset g)
      /\ Forall (sendable (view_column_count g)) (view_rows g) }.

Lemma cursor_round_trip c : build_cursor_snapshot (build_pane_cursor c) = c.
Proof. by destruct c as [? ? ? ? [[]|]]. Qed.

(** ** One pane *)

(** What the writer recorded for a pane it sent as [p]. *)
Record sent_as (p : PaneSnapshot) (s : SentPane) : Prop :=
  { sa_header : sent_pane_header s = pane_header_of p; sa_rows : sent_rows s = pane_rows p }.

Definition reset_header (reset : bool) (h : PaneHeader) : PaneHeader :=
  MkPaneHeader (header_cursor h) (view_top_row_index h) (retained_line_count h)
    ((fun w => MkPaneWindow (window_column_count w) (window_row_count w) (view_row_offset w) reset) <$> pane_window h).

(** The rows the update of [p] builds on. *)
Definition base_rows (p : PaneSnapshot) (sent : option SentPane) : option (list SharedRow) :=
  g ← terminal_grid_view p; held_rows p g (N.of_nat (length (view_rows g))) sent.

Lemma build_pane_update_eq p sent :
  pane_ok p ->
  build_pane_update p sent
  = Some (MkPaneUpdate (snapshot_pane_id p)
      (reset_header (bool_decide (base_rows p sent = None)) (pane_header_of p))
      (compute_row_instructions (default [] (base_rows p sent)) (pane_rows p))).
Proof.
  intros Hp. unfold build_pane_update, base_rows, pane_rows, pane_header_of, reset_header.
  destruct (terminal_grid_view p) as [g|] eqn:Eg; [|done]. destruct (po_grid p Hp g Eg) as (_ & Hl & _).
  unfold u16_try_from. rewrite (proj2 (N.leb_le _ _)) by done. done.
Qed.

Lemma pane_header_wf p reset : pane_ok p -> PaneHeader_wf (reset_header reset (pane_header_of p)).
Proof.
  intros [H1 [H2 H3] H4 H5 H6]. split; try done. cbn [reset_header pane_header_of pane_window]. intros w Hw.
  destruct (terminal_grid_view p) as [g|]; [|done]. injection Hw as <-. cbn.
  destruct (H6 g eq_refl) as (? & ? & ? & _). done.
Qed.

(** The rows the writer builds on are those of a window of the same size. *)
Lemma base_rows_some p sent held :
  base_rows p sent = Some held ->
  exists g s w, terminal_grid_view p = Some g /\ sent = Some s /\ pane_window (sent_pane_header s) = Some w
    /\ window_column_count w = view_column_count g /\ window_row_count w = N.of_nat (length (view_rows g))
    /\ held = sent_rows s.
Proof.
  unfold base_rows, held_rows. destruct (terminal_grid_view p) as [g|]; [|done]. cbn [mbind option_bind].
  destruct sent as [s|]; [|done]. cbn [mbind option_bind].
  destruct (pane_window (sent_pane_header s)) as [w|] eqn:Ew; [|done]. cbn [mbind option_bind].
  destruct (_ && _) eqn:E; [|done]. bools. intros [= <-]. eauto 10.
Qed.

(** What the reader holds of a pane the writer recorded as [s]. *)
Definition holds_sent (held : gmap N HeldPane) (pane_id : N) (s : SentPane) : Prop :=
  forall w, pane_window (sent_pane_header s) = Some w ->
    exists h, held !! pane_id = Some h /\ held_column_count h = window_column_count w
      /\ snapshot_bytes (held_row_snapshots h) = row_bytes (sent_rows s)
      /\ N.of_nat (length (sent_rows s)) = window_row_count w.

(** The rows of a pane that was sent before and those shown now live in one
    memory. *)
Definition pane_in_memory (sent : option SentPane) (p : PaneSnapshot) : Prop :=
  addresses_agree (match sent with Some s => sent_rows s | None => [] end ++ pane_rows p).

Lemma agree_default sent p held :
  pane_in_memory sent p -> base_rows p sent = held -> addresses_agree (default [] held ++ pane_rows p).
Proof.
  intros Hm <-. destruct (base_rows p sent) as [rows|] eqn:E.
  - destruct (base_rows_some _ _ _ E) as (g & s & w & _ & -> & _ & _ & _ & ->). exact Hm.
  - intros r r' Hr Hr'. apply Hm; apply elem_of_app; by right.
Qed.

Lemma held_section_eq held p sent w :
  (forall s, sent = Some s -> holds_sent held (snapshot_pane_id p) s) ->
  pane_window (reset_header (bool_decide (base_rows p sent = None)) (pane_header_of p)) = Some w ->
  snapshot_bytes (held_section_rows held (snapshot_pane_id p) w) = row_bytes (default [] (base_rows p sent))
  /\ N.of_nat (length (default [] (base_rows p sent))) <= window_row_count w.
Proof.
  intros Hheld Hw. unfold held_section_rows. cbn [reset_header pane_header_of pane_window] in Hw.
  destruct (base_rows p sent) as [rows|] eqn:E.
  - destruct (base_rows_some _ _ _ E) as (g & s & w' & Hg & Hs & Hw' & Hc & Hr & ->). rewrite Hg in Hw. injection Hw as <-.
    destruct (Hheld s Hs w' Hw') as (h & -> & Hhc & Hhr & Hhl). cbn [is_reset window_column_count window_row_count default].
    rewrite Hhc, Hc, N.eqb_refl. split; [done|]. cbn. lia.
  - assert (is_reset w = true) as ->.
    { destruct (terminal_grid_view p); [|done]. injection Hw as <-. done. }
    split; [done|]. simpl. lia.
Qed.

(** The update of a pane fits what the reader holds. *)
Lemma pane_update_applies held p sent u :
  pane_ok p -> pane_in_memory sent p -> (forall s, sent = Some s -> holds_sent held (snapshot_pane_id p) s) ->
  build_pane_update p sent = Some u ->
  update_applies held u (row_bytes (pane_rows p)) /\ PaneUpdate_wf u.
Proof.
  intros Hp Hm Hheld Hu. rewrite (build_pane_update_eq p sent Hp) in Hu. injection Hu as <-.
  destruct (row_instructions_build _ _ (agree_default sent p _ Hm eq_refl)) as [Hb Hc].
  pose proof (held_section_eq held p sent) as Heq.
  set (reset := bool_decide (base_rows p sent = None)) in *.
  assert (forall g, terminal_grid_view p = Some g -> pane_window (reset_header reset (pane_header_of p))
    = Some (MkPaneWindow (view_column_count g) (N.of_nat (length (view_rows g))) (grid_view_row_offset g) reset)) as Hwin.
  { intros g Hg. cbn [reset_header pane_header_of pane_window]. by rewrite Hg. }
  split.
  - unfold update_applies. cbn [update_header update_pane_id update_instructions].
    destruct (terminal_grid_view p) as [g|] eqn:Eg.
    + rewrite (Hwin g eq_refl). destruct (Heq _ Hheld (Hwin g eq_refl)) as [-> _]. rewrite Hb.
      unfold pane_rows. rewrite Eg. cbn [window_row_count window_column_count].
      split_and!; [done|rewrite length_fmap; lia|]. apply Forall_fmap.
      destruct (po_grid p Hp g Eg) as (_ & _ & _ & H). eapply Forall_impl; [exact H|]. by intros r [_ ?].
    + cbn [reset_header pane_header_of pane_window]. unfold pane_rows. rewrite Eg. cbn [fmap option_fmap option_map]. done.
  - split; cbn [update_header update_pane_id update_instructions]; [apply Hp|by apply pane_header_wf|].
    destruct (terminal_grid_view p) as [g|] eqn:Eg.
    + destruct (po_grid p Hp g Eg) as (_ & Hl & _ & H). destruct (Heq _ Hheld (Hwin g eq_refl)) as [_ Hle].
      eapply built_wf; [exact Hb|exact Hc|rewrite length_fmap; cbn [window_row_count] in Hle; lia|].
      apply Forall_fmap. unfold pane_rows. rewrite Eg. eapply Forall_impl; [exact H|]. by intros r [? _].
    + unfold pane_rows. rewrite Eg. constructor.
Qed.

(** ** A pane that did not change *)

Lemma keeps_take held is_ total :
  forallb is_keep is_ = true -> built held is_ = Some total -> total = take (length total) held.
Proof.
  revert total. induction is_ as [|i is_ IH] using rev_ind; intros total Hk Hb; [by injection Hb as <-|].
  rewrite forallb_app in Hk. apply andb_true_iff in Hk as [Hk Hi]. rewrite built_snoc in Hb.
  destruct (built held is_) as [rows|]; [|done]. specialize (IH _ Hk eq_refl).
  destruct i as [n| |]; [|done..]. cbn [build_step mbind option_bind] in Hb.
  destruct (get_range held (length rows) (N.to_nat n)) as [r|] eqn:Er; [|done]. injection Hb as <-.
  pose proof (get_range_length _ _ _ _ Er) as Hl. apply get_range_some in Er as [_ ->].
  rewrite length_app, Hl. rewrite IH at 1. apply take_take_drop.
Qed.

Lemma unchanged_pane_shows p_old p sp u v :
  pane_ok p -> pane_in_memory (Some sp) p -> sent_as p_old sp -> build_pane_update p (Some sp) = Some u ->
  is_pane_update_unchanged u (Some sp) = true -> snapshot_pane_id p_old = snapshot_pane_id p ->
  pane_shows p_old v -> pane_shows p v.
Proof.
  intros Hp Hm [Hsh Hsr] Hu Hun Hid [V1 V2 V3 V4 V5]. rewrite (build_pane_update_eq p _ Hp) in Hu. injection Hu as <-.
  unfold is_pane_update_unchanged in Hun. cbn [update_header update_instructions] in Hun.
  apply andb_true_iff in Hun as [Hh Hk]. apply bool_decide_eq_true in Hh. rewrite Hsh in Hh.
  destruct (row_instructions_build _ _ (agree_default (Some sp) p _ Hm eq_refl)) as [Hb _].
  apply (keeps_take _ _ _ Hk) in Hb. pose proof (f_equal header_cursor Hh) as Hc. pose proof (f_equal view_top_row_index Hh) as Ht.
  pose proof (f_equal retained_line_count Hh) as Hr. pose proof (f_equal pane_window Hh) as Hw.
  cbn [header_cursor view_top_row_index retained_line_count pane_window pane_header_of reset_header] in Hc, Ht, Hr, Hw.
  assert (cursor_snapshot p_old = cursor_snapshot p) as Ec.
  { rewrite <- (cursor_round_trip (cursor_snapshot p_old)), Hc. apply cursor_round_trip. }
  split; [congruence|congruence|congruence|congruence|].
  destruct (terminal_grid_view p_old) as [go|] eqn:Eo, (terminal_grid_view p) as [g|] eqn:Eg; cbn in Hw; [|done|done|done].
  injection Hw as W1 W2 W3 W4. symmetry in W4. apply bool_decide_eq_false in W4.
  destruct (base_rows p (Some sp)) as [rows|] eqn:E; [|done].
  destruct (base_rows_some _ _ _ E) as (g' & s & w & Hg' & [= <-] & _ & _ & _ & ->).
  destruct (view_grid v) as [gv|]; [|done]. destruct V5 as (V5 & V6 & V7). split_and!; [congruence|congruence|].
  rewrite V7. unfold pane_rows in Hb, Hsr. rewrite Eg in Hb. rewrite Eo in Hsr. cbn [default id] in Hb. rewrite Hsr in Hb.
  rewrite Hb. symmetry. apply take_ge. rewrite !length_fmap. lia.
Qed.

(** ** The panes of an update *)

Lemma build_pane_updates_cases sent panes :
  Forall pane_ok panes ->
  exists us, build_pane_updates sent panes = Some us
    /\ Forall2 (fun p u => build_pane_update p (sent !! snapshot_pane_id p) = Some u) panes us.
Proof.
  induction 1 as [|p panes Hp _ (us & E & IH)]; [by exists []|]. cbn [build_pane_updates].
  rewrite (build_pane_update_eq p _ Hp) in *. cbn [mbind option_bind]. rewrite E. eexists. split; [done|].
  constructor; [|done]. by rewrite build_pane_update_eq.
Qed.

Lemma built_update_id p sent u : build_pane_update p sent = Some u -> update_pane_id u = snapshot_pane_id p.
Proof.
  unfold build_pane_update. destruct (terminal_grid_view p) as [g|]; cbn [mbind option_bind].
  - destruct (u16_try_from _) as [n|]; [|done]. cbn [mbind option_bind]. by intros [= <-].
  - by intros [= <-].
Qed.

Lemma built_update_ids (sent : gmap N SentPane) panes us :
  Forall2 (fun p u => build_pane_update p (sent !! snapshot_pane_id p) = Some u) panes us ->
  update_pane_id <$> us = snapshot_pane_id <$> panes.
Proof. induction 1 as [|p u panes us Hu _ IH]; [done|]. cbn. by rewrite IH, (built_update_id _ _ _ Hu). Qed.

(** Inserting the panes of a list whose ids differ. *)
Lemma lookup_insert_all {A V} (key : A -> N) (val : A -> V) (l : list A) (m : gmap N V) k v :
  NoDup (key <$> l) ->
  (foldl (fun m a => <[key a := val a]> m) m l) !! k = Some v
  <-> (exists a, a ∈ l /\ key a = k /\ val a = v) \/ ((k ∉ (key <$> l)) /\ m !! k = Some v).
Proof.
  revert m. induction l as [|a l IH]; intros m Hnd; cbn [foldl].
  { split; [intros H; right; split; [apply not_elem_of_nil|done]|intros [(a & H & _)|[_ H]]; [by apply elem_of_nil in H|done]]. }
  cbn in Hnd. apply NoDup_cons in Hnd as [Ha Hnd]. rewrite IH by done. split.
  - intros [(b & Hb & <- & <-)|[Hk H]]; [left; exists b; split; [by right|done]|].
    apply lookup_insert_Some in H as [[<- <-]|[Hne H]]; [left; exists a; split; [by left|done]|].
    right. split; [|done]. cbn. rewrite elem_of_cons. intros [H'|?]; [by apply Hne|done].
  - intros [(b & Hb & <- & <-)|[Hk H]].
    + apply elem_of_cons in Hb as [->|Hb]; [|left; by exists b]. right. split; [done|]. by rewrite lookup_insert_eq.
    + right. cbn in Hk. rewrite elem_of_cons in Hk. split; [tauto|]. rewrite lookup_insert_ne; [done|]. intros H'. apply Hk. by left.
Qed.

(** ** The connection *)

Section stream.
Context {PaintedFrame PlacementPreview PanePlacementPreview : Type}.
Context (frame_json : PaintedFrame -> list N) (preview_json : PlacementPreview -> list N).
Context (parse_painted_frame : list N -> string + PaintedFrame).
Context (parse_placement_preview : list N -> string + PanePlacementPreview).
Context (frame_pane_ids : PaintedFrame -> list N).
(** The preview built for the wire. *)
Context (to_wire : PlacementPreview -> PanePlacementPreview).
Abbreviation snapshot := (@RenderSnapshot PlacementPreview).
Abbreviation sender := (@PaintedUpdateSender PlacementPreview).
Abbreviation receiver := (@PaintedUpdateReceiver PaintedFrame PanePlacementPreview).
Abbreviation received := (@ReceivedPaintedFrame PaintedFrame PanePlacementPreview).
Context {Message : Type}.
Abbreviation accept_all := (accept_session_frames parse_painted_frame parse_placement_preview frame_pane_ids (Message := Message)).

(** The JSON library: what it writes it reads, and it writes a byte at least. *)
Record json_round_trips : Prop :=
  { jr_frame f : frame_json f <> [] /\ is_u64 (byte_count (frame_json f)) /\ parse_painted_frame (frame_json f) = inr f;
    jr_preview p : preview_json p <> [] /\ is_u64 (byte_count (preview_json p))
      /\ parse_placement_preview (preview_json p) = inr (to_wire p) }.
Context (Hjson : json_round_trips).

Definition wire_preview (r : snapshot) : option PanePlacementPreview :=
  (fun p => to_wire (shared_value p)) <$> placement_preview r.

(** A received frame that shows a snapshot. *)
Record shows (r : snapshot) (f : PaintedFrame) (v : received) : Prop :=
  { sh_frame : received_frame v = f;
    sh_preview : received_preview v = wire_preview r;
    sh_panes : Forall2 pane_shows (pane_snapshots r) (received_pane_views v) }.

(** A snapshot and its frame that the writer can be asked to send: the frame
    lists the snapshot's panes, each once; the numbers have their widths; and
    the rows and previews live in one memory with those sent last. *)
Record sendable_snapshot (s : sender) (r : snapshot) (f : PaintedFrame) : Prop :=
  { ss_ids : frame_pane_ids f = snapshot_pane_id <$> pane_snapshots r;
    ss_unique : NoDup (snapshot_pane_id <$> pane_snapshots r);
    ss_panes : Forall pane_ok (pane_snapshots r);
    ss_memory : Forall (fun p => pane_in_memory (sent_pane_by_id s !! snapshot_pane_id p) p) (pane_snapshots r);
    ss_preview_memory p q : placement_preview r = Some p -> sent_placement_preview s = Some q ->
      address p = address q -> p = q;
    ss_number : is_u64 (next_update_sequence s) }.

(** The two ends between updates; [shown] is the last frame given out and the
    snapshot it shows. *)
Record in_step (s : sender) (r : receiver) (shown : option (snapshot * received)) : Prop :=
  { st_closed : open_update r = None;
    st_number : next_update_sequence s = last_update_sequence r + 1;
    st_held id sp : sent_pane_by_id s !! id = Some sp -> holds_sent (held_pane_by_id r) id sp;
    st_shown : match shown with
      | None => sent_structure_json_bytes s = [] /\ held_painted_frame r = None
          /\ sent_placement_preview s = None /\ held_placement_preview r = None /\ sent_pane_by_id s = ∅
      | Some (last, v) =>
          sent_structure_json_bytes s = frame_json (received_frame v)
          /\ held_painted_frame r = Some (received_frame v)
          /\ sent_placement_preview s = placement_preview last /\ held_placement_preview r = wire_preview last
          /\ shows last (received_frame v) v
          /\ frame_pane_ids (received_frame v) = snapshot_pane_id <$> pane_snapshots last
          /\ (forall p, p ∈ pane_snapshots last ->
                exists sp, sent_pane_by_id s !! snapshot_pane_id p = Some sp /\ sent_as p sp)
      end }.

Lemma in_step_new : in_step new_sender new_receiver None.
Proof. split; [done|done| |done]. intros id sp H. cbn in H. by rewrite lookup_empty in H. Qed.

(** *** Opening the update *)

Definition wire_preview_update (r : snapshot) (s : sender) : PlacementPreviewUpdate PanePlacementPreview :=
  match compute_placement_preview_update preview_json r s with
  | PreviewUnchanged => PreviewUnchanged
  | PreviewCleared => PreviewCleared
  | PreviewReplaced _ =>
      match placement_preview r with Some p => PreviewReplaced (to_wire (shared_value p)) | None => PreviewUnchanged end
  end.

Definition structure_of (f : PaintedFrame) (s : sender) : option (list N) :=
  if bool_decide (frame_json f = sent_structure_json_bytes s) then None else Some (frame_json f).

Definition opening_for (r : snapshot) (f : PaintedFrame) (s : sender) : @PaintedUpdateOpening PaintedFrame PanePlacementPreview :=
  MkPaintedUpdateOpening (next_update_sequence s)
    (if bool_decide (frame_json f = sent_structure_json_bytes s) then None else Some f) (wire_preview_update r s).

Lemma opening_for_decodes r f s :
  is_u64 (next_update_sequence s) ->
  opening_decodes parse_painted_frame parse_placement_preview (next_update_sequence s) (structure_of f s)
    (compute_placement_preview_update preview_json r s) (opening_for r f s).
Proof using Hjson.
  intros Hn. split; [done| |]; cbn [opening_frame opening_preview opening_for].
  - unfold structure_of. destruct (bool_decide _); [done|]. destruct (jr_frame Hjson f) as (? & ? & ?). eauto 6.
  - unfold wire_preview_update, compute_placement_preview_update.
    destruct (placement_preview r) as [p|], (sent_placement_preview s) as [q|]; try done.
    + destruct (ptr_eq p q); [done|]. destruct (jr_preview Hjson (shared_value p)) as (? & ? & ?). eauto 6.
    + destruct (jr_preview Hjson (shared_value p)) as (? & ? & ?). eauto 6.
Qed.

Lemma begin_update_ok s (r : receiver) shown rs f :
  in_step s r shown -> sendable_snapshot s rs f ->
  begin_update r (opening_for rs f s) = ok (MkOpenUpdate (next_update_sequence s) f (wire_preview rs) []).
Proof using Hjson.
  intros [_ Hn _ Hs] Hss. unfold begin_update. cbn [opening_for opening_sequence opening_frame opening_preview].
  rewrite <- Hn, N.eqb_refl. cbn [negb].
  assert (match (if bool_decide (frame_json f = sent_structure_json_bytes s) then None else Some f) with
          | Some painted_frame => ok painted_frame | None => ok_or (held_painted_frame r) MissingStructure end = ok f) as ->.
  { destruct (bool_decide _) eqn:E; [|done]. apply bool_decide_eq_true in E.
    destruct (jr_frame Hjson f) as (Hne & _ & Hf). destruct shown as [[last v]|]; [|by destruct Hs as (Hs & _); congruence].
    destruct Hs as (Hs & -> & _). rewrite Hs in E. rewrite E in Hf. destruct (jr_frame Hjson (received_frame v)) as (_ & _ & Hf').
    cbn [ok_or]. congruence. }
  cbn [mbind outcome_bind ok]. do 2 f_equal. unfold wire_preview_update, wire_preview, compute_placement_preview_update.
  assert (held_placement_preview r = (fun p => to_wire (shared_value p)) <$> sent_placement_preview s) as ->.
  { destruct shown as [[last v]|]; [by destruct Hs as (_ & _ & -> & -> & _)|by destruct Hs as (_ & _ & -> & -> & _)]. }
  destruct (placement_preview rs) as [p|] eqn:Ep, (sent_placement_preview s) as [q|] eqn:Eq; try done.
  destruct (ptr_eq p q) eqn:E; [|done]. apply N.eqb_eq in E. by rewrite (ss_preview_memory _ _ _ Hss p q Ep Eq E).
Qed.

(** *** The panes of the update *)

Abbreviation builds s := (fun p u => build_pane_update p (sent_pane_by_id (s : sender) !! snapshot_pane_id p) = Some u).

Lemma updates_apply s (r : receiver) shown rs f us :
  in_step s r shown -> sendable_snapshot s rs f -> Forall2 (builds s) (pane_snapshots rs) us ->
  Forall2 (update_applies (held_pane_by_id r)) us ((fun p => row_bytes (pane_rows p)) <$> pane_snapshots rs)
  /\ Forall PaneUpdate_wf us.
Proof.
  intros Hstep [_ _ Hp Hm _ _] H. revert Hp Hm. induction H as [|p u panes us Hu _ IH]; intros Hp Hm; [by split|].
  apply Forall_cons in Hp as [Hp Hps]. apply Forall_cons in Hm as [Hm Hms]. destruct (IH Hps Hms) as [H1 H2].
  destruct (pane_update_applies (held_pane_by_id r) p _ u Hp Hm) as [H3 H4]; [|done|].
  - intros sp Hsp. by apply (st_held _ _ _ Hstep).
  - split; cbn; by constructor.
Qed.

Lemma build_sent_pane_eq p sent u : pane_ok p -> build_pane_update p sent = Some u -> sent_as p (build_sent_pane p u).
Proof.
  intros Hp Hu. rewrite (build_pane_update_eq p sent Hp) in Hu. injection Hu as <-. split; [|done].
  unfold build_sent_pane, pane_header_of. cbn. by destruct (terminal_grid_view p).
Qed.

Lemma staged_view_shows held p sent u s :
  pane_ok p -> build_pane_update p sent = Some u -> staged_for held u (row_bytes (pane_rows p)) s ->
  pane_shows p (staged_view s).
Proof.
  intros Hp Hu [S1 S2 S3]. rewrite (build_pane_update_eq p sent Hp) in Hu. injection Hu as <-.
  cbn [update_pane_id update_header] in S1, S2. unfold staged_view. rewrite S2.
  split; cbn; [done|apply cursor_round_trip|done|done|]. unfold pane_rows in S3.
  destruct (terminal_grid_view p) as [g|]; [|done]. cbn. done.
Qed.

Lemma staged_views_show (s : sender) held panes us staged :
  Forall pane_ok panes -> Forall2 (builds s) panes us ->
  Forall3 (staged_for held) us ((fun p => row_bytes (pane_rows p)) <$> panes) staged ->
  Forall2 pane_shows panes (staged_view <$> staged).
Proof.
  intros Hp H. revert staged. induction H as [|p u panes us Hu _ IH]; intros staged Hs; inversion Hs; subst; [constructor|].
  apply Forall_cons in Hp as [Hp Hps]. cbn. constructor; [by eapply staged_view_shows|]. by apply IH.
Qed.

(** *** What both ends record *)

Lemma hold_staged_other l m id :
  id ∉ (staged_pane_id <$> l) -> foldl hold_staged m l !! id = m !! id.
Proof.
  revert m. induction l as [|s l IH]; intros m Hid; [done|]. cbn in Hid. apply not_elem_of_cons in Hid as [Hne Hid].
  cbn [foldl]. rewrite IH by done. unfold hold_staged. destruct (pane_window _); [|done]. by rewrite lookup_insert_ne.
Qed.

Lemma hold_staged_lookup l m s w :
  NoDup (staged_pane_id <$> l) -> s ∈ l -> pane_window (staged_header s) = Some w ->
  foldl hold_staged m l !! staged_pane_id s = Some (MkHeldPane (window_column_count w) (staged_rows s)).
Proof.
  revert m. induction l as [|s' l IH]; intros m Hnd Hs Hw; [by apply elem_of_nil in Hs|].
  cbn in Hnd. apply NoDup_cons in Hnd as [Hs' Hnd]. cbn [foldl]. apply elem_of_cons in Hs as [<-|Hs]; [|by apply IH].
  rewrite hold_staged_other by done. unfold hold_staged. rewrite Hw. by rewrite lookup_insert_eq.
Qed.

Lemma sent_panes_recorded (s : sender) panes us :
  NoDup (snapshot_pane_id <$> panes) -> Forall2 (builds s) panes us ->
  forall id sp, record_sent_panes panes us !! id = Some sp <->
    exists p u, (p, u) ∈ zip panes us /\ snapshot_pane_id p = id /\ sp = build_sent_pane p u.
Proof.
  intros Hnd H id sp. unfold record_sent_panes.
  assert ((fun pu : PaneSnapshot * PaneUpdate => snapshot_pane_id pu.1) <$> zip panes us = snapshot_pane_id <$> panes) as Ek.
  { rewrite <- (fst_zip panes us) at 2 by (rewrite (Forall2_length _ _ _ H); done). by rewrite <- list_fmap_compose. }
  rewrite (lookup_insert_all (fun pu : PaneSnapshot * PaneUpdate => snapshot_pane_id pu.1)
    (fun pu => build_sent_pane pu.1 pu.2)) by (by rewrite Ek). rewrite lookup_empty. split.
  - intros [([p u] & Hin & <- & <-)|[_ [=]]]. by exists p, u.
  - intros (p & u & Hin & <- & ->). left. by exists (p, u).
Qed.

Lemma zip_forall2 {A B} (R : A -> B -> Prop) (l : list A) (k : list B) i a b :
  Forall2 R l k -> zip l k !! i = Some (a, b) -> l !! i = Some a /\ k !! i = Some b /\ R a b.
Proof.
  intros H Hz. apply lookup_zip_with_Some in Hz as (a' & b' & [= -> ->] & Ha & Hb).
  split_and!; [done|done|]. by eapply Forall2_lookup_lr.
Qed.

Lemma recorded_held (s : sender) held panes us staged id sp :
  Forall pane_ok panes -> NoDup (snapshot_pane_id <$> panes) -> Forall2 (builds s) panes us ->
  Forall3 (staged_for held) us ((fun p => row_bytes (pane_rows p)) <$> panes) staged ->
  record_sent_panes panes us !! id = Some sp -> holds_sent (foldl hold_staged ∅ staged) id sp.
Proof.
  intros Hp Hnd Hb Hs Hsp w Hw. apply (sent_panes_recorded s panes us Hnd Hb) in Hsp as (p & u & Hin & <- & ->).
  apply list_elem_of_lookup in Hin as [i Hi]. destruct (zip_forall2 _ _ _ _ _ _ Hb Hi) as (Hpi & Hui & Hu).
  pose proof (Forall_lookup_1 _ _ _ _ Hp Hpi) as Hpok. destruct (build_sent_pane_eq p _ u Hpok Hu) as [E1 E2].
  rewrite E1 in Hw. rewrite E2.
  destruct (Forall3_lookup_l _ _ _ _ _ _ Hs Hui) as (total & st & Ht & Hst & [S1 S2 S3]).
  rewrite list_lookup_fmap, Hpi in Ht. injection Ht as <-. rewrite (built_update_id _ _ _ Hu) in S1.
  assert (staged_pane_id <$> staged = snapshot_pane_id <$> panes) as Eids.
  { clear -Hb Hs. revert staged Hs. induction Hb as [|p u panes us Hu _ IH]; intros staged Hs; inversion Hs as [|? ? ? ? ? ? [H _ _]]; subst; [done|].
    cbn. by rewrite H, (built_update_id _ _ _ Hu), IH. }
  rewrite (build_pane_update_eq p _ Hpok) in Hu. injection Hu as <-. cbn [update_header] in S2.
  unfold pane_header_of in Hw. cbn [pane_window] in Hw. unfold pane_rows in S3 |- *.
  destruct (terminal_grid_view p) as [g|] eqn:Eg; [|done]. injection Hw as <-.
  eexists. split_and!.
  - rewrite <- S1. apply hold_staged_lookup; [by rewrite Eids|by eapply list_elem_of_lookup_2|].
    rewrite S2. unfold reset_header, pane_header_of. cbn [pane_window]. by rewrite Eg.
  - done.
  - done.
  - done.
Qed.

(** *** One update, delivered *)

Definition sender_after (s : sender) (r : snapshot) (f : PaintedFrame) (us : list PaneUpdate) : sender :=
  MkPaintedUpdateSender (frame_json f) (placement_preview r) (record_sent_panes (pane_snapshots r) us)
    (next_update_sequence s + 1).

Lemma update_delivered s (r : receiver) shown rs f us payloads :
  in_step s r shown -> sendable_snapshot s rs f -> Forall2 (builds s) (pane_snapshots rs) us ->
  encode_painted_update (next_update_sequence s) (structure_of f s) (compute_placement_preview_update preview_json rs s) us
    = ok payloads ->
  exists v r', accept_all r (ReceivedBinary Message <$> payloads) = ok ([Painted Message v], r')
    /\ shows rs f v /\ received_update_sequence v = next_update_sequence s
    /\ in_step (sender_after s rs f us) r' (Some (rs, v)).
Proof using Hjson.
  intros Hstep Hss Hb Hencode. destruct (updates_apply s r shown rs f us Hstep Hss Hb) as [Ha Hwf].
  pose proof (built_update_ids (sent_pane_by_id s) _ _ Hb) as Hids.
  destruct (painted_update_reads parse_painted_frame parse_placement_preview _ _ _ _ MAX_FRAME_BYTE_COUNT us payloads
    ltac:(done) ltac:(done) Hwf (opening_for_decodes rs f s (ss_number _ _ _ Hss)) Hencode) as (groups & Hr).
  pose proof (begin_update_ok s r shown rs f Hstep Hss) as Hbegin.
  set (o1 := MkOpenUpdate (next_update_sequence s) f (wire_preview rs) []) in *.
  assert (frame_pane_ids (open_frame o1) = update_pane_id <$> us) as Hframe_ids.
  { rewrite Hids. apply (ss_ids _ _ _ Hss). }
  destruct (update_sections_apply frame_pane_ids _ us _ o1 _ Ha (pr_split _ _ _ _ _ _ _ Hr) eq_refl Hframe_ids)
    as (staged & Hstaged & Hall).
  assert (groups <> []) as Hne.
  { intros ->. pose proof (pr_parts _ _ _ _ _ _ _ Hr) as Hparts. pose proof (pr_decode _ _ _ _ _ _ _ Hr) as Hdecode.
    by apply Forall2_nil_inv_r in Hdecode. }
  pose proof (commit_ok frame_pane_ids (held_pane_by_id r) us _ (with_staged_panes staged o1) Ha Hall
    ltac:(eapply Forall_impl; [exact Hwf|]; by intros u [_ ? _]) Hframe_ids) as Hcommit.
  eexists _, _. split.
  { eapply update_accepted; [exact Hne|apply Hstep|exact Hbegin|exact Hstaged|exact Hcommit|apply Hr]. }
  assert (Forall2 pane_shows (pane_snapshots rs) (staged_view <$> staged)) as Hviews.
  { eapply staged_views_show; [apply Hss|exact Hb|exact Hall]. }
  split_and!; [by split|done|]. split; [done|done| |].
  - intros id sp Hsp. eapply recorded_held; [apply Hss|apply Hss|exact Hb|exact Hall|exact Hsp].
  - cbn [sender_after sent_structure_json_bytes sent_placement_preview sent_pane_by_id held_painted_frame held_placement_preview
         received_frame open_frame open_preview with_staged_panes o1].
    split_and!; [done|done|done|done|by split|apply Hss|]. intros p Hp.
    apply list_elem_of_lookup in Hp as [i Hi]. destruct (Forall2_lookup_l _ _ _ _ _ Hb Hi) as (u & Hui & Hu).
    exists (build_sent_pane p u). split.
    + apply (sent_panes_recorded s (pane_snapshots rs) us (ss_unique _ _ _ Hss) Hb). exists p, u. split; [|done].
      apply (list_elem_of_lookup_2 _ i). apply lookup_zip_with_Some. eauto.
    + eapply build_sent_pane_eq; [|exact Hu]. eapply Forall_lookup_1; [apply Hss|exact Hi].
Qed.

(** *** Nothing to send *)

Lemma unchanged_shows s (r : receiver) shown rs f us :
  in_step s r shown -> sendable_snapshot s rs f -> Forall2 (builds s) (pane_snapshots rs) us ->
  frame_json f = sent_structure_json_bytes s ->
  is_preview_unchanged (compute_placement_preview_update preview_json rs s) = true ->
  is_every_pane_unchanged (sent_pane_by_id s) us = true ->
  exists last v, shown = Some (last, v) /\ shows rs f v.
Proof using Hjson.
  intros Hstep Hss Hb Hf Hpreview Hpanes. destruct (jr_frame Hjson f) as (Hne & _ & Hp).
  destruct shown as [[last v]|]; [|by destruct (st_shown _ _ _ Hstep) as (E & _); congruence].
  exists last, v. split; [done|].
  destruct (st_shown _ _ _ Hstep) as (Es & _ & Ep & _ & [V1 V2 V3] & Eids & Hlast).
  assert (received_frame v = f) as Ef.
  { destruct (jr_frame Hjson (received_frame v)) as (_ & _ & Hp'). rewrite Hf, Es in Hp. congruence. }
  split; [done| |].
  - rewrite V2. unfold wire_preview. unfold compute_placement_preview_update in Hpreview. rewrite <- Ep in *.
    destruct (placement_preview rs) as [p|] eqn:E1, (sent_placement_preview s) as [q|] eqn:E2; try done.
    destruct (ptr_eq p q) eqn:E; [|done]. apply N.eqb_eq in E. by rewrite (ss_preview_memory _ _ _ Hss p q E1 E2 E).
  - rewrite Ef, (ss_ids _ _ _ Hss) in Eids.
    pose proof (Forall2_length _ _ _ V3) as Hl. assert (length (pane_snapshots rs) = length (pane_snapshots last)) as Hl'.
    { by rewrite <- (length_fmap snapshot_pane_id (pane_snapshots rs)), Eids, length_fmap. }
    apply Forall2_same_length_lookup_2; [lia|]. intros i p view Hi Hv.
    destruct (lookup_lt_is_Some_2 (pane_snapshots last) i) as [p_old Hold]; [apply lookup_lt_Some in Hi; lia|].
    destruct (Forall2_lookup_l _ _ _ _ _ Hb Hi) as (u & Hui & Hu).
    assert (snapshot_pane_id p_old = snapshot_pane_id p) as Eid.
    { assert ((snapshot_pane_id <$> pane_snapshots rs) !! i = (snapshot_pane_id <$> pane_snapshots last) !! i) as Hi_eq by (by rewrite Eids).
      rewrite !list_lookup_fmap, Hi, Hold in Hi_eq. by injection Hi_eq. }
    destruct (Hlast p_old (list_elem_of_lookup_2 _ _ _ Hold)) as (sp & Hsp & Has). rewrite Eid in Hsp. rewrite Hsp in Hu.
    assert (is_pane_update_unchanged u (Some sp) = true) as Hun.
    { unfold is_every_pane_unchanged in Hpanes. rewrite forallb_forall in Hpanes.
      specialize (Hpanes u). rewrite (built_update_id _ _ _ Hu), Hsp in Hpanes. apply Hpanes.
      apply list_elem_of_In. by eapply list_elem_of_lookup_2. }
    pose proof (Forall_lookup_1 _ _ _ _ (ss_memory _ _ _ Hss) Hi) as Hmem. cbn in Hmem. rewrite Hsp in Hmem.
    eapply (unchanged_pane_shows p_old p sp u); [|done|done|done|done|done|].
    + eapply Forall_lookup_1; [apply Hss|exact Hi].
    + by eapply Forall2_lookup_lr.
Qed.
End stream.
