(* ===== verification/PaintedPeer.v ===== *)
(** * A reader and any peer

    What the reader's state is after any frames it accepted, whoever wrote
    them: every row it holds or shows is as wide as its window, the panes of
    an open update are the first of its frame, and frames come out whole and
    in sequence. *)

From S2P Require Import Prelude Varint Cell RowDecoder Snapshot PaintedUpdate PaintedWire PaintedParts PaintedDecode.
From S2P Require Import PaintedSender PaintedReceiver PaintedRows PaintedApply.
From stdpp Require Import strings gmap options.
#[local] Open Scope N_scope.

(** ** Rows *)

(** A row that its bytes read as at a width. *)
Definition row_of_width (column_count : N) (s : RowSnapshot) : Prop :=
  from_encoded_row_bytes (encoded_row_bytes s) column_count = ok s.

Lemma apply_instruction_sat pane_id w held rows i :
  Forall (row_of_width (window_column_count w)) held -> Forall (row_of_width (window_column_count w)) rows ->
  decoded_instruction i ->
  outcome_sat (fun _ => True)
    (fun rows' => Forall (row_of_width (window_column_count w)) rows' /\ (length rows' <= N.to_nat (window_row_count w))%nat)
    (apply_row_instruction pane_id w held rows i).
Proof.
  intros Hheld Hrows Hi. unfold apply_row_instruction.
  apply (outcome_sat_bind (fun _ => True) (Forall (row_of_width (window_column_count w)))).
  - assert (forall first count, outcome_sat (fun _ => True) (Forall (row_of_width (window_column_count w)))
      (held_rows ← ok_or (get_range held first count) (HeldRowOutOfRange pane_id); ok (rows ++ held_rows))) as Hrange.
    { intros first count. destruct (get_range held first count) as [r|] eqn:E; [|done].
      apply get_range_some in E as [_ ->]. apply Forall_app. split; [done|]. by apply Forall_take, Forall_drop. }
    destruct i as [n|source n|bytes]; [apply Hrange..|]. destruct Hi as [_ Hb].
    pose proof (from_encoded_no_panic bytes (window_column_count w) Hb) as Hn.
    destruct (from_encoded_row_bytes bytes _) as [[e|s]|] eqn:E; [done| |done]. cbn.
    apply Forall_app. split; [done|]. apply Forall_singleton. unfold row_of_width. by rewrite (from_encoded_bytes _ _ _ E).
  - intros rows' _ H. destruct (_ <? _)%nat eqn:E; [done|]. apply Nat.ltb_ge in E. by split.
Qed.

Lemma apply_instructions_sat pane_id w held rows instructions :
  Forall (row_of_width (window_column_count w)) held -> Forall (row_of_width (window_column_count w)) rows ->
  (length rows <= N.to_nat (window_row_count w))%nat -> Forall decoded_instruction instructions ->
  outcome_sat (fun _ => True)
    (fun rows' => Forall (row_of_width (window_column_count w)) rows' /\ (length rows' <= N.to_nat (window_row_count w))%nat)
    (apply_row_instructions pane_id w held rows instructions).
Proof.
  intros Hheld. revert rows. induction instructions as [|i instructions IH]; intros rows Hrows Hl Hi; [by split|].
  apply Forall_cons in Hi as [Hi His]. cbn [apply_row_instructions].
  eapply outcome_sat_bind; [by apply apply_instruction_sat|]. intros rows' _ [H1 H2]. by apply IH.
Qed.

(** ** The open update *)

Definition held_whole (held : gmap N HeldPane) : Prop :=
  forall id h, held !! id = Some h -> Forall (row_of_width (held_column_count h)) (held_row_snapshots h).

Lemma held_section_whole held pane_id w :
  held_whole held -> Forall (row_of_width (window_column_count w)) (held_section_rows held pane_id w).
Proof.
  intros Hh. unfold held_section_rows. destruct (is_reset w); [constructor|].
  destruct (held !! pane_id) as [h|] eqn:E; [|constructor]. destruct (_ =? _) eqn:Ec; [|constructor]. bools.
  rewrite <- Ec. by apply (Hh pane_id).
Qed.

(** The rows of a staged pane so far. *)
Definition staged_ok (s : StagedPane) : Prop :=
  match pane_window (staged_header s) with
  | Some w => Forall (row_of_width (window_column_count w)) (staged_rows s) /\ (length (staged_rows s) <= N.to_nat (window_row_count w))%nat
  | None => staged_rows s = []
  end.

(** All rows of a staged pane are there. *)
Definition staged_whole (s : StagedPane) : Prop :=
  staged_ok s /\ length (staged_rows s) = N.to_nat (default 0 (window_row_count <$> pane_window (staged_header s))).

Lemma validate_whole s :
  staged_ok s -> outcome_sat (fun _ => True) (fun _ => staged_whole s) (validate_staged_pane_row_count s).
Proof.
  intros Hs. unfold validate_staged_pane_row_count. destruct (negb _) eqn:E; [done|].
  apply negb_false_iff, Nat.eqb_eq in E. by split.
Qed.

Section peer.
Context {PaintedFrame PanePlacementPreview : Type}.
Context (parse_painted_frame : list N -> string + PaintedFrame).
Context (parse_placement_preview : list N -> string + PanePlacementPreview).
Context (frame_pane_ids : PaintedFrame -> list N).
Abbreviation open := (@OpenUpdate PaintedFrame PanePlacementPreview).
Abbreviation receiver := (@PaintedUpdateReceiver PaintedFrame PanePlacementPreview).
Abbreviation received := (@ReceivedPaintedFrame PaintedFrame PanePlacementPreview).

Record open_whole (o : open) : Prop :=
  { ow_ids : staged_pane_id <$> staged_panes o = take (length (staged_panes o)) (frame_pane_ids (open_frame o));
    ow_staged : Forall staged_ok (staged_panes o);
    ow_before : Forall staged_whole (removelast (staged_panes o)) }.

(** The same update with other panes staged. *)
Definition same_update (o o' : open) : Prop :=
  open_update_sequence o' = open_update_sequence o /\ open_frame o' = open_frame o /\ open_preview o' = open_preview o.

Lemma validate_last_whole (o : open) :
  open_whole o ->
  outcome_sat (fun _ => True) (fun _ => Forall staged_whole (staged_panes o)) (validate_last_staged_pane (staged_panes o)).
Proof.
  intros [_ Hs Hb]. unfold validate_last_staged_pane. destruct (last (staged_panes o)) as [s|] eqn:E.
  - pose proof (last_front _ _ E) as Ef. rewrite Ef in Hs. apply Forall_app in Hs as [_ Hs]. apply Forall_cons in Hs as [Hs _].
    eapply outcome_sat_impl; [by apply validate_whole|done|]. intros [] Hw. cbn in Hw. rewrite Ef. apply Forall_app. by split; [|constructor].
  - apply last_None in E. cbn. rewrite E. constructor.
Qed.

(** A section ends with its pane's rows replaced by [rows]. *)
Lemma staged_last_whole (o : open) before s :
  staged_pane_id <$> (before ++ [s]) = take (length (before ++ [s])) (frame_pane_ids (open_frame o)) ->
  Forall staged_whole before -> staged_ok s -> open_whole (with_staged_panes (before ++ [s]) o).
Proof.
  intros Hids Hb Hs. split; cbn [staged_panes with_staged_panes open_frame]; [done| |by rewrite removelast_last].
  apply Forall_app. split; [|by constructor]. eapply Forall_impl; [exact Hb|]. by intros s' [? _].
Qed.

Lemma apply_section_sat held (o : open) s :
  held_whole held -> open_whole o -> decoded_section s ->
  outcome_sat (fun _ => True) (fun o' => open_whole o' /\ same_update o o') (apply_pane_section frame_pane_ids held o s).
Proof.
  intros Hh Ho Hs. unfold apply_pane_section.
  apply (outcome_sat_bind (fun _ => True) (fun r : list StagedPane * StagedPane =>
    staged_pane_id <$> (r.1 ++ [r.2]) = take (length (r.1 ++ [r.2])) (frame_pane_ids (open_frame o))
    /\ Forall staged_whole r.1 /\ staged_ok r.2 /\ staged_pane_id r.2 = section_pane_id s)).
  - destruct (section_header s) as [h|].
    + eapply outcome_sat_bind; [by apply validate_last_whole|]. intros [] _ Hw. cbn in Hw.
      destruct (bool_decide _) eqn:E; [|done]. apply bool_decide_eq_true in E. cbn. split_and!; [|done| |done].
      * rewrite fmap_app, (ow_ids _ Ho), length_app, Nat.add_1_r. cbn. by symmetry; apply take_S_r.
      * unfold staged_ok. cbn. destruct (pane_window h); [|done]. split; [constructor|simpl; lia].
    + destruct (last (staged_panes o)) as [sp|] eqn:E; [|done]. destruct (_ =? _) eqn:Eid; [|done]. bools. cbn.
      pose proof (last_front _ _ E) as Ef. rewrite <- Ef. split_and!; [apply Ho|apply Ho| |done].
      pose proof (ow_staged _ Ho) as Hst. rewrite Ef in Hst. apply Forall_app in Hst as [_ Hst].
      by apply Forall_cons in Hst as [? _].
  - intros [before sp] _ (Hids & Hb & Hok & Hid). cbn [fst snd] in *.
    destruct (pane_window (staged_header sp)) as [w|] eqn:Ew.
    + pose proof Hok as Hrows. unfold staged_ok in Hrows. rewrite Ew in Hrows. destruct Hrows as [H1 H2].
      eapply outcome_sat_bind.
      { apply apply_instructions_sat; [by apply held_section_whole|exact H1|exact H2|apply Hs]. }
      intros rows _ [R1 R2]. cbn. split; [|done]. apply staged_last_whole; [|done|].
      * rewrite fmap_app in Hids |- *. rewrite length_app in Hids |- *. exact Hids.
      * unfold staged_ok. cbn. by rewrite Ew.
    + destruct (bool_decide _); [|done]. cbn. split; [|done]. by apply staged_last_whole.
Qed.

Lemma apply_sections_sat held (o : open) sections :
  held_whole held -> open_whole o -> Forall decoded_section sections ->
  outcome_sat (fun _ => True) (fun o' => open_whole o' /\ same_update o o') (apply_pane_sections frame_pane_ids held o sections).
Proof.
  intros Hh. revert o. induction sections as [|s sections IH]; intros o Ho Hs; [by repeat split; apply Ho|].
  apply Forall_cons in Hs as [Hs Hss]. cbn [apply_pane_sections].
  eapply outcome_sat_bind; [by apply apply_section_sat|]. intros o1 _ [Ho1 (E1 & E2 & E3)].
  eapply outcome_sat_impl; [by apply IH|done|]. intros o2 [Ho2 (F1 & F2 & F3)]. split; [done|].
  unfold same_update. split_and!; congruence.
Qed.

(** ** Frames given out *)

(** A frame whose views are the panes of its structure, with rows of their
    windows' widths. *)
Record frame_whole (v : received) : Prop :=
  { fw_ids : view_pane_id <$> received_pane_views v = frame_pane_ids (received_frame v);
    fw_rows view g : view ∈ received_pane_views v -> view_grid view = Some g ->
      Forall (row_of_width (view_column_count g)) (view_rows g) }.

Record receiver_whole (r : receiver) : Prop :=
  { rw_held : held_whole (held_pane_by_id r);
    rw_open o : open_update r = Some o -> open_whole o /\ open_update_sequence o = last_update_sequence r + 1 }.

Lemma commit_staged_sat staged held :
  Forall staged_whole staged -> held_whole held ->
  outcome_sat (fun _ => True)
    (fun r => view_pane_id <$> r.1 = staged_pane_id <$> staged
       /\ (forall view g, view ∈ r.1 -> view_grid view = Some g -> Forall (row_of_width (view_column_count g)) (view_rows g))
       /\ held_whole r.2)
    (commit_staged_panes staged held).
Proof.
  intros H. revert held. induction H as [|s staged Hs _ IH]; intros held Hh.
  { split_and!; [done| |done]. intros view g Hv. by apply elem_of_nil in Hv. }
  cbn [commit_staged_panes].
  apply (outcome_sat_bind (fun _ => True) (fun r : ReceivedPaneView * gmap N HeldPane => view_pane_id r.1 = staged_pane_id s
    /\ (forall g, view_grid r.1 = Some g -> Forall (row_of_width (view_column_count g)) (view_rows g)) /\ held_whole r.2)).
  - destruct Hs as [Hs _]. unfold staged_ok in Hs. unfold commit_staged_pane.
    destruct (usize_try_from (retained_line_count _)); [|done]. cbn [ok_or mbind outcome_bind ok].
    destruct (pane_window (staged_header s)) as [w|]; [|by cbn]. destruct Hs as [Hr _].
    destruct (usize_try_from (view_row_offset w)); [|done]. cbn. split_and!; [done|by intros g [= <-]|].
    intros id h Hl. apply lookup_insert_Some in Hl as [[<- <-]|[_ Hl]]; [done|by apply (Hh id)].
  - intros [view held'] _ (V1 & V2 & V3). cbn [fst snd] in *. eapply outcome_sat_bind; [by apply IH|].
    intros [views held2] _ (W1 & W2 & W3). cbn [fst snd] in *. split_and!; cbn; [by rewrite V1, W1| |done].
    intros view' g Hin Hg. apply elem_of_cons in Hin as [->|Hin]; [by apply V2|by apply (W2 view')].
Qed.

Lemma commit_sat (o : open) :
  open_whole o ->
  outcome_sat (fun _ => True)
    (fun r => frame_whole r.1 /\ received_update_sequence r.1 = open_update_sequence o /\ receiver_whole r.2
       /\ last_update_sequence r.2 = open_update_sequence o)
    (commit_update frame_pane_ids o).
Proof.
  intros Ho. unfold commit_update. eapply outcome_sat_bind; [by apply validate_last_whole|]. intros [] _ Hw. cbn in Hw.
  destruct (negb _) eqn:E; [done|]. apply negb_false_iff, Nat.eqb_eq in E.
  eapply outcome_sat_bind; [apply commit_staged_sat; [exact Hw|]|].
  { intros id h Hl. by rewrite lookup_empty in Hl. }
  intros [views held] _ (V1 & V2 & V3). cbn [fst snd] in *. split_and!; cbn; [|done| |done].
  - split; cbn; [|done]. rewrite V1, (ow_ids _ Ho), E. by apply take_ge.
  - by split.
Qed.

(** ** Any frames *)

Lemma accept_part_sat r p :
  receiver_whole r -> decoded_part p ->
  outcome_sat (fun _ => True)
    (fun g => receiver_whole g.2
       /\ match g.1 with
          | Some v => frame_whole v /\ received_update_sequence v = last_update_sequence r + 1
              /\ last_update_sequence g.2 = last_update_sequence r + 1
          | None => last_update_sequence g.2 = last_update_sequence r
          end)
    (accept_painted_update_part frame_pane_ids r p).
Proof.
  intros [Hh Hopen] [_ Hp]. unfold accept_painted_update_part.
  apply (outcome_sat_bind (fun _ => True) (fun o => open_whole o /\ open_update_sequence o = last_update_sequence r + 1)).
  - destruct (update_opening p) as [opening|], (open_update r) as [o|]; [done| | |done]; [|by apply Hopen].
    unfold begin_update. destruct (negb _) eqn:E; [done|]. bools.
    assert (forall f, open_whole (MkOpenUpdate (opening_sequence opening) f
      (match opening_preview opening with PreviewUnchanged => held_placement_preview r | PreviewCleared => None
       | PreviewReplaced preview => Some preview end) [])) as Hnew by (by split).
    destruct (opening_frame opening) as [f|]; [|destruct (held_painted_frame r) as [f|]; [|done]]; cbn; split; (done || apply Hnew).
  - intros o _ [Ho Hn]. eapply outcome_sat_bind; [by apply apply_sections_sat|]. intros o1 _ [Ho1 (E & _)].
    destruct (is_last_part p).
    + eapply outcome_sat_bind; [by apply commit_sat|]. intros [v r'] _ (H1 & H2 & H3 & H4). cbn [fst snd] in *. cbn.
      split; [done|]. split_and!; [done|congruence|congruence].
    + cbn. split; [|done]. split; cbn; [done|]. intros o2 [= <-]. split; [done|congruence].
Qed.

Context {Message : Type}.
Abbreviation frame_out := (@SessionFrame PaintedFrame PanePlacementPreview Message).
Abbreviation accept_all := (accept_session_frames parse_painted_frame parse_placement_preview frame_pane_ids (Message := Message)).

(** The painted frames among what came out, in order. *)
Definition painted_frames (given : list frame_out) : list received :=
  omap (fun f => match f with Painted _ v => Some v | _ => None end) given.

Definition frame_bytes (f : ReceivedFrame Message) : Prop :=
  match f with ReceivedBinary _ payload => Forall is_byte payload | ReceivedMessage _ _ => True end.

Record given_whole (r : receiver) (given : list frame_out) (r' : receiver) : Prop :=
  { gw_receiver : receiver_whole r';
    gw_number : last_update_sequence r' = last_update_sequence r + N.of_nat (length (painted_frames given));
    gw_frames i v : painted_frames given !! i = Some v ->
      frame_whole v /\ received_update_sequence v = last_update_sequence r + 1 + N.of_nat i }.

Lemma given_none (r r' : receiver) f :
  receiver_whole r' -> last_update_sequence r' = last_update_sequence r ->
  match f with Some (Painted _ _) => False | _ => True end -> given_whole r (option_list f) r'.
Proof.
  intros H1 H2 H3. assert (painted_frames (option_list f) = []) as E by (by destruct f as [[]|]).
  split; [done|rewrite E; simpl; lia|]. intros i v Hi. by rewrite E in Hi.
Qed.

Lemma accept_frame_sat r f :
  receiver_whole r -> frame_bytes f ->
  outcome_sat (fun _ => True) (fun g => given_whole r (option_list g.1) g.2)
    (accept_session_frame parse_painted_frame parse_placement_preview frame_pane_ids r f).
Proof.
  intros Hr Hf. destruct f as [message|payload]; [by apply given_none|]. cbn [accept_session_frame].
  pose proof (payload_decodes parse_painted_frame parse_placement_preview payload Hf) as Hd.
  destruct (decode_session_binary_frame _ _ payload) as [[e|[p|chunk|kind]]|]; [done| | | |done];
    [|by apply given_none|by apply given_none].
  destruct Hd as [_ Hp]. pose proof (accept_part_sat r p Hr Hp) as Ha. cbn [map_err mbind outcome_bind ok].
  destruct (accept_painted_update_part frame_pane_ids r p) as [[e|[v r']]|]; [done| |done]. cbn in Ha |- *.
  destruct Ha as [Hr' Hv]. destruct v as [v|]; [|by apply given_none]. destruct Hv as (H1 & H2 & H3). split; cbn.
  - done.
  - lia.
  - intros [|i] v' Hi; [injection Hi as <-; split; [done|lia]|done].
Qed.

Lemma given_app r r1 r2 given given' :
  given_whole r given r1 -> given_whole r1 given' r2 -> given_whole r (given ++ given') r2.
Proof.
  intros [H1 H2 H3] [G1 G2 G3].
  assert (painted_frames (given ++ given') = painted_frames given ++ painted_frames given') as E by apply omap_app.
  split; [done|rewrite E, length_app; lia|]. intros i v Hi. rewrite E in Hi.
  apply lookup_app_Some in Hi as [Hi|[Hl Hi]]; [by apply H3|]. destruct (G3 _ _ Hi) as [? ->]. split; [done|]. lia.
Qed.

Lemma accept_frames_sat r frames :
  receiver_whole r -> Forall frame_bytes frames ->
  outcome_sat (fun _ => True) (fun g => given_whole r g.1 g.2) (accept_all r frames).
Proof.
  intros Hr Hf. revert r Hr. induction Hf as [|f frames Hf _ IH]; intros r Hr.
  - by apply (given_none r r None).
  - cbn [accept_session_frames]. eapply outcome_sat_bind; [by apply accept_frame_sat|].
    intros [given r1] _ Hg. cbn [fst snd] in Hg. eapply outcome_sat_bind; [apply IH; apply Hg|].
    intros [rest r2] _ Hrest. cbn [fst snd] in *. by eapply given_app.
Qed.

Lemma new_receiver_whole : receiver_whole new_receiver.
Proof. split; [|done]. intros id h H. cbn in H. by rewrite lookup_empty in H. Qed.
End peer.
