(* ===== verification/StreamContract.v ===== *)
(** * What a client of painted updates sees

    A connection from its first update on: the client shows what was sent last,
    and what any peer sends is checked before it is shown. *)

From S2P Require Import Prelude Varint Style Cell RowEncoder RowDecoder RowItems RowRoundTrip RowContract Snapshot.
From S2P Require Import PaintedUpdate PaintedWire PaintedParts PaintedDecode PaintedContract.
From S2P Require Import PaintedSender PaintedReceiver PaintedRows PaintedApply PaintedStream PaintedPeer.
From stdpp Require Import strings gmap options.
#[local] Open Scope N_scope.

(** ** Connections *)

Section stream.
Context {PaintedFrame PlacementPreview PanePlacementPreview Message : Type}.
Context (frame_json : PaintedFrame -> list N) (preview_json : PlacementPreview -> list N).
Context (parse_painted_frame : list N -> string + PaintedFrame).
Context (parse_placement_preview : list N -> string + PanePlacementPreview).
Context (frame_pane_ids : PaintedFrame -> list N).
Context (to_wire : PlacementPreview -> PanePlacementPreview).
Abbreviation build := (build_update_frames frame_json preview_json).
Abbreviation accept_all := (accept_session_frames parse_painted_frame parse_placement_preview frame_pane_ids (Message := Message)).

(** The two ends of a connection on which snapshots have been sent and
    delivered, and the frame given out last. *)
Inductive connected : @PaintedUpdateSender PlacementPreview -> @PaintedUpdateReceiver PaintedFrame PanePlacementPreview ->
    option (@ReceivedPaintedFrame PaintedFrame PanePlacementPreview) -> Prop :=
  | connected_new : connected new_sender new_receiver None
  | connected_sent s r shown rs f required payloads s' v r' :
      connected s r shown -> sendable_snapshot frame_pane_ids s rs f ->
      build rs f required s = ok (Some payloads, s') ->
      accept_all r (ReceivedBinary Message <$> payloads) = ok ([Painted Message v], r') ->
      connected s' r' (Some v).

(** What the writer does with a snapshot. *)
Lemma build_cases s (rs : @RenderSnapshot PlacementPreview) f required :
  sendable_snapshot frame_pane_ids s rs f ->
  exists us, Forall2 (fun p u => build_pane_update p (sent_pane_by_id s !! snapshot_pane_id p) = Some u) (pane_snapshots rs) us
    /\ ((build rs f required s = ok (None, s) /\ required = false /\ frame_json f = sent_structure_json_bytes s
           /\ is_preview_unchanged (compute_placement_preview_update preview_json rs s) = true
           /\ is_every_pane_unchanged (sent_pane_by_id s) us = true)
        \/ (exists e, build rs f required s = failed e
              /\ encode_painted_update (next_update_sequence s) (structure_of frame_json f s)
                   (compute_placement_preview_update preview_json rs s) us = failed e)
        \/ (exists payloads, build rs f required s = ok (Some payloads, sender_after frame_json s rs f us)
              /\ encode_painted_update (next_update_sequence s) (structure_of frame_json f s)
                   (compute_placement_preview_update preview_json rs s) us = ok payloads)
        \/ encode_painted_update (next_update_sequence s) (structure_of frame_json f s)
             (compute_placement_preview_update preview_json rs s) us = panicked).
Proof.
  intros Hss. destruct (build_pane_updates_cases (sent_pane_by_id s) (pane_snapshots rs) (ss_panes _ _ _ _ Hss)) as (us & E & Hb).
  exists us. split; [done|]. unfold build_update_frames. rewrite E.
  destruct (_ && negb required) eqn:Ec.
  - left. bools. repeat match goal with H : bool_decide _ = true |- _ => apply bool_decide_eq_true in H end. auto.
  - right. change (if bool_decide (frame_json f = sent_structure_json_bytes s) then None else Some (frame_json f))
      with (structure_of frame_json f s).
    destruct (encode_painted_update _ _ _ us) as [[e|payloads]|]; [left; by exists e|right; left; by exists payloads|by right; right].
Qed.

Context (Hjson : json_round_trips frame_json preview_json parse_painted_frame parse_placement_preview to_wire).
Abbreviation in_step_with := (in_step frame_json frame_pane_ids to_wire).

(** Sending a snapshot from a state in step. *)
Lemma send_in_step s r shown rs f required :
  in_step_with s r shown -> sendable_snapshot frame_pane_ids s rs f ->
  match build rs f required s with
  | Some (inr (Some payloads, s')) =>
      exists v r', accept_all r (ReceivedBinary Message <$> payloads) = ok ([Painted Message v], r')
        /\ shows to_wire rs f v /\ received_update_sequence v = next_update_sequence s
        /\ next_update_sequence s' = next_update_sequence s + 1 /\ in_step_with s' r' (Some (rs, v))
  | Some (inr (None, s')) =>
      s' = s /\ required = false /\ exists last v, shown = Some (last, v) /\ shows to_wire rs f v
  | Some (inl _) => True
  | None => False
  end.
Proof using Hjson.
  intros Hstep Hss. destruct (build_cases s rs f required Hss) as (us & Hb & [H|[(e & -> & _)|[(payloads & -> & He)|Hp]]]).
  - destruct H as (-> & -> & H1 & H2 & H3). cbn. split_and!; [done|done|]. by eapply (unchanged_shows frame_json preview_json _ _ frame_pane_ids to_wire Hjson).
  - done.
  - destruct (update_delivered frame_json preview_json _ _ frame_pane_ids to_wire (Message := Message) Hjson s r shown rs f us payloads Hstep Hss Hb He) as (v & r' & Ha & Hv & Hn & Hs).
    cbn. by exists v, r'.
  - exfalso. destruct (updates_apply frame_json frame_pane_ids to_wire s r shown rs f us Hstep Hss Hb) as [_ Hwf].
    destruct (encode_in_parts_cases (next_update_sequence s) (structure_of frame_json f s)
      (compute_placement_preview_update preview_json rs s) us MAX_FRAME_BYTE_COUNT ltac:(done) ltac:(done) Hwf)
      as [[_ E]|[_ [(e & E & _)|(_ & w & groups & current & _ & _ & E)]]]; unfold encode_painted_update in Hp; by rewrite E in Hp.
Qed.

Lemma connected_in_step s r shown :
  connected s r shown -> exists last, in_step_with s r ((fun v => (last v, v)) <$> shown).
Proof using Hjson.
  induction 1 as [|s r shown rs f required payloads s' v r' _ [last IH] Hss Hbuild Haccept].
  - exists (fun _ => MkRenderSnapshot [] None). apply in_step_new.
  - pose proof (send_in_step s r _ rs f required IH Hss) as H. rewrite Hbuild in H.
    destruct H as (v' & r'' & Haccept' & _ & _ & _ & H). rewrite Haccept in Haccept'. injection Haccept' as <- <-.
    by exists (fun _ => rs).
Qed.

(** C5: A client shows what was sent last. On a connection on which any
    snapshots were sent and delivered, building the update of the next snapshot
    never panics. When payloads come of it, the reader accepts them all and
    gives out exactly one frame, at the last of them: its structure, its
    preview, and pane by pane its cursor, scroll position and rows are the
    snapshot's, and it carries the next number. When nothing comes of it, none
    was required, the writer is unchanged, and the frame the client shows
    already shows the snapshot. *)
Theorem clients_show_the_last_snapshot s r shown rs f required :
  connected s r shown -> sendable_snapshot frame_pane_ids s rs f ->
  match build rs f required s with
  | Some (inr (Some payloads, s')) =>
      exists v r', accept_all r (ReceivedBinary Message <$> payloads) = ok ([Painted Message v], r')
        /\ shows to_wire rs f v /\ received_update_sequence v = get_last_update_sequence s + 1
        /\ get_last_update_sequence s' = get_last_update_sequence s + 1 /\ connected s' r' (Some v)
  | Some (inr (None, s')) => s' = s /\ required = false /\ exists v, shown = Some v /\ shows to_wire rs f v
  | Some (inl _) => True
  | None => False
  end.
Proof using Hjson.
  intros Hc Hss. destruct (connected_in_step s r shown Hc) as [last Hstep].
  pose proof (send_in_step s r _ rs f required Hstep Hss) as H.
  assert (next_update_sequence s = get_last_update_sequence s + 1) as En.
  { unfold get_last_update_sequence. pose proof (st_number _ _ _ _ _ _ Hstep). lia. }
  destruct (build rs f required s) as [[e|[[payloads|] s']]|] eqn:Eb; [done| | |done].
  - destruct H as (v & r' & Ha & Hv & Hn & Hn' & _). exists v, r'. split_and!; [done|done|lia| |].
    + unfold get_last_update_sequence at 1. lia.
    + by eapply connected_sent.
  - destruct H as (-> & -> & last' & v & Es & Hv). split_and!; [done|done|].
    destruct shown as [v'|]; [|done]. injection Es as _ ->. by exists v.
Qed.
End stream.

(** C12: A reader takes no frame on trust. From a new reader on, whatever frames
    a peer sends, accepting them never panics; while no error is reported, the
    painted frames that come out are numbered 1, 2, 3, ..., each shows exactly
    the panes its structure lists, in that order, and every row it shows, as
    every row the reader holds, reads from its bytes at the width of its
    window. *)
Theorem received_frames_are_whole {PaintedFrame PanePlacementPreview Message : Type}
    (parse_painted_frame : list N -> string + PaintedFrame)
    (parse_placement_preview : list N -> string + PanePlacementPreview)
    (frame_pane_ids : PaintedFrame -> list N) (frames : list (ReceivedFrame Message)) :
  Forall frame_bytes frames ->
  outcome_sat (fun _ => True)
    (fun g =>
       last_update_sequence g.2 = N.of_nat (length (painted_frames g.1))
       /\ held_whole (held_pane_by_id g.2)
       /\ forall i v, painted_frames g.1 !! i = Some v ->
            frame_whole frame_pane_ids v /\ received_update_sequence v = N.of_nat i + 1)
    (accept_session_frames parse_painted_frame parse_placement_preview frame_pane_ids new_receiver frames).
Proof.
  intros Hf. eapply outcome_sat_impl; [by apply accept_frames_sat; [apply new_receiver_whole|]|done|].
  intros g [H1 H2 H3]. cbn [last_update_sequence new_receiver] in *. split_and!; [lia|apply H1|].
  intros i v Hi. destruct (H3 i v Hi) as [? ->]. split; [done|]. lia.
Qed.

(** ** Rows a screen sends *)

(** The rows of snapshots a screen makes can be sent at their width. *)
Lemma snapshot_sendable row_cells column_count plain_row_style metadata s addr :
  Forall Cell_wf row_cells -> Forall Cell_canonical row_cells ->
  (length row_cells <= N.to_nat column_count)%nat -> column_count <= U16_MAX ->
  plain_row_promise plain_row_style row_cells ->
  from_padded_row_cells row_cells column_count plain_row_style metadata = Some s ->
  sendable column_count (MkShared addr s).
Proof.
  intros Hwf Hcan Hl Hc Hp Hs.
  destruct (from_padded_snapshot _ _ _ metadata Hwf Hcan Hl Hc Hp) as (s' & Hs' & Hrow & _). rewrite Hs in Hs'. injection Hs' as <-.
  split; unfold get_encoded_row_bytes; cbn [shared_value].
  - destruct (encode_padded_written row_cells column_count plain_row_style Hwf (plain_promise_ok _ _ Hp)) as (ts & runs & Hw & He).
    destruct (count_row_content_cells_spec row_cells) as (Hk & _ & _).
    destruct (row_written_reads _ _ _ _ column_count (row_end metadata) Hw Hc ltac:(lia)) as (Hu & _ & _).
    unfold from_padded_row_cells in Hs. rewrite (He (row_end metadata) Hl) in Hs. injection Hs as <-. cbn [encoded_row_bytes].
    unfold framed. eexists. split; [reflexivity|]. exact Hu.
  - destruct (snapshot_reads _ _ _ [] Hrow) as (Hshape & _ & _).
    unfold readable, from_encoded_row_bytes. unfold get_encoded_row_shape in Hshape.
    destruct (read_encoded_row_shape _) as [[e|shape]|]; [done| |done]. injection Hshape as ->.
    cbn [mbind outcome_bind ok shape_column_count]. rewrite (padded_length _ _ Hl), N2Nat.id, N.eqb_refl. cbn [negb].
    unfold decode_row_cells, decode_row_run_cells_into. rewrite (so_runs _ _ _ Hrow). cbn. by eexists.
Qed.

(** ** Witnesses *)

(** A structure that names one pane, with JSON of one byte. *)
Definition example_json (n : N) : list N := [n].
Definition example_parse_json (bytes : list N) : string + N :=
  match bytes with [n] => inr n | _ => inl "not one byte" end.

Lemma example_json_ok :
  json_round_trips example_json example_json example_parse_json example_parse_json (fun n : N => n).
Proof. by split. Qed.

(** A row of four columns that shows one letter, kept at an address. *)
Definition letter_row (addr letter : N) : SharedRow :=
  MkShared addr (MkRowSnapshot [15; 4; 0; 3; 1; 4; 0; 0; 0; 0; 1; 0; 1; 1; letter; 0]
    (MkRowMetadata Hard false) 1 [] None).

Definition letter_pane (first_line : N) (rows : list SharedRow) : PaneSnapshot :=
  MkPaneSnapshot 5 (MkCursorSnapshot 1 0 true false (Some CursorBar)) (Some (MkGridView rows 4 0)) false first_line first_line.

(** Two lines, and the same pane after one line scrolled. *)
Definition first_snapshot : @RenderSnapshot N :=
  MkRenderSnapshot [letter_pane 0 [letter_row 1 97; letter_row 2 98]] None.
Definition scrolled_snapshot : @RenderSnapshot N :=
  MkRenderSnapshot [letter_pane 1 [letter_row 2 98; letter_row 3 99]] (Some (MkShared 40 7)).

Lemma letter_sendable addr letter : letter ∈ [97; 98; 99] -> sendable 4 (letter_row addr letter).
Proof.
  intros H. split.
  - unfold letter_row, get_encoded_row_bytes. cbn [shared_value encoded_row_bytes].
    exists [4; 0; 3; 1; 4; 0; 0; 0; 0; 1; 0; 1; 1; letter; 0]. done.
  - repeat (apply elem_of_cons in H as [->|H]; [eexists; vm_compute; reflexivity|]). by apply elem_of_nil in H.
Qed.

Lemma letter_pane_ok first_line a b la lb :
  is_u64 first_line -> la ∈ [97; 98; 99] -> lb ∈ [97; 98; 99] -> pane_ok (letter_pane first_line [letter_row a la; letter_row b lb]).
Proof.
  intros Hl Ha Hb. split; [done|done|exact Hl|exact Hl|]. intros g [= <-]. cbn [view_column_count view_rows grid_view_row_offset].
  split_and!; [lia|done|done|].
  apply Forall_cons; split; [by apply letter_sendable|]. apply Forall_singleton. by apply letter_sendable.
Qed.

(** The first update opens with every row; after one line scrolled, the second
    copies the row that moved up and sends one new row. *)
Lemma clients_show_the_last_snapshot_witness :
  exists s1 r1 v1 s2 r2 v2 payloads,
    connected (Message := unit) example_json example_json example_parse_json example_parse_json (fun n => [n]) s1 r1 (Some v1)
    /\ shows (fun n => n) first_snapshot 5 v1
    /\ build_update_frames example_json example_json scrolled_snapshot 5 false s1 = ok (Some payloads, s2)
    /\ accept_session_frames (Message := unit) example_parse_json example_parse_json (fun n => [n]) r1 (ReceivedBinary unit <$> payloads)
       = ok ([Painted unit v2], r2)
    /\ shows (fun n => n) scrolled_snapshot 5 v2
    /\ (sum_list (length <$> payloads) < 60)%nat.
Proof.
  set (ids := fun n : N => [n]).
  pose proof (connected_new (Message := unit) example_json example_json example_parse_json example_parse_json ids) as Hnew.
  assert (sendable_snapshot ids (new_sender (PlacementPreview := N)) first_snapshot 5) as Hfirst.
  { split; [done|apply NoDup_singleton| | |done|done].
    - apply Forall_singleton. apply letter_pane_ok; [done|set_solver..].
    - apply Forall_singleton. cbn. rewrite lookup_empty. intros r r' Hr Hr' E. set_solver. }
  pose proof (clients_show_the_last_snapshot example_json example_json example_parse_json example_parse_json ids
    (fun n : N => n) (Message := unit) example_json_ok _ _ _ first_snapshot 5 false Hnew Hfirst) as H1.
  destruct (build_update_frames example_json example_json first_snapshot 5 false new_sender)
    as [[?|[[payloads1|] s1]]|] eqn:E1; [vm_compute in E1; discriminate| |vm_compute in E1; discriminate..].
  destruct H1 as (v1 & r1 & _ & Hv1 & _ & _ & Hc1).
  assert (sendable_snapshot ids s1 scrolled_snapshot 5) as Hsecond.
  { vm_compute in E1. injection E1 as _ <-. split; [done|apply NoDup_singleton| | |done|done].
    - apply Forall_singleton. apply letter_pane_ok; [done|set_solver..].
    - apply Forall_singleton. intros r r' Hr Hr' E. vm_compute in Hr, Hr'. set_solver. }
  pose proof (clients_show_the_last_snapshot example_json example_json example_parse_json example_parse_json ids
    (fun n : N => n) (Message := unit) example_json_ok _ _ _ scrolled_snapshot 5 false Hc1 Hsecond) as H2.
  assert (exists payloads s2, build_update_frames example_json example_json scrolled_snapshot 5 false s1 = ok (Some payloads, s2)
    /\ (sum_list (length <$> payloads) < 60)%nat) as (payloads & s2 & E2 & Hsmall).
  { vm_compute in E1. injection E1 as _ <-. eexists _, _. split; [vm_compute; reflexivity|]. cbn. lia. }
  rewrite E2 in H2. destruct H2 as (v2 & r2 & Ha2 & Hv2 & _).
  exists s1, r1, v1, s2, r2, v2, payloads. auto 10.
Defined.

Definition first_payloads : list (list N) :=
  match build_update_frames example_json example_json first_snapshot 5 false new_sender with
  | Some (inr (Some payloads, _)) => payloads
  | _ => []
  end.

Lemma received_frames_are_whole_witness :
  exists given r v,
    accept_session_frames example_parse_json example_parse_json (fun n => [n]) new_receiver
      (ReceivedMessage unit tt :: (ReceivedBinary unit <$> first_payloads)) = ok (given, r)
    /\ painted_frames given = [v] /\ frame_whole (fun n => [n]) v /\ received_update_sequence v = 1
    /\ view_pane_id <$> received_pane_views v = [5].
Proof.
  pose proof (received_frames_are_whole example_parse_json example_parse_json (fun n => [n])
    (ReceivedMessage unit tt :: (ReceivedBinary unit <$> first_payloads))) as H.
  destruct (accept_session_frames example_parse_json example_parse_json (fun n => [n]) new_receiver
    (ReceivedMessage unit tt :: (ReceivedBinary unit <$> first_payloads))) as [[e|[given r]]|] eqn:E;
    [vm_compute in E; discriminate| |vm_compute in E; discriminate].
  destruct H as (_ & _ & H).
  { constructor; [exact I|]. vm_compute. repeat constructor. }
  exists given, r. cbn [fst] in H. vm_compute in E. injection E as <- <-.
  destruct (H 0%nat _ eq_refl) as [H1 H2]. eexists. split_and!; [reflexivity|reflexivity|exact H1|exact H2|reflexivity].
Defined.
