(* ===== verification/PaintWindow.v ===== *)
(** * The byte window of a connection
    ([crates/koshi-runtime/src/ipc_server/paint_window.rs])

    Which painted update may go out, what the paint reports measure, and how
    the measurements change the window. An instant is the count of nanoseconds
    since some start, and a duration a count of nanoseconds. [None] is a
    panic. *)

From S2P Require Import Prelude Varint.
From stdpp Require Import options.
#[local] Open Scope N_scope.

(** ** Definitions *)

Definition from_millis (milliseconds : N) : N := milliseconds * 1000000.
Definition as_micros (duration : N) : N := duration / 1000.

Definition INITIAL_WINDOW_BYTE_COUNT : N := 64 * 1024.
Definition MINIMUM_WINDOW_BYTE_COUNT : N := 4 * 1024.
Definition MAXIMUM_WINDOW_BYTE_COUNT : N := 4 * 1024 * 1024.
Definition MAXIMUM_WINDOW_STEP_BYTE_COUNT : N := 4 * 1024.
Definition WINDOW_STEP_DURATION : N := from_millis 10.
Definition MEASUREMENT_COUNT_PER_CHANGE : N := 3.
Definition MINIMUM_ROUND_TRIP_DURATION : N := from_millis 1.
Definition ROUND_TRIP_GROWTH_MARGIN_DURATION : N := from_millis 25.
Definition ROUND_TRIP_FAST_GROWTH_MARGIN_DURATION : N := from_millis 5.
Definition ROUND_TRIP_SHRINK_MARGIN_DURATION : N := from_millis 50.
Definition LATENCY_SPIKE_MARGIN_DURATION : N := from_millis 100.
Definition MINIMUM_IDLE_DURATION : N := from_millis 100.

Record PaintedUpdateReport := MkPaintedUpdateReport { report_update_sequence : N; reported_at : N }.

Record InFlightUpdate := MkInFlightUpdate
  { flight_update_sequence : N; sent_at : N; end_byte_position : N; is_window_filled : bool }.

Record MeasurementBatch := MkMeasurementBatch
  { measurement_count : N; lowest_round_trip : option N; lowest_filled_round_trip : option N }.

Definition empty_batch : MeasurementBatch := MkMeasurementBatch 0 None None.

Record PaintWindow := MkPaintWindow
  { window_byte_count : N;
    is_doubling : bool;
    base_round_trip : option N;
    measurement_batch : MeasurementBatch;
    changed_through_update_sequence : N;
    in_flight_updates : list InFlightUpdate;
    painted_byte_position : N;
    last_sent_update_sequence : N;
    has_paint_report : bool;
    flight_emptied_at : option N }.

Inductive PaintReportError := UnsentUpdate (reported_update_sequence last_sent_update_sequence : N).

Definition new_paint_window : PaintWindow :=
  MkPaintWindow INITIAL_WINDOW_BYTE_COUNT true None empty_batch 0 [] 0 0 false None.

(** [saturating_sub] and [saturating_duration_since] are the subtraction of
    [N]. *)
Definition can_send_update (written_byte_count : N) (w : PaintWindow) : bool :=
  bool_decide (in_flight_updates w = [])
    || (has_paint_report w && (written_byte_count - painted_byte_position w <? window_byte_count w)).

Definition start_window_over (w : PaintWindow) : PaintWindow :=
  MkPaintWindow (N.min (window_byte_count w) INITIAL_WINDOW_BYTE_COUNT) true None empty_batch
    (changed_through_update_sequence w) (in_flight_updates w) (painted_byte_position w)
    (last_sent_update_sequence w) (has_paint_report w) (flight_emptied_at w).

(** Whether a send after this idle time starts the window over. *)
Definition is_idle_past_base (write_started_at : N) (w : PaintWindow) : bool :=
  bool_decide (in_flight_updates w = [])
    && match flight_emptied_at w with
       | Some flight_emptied_at =>
           let idle_duration := write_started_at - flight_emptied_at in
           (MINIMUM_IDLE_DURATION <? idle_duration)
             && match base_round_trip w with
                | Some base_round_trip => base_round_trip * 2 <? idle_duration
                | None => true
                end
       | None => false
       end.

Definition record_update_sent (update_sequence end_byte_position write_started_at sent_at : N) (w : PaintWindow)
    : PaintWindow :=
  let w := if is_idle_past_base write_started_at w then start_window_over w else w in
  let in_flight_byte_count := end_byte_position - painted_byte_position w in
  MkPaintWindow (window_byte_count w) (is_doubling w) (base_round_trip w) (measurement_batch w)
    (changed_through_update_sequence w)
    (in_flight_updates w ++ [MkInFlightUpdate update_sequence sent_at end_byte_position
                               (window_byte_count w <=? in_flight_byte_count)])
    (painted_byte_position w) update_sequence (has_paint_report w) (flight_emptied_at w).

(** A division by no microseconds panics. *)
Definition scale_byte_count (byte_count numerator denominator : N) : option N :=
  if as_micros denominator =? 0 then None
  else Some (N.min U64_MAX (byte_count * as_micros numerator / as_micros denominator)).

Definition is_filled_excess_below (base_round_trip : N) (filled_round_trip : option N) (margin : N) : bool :=
  match filled_round_trip with
  | Some filled_round_trip => filled_round_trip - base_round_trip <? margin
  | None => false
  end.

(** The window's byte count and whether it doubles: after the check for a
    latency spike, and after the step that follows it. *)
Definition spike_change (base measured byte_count : N) (doubling : bool) : option (N * bool) :=
  let measured_excess := measured - base in
  if (LATENCY_SPIKE_MARGIN_DURATION <? measured_excess) && (base / 2 <? measured_excess)
  then scaled ← scale_byte_count byte_count base measured; Some (scaled, false)
  else Some (byte_count, doubling).

Definition step_change (base measured : N) (filled : option N) (byte_count : N) (doubling : bool) : option (N * bool) :=
  let measured_excess := measured - base in
  if doubling then
    if ROUND_TRIP_GROWTH_MARGIN_DURATION <? measured_excess
    then scaled ← scale_byte_count byte_count base measured; Some (scaled, false)
    else if is_filled_excess_below base filled ROUND_TRIP_GROWTH_MARGIN_DURATION
    then Some (N.min U64_MAX (byte_count * 2), true)
    else Some (byte_count, true)
  else
    scaled ← scale_byte_count byte_count WINDOW_STEP_DURATION measured;
    let window_step_byte_count := N.min scaled MAXIMUM_WINDOW_STEP_BYTE_COUNT in
    if ROUND_TRIP_SHRINK_MARGIN_DURATION <? measured_excess
    then Some (byte_count - window_step_byte_count, false)
    else if is_filled_excess_below base filled ROUND_TRIP_FAST_GROWTH_MARGIN_DURATION
    then Some (byte_count + 2 * window_step_byte_count, false)
    else if is_filled_excess_below base filled ROUND_TRIP_GROWTH_MARGIN_DURATION
    then Some (byte_count + window_step_byte_count, false)
    else Some (byte_count, false).

Definition change_byte_count (base measured : N) (filled : option N) (byte_count : N) (doubling : bool)
    : option (N * bool) :=
  spiked ← spike_change base measured byte_count doubling;
  stepped ← step_change base measured filled spiked.1 spiked.2;
  Some (N.max MINIMUM_WINDOW_BYTE_COUNT (N.min MAXIMUM_WINDOW_BYTE_COUNT stepped.1), stepped.2).

Definition change_window (base measured : N) (filled : option N) (w : PaintWindow) : option PaintWindow :=
  '(byte_count, doubling) ← change_byte_count base measured filled (window_byte_count w) (is_doubling w);
  Some (MkPaintWindow byte_count doubling (base_round_trip w) (measurement_batch w)
    (changed_through_update_sequence w) (in_flight_updates w) (painted_byte_position w)
    (last_sent_update_sequence w) (has_paint_report w) (flight_emptied_at w)).

(** [map_or(round_trip, |lowest| lowest.min(round_trip))]. *)
Definition lowest_with (lowest : option N) (round_trip : N) : N :=
  match lowest with Some lowest => N.min lowest round_trip | None => round_trip end.

Definition with_measurements (base : N) (batch : MeasurementBatch) (changed_through : N) (w : PaintWindow) : PaintWindow :=
  MkPaintWindow (window_byte_count w) (is_doubling w) (Some base) batch changed_through (in_flight_updates w)
    (painted_byte_position w) (last_sent_update_sequence w) (has_paint_report w) (flight_emptied_at w).

Definition record_measurement (u : InFlightUpdate) (round_trip : N) (w : PaintWindow) : option PaintWindow :=
  let base := lowest_with (base_round_trip w) round_trip in
  let batch := measurement_batch w in
  if flight_update_sequence u <=? changed_through_update_sequence w
  then Some (with_measurements base batch (changed_through_update_sequence w) w)
  else
    let measured_round_trip := lowest_with (lowest_round_trip batch) round_trip in
    let filled_round_trip :=
      if is_window_filled u then Some (lowest_with (lowest_filled_round_trip batch) round_trip)
      else lowest_filled_round_trip batch in
    let batch := MkMeasurementBatch (measurement_count batch + 1) (Some measured_round_trip) filled_round_trip in
    if measurement_count batch <? MEASUREMENT_COUNT_PER_CHANGE
    then Some (with_measurements base batch (changed_through_update_sequence w) w)
    else
      change_window base measured_round_trip filled_round_trip
        (with_measurements base empty_batch (last_sent_update_sequence w) w).

(** The loop that pops the reported updates: the last one popped, and the
    updates left. *)
Fixpoint pop_painted_updates (update_sequence : N) (popped : option InFlightUpdate) (in_flight : list InFlightUpdate)
    : option InFlightUpdate * list InFlightUpdate :=
  match in_flight with
  | u :: rest =>
      if flight_update_sequence u <=? update_sequence then pop_painted_updates update_sequence (Some u) rest
      else (popped, in_flight)
  | [] => (popped, [])
  end.

Definition record_update_painted (r : PaintedUpdateReport) (w : PaintWindow) : outcome PaintReportError PaintWindow :=
  if last_sent_update_sequence w <? report_update_sequence r
  then failed (UnsentUpdate (report_update_sequence r) (last_sent_update_sequence w))
  else
    match pop_painted_updates (report_update_sequence r) None (in_flight_updates w) with
    | (None, _) => ok w
    | (Some painted_update, in_flight) =>
        let round_trip := N.max (reported_at r - sent_at painted_update) MINIMUM_ROUND_TRIP_DURATION in
        expect (record_measurement painted_update round_trip
          (MkPaintWindow (window_byte_count w) (is_doubling w) (base_round_trip w) (measurement_batch w)
             (changed_through_update_sequence w) in_flight (end_byte_position painted_update)
             (last_sent_update_sequence w) true
             (if bool_decide (in_flight = []) then Some (reported_at r) else flight_emptied_at w)))
    end.

(** The example of the file: a latency spike shrinks the window to 7 KiB, and
    then by the bytes of 10 ms. *)
Example spike :
  change_byte_count (from_millis 66) (from_millis 375) None 40796 false = Some (6989, false).
Proof. vm_compute. reflexivity. Qed.
Example doubling_ends :
  change_byte_count (from_millis 66) (from_millis 106) None INITIAL_WINDOW_BYTE_COUNT true = Some (40805, false).
Proof. vm_compute. reflexivity. Qed.
