(* ===== verification/DeliveryQueue.v ===== *)
(** * A client's delivery queue
    ([crates/koshi-runtime/src/runtime/delivery_queue.rs])

    The bounded queue between the event bus and the thread that writes one
    client's connection. Every operation runs under the queue's lock, so an
    operation is one step of the shared state; what a waiting receiver does is
    a relation on that state and on the receiver's own. *)

From S2P Require Import Prelude Varint PaintWindow.
From stdpp Require Import options.
#[local] Open Scope N_scope.

Section queue.
(** A snapshot, what a resync carries beside its snapshot, and every other
    delivery: the queue looks into none of them. *)
Context {RenderSnapshot Resync Other : Type}.

(** ** Definitions *)

Inductive Delivery :=
  | Frame (render_snapshot : RenderSnapshot)
  | Snapshot (render_snapshot : RenderSnapshot) (resync : Resync)
  | OtherDelivery (other : Other).

Inductive PacedReceive :=
  | ReceivedDelivery (delivery : Delivery)
  | PaintedUpdateReported (report : PaintedUpdateReport)
  | SessionEnding
  | TimedOut
  | Closed.

Inductive SendError := Full | Disconnected.
Inductive TryRecvError := RecvEmpty | RecvDisconnected.

Record DeliveryQueueState := MkDeliveryQueueState
  { deliveries : list Delivery;
    capacity : nat;
    is_sender_closed : bool;
    is_receiver_closed : bool;
    painted_update_report : option PaintedUpdateReport }.

Definition create_delivery_queue (capacity : nat) : DeliveryQueueState :=
  MkDeliveryQueueState [] capacity false false None.

Definition is_frame_delivery (d : Delivery) : bool :=
  match d with Frame _ | Snapshot _ _ => true | OtherDelivery _ => false end.

Definition with_deliveries (ds : list Delivery) (q : DeliveryQueueState) : DeliveryQueueState :=
  MkDeliveryQueueState ds (capacity q) (is_sender_closed q) (is_receiver_closed q) (painted_update_report q).

Definition with_report (r : option PaintedUpdateReport) (q : DeliveryQueueState) : DeliveryQueueState :=
  MkDeliveryQueueState (deliveries q) (capacity q) (is_sender_closed q) (is_receiver_closed q) r.

(** A send gives the queue after it, and whether it notifies a waiting
    receiver. An error changes and notifies nothing. *)
Definition try_send (d : Delivery) (q : DeliveryQueueState) : SendError + (DeliveryQueueState * bool) :=
  if is_receiver_closed q then inl Disconnected
  else if (capacity q <=? length (deliveries q))%nat then inl Full
  else inr (with_deliveries (deliveries q ++ [d]) q, true).

Definition try_send_frame (s : RenderSnapshot) (q : DeliveryQueueState) : SendError + (DeliveryQueueState * bool) :=
  if is_receiver_closed q then inl Disconnected
  else
    match last (deliveries q) with
    | Some (Frame _) => inr (with_deliveries (removelast (deliveries q) ++ [Frame s]) q, false)
    | _ =>
        if (capacity q <=? length (deliveries q))%nat then inl Full
        else inr (with_deliveries (deliveries q ++ [Frame s]) q, true)
    end.

Definition drop_sender (q : DeliveryQueueState) : DeliveryQueueState :=
  MkDeliveryQueueState (deliveries q) (capacity q) true (is_receiver_closed q) (painted_update_report q).

Definition drop_receiver (q : DeliveryQueueState) : DeliveryQueueState :=
  MkDeliveryQueueState [] (capacity q) (is_sender_closed q) true (painted_update_report q).

Definition try_recv (q : DeliveryQueueState) : (TryRecvError + Delivery) * DeliveryQueueState :=
  match deliveries q with
  | d :: ds => (inr d, with_deliveries ds q)
  | [] => (inl (if is_sender_closed q then RecvDisconnected else RecvEmpty), q)
  end.

Definition report_painted_update (r : PaintedUpdateReport) (q : DeliveryQueueState) : DeliveryQueueState :=
  let is_newest_report :=
    match painted_update_report q with
    | Some waiting_report => report_update_sequence waiting_report <=? report_update_sequence r
    | None => true
    end in
  if is_newest_report then with_report (Some r) q else q.

Definition is_head_held (is_frame_allowed : bool) (q : DeliveryQueueState) : bool :=
  match deliveries q with
  | d :: _ => is_frame_delivery d && negb is_frame_allowed && negb (is_sender_closed q)
  | [] => false
  end.

(** One reading of the list of [recv_paced]: what it gives back with the queue
    after it, or [None] where the receiver waits. *)
Definition recv_paced_pass (is_frame_allowed is_ending_raised is_deadline_passed : bool) (q : DeliveryQueueState)
    : option (PacedReceive * DeliveryQueueState) :=
  let wait := if is_deadline_passed then Some (TimedOut, q) else None in
  match painted_update_report q with
  | Some report => Some (PaintedUpdateReported report, with_report None q)
  | None =>
      if is_ending_raised then Some (SessionEnding, q)
      else if is_head_held is_frame_allowed q then wait
      else
        match deliveries q with
        | d :: ds => Some (ReceivedDelivery d, with_deliveries ds q)
        | [] => if is_sender_closed q then Some (Closed, q) else wait
        end
  end.

(** ** The receiver's thread *)

(** Where the writing thread is: outside [recv_paced], or waiting inside it
    with a notice that reached it since it began to wait, or with none. *)
Inductive ReceiverThread :=
  | Outside
  | Waiting (is_frame_allowed is_notified : bool).

Record System := MkSystem
  { queue : DeliveryQueueState;
    thread : ReceiverThread;
    is_ending_raised : bool;
    (** Raised, and neither sent nor woken for yet. *)
    is_wake_owed : bool;
    accepted : list Delivery;
    received : list Delivery }.

Definition notify (t : ReceiverThread) : ReceiverThread :=
  match t with Outside => Outside | Waiting allowed _ => Waiting allowed true end.

Definition new_system (capacity : nat) : System :=
  MkSystem (create_delivery_queue capacity) Outside false false [] [].

Definition deliveries_of (p : PacedReceive) : list Delivery :=
  match p with ReceivedDelivery d => [d] | _ => [] end.

(** The thread may take from the queue: its end is there, and it is not waiting
    for something else than what it now reads. *)
Definition may_receive (y : System) (allowed : bool) : Prop :=
  is_receiver_closed (queue y) = false
  /\ (thread y = Outside \/ exists notified, thread y = Waiting allowed notified).

Definition is_frame (d : Delivery) : bool := match d with Frame _ => true | _ => false end.

(** The steps of the threads that share the queue. The bus sends a frame with
    [try_send_frame] only. A wait may end without a
    notice, and its deadline may pass at any time. *)
Inductive step : System -> System -> Prop :=
  | step_send d y q notifies :
      is_frame d = false -> try_send d (queue y) = inr (q, notifies) ->
      step y (MkSystem q (if notifies then notify (thread y) else thread y) (is_ending_raised y)
                (if notifies then false else is_wake_owed y) (accepted y ++ [d]) (received y))
  | step_send_frame s y q notifies :
      try_send_frame s (queue y) = inr (q, notifies) ->
      step y (MkSystem q (if notifies then notify (thread y) else thread y) (is_ending_raised y)
                (if notifies then false else is_wake_owed y) (accepted y ++ [Frame s]) (received y))
  | step_wake y :
      step y (MkSystem (queue y) (notify (thread y)) (is_ending_raised y) false (accepted y) (received y))
  | step_drop_sender y :
      step y (MkSystem (drop_sender (queue y)) (notify (thread y)) (is_ending_raised y) false (accepted y) (received y))
  | step_report r y :
      step y (MkSystem (report_painted_update r (queue y)) (notify (thread y)) (is_ending_raised y) false
                (accepted y) (received y))
  | step_raise y :
      step y (MkSystem (queue y) (thread y) true true (accepted y) (received y))
  | step_recv y allowed passed p q :
      may_receive y allowed ->
      recv_paced_pass allowed (is_ending_raised y) passed (queue y) = Some (p, q) ->
      step y (MkSystem q Outside (is_ending_raised y) (is_wake_owed y) (accepted y) (received y ++ deliveries_of p))
  | step_wait y allowed passed :
      may_receive y allowed ->
      recv_paced_pass allowed (is_ending_raised y) passed (queue y) = None ->
      step y (MkSystem (queue y) (Waiting allowed false) (is_ending_raised y) (is_wake_owed y) (accepted y) (received y))
  | step_try_recv y d q :
      thread y = Outside -> is_receiver_closed (queue y) = false -> try_recv (queue y) = (inr d, q) ->
      step y (MkSystem q Outside (is_ending_raised y) (is_wake_owed y) (accepted y) (received y ++ [d]))
  | step_drop_receiver y :
      thread y = Outside ->
      step y (MkSystem (drop_receiver (queue y)) Outside (is_ending_raised y) (is_wake_owed y) (accepted y) (received y)).

Inductive reachable (capacity : nat) : System -> Prop :=
  | reachable_new : reachable capacity (new_system capacity)
  | reachable_step y y' : reachable capacity y -> step y y' -> reachable capacity y'.

(** ** What the receiver sees *)

(** [out] is [sent] with some frames replaced by the frame right after them. *)
Inductive coalesced : list Delivery -> list Delivery -> Prop :=
  | coalesced_nil : coalesced [] []
  | coalesced_snoc sent out d : coalesced sent out -> coalesced (sent ++ [d]) (out ++ [d])
  | coalesced_replace sent out s s' :
      coalesced sent (out ++ [Frame s]) -> coalesced (sent ++ [Frame s']) (out ++ [Frame s']).

(** No two frames wait next to each other. *)
Definition frames_apart (ds : list Delivery) : Prop :=
  forall i d d', ds !! i = Some d -> ds !! S i = Some d' -> is_frame d && is_frame d' = false.

Record system_ok (bound : nat) (y : System) : Prop :=
  { so_capacity : capacity (queue y) = bound;
    so_bounded : (length (deliveries (queue y)) <= bound)%nat;
    so_apart : frames_apart (deliveries (queue y));
    so_order : is_receiver_closed (queue y) = false -> coalesced (accepted y) (received y ++ deliveries (queue y));
    so_waiting allowed : thread y = Waiting allowed false ->
      recv_paced_pass allowed (is_ending_raised y) false (queue y) = None \/ (is_ending_raised y = true /\ is_wake_owed y = true);
    so_open allowed notified : thread y = Waiting allowed notified -> is_receiver_closed (queue y) = false }.

Lemma frames_apart_app ds d : frames_apart ds -> is_frame d = false \/ ds = [] \/ (exists d', last ds = Some d' /\ is_frame d' = false) ->
  frames_apart (ds ++ [d]).
Proof.
  intros Ha Hd i a b Hi Hj. apply lookup_app_Some in Hj as [Hj|[Hl Hj]].
  - apply (Ha i); [|done]. rewrite lookup_app_l in Hi; [done|]. apply lookup_lt_Some in Hj. lia.
  - apply list_lookup_singleton_Some in Hj as [Hj <-]. destruct Hd as [->|[->|(d' & Hd & Hf)]]; [by rewrite andb_false_r|simpl in *; lia|].
    rewrite lookup_app_l in Hi by lia. rewrite last_lookup in Hd. replace (pred (length ds)) with i in Hd by lia.
    rewrite Hd in Hi. injection Hi as <-. by rewrite Hf.
Qed.

Lemma frames_apart_tail d ds : frames_apart (d :: ds) -> frames_apart ds.
Proof. intros H i a b Hi Hj. by apply (H (S i)). Qed.

Lemma frames_apart_replace ds s s' : frames_apart (ds ++ [Frame s]) -> frames_apart (ds ++ [Frame s']).
Proof.
  intros H i a b Hi Hj. apply lookup_app_Some in Hj as [Hj|[Hl Hj]].
  - pose proof (lookup_lt_Some _ _ _ Hj) as Hl. rewrite lookup_app_l in Hi by lia.
    apply (H i); by apply lookup_app_l_Some.
  - apply list_lookup_singleton_Some in Hj as [Hj <-].
    destruct (decide (i < length ds)%nat) as [Hi'|Hi'].
    + rewrite lookup_app_l in Hi by done. change (is_frame (Frame s')) with (is_frame (Frame s)). apply (H i); [by apply lookup_app_l_Some|].
      apply lookup_app_Some. right. split; [lia|]. by rewrite Hj.
    + lia.
Qed.

Lemma last_frame_split (ds : list Delivery) s : last ds = Some (Frame s) -> ds = removelast ds ++ [Frame s].
Proof. intros H. apply last_Some in H as [front ->]. by rewrite removelast_last. Qed.

(** ** One step *)

(** A notice ends the wait. *)
Lemma notified t allowed : notify t <> Waiting allowed false.
Proof. by destruct t. Qed.

Lemma send_ok bound y d :
  system_ok bound y -> is_receiver_closed (queue y) = false -> (length (deliveries (queue y)) < bound)%nat ->
  is_frame d = false \/ (forall s, last (deliveries (queue y)) <> Some (Frame s)) ->
  system_ok bound (MkSystem (with_deliveries (deliveries (queue y) ++ [d]) (queue y)) (notify (thread y)) (is_ending_raised y) false
                     (accepted y ++ [d]) (received y)).
Proof.
  intros [H1 H2 H3 H4 H5 H6] Hopen Hroom Hd. split; cbn [queue thread accepted received deliveries with_deliveries]; [done| | | | |].
  - rewrite length_app. simpl. lia.
  - apply frames_apart_app; [done|]. destruct Hd as [Hd|Hd]; [by left|right].
    destruct (last (deliveries (queue y))) as [d'|] eqn:E; [right|left; by apply last_None in E].
    exists d'. split; [done|]. destruct d'; [by destruct (Hd render_snapshot)|done|done].
  - intros _. rewrite app_assoc. apply coalesced_snoc. by apply H4.
  - intros allowed Ht. by apply notified in Ht.
  - done.
Qed.

Lemma replace_ok bound y s s' :
  system_ok bound y -> is_receiver_closed (queue y) = false -> last (deliveries (queue y)) = Some (Frame s') ->
  system_ok bound (MkSystem (with_deliveries (removelast (deliveries (queue y)) ++ [Frame s]) (queue y)) (thread y)
                     (is_ending_raised y) (is_wake_owed y) (accepted y ++ [Frame s]) (received y)).
Proof.
  intros [H1 H2 H3 H4 H5 H6] Hopen Hlast. pose proof (last_frame_split _ _ Hlast) as E. set (front := removelast _) in *.
  split; cbn [queue thread accepted received deliveries with_deliveries].
  - done.
  - rewrite E, length_app in H2. rewrite length_app. exact H2.
  - rewrite E in H3. by eapply frames_apart_replace.
  - intros _. specialize (H4 Hopen). rewrite E, app_assoc in H4. rewrite app_assoc. by eapply coalesced_replace.
  - intros allowed Ht. destruct (H5 allowed Ht) as [Hn|Hn]; [left|by right]. revert Hn.
    unfold recv_paced_pass, is_head_held. cbn [deliveries with_deliveries painted_update_report is_sender_closed]. rewrite E.
    destruct (painted_update_report (queue y)); [done|]. destruct (is_ending_raised y); [done|].
    destruct front as [|d front]; simpl; repeat case_match; done.
  - done.
Qed.

Lemma taken_ok bound y d ds t r q ending owed :
  system_ok bound y -> is_receiver_closed (queue y) = false -> deliveries (queue y) = d :: ds ->
  q = with_deliveries ds (queue y) -> t = Outside -> r = received y ++ [d] ->
  system_ok bound (MkSystem q t ending owed (accepted y) r).
Proof.
  intros [H1 H2 H3 H4 H5 H6] Hopen E -> -> ->. rewrite E in *. split; cbn [queue thread accepted received deliveries with_deliveries].
  - done.
  - simpl in H2. lia.
  - by eapply frames_apart_tail.
  - intros _. rewrite <- app_assoc. by apply H4.
  - done.
  - done.
Qed.

(** A step that leaves the deliveries, and ends any wait. *)
Lemma same_deliveries_ok bound y q t ending owed :
  system_ok bound y -> deliveries q = deliveries (queue y) -> capacity q = capacity (queue y) ->
  is_receiver_closed q = is_receiver_closed (queue y) -> t = Outside \/ t = notify (thread y) ->
  system_ok bound (MkSystem q t ending owed (accepted y) (received y)).
Proof.
  intros [H1 H2 H3 H4 H5 H6] E1 E2 E3 Ht.
  split; cbn [queue thread accepted received]; rewrite ?E1, ?E2, ?E3; try done.
  - intros allowed Hw. destruct Ht as [->| ->]; [done|]. by apply notified in Hw.
  - intros allowed n Hw. destruct Ht as [->| ->]; [done|]. destruct (thread y) as [|a n'] eqn:Et; [done|]. by apply (H6 a n').
Qed.

Lemma step_ok bound y y' : system_ok bound y -> step y y' -> system_ok bound y'.
Proof.
  intros Hy Hstep. pose proof (so_capacity _ _ Hy) as Hcap.
  destruct Hstep as [d y q n Hf Hs|s y q n Hs|y|y|r y|y|y allowed passed p q [Hopen Ht] Hp|y allowed passed [Hopen Ht] Hp|y d q Ht Hopen Hr|y Ht].
  - unfold try_send in Hs. destruct (is_receiver_closed (queue y)) eqn:Ho; [done|]. rewrite Hcap in Hs.
    destruct (bound <=? _)%nat eqn:Er; [done|]. injection Hs as <- <-. apply Nat.leb_gt in Er.
    apply send_ok; [done|done|done|by left].
  - unfold try_send_frame in Hs. destruct (is_receiver_closed (queue y)) eqn:Ho; [done|]. rewrite Hcap in Hs.
    destruct (last (deliveries (queue y))) as [[s'|s' x|o]|] eqn:El.
    { injection Hs as <- <-. by eapply replace_ok. }
    all: destruct (bound <=? _)%nat eqn:Er; [done|]; injection Hs as <- <-; apply Nat.leb_gt in Er;
      apply send_ok; [done|done|done|right; congruence].
  - apply same_deliveries_ok; auto.
  - apply same_deliveries_ok; auto.
  - apply same_deliveries_ok; auto; unfold report_painted_update; by case_match.
  - destruct Hy as [H1 H2 H3 H4 H5 H6]. split; try done. intros allowed _. by right.
  - unfold recv_paced_pass in Hp. destruct (painted_update_report (queue y)) as [report|].
    { injection Hp as <- <-. cbn [deliveries_of]. rewrite app_nil_r. apply same_deliveries_ok; auto. }
    destruct (is_ending_raised y) eqn:Ee.
    { injection Hp as <- <-. cbn [deliveries_of]. rewrite app_nil_r. apply same_deliveries_ok; auto. }
    assert (forall p0, p0 = TimedOut \/ p0 = Closed -> (p0, queue y) = (p, q) ->
      system_ok bound (MkSystem q Outside false (is_wake_owed y) (accepted y) (received y ++ deliveries_of p))) as Hsame.
    { intros p0 Hp0 [= <- <-]. assert (deliveries_of p0 = []) as -> by (by destruct Hp0 as [->| ->]). rewrite app_nil_r.
      apply same_deliveries_ok; auto. }
    destruct (is_head_held allowed (queue y)).
    { destruct passed; [|done]. injection Hp as Hp. apply (Hsame TimedOut); [by left|congruence]. }
    destruct (deliveries (queue y)) as [|d ds] eqn:Ed.
    + destruct (is_sender_closed (queue y)); [injection Hp as Hp; apply (Hsame Closed); [by right|congruence]|].
      destruct passed; [|done]. injection Hp as Hp. apply (Hsame TimedOut); [by left|congruence].
    + injection Hp as <- <-. by eapply taken_ok.
  - destruct Hy as [H1 H2 H3 H4 H5 H6]. split; try done.
    intros allowed' [= <-]. left. revert Hp. unfold recv_paced_pass. cbn [queue is_ending_raised].
    repeat case_match; done.
  - unfold try_recv in Hr. destruct (deliveries (queue y)) as [|d' ds] eqn:Ed; [done|]. injection Hr as <- <-. by eapply taken_ok.
  - destruct Hy as [H1 H2 H3 H4 H5 H6]. split; try done. cbn. lia.
Qed.

Lemma system_reachable_ok bound y : reachable bound y -> system_ok bound y.
Proof.
  induction 1 as [|y y' _ IH Hstep]; [|by eapply step_ok].
  split; try done; [simpl; lia|intros _; constructor].
Qed.

(** ** What coalescing keeps *)

Lemma coalesced_facts sent out :
  coalesced sent out ->
  out `sublist_of` sent /\ last out = last sent
  /\ filter (fun d => is_frame d = false) out = filter (fun d => is_frame d = false) sent.
Proof.
  induction 1 as [|sent out d _ (H1 & H2 & H3)|sent out s s' _ (H1 & H2 & H3)]; [done| |].
  - split_and!; [by apply sublist_app|by rewrite !last_snoc|by rewrite !filter_app, H3].
  - split_and!; [|by rewrite !last_snoc|].
    + apply sublist_app; [|done]. etransitivity; [|exact H1]. by apply sublist_inserts_r.
    + rewrite filter_app in H3. rewrite !filter_app, <- H3. cbn. by rewrite !app_nil_r.
Qed.

(** ** A closed queue *)

(** Receiving again and again, with the permission the window gives each time. *)
Fixpoint recv_each (flags : list bool) (q : DeliveryQueueState) : option (list PacedReceive) :=
  match flags with
  | [] => Some []
  | is_frame_allowed :: flags =>
      '(p, q) ← recv_paced_pass is_frame_allowed false false q;
      rest ← recv_each flags q;
      Some (p :: rest)
  end.

Lemma recv_each_closed flags q :
  is_sender_closed q = true -> painted_update_report q = None -> length flags = S (length (deliveries q)) ->
  recv_each flags q = Some ((ReceivedDelivery <$> deliveries q) ++ [Closed]).
Proof.
  destruct q as [ds cap closed gone report]. cbn [is_sender_closed painted_update_report deliveries]. intros -> -> .
  revert flags. induction ds as [|d ds IH]; intros [|flag flags] Hl; simpl in Hl; [lia| |lia|].
  - destruct flags; [done|simpl in Hl; lia].
  - cbn [recv_each]. unfold recv_paced_pass, is_head_held. cbn [painted_update_report deliveries is_sender_closed negb].
    rewrite andb_false_r. cbn [mbind option_bind]. rewrite IH by lia. done.
Qed.
End queue.
Arguments Delivery : clear implicits.
Arguments System : clear implicits.
