(* ===== verification/StreamPacing.v ===== *)
(** * Pacing one client's connection

    What the byte window and the delivery queue promise together: the window
    stays in its bounds, no wake of the writing thread is lost, nothing but
    outdated frames is dropped, and a frame that is held goes out once the
    client reports what it was sent. *)

From S2P Require Import Prelude Varint PaintWindow DeliveryQueue.
From stdpp Require Import sorting options.
#[local] Open Scope N_scope.

(** ** The windows of a connection *)

(** A window after any updates were sent and any reports read, and the bytes
    the connection has written. Updates are numbered one after the other. A
    [guarded] connection sends an update only while the window allows it; the
    frames left when the queue closes go out without asking. *)
Inductive window_reachable (guarded : bool) : PaintWindow -> N -> Prop :=
  | window_new written : window_reachable guarded new_paint_window written
  | window_written w written written' :
      window_reachable guarded w written -> written <= written' -> window_reachable guarded w written'
  | window_sent w written end_position write_started_at sent :
      window_reachable guarded w written -> (guarded = true -> can_send_update written w = true) ->
      written <= end_position ->
      window_reachable guarded
        (record_update_sent (last_sent_update_sequence w + 1) end_position write_started_at sent w) end_position
  | window_reported w written r w' :
      window_reachable guarded w written -> record_update_painted r w = ok w' -> window_reachable guarded w' written.

Record window_ok (guarded : bool) (w : PaintWindow) (written : N) : Prop :=
  { wo_bounds : MINIMUM_WINDOW_BYTE_COUNT <= window_byte_count w <= MAXIMUM_WINDOW_BYTE_COUNT;
    wo_sorted : StronglySorted N.lt (flight_update_sequence <$> in_flight_updates w);
    wo_sent : Forall (fun u => flight_update_sequence u <= last_sent_update_sequence w) (in_flight_updates w);
    wo_last u : last (in_flight_updates w) = Some u -> flight_update_sequence u = last_sent_update_sequence w;
    wo_positions : Forall (fun u => painted_byte_position w <= end_byte_position u <= written) (in_flight_updates w);
    wo_painted : painted_byte_position w <= written;
    wo_ends : StronglySorted N.le (end_byte_position <$> in_flight_updates w);
    wo_batch m : lowest_round_trip (measurement_batch w) = Some m -> MINIMUM_ROUND_TRIP_DURATION <= m;
    wo_one : guarded = true -> has_paint_report w = false -> (length (in_flight_updates w) <= 1)%nat }.

(** ** The change of a window *)

Lemma scale_some byte_count numerator denominator :
  MINIMUM_ROUND_TRIP_DURATION <= denominator -> exists n, scale_byte_count byte_count numerator denominator = Some n.
Proof.
  intros Hd. unfold scale_byte_count.
  assert (1000 <= as_micros denominator) as Hm.
  { unfold as_micros, MINIMUM_ROUND_TRIP_DURATION, from_millis in *. apply N.div_le_lower_bound; lia. }
  rewrite (proj2 (N.eqb_neq _ 0)) by lia. by eexists.
Qed.

Lemma change_bounded base measured filled byte_count doubling :
  MINIMUM_ROUND_TRIP_DURATION <= measured ->
  exists n d, change_byte_count base measured filled byte_count doubling = Some (n, d)
    /\ MINIMUM_WINDOW_BYTE_COUNT <= n <= MAXIMUM_WINDOW_BYTE_COUNT.
Proof.
  intros Hm. unfold change_byte_count.
  assert (exists r, spike_change base measured byte_count doubling = Some r) as [[c d] ->].
  { unfold spike_change. destruct (_ && _); [|by eexists].
    destruct (scale_some byte_count base measured Hm) as [n ->]. by eexists. }
  cbn [mbind option_bind fst snd].
  assert (exists r, step_change base measured filled c d = Some r) as [[c' d'] ->].
  { unfold step_change. destruct (scale_some c base measured Hm) as [n ->].
    destruct (scale_some c WINDOW_STEP_DURATION measured Hm) as [n' ->]. cbn [mbind option_bind].
    repeat case_match; by eexists. }
  cbn [mbind option_bind fst snd]. eexists _, _. split; [done|].
  unfold MINIMUM_WINDOW_BYTE_COUNT, MAXIMUM_WINDOW_BYTE_COUNT. lia.
Qed.

Lemma lowest_with_min lowest m b :
  b <= m -> (forall l, lowest = Some l -> b <= l) -> b <= lowest_with lowest m.
Proof. intros Hm Hl. unfold lowest_with. destruct lowest as [l|]; [|done]. specialize (Hl l eq_refl). lia. Qed.

(** A measurement changes the window's numbers, and nothing else of it. *)
Lemma measurement_ok u round_trip w :
  MINIMUM_ROUND_TRIP_DURATION <= round_trip ->
  (forall m, lowest_round_trip (measurement_batch w) = Some m -> MINIMUM_ROUND_TRIP_DURATION <= m) ->
  MINIMUM_WINDOW_BYTE_COUNT <= window_byte_count w <= MAXIMUM_WINDOW_BYTE_COUNT ->
  exists w', record_measurement u round_trip w = Some w'
    /\ MINIMUM_WINDOW_BYTE_COUNT <= window_byte_count w' <= MAXIMUM_WINDOW_BYTE_COUNT
    /\ (forall m, lowest_round_trip (measurement_batch w') = Some m -> MINIMUM_ROUND_TRIP_DURATION <= m)
    /\ in_flight_updates w' = in_flight_updates w /\ painted_byte_position w' = painted_byte_position w
    /\ last_sent_update_sequence w' = last_sent_update_sequence w /\ has_paint_report w' = has_paint_report w.
Proof.
  intros Hr Hb Hw. unfold record_measurement. destruct (_ <=? _).
  { eexists. split_and!; [done|apply Hw|apply Hw|exact Hb|done..]. }
  cbv zeta. pose proof (lowest_with_min _ _ _ Hr Hb) as Hlow. destruct (_ <? _).
  { eexists. split_and!; [done|apply Hw|apply Hw| |done..]. intros m [= <-]. exact Hlow. }
  unfold change_window.
  destruct (change_bounded (lowest_with (base_round_trip w) round_trip) _
    (if is_window_filled u then Some (lowest_with (lowest_filled_round_trip (measurement_batch w)) round_trip)
     else lowest_filled_round_trip (measurement_batch w)) (window_byte_count w) (is_doubling w) Hlow) as (n & d & E & Hn).
  cbn [window_byte_count is_doubling with_measurements]. rewrite E. cbn [mbind option_bind].
  eexists. split_and!; [done|apply Hn|apply Hn|done|done..].
Qed.

(** ** Reports *)

Lemma pop_spec k popped l :
  StronglySorted N.lt (flight_update_sequence <$> l) ->
  exists before, l = before ++ filter (fun u => k < flight_update_sequence u) l
    /\ Forall (fun u => flight_update_sequence u <= k) before
    /\ pop_painted_updates k popped l
       = (match last before with Some u => Some u | None => popped end, filter (fun u => k < flight_update_sequence u) l).
Proof.
  revert popped. induction l as [|u l IH]; intros popped Hs; [by exists []|].
  cbn in Hs. apply StronglySorted_inv in Hs as [Hs Hu]. cbn [pop_painted_updates].
  destruct (flight_update_sequence u <=? k) eqn:E; bools.
  - destruct (IH (Some u) Hs) as (before & El & Hb & Ep). exists (u :: before).
    rewrite filter_cons_False by lia. split_and!; [by rewrite El at 1|by constructor|].
    rewrite Ep. f_equal. rewrite last_cons. by destruct (last before).
  - exists []. assert (filter (fun u => k < flight_update_sequence u) (u :: l) = u :: l) as ->.
    { apply list_filter_all. intros v Hv. apply elem_of_cons in Hv as [->|Hv]; [done|].
      rewrite Forall_fmap, Forall_forall in Hu. specialize (Hu v Hv). cbn in Hu. lia. }
    by split_and!.
Qed.

Definition still_in_flight (r : PaintedUpdateReport) (w : PaintWindow) : list InFlightUpdate :=
  filter (fun u => report_update_sequence r < flight_update_sequence u) (in_flight_updates w).

Lemma strongly_sorted_app_r {A} (R : A -> A -> Prop) (l k : list A) : StronglySorted R (l ++ k) -> StronglySorted R k.
Proof. induction l as [|a l IH]; [done|]. intros H. apply StronglySorted_inv in H as [H _]. by apply IH. Qed.

Lemma strongly_sorted_snoc {A} (R : A -> A -> Prop) (l : list A) a :
  StronglySorted R l -> Forall (fun b => R b a) l -> StronglySorted R (l ++ [a]).
Proof.
  intros H. induction H as [|b l Hs IH Hb]; intros Ha; [repeat constructor|]. apply Forall_cons in Ha as [Hba Ha]. cbn.
  constructor; [by apply IH|]. apply Forall_app. split; [done|by constructor].
Qed.

Lemma report_ok guarded w written r :
  window_ok guarded w written ->
  match record_update_painted r w with
  | None => False
  | Some (inl e) =>
      last_sent_update_sequence w < report_update_sequence r
      /\ e = UnsentUpdate (report_update_sequence r) (last_sent_update_sequence w)
  | Some (inr w') =>
      report_update_sequence r <= last_sent_update_sequence w /\ in_flight_updates w' = still_in_flight r w
      /\ last_sent_update_sequence w' = last_sent_update_sequence w
      /\ (still_in_flight r w = in_flight_updates w -> w' = w) /\ window_ok guarded w' written
  end.
Proof.
  intros Hw. pose proof Hw as [H1 H2 H3 H4 H5 Hpainted Hends H6 H7]. unfold record_update_painted.
  destruct (last_sent_update_sequence w <? report_update_sequence r) eqn:E; bools; [done|].
  destruct (pop_spec (report_update_sequence r) None _ H2) as (before & El & Hb & ->).
  fold (still_in_flight r w) in El |- *. destruct (last before) as [u|] eqn:Eu.
  2: { apply last_None in Eu as ->. cbn in El. by rewrite <- El. }
  assert (u ∈ in_flight_updates w) as Hu.
  { rewrite El. apply elem_of_app. left. apply last_Some in Eu as [front ->]. apply elem_of_app. right. by left. }
  set (w1 := MkPaintWindow _ _ _ _ _ _ _ _ _ _).
  destruct (measurement_ok u (N.max (reported_at r - sent_at u) MINIMUM_ROUND_TRIP_DURATION) w1)
    as (w' & -> & B1 & B2 & B3 & B4 & B5 & B6); [lia|done|done|].
  cbn [expect]. split_and!; [done|by rewrite B3|by rewrite B5| |].
  - intros Esame. exfalso. rewrite Esame in El. assert (length before = 0)%nat as Hz.
    { apply (f_equal length) in El. rewrite length_app in El. lia. }
    by destruct before.
  - assert (Forall (fun v => v ∈ in_flight_updates w) (still_in_flight r w)) as Hin.
    { apply Forall_forall. intros v Hv. rewrite El. apply elem_of_app. by right. }
    split; [exact B1|rewrite B3|rewrite B3, B5| |rewrite B3, B4| |rewrite B3|exact B2|].
    + rewrite El, fmap_app in H2. by eapply strongly_sorted_app_r.
    + eapply Forall_impl; [exact Hin|]. intros v Hv. by eapply Forall_forall in H3.
    + rewrite B3, B5. intros v Hv. apply H4. rewrite El. cbn in Hv. rewrite last_app, Hv. done.
    + cbn [w1 painted_byte_position in_flight_updates]. apply Forall_forall. intros v Hv. split.
      * apply last_Some in Eu as [front ->]. rewrite El, <- app_assoc, fmap_app in Hends.
        apply strongly_sorted_app_r in Hends. cbn in Hends. apply StronglySorted_inv in Hends as [_ Hends].
        rewrite Forall_fmap, Forall_forall in Hends. by apply Hends.
      * eapply Forall_forall in Hin; [|exact Hv]. by eapply Forall_forall in H5 as [_ H5].
    + rewrite B4. cbn [w1 painted_byte_position]. by eapply Forall_forall in H5 as [_ H5].
    + rewrite El, fmap_app in Hends. by eapply strongly_sorted_app_r.
    + intros _ Hp. rewrite B6 in Hp. done.
Qed.

Lemma sent_ok guarded w written end_position write_started_at sent :
  window_ok guarded w written -> (guarded = true -> can_send_update written w = true) -> written <= end_position ->
  window_ok guarded (record_update_sent (last_sent_update_sequence w + 1) end_position write_started_at sent w) end_position.
Proof.
  intros Hw Hguard Hend. unfold record_update_sent.
  set (w1 := if is_idle_past_base write_started_at w then start_window_over w else w).
  assert (in_flight_updates w1 = in_flight_updates w /\ painted_byte_position w1 = painted_byte_position w
    /\ last_sent_update_sequence w1 = last_sent_update_sequence w /\ has_paint_report w1 = has_paint_report w
    /\ MINIMUM_WINDOW_BYTE_COUNT <= window_byte_count w1 <= MAXIMUM_WINDOW_BYTE_COUNT
    /\ (forall m, lowest_round_trip (measurement_batch w1) = Some m -> MINIMUM_ROUND_TRIP_DURATION <= m))
    as (E1 & E2 & E3 & E4 & E5 & E6).
  { pose proof (wo_bounds _ _ _ Hw). unfold w1. destruct (is_idle_past_base write_started_at w);
      [|split_and!; try done; apply Hw]. split_and!; try done; cbn; unfold INITIAL_WINDOW_BYTE_COUNT, MINIMUM_WINDOW_BYTE_COUNT,
      MAXIMUM_WINDOW_BYTE_COUNT in *; lia. }
  pose proof Hw as [H1 H2 H3 H4 H5 Hpainted H6 H7 H8].
  split; cbn [window_byte_count in_flight_updates last_sent_update_sequence painted_byte_position measurement_batch has_paint_report];
    rewrite ?E1, ?E2, ?E3, ?E4.
  - exact E5.
  - rewrite fmap_app. apply strongly_sorted_snoc; [done|]. apply Forall_fmap. eapply Forall_impl; [exact H3|]. cbn. lia.
  - apply Forall_app. split; [|by apply Forall_singleton]. eapply Forall_impl; [exact H3|]. cbn. lia.
  - intros u Hu. rewrite last_snoc in Hu. by injection Hu as <-.
  - apply Forall_app. split.
    + eapply Forall_impl; [exact H5|]. cbn. lia.
    + apply Forall_singleton. cbn. lia.
  - lia.
  - rewrite fmap_app. apply strongly_sorted_snoc; [done|]. apply Forall_fmap. eapply Forall_impl; [exact H5|]. cbn. lia.
  - exact E6.
  - intros Hg Hr. specialize (Hguard Hg). unfold can_send_update in Hguard. rewrite Hr in Hguard. cbn [andb] in Hguard.
    rewrite orb_false_r in Hguard. apply bool_decide_eq_true in Hguard. rewrite Hguard. simpl. lia.
Qed.

Lemma window_reachable_ok guarded w written : window_reachable guarded w written -> window_ok guarded w written.
Proof.
  induction 1 as [written|w written written' _ IH Hle|w written e t0 t _ IH Hg Hle|w written r w' _ IH Hr].
  - split; cbn; try done; try lia; apply SSorted_nil.
  - destruct IH as [H1 H2 H3 H4 H5 Hp H6 H7 H8]. split; try done; [|lia]. eapply Forall_impl; [exact H5|]. cbn. lia.
  - by eapply sent_ok.
  - pose proof (report_ok guarded w written r IH) as H. rewrite Hr in H. apply H.
Qed.

(** ** The claims *)

(** C22: The window of a connection stays in its bounds. After any sends and
    reports at any times, the window is between 4 KiB and 4 MiB. A report never
    panics: one of an update that was not sent is refused and changes nothing;
    any other takes exactly the updates up to its own out of the flight, and a
    report of nothing in flight changes nothing. On a connection that sends
    only while the window allows it, at most one update waits until the first
    report. An update may be begun exactly when nothing is in flight, or when
    the client has reported an update and fewer bytes are written past the last
    painted one than the window is wide now. *)
Theorem paint_windows_stay_in_bounds guarded w written r :
  window_reachable guarded w written ->
  MINIMUM_WINDOW_BYTE_COUNT <= window_byte_count w <= MAXIMUM_WINDOW_BYTE_COUNT
  /\ match record_update_painted r w with
     | None => False
     | Some (inl e) =>
         last_sent_update_sequence w < report_update_sequence r
         /\ e = UnsentUpdate (report_update_sequence r) (last_sent_update_sequence w)
     | Some (inr w') =>
         report_update_sequence r <= last_sent_update_sequence w /\ in_flight_updates w' = still_in_flight r w
         /\ (still_in_flight r w = in_flight_updates w -> w' = w)
     end
  /\ (guarded = true -> has_paint_report w = false -> (length (in_flight_updates w) <= 1)%nat)
  /\ (can_send_update written w = true <->
        in_flight_updates w = []
        \/ (has_paint_report w = true /\ written < painted_byte_position w + window_byte_count w)).
Proof.
  intros Hw. apply window_reachable_ok in Hw. pose proof (report_ok guarded w written r Hw) as Hr.
  split_and!; [apply Hw|apply Hw| |apply Hw|].
  - destruct (record_update_painted r w) as [[e|w']|]; [done| |done]. by destruct Hr as (? & ? & _ & ? & _).
  - unfold can_send_update. rewrite orb_true_iff, andb_true_iff, bool_decide_eq_true, N.ltb_lt.
    pose proof (wo_bounds _ _ _ Hw) as Hbounds. unfold MINIMUM_WINDOW_BYTE_COUNT in Hbounds.
    assert (written - painted_byte_position w < window_byte_count w
      <-> written < painted_byte_position w + window_byte_count w) as -> by lia. done.
Qed.

Section queue.
Context {RenderSnapshot Resync Other : Type}.
Abbreviation delivery := (Delivery RenderSnapshot Resync Other).
Abbreviation queue_state := (@DeliveryQueueState RenderSnapshot Resync Other).

(** C17: No wake of a writing thread is lost, and only outdated frames are
    dropped. In every reachable state of a client's queue: the queue holds at
    most its capacity and no two frames next to each other; while the receiver
    is there, what it took and what waits are what was accepted, in order, with
    every delivery but frames, and with the newest frame when that was sent
    last; and a thread that waits with no notice under way has nothing it could
    take, unless the ending was raised and its wake is still owed. *)
Theorem no_delivery_waits_unseen bound (y : System RenderSnapshot Resync Other) :
  reachable bound y ->
  (length (deliveries (queue y)) <= bound)%nat /\ frames_apart (deliveries (queue y))
  /\ (is_receiver_closed (queue y) = false ->
        let out := received y ++ deliveries (queue y) in
        out `sublist_of` accepted y /\ last out = last (accepted y)
        /\ filter (fun d => is_frame d = false) out = filter (fun d => is_frame d = false) (accepted y))
  /\ (forall allowed, thread y = Waiting allowed false ->
        recv_paced_pass allowed (is_ending_raised y) false (queue y) = None
        \/ (is_ending_raised y = true /\ is_wake_owed y = true)).
Proof.
  intros Hy. apply system_reachable_ok in Hy as [H1 H2 H3 H4 H5 _]. split_and!; [done|done| |done].
  intros Hopen. by apply coalesced_facts, H4.
Qed.

(** A closed queue drains. Once the sender is gone, receiving again and
    again hands out every waiting delivery in order, held frames too and
    whatever the window allows, and then reports the queue closed. *)
Theorem closed_queues_drain (flags : list bool) (q : queue_state) :
  is_sender_closed q = true -> painted_update_report q = None -> length flags = S (length (deliveries q)) ->
  recv_each flags q = Some ((ReceivedDelivery <$> deliveries q) ++ [Closed]).
Proof. apply recv_each_closed. Qed.

(** C21: A held frame goes out once the client reports what it was sent. When
    the writing thread would wait although a frame is at the head of its queue,
    some update is in flight; and when the client reports the last update it
    was sent, the thread receives that report first, the window takes it, no
    byte count holds the next update back, and the thread receives the frame
    next. *)
Theorem paint_reports_release_frames guarded w written written' (q : queue_state) d ds reported :
  window_reachable guarded w written -> is_frame_delivery d = true -> deliveries q = d :: ds ->
  recv_paced_pass (can_send_update written w) false false q = None ->
  let r := MkPaintedUpdateReport (last_sent_update_sequence w) reported in
  in_flight_updates w <> []
  /\ exists q1 w', recv_paced_pass (can_send_update written w) false false (report_painted_update r q)
       = Some (PaintedUpdateReported r, q1)
     /\ record_update_painted r w = ok w' /\ can_send_update written' w' = true
     /\ recv_paced_pass (can_send_update written' w') false false q1
        = Some (ReceivedDelivery d, with_deliveries ds q1).
Proof.
  intros Hw Hd Hq Hblocked r. apply window_reachable_ok in Hw.
  unfold recv_paced_pass, is_head_held in Hblocked. rewrite Hq, Hd in Hblocked.
  destruct (painted_update_report q) eqn:Er; [done|].
  destruct (can_send_update written w) eqn:Es; [done|]. cbn [andb negb] in Hblocked.
  split.
  { intros Ef. unfold can_send_update in Es. by rewrite Ef in Es. }
  pose proof (report_ok guarded w written r Hw) as H.
  assert (still_in_flight r w = []) as Hnone.
  { unfold still_in_flight. apply elem_of_nil_inv. intros u Hu. apply list_elem_of_filter in Hu as [Hlt Hu].
    pose proof (wo_sent _ _ _ Hw) as Hsent. eapply Forall_forall in Hsent; [|exact Hu]. cbn in *. lia. }
  destruct (record_update_painted r w) as [[e|w']|]; [cbn in H; lia| |done]. destruct H as (_ & Hf & _).
  assert (can_send_update written' w' = true) as Hsend.
  { unfold can_send_update. by rewrite Hf, Hnone. }
  exists (with_report None (report_painted_update r q)), w'. rewrite Hsend. unfold report_painted_update. rewrite Er.
  unfold recv_paced_pass, is_head_held. cbn [painted_update_report with_report deliveries]. rewrite Hq.
  split_and!; [done|done|done|]. by rewrite andb_false_r.
Qed.
End queue.

(** ** Witnesses *)

(** One update of 70000 bytes sent and not reported. *)
Definition example_window : PaintWindow := record_update_sent 1 70000 0 (from_millis 5) new_paint_window.

Lemma example_window_reachable : window_reachable true example_window 70000.
Proof. apply (window_sent true new_paint_window 0 70000 0 (from_millis 5)); [apply window_new|done|lia]. Qed.

(** Two updates later, the first of them reported: 5000 bytes past the
    painted ones are within the window of 64 KiB, 70000 are not. *)
Definition example_reported_window : PaintWindow :=
  match record_update_painted (MkPaintedUpdateReport 1 (from_millis 45)) example_window with
  | Some (inr w) => w
  | _ => new_paint_window
  end.

Definition example_second_window : PaintWindow :=
  record_update_sent (last_sent_update_sequence example_reported_window + 1) 75000 70000 (from_millis 50)
    example_reported_window.

Lemma example_second_window_reachable : window_reachable true example_second_window 75000.
Proof.
  apply (window_sent true example_reported_window 70000); [|done|lia].
  by apply (window_reported true example_window 70000 (MkPaintedUpdateReport 1 (from_millis 45)));
    [apply example_window_reachable|].
Qed.

Lemma paint_windows_stay_in_bounds_witness :
  (exists w', record_update_painted (MkPaintedUpdateReport 1 (from_millis 45)) example_window = ok w'
    /\ in_flight_updates w' = [] /\ window_byte_count w' = 65536)
  /\ record_update_painted (MkPaintedUpdateReport 2 (from_millis 45)) example_window = failed (UnsentUpdate 2 1)
  /\ can_send_update 70000 example_window = false
  /\ window_byte_count example_second_window = 65536 /\ in_flight_updates example_second_window <> []
  /\ can_send_update 75000 example_second_window = true.
Proof.
  pose proof (paint_windows_stay_in_bounds true example_window 70000 (MkPaintedUpdateReport 1 (from_millis 45))
    example_window_reachable) as (_ & H & _ & Hsend).
  pose proof (paint_windows_stay_in_bounds true example_second_window 75000 (MkPaintedUpdateReport 2 (from_millis 45))
    example_second_window_reachable) as (_ & _ & _ & Hsend2).
  split_and!.
  - destruct (record_update_painted (MkPaintedUpdateReport 1 (from_millis 45)) example_window) as [[e|w']|] eqn:E;
      [vm_compute in E; discriminate| |vm_compute in E; discriminate].
    destruct H as (_ & Hf & _). exists w'. split; [done|]. split; [rewrite Hf; vm_compute; reflexivity|].
    vm_compute in E. injection E as <-. vm_compute. reflexivity.
  - vm_compute. reflexivity.
  - apply not_true_is_false. intros Hc. apply Hsend in Hc as [Hc|[Hc _]]; vm_compute in Hc; discriminate.
  - vm_compute. reflexivity.
  - vm_compute. discriminate.
  - apply Hsend2. right. split; vm_compute; reflexivity.
Defined.

(** The example of the file: of the frames [b] and [c] the newer one stays. *)
Definition example_queue : @DeliveryQueueState N unit N :=
  MkDeliveryQueueState [Frame 1; OtherDelivery 9; Frame 3] 8 false false None.

Lemma no_delivery_waits_unseen_witness :
  exists y : System N unit N, reachable 8 y /\ queue y = example_queue /\ thread y = Waiting false false
    /\ accepted y = [Frame 1; OtherDelivery 9; Frame 2; Frame 3]
    /\ recv_paced_pass false (is_ending_raised y) false (queue y) = None
    /\ received y ++ deliveries (queue y) = [Frame 1; OtherDelivery 9; Frame 3].
Proof.
  pose proof (reachable_new 8 : reachable 8 (new_system 8 : System N unit N)) as R0.
  eapply reachable_step in R0; [|by apply (step_send_frame 1)].
  eapply reachable_step in R0; [|by apply (step_send (OtherDelivery 9))].
  eapply reachable_step in R0; [|by apply (step_send_frame 2)].
  eapply reachable_step in R0; [|apply (step_wait _ false false); [split; [done|by left]|done]].
  eapply reachable_step in R0; [|by apply (step_send_frame 3)].
  pose proof R0 as Hy.
  destruct (no_delivery_waits_unseen 8 _ Hy) as (_ & _ & _ & H).
  eexists. split; [exact Hy|]. split_and!; [done|done|done| |done].
  by destruct (H false eq_refl) as [H'|[H' _]].
Defined.

Lemma closed_queues_drain_witness :
  recv_each [false; true; false; false] (drop_sender example_queue)
  = Some [ReceivedDelivery (Frame 1); ReceivedDelivery (OtherDelivery 9); ReceivedDelivery (Frame 3); Closed].
Proof. apply (closed_queues_drain [false; true; false; false] (drop_sender example_queue)); reflexivity. Defined.

Lemma paint_reports_release_frames_witness :
  recv_paced_pass (can_send_update 70000 example_window) false false example_queue = None
  /\ exists q1 w', recv_paced_pass (can_send_update 70000 example_window) false false
       (report_painted_update (MkPaintedUpdateReport 1 (from_millis 45)) example_queue)
       = Some (PaintedUpdateReported (MkPaintedUpdateReport 1 (from_millis 45)), q1)
     /\ recv_paced_pass (can_send_update 70000 w') false false q1
        = Some (ReceivedDelivery (Frame 1), with_deliveries [OtherDelivery 9; Frame 3] q1).
Proof.
  split; [reflexivity|].
  destruct (paint_reports_release_frames true example_window 70000 70000 example_queue (Frame 1)
    [OtherDelivery 9; Frame 3] (from_millis 45) example_window_reachable) as (_ & q1 & w' & H1 & _ & _ & H2);
    [reflexivity|reflexivity|reflexivity|].
  exists q1, w'. split; [exact H1|exact H2].
Defined.
