(* ===== verification/PtyInbox.v ===== *)
(** * A pane's output on its way to the dispatcher
    ([crates/koshi-runtime/src/runtime/pty_inbox.rs])

    The output queue of each pane, the sink the panes' readers push into, and
    the dispatcher's turns. A queue is an [Arc]: it is known by a number, and
    the registry's weak entry finds it while somebody holds it. Each critical
    section is one step, so readers and the dispatcher interleave between
    them, while it drains too. No output waits without somebody about to serve
    it, a turn takes the oldest chunks up to its limit, and draining ends with
    nothing left to serve. *)

From S2P Require Import Prelude Varint.
From stdpp Require Import gmap sets relations options.
#[local] Open Scope N_scope.

Definition PANE_OUTPUT_QUEUE_BYTE_LIMIT : N := 128 * 1024.
Definition PANE_OUTPUT_TURN_BYTE_LIMIT : N := 64 * 1024.

Definition chunk_len (chunk : list N) : N := N.of_nat (length chunk).
Definition total_len (chunks : list (list N)) : N := foldr (fun chunk n => chunk_len chunk + n) 0 chunks.

Section inbox.
Context {ExitStatus : Type}.

(** ** The queue *)

Record PaneOutputQueueState := MkPaneOutputQueueState
  { output_chunks : list (list N);
    queued_byte_count : N;
    exit_status : option ExitStatus;
    is_wake_sent : bool;
    is_closed : bool }.

Definition empty_queue : PaneOutputQueueState := MkPaneOutputQueueState [] 0 None false false.

Record PaneOutputTurn := MkPaneOutputTurn
  { turn_chunks : list (list N); turn_exit_status : option ExitStatus; has_more_output : bool }.

(** The loop of a turn: the chunks taken, and those left. *)
Fixpoint take_turn_chunks (taken : list (list N)) (taken_byte_count : N) (chunks : list (list N))
    : list (list N) * N * list (list N) :=
  match chunks with
  | [] => (taken, taken_byte_count, [])
  | chunk :: rest =>
      if negb (bool_decide (taken = [])) && (PANE_OUTPUT_TURN_BYTE_LIMIT <? taken_byte_count + chunk_len chunk)
      then (taken, taken_byte_count, chunks)
      else take_turn_chunks (taken ++ [chunk]) (taken_byte_count + chunk_len chunk) rest
  end.

(** [None]: the byte count is less than the bytes taken. *)
Definition take_output_turn (q : PaneOutputQueueState) : option (PaneOutputTurn * PaneOutputQueueState) :=
  let '(taken, taken_byte_count, rest) := take_turn_chunks [] 0 (output_chunks q) in
  if queued_byte_count q <? taken_byte_count then None
  else
    let exit := if bool_decide (rest = []) then exit_status q else None in
    let exit_left := if bool_decide (rest = []) then None else exit_status q in
    let has_more := negb (bool_decide (rest = [])) in
    Some (MkPaneOutputTurn taken exit has_more,
          MkPaneOutputQueueState rest (queued_byte_count q - taken_byte_count) exit_left
            (has_more && is_wake_sent q) (is_closed q)).

(** The queue's own part of [close_output_queue]. *)
Definition close_queue_state (q : PaneOutputQueueState) : PaneOutputQueueState :=
  MkPaneOutputQueueState [] 0 None (is_wake_sent q) true.

Definition queue_is_full (should_wait : bool) (q : PaneOutputQueueState) : bool :=
  should_wait && negb (is_closed q) && (PANE_OUTPUT_QUEUE_BYTE_LIMIT <=? queued_byte_count q).

(** What a push does once there is room: [None] on a closed queue; otherwise
    the queue, and whether a wake is to be sent. *)
Definition push_output (bytes : list N) (q : PaneOutputQueueState) : option (PaneOutputQueueState * bool) :=
  if is_closed q then None
  else Some (MkPaneOutputQueueState (output_chunks q ++ [bytes]) (queued_byte_count q + chunk_len bytes)
               (exit_status q) true false, negb (is_wake_sent q)).

Definition push_exit (status : ExitStatus) (q : PaneOutputQueueState) : option (PaneOutputQueueState * bool) :=
  if is_closed q then None
  else Some (MkPaneOutputQueueState (output_chunks q) (queued_byte_count q) (Some status) true false,
             negb (is_wake_sent q)).

(** ** The sink and the dispatcher *)

(** A queue with its pane, and what was pushed into it and taken out. *)
Record PaneOutputQueue := MkPaneOutputQueue
  { queue_pane_id : N;
    queue_state : PaneOutputQueueState;
    pushed : list (list N);
    taken : list (list N) }.

Inductive Pushed := PushedBytes (bytes : list N) | PushedExit (status : ExitStatus).

(** Where a reader's call is: it found its queue, or it has a wake to send. *)
Inductive Pusher :=
  | FoundQueue (queue : N) (item : Pushed)
  | SendsWake (queue : N).

Definition pusher_queue (p : Pusher) : N := match p with FoundQueue q _ => q | SendsWake q => q end.

Record InboxSystem := MkInboxSystem
  { queues : gmap N PaneOutputQueue;
    registry : gmap N N;
    pushers : gmap N Pusher;
    inbox : list N;
    spawned_pane_ids : gset N;
    live_pane_ids : gset N;
    pane_output_queue_by_pane_id : gmap N N;
    ready_output_pane_ids : list N;
    (** The pane [serve_output_turn] gave back and the pass has not put back. *)
    served_pane_id : option N }.

Definition new_inbox_system : InboxSystem := MkInboxSystem ∅ ∅ ∅ [] ∅ ∅ ∅ [] None.

(** Somebody holds the queue: the server, a wake in the inbox, or a push. *)
Definition is_held (q : N) (y : InboxSystem) : Prop :=
  (exists pane, pane_output_queue_by_pane_id y !! pane = Some q) \/ q ∈ inbox y
  \/ exists reader p, pushers y !! reader = Some p /\ pusher_queue p = q.

Definition with_queue (q : N) (f : PaneOutputQueue -> PaneOutputQueue) (y : InboxSystem) : InboxSystem :=
  MkInboxSystem (alter f q (queues y)) (registry y) (pushers y) (inbox y) (spawned_pane_ids y) (live_pane_ids y)
    (pane_output_queue_by_pane_id y) (ready_output_pane_ids y) (served_pane_id y).

Definition with_pushers (ps : gmap N Pusher) (y : InboxSystem) : InboxSystem :=
  MkInboxSystem (queues y) (registry y) ps (inbox y) (spawned_pane_ids y) (live_pane_ids y)
    (pane_output_queue_by_pane_id y) (ready_output_pane_ids y) (served_pane_id y).

Definition with_inbox (qs : list N) (y : InboxSystem) : InboxSystem :=
  MkInboxSystem (queues y) (registry y) (pushers y) qs (spawned_pane_ids y) (live_pane_ids y)
    (pane_output_queue_by_pane_id y) (ready_output_pane_ids y) (served_pane_id y).

Definition with_rotation (panes : list N) (served : option N) (y : InboxSystem) : InboxSystem :=
  MkInboxSystem (queues y) (registry y) (pushers y) (inbox y) (spawned_pane_ids y) (live_pane_ids y)
    (pane_output_queue_by_pane_id y) panes served.

Definition with_server (live : gset N) (held : gmap N N) (y : InboxSystem) : InboxSystem :=
  MkInboxSystem (queues y) (registry y) (pushers y) (inbox y) (spawned_pane_ids y) live held
    (ready_output_pane_ids y) (served_pane_id y).

Definition start_queue (pane q : N) (y : InboxSystem) : InboxSystem :=
  MkInboxSystem (<[q := MkPaneOutputQueue pane empty_queue [] []]> (queues y)) (<[pane := q]> (registry y)) (pushers y)
    (inbox y) (spawned_pane_ids y) (live_pane_ids y) (pane_output_queue_by_pane_id y) (ready_output_pane_ids y)
    (served_pane_id y).

(** [close_output_queue]: the registry forgets the queue if it names it. *)
Definition close_output_queue (q : N) (y : InboxSystem) : InboxSystem :=
  let y := with_queue q (fun r => MkPaneOutputQueue (queue_pane_id r) (close_queue_state (queue_state r)) (pushed r) (taken r)) y in
  match queues y !! q with
  | Some r =>
      MkInboxSystem (queues y)
        (if bool_decide (registry y !! queue_pane_id r = Some q) then delete (queue_pane_id r) (registry y) else registry y)
        (pushers y) (inbox y) (spawned_pane_ids y) (live_pane_ids y) (pane_output_queue_by_pane_id y)
        (ready_output_pane_ids y) (served_pane_id y)
  | None => y
  end.

(** [handle_pty_readable] *)
Definition handle_pty_readable (q : N) (y : InboxSystem) : InboxSystem :=
  match queues y !! q with
  | Some r =>
      let pane := queue_pane_id r in
      if bool_decide (pane ∈ live_pane_ids y)
      then with_rotation (ready_output_pane_ids y ++ [pane]) (served_pane_id y)
             (with_server (live_pane_ids y) (<[pane := q]> (pane_output_queue_by_pane_id y)) y)
      else close_output_queue q y
  | None => y
  end.

(** [remove_pane_output_queue], after the pane left the live panes. *)
Definition release_pane (pane : N) (y : InboxSystem) : InboxSystem :=
  let held := pane_output_queue_by_pane_id y in
  let y := with_server (live_pane_ids y ∖ {[pane]}) (delete pane held) y in
  match held !! pane with Some q => close_output_queue q y | None => y end.

(** The queue's part of [serve_output_turn]: the turn, where the pane at the
    head has a queue. [None] is a panic. *)
Definition serve_output_turn (y : InboxSystem) : option (InboxSystem * option (N * PaneOutputTurn)) :=
  match ready_output_pane_ids y with
  | [] => Some (y, None)
  | pane :: rest =>
      match pane_output_queue_by_pane_id y !! pane with
      | None => Some (with_rotation rest (served_pane_id y) y, None)
      | Some q =>
          match queues y !! q with
          | None => Some (with_rotation rest (served_pane_id y) y, None)
          | Some r =>
              '(turn, state) ← take_output_turn (queue_state r);
              Some (with_rotation rest (if has_more_output turn then Some pane else None)
                      (with_queue q (fun r => MkPaneOutputQueue (queue_pane_id r) state (pushed r) (taken r ++ turn_chunks turn)) y),
                    Some (pane, turn))
          end
      end
  end.

(** The pass puts the served pane back. *)
Definition put_back (y : InboxSystem) : InboxSystem :=
  match served_pane_id y with
  | Some pane => with_rotation (ready_output_pane_ids y ++ [pane]) None y
  | None => y
  end.

(** What a push in the queue leaves of its call. *)
Definition record_push (item : Pushed) (r : PaneOutputQueue) : option (PaneOutputQueue * bool) :=
  match item with
  | PushedBytes bytes =>
      '(state, wakes) ← push_output bytes (queue_state r);
      Some (MkPaneOutputQueue (queue_pane_id r) state (pushed r ++ [bytes]) (taken r), wakes)
  | PushedExit status =>
      '(state, wakes) ← push_exit status (queue_state r);
      Some (MkPaneOutputQueue (queue_pane_id r) state (pushed r) (taken r), wakes)
  end.

Definition waits_for_room (should_wait : bool) (item : Pushed) (r : PaneOutputQueue) : bool :=
  match item with PushedBytes _ => queue_is_full should_wait (queue_state r) | PushedExit _ => false end.

(** [send_readable_wake]. The inbox closes with the dispatcher's end only. *)
Definition send_readable_wake (is_inbox_open : bool) (q : N) (y : InboxSystem) : InboxSystem :=
  if is_inbox_open then with_inbox (inbox y ++ [q]) y else close_output_queue q y.

(** ** Interleavings *)

(** The steps of the readers, of a sink that waits for room or does not: a
    call finds or starts its queue, pushes into it, and sends its wake. A
    reader pushes no empty chunk and runs one call at a time. *)
Inductive reader_step (should_wait : bool) : InboxSystem -> InboxSystem -> Prop :=
  | step_find y reader pane item q :
      pushers y !! reader = None -> pane ∈ spawned_pane_ids y -> item <> PushedBytes [] ->
      registry y !! pane = Some q -> is_held q y ->
      reader_step should_wait y (with_pushers (<[reader := FoundQueue q item]> (pushers y)) y)
  | step_start y reader pane item q kept :
      pushers y !! reader = None -> pane ∈ spawned_pane_ids y -> item <> PushedBytes [] ->
      (forall q', registry y !! pane = Some q' -> ~ is_held q' y) -> queues y !! q = None ->
      (forall p q', kept !! p = Some q' <-> registry y !! p = Some q' /\ is_held q' y) ->
      reader_step should_wait y
        (with_pushers (<[reader := FoundQueue q item]> (pushers y))
           (start_queue pane q
              (MkInboxSystem (queues y) kept (pushers y) (inbox y) (spawned_pane_ids y) (live_pane_ids y)
                 (pane_output_queue_by_pane_id y) (ready_output_pane_ids y) (served_pane_id y))))
  | step_push_closed y reader q item r :
      pushers y !! reader = Some (FoundQueue q item) -> queues y !! q = Some r -> record_push item r = None ->
      reader_step should_wait y (with_pushers (delete reader (pushers y)) y)
  | step_push y reader q item r r' wakes :
      pushers y !! reader = Some (FoundQueue q item) -> queues y !! q = Some r ->
      waits_for_room should_wait item r = false -> record_push item r = Some (r', wakes) ->
      reader_step should_wait y
        (with_pushers (if wakes then <[reader := SendsWake q]> (pushers y) else delete reader (pushers y))
           (with_queue q (fun _ => r') y))
  | step_wake_inbox y reader q :
      pushers y !! reader = Some (SendsWake q) ->
      reader_step should_wait y (send_readable_wake true q (with_pushers (delete reader (pushers y)) y)).

(** The steps of the readers and of the dispatcher. A pane is live from its
    spawn to its release, and spawned once. *)
Inductive inbox_step (should_wait : bool) : InboxSystem -> InboxSystem -> Prop :=
  | step_reader y y' : reader_step should_wait y y' -> inbox_step should_wait y y'
  | step_handle y q rest :
      inbox y = q :: rest -> inbox_step should_wait y (handle_pty_readable q (with_inbox rest y))
  | step_serve y y' turn :
      served_pane_id y = None -> serve_output_turn y = Some (y', turn) -> inbox_step should_wait y y'
  | step_put_back y : inbox_step should_wait y (put_back y)
  | step_spawn y pane :
      pane ∉ spawned_pane_ids y ->
      inbox_step should_wait y
        (MkInboxSystem (queues y) (registry y) (pushers y) (inbox y) ({[pane]} ∪ spawned_pane_ids y)
           ({[pane]} ∪ live_pane_ids y) (pane_output_queue_by_pane_id y) (ready_output_pane_ids y) (served_pane_id y))
  | step_release y pane : inbox_step should_wait y (release_pane pane y).

Inductive inbox_reachable (should_wait : bool) : InboxSystem -> Prop :=
  | inbox_new : inbox_reachable should_wait new_inbox_system
  | inbox_next y y' : inbox_reachable should_wait y -> inbox_step should_wait y y' -> inbox_reachable should_wait y'.

(** ** The invariant *)

(** Somebody is about to serve the queue. *)
Definition has_token (q : N) (y : InboxSystem) : Prop :=
  q ∈ inbox y
  \/ (exists reader, pushers y !! reader = Some (SendsWake q))
  \/ (exists pane, pane_output_queue_by_pane_id y !! pane = Some q
        /\ (pane ∈ ready_output_pane_ids y \/ served_pane_id y = Some pane)).

Definition has_content (s : PaneOutputQueueState) : Prop := output_chunks s <> [] \/ exit_status s <> None.

(** An open queue, as its pushes and turns left it. *)
Record queue_open_ok (should_wait : bool) (r : PaneOutputQueue) : Prop :=
  { qo_content : has_content (queue_state r) -> is_wake_sent (queue_state r) = true;
    qo_count : queued_byte_count (queue_state r) = total_len (output_chunks (queue_state r));
    qo_fifo : pushed r = taken r ++ output_chunks (queue_state r);
    qo_room front chunk : should_wait = true -> output_chunks (queue_state r) = front ++ [chunk] ->
      total_len front < PANE_OUTPUT_QUEUE_BYTE_LIMIT }.

Record inbox_ok (should_wait : bool) (y : InboxSystem) : Prop :=
  { io_open q r : queues y !! q = Some r -> is_closed (queue_state r) = false -> queue_open_ok should_wait r;
    io_token q r : queues y !! q = Some r -> is_closed (queue_state r) = false ->
      is_wake_sent (queue_state r) = true -> has_token q y;
    io_spawned q r : queues y !! q = Some r -> queue_pane_id r ∈ spawned_pane_ids y;
    io_closed q r : queues y !! q = Some r -> is_closed (queue_state r) = true ->
      queue_pane_id r ∉ live_pane_ids y /\ output_chunks (queue_state r) = [];
    io_live : live_pane_ids y ⊆ spawned_pane_ids y;
    io_server pane q : pane_output_queue_by_pane_id y !! pane = Some q ->
      exists r, queues y !! q = Some r /\ queue_pane_id r = pane /\ pane ∈ live_pane_ids y
        /\ is_closed (queue_state r) = false;
    io_unique q r : queues y !! q = Some r -> is_closed (queue_state r) = false -> is_held q y ->
      registry y !! queue_pane_id r = Some q;
    io_exists q : is_held q y -> is_Some (queues y !! q) }.

(** ** Steps that leave the queues *)

Lemma same_queues_held_ok w y y' :
  inbox_ok w y -> queues y' = queues y -> registry y' = registry y -> spawned_pane_ids y' = spawned_pane_ids y ->
  live_pane_ids y' ⊆ live_pane_ids y ->
  (forall p q, pane_output_queue_by_pane_id y' !! p = Some q ->
     exists r, queues y !! q = Some r /\ queue_pane_id r = p /\ p ∈ live_pane_ids y' /\ is_closed (queue_state r) = false) ->
  (forall q, is_held q y' -> is_held q y) -> (forall q, has_token q y -> has_token q y') -> inbox_ok w y'.
Proof.
  intros [H1 H2 H3 H4 H5 H6 H7 H8] E1 E2 E3 El Em Eh Et. split; rewrite ?E1, ?E2, ?E3.
  - exact H1.
  - intros q r Hq Hc Hw. by eapply Et, H2.
  - exact H3.
  - intros q r Hq Hc. destruct (H4 q r Hq Hc) as [Hl Hn]. split; [set_solver|done].
  - set_solver.
  - exact Em.
  - intros q r Hq Hc Hh. by apply (H7 q r Hq Hc), Eh.
  - intros q Hh. by apply H8, Eh.
Qed.

Lemma same_queues_ok w y y' :
  inbox_ok w y -> queues y' = queues y -> registry y' = registry y -> spawned_pane_ids y' = spawned_pane_ids y ->
  live_pane_ids y' ⊆ live_pane_ids y ->
  (forall p q, pane_output_queue_by_pane_id y' !! p = Some q ->
     pane_output_queue_by_pane_id y !! p = Some q /\ p ∈ live_pane_ids y') ->
  (forall q, is_held q y' -> is_held q y) -> (forall q, has_token q y -> has_token q y') -> inbox_ok w y'.
Proof.
  intros Hy E1 E2 E3 El Em Eh Et. apply (same_queues_held_ok w y); try done.
  intros p q Hp. destruct (Em p q Hp) as [Hp' Hl]. destruct (io_server _ _ Hy p q Hp') as (r & ? & ? & _ & ?). eauto.
Qed.

Lemma token_held q y : has_token q y -> is_held q y.
Proof.
  intros [H|[[reader H]|(pane & H & _)]]; [right; by left|right; right; by exists reader, (SendsWake q)|left; by exists pane].
Qed.

Lemma find_ok w y reader q item :
  inbox_ok w y -> pushers y !! reader = None -> is_held q y ->
  inbox_ok w (with_pushers (<[reader := FoundQueue q item]> (pushers y)) y).
Proof.
  intros Hy Hr Hh. eapply same_queues_ok; [exact Hy|done|done|done|done| | |].
  - intros p q' Hp. split; [done|]. destruct (io_server _ _ Hy p q' Hp) as (? & _ & _ & ? & _). done.
  - intros q' [H|[H|(reader' & p & H & Hp)]]; [by left|right; by left|]. cbn in H.
    apply lookup_insert_Some in H as [[<- <-]|[_ H]]; [by cbn in Hp; subst|]. right. right. by exists reader', p.
  - intros q' [H|[[reader' H]|H]]; [by left| |right; by right]. right. left. exists reader'. cbn.
    rewrite lookup_insert_ne; [done|]. intros ->. congruence.
Qed.

Lemma push_closed_ok w y reader q item :
  inbox_ok w y -> pushers y !! reader = Some (FoundQueue q item) ->
  inbox_ok w (with_pushers (delete reader (pushers y)) y).
Proof.
  intros Hy Hr. eapply same_queues_ok; [exact Hy|done|done|done|done| | |].
  - intros p q' Hp. split; [done|]. destruct (io_server _ _ Hy p q' Hp) as (? & _ & _ & ? & _). done.
  - intros q' [H|[H|(reader' & p & H & Hp)]]; [by left|right; by left|]. cbn in H.
    apply lookup_delete_Some in H as [_ H]. right. right. by exists reader', p.
  - intros q' [H|[[reader' H]|H]]; [by left| |right; by right]. right. left. exists reader'. cbn.
    rewrite lookup_delete_ne; [done|]. intros ->. congruence.
Qed.

Lemma wake_ok w y reader q :
  inbox_ok w y -> pushers y !! reader = Some (SendsWake q) ->
  inbox_ok w (send_readable_wake true q (with_pushers (delete reader (pushers y)) y)).
Proof.
  intros Hy Hr. eapply same_queues_ok; [exact Hy|done|done|done|done| | |].
  - intros p q' Hp. split; [done|]. destruct (io_server _ _ Hy p q' Hp) as (? & _ & _ & ? & _). done.
  - intros q' [H|[H|(reader' & p & H & Hp)]]; [by left| |]; cbn in H.
    + apply elem_of_app in H as [H|H]; [right; by left|]. apply list_elem_of_singleton in H as ->.
      right. right. by exists reader, (SendsWake q).
    + apply lookup_delete_Some in H as [_ H]. right. right. by exists reader', p.
  - intros q' [H|[[reader' H]|H]]; [left; apply elem_of_app; by left| |right; by right].
    destruct (decide (reader' = reader)) as [->|Hne].
    + left. cbn. apply elem_of_app. right. rewrite H in Hr. injection Hr as ->. by left.
    + right. left. exists reader'. cbn. by rewrite lookup_delete_ne.
Qed.

Lemma put_back_ok w y : inbox_ok w y -> inbox_ok w (put_back y).
Proof.
  intros Hy. unfold put_back. destruct (served_pane_id y) as [pane|] eqn:Es; [|done].
  eapply same_queues_ok; [exact Hy|done|done|done|done| |done|].
  - intros p q' Hp. split; [done|]. destruct (io_server _ _ Hy p q' Hp) as (? & _ & _ & ? & _). done.
  - intros q [H|[H|(p & Hp & H)]]; [by left|right; by left|]. right. right. exists p. split; [done|]. left. cbn.
    apply elem_of_app. destruct H as [H|H]; [by left|right]. rewrite Es in H. injection H as ->. by left.
Qed.

(** A pane without a queue at the head of the rotation. *)
Lemma pass_over_ok w y pane rest :
  inbox_ok w y -> ready_output_pane_ids y = pane :: rest -> pane_output_queue_by_pane_id y !! pane = None ->
  inbox_ok w (with_rotation rest (served_pane_id y) y).
Proof.
  intros Hy Er Hn. eapply same_queues_ok; [exact Hy|done|done|done|done| |done|].
  - intros p q' Hp. split; [done|]. destruct (io_server _ _ Hy p q' Hp) as (? & _ & _ & ? & _). done.
  - intros q [H|[H|(p & Hp & H)]]; [by left|right; by left|]. right. right. exists p. split; [done|]. cbn.
    rewrite Er in H. destruct H as [H|H]; [|by right]. apply elem_of_cons in H as [->|H]; [congruence|by left].
Qed.

Lemma spawn_ok w y pane :
  inbox_ok w y -> pane ∉ spawned_pane_ids y ->
  inbox_ok w (MkInboxSystem (queues y) (registry y) (pushers y) (inbox y) ({[pane]} ∪ spawned_pane_ids y)
    ({[pane]} ∪ live_pane_ids y) (pane_output_queue_by_pane_id y) (ready_output_pane_ids y) (served_pane_id y)).
Proof.
  intros [H1 H2 H3 H4 H5 H6 H7 H8] Hn. split; try done; cbn.
  - intros q r Hq. specialize (H3 q r Hq). set_solver.
  - intros q r Hq Hc. destruct (H4 q r Hq Hc) as [Hl ?]. split; [|done]. specialize (H3 q r Hq). set_solver.
  - set_solver.
  - intros p q Hp. destruct (H6 p q Hp) as (r & ? & ? & ? & ?). exists r. split_and!; [done|done|set_solver|done].
Qed.

(** ** Steps of one queue *)

Lemma update_queue_ok w y y' q r r' :
  inbox_ok w y -> queues y !! q = Some r -> is_closed (queue_state r') = false -> queue_pane_id r' = queue_pane_id r ->
  is_closed (queue_state r) = false -> queue_open_ok w r' -> queues y' = <[q := r']> (queues y) ->
  registry y' = registry y -> spawned_pane_ids y' = spawned_pane_ids y -> live_pane_ids y' = live_pane_ids y ->
  pane_output_queue_by_pane_id y' = pane_output_queue_by_pane_id y ->
  (forall q', is_held q' y' -> is_held q' y) -> (forall q', q' <> q -> has_token q' y -> has_token q' y') ->
  (is_wake_sent (queue_state r') = true -> has_token q y') -> inbox_ok w y'.
Proof.
  intros [H1 H2 H3 H4 H5 H6 H7 H8] Hq Hc' Hp Hc Hr' Eq Er Es El Em Hh Ht Hw. split; rewrite ?Eq, ?Er, ?Es, ?El, ?Em.
  - intros q0 r0 H. apply lookup_insert_Some in H as [[<- <-]|[_ H]]; [done|by apply (H1 q0)].
  - intros q0 r0 H Hc0 Hw0. apply lookup_insert_Some in H as [[<- <-]|[Hne H]]; [by apply Hw|].
    apply Ht; [done|]. by apply (H2 q0 r0).
  - intros q0 r0 H. apply lookup_insert_Some in H as [[<- <-]|[_ H]]; [rewrite Hp; by apply (H3 q)|by apply (H3 q0)].
  - intros q0 r0 H Hc0. apply lookup_insert_Some in H as [[<- <-]|[_ H]]; [congruence|by apply (H4 q0 r0)].
  - done.
  - intros p q0 H. destruct (H6 p q0 H) as (r0 & Hr0 & E & ? & ?). destruct (decide (q0 = q)) as [->|Hne].
    + rewrite Hq in Hr0. injection Hr0 as <-. exists r'. rewrite lookup_insert_eq. split_and!; [done|congruence|done|done].
    + exists r0. rewrite lookup_insert_ne by done. done.
  - intros q0 r0 H Hc0 Hheld. apply Hh in Hheld. apply lookup_insert_Some in H as [[<- <-]|[_ H]].
    + rewrite Hp. by apply (H7 q r).
    + by apply (H7 q0 r0).
  - intros q0 Hheld. apply Hh in Hheld. destruct (decide (q0 = q)) as [->|Hne]; [rewrite lookup_insert_eq; by eexists|].
    rewrite lookup_insert_ne by done. by apply H8.
Qed.

Lemma total_len_app l k : total_len (l ++ k) = total_len l + total_len k.
Proof.
  induction l as [|c l IH]; [done|]. change (total_len ((c :: l) ++ k)) with (chunk_len c + total_len (l ++ k)).
  change (total_len (c :: l)) with (chunk_len c + total_len l). rewrite IH. lia.
Qed.

Lemma total_len_cons c l : total_len (c :: l) = chunk_len c + total_len l.
Proof. done. Qed.

(** A push into an open queue. *)
Lemma record_push_ok w item r r' wakes :
  is_closed (queue_state r) = false -> queue_open_ok w r -> waits_for_room w item r = false ->
  record_push item r = Some (r', wakes) ->
  queue_open_ok w r' /\ queue_pane_id r' = queue_pane_id r /\ is_closed (queue_state r') = false
  /\ is_wake_sent (queue_state r') = true /\ wakes = negb (is_wake_sent (queue_state r)).
Proof.
  intros Hc [H1 H2 H3 H4] Hroom Hp. destruct item as [bytes|status]; cbn in Hp, Hroom;
    unfold push_output, push_exit in Hp; rewrite Hc in Hp; injection Hp as <- <-.
  - split_and!; [|done..]. split; cbn; [done|rewrite H2, total_len_app, total_len_cons; change (total_len []) with 0; lia|by rewrite H3, app_assoc|].
    intros front chunk Hw E. apply app_inj_tail in E as [<- <-]. unfold queue_is_full in Hroom. rewrite Hw, Hc in Hroom.
    cbn in Hroom. apply N.leb_gt in Hroom. by rewrite <- H2.
  - split_and!; [|done..]. split; cbn; [done|done|done|exact H4].
Qed.

Lemma record_push_closed item r : is_closed (queue_state r) = true -> record_push item r = None.
Proof. intros Hc. destruct item; cbn; unfold push_output, push_exit; by rewrite Hc. Qed.

Lemma push_ok w y reader q item r r' wakes :
  inbox_ok w y -> pushers y !! reader = Some (FoundQueue q item) -> queues y !! q = Some r ->
  waits_for_room w item r = false -> record_push item r = Some (r', wakes) ->
  inbox_ok w (with_pushers (if wakes then <[reader := SendsWake q]> (pushers y) else delete reader (pushers y))
    (with_queue q (fun _ => r') y)).
Proof.
  intros Hy Hr Hq Hroom Hpush. destruct (is_closed (queue_state r)) eqn:Hc; [by rewrite (record_push_closed item r Hc) in Hpush|].
  destruct (record_push_ok w item r r' wakes Hc (io_open _ _ Hy q r Hq Hc) Hroom Hpush) as (Hok & Hpane & Hc' & Hw' & Ewakes).
  assert (forall q', is_held q' (with_pushers (if wakes then <[reader := SendsWake q]> (pushers y) else delete reader (pushers y))
    (with_queue q (fun _ => r') y)) -> is_held q' y) as Hheld.
  { intros q' [H|[H|(reader' & p & H & Hp)]]; [by left|right; by left|]. cbn in H. destruct wakes.
    - apply lookup_insert_Some in H as [[<- <-]|[_ H]]; [|right; right; by exists reader', p].
      cbn in Hp. subst q'. right. right. by exists reader, (FoundQueue q item).
    - apply lookup_delete_Some in H as [_ H]. right. right. by exists reader', p. }
  assert (forall q', has_token q' y -> has_token q' (with_pushers (if wakes then <[reader := SendsWake q]> (pushers y)
    else delete reader (pushers y)) (with_queue q (fun _ => r') y))) as Htoken.
  { intros q' [H|[[reader' H]|H]]; [by left| |right; by right]. right. left. exists reader'. cbn.
    assert (reader' <> reader) by congruence. destruct wakes; [by rewrite lookup_insert_ne|by rewrite lookup_delete_ne]. }
  eapply (update_queue_ok w y _ q r r' Hy Hq Hc' Hpane Hc Hok); [|done|done|done|done|exact Hheld|auto|].
  - cbn. apply map_eq. intros q'. destruct (decide (q' = q)) as [->|Hne].
    + by rewrite lookup_alter_eq, Hq, lookup_insert_eq.
    + by rewrite lookup_alter_ne, lookup_insert_ne.
  - intros _. destruct (is_wake_sent (queue_state r)) eqn:Ew.
    + apply Htoken. by apply (io_token _ _ Hy q r).
    + subst wakes. right. left. exists reader. cbn. by rewrite lookup_insert_eq.
Qed.

(** ** Turns *)

Lemma take_turn_ok taken n chunks :
  exists pre rest, take_turn_chunks taken n chunks = (taken ++ pre, n + total_len pre, rest)
    /\ chunks = pre ++ rest /\ (taken = [] -> chunks <> [] -> pre <> [])
    /\ (n <= PANE_OUTPUT_TURN_BYTE_LIMIT -> n + total_len pre <= PANE_OUTPUT_TURN_BYTE_LIMIT \/ (taken = [] /\ length pre = 1%nat)).
Proof.
  revert taken n. induction chunks as [|chunk chunks IH]; intros taken n; cbn [take_turn_chunks].
  { exists [], []. rewrite app_nil_r. cbn. rewrite N.add_0_r. split_and!; [done|done|done|by left]. }
  destruct (negb _ && _) eqn:E.
  - exists [], (chunk :: chunks). rewrite app_nil_r. cbn. rewrite N.add_0_r. bools.
    split_and!; [done|done|done|by left].
  - destruct (IH (taken ++ [chunk]) (n + chunk_len chunk)) as (pre & rest & Et & Ec & _ & Hl).
    exists (chunk :: pre), rest. rewrite Et, <- app_assoc, Ec. cbn [app]. rewrite total_len_cons.
    split_and!; [f_equal; f_equal; lia|done|done|].
    intros Hn. destruct (decide (n + chunk_len chunk <= PANE_OUTPUT_TURN_BYTE_LIMIT)) as [Hfit|Hfit].
    + destruct (Hl Hfit) as [Hle|[Hnil _]]; [left; lia|by destruct taken].
    + apply andb_false_iff in E as [E|E]; [|apply N.ltb_ge in E; lia].
      apply negb_false_iff, bool_decide_eq_true in E as ->. destruct chunks as [|c2 chunks].
      * destruct pre; [right; split; [done|done]|done].
      * cbn in Et. rewrite (proj2 (N.ltb_lt _ _)) in Et by lia.
        destruct pre; [right; by split|discriminate].
Qed.

Lemma take_output_turn_ok w r :
  queue_open_ok w r ->
  exists turn state, take_output_turn (queue_state r) = Some (turn, state)
    /\ output_chunks (queue_state r) = turn_chunks turn ++ output_chunks state
    /\ (output_chunks (queue_state r) <> [] -> turn_chunks turn <> [])
    /\ (total_len (turn_chunks turn) <= PANE_OUTPUT_TURN_BYTE_LIMIT \/ length (turn_chunks turn) = 1%nat)
    /\ is_closed state = is_closed (queue_state r)
    /\ has_more_output turn = negb (bool_decide (output_chunks state = []))
    /\ (has_more_output turn = false -> is_wake_sent state = false /\ turn_exit_status turn = exit_status (queue_state r)
          /\ exit_status state = None)
    /\ (has_more_output turn = true -> turn_exit_status turn = None /\ exit_status state = exit_status (queue_state r))
    /\ queue_open_ok w (MkPaneOutputQueue (queue_pane_id r) state (pushed r) (taken r ++ turn_chunks turn)).
Proof.
  intros [H1 H2 H3 H4]. unfold take_output_turn.
  destruct (take_turn_ok [] 0 (output_chunks (queue_state r))) as (pre & rest & E & Ec & Hne & Hlen).
  rewrite E. cbn [app]. rewrite N.add_0_l. rewrite H2, Ec, total_len_app. rewrite (proj2 (N.ltb_ge _ _)) by lia.
  eexists _, _. split; [done|]. cbn [turn_chunks output_chunks has_more_output is_wake_sent exit_status turn_exit_status is_closed].
  assert (0 <= PANE_OUTPUT_TURN_BYTE_LIMIT) as H0 by lia.
  split_and!; [done|intros Hnil; apply Hne; [done|by rewrite Ec]| |done|done| | |].
  - destruct (Hlen H0) as [Hle|[_ Hone]]; [left; lia|by right].
  - intros Hm. apply negb_false_iff, bool_decide_eq_true in Hm. rewrite Hm. done.
  - intros Hm. apply negb_true_iff in Hm. rewrite Hm. done.
  - split; cbn [queue_state output_chunks exit_status is_wake_sent queued_byte_count pushed taken].
    + intros Hcontent. destruct (decide (rest = [])) as [->|Hrest].
      * destruct Hcontent as [?|Hx]; [done|]. cbn in Hx. done.
      * rewrite bool_decide_eq_false_2 by done. cbn [negb andb]. apply H1. left. rewrite Ec. by destruct pre.
    + lia.
    + by rewrite H3, Ec, app_assoc.
    + intros front chunk Hw Er. rewrite Er in Ec. specialize (H4 (pre ++ front) chunk Hw). rewrite <- app_assoc in H4.
      specialize (H4 Ec). rewrite total_len_app in H4. lia.
Qed.

Lemma serve_ok w y y' turn :
  inbox_ok w y -> served_pane_id y = None -> serve_output_turn y = Some (y', turn) -> inbox_ok w y'.
Proof.
  intros Hy Hs Hserve. unfold serve_output_turn in Hserve. destruct (ready_output_pane_ids y) as [|pane rest] eqn:Er.
  { by injection Hserve as <- <-. }
  destruct (pane_output_queue_by_pane_id y !! pane) as [q|] eqn:Em.
  2: { injection Hserve as <- <-. by eapply pass_over_ok. }
  destruct (io_server _ _ Hy pane q Em) as (r & Hq & Hpane & Hlive & Hc). rewrite Hq in Hserve.
  destruct (take_output_turn_ok w r (io_open _ _ Hy q r Hq Hc))
    as (turn' & state & Et & _ & _ & _ & Hclosed & _ & Hdone & Hmore & Hok).
  rewrite Et in Hserve. cbn [mbind option_bind] in Hserve. injection Hserve as <- <-.
  eapply (update_queue_ok w y _ q r _ Hy Hq); [| |done|exact Hok| |done|done|done|done|done| |].
  - cbn. by rewrite Hclosed.
  - done.
  - cbn. apply map_eq. intros q'. destruct (decide (q' = q)) as [->|Hne].
    + by rewrite lookup_alter_eq, Hq, lookup_insert_eq.
    + by rewrite lookup_alter_ne, lookup_insert_ne.
  - intros q' Hne [H|[H|(p & Hp & H)]]; [by left|right; by left|]. right. right. exists p. split; [done|]. cbn.
    rewrite Er, Hs in H. destruct H as [H|H]; [|done]. apply elem_of_cons in H as [->|H]; [congruence|by left].
  - cbn [queue_state]. intros Hw. right. right. exists pane. split; [done|]. right. cbn.
    destruct (has_more_output turn') eqn:Em'; [done|]. destruct (Hdone eq_refl) as (H & _ & _). congruence.
Qed.

(** ** Queues that start and close *)

Lemma start_ok w y reader pane item q kept :
  inbox_ok w y -> pushers y !! reader = None -> pane ∈ spawned_pane_ids y ->
  (forall q', registry y !! pane = Some q' -> ~ is_held q' y) -> queues y !! q = None ->
  (forall p q', kept !! p = Some q' <-> registry y !! p = Some q' /\ is_held q' y) ->
  inbox_ok w (with_pushers (<[reader := FoundQueue q item]> (pushers y))
    (start_queue pane q
       (MkInboxSystem (queues y) kept (pushers y) (inbox y) (spawned_pane_ids y) (live_pane_ids y)
          (pane_output_queue_by_pane_id y) (ready_output_pane_ids y) (served_pane_id y)))).
Proof.
  intros [H1 H2 H3 H4 H5 H6 H7 H8] Hr Hs Hfree Hq Hkept.
  match goal with |- inbox_ok _ ?z => set (y' := z) end.
  assert (forall q', is_held q' y' -> q' = q \/ is_held q' y) as Hheld.
  { intros q' [H|[H|(reader' & p & H & Hp)]]; [right; by left|right; right; by left|]. cbn in H.
    apply lookup_insert_Some in H as [[<- <-]|[_ H]]; [by left|right; right; right; by exists reader', p]. }
  assert (forall q', has_token q' y -> has_token q' y') as Htoken.
  { intros q' [H|[[reader' H]|H]]; [by left| |right; by right]. right. left. exists reader'. cbn.
    rewrite lookup_insert_ne; [done|congruence]. }
  split.
  - intros q' r H Hc. cbn in H; apply lookup_insert_Some in H as [[<- <-]|[_ H]]; [|by apply (H1 q')].
    split; [by intros [?|?]|done|done|]. intros [|??] ? _ E; discriminate.
  - intros q' r H Hc Hw. cbn in H; apply lookup_insert_Some in H as [[<- <-]|[_ H]]; [done|]. by apply Htoken, (H2 q' r).
  - intros q' r H. cbn in H; apply lookup_insert_Some in H as [[<- <-]|[_ H]]; [done|by apply (H3 q')].
  - intros q' r H Hc. cbn in H; apply lookup_insert_Some in H as [[<- <-]|[_ H]]; [done|by apply (H4 q')].
  - exact H5.
  - intros p q' H. destruct (H6 p q' H) as (r & Hr' & ?). exists r. cbn. rewrite lookup_insert_ne by congruence. done.
  - intros q' r H Hc Hh. cbn. cbn in H; apply lookup_insert_Some in H as [[<- <-]|[Hne H]]; [by rewrite lookup_insert_eq|].
    destruct (Hheld q' Hh) as [?|Hh']; [done|]. specialize (H7 q' r H Hc Hh').
    rewrite lookup_insert_ne; [by apply Hkept|]. intros E. rewrite <- E in H7. by apply (Hfree q').
  - intros q' Hh. cbn. destruct (decide (q' = q)) as [->|Hne]; [rewrite lookup_insert_eq; by eexists|].
    rewrite lookup_insert_ne by done. destruct (Hheld q' Hh) as [?|?]; [done|by apply H8].
Qed.

Lemma close_lookup q y q' r :
  queues (close_output_queue q y) !! q' = Some r ->
  (q' = q /\ exists r0, queues y !! q = Some r0 /\ queue_pane_id r = queue_pane_id r0
     /\ queue_state r = close_queue_state (queue_state r0))
  \/ (q' <> q /\ queues y !! q' = Some r).
Proof.
  assert (queues (close_output_queue q y) = alter (fun r => MkPaneOutputQueue (queue_pane_id r)
    (close_queue_state (queue_state r)) (pushed r) (taken r)) q (queues y)) as ->.
  { unfold close_output_queue. by destruct (queues (with_queue q _ y) !! q). }
  intros H. apply lookup_alter_Some in H as [(<- & r0 & Hr0 & ->)|[? ?]]; [left|by right]. eauto.
Qed.

Lemma close_registry q y p q' r :
  queues y !! q' = Some r -> queue_pane_id r = p -> q' <> q -> registry y !! p = Some q' ->
  registry (close_output_queue q y) !! p = Some q'.
Proof.
  intros _ _ Hne Hp. unfold close_output_queue. destruct (queues (with_queue q _ y) !! q) as [r0|]; [|done]. cbn.
  destruct (bool_decide _) eqn:E; [|done]. apply bool_decide_eq_true in E.
  rewrite lookup_delete_ne; [done|]. intros E'. rewrite E' in E. congruence.
Qed.

Lemma close_ok w y0 y q :
  inbox_ok w y0 -> queues y = queues y0 -> registry y = registry y0 -> spawned_pane_ids y = spawned_pane_ids y0 ->
  live_pane_ids y ⊆ live_pane_ids y0 ->
  (forall p q', pane_output_queue_by_pane_id y !! p = Some q' ->
     pane_output_queue_by_pane_id y0 !! p = Some q' /\ q' <> q /\ p ∈ live_pane_ids y) ->
  (forall q', is_held q' y -> is_held q' y0) -> (forall q', q' <> q -> has_token q' y0 -> has_token q' y) ->
  (forall r, queues y0 !! q = Some r -> queue_pane_id r ∉ live_pane_ids y) ->
  inbox_ok w (close_output_queue q y).
Proof.
  intros [H1 H2 H3 H4 H5 H6 H7 H8] E1 E2 E3 El Em Eh Et Hdead.
  assert (exists regs qs, close_output_queue q y = MkInboxSystem qs regs (pushers y) (inbox y) (spawned_pane_ids y)
    (live_pane_ids y) (pane_output_queue_by_pane_id y) (ready_output_pane_ids y) (served_pane_id y)) as (regs & qs & Ec).
  { unfold close_output_queue. destruct (queues (with_queue q _ y) !! q); by eexists _, _. }
  pose proof (close_lookup q y) as Hl. pose proof (close_registry q y) as Hreg. rewrite Ec in Hl, Hreg. rewrite E1, E2 in Hreg.
  rewrite E1 in Hl. rewrite Ec. cbn [queues] in Hl. cbn [registry] in Hreg. split; cbn; rewrite ?E3.
  - intros q' r H Hc. apply Hl in H as [(-> & r0 & _ & _ & E)|[_ H]]; [by rewrite E in Hc|by apply (H1 q')].
  - intros q' r H Hc Hw. apply Hl in H as [(-> & r0 & _ & _ & E)|[Hne H]]; [by rewrite E in Hc|].
    by apply (Et q' Hne), (H2 q' r).
  - intros q' r H. apply Hl in H as [(-> & r0 & H & -> & _)|[_ H]]; [by apply (H3 q)|by apply (H3 q')].
  - intros q' r H Hc. apply Hl in H as [(-> & r0 & H & E & E')|[_ H]]; [rewrite E, E'; split; [by apply Hdead|done]|].
    destruct (H4 q' r H Hc). split; [set_solver|done].
  - set_solver.
  - intros p q' Hp. destruct (Em p q' Hp) as (Hp' & Hne & Hlive). destruct (H6 p q' Hp') as (r & Hr & ? & _ & ?).
    exists r. split_and!; [|done..]. assert (queues (close_output_queue q y) !! q' = Some r) as Hx; [|by rewrite Ec in Hx].
    unfold close_output_queue. destruct (queues (with_queue q _ y) !! q); cbn; by rewrite lookup_alter_ne, E1.
  - intros q' r H Hc Hh. apply Hl in H as [(-> & r0 & _ & _ & E)|[Hne H]]; [by rewrite E in Hc|].
    apply (Hreg _ q' r); [done|done|done|]. by apply (H7 q' r), Eh.
  - intros q' Hh. apply Eh, H8 in Hh as [r Hr]. assert (is_Some (queues (close_output_queue q y) !! q')) as Hx; [|by rewrite Ec in Hx].
    unfold close_output_queue. destruct (queues (with_queue q _ y) !! q); cbn; apply lookup_alter_is_Some; rewrite E1; by exists r.
Qed.

(** One queue of a pane is held and open. *)
Lemma held_queue_unique w y q q' r r' :
  inbox_ok w y -> queues y !! q = Some r -> queues y !! q' = Some r' -> queue_pane_id r = queue_pane_id r' ->
  is_held q y -> is_held q' y -> is_closed (queue_state r) = false -> is_closed (queue_state r') = false -> q = q'.
Proof.
  intros Hy Hq Hq' E Hh Hh' Hc Hc'. pose proof (io_unique _ _ Hy q r Hq Hc Hh) as Ha.
  pose proof (io_unique _ _ Hy q' r' Hq' Hc' Hh') as Hb. rewrite E, Hb in Ha. congruence.
Qed.

Lemma handle_ok w y q rest :
  inbox_ok w y -> inbox y = q :: rest -> inbox_ok w (handle_pty_readable q (with_inbox rest y)).
Proof.
  intros Hy Ei. unfold handle_pty_readable. cbn [queues with_inbox live_pane_ids].
  assert (is_held q y) as Hq by (right; left; rewrite Ei; by left).
  destruct (io_exists _ _ Hy q Hq) as [r Hr]. rewrite Hr. destruct (decide (queue_pane_id r ∈ live_pane_ids y)) as [Hlive|Hdead].
  - rewrite bool_decide_eq_true_2 by done.
    assert (is_closed (queue_state r) = false) as Hc.
    { destruct (is_closed (queue_state r)) eqn:Hc; [|done]. by destruct (io_closed _ _ Hy q r Hr Hc). }
    assert (forall q0, pane_output_queue_by_pane_id y !! queue_pane_id r = Some q0 -> q0 = q) as Hsame.
    { intros q0 H0. destruct (io_server _ _ Hy _ q0 H0) as (r0 & Hr0 & E & _ & Hc0).
      eapply (held_queue_unique w y q0 q r0 r); try done. left. by eexists. }
    eapply same_queues_held_ok; [exact Hy|done|done|done|done| | |].
    + intros p q' H. cbn in H. apply lookup_insert_Some in H as [[<- <-]|[_ H]]; [by exists r|]. by apply (io_server _ _ Hy).
    + intros q' [[p H]|[H|H]]; [|right; left; rewrite Ei; by right|by right; right].
      cbn in H. apply lookup_insert_Some in H as [[_ <-]|[_ H]]; [done|left; by exists p].
    + assert (forall p q', pane_output_queue_by_pane_id y !! p = Some q' ->
        <[queue_pane_id r := q]> (pane_output_queue_by_pane_id y) !! p = Some q') as Hkeep.
      { intros p q' H. destruct (decide (p = queue_pane_id r)) as [->|Hne]; [|by rewrite lookup_insert_ne].
        rewrite lookup_insert_eq. f_equal. symmetry. by apply Hsame. }
      intros q' [H|[H|(p & Hp & H)]]; [|right; by left|].
      * rewrite Ei in H. apply elem_of_cons in H as [->|H]; [|by left]. right. right. exists (queue_pane_id r).
        split; [apply lookup_insert_eq|left]. cbn. apply elem_of_app. right. by left.
      * right. right. exists p. split; [by apply Hkeep|]. cbn. destruct H as [H|H]; [left; apply elem_of_app; by left|by right].
  - rewrite bool_decide_eq_false_2 by done. apply (close_ok w y); try done.
    + intros p q' H. destruct (io_server _ _ Hy p q' H) as (r' & Hr' & E & Hl & _). split_and!; [done| |done].
      intros ->. cbn in *. congruence.
    + intros q' [H|[H|H]]; [by left|right; left; rewrite Ei; by right|by right; right].
    + intros q' Hne [H|H]; [|by right]. rewrite Ei in H. apply elem_of_cons in H as [?|H]; [done|by left].
    + intros r' Hr'. cbn. congruence.
Qed.

Lemma release_ok w y pane : inbox_ok w y -> inbox_ok w (release_pane pane y).
Proof.
  intros Hy. unfold release_pane.
  assert (forall p q, delete pane (pane_output_queue_by_pane_id y) !! p = Some q ->
    p <> pane /\ pane_output_queue_by_pane_id y !! p = Some q /\ p ∈ live_pane_ids y ∖ {[pane]}) as Hmap.
  { intros p q H. apply lookup_delete_Some in H as [Hne H]. destruct (io_server _ _ Hy p q H) as (r & _ & _ & ? & _).
    split_and!; [done|done|set_solver]. }
  assert (forall q, is_held q (with_server (live_pane_ids y ∖ {[pane]}) (delete pane (pane_output_queue_by_pane_id y)) y) ->
    is_held q y) as Hheld.
  { intros q [[p H]|H]; [|by right]. left. exists p. by apply Hmap. }
  destruct (pane_output_queue_by_pane_id y !! pane) as [q|] eqn:Em.
  - destruct (io_server _ _ Hy pane q Em) as (r & Hr & Hpane & _ & _). apply (close_ok w y); try done.
    + cbn. set_solver.
    + intros p q' H. destruct (Hmap p q' H) as (Hne & H' & ?). split_and!; [done| |done]. intros ->.
      destruct (io_server _ _ Hy p q H') as (r' & Hr' & ? & _). congruence.
    + intros q' Hne [H|[H|(p & Hp & H)]]; [by left|right; by left|]. right. right. exists p. split; [|done].
      apply lookup_delete_Some. split; [congruence|done].
    + intros r' Hr'. cbn. set_solver.
  - eapply same_queues_ok; [exact Hy|done|done|done| | |exact Hheld|].
    + cbn. set_solver.
    + intros p q H. by destruct (Hmap p q H).
    + intros q [H|[H|(p & Hp & H)]]; [by left|right; by left|]. right. right. exists p. split; [|done].
      apply lookup_delete_Some. split; [congruence|done].
Qed.

Lemma reader_step_ok w y y' : inbox_ok w y -> reader_step w y y' -> inbox_ok w y'.
Proof. intros Hy Hstep. destruct Hstep; eauto using find_ok, start_ok, push_closed_ok, push_ok, wake_ok. Qed.

Lemma inbox_step_ok w y y' : inbox_ok w y -> inbox_step w y y' -> inbox_ok w y'.
Proof.
  intros Hy Hstep. destruct Hstep; eauto using reader_step_ok, handle_ok, serve_ok, put_back_ok, spawn_ok, release_ok.
Qed.

Lemma inbox_reachable_ok w y : inbox_reachable w y -> inbox_ok w y.
Proof.
  induction 1 as [|y y' _ IH Hstep]; [|by eapply inbox_step_ok]. split; try done.
  - intros q [[p H]|[H|(reader & p & H & _)]]; cbn in H; [done|by apply elem_of_nil in H|done].
Qed.

(** ** Draining *)

Context (is_removed_on_exit : N -> bool).

(** What the readers do while the dispatcher is between two of its critical
    sections, by the number of the gap. *)
Context (readers : nat -> InboxSystem -> InboxSystem).

(** [drain_pane_output_queues]: the state, and whether the rotation was found
    empty, which [fuel] turns may not reach; [None] is a panic. The queue's
    lock is free before a turn takes its chunks and after, and readers step
    there. A turn that takes the child's exit removes its pane where a session
    holds it. *)
Fixpoint drain_pane_output_queues (fuel gap : nat) (y : InboxSystem) : option (InboxSystem * bool) :=
  match ready_output_pane_ids y, fuel with
  | [], _ => Some (y, true)
  | _ :: _, O => Some (y, false)
  | _ :: _, S fuel =>
      '(y, turn) ← serve_output_turn (readers gap y);
      let y := readers (S gap) y in
      let y := match turn with
               | Some (pane, turn) =>
                   if bool_decide (is_Some (turn_exit_status turn)) && is_removed_on_exit pane then release_pane pane y else y
               | None => y
               end in
      drain_pane_output_queues fuel (S (S gap)) (put_back y)
  end.

(** A number for each queue, summed. *)
Definition queue_sum (f : PaneOutputQueue -> nat) (qs : gmap N PaneOutputQueue) : nat :=
  map_fold (fun _ r n => f r + n)%nat O qs.

(** The chunks the queues hold, and those ever pushed into them. *)
Definition queued_chunk_count : gmap N PaneOutputQueue -> nat := queue_sum (fun r => length (output_chunks (queue_state r))).
Definition pushed_chunk_count : gmap N PaneOutputQueue -> nat := queue_sum (fun r => length (pushed r)).

Definition drain_turns (y : InboxSystem) : nat := (length (ready_output_pane_ids y) + queued_chunk_count (queues y))%nat.

Lemma queue_sum_delete f qs q r : qs !! q = Some r -> queue_sum f qs = (f r + queue_sum f (delete q qs))%nat.
Proof.
  intros Hq. unfold queue_sum. rewrite (map_fold_delete_L _ _ q r qs); [done| |done]. intros. lia.
Qed.

Lemma queue_sum_insert f qs q r : qs !! q = None -> queue_sum f (<[q := r]> qs) = (f r + queue_sum f qs)%nat.
Proof. intros Hq. rewrite (queue_sum_delete f _ q r) by apply lookup_insert_eq. by rewrite delete_insert_id. Qed.

Lemma queue_sum_alter f qs q r g :
  qs !! q = Some r -> (queue_sum f (alter g q qs) + f r = queue_sum f qs + f (g r))%nat.
Proof.
  intros Hq. rewrite (queue_sum_delete f qs q r Hq).
  rewrite (queue_sum_delete f (alter g q qs) q (g r)) by (by rewrite lookup_alter_eq, Hq).
  rewrite delete_alter_eq. lia.
Qed.

(** Between two states, no more turns came to be needed than chunks were
    pushed, and the turn under way is the same. *)
Definition drain_bounded (y y' : InboxSystem) : Prop :=
  (drain_turns y' + pushed_chunk_count (queues y) <= drain_turns y + pushed_chunk_count (queues y'))%nat
  /\ (pushed_chunk_count (queues y) <= pushed_chunk_count (queues y'))%nat
  /\ served_pane_id y' = served_pane_id y.

Lemma drain_bounded_refl y : drain_bounded y y.
Proof. by split_and!. Qed.

Lemma drain_bounded_trans y1 y2 y3 : drain_bounded y1 y2 -> drain_bounded y2 y3 -> drain_bounded y1 y3.
Proof. intros (H1 & H2 & H3) (H4 & H5 & H6). split_and!; [lia|lia|congruence]. Qed.

Lemma same_queues_bounded y y' :
  queues y' = queues y -> ready_output_pane_ids y' = ready_output_pane_ids y -> served_pane_id y' = served_pane_id y ->
  drain_bounded y y'.
Proof. intros E1 E2 E3. unfold drain_bounded, drain_turns. rewrite E1, E2, E3. split_and!; [lia|lia|done]. Qed.

(** A push adds the chunk it pushes. *)
Lemma push_bounded item q r r' wakes y ps :
  queues y !! q = Some r -> record_push item r = Some (r', wakes) ->
  drain_bounded y (with_pushers ps (with_queue q (fun _ => r') y)).
Proof.
  intros Hq Hp. unfold drain_bounded, drain_turns. cbn.
  pose proof (queue_sum_alter (fun r => length (output_chunks (queue_state r))) (queues y) q r (fun _ => r') Hq) as H1.
  pose proof (queue_sum_alter (fun r => length (pushed r)) (queues y) q r (fun _ => r') Hq) as H2.
  change (queue_sum _) with queued_chunk_count in H1. change (queue_sum _) with pushed_chunk_count in H2.
  assert (exists n, length (pushed r') = length (pushed r) + n
    /\ length (output_chunks (queue_state r')) = length (output_chunks (queue_state r)) + n)%nat as (n & E1 & E2).
  { destruct item; cbn in Hp; unfold push_output, push_exit in Hp; destruct (is_closed _); [done| |done|];
      injection Hp as <- <-; cbn; [exists 1%nat|exists 0%nat]; rewrite ?length_app; cbn; lia. }
  split_and!; [lia|lia|done].
Qed.

Lemma reader_bounded w y y' : reader_step w y y' -> drain_bounded y y'.
Proof.
  intros Hstep. destruct Hstep as [| | |y reader q item r r' wakes Hr Hq Hroom Hp|]; [by apply same_queues_bounded| | | |].
  - unfold drain_bounded, drain_turns, queued_chunk_count, pushed_chunk_count. cbn.
    rewrite !queue_sum_insert by done. cbn. split_and!; [lia|lia|done].
  - by apply same_queues_bounded.
  - by eapply push_bounded.
  - by apply same_queues_bounded.
Qed.

Lemma readers_bounded w y y' : rtc (reader_step w) y y' -> drain_bounded y y'.
Proof.
  induction 1 as [y|y1 y2 y3 H _ IH]; [apply drain_bounded_refl|].
  eapply drain_bounded_trans; [by eapply reader_bounded|done].
Qed.

(** The readers leave the rotation. *)
Lemma readers_rotation w y y' : rtc (reader_step w) y y' -> ready_output_pane_ids y' = ready_output_pane_ids y.
Proof. induction 1 as [y|y1 y2 y3 H _ IH]; [done|]. rewrite IH. by destruct H. Qed.

Lemma readers_reachable w y y' : inbox_reachable w y -> rtc (reader_step w) y y' -> inbox_reachable w y'.
Proof. intros Hy. induction 1 as [y|y1 y2 y3 H _ IH]; [done|]. apply IH. eapply inbox_next; [exact Hy|by apply step_reader]. Qed.

Lemma close_queues q y :
  queues (close_output_queue q y) = alter (fun r => MkPaneOutputQueue (queue_pane_id r)
    (close_queue_state (queue_state r)) (pushed r) (taken r)) q (queues y)
  /\ ready_output_pane_ids (close_output_queue q y) = ready_output_pane_ids y
  /\ served_pane_id (close_output_queue q y) = served_pane_id y.
Proof. unfold close_output_queue. by destruct (queues (with_queue q _ y) !! q). Qed.

Lemma close_bounded q y : drain_bounded y (close_output_queue q y).
Proof.
  destruct (close_queues q y) as (E1 & E2 & E3). unfold drain_bounded, drain_turns. rewrite E1, E2, E3.
  destruct (queues y !! q) as [r|] eqn:Hq.
  2:{ rewrite alter_id by (intros ?; congruence). split_and!; [lia|lia|done]. }
  match goal with |- context [alter ?g q (queues y)] =>
    pose proof (queue_sum_alter (fun r => length (output_chunks (queue_state r))) (queues y) q r g Hq) as H1;
    pose proof (queue_sum_alter (fun r => length (pushed r)) (queues y) q r g Hq) as H2 end.
  change (queue_sum _) with queued_chunk_count in H1. change (queue_sum _) with pushed_chunk_count in H2.
  cbn in H1, H2. split_and!; [lia|lia|done].
Qed.

Lemma release_bounded pane y : drain_bounded y (release_pane pane y).
Proof.
  unfold release_pane. destruct (pane_output_queue_by_pane_id y !! pane) as [q|]; [|by apply same_queues_bounded].
  eapply drain_bounded_trans; [|apply close_bounded]. by apply same_queues_bounded.
Qed.

(** A turn leaves fewer turns to serve. *)
Lemma serve_drain_turns w y :
  inbox_ok w y -> served_pane_id y = None -> ready_output_pane_ids y <> [] ->
  exists y' turn, serve_output_turn y = Some (y', turn)
    /\ (drain_turns y' + (if bool_decide (is_Some (served_pane_id y')) then 1 else 0) < drain_turns y)%nat
    /\ pushed_chunk_count (queues y') = pushed_chunk_count (queues y).
Proof.
  intros Hy Hs Hne. unfold serve_output_turn. destruct (ready_output_pane_ids y) as [|pane rest] eqn:Er; [done|]. clear Hne.
  destruct (pane_output_queue_by_pane_id y !! pane) as [q|] eqn:Em.
  2: { eexists _, _. split; [done|]. unfold drain_turns. cbn. rewrite Hs, Er. cbn. split; [lia|done]. }
  destruct (io_server _ _ Hy pane q Em) as (r & Hq & _ & _ & Hc). rewrite Hq.
  destruct (take_output_turn_ok w r (io_open _ _ Hy q r Hq Hc)) as (turn & state & Et & Ec & Hsome & _ & _ & Hmore & _).
  rewrite Et. cbn [mbind option_bind]. eexists _, _. split; [done|]. unfold drain_turns. cbn.
  match goal with |- context [alter ?g q (queues y)] =>
    pose proof (queue_sum_alter (fun r => length (output_chunks (queue_state r))) (queues y) q r g Hq) as H;
    pose proof (queue_sum_alter (fun r => length (pushed r)) (queues y) q r g Hq) as H2 end.
  change (queue_sum _) with queued_chunk_count in H. change (queue_sum _) with pushed_chunk_count in H2.
  cbn in H, H2. rewrite Ec, length_app in H. rewrite Er. cbn [length]. split; [|lia].
  destruct (has_more_output turn); [|cbn; lia]. cbn.
  assert (turn_chunks turn <> []) as Hn.
  { apply Hsome. rewrite Ec. symmetry in Hmore. apply negb_true_iff, bool_decide_eq_false in Hmore.
    destruct (turn_chunks turn); [done|discriminate]. }
  destruct (turn_chunks turn); [done|]. cbn in H. lia.
Qed.

Lemma put_back_drain_turns y :
  served_pane_id (put_back y) = None /\ queues (put_back y) = queues y
  /\ drain_turns (put_back y) = (drain_turns y + (if bool_decide (is_Some (served_pane_id y)) then 1 else 0))%nat.
Proof.
  unfold put_back. destruct (served_pane_id y) as [pane|] eqn:Es; [|rewrite Es; split_and!; [done|done|cbn; lia]].
  split_and!; [done|done|]. unfold drain_turns. cbn. rewrite length_app. cbn. lia.
Qed.

(** Every turn takes one off the count, and every push adds at most one. *)
Lemma drains w fuel gap y :
  (forall gap y, inbox_reachable w y -> rtc (reader_step w) y (readers gap y)) ->
  inbox_reachable w y -> served_pane_id y = None ->
  exists y' is_drained, drain_pane_output_queues fuel gap y = Some (y', is_drained) /\ inbox_reachable w y'
    /\ served_pane_id y' = None /\ (is_drained = true -> ready_output_pane_ids y' = [])
    /\ (pushed_chunk_count (queues y) <= pushed_chunk_count (queues y'))%nat
    /\ (is_drained = false ->
          fuel + pushed_chunk_count (queues y) < drain_turns y + pushed_chunk_count (queues y'))%nat.
Proof using Type.
  intros Hreaders. revert gap y. induction fuel as [|fuel IH]; intros gap y Hy Hs; cbn [drain_pane_output_queues].
  { destruct (ready_output_pane_ids y) eqn:Er; [by exists y, true|]. exists y, false. unfold drain_turns. rewrite Er.
    cbn. split_and!; [done|done|done|done|lia|lia]. }
  destruct (ready_output_pane_ids y) as [|pane rest] eqn:Er; [by exists y, true|].
  pose proof (Hreaders gap y Hy) as Hr0. set (y0 := readers gap y) in *.
  pose proof (readers_reachable w y y0 Hy Hr0) as Hy0. destruct (readers_bounded w y y0 Hr0) as (B0 & P0 & S0).
  destruct (serve_drain_turns w y0) as (y1 & turn & Es & Hturns & P1);
    [by apply inbox_reachable_ok|congruence|by rewrite (readers_rotation w y y0 Hr0), Er|].
  rewrite Es. cbn [mbind option_bind].
  assert (inbox_reachable w y1) as Hy1 by (eapply inbox_next; [exact Hy0|by eapply step_serve; [congruence|]]).
  pose proof (Hreaders (S gap) y1 Hy1) as Hr1. set (y2 := readers (S gap) y1) in *.
  pose proof (readers_reachable w y1 y2 Hy1 Hr1) as Hy2. destruct (readers_bounded w y1 y2 Hr1) as (B2 & P2 & S2).
  match goal with |- context [put_back ?z] => set (y3 := z) end.
  assert (inbox_reachable w y3 /\ drain_bounded y2 y3) as (Hy3 & B3 & P3 & S3).
  { subst y3. destruct turn as [[pane' turn']|]; [|split; [done|apply drain_bounded_refl]].
    destruct (_ && _); [|split; [done|apply drain_bounded_refl]].
    split; [eapply inbox_next; [exact Hy2|apply step_release]|apply release_bounded]. }
  destruct (put_back_drain_turns y3) as (S4 & E4 & T4). rewrite S3, S2 in T4.
  destruct (IH (S (S gap)) (put_back y3)) as (y' & is_drained & E & Hy' & Hs' & Hdone & Hpushed & Hleft);
    [eapply inbox_next; [exact Hy3|apply step_put_back]|done|].
  rewrite E4 in Hpushed, Hleft. exists y', is_drained. split_and!; [done|done|done|done|lia|].
  intros Hd. specialize (Hleft Hd). lia.
Qed.
End inbox.
Arguments InboxSystem : clear implicits.
Arguments PaneOutputQueue : clear implicits.
Arguments PaneOutputQueueState : clear implicits.
Arguments Pushed : clear implicits.
Arguments Pusher : clear implicits.

(** The next step of a reader's call, where it can take one. *)
Definition advance_reader {ExitStatus : Type} (should_wait : bool) (reader : N) (y : InboxSystem ExitStatus) : InboxSystem ExitStatus :=
  match pushers y !! reader with
  | Some (FoundQueue q item) =>
      match queues y !! q with
      | Some r =>
          if waits_for_room should_wait item r then y
          else
            match record_push item r with
            | Some (r', wakes) =>
                with_pushers (if wakes then <[reader := SendsWake q]> (pushers y) else delete reader (pushers y))
                  (with_queue q (fun _ => r') y)
            | None => with_pushers (delete reader (pushers y)) y
            end
      | None => y
      end
  | Some (SendsWake q) => send_readable_wake true q (with_pushers (delete reader (pushers y)) y)
  | None => y
  end.

Lemma advance_reader_steps {ExitStatus : Type} should_wait reader (y : InboxSystem ExitStatus) :
  rtc (reader_step should_wait) y (advance_reader should_wait reader y).
Proof.
  unfold advance_reader. destruct (pushers y !! reader) as [[q item|q]|] eqn:E; [| |done].
  - destruct (queues y !! q) as [r|] eqn:Eq; [|done]. destruct (waits_for_room _ _ _) eqn:Ew; [done|].
    destruct (record_push item r) as [[r' wakes]|] eqn:Ep; apply rtc_once; [by eapply step_push|by eapply step_push_closed].
  - apply rtc_once. by apply step_wake_inbox.
Qed.

(** Pane 1 is spawned, and its reader pushes two chunks and an exit: the wake
    waits in the inbox. *)
Definition example_pushed : InboxSystem N :=
  MkInboxSystem
    {[7 := MkPaneOutputQueue 1 (MkPaneOutputQueueState [[104; 105]; [33]] 3 (Some 0) true false) [[104; 105]; [33]] []]}
    {[1 := 7]} ∅ [7] {[1]} {[1]} ∅ [] None.

(** The dispatcher has taken the wake in. *)
Definition example_ready : InboxSystem N :=
  MkInboxSystem (queues example_pushed) {[1 := 7]} ∅ [] {[1]} {[1]} {[1 := 7]} [1] None.

Lemma example_pushed_reachable : inbox_reachable true example_pushed.
Proof.
  pose proof (inbox_new (ExitStatus := N) true) as H.
  eapply inbox_next in H; [|apply (step_spawn true _ 1); set_solver].
  eapply inbox_next in H; [|apply step_reader; apply (step_start true _ 0 1 (PushedBytes [104; 105]) 7 ∅);
    [done|set_solver|done|done|done|intros p q'; split; [done|by intros [? _]]]].
  eapply inbox_next in H; [|apply step_reader; eapply (step_push true _ 0 7); vm_compute; reflexivity].
  eapply inbox_next in H; [|apply step_reader; apply (step_wake_inbox true _ 0 7); vm_compute; reflexivity].
  eapply inbox_next in H; [|apply step_reader; apply (step_find true _ 0 1 (PushedBytes [33]) 7);
    [by vm_compute|set_solver|done|by vm_compute|right; left; vm_compute; by left]].
  eapply inbox_next in H; [|apply step_reader; eapply (step_push true _ 0 7); vm_compute; reflexivity].
  eapply inbox_next in H; [|apply step_reader; apply (step_find true _ 0 1 (PushedExit 0) 7);
    [by vm_compute|set_solver|done|by vm_compute|right; left; vm_compute; by left]].
  eapply inbox_next in H; [|apply step_reader; eapply (step_push true _ 0 7); vm_compute; reflexivity].
  match type of H with inbox_reachable _ ?y => assert (y = example_pushed) as <- by (vm_compute; reflexivity) end. exact H.
Qed.

Lemma example_ready_reachable : inbox_reachable true example_ready.
Proof.
  pose proof example_pushed_reachable as H. eapply inbox_next in H; [|apply (step_handle true _ 7 []); reflexivity].
  match type of H with inbox_reachable _ ?y => assert (y = example_ready) as <- by (vm_compute; reflexivity) end. exact H.
Qed.

(** C9: In every interleaving of the readers' pushes, the wakes, the
    dispatcher's turns and the panes' releases, an open queue that holds a
    chunk or an exit is about to be served: its wake is in the inbox or with
    the push that sends it, or its pane is in the turn rotation. The queue holds
    exactly the chunks pushed and not taken, in order, its byte count is theirs,
    and a sink that waits for room keeps all but the last chunk under the
    limit. *)
Theorem pane_output_is_never_stranded {ExitStatus : Type} (should_wait : bool) (y : InboxSystem ExitStatus) q r :
  inbox_reachable should_wait y -> queues y !! q = Some r -> is_closed (queue_state r) = false ->
  (output_chunks (queue_state r) <> [] \/ exit_status (queue_state r) <> None ->
     q ∈ inbox y
     \/ (exists reader, pushers y !! reader = Some (SendsWake q))
     \/ (exists pane, pane_output_queue_by_pane_id y !! pane = Some q
           /\ (pane ∈ ready_output_pane_ids y \/ served_pane_id y = Some pane)))
  /\ pushed r = taken r ++ output_chunks (queue_state r)
  /\ queued_byte_count (queue_state r) = total_len (output_chunks (queue_state r))
  /\ (should_wait = true -> forall front chunk, output_chunks (queue_state r) = front ++ [chunk] ->
        queued_byte_count (queue_state r) < PANE_OUTPUT_QUEUE_BYTE_LIMIT + chunk_len chunk).
Proof.
  intros Hy Hq Hc. apply inbox_reachable_ok in Hy. destruct (io_open _ _ Hy q r Hq Hc) as [H1 H2 H3 H4].
  split_and!; [|done|done|].
  - intros Hcontent. by apply (io_token _ _ Hy q r Hq Hc), H1.
  - intros Hw front chunk E. specialize (H4 front chunk Hw E). rewrite H2, E, total_len_app, total_len_cons.
    change (total_len []) with 0. lia.
Qed.

Lemma pane_output_is_never_stranded_witness :
  7 ∈ inbox example_pushed
  \/ (exists reader, pushers example_pushed !! reader = Some (SendsWake 7))
  \/ (exists pane, pane_output_queue_by_pane_id example_pushed !! pane = Some 7
        /\ (pane ∈ ready_output_pane_ids example_pushed \/ served_pane_id example_pushed = Some pane)).
Proof.
  refine (proj1 (pane_output_is_never_stranded true example_pushed 7
    (MkPaneOutputQueue 1 (MkPaneOutputQueueState [[104; 105]; [33]] 3 (Some 0) true false) [[104; 105]; [33]] [])
    example_pushed_reachable _ _) _); [vm_compute; reflexivity|reflexivity|by left].
Defined.

(** The dispatcher's turn never panics. The pane at the head of the
    rotation leaves it; where the server holds its queue, the turn takes the
    oldest chunks, at least one where there is one, and at most 64 KiB unless
    the first chunk alone is larger. It takes the exit only once no chunk is
    left, and then lets the next push send a wake; otherwise the pane is to be
    put back. *)
Theorem turns_take_the_oldest_chunks {ExitStatus : Type} (should_wait : bool) (y : InboxSystem ExitStatus) pane rest :
  inbox_reachable should_wait y -> served_pane_id y = None -> ready_output_pane_ids y = pane :: rest ->
  exists y' served, serve_output_turn y = Some (y', served) /\ ready_output_pane_ids y' = rest
    /\ (pane_output_queue_by_pane_id y !! pane = None -> served = None /\ queues y' = queues y)
    /\ forall q, pane_output_queue_by_pane_id y !! pane = Some q ->
        exists r state turn, queues y !! q = Some r /\ queue_pane_id r = pane /\ served = Some (pane, turn)
          /\ queues y' = <[q := MkPaneOutputQueue pane state (pushed r) (taken r ++ turn_chunks turn)]> (queues y)
          /\ output_chunks (queue_state r) = turn_chunks turn ++ output_chunks state
          /\ (output_chunks (queue_state r) <> [] -> turn_chunks turn <> [])
          /\ (total_len (turn_chunks turn) <= PANE_OUTPUT_TURN_BYTE_LIMIT \/ length (turn_chunks turn) = 1%nat)
          /\ (output_chunks state = [] -> served_pane_id y' = None
                /\ turn_exit_status turn = exit_status (queue_state r) /\ exit_status state = None
                /\ is_wake_sent state = false)
          /\ (output_chunks state <> [] -> served_pane_id y' = Some pane
                /\ turn_exit_status turn = None /\ exit_status state = exit_status (queue_state r)).
Proof.
  intros Hy Hs Er. apply inbox_reachable_ok in Hy. unfold serve_output_turn. rewrite Er.
  destruct (pane_output_queue_by_pane_id y !! pane) as [q|] eqn:Em.
  2: { eexists _, _. split; [done|]. split; [done|]. split; [by split|by intros q]. }
  destruct (io_server _ _ Hy pane q Em) as (r & Hq & Hpane & _ & Hc). rewrite Hq.
  destruct (take_output_turn_ok _ r (io_open _ _ Hy q r Hq Hc))
    as (turn & state & Et & Ec & Hne & Hlen & _ & Hmore & Hdone & Hkept & _).
  rewrite Et. cbn [mbind option_bind]. eexists _, _. split; [done|]. split; [done|]. split; [done|].
  intros q' [= <-]. exists r, state, turn. split_and!; [done|done|done| |done|done|done| |].
  - cbn. rewrite <- Hpane. apply map_eq. intros q'. destruct (decide (q' = q)) as [->|Hn].
    + by rewrite lookup_alter_eq, Hq, lookup_insert_eq.
    + by rewrite lookup_alter_ne, lookup_insert_ne.
  - intros Hnil. rewrite Hnil in Hmore. cbn in Hmore. cbn. rewrite Hmore. destruct (Hdone Hmore) as (? & ? & ?). done.
  - intros Hnil. rewrite bool_decide_eq_false_2 in Hmore by done. cbn in Hmore. cbn. rewrite Hmore. by destruct (Hkept Hmore).
Qed.

Lemma turns_take_the_oldest_chunks_witness :
  exists y' served, serve_output_turn example_ready = Some (y', served) /\ ready_output_pane_ids y' = [].
Proof.
  destruct (turns_take_the_oldest_chunks true example_ready 1 [] example_ready_reachable eq_refl eq_refl)
    as (y' & served & H1 & H2 & _). by exists y', served.
Defined.

(** The reader of the ready pane has found the queue for one more chunk. *)
Definition example_parked : InboxSystem N :=
  MkInboxSystem
    {[7 := MkPaneOutputQueue 1 (MkPaneOutputQueueState [[104; 105]] 2 None true false) [[104; 105]] []]}
    {[1 := 7]} {[0 := FoundQueue 7 (PushedBytes [33])]} [] {[1]} {[1]} {[1 := 7]} [1] None.

Lemma example_parked_reachable : inbox_reachable true example_parked.
Proof.
  pose proof (inbox_new (ExitStatus := N) true) as H.
  eapply inbox_next in H; [|apply (step_spawn true _ 1); set_solver].
  eapply inbox_next in H; [|apply step_reader; apply (step_start true _ 0 1 (PushedBytes [104; 105]) 7 ∅);
    [done|set_solver|done|done|done|intros p q'; split; [done|by intros [? _]]]].
  eapply inbox_next in H; [|apply step_reader; eapply (step_push true _ 0 7); vm_compute; reflexivity].
  eapply inbox_next in H; [|apply step_reader; apply (step_wake_inbox true _ 0 7); vm_compute; reflexivity].
  eapply inbox_next in H; [|apply (step_handle true _ 7 []); reflexivity].
  eapply inbox_next in H; [|apply step_reader; apply (step_find true _ 0 1 (PushedBytes [33]) 7);
    [by vm_compute|set_solver|done|by vm_compute|left; exists 1; by vm_compute]].
  match type of H with inbox_reachable _ ?y => assert (y = example_parked) as <- by (vm_compute; reflexivity) end. exact H.
Qed.

(** C18: Serving turns until the rotation is empty ends, unless the readers
    push on and on. Meanwhile the readers find and start queues, push chunks and
    exits and send wakes, before and after every turn's hold of its queue's
    lock, in any way a run allows. No turn panics, whichever panes their
    children's exits remove. A turn for each place of the rotation, each chunk
    queued at the start and each chunk pushed meanwhile is enough; so when the
    readers push at most a given number of chunks, as many as there are readers
    once each was told to park, that many turns more are enough. When the drain
    has ended, the rotation is empty, and an open queue that holds a chunk or
    an exit has its wake in the inbox or with a push. *)
Theorem held_output_drains {ExitStatus : Type} (is_removed_on_exit : N -> bool) (should_wait : bool)
    (readers : nat -> InboxSystem ExitStatus -> InboxSystem ExitStatus) (y : InboxSystem ExitStatus) fuel :
  (forall gap y, inbox_reachable should_wait y -> rtc (reader_step should_wait) y (readers gap y)) ->
  inbox_reachable should_wait y -> served_pane_id y = None ->
  exists y' is_drained,
    drain_pane_output_queues is_removed_on_exit readers fuel 0 y = Some (y', is_drained)
    /\ (forall pushed_count,
          (pushed_chunk_count (queues y') <= pushed_chunk_count (queues y) + pushed_count)%nat ->
          (length (ready_output_pane_ids y) + queued_chunk_count (queues y) + pushed_count <= fuel)%nat ->
          is_drained = true)
    /\ (is_drained = true ->
          ready_output_pane_ids y' = []
          /\ forall q r, queues y' !! q = Some r -> is_closed (queue_state r) = false ->
               output_chunks (queue_state r) <> [] \/ exit_status (queue_state r) <> None ->
               q ∈ inbox y' \/ exists reader, pushers y' !! reader = Some (SendsWake q)).
Proof.
  intros Hreaders Hy Hs. destruct (drains is_removed_on_exit readers should_wait fuel 0 y Hreaders Hy Hs)
    as (y' & is_drained & E & Hy' & Hs' & Hdone & _ & Hleft).
  exists y', is_drained. split_and!; [done| |].
  - intros n Hn Hf. destruct is_drained; [done|]. specialize (Hleft eq_refl). unfold drain_turns in Hleft. lia.
  - intros Hd. split; [by apply Hdone|]. intros q r Hq Hc Hcontent. apply inbox_reachable_ok in Hy'.
    destruct (io_token _ _ Hy' q r Hq Hc) as [H|[H|(pane & _ & H)]]; [by apply (io_open _ _ Hy' q r Hq Hc)|by left|by right|].
    rewrite (Hdone Hd), Hs' in H. destruct H as [H|H]; [by apply elem_of_nil in H|done].
Qed.

(** The parked reader pushes its chunk before the first turn, or after the
    turn took the others, and then the drain ends with its wake under way. *)
Lemma held_output_drains_witness :
  (exists y', drain_pane_output_queues (fun _ => true) (fun _ => advance_reader true 0) 3 0 example_parked = Some (y', true)
     /\ ready_output_pane_ids y' = [] /\ queued_chunk_count (queues y') = 0%nat)
  /\ (exists y', drain_pane_output_queues (fun _ => true)
         (fun gap => if (gap =? 1)%nat then advance_reader true 0 else id) 3 0 example_parked = Some (y', true)
     /\ ready_output_pane_ids y' = [] /\ queued_chunk_count (queues y') = 1%nat
     /\ (7 ∈ inbox y' \/ exists reader, pushers y' !! reader = Some (SendsWake 7))).
Proof.
  split.
  - destruct (held_output_drains (fun _ => true) true (fun _ => advance_reader true 0) example_parked 3)
      as (y' & is_drained & E & Hend & Hd);
      [intros gap y _; apply advance_reader_steps|apply example_parked_reachable|reflexivity|].
    assert (is_drained = true) as ->.
    { apply (Hend 1%nat); [vm_compute in E; injection E as <- _|]; apply Nat.leb_le; vm_compute; reflexivity. }
    exists y'. split; [exact E|]. split; [by apply Hd|]. vm_compute in E. injection E as <-. vm_compute. reflexivity.
  - destruct (held_output_drains (fun _ => true) true (fun gap => if (gap =? 1)%nat then advance_reader true 0 else id)
      example_parked 3) as (y' & is_drained & E & Hend & Hd);
      [intros gap y _; destruct (gap =? 1)%nat; [apply advance_reader_steps|apply rtc_refl]
      |apply example_parked_reachable|reflexivity|].
    assert (is_drained = true) as ->.
    { apply (Hend 1%nat); [vm_compute in E; injection E as <- _|]; apply Nat.leb_le; vm_compute; reflexivity. }
    destruct (Hd eq_refl) as [Hready Hwakes]. exists y'. split; [exact E|]. split; [exact Hready|].
    vm_compute in E. injection E as <-. split; [vm_compute; reflexivity|].
    eapply (Hwakes 7); [vm_compute; reflexivity|reflexivity|by left].
Defined.
