(* ===== verification/RenderSchedule.v ===== *)
(** * Frame paces and timed renders
    ([crates/koshi-runtime/src/runtime/render_schedule.rs])

    Instants and durations are counts of nanoseconds. An ordered set of
    deadlines is its elements in order, earliest first. The theorems are the
    distance a subscriber's frames keep, the grid its timed renders fall on, and
    the table of render deadlines as a finite map. *)

From S2P Require Import Prelude Varint.
From stdpp Require Import gmap sorting options.
#[local] Open Scope N_scope.

(** ** One subscriber's frame pace *)

Record FramePace := MkFramePace
  { frame_interval : N;
    next_frame_allowed_at : option N;
    has_view_change : bool;
    is_next_frame_immediate : bool }.

Definition with_frame_interval (interval : N) : FramePace := MkFramePace interval None true false.

Definition mark_view_changed (p : FramePace) : FramePace :=
  MkFramePace (frame_interval p) (next_frame_allowed_at p) true (is_next_frame_immediate p).

Definition allow_next_frame_now (p : FramePace) : FramePace :=
  MkFramePace (frame_interval p) (next_frame_allowed_at p) (has_view_change p) true.

Definition clear_view_change (p : FramePace) : FramePace :=
  MkFramePace (frame_interval p) (next_frame_allowed_at p) false (is_next_frame_immediate p).

Definition compute_frame_wait (current_time : N) (p : FramePace) : option N :=
  if negb (has_view_change p) then None
  else if is_next_frame_immediate p then Some 0
  else Some (match next_frame_allowed_at p with
             | Some next_frame_allowed_at => next_frame_allowed_at - current_time
             | None => 0
             end).

Definition div_ceil (n d : N) : N := if n mod d =? 0 then n / d else n / d + 1.

Definition find_grid_frame_time (earliest_time : N) (p : FramePace) : N :=
  if is_next_frame_immediate p then earliest_time
  else
    match next_frame_allowed_at p with
    | None => earliest_time
    | Some next_frame_allowed_at =>
        if earliest_time <=? next_frame_allowed_at then next_frame_allowed_at
        else
          let late_nanoseconds := earliest_time - next_frame_allowed_at in
          let grid_step_count := div_ceil late_nanoseconds (frame_interval p) in
          if U64_MAX <? grid_step_count * frame_interval p then earliest_time
          else next_frame_allowed_at + grid_step_count * frame_interval p
    end.

Definition record_frame_sent (sent_at : N) (p : FramePace) : FramePace :=
  let next :=
    match next_frame_allowed_at p with
    | Some allowed_at =>
        if (allowed_at <=? sent_at) && (sent_at <? allowed_at + frame_interval p)
        then allowed_at + frame_interval p else sent_at + frame_interval p
    | None => sent_at + frame_interval p
    end in
  MkFramePace (frame_interval p) (Some next) false false.

(** ** The panes' timed renders *)

Definition deadline_lt (x y : N * N) : bool := (x.1 <? y.1) || ((x.1 =? y.1) && (x.2 <? y.2)).

(** [BTreeSet::insert] and [BTreeSet::remove]. *)
Fixpoint set_insert (x : N * N) (s : list (N * N)) : list (N * N) :=
  match s with
  | [] => [x]
  | y :: s' => if deadline_lt x y then x :: s else if bool_decide (x = y) then s else y :: set_insert x s'
  end.

Definition set_remove (x : N * N) (s : list (N * N)) : list (N * N) := filter (fun y => y <> x) s.

Record PaneRenderDeadlines := MkPaneRenderDeadlines
  { render_deadline_by_pane_id : gmap N N;
    pane_ids_by_render_deadline : list (N * N) }.

Definition no_render_deadlines : PaneRenderDeadlines := MkPaneRenderDeadlines ∅ [].

Definition set_pane_render_deadline (pane_id : N) (render_deadline : option N) (d : PaneRenderDeadlines)
    : PaneRenderDeadlines :=
  let d :=
    match render_deadline_by_pane_id d !! pane_id with
    | Some previous =>
        MkPaneRenderDeadlines (delete pane_id (render_deadline_by_pane_id d))
          (set_remove (previous, pane_id) (pane_ids_by_render_deadline d))
    | None => d
    end in
  match render_deadline with
  | Some t =>
      MkPaneRenderDeadlines (<[pane_id := t]> (render_deadline_by_pane_id d))
        (set_insert (t, pane_id) (pane_ids_by_render_deadline d))
  | None => d
  end.

Definition find_earliest_render_deadline (d : PaneRenderDeadlines) : option N :=
  fst <$> head (pane_ids_by_render_deadline d).

Definition list_render_deadlines (d : PaneRenderDeadlines) : list (N * N) := pane_ids_by_render_deadline d.

(** The loop over the earliest deadlines, with the panes taken so far. *)
Fixpoint take_due_pane_ids_loop (current_time : N) (due_pane_ids : list N) (by_pane : gmap N N) (s : list (N * N))
    : list N * PaneRenderDeadlines :=
  match s with
  | [] => (due_pane_ids, MkPaneRenderDeadlines by_pane s)
  | (render_deadline, pane_id) :: s' =>
      if current_time <? render_deadline then (due_pane_ids, MkPaneRenderDeadlines by_pane s)
      else take_due_pane_ids_loop current_time (due_pane_ids ++ [pane_id]) (delete pane_id by_pane) s'
  end.

Definition take_due_pane_ids (current_time : N) (d : PaneRenderDeadlines) : list N * PaneRenderDeadlines :=
  take_due_pane_ids_loop current_time [] (render_deadline_by_pane_id d) (pane_ids_by_render_deadline d).

(** ** The pace over time *)

(** The operations of a subscription on its pace, as time goes on; with the
    times of the frames that went because their time on the grid had come,
    newest first. A frame after the client's own event, and a resync snapshot,
    go at any time. *)
Inductive pace_run (interval : N) : N -> FramePace -> list N -> Prop :=
  | pace_new now : pace_run interval now (with_frame_interval interval) []
  | pace_later now later p frames : pace_run interval now p frames -> now <= later -> pace_run interval later p frames
  | pace_mark now p frames : pace_run interval now p frames -> pace_run interval now (mark_view_changed p) frames
  | pace_allow now p frames : pace_run interval now p frames -> pace_run interval now (allow_next_frame_now p) frames
  | pace_clear now p frames : pace_run interval now p frames -> pace_run interval now (clear_view_change p) frames
  | pace_grid_frame now p frames :
      pace_run interval now p frames -> compute_frame_wait now p = Some 0 -> is_next_frame_immediate p = false ->
      pace_run interval now (record_frame_sent now p) (now :: frames)
  | pace_frame now p frames : pace_run interval now p frames -> pace_run interval now (record_frame_sent now p) frames.

Record pace_ok (interval now : N) (p : FramePace) (frames : list N) : Prop :=
  { po_interval : frame_interval p = interval;
    po_soon allowed : next_frame_allowed_at p = Some allowed -> allowed <= now + interval;
    po_grid newer t older : frames = newer ++ t :: older ->
      exists allowed, next_frame_allowed_at p = Some allowed /\ t + N.of_nat (length newer) * interval < allowed;
    po_apart newest newer t older : frames = newest :: newer ++ t :: older ->
      t + N.of_nat (length newer) * interval < newest }.

Lemma record_moves_on interval now p allowed :
  0 < interval -> frame_interval p = interval -> next_frame_allowed_at p = Some allowed -> allowed <= now + interval ->
  exists next, next_frame_allowed_at (record_frame_sent now p) = Some next
    /\ allowed <= next <= now + interval /\ now < next
    /\ (allowed <= now -> allowed + interval <= next).
Proof.
  intros Hi <- Ha Hs. unfold record_frame_sent. rewrite Ha. eexists; split; [done|]. cbn.
  destruct (_ && _) eqn:E; bools; lia.
Qed.

Lemma pace_run_ok interval now p frames : 0 < interval -> pace_run interval now p frames -> pace_ok interval now p frames.
Proof.
  intros Hi. induction 1 as [now|now later p frames _ [E H1 H2 H3] Hl|now p frames _ [E H1 H2 H3]|now p frames _ [E H1 H2 H3]
    |now p frames _ [E H1 H2 H3]|now p frames _ [E H1 H2 H3] Hw Hn|now p frames _ [E H1 H2 H3]].
  - split; [done|done|by intros [|? ?]|done].
  - split; [done| |done|done]. intros a Ha. specialize (H1 a Ha). lia.
  - by split.
  - by split.
  - by split.
  - assert (has_view_change p = true /\ default 0 (next_frame_allowed_at p) <= now) as [_ Hdue].
    { unfold compute_frame_wait in Hw. rewrite Hn in Hw. destruct (has_view_change p); [|done]. split; [done|].
      injection Hw as Hw. destruct (next_frame_allowed_at p) as [a|]; cbn; lia. }
    assert (exists next, next_frame_allowed_at (record_frame_sent now p) = Some next /\ now < next <= now + interval
      /\ forall a, next_frame_allowed_at p = Some a -> a + interval <= next) as (next & En & Hnext & Hgrid).
    { destruct (next_frame_allowed_at p) as [a|] eqn:Ea.
      - destruct (record_moves_on interval now p a Hi E Ea (H1 a eq_refl)) as (next & En & ? & ? & ?).
        cbn in Hdue. exists next. split_and!; [done|lia|lia|]. intros ? [= <-]. lia.
      - exists (now + interval). unfold record_frame_sent. rewrite Ea, E. split_and!; [done|lia|lia|done]. }
    split; [done|rewrite En; intros a [= <-]; lia| |].
    + intros newer t older Ef. exists next. split; [done|]. destruct newer as [|t' newer]; injection Ef as <- Ef.
      * cbn. lia.
      * destruct (H2 newer t older Ef) as (a & Ha & Hlt). specialize (Hgrid a Ha). cbn [length]. lia.
    + intros newest newer t older Ef. injection Ef as <- Ef. destruct (H2 newer t older Ef) as (a & Ha & Hlt).
      rewrite Ha in Hdue. cbn in Hdue. lia.
  - split; [done| | |done].
    + intros a. unfold record_frame_sent. cbn. intros [= <-]. destruct (next_frame_allowed_at p) as [a|] eqn:Ea; [|lia].
      destruct (_ && _) eqn:Eg; bools; lia.
    + intros newer t older Ef. destruct (H2 newer t older Ef) as (a & Ha & Hlt).
      destruct (record_moves_on interval now p a Hi E Ha (H1 a Ha)) as (next & En & ? & _). exists next. split; [done|lia].
Qed.

Lemma div_ceil_spec n d : 0 < d -> n <= div_ceil n d * d < n + d.
Proof.
  intros Hd. unfold div_ceil. pose proof (N.div_mod n d ltac:(lia)) as H. pose proof (N.mod_lt n d ltac:(lia)) as Hm.
  set (q := n / d) in *. set (r := n mod d) in *. clearbody q r. destruct (N.eqb_spec r 0).
  - rewrite N.mul_comm. lia.
  - rewrite N.mul_add_distr_r, N.mul_comm. lia.
Qed.

(** ** The ordered set *)

Definition deadlines_sorted (s : list (N * N)) : Prop := StronglySorted deadline_lt s.

Lemma deadline_lt_spec x y : deadline_lt x y <-> x.1 < y.1 \/ (x.1 = y.1 /\ x.2 < y.2).
Proof. unfold deadline_lt. rewrite orb_True, andb_True, !Is_true_true, !N.ltb_lt, N.eqb_eq. done. Qed.

Lemma deadline_lt_trans x y z : deadline_lt x y -> deadline_lt y z -> deadline_lt x z.
Proof. rewrite !deadline_lt_spec. lia. Qed.

Lemma deadline_trichotomy x y : ~ deadline_lt x y -> x <> y -> deadline_lt y x.
Proof.
  rewrite !deadline_lt_spec. destruct x as [a b], y as [c d]. cbn. intros H Hne.
  destruct (decide (a = c)) as [->|]; [|lia]. assert (b <> d) by congruence. lia.
Qed.

Lemma elem_of_set_insert x y s : y ∈ set_insert x s <-> y = x \/ y ∈ s.
Proof.
  induction s as [|z s IH]; cbn; [by rewrite list_elem_of_singleton, elem_of_nil; naive_solver|].
  destruct (deadline_lt x z); [by rewrite elem_of_cons|]. case_bool_decide as E; [subst; rewrite elem_of_cons; naive_solver|].
  rewrite !elem_of_cons, IH. naive_solver.
Qed.

Lemma set_insert_sorted x s : deadlines_sorted s -> deadlines_sorted (set_insert x s).
Proof.
  induction 1 as [|z s Hs IH Hz]; cbn; [repeat constructor|]. destruct (deadline_lt x z) eqn:E.
  - constructor; [by constructor|]. constructor; [by rewrite E|]. eapply Forall_impl; [exact Hz|].
    intros y Hy. eapply deadline_lt_trans; [|exact Hy]. by rewrite E.
  - case_bool_decide; [by constructor|]. constructor; [done|]. apply Forall_forall. intros y Hy.
    apply elem_of_set_insert in Hy as [->|Hy]; [|by eapply Forall_forall in Hz].
    apply deadline_trichotomy; [intros H'; by rewrite E in H'|done].
Qed.

Lemma set_remove_sorted x s : deadlines_sorted s -> deadlines_sorted (set_remove x s).
Proof.
  induction 1 as [|z s Hs IH Hz]; [constructor|]. unfold set_remove. cbn. case_decide; [|done].
  constructor; [done|]. apply Forall_forall. intros y Hy. apply list_elem_of_filter in Hy as [_ Hy]. by eapply Forall_forall in Hz.
Qed.

Record deadlines_ok (d : PaneRenderDeadlines) : Prop :=
  { do_sorted : deadlines_sorted (pane_ids_by_render_deadline d);
    do_same pane t : render_deadline_by_pane_id d !! pane = Some t <-> (t, pane) ∈ pane_ids_by_render_deadline d }.

Lemma set_pane_render_deadline_ok pane t d : deadlines_ok d -> deadlines_ok (set_pane_render_deadline pane t d).
Proof.
  intros [Hs He]. unfold set_pane_render_deadline.
  set (d' := match render_deadline_by_pane_id d !! pane with Some _ => _ | None => d end).
  assert (deadlines_ok d' /\ render_deadline_by_pane_id d' !! pane = None) as [[Hs' He'] Hn].
  { subst d'. destruct (render_deadline_by_pane_id d !! pane) as [t0|] eqn:E0; [|done]. split; [|apply lookup_delete_eq].
    split; [by apply set_remove_sorted|]. cbn. intros p u. unfold set_remove. rewrite list_elem_of_filter, lookup_delete_Some, He.
    split; [intros [? ?]; split; [congruence|done]|]. intros [Hne Hin]. split; [|done]. intros ->. apply He in Hin. congruence. }
  destruct t as [t|]; [|done]. split; cbn; [by apply set_insert_sorted|].
  intros p u. rewrite elem_of_set_insert, lookup_insert_Some, He'. split.
  - intros [[<- <-]|[_ H]]; [by left|by right].
  - intros [[= -> ->]|H]; [by left|]. destruct (decide (pane = p)) as [->|Hne]; [|by right]. apply He' in H. congruence.
Qed.

Lemma set_pane_render_deadline_lookup pane t d p :
  deadlines_ok d ->
  render_deadline_by_pane_id (set_pane_render_deadline pane t d) !! p
  = if decide (p = pane) then t else render_deadline_by_pane_id d !! p.
Proof.
  intros _. unfold set_pane_render_deadline. case_decide as E; [subst p|];
    destruct (render_deadline_by_pane_id d !! pane) eqn:E0, t; cbn;
    rewrite ?lookup_insert_eq, ?lookup_delete_eq, ?lookup_insert_ne, ?lookup_delete_ne by done; congruence.
Qed.

Lemma filter_none {A} (P : A -> Prop) `{!forall x, Decision (P x)} l : Forall (fun x => ~ P x) l -> filter P l = [].
Proof. induction 1 as [|x l Hx _ IH]; [done|]. cbn. by rewrite decide_False. Qed.

Lemma take_due_loop now due by_pane s :
  deadlines_sorted s -> (forall pane t, by_pane !! pane = Some t <-> (t, pane) ∈ s) ->
  exists d, take_due_pane_ids_loop now due by_pane s = (due ++ (filter (fun x => x.1 <= now) s).*2, d)
    /\ deadlines_ok d /\ pane_ids_by_render_deadline d = filter (fun x => now < x.1) s.
Proof.
  intros Hs. revert due by_pane. induction Hs as [|[t p] s Hs IH Hz]; intros due by_pane He; cbn [take_due_pane_ids_loop].
  { eexists; split; [by rewrite app_nil_r|]. split; [split; [constructor|done]|done]. }
  destruct (N.ltb_spec now t) as [Hlt|Hge].
  - assert (Forall (fun x => now < x.1) ((t, p) :: s)) as Hall.
    { constructor; [done|]. eapply Forall_impl; [exact Hz|]. intros x Hx. apply deadline_lt_spec in Hx. cbn in Hx. lia. }
    eexists; split; [|split].
    + f_equal. rewrite filter_none by (eapply Forall_impl; [exact Hall|]; cbn; intros; lia). by rewrite app_nil_r.
    + split; [by constructor|done].
    + symmetry. apply list_filter_all. by apply Forall_forall.
  - assert (forall pane t0, delete p by_pane !! pane = Some t0 <-> (t0, pane) ∈ s) as He'.
    { intros pane t0. rewrite lookup_delete_Some, He, elem_of_cons. split.
      - intros [Hne [[= -> ->]|H]]; [done|done].
      - intros H. split; [|by right]. intros ->. assert (by_pane !! pane = Some t) as H1 by (apply He; left).
        assert (by_pane !! pane = Some t0) as H2 by (apply He; by right). assert (t0 = t) as -> by congruence.
        rewrite Forall_forall in Hz. specialize (Hz _ H). apply deadline_lt_spec in Hz. cbn in Hz. lia. }
    destruct (IH (due ++ [p]) _ He') as (d & E & Hd & El). exists d. rewrite E. cbn [filter list_filter].
    rewrite decide_True by done. rewrite decide_False by (cbn; lia). by rewrite <- app_assoc.
Qed.

Lemma take_due_ok now d :
  deadlines_ok d ->
  exists d', take_due_pane_ids now d = ((filter (fun x => x.1 <= now) (pane_ids_by_render_deadline d)).*2, d')
    /\ deadlines_ok d' /\ pane_ids_by_render_deadline d' = filter (fun x => now < x.1) (pane_ids_by_render_deadline d).
Proof. intros [Hs He]. by apply (take_due_loop now [] _ _ Hs). Qed.

Lemma no_render_deadlines_ok : deadlines_ok no_render_deadlines.
Proof. split; [constructor|]. intros p t. cbn. rewrite lookup_empty, elem_of_nil. split; [done|by intros []]. Qed.

Lemma sorted_head x s y : deadlines_sorted (x :: s) -> y ∈ x :: s -> x.1 <= y.1.
Proof.
  intros Hs Hy. apply elem_of_cons in Hy as [->|Hy]; [done|]. inversion Hs as [|?? _ Hall]; subst.
  rewrite Forall_forall in Hall. specialize (Hall y Hy). apply deadline_lt_spec in Hall. lia.
Qed.

Lemma find_earliest_spec d :
  deadlines_ok d ->
  match find_earliest_render_deadline d with
  | Some t => (exists pane, render_deadline_by_pane_id d !! pane = Some t)
      /\ forall pane t', render_deadline_by_pane_id d !! pane = Some t' -> t <= t'
  | None => render_deadline_by_pane_id d = ∅
  end.
Proof.
  intros [Hs He]. unfold find_earliest_render_deadline. destruct (pane_ids_by_render_deadline d) as [|[t p] s] eqn:E; cbn.
  - apply map_empty. intros pane. apply eq_None_not_Some. intros [t Ht]. apply He in Ht. by apply elem_of_nil in Ht.
  - split; [exists p; apply He; left|]. intros pane t' H. apply He in H. by apply (sorted_head (t, p) s (t', pane)).
Qed.

(** ** Paces *)

Lemma wait_over now wait p : compute_frame_wait now p = Some wait -> compute_frame_wait (now + wait) p = Some 0.
Proof.
  unfold compute_frame_wait. destruct (has_view_change p), (is_next_frame_immediate p), (next_frame_allowed_at p); cbn; try done.
  intros [= <-]. f_equal. lia.
Qed.

Lemma wait_within_interval interval now p frames :
  pace_ok interval now p frames -> has_view_change p = true ->
  exists wait, compute_frame_wait now p = Some wait /\ wait <= interval.
Proof.
  intros [_ Hs _ _] Hv. unfold compute_frame_wait. rewrite Hv. cbn. destruct (is_next_frame_immediate p); [eexists; split; [done|lia]|].
  eexists; split; [done|]. destruct (next_frame_allowed_at p) as [a|] eqn:E; [specialize (Hs a eq_refl)|]; lia.
Qed.

(** C24: A client's frames keep their distance and are not held longer than it.
    However marks, immediate frames and resync snapshots mix, two frames that
    went because their time had come are more than one interval apart for each
    such frame between them; and a view change, from the moment it is marked,
    is sent after a wait of at most one interval, at whose end nothing is left
    to wait for. *)
Theorem frames_keep_their_pace interval now p frames :
  0 < interval -> pace_run interval now p frames ->
  (forall newest newer t older, frames = newest :: newer ++ t :: older -> t + N.of_nat (length newer) * interval < newest)
  /\ exists wait, compute_frame_wait now (mark_view_changed p) = Some wait /\ wait <= interval
       /\ compute_frame_wait (now + wait) (mark_view_changed p) = Some 0.
Proof.
  intros Hi Hr. split; [apply (po_apart _ _ _ _ (pace_run_ok _ _ _ _ Hi Hr))|].
  assert (pace_run interval now (mark_view_changed p) frames) as Hm by by constructor.
  destruct (wait_within_interval _ _ _ _ (pace_run_ok _ _ _ _ Hi Hm) eq_refl) as (wait & E & Hw).
  exists wait. split_and!; [done|done|by apply wait_over].
Qed.

Definition example_pace : FramePace := record_frame_sent 31 (mark_view_changed (record_frame_sent 5 (with_frame_interval 10))).

Lemma example_pace_run : pace_run 10 31 example_pace [31].
Proof.
  apply pace_grid_frame; [|done..]. apply pace_mark. apply (pace_later 10 5); [|lia]. apply pace_frame. constructor.
Qed.

Lemma frames_keep_their_pace_witness :
  pace_run 10 31 example_pace [31]
  /\ (forall newest newer t older, [31] = newest :: newer ++ t :: older -> t + N.of_nat (length newer) * 10 < newest)
  /\ exists wait, compute_frame_wait 31 (mark_view_changed example_pace) = Some wait /\ wait <= 10
       /\ compute_frame_wait (31 + wait) (mark_view_changed example_pace) = Some 0.
Proof.
  split; [exact example_pace_run|]. apply (frames_keep_their_pace 10 31 example_pace [31]); [lia|exact example_pace_run].
Defined.

Lemma grid_time_is_least interval a earliest j :
  0 < interval -> a < earliest -> earliest <= a + j * interval ->
  a + div_ceil (earliest - a) interval * interval <= a + j * interval.
Proof.
  intros Hi Ha Hj. destruct (div_ceil_spec (earliest - a) interval Hi) as [_ H].
  assert (div_ceil (earliest - a) interval <= j); [|nia].
  destruct (N.le_gt_cases (div_ceil (earliest - a) interval) j) as [|Hlt]; [done|].
  assert ((j + 1) * interval <= div_ceil (earliest - a) interval * interval) by (apply N.mul_le_mono_r; lia). lia.
Qed.

(** C26: A timed render waits for the next time a frame may go, and no longer.
    The time found is never before the one asked for and less than an interval
    after the later of it and the time frames are allowed from; it is the
    least time of the grid, the allowed time and its interval steps, that is
    not before the time asked for; and a frame due then need not wait. The time
    asked for is an interval or more before the last time a clock can tell. *)
Theorem timed_renders_fall_on_the_grid earliest p :
  0 < frame_interval p -> earliest + frame_interval p <= U64_MAX ->
  let t := find_grid_frame_time earliest p in
  let allowed := default earliest (next_frame_allowed_at p) in
  earliest <= t < N.max earliest allowed + frame_interval p
  /\ (is_next_frame_immediate p = true \/ next_frame_allowed_at p = None -> t = earliest)
  /\ (is_next_frame_immediate p = false -> next_frame_allowed_at p = Some allowed ->
        (exists k, t = allowed + k * frame_interval p)
        /\ forall k, earliest <= allowed + k * frame_interval p -> t <= allowed + k * frame_interval p)
  /\ compute_frame_wait t (mark_view_changed p) = Some 0.
Proof.
  intros Hi Hmax t allowed. subst t allowed. unfold find_grid_frame_time, compute_frame_wait.
  destruct (is_next_frame_immediate p) eqn:En, (next_frame_allowed_at p) as [a|] eqn:Ea; cbn; rewrite ?En, ?Ea;
    try (split_and!; [lia|lia|done|done|by repeat f_equal; lia]).
  destruct (N.leb_spec earliest a) as [Hle|Hlt].
  - split_and!; [lia|lia|by intros []| |f_equal; lia]. intros _ _. split; [exists 0; lia|]. intros k _. lia.
  - destruct (div_ceil_spec (earliest - a) (frame_interval p) Hi) as [Hlow Hup].
    destruct (N.ltb_spec U64_MAX (div_ceil (earliest - a) (frame_interval p) * frame_interval p)) as [Hbig|_]; [lia|].
    split_and!; [lia|lia|by intros []| |f_equal; lia]. intros _ _. split; [by eexists|].
    intros k Hk. by apply grid_time_is_least.
Qed.

Lemma timed_renders_fall_on_the_grid_witness :
  0 < 10 /\ find_grid_frame_time 58 example_pace = 61 /\ compute_frame_wait 61 (mark_view_changed example_pace) = Some 0.
Proof.
  split; [done|]. split; [done|]. apply (timed_renders_fall_on_the_grid 58 example_pace); [done|by vm_compute].
Defined.

(** ** Timed renders *)

(** The pane deadlines as one finite map, beside the two collections the code
    keeps in step. *)
Inductive renders_run : PaneRenderDeadlines -> gmap N N -> Prop :=
  | renders_new : renders_run no_render_deadlines ∅
  | renders_set d m pane t :
      renders_run d m -> renders_run (set_pane_render_deadline pane t d) (partial_alter (fun _ => t) pane m)
  | renders_take d m now :
      renders_run d m -> renders_run (take_due_pane_ids now d).2 (filter (fun entry => now < entry.2) m).

Lemma renders_run_ok d m : renders_run d m -> deadlines_ok d /\ render_deadline_by_pane_id d = m.
Proof.
  induction 1 as [|d m pane t _ [IH <-]|d m now _ [IH <-]].
  - split; [apply no_render_deadlines_ok|done].
  - split; [by apply set_pane_render_deadline_ok|]. apply map_eq. intros p.
    rewrite set_pane_render_deadline_lookup by done. case_decide as E; [subst p; by rewrite lookup_partial_alter_eq|].
    by rewrite lookup_partial_alter_ne.
  - destruct (take_due_ok now d IH) as (d' & E & Hok & Hl). rewrite E. split; [done|]. cbn. apply map_eq. intros p.
    apply option_eq. intros t. rewrite (do_same _ Hok), Hl, list_elem_of_filter, map_lookup_filter_Some, (do_same _ IH). cbn. tauto.
Qed.

Lemma filter_sorted (P : N * N -> Prop) `{!forall x, Decision (P x)} s : deadlines_sorted s -> deadlines_sorted (filter P s).
Proof.
  induction 1 as [|z s Hs IH Hz]; [constructor|]. cbn [filter list_filter]. case_decide; [|done]. constructor; [done|].
  apply Forall_forall. intros y Hy. apply list_elem_of_filter in Hy as [_ Hy]. by eapply Forall_forall in Hz.
Qed.

Lemma due_panes_distinct (P : N * N -> Prop) `{!forall x, Decision (P x)} d :
  deadlines_ok d -> NoDup (filter P (pane_ids_by_render_deadline d)).*2.
Proof.
  intros [Hs He]. apply NoDup_fmap_2_strong.
  - intros [t p] [t' p'] H1 H2 E. cbn in E. subst p'. apply list_elem_of_filter in H1 as [_ H1], H2 as [_ H2].
    apply He in H1, H2. congruence.
  - apply NoDup_filter. clear He. induction Hs as [|z s Hs IH Hz]; constructor; [|done].
    intros Hin. rewrite Forall_forall in Hz. specialize (Hz z Hin). apply deadline_lt_spec in Hz. lia.
Qed.

(** The panes due at [now], the earliest deadline first and the lower pane
    first among equals. *)
Definition lists_due (now : N) (m : gmap N N) (pane_ids : list N) : Prop :=
  exists entries, StronglySorted deadline_lt entries /\ entries.*2 = pane_ids
    /\ forall t pane, (t, pane) ∈ entries <-> m !! pane = Some t /\ t <= now.

(** C25: The timed renders of the panes are one map from panes to deadlines.
    After any run of settings, clearings and takes, a take returns each pane
    whose deadline has come once, the earliest deadline first and panes of one
    deadline by their ids, and leaves the deadlines still ahead; the earliest
    deadline is the least of the map, and none exactly when the map is empty. *)
Theorem timed_renders_are_one_map d m :
  renders_run d m ->
  render_deadline_by_pane_id d = m
  /\ (forall now, lists_due now m (take_due_pane_ids now d).1 /\ NoDup (take_due_pane_ids now d).1
        /\ render_deadline_by_pane_id (take_due_pane_ids now d).2 = filter (fun entry => now < entry.2) m)
  /\ match find_earliest_render_deadline d with
     | Some t => (exists pane, m !! pane = Some t) /\ forall pane t', m !! pane = Some t' -> t <= t'
     | None => m = ∅
     end.
Proof.
  intros Hr. destruct (renders_run_ok d m Hr) as [Hd <-]. split_and!; [done| |by apply find_earliest_spec].
  intros now. destruct (renders_run_ok _ _ (renders_take _ _ now Hr)) as [_ Hleft].
  destruct (take_due_ok now d Hd) as (d' & E & _). rewrite E in *. cbn [fst snd] in *. split_and!; [| |done].
  - exists (filter (fun x => x.1 <= now) (pane_ids_by_render_deadline d)).
    split_and!; [apply filter_sorted, (do_sorted _ Hd)|done|]. intros t pane.
    rewrite list_elem_of_filter, (do_same _ Hd). cbn. tauto.
  - by apply due_panes_distinct.
Qed.

Lemma timed_renders_are_one_map_witness :
  let d := set_pane_render_deadline 3 (Some 40) (set_pane_render_deadline 7 (Some 20) no_render_deadlines) in
  let m := partial_alter (fun _ => Some 40) 3 (partial_alter (fun _ => Some 20) 7 (∅ : gmap N N)) in
  renders_run d m /\ render_deadline_by_pane_id d = m /\ (take_due_pane_ids 30 d).1 = [7].
Proof.
  intros d m. assert (renders_run d m) as H by (apply renders_set, renders_set, renders_new).
  split; [exact H|]. split; [|reflexivity]. exact (proj1 (timed_renders_are_one_map d m H)).
Defined.
