(* ===== verification/EventBus.v ===== *)
(** * The event bus
    ([crates/koshi-runtime/src/runtime/bus.rs])

    The subscribers in subscription order, each with its delivery state, and
    for each subscriber what it shares with the thread that writes its client's
    connection: the delivery queue and the writer handoff. The shared part stays
    when the subscriber leaves, as the thread still holds it. A locked section
    is one operation here; [queue_host_write] is cut where it gives its locks
    up. Counters of 64 bits are taken not to overflow. *)

From S2P Require Import Prelude Varint PaintWindow DeliveryQueue.
From stdpp Require Import gmap list options.
#[local] Open Scope N_scope.

Definition SUBSCRIBER_QUEUE_CAPACITY : nat := 1024.
Definition MAX_HELD_COMMAND_REJECTION_COUNT : nat := 256.
Definition MAX_HOST_WRITE_BYTE_COUNT : N := 12582879.

Definition chunk_bytes (bytes : list N) : N := N.of_nat (length bytes).

(** The values the bus carries: it looks into none of them, but compares the
    actions, reasons and hints of rejections. *)
Class BusTypes := MkBusTypes
  { RenderSnapshot : Type;
    PlacementCommitted : Type;
    NotificationEntry : Type;
    NotificationQueue : Type;
    MouseAnswer : Type;
    OtherEvent : Type;
    ActionReference : Type;
    RejectReason : Type;
    Help : Type;
    ActionReference_eq :: EqDecision ActionReference;
    RejectReason_eq :: EqDecision RejectReason;
    Help_eq :: EqDecision Help }.

Section bus.
Context `{T : BusTypes}.

(** ** Data *)

Record HeldCommandRejection := MkHeldCommandRejection
  { held_fired_action : option ActionReference;
    held_reject_reason : RejectReason;
    held_help : option Help;
    repeat_count : N }.

(** What a resync carries beside its snapshot. *)
Record Resync := MkResync
  { lag_dropped_event_count : N;
    resync_notification_queue : NotificationQueue;
    resync_rejections : list HeldCommandRejection;
    resync_dropped_rejection_count : N }.

(** Every delivery but a frame and a resync snapshot. *)
Inductive OtherDelivery :=
  | PanePlacementCommitted (committed : PlacementCommitted)
  | Quit
  | Restarting
  | NotificationPosted (revision : N) (posted_entry : NotificationEntry)
  | MouseAnswered (request_id : N) (mouse_answers : list MouseAnswer)
  | HostWriteWake
  | SwitchTo (session_id : N) (owner_user_id : option N)
  | CommandRejected (command_id : N) (fired_action : option ActionReference) (reason : RejectReason) (help : option Help)
  | ClientActionRequested (client_action_request_id : N) (action_reference : ActionReference).

Abbreviation BusDelivery := (Delivery RenderSnapshot Resync OtherDelivery).
Abbreviation Queue := (@DeliveryQueueState RenderSnapshot Resync OtherDelivery).

Inductive DeliveryState :=
  | Live
  | Desynced (dropped_event_count : N) (held_command_rejections : list HeldCommandRejection)
      (dropped_command_rejection_count : N).

Definition from_dropped_event_count (dropped_event_count : N) : DeliveryState := Desynced dropped_event_count [] 0.

Definition is_live (s : DeliveryState) : bool := match s with Live => true | Desynced _ _ _ => false end.

Inductive QueueDeliveryStatus := Sent | Dropped | Skipped.

Record HostWrite := MkHostWrite { sorted_clipboard_targets : list N; host_write_bytes : list N }.

(** [sort_unstable] on bytes. *)
Fixpoint sort_insert (b : N) (bs : list N) : list N :=
  match bs with [] => [b] | c :: bs' => if b <=? c then b :: bs else c :: sort_insert b bs' end.

Definition sort_bytes (bs : list N) : list N := foldr sort_insert [] bs.

(** [base64_encode] is the standard encoding of the base64 crate. *)
Definition encode_osc52_copy (base64_encode : list N -> list N) (clipboard_targets copied_bytes : list N) : list N :=
  [27; 93; 53; 50; 59] ++ clipboard_targets ++ [59] ++ base64_encode copied_bytes ++ [7].

Definition from_clipboard_copy (base64_encode : list N -> list N) (clipboard_targets copied_bytes : list N) : HostWrite :=
  MkHostWrite (sort_bytes clipboard_targets) (encode_osc52_copy base64_encode clipboard_targets copied_bytes).

Record WriterHandoff := MkWriterHandoff
  { host_writes : list HostWrite; is_wake_queued : bool; is_frame_owed : bool }.

Definition new_handoff : WriterHandoff := MkWriterHandoff [] false false.

Definition take_host_write_bytes (h : WriterHandoff) : list N * WriterHandoff :=
  (concat (host_write_bytes <$> host_writes h), MkWriterHandoff [] (is_wake_queued h) (is_frame_owed h)).

Definition clear_queued_wake (h : WriterHandoff) : WriterHandoff := MkWriterHandoff (host_writes h) false (is_frame_owed h).

Definition take_owed_frame_mark (h : WriterHandoff) : bool * WriterHandoff :=
  (is_frame_owed h, MkWriterHandoff (host_writes h) (is_wake_queued h) false).

Definition mark_frame_owed (h : WriterHandoff) : WriterHandoff := MkWriterHandoff (host_writes h) (is_wake_queued h) true.

Record Subscriber := MkSubscriber { subscriber_id : N; delivery_state : DeliveryState }.

(** What one subscriber shares with the thread that writes its connection. *)
Record Line := MkLine { line_queue : Queue; writer_handoff : WriterHandoff }.

Inductive SessionEnding := EndsInQuit | EndsInRestarting.

Record EventBus := MkEventBus
  { subscribers : list Subscriber; lines : gmap N Line; session_ending : option SessionEnding }.

Definition new_event_bus : EventBus := MkEventBus [] ∅ None.

(** ** One subscriber *)

Definition set_queue (q : Queue) (l : Line) : Line := MkLine q (writer_handoff l).
Definition set_handoff (h : WriterHandoff) (l : Line) : Line := MkLine (line_queue l) h.

(** [Some] of the subscriber kept, or [None] where it is removed. *)
Definition deliver_to_subscriber (d : BusDelivery) (is_stream_ending : bool) (s : Subscriber) (l : Line)
    : option Subscriber * Line :=
  let attempt dropped_so_far :=
    match try_send d (line_queue l) with
    | inr (q, _) => (Some s, set_queue q l)
    | inl Full => (Some (MkSubscriber (subscriber_id s) dropped_so_far), l)
    | inl Disconnected => (None, l)
    end in
  match delivery_state s with
  | Live => attempt (from_dropped_event_count 1)
  | Desynced dropped held dropped_rejections =>
      if is_stream_ending then attempt (Desynced (dropped + 1) held dropped_rejections)
      else (Some (MkSubscriber (subscriber_id s) (Desynced (dropped + 1) held dropped_rejections)), l)
  end.

(** [send_or_mark_frame_owed] *)
Definition send_or_mark_frame_owed (d : BusDelivery) (l : Line) : option SendError * Line :=
  match (match d with Frame render_snapshot => try_send_frame render_snapshot (line_queue l) | _ => try_send d (line_queue l) end) with
  | inr (q, _) => (None, set_queue q l)
  | inl Full => (Some Full, set_handoff (mark_frame_owed (writer_handoff l)) l)
  | inl Disconnected => (Some Disconnected, l)
  end.

(** ** The bus *)

Definition find_subscriber (id : N) (b : EventBus) : option (nat * Subscriber) :=
  list_find (fun s => subscriber_id s = id) (subscribers b).

Definition set_subscriber (i : nat) (s : Subscriber) (b : EventBus) : EventBus :=
  MkEventBus (<[i := s]> (subscribers b)) (lines b) (session_ending b).

Definition set_line (id : N) (l : Line) (b : EventBus) : EventBus :=
  MkEventBus (subscribers b) (<[id := l]> (lines b)) (session_ending b).

(** A subscriber that leaves the list drops its sender. *)
Definition drop_line_sender (l : Line) : Line := set_queue (drop_sender (line_queue l)) l.

Definition remove_subscriber (i : nat) (id : N) (b : EventBus) : EventBus :=
  MkEventBus (delete i (subscribers b)) (alter drop_line_sender id (lines b)) (session_ending b).

(** [SubscriberId::new] gives a fresh id. *)
Definition subscribe (id : N) (b : EventBus) : EventBus :=
  MkEventBus (subscribers b ++ [MkSubscriber id Live])
    (<[id := MkLine (create_delivery_queue SUBSCRIBER_QUEUE_CAPACITY) new_handoff]> (lines b)) (session_ending b).

Definition unsubscribe (id : N) (b : EventBus) : EventBus :=
  MkEventBus (filter (fun s => subscriber_id s <> id) (subscribers b))
    (match find_subscriber id b with Some _ => alter drop_line_sender id (lines b) | None => lines b end) (session_ending b).

(** The loop of [deliver_to_every_subscriber]: the subscribers kept, the lines,
    and the subscribers removed. *)
Fixpoint deliver_loop (d : BusDelivery) (is_stream_ending : bool) (ss : list Subscriber) (ls : gmap N Line)
    : list Subscriber * gmap N Line * list N :=
  match ss with
  | [] => ([], ls, [])
  | s :: ss =>
      match ls !! subscriber_id s with
      | Some l =>
          let '(kept, l') := deliver_to_subscriber d is_stream_ending s l in
          match kept with
          | Some s' =>
              let '(ss', ls', removed) := deliver_loop d is_stream_ending ss (<[subscriber_id s := l']> ls) in
              (s' :: ss', ls', removed)
          | None =>
              let '(ss', ls', removed) := deliver_loop d is_stream_ending ss (<[subscriber_id s := drop_line_sender l']> ls) in
              (ss', ls', subscriber_id s :: removed)
          end
      | None => let '(ss', ls', removed) := deliver_loop d is_stream_ending ss ls in (s :: ss', ls', removed)
      end
  end.

Definition deliver_to_every_subscriber (d : BusDelivery) (is_stream_ending : bool) (b : EventBus) : EventBus * list N :=
  let '(ss, ls, removed) := deliver_loop d is_stream_ending (subscribers b) (lines b) in
  (MkEventBus ss ls (session_ending b), removed).

Inductive Event :=
  | PanePlacementCommittedEvent (committed : PlacementCommitted)
  | QuitEvent
  | RestartingEvent
  | OtherBusEvent (event : OtherEvent).

(** The notice keeps the ending it was raised with first. *)
Definition raise_session_ending (ending : SessionEnding) (b : EventBus) : EventBus :=
  MkEventBus (subscribers b) (lines b) (match session_ending b with Some _ => session_ending b | None => Some ending end).

Definition publish (event : Event) (b : EventBus) : EventBus * list N :=
  match event with
  | PanePlacementCommittedEvent committed =>
      deliver_to_every_subscriber (DeliveryQueue.OtherDelivery (PanePlacementCommitted committed)) false b
  | QuitEvent => deliver_to_every_subscriber (DeliveryQueue.OtherDelivery Quit) true (raise_session_ending EndsInQuit b)
  | RestartingEvent =>
      deliver_to_every_subscriber (DeliveryQueue.OtherDelivery Restarting) true (raise_session_ending EndsInRestarting b)
  | OtherBusEvent _ => (b, [])
  end.

Definition publish_notification_post (revision : N) (posted_entry : NotificationEntry) (b : EventBus) : EventBus * list N :=
  deliver_to_every_subscriber (DeliveryQueue.OtherDelivery (NotificationPosted revision posted_entry)) false b.

Definition has_desynced_subscribers (b : EventBus) : bool := existsb (fun s => negb (is_live (delivery_state s))) (subscribers b).

Definition list_desynced_subscriber_ids (b : EventBus) : list N :=
  subscriber_id <$> filter (fun s => is_live (delivery_state s) = false) (subscribers b).

Definition has_subscriber (id : N) (b : EventBus) : bool := bool_decide (is_Some (find_subscriber id b)).

Definition is_line_owed (id : N) (b : EventBus) : bool :=
  match lines b !! id with Some l => is_frame_owed (writer_handoff l) | None => false end.

Definition bus_is_frame_owed (id : N) (b : EventBus) : bool :=
  match find_subscriber id b with Some _ => is_line_owed id b | None => false end.

Definition can_take_frame (id : N) (b : EventBus) : bool :=
  match find_subscriber id b with
  | Some (_, s) => is_live (delivery_state s) && negb (is_line_owed id b)
  | None => false
  end.

(** What one subscriber's send leaves: the subscriber at [i] in state [state],
    or removed. *)
Definition after_send (i : nat) (id : N) (sent : option SendError) (l : Line) (on_sent on_full : DeliveryState) (b : EventBus)
    : EventBus :=
  match sent with
  | None => set_subscriber i (MkSubscriber id on_sent) (set_line id l b)
  | Some Full => set_subscriber i (MkSubscriber id on_full) (set_line id l b)
  | Some Disconnected => remove_subscriber i id (set_line id l b)
  end.

Definition is_sent (sent : option SendError) : bool := match sent with None => true | Some _ => false end.

Definition try_resync (id : N) (render_snapshot : RenderSnapshot) (notification_queue : NotificationQueue) (b : EventBus)
    : bool * EventBus :=
  match find_subscriber id b, lines b !! id with
  | Some (i, s), Some l =>
      match delivery_state s with
      | Live => (false, b)
      | Desynced dropped held dropped_rejections =>
          let '(sent, l') := send_or_mark_frame_owed
            (Snapshot render_snapshot (MkResync dropped notification_queue held dropped_rejections)) l in
          (is_sent sent, after_send i id sent l' Live (delivery_state s) b)
      end
  | _, _ => (false, b)
  end.

Definition bus_try_send_frame (id : N) (render_snapshot : RenderSnapshot) (b : EventBus) : bool * EventBus :=
  match find_subscriber id b, lines b !! id with
  | Some (i, s), Some l =>
      if is_live (delivery_state s) then
        let '(sent, l') := send_or_mark_frame_owed (Frame render_snapshot) l in
        (is_sent sent, after_send i id sent l' Live Live b)
      else (false, b)
  | _, _ => (false, b)
  end.

(** A send on the queue alone. *)
Definition send_on_line (d : BusDelivery) (l : Line) : option SendError * Line :=
  match try_send d (line_queue l) with
  | inr (q, _) => (None, set_queue q l)
  | inl e => (Some e, l)
  end.

Definition try_send_delivery (id : N) (d : BusDelivery) (b : EventBus) : QueueDeliveryStatus * EventBus :=
  match find_subscriber id b, lines b !! id with
  | Some (i, s), Some l =>
      if is_live (delivery_state s) then
        let '(sent, l') := send_on_line d l in
        (match sent with None => Sent | Some Full => Dropped | Some Disconnected => Skipped end,
         after_send i id sent l' Live (from_dropped_event_count 1) b)
      else (Skipped, b)
  | _, _ => (Skipped, b)
  end.

Definition is_status_sent (s : QueueDeliveryStatus) : bool := match s with Sent => true | Dropped | Skipped => false end.

Definition try_send_mouse_answer (id request_id : N) (mouse_answers : list MouseAnswer) (b : EventBus) : bool * EventBus :=
  let '(status, b) := try_send_delivery id (DeliveryQueue.OtherDelivery (MouseAnswered request_id mouse_answers)) b in
  (is_status_sent status, b).

Definition try_send_client_action_request (id client_action_request_id : N) (action_reference : ActionReference) (b : EventBus)
    : bool * EventBus :=
  let '(status, b) :=
    try_send_delivery id (DeliveryQueue.OtherDelivery (ClientActionRequested client_action_request_id action_reference)) b in
  (is_status_sent status, b).

Definition try_send_switch (id session_id : N) (owner_user_id : option N) (b : EventBus) : bool * EventBus :=
  let '(status, b) := try_send_delivery id (DeliveryQueue.OtherDelivery (SwitchTo session_id owner_user_id)) b in
  (is_status_sent status, b).

(** ** Host writes *)

(** The part of [queue_host_write] under the lock of the host writes: [None]
    where the write is refused. *)
Definition kept_host_writes (w : HostWrite) (waiting : list HostWrite) : list HostWrite :=
  filter (fun x => sorted_clipboard_targets x <> sorted_clipboard_targets w) waiting.

Definition sum_host_write_bytes (ws : list HostWrite) : N := foldr (fun x n => chunk_bytes (host_write_bytes x) + n) 0 ws.

Definition add_host_write (w : HostWrite) (h : WriterHandoff) : option WriterHandoff :=
  let kept_byte_count := sum_host_write_bytes (kept_host_writes w (host_writes h)) in
  if (0 <? kept_byte_count) && (MAX_HOST_WRITE_BYTE_COUNT <? kept_byte_count + chunk_bytes (host_write_bytes w))
  then None
  else Some (MkWriterHandoff (kept_host_writes w (host_writes h) ++ [w]) (is_wake_queued h) (is_frame_owed h)).

Definition set_queued_wake (h : WriterHandoff) : WriterHandoff := MkWriterHandoff (host_writes h) true (is_frame_owed h).

Definition wake_delivery : BusDelivery := DeliveryQueue.OtherDelivery HostWriteWake.

(** The send of the wake, and what follows it, for the subscriber at [i]. *)
Definition send_host_write_wake (i : nat) (id : N) (l : Line) (b : EventBus) : bool * EventBus :=
  match try_send wake_delivery (line_queue l) with
  | inr (q, _) => (true, set_line id (set_queue q l) b)
  | inl Full => (true, set_line id (set_handoff (clear_queued_wake (writer_handoff l)) l) b)
  | inl Disconnected => (false, remove_subscriber i id b)
  end.

(** [queue_host_write] with nothing in between. *)
Definition queue_host_write (id : N) (w : HostWrite) (b : EventBus) : bool * EventBus :=
  match find_subscriber id b, lines b !! id with
  | Some (i, _), Some l =>
      match add_host_write w (writer_handoff l) with
      | None => (false, b)
      | Some h =>
          let l := set_handoff h l in
          if is_wake_queued h then (true, set_line id l b)
          else
            let l := set_handoff (set_queued_wake h) l in
            send_host_write_wake i id l (set_line id l b)
      end
  | _, _ => (false, b)
  end.

(** ** Command rejections *)

Record Rejection := MkRejection
  { fired_action : option ActionReference; reject_reason : RejectReason; help : option Help }.

Definition held_rejection (r : HeldCommandRejection) : Rejection :=
  MkRejection (held_fired_action r) (held_reject_reason r) (held_help r).

Definition hold_command_rejection (held : list HeldCommandRejection) (dropped_command_rejection_count : N) (r : Rejection)
    : list HeldCommandRejection * N :=
  let start held dropped :=
    if (length held =? MAX_HELD_COMMAND_REJECTION_COUNT)%nat
    then (tail held ++ [MkHeldCommandRejection (fired_action r) (reject_reason r) (help r) 1], dropped + 1)
    else (held ++ [MkHeldCommandRejection (fired_action r) (reject_reason r) (help r) 1], dropped) in
  match last held with
  | Some newest =>
      if bool_decide (held_fired_action newest = fired_action r) && bool_decide (held_reject_reason newest = reject_reason r)
         && bool_decide (held_help newest = help r)
      then (removelast held ++ [MkHeldCommandRejection (held_fired_action newest) (held_reject_reason newest)
              (held_help newest) (N.min U32_MAX (repeat_count newest + 1))], dropped_command_rejection_count)
      else start held dropped_command_rejection_count
  | None => start held dropped_command_rejection_count
  end.

Definition rejection_delivery (command_id : N) (r : Rejection) : BusDelivery :=
  DeliveryQueue.OtherDelivery (CommandRejected command_id (fired_action r) (reject_reason r) (help r)).

Definition send_command_rejection (id command_id : N) (r : Rejection) (b : EventBus) : EventBus :=
  match find_subscriber id b, lines b !! id with
  | Some (i, s), Some l =>
      match delivery_state s with
      | Desynced dropped held dropped_rejections =>
          let '(held, dropped_rejections) := hold_command_rejection held dropped_rejections r in
          set_subscriber i (MkSubscriber id (Desynced dropped held dropped_rejections)) b
      | Live =>
          let '(sent, l') := send_on_line (rejection_delivery command_id r) l in
          after_send i id sent l' Live
            (Desynced 0 [MkHeldCommandRejection (fired_action r) (reject_reason r) (help r) 1] 0) b
      end
  | _, _ => b
  end.

(** ** The frames a client is sent *)

Inductive SessionEvent :=
  | PanePlacementCommittedSent (committed : PlacementCommitted)
  | QuitSent
  | RestartingSent
  | ResyncSent (dropped_event_count : N) (notification_queue : NotificationQueue)
      (held_command_rejections : list HeldCommandRejection) (dropped_command_rejection_count : N)
  | NotificationPostedSent (revision : N) (posted_entry : NotificationEntry)
  | MouseAnswerSent (request_id : N) (mouse_answers : list MouseAnswer)
  | HostWritePart (bytes : list N)
  | HostWriteSent (bytes : list N)
  | SwitchToSent (session_id : N) (owner_user_id : option N)
  | CommandRejectedSent (command_id : N) (r : Rejection)
  | ClientActionRequestedSent (client_action_request_id : N) (action_reference : ActionReference).

Definition build_wire_event (d : BusDelivery) : option SessionEvent :=
  match d with
  | Frame _ => None
  | Snapshot _ r =>
      Some (ResyncSent (lag_dropped_event_count r) (resync_notification_queue r) (resync_rejections r)
              (resync_dropped_rejection_count r))
  | DeliveryQueue.OtherDelivery o =>
      match o with
      | PanePlacementCommitted committed => Some (PanePlacementCommittedSent committed)
      | Quit => Some QuitSent
      | Restarting => Some RestartingSent
      | NotificationPosted revision posted_entry => Some (NotificationPostedSent revision posted_entry)
      | MouseAnswered request_id mouse_answers => Some (MouseAnswerSent request_id mouse_answers)
      | HostWriteWake => None
      | SwitchTo session_id owner_user_id => Some (SwitchToSent session_id owner_user_id)
      | CommandRejected command_id fired_action reason help =>
          Some (CommandRejectedSent command_id (MkRejection fired_action reason help))
      | ClientActionRequested number action_reference => Some (ClientActionRequestedSent number action_reference)
      end
  end.

(** [chunks] of [n] bytes. *)
Fixpoint byte_chunks (fuel n : nat) (bytes : list N) : list (list N) :=
  match fuel, bytes with
  | S fuel, _ :: _ => take n bytes :: byte_chunks fuel n (drop n bytes)
  | _, _ => []
  end.

Definition build_wire_host_write_events_in (n : nat) (bytes : list N) : list SessionEvent :=
  let runs := byte_chunks (length bytes) n bytes in
  (HostWritePart <$> removelast runs) ++ [HostWriteSent (default [] (last runs))].

Definition build_wire_host_write_events (bytes : list N) : list SessionEvent :=
  build_wire_host_write_events_in (N.to_nat MAX_HOST_WRITE_BYTE_COUNT) bytes.
End bus.
