(* ===== verification/WriterThread.v ===== *)
(** * The bus and the threads that write the clients' connections
    ([crates/koshi-runtime/src/ipc_server.rs], with [runtime/bus.rs])

    The steps of the dispatcher on the bus, of each subscriber's writing thread
    on the line it shares with the bus, and of the thread that reads its
    client's requests, in any order. *)

From S2P Require Import Prelude Varint PaintWindow DeliveryQueue EventBus.
From stdpp Require Import gmap list functions options.
#[local] Open Scope N_scope.

Section system.
Context `{T : BusTypes}.

Abbreviation BusDelivery := (Delivery RenderSnapshot Resync OtherDelivery).

(** Where a writing thread is in a turn of its loop: before the top, waiting
    for a delivery, holding one it has read, past the owed-frame mark, out of
    the loop, or ended. *)
Inductive WriterAt :=
  | AtTop
  | Receiving
  | HasDelivery (d : BusDelivery)
  | Marked (d : BusDelivery)
  | Leaving
  | ReceiverDropped
  | Ended.

(** Where the dispatcher is in a call of [queue_host_write]. *)
Inductive DispatcherAt :=
  | Idle
  | AddedHostWrite (id : N)
  | OwesWake (id : N)
  | DroppedWake (id : N).

(** The bus, the threads, what each thread read off its queue, whether it sent
    [QueueRoomFreed], and what was meant for each subscriber: how many
    deliveries it counts, and which rejections. *)
Record BusSystem := MkBusSystem
  { bus : EventBus;
    dispatcher : DispatcherAt;
    writers : N -> WriterAt;
    read : N -> list BusDelivery;
    freed : list N;
    offered_count : N -> N;
    offered_rejections : N -> list Rejection }.

Definition new_bus_system : BusSystem :=
  MkBusSystem new_event_bus Idle (fun _ => AtTop) (fun _ => []) [] (fun _ => 0) (fun _ => []).

Definition with_bus (b : EventBus) (y : BusSystem) : BusSystem :=
  MkBusSystem b (dispatcher y) (writers y) (read y) (freed y) (offered_count y) (offered_rejections y).

Definition with_dispatcher (a : DispatcherAt) (y : BusSystem) : BusSystem :=
  MkBusSystem (bus y) a (writers y) (read y) (freed y) (offered_count y) (offered_rejections y).

Definition with_writer (id : N) (w : WriterAt) (y : BusSystem) : BusSystem :=
  MkBusSystem (bus y) (dispatcher y) (<[id := w]> (writers y)) (read y) (freed y) (offered_count y) (offered_rejections y).

Definition with_read (id : N) (d : BusDelivery) (y : BusSystem) : BusSystem :=
  MkBusSystem (bus y) (dispatcher y) (writers y) (<[id := read y id ++ [d]]> (read y)) (freed y) (offered_count y)
    (offered_rejections y).

Definition with_freed (id : N) (y : BusSystem) : BusSystem :=
  MkBusSystem (bus y) (dispatcher y) (writers y) (read y) (freed y ++ [id]) (offered_count y) (offered_rejections y).

(** One more delivery meant for each subscriber that [P] holds of. *)
Definition offer (P : N -> bool) (y : BusSystem) : BusSystem :=
  MkBusSystem (bus y) (dispatcher y) (writers y) (read y) (freed y)
    (fun id => if P id then offered_count y id + 1 else offered_count y id) (offered_rejections y).

Definition offer_rejection (id : N) (r : Rejection) (y : BusSystem) : BusSystem :=
  MkBusSystem (bus y) (dispatcher y) (writers y) (read y) (freed y) (offered_count y)
    (<[id := offered_rejections y id ++ [r]]> (offered_rejections y)).

Definition start_writer (id : N) (y : BusSystem) : BusSystem :=
  MkBusSystem (bus y) (dispatcher y) (<[id := AtTop]> (writers y)) (<[id := []]> (read y)) (freed y)
    (<[id := 0]> (offered_count y)) (<[id := []]> (offered_rejections y)).

Definition is_subscriber_live (id : N) (b : EventBus) : bool :=
  match find_subscriber id b with Some (_, s) => is_live (delivery_state s) | None => false end.

(** The deliveries that [try_send_delivery] is called with. *)
Definition is_addressed (d : BusDelivery) : bool :=
  match d with
  | DeliveryQueue.OtherDelivery (MouseAnswered _ _ | SwitchTo _ _ | ClientActionRequested _ _) => true
  | _ => false
  end.

Definition is_in_loop (w : WriterAt) : bool :=
  match w with AtTop | Receiving | HasDelivery _ | Marked _ => true | Leaving | ReceiverDropped | Ended => false end.

(** What the thread does with a delivery it has taken the mark for: after a
    wake it clears the wake, and after a last frame it leaves its loop. *)
Definition finish_delivery (d : BusDelivery) (l : Line) : Line * WriterAt :=
  match d with
  | DeliveryQueue.OtherDelivery HostWriteWake => (set_handoff (clear_queued_wake (writer_handoff l)) l, AtTop)
  | DeliveryQueue.OtherDelivery (Quit | Restarting) => (l, Leaving)
  | _ => (l, AtTop)
  end.

Definition after_receive (r : PacedReceive (RenderSnapshot := RenderSnapshot) (Resync := Resync) (Other := OtherDelivery))
    : WriterAt :=
  match r with
  | ReceivedDelivery d => HasDelivery d
  | Closed => Leaving
  | PaintedUpdateReported _ | DeliveryQueue.SessionEnding | TimedOut => AtTop
  end.

Definition record_receive (id : N) (r : PacedReceive (RenderSnapshot := RenderSnapshot) (Resync := Resync) (Other := OtherDelivery))
    (y : BusSystem) : BusSystem :=
  match r with ReceivedDelivery d => with_read id d y | _ => y end.

(** ** Steps *)

Inductive dispatcher_step : BusSystem -> BusSystem -> Prop :=
  | step_subscribe y id :
      lines (bus y) !! id = None -> dispatcher_step y (start_writer id (with_bus (subscribe id (bus y)) y))
  | step_unsubscribe y id : dispatcher_step y (with_bus (unsubscribe id (bus y)) y)
  | step_publish y event :
      dispatcher_step y
        (offer (fun id => match event with OtherBusEvent _ => false | _ => has_subscriber id (bus y) end)
           (with_bus (publish event (bus y)).1 y))
  | step_post y revision entry :
      dispatcher_step y
        (offer (fun id => has_subscriber id (bus y)) (with_bus (publish_notification_post revision entry (bus y)).1 y))
  | step_resync y id snapshot notifications :
      dispatcher_step y (with_bus (try_resync id snapshot notifications (bus y)).2 y)
  | step_frame y id snapshot : dispatcher_step y (with_bus (bus_try_send_frame id snapshot (bus y)).2 y)
  | step_delivery y id d :
      is_addressed d = true ->
      dispatcher_step y
        (offer (fun id' => bool_decide (id' = id) && is_subscriber_live id (bus y))
           (with_bus (try_send_delivery id d (bus y)).2 y))
  | step_reject y id command_id r :
      dispatcher_step y (offer_rejection id r (with_bus (send_command_rejection id command_id r (bus y)) y))
  | step_add_host_write y id i s l w h :
      find_subscriber id (bus y) = Some (i, s) -> lines (bus y) !! id = Some l ->
      add_host_write w (writer_handoff l) = Some h ->
      dispatcher_step y (with_dispatcher (AddedHostWrite id) (with_bus (set_line id (set_handoff h l) (bus y)) y)).

(** The rest of a call of [queue_host_write]. *)
Inductive host_write_step : BusSystem -> BusSystem -> Prop :=
  | step_swap_wake y id l :
      dispatcher y = AddedHostWrite id -> lines (bus y) !! id = Some l ->
      host_write_step y
        (with_dispatcher (if is_wake_queued (writer_handoff l) then Idle else OwesWake id)
           (with_bus (set_line id (set_handoff (set_queued_wake (writer_handoff l)) l) (bus y)) y))
  | step_send_wake y id i s l :
      dispatcher y = OwesWake id -> find_subscriber id (bus y) = Some (i, s) -> lines (bus y) !! id = Some l ->
      host_write_step y
        (match try_send wake_delivery (line_queue l) with
         | inr (q, _) => with_dispatcher Idle (with_bus (set_line id (set_queue q l) (bus y)) y)
         | inl Full => with_dispatcher (DroppedWake id) y
         | inl Disconnected => with_dispatcher Idle (with_bus (remove_subscriber i id (bus y)) y)
         end)
  | step_clear_dropped_wake y id l :
      dispatcher y = DroppedWake id -> lines (bus y) !! id = Some l ->
      host_write_step y
        (with_dispatcher Idle (with_bus (set_line id (set_handoff (clear_queued_wake (writer_handoff l)) l) (bus y)) y)).

(** The writing thread of the line [id], and the thread that reads the same
    client's requests. *)
Inductive writer_step (id : N) : BusSystem -> BusSystem -> Prop :=
  | step_top y l :
      writers y id = AtTop -> session_ending (bus y) = None -> lines (bus y) !! id = Some l ->
      writer_step id y
        (with_writer id Receiving
           (with_bus (set_line id (set_handoff (take_host_write_bytes (writer_handoff l)).2 l) (bus y)) y))
  | step_ending y :
      writers y id = AtTop -> session_ending (bus y) <> None -> writer_step id y (with_writer id Leaving y)
  | step_receive y l allowed passed r q :
      writers y id = Receiving -> lines (bus y) !! id = Some l ->
      recv_paced_pass allowed (bool_decide (session_ending (bus y) <> None)) passed (line_queue l) = Some (r, q) ->
      writer_step id y
        (with_writer id (after_receive r) (record_receive id r (with_bus (set_line id (set_queue q l) (bus y)) y)))
  | step_pong y : writers y id = Receiving -> writer_step id y (with_writer id AtTop y)
  | step_take_mark y l d :
      writers y id = HasDelivery d -> lines (bus y) !! id = Some l ->
      let '(is_owed, h) := take_owed_frame_mark (writer_handoff l) in
      writer_step id y
        (with_writer id (Marked d)
           (let y := with_bus (set_line id (set_handoff h l) (bus y)) y in if is_owed then with_freed id y else y))
  | step_write y l d :
      writers y id = Marked d -> lines (bus y) !! id = Some l ->
      writer_step id y
        (with_writer id (finish_delivery d l).2 (with_bus (set_line id (finish_delivery d l).1 (bus y)) y))
  | step_write_fails y : is_in_loop (writers y id) = true -> writer_step id y (with_writer id Leaving y)
  | step_leaving_takes y l d q :
      writers y id = Leaving -> lines (bus y) !! id = Some l -> try_recv (line_queue l) = (inr d, q) ->
      writer_step id y (with_read id d (with_bus (set_line id (set_queue q l) (bus y)) y))
  | step_leaving_writes y l :
      writers y id = Leaving -> lines (bus y) !! id = Some l ->
      writer_step id y (with_bus (set_line id (set_handoff (take_host_write_bytes (writer_handoff l)).2 l) (bus y)) y)
  | step_drop_receiver y l :
      writers y id = Leaving -> lines (bus y) !! id = Some l ->
      writer_step id y
        (with_writer id ReceiverDropped (with_bus (set_line id (set_queue (drop_receiver (line_queue l)) l) (bus y)) y))
  | step_end y l :
      writers y id = ReceiverDropped -> lines (bus y) !! id = Some l ->
      writer_step id y
        (with_writer id Ended
           (with_bus (set_line id (set_handoff (clear_queued_wake (writer_handoff l)) l) (bus y)) y))
  | step_report y l r :
      lines (bus y) !! id = Some l ->
      writer_step id y (with_bus (set_line id (set_queue (report_painted_update r (line_queue l)) l) (bus y)) y).

Inductive bus_step : BusSystem -> BusSystem -> Prop :=
  | by_dispatcher y y' : dispatcher y = Idle -> dispatcher_step y y' -> bus_step y y'
  | by_host_write y y' : host_write_step y y' -> bus_step y y'
  | by_writer id y y' : writer_step id y y' -> bus_step y y'.

Inductive bus_reachable : BusSystem -> Prop :=
  | bus_new : bus_reachable new_bus_system
  | bus_next y y' : bus_reachable y -> bus_step y y' -> bus_reachable y'.
End system.
