(* ===== verification/BusLines.v ===== *)
(** * The bus: what holds of each subscriber's line

    What a line keeps true under every step of the bus and of its writing
    thread, for [BusContract.v]. *)

From S2P Require Import Prelude Varint PaintWindow DeliveryQueue EventBus WriterThread.
From stdpp Require Import functions gmap list options.
#[local] Open Scope N_scope.

Section lines.
Context `{T : BusTypes}.

Abbreviation BusDelivery := (Delivery RenderSnapshot Resync OtherDelivery).

(** ** What a run of deliveries tells *)

(** The deliveries it stands for, of those meant for one subscriber or for
    all. *)
Definition counted (d : BusDelivery) : N :=
  match d with
  | Frame _ => 0
  | Snapshot _ r => lag_dropped_event_count r
  | DeliveryQueue.OtherDelivery (HostWriteWake | CommandRejected _ _ _ _) => 0
  | DeliveryQueue.OtherDelivery _ => 1
  end.

Definition counted_total (ds : list BusDelivery) : N := foldr (fun d n => counted d + n) 0 ds.

(** The rejections it tells. *)
Definition expand_held (held : list HeldCommandRejection) : list Rejection :=
  held ≫= fun r => replicate (N.to_nat (repeat_count r)) (held_rejection r).

Definition told (d : BusDelivery) : list Rejection :=
  match d with
  | Snapshot _ r => expand_held (resync_rejections r)
  | DeliveryQueue.OtherDelivery (CommandRejected _ fired reason help) => [MkRejection fired reason help]
  | _ => []
  end.

Definition told_all (ds : list BusDelivery) : list Rejection := ds ≫= told.

(** The runs of rejections it says were dropped. *)
Definition lost (d : BusDelivery) : N := match d with Snapshot _ r => resync_dropped_rejection_count r | _ => 0 end.

Definition lost_total (ds : list BusDelivery) : N := foldr (fun d n => lost d + n) 0 ds.

Definition is_wake (d : BusDelivery) : bool :=
  match d with DeliveryQueue.OtherDelivery HostWriteWake => true | _ => false end.

Definition wake_count (ds : list BusDelivery) : nat := length (filter (fun d => is_wake d = true) ds).

Definition dropped_of (s : DeliveryState) : N := match s with Live => 0 | Desynced dropped _ _ => dropped end.
Definition held_of (s : DeliveryState) : list HeldCommandRejection := match s with Live => [] | Desynced _ held _ => held end.
Definition lost_of (s : DeliveryState) : N := match s with Live => 0 | Desynced _ _ dropped => dropped end.

(** The delivery a thread has read and not finished. *)
Definition pending (w : WriterAt) : list BusDelivery :=
  match w with HasDelivery d | Marked d => [d] | _ => [] end.

Definition state_of (id : N) (b : EventBus) : option DeliveryState := (fun x => delivery_state x.2) <$> find_subscriber id b.

Record rejections_ok (log : list BusDelivery) (s : DeliveryState) (rejections : list Rejection) : Prop :=
  { ro_sublist : (told_all log ++ expand_held (held_of s)) `sublist_of` rejections;
    ro_exact : lost_total log + lost_of s = 0 -> N.of_nat (length rejections) <= U32_MAX ->
      told_all log ++ expand_held (held_of s) = rejections;
    ro_bound : (length (held_of s) <= MAX_HELD_COMMAND_REJECTION_COUNT)%nat }.

Record line_ok (id : N) (l : Line) (w : WriterAt) (rd : list BusDelivery) (at_ : DispatcherAt) (state : option DeliveryState)
    (offered : N) (rejections : list Rejection) : Prop :=
  { lo_capacity : capacity (line_queue l) = SUBSCRIBER_QUEUE_CAPACITY;
    lo_bound : (length (deliveries (line_queue l)) <= SUBSCRIBER_QUEUE_CAPACITY)%nat;
    lo_open : is_receiver_closed (line_queue l) = false <-> w <> ReceiverDropped /\ w <> Ended;
    lo_owed : is_receiver_closed (line_queue l) = false -> is_frame_owed (writer_handoff l) = true ->
      (exists d, w = HasDelivery d) \/ w = Leaving \/ deliveries (line_queue l) <> [];
    lo_writes : host_writes (writer_handoff l) <> [] -> w = Receiving ->
      deliveries (line_queue l) <> [] \/ at_ = AddedHostWrite id \/ at_ = OwesWake id;
    lo_flag : is_receiver_closed (line_queue l) = false -> is_wake_queued (writer_handoff l) = true ->
      (0 < wake_count (pending w ++ deliveries (line_queue l)))%nat \/ w = Leaving \/ at_ = OwesWake id \/ at_ = DroppedWake id;
    lo_one : is_receiver_closed (line_queue l) = false ->
      (wake_count (pending w ++ deliveries (line_queue l)) <= 1)%nat
      /\ (is_wake_queued (writer_handoff l) = false \/ at_ = OwesWake id \/ at_ = DroppedWake id ->
          wake_count (pending w ++ deliveries (line_queue l)) = 0%nat);
    lo_set : is_receiver_closed (line_queue l) = false -> at_ = OwesWake id \/ at_ = DroppedWake id ->
      is_wake_queued (writer_handoff l) = true;
    lo_counted s : is_receiver_closed (line_queue l) = false -> state = Some s ->
      offered = counted_total (rd ++ deliveries (line_queue l)) + dropped_of s;
    lo_rejections s : is_receiver_closed (line_queue l) = false -> state = Some s ->
      rejections_ok (rd ++ deliveries (line_queue l)) s rejections }.

Record bus_ok (y : BusSystem) : Prop :=
  { bo_distinct : NoDup (subscriber_id <$> subscribers (bus y));
    bo_lines s : s ∈ subscribers (bus y) -> is_Some (lines (bus y) !! subscriber_id s);
    bo_line id l : lines (bus y) !! id = Some l ->
      line_ok id l (writers y id) (read y id) (dispatcher y) (state_of id (bus y)) (offered_count y id)
        (offered_rejections y id) }.

(** ** Totals *)

Lemma counted_total_app l k : counted_total (l ++ k) = counted_total l + counted_total k.
Proof. induction l as [|d l IH]; [done|]. change (counted d + counted_total (l ++ k) = counted d + counted_total l + counted_total k). rewrite IH. lia. Qed.

Lemma lost_total_app l k : lost_total (l ++ k) = lost_total l + lost_total k.
Proof. induction l as [|d l IH]; [done|]. change (lost d + lost_total (l ++ k) = lost d + lost_total l + lost_total k). rewrite IH. lia. Qed.

Lemma counted_total_one d : counted_total [d] = counted d.
Proof. change (counted d + 0 = counted d). lia. Qed.

Lemma lost_total_one d : lost_total [d] = lost d.
Proof. change (lost d + 0 = lost d). lia. Qed.

Lemma told_all_app l k : told_all (l ++ k) = told_all l ++ told_all k.
Proof. apply bind_app. Qed.

Lemma told_all_one d : told_all [d] = told d.
Proof. unfold told_all. cbn. apply app_nil_r. Qed.

Lemma wake_count_app l k : wake_count (l ++ k) = (wake_count l + wake_count k)%nat.
Proof. unfold wake_count. by rewrite list.filter_app, length_app. Qed.

Lemma wake_count_one d : wake_count [d] = if is_wake d then 1%nat else 0%nat.
Proof. unfold wake_count. cbn. by destruct (is_wake d). Qed.

Lemma wake_count_cons d l : wake_count (d :: l) = ((if is_wake d then 1 else 0) + wake_count l)%nat.
Proof. unfold wake_count. cbn. by destruct (is_wake d). Qed.

Lemma expand_held_app l k : expand_held (l ++ k) = expand_held l ++ expand_held k.
Proof. apply bind_app. Qed.

Lemma expand_held_one r : expand_held [r] = replicate (N.to_nat (repeat_count r)) (held_rejection r).
Proof. unfold expand_held. cbn. apply app_nil_r. Qed.

(** ** Held rejections *)

Lemma start_run_ok held dropped r held' dropped' :
  (length held <= MAX_HELD_COMMAND_REJECTION_COUNT)%nat ->
  (if (length held =? MAX_HELD_COMMAND_REJECTION_COUNT)%nat
   then (tail held ++ [MkHeldCommandRejection (fired_action r) (reject_reason r) (help r) 1], dropped + 1)
   else (held ++ [MkHeldCommandRejection (fired_action r) (reject_reason r) (help r) 1], dropped)) = (held', dropped') ->
  expand_held held' `sublist_of` expand_held held ++ [r] /\ (length held' <= MAX_HELD_COMMAND_REJECTION_COUNT)%nat
  /\ (dropped' = 0 -> dropped = 0 /\ expand_held held' = expand_held held ++ [r]).
Proof.
  intros Hl. assert (expand_held [MkHeldCommandRejection (fired_action r) (reject_reason r) (help r) 1] = [r]) as E1.
  { rewrite expand_held_one. by destruct r. }
  destruct (Nat.eqb_spec (length held) MAX_HELD_COMMAND_REJECTION_COUNT) as [El|El]; intros [= <- <-];
    rewrite expand_held_app, E1, length_app; cbn [length].
  - split_and!; [|unfold MAX_HELD_COMMAND_REJECTION_COUNT in *; destruct held; cbn [tail length] in *; lia|intros; lia]. apply sublist_app; [|done].
    destruct held as [|h held]; [done|]. cbn [tail]. change (h :: held) with ([h] ++ held). rewrite expand_held_app.
    by apply sublist_inserts_l.
  - split_and!; [done|lia|done].
Qed.

Lemma hold_ok held dropped r held' dropped' :
  (length held <= MAX_HELD_COMMAND_REJECTION_COUNT)%nat -> hold_command_rejection held dropped r = (held', dropped') ->
  expand_held held' `sublist_of` expand_held held ++ [r] /\ (length held' <= MAX_HELD_COMMAND_REJECTION_COUNT)%nat
  /\ (dropped' = 0 -> dropped = 0 /\ (N.of_nat (length (expand_held held)) < U32_MAX -> expand_held held' = expand_held held ++ [r])).
Proof.
  intros Hl. unfold hold_command_rejection. destruct (last held) as [newest|] eqn:El.
  2: { intros H. destruct (start_run_ok held dropped r held' dropped' Hl H) as (? & ? & H3).
       split_and!; [done|done|]. intros Hd. destruct (H3 Hd). by split. }
  destruct (_ && _) eqn:E.
  2: { intros H. destruct (start_run_ok held dropped r held' dropped' Hl H) as (? & ? & H3).
       split_and!; [done|done|]. intros Hd. destruct (H3 Hd). by split. }
  intros [= <- <-]. apply andb_true_iff in E as [E E3]. apply andb_true_iff in E as [E1 E2].
  apply bool_decide_eq_true in E1, E2, E3. apply last_Some in El as [front ->]. rewrite removelast_last.
  rewrite !expand_held_app, !expand_held_one, !length_app in *. cbn [repeat_count held_rejection held_fired_action held_reject_reason held_help].
  assert (held_rejection newest = r) as Er by (unfold held_rejection; rewrite E1, E2, E3; by destruct r).
  change (held_rejection (MkHeldCommandRejection (held_fired_action newest) (held_reject_reason newest) (held_help newest)
    (N.min U32_MAX (repeat_count newest + 1)))) with (held_rejection newest). rewrite Er, <- !app_assoc.
  assert (replicate (N.to_nat (repeat_count newest)) r ++ [r] = replicate (N.to_nat (repeat_count newest + 1)) r) as Es.
  { rewrite <- replicate_S_end. f_equal. lia. }
  rewrite Es. rewrite length_replicate. split_and!; [|cbn [length] in *; lia|].
  - apply sublist_app; [done|]. set (n := N.to_nat (N.min U32_MAX (repeat_count newest + 1))).
    replace (N.to_nat (repeat_count newest + 1)) with (n + (N.to_nat (repeat_count newest + 1) - n))%nat by lia.
    rewrite replicate_add. by apply sublist_inserts_r.
  - intros ->. split; [done|]. intros Hlt. do 2 f_equal. lia.
Qed.

(** ** A line under the sends of the bus *)

Abbreviation log_of l rd := (rd ++ deliveries (line_queue l)).

(** What the counts and the rejections say of a line with the log [log]. *)
Definition accounts_ok (log : list BusDelivery) (state : option DeliveryState) (offered : N) (rejections : list Rejection) : Prop :=
  forall s, state = Some s -> offered = counted_total log + dropped_of s /\ rejections_ok log s rejections.

Lemma line_accounts id l w rd at_ state offered rejections :
  line_ok id l w rd at_ state offered rejections -> is_receiver_closed (line_queue l) = false ->
  accounts_ok (log_of l rd) state offered rejections.
Proof. intros H Ho s Hs. split; [by apply (lo_counted _ _ _ _ _ _ _ _ H)|by apply (lo_rejections _ _ _ _ _ _ _ _ H)]. Qed.

(** A line whose queue and handoff stay. *)
Lemma restated_ok id l w rd at_ state state' offered offered' rejections rejections' :
  line_ok id l w rd at_ state offered rejections ->
  (is_receiver_closed (line_queue l) = false -> accounts_ok (log_of l rd) state' offered' rejections') ->
  line_ok id l w rd at_ state' offered' rejections'.
Proof.
  intros [H1 H2 H3 H4 H5 H6 H7 Hset H8 H9] Ha. split; try done; intros s Ho Hs; by apply (Ha Ho s Hs).
Qed.

Lemma drop_line_sender_ok id l w rd at_ state offered rejections :
  line_ok id l w rd at_ state offered rejections -> line_ok id (drop_line_sender l) w rd at_ state offered rejections.
Proof. by intros [H1 H2 H3 H4 H5 H6 H7 Hset H8 H9]. Qed.

(** Put at the tail of the queue. *)
Lemma enqueue_ok id l w rd at_ state state' offered offered' rejections rejections' d :
  line_ok id l w rd at_ state offered rejections -> is_receiver_closed (line_queue l) = false ->
  (length (deliveries (line_queue l)) < SUBSCRIBER_QUEUE_CAPACITY)%nat -> is_wake d = false ->
  accounts_ok (log_of l rd ++ [d]) state' offered' rejections' ->
  line_ok id (set_queue (with_deliveries (deliveries (line_queue l) ++ [d]) (line_queue l)) l) w rd at_ state' offered' rejections'.
Proof.
  intros [H1 H2 H3 H4 H5 H6 H7 Hset H8 H9] Ho Hlen Hd Ha.
  split; cbn [line_queue writer_handoff set_queue with_deliveries deliveries capacity is_receiver_closed].
  - done.
  - rewrite length_app. cbn [length]. lia.
  - done.
  - intros _ _. right. right. by destruct (deliveries (line_queue l)).
  - intros _ _. left. by destruct (deliveries (line_queue l)).
  - intros _ Hf. rewrite app_assoc, wake_count_app, wake_count_one, Hd, Nat.add_0_r. by apply H6.
  - intros _. rewrite app_assoc, wake_count_app, wake_count_one, Hd, Nat.add_0_r. by apply H7.
  - done.
  - intros s _ Hs. rewrite app_assoc. by apply (Ha s Hs).
  - intros s _ Hs. rewrite app_assoc. by apply (Ha s Hs).
Qed.

Lemma try_send_cases d (q : @DeliveryQueueState RenderSnapshot Resync OtherDelivery) :
  (is_receiver_closed q = true /\ try_send d q = inl Disconnected)
  \/ (is_receiver_closed q = false /\ (capacity q <= length (deliveries q))%nat /\ try_send d q = inl Full)
  \/ (is_receiver_closed q = false /\ (length (deliveries q) < capacity q)%nat
      /\ try_send d q = inr (with_deliveries (deliveries q ++ [d]) q, true)).
Proof.
  unfold try_send. destruct (is_receiver_closed q); [by left|]. right.
  destruct (Nat.leb_spec (capacity q) (length (deliveries q))); [left|right]; done.
Qed.

Definition is_plain (d : BusDelivery) : Prop := told d = [] /\ lost d = 0 /\ is_wake d = false.

Lemma accounts_enqueue log s offered rejections d :
  is_plain d -> accounts_ok log (Some s) offered rejections ->
  accounts_ok (log ++ [d]) (Some s) (offered + counted d) rejections.
Proof.
  intros (Ht & Hl & _) Ha s' [= <-]. destruct (Ha s eq_refl) as [-> [H1 H2 H3]]. split.
  - rewrite counted_total_app, counted_total_one. lia.
  - split; [| |done]; rewrite ?told_all_app, ?told_all_one, ?Ht, ?app_nil_r, ?lost_total_app, ?lost_total_one, ?Hl; [done|].
    intros. apply H2; [lia|done].
Qed.

Lemma accounts_drop log s s' offered offered' rejections :
  held_of s' = held_of s -> lost_of s' = lost_of s -> offered' + dropped_of s = offered + dropped_of s' ->
  accounts_ok log (Some s) offered rejections -> accounts_ok log (Some s') offered' rejections.
Proof.
  intros Eh El Ed Ha s0 [= <-]. destruct (Ha s eq_refl) as [E [H1 H2 H3]]. split; [lia|]. by split; rewrite ?Eh, ?El.
Qed.

Lemma deliver_line_ok id l w rd at_ s offered rejections d is_stream_ending :
  line_ok id l w rd at_ (Some (delivery_state s)) offered rejections -> is_plain d -> counted d = 1 ->
  let '(kept, l') := deliver_to_subscriber d is_stream_ending s l in
  match kept with
  | Some s' => subscriber_id s' = subscriber_id s
      /\ line_ok id l' w rd at_ (Some (delivery_state s')) (offered + 1) rejections
  | None => line_ok id (drop_line_sender l') w rd at_ None (offered + 1) rejections
  end.
Proof.
  intros Hl Hp Hone. pose proof (lo_capacity _ _ _ _ _ _ _ _ Hl) as Hcap. pose proof (line_accounts _ _ _ _ _ _ _ _ Hl) as Ha.
  assert (forall dropped_so_far, held_of dropped_so_far = held_of (delivery_state s) ->
    lost_of dropped_so_far = lost_of (delivery_state s) -> dropped_of dropped_so_far = dropped_of (delivery_state s) + 1 ->
    line_ok id l w rd at_ (Some dropped_so_far) (offered + 1) rejections) as Hdropped.
  { intros st Eh El Ed. eapply restated_ok; [exact Hl|]. intros Ho. eapply accounts_drop; [exact Eh|exact El| |by apply Ha]. lia. }
  assert (forall dropped_so_far, held_of dropped_so_far = held_of (delivery_state s) ->
    lost_of dropped_so_far = lost_of (delivery_state s) -> dropped_of dropped_so_far = dropped_of (delivery_state s) + 1 ->
    let '(kept, l') := match try_send d (line_queue l) with
      | inr (q, _) => (Some s, set_queue q l)
      | inl Full => (Some (MkSubscriber (subscriber_id s) dropped_so_far), l)
      | inl Disconnected => (None, l) end in
    match kept with
    | Some s' => subscriber_id s' = subscriber_id s
        /\ line_ok id l' w rd at_ (Some (delivery_state s')) (offered + 1) rejections
    | None => line_ok id (drop_line_sender l') w rd at_ None (offered + 1) rejections
    end) as Hattempt.
  { intros st Eh El Ed.
    destruct (try_send_cases d (line_queue l)) as [[Ho ->]|[(Ho & Hfull & ->)|(Ho & Hroom & ->)]].
    - apply drop_line_sender_ok. eapply restated_ok; [exact Hl|]. congruence.
    - split; [done|]. by apply Hdropped.
    - split; [done|]. eapply enqueue_ok; [exact Hl|done|lia|by destruct Hp as (_ & _ & ?)|]. rewrite <- Hone.
      by apply accounts_enqueue, Ha. }
  unfold deliver_to_subscriber. destruct (delivery_state s) as [|dropped held lost_runs] eqn:Es.
  - by apply (Hattempt (from_dropped_event_count 1)).
  - destruct is_stream_ending; [by apply Hattempt|]. split; [done|]. by apply Hdropped.
Qed.

(** A full queue that owes a frame. *)
Lemma mark_frame_owed_ok id l w rd at_ state offered rejections :
  line_ok id l w rd at_ state offered rejections -> (capacity (line_queue l) <= length (deliveries (line_queue l)))%nat ->
  line_ok id (set_handoff (mark_frame_owed (writer_handoff l)) l) w rd at_ state offered rejections.
Proof.
  intros [H1 H2 H3 H4 H5 H6 H7 Hset H8 H9] Hfull. split; try done. intros _ _. right. right. cbn.
  rewrite H1 in Hfull. unfold SUBSCRIBER_QUEUE_CAPACITY in Hfull. destruct (deliveries (line_queue l)); [cbn in Hfull; lia|done].
Qed.

(** A frame put at the tail, in the place of a frame there or behind. *)
Lemma accounts_frame log state offered rejections s :
  accounts_ok log state offered rejections -> accounts_ok (log ++ [Frame s]) state offered rejections.
Proof.
  intros Ha st ->. destruct (Ha st eq_refl) as [E [H1 H2 H3]]. split.
  - rewrite counted_total_app, counted_total_one. cbn. lia.
  - split; [| |done]; rewrite ?told_all_app, ?told_all_one, ?lost_total_app, ?lost_total_one; cbn; rewrite ?app_nil_r; [done|].
    intros. apply H2; [lia|done].
Qed.

Lemma accounts_frame_inv log state offered rejections s :
  accounts_ok (log ++ [Frame s]) state offered rejections -> accounts_ok log state offered rejections.
Proof.
  intros Ha st ->. destruct (Ha st eq_refl) as [E [H1 H2 H3]]. revert E H1 H2.
  rewrite counted_total_app, counted_total_one, told_all_app, told_all_one, lost_total_app, lost_total_one. cbn.
  rewrite app_nil_r, !N.add_0_r. intros. split; [done|by split].
Qed.

Lemma replace_frame_ok id l w rd at_ state offered rejections front s s' :
  line_ok id l w rd at_ state offered rejections -> deliveries (line_queue l) = front ++ [Frame s] ->
  line_ok id (set_queue (with_deliveries (front ++ [Frame s']) (line_queue l)) l) w rd at_ state offered rejections.
Proof.
  intros [H1 H2 H3 H4 H5 H6 H7 Hset H8 H9] Ed. rewrite Ed in *.
  assert (is_receiver_closed (line_queue l) = false -> accounts_ok (rd ++ front ++ [Frame s']) state offered rejections) as Ha.
  { intros Ho. rewrite app_assoc. apply accounts_frame. apply (accounts_frame_inv _ _ _ _ s). rewrite <- app_assoc.
    intros st Hst. split; [by apply H8|by apply H9]. }
  split; cbn [line_queue writer_handoff set_queue with_deliveries deliveries capacity is_receiver_closed].
  - done.
  - rewrite length_app in *. done.
  - done.
  - intros _ _. right. right. by destruct front.
  - intros _ _. left. by destruct front.
  - intros Ho Hf. revert H6. rewrite !app_assoc, !wake_count_app, !wake_count_one. cbn. auto.
  - intros Ho. revert H7. rewrite !app_assoc, !wake_count_app, !wake_count_one. cbn. auto.
  - done.
  - intros st Ho Hst. by apply (Ha Ho).
  - intros st Ho Hst. by apply (Ha Ho).
Qed.

(** [after_send] gives the line [l'] and the state this says. *)
Lemma send_frame_line_ok id l w rd at_ state offered rejections s :
  line_ok id l w rd at_ state offered rejections ->
  let '(sent, l') := send_or_mark_frame_owed (Frame s) l in
  line_ok id l' w rd at_ state offered rejections.
Proof.
  intros Hl. pose proof (lo_capacity _ _ _ _ _ _ _ _ Hl) as Hcap. unfold send_or_mark_frame_owed, try_send_frame.
  destruct (is_receiver_closed (line_queue l)) eqn:Ho; [done|].
  assert (line_ok id (set_queue (with_deliveries (deliveries (line_queue l) ++ [Frame s]) (line_queue l)) l) w rd at_ state
    offered rejections \/ (capacity (line_queue l) <= length (deliveries (line_queue l)))%nat) as Hput.
  { destruct (Nat.leb_spec (capacity (line_queue l)) (length (deliveries (line_queue l)))); [by right|left].
    eapply enqueue_ok; [exact Hl|done|lia|done|]. apply accounts_frame. by apply (line_accounts id l w rd at_). }
  destruct (last (deliveries (line_queue l))) as [[s0| |]|] eqn:El;
    try (destruct (Nat.leb_spec (capacity (line_queue l)) (length (deliveries (line_queue l))));
         [by apply mark_frame_owed_ok|destruct Hput; [done|lia]]).
  apply last_Some in El as [front El]. rewrite El, removelast_last. by eapply replace_frame_ok.
Qed.

Lemma resync_line_ok id l w rd at_ offered rejections snapshot notifications dropped held lost_runs :
  line_ok id l w rd at_ (Some (Desynced dropped held lost_runs)) offered rejections ->
  let '(sent, l') := send_or_mark_frame_owed (Snapshot snapshot (MkResync dropped notifications held lost_runs)) l in
  line_ok id l' w rd at_ (match sent with None => Some Live | Some _ => Some (Desynced dropped held lost_runs) end) offered rejections
  /\ (sent = Some Full -> is_frame_owed (writer_handoff l') = true).
Proof.
  intros Hl. pose proof (lo_capacity _ _ _ _ _ _ _ _ Hl) as Hcap. pose proof (line_accounts _ _ _ _ _ _ _ _ Hl) as Ha.
  unfold send_or_mark_frame_owed.
  destruct (try_send_cases (Snapshot snapshot (MkResync dropped notifications held lost_runs)) (line_queue l))
    as [[Ho ->]|[(Ho & Hfull & ->)|(Ho & Hroom & ->)]].
  - by split.
  - split; [by apply mark_frame_owed_ok|done].
  - split; [|done]. eapply enqueue_ok; [exact Hl|done|lia|done|]. intros st [= <-].
    destruct (Ha Ho _ eq_refl) as [-> [H1 H2 H3]]. cbn in H1, H2, H3. split.
    + rewrite (counted_total_app (log_of l rd)), counted_total_one. cbn. lia.
    + split; cbn; [| |lia]; rewrite (told_all_app (log_of l rd)), told_all_one, app_nil_r; [done|].
      rewrite (lost_total_app (log_of l rd)), lost_total_one. cbn. intros. apply H2; [lia|done].
Qed.

(** A send on the queue of a live subscriber. *)
Lemma send_line_ok id l w rd at_ offered offered' rejections rejections' d on_full :
  line_ok id l w rd at_ (Some Live) offered rejections -> is_wake d = false ->
  (is_receiver_closed (line_queue l) = false -> accounts_ok (log_of l rd ++ [d]) (Some Live) offered' rejections') ->
  (is_receiver_closed (line_queue l) = false -> accounts_ok (log_of l rd) (Some on_full) offered' rejections') ->
  let '(sent, l') := send_on_line d l in
  line_ok id l' w rd at_ (match sent with None => Some Live | Some Full => Some on_full | Some Disconnected => None end)
    offered' rejections'.
Proof.
  intros Hl Hw Hput Hfull. pose proof (lo_capacity _ _ _ _ _ _ _ _ Hl) as Hcap. unfold send_on_line.
  destruct (try_send_cases d (line_queue l)) as [[Ho ->]|[(Ho & Hf & ->)|(Ho & Hroom & ->)]].
  - eapply restated_ok; [exact Hl|]. congruence.
  - eapply restated_ok; [exact Hl|done].
  - eapply enqueue_ok; [exact Hl|done|lia|done|auto].
Qed.

Lemma delivery_line_ok id l w rd at_ offered rejections d :
  line_ok id l w rd at_ (Some Live) offered rejections -> is_addressed d = true ->
  let '(sent, l') := send_on_line d l in
  line_ok id l' w rd at_
    (match sent with None => Some Live | Some Full => Some (from_dropped_event_count 1) | Some Disconnected => None end)
    (offered + 1) rejections.
Proof.
  intros Hl Hd. assert (is_plain d /\ counted d = 1) as [Hp Hone] by (unfold is_plain; destruct d as [| |[]]; done).
  eapply send_line_ok; [exact Hl|by destruct Hp as (_ & _ & ?)| |]; intros Ho.
  - rewrite <- Hone. apply accounts_enqueue; [done|]. by eapply line_accounts.
  - apply (accounts_drop _ Live _ offered); [done|done|cbn; lia|by eapply line_accounts].
Qed.

Lemma reject_live_line_ok id l w rd at_ offered rejections command_id r :
  line_ok id l w rd at_ (Some Live) offered rejections ->
  let '(sent, l') := send_on_line (rejection_delivery command_id r) l in
  line_ok id l' w rd at_
    (match sent with
     | None => Some Live
     | Some Full => Some (Desynced 0 [MkHeldCommandRejection (fired_action r) (reject_reason r) (help r) 1] 0)
     | Some Disconnected => None
     end) offered (rejections ++ [r]).
Proof.
  intros Hl. pose proof (line_accounts _ _ _ _ _ _ _ _ Hl) as Ha. destruct r as [fired reason hint].
  eapply send_line_ok; [exact Hl|done| |]; intros Ho st [= <-]; destruct (Ha Ho _ eq_refl) as [-> [H1 H2 H3]]; cbn in H1, H2;
    rewrite app_nil_r in H1, H2.
  - split; [rewrite (counted_total_app (log_of l rd)), counted_total_one; cbn; lia|].
    split; cbn; [| |lia]; rewrite (told_all_app (log_of l rd)), told_all_one, app_nil_r; cbn; [by apply sublist_app|].
    rewrite (lost_total_app (log_of l rd)), lost_total_one, length_app. cbn. intros. f_equal. apply H2; lia.
  - split; [done|]. split; cbn; [by apply sublist_app| |unfold MAX_HELD_COMMAND_REJECTION_COUNT; lia].
    rewrite length_app. cbn. intros. f_equal. apply H2; lia.
Qed.

Lemma reject_desynced_line_ok id l w rd at_ offered rejections r dropped held lost_runs held' lost_runs' :
  line_ok id l w rd at_ (Some (Desynced dropped held lost_runs)) offered rejections ->
  hold_command_rejection held lost_runs r = (held', lost_runs') ->
  line_ok id l w rd at_ (Some (Desynced dropped held' lost_runs')) offered (rejections ++ [r]).
Proof.
  intros Hl Hh. eapply restated_ok; [exact Hl|]. intros Ho st [= <-].
  destruct (line_accounts _ _ _ _ _ _ _ _ Hl Ho _ eq_refl) as [-> [H1 H2 H3]]. cbn [held_of lost_of] in H1, H2, H3.
  destruct (hold_ok held lost_runs r held' lost_runs' H3 Hh) as (Hs & Hb & He). split; [done|]. split; cbn [held_of lost_of]; [| |done].
  - etrans; [apply sublist_app; [reflexivity|exact Hs]|]. rewrite app_assoc. by apply sublist_app.
  - rewrite length_app. cbn [length]. intros Hlost Hlen. destruct He as [-> He]; [lia|].
    assert (told_all (log_of l rd) ++ expand_held held = rejections) as E by (apply H2; lia).
    rewrite He; [by rewrite app_assoc, E|]. rewrite <- E, length_app in Hlen. lia.
Qed.

(** ** A line under the rest of the steps *)

Definition at_line (id : N) (a : DispatcherAt) : Prop := a = AddedHostWrite id \/ a = OwesWake id \/ a = DroppedWake id.

Lemma elsewhere_ok id l w rd at_ at_' state offered rejections :
  ~ at_line id at_ -> line_ok id l w rd at_ state offered rejections -> line_ok id l w rd at_' state offered rejections
  \/ at_line id at_'.
Proof.
  intros Hn [H1 H2 H3 H4 H5 H6 H7 Hset H8 H9].
  assert (at_line id at_' \/ ~ at_line id at_') as [?|Hn'].
  { unfold at_line. destruct at_' as [|i|i|i]; [right; by intros [|[|]]|destruct (decide (i = id)) as [->|]..];
      (left; by eauto) || (right; intros [|[|]]; congruence). }
  { by right. }
  left. unfold at_line in *. split; try done.
  - intros Hh Hw. destruct (H5 Hh Hw) as [?|[?|?]]; [by left|exfalso; auto..].
  - intros Ho Hf. destruct (H6 Ho Hf) as [?|[?|[?|?]]]; [by left|by right; left|exfalso; auto..].
  - intros Ho. destruct (H7 Ho) as [? H]. split; [done|]. intros [?|[?|?]]; [auto|exfalso; auto..].
  - intros _ [?|?]; exfalso; auto.
Qed.

Lemma add_host_write_ok id l w rd h state offered rejections x :
  line_ok id l w rd Idle state offered rejections -> add_host_write x (writer_handoff l) = Some h ->
  line_ok id (set_handoff h l) w rd (AddedHostWrite id) state offered rejections.
Proof.
  intros [H1 H2 H3 H4 H5 H6 H7 Hset H8 H9]. unfold add_host_write. destruct (_ && _); [done|]. intros [= <-].
  split; try done; cbn.
  - intros _ _. right. by left.
  - intros Ho Hf. destruct (H6 Ho Hf) as [?|[?|[?|?]]]; [by left|by right; left|done..].
  - intros Ho. destruct (H7 Ho) as [? H]. split; [done|]. intros [?|[?|?]]; [auto|done..].
  - by intros _ [?|?].
Qed.

Lemma swap_wake_ok id l w rd state offered rejections :
  line_ok id l w rd (AddedHostWrite id) state offered rejections ->
  line_ok id (set_handoff (set_queued_wake (writer_handoff l)) l) w rd
    (if is_wake_queued (writer_handoff l) then Idle else OwesWake id) state offered rejections.
Proof.
  intros [H1 H2 H3 H4 H5 H6 H7 Hset H8 H9]. destruct (is_wake_queued (writer_handoff l)) eqn:Ef; split; try done; cbn.
  - intros _ Hw. left. assert (is_receiver_closed (line_queue l) = false) as Ho by (apply H3; split; congruence).
    subst w. destruct (H6 Ho eq_refl) as [H|[?|[?|?]]]; [|done..]. intros E. rewrite E in H. unfold wake_count in H. cbn in H. lia.
  - intros Ho _. destruct (H6 Ho eq_refl) as [?|[?|[?|?]]]; [by left|by right; left|done..].
  - intros Ho. destruct (H7 Ho) as [? _]. split; [done|]. by intros [?|[?|?]].
  - intros _ _. right. by right.
  - intros _ _. right. right. by left.
  - intros Ho. destruct (H7 Ho) as [? H]. split; [done|]. intros _. apply H. by left.
Qed.

Lemma send_wake_ok id l w rd state offered rejections :
  line_ok id l w rd (OwesWake id) state offered rejections ->
  match try_send wake_delivery (line_queue l) with
  | inr (q, _) => line_ok id (set_queue q l) w rd Idle state offered rejections
  | inl Full => line_ok id l w rd (DroppedWake id) state offered rejections
  | inl Disconnected => line_ok id (drop_line_sender l) w rd Idle None offered rejections
  end.
Proof.
  intros Hl. pose proof (line_accounts _ _ _ _ _ _ _ _ Hl) as Ha. destruct Hl as [H1 H2 H3 H4 H5 H6 H7 Hset H8 H9].
  destruct (try_send_cases wake_delivery (line_queue l)) as [[Ho ->]|[(Ho & Hf & ->)|(Ho & Hroom & ->)]].
  - assert (forall P : Prop, w = Receiving -> P) as Hclosed.
    { intros P ->. assert (is_receiver_closed (line_queue l) = false) by (apply H3; done). congruence. }
    split; try done; cbn; try congruence. intros _ Hw. by apply Hclosed.
  - assert (deliveries (line_queue l) <> []) as Hne.
    { rewrite H1 in Hf. unfold SUBSCRIBER_QUEUE_CAPACITY in Hf. destruct (deliveries (line_queue l)); [cbn in Hf; lia|done]. }
    split; try done.
    + intros _ _. by left.
    + intros _ _. right. right. by right.
    + intros _. destruct (H7 Ho) as [? H]. split; [done|]. intros _. apply H. right. by left.
    + intros _ _. apply Hset; [done|by left].
  - destruct (H7 Ho) as [_ Hzero]. specialize (Hzero (or_intror (or_introl eq_refl))).
    split; cbn [line_queue writer_handoff set_queue with_deliveries deliveries capacity is_receiver_closed]; try done.
    + rewrite length_app. cbn [length]. lia.
    + intros _ _. right. right. by destruct (deliveries (line_queue l)).
    + intros _ _. left. by destruct (deliveries (line_queue l)).
    + intros _ _. left. rewrite app_assoc, wake_count_app, wake_count_one. cbn. lia.
    + intros _. rewrite app_assoc, wake_count_app, wake_count_one, Hzero. cbn. split; [done|]. intros [Hf|[?|?]]; [|done..].
      rewrite Hset in Hf; [done|done|by left].
    + by intros _ [?|?].
    + intros st _ Hst. rewrite app_assoc. destruct (Ha Ho st Hst) as [-> _]. rewrite (counted_total_app (log_of l rd)), counted_total_one.
      cbn. lia.
    + intros st _ Hst. rewrite app_assoc. destruct (Ha Ho st Hst) as [_ [R1 R2 R3]].
      split; [| |done]; rewrite (told_all_app (log_of l rd)), told_all_one, app_nil_r; [done|].
      rewrite (lost_total_app (log_of l rd)), lost_total_one. cbn. intros. apply R2; [lia|done].
Qed.

Lemma clear_wake_ok id l w rd state offered rejections :
  line_ok id l w rd (DroppedWake id) state offered rejections ->
  line_ok id (set_handoff (clear_queued_wake (writer_handoff l)) l) w rd Idle state offered rejections.
Proof.
  intros [H1 H2 H3 H4 H5 H6 H7 Hset H8 H9]. split; try done; cbn.
  - intros Hh Hw. destruct (H5 Hh Hw) as [?|[?|?]]; [by left|done..].
  - intros Ho. destruct (H7 Ho) as [? H]. split; [done|]. intros _. apply H. right. by right.
  - by intros _ [?|?].
Qed.

(** ** A line under its writing thread *)

Lemma top_ok id l rd at_ state offered rejections :
  line_ok id l AtTop rd at_ state offered rejections ->
  line_ok id (set_handoff (take_host_write_bytes (writer_handoff l)).2 l) Receiving rd at_ state offered rejections.
Proof.
  intros [H1 H2 H3 H4 H5 H6 H7 Hset H8 H9]. split; try done; cbn.
  - rewrite H3. by split.
  - intros Ho Hw. destruct (H4 Ho Hw) as [[d ?]|[?|?]]; [done|done|by right; right].
  - intros Ho Hf. destruct (H6 Ho Hf) as [?|[?|?]]; [by left|done|by right; right].
Qed.

Lemma leave_ok id l w rd at_ state offered rejections :
  is_in_loop w = true -> line_ok id l w rd at_ state offered rejections -> line_ok id l Leaving rd at_ state offered rejections.
Proof.
  intros Hw [H1 H2 H3 H4 H5 H6 H7 Hset H8 H9].
  assert (is_receiver_closed (line_queue l) = false) as Ho by (apply H3; by destruct w).
  assert (wake_count (pending Leaving ++ deliveries (line_queue l)) <= wake_count (pending w ++ deliveries (line_queue l)))%nat as Hle.
  { rewrite !wake_count_app. cbn. lia. }
  destruct (H7 Ho) as [Hone Hzero]. split; try done.
  - intros _ _. right. by left.
  - intros _ _. right. by left.
  - intros _. split; [lia|]. intros H. specialize (Hzero H). lia.
Qed.

Lemma receive_delivery_ok id l rd at_ state offered rejections d ds :
  line_ok id l Receiving rd at_ state offered rejections -> deliveries (line_queue l) = d :: ds ->
  line_ok id (set_queue (with_deliveries ds (line_queue l)) l) (HasDelivery d) (rd ++ [d]) at_ state offered rejections.
Proof.
  intros [H1 H2 H3 H4 H5 H6 H7 Hset H8 H9] Ed. rewrite Ed in *.
  split; cbn [line_queue writer_handoff set_queue with_deliveries deliveries capacity is_receiver_closed]; try done.
  - cbn [length] in H2. lia.
  - rewrite H3. by split.
  - intros _ _. left. by eexists.
  - intros Ho Hf. destruct (H6 Ho Hf) as [?|[?|?]]; [by left|done|by right; right].
  - intros s. rewrite <- app_assoc. apply H8.
  - intros s. rewrite <- app_assoc. apply H9.
Qed.

(** The queue keeps its deliveries, and so does the handoff. *)
Lemma requeue_ok id l w w' rd at_ state offered rejections q :
  line_ok id l w rd at_ state offered rejections -> deliveries q = deliveries (line_queue l) ->
  capacity q = capacity (line_queue l) -> is_receiver_closed q = is_receiver_closed (line_queue l) ->
  w' = w \/ (w = Receiving /\ (w' = AtTop \/ w' = Leaving)) ->
  line_ok id (set_queue q l) w' rd at_ state offered rejections.
Proof.
  intros [H1 H2 H3 H4 H5 H6 H7 Hset H8 H9] E1 E2 E3 Hw.
  assert ((w' <> ReceiverDropped /\ w' <> Ended) <-> (w <> ReceiverDropped /\ w <> Ended)) as E4.
  { destruct Hw as [->|[-> [-> | ->]]]; by split. }
  assert (pending w' = pending w) as Ep by (by destruct Hw as [->|[-> [-> | ->]]]).
  split; cbn [line_queue writer_handoff set_queue]; rewrite ?E1, ?E2, ?E3, ?Ep; try done.
  - by rewrite H3, E4.
  - intros Ho Hf. destruct (H4 Ho Hf) as [[d Hd]|[?|?]]; [|destruct Hw as [->|[-> _]]; [by right; left|done]|by right; right].
    destruct Hw as [->|[-> _]]; [left; by exists d|done].
  - intros Hh Hr. destruct Hw as [->|[-> [-> | ->]]]; [by apply H5|done..].
  - intros Ho Hf. destruct (H6 Ho Hf) as [?|[?|?]]; [by left| |by right; right].
    destruct Hw as [->|[-> _]]; [by right; left|done].
Qed.

Lemma receive_ok id l rd at_ state offered rejections allowed ending passed r q :
  line_ok id l Receiving rd at_ state offered rejections ->
  recv_paced_pass allowed ending passed (line_queue l) = Some (r, q) ->
  line_ok id (set_queue q l) (after_receive r) (match r with ReceivedDelivery d => rd ++ [d] | _ => rd end) at_ state offered rejections.
Proof.
  intros Hl. unfold recv_paced_pass.
  assert (forall r', after_receive r' = AtTop \/ after_receive r' = Leaving ->
    match r' with ReceivedDelivery _ => False | _ => True end -> (if passed then Some (TimedOut, line_queue l) else None) = Some (r, q)
    \/ Some (r', line_queue l) = Some (r, q) ->
    line_ok id (set_queue q l) (after_receive r) (match r with ReceivedDelivery d => rd ++ [d] | _ => rd end) at_ state offered rejections)
    as Hsame.
  { intros r' Hw Hr [H|H].
    - destruct passed; [|done]. injection H as <- <-. eapply requeue_ok; [exact Hl|done|done|done|by right; split; [|left]].
    - injection H as <- <-. destruct r'; try done; (eapply requeue_ok; [exact Hl|done|done|done|right; by split]). }
  destruct (painted_update_report (line_queue l)).
  { intros [= <- <-]. eapply requeue_ok; [exact Hl|done|done|done|right; split; [done|by left]]. }
  destruct ending.
  { intros H. apply (Hsame DeliveryQueue.SessionEnding); [by left|done|by right]. }
  destruct (is_head_held allowed (line_queue l)).
  { intros H. apply (Hsame TimedOut); [by left|done|by left]. }
  destruct (deliveries (line_queue l)) as [|d ds] eqn:Ed.
  - destruct (is_sender_closed (line_queue l)); intros H; [apply (Hsame Closed); [by right|done|by right]|
      apply (Hsame TimedOut); [by left|done|by left]].
  - intros [= <- <-]. by apply receive_delivery_ok.
Qed.

Lemma take_mark_ok id l rd at_ state offered rejections d :
  line_ok id l (HasDelivery d) rd at_ state offered rejections ->
  line_ok id (set_handoff (take_owed_frame_mark (writer_handoff l)).2 l) (Marked d) rd at_ state offered rejections.
Proof.
  intros [H1 H2 H3 H4 H5 H6 H7 Hset H8 H9]. split; try done; cbn.
  - rewrite H3. by split.
  - intros Ho Hf. destruct (H6 Ho Hf) as [?|[?|?]]; [by left|done|by right; right].
Qed.

Lemma finish_ok id l rd at_ state offered rejections d :
  line_ok id l (Marked d) rd at_ state offered rejections ->
  line_ok id (finish_delivery d l).1 (finish_delivery d l).2 rd at_ state offered rejections.
Proof.
  intros Hl. pose proof Hl as [H1 H2 H3 H4 H5 H6 H7 Hset H8 H9].
  assert (is_receiver_closed (line_queue l) = false) as Ho by (by apply H3).
  assert (is_frame_owed (writer_handoff l) = true -> deliveries (line_queue l) <> []) as Howed.
  { intros Hf. destruct (H4 Ho Hf) as [[? ?]|[?|?]]; done. }
  assert (is_wake d = false -> line_ok id l AtTop rd at_ state offered rejections) as Hother.
  { intros Hd. assert (wake_count (pending (Marked d) ++ deliveries (line_queue l)) = wake_count (deliveries (line_queue l))) as E.
    { rewrite wake_count_app. cbn [pending]. by rewrite wake_count_one, Hd. }
    rewrite E in H6, H7. split; try done.
    - intros _ Hf. right. right. by apply Howed.
    - intros _ Hf. destruct (H6 Ho Hf) as [?|[?|?]]; [by left|done|by right; right]. }
  destruct (is_wake d) eqn:Hd.
  - destruct d as [| |[]]; try done. cbn [finish_delivery fst snd]. destruct (H7 Ho) as [Hone Hzero].
    rewrite wake_count_app in Hone, Hzero. cbn [pending] in Hone, Hzero. rewrite wake_count_one in Hone, Hzero. cbn [is_wake] in Hone, Hzero.
    split; cbn [line_queue writer_handoff set_handoff clear_queued_wake]; try done.
    + intros _ Hf. right. right. by apply Howed.
    + intros _. split; [cbn [pending app]; lia|]. intros _. cbn [pending app]. lia.
    + intros _ Hat. exfalso. specialize (Hzero (or_intror Hat)). lia.
  - specialize (Hother eq_refl).
    assert (line_ok id l Leaving rd at_ state offered rejections) by (by eapply leave_ok; [|exact Hother]).
    by destruct d as [| |[]].
Qed.

Lemma leaving_takes_ok id l rd at_ state offered rejections d ds :
  line_ok id l Leaving rd at_ state offered rejections -> deliveries (line_queue l) = d :: ds ->
  line_ok id (set_queue (with_deliveries ds (line_queue l)) l) Leaving (rd ++ [d]) at_ state offered rejections.
Proof.
  intros [H1 H2 H3 H4 H5 H6 H7 Hset H8 H9] Ed. rewrite Ed in *. cbn [pending app] in *. rewrite wake_count_cons in *.
  split; cbn [line_queue writer_handoff set_queue with_deliveries deliveries capacity is_receiver_closed pending app]; try done.
  - cbn [length] in H2. lia.
  - intros _ _. right. by left.
  - intros _ _. right. by left.
  - intros Ho. destruct (H7 Ho) as [? Hz]. split; [lia|]. intros Hx. specialize (Hz Hx). lia.
  - intros s. rewrite <- app_assoc. apply H8.
  - intros s. rewrite <- app_assoc. apply H9.
Qed.

Lemma leaving_writes_ok id l rd at_ state offered rejections :
  line_ok id l Leaving rd at_ state offered rejections ->
  line_ok id (set_handoff (take_host_write_bytes (writer_handoff l)).2 l) Leaving rd at_ state offered rejections.
Proof. by intros [H1 H2 H3 H4 H5 H6 H7 Hset H8 H9]. Qed.

Lemma drop_receiver_ok id l rd at_ state offered rejections :
  line_ok id l Leaving rd at_ state offered rejections ->
  line_ok id (set_queue (drop_receiver (line_queue l)) l) ReceiverDropped rd at_ state offered rejections.
Proof. intros [H1 H2 H3 H4 H5 H6 H7 Hset H8 H9]. split; cbn; try done; [lia|]. split; [done|by intros [[] _]]. Qed.

Lemma end_ok id l rd at_ state offered rejections :
  line_ok id l ReceiverDropped rd at_ state offered rejections ->
  line_ok id (set_handoff (clear_queued_wake (writer_handoff l)) l) Ended rd at_ state offered rejections.
Proof.
  intros [H1 H2 H3 H4 H5 H6 H7 Hset H8 H9].
  assert (is_receiver_closed (line_queue l) = true) as Hc.
  { destruct (is_receiver_closed (line_queue l)) eqn:E; [done|]. by destruct (proj1 H3 eq_refl). }
  split; cbn; try done; rewrite ?Hc; try done. split; [done|by intros [_ []]].
Qed.

End lines.
