(* ===== verification/BusSteps.v ===== *)
(** * The bus: every step keeps every line *)

From S2P Require Import Prelude Varint PaintWindow DeliveryQueue EventBus WriterThread BusLines.
From stdpp Require Import functions gmap list options.
#[local] Open Scope N_scope.

Section steps.
Context `{T : BusTypes}.

Abbreviation BusDelivery := (Delivery RenderSnapshot Resync OtherDelivery).

(** ** The subscribers of a bus *)

Abbreviation ids_of b := (subscriber_id <$> subscribers b).

Lemma find_subscriber_Some id b i s :
  find_subscriber id b = Some (i, s) -> subscribers b !! i = Some s /\ subscriber_id s = id.
Proof. unfold find_subscriber. intros H. apply list_find_Some in H as (? & ? & _). done. Qed.

Lemma same_id_same (ss : list Subscriber) s s' :
  NoDup (subscriber_id <$> ss) -> s ∈ ss -> s' ∈ ss -> subscriber_id s = subscriber_id s' -> s = s'.
Proof.
  intros Hn Hs Hs' E. apply list_elem_of_lookup in Hs as [i Hi], Hs' as [j Hj].
  assert (i = j) as <-; [|congruence].
  assert ((subscriber_id <$> ss) !! i = Some (subscriber_id s)) as Ei by (by rewrite list_lookup_fmap, Hi).
  assert ((subscriber_id <$> ss) !! j = Some (subscriber_id s)) as Ej by (by rewrite list_lookup_fmap, Hj, E).
  by eapply NoDup_lookup.
Qed.

Lemma state_of_elem id b st :
  NoDup (ids_of b) -> state_of id b = Some st <-> MkSubscriber id st ∈ subscribers b.
Proof.
  intros Hn. unfold state_of. rewrite fmap_Some. split.
  - intros ([i s] & H & ->). apply find_subscriber_Some in H as [H <-]. cbn. apply list_elem_of_lookup. exists i. by destruct s.
  - intros H. destruct (find_subscriber id b) as [[i s]|] eqn:E.
    + exists (i, s). split; [done|]. apply find_subscriber_Some in E as [E Es]. cbn.
      assert (s = MkSubscriber id st) as ->; [|done]. apply (same_id_same (subscribers b)); [done|by eapply list_elem_of_lookup_2|done|done].
    + unfold find_subscriber in E. apply list_find_None in E. rewrite Forall_forall in E. by specialize (E _ H).
Qed.

Lemma state_of_None id b : state_of id b = None <-> id ∉ ids_of b.
Proof.
  unfold state_of. rewrite fmap_None. unfold find_subscriber. rewrite list_find_None, Forall_forall, list_elem_of_fmap.
  split; [intros H (s & -> & Hs); by apply (H s)|]. intros H s Hs E. apply H. by exists s.
Qed.

Lemma has_subscriber_spec id b : has_subscriber id b = true <-> state_of id b <> None.
Proof. unfold has_subscriber, state_of. rewrite bool_decide_eq_true. by destruct (find_subscriber id b). Qed.

(** Two buses agree on [id] where their subscribers of that id do. *)
Lemma state_of_ext id b b' :
  NoDup (ids_of b) -> NoDup (ids_of b') ->
  (forall st, MkSubscriber id st ∈ subscribers b <-> MkSubscriber id st ∈ subscribers b') -> state_of id b = state_of id b'.
Proof.
  intros Hn Hn' H. destruct (state_of id b) as [st|] eqn:E.
  - symmetry. by apply state_of_elem, H, state_of_elem.
  - destruct (state_of id b') as [st|] eqn:E'; [|done]. apply state_of_elem in E'; [|done]. apply H, state_of_elem in E'; [|done]. congruence.
Qed.

Lemma ids_of_set i id s' b s :
  subscribers b !! i = Some s -> subscriber_id s = id -> subscriber_id s' = id -> ids_of (set_subscriber i s' b) = ids_of b.
Proof.
  intros Hi E E'. cbn. rewrite list_fmap_insert. rewrite E'. apply list_insert_id. rewrite list_lookup_fmap, Hi. cbn. by rewrite E.
Qed.

Lemma state_of_set id0 i id s' b s :
  NoDup (ids_of b) -> find_subscriber id b = Some (i, s) -> subscriber_id s' = id ->
  state_of id0 (set_subscriber i s' b) = if decide (id0 = id) then Some (delivery_state s') else state_of id0 b.
Proof.
  intros Hn Hf E'. apply find_subscriber_Some in Hf as [Hi E]. pose proof (ids_of_set i id s' b s Hi E E') as Hids.
  assert (NoDup (ids_of (set_subscriber i s' b))) as Hn' by (by rewrite Hids). case_decide as Hid.
  - subst id0. apply state_of_elem; [done|]. cbn. apply list_elem_of_lookup. exists i.
    rewrite list_lookup_insert_eq by (by eapply lookup_lt_Some). by destruct s'; cbn in *; subst.
  - apply state_of_ext; [done|done|]. intros st. cbn. rewrite !list_elem_of_lookup. split; intros [j Hj].
    + destruct (decide (i = j)) as [->|Hne].
      * rewrite list_lookup_insert_eq in Hj by (by eapply lookup_lt_Some). injection Hj as ->. by cbn in E'.
      * rewrite list_lookup_insert_ne in Hj by done. by exists j.
    + exists j. rewrite list_lookup_insert_ne; [done|]. intros ->. rewrite Hi in Hj. injection Hj as ->. by cbn in E.
Qed.

Lemma delete_ids i id b s :
  NoDup (ids_of b) -> find_subscriber id b = Some (i, s) ->
  NoDup (subscriber_id <$> delete i (subscribers b))
  /\ forall s', s' ∈ delete i (subscribers b) <-> s' ∈ subscribers b /\ subscriber_id s' <> id.
Proof.
  intros Hn Hf. apply find_subscriber_Some in Hf as [Hi E]. rewrite delete_take_drop.
  pose proof (take_drop_middle _ _ _ Hi) as Em. rewrite <- Em in Hn. rewrite fmap_app, fmap_cons in Hn.
  rewrite NoDup_app, NoDup_cons in Hn. destruct Hn as (N1 & N2 & N3 & N4). split.
  - rewrite fmap_app, NoDup_app. split_and!; [done| |done]. intros x Hx Hx'. apply (N2 x Hx). by right.
  - intros s'. rewrite <- Em at 3. rewrite !elem_of_app, elem_of_cons. split.
    + intros [H|H]; split; eauto; intros E'.
      * apply (N2 (subscriber_id s')); [by apply list_elem_of_fmap_2|]. rewrite E', E. left.
      * apply N3. rewrite E, <- E'. by apply list_elem_of_fmap_2.
    + intros [[H|[->|H]] Hne]; [by left|done|by right].
Qed.

Lemma state_of_remove id0 i id b s :
  NoDup (ids_of b) -> find_subscriber id b = Some (i, s) ->
  state_of id0 (remove_subscriber i id b) = if decide (id0 = id) then None else state_of id0 b.
Proof.
  intros Hn Hf. destruct (delete_ids i id b s Hn Hf) as [Hn' He]. case_decide as Hid.
  - subst id0. apply state_of_None. cbn. rewrite list_elem_of_fmap. intros (s' & E & Hs'). apply He in Hs' as [_ ?]. done.
  - apply state_of_ext; [done|done|]. intros st. cbn. rewrite He. cbn. naive_solver.
Qed.

(** ** The bus as a whole *)

Lemma one_line_ok y y' id l' :
  bus_ok y -> NoDup (ids_of (bus y')) -> ids_of (bus y') ⊆ ids_of (bus y) ->
  lines (bus y') = <[id := l']> (lines (bus y)) ->
  (forall id0, id0 <> id -> writers y' id0 = writers y id0 /\ read y' id0 = read y id0
     /\ offered_count y' id0 = offered_count y id0 /\ offered_rejections y' id0 = offered_rejections y id0
     /\ state_of id0 (bus y') = state_of id0 (bus y)) ->
  dispatcher y' = dispatcher y \/ (forall id0, id0 <> id -> ~ at_line id0 (dispatcher y) /\ ~ at_line id0 (dispatcher y')) ->
  line_ok id l' (writers y' id) (read y' id) (dispatcher y') (state_of id (bus y')) (offered_count y' id) (offered_rejections y' id) ->
  bus_ok y'.
Proof.
  intros [H1 H2 H3] Hn Hsub El Hsame Hd Hl. split; [done| |].
  - intros s Hs. rewrite El. destruct (decide (subscriber_id s = id)) as [->|Hne]; [rewrite lookup_insert_eq; by eexists|].
    rewrite lookup_insert_ne by done. assert (subscriber_id s ∈ ids_of (bus y)) as Hin by (apply Hsub; by apply list_elem_of_fmap_2).
    apply list_elem_of_fmap in Hin as (s' & -> & Hs'). by apply H2.
  - intros id0 l0 H. rewrite El in H. apply lookup_insert_Some in H as [[<- <-]|[Hne H]]; [done|].
    destruct (Hsame id0) as (-> & -> & -> & -> & ->); [done|]. specialize (H3 id0 l0 H).
    destruct Hd as [->|Hd]; [done|]. destruct (Hd id0) as [Ha Ha']; [done|].
    by destruct (elsewhere_ok _ _ _ _ _ (dispatcher y') _ _ _ Ha H3).
Qed.

Definition sent_state (sent : option SendError) (on_sent on_full : DeliveryState) : option DeliveryState :=
  match sent with None => Some on_sent | Some Full => Some on_full | Some Disconnected => None end.

Definition sent_line (sent : option SendError) (l : Line) : Line :=
  match sent with Some Disconnected => drop_line_sender l | _ => l end.

Lemma set_line_state id0 id l b : state_of id0 (set_line id l b) = state_of id0 b.
Proof. done. Qed.

Lemma after_send_facts i id s sent l on_sent on_full b :
  NoDup (ids_of b) -> find_subscriber id b = Some (i, s) ->
  let b' := after_send i id sent l on_sent on_full b in
  NoDup (ids_of b') /\ ids_of b' ⊆ ids_of b /\ lines b' = <[id := sent_line sent l]> (lines b)
  /\ session_ending b' = session_ending b
  /\ forall id0, state_of id0 b' = if decide (id0 = id) then sent_state sent on_sent on_full else state_of id0 b.
Proof.
  intros Hn Hf. cbn zeta. pose proof (find_subscriber_Some _ _ _ _ Hf) as [Hi E].
  assert (forall st, let b' := set_subscriber i (MkSubscriber id st) (set_line id l b) in
    NoDup (ids_of b') /\ ids_of b' ⊆ ids_of b /\ lines b' = <[id := l]> (lines b) /\ session_ending b' = session_ending b
    /\ forall id0, state_of id0 b' = if decide (id0 = id) then Some st else state_of id0 b) as Hset.
  { intros st. cbn zeta. rewrite (ids_of_set i id (MkSubscriber id st) (set_line id l b) s Hi E eq_refl).
    split_and!; [done|done|done|done|]. intros id0. by rewrite (state_of_set id0 i id (MkSubscriber id st) (set_line id l b) s Hn Hf eq_refl). }
  destruct sent as [[|]|]; cbn [after_send sent_state sent_line]; [apply Hset| |apply Hset].
  destruct (delete_ids i id (set_line id l b) s Hn Hf) as [Hn' He]. split_and!; [done| | |done|].
  - intros x Hx. apply list_elem_of_fmap in Hx as (s' & -> & Hs'). apply He in Hs' as [Hs' _]. by apply list_elem_of_fmap_2.
  - cbn. apply map_eq. intros id0. destruct (decide (id0 = id)) as [->|Hne].
    + by rewrite lookup_alter_eq, !lookup_insert_eq.
    + by rewrite lookup_alter_ne, !lookup_insert_ne.
  - intros id0. by rewrite (state_of_remove id0 i id (set_line id l b) s Hn Hf).
Qed.

Lemma sent_line_ok id sent l w rd at_ state offered rejections :
  line_ok id l w rd at_ state offered rejections -> line_ok id (sent_line sent l) w rd at_ state offered rejections.
Proof. intros Hl. destruct sent as [[|]|]; [done|by apply drop_line_sender_ok|done]. Qed.

Lemma forget_state_ok id l w rd at_ state offered rejections :
  line_ok id l w rd at_ state offered rejections -> line_ok id l w rd at_ None offered rejections.
Proof. intros Hl. eapply restated_ok; [exact Hl|]. by intros _ s. Qed.

Lemma after_send_ok y y' i id s sent l on_sent on_full :
  bus_ok y -> find_subscriber id (bus y) = Some (i, s) -> bus y' = after_send i id sent l on_sent on_full (bus y) ->
  (forall id0, writers y' id0 = writers y id0 /\ read y' id0 = read y id0) -> dispatcher y' = dispatcher y ->
  (forall id0, id0 <> id -> offered_count y' id0 = offered_count y id0 /\ offered_rejections y' id0 = offered_rejections y id0) ->
  line_ok id l (writers y id) (read y id) (dispatcher y) (sent_state sent on_sent on_full) (offered_count y' id) (offered_rejections y' id) ->
  bus_ok y'.
Proof.
  intros Hy Hf Eb Hw Hd Ho Hl. destruct (after_send_facts i id s sent l on_sent on_full (bus y) (bo_distinct _ Hy) Hf)
    as (H1 & H2 & H3 & _ & H4).
  apply (one_line_ok y y' id (sent_line sent l)); rewrite ?Eb; try done.
  - intros id0 Hne. destruct (Hw id0) as [-> ->]. destruct (Ho id0 Hne) as [-> ->]. rewrite H4. by rewrite decide_False.
  - by left.
  - destruct (Hw id) as [-> ->]. rewrite Hd, H4, decide_True by done. by apply sent_line_ok.
Qed.

Lemma deliver_keeps_id d e s l :
  match (deliver_to_subscriber d e s l).1 with Some s' => subscriber_id s' = subscriber_id s | None => True end.
Proof.
  unfold deliver_to_subscriber. destruct (delivery_state s); [destruct (try_send d (line_queue l)) as [[|]|[? ?]]; done|].
  destruct e; [|done]. by destruct (try_send d (line_queue l)) as [[|]|[? ?]].
Qed.

Lemma deliver_loop_spec d e ss ls :
  NoDup (subscriber_id <$> ss) -> (forall s, s ∈ ss -> is_Some (ls !! subscriber_id s)) ->
  forall ss' ls' removed, deliver_loop d e ss ls = (ss', ls', removed) ->
  (subscriber_id <$> ss') `sublist_of` (subscriber_id <$> ss)
  /\ (forall id, id ∉ subscriber_id <$> ss -> ls' !! id = ls !! id)
  /\ (forall s l, s ∈ ss -> ls !! subscriber_id s = Some l ->
        match deliver_to_subscriber d e s l with
        | (Some s', l') => s' ∈ ss' /\ ls' !! subscriber_id s = Some l'
        | (None, l') => subscriber_id s ∉ subscriber_id <$> ss' /\ ls' !! subscriber_id s = Some (drop_line_sender l')
        end).
Proof.
  revert ls. induction ss as [|s ss IH]; intros ls Hn Hls ss' ls' removed; cbn [deliver_loop].
  { intros [= <- <- <-]. split_and!; [done|done|]. intros s l Hs. by apply elem_of_nil in Hs. }
  apply NoDup_cons in Hn as [Hnotin Hn]. destruct (Hls s ltac:(left)) as [l Hl]. rewrite Hl.
  pose proof (deliver_keeps_id d e s l) as Hid.
  destruct (deliver_to_subscriber d e s l) as [kept l'] eqn:Ed. cbn in Hid.
  assert (forall l0, exists ss1 ls1 removed1, deliver_loop d e ss (<[subscriber_id s := l0]> ls) = (ss1, ls1, removed1)
    /\ (subscriber_id <$> ss1) `sublist_of` (subscriber_id <$> ss)
    /\ ls1 !! subscriber_id s = Some l0
    /\ (forall id, id ∉ subscriber_id <$> s :: ss -> ls1 !! id = ls !! id)
    /\ (forall s0 l1, s0 ∈ ss -> ls !! subscriber_id s0 = Some l1 ->
        match deliver_to_subscriber d e s0 l1 with
        | (Some s', l') => s' ∈ ss1 /\ ls1 !! subscriber_id s0 = Some l'
        | (None, l') => subscriber_id s0 ∉ subscriber_id <$> ss1 /\ ls1 !! subscriber_id s0 = Some (drop_line_sender l')
        end)) as Hrest.
  { intros l0. destruct (deliver_loop d e ss (<[subscriber_id s := l0]> ls)) as [[ss1 ls1] removed1] eqn:Er.
    destruct (IH (<[subscriber_id s := l0]> ls) Hn) with (2 := Er) as (H1 & H2 & H3).
    { intros s0 Hs0. destruct (decide (subscriber_id s = subscriber_id s0)) as [->|Hne]; [rewrite lookup_insert_eq; by eexists|].
      rewrite lookup_insert_ne by done. apply Hls. by right. }
    exists ss1, ls1, removed1. split_and!; [done|done| | |].
    - rewrite H2 by done. apply lookup_insert_eq.
    - intros id Hni. rewrite fmap_cons, not_elem_of_cons in Hni. rewrite H2 by (by apply Hni). apply lookup_insert_ne. naive_solver.
    - intros s0 l1 Hs0 Hl1. apply H3; [done|]. rewrite lookup_insert_ne; [done|]. intros E. apply Hnotin. rewrite E. by apply list_elem_of_fmap_2. }
  destruct kept as [s'|].
  - destruct (Hrest l') as (ss1 & ls1 & removed1 & -> & H1 & H2 & H3 & H4). intros [= <- <- <-]. split_and!; [|done|].
    + cbn. rewrite Hid. by apply sublist_skip.
    + intros s0 l1 Hs0 Hl1. apply elem_of_cons in Hs0 as [->|Hs0].
      * rewrite Hl in Hl1. injection Hl1 as <-. rewrite Ed. split; [left|done].
      * specialize (H4 s0 l1 Hs0 Hl1). destruct (deliver_to_subscriber d e s0 l1) as [[s0'|] l1']; destruct H4 as [H4 H5].
        -- split; [by right|done].
        -- split; [|done]. rewrite fmap_cons, Hid. apply not_elem_of_cons. split; [|done]. intros E. apply Hnotin.
           rewrite <- E. by apply list_elem_of_fmap_2.
  - destruct (Hrest (drop_line_sender l')) as (ss1 & ls1 & removed1 & -> & H1 & H2 & H3 & H4). intros [= <- <- <-]. split_and!; [|done|].
    + cbn. by apply sublist_cons.
    + intros s0 l1 Hs0 Hl1. apply elem_of_cons in Hs0 as [->|Hs0]; [|by apply H4].
      rewrite Hl in Hl1. injection Hl1 as <-. rewrite Ed. split; [|done]. intros Hin. apply Hnotin. by eapply elem_of_sublist.
Qed.

Lemma deliver_ok y y' d e :
  bus_ok y -> is_plain d -> counted d = 1 ->
  subscribers (bus y') = subscribers (deliver_to_every_subscriber d e (bus y)).1 ->
  lines (bus y') = lines (deliver_to_every_subscriber d e (bus y)).1 ->
  writers y' = writers y -> read y' = read y -> dispatcher y' = dispatcher y -> offered_rejections y' = offered_rejections y ->
  (forall id, offered_count y' id = if has_subscriber id (bus y) then offered_count y id + 1 else offered_count y id) ->
  bus_ok y'.
Proof.
  intros [Hn Hls Hlines] Hp Hone Es El Ew Er Ed Ej Eo. unfold deliver_to_every_subscriber in Es, El.
  destruct (deliver_loop d e (subscribers (bus y)) (lines (bus y))) as [[ss' ls'] removed] eqn:E. cbn in Es, El.
  destruct (deliver_loop_spec d e _ _ Hn Hls _ _ _ E) as (H1 & H2 & H3).
  assert (NoDup (ids_of (bus y'))) as Hn' by (rewrite Es; by eapply sublist_NoDup).
  assert (forall id st, state_of id (bus y) = Some st -> exists l, lines (bus y) !! id = Some l
    /\ let '(kept, l') := deliver_to_subscriber d e (MkSubscriber id st) l in
       state_of id (bus y') = delivery_state <$> kept
       /\ lines (bus y') !! id = Some (match kept with Some _ => l' | None => drop_line_sender l' end)) as Hsub.
  { intros id st Hst. apply state_of_elem in Hst; [|done]. destruct (Hls _ Hst) as [l Hl]. cbn in Hl. exists l. split; [done|].
    specialize (H3 _ l Hst Hl). pose proof (deliver_keeps_id d e (MkSubscriber id st) l) as Hid.
    destruct (deliver_to_subscriber d e (MkSubscriber id st) l) as [[s'|] l']; cbn in H3, Hid; destruct H3 as [H3 H4]; rewrite El; split; try done.
    - apply state_of_elem; [done|]. rewrite Es. cbn. destruct s'; cbn in *. by subst.
    - apply state_of_None. by rewrite Es. }
  split; [done| |].
  - intros s' Hs'. rewrite Es in Hs'. assert (subscriber_id s' ∈ ids_of (bus y)) as Hin.
    { eapply elem_of_sublist; [|exact H1]. by apply list_elem_of_fmap_2. }
    destruct (state_of (subscriber_id s') (bus y)) as [st|] eqn:Est; [|by apply state_of_None in Est].
    destruct (Hsub _ _ Est) as (l & _ & Hd). destruct (deliver_to_subscriber _ _ _ _) as [kept l']. destruct Hd as [_ ->]. by eexists.
  - intros id l' Hl'. rewrite Ew, Er, Ed, Ej, Eo. destruct (state_of id (bus y)) as [st|] eqn:Est.
    + rewrite (proj2 (has_subscriber_spec id (bus y))) by congruence. destruct (Hsub id st Est) as (l & Hl & Hd).
      pose proof (Hlines id l Hl) as Hok. rewrite Est in Hok.
      pose proof (deliver_line_ok id l _ _ _ (MkSubscriber id st) _ _ d e Hok Hp Hone) as Hd'.
      destruct (deliver_to_subscriber d e (MkSubscriber id st) l) as [[s'|] l1]; destruct Hd as [-> Hl1]; rewrite Hl' in Hl1; injection Hl1 as ->.
      * by destruct Hd'.
      * done.
    + destruct (has_subscriber id (bus y)) eqn:Eh; [by apply has_subscriber_spec in Eh|].
      apply state_of_None in Est as Hni. rewrite El, H2 in Hl' by done.
      assert (state_of id (bus y') = None) as ->.
      { apply state_of_None. rewrite Es. intros Hin. apply Hni. by eapply elem_of_sublist. }
      specialize (Hlines id l' Hl'). by rewrite Est in Hlines.
Qed.

(** ** Every step *)

Lemma new_line_ok id at_ : ~ at_line id at_ ->
  line_ok id (MkLine (create_delivery_queue SUBSCRIBER_QUEUE_CAPACITY) new_handoff) AtTop [] at_ (Some Live) 0 [].
Proof.
  intros Hat. split; cbn; try done.
  - lia.
  - intros _. split; [lia|done].
  - intros _ H. destruct Hat. destruct H as [H|H]; [right; by left|right; by right].
  - by intros s _ [= <-].
  - intros s _ [= <-]. split; cbn; [done|done|unfold MAX_HELD_COMMAND_REJECTION_COUNT; lia].
Qed.

Lemma fn_insert_eq {A} (f : N -> A) i x : <[i := x]> f i = x.
Proof. unfold insert, fn_insert. by rewrite decide_True. Qed.

Lemma fn_insert_ne {A} (f : N -> A) i j x : i <> j -> <[i := x]> f j = f j.
Proof. intros. unfold insert, fn_insert. by rewrite decide_False. Qed.

Lemma subscribe_ok y id :
  bus_ok y -> dispatcher y = Idle -> lines (bus y) !! id = None ->
  bus_ok (start_writer id (with_bus (subscribe id (bus y)) y)).
Proof.
  intros Hy Hd Hid. assert (id ∉ ids_of (bus y)) as Hni.
  { intros H. apply list_elem_of_fmap in H as (s & -> & Hs). destruct (bo_lines _ Hy s Hs). congruence. }
  assert (NoDup (ids_of (subscribe id (bus y)))) as Hn.
  { cbn. rewrite fmap_app. apply NoDup_app. split_and!; [apply Hy| |apply NoDup_singleton].
    intros x Hx Hx'. apply list_elem_of_singleton in Hx'. cbn in Hx'. by subst. }
  split; [done| |].
  - intros s Hs. cbn. destruct (decide (subscriber_id s = id)) as [->|Hne]; [rewrite lookup_insert_eq; by eexists|].
    rewrite lookup_insert_ne by done. cbn in Hs. apply elem_of_app in Hs as [Hs|Hs]; [by apply Hy|].
    apply list_elem_of_singleton in Hs. by subst.
  - intros id0 l Hl. cbn in Hl. cbn [writers read dispatcher offered_count offered_rejections bus start_writer with_bus].
    apply lookup_insert_Some in Hl as [[<- <-]|[Hne Hl]].
    + rewrite !fn_insert_eq. assert (state_of id (subscribe id (bus y)) = Some Live) as ->.
      { apply state_of_elem; [done|]. cbn. apply elem_of_app. right. by left. }
      apply new_line_ok. rewrite Hd. by intros [|[|]].
    + rewrite !fn_insert_ne by done. assert (state_of id0 (subscribe id (bus y)) = state_of id0 (bus y)) as ->.
      { apply state_of_ext; [done|apply Hy|]. intros st. cbn. rewrite elem_of_app, list_elem_of_singleton. naive_solver. }
      by apply Hy.
Qed.

Lemma filter_ids id (ss : list Subscriber) :
  (subscriber_id <$> filter (fun s => subscriber_id s <> id) ss) `sublist_of` (subscriber_id <$> ss).
Proof. induction ss as [|s ss IH]; [done|]. cbn. case_decide; [by apply sublist_skip|by apply sublist_cons]. Qed.

Lemma unsubscribe_ok y id : bus_ok y -> bus_ok (with_bus (unsubscribe id (bus y)) y).
Proof.
  intros Hy. assert (ids_of (unsubscribe id (bus y)) `sublist_of` ids_of (bus y)) as Hsub.
  { apply filter_ids. }
  assert (NoDup (ids_of (unsubscribe id (bus y)))) as Hn by (eapply sublist_NoDup; [apply Hy|exact Hsub]).
  assert (forall id0, state_of id0 (unsubscribe id (bus y)) = if decide (id0 = id) then None else state_of id0 (bus y)) as Hst.
  { intros id0. case_decide as E.
    - subst id0. apply state_of_None. cbn. rewrite list_elem_of_fmap. intros (s & E & Hs). apply list_elem_of_filter in Hs as [? _]. done.
    - apply state_of_ext; [done|apply Hy|]. intros st. cbn. rewrite list_elem_of_filter. cbn. naive_solver. }
  assert (forall id0 l, lines (unsubscribe id (bus y)) !! id0 = Some l ->
    exists l0, lines (bus y) !! id0 = Some l0 /\ (l = l0 \/ l = drop_line_sender l0)) as Hl.
  { intros id0 l. cbn. destruct (find_subscriber id (bus y)); [|by intros; exists l; auto].
    intros H. apply lookup_alter_Some in H as [(-> & l0 & H & ->)|[_ H]]; eauto. }
  split; [done| |].
  - intros s Hs. cbn in Hs. apply list_elem_of_filter in Hs as [Hne Hs]. destruct (bo_lines _ Hy s Hs) as [l Hls]. cbn.
    destruct (find_subscriber id (bus y)); [rewrite lookup_alter_ne by done|]; by exists l.
  - intros id0 l H. cbn [writers read dispatcher offered_count offered_rejections bus with_bus]. rewrite Hst.
    destruct (Hl id0 l H) as (l0 & Hl0 & Hor). pose proof (bo_line _ Hy id0 l0 Hl0) as Hok.
    assert (line_ok id0 l (writers y id0) (read y id0) (dispatcher y) (state_of id0 (bus y)) (offered_count y id0)
      (offered_rejections y id0)) as Hok' by (destruct Hor as [->| ->]; [done|by apply drop_line_sender_ok]).
    case_decide; [by eapply forget_state_ok|done].
Qed.

Lemma offer_none_ok y : bus_ok y -> bus_ok (offer (fun _ => false) y).
Proof. by intros [H1 H2 H3]. Qed.

Lemma publish_ok y event :
  bus_ok y ->
  bus_ok (offer (fun id => match event with OtherBusEvent _ => false | _ => has_subscriber id (bus y) end)
    (with_bus (publish event (bus y)).1 y)).
Proof.
  intros Hy. assert (forall d e b, subscribers b = subscribers (bus y) -> lines b = lines (bus y) ->
    (deliver_to_every_subscriber d e b).1 = MkEventBus (subscribers (deliver_to_every_subscriber d e (bus y)).1)
      (lines (deliver_to_every_subscriber d e (bus y)).1) (session_ending b)) as Hsame.
  { intros d e b E1 E2. unfold deliver_to_every_subscriber. rewrite E1, E2.
    by destruct (deliver_loop d e (subscribers (bus y)) (lines (bus y))) as [[ss ls] removed]. }
  destruct event as [committed| | |other]; cbn [publish].
  - by apply (deliver_ok y _ (DeliveryQueue.OtherDelivery (PanePlacementCommitted committed)) false).
  - rewrite Hsame by done. by apply (deliver_ok y _ (DeliveryQueue.OtherDelivery Quit) true).
  - rewrite Hsame by done. by apply (deliver_ok y _ (DeliveryQueue.OtherDelivery Restarting) true).
  - apply offer_none_ok. by destruct Hy.
Qed.

Lemma post_ok y revision entry :
  bus_ok y ->
  bus_ok (offer (fun id => has_subscriber id (bus y)) (with_bus (publish_notification_post revision entry (bus y)).1 y)).
Proof. intros Hy. by apply (deliver_ok y _ (DeliveryQueue.OtherDelivery (NotificationPosted revision entry)) false). Qed.

(** A subscriber found has its line. *)
Lemma found_line y id i s :
  bus_ok y -> find_subscriber id (bus y) = Some (i, s) ->
  s = MkSubscriber id (delivery_state s) /\ state_of id (bus y) = Some (delivery_state s)
  /\ exists l, lines (bus y) !! id = Some l.
Proof.
  intros Hy Hf. pose proof (find_subscriber_Some _ _ _ _ Hf) as [Hi E]. split_and!; [by destruct s; cbn in *; subst| |].
  - unfold state_of. by rewrite Hf.
  - destruct (bo_lines _ Hy s (list_elem_of_lookup_2 _ _ _ Hi)) as [l Hl]. rewrite E in Hl. by exists l.
Qed.

Lemma resync_ok y id snapshot notifications :
  bus_ok y -> bus_ok (with_bus (try_resync id snapshot notifications (bus y)).2 y).
Proof.
  intros Hy. assert (bus_ok (with_bus (bus y) y)) as Hsame by (by destruct Hy).
  unfold try_resync. destruct (find_subscriber id (bus y)) as [[i s]|] eqn:Hf; [|done].
  destruct (found_line y id i s Hy Hf) as (Es & Est & l & Hl). rewrite Hl. pose proof (bo_line _ Hy id l Hl) as Hok. rewrite Est in Hok.
  destruct (delivery_state s) as [|dropped held lost_runs] eqn:Eds; [done|].
  pose proof (resync_line_ok id l _ _ _ _ _ snapshot notifications _ _ _ Hok) as Hr.
  destruct (send_or_mark_frame_owed _ l) as [sent l']. destruct Hr as [Hr _].
  eapply (after_send_ok y _ i id s sent l'); [done|done|done|done|done|done|].
  destruct sent as [[|]|]; [done|by eapply forget_state_ok|done].
Qed.

Lemma bus_frame_ok y id snapshot : bus_ok y -> bus_ok (with_bus (bus_try_send_frame id snapshot (bus y)).2 y).
Proof.
  intros Hy. assert (bus_ok (with_bus (bus y) y)) as Hsame by (by destruct Hy).
  unfold bus_try_send_frame. destruct (find_subscriber id (bus y)) as [[i s]|] eqn:Hf; [|done].
  destruct (found_line y id i s Hy Hf) as (Es & Est & l & Hl). rewrite Hl. pose proof (bo_line _ Hy id l Hl) as Hok. rewrite Est in Hok.
  destruct (delivery_state s) as [|dropped held lost_runs] eqn:Eds; [|done]. cbn [is_live].
  pose proof (send_frame_line_ok id l _ _ _ _ _ _ snapshot Hok) as Hr. destruct (send_or_mark_frame_owed _ l) as [sent l'].
  eapply (after_send_ok y _ i id s sent l'); [done|done|done|done|done|done|].
  destruct sent as [[|]|]; [done|by eapply forget_state_ok|done].
Qed.

Lemma delivery_ok y id d :
  bus_ok y -> is_addressed d = true ->
  bus_ok (offer (fun id' => bool_decide (id' = id) && is_subscriber_live id (bus y)) (with_bus (try_send_delivery id d (bus y)).2 y)).
Proof.
  intros Hy Hd. assert (is_subscriber_live id (bus y) = false ->
    bus_ok (offer (fun id' => bool_decide (id' = id) && is_subscriber_live id (bus y)) (with_bus (bus y) y))) as Hsame.
  { intros ->. destruct Hy as [H1 H2 H3]. split; [done|done|]. intros id0 l H. cbn. rewrite andb_false_r. by apply H3. }
  unfold try_send_delivery. destruct (find_subscriber id (bus y)) as [[i s]|] eqn:Hf.
  2: { apply Hsame. unfold is_subscriber_live. by rewrite Hf. }
  destruct (found_line y id i s Hy Hf) as (Es & Est & l & Hl). rewrite Hl. pose proof (bo_line _ Hy id l Hl) as Hok. rewrite Est in Hok.
  assert (is_subscriber_live id (bus y) = is_live (delivery_state s)) as El by (unfold is_subscriber_live; by rewrite Hf).
  destruct (delivery_state s) as [|dropped held lost_runs] eqn:Eds; [|by apply Hsame]. rewrite El. cbn [is_live].
  pose proof (delivery_line_ok id l _ _ _ _ _ d Hok Hd) as Hr. destruct (send_on_line d l) as [sent l'].
  eapply (after_send_ok y _ i id s sent l'); [done|done|done|done|done| |].
  - intros id0 Hne. cbn. by rewrite bool_decide_eq_false_2.
  - cbn. rewrite bool_decide_eq_true_2 by done. cbn. exact Hr.
Qed.

Lemma reject_ok y id command_id r :
  bus_ok y -> bus_ok (offer_rejection id r (with_bus (send_command_rejection id command_id r (bus y)) y)).
Proof.
  intros Hy. unfold send_command_rejection. destruct (find_subscriber id (bus y)) as [[i s]|] eqn:Hf.
  2: { destruct Hy as [H1 H2 H3]. split; [done|done|]. intros id0 l H. cbn. destruct (decide (id = id0)) as [<-|Hne].
       - rewrite fn_insert_eq. assert (state_of id (bus y) = None) as E by (unfold state_of; by rewrite Hf). specialize (H3 id l H).
         rewrite E in *. eapply restated_ok; [exact H3|]. by intros _ s.
       - rewrite fn_insert_ne by done. by apply H3. }
  destruct (found_line y id i s Hy Hf) as (Es & Est & l & Hl). rewrite Hl. pose proof (bo_line _ Hy id l Hl) as Hok. rewrite Est in Hok.
  destruct (delivery_state s) as [|dropped held lost_runs] eqn:Eds.
  - pose proof (reject_live_line_ok id l _ _ _ _ _ command_id r Hok) as Hr.
    destruct (send_on_line (rejection_delivery command_id r) l) as [sent l'].
    eapply (after_send_ok y _ i id s sent l'); [done|done|done|done|done| |].
    + intros id0 Hne. cbn. by rewrite fn_insert_ne.
    + cbn. rewrite fn_insert_eq. exact Hr.
  - destruct (hold_command_rejection held lost_runs r) as [held' lost_runs'] eqn:Eh.
    pose proof (reject_desynced_line_ok id l _ _ _ _ _ r _ _ _ _ _ Hok Eh) as Hr.
    set (b := set_subscriber _ _ _). destruct (find_subscriber_Some _ _ _ _ Hf) as [Hi Eid].
    pose proof (fun st => ids_of_set i id (MkSubscriber id st) (bus y) s Hi Eid eq_refl) as Hids.
    apply (one_line_ok y _ id l); [done|cbn [bus offer_rejection with_bus]; subst b; rewrite Hids; apply Hy|
      cbn [bus offer_rejection with_bus]; subst b; by rewrite Hids| | |by left|].
    + cbn. by rewrite insert_id.
    + intros id0 Hne. cbn [bus offer_rejection with_bus writers read offered_count offered_rejections]. subst b.
      rewrite fn_insert_ne by done. rewrite (state_of_set id0 i id _ (bus y) s); [by rewrite decide_False|apply Hy|done|done].
    + cbn [bus offer_rejection with_bus writers read offered_count offered_rejections dispatcher]. subst b.
      rewrite fn_insert_eq, (state_of_set id i id _ (bus y) s); [|apply Hy|done|done]. by rewrite decide_True.
Qed.

(** A step that changes the line [id] alone. *)
Lemma line_step_ok y y' id l' :
  bus_ok y -> bus y' = set_line id l' (bus y) ->
  (forall id0, id0 <> id -> writers y' id0 = writers y id0 /\ read y' id0 = read y id0) ->
  offered_count y' = offered_count y -> offered_rejections y' = offered_rejections y ->
  dispatcher y' = dispatcher y \/ (forall id0, id0 <> id -> ~ at_line id0 (dispatcher y) /\ ~ at_line id0 (dispatcher y')) ->
  line_ok id l' (writers y' id) (read y' id) (dispatcher y') (state_of id (bus y)) (offered_count y id) (offered_rejections y id) ->
  bus_ok y'.
Proof.
  intros Hy Eb Hw Eo Ej Hd Hl. apply (one_line_ok y y' id l'); rewrite ?Eb, ?Eo, ?Ej; try done.
  - apply Hy.
  - intros id0 Hne. by destruct (Hw id0 Hne) as [-> ->].
Qed.

Lemma idle_elsewhere id : ~ at_line id Idle.
Proof. by intros [|[|]]. Qed.

Lemma other_line id id0 a : id0 <> id -> a = AddedHostWrite id \/ a = OwesWake id \/ a = DroppedWake id \/ a = Idle -> ~ at_line id0 a.
Proof. intros Hne [->|[->|[->| ->]]] [|[|]]; congruence. Qed.

Lemma dispatcher_step_ok y y' : bus_ok y -> dispatcher y = Idle -> dispatcher_step y y' -> bus_ok y'.
Proof.
  intros Hy Hd Hstep. destruct Hstep as [y id|y id|y event|y revision entry|y id snapshot notifications|y id snapshot|y id d|y id command_id r
    |y id i s l w h Hf Hl Hadd]; eauto using subscribe_ok, unsubscribe_ok, publish_ok, post_ok, resync_ok, bus_frame_ok, delivery_ok, reject_ok.
  eapply (line_step_ok y _ id (set_handoff h l)); try done.
  - right. intros id0 Hne. rewrite Hd. split; [apply idle_elsewhere|]. apply (other_line id); [done|by left].
  - cbn. eapply add_host_write_ok; [|exact Hadd]. rewrite <- Hd. by apply Hy.
Qed.

Lemma host_write_step_ok y y' : bus_ok y -> host_write_step y y' -> bus_ok y'.
Proof.
  intros Hy Hstep. destruct Hstep as [y id l Hd Hl|y id i s l Hd Hf Hl|y id l Hd Hl]; pose proof (bo_line _ Hy id l Hl) as Hok; rewrite Hd in Hok.
  - eapply (line_step_ok y _ id); try done.
    + right. intros id0 Hne. rewrite Hd. split; [apply (other_line id); auto|]. cbn.
      destruct (is_wake_queued (writer_handoff l)); apply (other_line id); auto.
    + by apply swap_wake_ok.
  - pose proof (send_wake_ok id l _ _ _ _ _ Hok) as Hsend. destruct (try_send wake_delivery (line_queue l)) as [[|]|[q n]].
    + destruct Hy as [H1 H2 H3]. split; [done|done|]. intros id0 l0 Hl0. cbn. destruct (decide (id0 = id)) as [->|Hne].
      * cbn in Hl0. rewrite Hl in Hl0. by injection Hl0 as <-.
      * destruct (elsewhere_ok _ _ _ _ _ (DroppedWake id) _ _ _ (other_line id id0 (dispatcher y) Hne ltac:(auto)) (H3 id0 l0 Hl0)) as [?|Hat]; [done|].
        exfalso. apply (other_line id id0 (DroppedWake id) Hne); auto.
    + destruct (after_send_facts i id s (Some Disconnected) l Live Live (bus y) (bo_distinct _ Hy) Hf) as (H1 & H2 & H3 & _ & H4).
      assert (remove_subscriber i id (bus y) = after_send i id (Some Disconnected) l Live Live (bus y)) as Erm.
      { unfold after_send, remove_subscriber, set_line. cbn. f_equal. by rewrite insert_id. }
      cbn [sent_line sent_state] in *. eapply (one_line_ok y _ id (drop_line_sender l)); cbn [bus with_dispatcher with_bus dispatcher]; rewrite ?Erm; try done.
      * intros id0 Hne. rewrite H4. by rewrite decide_False.
      * right. intros id0 Hne. rewrite Hd. split; apply (other_line id); auto.
      * rewrite H4, decide_True by done. exact Hsend.
    + eapply (line_step_ok y _ id); try done. right. intros id0 Hne. rewrite Hd. split; apply (other_line id); auto.
  - eapply (line_step_ok y _ id); try done.
    + right. intros id0 Hne. rewrite Hd. split; apply (other_line id); auto.
    + by apply clear_wake_ok.
Qed.

(** A step of the thread of the line [id]. *)
Lemma thread_step_ok y y' id l l' :
  bus_ok y -> lines (bus y) !! id = Some l -> bus y' = set_line id l' (bus y) -> dispatcher y' = dispatcher y ->
  offered_count y' = offered_count y -> offered_rejections y' = offered_rejections y ->
  (forall id0, id0 <> id -> writers y' id0 = writers y id0 /\ read y' id0 = read y id0) ->
  (forall at_ state offered rejections, line_ok id l (writers y id) (read y id) at_ state offered rejections ->
     line_ok id l' (writers y' id) (read y' id) at_ state offered rejections) -> bus_ok y'.
Proof.
  intros Hy Hl Eb Ed Eo Ej Hw Hstep. eapply (line_step_ok y _ id l'); [done|done|done|done|done|by left|].
  rewrite Ed. by apply Hstep, Hy.
Qed.

(** A step of the thread that leaves the bus. *)
Lemma thread_move_ok y id w :
  bus_ok y ->
  (forall l at_ state offered rejections, line_ok id l (writers y id) (read y id) at_ state offered rejections ->
     line_ok id l w (read y id) at_ state offered rejections) -> bus_ok (with_writer id w y).
Proof.
  intros [H1 H2 H3] Hstep. split; [done|done|]. intros id0 l Hl. cbn. destruct (decide (id = id0)) as [<-|Hne].
  - rewrite fn_insert_eq. by apply Hstep, H3.
  - rewrite fn_insert_ne by done. by apply H3.
Qed.

Lemma pong_ok id l rd at_ state offered rejections :
  line_ok id l Receiving rd at_ state offered rejections -> line_ok id l AtTop rd at_ state offered rejections.
Proof.
  intros Hl. assert (l = set_queue (line_queue l) l) as -> by (by destruct l).
  eapply requeue_ok; [exact Hl|done|done|done|right; split; [done|by left]].
Qed.

Ltac elsewhere := intros; cbn; by rewrite ?fn_insert_ne.

Lemma writer_step_ok id y y' : bus_ok y -> writer_step id y y' -> bus_ok y'.
Proof.
  intros Hy Hstep. destruct Hstep as [y l Hw He Hl|y Hw He|y l allowed passed r q Hw Hl Hr|y Hw|y l d Hw Hl|y l d Hw Hl|y Hw|y l d q Hw Hl Hr
    |y l Hw Hl|y l Hw Hl|y l Hw Hl|y l r Hl].
  - eapply (thread_step_ok y _ id l); try done; [elsewhere|]. intros at_ state offered rejections. cbn. rewrite fn_insert_eq, Hw. apply top_ok.
  - apply thread_move_ok; [done|]. intros l at_ state offered rejections. rewrite Hw. by apply leave_ok.
  - eapply (thread_step_ok y _ id l); try (by destruct r); [intros id0 Hne; destruct r; cbn; by rewrite ?fn_insert_ne|].
    intros at_ state offered rejections. rewrite Hw. intros Hok. pose proof (receive_ok _ _ _ _ _ _ _ _ _ _ _ _ Hok Hr) as H.
    destruct r; cbn; rewrite ?fn_insert_eq; exact H.
  - apply thread_move_ok; [done|]. intros l at_ state offered rejections. rewrite Hw. apply pong_ok.
  - eapply (thread_step_ok y _ id l (set_handoff (take_owed_frame_mark (writer_handoff l)).2 l));
      try (by destruct (is_frame_owed (writer_handoff l))).
    + destruct (is_frame_owed (writer_handoff l)); elsewhere.
    + intros at_ state offered rejections. rewrite Hw. intros Hok. apply take_mark_ok in Hok.
      destruct (is_frame_owed (writer_handoff l)); cbn; rewrite fn_insert_eq; exact Hok.
  - eapply (thread_step_ok y _ id l); try done; [elsewhere|]. intros at_ state offered rejections. cbn. rewrite fn_insert_eq, Hw. apply finish_ok.
  - apply thread_move_ok; [done|]. intros l at_ state offered rejections. by apply leave_ok.
  - assert (exists ds, deliveries (line_queue l) = d :: ds /\ q = with_deliveries ds (line_queue l)) as (ds & Ed & ->).
    { unfold try_recv in Hr. destruct (deliveries (line_queue l)) as [|d' ds]; [by destruct (is_sender_closed (line_queue l))|].
      injection Hr as -> <-. by exists ds. }
    eapply (thread_step_ok y _ id l); try done; [elsewhere|]. intros at_ state offered rejections. cbn. rewrite fn_insert_eq, Hw.
    intros Hok. by apply leaving_takes_ok.
  - eapply (thread_step_ok y _ id l); try done. intros at_ state offered rejections. cbn. rewrite Hw. apply leaving_writes_ok.
  - eapply (thread_step_ok y _ id l); try done; [elsewhere|]. intros at_ state offered rejections. cbn. rewrite fn_insert_eq, Hw. apply drop_receiver_ok.
  - eapply (thread_step_ok y _ id l); try done; [elsewhere|]. intros at_ state offered rejections. cbn. rewrite fn_insert_eq, Hw. apply end_ok.
  - assert (deliveries (report_painted_update r (line_queue l)) = deliveries (line_queue l)
      /\ capacity (report_painted_update r (line_queue l)) = capacity (line_queue l)
      /\ is_receiver_closed (report_painted_update r (line_queue l)) = is_receiver_closed (line_queue l)) as (E1 & E2 & E3).
    { unfold report_painted_update. destruct (painted_update_report (line_queue l)) as [r0|]; [|done].
      by destruct (report_update_sequence r0 <=? report_update_sequence r). }
    eapply (thread_step_ok y _ id l); try done. intros at_ state offered rejections Hok. cbn.
    eapply requeue_ok; [exact Hok|exact E1|exact E2|exact E3|by left].
Qed.

Lemma bus_step_ok y y' : bus_ok y -> bus_step y y' -> bus_ok y'.
Proof.
  intros Hy Hstep. destruct Hstep as [y y' Hd H|y y' H|id y y' H].
  - by apply (dispatcher_step_ok y).
  - by apply (host_write_step_ok y).
  - by apply (writer_step_ok id y).
Qed.

Lemma bus_reachable_ok y : bus_reachable y -> bus_ok y.
Proof.
  induction 1 as [|y y' _ IH Hstep]; [|by eapply bus_step_ok]. split; cbn; [constructor| |by intros].
  intros s Hs. by apply elem_of_nil in Hs.
Qed.
Lemma set_line_twice id l l' b : set_line id l (set_line id l' b) = set_line id l b.
Proof. unfold set_line. cbn. by rewrite insert_insert_eq. Qed.

(** [queue_host_write] with nothing in between is its steps one after the
    other. *)
Lemma queue_host_write_runs y id w :
  dispatcher y = Idle -> rtc bus_step y (with_bus (queue_host_write id w (bus y)).2 y).
Proof.
  destruct y as [b a ws rd fr oc or]. cbn. intros ->. unfold queue_host_write.
  destruct (find_subscriber id b) as [[i s]|] eqn:Ef; [|constructor].
  destruct (lines b !! id) as [l|] eqn:El; [|constructor].
  destruct (add_host_write w (writer_handoff l)) as [h|] eqn:Eh; [|constructor].
  eapply rtc_l; [apply by_dispatcher; [done|exact (step_add_host_write (MkBusSystem b Idle ws rd fr oc or) id i s l w h Ef El Eh)]|].
  eapply rtc_l; [apply by_host_write, (step_swap_wake _ id (set_handoff h l)); [done|apply lookup_insert_eq]|].
  cbn. unfold with_bus, with_dispatcher. cbn. rewrite set_line_twice.
  change (set_handoff (set_queued_wake h) (set_handoff h l)) with (set_handoff (set_queued_wake h) l).
  destruct (is_wake_queued h) eqn:Ew.
  { destruct h as [hw wq fo]. cbn in Ew. subst wq. constructor. }
  set (l' := set_handoff (set_queued_wake h) l). set (b' := set_line id l' b).
  assert (find_subscriber id b' = Some (i, s)) as Ef' by exact Ef.
  assert (lines b' !! id = Some l') as El' by apply lookup_insert_eq.
  eapply rtc_l; [apply by_host_write, (step_send_wake (MkBusSystem b' (OwesWake id) ws rd fr oc or) id i s l'); done|].
  unfold send_host_write_wake. destruct (try_send wake_delivery (line_queue l')) as [[]|[q ?]]; [|constructor..].
  eapply rtc_l; [apply by_host_write, (step_clear_dropped_wake _ id l'); done|]. constructor.
Qed.

End steps.
