(* ===== verification/BusContract.v ===== *)
(** * What the event bus promises
    ([crates/koshi-runtime/src/runtime/bus.rs], with the writing thread of
    [ipc_server.rs])

    What a subscriber misses is counted and told, its command rejections are
    kept, an owed frame and a waiting host write are seen by its writing thread,
    and a host write goes out whole. *)

From S2P Require Import Prelude Varint PaintWindow DeliveryQueue EventBus WriterThread BusLines BusSteps.
From stdpp Require Import functions gmap list options.
#[local] Open Scope N_scope.

(** ** Host writes on the wire *)

Section wire.
Context `{T : BusTypes}.

Lemma byte_chunks_spec fuel n bytes :
  (0 < n)%nat -> (length bytes <= fuel)%nat ->
  concat (byte_chunks fuel n bytes) = bytes
  /\ Forall (fun run => (0 < length run <= n)%nat) (byte_chunks fuel n bytes)
  /\ Forall (fun run => length run = n) (removelast (byte_chunks fuel n bytes)).
Proof.
  intros Hn. revert bytes. induction fuel as [|fuel IH]; intros bytes Hl; cbn [byte_chunks].
  { destruct bytes; [done|cbn in Hl; lia]. }
  destruct bytes as [|b bytes]; [done|]. set (rest := drop n (b :: bytes)).
  assert (length rest <= fuel)%nat as Hr by (unfold rest; rewrite length_drop; cbn [length] in *; lia).
  destruct (IH rest Hr) as (H1 & H2 & H3). split_and!.
  - cbn [concat]. rewrite H1. apply take_drop.
  - constructor; [|done]. rewrite length_take. cbn [length]. lia.
  - destruct (byte_chunks fuel n rest) as [|run runs] eqn:E; [done|].
    change (removelast (take n (b :: bytes) :: run :: runs)) with (take n (b :: bytes) :: removelast (run :: runs)).
    constructor; [|done]. rewrite length_take_le; [done|]. destruct (decide (n <= length (b :: bytes))%nat) as [|Hlt]; [done|].
    assert (rest = []) as Er by (unfold rest; apply drop_ge; lia). rewrite Er in E. by destruct fuel.
Qed.

Definition event_bytes (e : SessionEvent) : list N :=
  match e with HostWritePart bytes | HostWriteSent bytes => bytes | _ => [] end.

Lemma last_removelast_concat (runs : list (list N)) : concat (removelast runs) ++ default [] (last runs) = concat runs.
Proof.
  destruct runs as [|run runs] using rev_ind; [done|]. rewrite removelast_last, last_snoc. cbn.
  by rewrite concat_app, concat_cons, concat_nil, app_nil_r.
Qed.

Lemma host_write_events_spec n bytes :
  (0 < n)%nat ->
  exists parts final, build_wire_host_write_events_in n bytes = (HostWritePart <$> parts) ++ [HostWriteSent final]
    /\ concat parts ++ final = bytes /\ Forall (fun run => length run = n) parts /\ (length final <= n)%nat
    /\ (bytes <> [] -> final <> []).
Proof.
  intros Hn. destruct (byte_chunks_spec (length bytes) n bytes Hn) as (H1 & H2 & H3); [done|].
  eexists _, _. split; [done|]. split_and!; [by rewrite last_removelast_concat|done| |].
  - destruct (last (byte_chunks (length bytes) n bytes)) as [run|] eqn:E; [|cbn; lia].
    apply last_Some in E as [front E]. rewrite E in H2. apply Forall_app in H2 as [_ H2]. inversion H2; subst. cbn. lia.
  - intros Hne. destruct (last (byte_chunks (length bytes) n bytes)) as [run|] eqn:E.
    + apply last_Some in E as [front E]. rewrite E in H2. apply Forall_app in H2 as [_ H2]. inversion H2; subst. cbn.
      intros ->. cbn in *. lia.
    + apply last_None in E. rewrite E in H1. cbn in H1. congruence.
Qed.
End wire.

(** ** An example *)

#[local] Instance example_types : BusTypes := {| RenderSnapshot := N; PlacementCommitted := N; NotificationEntry := N;
  NotificationQueue := N; MouseAnswer := N; OtherEvent := N; ActionReference := N; RejectReason := N; Help := N |}.

(** Subscriber 1, and [n] notifications nobody reads. *)
Definition example_subscribed : BusSystem := start_writer 1 (with_bus (subscribe 1 new_event_bus) new_bus_system).

Definition example_post (y : BusSystem) : BusSystem :=
  offer (fun id => has_subscriber id (bus y)) (with_bus (publish_notification_post 0 0 (bus y)).1 y).

Definition example_posted (n : nat) : BusSystem := Nat.iter n example_post example_subscribed.

(** A frame then finds the queue full, a post and two equal rejections are
    missed, and a host write is added. *)
Definition example_rejection : Rejection := MkRejection (Some 4) 5 None.

Definition example_reject (y : BusSystem) : BusSystem :=
  offer_rejection 1 example_rejection (with_bus (send_command_rejection 1 9 example_rejection (bus y)) y).

Definition example_full : BusSystem :=
  let y := example_posted 1024 in
  let y := with_bus (bus_try_send_frame 1 7 (bus y)).2 y in
  example_reject (example_reject (example_post y)).

Lemma example_posted_reachable n : bus_reachable (example_posted n) /\ dispatcher (example_posted n) = Idle.
Proof.
  induction n as [|n [IH Hd]]; cbn.
  - split; [|done]. eapply bus_next; [apply bus_new|]. by apply by_dispatcher, step_subscribe.
  - split; [|done]. eapply bus_next; [exact IH|]. apply by_dispatcher; [done|]. apply step_post.
Qed.

Lemma example_full_reachable : bus_reachable example_full.
Proof.
  unfold example_full. destruct (example_posted_reachable 1024) as [H Hd]. generalize dependent (example_posted 1024).
  intros y H Hd. cbn zeta.
  eapply bus_next; [|by apply by_dispatcher, step_reject]. eapply bus_next; [|by apply by_dispatcher, step_reject].
  eapply bus_next; [|by apply by_dispatcher, step_post]. eapply bus_next; [exact H|by apply by_dispatcher, step_frame].
Qed.

(** ** What holds of every line *)

Section claims.
Context `{T : BusTypes}.

Lemma open_line y id l : bus_reachable y -> lines (bus y) !! id = Some l ->
  line_ok id l (writers y id) (read y id) (dispatcher y) (state_of id (bus y)) (offered_count y id) (offered_rejections y id).
Proof. intros Hy Hl. by apply bus_reachable_ok in Hy as [_ _ H]; apply H. Qed.

Lemma found_state y id i s : find_subscriber id (bus y) = Some (i, s) -> state_of id (bus y) = Some (delivery_state s).
Proof. intros H. unfold state_of. by rewrite H. Qed.

(** C13: Nothing a subscriber misses goes uncounted. In every interleaving
    of the bus and the writing threads, while a subscriber's thread keeps its
    queue, each delivery meant for it (an event or a notification to all, or an
    answer, a request or a switch while it was live) is one it read, one still
    on its queue, or one counted: in the lag of a resync snapshot it read or
    has queued, or in its delivery state. *)
Theorem missed_deliveries_are_counted y id i s l :
  bus_reachable y -> find_subscriber id (bus y) = Some (i, s) -> lines (bus y) !! id = Some l ->
  is_receiver_closed (line_queue l) = false ->
  offered_count y id = counted_total (read y id ++ deliveries (line_queue l)) + dropped_of (delivery_state s).
Proof.
  intros Hy Hf Hl Ho. pose proof (open_line y id l Hy Hl) as Hok. rewrite (found_state y id i s Hf) in Hok.
  by apply (lo_counted _ _ _ _ _ _ _ _ Hok).
Qed.

(** C14: A client learns of its rejected commands. The rejections its
    thread read, those queued, and those its delivery state holds, each run of
    equal ones written out, are the rejections the session sent it, in their
    order and without additions; none is missing as long as no run was dropped
    for room and a counter has not reached its end. At most 256 runs are
    held. *)
Theorem rejections_reach_their_client y id i s l :
  bus_reachable y -> find_subscriber id (bus y) = Some (i, s) -> lines (bus y) !! id = Some l ->
  is_receiver_closed (line_queue l) = false ->
  let log := read y id ++ deliveries (line_queue l) in
  let told := told_all log ++ expand_held (held_of (delivery_state s)) in
  told `sublist_of` offered_rejections y id
  /\ (lost_total log + lost_of (delivery_state s) = 0 -> N.of_nat (length (offered_rejections y id)) <= U32_MAX ->
      told = offered_rejections y id)
  /\ (length (held_of (delivery_state s)) <= MAX_HELD_COMMAND_REJECTION_COUNT)%nat.
Proof.
  intros Hy Hf Hl Ho. pose proof (open_line y id l Hy Hl) as Hok. rewrite (found_state y id i s Hf) in Hok.
  by destruct (lo_rejections _ _ _ _ _ _ _ _ Hok _ Ho eq_refl).
Qed.

(** C15: A subscriber owed a frame is offered a newer one. While the mark
    of an owed frame stands and the thread keeps its queue, the thread is out of
    its loop, or holds a delivery it has read and is about to take the mark and
    tell the session, or its queue holds a delivery, so a thread that may send
    frames does not wait. *)
Theorem owed_frames_are_heard y id l :
  bus_reachable y -> lines (bus y) !! id = Some l -> is_receiver_closed (line_queue l) = false ->
  is_frame_owed (writer_handoff l) = true ->
  writers y id = Leaving
  \/ (exists d, writers y id = HasDelivery d
        /\ exists y', writer_step id y y' /\ freed y' = freed y ++ [id] /\ is_line_owed id (bus y') = false)
  \/ (deliveries (line_queue l) <> [] /\ forall ending passed, recv_paced_pass true ending passed (line_queue l) <> None).
Proof.
  intros Hy Hl Ho Hf. destruct (lo_owed _ _ _ _ _ _ _ _ (open_line y id l Hy Hl) Ho Hf) as [[d Hd]|[?|Hne]]; [|by left|].
  - right. left. exists d. split; [done|]. eexists. split; [exact (step_take_mark id y l d Hd Hl)|]. rewrite Hf. split; [done|].
    unfold is_line_owed. cbn. by rewrite lookup_insert_eq.
  - right. right. split; [done|]. intros ending passed. unfold recv_paced_pass.
    destruct (painted_update_report (line_queue l)); [done|]. destruct ending; [done|]. unfold is_head_held.
    destruct (deliveries (line_queue l)) as [|d ds]; [done|]. by rewrite andb_false_r.
Qed.


(** The steps a thread is at most from having taken them, or left its loop. *)
Definition steps_to_take (w : WriterAt) : nat :=
  match w with
  | Receiving => 4
  | HasDelivery _ => 3
  | Marked _ => 2
  | AtTop => 1
  | Leaving | ReceiverDropped | Ended => 0
  end.



Lemma after_receive_steps r : (steps_to_take (after_receive r) < 4)%nat.
Proof. destruct r; cbn; lia. Qed.





(** C29: A host write goes out whole. Its frames are parts of exactly the
    largest size and then one last frame, none over the limit of a frame; their
    bytes in order are the bytes of the host write, and the last frame is empty
    only for an empty host write. *)
Theorem host_writes_go_out_whole bytes :
  exists parts final, build_wire_host_write_events bytes = (HostWritePart <$> parts) ++ [HostWriteSent final]
    /\ concat parts ++ final = bytes
    /\ Forall (fun run => length run = N.to_nat MAX_HOST_WRITE_BYTE_COUNT) parts
    /\ (length final <= N.to_nat MAX_HOST_WRITE_BYTE_COUNT)%nat /\ (bytes <> [] -> final <> []).
Proof. apply host_write_events_spec. unfold MAX_HOST_WRITE_BYTE_COUNT. lia. Qed.
End claims.

(** ** Witnesses *)

Definition example_line : Line :=
  default (MkLine (create_delivery_queue 0) new_handoff) (lines (bus example_full) !! 1).

Definition example_missed : Subscriber := MkSubscriber 1 (Desynced 1 [MkHeldCommandRejection (Some 4) 5 None 2] 0).

Lemma example_line_found : lines (bus example_full) !! 1 = Some example_line.
Proof.
  assert (match lines (bus example_full) !! 1 with Some _ => true | None => false end = true) as H by (vm_compute; reflexivity).
  unfold example_line. by destruct (lines (bus example_full) !! 1).
Qed.

Lemma missed_deliveries_are_counted_witness :
  offered_count example_full 1 = counted_total (read example_full 1 ++ deliveries (line_queue example_line)) + 1.
Proof.
  apply (missed_deliveries_are_counted example_full 1 0%nat example_missed example_line example_full_reachable);
    [vm_compute; reflexivity|exact example_line_found|vm_compute; reflexivity].
Defined.

Lemma rejections_reach_their_client_witness :
  told_all (read example_full 1 ++ deliveries (line_queue example_line))
    ++ expand_held (held_of (delivery_state example_missed)) = [example_rejection; example_rejection].
Proof.
  destruct (rejections_reach_their_client example_full 1 0%nat example_missed example_line example_full_reachable)
    as (_ & H & _); [vm_compute; reflexivity|exact example_line_found|vm_compute; reflexivity|].
  etrans; [apply H; [vm_compute; reflexivity|apply N.leb_le; vm_compute; reflexivity]|vm_compute; reflexivity].
Defined.

Lemma owed_frames_are_heard_witness : writers example_full 1 = AtTop /\ deliveries (line_queue example_line) <> [].
Proof.
  assert (writers example_full 1 = AtTop) as Hw by (vm_compute; reflexivity). split; [exact Hw|].
  pose proof (owed_frames_are_heard example_full 1 example_line example_full_reachable example_line_found) as H.
  specialize (H ltac:(vm_compute; reflexivity)). specialize (H ltac:(vm_compute; reflexivity)).
  destruct H as [H|[H|[H _]]]; [rewrite Hw in H; discriminate H| |exact H].
  destruct H as (d & H & _). rewrite Hw in H. discriminate H.
Defined.




