(* ===== verification/Records.v ===== *)
(** * Records with one field changed, and ordered maps

    [r <| field := v |>] is the record [r] with [field] set to [v]; it is found
    from the way the record is rebuilt from its fields. A [BTreeMap] is a finite
    map read in the order of its keys. *)

From S2P Require Import Prelude.
From stdpp Require Import gmap sorting options.
#[local] Open Scope N_scope.

(** ** Field updates *)

(** The record rebuilt from its fields. *)
Class Rebuild (R : Type) := rebuild : R -> R.

(** How one field of a record changes, the others kept. *)
Class FieldUpdate {R T : Type} (field : R -> T) := change_field : (T -> T) -> R -> R.

Ltac find_field_update :=
  lazymatch goal with
  | |- @FieldUpdate ?R ?T ?field =>
      let whole := constr:(rebuild (R := R)) in
      let whole := eval cbv beta delta [rebuild] in whole in
      let whole := match whole with ?i => eval unfold i in i end in
      let by_field := eval pattern field in whole in
      lazymatch by_field with
      | ?build _ => exact (fun (f : T -> T) (r : R) => build (fun r => f (field r)) r)
      end
  end.

#[export] Hint Extern 0 (FieldUpdate _) => find_field_update : typeclass_instances.

Declare Scope record_scope.
Delimit Scope record_scope with record.
Notation "r <| field := v |>" := (change_field (field := field) (fun _ => v) r)
  (at level 12, left associativity, format "r  <| field  :=  v |>") : record_scope.
#[global] Open Scope record_scope.

Arguments change_field {R T} field {FieldUpdate} f r /.

(** ** Ordered maps *)

Definition key_le {A} (x y : N * A) : Prop := x.1 <= y.1.

#[export] Instance key_le_dec {A} : RelDecision (@key_le A).
Proof. intros x y. unfold key_le. apply _. Defined.

#[export] Instance key_le_total {A} : Total (@key_le A).
Proof. intros x y. unfold key_le. lia. Qed.

#[export] Instance key_le_trans {A} : Transitive (@key_le A).
Proof. intros x y z. unfold key_le. lia. Qed.

(** The entries of a [BTreeMap], and its values, in the order of the keys. *)
Definition btree_entries {A} (m : gmap N A) : list (N * A) := merge_sort key_le (map_to_list m).
Definition btree_values {A} (m : gmap N A) : list A := (btree_entries m).*2.
Definition btree_keys {A} (m : gmap N A) : list N := (btree_entries m).*1.

Lemma btree_entries_Permutation {A} (m : gmap N A) : btree_entries m ≡ₚ map_to_list m.
Proof. apply merge_sort_Permutation. Qed.

Lemma elem_of_btree_entries {A} (m : gmap N A) k v : (k, v) ∈ btree_entries m <-> m !! k = Some v.
Proof. by rewrite btree_entries_Permutation, elem_of_map_to_list. Qed.

Lemma elem_of_btree_values {A} (m : gmap N A) v : v ∈ btree_values m <-> exists k, m !! k = Some v.
Proof.
  unfold btree_values. rewrite list_elem_of_fmap. split.
  - intros ([k w] & -> & H). exists k. by apply elem_of_btree_entries.
  - intros [k H]. exists (k, v). by rewrite elem_of_btree_entries.
Qed.

Lemma elem_of_btree_keys {A} (m : gmap N A) k : k ∈ btree_keys m <-> is_Some (m !! k).
Proof.
  unfold btree_keys. rewrite list_elem_of_fmap. split.
  - intros ([k' w] & -> & H). exists w. by apply elem_of_btree_entries.
  - intros [v H]. exists (k, v). by rewrite elem_of_btree_entries.
Qed.

Lemma NoDup_btree_keys {A} (m : gmap N A) : NoDup (btree_keys m).
Proof. unfold btree_keys. rewrite btree_entries_Permutation. apply NoDup_fst_map_to_list. Qed.

Lemma btree_values_nil {A} (m : gmap N A) : btree_values m = [] <-> m = ∅.
Proof.
  split; [|by intros ->]. intros H. apply map_empty. intros k. apply eq_None_not_Some. intros [v Hv].
  assert (v ∈ btree_values m) as Hin by (apply elem_of_btree_values; by exists k). rewrite H in Hin. by apply elem_of_nil in Hin.
Qed.

Lemma length_btree_values {A} (m : gmap N A) : length (btree_values m) = size m.
Proof. unfold btree_values. by rewrite length_fmap, btree_entries_Permutation, length_map_to_list. Qed.

(** Entries in key order are one list. *)
Lemma btree_entries_unique {A} (m : gmap N A) (l : list (N * A)) :
  StronglySorted key_le l -> l ≡ₚ map_to_list m -> btree_entries m = l.
Proof.
  intros Hs Hp. apply (StronglySorted_unique_strong key_le).
  - intros [k v] [k' v'] H1 H2. unfold key_le; cbn. intros H3 H4. assert (k = k') as <- by lia.
    rewrite elem_of_btree_entries in H1. rewrite Hp, elem_of_map_to_list in H2. congruence.
  - apply StronglySorted_merge_sort; apply _.
  - done.
  - by rewrite btree_entries_Permutation, Hp.
Qed.

Lemma btree_entries_fmap {A B} (f : A -> B) (m : gmap N A) : btree_entries (f <$> m) = prod_map id f <$> btree_entries m.
Proof.
  apply btree_entries_unique.
  - assert (StronglySorted key_le (btree_entries m)) as Hs by (apply StronglySorted_merge_sort; apply _).
    induction Hs as [|x l Hs IH Hx]; cbn; constructor; [done|]. apply Forall_fmap. eapply Forall_impl; [exact Hx|]. done.
  - rewrite map_to_list_fmap. by rewrite btree_entries_Permutation.
Qed.

Lemma btree_values_fmap {A B} (f : A -> B) (m : gmap N A) : btree_values (f <$> m) = f <$> btree_values m.
Proof. unfold btree_values. rewrite btree_entries_fmap, <- !list_fmap_compose. by apply list_fmap_ext. Qed.

Lemma btree_keys_fmap {A B} (f : A -> B) (m : gmap N A) : btree_keys (f <$> m) = btree_keys m.
Proof. unfold btree_keys. rewrite btree_entries_fmap, <- list_fmap_compose. by apply list_fmap_ext. Qed.
