(* ===== verification/Notifications.v ===== *)
(** * Reported text and the notification queue
    ([crates/koshi-core/src/text.rs], [crates/koshi-core/src/notification.rs])

    A text is the list of its characters; its byte count is that of its UTF-8
    form. *)

From S2P Require Import Prelude Varint Utf8 Records.
From stdpp Require Import options.
#[local] Open Scope N_scope.

(** ** Text *)

Definition MAX_REPORTED_TEXT_BYTE_COUNT : N := 512.

(** [char::is_control] of the standard library. *)
Definition is_control (c : N) : bool := (c <=? 31) || ((127 <=? c) && (c <=? 159)).

Definition within (low high c : N) : bool := (low <=? c) && (c <=? high).

Definition is_refused_character (c : N) : bool :=
  within 0x202A 0x202E c || within 0x2066 0x2069 c
  || (c =? 0x200E) || (c =? 0x200F) || (c =? 0x061C)
  || (c =? 0x2028) || (c =? 0x2029)
  || within 0xFFF9 0xFFFB c
  || (c =? 0xFFFE) || (c =? 0xFFFF)
  || within 0xE0000 0xE007F c
  || is_control c.

Fixpoint text_byte_count (text : list N) : N :=
  match text with [] => 0 | c :: text => N.of_nat (len_utf8 c) + text_byte_count text end.

(** The loop over the characters that are not refused, with the text kept so
    far. *)
Fixpoint keep_text (max_byte_count : N) (sanitized_text characters : list N) : list N :=
  match characters with
  | [] => sanitized_text
  | c :: characters =>
      if max_byte_count <? text_byte_count sanitized_text + N.of_nat (len_utf8 c) then sanitized_text
      else keep_text max_byte_count (sanitized_text ++ [c]) characters
  end.

Definition remove_refused_characters (raw_text : list N) : list N :=
  List.filter (fun c => negb (is_refused_character c)) raw_text.

Definition sanitize_text_to_byte_count (raw_text : list N) (max_byte_count : N) : list N :=
  keep_text max_byte_count [] (remove_refused_characters raw_text).

Definition sanitize_reported_text (raw_text : list N) : list N :=
  sanitize_text_to_byte_count raw_text MAX_REPORTED_TEXT_BYTE_COUNT.

(** ** The queue *)

Definition MAX_NOTIFICATION_TEXT_BYTE_COUNT : N := 4096.
Definition MAX_QUEUED_NOTIFICATION_COUNT : nat := 256.

Inductive NotificationSeverity := Info | Warning | Error.
Inductive NotificationSource := Core.
Inductive NotificationQueueOwner := OwnedByClient (client_id : N) | OwnedBySession (session_id : N).

Record NotificationId := MkNotificationId
  { notification_owner : NotificationQueueOwner; notification_epoch : N; notification_sequence : N }.

Record NotificationEntry := MkNotificationEntry
  { notification_id : NotificationId;
    source : NotificationSource;
    severity : NotificationSeverity;
    text : list N;
    entry_created_at : N;
    entry_repeat_count : N }.

Record NotificationQueue := MkNotificationQueue
  { queue_owner : NotificationQueueOwner; queue_epoch : N; revision : N; queued_entries : list NotificationEntry }.

Inductive NotificationQueueError :=
  | TooManyEntries (queued_entry_count : nat)
  | ForeignEntry (foreign_notification_id : NotificationId).

#[export] Instance NotificationSeverity_eq_dec : EqDecision NotificationSeverity.
Proof. solve_decision. Defined.
#[export] Instance NotificationSource_eq_dec : EqDecision NotificationSource.
Proof. solve_decision. Defined.
#[export] Instance NotificationQueueOwner_eq_dec : EqDecision NotificationQueueOwner.
Proof. solve_decision. Defined.
#[export] Instance NotificationId_eq_dec : EqDecision NotificationId.
Proof. solve_decision. Defined.
#[export] Instance NotificationEntry_eq_dec : EqDecision NotificationEntry.
Proof. solve_decision. Defined.

(** [NotificationEpoch::new] gives a fresh epoch. *)
Definition from_owner (owner : NotificationQueueOwner) (epoch : N) : NotificationQueue :=
  MkNotificationQueue owner epoch 0 [].

Definition is_repeat (sanitized_text : list N) (s : NotificationSeverity) (newest_entry : NotificationEntry) : bool :=
  bool_decide (source newest_entry = Core) && bool_decide (severity newest_entry = s)
  && bool_decide (text newest_entry = sanitized_text).

(** With the entry it returns a reference to. *)
Definition post_core_entry (s : NotificationSeverity) (raw_text : list N) (post_count created_at : N) (q : NotificationQueue)
    : NotificationEntry * NotificationQueue :=
  let sanitized_text := sanitize_text_to_byte_count raw_text MAX_NOTIFICATION_TEXT_BYTE_COUNT in
  let revision := revision q + post_count in
  let push :=
    let next_sequence :=
      match last (queued_entries q) with
      | Some newest_entry => notification_sequence (notification_id newest_entry) + 1
      | None => 0
      end in
    let kept :=
      if (length (queued_entries q) =? MAX_QUEUED_NOTIFICATION_COUNT)%nat then tail (queued_entries q)
      else queued_entries q in
    let entry := MkNotificationEntry (MkNotificationId (queue_owner q) (queue_epoch q) next_sequence) Core s sanitized_text
                   created_at post_count in
    (entry, MkNotificationQueue (queue_owner q) (queue_epoch q) revision (kept ++ [entry])) in
  match last (queued_entries q) with
  | Some newest_entry =>
      if is_repeat sanitized_text s newest_entry then
        let entry := MkNotificationEntry (notification_id newest_entry) (source newest_entry) (severity newest_entry)
                       (text newest_entry) created_at
                       (N.min U32_MAX (entry_repeat_count newest_entry + post_count)) in
        (entry, MkNotificationQueue (queue_owner q) (queue_epoch q) revision (removelast (queued_entries q) ++ [entry]))
      else push
  | None => push
  end.

Definition validate_queued_entries (q : NotificationQueue) : option NotificationQueueError :=
  if (MAX_QUEUED_NOTIFICATION_COUNT <? length (queued_entries q))%nat
  then Some (TooManyEntries (length (queued_entries q)))
  else
    match List.find (fun e => negb (bool_decide (notification_owner (notification_id e) = queue_owner q))
                              || negb (notification_epoch (notification_id e) =? queue_epoch q)) (queued_entries q) with
    | Some e => Some (ForeignEntry (notification_id e))
    | None => None
    end.

(** ** What a text keeps *)

Lemma text_byte_count_app l k : text_byte_count (l ++ k) = text_byte_count l + text_byte_count k.
Proof. induction l as [|c l IH]; cbn; [done|]. rewrite IH. lia. Qed.

Lemma keep_text_spec max kept l :
  text_byte_count kept <= max ->
  exists k rest, keep_text max kept l = kept ++ k /\ l = k ++ rest /\ text_byte_count (kept ++ k) <= max
    /\ (forall c rest', rest = c :: rest' -> max < text_byte_count (kept ++ k) + N.of_nat (len_utf8 c)).
Proof.
  revert kept. induction l as [|c l IH]; intros kept Hk; cbn.
  - exists [], []. rewrite app_nil_r. by split_and!.
  - destruct (N.ltb_spec max (text_byte_count kept + N.of_nat (len_utf8 c))) as [Hlt|Hle].
    + exists [], (c :: l). rewrite app_nil_r. split_and!; [done..|]. by intros ? ? [= -> ->].
    + destruct (IH (kept ++ [c])) as (k & rest & E & -> & Hm & Hr).
      { rewrite text_byte_count_app. cbn. lia. }
      exists (c :: k), rest. rewrite E. rewrite <- !app_assoc in *. by split_and!.
Qed.

(** C28: Text from outside is made safe to show. What is kept holds none of the
    refused characters, takes at most the bytes allowed, and is the longest
    such beginning of the text without its refused characters; a text that is
    already safe and short enough is kept whole. *)
Theorem reported_text_is_safe raw_text max_byte_count :
  let kept := sanitize_text_to_byte_count raw_text max_byte_count in
  (forall c, c ∈ kept -> is_refused_character c = false)
  /\ text_byte_count kept <= max_byte_count
  /\ (exists rest, remove_refused_characters raw_text = kept ++ rest
        /\ forall c rest', rest = c :: rest' -> max_byte_count < text_byte_count (kept ++ [c]))
  /\ ((forall c, c ∈ raw_text -> is_refused_character c = false) -> text_byte_count raw_text <= max_byte_count ->
        kept = raw_text).
Proof.
  intros kept. subst kept. unfold sanitize_text_to_byte_count.
  destruct (keep_text_spec max_byte_count [] (remove_refused_characters raw_text) ltac:(cbn; lia)) as (k & rest & E & Ef & Hm & Hr).
  rewrite E. cbn [app] in *. split_and!; [|done| |].
  - intros c Hc. assert (c ∈ remove_refused_characters raw_text) as Hin by (rewrite Ef; set_solver).
    unfold remove_refused_characters in Hin. apply list_elem_of_In, filter_In in Hin as [_ Hin]. by apply negb_true_iff.
  - exists rest. split; [done|]. intros c rest1 Er. specialize (Hr c rest1 Er). rewrite text_byte_count_app. cbn. lia.
  - intros Hsafe Hs. assert (remove_refused_characters raw_text = raw_text) as Eraw.
    { unfold remove_refused_characters. clear -Hsafe. induction raw_text as [|c l IH]; [done|]. cbn.
      rewrite (Hsafe c) by set_solver. cbn. f_equal. apply IH. intros x Hx. apply Hsafe. set_solver. }
    rewrite Eraw in Ef. subst raw_text. destruct rest as [|c rest']; [by rewrite app_nil_r|].
    specialize (Hr c rest' eq_refl). rewrite text_byte_count_app in Hs. cbn in Hs. lia.
Qed.

(** ** What a queue holds *)

Record Post := MkPost { post_severity : NotificationSeverity; post_text : list N; times : N; posted_at : N }.

Definition shown_text (p : Post) : list N := sanitize_text_to_byte_count (post_text p) MAX_NOTIFICATION_TEXT_BYTE_COUNT.
Definition alike (p p' : Post) : Prop := post_severity p = post_severity p' /\ shown_text p = shown_text p'.

Definition posted (q : NotificationQueue) (p : Post) : NotificationQueue :=
  (post_core_entry (post_severity p) (post_text p) (times p) (posted_at p) q).2.

Fixpoint total_times (ps : list Post) : N := match ps with [] => 0 | p :: ps => times p + total_times ps end.

(** The entry of the run [first :: rest] of alike posts, the [i]-th run of its
    queue. *)
Definition run_entry (owner : NotificationQueueOwner) (epoch : N) (i : nat) (run : Post * list Post) : NotificationEntry :=
  let '(first, rest) := run in
  MkNotificationEntry (MkNotificationId owner epoch (N.of_nat i)) Core (post_severity first) (shown_text first)
    (posted_at (default first (last rest)))
    (match rest with [] => times first | _ => N.min U32_MAX (total_times (first :: rest)) end).

Definition run_posts (run : Post * list Post) : list Post := run.1 :: run.2.

(** The posts fall into these runs: the posts of a run are alike, and the first
    posts of two runs in a row are not. *)
Record runs_of (posts : list Post) (runs : list (Post * list Post)) : Prop :=
  { ro_posts : concat (run_posts <$> runs) = posts;
    ro_alike first rest : (first, rest) ∈ runs -> Forall (alike first) rest;
    ro_apart i run run' : runs !! i = Some run -> runs !! S i = Some run' -> ~ alike run.1 run'.1 }.

Definition run_entries (owner : NotificationQueueOwner) (epoch : N) (runs : list (Post * list Post)) : list NotificationEntry :=
  imap (run_entry owner epoch) runs.

Definition newest {A} (count : nat) (l : list A) : list A := drop (length l - count) l.

Lemma total_times_app l k : total_times (l ++ k) = total_times l + total_times k.
Proof. induction l as [|p l IH]; cbn; [done|]. rewrite IH. lia. Qed.

Lemma newest_snoc {A} count (l : list A) x :
  (0 < count)%nat ->
  newest count (l ++ [x]) = (if (length (newest count l) =? count)%nat then tail (newest count l) else newest count l) ++ [x].
Proof.
  intros Hc. unfold newest. rewrite length_app, length_drop. cbn.
  destruct (Nat.eqb_spec (length l - (length l - count)) count) as [E|E].
  - rewrite drop_app_le by lia. f_equal. transitivity (drop 1 (drop (length l - count) l)); [rewrite drop_drop; f_equal; lia|].
    by destruct (drop _ l).
  - rewrite drop_app_le by lia. do 2 f_equal. lia.
Qed.

Record queue_holds (owner : NotificationQueueOwner) (epoch : N) (posts : list Post) (runs : list (Post * list Post))
    (q : NotificationQueue) : Prop :=
  { qh_owner : queue_owner q = owner;
    qh_epoch : queue_epoch q = epoch;
    qh_revision : revision q = total_times posts;
    qh_entries : queued_entries q = newest MAX_QUEUED_NOTIFICATION_COUNT (run_entries owner epoch runs) }.

Lemma last_newest {A} count (l : list A) : (0 < count)%nat -> last (newest count l) = last l.
Proof.
  intros Hc. unfold newest. destruct l as [|x l] using rev_ind; [done|]. rewrite length_app. cbn.
  rewrite drop_app_le by lia. by rewrite !last_snoc.
Qed.

Lemma run_entries_snoc owner epoch runs run :
  run_entries owner epoch (runs ++ [run]) = run_entries owner epoch runs ++ [run_entry owner epoch (length runs) run].
Proof. unfold run_entries. rewrite imap_app. cbn. by rewrite Nat.add_0_r. Qed.

Lemma runs_snoc posts runs p :
  runs_of posts runs -> (forall run, last runs = Some run -> ~ alike run.1 p) -> runs_of (posts ++ [p]) (runs ++ [(p, [])]).
Proof.
  intros [H1 H2 H3] Hl. split.
  - by rewrite fmap_app, concat_app, H1.
  - intros first rest [H|H]%elem_of_app; [by apply (H2 first rest)|]. apply list_elem_of_singleton in H. by injection H as -> ->.
  - intros i run run' Hi Hi'. destruct (decide (S i < length runs)%nat) as [Hlt|Hge].
    + rewrite lookup_app_l in Hi, Hi' by lia. by apply (H3 i).
    + apply lookup_lt_Some in Hi' as Hlen. rewrite length_app in Hlen. cbn in Hlen.
      assert (S i = length runs) as E by lia. rewrite E in Hi'. rewrite lookup_app_r, Nat.sub_diag in Hi' by lia.
      injection Hi' as <-. apply Hl. rewrite lookup_app_l in Hi by lia. rewrite last_lookup. by replace (pred (length runs)) with i by lia.
Qed.

Lemma runs_extend posts runs first rest p :
  runs_of posts (runs ++ [(first, rest)]) -> alike first p -> runs_of (posts ++ [p]) (runs ++ [(first, rest ++ [p])]).
Proof.
  intros [H1 H2 H3] Ha. split.
  - rewrite <- H1, !fmap_app, !concat_app. cbn. rewrite !app_nil_r, <- app_assoc. done.
  - intros f r [H|H]%elem_of_app; [apply (H2 f r); set_solver|]. apply list_elem_of_singleton in H. injection H as -> ->.
    apply Forall_app. split; [apply (H2 first rest); set_solver|by apply Forall_singleton].
  - intros i run run' Hi Hi'. destruct (decide (S i < length runs)%nat) as [Hlt|Hge].
    + apply (H3 i); rewrite lookup_app_l in * by lia; done.
    + apply lookup_lt_Some in Hi' as Hlen. rewrite length_app in Hlen. cbn in Hlen.
      assert (S i = length runs) as E by lia. rewrite E in Hi'. rewrite lookup_app_r, Nat.sub_diag in Hi' by lia.
      injection Hi' as <-. rewrite lookup_app_l in Hi by lia.
      apply (H3 i run (first, rest)); [by rewrite lookup_app_l by lia|]. by rewrite E, lookup_app_r, Nat.sub_diag by lia.
Qed.

Lemma is_repeat_run owner epoch i first rest p :
  is_repeat (shown_text p) (post_severity p) (run_entry owner epoch i (first, rest)) = true <-> alike first p.
Proof.
  unfold is_repeat, alike. cbn. rewrite !andb_true_iff, !bool_decide_eq_true. tauto.
Qed.

Lemma run_entry_extend owner epoch i first rest p :
  Forall (fun p => 1 <= times p <= U32_MAX) (first :: rest) ->
  run_entry owner epoch i (first, rest ++ [p])
  = let e := run_entry owner epoch i (first, rest) in
    MkNotificationEntry (notification_id e) (source e) (severity e) (text e) (posted_at p)
      (N.min U32_MAX (entry_repeat_count e + times p)).
Proof.
  intros Ht. unfold run_entry. cbn [notification_id source severity text entry_repeat_count]. rewrite last_snoc. cbn [default].
  f_equal. assert (forall l : list Post, match l ++ [p] with [] => times first | _ => N.min U32_MAX (total_times (first :: l ++ [p])) end
    = N.min U32_MAX (total_times (first :: l ++ [p]))) as -> by by intros [].
  cbn [total_times]. rewrite total_times_app. cbn [total_times]. destruct rest; cbn [total_times]; lia.
Qed.

Lemma post_holds owner epoch posts runs q p :
  Forall (fun p => 1 <= times p <= U32_MAX) posts ->
  runs_of posts runs -> queue_holds owner epoch posts runs q ->
  exists runs', runs_of (posts ++ [p]) runs' /\ queue_holds owner epoch (posts ++ [p]) runs' (posted q p).
Proof.
  intros Ht Hr [Ho He Hv Hq]. unfold posted, post_core_entry. fold (shown_text p).
  pose proof (last_newest MAX_QUEUED_NOTIFICATION_COUNT (run_entries owner epoch runs) ltac:(by vm_compute; lia)) as Hl.
  rewrite <- Hq in Hl.
  assert (revision q + times p = total_times (posts ++ [p])) as Hrev by (rewrite total_times_app, Hv; cbn; lia).
  destruct runs as [|[first rest] runs _] using rev_ind.
  { rewrite Hl. cbn. assert (queued_entries q = []) as Hq0 by exact Hq. rewrite Hq0. exists [(p, [])]. split.
    - apply (runs_snoc posts []); [done|by intros ? [=]].
    - split; [done..|]. cbn. by rewrite Ho, He. }
  rewrite run_entries_snoc, last_snoc in Hl. rewrite Hl.
  destruct (is_repeat _ _ _) eqn:Ea.
  - apply is_repeat_run in Ea. exists (runs ++ [(first, rest ++ [p])]). split; [by apply runs_extend|].
    split; [done..|]. cbn [snd queued_entries]. rewrite run_entries_snoc, run_entry_extend.
    2:{ pose proof (ro_posts _ _ Hr) as Hp. rewrite fmap_app, concat_app in Hp. cbn in Hp. rewrite app_nil_r in Hp.
        rewrite <- Hp in Ht. by apply Forall_app in Ht as [_ Ht]. }
    rewrite Hq, run_entries_snoc. unfold newest. rewrite !length_app. cbn [length].
    rewrite !drop_app_le by (unfold MAX_QUEUED_NOTIFICATION_COUNT; lia). by rewrite removelast_last.
  - exists ((runs ++ [(first, rest)]) ++ [(p, [])]). split.
    + apply runs_snoc; [done|]. intros run. rewrite last_snoc. intros [= <-] Ha.
      apply (is_repeat_run owner epoch (length runs) first rest p) in Ha. congruence.
    + split; [done..|]. cbn [snd queued_entries]. rewrite (run_entries_snoc _ _ (runs ++ [(first, rest)])), newest_snoc by (vm_compute; lia).
      rewrite <- Hq. cbn [run_entry]. rewrite Ho, He. do 4 f_equal. unfold run_entry. cbn. rewrite length_app. cbn. by f_equal; lia.
Qed.

Lemma queue_validates owner epoch posts runs q : queue_holds owner epoch posts runs q -> validate_queued_entries q = None.
Proof.
  intros [Ho He _ Hq]. unfold validate_queued_entries.
  assert (length (queued_entries q) <= MAX_QUEUED_NOTIFICATION_COUNT)%nat as Hlen.
  { rewrite Hq. unfold newest. rewrite length_drop. unfold MAX_QUEUED_NOTIFICATION_COUNT. lia. }
  apply Nat.ltb_ge in Hlen as ->. destruct (List.find _ _) as [e|] eqn:Ef; [|done].
  apply find_some in Ef as [Hin Hf]. exfalso. rewrite Hq in Hin. apply list_elem_of_In in Hin.
  assert (e ∈ run_entries owner epoch runs) as Hin'.
  { rewrite <- (take_drop (length (run_entries owner epoch runs) - MAX_QUEUED_NOTIFICATION_COUNT) (run_entries owner epoch runs)).
    apply elem_of_app. by right. }
  unfold run_entries in Hin'. apply elem_of_lookup_imap in Hin' as (i & [first rest] & -> & _). cbn in Hf.
  rewrite Ho, He, N.eqb_refl, bool_decide_eq_true_2 in Hf by done. discriminate Hf.
Qed.

(** C27: The queue shows the newest posts and counts every one. Whatever is
    posted to a fresh queue, it holds the newest 256 of the runs the posts fall
    into: one entry per run of alike posts, with the run's number, the time of
    its newest post and how often it was posted in all; its revision counts
    the posts, and its own check accepts it. *)
Theorem queue_shows_the_newest_runs owner epoch posts :
  Forall (fun p => 1 <= times p <= U32_MAX) posts ->
  let q := foldl posted (from_owner owner epoch) posts in
  exists runs, runs_of posts runs
    /\ queued_entries q = newest MAX_QUEUED_NOTIFICATION_COUNT (run_entries owner epoch runs)
    /\ revision q = total_times posts /\ validate_queued_entries q = None.
Proof.
  intros Ht. assert (exists runs, runs_of posts runs /\ queue_holds owner epoch posts runs (foldl posted (from_owner owner epoch) posts))
    as (runs & Hr & Hq).
  { induction posts as [|p posts IH] using rev_ind.
    - exists []. split; [split; [done|by intros ?? ?%elem_of_nil|done]|done].
    - apply Forall_app in Ht as [Ht _]. destruct (IH Ht) as (runs & Hr & Hq). rewrite foldl_app. by apply (post_holds _ _ _ runs). }
  exists runs. split; [done|]. split; [apply Hq|]. split; [apply Hq|]. by apply (queue_validates owner epoch posts runs).
Qed.

Lemma queue_shows_the_newest_runs_witness :
  let posts := [MkPost Info [72; 105] 1 10; MkPost Info [72; 27; 105] 2 11; MkPost Error [72] 1 12] in
  exists runs, runs_of posts runs
    /\ newest MAX_QUEUED_NOTIFICATION_COUNT (run_entries (OwnedByClient 4) 9 runs)
       = [MkNotificationEntry (MkNotificationId (OwnedByClient 4) 9 0) Core Info [72; 105] 11 3;
          MkNotificationEntry (MkNotificationId (OwnedByClient 4) 9 1) Core Error [72] 12 1].
Proof.
  intros posts. destruct (queue_shows_the_newest_runs (OwnedByClient 4) 9 posts) as (runs & Hr & Hq & _).
  { apply Forall_forall. intros p Hp. unfold posts in Hp. rewrite !elem_of_cons in Hp. destruct Hp as [->|[->|[->|Hp]]];
      [cbn; lia..|by apply elem_of_nil in Hp]. }
  exists runs. split; [exact Hr|]. rewrite <- Hq. vm_compute. reflexivity.
Defined.
