(* ===== verification/SessionData.v ===== *)
(** * Events, errors and pane records of a session
    ([crates/koshi-core/src/event.rs], [lock.rs], [selection.rs], [process.rs],
    [crates/koshi-session/src/error.rs], [crates/koshi-pane/src])

    Identifiers are numbers compared as the source compares them. *)

From stdpp Require Import gmap strings options.
From S2P Require Import Prelude Geometry Tree Solver Placement DeltaConversion Records.
#[local] Open Scope N_scope.

Abbreviation TabId := N.
Abbreviation ClientId := N.
Abbreviation SessionId := N.
Abbreviation CommandId := N.
Abbreviation FloatingPaneId := N.

Definition MAX_TAB_FOCUS_MRU_ENTRY_COUNT : nat := 16.
Definition MAX_FLOATING_PANES_PER_SESSION : nat := 12.
Definition FLOATING_TITLEBAR_STRIP_ROW_COUNT : N := 1.

(** ** Small data types *)

Inductive ClientOrigin := LocalClient | RemoteClient.

Inductive LockMode :=
  | Normal | Locked | PanePlacement | PaneMoveChoice | FloatingPaneMove | FloatingPaneTray | NotificationCenter.

Inductive SelectionKind := Character | Word | Line | Block.

Record GridPosition := MkGridPosition { row_index : N; column_index : N }.

Record Selection := MkSelection { selection_kind : SelectionKind; selection_anchor : GridPosition; selection_cursor : GridPosition }.

Record PixelCellSize := MkPixelCellSize { pixel_width : N; pixel_height : N }.

Inductive ShellKind := Zsh | Bash | Fish | PowerShell | Nu | OtherShell (name : string).

Record SpawnSpec := MkSpawnSpec
  { program : string;
    arguments : list string;
    spawn_working_directory : option string;
    environment_variables : gmap string string;
    shell_kind : ShellKind }.

#[export] Instance ClientOrigin_eq_dec : EqDecision ClientOrigin.
Proof. solve_decision. Defined.
#[export] Instance LockMode_eq_dec : EqDecision LockMode.
Proof. solve_decision. Defined.
#[export] Instance SelectionKind_eq_dec : EqDecision SelectionKind.
Proof. solve_decision. Defined.
#[export] Instance GridPosition_eq_dec : EqDecision GridPosition.
Proof. solve_decision. Defined.
#[export] Instance Selection_eq_dec : EqDecision Selection.
Proof. solve_decision. Defined.

(** ** Events *)

Record PaneProcessExited := MkPaneProcessExited { exited_pane_id : PaneId; exit_code : option Z; signal : option Z }.

Definition is_failure (e : PaneProcessExited) : bool :=
  negb (bool_decide (signal e = None)) || negb (bool_decide (exit_code e = Some 0%Z)).

Inductive QuitCause :=
  | Requested
  | LastTabClosed (tab_id : TabId) (pane_exit : option PaneProcessExited).

Inductive TerminalTooSmallCause :=
  | TerminalCause
  | RegionsCause
  | OtherClientCause (client_id : ClientId).

Inductive PanePlacementTarget :=
  | TiledTarget (target : TiledPlacementTarget)
  | FloatingTarget (top_left_cell : option Point).

Inductive Event :=
  | PaneCreated (pane_id : PaneId) (tab_id : option TabId)
  | PaneProcessExitedEvent (pane_exit : PaneProcessExited)
  | PaneClosing (pane_id : PaneId)
  | PaneRemoved (pane_id : PaneId) (tab_id : option TabId)
  | PaneFocused (client_id : ClientId) (tab_id : option TabId) (pane_id : PaneId) (previous_pane_id : option PaneId)
  | PtyResized (pane_id : PaneId) (pty_size : PtySize)
  | LayoutChanged (tab_id : TabId)
  | FloatingPaneLayoutChanged (pane_ids : list PaneId)
  | PanePlacementCommitted (command_id : CommandId) (source_pane_ids : list PaneId)
      (source_tab_id destination_tab_id : option TabId) (placement_target : PanePlacementTarget)
  | TabCreated (tab_id : TabId)
  | TabClosed (tab_id : TabId)
  | TabFocused (client_id : ClientId) (tab_id previous_tab_id : TabId)
  | TabMoved (tab_id : TabId) (previous_tab_index new_tab_index : nat)
  | TerminalTooSmallEntered (client_id : ClientId) (viewport_size : Size) (pane_area : option PaneArea)
      (cause : TerminalTooSmallCause)
  | ConfigReloaded (session_id : SessionId)
  | InputModeChanged (client_id : ClientId) (lock_mode : LockMode)
  | MouseSelectChanged (client_id : ClientId) (is_enabled : bool)
  | PaneCommandStarted (pane_id : PaneId)
  | PaneCommandFinished (pane_id : PaneId)
  | SelectionChanged (client_id : ClientId) (pane_id : PaneId) (selection : option Selection)
  | FloatingPaneMoved (client_id : ClientId) (pane_ids : list PaneId) (top_left_cell : Point)
  | FloatingPanePinChanged (client_id : ClientId) (pane_ids : list PaneId) (is_pinned : bool)
  | FloatingPaneMinimizedChanged (client_id : ClientId) (pane_ids : list PaneId) (is_minimized : bool)
  | QuitEvent (cause : QuitCause)
  | RestartingEvent.

(** ** Lifecycle *)

Inductive SessionLifecycle := Starting | Running | Detaching | Stopping | Stopped.

Inductive SessionLifecycleEvent := FirstTabCreated | LastClientDetached | ClientAttached | StopRequested | StopCompleted.

Record InvalidTransition := MkInvalidTransition
  { previous_lifecycle : SessionLifecycle; lifecycle_event : SessionLifecycleEvent }.

Definition transition (l : SessionLifecycle) (e : SessionLifecycleEvent) : InvalidTransition + SessionLifecycle :=
  match l, e with
  | Starting, FirstTabCreated => inr Running
  | Running, LastClientDetached => inr Detaching
  | Detaching, ClientAttached => inr Running
  | (Starting | Running | Detaching), StopRequested => inr Stopping
  | Stopping, StopCompleted => inr Stopped
  | _, _ => inl (MkInvalidTransition l e)
  end.

#[export] Instance SessionLifecycle_eq_dec : EqDecision SessionLifecycle.
Proof. solve_decision. Defined.

(** ** Errors *)

Inductive FloatingSetError := DuplicatePane (pane_id : PaneId) | TooManyPanes.

Inductive SessionConsistencyError :=
  | PaneNotInRegistry (tab_id : TabId) (pane_id : PaneId)
  | OrphanedPaneRecord (pane_id : PaneId)
  | FocusPaneNotInRegistry (client_id : ClientId) (tab_id : TabId) (pane_id : PaneId)
  | FocusTabMissing (client_id : ClientId) (tab_id : TabId)
  | FocusTargetMissing (client_id : ClientId) (tab_id : TabId) (pane_id : PaneId)
  | ZoomTargetMissing (client_id : ClientId) (tab_id : TabId) (pane_id : PaneId)
  | ActiveTabMissing (client_id : ClientId) (tab_id : TabId)
  | PaneInMultipleLayouts (pane_id : PaneId) (tab_ids : list TabId)
  | TabKeyMismatch (stored_tab_id reported_tab_id : TabId)
  | ClientSessionMismatch (client_id : ClientId) (found_session_id : SessionId)
  | DuplicateTabIndex (tab_index : nat)
  | TooManyFloatingPanes (floating_pane_count : nat)
  | EmptyFloatingPane (floating_pane_id : FloatingPaneId)
  | DuplicateFloatingPaneId (floating_pane_id : FloatingPaneId)
  | FloatingPaneSolveSizeStale (floating_pane_id : FloatingPaneId) (solved_layout_size floating_layout_size : Size)
  | FloatingPaneSolveStale (floating_pane_id : FloatingPaneId)
  | FloatingPaneNotInRegistry (pane_id : PaneId)
  | PaneInMultipleFloatingPanes (pane_id : PaneId) (floating_pane_ids : list FloatingPaneId)
  | FloatingPaneInLayout (pane_id : PaneId) (tab_ids : list TabId)
  | FloatingViewTargetMissing (client_id : ClientId) (floating_pane_id : FloatingPaneId)
  | FloatingViewMissing (client_id : ClientId) (floating_pane_id : FloatingPaneId)
  | FloatingFocusHistoryEmpty (client_id : ClientId) (floating_pane_id : FloatingPaneId)
  | FloatingFocusTargetMissing (client_id : ClientId) (floating_pane_id : FloatingPaneId) (pane_id : PaneId)
  | FloatingZoomTargetMissing (client_id : ClientId) (floating_pane_id : FloatingPaneId) (pane_id : PaneId)
  | ShownFloatingPaneMissing (client_id : ClientId) (floating_pane_id : FloatingPaneId)
  | DuplicateShownFloatingPane (client_id : ClientId) (floating_pane_id : FloatingPaneId)
  | FloatingPaneShownStateMismatch (client_id : ClientId) (floating_pane_id : FloatingPaneId) (is_minimized : bool)
  | FloatingFocusNotNewestShown (client_id : ClientId)
      (focused_floating_pane_id newest_shown_floating_pane_id : option FloatingPaneId)
  | UndrawableFloatingPaneShown (client_id : ClientId) (floating_pane_id : FloatingPaneId)
  | TabSolveStale (tab_id : TabId)
  | TabSolveSizeStale (tab_id : TabId) (solved_tab_size tab_size : Size)
  | SuppressedPaneFocused (client_id : ClientId) (tab_id : TabId) (pane_id : PaneId).

(** ** Pane records *)

Record PaneRecord := MkPaneRecord
  { record_pane_id : PaneId; spawn_spec : option SpawnSpec; working_directory : option string }.

Definition from_terminal_pane (pane_id : PaneId) : PaneRecord := MkPaneRecord pane_id None None.

(** [pane_record_by_id] *)
Definition PaneRegistry := gmap PaneId PaneRecord.

Definition get_pane_record_by_id (panes : PaneRegistry) (pane_id : PaneId) : option PaneRecord := panes !! pane_id.

Definition is_registered (panes : PaneRegistry) (pane_id : PaneId) : bool :=
  match get_pane_record_by_id panes pane_id with Some _ => true | None => false end.

(** [Err(DuplicateId)] with the id of the rejected record. *)
Definition register_pane_record (r : PaneRecord) (panes : PaneRegistry) : option PaneId * PaneRegistry :=
  if is_registered panes (record_pane_id r) then (Some (record_pane_id r), panes)
  else (None, <[record_pane_id r := r]> panes).

Definition remove_pane_record (pane_id : PaneId) (panes : PaneRegistry) : option PaneRecord * PaneRegistry :=
  (panes !! pane_id, delete pane_id panes).

Definition list_pane_records (panes : PaneRegistry) : list PaneRecord := btree_values panes.
