(* ===== verification/LayoutAreas.v ===== *)
(** * Tabs and floating panes
    ([crates/koshi-session/src/session/state.rs], and the floating geometry of
    [crates/koshi-session/src/client.rs])

    A layout area is a tree solved at a size, with the solve kept beside it. A
    tab is a layout area with a focus history; a floating pane is one inside a
    box with a titlebar strip. *)

From stdpp Require Import gmap strings options.
From S2P Require Import Prelude Geometry Size Tree Solver Records SessionData.
#[local] Open Scope N_scope.

#[export] Instance LayoutSolve_eq_dec : EqDecision LayoutSolve.
Proof. solve_decision. Defined.
#[export] Instance PaneSizing_eq_dec : EqDecision PaneSizing.
Proof. solve_decision. Defined.

(** ** Layout areas *)

Inductive LayoutAreaId :=
  | TabArea (area_tab_id : TabId)
  | FloatingPaneArea (area_floating_pane_id : FloatingPaneId).

Record LayoutArea := MkLayoutArea { layout : LayoutNode; solved_size : Size; layout_solve : LayoutSolve }.

#[export] Instance LayoutArea_rebuild : Rebuild LayoutArea := fun a => MkLayoutArea (layout a) (solved_size a) (layout_solve a).

Definition compute_layout_solve (a : LayoutArea) (pane_sizing : PaneSizing) : LayoutSolve :=
  solve_layout_with_sizing (layout a) (from_size_at_origin (solved_size a)) pane_sizing.

(** The area solved again; the solve it held is [layout_solve a]. *)
Definition update_layout_solve (pane_sizing : PaneSizing) (a : LayoutArea) : LayoutArea :=
  a <| layout_solve := compute_layout_solve a pane_sizing |>.

(** [LayoutSolve::default] *)
Definition empty_layout_solve : LayoutSolve := MkLayoutSolve [] [] false [].

Definition area_from_layout_tree (layout_tree : LayoutNode) (solved_size : Size) (pane_sizing : PaneSizing) : LayoutArea :=
  update_layout_solve pane_sizing (MkLayoutArea layout_tree solved_size empty_layout_solve).

Definition build_zoomed_solve (a : LayoutArea) (zoomed_pane_id : PaneId) (pane_sizing : PaneSizing) : option LayoutSolve :=
  if negb (has_pane zoomed_pane_id (layout a)) then None
  else Some (solve_layout_with_mode (layout a) (Fullscreen zoomed_pane_id) (from_size_at_origin (solved_size a)) pane_sizing).

Definition build_client_solve (a : LayoutArea) (layout_mode : LayoutMode) (focus_history : list PaneId)
    (pane_sizing : PaneSizing) : option LayoutSolve :=
  match layout_mode with
  | Fullscreen focused_pane_id => build_zoomed_solve a focused_pane_id pane_sizing
  | Tiled =>
      shown_layout_tree ← build_shown_layout_tree (layout a) focus_history;
      Some (solve_layout_with_sizing shown_layout_tree (from_size_at_origin (solved_size a)) pane_sizing)
  end.

(** ** Tabs *)

Record Tab := MkTab
  { tab_id : TabId; tab_name : string; tab_index : nat; tab_area : LayoutArea; focus_mru : list PaneId }.

#[export] Instance Tab_rebuild : Rebuild Tab :=
  fun t => MkTab (tab_id t) (tab_name t) (tab_index t) (tab_area t) (focus_mru t).

Definition tab_from_layout_tree (id : TabId) (name : string) (index : nat) (layout_tree : LayoutNode) (tab_size : Size)
    (pane_sizing : PaneSizing) : Tab :=
  MkTab id name index (area_from_layout_tree layout_tree tab_size pane_sizing) [].

Definition tab_tree (t : Tab) : LayoutNode := layout (tab_area t).
Definition tab_solve (t : Tab) : LayoutSolve := layout_solve (tab_area t).
Definition get_solved_tab_size (t : Tab) : Size := solved_size (tab_area t).

(** [retain] of every element but one. *)
Definition without (x : N) (l : list N) : list N := List.filter (fun y => negb (y =? x)) l.

Definition record_focus_mru (pane_id : PaneId) (t : Tab) : Tab :=
  t <| focus_mru := take MAX_TAB_FOCUS_MRU_ENTRY_COUNT (pane_id :: without pane_id (focus_mru t)) |>.

Definition remove_focus_mru (pane_id : PaneId) (t : Tab) : Tab := t <| focus_mru := without pane_id (focus_mru t) |>.

(** ** Floating panes *)

Record FloatingPane := MkFloatingPane
  { floating_pane_id : FloatingPaneId;
    floating_area : LayoutArea;
    desired_size : FloatingPaneSize;
    floating_solved_size : Size }.

#[export] Instance FloatingPane_rebuild : Rebuild FloatingPane :=
  fun f => MkFloatingPane (floating_pane_id f) (floating_area f) (desired_size f) (floating_solved_size f).

Definition compute_floating_layout_size (solved_size : Size) : Size :=
  MkSize (column_count solved_size) (u16_saturating_sub (row_count solved_size) FLOATING_TITLEBAR_STRIP_ROW_COUNT).

(** [FloatingPaneId::new] gives a fresh id. *)
Definition from_pane (id : FloatingPaneId) (pane_id : PaneId) (desired_size : FloatingPaneSize) (solved_size : Size)
    (pane_sizing : PaneSizing) : FloatingPane :=
  MkFloatingPane id (area_from_layout_tree (Pane pane_id) (compute_floating_layout_size solved_size) pane_sizing)
    desired_size solved_size.

Definition floating_tree (f : FloatingPane) : LayoutNode := layout (floating_area f).
Definition floating_solve (f : FloatingPane) : LayoutSolve := layout_solve (floating_area f).
Definition list_pane_ids (f : FloatingPane) : list PaneId := list_leaf_pane_ids (floating_tree f).
Definition floating_has_pane (pane_id : PaneId) (f : FloatingPane) : bool := has_pane pane_id (floating_tree f).

Definition u16_or_max (n : N) : N := default U16_MAX (u16_try_from n).

Definition compute_floating_pane_minimum_size (layout_minimum_size : RequiredSize) : Size :=
  MkSize (u16_or_max (required_column_count layout_minimum_size))
    (u16_or_max (u32_saturating_add (required_row_count layout_minimum_size) FLOATING_TITLEBAR_STRIP_ROW_COUNT)).

Definition floating_minimum_size (pane_sizing : PaneSizing) (f : FloatingPane) : Size :=
  compute_floating_pane_minimum_size (compute_minimum_size pane_sizing (floating_tree f)).

Definition compute_one_pane_floating_content_size (solved_size : Size) : Size :=
  MkSize (u16_saturating_sub (column_count solved_size) (column_count PANE_BORDER_SIZE))
    (u16_saturating_sub (u16_saturating_sub (row_count solved_size) FLOATING_TITLEBAR_STRIP_ROW_COUNT)
       (row_count PANE_BORDER_SIZE)).

(** ** The size and the place of a floating pane *)

Definition MIN_FLOATING_PANE_SIZE : Size :=
  MkSize (column_count MIN_PANE_SIZE + column_count PANE_BORDER_SIZE)
    (row_count MIN_PANE_SIZE + row_count PANE_BORDER_SIZE + FLOATING_TITLEBAR_STRIP_ROW_COUNT).

Definition MAX_FLOATING_PANE_AXIS_PERCENT : N := 90.

Definition compute_floating_pane_size_cap (floating_viewport : Size) : Size :=
  MkSize (compute_percent_cell_count (column_count floating_viewport) MAX_FLOATING_PANE_AXIS_PERCENT)
    (compute_percent_cell_count (row_count floating_viewport) MAX_FLOATING_PANE_AXIS_PERCENT).

Definition compute_default_pane_area_size (viewport_size : Size) : Size :=
  MkSize (column_count viewport_size) (u16_saturating_sub (row_count viewport_size) 2).

Definition solve_floating_pane_axis (floating_pane_dimension : FloatingPaneDimension)
    (axis_cell_count minimum_cell_count cap_cell_count : N) : N :=
  let requested_cell_count :=
    match floating_pane_dimension with
    | Cells cell_count => cell_count
    | PercentOfAxis axis_percent => compute_percent_cell_count axis_cell_count (get_percent axis_percent)
    end in
  (requested_cell_count `max` minimum_cell_count) `min` cap_cell_count.

Definition solve_floating_pane_size (desired_size : FloatingPaneSize) (shared_floating_viewport floating_pane_minimum_size : Size)
    : Size :=
  let floating_pane_size_cap := compute_floating_pane_size_cap shared_floating_viewport in
  MkSize
    (solve_floating_pane_axis (width desired_size) (column_count shared_floating_viewport)
       (column_count floating_pane_minimum_size) (column_count floating_pane_size_cap))
    (solve_floating_pane_axis (height desired_size) (row_count shared_floating_viewport)
       (row_count floating_pane_minimum_size) (row_count floating_pane_size_cap)).

Definition place_floating_pane (position : FloatingPanePosition) (size : Size) (cascade_index : nat) (client_viewport : Size)
    : Rect :=
  let free_column_count := u16_saturating_sub (column_count client_viewport) (column_count size) in
  let free_row_count := u16_saturating_sub (row_count client_viewport) (row_count size) in
  let unclamped_top_left_cell :=
    match position with
    | Moved top_left_cell | Pinned top_left_cell => top_left_cell
    | DefaultPosition =>
        let centered_cell := compute_centered_origin client_viewport size in
        let right_margin := free_column_count -16 column centered_cell in
        let bottom_margin := free_row_count -16 row centered_cell in
        let max_cascade_steps := N.to_nat ((right_margin `div` 2) `min` bottom_margin) in
        let cascade_step := usize_as_u16 (cascade_index mod (max_cascade_steps + 1)) in
        MkPoint (column centered_cell +16 as_u16 (2 * cascade_step)) (row centered_cell +16 cascade_step)
    end in
  compute_moved_inside (from_origin_and_size unclamped_top_left_cell size) client_viewport.

(** ** The set of floating panes *)

(** [floating_panes], in the order they were created. *)
Definition FloatingSet := list FloatingPane.

Definition set_pane_ids (s : FloatingSet) : list PaneId := s ≫= list_pane_ids.

Definition find_floating_pane_by_pane_id (s : FloatingSet) (pane_id : PaneId) : option (nat * FloatingPane) :=
  list_find (fun f => floating_has_pane pane_id f = true) s.

Definition find_floating_pane_by_id (s : FloatingSet) (id : FloatingPaneId) : option (nat * FloatingPane) :=
  list_find (fun f => floating_pane_id f = id) s.

Definition set_has_pane (pane_id : PaneId) (s : FloatingSet) : bool := bool_decide (is_Some (find_floating_pane_by_pane_id s pane_id)).

Definition is_full (s : FloatingSet) : bool := (MAX_FLOATING_PANES_PER_SESSION <=? length s)%nat.

Definition set_add_floating_pane (f : FloatingPane) (s : FloatingSet) : FloatingSetError + FloatingSet :=
  match List.find (fun pane_id => set_has_pane pane_id s) (list_pane_ids f) with
  | Some pane_id => inl (DuplicatePane pane_id)
  | None => if is_full s then inl TooManyPanes else inr (s ++ [f])
  end.

(** One floating pane of the loop of [update_floating_pane_sizes], with the
    solve it held where its size changed. *)
Definition update_floating_pane_size (shared_floating_viewport : Size) (pane_sizing : PaneSizing) (f : FloatingPane)
    : FloatingPane * option (FloatingPaneId * LayoutSolve) :=
  let size := solve_floating_pane_size (desired_size f) shared_floating_viewport (floating_minimum_size pane_sizing f) in
  if bool_decide (floating_solved_size f = size) then (f, None)
  else
    let area := floating_area f <| solved_size := compute_floating_layout_size size |> in
    (f <| floating_solved_size := size |> <| floating_area := update_layout_solve pane_sizing area |>,
     Some (floating_pane_id f, layout_solve area)).

Definition set_update_floating_pane_sizes (shared_floating_viewport : Size) (pane_sizing : PaneSizing) (s : FloatingSet)
    : FloatingSet * list (FloatingPaneId * LayoutSolve) :=
  let updates := update_floating_pane_size shared_floating_viewport pane_sizing <$> s in
  (updates.*1, omap snd updates).

(** [iter_mut().find] by id, and the change of the one found. *)
Definition update_floating_pane (id : FloatingPaneId) (change : FloatingPane -> FloatingPane) (s : FloatingSet) : FloatingSet :=
  match find_floating_pane_by_id s id with
  | Some (i, f) => <[i := change f]> s
  | None => s
  end.

Definition update_floating_pane_desired_size (id : FloatingPaneId) (size : FloatingPaneSize) (s : FloatingSet)
    : bool * FloatingSet :=
  (bool_decide (is_Some (find_floating_pane_by_id s id)), update_floating_pane id (fun f => f <| desired_size := size |>) s).
