(* ===== verification/Client.v ===== *)
(** * Attached clients ([crates/koshi-session/src/client.rs])

    What one client looks at: its active tab, its focus and zoom in every tab,
    its view of every floating pane, and the solves it keeps for itself. A
    [OnceCell] is an option, filled by the first read; a method that changes a
    client is a function from the client, with what it returns beside it. *)

From stdpp Require Import gmap strings options.
From S2P Require Import Prelude Geometry Size Tree Solver Records SessionData LayoutAreas.
#[local] Open Scope N_scope.

(** ** Data *)

Record FloatingPaneView := MkFloatingPaneView
  { position : FloatingPanePosition;
    is_minimized : bool;
    focus_history : list PaneId;
    zoomed_pane_id : option PaneId }.

#[export] Instance FloatingPaneView_rebuild : Rebuild FloatingPaneView :=
  fun v => MkFloatingPaneView (position v) (is_minimized v) (focus_history v) (zoomed_pane_id v).
#[export] Instance FloatingPaneView_eq_dec : EqDecision FloatingPaneView.
Proof. solve_decision. Defined.

Definition view_layout_mode (v : FloatingPaneView) : LayoutMode :=
  match zoomed_pane_id v with Some zoomed_pane_id => Fullscreen zoomed_pane_id | None => Tiled end.

Record FloatingPaneViewWithOwnSolve := MkFloatingPaneViewWithOwnSolve
  { floating_pane_view : FloatingPaneView; own_solve : option (option LayoutSolve) }.

#[export] Instance FloatingPaneViewWithOwnSolve_rebuild : Rebuild FloatingPaneViewWithOwnSolve :=
  fun v => MkFloatingPaneViewWithOwnSolve (floating_pane_view v) (own_solve v).

Record TiledPaneFocusChange := MkTiledPaneFocusChange
  { previous_pane_id : option PaneId; minimized_floating_pane_ids : list FloatingPaneId }.

Record Client := MkClient
  { client_id : ClientId;
    session_id : SessionId;
    attached_at : N;
    viewport_size : Size;
    cell_size : option PixelCellSize;
    pane_area : option PaneArea;
    active_tab_id : TabId;
    client_origin : ClientOrigin;
    label : string;
    color_index : N;
    focus_history_by_tab_id : gmap TabId (list PaneId);
    lock_mode : LockMode;
    last_applied_lock_command_id : option CommandId;
    last_applied_floating_pane_move_command_id : option CommandId;
    last_applied_placement_command_id : option CommandId;
    is_mouse_selection_enabled : bool;
    scroll_offset_by_pane_id : gmap PaneId nat;
    selection_by_pane_id : gmap PaneId Selection;
    zoomed_pane_id_by_tab_id : gmap TabId PaneId;
    own_active_tab_solve : option (option LayoutSolve);
    view_by_floating_pane_id : gmap FloatingPaneId FloatingPaneViewWithOwnSolve;
    shown_floating_pane_ids : list FloatingPaneId;
    focused_floating_pane_id : option FloatingPaneId;
    is_view_changed : bool }.

#[export] Instance Client_rebuild : Rebuild Client :=
  fun c => MkClient (client_id c) (session_id c) (attached_at c) (viewport_size c) (cell_size c) (pane_area c)
    (active_tab_id c) (client_origin c) (label c) (color_index c) (focus_history_by_tab_id c) (lock_mode c)
    (last_applied_lock_command_id c) (last_applied_floating_pane_move_command_id c)
    (last_applied_placement_command_id c) (is_mouse_selection_enabled c) (scroll_offset_by_pane_id c)
    (selection_by_pane_id c) (zoomed_pane_id_by_tab_id c) (own_active_tab_solve c) (view_by_floating_pane_id c)
    (shown_floating_pane_ids c) (focused_floating_pane_id c) (is_view_changed c).

Definition from_attachment (id : ClientId) (session : SessionId) (attached : N) (viewport : Size) (area : option PaneArea)
    (active_tab : TabId) (o : ClientOrigin) (name : string) (color : N) : Client :=
  MkClient id session attached viewport None area active_tab o name color ∅ Normal None None None false ∅ ∅ ∅ None ∅ [] None false.

(** [self.is_view_changed |= is_changed] *)
Definition note_view_change (is_changed : bool) (c : Client) : Client :=
  c <| is_view_changed := is_view_changed c || is_changed |>.

Definition clear_own_active_tab_solve (c : Client) : Client := c <| own_active_tab_solve := None |>.

(** ** Focus and zoom in tabs *)

Definition list_focus_history (c : Client) (tab : TabId) : list PaneId := default [] (focus_history_by_tab_id c !! tab).

Definition get_focused_pane_id (c : Client) (tab : TabId) : option PaneId := head (list_focus_history c tab).

Definition get_floating_pane_view (c : Client) (id : FloatingPaneId) : option FloatingPaneView :=
  floating_pane_view <$> view_by_floating_pane_id c !! id.

Definition find_floating_pane_input_pane_id (c : Client) (id : FloatingPaneId) : option PaneId :=
  v ← get_floating_pane_view c id; head (focus_history v).

Definition find_focused_floating_pane_input_pane_id (c : Client) : option PaneId :=
  id ← focused_floating_pane_id c; find_floating_pane_input_pane_id c id.

Definition get_active_focused_pane_id (c : Client) : option PaneId :=
  match find_focused_floating_pane_input_pane_id c with
  | Some pane_id => Some pane_id
  | None => get_focused_pane_id c (active_tab_id c)
  end.

Definition get_zoomed_pane_id (c : Client) (tab : TabId) : option PaneId := zoomed_pane_id_by_tab_id c !! tab.

Definition get_layout_mode (c : Client) (tab : TabId) : LayoutMode :=
  match get_zoomed_pane_id c tab with Some focused_pane_id => Fullscreen focused_pane_id | None => Tiled end.

Definition zoom_pane (tab : TabId) (pane_id : PaneId) (c : Client) : Client :=
  let is_changed := negb (bool_decide (get_zoomed_pane_id c tab = Some pane_id)) in
  clear_own_active_tab_solve
    (note_view_change is_changed (c <| zoomed_pane_id_by_tab_id := <[tab := pane_id]> (zoomed_pane_id_by_tab_id c) |>)).

Definition clear_zoom (tab : TabId) (c : Client) : Client :=
  let is_changed := bool_decide (is_Some (get_zoomed_pane_id c tab)) in
  clear_own_active_tab_solve
    (note_view_change is_changed (c <| zoomed_pane_id_by_tab_id := delete tab (zoomed_pane_id_by_tab_id c) |>)).

(** A change of the floating view [id], with the solve the client keeps of it
    emptied where [is_emptied]. *)
Definition set_floating_pane_view (id : FloatingPaneId) (v : FloatingPaneView) (is_emptied : bool) (c : Client) : Client :=
  match view_by_floating_pane_id c !! id with
  | Some w =>
      c <| view_by_floating_pane_id :=
        <[id := MkFloatingPaneViewWithOwnSolve v (if is_emptied then None else own_solve w)]> (view_by_floating_pane_id c) |>
  | None => c
  end.

Definition clear_own_floating_pane_solve (id : FloatingPaneId) (c : Client) : Client :=
  match get_floating_pane_view c id with
  | Some v => set_floating_pane_view id v true c
  | None => c
  end.

Definition clear_floating_pane_zoom (id : FloatingPaneId) (c : Client) : Client :=
  match get_floating_pane_view c id with
  | None => c
  | Some v =>
      match zoomed_pane_id v with
      | None => c
      | Some _ => note_view_change true (set_floating_pane_view id (v <| zoomed_pane_id := None |>) true c)
      end
  end.

(** The views come in the order of a hash map: each is changed on its own. *)
Definition clear_zoom_of_pane (pane_id : PaneId) (c : Client) : Client :=
  let zoomed := filter (fun entry : TabId * PaneId => entry.2 <> pane_id) (zoomed_pane_id_by_tab_id c) in
  let is_changed := negb (bool_decide (base.size zoomed = base.size (zoomed_pane_id_by_tab_id c))) in
  let c := clear_own_active_tab_solve (note_view_change is_changed (c <| zoomed_pane_id_by_tab_id := zoomed |>)) in
  let floating_pane_ids :=
    btree_keys (filter (fun entry : FloatingPaneId * FloatingPaneViewWithOwnSolve =>
      zoomed_pane_id (floating_pane_view entry.2) = Some pane_id) (view_by_floating_pane_id c)) in
  foldl (fun c id => clear_floating_pane_zoom id c) c floating_pane_ids.

(** With the pane that was focused before. *)
Definition update_focused_pane (tab : TabId) (pane_id : PaneId) (c : Client) : option PaneId * Client :=
  let c :=
    match get_zoomed_pane_id c tab with
    | Some zoomed =>
        note_view_change (negb (zoomed =? pane_id))
          (c <| zoomed_pane_id_by_tab_id := <[tab := pane_id]> (zoomed_pane_id_by_tab_id c) |>)
    | None => c
    end in
  let history := list_focus_history c tab in
  let previous := head history in
  let c := c <| focus_history_by_tab_id := <[tab := pane_id :: without pane_id history]> (focus_history_by_tab_id c) |> in
  (previous, clear_own_active_tab_solve (note_view_change (negb (bool_decide (previous = Some pane_id))) c)).

Definition remove_pane_from_focus_history (tab : TabId) (pane_id : PaneId) (c : Client) : Client :=
  match focus_history_by_tab_id c !! tab with
  | None => c
  | Some history =>
      let kept := without pane_id history in
      let c := note_view_change (negb (length kept =? length history)%nat)
        (c <| focus_history_by_tab_id :=
            if bool_decide (kept = []) then delete tab (focus_history_by_tab_id c)
            else <[tab := kept]> (focus_history_by_tab_id c) |>) in
      clear_own_active_tab_solve c
  end.

Definition insert_panes_into_focus_history (tab : TabId) (history_index : nat) (pane_ids : list PaneId) (c : Client) : Client :=
  let history := list_focus_history c tab in
  let inserted_pane_ids := List.filter (fun pane_id => negb (bool_decide (pane_id ∈ history))) pane_ids in
  if bool_decide (inserted_pane_ids = []) then c
  else
    let insertion_index := (history_index `min` length history)%nat in
    clear_own_active_tab_solve (note_view_change true
      (c <| focus_history_by_tab_id :=
          <[tab := take insertion_index history ++ inserted_pane_ids ++ drop insertion_index history]>
            (focus_history_by_tab_id c) |>)).

Definition clear_focus_history (tab : TabId) (c : Client) : Client :=
  let is_changed := bool_decide (is_Some (focus_history_by_tab_id c !! tab)) || bool_decide (is_Some (get_zoomed_pane_id c tab)) in
  clear_own_active_tab_solve (note_view_change is_changed
    (c <| focus_history_by_tab_id := delete tab (focus_history_by_tab_id c) |>
       <| zoomed_pane_id_by_tab_id := delete tab (zoomed_pane_id_by_tab_id c) |>)).

Definition update_active_tab_id (tab : TabId) (c : Client) : Client :=
  clear_own_active_tab_solve (note_view_change (negb (active_tab_id c =? tab)) c <| active_tab_id := tab |>).

(** ** Scrolling and selecting *)

Definition get_scroll_offset (c : Client) (pane_id : PaneId) : nat := default 0%nat (scroll_offset_by_pane_id c !! pane_id).

Definition set_scroll_offset (pane_id : PaneId) (scroll_offset : nat) (c : Client) : Client :=
  let is_changed := negb (get_scroll_offset c pane_id =? scroll_offset)%nat in
  note_view_change is_changed
    (c <| scroll_offset_by_pane_id :=
        if (scroll_offset =? 0)%nat then delete pane_id (scroll_offset_by_pane_id c)
        else <[pane_id := scroll_offset]> (scroll_offset_by_pane_id c) |>).

Definition get_selection (c : Client) (pane_id : PaneId) : option Selection := selection_by_pane_id c !! pane_id.

Definition set_selection (pane_id : PaneId) (selection : Selection) (c : Client) : Client :=
  let is_changed := negb (bool_decide (get_selection c pane_id = Some selection)) in
  note_view_change is_changed (c <| selection_by_pane_id := <[pane_id := selection]> (selection_by_pane_id c) |>).

Definition clear_selection (pane_id : PaneId) (c : Client) : Client :=
  let is_changed := bool_decide (is_Some (get_selection c pane_id)) in
  note_view_change is_changed (c <| selection_by_pane_id := delete pane_id (selection_by_pane_id c) |>).

Definition is_view_held (c : Client) (pane_id : PaneId) : bool :=
  (0 <? get_scroll_offset c pane_id)%nat || bool_decide (is_Some (get_selection c pane_id)).

(** ** Modes, sizes and applied commands *)

Definition update_lock_mode (mode : LockMode) (c : Client) : Client :=
  note_view_change (negb (bool_decide (lock_mode c = mode))) (c <| lock_mode := mode |>).

Definition set_last_applied_lock_command_id (id : CommandId) (c : Client) : Client :=
  note_view_change (negb (bool_decide (last_applied_lock_command_id c = Some id)))
    (c <| last_applied_lock_command_id := Some id |>).

Definition set_last_applied_floating_pane_move_command_id (id : CommandId) (c : Client) : Client :=
  note_view_change (negb (bool_decide (last_applied_floating_pane_move_command_id c = Some id)))
    (c <| last_applied_floating_pane_move_command_id := Some id |>).

Definition set_last_applied_placement_command_id (id : CommandId) (c : Client) : Client :=
  note_view_change (negb (bool_decide (last_applied_placement_command_id c = Some id)))
    (c <| last_applied_placement_command_id := Some id |>).

Definition toggle_mouse_selection (c : Client) : bool * Client :=
  let is_enabled := negb (is_mouse_selection_enabled c) in
  (is_enabled, note_view_change true (c <| is_mouse_selection_enabled := is_enabled |>)).

Definition update_cell_size (cell : option PixelCellSize) (c : Client) : Client := c <| cell_size := cell |>.

Definition update_viewport_size (viewport : Size) (c : Client) : Client :=
  note_view_change (negb (bool_decide (viewport_size c = viewport))) (c <| viewport_size := viewport |>).

Definition get_pane_area (c : Client) : option Size :=
  match pane_area c with
  | None => Some (compute_default_pane_area_size (viewport_size c))
  | Some (Reported size) => Some (compute_minimum_axes size (viewport_size c))
  | Some Starving => None
  end.

Definition get_floating_viewport (c : Client) : option Size :=
  area ← get_pane_area c;
  if Size_can_fit_inside MIN_FLOATING_PANE_SIZE (compute_floating_pane_size_cap area) then Some area else None.

Definition update_pane_area (area : option PaneArea) (c : Client) : Client :=
  note_view_change (negb (bool_decide (pane_area c = area))) (c <| pane_area := area |>).

Definition update_origin (o : ClientOrigin) (c : Client) : Client := c <| client_origin := o |>.

(** ** Floating views *)

Definition is_floating_pane_shown (c : Client) (id : FloatingPaneId) : bool :=
  match get_floating_pane_view c id with Some v => negb (is_minimized v) | None => false end.

Definition add_floating_pane_view (f : FloatingPane) (p : FloatingPanePosition) (c : Client) : Client :=
  match view_by_floating_pane_id c !! floating_pane_id f with
  | Some _ => c
  | None =>
      let v := MkFloatingPaneView p true (take 1 (list_pane_ids f)) None in
      c <| view_by_floating_pane_id :=
        <[floating_pane_id f := MkFloatingPaneViewWithOwnSolve v None]> (view_by_floating_pane_id c) |>
  end.

(** Whether the floating pane was minimized. *)
Definition focus_floating_pane (id : FloatingPaneId) (c : Client) : bool * Client :=
  match get_floating_pane_view c id with
  | None => (false, c)
  | Some v =>
      let is_changed :=
        is_minimized v || negb (bool_decide (last (shown_floating_pane_ids c) = Some id))
        || negb (bool_decide (focused_floating_pane_id c = Some id)) in
      let c := set_floating_pane_view id (v <| is_minimized := false |>) false c in
      (is_minimized v,
       note_view_change is_changed
         (c <| shown_floating_pane_ids := without id (shown_floating_pane_ids c) ++ [id] |>
            <| focused_floating_pane_id := Some id |>))
  end.

Definition update_floating_pane_focused_pane (id : FloatingPaneId) (pane_id : PaneId) (c : Client) : Client :=
  match get_floating_pane_view c id with
  | None => c
  | Some v =>
      if bool_decide (head (focus_history v) = Some pane_id) then c
      else
        let v' := v <| focus_history := pane_id :: without pane_id (focus_history v) |>
                    <| zoomed_pane_id := (fun _ => pane_id) <$> zoomed_pane_id v |> in
        note_view_change true (set_floating_pane_view id v' true c)
  end.

Definition remove_pane_from_floating_pane_focus_history (id : FloatingPaneId) (pane_id : PaneId) (c : Client) : Client :=
  match get_floating_pane_view c id with
  | None => c
  | Some v =>
      let kept := without pane_id (focus_history v) in
      let c' := set_floating_pane_view id (v <| focus_history := kept |>) in
      if (length kept =? length (focus_history v))%nat then c' false c else note_view_change true (c' true c)
  end.

Definition zoom_pane_in_floating_pane (id : FloatingPaneId) (pane_id : PaneId) (c : Client) : Client :=
  match get_floating_pane_view c id with
  | None => c
  | Some v =>
      note_view_change (negb (bool_decide (zoomed_pane_id v = Some pane_id)))
        (set_floating_pane_view id (v <| zoomed_pane_id := Some pane_id |>) true c)
  end.

Definition remove_shown_floating_pane (id : FloatingPaneId) (c : Client) : Client :=
  let kept := without id (shown_floating_pane_ids c) in
  let is_changed := negb (length kept =? length (shown_floating_pane_ids c))%nat in
  let c := note_view_change is_changed (c <| shown_floating_pane_ids := kept |>) in
  if bool_decide (focused_floating_pane_id c = Some id) then c <| focused_floating_pane_id := last kept |> else c.

Definition minimize_floating_pane (id : FloatingPaneId) (c : Client) : bool * Client :=
  match get_floating_pane_view c id with
  | None => (false, c)
  | Some v =>
      if is_minimized v then (false, c)
      else (true, remove_shown_floating_pane id (set_floating_pane_view id (v <| is_minimized := true |>) false c))
  end.

(** The views of the floating panes [ids] minimized. *)
Definition minimize_views (ids : list FloatingPaneId) (c : Client) : Client :=
  foldl (fun c id =>
    match get_floating_pane_view c id with
    | Some v => set_floating_pane_view id (v <| is_minimized := true |>) false c
    | None => c
    end) c ids.

Definition minimize_shown_floating_panes (c : Client) : list FloatingPaneId * Client :=
  let minimized := shown_floating_pane_ids c in
  let is_changed := negb (bool_decide (minimized = [])) || bool_decide (is_Some (focused_floating_pane_id c)) in
  (minimized,
   note_view_change is_changed
     (minimize_views minimized (c <| shown_floating_pane_ids := [] |>) <| focused_floating_pane_id := None |>)).

Definition update_floating_pane_position (id : FloatingPaneId) (p : FloatingPanePosition) (c : Client) : Client :=
  match get_floating_pane_view c id with
  | None => c
  | Some v =>
      note_view_change (negb (bool_decide (position v = p)) && negb (is_minimized v))
        (set_floating_pane_view id (v <| position := p |>) false c)
  end.

Definition pin_floating_pane (id : FloatingPaneId) (top_left_cell : Point) (c : Client) : Client :=
  update_floating_pane_position id (Pinned top_left_cell) c.

Definition unpin_floating_pane (id : FloatingPaneId) (c : Client) : Client :=
  match position <$> get_floating_pane_view c id with
  | Some (Pinned top_left_cell) => update_floating_pane_position id (Moved top_left_cell) c
  | _ => c
  end.

Definition set_floating_pane_position (id : FloatingPaneId) (top_left_cell : Point) (c : Client) : bool * Client :=
  match position <$> get_floating_pane_view c id with
  | None | Some (Pinned _) => (false, c)
  | Some _ => (true, update_floating_pane_position id (Moved top_left_cell) c)
  end.

Definition remove_floating_pane_view (id : FloatingPaneId) (c : Client) : Client :=
  remove_shown_floating_pane id (c <| view_by_floating_pane_id := delete id (view_by_floating_pane_id c) |>).

(** With the pane that took the client's input before, and the floating panes
    it minimized. *)
Definition focus_tiled_pane (tab : TabId) (pane_id : PaneId) (c : Client) : TiledPaneFocusChange * Client :=
  let previous_floating := find_focused_floating_pane_input_pane_id c in
  let '(minimized, c) := if tab =? active_tab_id c then minimize_shown_floating_panes c else ([], c) in
  let '(previous_tab_pane, c) := update_focused_pane tab pane_id c in
  let previous :=
    if tab =? active_tab_id c
    then match previous_floating with Some pane_id => Some pane_id | None => previous_tab_pane end
    else previous_tab_pane in
  (MkTiledPaneFocusChange previous minimized, c).

(** The view of one floating pane made from a saved one. *)
Definition restore_floating_view (saved : option FloatingPaneView) (shown : list FloatingPaneId) (f : FloatingPane)
    : FloatingPaneViewWithOwnSolve :=
  let saved_history :=
    match saved with
    | Some v => List.filter (fun pane_id => floating_has_pane pane_id f) (focus_history v)
    | None => []
    end in
  let history := if bool_decide (saved_history = []) then take 1 (list_pane_ids f) else saved_history in
  let zoomed :=
    zoomed_pane_id ← (saved ≫= zoomed_pane_id);
    if floating_has_pane zoomed_pane_id f then Some zoomed_pane_id else None in
  MkFloatingPaneViewWithOwnSolve
    (MkFloatingPaneView (match saved with Some v => position v | None => DefaultPosition end)
       (negb (bool_decide (floating_pane_id f ∈ shown))) history zoomed) None.

Definition replace_floating_view (saved_floating_pane_views : gmap FloatingPaneId FloatingPaneView)
    (saved_shown_floating_pane_ids : list FloatingPaneId) (floating_set : FloatingSet) (c : Client) : Client :=
  let shown :=
    List.filter (fun id =>
      bool_decide (is_Some (find_floating_pane_by_id floating_set id))
      && match saved_floating_pane_views !! id with Some v => negb (is_minimized v) | None => false end)
      saved_shown_floating_pane_ids in
  let views :=
    foldl (fun m f =>
      <[floating_pane_id f := restore_floating_view (saved_floating_pane_views !! floating_pane_id f) shown f]> m)
      ∅ floating_set in
  let focused := last shown in
  let is_changed :=
    negb (bool_decide (shown = shown_floating_pane_ids c)) || negb (bool_decide (focused = focused_floating_pane_id c))
    || existsb (fun id => negb (bool_decide (floating_pane_view <$> views !! id = get_floating_pane_view c id))) shown in
  note_view_change is_changed
    (c <| view_by_floating_pane_id := views |> <| shown_floating_pane_ids := shown |>
       <| focused_floating_pane_id := focused |>).

(** ** The registry *)

Record ClientRegistry := MkClientRegistry
  { client_by_id : gmap ClientId Client; has_client_write : bool; detached_client_ids : list ClientId }.

#[export] Instance ClientRegistry_rebuild : Rebuild ClientRegistry :=
  fun r => MkClientRegistry (client_by_id r) (has_client_write r) (detached_client_ids r).

Definition empty_client_registry : ClientRegistry := MkClientRegistry ∅ false [].

Definition get_client_by_id (id : ClientId) (r : ClientRegistry) : option Client := client_by_id r !! id.

(** [get_client_mut_by_id] and the change made through it. *)
Definition update_client (id : ClientId) (change : Client -> Client) (r : ClientRegistry) : ClientRegistry :=
  r <| has_client_write := true |> <| client_by_id := alter change id (client_by_id r) |>.

(** The loop over [list_attached_clients_mut]. *)
Definition update_every_client (change : Client -> Client) (r : ClientRegistry) : ClientRegistry :=
  r <| has_client_write := true |> <| client_by_id := change <$> client_by_id r |>.

Definition registry_detach_client (id : ClientId) (r : ClientRegistry) : option Client * ClientRegistry :=
  match client_by_id r !! id with
  | None => (None, r)
  | Some c =>
      (Some c, r <| client_by_id := delete id (client_by_id r) |> <| detached_client_ids := detached_client_ids r ++ [id] |>)
  end.

(** With the record that was under the id before. *)
Definition registry_attach_client (c : Client) (r : ClientRegistry) : option Client * ClientRegistry :=
  (client_by_id r !! client_id c,
   r <| has_client_write := true |>
     <| client_by_id := <[client_id c := c <| is_view_changed := true |>]> (client_by_id r) |>).

Definition list_attached_clients (r : ClientRegistry) : list Client := btree_values (client_by_id r).

Definition take_changed_client_ids (r : ClientRegistry) : gset ClientId * ClientRegistry :=
  let detached : gset ClientId := list_to_set (detached_client_ids r) in
  let r := r <| detached_client_ids := [] |> in
  if has_client_write r then
    (detached ∪ list_to_set (client_id <$> List.filter is_view_changed (list_attached_clients r)),
     r <| has_client_write := false |>
       <| client_by_id := (fun c => c <| is_view_changed := false |>) <$> client_by_id r |>)
  else (detached, r).

Definition clear_own_active_tab_solves (tab : TabId) (r : ClientRegistry) : ClientRegistry :=
  r <| client_by_id := (fun c => if active_tab_id c =? tab then clear_own_active_tab_solve c else c) <$> client_by_id r |>.

Definition clear_own_floating_pane_solves (id : FloatingPaneId) (r : ClientRegistry) : ClientRegistry :=
  r <| client_by_id := clear_own_floating_pane_solve id <$> client_by_id r |>.

Definition count_clients (r : ClientRegistry) : nat := base.size (client_by_id r).

Definition has_clients (r : ClientRegistry) : bool := negb (bool_decide (client_by_id r = ∅)).
