(* ===== verification/SessionState.v ===== *)
(** * The session ([crates/koshi-session/src/session/state.rs])

    The stores of a session and the reads and edits of them that hand no focus
    on. An operation that also reads a client's own solve is a state
    transformer over the session, since such a read may fill the cell the
    solve is kept in; [SolveStore] is what the operations ask of those cells,
    and the two instances are the cells of the source and no cells at all. *)

From stdpp Require Import gmap strings options.
From S2P Require Import Prelude Geometry Size Tree Solver DeltaConversion Records Notifications SessionData LayoutAreas Client.
#[local] Open Scope N_scope.

(** ** Data *)

Record SessionViewChanges := MkSessionViewChanges
  { layout_changed_tab_ids : gset TabId;
    changed_client_ids : gset ClientId;
    is_tab_bar_changed : bool;
    is_floating_set_changed : bool;
    is_pane_sizing_changed : bool }.

#[export] Instance SessionViewChanges_rebuild : Rebuild SessionViewChanges :=
  fun v => MkSessionViewChanges (layout_changed_tab_ids v) (changed_client_ids v) (is_tab_bar_changed v)
    (is_floating_set_changed v) (is_pane_sizing_changed v).

Definition no_view_changes : SessionViewChanges := MkSessionViewChanges ∅ ∅ false false false.

Record Session := MkSession
  { own_session_id : SessionId;
    session_name : string;
    created_at : N;
    tabs : gmap TabId Tab;
    floating_set : FloatingSet;
    panes : PaneRegistry;
    clients : ClientRegistry;
    should_start_locked : bool;
    starting_tab_id : option TabId;
    notification_queue : NotificationQueue;
    pane_sizing : PaneSizing;
    lifecycle : SessionLifecycle;
    view_changes : SessionViewChanges }.

#[export] Instance Session_rebuild : Rebuild Session :=
  fun s => MkSession (own_session_id s) (session_name s) (created_at s) (tabs s) (floating_set s) (panes s) (clients s)
    (should_start_locked s) (starting_tab_id s) (notification_queue s) (pane_sizing s) (lifecycle s) (view_changes s).

Definition from_identity_and_client_registry (id : SessionId) (name : string) (created : N) (r : ClientRegistry)
    (queue_epoch : N) : Session :=
  MkSession id name created ∅ [] ∅ r false None (from_owner (OwnedBySession id) queue_epoch) default_pane_sizing Starting
    no_view_changes.

(** ** State transformers *)

Definition session_op (A : Type) : Type := Session -> A * Session.

Definition ret {A} (x : A) : session_op A := fun s => (x, s).
Definition bind {A B} (m : session_op A) (k : A -> session_op B) : session_op B := fun s => let '(x, s) := m s in k x s.

Notation "'let!' x := m 'in' k" := (bind m (fun x => k)) (at level 200, x name, m at level 200, k at level 200).
Notation "'do!' m 'in' k" := (bind m (fun _ => k)) (at level 200, m at level 200, k at level 200).

Definition reads {A} (f : Session -> A) : session_op A := fun s => (f s, s).
Definition changes (f : Session -> Session) : session_op unit := fun s => (tt, f s).

(** The events of a loop over [l]. *)
Fixpoint for_each {A B} (f : A -> session_op (list B)) (l : list A) : session_op (list B) :=
  match l with
  | [] => ret []
  | x :: l => let! events := f x in let! more := for_each f l in ret (events ++ more)
  end.

(** [filter] and [map] of an iterator whose closure reads a kept solve. *)
Fixpoint filter_op {A} (f : A -> session_op bool) (l : list A) : session_op (list A) :=
  match l with
  | [] => ret []
  | x :: l => let! is_kept := f x in let! kept := filter_op f l in ret (if is_kept then x :: kept else kept)
  end.

Fixpoint map_op {A B} (f : A -> session_op B) (l : list A) : session_op (list B) :=
  match l with
  | [] => ret []
  | x :: l => let! y := f x in let! ys := map_op f l in ret (y :: ys)
  end.

Definition change_clients (f : ClientRegistry -> ClientRegistry) (s : Session) : Session := s <| clients := f (clients s) |>.
Definition change_tab (id : TabId) (f : Tab -> Tab) (s : Session) : Session := s <| tabs := alter f id (tabs s) |>.
Definition change_view_changes (f : SessionViewChanges -> SessionViewChanges) (s : Session) : Session :=
  s <| view_changes := f (view_changes s) |>.
Definition change_floating_set (f : FloatingSet -> FloatingSet) (s : Session) : Session := s <| floating_set := f (floating_set s) |>.

Definition note_layout_change (tab : TabId) : Session -> Session :=
  change_view_changes (fun v => v <| layout_changed_tab_ids := {[ tab ]} ∪ layout_changed_tab_ids v |>).
Definition note_floating_set_change : Session -> Session := change_view_changes (fun v => v <| is_floating_set_changed := true |>).
Definition note_tab_bar_change (b : bool) : Session -> Session :=
  change_view_changes (fun v => v <| is_tab_bar_changed := is_tab_bar_changed v || b |>).

Definition find_client (s : Session) (id : ClientId) : option Client := get_client_by_id id (clients s).
Definition attached_clients (s : Session) : list Client := list_attached_clients (clients s).

(** ** Tabs *)

Definition add_tab (t : Tab) (s : Session) : option Tab * Session :=
  (tabs s !! tab_id t, note_tab_bar_change true (s <| tabs := <[tab_id t := t]> (tabs s) |>)).

Definition remove_tab (id : TabId) (s : Session) : option Tab * Session :=
  match tabs s !! id with
  | None => (None, s)
  | Some t => (Some t, note_tab_bar_change true (s <| tabs := delete id (tabs s) |>))
  end.

Definition update_tab_index (id : TabId) (index : nat) (s : Session) : Session :=
  match tabs s !! id with
  | Some t => note_tab_bar_change (negb (tab_index t =? index)%nat) (change_tab id (fun t => t <| tab_index := index |>) s)
  | None => s
  end.

Definition find_tab_by_pane_id (s : Session) (pane_id : PaneId) : option Tab :=
  List.find (fun t => has_pane pane_id (tab_tree t)) (btree_values (tabs s)).

Definition find_layout_area_id_by_pane_id (s : Session) (pane_id : PaneId) : option LayoutAreaId :=
  match find_tab_by_pane_id s pane_id with
  | Some t => Some (TabArea (tab_id t))
  | None => '(_, f) ← find_floating_pane_by_pane_id (floating_set s) pane_id; Some (FloatingPaneArea (floating_pane_id f))
  end.

(** [Iterator::reduce] *)
Definition reduce {A} (f : A -> A -> A) (l : list A) : option A :=
  match l with [] => None | x :: l => Some (foldl f x l) end.

Definition is_viewing (tab : TabId) (c : Client) : bool := active_tab_id c =? tab.

Definition get_tab_size (s : Session) (tab : TabId) : option Size :=
  reduce compute_minimum_axes (omap get_pane_area (List.filter (is_viewing tab) (attached_clients s))).

Definition resolve_tab_solve_size (s : Session) (tab : TabId) : option Size :=
  match tabs s !! tab with
  | None => None
  | Some t =>
      if negb (existsb (is_viewing tab) (attached_clients s)) then Some (get_solved_tab_size t)
      else Some (default (MkSize 0 0) (get_tab_size s tab))
  end.

Definition session_convert_resize_deltas (pty_size_by_pane_id : gmap PaneId PtySize) (sizing : PaneSizing) (s : Session) : Session :=
  s <| tabs := (fun t => t <| tab_area := tab_area t <| layout :=
        convert_resize_deltas_to_apply_after_preferred (tab_tree t) pty_size_by_pane_id sizing |> |>) <$> tabs s |>.

(** ** Cell sizes and the shared floating viewport *)

(** [min_by_key] on the attachment time, then the id: the clients come in the
    order of their ids. *)
Definition find_earliest_reported_cell_size (cs : list Client) : option PixelCellSize :=
  c ← foldl (fun earliest c =>
    match cell_size c, earliest with
    | None, _ => earliest
    | Some _, None => Some c
    | Some _, Some c0 => if attached_at c <? attached_at c0 then Some c else earliest
    end) None cs;
  cell_size c.

Definition get_tab_cell_size (s : Session) (tab : TabId) : option PixelCellSize :=
  find_earliest_reported_cell_size (List.filter (is_viewing tab) (attached_clients s)).

Definition get_floating_cell_size (s : Session) : option PixelCellSize := find_earliest_reported_cell_size (attached_clients s).

Definition get_shared_floating_viewport (s : Session) : option Size :=
  reduce compute_minimum_axes (omap get_floating_viewport (attached_clients s)).

Definition compute_new_floating_pane_size (s : Session) (desired : FloatingPaneSize) : Size :=
  let minimum := compute_floating_pane_minimum_size (compute_border_inclusive_minimum (minimum_size (pane_sizing s))) in
  match get_shared_floating_viewport s with
  | Some shared => solve_floating_pane_size desired shared minimum
  | None => minimum
  end.

Definition find_client_floating_pane_rect (s : Session) (c : Client) (id : FloatingPaneId) : option Rect :=
  viewport ← get_floating_viewport c;
  '(cascade_index, f) ← find_floating_pane_by_id (floating_set s) id;
  v ← get_floating_pane_view c id;
  Some (place_floating_pane (position v) (floating_solved_size f) cascade_index viewport).

(** ** Solves as a client sees them *)

Definition build_own_client_solve (s : Session) (c : Client) (t : Tab) : option LayoutSolve :=
  build_client_solve (tab_area t) (get_layout_mode c (tab_id t)) (list_focus_history c (tab_id t)) (pane_sizing s).

Definition build_own_floating_solve (s : Session) (f : FloatingPane) (v : FloatingPaneView) : option LayoutSolve :=
  build_client_solve (floating_area f) (view_layout_mode v) (focus_history v) (pane_sizing s).

Definition compute_layout_mode_solve (s : Session) (area_id : LayoutAreaId) (mode : LayoutMode) : option LayoutSolve :=
  area ← match area_id with
         | TabArea id => tab_area <$> tabs s !! id
         | FloatingPaneArea id => '(_, f) ← find_floating_pane_by_id (floating_set s) id; Some (floating_area f)
         end;
  let zoomed :=
    match mode with Fullscreen focused => build_zoomed_solve area focused (pane_sizing s) | Tiled => None end in
  Some (default (layout_solve area) zoomed).

(** [OnceCell::get_or_init]: the value, whichever side gives it. *)
Definition get_or_init {A} (cell : option A) (built : A) : A := default built cell.

(** What the operations of a session ask of the solves the clients keep. *)
Class SolveStore := MkSolveStore
  { compute_client_solve : ClientId -> TabId -> session_op (option LayoutSolve);
    compute_client_floating_pane_solve : ClientId -> FloatingPaneId -> session_op (option LayoutSolve) }.

(** The cell of the client [id] filled: a write through a shared reference. *)
Definition fill_cell (id : ClientId) (fill : Client -> Client) : Session -> Session :=
  change_clients (fun r => r <| client_by_id := alter fill id (client_by_id r) |>).

Definition kept_client_solve (id : ClientId) (tab : TabId) : session_op (option LayoutSolve) := fun s =>
  match tabs s !! tab, find_client s id with
  | Some t, Some c =>
      if tab =? active_tab_id c then
        let own := get_or_init (own_active_tab_solve c) (build_own_client_solve s c t) in
        (Some (default (tab_solve t) own), fill_cell id (fun c => c <| own_active_tab_solve := Some own |>) s)
      else (Some (default (tab_solve t) (build_own_client_solve s c t)), s)
  | _, _ => (None, s)
  end.

Definition kept_floating_solve (id : ClientId) (floating : FloatingPaneId) : session_op (option LayoutSolve) := fun s =>
  match find_floating_pane_by_id (floating_set s) floating, find_client s id with
  | Some (_, f), Some c =>
      match view_by_floating_pane_id c !! floating with
      | Some w =>
          let own := get_or_init (own_solve w) (build_own_floating_solve s f (floating_pane_view w)) in
          (Some (default (floating_solve f) own),
           fill_cell id (fun c => c <| view_by_floating_pane_id :=
             <[floating := w <| own_solve := Some own |>]> (view_by_floating_pane_id c) |>) s)
      | None => (None, s)
      end
  | _, _ => (None, s)
  end.

(** The cells of the source. *)
#[export] Instance kept_solves : SolveStore := MkSolveStore kept_client_solve kept_floating_solve.

Definition client_solve_of (s : Session) (id : ClientId) (tab : TabId) : option LayoutSolve :=
  t ← tabs s !! tab; c ← find_client s id; Some (default (tab_solve t) (build_own_client_solve s c t)).

Definition floating_solve_of (s : Session) (id : ClientId) (floating : FloatingPaneId) : option LayoutSolve :=
  '(_, f) ← find_floating_pane_by_id (floating_set s) floating; c ← find_client s id;
  v ← get_floating_pane_view c floating; Some (default (floating_solve f) (build_own_floating_solve s f v)).

(** No cells: every solve built when it is asked for. *)
Definition fresh_solves : SolveStore :=
  MkSolveStore (fun id tab => reads (fun s => client_solve_of s id tab))
    (fun id floating => reads (fun s => floating_solve_of s id floating)).

(** ** The stores of floating panes and clients *)

Definition update_lifecycle (e : SessionLifecycleEvent) (s : Session) : option InvalidTransition * Session :=
  match transition (lifecycle s) e with
  | inr l => (None, s <| lifecycle := l |>)
  | inl error => (Some error, s)
  end.

Definition attach_client (c : Client) (s : Session) : option Client * Session :=
  let c := foldl (fun c f => add_floating_pane_view f DefaultPosition c) c (floating_set s) in
  let '(displaced, r) := registry_attach_client c (clients s) in
  (displaced, (update_lifecycle ClientAttached (s <| clients := r |>)).2).

Definition detach_client (id : ClientId) (s : Session) : option Client * Session :=
  let '(detached, r) := registry_detach_client id (clients s) in
  let s := s <| clients := r |> in
  (detached, if negb (has_clients r) then (update_lifecycle LastClientDetached s).2 else s).

Definition position_of (client_positions : list (ClientId * FloatingPanePosition)) (c : Client) : FloatingPanePosition :=
  match List.find (fun entry : ClientId * FloatingPanePosition => entry.1 =? client_id c) client_positions with
  | Some entry => entry.2
  | None => DefaultPosition
  end.

Definition session_add_floating_pane (f : FloatingPane) (client_positions : list (ClientId * FloatingPanePosition)) (s : Session)
    : option FloatingSetError * Session :=
  match set_add_floating_pane f (floating_set s) with
  | inl error => (Some error, s)
  | inr set =>
      (None, change_clients (update_every_client (fun c => add_floating_pane_view f (position_of client_positions c) c))
               (note_floating_set_change (s <| floating_set := set |>)))
  end.

Definition session_remove_floating_pane (id : FloatingPaneId) (s : Session) : option FloatingPane * Session :=
  match find_floating_pane_by_id (floating_set s) id with
  | None => (None, s)
  | Some (i, f) =>
      (Some f, change_clients (update_every_client (remove_floating_pane_view id))
                 (note_floating_set_change (change_floating_set (delete i) s)))
  end.

Definition request_session_stop (s : Session) : Session := (update_lifecycle StopRequested s).2.
Definition complete_session_stop (s : Session) : Session := (update_lifecycle StopCompleted s).2.

Definition take_view_changes (s : Session) : SessionViewChanges * Session :=
  let '(changed, r) := take_changed_client_ids (clients s) in
  (view_changes s <| changed_client_ids := changed |>, s <| view_changes := no_view_changes |> <| clients := r |>).

Definition take_start_lock (s : Session) : bool * Session := (should_start_locked s, s <| should_start_locked := false |>).

Definition take_starting_tab_id (s : Session) : option TabId * Session := (starting_tab_id s, s <| starting_tab_id := None |>).
