(* ===== verification/SessionFocus.v ===== *)
(** * Focus hand-over and solve updates
    ([crates/koshi-session/src/session/focus.rs], the focus repair of
    [cascade.rs] and the solving methods of [state.rs])

    A pane that leaves or no longer fits hands the focus of every client on it
    to another pane; a tab or floating pane that is solved again does the same
    for the panes the new solve suppresses. *)

From stdpp Require Import gmap strings options.
From S2P Require Import Prelude Geometry Size Tree Solver Neighbor Records Notifications SessionData LayoutAreas Client SessionState.
#[local] Open Scope N_scope.

(** ** Which pane takes the focus *)

Inductive FocusRepairResult := Focused (pane_id : PaneId) | TerminalTooSmall.

#[export] Instance FocusRepairResult_eq_dec : EqDecision FocusRepairResult.
Proof. solve_decision. Defined.

Definition option_to_list {A} (x : option A) : list A := match x with Some x => [x] | None => [] end.

Definition repair_focus (history : list PaneId) (registry : PaneRegistry) (ranked : FocusCandidates) : FocusRepairResult :=
  let is_eligible pane_id := bool_decide (pane_id ∈ layout_order_pane_ids ranked) && is_registered registry pane_id in
  match List.find is_eligible
          (history ++ option_to_list (spatial_neighbor_pane_id ranked)
             ++ option_to_list (absorbed_space_pane_id ranked) ++ layout_order_pane_ids ranked) with
  | Some pane_id => Focused pane_id
  | None => TerminalTooSmall
  end.

Definition find_landing_pane (s : Session) (c : Client) (tab : TabId) : option PaneId :=
  t ← tabs s !! tab;
  let leaves := list_leaf_pane_ids (tab_tree t) in
  let history := list_focus_history c tab in
  List.find (fun pane_id =>
    bool_decide (pane_id ∈ leaves) && negb (is_pane_collapsed (tab_tree t) pane_id history)
    && is_registered (panes s) pane_id) (history ++ leaves).

(** ** Focus changes and their events *)

Definition build_pane_focused_event (c : Client) (previous : option PaneId) : option Event :=
  focused ← get_active_focused_pane_id c;
  if bool_decide (Some focused = previous) then None
  else
    let tab := match focused_floating_pane_id c with Some _ => None | None => Some (active_tab_id c) end in
    Some (PaneFocused (client_id c) tab focused previous).

Definition build_floating_pane_minimized_changed_events (id : ClientId) (set : FloatingSet) (ids : list FloatingPaneId)
    (minimized : bool) : list Event :=
  omap (fun floating => '(_, f) ← find_floating_pane_by_id set floating;
    Some (FloatingPaneMinimizedChanged id (list_pane_ids f) minimized)) ids.

Definition apply_tiled_pane_focus (set : FloatingSet) (tab : TabId) (pane_id : PaneId) (c : Client) : list Event * Client :=
  let '(change, c) := focus_tiled_pane tab pane_id c in
  (build_floating_pane_minimized_changed_events (client_id c) set (minimized_floating_pane_ids change) true
     ++ (if bool_decide (previous_pane_id change = Some pane_id) then []
         else [PaneFocused (client_id c) (Some tab) pane_id (previous_pane_id change)]), c).

Definition apply_floating_pane_focus (set : FloatingSet) (id : FloatingPaneId) (pane_id : PaneId) (c : Client)
    : list Event * Client :=
  let previous := get_active_focused_pane_id c in
  let '(is_restored, c) := focus_floating_pane id c in
  let c := update_floating_pane_focused_pane id pane_id c in
  ((if is_restored then build_floating_pane_minimized_changed_events (client_id c) set [id] false else [])
     ++ option_to_list (build_pane_focused_event c previous), c).

(** A change of one client with what it returns, through
    [get_client_mut_by_id]; [d] where the client is not attached. *)
Definition on_client {A} (id : ClientId) (d : A) (f : Client -> A * Client) : session_op A := fun s =>
  match find_client s id with
  | Some c => ((f c).1, change_clients (update_client id (fun _ => (f c).2)) s)
  | None => (d, change_clients (update_client id (fun c => c)) s)
  end.

Definition update_client_tab_focus (id : ClientId) (tab : TabId) (pane_id : PaneId) : session_op (list Event) := fun s =>
  match find_client s id with
  | None => ([], change_clients (update_client id (fun c => c)) s)
  | Some c =>
      let '(previous, c) := update_focused_pane tab pane_id c in
      ([PaneFocused id (Some tab) pane_id previous],
       change_tab tab (record_focus_mru pane_id) (change_clients (update_client id (fun _ => c)) s))
  end.

(** ** Why a terminal is too small *)

Definition is_constraining (tab_size own other : Size) : bool :=
  ((column_count tab_size <? column_count own) && (column_count other =? column_count tab_size))
  || ((row_count tab_size <? row_count own) && (row_count other =? row_count tab_size)).

Definition resolve_terminal_too_small_cause (s : Session) (tab : TabId) (id : ClientId) : TerminalTooSmallCause :=
  match find_client s id with
  | None => TerminalCause
  | Some c =>
      let reported_too_little :=
        match pane_area c with
        | Some Starving => true
        | Some (Reported area) =>
            negb (Size_can_fit_inside (compute_default_pane_area_size (viewport_size c))
                    (compute_minimum_axes area (viewport_size c)))
        | None => false
        end in
      if reported_too_little then RegionsCause
      else
        match get_pane_area c, get_tab_size s tab with
        | None, _ => RegionsCause
        | Some _, None => TerminalCause
        | Some own, Some tab_size =>
            match List.find (fun other =>
                    negb (client_id other =? id) && is_viewing tab other
                    && match get_pane_area other with Some area => is_constraining tab_size own area | None => false end)
                    (attached_clients s) with
            | Some other => OtherClientCause (client_id other)
            | None => TerminalCause
            end
        end
  end.

(** ** Repair *)

Section Repair.
Context `{SolveStore}.

Definition repair_client_focus (tab : TabId) (id : ClientId) (ranking_pane_rect : Rect) : session_op (list Event) :=
  let! s := reads (fun s => s) in
  match find_client s id with
  | None => ret []
  | Some c =>
      let! client_solve := compute_client_solve id tab in
      match client_solve with
      | None => ret []
      | Some client_solve =>
          let candidates := compute_focus_candidates ranking_pane_rect (pane_rects client_solve) (stack_headers client_solve) in
          let verdict := repair_focus (list_focus_history c tab) (panes s) candidates in
          let inheriting :=
            match verdict with Focused pane_id => Some pane_id | TerminalTooSmall => find_landing_pane s c tab end in
          let! events :=
            match inheriting with
            | Some pane_id => update_client_tab_focus id tab pane_id
            | None => on_client id [] (fun c => ([], clear_focus_history tab c))
            end in
          let! s := reads (fun s => s) in
          ret (events ++
            match verdict, find_client s id with
            | TerminalTooSmall, Some c =>
                if active_tab_id c =? tab then
                  [TerminalTooSmallEntered id (viewport_size c) (pane_area c) (resolve_terminal_too_small_cause s tab id)]
                else []
            | _, _ => []
            end)
      end
  end.

(** The rectangle a suppressed pane is ranked against. *)
Definition find_ranking_rect (previous : option LayoutSolve) (solve : LayoutSolve) (pane_id : PaneId) : Rect :=
  match previous ≫= (fun p => find_pane_rect p pane_id) with
  | Some r => r
  | None => default build_empty_at_origin (find_pane_rect solve pane_id)
  end.

Definition is_focused_on_suppressed (tab : TabId) (pane_id : PaneId) (c : Client) : bool :=
  is_viewing tab c && bool_decide (get_layout_mode c tab = Tiled) && bool_decide (get_focused_pane_id c tab = Some pane_id).

Definition hand_off_suppressed_focus (tab : TabId) (previous : option LayoutSolve) : session_op (list Event) :=
  let! s := reads (fun s => s) in
  match tabs s !! tab with
  | None => ret []
  | Some t =>
      if is_every_pane_suppressed (tab_solve t) then ret []
      else
        let repaired :=
          suppressed_pane_ids (tab_solve t) ≫= fun pane_id =>
            (fun c => (client_id c, find_ranking_rect previous (tab_solve t) pane_id))
              <$> List.filter (is_focused_on_suppressed tab pane_id) (attached_clients s) in
        for_each (fun entry => repair_client_focus tab entry.1 entry.2) repaired
  end.

Definition repair_floating_pane_client_focus (floating : FloatingPaneId) (id : ClientId) (ranking_pane_rect : Rect)
    : session_op (list Event) :=
  let! s := reads (fun s => s) in
  match find_client s id with
  | None => ret []
  | Some c =>
      let! client_solve := compute_client_floating_pane_solve id floating in
      match client_solve, get_floating_pane_view c floating with
      | Some client_solve, Some v =>
          let candidates := compute_focus_candidates ranking_pane_rect (pane_rects client_solve) (stack_headers client_solve) in
          let inheriting :=
            match repair_focus (focus_history v) (panes s) candidates with
            | Focused pane_id => Some pane_id
            | TerminalTooSmall => '(_, f) ← find_floating_pane_by_id (floating_set s) floating; head (list_pane_ids f)
            end in
          match inheriting with
          | None => ret []
          | Some pane_id =>
              on_client id [] (fun c =>
                let previous := get_active_focused_pane_id c in
                let c := update_floating_pane_focused_pane floating pane_id c in
                (option_to_list (build_pane_focused_event c previous), c))
          end
      | _, _ => ret []
      end
  end.

Definition is_floating_focused_on (floating : FloatingPaneId) (pane_id : PaneId) (c : Client) : bool :=
  bool_decide (find_floating_pane_input_pane_id c floating = Some pane_id).

Definition hand_off_suppressed_floating_focus (floating : FloatingPaneId) (previous : option LayoutSolve)
    : session_op (list Event) :=
  let! s := reads (fun s => s) in
  match find_floating_pane_by_id (floating_set s) floating with
  | None => ret []
  | Some (_, f) =>
      if is_every_pane_suppressed (floating_solve f) then ret []
      else
        let repaired :=
          suppressed_pane_ids (floating_solve f) ≫= fun pane_id =>
            (fun c => (client_id c, find_ranking_rect previous (floating_solve f) pane_id))
              <$> List.filter (is_floating_focused_on floating pane_id) (attached_clients s) in
        for_each (fun entry => repair_floating_pane_client_focus floating entry.1 entry.2) repaired
  end.

(** ** Clients that cannot draw floating panes *)

Definition can_client_draw_floating_panes (c : Client) : session_op bool :=
  match get_floating_viewport c with
  | None => ret false
  | Some _ =>
      let! client_solve := compute_client_solve (client_id c) (active_tab_id c) in
      ret (match client_solve with Some client_solve => negb (is_every_pane_suppressed client_solve) | None => true end)
  end.

Definition minimize_undrawable_floating_panes : session_op (list Event) :=
  let! s := reads (fun s => s) in
  let! minimizing :=
    filter_op (fun c =>
      if bool_decide (shown_floating_pane_ids c = []) then ret false
      else let! can_draw := can_client_draw_floating_panes c in ret (negb can_draw)) (attached_clients s) in
  for_each (fun id s =>
    on_client id [] (fun c =>
      let previous := get_active_focused_pane_id c in
      let '(minimized, c) := minimize_shown_floating_panes c in
      (build_floating_pane_minimized_changed_events id (floating_set s) minimized true
         ++ option_to_list (build_pane_focused_event c previous), c)) s) (client_id <$> minimizing).

(** ** Solving again *)

Definition apply_tab_solve_change (tab : TabId) (previous : option LayoutSolve) : session_op (list Event) :=
  let! events := hand_off_suppressed_focus tab previous in
  let! more := minimize_undrawable_floating_panes in
  ret (events ++ more).

(** The tab solved at [tab_size], with the kept solves of its viewers emptied. *)
Definition solve_tab_at (tab : TabId) (tab_size : Size) (s : Session) : Session :=
  change_clients (clear_own_active_tab_solves tab)
    (change_tab tab (fun t => t <| tab_area := update_layout_solve (pane_sizing s) (tab_area t <| solved_size := tab_size |>) |>) s).

Definition update_tab_solve (tab : TabId) : session_op (list Event) :=
  let! s := reads (fun s => s) in
  match resolve_tab_solve_size s tab, tabs s !! tab with
  | Some tab_size, Some t =>
      if bool_decide (get_solved_tab_size t = tab_size) then apply_tab_solve_change tab None
      else
        do! changes (fun s => note_layout_change tab (solve_tab_at tab tab_size s)) in
        apply_tab_solve_change tab (Some (tab_solve t))
  | _, _ => ret []
  end.

Definition update_tab_layout (tab : TabId) (layout_tree : LayoutNode) : session_op (list Event) :=
  let! s := reads (fun s => s) in
  match tabs s !! tab with
  | None => ret []
  | Some t =>
      let area := update_layout_solve (pane_sizing s) (tab_area t <| layout := layout_tree |>) in
      let is_changed := negb (bool_decide (tab_tree t = layout_tree)) || negb (bool_decide (tab_solve t = layout_solve area)) in
      do! changes (fun s =>
        change_clients (clear_own_active_tab_solves tab)
          ((if is_changed then note_layout_change tab else fun s => s) (change_tab tab (fun t => t <| tab_area := area |>) s))) in
      apply_tab_solve_change tab (Some (tab_solve t))
  end.

(** The floating panes [ids] hand their suppressed focuses on, each with the
    solve [previous] holds for it. *)
Fixpoint hand_off_floating_panes (ids : list FloatingPaneId) (previous : gmap FloatingPaneId LayoutSolve)
    : session_op (list Event) :=
  match ids with
  | [] => ret []
  | id :: ids =>
      let! events := hand_off_suppressed_floating_focus id (previous !! id) in
      let! more := hand_off_floating_panes ids (delete id previous) in
      ret (events ++ more)
  end.

Definition update_floating_pane_sizes (shared_floating_viewport : Size) : session_op (list Event) :=
  let! s := reads (fun s => s) in
  let '(set, resized) := set_update_floating_pane_sizes shared_floating_viewport (pane_sizing s) (floating_set s) in
  let previous : gmap FloatingPaneId LayoutSolve := list_to_map (reverse resized) in
  do! changes (fun s =>
    change_clients (fun r => foldr clear_own_floating_pane_solves r (map_to_list previous).*1)
      ((if bool_decide (resized = []) then fun s => s else note_floating_set_change) (s <| floating_set := set |>))) in
  hand_off_floating_panes (floating_pane_id <$> set) previous.

Definition update_floating_pane_layout (floating : FloatingPaneId) (layout_tree : LayoutNode) : session_op (list Event) :=
  let! s := reads (fun s => s) in
  match find_floating_pane_by_id (floating_set s) floating with
  | None => ret []
  | Some (i, f) =>
      let area := update_layout_solve (pane_sizing s) (floating_area f <| layout := layout_tree |>) in
      do! changes (fun s =>
        change_clients (clear_own_floating_pane_solves floating)
          (note_floating_set_change (change_floating_set (update_floating_pane floating (fun f => f <| floating_area := area |>)) s))) in
      hand_off_suppressed_floating_focus floating (Some (floating_solve f))
  end.

(** One tab of the loop of [update_pane_sizing]. *)
Definition update_tab_sizing (sizing : PaneSizing) (tab : TabId) : session_op (list Event) :=
  let! s := reads (fun s => s) in
  match resolve_tab_solve_size s tab, tabs s !! tab with
  | Some tab_size, Some t =>
      let area := update_layout_solve sizing (tab_area t <| solved_size := tab_size |>) in
      let is_changed :=
        negb (bool_decide (get_solved_tab_size t = tab_size)) || negb (bool_decide (tab_solve t = layout_solve area)) in
      do! changes (fun s =>
        change_clients (clear_own_active_tab_solves tab)
          ((if is_changed then note_layout_change tab else fun s => s) (change_tab tab (fun t => t <| tab_area := area |>) s))) in
      hand_off_suppressed_focus tab (Some (tab_solve t))
  | _, _ => ret []
  end.

Definition update_pane_sizing (sizing : PaneSizing) : session_op (list Event) :=
  let! s := reads (fun s => s) in
  do! changes (fun s =>
    change_view_changes (fun v => v <| is_pane_sizing_changed := is_pane_sizing_changed v || negb (bool_decide (pane_sizing s = sizing)) |>)
      s <| pane_sizing := sizing |>) in
  let! tab_events := for_each (update_tab_sizing sizing) (btree_keys (tabs s)) in
  let! s := reads (fun s => s) in
  let previous := (fun f => (floating_pane_id f, floating_solve f)) <$> floating_set s in
  do! changes (change_floating_set (fmap (fun f => f <| floating_area := update_layout_solve sizing (floating_area f) |>))) in
  let! floating_events :=
    for_each (fun entry =>
      do! changes (change_clients (clear_own_floating_pane_solves entry.1)) in
      hand_off_suppressed_floating_focus entry.1 (Some entry.2)) previous in
  let! more := minimize_undrawable_floating_panes in
  ret (tab_events ++ floating_events ++ more).
End Repair.
