(* ===== verification/SessionTabs.v ===== *)
(** * Tabs and panes opening, closing and moving
    ([crates/koshi-session/src/session/tab_ops.rs], [pane_ops.rs] and the
    removals of [cascade.rs]) *)

From stdpp Require Import gmap strings sorting options.
From S2P Require Import Prelude Geometry Size Tree Solver Neighbor Edit Records Notifications SessionData LayoutAreas Client.
From S2P Require Import SessionState SessionFocus.
#[local] Open Scope N_scope.

(** ** Finding tabs *)

Inductive TabTarget := TabById (id : TabId) | TabAtIndex (index : nat) | PreviousTab | NextTab.

Definition find_tab_at_index (s : Session) (index : nat) : option TabId :=
  tab_id <$> List.find (fun t => (tab_index t =? index)%nat) (btree_values (tabs s)).

(** The remainder by the number of tabs panics on none; the tab it is asked
    for is one. *)
Definition resolve_tab_target (s : Session) (active_tab : TabId) (target : TabTarget) : option TabId :=
  let tab_count := base.size (tabs s) in
  match target with
  | TabById id => if bool_decide (is_Some (tabs s !! id)) then Some id else None
  | TabAtIndex index => find_tab_at_index s index
  | NextTab => t ← tabs s !! active_tab; find_tab_at_index s ((tab_index t + 1) mod tab_count)%nat
  | PreviousTab => t ← tabs s !! active_tab; find_tab_at_index s ((tab_index t + tab_count - 1) mod tab_count)%nat
  end.

(** [sort_by_key] on the index: stable over the order of the ids. *)
Definition index_le (x y : TabId * Tab) : Prop := (tab_index x.2 <= tab_index y.2)%nat.

#[export] Instance index_le_dec : RelDecision index_le.
Proof. intros x y. unfold index_le. apply _. Defined.

Definition list_tab_ids_in_display_order (s : Session) : list TabId := (merge_sort index_le (btree_entries (tabs s))).*1.

Definition move_tab (target : TabId) (new_index : nat) : session_op (list Event) := fun s =>
  match tabs s !! target with
  | None => ([], s)
  | Some t =>
      if (base.size (tabs s) <=? new_index)%nat || (new_index =? tab_index t)%nat then ([], s)
      else
        let others := List.filter (fun id => negb (id =? target)) (list_tab_ids_in_display_order s) in
        let s' :=
          foldl (fun s' (entry : nat * TabId) =>
            update_tab_index entry.2 (if (new_index <=? entry.1)%nat then entry.1 + 1 else entry.1)%nat s') s (enumerate others) in
        ([TabMoved target (tab_index t) new_index], update_tab_index target new_index s')
  end.

Definition reindex_tabs_by_display_index (s : Session) : Session :=
  foldl (fun s' (entry : nat * TabId) => update_tab_index entry.2 entry.1 s') s (enumerate (list_tab_ids_in_display_order s)).

(** [max_by_key] gives the last of equal keys, [min_by_key] the first. *)
Definition find_nearest_surviving_tab_by_index (s : Session) (closed_index : nat) : option TabId :=
  let previous :=
    foldl (fun best t =>
      if (tab_index t <? closed_index)%nat then
        match best with Some b => if (tab_index t <? tab_index b)%nat then best else Some t | None => Some t end
      else best) None (btree_values (tabs s)) in
  let next :=
    foldl (fun best t =>
      if (closed_index <? tab_index t)%nat then
        match best with Some b => if (tab_index t <? tab_index b)%nat then Some t else best | None => Some t end
      else best) None (btree_values (tabs s)) in
  tab_id <$> match previous with Some t => Some t | None => next end.

Definition find_nearest_surviving_tab (s : Session) (closed : TabId) : option TabId :=
  t ← tabs s !! closed; find_nearest_surviving_tab_by_index s (tab_index t).

Record NewPaneSpec := MkNewPaneSpec { new_working_directory : option string; new_spawn_spec : option SpawnSpec }.

Definition register_spawned_pane (pane_id : PaneId) (spec : NewPaneSpec) (s : Session) : Session :=
  s <| panes := (register_pane_record (MkPaneRecord pane_id (new_spawn_spec spec) (new_working_directory spec)) (panes s)).2 |>.

Definition drop_pane_record (pane_id : PaneId) (s : Session) : Session := s <| panes := (remove_pane_record pane_id (panes s)).2 |>.

(** The focus landing on a tab the client has no focus in. *)
Definition land_focus (id : ClientId) (tab : TabId) : session_op (list Event) :=
  let! s := reads (fun s => s) in
  match find_client s id with
  | None => ret []
  | Some c =>
      match get_focused_pane_id c tab, find_landing_pane s c tab with
      | None, Some pane_id => update_client_tab_focus id tab pane_id
      | _, _ => ret []
      end
  end.

Section Operations.
Context `{SolveStore}.

(** ** Floating panes leaving *)

Definition remove_floating_pane (floating : FloatingPaneId) : session_op (list Event) := fun s =>
  match find_floating_pane_by_id (floating_set s) floating with
  | None => ([], s)
  | Some (_, f) =>
      let focusing :=
        omap (fun c => if bool_decide (focused_floating_pane_id c = Some floating)
                       then input ← get_active_focused_pane_id c; Some (client_id c, input) else None) (attached_clients s) in
      let s := (session_remove_floating_pane floating s).2 in
      let s := foldl (fun s pane_id => drop_pane_record pane_id s) s (list_pane_ids f) in
      ((list_pane_ids f ≫= fun pane_id => [PaneClosing pane_id; PaneRemoved pane_id None])
         ++ omap (fun entry => c ← find_client s entry.1; build_pane_focused_event c (Some entry.2)) focusing, s)
  end.

(** ** Tabs *)

Definition close_and_refocus_tab (tab : TabId) (pane_exit : option PaneProcessExited) : session_op (list Event) :=
  let! closed_tab := remove_tab tab in
  let! s := reads (fun s => s) in
  let next := closed ← closed_tab; find_nearest_surviving_tab_by_index s (tab_index closed) in
  let viewing := client_id <$> List.filter (is_viewing tab) (attached_clients s) in
  do! changes (change_clients (update_every_client (clear_focus_history tab))) in
  let! refocus_events :=
    match next with
    | None => ret []
    | Some next =>
        let! focus_events :=
          for_each (fun id =>
            do! on_client id tt (fun c => (tt, update_active_tab_id next c)) in
            let! landed := land_focus id next in
            ret (TabFocused id next tab :: landed)) viewing in
        let! solve_events := update_tab_solve next in
        ret (focus_events ++ solve_events)
    end in
  do! changes reindex_tabs_by_display_index in
  let! s := reads (fun s => s) in
  let! last_events :=
    if bool_decide (tabs s = ∅) then
      let! removed := for_each remove_floating_pane (floating_pane_id <$> floating_set s) in
      do! changes (fun s => (update_lifecycle StopRequested s).2) in
      ret (removed ++ [QuitEvent (LastTabClosed tab pane_exit)])
    else ret [] in
  ret (TabClosed tab :: refocus_events ++ last_events).

Definition close_tab (tab : TabId) : session_op (list Event) :=
  let! s := reads (fun s => s) in
  match tabs s !! tab with
  | None => ret []
  | Some t =>
      let leaves := list_leaf_pane_ids (tab_tree t) in
      do! changes (fun s => foldl (fun s pane_id => drop_pane_record pane_id s) s leaves) in
      let! events := close_and_refocus_tab tab None in
      ret ((leaves ≫= fun pane_id => [PaneClosing pane_id; PaneRemoved pane_id (Some tab)]) ++ events)
  end.

Definition focus_tab (id : ClientId) (target : TabTarget) : session_op (list Event) :=
  let! s := reads (fun s => s) in
  match find_client s id with
  | None => ret []
  | Some c =>
      let previous := active_tab_id c in
      match resolve_tab_target s previous target with
      | None => ret []
      | Some tab =>
          if previous =? tab then ret []
          else
            do! on_client id tt (fun c => (tt, update_active_tab_id tab c)) in
            let! landed := land_focus id tab in
            let! there := update_tab_solve tab in
            let! back := update_tab_solve previous in
            ret (TabFocused id tab previous :: landed ++ there ++ back)
      end
  end.

(** The tab registered, and the lifecycle moved by the first one. *)
Definition add_new_tab (t : Tab) (s : Session) : Session :=
  let s := if bool_decide (tabs s = ∅) then (update_lifecycle FirstTabCreated s).2 else s in
  (add_tab t s).2.

Definition commit_new_tab (new_tab_id : TabId) (new_pane_id : PaneId) (name : string) (focus_client_id : option ClientId)
    (spec : NewPaneSpec) (tab_size : Size) : session_op (option TabId * list Event) :=
  do! changes (register_spawned_pane new_pane_id spec) in
  do! changes (fun s =>
    add_new_tab (record_focus_mru new_pane_id
      (tab_from_layout_tree new_tab_id name (base.size (tabs s)) (Pane new_pane_id) tab_size (pane_sizing s))) s) in
  let! s := reads (fun s => s) in
  let created := [TabCreated new_tab_id; PaneCreated new_pane_id (Some new_tab_id)] in
  match (id ← focus_client_id; c ← find_client s id; Some (id, active_tab_id c)) with
  | None => ret (None, created)
  | Some (id, previous) =>
      let! focus_events :=
        on_client id [] (fun c =>
          apply_tiled_pane_focus (floating_set s) new_tab_id new_pane_id (update_active_tab_id new_tab_id c)) in
      let! there := update_tab_solve new_tab_id in
      let! back := update_tab_solve previous in
      ret (Some previous, created ++ TabFocused id new_tab_id previous :: focus_events ++ there ++ back)
  end.

Record ProfileTab := MkProfileTab
  { profile_pane_ids : list PaneId;
    profile_layout_tree : LayoutNode;
    new_pane_specs : list NewPaneSpec;
    focused_leaf_index : nat }.

(** A profile tab has a pane: the index of the first is in range. *)
Definition commit_profile_tab (tab : TabId) (p : ProfileTab) (name : string) (tab_size : Size) : session_op (list Event) := fun s =>
  let s := foldl (fun s entry => register_spawned_pane entry.1 entry.2 s) s (zip (profile_pane_ids p) (new_pane_specs p)) in
  let focused := default (hd 0 (profile_pane_ids p)) (profile_pane_ids p !! focused_leaf_index p) in
  let t := record_focus_mru focused
    (tab_from_layout_tree tab name (base.size (tabs s)) (profile_layout_tree p) tab_size (pane_sizing s)) in
  (TabCreated tab :: ((fun pane_id => PaneCreated pane_id (Some tab)) <$> profile_pane_ids p), add_new_tab t s).

(** ** Panes of a tab *)

Definition list_focused_client_rects (tab : TabId) (pane_id : PaneId) : session_op (list (ClientId * Rect)) :=
  let! s := reads (fun s => s) in
  map_op (fun c =>
    let! client_solve := compute_client_solve (client_id c) tab in
    ret (client_id c, default build_empty_at_origin (client_solve ≫= fun v => find_pane_rect v pane_id)))
    (List.filter (fun c => bool_decide (get_focused_pane_id c tab = Some pane_id)) (attached_clients s)).

Definition repair_focus_after_pane_left (tab : TabId) (departed : PaneId) (rects : list (ClientId * Rect))
    : session_op (list Event) :=
  let! events := for_each (fun entry => repair_client_focus tab entry.1 entry.2) rects in
  do! changes (change_clients (update_every_client (remove_pane_from_focus_history tab departed))) in
  ret events.

Definition remove_pane_from_tab (tab : TabId) (pane_id : PaneId) (pane_exit : option PaneProcessExited)
    : session_op (list Event) :=
  let! rects := list_focused_client_rects tab pane_id in
  let! s := reads (fun s => s) in
  match tabs s !! tab with
  | None => ret []
  | Some t =>
      do! changes (change_tab tab (remove_focus_mru pane_id)) in
      let removal := remove_pane_and_normalize (tab_tree t) pane_id in
      let! layout_events :=
        match removal with
        | inr tree => let! events := update_tab_layout tab tree in ret (LayoutChanged tab :: events)
        | inl _ => ret []
        end in
      do! changes (change_clients (update_every_client (clear_zoom_of_pane pane_id))) in
      let! focus_events :=
        match removal with
        | inl (LastPane _) => close_and_refocus_tab tab pane_exit
        | _ => repair_focus_after_pane_left tab pane_id rects
        end in
      ret (layout_events ++ focus_events)
  end.

Definition remove_pane_cascade (tab : TabId) (pane_id : PaneId) (pane_exit : option PaneProcessExited)
    : session_op (list Event) :=
  let! s := reads (fun s => s) in
  if negb (bool_decide (is_Some (tabs s !! tab))) || negb (is_registered (panes s) pane_id) then ret []
  else
    do! changes (drop_pane_record pane_id) in
    let! events := remove_pane_from_tab tab pane_id pane_exit in
    ret ([PaneClosing pane_id; PaneRemoved pane_id (Some tab)] ++ events).

Definition apply_child_exit (tab : TabId) (pane_exit : PaneProcessExited) : session_op (list Event) :=
  let! s := reads (fun s => s) in
  if negb (is_registered (panes s) (exited_pane_id pane_exit)) then ret [PaneProcessExitedEvent pane_exit]
  else
    let! events := remove_pane_cascade tab (exited_pane_id pane_exit) (Some pane_exit) in
    ret (PaneProcessExitedEvent pane_exit :: events).

Definition commit_new_pane (new_pane_id : PaneId) (tab : TabId) (candidate_layout_tree : LayoutNode)
    (focus_client_id : option ClientId) (spec : NewPaneSpec) : session_op (option TabId * list Event) :=
  let! s := reads (fun s => s) in
  if negb (bool_decide (is_Some (tabs s !! tab))) then ret (None, [])
  else
    let focused := id ← focus_client_id; c ← find_client s id; Some (id, active_tab_id c) in
    let previous := '(_, active) ← focused; if active =? tab then None else Some active in
    do! match focused, previous with
        | Some (id, _), Some _ => on_client id tt (fun c => (tt, update_active_tab_id tab c))
        | Some (id, _), None => on_client id tt (fun c => (tt, c))
        | None, _ => ret tt
        end in
    do! changes (register_spawned_pane new_pane_id spec) in
    let! layout_events := update_tab_layout tab candidate_layout_tree in
    do! (if bool_decide (is_Some focused) then changes (change_tab tab (record_focus_mru new_pane_id)) else ret tt) in
    let! s := reads (fun s => s) in
    let! focus_events :=
      match focused with
      | Some (id, _) =>
          on_client id [] (fun c => apply_tiled_pane_focus (floating_set s) tab new_pane_id (clear_zoom tab c))
      | None => do! changes (change_clients (update_every_client (clear_zoom tab))) in ret []
      end in
    let! solve_events :=
      match previous with
      | Some previous => let! there := update_tab_solve tab in let! back := update_tab_solve previous in ret (there ++ back)
      | None => ret []
      end in
    ret (previous,
      match focused, previous with Some (id, _), Some previous => [TabFocused id tab previous] | _, _ => [] end
        ++ [PaneCreated new_pane_id (Some tab); LayoutChanged tab] ++ layout_events ++ focus_events ++ solve_events).

(** ** Panes of a floating pane *)

Definition list_floating_pane_focused_client_rects (floating : FloatingPaneId) (pane_id : PaneId)
    : session_op (list (ClientId * Rect)) :=
  let! s := reads (fun s => s) in
  map_op (fun c =>
    let! client_solve := compute_client_floating_pane_solve (client_id c) floating in
    ret (client_id c, default build_empty_at_origin (client_solve ≫= fun v => find_pane_rect v pane_id)))
    (List.filter (is_floating_focused_on floating pane_id) (attached_clients s)).

Definition remove_pane_leaf_from_floating_pane (floating : FloatingPaneId) (pane_id : PaneId) : session_op (list Event) :=
  let! s := reads (fun s => s) in
  match find_floating_pane_by_id (floating_set s) floating with
  | None => ret []
  | Some (_, f) =>
      match remove_pane_and_normalize (floating_tree f) pane_id with
      | inl (LastPane _) => do! session_remove_floating_pane floating in ret []
      | inl (RemovePaneNotFound _) => ret []
      | inr tree =>
          let! events := update_floating_pane_layout floating tree in
          do! changes (change_clients (update_every_client (clear_zoom_of_pane pane_id))) in
          ret (FloatingPaneLayoutChanged (list_leaf_pane_ids tree) :: events)
      end
  end.

Definition repair_floating_pane_focus_after_pane_left (floating : FloatingPaneId) (departed : PaneId)
    (rects : list (ClientId * Rect)) : session_op (list Event) :=
  let! events := for_each (fun entry => repair_floating_pane_client_focus floating entry.1 entry.2) rects in
  do! changes (change_clients (update_every_client (remove_pane_from_floating_pane_focus_history floating departed))) in
  ret events.

Definition remove_pane_from_floating_pane (pane_id : PaneId) : session_op (list Event) :=
  let! s := reads (fun s => s) in
  match find_floating_pane_by_pane_id (floating_set s) pane_id with
  | None => ret []
  | Some (_, f) =>
      let floating := floating_pane_id f in
      if bool_decide (list_pane_ids f = [pane_id]) then remove_floating_pane floating
      else
        let! rects := list_floating_pane_focused_client_rects floating pane_id in
        do! changes (drop_pane_record pane_id) in
        let! layout_events := remove_pane_leaf_from_floating_pane floating pane_id in
        let! focus_events := repair_floating_pane_focus_after_pane_left floating pane_id rects in
        ret ([PaneClosing pane_id; PaneRemoved pane_id None] ++ layout_events ++ focus_events)
  end.

Definition commit_new_pane_in_floating_pane (new_pane_id : PaneId) (floating : FloatingPaneId)
    (candidate_layout_tree : LayoutNode) (focus_client_id : option ClientId) (spec : NewPaneSpec) : session_op (list Event) :=
  let! s := reads (fun s => s) in
  match find_floating_pane_by_id (floating_set s) floating with
  | None => ret []
  | Some _ =>
      do! changes (register_spawned_pane new_pane_id spec) in
      let! layout_events := update_floating_pane_layout floating candidate_layout_tree in
      let events := [PaneCreated new_pane_id None; FloatingPaneLayoutChanged (list_leaf_pane_ids candidate_layout_tree)]
                      ++ layout_events in
      let! s := reads (fun s => s) in
      match (id ← focus_client_id; c ← find_client s id; Some (id, c)) with
      | None => do! changes (change_clients (update_every_client (clear_floating_pane_zoom floating))) in ret events
      | Some (id, c) =>
          let! can_draw := can_client_draw_floating_panes c in
          let! focus_events :=
            on_client id [] (fun c =>
              let c := clear_floating_pane_zoom floating c in
              if can_draw then apply_floating_pane_focus (floating_set s) floating new_pane_id c
              else ([], update_floating_pane_focused_pane floating new_pane_id c)) in
          ret (events ++ focus_events)
      end
  end.

Definition show_new_floating_pane (id : ClientId) (floating : FloatingPaneId) : session_op (list Event) :=
  let! s := reads (fun s => s) in
  match find_client s id with
  | None => ret []
  | Some c =>
      let! can_draw := can_client_draw_floating_panes c in
      if can_draw then
        on_client id [] (fun c =>
          let previous := get_active_focused_pane_id c in
          let '(_, c) := focus_floating_pane floating c in
          (option_to_list (build_pane_focused_event c previous), c))
      else ret []
  end.

Definition commit_new_floating_pane (floating : FloatingPaneId) (new_pane_id : PaneId) (desired : FloatingPaneSize)
    (solved : Size) (acting_view : option (ClientId * FloatingPanePosition)) (spec : NewPaneSpec)
    : session_op (FloatingSetError + list Event) :=
  let! s := reads (fun s => s) in
  let! refused :=
    session_add_floating_pane (from_pane floating new_pane_id desired solved (pane_sizing s)) (option_to_list acting_view) in
  match refused with
  | Some error => ret (inl error)
  | None =>
      do! changes (register_spawned_pane new_pane_id spec) in
      let! shown := match acting_view with Some (id, _) => show_new_floating_pane id floating | None => ret [] end in
      ret (inr (PaneCreated new_pane_id None :: shown))
  end.
End Operations.
