(* ===== verification/SessionPlacement.v ===== *)
(** * Panes moving between tabs and floating panes
    ([crates/koshi-session/src/session/placement.rs]) *)

From stdpp Require Import gmap strings options.
From S2P Require Import Prelude Geometry Size Tree Solver Placement Destinations Records Notifications SessionData LayoutAreas.
From S2P Require Import Client SessionState SessionFocus SessionTabs.
#[local] Open Scope N_scope.

Inductive PlacementCommitError :=
  | SameTab
  | SourceTabNotFound
  | DestinationTabNotFound
  | SourcePaneNotInTab
  | FloatingSourceNotFound
  | PaneOwnershipConflict
  | ActingClientNotFound
  | LastTiledPane
  | AloneInFloatingPane (pane_id : PaneId)
  | FloatingPaneRefused (error : FloatingSetError).

Inductive DockSource := DockPane (pane_id : PaneId) | DockWholeFloatingPane (floating : FloatingPaneId).

Record PlacementTabSizes := MkPlacementTabSizes { destination_tab_size : option Size; source_tab_size : option Size }.

(** ** Clients that follow a moved pane *)

Definition list_following_client_ids (s : Session) (moved_pane_ids : list PaneId) (acting : ClientId) : list ClientId :=
  client_id <$> List.filter (fun c =>
    negb (client_id c =? acting)
    && match get_active_focused_pane_id c with Some pane_id => bool_decide (pane_id ∈ moved_pane_ids) | None => false end)
    (attached_clients s).

Definition list_moving_client_ids (s : Session) (moved_pane_ids : list PaneId) (acting : ClientId) : list ClientId :=
  acting :: list_following_client_ids s moved_pane_ids acting.

Definition compute_tab_size_after_clients_move (s : Session) (tab : TabId) (landing_viewer_tab : option TabId)
    (arriving leaving : list ClientId) : option Size :=
  reduce compute_minimum_axes (omap get_pane_area (List.filter (fun c =>
    bool_decide (client_id c ∈ arriving)
    || (negb (bool_decide (client_id c ∈ leaving))
        && ((active_tab_id c =? tab) || bool_decide (landing_viewer_tab = Some (active_tab_id c))))) (attached_clients s))).

Definition compute_placement_tab_sizes (s : Session) (source_pane_id : PaneId) (destination : TabId)
    (swapped : option PaneId) (acting : ClientId) : PlacementTabSizes :=
  let source := tab_id <$> find_tab_by_pane_id s source_pane_id in
  if bool_decide (source = Some destination) then MkPlacementTabSizes (get_tab_size s destination) None
  else
    let source_moving := list_moving_client_ids s [source_pane_id] acting in
    let swapped_moving := match swapped with Some p => list_following_client_ids s [p] acting | None => [] end in
    let is_source_tab_closing :=
      bool_decide (swapped = None)
      && match source ≫= fun id => tabs s !! id with
         | Some t => bool_decide (list_leaf_pane_ids (tab_tree t) = [source_pane_id])
         | None => false
         end in
    let landing_viewer_tab :=
      match source with
      | Some id =>
          if is_source_tab_closing && bool_decide (find_nearest_surviving_tab s id = Some destination) then Some id else None
      | None => None
      end in
    MkPlacementTabSizes
      (compute_tab_size_after_clients_move s destination landing_viewer_tab source_moving swapped_moving)
      (match source with
       | Some id => if is_source_tab_closing then None
                    else compute_tab_size_after_clients_move s id None swapped_moving source_moving
       | None => None
       end).

(** ** Boxes on a client's screen *)

Definition moved_by (origin_offset : Point) (r : Rect) : Rect :=
  from_origin_and_size
    (MkPoint (u16_saturating_add (column (origin r)) (column origin_offset)) (u16_saturating_add (row (origin r)) (row origin_offset)))
    (Geometry.size r).

Definition compute_floating_pane_member_box (floating_pane_rect pane_rect : Rect) : Rect :=
  from_origin_and_size
    (MkPoint (u16_saturating_add (column (origin floating_pane_rect)) (column (origin pane_rect)))
       (u16_saturating_add (row (origin floating_pane_rect)) (row (origin pane_rect))))
    (MkSize (column_count (Geometry.size pane_rect))
       (u16_saturating_add (row_count (Geometry.size pane_rect)) FLOATING_TITLEBAR_STRIP_ROW_COUNT)).

Definition is_on_stack_header (solve : LayoutSolve) (pane_id : PaneId) : bool :=
  existsb (fun h => header_pane_id h =? pane_id) (stack_headers solve).

Section Operations.
Context `{SolveStore}.

Definition find_lifted_tab_pane_rect (c : Client) (tab : TabId) (pane_id : PaneId) : session_op (option Rect) :=
  let! s := reads (fun s => s) in
  if negb (active_tab_id c =? tab) then ret None
  else
    match get_pane_area c, tabs s !! tab with
    | Some area, Some t =>
        let! client_solve := compute_client_solve (client_id c) tab in
        ret (v ← client_solve;
             r ← (if is_on_stack_header v pane_id
                  then find_pane_rect (placed_layout_solve (solve_placed_tab (tab_tree t) pane_id (list_focus_history c tab)
                         (get_solved_tab_size t) (pane_sizing s))) pane_id
                  else find_pane_rect v pane_id);
             Some (moved_by (compute_centered_origin area (get_solved_tab_size t)) r))
    | _, _ => ret None
    end.

Definition find_lifted_floating_pane_member_rect (c : Client) (floating : FloatingPaneId) (pane_id : PaneId)
    : session_op (option Rect) :=
  let! s := reads (fun s => s) in
  if negb (is_floating_pane_shown c floating) then ret None
  else
    match find_client_floating_pane_rect s c floating with
    | None => ret None
    | Some floating_rect =>
        let! client_solve := compute_client_floating_pane_solve (client_id c) floating in
        ret (v ← client_solve;
             r ← (if is_on_stack_header v pane_id
                  then '(_, f) ← find_floating_pane_by_id (floating_set s) floating;
                       view ← get_floating_pane_view c floating;
                       find_pane_rect (placed_layout_solve (solve_placed_tab (floating_tree f) pane_id (focus_history view)
                         (solved_size (floating_area f)) (pane_sizing s))) pane_id
                  else find_pane_rect v pane_id);
             Some (compute_floating_pane_member_box floating_rect r))
    end.

(** The size is [None] where an axis of the box is empty. *)
Definition lifted_size (r : Rect) : option FloatingPaneSize :=
  if (column_count (Geometry.size r) =? 0) || (row_count (Geometry.size r) =? 0) then None
  else Some (MkFloatingPaneSize (Cells (column_count (Geometry.size r))) (Cells (row_count (Geometry.size r)))).

Definition find_lifted_floating_pane_rect (id : ClientId) (area_id : LayoutAreaId) (pane_id : PaneId)
    : session_op (option (FloatingPaneSize * Point)) :=
  let! s := reads (fun s => s) in
  match find_client s id with
  | None => ret None
  | Some c =>
      let! lifted :=
        match area_id with
        | TabArea tab => find_lifted_tab_pane_rect c tab pane_id
        | FloatingPaneArea floating => find_lifted_floating_pane_member_rect c floating pane_id
        end in
      ret (r ← lifted; size ← lifted_size r; Some (size, origin r))
  end.

(** ** Where a floating pane docks *)

Definition find_insertion_under_rect_center (c : Client) (dock_rect : Rect) (docking_pane_id : PaneId)
    : session_op (option TiledPlacementTarget) :=
  let! s := reads (fun s => s) in
  let destination := active_tab_id c in
  match get_pane_area c, tabs s !! destination with
  | Some area, Some t =>
      let tab_size := get_solved_tab_size t in
      if (column_count tab_size =? 0) || (row_count tab_size =? 0) then ret None
      else
        let tab_origin := compute_centered_origin area tab_size in
        let along start count offset limit :=
          u16_saturating_sub (u16_saturating_add start (count `div` 2)) offset `min` (limit -16 1) in
        let dock_cell :=
          MkPoint (along (column (origin dock_rect)) (column_count (Geometry.size dock_rect)) (column tab_origin) (column_count tab_size))
            (along (row (origin dock_rect)) (row_count (Geometry.size dock_rect)) (row tab_origin) (row_count tab_size)) in
        let! client_solve := compute_client_solve (client_id c) destination in
        ret (v ← client_solve;
             let spans := insertion_spans (list_placement_destinations (tab_tree t) v (from_size_at_origin tab_size) docking_pane_id) in
             '(anchor, d) ← find_insertion_at_point ((fun x => (anchor x, span_rect x)) <$> spans) dock_cell;
             Some (TiledSplit destination anchor d))
  | _, _ => ret None
  end.

Definition find_nearest_dock_target (c : Client) (pane_id : PaneId) : session_op (option TiledPlacementTarget) :=
  let! s := reads (fun s => s) in
  match find_floating_pane_by_pane_id (floating_set s) pane_id with
  | None => ret None
  | Some (_, f) =>
      let floating := floating_pane_id f in
      if negb (is_floating_pane_shown c floating) then ret None
      else
        match find_client_floating_pane_rect s c floating with
        | None => ret None
        | Some floating_rect =>
            let! client_solve := compute_client_floating_pane_solve (client_id c) floating in
            match (client_solve ≫= fun v => find_pane_rect v pane_id) with
            | None => ret None
            | Some r =>
                if is_empty r then ret None
                else find_insertion_under_rect_center c (compute_floating_pane_member_box floating_rect r) pane_id
            end
        end
  end.

Definition find_nearest_floating_pane_dock_target (c : Client) (floating : FloatingPaneId)
    : session_op (option TiledPlacementTarget) :=
  let! s := reads (fun s => s) in
  match find_floating_pane_by_id (floating_set s) floating with
  | None => ret None
  | Some (_, f) =>
      if negb (is_floating_pane_shown c floating) then ret None
      else
        match find_client_floating_pane_rect s c floating, head (list_pane_ids f) with
        | Some floating_rect, Some first_pane_id => find_insertion_under_rect_center c floating_rect first_pane_id
        | _, _ => ret None
        end
  end.

(** ** Moving a client *)

Definition move_client_onto_tiled_pane (id : ClientId) (tab : TabId) (pane_id : PaneId) (previous_floating : option PaneId)
    : session_op (list Event) :=
  let! s := reads (fun s => s) in
  match find_client s id with
  | None => do! on_client id tt (fun c => (tt, c)) in ret []
  | Some c =>
      let previous_tab := active_tab_id c in
      let! change :=
        on_client id (MkTiledPaneFocusChange None []) (fun c =>
          focus_tiled_pane tab pane_id (update_active_tab_id tab (clear_zoom tab c))) in
      do! changes (change_tab tab (record_focus_mru pane_id)) in
      ret ((if previous_tab =? tab then [] else [TabFocused id tab previous_tab])
        ++ build_floating_pane_minimized_changed_events id (floating_set s) (minimized_floating_pane_ids change) true
        ++ [PaneFocused id (Some tab) pane_id
              (match previous_floating with Some p => Some p | None => previous_pane_id change end)])
  end.

(** Each tab once, in the order given. *)
Fixpoint update_tab_solves (solved : list TabId) (tab_ids : list TabId) : session_op (list Event) :=
  match tab_ids with
  | [] => ret []
  | tab :: tab_ids =>
      if bool_decide (tab ∈ solved) then update_tab_solves solved tab_ids
      else
        let! events := update_tab_solve tab in
        let! more := update_tab_solves (solved ++ [tab]) tab_ids in
        ret (events ++ more)
  end.

(** ** Undocking *)

(** The checks of [commit_undock_placement], in its order. *)
Definition check_undock (s : Session) (source : LayoutAreaId) (pane_id : PaneId) (acting : ClientId) : option PlacementCommitError :=
  let source_error :=
    match source with
    | TabArea tab =>
        match tabs s !! tab with
        | None => Some SourceTabNotFound
        | Some t =>
            let leaves := list_leaf_pane_ids (tab_tree t) in
            if negb (bool_decide (pane_id ∈ leaves)) then Some SourcePaneNotInTab
            else if (base.size (tabs s) =? 1)%nat && (length leaves =? 1)%nat then Some LastTiledPane
            else None
        end
    | FloatingPaneArea floating =>
        match find_floating_pane_by_id (floating_set s) floating with
        | None => Some FloatingSourceNotFound
        | Some (_, f) =>
            if negb (bool_decide (pane_id ∈ list_pane_ids f)) then Some FloatingSourceNotFound
            else if (length (list_pane_ids f) =? 1)%nat then Some (AloneInFloatingPane pane_id)
            else None
        end
    end in
  match source_error with
  | Some error => Some error
  | None =>
      if negb (bool_decide (is_Some (find_client s acting))) then Some ActingClientNotFound
      else if is_full (floating_set s) then Some (FloatingPaneRefused TooManyPanes)
      else None
  end.

(** The positions of the new floating pane: the acting client's own, and for
    each client that follows the pane the place it was lifted from. *)
Definition list_lifted_positions (source : LayoutAreaId) (pane_id : PaneId) (acting_view : ClientId * FloatingPanePosition)
    : session_op (list (ClientId * FloatingPanePosition)) :=
  let! s := reads (fun s => s) in
  let! followed :=
    map_op (fun id =>
      let! lifted := find_lifted_floating_pane_rect id source pane_id in
      ret (id, match lifted with Some (_, top_left_cell) => Moved top_left_cell | None => DefaultPosition end))
      (list_following_client_ids s [pane_id] acting_view.1) in
  ret (acting_view :: followed).

(** The [expect] on the floating pane being taken is on the second branch; the
    first returns the error. *)
Definition commit_undock_placement (floating : FloatingPaneId) (source : LayoutAreaId) (pane_id : PaneId)
    (desired : FloatingPaneSize) (solved : Size) (acting_view : ClientId * FloatingPanePosition)
    : session_op (PlacementCommitError + list Event) :=
  let! s := reads (fun s => s) in
  match check_undock s source pane_id acting_view.1 with
  | Some error => ret (inl error)
  | None =>
      let! positions := list_lifted_positions source pane_id acting_view in
      let f := from_pane floating pane_id desired solved (pane_sizing s) in
      let show := for_each (fun entry : ClientId * FloatingPanePosition => show_new_floating_pane entry.1 floating) positions in
      match source with
      | TabArea tab =>
          let! refused := session_add_floating_pane f positions in
          match refused with
          | Some error => ret (inl (FloatingPaneRefused error))
          | None =>
              let! events := remove_pane_from_tab tab pane_id None in
              let! shown := show in
              ret (inr (events ++ shown))
          end
      | FloatingPaneArea source_floating =>
          let! rects := list_floating_pane_focused_client_rects source_floating pane_id in
          let! events := remove_pane_leaf_from_floating_pane source_floating pane_id in
          do! session_add_floating_pane f positions in
          let! shown := show in
          let! repaired := repair_floating_pane_focus_after_pane_left source_floating pane_id rects in
          ret (inr (events ++ shown ++ repaired))
      end
  end.

(** ** Docking *)

Definition docked_panes (s : Session) (source : DockSource) : PlacementCommitError + (FloatingPaneId * list PaneId) :=
  match source with
  | DockPane pane_id =>
      match find_floating_pane_by_pane_id (floating_set s) pane_id with
      | None => inl FloatingSourceNotFound
      | Some (_, f) => inr (floating_pane_id f, [pane_id])
      end
  | DockWholeFloatingPane floating =>
      match find_floating_pane_by_id (floating_set s) floating with
      | None => inl FloatingSourceNotFound
      | Some (_, f) => inr (floating, list_pane_ids f)
      end
  end.

(** The checks of [commit_dock_placement], in its order. *)
Definition check_dock (s : Session) (source : DockSource) (destination : TabId) (destination_tree : LayoutNode)
    (acting : ClientId) : PlacementCommitError + (FloatingPaneId * list PaneId) :=
  match docked_panes s source with
  | inl error => inl error
  | inr (floating, docked) =>
      match tabs s !! destination with
      | None => inl DestinationTabNotFound
      | Some t =>
          let expected : gset PaneId := list_to_set (list_leaf_pane_ids (tab_tree t) ++ docked) in
          let leaves := list_leaf_pane_ids destination_tree in
          let found : gset PaneId := list_to_set leaves in
          if negb (base.size found =? length leaves)%nat || negb (bool_decide (found = expected)) then inl PaneOwnershipConflict
          else if negb (bool_decide (is_Some (find_client s acting))) then inl ActingClientNotFound
          else inr (floating, docked)
      end
  end.

Record MovingClient := MkMovingClient
  { moving_client_id : ClientId; left_tab_id : TabId; previous_floating_focus : option PaneId; landing_pane_id : PaneId }.

Definition list_moving_clients (s : Session) (floating : FloatingPaneId) (docked : list PaneId) (acting : ClientId)
    : list MovingClient :=
  omap (fun id =>
    c ← find_client s id;
    let landing :=
      match find_floating_pane_input_pane_id c floating with
      | Some pane_id => if bool_decide (pane_id ∈ docked) then pane_id else hd 0 docked
      | None => hd 0 docked
      end in
    Some (MkMovingClient id (active_tab_id c) (find_focused_floating_pane_input_pane_id c) landing))
    (list_moving_client_ids s docked acting).

(** The focus history a client had inside the docked floating pane, kept in the
    tab it docked to. *)
Definition insert_floating_history (destination : TabId) (is_stacked : bool) (moving : list MovingClient)
    (entry : ClientId * list PaneId) (s : Session) : Session :=
  let '(id, history) := entry in
  let is_moving := bool_decide (id ∈ moving_client_id <$> moving) in
  change_clients (update_client id (fun c =>
    let count := length (list_focus_history c destination) in
    if negb is_moving && (is_stacked || (count =? 0)%nat) then c
    else insert_panes_into_focus_history destination (if is_moving then 1%nat else count) history c)) s.

Definition is_stack_target (target : TiledPlacementTarget) : bool := match target with TiledStack _ => true | _ => false end.

Definition commit_dock_placement (source : DockSource) (destination : TabId) (destination_tree : LayoutNode)
    (target : TiledPlacementTarget) (acting : ClientId) : session_op (PlacementCommitError + list Event) :=
  let! s := reads (fun s => s) in
  match check_dock s source destination destination_tree acting with
  | inl error => ret (inl error)
  | inr (floating, docked) =>
      let! rects :=
        match source with
        | DockPane pane_id => list_floating_pane_focused_client_rects floating pane_id
        | DockWholeFloatingPane _ => ret []
        end in
      let moving := list_moving_clients s floating docked acting in
      let histories :=
        match source with
        | DockPane _ => []
        | DockWholeFloatingPane _ =>
            omap (fun c => v ← get_floating_pane_view c floating; Some (client_id c, focus_history v)) (attached_clients s)
        end in
      let! leaving_events :=
        match source with
        | DockPane pane_id => remove_pane_leaf_from_floating_pane floating pane_id
        | DockWholeFloatingPane _ => do! session_remove_floating_pane floating in ret []
        end in
      let! layout_events := update_tab_layout destination destination_tree in
      let! moving_events :=
        for_each (fun m =>
          move_client_onto_tiled_pane (moving_client_id m) destination (landing_pane_id m) (previous_floating_focus m)) moving in
      do! changes (fun s => foldl (fun s entry => insert_floating_history destination (is_stack_target target) moving entry s) s histories) in
      let! solve_events := update_tab_solves [] (destination :: (left_tab_id <$> moving)) in
      let! repaired :=
        match source with
        | DockPane pane_id => repair_floating_pane_focus_after_pane_left floating pane_id rects
        | DockWholeFloatingPane _ => ret []
        end in
      ret (inr (leaving_events ++ LayoutChanged destination :: layout_events ++ moving_events ++ solve_events ++ repaired))
  end.

(** ** Across tabs *)

(** The checks of [commit_cross_tab_placement], in its order, with the pane that
    a swap moves the other way. *)
Definition check_cross_tab (s : Session) (source destination : TabId) (pane_id : PaneId) (p : CrossTabPlacement) (acting : ClientId)
    : PlacementCommitError + option PaneId :=
  if source =? destination then inl SameTab
  else
    match tabs s !! source, tabs s !! destination with
    | None, _ => inl SourceTabNotFound
    | Some _, None => inl DestinationTabNotFound
    | Some t, Some t' =>
        let source_before := list_leaf_pane_ids (tab_tree t) in
        let destination_before := list_leaf_pane_ids (tab_tree t') in
        let source_after := match source_tree p with Some tree => list_leaf_pane_ids tree | None => [] end in
        let destination_after := list_leaf_pane_ids (destination_tree p) in
        let ids l : gset PaneId := list_to_set l in
        let is_repeating l := negb (base.size (ids l) =? length l)%nat in
        if negb (bool_decide (pane_id ∈ source_before)) then inl SourcePaneNotInTab
        else if is_repeating source_after || is_repeating destination_after then inl PaneOwnershipConflict
        else if negb (bool_decide (pane_id ∈ destination_after)) || negb (bool_decide (ids source_after ## ids destination_after))
        then inl PaneOwnershipConflict
        else if negb (bool_decide (is_Some (find_client s acting))) then inl ActingClientNotFound
        else if is_repeating source_before || is_repeating destination_before then inl PaneOwnershipConflict
        else if negb (bool_decide (ids source_before ## ids destination_before)) then inl PaneOwnershipConflict
        else
          let source_moved := elements (ids source_before ∖ ids source_after) in
          let destination_moved := elements (ids destination_before ∖ ids destination_after) in
          if negb (bool_decide (source_moved = [pane_id])) || (1 <? length destination_moved)%nat then inl PaneOwnershipConflict
          else if negb (bool_decide (ids source_before ∪ ids destination_before = ids source_after ∪ ids destination_after))
          then inl PaneOwnershipConflict
          else inr (head destination_moved)
    end.

Definition commit_cross_tab_placement (source destination : TabId) (pane_id : PaneId) (p : CrossTabPlacement) (acting : ClientId)
    : session_op (PlacementCommitError + list Event) :=
  let! s := reads (fun s => s) in
  match check_cross_tab s source destination pane_id p acting with
  | inl error => ret (inl error)
  | inr swapped =>
      let is_closing := match source_tree p with None => true | Some _ => false end in
      let source_moving := list_moving_client_ids s [pane_id] acting in
      let swapped_moving := match swapped with Some p => list_following_client_ids s [p] acting | None => [] end in
      let left_tabs := omap (fun id => active_tab_id <$> find_client s id) (source_moving ++ swapped_moving) in
      let staying ids (rects : list (ClientId * Rect)) := List.filter (fun entry => negb (bool_decide (entry.1 ∈ ids))) rects in
      let! source_rects := list_focused_client_rects source pane_id in
      let! destination_rects :=
        match swapped with Some p => list_focused_client_rects destination p | None => ret [] end in
      let! destination_events := update_tab_layout destination (destination_tree p) in
      do! changes (fun s => match swapped with Some p => change_tab destination (remove_focus_mru p) s | None => s end) in
      let! source_events :=
        match source_tree p with
        | None => ret []
        | Some tree =>
            let! events := update_tab_layout source tree in
            do! changes (change_tab source (fun t =>
              let t := remove_focus_mru pane_id t in match swapped with Some p => record_focus_mru p t | None => t end)) in
            ret (LayoutChanged source :: events)
        end in
      do! changes (change_clients (update_every_client (fun c =>
        let c := clear_zoom_of_pane pane_id c in match swapped with Some p => clear_zoom_of_pane p c | None => c end))) in
      let! moving_events := for_each (fun id => move_client_onto_tiled_pane id destination pane_id None) source_moving in
      let! swapped_events :=
        match swapped with
        | Some p => for_each (fun id => move_client_onto_tiled_pane id source p None) swapped_moving
        | None => ret []
        end in
      let solved := List.filter (fun tab => negb (is_closing && (tab =? source))) (destination :: source :: left_tabs) in
      let! solve_events := update_tab_solves [] solved in
      let! source_repair :=
        if is_closing then ret [] else repair_focus_after_pane_left source pane_id (staying swapped_moving source_rects) in
      let! destination_repair :=
        match swapped with
        | Some p => repair_focus_after_pane_left destination p (staying source_moving destination_rects)
        | None => ret []
        end in
      let! closing_events := if is_closing then close_and_refocus_tab source None else ret [] in
      ret (inr (LayoutChanged destination :: destination_events ++ source_events ++ moving_events ++ swapped_events
        ++ solve_events ++ source_repair ++ destination_repair ++ closing_events))
  end.
End Operations.
