(* ===== verification/SessionCheck.v ===== *)
(** * The consistency check of a session
    ([validate_session_consistency] of [crates/koshi-session/src/session/state.rs])

    Every condition the session keeps between its stores, checked in the order
    of the source, with each violation named. *)

From stdpp Require Import gmap strings options.
From S2P Require Import Prelude Geometry Size Tree Solver Records Notifications SessionData LayoutAreas Client.
From S2P Require Import SessionState SessionFocus.
#[local] Open Scope N_scope.

(** ** Entries gathered by a key *)

(** [entry(key).or_default().push(value)] over a list. *)
Definition group_by_key {A} (l : list (N * A)) : gmap N (list A) :=
  foldl (fun m (entry : N * A) => <[entry.1 := default [] (m !! entry.1) ++ [entry.2]]> m) ∅ l.

(** [*entry(key).or_insert(0) += 1] over a list. *)
Definition count_by_key (l : list N) : gmap N nat :=
  foldl (fun (m : gmap N nat) key => <[key := (default 0 (m !! key) + 1)%nat]> m) ∅ l.

Definition tab_ids_by_pane_id (s : Session) : gmap PaneId (list TabId) :=
  group_by_key (btree_values (tabs s) ≫= fun t => (fun pane_id => (pane_id, tab_id t)) <$> list_leaf_pane_ids (tab_tree t)).

Definition floating_pane_ids_by_pane_id (s : Session) : gmap PaneId (list FloatingPaneId) :=
  group_by_key (floating_set s ≫= fun f => (fun pane_id => (pane_id, floating_pane_id f)) <$> list_pane_ids f).

Definition tab_count_by_index (s : Session) : gmap N nat :=
  count_by_key ((fun t => N.of_nat (tab_index t)) <$> btree_values (tabs s)).

Definition floating_pane_count_by_id (s : Session) : gmap FloatingPaneId nat := count_by_key (floating_pane_id <$> floating_set s).

Definition has_key {A} (m : gmap N A) (key : N) : bool := bool_decide (is_Some (m !! key)).

Definition violation (is_violated : bool) (e : SessionConsistencyError) : list SessionConsistencyError :=
  if is_violated then [e] else [].

(** ** Tabs *)

Definition check_tab (s : Session) (entry : TabId * Tab) : list SessionConsistencyError :=
  let '(stored_tab_id, t) := entry in
  violation (negb (stored_tab_id =? tab_id t)) (TabKeyMismatch stored_tab_id (tab_id t))
  ++ (list_leaf_pane_ids (tab_tree t) ≫= fun pane_id =>
        violation (negb (is_registered (panes s) pane_id)) (PaneNotInRegistry (tab_id t) pane_id))
  ++ violation (negb (bool_decide (compute_layout_solve (tab_area t) (pane_sizing s) = tab_solve t))) (TabSolveStale stored_tab_id)
  ++ match resolve_tab_solve_size s stored_tab_id with
     | Some tab_size =>
         violation (negb (bool_decide (tab_size = get_solved_tab_size t)))
           (TabSolveSizeStale stored_tab_id (get_solved_tab_size t) tab_size)
     | None => []
     end.

Definition check_tab_indices (s : Session) : list SessionConsistencyError :=
  btree_entries (tab_count_by_index s) ≫= fun entry =>
    violation (1 <? entry.2)%nat (DuplicateTabIndex (N.to_nat entry.1)).

Definition check_layouts (s : Session) : list SessionConsistencyError :=
  btree_entries (tab_ids_by_pane_id s) ≫= fun entry =>
    violation (1 <? length entry.2)%nat (PaneInMultipleLayouts entry.1 entry.2).

(** ** Floating panes *)

Definition check_floating_pane (s : Session) (f : FloatingPane) : list SessionConsistencyError :=
  let id := floating_pane_id f in
  let floating_layout_size := compute_floating_layout_size (floating_solved_size f) in
  violation (bool_decide (list_pane_ids f = [])) (EmptyFloatingPane id)
  ++ violation (negb (bool_decide (solved_size (floating_area f) = floating_layout_size)))
       (FloatingPaneSolveSizeStale id (solved_size (floating_area f)) floating_layout_size)
  ++ violation (negb (bool_decide (compute_layout_solve (floating_area f) (pane_sizing s) = floating_solve f)))
       (FloatingPaneSolveStale id).

Definition check_floating_pane_ids (s : Session) : list SessionConsistencyError :=
  btree_entries (floating_pane_count_by_id s) ≫= fun entry =>
    violation (1 <? entry.2)%nat (DuplicateFloatingPaneId entry.1).

Definition check_floating_leaf (s : Session) (entry : PaneId * list FloatingPaneId) : list SessionConsistencyError :=
  let '(pane_id, floating_pane_ids) := entry in
  violation (negb (is_registered (panes s) pane_id)) (FloatingPaneNotInRegistry pane_id)
  ++ violation (1 <? length floating_pane_ids)%nat (PaneInMultipleFloatingPanes pane_id floating_pane_ids)
  ++ match tab_ids_by_pane_id s !! pane_id with
     | Some tab_ids => [FloatingPaneInLayout pane_id tab_ids]
     | None => []
     end.

Definition check_floating_set (s : Session) : list SessionConsistencyError :=
  violation (MAX_FLOATING_PANES_PER_SESSION <? length (floating_set s))%nat (TooManyFloatingPanes (length (floating_set s)))
  ++ (floating_set s ≫= check_floating_pane s)
  ++ check_floating_pane_ids s
  ++ (btree_entries (floating_pane_ids_by_pane_id s) ≫= check_floating_leaf s).

Definition check_pane_records (s : Session) : list SessionConsistencyError :=
  list_pane_records (panes s) ≫= fun r =>
    violation (negb (has_key (tab_ids_by_pane_id s) (record_pane_id r)) && negb (has_key (floating_pane_ids_by_pane_id s) (record_pane_id r)))
      (OrphanedPaneRecord (record_pane_id r)).

(** ** Clients *)

Definition check_home (s : Session) (c : Client) : list SessionConsistencyError :=
  violation (negb (session_id c =? own_session_id s)) (ClientSessionMismatch (client_id c) (session_id c))
  ++ violation (negb (bool_decide (tabs s = ∅)) && negb (has_key (tabs s) (active_tab_id c)))
       (ActiveTabMissing (client_id c) (active_tab_id c)).

Definition check_focus_history (s : Session) (c : Client) (entry : TabId * list PaneId) : list SessionConsistencyError :=
  let '(tab, history) := entry in
  (history ≫= fun pane_id =>
    violation (negb (is_registered (panes s) pane_id)) (FocusPaneNotInRegistry (client_id c) tab pane_id)
    ++ violation (match tabs s !! tab with Some t => negb (has_pane pane_id (tab_tree t)) | None => false end)
         (FocusTargetMissing (client_id c) tab pane_id))
  ++ violation (negb (has_key (tabs s) tab)) (FocusTabMissing (client_id c) tab).

Definition check_zoom (s : Session) (c : Client) (entry : TabId * PaneId) : list SessionConsistencyError :=
  let '(tab, zoomed) := entry in
  let is_live_leaf :=
    is_registered (panes s) zoomed && match tabs s !! tab with Some t => has_pane zoomed (tab_tree t) | None => false end in
  violation (negb is_live_leaf) (ZoomTargetMissing (client_id c) tab zoomed).

Definition check_floating_view (c : Client) (f : FloatingPane) : list SessionConsistencyError :=
  let id := floating_pane_id f in
  match get_floating_pane_view c id with
  | None => [FloatingViewMissing (client_id c) id]
  | Some v =>
      violation (Bool.eqb (is_minimized v) (bool_decide (id ∈ shown_floating_pane_ids c)))
        (FloatingPaneShownStateMismatch (client_id c) id (is_minimized v))
      ++ violation (bool_decide (focus_history v = [])) (FloatingFocusHistoryEmpty (client_id c) id)
      ++ (focus_history v ≫= fun pane_id =>
            violation (negb (floating_has_pane pane_id f)) (FloatingFocusTargetMissing (client_id c) id pane_id))
      ++ match zoomed_pane_id v with
         | Some zoomed => violation (negb (floating_has_pane zoomed f)) (FloatingZoomTargetMissing (client_id c) id zoomed)
         | None => []
         end
  end.

(** [shown_floating_pane_ids.insert] is false on an id seen before. *)
Fixpoint check_shown (s : Session) (c : Client) (seen shown : list FloatingPaneId) : list SessionConsistencyError :=
  match shown with
  | [] => []
  | id :: shown =>
      violation (negb (has_key (floating_pane_count_by_id s) id)) (ShownFloatingPaneMissing (client_id c) id)
      ++ violation (bool_decide (id ∈ seen)) (DuplicateShownFloatingPane (client_id c) id)
      ++ check_shown s c (id :: seen) shown
  end.

Definition check_views (s : Session) (c : Client) : list SessionConsistencyError :=
  (btree_keys (view_by_floating_pane_id c) ≫= fun id =>
    violation (negb (has_key (floating_pane_count_by_id s) id)) (FloatingViewTargetMissing (client_id c) id))
  ++ (floating_set s ≫= check_floating_view c)
  ++ check_shown s c [] (shown_floating_pane_ids c)
  ++ violation (negb (bool_decide (focused_floating_pane_id c = last (shown_floating_pane_ids c))))
       (FloatingFocusNotNewestShown (client_id c) (focused_floating_pane_id c) (last (shown_floating_pane_ids c))).

Definition check_tiled_focus (s : Session) (c : Client) : list SessionConsistencyError :=
  let active := active_tab_id c in
  match get_layout_mode c active, tabs s !! active, get_focused_pane_id c active with
  | Tiled, Some t, Some focused =>
      violation (negb (is_every_pane_suppressed (tab_solve t)) && bool_decide (focused ∈ suppressed_pane_ids (tab_solve t)))
        (SuppressedPaneFocused (client_id c) active focused)
  | _, _, _ => []
  end.

Section Check.
Context `{SolveStore}.

Definition check_client (c : Client) : session_op (list SessionConsistencyError) :=
  let! s := reads (fun s => s) in
  let! can_draw := can_client_draw_floating_panes c in
  ret (check_home s c
    ++ (btree_entries (focus_history_by_tab_id c) ≫= check_focus_history s c)
    ++ (btree_entries (zoomed_pane_id_by_tab_id c) ≫= check_zoom s c)
    ++ check_views s c
    ++ (if can_draw then [] else UndrawableFloatingPaneShown (client_id c) <$> shown_floating_pane_ids c)
    ++ check_tiled_focus s c).

(** The violations; [Ok(())] is the empty list. *)
Definition validate_session_consistency : session_op (list SessionConsistencyError) :=
  let! s := reads (fun s => s) in
  let! client_violations := map_op check_client (attached_clients s) in
  ret ((btree_entries (tabs s) ≫= check_tab s) ++ check_tab_indices s ++ check_layouts s ++ check_floating_set s
    ++ check_pane_records s ++ concat client_violations).
End Check.
