(* ===== verification/ClientCells.v ===== *)
(** * The cells of a client

    A client keeps two kinds of solves in cells: of its active tab and of each
    floating pane. [emptied] is the client with every cell empty. An operation
    is [sound] when it reads no cell, fills none, and empties the cell of every
    solve whose inputs it changes. *)

From stdpp Require Import gmap strings options.
From S2P Require Import Prelude Geometry Size Tree Solver Records Notifications SessionData LayoutAreas Client SessionState.
From S2P Require Import SessionFocus.
#[local] Open Scope N_scope.

Definition emptied_view (w : FloatingPaneViewWithOwnSolve) : FloatingPaneViewWithOwnSolve := w <| own_solve := None |>.

Definition emptied (c : Client) : Client :=
  c <| own_active_tab_solve := None |> <| view_by_floating_pane_id := emptied_view <$> view_by_floating_pane_id c |>.

(** The cells of [c'] are cells of [c] with the same inputs, or empty. *)
Record follows (c c' : Client) : Prop := MkFollows
  { follows_tab :
      own_active_tab_solve c' = None
      \/ own_active_tab_solve c' = own_active_tab_solve c /\ active_tab_id c' = active_tab_id c
         /\ get_layout_mode c' (active_tab_id c) = get_layout_mode c (active_tab_id c)
         /\ list_focus_history c' (active_tab_id c) = list_focus_history c (active_tab_id c);
    follows_view id w' :
      view_by_floating_pane_id c' !! id = Some w' -> own_solve w' <> None ->
      exists w, view_by_floating_pane_id c !! id = Some w /\ own_solve w' = own_solve w
        /\ zoomed_pane_id (floating_pane_view w') = zoomed_pane_id (floating_pane_view w)
        /\ focus_history (floating_pane_view w') = focus_history (floating_pane_view w) }.

#[export] Instance follows_reflexive : Reflexive follows.
Proof. intros c. split; [by right|]. intros id w H _. by exists w. Qed.

#[export] Instance follows_transitive : Transitive follows.
Proof.
  intros c1 c2 c3 [T12 V12] [T23 V23]. split.
  - destruct T23 as [?|(O & A & M & F)]; [by left|]. destruct T12 as [E|(O' & A' & M' & F')]; [left; congruence|].
    right. rewrite A' in A, M, F. split_and!; congruence.
  - intros id w H N. destruct (V23 id w H N) as (w2 & H2 & O & Z & F).
    destruct (V12 id w2 H2) as (w1 & H1 & O' & Z' & F'); [congruence|]. exists w1. split_and!; congruence.
Qed.

Record sound {A} (f : Client -> A * Client) : Prop := MkSound
  { sound_answer c : (f (emptied c)).1 = (f c).1;
    sound_client c : (f (emptied c)).2 = emptied (f c).2;
    sound_cells c : follows c (f c).2 }.

(** An operation with no answer. *)
Definition plain (f : Client -> Client) : Client -> unit * Client := fun c => (tt, f c).

Lemma plain_sound f : (forall c, f (emptied c) = emptied (f c)) -> (forall c, follows c (f c)) -> sound (plain f).
Proof. intros. by split. Qed.

Lemma plain_client f c : sound (plain f) -> f (emptied c) = emptied (f c).
Proof. intros H. exact (sound_client _ H c). Qed.

Lemma plain_cells f c : sound (plain f) -> follows c (f c).
Proof. intros H. exact (sound_cells _ H c). Qed.

(** Operations in a row. *)
Lemma sound_id {A} (x : A) : sound (fun c => (x, c)).
Proof. by split. Qed.

Lemma sound_then {A} (f : Client -> Client) (g : Client -> A * Client) :
  sound (plain f) -> sound g -> sound (fun c => g (f c)).
Proof.
  intros Hf Hg. split; intros c.
  - by rewrite (plain_client f c Hf), (sound_answer g Hg).
  - by rewrite (plain_client f c Hf), (sound_client g Hg).
  - etransitivity; [by apply (plain_cells f)|by apply (sound_cells g Hg)].
Qed.

Lemma plain_then (f g : Client -> Client) : sound (plain f) -> sound (plain g) -> sound (plain (fun c => g (f c))).
Proof. intros Hf Hg. exact (sound_then f (plain g) Hf Hg). Qed.

(** The operation a client is in, chosen by what it reads. *)
Lemma sound_reads {A B} (r : Client -> B) (f : B -> Client -> A * Client) :
  (forall c, r (emptied c) = r c) -> (forall b, sound (f b)) -> sound (fun c => f (r c) c).
Proof.
  intros Hr Hf. split; intros c; cbn; rewrite ?Hr; [apply (sound_answer _ (Hf _))|apply (sound_client _ (Hf _))|
    apply (sound_cells _ (Hf _))].
Qed.

(** An answer made from the answer of an operation and the client after it. *)
Lemma sound_map {A B} (f : Client -> A * Client) (r : A -> Client -> B) :
  sound f -> (forall x c, r x (emptied c) = r x c) -> sound (fun c => (r (f c).1 (f c).2, (f c).2)).
Proof.
  intros Hf Hr. split; intros c; cbn; [|apply (sound_client _ Hf)|apply (sound_cells _ Hf)].
  by rewrite (sound_answer _ Hf), (sound_client _ Hf), Hr.
Qed.

Lemma sound_ext {A} (f g : Client -> A * Client) : (forall c, g c = f c) -> sound f -> sound g.
Proof. intros E Hf. split; intros c; rewrite ?E; apply Hf. Qed.

(** ** Reading a client *)

Create Rewrite HintDb emptied.

Lemma emptied_idemp c : emptied (emptied c) = emptied c.
Proof.
  unfold emptied. cbn. f_equal. rewrite <- map_fmap_compose. apply map_fmap_ext. by intros.
Qed.

Lemma emptied_views c id : view_by_floating_pane_id (emptied c) !! id = emptied_view <$> view_by_floating_pane_id c !! id.
Proof. apply lookup_fmap. Qed.

Lemma emptied_get_view c id : get_floating_pane_view (emptied c) id = get_floating_pane_view c id.
Proof. unfold get_floating_pane_view. rewrite emptied_views. by destruct (_ !! id). Qed.

Lemma emptied_input c id : find_floating_pane_input_pane_id (emptied c) id = find_floating_pane_input_pane_id c id.
Proof. unfold find_floating_pane_input_pane_id. by rewrite emptied_get_view. Qed.

Lemma emptied_focused_input c : find_focused_floating_pane_input_pane_id (emptied c) = find_focused_floating_pane_input_pane_id c.
Proof.
  unfold find_focused_floating_pane_input_pane_id. change (focused_floating_pane_id (emptied c)) with (focused_floating_pane_id c).
  destruct (focused_floating_pane_id c) as [id|]; [apply (emptied_input c id)|done].
Qed.

Lemma emptied_active_focus c : get_active_focused_pane_id (emptied c) = get_active_focused_pane_id c.
Proof. unfold get_active_focused_pane_id. by rewrite emptied_focused_input. Qed.

Lemma emptied_is_shown c id : is_floating_pane_shown (emptied c) id = is_floating_pane_shown c id.
Proof. unfold is_floating_pane_shown. by rewrite emptied_get_view. Qed.

Lemma emptied_focused_event c previous : build_pane_focused_event (emptied c) previous = build_pane_focused_event c previous.
Proof. unfold build_pane_focused_event. by rewrite emptied_active_focus. Qed.

#[export] Hint Rewrite emptied_get_view emptied_input emptied_focused_input emptied_active_focus emptied_is_shown
  emptied_focused_event : emptied.

(** ** Single changes *)

(** An operation on the other fields that empties the tab's cell. *)
Ltac other_fields :=
  apply plain_sound; intros c; [reflexivity|split; [by left|intros id w H _; by exists w]].

Lemma note_view_change_sound b : sound (plain (note_view_change b)).
Proof. apply plain_sound; intros c; [reflexivity|split; [by right|intros id w H _; by exists w]]. Qed.

Lemma clear_own_active_tab_solve_sound : sound (plain clear_own_active_tab_solve).
Proof. other_fields. Qed.

Lemma zoom_pane_sound tab pane_id : sound (plain (zoom_pane tab pane_id)).
Proof. other_fields. Qed.

Lemma clear_zoom_sound tab : sound (plain (clear_zoom tab)).
Proof. other_fields. Qed.

Lemma clear_focus_history_sound tab : sound (plain (clear_focus_history tab)).
Proof. other_fields. Qed.

Lemma update_active_tab_id_sound tab : sound (plain (update_active_tab_id tab)).
Proof. other_fields. Qed.

Lemma update_focused_pane_sound tab pane_id : sound (update_focused_pane tab pane_id).
Proof.
  unfold update_focused_pane. split; intros c; cbn.
  - change (get_zoomed_pane_id (emptied c) tab) with (get_zoomed_pane_id c tab). by destruct (get_zoomed_pane_id c tab).
  - change (get_zoomed_pane_id (emptied c) tab) with (get_zoomed_pane_id c tab). by destruct (get_zoomed_pane_id c tab).
  - split; [by left|]. intros id w H _. cbn in H. exists w. by destruct (get_zoomed_pane_id c tab).
Qed.

Lemma remove_pane_from_focus_history_sound tab pane_id : sound (plain (remove_pane_from_focus_history tab pane_id)).
Proof.
  apply plain_sound; intros c; unfold remove_pane_from_focus_history.
  - cbn. by destruct (focus_history_by_tab_id c !! tab).
  - destruct (_ !! tab); [|done]. split; [by left|intros id w H _; by exists w].
Qed.

Lemma insert_panes_into_focus_history_sound tab i pane_ids : sound (plain (insert_panes_into_focus_history tab i pane_ids)).
Proof.
  apply plain_sound; intros c; unfold insert_panes_into_focus_history.
  - change (list_focus_history (emptied c) tab) with (list_focus_history c tab). by case_bool_decide.
  - case_bool_decide; [done|]. split; [by left|intros id w H' _; by exists w].
Qed.

(** A field no solve is built from. *)
Lemma unread_sound (f : Client -> Client) :
  (forall c, f (emptied c) = emptied (f c)) ->
  (forall c, own_active_tab_solve (f c) = own_active_tab_solve c /\ active_tab_id (f c) = active_tab_id c
    /\ zoomed_pane_id_by_tab_id (f c) = zoomed_pane_id_by_tab_id c /\ focus_history_by_tab_id (f c) = focus_history_by_tab_id c
    /\ view_by_floating_pane_id (f c) = view_by_floating_pane_id c) -> sound (plain f).
Proof.
  intros He Hf. apply plain_sound; [done|]. intros c. destruct (Hf c) as (O & A & Z & F & V). split.
  - right. unfold get_layout_mode, get_zoomed_pane_id, list_focus_history. by rewrite O, A, Z, F.
  - intros id w H _. rewrite V in H. by exists w.
Qed.

Ltac unread := apply unread_sound; intros c; [reflexivity|split_and!; reflexivity].

Lemma set_scroll_offset_sound pane_id n : sound (plain (set_scroll_offset pane_id n)).
Proof. unread. Qed.

Lemma set_selection_sound pane_id selection : sound (plain (set_selection pane_id selection)).
Proof. unread. Qed.

Lemma clear_selection_sound pane_id : sound (plain (clear_selection pane_id)).
Proof. unread. Qed.

Lemma update_lock_mode_sound mode : sound (plain (update_lock_mode mode)).
Proof. unread. Qed.

Lemma set_last_applied_lock_command_id_sound id : sound (plain (set_last_applied_lock_command_id id)).
Proof. unread. Qed.

Lemma set_last_applied_floating_pane_move_command_id_sound id :
  sound (plain (set_last_applied_floating_pane_move_command_id id)).
Proof. unread. Qed.

Lemma set_last_applied_placement_command_id_sound id : sound (plain (set_last_applied_placement_command_id id)).
Proof. unread. Qed.

Lemma toggle_mouse_selection_sound : sound toggle_mouse_selection.
Proof. split; intros c; [reflexivity..|]. split; [by right|intros id w H _; by exists w]. Qed.

Lemma update_cell_size_sound cell : sound (plain (update_cell_size cell)).
Proof. unread. Qed.

Lemma update_viewport_size_sound viewport : sound (plain (update_viewport_size viewport)).
Proof. unread. Qed.

Lemma update_pane_area_sound area : sound (plain (update_pane_area area)).
Proof. unread. Qed.

Lemma update_origin_sound o : sound (plain (update_origin o)).
Proof. unread. Qed.

(** ** Changes of floating views *)

Lemma set_view_emptied id v b c : set_floating_pane_view id v b (emptied c) = emptied (set_floating_pane_view id v b c).
Proof.
  unfold set_floating_pane_view. rewrite emptied_views. destruct (_ !! id) as [w|]; [|done]. cbn.
  unfold emptied. cbn. f_equal. rewrite fmap_insert. f_equal. by destruct b.
Qed.

Lemma set_view_follows id v b c :
  b = true \/ (exists w, view_by_floating_pane_id c !! id = Some w /\ zoomed_pane_id v = zoomed_pane_id (floating_pane_view w)
    /\ focus_history v = focus_history (floating_pane_view w)) ->
  follows c (set_floating_pane_view id v b c).
Proof.
  intros Hb. unfold set_floating_pane_view. destruct (_ !! id) as [w0|] eqn:E; [|done].
  split; [by right|]. intros id' w H N. cbn in H. destruct (decide (id = id')) as [<-|Hne].
  - rewrite lookup_insert_eq in H. injection H as <-. destruct Hb as [->|(w & Hw & Z & F)]; [done|]. simplify_eq.
    destruct b; [done|]. by exists w.
  - rewrite lookup_insert_ne in H by done. by exists w.
Qed.

(** The view of an operation that changes one. *)
Lemma get_view_inv c id v :
  get_floating_pane_view c id = Some v -> exists w, view_by_floating_pane_id c !! id = Some w /\ floating_pane_view w = v.
Proof. unfold get_floating_pane_view. destruct (_ !! id) as [w|]; [|done]. intros [= <-]. by exists w. Qed.

(** A change of the view [id], where the client has it: what it answers, the
    view after it, whether the cell is emptied, and the other fields. *)
Definition change_view {A} (id : FloatingPaneId) (d : A) (r : FloatingPaneView -> A)
    (g : FloatingPaneView -> FloatingPaneView * bool) (h : FloatingPaneView -> Client -> Client) (c : Client) : A * Client :=
  match get_floating_pane_view c id with
  | None => (d, c)
  | Some v => (r v, h v (set_floating_pane_view id (g v).1 (g v).2 c))
  end.

Lemma change_view_sound {A} id (d : A) r g h :
  (forall v, (g v).2 = true \/ zoomed_pane_id (g v).1 = zoomed_pane_id v /\ focus_history (g v).1 = focus_history v) ->
  (forall v, sound (plain (h v))) -> sound (change_view id d r g h).
Proof.
  intros Hg Hh. unfold change_view. split; intros c; rewrite ?emptied_get_view;
    destruct (get_floating_pane_view c id) as [v|] eqn:E; try done; cbn.
  - by rewrite set_view_emptied, (plain_client _ _ (Hh v)).
  - etransitivity; [apply set_view_follows|apply (plain_cells _ _ (Hh v))].
    destruct (Hg v) as [?|[Z F]]; [by left|]. right. destruct (get_view_inv _ _ _ E) as (w & Hw & <-). by exists w.
Qed.

(** The case analysis of [change_view]. *)
Ltac view_change op id d r g h :=
  match goal with |- sound ?f => apply (sound_ext (change_view id d r g h) f) end;
  [intros c; unfold change_view, plain, op; by destruct (get_floating_pane_view c id)|apply change_view_sound].

Lemma clear_own_floating_pane_solve_sound id : sound (plain (clear_own_floating_pane_solve id)).
Proof.
  view_change clear_own_floating_pane_solve id tt (fun _ : FloatingPaneView => tt) (fun v : FloatingPaneView => (v, true))
    (fun (_ : FloatingPaneView) (c : Client) => c); [by left|intros; apply sound_id].
Qed.

Lemma zoom_pane_in_floating_pane_sound id pane_id : sound (plain (zoom_pane_in_floating_pane id pane_id)).
Proof.
  view_change zoom_pane_in_floating_pane id tt (fun _ : FloatingPaneView => tt) (fun v => (v <| zoomed_pane_id := Some pane_id |>, true))
    (fun v => note_view_change (negb (bool_decide (zoomed_pane_id v = Some pane_id))));
    [by left|intros; apply note_view_change_sound].
Qed.

Lemma update_floating_pane_position_sound id p : sound (plain (update_floating_pane_position id p)).
Proof.
  view_change update_floating_pane_position id tt (fun _ : FloatingPaneView => tt) (fun v => (v <| position := p |>, false))
    (fun v => note_view_change (negb (bool_decide (position v = p)) && negb (is_minimized v)));
    [by right|intros; apply note_view_change_sound].
Qed.

Lemma pin_floating_pane_sound id top_left_cell : sound (plain (pin_floating_pane id top_left_cell)).
Proof. apply update_floating_pane_position_sound. Qed.

Lemma emptied_position c id : position <$> get_floating_pane_view (emptied c) id = position <$> get_floating_pane_view c id.
Proof. by rewrite emptied_get_view. Qed.

Lemma unpin_floating_pane_sound id : sound (plain (unpin_floating_pane id)).
Proof.
  apply (sound_reads (fun c => position <$> get_floating_pane_view c id)
    (fun p c => (tt, match p with Some (Pinned t) => update_floating_pane_position id (Moved t) c | _ => c end)));
    [intros c; apply emptied_position|]. intros [[]|]; try apply sound_id. apply update_floating_pane_position_sound.
Qed.

Lemma set_floating_pane_position_sound id top_left_cell : sound (set_floating_pane_position id top_left_cell).
Proof.
  apply (sound_reads (fun c => position <$> get_floating_pane_view c id)
    (fun p c => match p with
                | None | Some (Pinned _) => (false, c)
                | Some _ => (true, update_floating_pane_position id (Moved top_left_cell) c)
                end)); [intros c; apply emptied_position|].
  intros [[]|]; try apply sound_id.
  all: apply (sound_then (update_floating_pane_position id (Moved top_left_cell)) (fun c => (true, c)));
    [apply update_floating_pane_position_sound|apply sound_id].
Qed.

(** An operation on a view that may leave the client as it is. *)
Lemma sound_unless {A} id (d : A) (keeps : FloatingPaneView -> bool) (f : Client -> A * Client) :
  sound f -> sound (fun c => match get_floating_pane_view c id with
                             | Some v => if keeps v then (d, c) else f c
                             | None => (d, c)
                             end).
Proof.
  intros Hf. apply (sound_reads (fun c => get_floating_pane_view c id)
    (fun ov c => match ov with Some v => if keeps v then (d, c) else f c | None => (d, c) end));
    [intros c; apply emptied_get_view|].
  intros [v|]; [destruct (keeps v)|]; try apply sound_id. done.
Qed.

Lemma clear_floating_pane_zoom_sound id : sound (plain (clear_floating_pane_zoom id)).
Proof.
  eapply sound_ext; [|apply (sound_unless id tt (fun v => bool_decide (zoomed_pane_id v = None))
    (change_view id tt (fun _ => tt) (fun v => (v <| zoomed_pane_id := None |>, true)) (fun _ => note_view_change true)))].
  - intros c. unfold plain, clear_floating_pane_zoom, change_view. destruct (get_floating_pane_view c id) as [v|]; [|done].
    destruct (zoomed_pane_id v); by case_bool_decide.
  - apply change_view_sound; [by left|intros; apply note_view_change_sound].
Qed.

Lemma update_floating_pane_focused_pane_sound id pane_id : sound (plain (update_floating_pane_focused_pane id pane_id)).
Proof.
  eapply sound_ext; [|apply (sound_unless id tt (fun v => bool_decide (head (focus_history v) = Some pane_id))
    (change_view id tt (fun _ => tt) (fun v => (v <| focus_history := pane_id :: without pane_id (focus_history v) |>
                    <| zoomed_pane_id := (fun _ => pane_id) <$> zoomed_pane_id v |>, true)) (fun _ => note_view_change true)))].
  - intros c. unfold plain, update_floating_pane_focused_pane, change_view.
    destruct (get_floating_pane_view c id) as [v|]; [|done]. by case_bool_decide.
  - apply change_view_sound; [by left|intros; apply note_view_change_sound].
Qed.

(** [retain] that takes nothing out keeps the list. *)
Lemma without_length x l : length (without x l) = length l -> without x l = l.
Proof.
  unfold without. induction l as [|y l IH]; [done|]. cbn. destruct (negb (y =? x)); cbn.
  - intros [= H]. by rewrite IH.
  - intros H. pose proof (List.filter_length_le (fun z => negb (z =? x)) l). lia.
Qed.

Lemma remove_pane_from_floating_pane_focus_history_sound id pane_id :
  sound (plain (remove_pane_from_floating_pane_focus_history id pane_id)).
Proof.
  pose (same v := (length (without pane_id (focus_history v)) =? length (focus_history v))%nat).
  eapply sound_ext; [|apply (change_view_sound id tt (fun _ => tt)
    (fun v => (v <| focus_history := without pane_id (focus_history v) |>, negb (same v)))
    (fun v => if same v then fun c => c else note_view_change true))].
  - intros c. unfold plain, remove_pane_from_floating_pane_focus_history, change_view, same.
    destruct (get_floating_pane_view c id) as [v|]; [|done]. cbn. by case_match.
  - intros v. cbn. destruct (same v) eqn:E; [|by left]. right. split; [done|]. apply without_length. unfold same in E. by bools.
  - intros v. destruct (same v); [apply sound_id|apply note_view_change_sound].
Qed.

(** The shown floating panes and the focus of a client. *)
Ltac unread_with tac := apply unread_sound; intros c; [tac|split_and!; tac].

Lemma remove_shown_floating_pane_sound id : sound (plain (remove_shown_floating_pane id)).
Proof. unread_with ltac:(unfold remove_shown_floating_pane; cbn; repeat case_bool_decide; reflexivity). Qed.

Lemma focus_floating_pane_sound id : sound (focus_floating_pane id).
Proof.
  pose (is_front v shown focused :=
    is_minimized v || negb (bool_decide (last shown = Some id)) || negb (bool_decide (focused = Some id))).
  eapply sound_ext; [|apply (change_view_sound id false is_minimized (fun v => (v <| is_minimized := false |>, false))
    (fun v c => note_view_change (is_front v (shown_floating_pane_ids c) (focused_floating_pane_id c))
       (c <| shown_floating_pane_ids := without id (shown_floating_pane_ids c) ++ [id] |>
          <| focused_floating_pane_id := Some id |>)))].
  - intros c. unfold focus_floating_pane, change_view, is_front. destruct (get_floating_pane_view c id) as [v|]; [|done].
    unfold set_floating_pane_view. by destruct (view_by_floating_pane_id c !! id).
  - by right.
  - intros v. unread.
Qed.

Lemma minimize_floating_pane_sound id : sound (minimize_floating_pane id).
Proof.
  eapply sound_ext; [|apply (sound_unless id false is_minimized
    (change_view id false (fun _ => true) (fun v => (v <| is_minimized := true |>, false)) (fun _ => remove_shown_floating_pane id)))].
  - intros c. unfold minimize_floating_pane, change_view. by destruct (get_floating_pane_view c id) as [v|].
  - apply change_view_sound; [by right|intros; apply remove_shown_floating_pane_sound].
Qed.

(** A loop of operations. *)
Lemma foldl_sound {B} (f : B -> Client -> Client) (l : list B) :
  (forall x, sound (plain (f x))) -> sound (plain (fun c => foldl (fun c x => f x c) c l)).
Proof.
  intros Hf. induction l as [|x l IH]; [apply sound_id|].
  exact (plain_then (f x) (fun c => foldl (fun c x => f x c) c l) (Hf x) IH).
Qed.

Lemma minimize_views_sound ids : sound (plain (minimize_views ids)).
Proof.
  apply (foldl_sound (fun id c =>
    match get_floating_pane_view c id with
    | Some v => set_floating_pane_view id (v <| is_minimized := true |>) false c
    | None => c
    end)). intros id.
  eapply sound_ext; [|apply (change_view_sound id tt (fun _ => tt) (fun v => (v <| is_minimized := true |>, false)) (fun _ c => c))].
  - intros c. unfold plain, change_view. by destruct (get_floating_pane_view c id).
  - by right.
  - intros. apply sound_id.
Qed.

Lemma minimize_shown_floating_panes_sound : sound minimize_shown_floating_panes.
Proof.
  pose (rest (ids : list FloatingPaneId) (focused : option FloatingPaneId) (c : Client) :=
    (ids, note_view_change (negb (bool_decide (ids = [])) || bool_decide (is_Some focused))
            (c <| focused_floating_pane_id := None |>))).
  eapply sound_ext; [|apply (sound_reads (fun c => (shown_floating_pane_ids c, focused_floating_pane_id c))
    (fun r c => rest r.1 r.2 (minimize_views r.1 (c <| shown_floating_pane_ids := [] |>)))); [done|]]; [done|].
  intros [ids focused]; cbn [fst snd].
  apply (sound_then (fun c => c <| shown_floating_pane_ids := [] |>) (fun c => rest ids focused (minimize_views ids c))); [unread|].
  apply (sound_then (minimize_views ids) (rest ids focused)); [apply minimize_views_sound|].
  split; intros c; [reflexivity..|]. split; [by right|intros id w H _; by exists w].
Qed.

Lemma clear_zoom_of_pane_sound pane_id : sound (plain (clear_zoom_of_pane pane_id)).
Proof.
  pose (zooms (c : Client) := btree_keys (filter (fun entry : FloatingPaneId * FloatingPaneViewWithOwnSolve =>
      zoomed_pane_id (floating_pane_view entry.2) = Some pane_id) (view_by_floating_pane_id c))).
  pose (tabs_left (c : Client) :=
    let zoomed := filter (fun entry : TabId * PaneId => entry.2 <> pane_id) (zoomed_pane_id_by_tab_id c) in
    clear_own_active_tab_solve (note_view_change
      (negb (bool_decide (base.size zoomed = base.size (zoomed_pane_id_by_tab_id c))))
      (c <| zoomed_pane_id_by_tab_id := zoomed |>))).
  eapply sound_ext; [|apply (sound_then tabs_left (fun c => (tt, foldl (fun c id => clear_floating_pane_zoom id c) c (zooms c))))].
  - done.
  - other_fields.
  - apply (sound_reads zooms (fun ids c => (tt, foldl (fun c id => clear_floating_pane_zoom id c) c ids))).
    + intros c. unfold zooms. cbn. by rewrite map_filter_fmap, btree_keys_fmap.
    + intros ids. apply foldl_sound. intros id. apply clear_floating_pane_zoom_sound.
Qed.

Lemma add_floating_pane_view_sound f p : sound (plain (add_floating_pane_view f p)).
Proof.
  apply plain_sound; intros c; unfold add_floating_pane_view; rewrite ?emptied_views;
    destruct (_ !! floating_pane_id f) as [w|] eqn:E; cbn; try done.
  - unfold emptied. cbn. f_equal. by rewrite fmap_insert.
  - split; [by right|]. intros id w H N. cbn in H. destruct (decide (floating_pane_id f = id)) as [<-|Hne].
    + rewrite lookup_insert_eq in H. injection H as <-. done.
    + rewrite lookup_insert_ne in H by done. by exists w.
Qed.

Lemma remove_floating_pane_view_sound id : sound (plain (remove_floating_pane_view id)).
Proof.
  apply (plain_then (fun c => c <| view_by_floating_pane_id := delete id (view_by_floating_pane_id c) |>) (remove_shown_floating_pane id));
    [|apply remove_shown_floating_pane_sound].
  apply plain_sound; intros c.
  - unfold emptied. cbn. f_equal. by rewrite fmap_delete.
  - split; [by right|]. intros id' w H _. cbn in H. apply lookup_delete_Some in H as [_ H]. by exists w.
Qed.

(** The active tab stays. *)
Lemma set_view_active id v b c : active_tab_id (set_floating_pane_view id v b c) = active_tab_id c.
Proof. unfold set_floating_pane_view. by destruct (view_by_floating_pane_id c !! id). Qed.

Lemma minimize_views_active ids c : active_tab_id (minimize_views ids c) = active_tab_id c.
Proof.
  unfold minimize_views. revert c. induction ids as [|id ids IH]; intros c; [done|]. cbn. rewrite IH.
  destruct (get_floating_pane_view c id) as [v|]; [apply set_view_active|done].
Qed.

Lemma minimize_shown_active c : active_tab_id (minimize_shown_floating_panes c).2 = active_tab_id c.
Proof. cbn. by rewrite minimize_views_active. Qed.

Lemma update_focused_pane_active tab pane_id c : active_tab_id (update_focused_pane tab pane_id c).2 = active_tab_id c.
Proof. unfold update_focused_pane. by destruct (get_zoomed_pane_id c tab). Qed.

Lemma focus_tiled_pane_sound tab pane_id : sound (focus_tiled_pane tab pane_id).
Proof.
  pose (rest (is_active : bool) (previous_floating : option PaneId) (minimized : list FloatingPaneId) (c : Client) :=
    (MkTiledPaneFocusChange
       (if is_active then match previous_floating with Some p => Some p | None => (update_focused_pane tab pane_id c).1 end
        else (update_focused_pane tab pane_id c).1) minimized, (update_focused_pane tab pane_id c).2)).
  assert (forall b p m, sound (rest b p m)) as Hrest.
  { intros b p m. apply (sound_map (update_focused_pane tab pane_id)
      (fun q _ => MkTiledPaneFocusChange (if b then match p with Some p => Some p | None => q end else q) m));
      [apply update_focused_pane_sound|done]. }
  eapply sound_ext; [|apply (sound_reads (fun c => (tab =? active_tab_id c, find_focused_floating_pane_input_pane_id c, shown_floating_pane_ids c))
    (fun r c => let '(b, p, ids) := r in
      if b then rest true p ids (minimize_shown_floating_panes c).2 else rest false p [] c))].
  - intros c. unfold focus_tiled_pane, rest. destruct (tab =? active_tab_id c) eqn:E.
    + pose proof (minimize_shown_active c) as M. destruct (minimize_shown_floating_panes c) as [ids c1] eqn:U.
      unfold minimize_shown_floating_panes in U. injection U as <- _. cbn [snd] in *.
      rewrite <- M in E. pose proof (update_focused_pane_active tab pane_id c1) as M'.
      destruct (update_focused_pane tab pane_id c1) as [q c2]. cbn in *. by rewrite M', E.
    + pose proof (update_focused_pane_active tab pane_id c) as M'.
      destruct (update_focused_pane tab pane_id c) as [q c2]. cbn in *. by rewrite M', E.
  - intros c. by rewrite emptied_focused_input.
  - intros [[b p] ids]. destruct b; [|apply Hrest].
    apply (sound_then (fun c => (minimize_shown_floating_panes c).2) (rest true p ids)); [|apply Hrest].
    apply (sound_map minimize_shown_floating_panes (fun _ _ => tt)); [apply minimize_shown_floating_panes_sound|done].
Qed.

Lemma replace_floating_view_sound saved shown set : sound (plain (replace_floating_view saved shown set)).
Proof.
  apply plain_sound; intros c; unfold replace_floating_view.
  all: match goal with |- context [foldl ?g ?m ?l] => set (views := foldl g m l) end.
  all: assert (forall id w, views !! id = Some w -> own_solve w = None) as Hviews.
  1, 3: subst views; apply (foldl_inv (fun m : gmap FloatingPaneId FloatingPaneViewWithOwnSolve =>
      forall id w, m !! id = Some w -> own_solve w = None)); [intros id w; by rewrite lookup_empty|];
    intros m f _ Hm id w Hw; destruct (decide (floating_pane_id f = id)) as [<-|Hne];
      [rewrite lookup_insert_eq in Hw; by injection Hw as <-|rewrite lookup_insert_ne in Hw by done; by eapply Hm].
  all: clearbody views.
  - assert (emptied_view <$> views = views) as Hv.
    { apply map_eq. intros id. rewrite lookup_fmap. destruct (views !! id) as [w|] eqn:E; [|done]. cbn.
      apply Hviews in E. destruct w; cbn in *; by subst. }
    unfold emptied, note_view_change. cbn. rewrite Hv. do 3 f_equal.
    match goal with |- existsb _ ?ids = _ => induction ids as [|id l IH]; [done|] end.
    cbn [existsb]. by rewrite IH, <- (emptied_get_view c id).
  - split; [by right|]. intros id w H N. cbn in H. by apply Hviews in H.
Qed.

(** ** Focus changes of a client *)

Lemma apply_tiled_pane_focus_sound set tab pane_id : sound (apply_tiled_pane_focus set tab pane_id).
Proof.
  eapply sound_ext; [|apply (sound_map (focus_tiled_pane tab pane_id) (fun change c =>
    build_floating_pane_minimized_changed_events (client_id c) set (minimized_floating_pane_ids change) true
     ++ (if bool_decide (previous_pane_id change = Some pane_id) then []
         else [PaneFocused (client_id c) (Some tab) pane_id (previous_pane_id change)])))].
  - intros c. unfold apply_tiled_pane_focus. by destruct (focus_tiled_pane tab pane_id c).
  - apply focus_tiled_pane_sound.
  - done.
Qed.

Lemma apply_floating_pane_focus_sound set id pane_id : sound (apply_floating_pane_focus set id pane_id).
Proof.
  pose (rest (previous : option PaneId) (is_restored : bool) (c : Client) :=
    ((if is_restored then build_floating_pane_minimized_changed_events (client_id c) set [id] false else [])
     ++ option_to_list (build_pane_focused_event c previous))).
  eapply sound_ext; [|apply (sound_reads get_active_focused_pane_id (fun previous c =>
    let x := focus_floating_pane id c in
    let c' := update_floating_pane_focused_pane id pane_id x.2 in (rest previous x.1 c', c')))].
  - intros c. unfold apply_floating_pane_focus, rest. by destruct (focus_floating_pane id c).
  - apply emptied_active_focus.
  - intros previous. split; intros c; cbn.
    + rewrite (sound_answer _ (focus_floating_pane_sound id)), (sound_client _ (focus_floating_pane_sound id)).
      rewrite (plain_client _ _ (update_floating_pane_focused_pane_sound id pane_id)). unfold rest.
      by rewrite emptied_focused_event.
    + rewrite (sound_client _ (focus_floating_pane_sound id)).
      by rewrite (plain_client _ _ (update_floating_pane_focused_pane_sound id pane_id)).
    + etransitivity; [apply (sound_cells _ (focus_floating_pane_sound id))|].
      apply (plain_cells _ _ (update_floating_pane_focused_pane_sound id pane_id)).
Qed.

(** ** Every operation of a client *)

Inductive ClientEdit :=
  | UpdateCellSize (cell : option PixelCellSize)
  | ZoomPane (tab : TabId) (pane_id : PaneId)
  | ClearZoom (tab : TabId)
  | ClearZoomOfPane (pane_id : PaneId)
  | SetScrollOffset (pane_id : PaneId) (offset : nat)
  | SetSelection (pane_id : PaneId) (selection : Selection)
  | ClearSelection (pane_id : PaneId)
  | UpdateLockMode (mode : LockMode)
  | SetLastAppliedLockCommandId (id : CommandId)
  | SetLastAppliedFloatingPaneMoveCommandId (id : CommandId)
  | SetLastAppliedPlacementCommandId (id : CommandId)
  | ToggleMouseSelection
  | UpdateFocusedPane (tab : TabId) (pane_id : PaneId)
  | RemovePaneFromFocusHistory (tab : TabId) (pane_id : PaneId)
  | InsertPanesIntoFocusHistory (tab : TabId) (index : nat) (pane_ids : list PaneId)
  | FocusTiledPane (tab : TabId) (pane_id : PaneId)
  | ClearFocusHistory (tab : TabId)
  | UpdateActiveTabId (tab : TabId)
  | UpdateViewportSize (viewport : Size)
  | UpdatePaneArea (area : option PaneArea)
  | UpdateOrigin (o : ClientOrigin)
  | AddFloatingPaneView (f : FloatingPane) (p : FloatingPanePosition)
  | FocusFloatingPane (id : FloatingPaneId)
  | UpdateFloatingPaneFocusedPane (id : FloatingPaneId) (pane_id : PaneId)
  | RemovePaneFromFloatingPaneFocusHistory (id : FloatingPaneId) (pane_id : PaneId)
  | ZoomPaneInFloatingPane (id : FloatingPaneId) (pane_id : PaneId)
  | ClearFloatingPaneZoom (id : FloatingPaneId)
  | MinimizeFloatingPane (id : FloatingPaneId)
  | MinimizeShownFloatingPanes
  | PinFloatingPane (id : FloatingPaneId) (top_left_cell : Point)
  | UnpinFloatingPane (id : FloatingPaneId)
  | SetFloatingPanePosition (id : FloatingPaneId) (top_left_cell : Point)
  | RemoveFloatingPaneView (id : FloatingPaneId)
  | ReplaceFloatingView (saved : gmap FloatingPaneId FloatingPaneView) (shown : list FloatingPaneId) (set : FloatingSet).

Definition client_edit (e : ClientEdit) : Client -> Client :=
  match e with
  | UpdateCellSize cell => update_cell_size cell
  | ZoomPane tab pane_id => zoom_pane tab pane_id
  | ClearZoom tab => clear_zoom tab
  | ClearZoomOfPane pane_id => clear_zoom_of_pane pane_id
  | SetScrollOffset pane_id offset => set_scroll_offset pane_id offset
  | SetSelection pane_id selection => set_selection pane_id selection
  | ClearSelection pane_id => clear_selection pane_id
  | UpdateLockMode mode => update_lock_mode mode
  | SetLastAppliedLockCommandId id => set_last_applied_lock_command_id id
  | SetLastAppliedFloatingPaneMoveCommandId id => set_last_applied_floating_pane_move_command_id id
  | SetLastAppliedPlacementCommandId id => set_last_applied_placement_command_id id
  | ToggleMouseSelection => fun c => (toggle_mouse_selection c).2
  | UpdateFocusedPane tab pane_id => fun c => (update_focused_pane tab pane_id c).2
  | RemovePaneFromFocusHistory tab pane_id => remove_pane_from_focus_history tab pane_id
  | InsertPanesIntoFocusHistory tab index pane_ids => insert_panes_into_focus_history tab index pane_ids
  | FocusTiledPane tab pane_id => fun c => (focus_tiled_pane tab pane_id c).2
  | ClearFocusHistory tab => clear_focus_history tab
  | UpdateActiveTabId tab => update_active_tab_id tab
  | UpdateViewportSize viewport => update_viewport_size viewport
  | UpdatePaneArea area => update_pane_area area
  | UpdateOrigin o => update_origin o
  | AddFloatingPaneView f p => add_floating_pane_view f p
  | FocusFloatingPane id => fun c => (focus_floating_pane id c).2
  | UpdateFloatingPaneFocusedPane id pane_id => update_floating_pane_focused_pane id pane_id
  | RemovePaneFromFloatingPaneFocusHistory id pane_id => remove_pane_from_floating_pane_focus_history id pane_id
  | ZoomPaneInFloatingPane id pane_id => zoom_pane_in_floating_pane id pane_id
  | ClearFloatingPaneZoom id => clear_floating_pane_zoom id
  | MinimizeFloatingPane id => fun c => (minimize_floating_pane id c).2
  | MinimizeShownFloatingPanes => fun c => (minimize_shown_floating_panes c).2
  | PinFloatingPane id top_left_cell => pin_floating_pane id top_left_cell
  | UnpinFloatingPane id => unpin_floating_pane id
  | SetFloatingPanePosition id top_left_cell => fun c => (set_floating_pane_position id top_left_cell c).2
  | RemoveFloatingPaneView id => remove_floating_pane_view id
  | ReplaceFloatingView saved shown set => replace_floating_view saved shown set
  end.

Create HintDb sound discriminated.

#[export] Hint Resolve update_cell_size_sound zoom_pane_sound clear_zoom_sound clear_zoom_of_pane_sound set_scroll_offset_sound
  set_selection_sound clear_selection_sound update_lock_mode_sound set_last_applied_lock_command_id_sound
  set_last_applied_floating_pane_move_command_id_sound set_last_applied_placement_command_id_sound toggle_mouse_selection_sound
  update_focused_pane_sound remove_pane_from_focus_history_sound insert_panes_into_focus_history_sound focus_tiled_pane_sound
  clear_focus_history_sound update_active_tab_id_sound update_viewport_size_sound update_pane_area_sound update_origin_sound
  add_floating_pane_view_sound focus_floating_pane_sound update_floating_pane_focused_pane_sound
  remove_pane_from_floating_pane_focus_history_sound zoom_pane_in_floating_pane_sound clear_floating_pane_zoom_sound
  minimize_floating_pane_sound minimize_shown_floating_panes_sound pin_floating_pane_sound unpin_floating_pane_sound
  set_floating_pane_position_sound remove_floating_pane_view_sound replace_floating_view_sound
  apply_tiled_pane_focus_sound apply_floating_pane_focus_sound clear_own_floating_pane_solve_sound
  clear_own_active_tab_solve_sound note_view_change_sound : sound.

(** An operation whose answer is not read. *)
Lemma sound_plain {A} (f : Client -> A * Client) : sound f -> sound (plain (fun c => (f c).2)).
Proof. intros Hf. exact (sound_map f (fun _ _ => tt) Hf (fun _ _ => eq_refl)). Qed.

Lemma client_edit_sound e : sound (plain (client_edit e)).
Proof.
  destruct e; cbn [client_edit]; first [by eauto with sound|apply sound_plain; by eauto with sound].
Qed.
