(* ===== verification/SessionCells.v ===== *)
(** * Kept solves against solves built afresh

    [tracks] relates an operation that reads the solves the clients keep to the
    same operation that builds every solve when it is asked for: from a session
    whose cells are current they give one answer and the same session but for
    its cells, and the cells are current again. [stale] names the tabs and
    floating panes whose cells may be out of date in between. *)

From stdpp Require Import gmap strings options.
From S2P Require Import Prelude Geometry Size Tree Solver Neighbor Records Notifications SessionData LayoutAreas Client.
From S2P Require Import SessionState SessionFocus ClientCells.
#[local] Open Scope N_scope.

Definition emptied_session (s : Session) : Session :=
  change_clients (fun r => r <| client_by_id := emptied <$> client_by_id r |>) s.

(** Tabs and floating panes whose cells are not relied on. *)
Record Stale := MkStale { stale_tab : TabId -> Prop; stale_floating : FloatingPaneId -> Prop }.

Definition none_stale : Stale := MkStale (fun _ => False) (fun _ => False).
Definition all_stale : Stale := MkStale (fun _ => True) (fun _ => True).

(** A kept tab solve is of a tab of the session, whether or not it is stale. *)
Definition tab_cell_current (is_stale : Prop) (s : Session) (c : Client) : Prop :=
  forall own, own_active_tab_solve c = Some own ->
    exists t, tabs s !! active_tab_id c = Some t /\ (~ is_stale -> own = build_own_client_solve s c t).

Definition floating_cell_current (is_stale : Prop) (s : Session) (c : Client) (id : FloatingPaneId) : Prop :=
  forall w own, view_by_floating_pane_id c !! id = Some w -> own_solve w = Some own ->
    exists i f, find_floating_pane_by_id (floating_set s) id = Some (i, f)
      /\ (~ is_stale -> own = build_own_floating_solve s f (floating_pane_view w)).

(** Every tab is kept under its own id. *)
Definition tabs_keyed (s : Session) : Prop := forall tab t, tabs s !! tab = Some t -> tab_id t = tab.

Record current (stale : Stale) (s : Session) : Prop := MkCurrent
  { current_keys : tabs_keyed s;
    current_tab id c : find_client s id = Some c -> tab_cell_current (stale_tab stale (active_tab_id c)) s c;
    current_floating id c floating :
      find_client s id = Some c -> floating_cell_current (stale_floating stale floating) s c floating }.

Record tracks_at {A} (stale' : Stale) (view : A -> A) (s : Session) (m m' : session_op A) : Prop := MkTracksAt
  { tracks_answer : (m' (emptied_session s)).1 = view (m s).1;
    tracks_session : (m' (emptied_session s)).2 = emptied_session (m s).2;
    tracks_current : current stale' (m s).2 }.

(** [view] is what the answer is without its cells. *)
Definition tracks {A} (stale stale' : Stale) (view : A -> A) (m m' : session_op A) : Prop :=
  forall s, current stale s -> tracks_at stale' view s m m'.

(** ** Composition *)

Lemma tracks_ret {A} stale (view : A -> A) x x' : x' = view x -> tracks stale stale view (ret x) (ret x').
Proof. intros -> s Hs. by split. Qed.

Lemma tracks_bind {A B} s1 s2 s3 (view : A -> A) (view' : B -> B) (m m' : session_op A) (k k' : A -> session_op B) :
  tracks s1 s2 view m m' -> (forall x, tracks s2 s3 view' (k x) (k' (view x))) -> tracks s1 s3 view' (bind m k) (bind m' k').
Proof.
  intros Hm Hk s Hs. destruct (Hm s Hs) as [A1 A2 A3].
  destruct (m s) as [x s'] eqn:E. destruct (m' (emptied_session s)) as [x' e] eqn:E'. cbn in A1, A2, A3. subst.
  destruct (Hk x s' A3) as [B1 B2 B3]. split; unfold bind; by rewrite ?E, ?E'.
Qed.

Lemma tracks_reads {A B} s1 s2 (f : Session -> A) (view : A -> A) (view' : B -> B) (k k' : A -> session_op B) :
  (forall s, f (emptied_session s) = view (f s)) ->
  (forall x, tracks s1 s2 view' (k x) (k' (view x))) -> tracks s1 s2 view' (bind (reads f) k) (bind (reads f) k').
Proof.
  intros Hf Hk s Hs. destruct (Hk (f s) s Hs) as [B1 B2 B3]. split; unfold bind, reads; cbn; rewrite ?Hf; done.
Qed.

Lemma tracks_session_read {B} s1 s2 (view' : B -> B) (k k' : Session -> session_op B) :
  (forall s, tracks s1 s2 view' (k s) (k' (emptied_session s))) ->
  tracks s1 s2 view' (bind (reads (fun s => s)) k) (bind (reads (fun s => s)) k').
Proof. intros Hk. by apply (tracks_reads _ _ _ emptied_session). Qed.

Lemma tracks_changes stale stale' f f' :
  (forall s, f' (emptied_session s) = emptied_session (f s)) -> (forall s, current stale s -> current stale' (f s)) ->
  tracks stale stale' id (changes f) (changes f').
Proof. intros Hf Hc s Hs. split; cbn; auto. Qed.

Lemma tracks_for_each {A B} stale (f f' : A -> session_op (list B)) (l : list A) :
  (forall x, tracks stale stale id (f x) (f' x)) -> tracks stale stale id (for_each f l) (for_each f' l).
Proof.
  intros Hf. induction l as [|x l IH]; cbn; [by apply tracks_ret|].
  eapply tracks_bind; [apply Hf|]. intros events. eapply tracks_bind; [apply IH|]. intros more. by apply tracks_ret.
Qed.

Lemma tracks_filter {A} stale (view : A -> A) (f f' : A -> session_op bool) (l : list A) :
  (forall x, tracks stale stale id (f x) (f' (view x))) ->
  tracks stale stale (fmap view) (filter_op f l) (filter_op f' (view <$> l)).
Proof.
  intros Hf. induction l as [|x l IH]; cbn; [by apply tracks_ret|].
  eapply tracks_bind; [apply Hf|]. intros b. eapply tracks_bind; [apply IH|]. intros kept. apply tracks_ret. by destruct b.
Qed.

Lemma tracks_map {A B} stale (view : A -> A) (f f' : A -> session_op B) (l : list A) :
  (forall x, tracks stale stale id (f x) (f' (view x))) ->
  tracks stale stale id (map_op f l) (map_op f' (view <$> l)).
Proof.
  intros Hf. induction l as [|x l IH]; cbn; [by apply tracks_ret|].
  eapply tracks_bind; [apply Hf|]. intros y. eapply tracks_bind; [apply IH|]. intros ys. by apply tracks_ret.
Qed.

Lemma current_weaken stale stale' s :
  (forall tab, stale_tab stale tab -> stale_tab stale' tab) ->
  (forall id, stale_floating stale id -> stale_floating stale' id) -> current stale s -> current stale' s.
Proof.
  intros Ht Hf [K A B]. split; [done| |].
  - intros id c Hc own Hown. destruct (A id c Hc own Hown) as (t & H & E). exists t. split; [done|]. intros Hn. apply E. auto.
  - intros id c floating Hc w own Hw Hown. destruct (B id c floating Hc w own Hw Hown) as (i & f & H & E). exists i, f.
    split; [done|]. intros Hn. apply E. auto.
Qed.

(** ** Reading a session *)

Lemma emptied_find_client s id : find_client (emptied_session s) id = emptied <$> find_client s id.
Proof. apply lookup_fmap. Qed.

Lemma emptied_attached s : attached_clients (emptied_session s) = emptied <$> attached_clients s.
Proof. apply btree_values_fmap. Qed.

(** A filter of the attached clients that reads no cell. *)
Lemma filter_emptied (p : Client -> bool) (l : list Client) :
  (forall c, p (emptied c) = p c) -> List.filter p (emptied <$> l) = emptied <$> List.filter p l.
Proof. intros Hp. induction l as [|c l IH]; [done|]. cbn. rewrite Hp. destruct (p c); cbn; by rewrite IH. Qed.

Lemma omap_emptied {B} (f : Client -> option B) (l : list Client) :
  (forall c, f (emptied c) = f c) -> omap f (emptied <$> l) = omap f l.
Proof. intros Hf. induction l as [|c l IH]; [done|]. cbn. rewrite Hf. destruct (f c); by rewrite IH. Qed.

Lemma fmap_emptied {B} (f : Client -> B) (l : list Client) :
  (forall c, f (emptied c) = f c) -> f <$> (emptied <$> l) = f <$> l.
Proof. intros Hf. induction l as [|c l IH]; [done|]. cbn. by rewrite Hf, IH. Qed.

Lemma find_emptied (p : Client -> bool) (l : list Client) :
  (forall c, p (emptied c) = p c) -> List.find p (emptied <$> l) = emptied <$> List.find p l.
Proof. intros Hp. induction l as [|c l IH]; [done|]. cbn. rewrite Hp. by destruct (p c). Qed.

Lemma existsb_emptied (p : Client -> bool) (l : list Client) :
  (forall c, p (emptied c) = p c) -> existsb p (emptied <$> l) = existsb p l.
Proof. intros Hp. induction l as [|c l IH]; [done|]. cbn. by rewrite Hp, IH. Qed.

Lemma emptied_tab_size s tab : get_tab_size (emptied_session s) tab = get_tab_size s tab.
Proof. unfold get_tab_size. rewrite emptied_attached, filter_emptied by done. by rewrite omap_emptied. Qed.

Lemma emptied_solve_size s tab : resolve_tab_solve_size (emptied_session s) tab = resolve_tab_solve_size s tab.
Proof.
  unfold resolve_tab_solve_size. change (tabs (emptied_session s)) with (tabs s). rewrite emptied_attached, existsb_emptied by done.
  by rewrite emptied_tab_size.
Qed.

Lemma emptied_landing_pane s c tab : find_landing_pane (emptied_session s) (emptied c) tab = find_landing_pane s c tab.
Proof. done. Qed.

Lemma emptied_too_small_cause s tab id :
  resolve_terminal_too_small_cause (emptied_session s) tab id = resolve_terminal_too_small_cause s tab id.
Proof.
  unfold resolve_terminal_too_small_cause. rewrite emptied_find_client. destruct (find_client s id) as [c|]; [|done]. cbn.
  change (get_pane_area (emptied c)) with (get_pane_area c). rewrite emptied_tab_size, emptied_attached.
  repeat case_match; try done; rewrite find_emptied in * by done;
    match goal with H : _ <$> List.find ?p ?l = _ |- _ => destruct (List.find p l); simplify_eq/=; done end.
Qed.

(** ** Currency through a change *)

(** What a cell of the tab or floating pane is built from, but for its client. *)
Definition tab_kept (s s' : Session) (tab : TabId) : Prop :=
  pane_sizing s' = pane_sizing s
  /\ forall t, tabs s !! tab = Some t -> exists t', tabs s' !! tab = Some t' /\ tab_area t' = tab_area t.

(** The floating pane stays, with its inputs where [wanted], [known] then. *)
Definition floating_kept (s s' : Session) (id : FloatingPaneId) (wanted known : Prop) : Prop :=
  forall i f, find_floating_pane_by_id (floating_set s) id = Some (i, f) ->
    exists i' f', find_floating_pane_by_id (floating_set s') id = Some (i', f')
      /\ (wanted -> known /\ pane_sizing s' = pane_sizing s /\ floating_area f' = floating_area f).

(** The cells left after a change are cells from before it, with their inputs
    kept. *)
Lemma current_step stale stale' s s' :
  current stale s -> tabs_keyed s' -> (forall tab, is_Some (tabs s !! tab) -> is_Some (tabs s' !! tab)) ->
  (forall id c', find_client s' id = Some c' ->
    exists c, find_client s id = Some c /\ follows c c'
      /\ (own_active_tab_solve c' <> None -> ~ stale_tab stale' (active_tab_id c') ->
          ~ stale_tab stale (active_tab_id c') /\ tab_kept s s' (active_tab_id c'))
      /\ (forall floating w', view_by_floating_pane_id c' !! floating = Some w' -> own_solve w' <> None ->
          floating_kept s s' floating (~ stale_floating stale' floating) (~ stale_floating stale floating))) ->
  current stale' s'.
Proof.
  intros [Ks Cs Fs] Ks' Hex Hc. split; [done| |].
  - intros id c' Hc' own Hown. destruct (Hc id c' Hc') as (c & Hid & [Ft _] & Ht & _).
    destruct Ft as [?|(O & A & M & H)]; [congruence|].
    destruct (Cs id c Hid own) as (t & Htab & Hbuilt); [congruence|].
    destruct (Hex (active_tab_id c)) as [t' Ht']; [by exists t|]. rewrite A in *. exists t'. split; [done|]. intros Hn.
    destruct Ht as [Hn' [P K]]; [congruence|done|]. destruct (K t Htab) as (t1 & Ht1 & E). simplify_eq.
    rewrite (Hbuilt Hn'). unfold build_own_client_solve. rewrite E, P, (Ks _ _ Htab), (Ks' _ _ Ht'). by rewrite M, H.
  - intros id c' floating Hc' w' own Hw' Hown. destruct (Hc id c' Hc') as (c & Hid & [_ Fv] & _ & Hf).
    destruct (Fv floating w' Hw') as (w & Hw & O & Z & H); [congruence|].
    destruct (Fs id c floating Hid w own Hw) as (i & f & Hif & Hbuilt); [congruence|].
    destruct (Hf floating w' Hw') with i f as (i' & f' & Hif' & K); [congruence|done|]. exists i', f'. split; [done|]. intros Hn.
    destruct (K Hn) as (Hn' & P & E). rewrite (Hbuilt Hn').
    unfold build_own_floating_solve, view_layout_mode. by rewrite E, P, Z, H.
Qed.

(** The parts of a session that cells are built from, apart from the clients. *)
Definition same_areas (s s' : Session) : Prop :=
  pane_sizing s' = pane_sizing s /\ floating_set s' = floating_set s
  /\ forall tab, (fun t => (tab_id t, tab_area t)) <$> tabs s' !! tab = (fun t => (tab_id t, tab_area t)) <$> tabs s !! tab.

Lemma same_areas_keyed s s' : same_areas s s' -> tabs_keyed s -> tabs_keyed s'.
Proof.
  intros (_ & _ & T) K tab t' H. specialize (T tab). rewrite H in T. destruct (tabs s !! tab) as [t|] eqn:E; [|done].
  cbn in T. injection T as T _. rewrite T. by eapply K.
Qed.

Lemma same_areas_tab s s' tab : same_areas s s' -> tab_kept s s' tab.
Proof.
  intros (P & _ & T). split; [done|]. intros t Ht. specialize (T tab). rewrite Ht in T.
  destruct (tabs s' !! tab) as [t'|]; [|done]. cbn in T. injection T as _ T. by exists t'.
Qed.

Lemma same_areas_floating s s' id (known : Prop) : same_areas s s' -> floating_kept s s' id known known.
Proof. intros (P & F & _) i f H. rewrite F. by exists i, f. Qed.

(** A change of the clients, each in a sound way. *)
Lemma current_clients stale s s' :
  same_areas s s' ->
  (forall id c', find_client s' id = Some c' -> exists c, find_client s id = Some c /\ follows c c') ->
  current stale s -> current stale s'.
Proof.
  intros Ha Hf Hs. apply (current_step stale stale s); [done|by eapply same_areas_keyed; [|apply Hs]| |].
  { intros tab [t Ht]. destruct (proj2 (same_areas_tab s s' tab Ha) t Ht) as (t' & Ht' & _). by exists t'. }
  intros id c' Hc'. destruct (Hf id c' Hc') as (c & Hc & F). exists c. split_and!; [done|done| |].
  - intros _ Hn. split; [done|]. by apply same_areas_tab.
  - intros floating w' _ _. by apply same_areas_floating.
Qed.

Lemma same_areas_change_clients s f : same_areas s (change_clients f s).
Proof. by split_and!. Qed.

Lemma current_same stale s s' : same_areas s s' -> clients s' = clients s -> current stale s -> current stale s'.
Proof.
  intros Ha Hc. apply current_clients; [done|]. intros id c H. exists c. unfold find_client in *. by rewrite Hc in H.
Qed.

(** ** Changes of one client and of every client *)

Lemma tracks_on_client {A} stale id (d : A) (f : Client -> A * Client) :
  sound f -> tracks stale stale (fun x => x) (on_client id d f) (on_client id d f).
Proof.
  intros Hf s Hs. unfold on_client.
  split.
  - rewrite emptied_find_client. destruct (find_client s id) as [c|]; [|done]. cbn. apply (sound_answer _ Hf).
  - rewrite emptied_find_client. unfold find_client, get_client_by_id.
    destruct (client_by_id (clients s) !! id) as [c|] eqn:E; cbn; unfold emptied_session, change_clients, update_client; cbn;
      repeat f_equal; apply map_eq; intros id'; rewrite ?lookup_fmap; destruct (decide (id = id')) as [<-|Hne];
      rewrite ?lookup_alter_eq, ?lookup_alter_ne, ?lookup_fmap, ?E by done; try done.
    cbn. by rewrite (sound_client _ Hf).
  - unfold find_client, get_client_by_id. destruct (client_by_id (clients s) !! id) as [c|] eqn:E; cbn;
      (apply (current_clients stale s); [apply same_areas_change_clients| |exact Hs]); intros id' c'; unfold find_client, get_client_by_id; cbn;
      (destruct (decide (id = id')) as [<-|Hne];
       [rewrite lookup_alter_eq, E; cbn|rewrite lookup_alter_ne by done; intros H; by exists c']).
    + intros [= <-]. exists c. split; [done|]. apply (sound_cells _ Hf).
    + done.
Qed.

Lemma find_client_update_every s f id :
  find_client (change_clients (update_every_client f) s) id = f <$> find_client s id.
Proof. apply lookup_fmap. Qed.

Lemma tracks_every_client stale (f : Client -> Client) :
  sound (plain f) -> tracks stale stale id (changes (change_clients (update_every_client f)))
    (changes (change_clients (update_every_client f))).
Proof.
  intros Hf. apply tracks_changes.
  - intros s. unfold emptied_session, change_clients, update_every_client. cbn. do 2 f_equal.
    rewrite <- !map_fmap_compose. apply map_fmap_ext. intros id c _. cbn. apply (plain_client _ _ Hf).
  - intros s. apply current_clients; [apply same_areas_change_clients|]. intros id c'. rewrite find_client_update_every.
    destruct (find_client s id) as [c|]; [|done]. cbn. intros [= <-]. exists c. split; [done|]. apply (plain_cells _ _ Hf).
Qed.

(** ** Reading a solve *)

Lemma tracks_at_pair {A} stale (view : A -> A) s (m m' : session_op A) x s1 :
  m s = (x, s1) -> m' (emptied_session s) = (view x, emptied_session s1) -> current stale s1 -> tracks_at stale view s m m'.
Proof. intros E E' H. split; by rewrite ?E, ?E'. Qed.

(** A cell written with what it is built from. *)
Lemma fill_cell_emptied s id fill :
  (forall c, emptied (fill c) = emptied c) -> emptied_session (fill_cell id fill s) = emptied_session s.
Proof.
  intros Hf. unfold emptied_session, fill_cell, change_clients. cbn. do 2 f_equal. apply map_eq. intros id'.
  rewrite !lookup_fmap. destruct (decide (id = id')) as [<-|Hne]; [|by rewrite lookup_alter_ne].
  rewrite lookup_alter_eq. destruct (_ !! id) as [c|]; [|done]. cbn. by rewrite Hf.
Qed.

Lemma find_client_fill s id fill id' c' :
  find_client (fill_cell id fill s) id' = Some c' ->
  find_client s id' = Some c' \/ id' = id /\ exists c, find_client s id = Some c /\ c' = fill c.
Proof.
  unfold find_client, get_client_by_id. cbn. destruct (decide (id = id')) as [<-|Hne].
  - rewrite lookup_alter_eq. intros (c & H & ->)%fmap_Some. right. split; [done|]. by exists c.
  - rewrite lookup_alter_ne by done. by left.
Qed.

Lemma current_fill stale s id fill :
  current stale s ->
  (forall c, find_client s id = Some c -> active_tab_id (fill c) = active_tab_id c
    /\ (forall is_stale, tab_cell_current is_stale s c -> tab_cell_current is_stale s (fill c))
    /\ forall is_stale floating, floating_cell_current is_stale s c floating -> floating_cell_current is_stale s (fill c) floating) ->
  current stale (fill_cell id fill s).
Proof.
  intros [K T F] Hf. split; [done| |].
  - intros id' c' [Hc'|(-> & c & Hc & ->)]%find_client_fill; [by eapply T|].
    destruct (Hf c Hc) as (A & Ht & _). rewrite A. by apply Ht, (T id).
  - intros id' c' floating [Hc'|(-> & c & Hc & ->)]%find_client_fill; [by eapply F|].
    destruct (Hf c Hc) as (_ & _ & Hv). by apply Hv, (F id).
Qed.

Lemma tracks_client_solve stale id tab :
  ~ stale_tab stale tab ->
  tracks stale stale (fun x => x) (compute_client_solve (SolveStore := kept_solves) id tab)
    (compute_client_solve (SolveStore := fresh_solves) id tab).
Proof.
  intros Hn s Hs. cbn [compute_client_solve kept_solves fresh_solves].
  assert (client_solve_of (emptied_session s) id tab = client_solve_of s id tab) as E.
  { unfold client_solve_of. rewrite emptied_find_client. change (tabs (emptied_session s)) with (tabs s).
    destruct (tabs s !! tab) as [t|]; [|done]. cbn. by destruct (find_client s id). }
  destruct (tabs s !! tab) as [t|] eqn:Et; [destruct (find_client s id) as [c|] eqn:Ec|].
  2, 3: apply (tracks_at_pair _ _ _ _ _ None s); [unfold kept_client_solve; by rewrite ?Et, ?Ec| |done];
    unfold reads; rewrite E; unfold client_solve_of; by rewrite ?Et, ?Ec.
  assert (client_solve_of s id tab = Some (default (tab_solve t) (build_own_client_solve s c t))) as E'.
  { unfold client_solve_of. by rewrite Et, Ec. }
  destruct (tab =? active_tab_id c) eqn:Ea.
  2: eapply tracks_at_pair; [unfold kept_client_solve; by rewrite Et, Ec, Ea|unfold reads; by rewrite E, E'|done].
  apply N.eqb_eq in Ea. subst tab.
  assert (get_or_init (own_active_tab_solve c) (build_own_client_solve s c t) = build_own_client_solve s c t) as Ei.
  { destruct (own_active_tab_solve c) as [own|] eqn:Eo; [|done]. cbn.
    destruct (current_tab _ _ Hs id c Ec own Eo) as (t' & Ht' & E2). rewrite E2 by done. by simplify_eq. }
  eapply tracks_at_pair; [unfold kept_client_solve; by rewrite Et, Ec, N.eqb_refl, Ei| |].
  - unfold reads. by rewrite E, E', fill_cell_emptied.
  - apply current_fill; [done|]. intros c0 Hc0. simplify_eq. split_and!; [done| |done].
    intros is_stale _ own [= <-]. by exists t.
Qed.

Lemma tracks_floating_solve stale id floating :
  ~ stale_floating stale floating ->
  tracks stale stale (fun x => x) (compute_client_floating_pane_solve (SolveStore := kept_solves) id floating)
    (compute_client_floating_pane_solve (SolveStore := fresh_solves) id floating).
Proof.
  intros Hn s Hs. cbn [compute_client_floating_pane_solve kept_solves fresh_solves].
  assert (floating_solve_of (emptied_session s) id floating = floating_solve_of s id floating) as E.
  { unfold floating_solve_of. rewrite emptied_find_client. change (floating_set (emptied_session s)) with (floating_set s).
    destruct (find_floating_pane_by_id _ floating) as [[i f]|]; [|done]. cbn. destruct (find_client s id) as [c|]; [|done]. cbn.
    by rewrite emptied_get_view. }
  destruct (find_floating_pane_by_id (floating_set s) floating) as [[i f]|] eqn:Ef;
    [destruct (find_client s id) as [c|] eqn:Ec; [destruct (view_by_floating_pane_id c !! floating) as [w|] eqn:Ew|]|].
  2, 3, 4: apply (tracks_at_pair _ _ _ _ _ None s); [unfold kept_floating_solve; by rewrite Ef, ?Ec, ?Ew| |done];
    unfold reads; rewrite E; unfold floating_solve_of, get_floating_pane_view; rewrite Ef; cbn; rewrite ?Ec; cbn;
    by rewrite ?Ew.
  assert (floating_solve_of s id floating
    = Some (default (floating_solve f) (build_own_floating_solve s f (floating_pane_view w)))) as E'.
  { unfold floating_solve_of, get_floating_pane_view. rewrite Ef. cbn. rewrite Ec. cbn. by rewrite Ew. }
  assert (get_or_init (own_solve w) (build_own_floating_solve s f (floating_pane_view w))
    = build_own_floating_solve s f (floating_pane_view w)) as Ei.
  { destruct (own_solve w) as [own|] eqn:Eo; [|done]. cbn.
    destruct (current_floating _ _ Hs id c floating Ec w own Ew Eo) as (i' & f' & Hf' & E2). rewrite E2 by done. by simplify_eq. }
  eapply tracks_at_pair; [unfold kept_floating_solve; by rewrite Ef, Ec, Ew, Ei| |].
  - unfold reads. rewrite E, E'. f_equal. unfold emptied_session, fill_cell, change_clients. cbn. do 2 f_equal.
    symmetry. apply map_eq. intros id'.
    rewrite !lookup_fmap. destruct (decide (id = id')) as [<-|Hne]; [|by rewrite lookup_alter_ne].
    unfold find_client, get_client_by_id in Ec. rewrite lookup_alter_eq, Ec. cbn. f_equal. unfold emptied. cbn. f_equal.
    rewrite fmap_insert, insert_id; [done|]. by rewrite lookup_fmap, Ew.
  - apply current_fill; [done|]. intros c0 Hc0. simplify_eq. split_and!; [done|done|].
    intros is_stale id' Hold w' own Hw' Hown. cbn in Hw'. destruct (decide (floating = id')) as [<-|Hne].
    + rewrite lookup_insert_eq in Hw'. injection Hw' as <-. injection Hown as <-. by exists i, f.
    + rewrite lookup_insert_ne in Hw' by done. by eapply Hold.
Qed.

(** ** Focus repair *)

(** The same reads on both sides, then one case analysis. *)
Ltac read_session s := apply tracks_session_read; intros s; rewrite ?emptied_find_client.

Lemma current_change_tab stale tab f s :
  (forall t, tab_id (f t) = tab_id t /\ tab_area (f t) = tab_area t) -> current stale s -> current stale (change_tab tab f s).
Proof.
  intros Hf. apply current_same; [|done]. split_and!; [done|done|]. intros tab'. cbn.
  destruct (decide (tab = tab')) as [<-|Hne]; [|by rewrite lookup_alter_ne].
  rewrite lookup_alter_eq. destruct (tabs s !! tab) as [t|]; [|done]. cbn. destruct (Hf t) as [-> ->]. done.
Qed.

Lemma tracks_change_tab stale tab f :
  (forall t, tab_id (f t) = tab_id t /\ tab_area (f t) = tab_area t) ->
  tracks stale stale (fun x => x) (changes (change_tab tab f)) (changes (change_tab tab f)).
Proof. intros Hf. apply tracks_changes; [done|]. intros s. by apply current_change_tab. Qed.

Lemma tracks_update_client_tab_focus stale id tab pane_id :
  tracks stale stale (fun x => x) (update_client_tab_focus id tab pane_id) (update_client_tab_focus id tab pane_id).
Proof.
  intros s Hs. pose proof (tracks_on_client stale id [] (fun c =>
    ([PaneFocused id (Some tab) pane_id (update_focused_pane tab pane_id c).1], (update_focused_pane tab pane_id c).2))
    (sound_map (update_focused_pane tab pane_id) (fun p _ => [PaneFocused id (Some tab) pane_id p]) ltac:(auto with sound)
       (fun _ _ => eq_refl)) s Hs) as [A E C].
  unfold on_client in A, E, C. cbv beta in A, E, C. unfold update_client_tab_focus.
  rewrite emptied_find_client in A, E. destruct (find_client s id) as [c|] eqn:Ec; cbn [fmap option_fmap option_map] in *.
  - destruct (update_focused_pane tab pane_id (emptied c)) as [p' c'] eqn:U'.
    destruct (update_focused_pane tab pane_id c) as [p c1] eqn:U. cbn [fst snd] in *.
    eapply tracks_at_pair; [by rewrite Ec, U| |].
    + rewrite emptied_find_client, Ec. cbn [fmap option_fmap option_map]. rewrite U'. injection A as ->. f_equal.
      exact (f_equal (change_tab tab (record_focus_mru pane_id)) E).
    + by apply current_change_tab.
  - eapply tracks_at_pair; [by rewrite Ec|rewrite emptied_find_client, Ec; exact (f_equal (pair []) E)|done].
Qed.

Lemma tracks_repair_client_focus stale id tab r :
  ~ stale_tab stale tab ->
  tracks stale stale (fun x => x) (repair_client_focus (H := kept_solves) tab id r)
    (repair_client_focus (H := fresh_solves) tab id r).
Proof.
  intros Hn. unfold repair_client_focus. read_session s. destruct (find_client s id) as [c|]; [|by apply tracks_ret].
  cbn [fmap option_fmap option_map]. eapply tracks_bind; [by apply tracks_client_solve|].
  intros [solve|]; [|by apply tracks_ret].
  change (panes (emptied_session s)) with (panes s). change (list_focus_history (emptied c) tab) with (list_focus_history c tab).
  eapply (tracks_bind _ stale _ (fun x => x)).
  - rewrite emptied_landing_pane.
    match goal with |- tracks _ _ _ (match ?m with _ => _ end) _ => destruct m as [pane_id|] end.
    + apply tracks_update_client_tab_focus.
    + apply tracks_on_client. apply (sound_then (clear_focus_history tab) (fun c => ([], c))); [auto with sound|apply sound_id].
  - intros events. read_session s'. apply tracks_ret. f_equal.
    destruct (repair_focus _ _ _); [done|]. destruct (find_client s' id) as [c'|]; [|done]. cbn [fmap option_fmap option_map].
    by rewrite emptied_too_small_cause.
Qed.

(** The clients a suppressed pane takes the focus from, in the order of the
    panes. *)
Lemma suppressed_emptied {B} (g : PaneId -> Client -> B) (p : PaneId -> Client -> bool) (l : list PaneId) (cs : list Client) :
  (forall x c, p x (emptied c) = p x c) -> (forall x c, g x (emptied c) = g x c) ->
  (l ≫= fun x => g x <$> List.filter (p x) (emptied <$> cs)) = (l ≫= fun x => g x <$> List.filter (p x) cs).
Proof.
  intros Hp Hg. induction l as [|x l IH]; [done|]. cbn. rewrite IH. f_equal. rewrite filter_emptied by apply Hp.
  by rewrite fmap_emptied by apply Hg.
Qed.

Lemma tracks_hand_off_suppressed_focus stale tab previous :
  ~ stale_tab stale tab ->
  tracks stale stale (fun x => x) (hand_off_suppressed_focus (H := kept_solves) tab previous)
    (hand_off_suppressed_focus (H := fresh_solves) tab previous).
Proof.
  intros Hn. unfold hand_off_suppressed_focus. read_session s. change (tabs (emptied_session s)) with (tabs s).
  destruct (tabs s !! tab) as [t|]; [|by apply tracks_ret]. destruct (is_every_pane_suppressed _); [by apply tracks_ret|].
  rewrite emptied_attached, (suppressed_emptied (fun pane_id c => (client_id c, _)) (is_focused_on_suppressed tab)) by done.
  apply tracks_for_each. intros [id r]. by apply tracks_repair_client_focus.
Qed.

Lemma floating_focus_sound floating pane_id :
  sound (fun c => let previous := get_active_focused_pane_id c in
    let c := update_floating_pane_focused_pane floating pane_id c in
    (option_to_list (build_pane_focused_event c previous), c)).
Proof.
  apply (sound_reads get_active_focused_pane_id (fun previous c =>
    let c := update_floating_pane_focused_pane floating pane_id c in
    (option_to_list (build_pane_focused_event c previous), c))); [apply emptied_active_focus|].
  intros previous. apply (sound_map (plain (update_floating_pane_focused_pane floating pane_id))
    (fun _ c => option_to_list (build_pane_focused_event c previous))); [auto with sound|].
  intros _ c. by rewrite emptied_focused_event.
Qed.

Lemma tracks_repair_floating_pane_client_focus stale floating id r :
  ~ stale_floating stale floating ->
  tracks stale stale (fun x => x) (repair_floating_pane_client_focus (H := kept_solves) floating id r)
    (repair_floating_pane_client_focus (H := fresh_solves) floating id r).
Proof.
  intros Hn. unfold repair_floating_pane_client_focus. read_session s. destruct (find_client s id) as [c|]; [|by apply tracks_ret].
  cbn [fmap option_fmap option_map]. eapply tracks_bind; [by apply tracks_floating_solve|]. rewrite emptied_get_view.
  intros [solve|]; [|by apply tracks_ret]. destruct (get_floating_pane_view c floating) as [v|]; [|by apply tracks_ret].
  change (panes (emptied_session s)) with (panes s). change (floating_set (emptied_session s)) with (floating_set s).
  match goal with |- tracks _ _ _ (match ?m with _ => _ end) _ => destruct m as [pane_id|] end; [|by apply tracks_ret].
  apply tracks_on_client, floating_focus_sound.
Qed.

Lemma emptied_is_floating_focused_on floating pane_id c :
  is_floating_focused_on floating pane_id (emptied c) = is_floating_focused_on floating pane_id c.
Proof. unfold is_floating_focused_on. by rewrite emptied_input. Qed.

Lemma tracks_hand_off_suppressed_floating_focus stale floating previous :
  ~ stale_floating stale floating ->
  tracks stale stale (fun x => x) (hand_off_suppressed_floating_focus (H := kept_solves) floating previous)
    (hand_off_suppressed_floating_focus (H := fresh_solves) floating previous).
Proof.
  intros Hn. unfold hand_off_suppressed_floating_focus. read_session s.
  change (floating_set (emptied_session s)) with (floating_set s).
  destruct (find_floating_pane_by_id _ floating) as [[i f]|]; [|by apply tracks_ret].
  destruct (is_every_pane_suppressed _); [by apply tracks_ret|].
  rewrite emptied_attached, (suppressed_emptied (fun pane_id c => (client_id c, _)) (is_floating_focused_on floating))
    by (done || apply emptied_is_floating_focused_on).
  apply tracks_for_each. intros [id r]. by apply tracks_repair_floating_pane_client_focus.
Qed.

(** ** Clients that cannot draw floating panes *)

Lemma tracks_can_client_draw stale c :
  ~ stale_tab stale (active_tab_id c) ->
  tracks stale stale (fun x => x) (can_client_draw_floating_panes (H := kept_solves) c)
    (can_client_draw_floating_panes (H := fresh_solves) (emptied c)).
Proof.
  intros Hn. unfold can_client_draw_floating_panes. change (get_floating_viewport (emptied c)) with (get_floating_viewport c).
  destruct (get_floating_viewport c); [|by apply tracks_ret]. eapply tracks_bind; [by apply tracks_client_solve|].
  intros solve. by apply tracks_ret.
Qed.

(** An operation that reads the session it runs in. *)
Lemma tracks_with {A B} s1 s2 (view : A -> A) (r : Session -> B) (m m' : B -> session_op A) :
  (forall s, r (emptied_session s) = r s) -> (forall b, tracks s1 s2 view (m b) (m' b)) ->
  tracks s1 s2 view (fun s => m (r s) s) (fun s => m' (r s) s).
Proof. intros Hr Hm s Hs. destruct (Hm (r s) s Hs) as [A1 A2 A3]. split; rewrite ?Hr; done. Qed.

Lemma minimize_sound id set :
  sound (fun c => let previous := get_active_focused_pane_id c in
    let '(minimized, c) := minimize_shown_floating_panes c in
    (build_floating_pane_minimized_changed_events id set minimized true
       ++ option_to_list (build_pane_focused_event c previous), c)).
Proof.
  eapply sound_ext; [|apply (sound_reads get_active_focused_pane_id (fun previous c =>
    (build_floating_pane_minimized_changed_events id set (minimize_shown_floating_panes c).1 true
       ++ option_to_list (build_pane_focused_event (minimize_shown_floating_panes c).2 previous),
     (minimize_shown_floating_panes c).2)))].
  - intros c. cbv beta zeta. by destruct (minimize_shown_floating_panes c).
  - apply emptied_active_focus.
  - intros previous. apply (sound_map minimize_shown_floating_panes (fun minimized c =>
      build_floating_pane_minimized_changed_events id set minimized true
       ++ option_to_list (build_pane_focused_event c previous))); [auto with sound|].
    intros x c. by rewrite emptied_focused_event.
Qed.

(** No tab's cell is stale. *)
Definition tabs_fresh (stale : Stale) : Prop := forall tab, ~ stale_tab stale tab.

Lemma tracks_minimize_undrawable stale :
  tabs_fresh stale ->
  tracks stale stale (fun x => x) (minimize_undrawable_floating_panes (H := kept_solves))
    (minimize_undrawable_floating_panes (H := fresh_solves)).
Proof.
  intros Hn. unfold minimize_undrawable_floating_panes. read_session s. rewrite emptied_attached.
  eapply tracks_bind.
  - apply tracks_filter. intros c. change (shown_floating_pane_ids (emptied c)) with (shown_floating_pane_ids c).
    case_bool_decide; [by apply tracks_ret|]. eapply tracks_bind; [apply tracks_can_client_draw, Hn|]. intros b. by apply tracks_ret.
  - intros minimizing. rewrite fmap_emptied by done. apply tracks_for_each. intros id.
    pose (m set := on_client id [] (fun c =>
      let previous := get_active_focused_pane_id c in
      let '(minimized, c) := minimize_shown_floating_panes c in
      (build_floating_pane_minimized_changed_events id set minimized true
         ++ option_to_list (build_pane_focused_event c previous), c))).
    apply (tracks_with _ _ _ floating_set m m); [done|]. intros set. apply tracks_on_client, minimize_sound.
Qed.

Lemma tracks_apply_tab_solve_change stale tab previous :
  tabs_fresh stale ->
  tracks stale stale (fun x => x) (apply_tab_solve_change (H := kept_solves) tab previous)
    (apply_tab_solve_change (H := fresh_solves) tab previous).
Proof.
  intros Hn. unfold apply_tab_solve_change. eapply tracks_bind; [by apply tracks_hand_off_suppressed_focus|].
  intros events. eapply tracks_bind; [by apply tracks_minimize_undrawable|]. intros more. by apply tracks_ret.
Qed.

(** ** Solving again *)

Definition except_tab (tab : TabId) (stale : Stale) : Stale :=
  MkStale (fun id => stale_tab stale id /\ id <> tab) (stale_floating stale).
Definition except_floating (floating : FloatingPaneId) (stale : Stale) : Stale :=
  MkStale (stale_tab stale) (fun id => stale_floating stale id /\ id <> floating).

Lemma tracks_weaken {A} s1 s2 s1' s2' (view : A -> A) m m' :
  (forall s, current s1' s -> current s1 s) -> (forall s, current s2 s -> current s2' s) ->
  tracks s1 s2 view m m' -> tracks s1' s2' view m m'.
Proof. intros H1 H2 Hm s Hs. destruct (Hm s (H1 s Hs)) as [A1 A2 A3]. split; auto. Qed.

Lemma except_none_tab tab s : current (except_tab tab none_stale) s -> current none_stale s.
Proof. by apply current_weaken; [intros ? []|]. Qed.

Lemma except_none_floating floating s : current (except_floating floating none_stale) s -> current none_stale s.
Proof. by apply current_weaken; [|intros ? []]. Qed.

Lemma find_client_clear_tab tab f s id :
  find_client (change_clients (clear_own_active_tab_solves tab) (change_tab tab f s)) id
  = (fun c => if active_tab_id c =? tab then clear_own_active_tab_solve c else c) <$> find_client s id.
Proof. apply lookup_fmap. Qed.

(** A tab solved again, with the cells of its viewers emptied. *)
Lemma current_solved_tab stale tab f s :
  (forall t, tab_id (f t) = tab_id t) -> current stale s ->
  current (except_tab tab stale) (change_clients (clear_own_active_tab_solves tab) (change_tab tab f s)).
Proof.
  intros Hf Hs. apply (current_step stale _ s); [done| | |].
  2: { intros id [t Ht]. cbn. destruct (decide (tab = id)) as [<-|Hne]; [rewrite lookup_alter_eq, Ht; by eexists|].
       rewrite lookup_alter_ne by done. by exists t. }
  - intros id t. cbn. destruct (decide (tab = id)) as [<-|Hne].
    + rewrite lookup_alter_eq. destruct (tabs s !! tab) as [t0|] eqn:E; [|done]. cbn. intros [= <-]. rewrite Hf.
      by eapply (current_keys _ _ Hs).
    + rewrite lookup_alter_ne by done. apply (current_keys _ _ Hs).
  - intros id c'. rewrite find_client_clear_tab. destruct (find_client s id) as [c|] eqn:E; [|done]. cbn. intros [= <-].
    exists c. split; [done|]. destruct (active_tab_id c =? tab) eqn:Ea.
    + split; [apply (plain_cells _ c); auto with sound|]. split; [done|].
      intros floating w' _ _ i f0 H. by exists i, f0.
    + split; [done|]. split.
      * intros _ Hn. bools. split; [intros H; apply Hn; done|]. split; [done|]. intros t Ht. exists t. cbn.
        by rewrite lookup_alter_ne by done.
      * intros floating w' _ _ i f0 H. by exists i, f0.
Qed.

Lemma emptied_clear_tab tab s :
  emptied_session (change_clients (clear_own_active_tab_solves tab) s)
  = change_clients (clear_own_active_tab_solves tab) (emptied_session s).
Proof.
  unfold emptied_session, change_clients, clear_own_active_tab_solves. cbn. do 2 f_equal.
  rewrite <- !map_fmap_compose. apply map_fmap_ext. intros id c _. cbn. by destruct (active_tab_id c =? tab).
Qed.

Lemma current_note stale f s : current stale s -> current stale (change_view_changes f s).
Proof. by apply current_same. Qed.

(** The change a tab goes through when it is solved again. *)
Lemma tracks_solved_tab stale tab (g : Session -> Session) f :
  (forall t, tab_id (f t) = tab_id t) ->
  g = (fun s => s) \/ g = note_layout_change tab ->
  tracks stale (except_tab tab stale) (fun x => x)
    (changes (fun s => change_clients (clear_own_active_tab_solves tab) (g (change_tab tab f s))))
    (changes (fun s => change_clients (clear_own_active_tab_solves tab) (g (change_tab tab f s)))).
Proof.
  intros Hf Hg. apply tracks_changes.
  - intros s. rewrite emptied_clear_tab. by destruct Hg as [-> | ->].
  - intros s Hs. destruct Hg as [-> | ->]; [by apply current_solved_tab|].
    apply (current_note _ (fun v => v <| layout_changed_tab_ids := {[ tab ]} ∪ layout_changed_tab_ids v |>)
      (change_clients (clear_own_active_tab_solves tab) (change_tab tab f s))). by apply current_solved_tab.
Qed.

Lemma tracks_update_tab_solve tab :
  tracks none_stale none_stale (fun x => x) (update_tab_solve (H := kept_solves) tab) (update_tab_solve (H := fresh_solves) tab).
Proof.
  unfold update_tab_solve. read_session s. rewrite emptied_solve_size. change (tabs (emptied_session s)) with (tabs s).
  destruct (resolve_tab_solve_size s tab) as [tab_size|]; [|by apply tracks_ret].
  destruct (tabs s !! tab) as [t|]; [|by apply tracks_ret].
  case_bool_decide; [by apply tracks_apply_tab_solve_change; intros ? []|].
  eapply tracks_bind; [|intros _; by apply tracks_apply_tab_solve_change; intros ? []].
  apply tracks_changes.
  - intros s0. unfold solve_tab_at. unfold note_layout_change at 2.
    change (emptied_session (change_view_changes ?f ?x)) with (change_view_changes f (emptied_session x)).
    by rewrite emptied_clear_tab.
  - intros s0 Hs. apply current_note, (except_none_tab tab), current_solved_tab; [done|exact Hs].
Qed.

Lemma tracks_update_tab_layout tab layout_tree :
  tracks none_stale none_stale (fun x => x) (update_tab_layout (H := kept_solves) tab layout_tree)
    (update_tab_layout (H := fresh_solves) tab layout_tree).
Proof.
  unfold update_tab_layout. read_session s. change (tabs (emptied_session s)) with (tabs s).
  destruct (tabs s !! tab) as [t|]; [|by apply tracks_ret].
  eapply tracks_bind; [|intros _; by apply tracks_apply_tab_solve_change; intros ? []].
  eapply tracks_weaken; [done|apply (except_none_tab tab)|]. apply tracks_solved_tab; [done|].
  change (pane_sizing (emptied_session s)) with (pane_sizing s).
  destruct (_ || _); [by right|by left].
Qed.

(** ** Floating panes solved again *)

Lemma find_floating_fmap (g : FloatingPane -> FloatingPane) (set : FloatingSet) id :
  (forall f, floating_pane_id (g f) = floating_pane_id f) ->
  find_floating_pane_by_id (g <$> set) id = prod_map (fun i => i) g <$> find_floating_pane_by_id set id.
Proof.
  intros Hg. unfold find_floating_pane_by_id. rewrite list_find_fmap. f_equal.
  apply list_find_ext. intros f. cbn. by rewrite Hg.
Qed.

Lemma find_floating_cons f (set : FloatingSet) id :
  find_floating_pane_by_id (f :: set) id
  = if decide (floating_pane_id f = id) then Some (0%nat, f) else prod_map S (fun x => x) <$> find_floating_pane_by_id set id.
Proof. done. Qed.

Lemma find_floating_id (set : FloatingSet) id i f : find_floating_pane_by_id set id = Some (i, f) -> floating_pane_id f = id.
Proof. intros (_ & H & _)%list_find_Some. done. Qed.

Lemma update_floating_cons f (set : FloatingSet) id change :
  update_floating_pane id change (f :: set)
  = if decide (floating_pane_id f = id) then change f :: set else f :: update_floating_pane id change set.
Proof.
  unfold update_floating_pane. rewrite find_floating_cons. case_decide; [done|].
  by destruct (find_floating_pane_by_id set id) as [[i g]|].
Qed.

Lemma find_update_floating_ne (set : FloatingSet) id id' change :
  id <> id' -> (forall f, floating_pane_id (change f) = floating_pane_id f) ->
  find_floating_pane_by_id (update_floating_pane id change set) id' = find_floating_pane_by_id set id'.
Proof.
  intros Hne Hc. induction set as [|f set IH]; [done|]. rewrite update_floating_cons, find_floating_cons.
  case_decide; rewrite find_floating_cons, ?Hc.
  - rewrite decide_False by congruence. by rewrite decide_False by congruence.
  - by rewrite IH.
Qed.

Lemma find_update_floating_eq (set : FloatingSet) id change :
  (forall f, floating_pane_id (change f) = floating_pane_id f) ->
  find_floating_pane_by_id (update_floating_pane id change set) id
  = prod_map (fun i => i) change <$> find_floating_pane_by_id set id.
Proof.
  intros Hc. induction set as [|f set IH]; [done|]. rewrite update_floating_cons, find_floating_cons.
  case_decide as E; rewrite find_floating_cons, ?Hc.
  - by rewrite !decide_True.
  - rewrite !decide_False, IH by done. by destruct (find_floating_pane_by_id set id) as [[i g]|].
Qed.

Lemma clear_floating_view_cleared id c w :
  view_by_floating_pane_id (clear_own_floating_pane_solve id c) !! id = Some w -> own_solve w = None.
Proof.
  unfold clear_own_floating_pane_solve, set_floating_pane_view, get_floating_pane_view.
  destruct (view_by_floating_pane_id c !! id) as [w0|] eqn:E; cbn.
  - rewrite lookup_insert_eq. intros [= <-]. done.
  - by rewrite E.
Qed.

Lemma find_client_clear_floating ids s id :
  find_client (change_clients (fun r => foldr clear_own_floating_pane_solves r ids) s) id
  = (fun c => foldr clear_own_floating_pane_solve c ids) <$> find_client s id.
Proof.
  unfold find_client, get_client_by_id. cbn. induction ids as [|floating ids IH]; cbn; [by destruct (_ !! id)|].
  rewrite lookup_fmap, IH. by destruct (client_by_id (clients s) !! id).
Qed.

Lemma clear_floating_sound ids : sound (plain (fun c => foldr clear_own_floating_pane_solve c ids)).
Proof.
  induction ids as [|id ids IH]; [apply sound_id|].
  exact (plain_then _ (clear_own_floating_pane_solve id) IH (clear_own_floating_pane_solve_sound id)).
Qed.

Lemma clear_floating_cleared ids id c w :
  id ∈ ids -> view_by_floating_pane_id (foldr clear_own_floating_pane_solve c ids) !! id = Some w -> own_solve w = None.
Proof.
  revert w. induction ids as [|id' ids IH]; intros w; [by intros ?%elem_of_nil|]. cbn. destruct (decide (id = id')) as [<-|Hne].
  - intros _. apply clear_floating_view_cleared.
  - intros [?|Hin]%elem_of_cons Hw; [done|]. destruct (decide (own_solve w = None)) as [?|Hn]; [done|].
    destruct (follows_view _ _ (plain_cells _ (foldr clear_own_floating_pane_solve c ids) (clear_own_floating_pane_solve_sound id'))
      id w Hw Hn) as (w0 & H0 & O & _). rewrite O. by eapply IH.
Qed.

(** Floating panes of another set, with the cells of [ids] emptied. *)
Lemma current_floating_set stale stale' ids set s :
  (forall tab, stale_tab stale tab <-> stale_tab stale' tab) ->
  (forall id, id ∉ ids -> forall i f, find_floating_pane_by_id (floating_set s) id = Some (i, f) ->
    exists i' f', find_floating_pane_by_id set id = Some (i', f')
      /\ (~ stale_floating stale' id -> ~ stale_floating stale id /\ floating_area f' = floating_area f)) ->
  current stale s ->
  current stale' (change_clients (fun r => foldr clear_own_floating_pane_solves r ids) (s <| floating_set := set |>)).
Proof.
  intros Ht Hset Hs. apply (current_step stale _ s); [done|apply (current_keys _ _ Hs)|done|].
  intros id c'. rewrite find_client_clear_floating. change (find_client (s <| floating_set := set |>) id) with (find_client s id).
  destruct (find_client s id) as [c|]; [|done]. cbn. intros [= <-]. exists c.
  pose proof (plain_cells _ c (clear_floating_sound ids)) as F. split_and!; [done|exact F| |].
  - intros Hown Hn. split; [by rewrite Ht|]. split; [done|]. intros t Ht'. by exists t.
  - intros floating w' Hw' Hown.
    destruct (decide (floating ∈ ids)) as [Hin|Hin]; [by destruct (Hown (clear_floating_cleared _ _ _ _ Hin Hw'))|].
    intros i f H. destruct (Hset floating Hin i f H) as (i' & f' & H' & K). exists i', f'. split; [done|].
    intros Hn. destruct (K Hn). by split.
Qed.

Lemma emptied_clear_floating_one id (r : ClientRegistry) :
  (clear_own_floating_pane_solves id r) <| client_by_id := emptied <$> client_by_id (clear_own_floating_pane_solves id r) |>
  = clear_own_floating_pane_solves id (r <| client_by_id := emptied <$> client_by_id r |>).
Proof.
  unfold clear_own_floating_pane_solves. cbn. f_equal. rewrite <- !map_fmap_compose. apply map_fmap_ext.
  intros id' c _. cbn. symmetry. apply (plain_client _ c (clear_own_floating_pane_solve_sound id)).
Qed.

Lemma emptied_clear_floating ids s :
  emptied_session (change_clients (fun r => foldr clear_own_floating_pane_solves r ids) s)
  = change_clients (fun r => foldr clear_own_floating_pane_solves r ids) (emptied_session s).
Proof.
  unfold emptied_session, change_clients. cbn. f_equal. induction ids as [|id ids IH]; [done|]. cbn [foldr]. rewrite <- IH.
  apply (emptied_clear_floating_one id).
Qed.

Lemma tracks_hand_off_floating_panes ids previous :
  tracks none_stale none_stale (fun x => x) (hand_off_floating_panes (H := kept_solves) ids previous)
    (hand_off_floating_panes (H := fresh_solves) ids previous).
Proof.
  revert previous. induction ids as [|id ids IH]; intros previous; cbn; [by apply tracks_ret|].
  eapply tracks_bind; [by apply tracks_hand_off_suppressed_floating_focus; intros []|]. intros events.
  eapply tracks_bind; [apply IH|]. intros more. by apply tracks_ret.
Qed.

(** The change of the floating panes when they are solved again. *)
Lemma tracks_floating_set stale stale' ids (g : Session -> Session) (set : FloatingSet -> FloatingSet) s :
  g = (fun s => s) \/ g = note_floating_set_change ->
  (forall tab, stale_tab stale tab <-> stale_tab stale' tab) ->
  (forall id, id ∉ ids -> forall i f, find_floating_pane_by_id (floating_set s) id = Some (i, f) ->
    exists i' f', find_floating_pane_by_id (set (floating_set s)) id = Some (i', f')
      /\ (~ stale_floating stale' id -> ~ stale_floating stale id /\ floating_area f' = floating_area f)) ->
  current stale s ->
  let m := changes (fun s => change_clients (fun r => foldr clear_own_floating_pane_solves r ids) (g (change_floating_set set s))) in
  tracks_at stale' (fun x => x) s m m.
Proof.
  intros Hg Ht Hset Hs m. eapply tracks_at_pair; [done| |]; cbn.
  - rewrite emptied_clear_floating. by destruct Hg as [-> | ->].
  - destruct Hg as [-> | ->].
    + by apply (current_floating_set stale).
    + apply (current_note _ (fun v => v <| is_floating_set_changed := true |>)
        (change_clients (fun r => foldr clear_own_floating_pane_solves r ids) (change_floating_set set s))).
      by apply (current_floating_set stale).
Qed.

Lemma tracks_update_floating_pane_layout floating layout_tree :
  tracks none_stale none_stale (fun x => x) (update_floating_pane_layout (H := kept_solves) floating layout_tree)
    (update_floating_pane_layout (H := fresh_solves) floating layout_tree).
Proof.
  unfold update_floating_pane_layout. read_session s. change (floating_set (emptied_session s)) with (floating_set s).
  destruct (find_floating_pane_by_id (floating_set s) floating) as [[i f]|]; [|by apply tracks_ret].
  eapply tracks_bind; [|intros _; by apply tracks_hand_off_suppressed_floating_focus; intros []].
  intros s0 Hs0. apply (tracks_floating_set none_stale none_stale [floating] note_floating_set_change); [by right|done| |done].
  intros id Hin i' f' Hf. exists i', f'. split; [|done]. rewrite find_update_floating_ne; [done|set_solver|by intros].
Qed.

(** The floating panes sized again, with the solves held before. *)
Lemma update_floating_pane_size_id vp sizing f : floating_pane_id (update_floating_pane_size vp sizing f).1 = floating_pane_id f.
Proof. unfold update_floating_pane_size. by case_bool_decide. Qed.

Lemma resized_not_listed vp sizing (set : FloatingSet) id i f :
  find_floating_pane_by_id set id = Some (i, f) ->
  id ∉ ((set_update_floating_pane_sizes vp sizing set).2).*1 ->
  (update_floating_pane_size vp sizing f).1 = f.
Proof.
  intros Hf Hin. apply list_find_Some in Hf as (Hi & Hid & _).
  destruct (decide (floating_solved_size f
    = solve_floating_pane_size (desired_size f) vp (floating_minimum_size sizing f))) as [E|E];
    unfold update_floating_pane_size; [by rewrite bool_decide_eq_true_2|].
  destruct Hin. unfold set_update_floating_pane_sizes. cbn [snd]. apply list_elem_of_fmap.
  eexists (floating_pane_id f, _). split; [done|]. apply list_elem_of_omap. eexists. split.
  - apply list_elem_of_fmap. exists f. split; [done|]. by eapply list_elem_of_lookup_2.
  - unfold update_floating_pane_size. by rewrite bool_decide_eq_false_2.
Qed.

(** A read followed by what depends on the session still being the one read. *)
Lemma tracks_read_here {B} s1 s2 (view' : B -> B) (k k' : Session -> session_op B) :
  (forall s, current s1 s -> tracks_at s2 view' s (k s) (k' (emptied_session s))) ->
  tracks s1 s2 view' (bind (reads (fun s => s)) k) (bind (reads (fun s => s)) k').
Proof. intros Hk s Hs. destruct (Hk s Hs) as [B1 B2 B3]. by split. Qed.

Lemma tracks_at_bind {A B} s2 s3 (view : A -> A) (view' : B -> B) s (m m' : session_op A) (k k' : A -> session_op B) :
  tracks_at s2 view s m m' -> (forall x, tracks s2 s3 view' (k x) (k' (view x))) -> tracks_at s3 view' s (bind m k) (bind m' k').
Proof.
  intros [A1 A2 A3] Hk. destruct (m s) as [x s'] eqn:E. destruct (m' (emptied_session s)) as [x' e] eqn:E'. cbn in A1, A2, A3. subst.
  destruct (Hk x s' A3) as [B1 B2 B3]. split; unfold bind; by rewrite ?E, ?E'.
Qed.

Lemma tracks_update_floating_pane_sizes vp :
  tracks none_stale none_stale (fun x => x) (update_floating_pane_sizes (H := kept_solves) vp)
    (update_floating_pane_sizes (H := fresh_solves) vp).
Proof.
  unfold update_floating_pane_sizes. apply tracks_read_here. intros s Hs.
  change (floating_set (emptied_session s)) with (floating_set s). change (pane_sizing (emptied_session s)) with (pane_sizing s).
  pose proof (resized_not_listed vp (pane_sizing s) (floating_set s)) as Hlisted.
  destruct (set_update_floating_pane_sizes vp (pane_sizing s) (floating_set s)) as [set resized] eqn:Eset.
  eapply tracks_at_bind; [|intros _; apply tracks_hand_off_floating_panes].
  set (previous := list_to_map (reverse resized) : gmap FloatingPaneId LayoutSolve).
  assert (forall id, id ∉ (map_to_list previous).*1 -> id ∉ resized.*1) as Hdom.
  { intros id Hin Hid. apply Hin. clear Hin. destruct (previous !! id) as [v|] eqn:E.
    - apply list_elem_of_fmap. exists (id, v). split; [done|]. by apply elem_of_map_to_list.
    - apply not_elem_of_list_to_map in E. destruct E. rewrite fmap_reverse. by apply elem_of_reverse. }
  apply (tracks_floating_set none_stale none_stale (map_to_list previous).*1
    (if bool_decide (resized = []) then fun s => s else note_floating_set_change) (fun _ => set));
    [by case_bool_decide; [left|right]|done| |done].
  intros id Hin i f Hf. exists i, f. split; [|done].
  specialize (Hlisted id i f Hf (Hdom id Hin)).
  unfold set_update_floating_pane_sizes in Eset. injection Eset as <- _. rewrite <- list_fmap_compose.
  rewrite find_floating_fmap; [|intros f0; apply update_floating_pane_size_id]. rewrite Hf. cbn. by rewrite Hlisted.
Qed.

(** ** Another pane sizing *)

(** The cells still stale while the tabs [ids] are to be solved again. *)
Definition unsolved (ids : list TabId) (floatings : FloatingPaneId -> Prop) : Stale := MkStale (fun id => id ∈ ids) floatings.

Lemma unsolved_none s : current (unsolved [] (fun id => id ∈ [])) s -> current none_stale s.
Proof. apply current_weaken; intros id Hin; by apply elem_of_nil in Hin. Qed.

Lemma solve_size_some s tab : is_Some (resolve_tab_solve_size s tab) <-> is_Some (tabs s !! tab).
Proof. unfold resolve_tab_solve_size. destruct (tabs s !! tab); [|done]. by destruct (negb _). Qed.

Lemma tracks_update_tab_sizing sizing tab ids floatings :
  tracks (unsolved (tab :: ids) floatings) (unsolved ids floatings) (fun x => x)
    (update_tab_sizing (H := kept_solves) sizing tab) (update_tab_sizing (H := fresh_solves) sizing tab).
Proof.
  unfold update_tab_sizing. apply tracks_read_here. intros s Hs. rewrite emptied_solve_size.
  change (tabs (emptied_session s)) with (tabs s).
  destruct (tabs s !! tab) as [t|] eqn:Et.
  - destruct (proj2 (solve_size_some s tab)) as [tab_size ->]; [by rewrite Et|].
    eapply tracks_at_bind.
    + apply (tracks_solved_tab (unsolved (tab :: ids) floatings) tab (if _ : bool then note_layout_change tab else fun s => s)
        (fun t => t <| tab_area := _ |>)); [done|by destruct (_ || _); [right|left]|exact Hs].
    + intros _. cbv beta. eapply tracks_weaken; [done| |apply tracks_hand_off_suppressed_focus].
      * intros s0. apply current_weaken; [|done]. cbn. intros id [[->|?]%elem_of_cons Hne]; [by destruct Hne|done].
      * cbn. intros [_ Hne]. by destruct Hne.
  - unfold resolve_tab_solve_size. rewrite Et. eapply tracks_at_pair; [done|done|].
    destruct Hs as [K A B]. split; [done| |done]. intros id c Hc own Hown. destruct (A id c Hc own Hown) as (t & Ht & E).
    exists t. split; [done|]. intros Hn. apply E. cbn. intros [Heq|?]%elem_of_cons; [|done]. congruence.
Qed.

Lemma tracks_tab_sizings sizing ids floatings :
  tracks (unsolved ids floatings) (unsolved [] floatings) (fun x => x)
    (for_each (update_tab_sizing (H := kept_solves) sizing) ids) (for_each (update_tab_sizing (H := fresh_solves) sizing) ids).
Proof.
  induction ids as [|tab ids IH]; cbn [for_each]; [by apply tracks_ret|].
  eapply tracks_bind; [apply tracks_update_tab_sizing|]. intros events. eapply tracks_bind; [apply IH|].
  intros more. by apply tracks_ret.
Qed.

Lemma tracks_clear_floating stale id :
  tracks stale (except_floating id stale) (fun x => x) (changes (change_clients (clear_own_floating_pane_solves id)))
    (changes (change_clients (clear_own_floating_pane_solves id))).
Proof.
  intros s Hs. apply (tracks_floating_set stale (except_floating id stale) [id] (fun s => s) (fun set => set)); [by left|done| |done].
  intros id' Hin i f H. exists i, f. split; [done|]. intros Hn. split; [|done]. intros Hst. apply Hn. cbn. split; [done|]. set_solver.
Qed.

Lemma tracks_floating_sizings (entries : list (FloatingPaneId * LayoutSolve)) :
  tracks (unsolved [] (fun id => id ∈ entries.*1)) none_stale (fun x => x)
    (for_each (fun entry => do! changes (change_clients (clear_own_floating_pane_solves entry.1)) in
       hand_off_suppressed_floating_focus (H := kept_solves) entry.1 (Some entry.2)) entries)
    (for_each (fun entry => do! changes (change_clients (clear_own_floating_pane_solves entry.1)) in
       hand_off_suppressed_floating_focus (H := fresh_solves) entry.1 (Some entry.2)) entries).
Proof.
  induction entries as [|[id v] entries IH]; cbn [for_each].
  { apply (tracks_weaken (unsolved [] (fun id => id ∈ [])) (unsolved [] (fun id => id ∈ []))); [done|apply unsolved_none|by apply tracks_ret]. }
  eapply tracks_bind; [|intros events; eapply tracks_bind; [exact IH|intros more; by apply tracks_ret]].
  eapply tracks_bind; [apply tracks_clear_floating|]. intros _. cbn [fst snd].
  eapply tracks_weaken; [done| |apply tracks_hand_off_suppressed_floating_focus].
  - intros s0. apply current_weaken; [done|]. cbn. intros id' [[->|?]%elem_of_cons Hne]; [by destruct Hne|done].
  - cbn. intros [_ Hne]. by destruct Hne.
Qed.

(** Whatever the pane sizing is, a kept solve is of a tab and a floating pane
    of the session. *)
Lemma current_listed stale sizing f s :
  current stale s ->
  current (unsolved (btree_keys (tabs s)) (fun _ => True)) (change_view_changes f s <| pane_sizing := sizing |>).
Proof.
  intros [K A B]. split; [exact K| |].
  - intros id c Hc own Hown. destruct (A id c Hc own Hown) as (t & Ht & _). exists t. split; [done|]. intros Hn. destruct Hn.
    apply elem_of_btree_keys. by exists t.
  - intros id c floating Hc w own Hw Hown. destruct (B id c floating Hc w own Hw Hown) as (i & g & H & _).
    exists i, g. split; [done|]. by intros [].
Qed.

Lemma find_floating_listed (set : FloatingSet) id i f :
  find_floating_pane_by_id set id = Some (i, f) -> id ∈ floating_pane_id <$> set.
Proof.
  intros (H & <- & _)%list_find_Some. apply list_elem_of_fmap. exists f. split; [done|]. by eapply list_elem_of_lookup_2.
Qed.

(** The floating panes solved in place: their cells are all stale. *)
Lemma current_floating_sizings sizing s :
  current (unsolved [] (fun _ => True)) s ->
  current (unsolved [] (fun id => id ∈ floating_pane_id <$> floating_set s))
    (change_floating_set (fmap (fun f => f <| floating_area := update_layout_solve sizing (floating_area f) |>)) s).
Proof.
  intros [K A B]. split; [exact K|done|]. intros id c floating Hc w own Hw Hown.
  destruct (B id c floating Hc w own Hw Hown) as (i & f & H & _).
  exists i, (f <| floating_area := update_layout_solve sizing (floating_area f) |>). split.
  - change (find_floating_pane_by_id ((fun f => f <| floating_area := update_layout_solve sizing (floating_area f) |>) <$> floating_set s) floating
      = Some (i, f <| floating_area := update_layout_solve sizing (floating_area f) |>)).
    rewrite find_floating_fmap by done. by rewrite H.
  - intros Hn. destruct Hn. by eapply find_floating_listed.
Qed.

Lemma tracks_update_pane_sizing sizing :
  tracks none_stale none_stale (fun x => x) (update_pane_sizing (H := kept_solves) sizing)
    (update_pane_sizing (H := fresh_solves) sizing).
Proof.
  unfold update_pane_sizing. apply tracks_read_here. intros s Hs.
  change (pane_sizing (emptied_session s)) with (pane_sizing s). change (tabs (emptied_session s)) with (tabs s).
  eapply (tracks_at_bind (unsolved (btree_keys (tabs s)) (fun _ => True)) _ (fun x => x)).
  { eapply tracks_at_pair; [reflexivity|reflexivity|]. by eapply current_listed. }
  intros _. cbv beta. eapply tracks_bind; [apply tracks_tab_sizings|]. intros tab_events. apply tracks_read_here. intros s2 Hs2.
  change (floating_set (emptied_session s2)) with (floating_set s2).
  eapply (tracks_at_bind (unsolved [] (fun id => id ∈ floating_pane_id <$> floating_set s2)) _ (fun x => x)).
  { eapply tracks_at_pair; [reflexivity|reflexivity|]. by apply current_floating_sizings. }
  intros _. cbv beta. eapply tracks_bind; [|intros floating_events].
  - eapply tracks_weaken; [|done|apply tracks_floating_sizings].
    intros s0. apply current_weaken; [done|]. cbn. intros id. by rewrite <- list_fmap_compose.
  - eapply tracks_bind; [by apply tracks_minimize_undrawable; intros ? []|]. intros more. by apply tracks_ret.
Qed.
