(* ===== verification/SessionKept.v ===== *)
(** * The operations of a session with and without kept solves

    Every operation of the session, run with the solves its clients keep, gives
    what it gives when every solve is built when it is asked for. *)

From stdpp Require Import gmap strings sorting options.
From S2P Require Import Prelude Geometry Size Tree Solver Neighbor Edit Placement Destinations Records Notifications SessionData.
From S2P Require Import LayoutAreas Client SessionState SessionFocus SessionTabs SessionPlacement ClientCells SessionCells.
#[local] Open Scope N_scope.

Notation "m ≈ m'" := (tracks none_stale none_stale (fun x => x) m m') (at level 70).

Create HintDb tracks discriminated.

(** ** Changes that touch no cell *)

(** A change that keeps the clients and everything a solve is built from. *)
Record untouching (f : Session -> Session) : Prop := MkUntouching
  { untouching_emptied s : f (emptied_session s) = emptied_session (f s);
    untouching_areas s : same_areas s (f s);
    untouching_clients s : clients (f s) = clients s }.

Lemma untouching_id : untouching (fun s => s).
Proof. by split. Qed.

Lemma same_areas_trans s1 s2 s3 : same_areas s1 s2 -> same_areas s2 s3 -> same_areas s1 s3.
Proof. intros (P & F & T) (P' & F' & T'). split_and!; [congruence|congruence|]. intros tab. by rewrite T', T. Qed.

Lemma untouching_then f g : untouching f -> untouching g -> untouching (fun s => g (f s)).
Proof.
  intros [E A C] [E' A' C']. split; intros s.
  - by rewrite E, E'.
  - by eapply same_areas_trans.
  - by rewrite C', C.
Qed.

Lemma untouching_foldl {B} (f : B -> Session -> Session) (l : list B) :
  (forall x, untouching (f x)) -> untouching (fun s => foldl (fun s x => f x s) s l).
Proof.
  intros Hf. induction l as [|x l IH]; [apply untouching_id|].
  exact (untouching_then (f x) (fun s => foldl (fun s x => f x s) s l) (Hf x) IH).
Qed.

(** A change chosen by what does not depend on cells. *)
Lemma untouching_with {B} (r : Session -> B) (f : B -> Session -> Session) :
  (forall s, r (emptied_session s) = r s) -> (forall b, untouching (f b)) -> untouching (fun s => f (r s) s).
Proof. intros Hr Hf. split; intros s; rewrite ?Hr; apply Hf. Qed.

Lemma untouching_current stale f s : untouching f -> current stale s -> current stale (f s).
Proof. intros [_ A C]. by apply current_same. Qed.

Lemma tracks_untouching stale f : untouching f -> tracks stale stale (fun x => x) (changes f) (changes f).
Proof. intros Hf. apply tracks_changes; [apply Hf|]. intros s. by apply untouching_current. Qed.

Lemma untouching_tab tab f : (forall t, tab_id (f t) = tab_id t /\ tab_area (f t) = tab_area t) -> untouching (change_tab tab f).
Proof.
  intros Hf. split; [done| |done]. intros s. split_and!; [done|done|]. intros tab'. cbn.
  destruct (decide (tab = tab')) as [<-|Hne]; [|by rewrite lookup_alter_ne].
  rewrite lookup_alter_eq. destruct (tabs s !! tab) as [t|]; [|done]. cbn. by destruct (Hf t) as [-> ->].
Qed.

Lemma untouching_ext f g : (forall s, g s = f s) -> untouching f -> untouching g.
Proof. intros E Hf. split; intros s; rewrite ?E; apply Hf. Qed.

Lemma untouching_tab_index tab index : untouching (update_tab_index tab index).
Proof.
  eapply untouching_ext; [|apply (untouching_with (fun s => tab_index <$> tabs s !! tab) (fun i s =>
    match i with
    | Some i => note_tab_bar_change (negb (i =? index)%nat) (change_tab tab (fun t => t <| tab_index := index |>) s)
    | None => s
    end))].
  - intros s. unfold update_tab_index. by destruct (tabs s !! tab).
  - done.
  - intros [i|]; [|apply untouching_id]. apply (untouching_then (change_tab tab (fun t => t <| tab_index := index |>))).
    + by apply untouching_tab.
    + by split.
Qed.

Lemma untouching_reindex : untouching reindex_tabs_by_display_index.
Proof.
  apply (untouching_with list_tab_ids_in_display_order (fun ids s =>
    foldl (fun s (entry : nat * TabId) => update_tab_index entry.2 entry.1 s) s (enumerate ids))); [done|].
  intros ids. apply (untouching_foldl (fun entry : nat * TabId => update_tab_index entry.2 entry.1)).
  intros entry. apply untouching_tab_index.
Qed.

Lemma untouching_drop pane_id : untouching (drop_pane_record pane_id).
Proof. by split. Qed.

Lemma untouching_drops pane_ids : untouching (fun s => foldl (fun s pane_id => drop_pane_record pane_id s) s pane_ids).
Proof. apply untouching_foldl, untouching_drop. Qed.

Lemma untouching_register pane_id spec : untouching (register_spawned_pane pane_id spec).
Proof. by split. Qed.

Lemma untouching_lifecycle e : untouching (fun s => (update_lifecycle e s).2).
Proof. unfold update_lifecycle. split; intros s; cbn; by destruct (transition (lifecycle s) e). Qed.

Create HintDb untouching discriminated.
#[export] Hint Resolve untouching_id untouching_tab_index untouching_reindex untouching_drop untouching_drops untouching_register
  untouching_lifecycle : untouching.

Lemma tracks_answered {A} stale (x : A) : tracks stale stale (fun x => x) (ret x) (ret x).
Proof. by apply tracks_ret. Qed.

#[export] Hint Resolve tracks_answered tracks_untouching tracks_update_client_tab_focus tracks_repair_client_focus tracks_hand_off_suppressed_focus
  tracks_repair_floating_pane_client_focus tracks_hand_off_suppressed_floating_focus tracks_update_tab_solve
  tracks_update_tab_layout tracks_update_floating_pane_layout tracks_client_solve tracks_floating_solve tracks_every_client
  tracks_on_client tracks_for_each : tracks.
#[export] Hint Extern 1 (untouching _) => solve [eauto with untouching] : tracks.
#[export] Hint Extern 1 (sound _) => solve [eauto with sound] : tracks.
#[export] Hint Extern 1 (~ stale_tab none_stale _) => intros [] : tracks.
#[export] Hint Extern 1 (~ stale_floating none_stale _) => intros [] : tracks.

(** One step of an operation: a read, a nested operation, the answer. *)
Ltac track1 :=
  lazymatch goal with
  | |- tracks _ _ _ (ret _) _ => apply tracks_ret; reflexivity
  | |- tracks _ _ _ (bind (reads (fun s => s)) _) _ =>
      apply tracks_session_read; intros ?s; rewrite ?emptied_find_client, ?emptied_attached; change_emptied
  | |- tracks _ _ _ (bind _ _) _ =>
      eapply tracks_bind; [solve [eauto with tracks]|let x := fresh "x" in intros x; cbv beta]
  | |- tracks _ _ _ _ _ => solve [eauto with tracks|apply tracks_ret; reflexivity]
  end
with change_emptied :=
  repeat match goal with
    | |- context [tabs (emptied_session ?s)] => change (tabs (emptied_session s)) with (tabs s)
    | |- context [floating_set (emptied_session ?s)] => change (floating_set (emptied_session s)) with (floating_set s)
    | |- context [panes (emptied_session ?s)] => change (panes (emptied_session s)) with (panes s)
    | |- context [pane_sizing (emptied_session ?s)] => change (pane_sizing (emptied_session s)) with (pane_sizing s)
    end.
Ltac track := repeat track1.

(** ** Landing and closing *)

Lemma tracks_land_focus id tab : land_focus id tab ≈ land_focus id tab.
Proof.
  unfold land_focus. track1. destruct (find_client s id) as [c|]; cbn [fmap option_fmap option_map]; [|track1].
  change (get_focused_pane_id (emptied c) tab) with (get_focused_pane_id c tab). rewrite emptied_landing_pane.
  destruct (get_focused_pane_id c tab); [track1|]. destruct (find_landing_pane s c tab); track1.
Qed.

(** ** Floating panes leaving *)

Lemma find_floating_delete (set : FloatingSet) i f id :
  find_floating_pane_by_id set (floating_pane_id f) = Some (i, f) -> id <> floating_pane_id f ->
  forall j g, find_floating_pane_by_id set id = Some (j, g) -> exists j', find_floating_pane_by_id (delete i set) id = Some (j', g).
Proof.
  revert i. induction set as [|f0 set IH]; intros i Hf Hne j g Hg; [done|]. rewrite find_floating_cons in Hf, Hg.
  destruct (decide (floating_pane_id f0 = floating_pane_id f)) as [E1|E1], (decide (floating_pane_id f0 = id)) as [E2|E2];
    simplify_eq/=.
  - destruct (find_floating_pane_by_id set id) as [[j' g']|] eqn:E; [|done]. simplify_eq/=. by exists j'.
  - exists 0%nat. destruct (find_floating_pane_by_id set (floating_pane_id f)) as [[i' f']|]; [|done]. cbn in Hf. injection Hf as <- ->.
    change (delete (S i') (g :: set)) with (g :: delete i' set). rewrite find_floating_cons. by rewrite decide_True by done.
  - destruct (find_floating_pane_by_id set (floating_pane_id f)) as [[i' f']|] eqn:Ei; [|done]. simplify_eq/=.
    destruct (find_floating_pane_by_id set id) as [[j' g']|] eqn:E; [|done]. cbn in Hg. injection Hg as <- <-.
    destruct (IH i' eq_refl Hne j' g' eq_refl) as [k Hk]. exists (S k).
    change (delete (S i') (f0 :: set)) with (f0 :: delete i' set).
    rewrite ?find_floating_cons, decide_False by done.
    exact (f_equal (fmap (prod_map S (fun x => x))) Hk).
Qed.

Lemma view_removed id c w id' :
  view_by_floating_pane_id (remove_floating_pane_view id c) !! id' = Some w -> id' <> id.
Proof.
  unfold remove_floating_pane_view, remove_shown_floating_pane. cbn. case_bool_decide; cbn;
    by intros [? _]%lookup_delete_Some.
Qed.

Lemma tracks_session_remove_floating_pane id : session_remove_floating_pane id ≈ session_remove_floating_pane id.
Proof.
  intros s Hs. unfold session_remove_floating_pane.
  destruct (find_floating_pane_by_id (floating_set s) id) as [[i f]|] eqn:E.
  - eapply tracks_at_pair; [by rewrite E| |].
    + change (floating_set (emptied_session s)) with (floating_set s). rewrite E. f_equal.
      unfold emptied_session, change_clients, update_every_client. cbn. do 2 f_equal.
      rewrite <- !map_fmap_compose. apply map_fmap_ext. intros id' c _. cbn.
      apply (plain_client _ _ (remove_floating_pane_view_sound id)).
    + apply (current_step none_stale _ s); [done|apply (current_keys _ _ Hs)|done|].
      intros id' c'. rewrite find_client_update_every.
      change (find_client (note_floating_set_change (change_floating_set (delete i) s)) id') with (find_client s id').
      destruct (find_client s id') as [c|]; [|done]. cbn. intros [= <-]. exists c. split_and!; [done| | |].
      * apply (plain_cells _ c (remove_floating_pane_view_sound id)).
      * intros _ _. split; [by intros []|]. split; [done|]. intros t Ht. by exists t.
      * intros floating w' Hw' _ j g Hg. pose proof (view_removed _ _ _ _ Hw') as Hne.
        pose proof (find_floating_id _ _ _ _ E) as Hid. subst id.
        destruct (find_floating_delete _ _ _ _ E Hne _ _ Hg) as [j' Hj]. exists j', g. split; [exact Hj|]. split; [done|]. by split.
  - eapply tracks_at_pair; [by rewrite E|change (floating_set (emptied_session s)) with (floating_set s); by rewrite E|done].
Qed.

Lemma focused_events_emptied s (entries : list (ClientId * PaneId)) :
  omap (fun entry : ClientId * PaneId => c ← find_client (emptied_session s) entry.1; build_pane_focused_event c (Some entry.2)) entries
  = omap (fun entry : ClientId * PaneId => c ← find_client s entry.1; build_pane_focused_event c (Some entry.2)) entries.
Proof.
  induction entries as [|[id p] entries IH]; [done|]. cbn [omap list_omap fst snd]. rewrite emptied_find_client, IH.
  destruct (find_client s id) as [c|]; [|done]. cbn. by rewrite emptied_focused_event.
Qed.

Lemma focusing_emptied floating (cs : list Client) :
  omap (fun c => if bool_decide (focused_floating_pane_id c = Some floating)
                 then input ← get_active_focused_pane_id c; Some (client_id c, input) else None) (emptied <$> cs)
  = omap (fun c => if bool_decide (focused_floating_pane_id c = Some floating)
                 then input ← get_active_focused_pane_id c; Some (client_id c, input) else None) cs.
Proof. apply omap_emptied. intros c. by rewrite emptied_active_focus. Qed.

Lemma tracks_remove_floating_pane floating : remove_floating_pane floating ≈ remove_floating_pane floating.
Proof.
  intros s Hs. unfold remove_floating_pane. change (floating_set (emptied_session s)) with (floating_set s).
  destruct (find_floating_pane_by_id (floating_set s) floating) as [[i f]|] eqn:E.
  - destruct (tracks_session_remove_floating_pane floating s Hs) as [_ A C].
    eapply tracks_at_pair; [by rewrite E| |apply (untouching_current _ _ _ (untouching_drops (list_pane_ids f)) C)].
    change (floating_set (emptied_session s)) with (floating_set s). rewrite E, A, emptied_attached, focusing_emptied.
    rewrite (untouching_emptied _ (untouching_drops (list_pane_ids f))). by rewrite focused_events_emptied.
  - eapply tracks_at_pair; [by rewrite E|change (floating_set (emptied_session s)) with (floating_set s); by rewrite E|done].
Qed.

(** A tab leaving the session: the clients that viewed it forget it before
    anything reads a solve. *)
Lemma current_removed_tab tab s :
  current none_stale s ->
  current none_stale (change_clients (update_every_client (clear_focus_history tab)) (remove_tab tab s).2).
Proof.
  intros Hs. assert (forall id c', find_client (change_clients (update_every_client (clear_focus_history tab)) (remove_tab tab s).2) id = Some c' ->
    exists c, find_client s id = Some c /\ c' = clear_focus_history tab c) as Hc.
  { assert (clients (remove_tab tab s).2 = clients s) as Ec by (unfold remove_tab; by destruct (tabs s !! tab)).
    intros id c'. rewrite find_client_update_every. unfold find_client. rewrite Ec.
    destruct (get_client_by_id id (clients s)) as [c|]; [|done]. intros [= <-]. by exists c. }
  split.
  - intros tab' t H. apply (current_keys _ _ Hs). revert H. unfold remove_tab. destruct (tabs s !! tab); cbn; [|done].
    by intros [_ ?]%lookup_delete_Some.
  - intros id c' Hc' own Hown. destruct (Hc id c' Hc') as (c & _ & ->). done.
  - intros id c' floating Hc' w own Hw Hown. destruct (Hc id c' Hc') as (c & Hc0 & ->).
    destruct (current_floating _ _ Hs id c floating Hc0 w own Hw Hown) as (i & f & Hf & E). exists i, f.
    assert (floating_set (remove_tab tab s).2 = floating_set s /\ pane_sizing (remove_tab tab s).2 = pane_sizing s) as [F P].
    { unfold remove_tab. by destruct (tabs s !! tab). }
    split; [cbn; by rewrite F|]. intros Hn. rewrite (E Hn). unfold build_own_floating_solve. cbn. by rewrite P.
Qed.

Lemma tracks_removed_tab {B} tab (k k' : option Tab -> Session -> session_op B) :
  (forall closed s, k closed s ≈ k' closed (emptied_session s)) ->
  (let! closed := remove_tab tab in let! s := reads (fun s => s) in
   do! changes (change_clients (update_every_client (clear_focus_history tab))) in k closed s)
  ≈ (let! closed := remove_tab tab in let! s := reads (fun s => s) in
     do! changes (change_clients (update_every_client (clear_focus_history tab))) in k' closed s).
Proof.
  intros Hk s Hs. assert (remove_tab tab (emptied_session s) = ((remove_tab tab s).1, emptied_session (remove_tab tab s).2)) as E.
  { unfold remove_tab. change (tabs (emptied_session s)) with (tabs s). by destruct (tabs s !! tab). }
  pose proof (current_removed_tab tab s Hs) as Hs'. destruct (remove_tab tab s) as [closed s1] eqn:E1. cbn [fst snd] in *.
  destruct (Hk closed s1 _ Hs') as [A1 A2 A3]. cbn [snd] in A1, A2, A3.
  assert (change_clients (update_every_client (clear_focus_history tab)) (emptied_session s1)
    = emptied_session (change_clients (update_every_client (clear_focus_history tab)) s1)) as E2.
  { unfold emptied_session, change_clients, update_every_client. cbn. do 2 f_equal.
    rewrite <- !map_fmap_compose. by apply map_fmap_ext. }
  split; unfold bind, reads, changes; rewrite ?E, ?E1; [by rewrite E2|by rewrite E2|done].
Qed.

(** ** Tabs *)

#[export] Hint Resolve tracks_land_focus tracks_remove_floating_pane tracks_session_remove_floating_pane : tracks.

Lemma answer_sound {A} (x : A) (f : Client -> Client) : sound (plain f) -> sound (fun c => (x, f c)).
Proof. intros Hf. apply (sound_then f (fun c => (x, c)) Hf), sound_id. Qed.
#[export] Hint Resolve answer_sound sound_id : sound.

Lemma tracks_close_and_refocus_tab tab pane_exit :
  close_and_refocus_tab (H := kept_solves) tab pane_exit ≈ close_and_refocus_tab (H := fresh_solves) tab pane_exit.
Proof.
  unfold close_and_refocus_tab. apply tracks_removed_tab. intros closed s. rewrite emptied_attached, filter_emptied by done.
  rewrite fmap_emptied by done. change_emptied.
  assert (forall i, find_nearest_surviving_tab_by_index (emptied_session s) i = find_nearest_surviving_tab_by_index s i) as Hn by done.
  eapply (tracks_bind _ none_stale _ (fun x => x)).
  - destruct (closed ≫= _) as [next|]; [|track1]. eapply (tracks_bind _ none_stale _ (fun x => x)); [|intros events; track].
    apply tracks_for_each. intros id. track.
  - intros refocus_events. track1. track1. eapply (tracks_bind _ none_stale _ (fun x => x)); [|intros events; track1].
    case_bool_decide; [|track1]. eapply (tracks_bind _ none_stale _ (fun x => x)); [|intros events; track].
    apply tracks_for_each. auto with tracks.
Qed.
#[export] Hint Resolve tracks_close_and_refocus_tab : tracks.

Lemma tracks_close_tab tab : close_tab (H := kept_solves) tab ≈ close_tab (H := fresh_solves) tab.
Proof. unfold close_tab. track1. destruct (tabs s !! tab); track. Qed.

Lemma tracks_focus_tab id target : focus_tab (H := kept_solves) id target ≈ focus_tab (H := fresh_solves) id target.
Proof.
  unfold focus_tab. track1. destruct (find_client s id) as [c|]; cbn [fmap option_fmap option_map]; [|track1].
  change (resolve_tab_target (emptied_session s) (active_tab_id (emptied c)) target) with (resolve_tab_target s (active_tab_id c) target).
  change (active_tab_id (emptied c)) with (active_tab_id c).
  destruct (resolve_tab_target s (active_tab_id c) target) as [tab|]; [|track1]. destruct (active_tab_id c =? tab); track.
Qed.

Lemma tracks_move_tab tab index : move_tab tab index ≈ move_tab tab index.
Proof.
  intros s Hs. unfold move_tab. destruct (tabs s !! tab) as [t|] eqn:E.
  - assert (forall f : Session -> Session, untouching f -> f (emptied_session s) = emptied_session (f s) /\ current none_stale (f s)) as Hf.
    { intros f Hf. split; [apply Hf|by apply untouching_current]. }
    destruct ((base.size (tabs s) <=? index)%nat || (index =? tab_index t)%nat) eqn:Eg.
    + eapply tracks_at_pair; [by rewrite E, Eg| |done]. change (tabs (emptied_session s)) with (tabs s). by rewrite E, Eg.
    + pose (moved s0 := update_tab_index tab index (foldl (fun s' (entry : nat * TabId) =>
        update_tab_index entry.2 (if (index <=? entry.1)%nat then entry.1 + 1 else entry.1)%nat s') s0
        (enumerate (List.filter (fun id => negb (id =? tab)) (list_tab_ids_in_display_order s))))).
      destruct (Hf moved) as [Em Cm].
      { apply (untouching_then (fun s0 => foldl _ s0 _) (update_tab_index tab index)); [|apply untouching_tab_index].
        apply (untouching_foldl (fun (entry : nat * TabId) s' =>
          update_tab_index entry.2 (if (index <=? entry.1)%nat then entry.1 + 1 else entry.1)%nat s')).
        intros entry. apply untouching_tab_index. }
      eapply tracks_at_pair; [by rewrite E, Eg| |exact Cm]. change (tabs (emptied_session s)) with (tabs s). rewrite E, Eg.
      f_equal. exact Em.
  - eapply tracks_at_pair; [by rewrite E|change (tabs (emptied_session s)) with (tabs s); by rewrite E|done].
Qed.

(** A tab that is new to the session. *)
Lemma current_add_new_tab t s : tabs s !! tab_id t = None -> current none_stale s -> current none_stale (add_new_tab t s).
Proof.
  intros Hnew Hs. assert (current none_stale (if bool_decide (tabs s = ∅) then (update_lifecycle FirstTabCreated s).2 else s)) as Hs1.
  { case_bool_decide; [|done]. by apply (untouching_current _ _ _ (untouching_lifecycle _)). }
  unfold add_new_tab. set (s1 := if bool_decide _ then _ else _) in *.
  assert (tabs s1 !! tab_id t = None) as Hnew1.
  { subst s1. case_bool_decide; [|done]. unfold update_lifecycle. by destruct (transition _ _). }
  clearbody s1. apply (current_step none_stale _ s1); [done| | |].
  - intros tab t' H. cbn in H. destruct (decide (tab_id t = tab)) as [<-|Hne].
    + rewrite lookup_insert_eq in H. by injection H as <-.
    + rewrite lookup_insert_ne in H by done. by apply (current_keys _ _ Hs1).
  - intros tab Htab. cbn. destruct (decide (tab_id t = tab)) as [<-|Hne]; [by rewrite lookup_insert_eq|by rewrite lookup_insert_ne].
  - intros id c Hc. exists c. split_and!; [exact Hc|done| |].
    + intros _ Hn. split; [done|]. split; [done|]. intros t' Ht'. exists t'. split; [|done]. cbn. rewrite lookup_insert_ne; [done|].
      intros Heq. by rewrite <- Heq, Hnew1 in Ht'.
    + intros floating w' _ _ i f H. by exists i, f.
Qed.

Lemma emptied_add_new_tab t s : add_new_tab t (emptied_session s) = emptied_session (add_new_tab t s).
Proof.
  unfold add_new_tab. change (tabs (emptied_session s)) with (tabs s). case_bool_decide; [|done].
  by rewrite (untouching_emptied _ (untouching_lifecycle FirstTabCreated)).
Qed.

#[export] Hint Resolve tracks_close_tab tracks_focus_tab tracks_move_tab : tracks.

(** A change whose effect on the cells depends on the session it is made in. *)
Lemma tracks_at_change {B} s1 (view : B -> B) s f (k k' : unit -> session_op B) :
  f (emptied_session s) = emptied_session (f s) -> tracks_at s1 view (f s) (k tt) (k' tt) ->
  tracks_at s1 view s (bind (changes f) k) (bind (changes f) k').
Proof. intros E [A1 A2 A3]. split; unfold bind, changes; cbn; by rewrite ?E. Qed.

Lemma tracks_commit_new_tab s new_tab_id new_pane_id name focus_client_id spec tab_size :
  current none_stale s -> tabs s !! new_tab_id = None ->
  tracks_at none_stale (fun x => x) s
    (commit_new_tab (H := kept_solves) new_tab_id new_pane_id name focus_client_id spec tab_size)
    (commit_new_tab (H := fresh_solves) new_tab_id new_pane_id name focus_client_id spec tab_size).
Proof.
  intros Hs Hnew. unfold commit_new_tab. apply tracks_at_change; [done|].
  pose proof (untouching_current _ _ _ (untouching_register new_pane_id spec) Hs) as Hs1.
  assert (tabs (register_spawned_pane new_pane_id spec s) !! new_tab_id = None) as Hnew1 by done.
  set (s1 := register_spawned_pane new_pane_id spec s) in *. clearbody s1.
  apply tracks_at_change; [apply emptied_add_new_tab|].
  pose proof (current_add_new_tab (record_focus_mru new_pane_id (tab_from_layout_tree new_tab_id name (base.size (tabs s1))
    (Pane new_pane_id) tab_size (pane_sizing s1))) s1 Hnew1 Hs1) as Hs2.
  revert Hs2. generalize (add_new_tab (record_focus_mru new_pane_id (tab_from_layout_tree new_tab_id name (base.size (tabs s1))
    (Pane new_pane_id) tab_size (pane_sizing s1))) s1). clear.
  intros s. revert s. match goal with |- forall s, current none_stale s -> tracks_at _ _ s ?m ?m' => change (m ≈ m') end.
  track1. destruct focus_client_id as [id|]; [|track1]. cbn. rewrite emptied_find_client.
  destruct (find_client s id) as [c|]; cbn; [|track1]. eapply (tracks_bind _ none_stale _ (fun x => x)).
  - apply tracks_on_client. apply (sound_then (update_active_tab_id new_tab_id) (apply_tiled_pane_focus (floating_set s) new_tab_id new_pane_id));
      auto with sound.
  - intros events. track.
Qed.

Lemma untouching_fold_registers entries :
  untouching (fun s => foldl (fun s (entry : PaneId * NewPaneSpec) => register_spawned_pane entry.1 entry.2 s) s entries).
Proof. apply (untouching_foldl (fun entry : PaneId * NewPaneSpec => register_spawned_pane entry.1 entry.2)). by intros. Qed.

Lemma tracks_commit_profile_tab s tab p name tab_size :
  current none_stale s -> tabs s !! tab = None ->
  tracks_at none_stale (fun x => x) s (commit_profile_tab tab p name tab_size) (commit_profile_tab tab p name tab_size).
Proof.
  intros Hs Hnew. pose proof (untouching_fold_registers (zip (profile_pane_ids p) (new_pane_specs p))) as Hu.
  assert (forall s0 : Session, tabs (foldl (fun s (entry : PaneId * NewPaneSpec) => register_spawned_pane entry.1 entry.2 s) s0
    (zip (profile_pane_ids p) (new_pane_specs p))) = tabs s0) as Ht.
  { intros s0. generalize (zip (profile_pane_ids p) (new_pane_specs p)). intros l. revert s0.
    induction l as [|x l IH]; intros s0; [done|]. cbn. by rewrite IH. }
  eapply tracks_at_pair; [done| |].
  - unfold commit_profile_tab. rewrite (untouching_emptied _ Hu). rewrite emptied_add_new_tab. done.
  - apply current_add_new_tab; [|by apply (untouching_current _ _ _ Hu)]. by rewrite Ht.
Qed.

(** ** Panes of a tab *)

Lemma tracks_list_focused_client_rects tab pane_id :
  list_focused_client_rects (H := kept_solves) tab pane_id ≈ list_focused_client_rects (H := fresh_solves) tab pane_id.
Proof.
  unfold list_focused_client_rects. track1. rewrite filter_emptied by done. apply tracks_map. intros c. track.
Qed.

Lemma tracks_repair_focus_after_pane_left tab departed rects :
  repair_focus_after_pane_left (H := kept_solves) tab departed rects ≈ repair_focus_after_pane_left (H := fresh_solves) tab departed rects.
Proof.
  unfold repair_focus_after_pane_left. eapply (tracks_bind _ none_stale _ (fun x => x)); [|intros events; track].
  apply tracks_for_each. intros [id r]. cbn [fst snd]. track.
Qed.
#[export] Hint Resolve tracks_list_focused_client_rects tracks_repair_focus_after_pane_left : tracks.

Lemma untouching_remove_mru tab pane_id : untouching (change_tab tab (remove_focus_mru pane_id)).
Proof. by apply untouching_tab. Qed.

Lemma untouching_record_mru tab pane_id : untouching (change_tab tab (record_focus_mru pane_id)).
Proof. by apply untouching_tab. Qed.
#[export] Hint Resolve untouching_remove_mru untouching_record_mru : untouching.

Lemma tracks_remove_pane_from_tab tab pane_id pane_exit :
  remove_pane_from_tab (H := kept_solves) tab pane_id pane_exit ≈ remove_pane_from_tab (H := fresh_solves) tab pane_id pane_exit.
Proof.
  unfold remove_pane_from_tab. track1. track1. destruct (tabs s !! tab) as [t|]; [|track1]. track1.
  eapply (tracks_bind _ none_stale _ (fun x => x)); [destruct (remove_pane_and_normalize _ _); track|]. intros layout_events.
  track1. eapply (tracks_bind _ none_stale _ (fun x => x)); [|intros events; track].
  destruct (remove_pane_and_normalize _ _) as [[]|]; track.
Qed.
#[export] Hint Resolve tracks_remove_pane_from_tab : tracks.

Lemma tracks_remove_pane_cascade tab pane_id pane_exit :
  remove_pane_cascade (H := kept_solves) tab pane_id pane_exit ≈ remove_pane_cascade (H := fresh_solves) tab pane_id pane_exit.
Proof. unfold remove_pane_cascade. track1. destruct (_ || _); track. Qed.
#[export] Hint Resolve tracks_remove_pane_cascade : tracks.

Lemma tracks_apply_child_exit tab pane_exit :
  apply_child_exit (H := kept_solves) tab pane_exit ≈ apply_child_exit (H := fresh_solves) tab pane_exit.
Proof. unfold apply_child_exit. track1. destruct (negb _); track. Qed.

Lemma tracks_commit_new_pane new_pane_id tab tree focus_client_id spec :
  commit_new_pane (H := kept_solves) new_pane_id tab tree focus_client_id spec
  ≈ commit_new_pane (H := fresh_solves) new_pane_id tab tree focus_client_id spec.
Proof.
  unfold commit_new_pane. track1. destruct (negb _); [track1|].
  assert ((id ← focus_client_id; c ← (find_client (emptied_session s) id); Some (id, active_tab_id c))
    = (id ← focus_client_id; c ← find_client s id; Some (id, active_tab_id c))) as ->.
  { destruct focus_client_id as [id|]; [|done]. cbn. rewrite emptied_find_client. by destruct (find_client s id). }
  destruct (id ← focus_client_id; c ← find_client s id; Some (id, active_tab_id c)) as [[id active]|]; cbn.
  - destruct (active =? tab); cbn.
    + track1. track1. track1. track1. track1. eapply (tracks_bind _ none_stale _ (fun x => x)).
      * apply tracks_on_client, (sound_then (clear_zoom tab) (apply_tiled_pane_focus (floating_set s0) tab new_pane_id)); auto with sound.
      * intros events. track.
    + track1. track1. track1. track1. track1. eapply (tracks_bind _ none_stale _ (fun x => x)).
      * apply tracks_on_client, (sound_then (clear_zoom tab) (apply_tiled_pane_focus (floating_set s0) tab new_pane_id)); auto with sound.
      * intros events. eapply (tracks_bind _ none_stale _ (fun x => x)); [track|intros events'; track].
  - eapply (tracks_bind _ none_stale _ (fun x => x)); [track|intros _]. track1. track1.
    eapply (tracks_bind _ none_stale _ (fun x => x)); [track|intros _]. track1.
    eapply (tracks_bind _ none_stale _ (fun x => x)); [track|intros events]. track.
Qed.

#[export] Hint Resolve tracks_apply_child_exit tracks_commit_new_pane : tracks.

(** ** Floating panes *)

Lemma find_floating_app (set set' : FloatingSet) id i f :
  find_floating_pane_by_id set id = Some (i, f) -> find_floating_pane_by_id (set ++ set') id = Some (i, f).
Proof. intros H. unfold find_floating_pane_by_id. by apply list_find_app_l. Qed.

Lemma add_view_sound f positions : sound (plain (fun c => add_floating_pane_view f (position_of positions c) c)).
Proof.
  apply (sound_reads (position_of positions) (fun p c => (tt, add_floating_pane_view f p c))); [done|].
  intros p. apply add_floating_pane_view_sound.
Qed.

(** Floating panes added behind the others keep the cells. *)
Lemma current_add_floating s f (g : Client -> Client) :
  sound (plain g) -> current none_stale s ->
  current none_stale (change_clients (update_every_client g) (note_floating_set_change (s <| floating_set := floating_set s ++ [f] |>))).
Proof.
  intros Hg Hs. apply (current_step none_stale _ s); [done|apply (current_keys _ _ Hs)|done|].
  intros id c'. rewrite find_client_update_every.
  change (find_client (note_floating_set_change (s <| floating_set := floating_set s ++ [f] |>)) id) with (find_client s id).
  destruct (find_client s id) as [c|]; [|done]. intros [= <-]. exists c. split_and!; [done|apply (plain_cells _ c Hg)| |].
  - intros _ _. split; [by intros []|]. split; [done|]. intros t Ht. by exists t.
  - intros floating w' _ _ i f0 H. exists i, f0. split; [by apply find_floating_app|]. done.
Qed.

Lemma tracks_session_add_floating_pane f positions :
  session_add_floating_pane f positions ≈ session_add_floating_pane f positions.
Proof.
  intros s Hs. unfold session_add_floating_pane. change (floating_set (emptied_session s)) with (floating_set s).
  destruct (set_add_floating_pane f (floating_set s)) as [error|set] eqn:E.
  - eapply tracks_at_pair; [by rewrite E|change (floating_set (emptied_session s)) with (floating_set s); by rewrite E|done].
  - assert (set = floating_set s ++ [f]) as ->.
    { unfold set_add_floating_pane in E. destruct (List.find _ _); [done|]. by destruct (is_full _); simplify_eq. }
    eapply tracks_at_pair; [by rewrite E| |by apply current_add_floating; [apply add_view_sound|]].
    change (floating_set (emptied_session s)) with (floating_set s). rewrite E. f_equal.
    unfold emptied_session, change_clients, update_every_client. cbn. do 2 f_equal.
    rewrite <- !map_fmap_compose. apply map_fmap_ext. intros id c _. cbn.
    apply (plain_client _ c (add_view_sound f positions)).
Qed.
#[export] Hint Resolve tracks_session_add_floating_pane : tracks.

Lemma tracks_list_floating_pane_focused_client_rects floating pane_id :
  list_floating_pane_focused_client_rects (H := kept_solves) floating pane_id
  ≈ list_floating_pane_focused_client_rects (H := fresh_solves) floating pane_id.
Proof.
  unfold list_floating_pane_focused_client_rects. track1. rewrite filter_emptied by apply emptied_is_floating_focused_on.
  apply tracks_map. intros c. track.
Qed.

Lemma tracks_remove_pane_leaf floating pane_id :
  remove_pane_leaf_from_floating_pane (H := kept_solves) floating pane_id
  ≈ remove_pane_leaf_from_floating_pane (H := fresh_solves) floating pane_id.
Proof.
  unfold remove_pane_leaf_from_floating_pane. track1. destruct (find_floating_pane_by_id _ _) as [[i f]|]; [|track1].
  destruct (remove_pane_and_normalize _ _) as [[]|]; track.
Qed.

Lemma tracks_repair_floating floating departed rects :
  repair_floating_pane_focus_after_pane_left (H := kept_solves) floating departed rects
  ≈ repair_floating_pane_focus_after_pane_left (H := fresh_solves) floating departed rects.
Proof.
  unfold repair_floating_pane_focus_after_pane_left. eapply (tracks_bind _ none_stale _ (fun x => x)); [|intros events; track].
  apply tracks_for_each. intros [id r]. cbn [fst snd]. track.
Qed.
#[export] Hint Resolve tracks_list_floating_pane_focused_client_rects tracks_remove_pane_leaf tracks_repair_floating : tracks.

Lemma tracks_remove_pane_from_floating_pane pane_id :
  remove_pane_from_floating_pane (H := kept_solves) pane_id ≈ remove_pane_from_floating_pane (H := fresh_solves) pane_id.
Proof.
  unfold remove_pane_from_floating_pane. track1. destruct (find_floating_pane_by_pane_id _ _) as [[i f]|]; [|track1].
  case_bool_decide; track.
Qed.

Lemma focus_new_floating_sound set floating new_pane_id (can_draw : bool) :
  sound (fun c => let c := clear_floating_pane_zoom floating c in
    if can_draw then apply_floating_pane_focus set floating new_pane_id c
    else ([], update_floating_pane_focused_pane floating new_pane_id c)).
Proof.
  destruct can_draw.
  - apply (sound_then (clear_floating_pane_zoom floating) (apply_floating_pane_focus set floating new_pane_id)); auto with sound.
  - apply (sound_then (clear_floating_pane_zoom floating) (fun c => ([], update_floating_pane_focused_pane floating new_pane_id c)));
      auto with sound.
Qed.

Lemma tracks_can_draw c :
  can_client_draw_floating_panes (H := kept_solves) c ≈ can_client_draw_floating_panes (H := fresh_solves) (emptied c).
Proof. apply tracks_can_client_draw. by intros []. Qed.

Lemma tracks_commit_new_pane_in_floating_pane new_pane_id floating tree focus_client_id spec :
  commit_new_pane_in_floating_pane (H := kept_solves) new_pane_id floating tree focus_client_id spec
  ≈ commit_new_pane_in_floating_pane (H := fresh_solves) new_pane_id floating tree focus_client_id spec.
Proof.
  unfold commit_new_pane_in_floating_pane. track1. destruct (find_floating_pane_by_id _ _) as [[i f]|]; [|track1].
  track1. track1. track1. destruct focus_client_id as [id|]; cbn; [|track].
  rewrite emptied_find_client. destruct (find_client s0 id) as [c|]; cbn; [|track].
  eapply tracks_bind; [apply tracks_can_draw|]. intros can_draw.
  eapply (tracks_bind _ none_stale _ (fun x => x)); [apply tracks_on_client, focus_new_floating_sound|intros events; track].
Qed.

Lemma show_floating_sound floating :
  sound (fun c => let previous := get_active_focused_pane_id c in
    let '(_, c) := focus_floating_pane floating c in (option_to_list (build_pane_focused_event c previous), c)).
Proof.
  eapply sound_ext; [|apply (sound_reads get_active_focused_pane_id (fun previous c =>
    (option_to_list (build_pane_focused_event (focus_floating_pane floating c).2 previous), (focus_floating_pane floating c).2)))].
  - intros c. cbv beta zeta. by destruct (focus_floating_pane floating c).
  - apply emptied_active_focus.
  - intros previous. apply (sound_map (focus_floating_pane floating) (fun _ c => option_to_list (build_pane_focused_event c previous)));
      [auto with sound|]. intros x c. by rewrite emptied_focused_event.
Qed.

Lemma tracks_show_new_floating_pane id floating :
  show_new_floating_pane (H := kept_solves) id floating ≈ show_new_floating_pane (H := fresh_solves) id floating.
Proof.
  unfold show_new_floating_pane. track1. destruct (find_client s id) as [c|]; cbn [fmap option_fmap option_map]; [|track1].
  eapply tracks_bind; [apply tracks_can_draw|]. intros [|]; [|track1]. apply tracks_on_client, show_floating_sound.
Qed.
#[export] Hint Resolve tracks_remove_pane_from_floating_pane tracks_commit_new_pane_in_floating_pane tracks_show_new_floating_pane : tracks.

Lemma tracks_commit_new_floating_pane floating new_pane_id desired solved acting_view spec :
  commit_new_floating_pane (H := kept_solves) floating new_pane_id desired solved acting_view spec
  ≈ commit_new_floating_pane (H := fresh_solves) floating new_pane_id desired solved acting_view spec.
Proof.
  unfold commit_new_floating_pane. track1. track1. destruct x as [error|]; [track1|]. track1.
  destruct acting_view as [[id p]|]; track.
Qed.
#[export] Hint Resolve tracks_commit_new_floating_pane : tracks.

(** ** Boxes and docks *)

Lemma emptied_floating_rect s c id :
  find_client_floating_pane_rect (emptied_session s) (emptied c) id = find_client_floating_pane_rect s c id.
Proof.
  unfold find_client_floating_pane_rect. change (get_floating_viewport (emptied c)) with (get_floating_viewport c).
  change (floating_set (emptied_session s)) with (floating_set s). by rewrite emptied_get_view.
Qed.

Lemma tracks_find_lifted_tab_pane_rect c tab pane_id :
  find_lifted_tab_pane_rect (H := kept_solves) c tab pane_id
  ≈ find_lifted_tab_pane_rect (H := fresh_solves) (emptied c) tab pane_id.
Proof.
  unfold find_lifted_tab_pane_rect. track1. change (active_tab_id (emptied c)) with (active_tab_id c).
  destruct (negb _); [track1|]. change (get_pane_area (emptied c)) with (get_pane_area c).
  destruct (get_pane_area c); [|track1]. destruct (tabs s !! tab); [|track1]. track.
Qed.

Lemma tracks_find_lifted_floating_pane_member_rect c floating pane_id :
  find_lifted_floating_pane_member_rect (H := kept_solves) c floating pane_id
  ≈ find_lifted_floating_pane_member_rect (H := fresh_solves) (emptied c) floating pane_id.
Proof.
  unfold find_lifted_floating_pane_member_rect. track1. rewrite emptied_is_shown. destruct (negb _); [track1|].
  rewrite emptied_floating_rect, emptied_get_view. destruct (find_client_floating_pane_rect s c floating); [|track1].
  track.
Qed.

Lemma tracks_find_lifted_floating_pane_rect id area_id pane_id :
  find_lifted_floating_pane_rect (H := kept_solves) id area_id pane_id
  ≈ find_lifted_floating_pane_rect (H := fresh_solves) id area_id pane_id.
Proof.
  unfold find_lifted_floating_pane_rect. track1. destruct (find_client s id) as [c|]; cbn [fmap option_fmap option_map]; [|track1].
  eapply (tracks_bind _ none_stale _ (fun x => x)); [|intros r; track].
  destruct area_id; [apply tracks_find_lifted_tab_pane_rect|apply tracks_find_lifted_floating_pane_member_rect].
Qed.

Lemma tracks_find_insertion c dock_rect pane_id :
  find_insertion_under_rect_center (H := kept_solves) c dock_rect pane_id
  ≈ find_insertion_under_rect_center (H := fresh_solves) (emptied c) dock_rect pane_id.
Proof.
  unfold find_insertion_under_rect_center. track1. change (get_pane_area (emptied c)) with (get_pane_area c).
  change (active_tab_id (emptied c)) with (active_tab_id c). change (client_id (emptied c)) with (client_id c).
  destruct (get_pane_area c); [|track1]. destruct (tabs s !! active_tab_id c); [|track1]. destruct (_ || _); [track1|]. track.
Qed.

Lemma tracks_find_nearest_dock_target c pane_id :
  find_nearest_dock_target (H := kept_solves) c pane_id ≈ find_nearest_dock_target (H := fresh_solves) (emptied c) pane_id.
Proof.
  unfold find_nearest_dock_target. track1. destruct (find_floating_pane_by_pane_id _ _) as [[i f]|]; [|track1].
  rewrite emptied_is_shown. destruct (negb _); [track1|]. rewrite emptied_floating_rect.
  destruct (find_client_floating_pane_rect s c _) as [r|]; [|track1]. change (client_id (emptied c)) with (client_id c).
  track1. destruct (x ≫= _) as [r'|]; [|track1]. destruct (is_empty r'); [track1|apply tracks_find_insertion].
Qed.

Lemma tracks_find_nearest_floating_pane_dock_target c floating :
  find_nearest_floating_pane_dock_target (H := kept_solves) c floating
  ≈ find_nearest_floating_pane_dock_target (H := fresh_solves) (emptied c) floating.
Proof.
  unfold find_nearest_floating_pane_dock_target. track1. destruct (find_floating_pane_by_id _ _) as [[i f]|]; [|track1].
  rewrite emptied_is_shown. destruct (negb _); [track1|]. rewrite emptied_floating_rect.
  destruct (find_client_floating_pane_rect s c _) as [r|]; [|track1]. destruct (head _); [|track1]. apply tracks_find_insertion.
Qed.

(** ** Clients moving *)

Lemma move_client_sound tab pane_id :
  sound (fun c => focus_tiled_pane tab pane_id (update_active_tab_id tab (clear_zoom tab c))).
Proof.
  apply (sound_then (fun c => update_active_tab_id tab (clear_zoom tab c)) (focus_tiled_pane tab pane_id)); [|auto with sound].
  apply (plain_then (clear_zoom tab) (update_active_tab_id tab)); auto with sound.
Qed.

Lemma tracks_move_client id tab pane_id previous :
  move_client_onto_tiled_pane id tab pane_id previous ≈ move_client_onto_tiled_pane id tab pane_id previous.
Proof.
  unfold move_client_onto_tiled_pane. track1. destruct (find_client s id) as [c|]; cbn [fmap option_fmap option_map]; [|track].
  change (active_tab_id (emptied c)) with (active_tab_id c).
  eapply (tracks_bind _ none_stale _ (fun x => x)); [apply tracks_on_client, move_client_sound|intros change; track].
Qed.
#[export] Hint Resolve tracks_move_client tracks_find_lifted_floating_pane_rect : tracks.

Lemma tracks_update_tab_solves solved ids :
  update_tab_solves (H := kept_solves) solved ids ≈ update_tab_solves (H := fresh_solves) solved ids.
Proof.
  revert solved. induction ids as [|id ids IH]; intros solved; cbn; [track1|]. case_bool_decide; [apply IH|].
  track1. eapply tracks_bind; [apply IH|intros more; track1].
Qed.
#[export] Hint Resolve tracks_update_tab_solves : tracks.

Lemma following_emptied s moved acting :
  list_following_client_ids (emptied_session s) moved acting = list_following_client_ids s moved acting.
Proof.
  unfold list_following_client_ids. rewrite emptied_attached, filter_emptied; [by rewrite fmap_emptied|].
  intros c. by rewrite emptied_active_focus.
Qed.

Lemma moving_ids_emptied s moved acting :
  list_moving_client_ids (emptied_session s) moved acting = list_moving_client_ids s moved acting.
Proof. unfold list_moving_client_ids. by rewrite following_emptied. Qed.

Lemma acting_emptied s acting :
  bool_decide (is_Some (find_client (emptied_session s) acting)) = bool_decide (is_Some (find_client s acting)).
Proof. rewrite emptied_find_client. apply bool_decide_ext. by rewrite fmap_is_Some. Qed.

(** ** Undocking *)

Lemma check_undock_emptied s source pane_id acting : check_undock (emptied_session s) source pane_id acting = check_undock s source pane_id acting.
Proof. unfold check_undock. by rewrite acting_emptied. Qed.

(** A loop over the same list with the same answers. *)
Lemma tracks_map_same {A B} stale (f f' : A -> session_op B) (l : list A) :
  (forall x, tracks stale stale (fun x => x) (f x) (f' x)) -> tracks stale stale (fun x => x) (map_op f l) (map_op f' l).
Proof.
  intros Hf. pose proof (tracks_map stale (fun x => x) f f' l Hf) as T. by rewrite list_fmap_id in T.
Qed.

Lemma tracks_list_lifted_positions source pane_id acting_view :
  list_lifted_positions (H := kept_solves) source pane_id acting_view
  ≈ list_lifted_positions (H := fresh_solves) source pane_id acting_view.
Proof.
  unfold list_lifted_positions. track1. rewrite following_emptied.
  eapply (tracks_bind _ none_stale _ (fun x => x)); [|intros followed; track].
  apply tracks_map_same. intros id. track.
Qed.
#[export] Hint Resolve tracks_list_lifted_positions : tracks.

Lemma tracks_commit_undock floating source pane_id desired solved acting_view :
  commit_undock_placement (H := kept_solves) floating source pane_id desired solved acting_view
  ≈ commit_undock_placement (H := fresh_solves) floating source pane_id desired solved acting_view.
Proof.
  unfold commit_undock_placement. track1. rewrite check_undock_emptied. destruct (check_undock _ _ _ _); [track1|].
  eapply (tracks_bind _ none_stale _ (fun x => x)); [track|]. intros positions. change_emptied.
  assert (for_each (fun entry : ClientId * FloatingPanePosition => show_new_floating_pane (H := kept_solves) entry.1 floating) positions
    ≈ for_each (fun entry : ClientId * FloatingPanePosition => show_new_floating_pane (H := fresh_solves) entry.1 floating) positions) as Hshow.
  { apply tracks_for_each. intros entry. track. }
  destruct source as [tab|source].
  - track1. destruct x; [track1|]. track1. eapply (tracks_bind _ none_stale _ (fun x => x)); [exact Hshow|intros shown; track].
  - track1. track1. track1. eapply (tracks_bind _ none_stale _ (fun x => x)); [exact Hshow|intros shown; track].
Qed.

(** ** Docking *)

Lemma check_dock_emptied s source destination tree acting :
  check_dock (emptied_session s) source destination tree acting = check_dock s source destination tree acting.
Proof. unfold check_dock. rewrite acting_emptied. done. Qed.

Lemma moving_clients_emptied s floating docked acting :
  list_moving_clients (emptied_session s) floating docked acting = list_moving_clients s floating docked acting.
Proof.
  unfold list_moving_clients. rewrite moving_ids_emptied. induction (list_moving_client_ids s docked acting) as [|id ids IH]; [done|].
  cbn [omap list_omap]. rewrite IH, emptied_find_client. destruct (find_client s id) as [c|]; [|done].
  cbn [fmap option_fmap option_map mbind option_bind]. by rewrite emptied_input, emptied_focused_input.
Qed.

Lemma histories_emptied floating (cs : list Client) :
  omap (fun c => v ← get_floating_pane_view c floating; Some (client_id c, focus_history v)) (emptied <$> cs)
  = omap (fun c => v ← get_floating_pane_view c floating; Some (client_id c, focus_history v)) cs.
Proof. apply omap_emptied. intros c. by rewrite emptied_get_view. Qed.

Lemma insert_history_sound destination (is_moving is_stacked : bool) history :
  sound (plain (fun c =>
    let count := length (list_focus_history c destination) in
    if negb is_moving && (is_stacked || (count =? 0)%nat) then c
    else insert_panes_into_focus_history destination (if is_moving then 1%nat else count) history c)).
Proof.
  apply (sound_reads (fun c => length (list_focus_history c destination)) (fun count c =>
    (tt, if negb is_moving && (is_stacked || (count =? 0)%nat) then c
         else insert_panes_into_focus_history destination (if is_moving then 1%nat else count) history c))); [done|].
  intros count. destruct (negb is_moving && _); [apply sound_id|]. apply insert_panes_into_focus_history_sound.
Qed.

(** A change of one client without an answer. *)
Lemma tracks_update_client stale id (f : Client -> Client) :
  sound (plain f) ->
  tracks stale stale (fun x => x) (changes (change_clients (update_client id f))) (changes (change_clients (update_client id f))).
Proof.
  intros Hf. apply tracks_changes.
  - intros s. unfold emptied_session, change_clients, update_client. cbn. do 2 f_equal. apply map_eq. intros id'.
    rewrite lookup_fmap. destruct (decide (id = id')) as [<-|Hne]; [|by rewrite !lookup_alter_ne, lookup_fmap].
    rewrite !lookup_alter_eq, lookup_fmap. destruct (_ !! id) as [c|]; [|done]. cbn. by rewrite (plain_client _ c Hf).
  - intros s Hs. apply (current_clients stale s); [apply same_areas_change_clients| |done]. intros id' c'.
    unfold find_client, get_client_by_id. cbn. destruct (decide (id = id')) as [<-|Hne].
    + rewrite lookup_alter_eq. destruct (_ !! id) as [c|]; [|done]. intros [= <-]. exists c. split; [done|]. apply (plain_cells _ c Hf).
    + rewrite lookup_alter_ne by done. intros H. by exists c'.
Qed.

Lemma tracks_insert_histories destination is_stacked moving (entries : list (ClientId * list PaneId)) :
  (changes (fun s => foldl (fun s entry => insert_floating_history destination is_stacked moving entry s) s entries))
  ≈ (changes (fun s => foldl (fun s entry => insert_floating_history destination is_stacked moving entry s) s entries)).
Proof.
  induction entries as [|[id history] entries IH]; intros s Hs; [by eapply tracks_at_pair|].
  destruct (tracks_update_client none_stale id _
    (insert_history_sound destination (bool_decide (id ∈ moving_client_id <$> moving)) is_stacked history) s Hs) as [_ A C].
  cbn in A, C. destruct (IH _ C) as [_ A' C']. cbn in A', C'. eapply tracks_at_pair; [done| |exact C'].
  cbn. f_equal. rewrite <- A', <- A. done.
Qed.
#[export] Hint Resolve tracks_insert_histories : tracks.

Lemma tracks_commit_dock source destination tree target acting :
  commit_dock_placement (H := kept_solves) source destination tree target acting
  ≈ commit_dock_placement (H := fresh_solves) source destination tree target acting.
Proof.
  unfold commit_dock_placement. track1. rewrite check_dock_emptied.
  destruct (check_dock s source destination tree acting) as [error|[floating docked]]; [track1|].
  rewrite moving_clients_emptied. 
  eapply (tracks_bind _ none_stale _ (fun x => x)); [destruct source; track|]. intros rects.
  rewrite histories_emptied.
  eapply (tracks_bind _ none_stale _ (fun x => x)); [destruct source; track|]. intros leaving_events. track1.
  eapply (tracks_bind _ none_stale _ (fun x => x)); [apply tracks_for_each; intros m; track|]. intros moving_events.
  track1. track1. eapply (tracks_bind _ none_stale _ (fun x => x)); [destruct source; track|]. intros repaired. track.
Qed.

(** ** Across tabs *)

Lemma check_cross_tab_emptied s source destination pane_id p acting :
  check_cross_tab (emptied_session s) source destination pane_id p acting = check_cross_tab s source destination pane_id p acting.
Proof. unfold check_cross_tab. rewrite acting_emptied. done. Qed.

Lemma left_tabs_emptied s (ids : list ClientId) :
  omap (fun id => active_tab_id <$> find_client (emptied_session s) id) ids = omap (fun id => active_tab_id <$> find_client s id) ids.
Proof.
  induction ids as [|id ids IH]; [done|]. cbn [omap list_omap]. rewrite IH, emptied_find_client. by destruct (find_client s id).
Qed.

Lemma clear_zooms_sound pane_id (swapped : option PaneId) :
  sound (plain (fun c => let c := clear_zoom_of_pane pane_id c in
    match swapped with Some p => clear_zoom_of_pane p c | None => c end)).
Proof.
  destruct swapped as [p|]; [|auto with sound].
  apply (plain_then (clear_zoom_of_pane pane_id) (clear_zoom_of_pane p)); auto with sound.
Qed.
#[export] Hint Resolve clear_zooms_sound : sound.

Lemma untouching_forget_swapped destination (swapped : option PaneId) :
  untouching (fun s => match swapped with Some p => change_tab destination (remove_focus_mru p) s | None => s end).
Proof. destruct swapped; auto with untouching. Qed.

Lemma untouching_swap_mru source pane_id (swapped : option PaneId) :
  untouching (change_tab source (fun t =>
    let t := remove_focus_mru pane_id t in match swapped with Some p => record_focus_mru p t | None => t end)).
Proof. apply untouching_tab. intros t. by destruct swapped. Qed.
#[export] Hint Resolve untouching_forget_swapped untouching_swap_mru : untouching.

Lemma tracks_commit_cross_tab source destination pane_id p acting :
  commit_cross_tab_placement (H := kept_solves) source destination pane_id p acting
  ≈ commit_cross_tab_placement (H := fresh_solves) source destination pane_id p acting.
Proof.
  unfold commit_cross_tab_placement. track1. rewrite check_cross_tab_emptied.
  destruct (check_cross_tab s source destination pane_id p acting) as [error|swapped]; [track1|].
  rewrite moving_ids_emptied.
  assert (match swapped with Some p => list_following_client_ids (emptied_session s) [p] acting | None => [] end
    = match swapped with Some p => list_following_client_ids s [p] acting | None => [] end) as ->.
  { destruct swapped; [|done]. apply following_emptied. }
  rewrite left_tabs_emptied. track1.
  eapply (tracks_bind _ none_stale _ (fun x => x)); [destruct swapped; track|]. intros destination_rects.
  track1. track1. eapply (tracks_bind _ none_stale _ (fun x => x)); [destruct (source_tree p); track|]. intros source_events.
  track1. eapply (tracks_bind _ none_stale _ (fun x => x)); [apply tracks_for_each; intros m; track|]. intros moving_events.
  eapply (tracks_bind _ none_stale _ (fun x => x)); [destruct swapped; [apply tracks_for_each; intros m; track|track]|]. intros swapped_events.
  track1. eapply (tracks_bind _ none_stale _ (fun x => x)); [destruct (source_tree p); track|]. intros source_repair.
  eapply (tracks_bind _ none_stale _ (fun x => x)); [destruct swapped; track|]. intros destination_repair.
  eapply (tracks_bind _ none_stale _ (fun x => x)); [destruct (source_tree p); track|]. intros closing_events. track.
Qed.
