(* ===== verification/SessionCheckFacts.v ===== *)
(** * What the consistency check reports

    Every violation as a condition on the session, and the check reporting
    exactly the violations there are. *)

From stdpp Require Import gmap strings options.
From S2P Require Import Prelude Geometry Size Tree Solver Records Notifications SessionData LayoutAreas Client.
From S2P Require Import SessionState SessionFocus SessionCheck ClientCells SessionCells SessionKept.
#[local] Open Scope N_scope.

(** ** Grouped entries *)

(** The values entered under [key], in the order they were entered. *)
Definition entered {A} (key : N) (l : list (N * A)) : list A := (List.filter (fun entry => entry.1 =? key) l).*2.

Lemma entered_app {A} key (l l' : list (N * A)) : entered key (l ++ l') = entered key l ++ entered key l'.
Proof. unfold entered. by rewrite List.filter_app, fmap_app. Qed.

Lemma group_by_key_lookup {A} (l : list (N * A)) key :
  group_by_key l !! key = if bool_decide (entered key l = []) then None else Some (entered key l).
Proof.
  unfold group_by_key. induction l as [|[k v] l IH] using rev_ind; [done|].
  rewrite foldl_app, entered_app. cbn [foldl fst snd].
  assert (entered key [(k, v)] = if k =? key then [v] else []) as -> by (unfold entered; cbn; by destruct (k =? key)).
  destruct (N.eqb_spec k key) as [->|Hne].
  - rewrite lookup_insert_eq, IH. case_bool_decide as E; rewrite bool_decide_false by (intros [_ ?]%app_nil; done); [by rewrite E|done].
  - by rewrite lookup_insert_ne, app_nil_r.
Qed.

Lemma group_by_key_Some {A} (l : list (N * A)) key vs :
  group_by_key l !! key = Some vs <-> vs = entered key l /\ vs <> [].
Proof. rewrite group_by_key_lookup. case_bool_decide as E; naive_solver. Qed.

Lemma count_by_key_lookup (l : list N) key :
  count_by_key l !! key =
    let n := length (List.filter (fun k => k =? key) l) in if (n =? 0)%nat then None else Some n.
Proof.
  unfold count_by_key. induction l as [|k l IH] using rev_ind; [done|].
  rewrite foldl_app, List.filter_app, length_app. cbn [foldl List.filter]. cbv zeta in IH |- *.
  destruct (N.eqb_spec k key) as [->|Hne].
  - rewrite lookup_insert_eq, IH. cbn [length].
    destruct (Nat.eqb_spec (length (List.filter (fun k => k =? key) l)) 0) as [->|E]; [done|].
    cbn [default]. by rewrite (proj2 (Nat.eqb_neq _ _)) by lia.
  - rewrite lookup_insert_ne by done. cbn [length]. rewrite Nat.add_0_r. apply IH.
Qed.

Lemma count_by_key_Some (l : list N) key n :
  count_by_key l !! key = Some n <-> n = length (List.filter (fun k => k =? key) l) /\ (0 < n)%nat.
Proof. rewrite count_by_key_lookup. cbv zeta. destruct (Nat.eqb_spec (length (List.filter (fun k => k =? key) l)) 0); naive_solver lia. Qed.

Lemma count_by_key_has (l : list N) key : has_key (count_by_key l) key = bool_decide (key ∈ l).
Proof.
  unfold has_key. apply bool_decide_ext. rewrite count_by_key_lookup. cbv zeta.
  split.
  - intros [n H]. destruct (List.filter (fun k => k =? key) l) as [|k l'] eqn:E; [done|].
    assert (List.In k (List.filter (fun k => k =? key) l)) as [Hin Hk]%List.filter_In by (rewrite E; by left).
    apply N.eqb_eq in Hk as ->. by apply list_elem_of_In.
  - intros Hin. apply list_elem_of_In in Hin. assert (List.In key (List.filter (fun k => k =? key) l)) as Hf by (apply List.filter_In; split; [done|by apply N.eqb_refl]).
    destruct (List.filter (fun k => k =? key) l); [done|]. cbn. by eexists.
Qed.

(** ** Reported violations *)

Lemma elem_of_violation b e e' : e ∈ violation b e' <-> b = true /\ e = e'.
Proof. unfold violation. destruct b; set_solver. Qed.

Lemma elem_of_bind_violations {A} (f : A -> list SessionConsistencyError) (l : list A) e :
  e ∈ l ≫= f <-> exists x, x ∈ l /\ e ∈ f x.
Proof. rewrite list_elem_of_bind. naive_solver. Qed.

(** The tabs, or the floating panes, a pane is a leaf of, once for each leaf. *)
Definition holding_tab_ids (s : Session) (pane_id : PaneId) : list TabId :=
  btree_values (tabs s) ≫= fun t => (fun _ => tab_id t) <$> List.filter (fun p => p =? pane_id) (list_leaf_pane_ids (tab_tree t)).

Definition holding_floating_pane_ids (s : Session) (pane_id : PaneId) : list FloatingPaneId :=
  floating_set s ≫= fun f => (fun _ => floating_pane_id f) <$> List.filter (fun p => p =? pane_id) (list_pane_ids f).

Lemma entered_leaves {X} (l : list X) (leaves : X -> list PaneId) (id : X -> N) key :
  entered key (l ≫= fun x => (fun p => (p, id x)) <$> leaves x)
  = l ≫= fun x => (fun _ => id x) <$> List.filter (fun p => p =? key) (leaves x).
Proof.
  induction l as [|x l IH]; [done|]. rewrite !bind_cons, entered_app, IH. f_equal.
  induction (leaves x) as [|p ps IHp]; [done|]. unfold entered in *. cbn [List.filter fmap list_fmap fst].
  destruct (p =? key); cbn [fmap list_fmap]; by rewrite IHp.
Qed.

Lemma tab_ids_of_pane s pane_id tab_ids :
  tab_ids_by_pane_id s !! pane_id = Some tab_ids <-> tab_ids = holding_tab_ids s pane_id /\ tab_ids <> [].
Proof. unfold tab_ids_by_pane_id, holding_tab_ids. by rewrite group_by_key_Some, entered_leaves. Qed.

Lemma floating_pane_ids_of_pane s pane_id ids :
  floating_pane_ids_by_pane_id s !! pane_id = Some ids <-> ids = holding_floating_pane_ids s pane_id /\ ids <> [].
Proof. unfold floating_pane_ids_by_pane_id, holding_floating_pane_ids. by rewrite group_by_key_Some, entered_leaves. Qed.

#[export] Instance set_unfold_violation b e e' P :
  SetUnfold (b = true) P -> SetUnfoldElemOf e (violation b e') (P /\ e = e').
Proof. intros [HP]. constructor. rewrite elem_of_violation. naive_solver. Qed.

(** ** Violations as conditions *)

Definition is_tab_leaf (s : Session) (pane_id : PaneId) : Prop :=
  exists k t, tabs s !! k = Some t /\ pane_id ∈ list_leaf_pane_ids (tab_tree t).

Definition is_floating_leaf (s : Session) (pane_id : PaneId) : Prop :=
  exists f, f ∈ floating_set s /\ pane_id ∈ list_pane_ids f.

Definition tabs_violate (s : Session) (e : SessionConsistencyError) : Prop :=
  match e with
  | TabKeyMismatch stored reported => exists t, tabs s !! stored = Some t /\ tab_id t = reported /\ stored <> reported
  | PaneNotInRegistry tab pane_id =>
      exists k t, tabs s !! k = Some t /\ tab_id t = tab /\ pane_id ∈ list_leaf_pane_ids (tab_tree t) /\ panes s !! pane_id = None
  | TabSolveStale tab => exists t, tabs s !! tab = Some t /\ tab_solve t <> compute_layout_solve (tab_area t) (pane_sizing s)
  | TabSolveSizeStale tab solved size =>
      exists t, tabs s !! tab = Some t /\ get_solved_tab_size t = solved /\ resolve_tab_solve_size s tab = Some size /\ size <> solved
  | DuplicateTabIndex index =>
      exists k k' t t', k <> k' /\ tabs s !! k = Some t /\ tabs s !! k' = Some t' /\ tab_index t = index /\ tab_index t' = index
  | PaneInMultipleLayouts pane_id tab_ids => tab_ids = holding_tab_ids s pane_id /\ (1 < length tab_ids)%nat
  | _ => False
  end.

Definition floating_set_violates (s : Session) (e : SessionConsistencyError) : Prop :=
  let floating id (P : FloatingPane -> Prop) := exists f, f ∈ floating_set s /\ floating_pane_id f = id /\ P f in
  match e with
  | TooManyFloatingPanes n => n = length (floating_set s) /\ (MAX_FLOATING_PANES_PER_SESSION < n)%nat
  | EmptyFloatingPane id => floating id (fun f => list_pane_ids f = [])
  | DuplicateFloatingPaneId id =>
      exists i j f f', i <> j /\ floating_set s !! i = Some f /\ floating_set s !! j = Some f'
        /\ floating_pane_id f = id /\ floating_pane_id f' = id
  | FloatingPaneSolveSizeStale id solved size =>
      floating id (fun f => solved_size (floating_area f) = solved
        /\ compute_floating_layout_size (floating_solved_size f) = size /\ solved <> size)
  | FloatingPaneSolveStale id => floating id (fun f => floating_solve f <> compute_layout_solve (floating_area f) (pane_sizing s))
  | FloatingPaneNotInRegistry pane_id => is_floating_leaf s pane_id /\ panes s !! pane_id = None
  | PaneInMultipleFloatingPanes pane_id ids => ids = holding_floating_pane_ids s pane_id /\ (1 < length ids)%nat
  | FloatingPaneInLayout pane_id tab_ids =>
      is_floating_leaf s pane_id /\ is_tab_leaf s pane_id /\ tab_ids = holding_tab_ids s pane_id
  | OrphanedPaneRecord pane_id =>
      exists k r, panes s !! k = Some r /\ record_pane_id r = pane_id /\ ~ is_tab_leaf s pane_id /\ ~ is_floating_leaf s pane_id
  | _ => False
  end.

Definition is_floating_id (s : Session) (id : FloatingPaneId) : Prop := id ∈ floating_pane_id <$> floating_set s.

(** Of the client [c]; [can_draw] says whether it can draw floating panes. *)
Definition client_violates (s : Session) (can_draw : bool) (c : Client) (e : SessionConsistencyError) : Prop :=
  let view id (P : FloatingPaneView -> Prop) := exists v, get_floating_pane_view c id = Some v /\ P v in
  match e with
  | ClientSessionMismatch id found => client_id c = id /\ session_id c = found /\ found <> own_session_id s
  | ActiveTabMissing id tab => client_id c = id /\ active_tab_id c = tab /\ tabs s <> ∅ /\ tabs s !! tab = None
  | FocusPaneNotInRegistry id tab pane_id =>
      client_id c = id /\ pane_id ∈ list_focus_history c tab /\ panes s !! pane_id = None
  | FocusTargetMissing id tab pane_id =>
      client_id c = id /\ pane_id ∈ list_focus_history c tab
      /\ exists t, tabs s !! tab = Some t /\ has_pane pane_id (tab_tree t) = false
  | FocusTabMissing id tab => client_id c = id /\ is_Some (focus_history_by_tab_id c !! tab) /\ tabs s !! tab = None
  | ZoomTargetMissing id tab pane_id =>
      client_id c = id /\ get_zoomed_pane_id c tab = Some pane_id
      /\ ~ (is_Some (panes s !! pane_id) /\ exists t, tabs s !! tab = Some t /\ has_pane pane_id (tab_tree t) = true)
  | FloatingViewTargetMissing id floating => client_id c = id /\ view floating (fun _ => True) /\ ~ is_floating_id s floating
  | FloatingViewMissing id floating => client_id c = id /\ is_floating_id s floating /\ get_floating_pane_view c floating = None
  | FloatingPaneShownStateMismatch id floating minimized =>
      client_id c = id /\ is_floating_id s floating
      /\ view floating (fun v => is_minimized v = minimized /\ (is_minimized v = true <-> floating ∈ shown_floating_pane_ids c))
  | FloatingFocusHistoryEmpty id floating =>
      client_id c = id /\ is_floating_id s floating /\ view floating (fun v => focus_history v = [])
  | FloatingFocusTargetMissing id floating pane_id =>
      client_id c = id /\ view floating (fun v => pane_id ∈ focus_history v)
      /\ exists f, f ∈ floating_set s /\ floating_pane_id f = floating /\ floating_has_pane pane_id f = false
  | FloatingZoomTargetMissing id floating pane_id =>
      client_id c = id /\ view floating (fun v => zoomed_pane_id v = Some pane_id)
      /\ exists f, f ∈ floating_set s /\ floating_pane_id f = floating /\ floating_has_pane pane_id f = false
  | ShownFloatingPaneMissing id floating =>
      client_id c = id /\ floating ∈ shown_floating_pane_ids c /\ ~ is_floating_id s floating
  | DuplicateShownFloatingPane id floating =>
      client_id c = id /\ exists i j, i <> j /\ shown_floating_pane_ids c !! i = Some floating
        /\ shown_floating_pane_ids c !! j = Some floating
  | FloatingFocusNotNewestShown id focused newest =>
      client_id c = id /\ focused_floating_pane_id c = focused /\ last (shown_floating_pane_ids c) = newest /\ focused <> newest
  | UndrawableFloatingPaneShown id floating => client_id c = id /\ can_draw = false /\ floating ∈ shown_floating_pane_ids c
  | SuppressedPaneFocused id tab pane_id =>
      client_id c = id /\ active_tab_id c = tab /\ get_layout_mode c tab = Tiled /\ get_focused_pane_id c tab = Some pane_id
      /\ exists t, tabs s !! tab = Some t /\ is_every_pane_suppressed (tab_solve t) = false
           /\ pane_id ∈ suppressed_pane_ids (tab_solve t)
  | _ => False
  end.

(** What is wrong with the session, with every solve built when it is asked for. *)
Definition violates (s : Session) (e : SessionConsistencyError) : Prop :=
  tabs_violate s e \/ floating_set_violates s e
  \/ exists c, c ∈ attached_clients s
       /\ client_violates s (can_client_draw_floating_panes (H := fresh_solves) c s).1 c e.

(** ** Leaves and ids that occur more than once *)

Lemma filter_repeated (l : list N) key :
  (1 < length (List.filter (fun k => N.eqb k key) l))%nat <-> exists i j, i <> j /\ l !! i = Some key /\ l !! j = Some key.
Proof.
  assert (forall l : list N, (0 < length (List.filter (fun k => N.eqb k key) l))%nat <-> exists i, l !! i = Some key) as Hpos.
  { intros l0. rewrite <- list_elem_of_lookup, list_elem_of_In. split.
    - destruct (List.filter _ _) as [|k l'] eqn:E; [cbn; lia|]. intros _.
      assert (List.In k (List.filter (fun k => N.eqb k key) l0)) as [Hin Hk]%List.filter_In by (rewrite E; by left).
      by apply N.eqb_eq in Hk as <-.
    - intros Hin. assert (List.In key (List.filter (fun k => N.eqb k key) l0)) as Hf
        by (apply List.filter_In; split; [done|apply N.eqb_refl]).
      destruct (List.filter _ _); [done|cbn; lia]. }
  induction l as [|k l IH]; [cbn; split; [lia|by intros (i & j & _ & H & _)]|]. cbn [List.filter].
  destruct (N.eqb_spec k key) as [->|Hne]; cbn [length].
  - split.
    + intros H. destruct (proj1 (Hpos l)) as [i Hi]; [lia|]. by exists 0%nat, (S i).
    + intros (i & j & Hij & Hi & Hj). enough (0 < length (List.filter (fun k => N.eqb k key) l))%nat by lia. apply Hpos.
      destruct i as [|i]; [|by exists i]. destruct j as [|j]; [done|by exists j].
  - rewrite IH. split.
    + intros (i & j & Hij & Hi & Hj). exists (S i), (S j). split_and!; [congruence|done..].
    + intros ([|i] & [|j] & Hij & Hi & Hj); simplify_eq/=. exists i, j. split; [congruence|done].
Qed.

Lemma count_repeated (l : list N) (key : N) :
  (exists n, count_by_key l !! key = Some n /\ (1 < n)%nat) <-> exists i j, i <> j /\ l !! i = Some key /\ l !! j = Some key.
Proof. rewrite <- filter_repeated. setoid_rewrite count_by_key_Some. naive_solver lia. Qed.

(** Distinct positions of the values of a map are distinct keys. *)
Lemma btree_values_positions {A} (m : gmap N A) (P : A -> Prop) :
  (exists i j x y, i <> j /\ btree_values m !! i = Some x /\ btree_values m !! j = Some y /\ P x /\ P y)
  <-> exists k k' x y, k <> k' /\ m !! k = Some x /\ m !! k' = Some y /\ P x /\ P y.
Proof.
  unfold btree_values. pose proof (NoDup_btree_keys m) as Hn. unfold btree_keys in Hn. split.
  - intros (i & j & x & y & Hij & Hx & Hy & Px & Py). rewrite list_lookup_fmap in Hx, Hy.
    destruct (btree_entries m !! i) as [[k x']|] eqn:Ei; [|done]. destruct (btree_entries m !! j) as [[k' y']|] eqn:Ej; [|done].
    simplify_eq/=. exists k, k', x, y. split_and!; [|by eapply elem_of_btree_entries, list_elem_of_lookup_2..|done|done].
    intros <-. apply Hij. eapply (NoDup_lookup _ _ _ k Hn); by rewrite list_lookup_fmap, ?Ei, ?Ej.
  - intros (k & k' & x & y & Hne & Hx & Hy & Px & Py).
    apply elem_of_btree_entries, list_elem_of_lookup in Hx as [i Hi]. apply elem_of_btree_entries, list_elem_of_lookup in Hy as [j Hj].
    exists i, j, x, y. rewrite !list_lookup_fmap, Hi, Hj. split_and!; [congruence|done..].
Qed.

Lemma held_nonempty {X} (l : list X) (leaves : X -> list PaneId) (id : X -> N) key :
  (l ≫= fun x => (fun _ => id x) <$> List.filter (fun p => p =? key) (leaves x)) <> [] <-> exists x, x ∈ l /\ key ∈ leaves x.
Proof.
  rewrite <- entered_leaves. split.
  - intros H. destruct (entered _ _) as [|v vs] eqn:E; [done|]. assert (v ∈ v :: vs) as Hin by (by left). rewrite <- E in Hin.
    apply list_elem_of_fmap in Hin as ([p v'] & -> & Hin). apply list_elem_of_In, List.filter_In in Hin as [Hin Hp].
    apply N.eqb_eq in Hp. cbn in Hp. subst p. apply list_elem_of_In, list_elem_of_bind in Hin as (x & Hx & Hl).
    exists x. split; [done|]. set_solver.
  - intros (x & Hx & Hk) E. unfold entered in E. apply fmap_nil_inv in E.
    assert (List.In (key, id x) []) as []. rewrite <- E. apply List.filter_In. split; [|apply N.eqb_refl].
    apply list_elem_of_In, list_elem_of_bind. exists x. split; [|done]. by apply list_elem_of_fmap_2' with key.
Qed.

Lemma holding_tab_ids_nonempty s pane_id : holding_tab_ids s pane_id <> [] <-> is_tab_leaf s pane_id.
Proof. unfold holding_tab_ids, is_tab_leaf. rewrite held_nonempty. setoid_rewrite elem_of_btree_values. naive_solver. Qed.

Lemma holding_floating_pane_ids_nonempty s pane_id : holding_floating_pane_ids s pane_id <> [] <-> is_floating_leaf s pane_id.
Proof. apply held_nonempty. Qed.

(** ** The parts of the check *)

Lemma not_registered panes pane_id : negb (is_registered panes pane_id) = true <-> panes !! pane_id = None.
Proof. unfold is_registered, get_pane_record_by_id. by destruct (panes !! pane_id). Qed.

Lemma tab_leaf_key s pane_id : has_key (tab_ids_by_pane_id s) pane_id = true <-> is_tab_leaf s pane_id.
Proof.
  unfold has_key. rewrite bool_decide_eq_true, <- holding_tab_ids_nonempty. unfold is_Some. setoid_rewrite tab_ids_of_pane. naive_solver.
Qed.

Lemma floating_leaf_key s pane_id : has_key (floating_pane_ids_by_pane_id s) pane_id = true <-> is_floating_leaf s pane_id.
Proof.
  unfold has_key. rewrite bool_decide_eq_true, <- holding_floating_pane_ids_nonempty. unfold is_Some.
  setoid_rewrite floating_pane_ids_of_pane. naive_solver.
Qed.

Lemma floating_id_key s id : has_key (floating_pane_count_by_id s) id = true <-> is_floating_id s id.
Proof. unfold floating_pane_count_by_id. by rewrite count_by_key_has, bool_decide_eq_true. Qed.

Lemma check_tab_reports s stored t e :
  e ∈ check_tab s (stored, t) <->
  match e with
  | TabKeyMismatch k r => k = stored /\ r = tab_id t /\ stored <> r
  | PaneNotInRegistry tab p => tab = tab_id t /\ p ∈ list_leaf_pane_ids (tab_tree t) /\ panes s !! p = None
  | TabSolveStale k => k = stored /\ tab_solve t <> compute_layout_solve (tab_area t) (pane_sizing s)
  | TabSolveSizeStale k solved size =>
      k = stored /\ get_solved_tab_size t = solved /\ resolve_tab_solve_size s k = Some size /\ size <> solved
  | _ => False
  end.
Proof.
  unfold check_tab. rewrite !elem_of_app, elem_of_bind_violations, !elem_of_violation.
  setoid_rewrite elem_of_violation. setoid_rewrite not_registered. rewrite !negb_true_iff, N.eqb_neq, !bool_decide_eq_false.
  assert ((e ∈ match resolve_tab_solve_size s stored with
      | Some tab_size => violation (negb (bool_decide (tab_size = get_solved_tab_size t)))
          (TabSolveSizeStale stored (get_solved_tab_size t) tab_size)
      | None => [] end) <-> exists size, resolve_tab_solve_size s stored = Some size /\ size <> get_solved_tab_size t
        /\ e = TabSolveSizeStale stored (get_solved_tab_size t) size) as ->.
  { destruct (resolve_tab_solve_size s stored); [|set_solver]. rewrite elem_of_violation, negb_true_iff, bool_decide_eq_false. naive_solver. }
  destruct e; naive_solver.
Qed.

Lemma check_tab_indices_reports s e :
  e ∈ check_tab_indices s <->
  exists i, e = DuplicateTabIndex i /\ tabs_violate s (DuplicateTabIndex i).
Proof.
  assert (forall i : nat, (exists n, tab_count_by_index s !! N.of_nat i = Some n /\ (1 < n)%nat) <-> tabs_violate s (DuplicateTabIndex i)) as Hi.
  { intros i. unfold tab_count_by_index. rewrite count_repeated. cbn [tabs_violate].
    rewrite <- (btree_values_positions (tabs s) (fun t => tab_index t = i)). split.
    - intros (a & b & Hab & Ha & Hb). rewrite list_lookup_fmap in Ha, Hb.
      destruct (btree_values (tabs s) !! a) as [x|] eqn:Ea; [|done]. destruct (btree_values (tabs s) !! b) as [y|] eqn:Eb; [|done].
      cbn in Ha, Hb. exists a, b, x, y. split_and!; [done..| |]; lia || (injection Ha; injection Hb; lia).
    - intros (a & b & x & y & Hab & Ha & Hb & <- & Hy). exists a, b. rewrite !list_lookup_fmap, Ha, Hb. cbn. by rewrite Hy. }
  unfold check_tab_indices. rewrite elem_of_bind_violations. split.
  - intros ([key n] & Hin & [Hn ->]%elem_of_violation). cbn [fst snd] in *. apply elem_of_btree_entries in Hin.
    exists (N.to_nat key). split; [done|]. apply Hi. rewrite N2Nat.id. exists n. split; [done|]. by apply Nat.ltb_lt.
  - intros (i & -> & (n & Hn & Hlt)%Hi). exists (N.of_nat i, n). split; [by apply elem_of_btree_entries|].
    apply elem_of_violation. cbn [fst snd]. by rewrite Nat2N.id, (proj2 (Nat.ltb_lt _ _)).
Qed.

Lemma check_layouts_reports s e :
  e ∈ check_layouts s <-> exists p ids, e = PaneInMultipleLayouts p ids /\ tabs_violate s (PaneInMultipleLayouts p ids).
Proof.
  unfold check_layouts. rewrite elem_of_bind_violations. cbn [tabs_violate]. split.
  - intros ([p ids] & Hin & [Hn ->]%elem_of_violation). cbn [fst snd] in *. apply elem_of_btree_entries, tab_ids_of_pane in Hin as [-> _].
    apply Nat.ltb_lt in Hn. eauto.
  - intros (p & ids & -> & -> & Hlt). exists (p, holding_tab_ids s p). split.
    + apply elem_of_btree_entries, tab_ids_of_pane. split; [done|]. by intros E; rewrite E in Hlt; cbn in Hlt; lia.
    + apply elem_of_violation. cbn [fst snd]. by rewrite (proj2 (Nat.ltb_lt _ _)).
Qed.

Lemma check_tabs_reports s e :
  e ∈ (btree_entries (tabs s) ≫= check_tab s) ++ check_tab_indices s ++ check_layouts s <-> tabs_violate s e.
Proof.
  rewrite !elem_of_app, check_tab_indices_reports, check_layouts_reports, elem_of_bind_violations.
  assert ((exists x, x ∈ btree_entries (tabs s) /\ e ∈ check_tab s x)
    <-> exists k t, tabs s !! k = Some t /\ e ∈ check_tab s (k, t)) as ->.
  { split; [intros ([k t] & Hin & He)|intros (k & t & Hin & He)]; [|exists (k, t); split; [|done]];
      apply elem_of_btree_entries in Hin; eauto. }
  setoid_rewrite check_tab_reports. destruct e; cbn [tabs_violate]; naive_solver.
Qed.

Lemma check_floating_pane_reports s f e :
  e ∈ check_floating_pane s f <->
  match e with
  | EmptyFloatingPane id => id = floating_pane_id f /\ list_pane_ids f = []
  | FloatingPaneSolveSizeStale id solved size => id = floating_pane_id f /\ solved_size (floating_area f) = solved
      /\ compute_floating_layout_size (floating_solved_size f) = size /\ solved <> size
  | FloatingPaneSolveStale id => id = floating_pane_id f /\ floating_solve f <> compute_layout_solve (floating_area f) (pane_sizing s)
  | _ => False
  end.
Proof.
  unfold check_floating_pane. rewrite !elem_of_app, !elem_of_violation, !negb_true_iff, !bool_decide_eq_false, bool_decide_eq_true.
  destruct e; naive_solver.
Qed.

Lemma check_floating_pane_ids_reports s e :
  e ∈ check_floating_pane_ids s <->
  exists id, e = DuplicateFloatingPaneId id /\ floating_set_violates s (DuplicateFloatingPaneId id).
Proof.
  assert (forall id : FloatingPaneId, (exists n, floating_pane_count_by_id s !! id = Some n /\ (1 < n)%nat)
    <-> floating_set_violates s (DuplicateFloatingPaneId id)) as Hi.
  { intros id. unfold floating_pane_count_by_id. rewrite count_repeated. cbn [floating_set_violates].
    setoid_rewrite list_lookup_fmap. setoid_rewrite fmap_Some. naive_solver. }
  unfold check_floating_pane_ids. rewrite elem_of_bind_violations. setoid_rewrite elem_of_violation. split.
  - intros ([key n] & Hin & [Hn ->]). cbn [fst snd] in *. apply elem_of_btree_entries in Hin. apply Nat.ltb_lt in Hn.
    exists key. split; [done|]. apply Hi. eauto.
  - intros (id & -> & (n & Hn & Hlt)%Hi). exists (id, n). split; [by apply elem_of_btree_entries|]. split; [|done]. by apply Nat.ltb_lt.
Qed.

Lemma check_floating_leaf_reports s p ids e :
  e ∈ check_floating_leaf s (p, ids) <->
  match e with
  | FloatingPaneNotInRegistry pane_id => pane_id = p /\ panes s !! p = None
  | PaneInMultipleFloatingPanes pane_id ids' => pane_id = p /\ ids' = ids /\ (1 < length ids)%nat
  | FloatingPaneInLayout pane_id tab_ids => pane_id = p /\ is_tab_leaf s p /\ tab_ids = holding_tab_ids s p
  | _ => False
  end.
Proof.
  unfold check_floating_leaf. rewrite !elem_of_app, !elem_of_violation, not_registered, Nat.ltb_lt.
  assert ((e ∈ match tab_ids_by_pane_id s !! p with Some tab_ids => [FloatingPaneInLayout p tab_ids] | None => [] end)
    <-> is_tab_leaf s p /\ e = FloatingPaneInLayout p (holding_tab_ids s p)) as ->.
  { rewrite <- holding_tab_ids_nonempty. destruct (tab_ids_by_pane_id s !! p) as [tab_ids|] eqn:E.
    - apply tab_ids_of_pane in E as [-> Hne]. set_solver.
    - split; [set_solver|]. intros [Hne _]. by rewrite (proj2 (tab_ids_of_pane s p _) (conj eq_refl Hne)) in E. }
  destruct e; naive_solver.
Qed.

Lemma check_floating_set_reports s e : e ∈ check_floating_set s ++ check_pane_records s <-> floating_set_violates s e.
Proof.
  unfold check_floating_set, check_pane_records.
  rewrite !elem_of_app, !elem_of_bind_violations, check_floating_pane_ids_reports, elem_of_violation, Nat.ltb_lt.
  setoid_rewrite check_floating_pane_reports. setoid_rewrite elem_of_violation.
  assert ((exists x, x ∈ btree_entries (floating_pane_ids_by_pane_id s) /\ e ∈ check_floating_leaf s x)
    <-> exists p, is_floating_leaf s p /\ e ∈ check_floating_leaf s (p, holding_floating_pane_ids s p)) as ->.
  { split.
    - intros ([p ids] & Hin & He). apply elem_of_btree_entries, floating_pane_ids_of_pane in Hin as [-> Hne].
      exists p. split; [by apply holding_floating_pane_ids_nonempty|done].
    - intros (p & Hp & He). exists (p, holding_floating_pane_ids s p). split; [|done].
      apply elem_of_btree_entries, floating_pane_ids_of_pane. split; [done|by apply holding_floating_pane_ids_nonempty]. }
  setoid_rewrite check_floating_leaf_reports. setoid_rewrite andb_true_iff. setoid_rewrite negb_true_iff.
  setoid_rewrite <- not_true_iff_false. setoid_rewrite tab_leaf_key. setoid_rewrite floating_leaf_key.
  unfold list_pane_records. setoid_rewrite elem_of_btree_values.
  assert (forall p ids, ids = holding_floating_pane_ids s p /\ (1 < length ids)%nat -> is_floating_leaf s p) as Hheld.
  { intros p ids [-> Hlt]. apply holding_floating_pane_ids_nonempty. intros E. rewrite E in Hlt. cbn in Hlt. lia. }
  destruct e; cbn [floating_set_violates]; naive_solver.
Qed.

(** *** Of a client *)

Lemma lookup_none_key {A} (m : gmap N A) k : negb (has_key m k) = true <-> m !! k = None.
Proof. unfold has_key. rewrite negb_true_iff, bool_decide_eq_false, eq_None_not_Some. done. Qed.

Lemma not_leaf_of s tab pane_id :
  (match tabs s !! tab with Some t => negb (has_pane pane_id (tab_tree t)) | None => false end) = true
  <-> exists t, tabs s !! tab = Some t /\ has_pane pane_id (tab_tree t) = false.
Proof. destruct (tabs s !! tab) as [t|]; [rewrite negb_true_iff|]; naive_solver. Qed.

Lemma check_home_reports s c e :
  e ∈ check_home s c <->
  match e with
  | ClientSessionMismatch id found => client_id c = id /\ session_id c = found /\ found <> own_session_id s
  | ActiveTabMissing id tab => client_id c = id /\ active_tab_id c = tab /\ tabs s <> ∅ /\ tabs s !! tab = None
  | _ => False
  end.
Proof.
  unfold check_home. rewrite elem_of_app, !elem_of_violation, andb_true_iff, lookup_none_key, !negb_true_iff, N.eqb_neq, bool_decide_eq_false.
  destruct e; naive_solver.
Qed.

Lemma check_focus_histories_report s c e :
  e ∈ btree_entries (focus_history_by_tab_id c) ≫= check_focus_history s c <->
  match e with
  | FocusPaneNotInRegistry id tab pane_id => client_id c = id /\ pane_id ∈ list_focus_history c tab /\ panes s !! pane_id = None
  | FocusTargetMissing id tab pane_id =>
      client_id c = id /\ pane_id ∈ list_focus_history c tab /\ exists t, tabs s !! tab = Some t /\ has_pane pane_id (tab_tree t) = false
  | FocusTabMissing id tab => client_id c = id /\ is_Some (focus_history_by_tab_id c !! tab) /\ tabs s !! tab = None
  | _ => False
  end.
Proof.
  rewrite elem_of_bind_violations.
  assert (forall tab p, p ∈ list_focus_history c tab <-> exists h, focus_history_by_tab_id c !! tab = Some h /\ p ∈ h) as Hh.
  { intros tab p. unfold list_focus_history. destruct (focus_history_by_tab_id c !! tab); cbn; set_solver. }
  assert (forall tab h, e ∈ check_focus_history s c (tab, h) <->
    (exists p, p ∈ h /\ ((panes s !! p = None /\ e = FocusPaneNotInRegistry (client_id c) tab p)
       \/ ((exists t, tabs s !! tab = Some t /\ has_pane p (tab_tree t) = false) /\ e = FocusTargetMissing (client_id c) tab p)))
    \/ (tabs s !! tab = None /\ e = FocusTabMissing (client_id c) tab)) as Hc.
  { intros tab h. unfold check_focus_history. rewrite elem_of_app, elem_of_bind_violations, elem_of_violation, lookup_none_key.
    setoid_rewrite elem_of_app. setoid_rewrite elem_of_violation. setoid_rewrite not_registered. by setoid_rewrite not_leaf_of. }
  assert ((exists x, x ∈ btree_entries (focus_history_by_tab_id c) /\ e ∈ check_focus_history s c x)
    <-> exists tab h, focus_history_by_tab_id c !! tab = Some h /\ e ∈ check_focus_history s c (tab, h)) as ->.
  { split; [intros ([tab h] & Hin & He)|intros (tab & h & Hin & He); exists (tab, h)]; rewrite elem_of_btree_entries in *; eauto. }
  setoid_rewrite Hc. unfold is_Some. destruct e; rewrite ?Hh; naive_solver.
Qed.

Lemma check_zooms_report s c e :
  e ∈ btree_entries (zoomed_pane_id_by_tab_id c) ≫= check_zoom s c <->
  match e with ZoomTargetMissing _ _ _ => client_violates s true c e | _ => False end.
Proof.
  assert (forall tab p, negb (is_registered (panes s) p && match tabs s !! tab with Some t => has_pane p (tab_tree t) | None => false end) = true
    <-> ~ (is_Some (panes s !! p) /\ exists t, tabs s !! tab = Some t /\ has_pane p (tab_tree t) = true)) as Hl.
  { intros tab p. rewrite negb_true_iff, <- not_true_iff_false, andb_true_iff. apply not_iff_compat.
    unfold is_registered, get_pane_record_by_id. destruct (panes s !! p), (tabs s !! tab); unfold is_Some; naive_solver. }
  rewrite elem_of_bind_violations. unfold check_zoom. split.
  - intros ([tab p] & Hin & [Hv%Hl ->]%elem_of_violation). apply elem_of_btree_entries in Hin. by split_and!.
  - destruct e; try done. intros (<- & Hz & Hv%Hl). exists (tab_id, pane_id). by rewrite elem_of_btree_entries, elem_of_violation.
Qed.

Lemma check_floating_view_reports c f e :
  let view (P : FloatingPaneView -> Prop) := exists v, get_floating_pane_view c (floating_pane_id f) = Some v /\ P v in
  e ∈ check_floating_view c f <->
  match e with
  | FloatingViewMissing id floating =>
      client_id c = id /\ floating_pane_id f = floating /\ get_floating_pane_view c floating = None
  | FloatingPaneShownStateMismatch id floating minimized =>
      client_id c = id /\ floating_pane_id f = floating
      /\ view (fun v => is_minimized v = minimized /\ (is_minimized v = true <-> floating ∈ shown_floating_pane_ids c))
  | FloatingFocusHistoryEmpty id floating => client_id c = id /\ floating_pane_id f = floating /\ view (fun v => focus_history v = [])
  | FloatingFocusTargetMissing id floating p => client_id c = id /\ floating_pane_id f = floating
      /\ view (fun v => p ∈ focus_history v) /\ floating_has_pane p f = false
  | FloatingZoomTargetMissing id floating p => client_id c = id /\ floating_pane_id f = floating
      /\ view (fun v => zoomed_pane_id v = Some p) /\ floating_has_pane p f = false
  | _ => False
  end.
Proof.
  cbv zeta. unfold check_floating_view. destruct (get_floating_pane_view c (floating_pane_id f)) as [v|] eqn:E.
  - rewrite !elem_of_app, elem_of_bind_violations, !elem_of_violation, bool_decide_eq_true. setoid_rewrite elem_of_violation.
    setoid_rewrite negb_true_iff.
    assert (Bool.eqb (is_minimized v) (bool_decide (floating_pane_id f ∈ shown_floating_pane_ids c)) = true
      <-> (is_minimized v = true <-> floating_pane_id f ∈ shown_floating_pane_ids c)) as ->.
    { rewrite eqb_true_iff. case_bool_decide; destruct (is_minimized v); naive_solver. }
    assert ((e ∈ match zoomed_pane_id v with
        | Some zoomed => violation (negb (floating_has_pane zoomed f)) (FloatingZoomTargetMissing (client_id c) (floating_pane_id f) zoomed)
        | None => [] end) <-> exists p, e = FloatingZoomTargetMissing (client_id c) (floating_pane_id f) p
          /\ zoomed_pane_id v = Some p /\ floating_has_pane p f = false) as ->.
    { destruct (zoomed_pane_id v); [rewrite elem_of_violation, negb_true_iff|]; set_solver. }
    destruct e; naive_solver.
  - rewrite list_elem_of_singleton. destruct e; naive_solver.
Qed.

Lemma check_shown_reports s c seen shown e :
  e ∈ check_shown s c seen shown <->
  exists i id, shown !! i = Some id /\
    ((~ is_floating_id s id /\ e = ShownFloatingPaneMissing (client_id c) id)
     \/ ((id ∈ seen \/ exists j, j < i /\ shown !! j = Some id)%nat /\ e = DuplicateShownFloatingPane (client_id c) id)).
Proof.
  revert seen. induction shown as [|id shown IH]; intros seen; cbn [check_shown].
  { split; [set_solver|]. by intros (i & id & H & _). }
  rewrite !elem_of_app, !elem_of_violation, IH, bool_decide_eq_true, negb_true_iff, <- not_true_iff_false, floating_id_key. split.
  - intros [[H ->]|[[H ->]|(i & id' & Hi & H)]].
    + exists 0%nat, id. split; [done|]. by left.
    + exists 0%nat, id. split; [done|]. right. split; [by left|done].
    + exists (S i), id'. split; [done|]. destruct H as [H|[[[->|Hin]%elem_of_cons|(j & Hj & Hl)] ->]]; [by left|right; split; [|done]..].
      * right. exists 0%nat. split; [lia|done].
      * by left.
      * right. exists (S j). split; [lia|done].
  - intros ([|i] & id' & Hi & H).
    + cbn in Hi. injection Hi as <-. destruct H as [[H ->]|[[Hin|(j & Hj & _)] ->]]; [by left|by right; left|lia].
    + right; right. exists i, id'. split; [done|]. destruct H as [H|[[Hin|([|j] & Hj & Hl)] ->]]; [by left|right; split; [|done]..].
      * left. by right.
      * left. cbn in Hl. injection Hl as ->. by left.
      * right. exists j. split; [lia|done].
Qed.

(** A position of a list that repeats an earlier one. *)
Lemma repeated_earlier (l : list N) id :
  (exists i j, i <> j /\ l !! i = Some id /\ l !! j = Some id) <-> exists i, l !! i = Some id /\ exists j, (j < i)%nat /\ l !! j = Some id.
Proof.
  split; [intros (i & j & Hij & Hi & Hj)|intros (i & Hi & j & Hj & Hl); exists i, j; split; [lia|done]].
  destruct (decide (j < i)%nat); [exists i|exists j]; (split; [done|]); [by exists j|exists i; split; [lia|done]].
Qed.

Lemma elem_of_floating_ids s id : is_floating_id s id <-> exists f, f ∈ floating_set s /\ floating_pane_id f = id.
Proof. unfold is_floating_id. rewrite list_elem_of_fmap. naive_solver. Qed.

Lemma view_is_some c id : is_Some (view_by_floating_pane_id c !! id) <-> exists v, get_floating_pane_view c id = Some v.
Proof. unfold get_floating_pane_view, is_Some. destruct (view_by_floating_pane_id c !! id); cbn; naive_solver. Qed.

Lemma check_views_reports s c e :
  e ∈ check_views s c <->
  match e with
  | FloatingViewTargetMissing _ _ | FloatingViewMissing _ _ | FloatingPaneShownStateMismatch _ _ _ | FloatingFocusHistoryEmpty _ _
  | FloatingFocusTargetMissing _ _ _ | FloatingZoomTargetMissing _ _ _ | ShownFloatingPaneMissing _ _
  | DuplicateShownFloatingPane _ _ | FloatingFocusNotNewestShown _ _ _ => client_violates s true c e
  | _ => False
  end.
Proof.
  unfold check_views. rewrite !elem_of_app, !elem_of_bind_violations, check_shown_reports, elem_of_violation.
  setoid_rewrite elem_of_violation. setoid_rewrite check_floating_view_reports. setoid_rewrite elem_of_btree_keys.
  setoid_rewrite negb_true_iff. setoid_rewrite <- not_true_iff_false. setoid_rewrite floating_id_key. rewrite bool_decide_eq_true.
  setoid_rewrite view_is_some. setoid_rewrite elem_of_nil. setoid_rewrite elem_of_floating_ids.
  destruct e; cbn [client_violates]; rewrite ?elem_of_floating_ids, ?repeated_earlier, ?list_elem_of_lookup;
    (split; [intros [H|[H|[H|H]]]; [..|]|intros H]); try (by naive_solver).
  destruct H as (<- & i & Hi & Hj). right; right; left. exists i, floating_pane_id. split; [exact Hi|]. right. split; [by right|done].
Qed.

Lemma check_tiled_focus_reports s c e :
  e ∈ check_tiled_focus s c <->
  match e with SuppressedPaneFocused _ _ _ => client_violates s true c e | _ => False end.
Proof.
  assert (e ∈ check_tiled_focus s c <-> exists t p, get_layout_mode c (active_tab_id c) = Tiled /\ tabs s !! active_tab_id c = Some t
    /\ get_focused_pane_id c (active_tab_id c) = Some p /\ is_every_pane_suppressed (tab_solve t) = false
    /\ p ∈ suppressed_pane_ids (tab_solve t) /\ e = SuppressedPaneFocused (client_id c) (active_tab_id c) p) as ->.
  { unfold check_tiled_focus. destruct (get_layout_mode c (active_tab_id c)), (tabs s !! active_tab_id c),
      (get_focused_pane_id c (active_tab_id c));
      rewrite ?elem_of_violation, ?elem_of_nil, ?andb_true_iff, ?negb_true_iff, ?bool_decide_eq_true;
      split; [intros [[H1 H2] ->]; eauto 10|intros (t' & p' & H); naive_solver|done|..]; try done; intros (t' & p' & H); naive_solver. }
  destruct e; cbn [client_violates]; try (split; [intros (t & p & H); naive_solver|done]).
  split; [intros (t & p & H); naive_solver|]. intros (<- & <- & Hm & Hp & t & Ht & Hs & Hin). by exists t, pane_id.
Qed.

(** Asking whether a client can draw floating panes changes nothing where no
    solve is kept. *)
Lemma fresh_can_draw c s : can_client_draw_floating_panes (H := fresh_solves) c s
  = ((can_client_draw_floating_panes (H := fresh_solves) c s).1, s).
Proof. unfold can_client_draw_floating_panes. by destruct (get_floating_viewport c). Qed.

Lemma check_client_reports s c e :
  e ∈ (check_client (H := fresh_solves) c s).1
  <-> client_violates s (can_client_draw_floating_panes (H := fresh_solves) c s).1 c e.
Proof.
  unfold check_client, bind, reads, ret. rewrite fresh_can_draw. cbn [fst snd]. set (can_draw := (can_client_draw_floating_panes c s).1).
  rewrite !elem_of_app, check_home_reports, check_focus_histories_report, check_zooms_report, check_views_reports,
    check_tiled_focus_reports.
  assert (e ∈ (if can_draw then [] else UndrawableFloatingPaneShown (client_id c) <$> shown_floating_pane_ids c)
    <-> match e with UndrawableFloatingPaneShown _ _ => client_violates s can_draw c e | _ => False end) as ->.
  { destruct can_draw; [rewrite elem_of_nil; destruct e; cbn [client_violates]; intuition discriminate|].
    rewrite list_elem_of_fmap. destruct e; cbn [client_violates]; firstorder congruence. }
  clearbody can_draw. destruct e; cbn [client_violates]; tauto.
Qed.

Lemma fresh_check_clients cs s : map_op (check_client (H := fresh_solves)) cs s
  = ((fun c => (check_client (H := fresh_solves) c s).1) <$> cs, s).
Proof.
  induction cs as [|c cs IH]; [done|]. cbn [map_op fmap list_fmap].
  assert (check_client (H := fresh_solves) c s = ((check_client (H := fresh_solves) c s).1, s)) as E.
  { unfold check_client, bind, reads, ret. by rewrite fresh_can_draw. }
  unfold bind at 1. rewrite E. unfold bind, ret. by rewrite IH, E.
Qed.

(** *** The check *)

Lemma validate_reports s e : e ∈ (validate_session_consistency (H := fresh_solves) s).1 <-> violates s e.
Proof.
  unfold validate_session_consistency, violates. unfold bind, reads, ret. rewrite fresh_check_clients. cbn [fst].
  rewrite !app_assoc, elem_of_app, <- !app_assoc.
  assert (e ∈ concat ((fun c => (check_client (H := fresh_solves) c s).1) <$> attached_clients s)
    <-> exists c, c ∈ attached_clients s /\ client_violates s (can_client_draw_floating_panes (H := fresh_solves) c s).1 c e) as ->.
  { setoid_rewrite <- check_client_reports. rewrite list_elem_of_In, in_concat. setoid_rewrite <- list_elem_of_In. split.
    - intros (l & (c & -> & Hc)%list_elem_of_fmap & He). by exists c.
    - intros (c & Hc & He). exists (check_client (H := fresh_solves) c s).1. split; [|done]. apply list_elem_of_fmap. by exists c. }
  rewrite !app_assoc, <- (app_assoc _ (check_floating_set s)), elem_of_app, <- !app_assoc, check_tabs_reports, check_floating_set_reports.
  tauto.
Qed.

(** C4: The consistency check reports exactly what is wrong. An error is in the
    list it returns precisely when the condition the error names is broken: a
    tab kept under another id or solved at another size, a bar position claimed
    twice, a pane in two layouts, a record no layout holds, a focus, zoom or
    shown floating pane that is not there, a focus on a suppressed pane, and the
    others; so it returns no error precisely when no condition is broken. Here
    the solves are built anew; on a session whose clients keep current solves,
    as every run leaves them, the check with the kept ones reports the same
    ([tracks_validate]). *)
Theorem consistency_check_is_exact s :
  (forall e, e ∈ (validate_session_consistency (H := fresh_solves) s).1 <-> violates s e)
  /\ ((validate_session_consistency (H := fresh_solves) s).1 = [] <-> forall e, ~ violates s e).
Proof.
  split; [apply validate_reports|]. split.
  - intros E e He%validate_reports. rewrite E in He. by apply elem_of_nil in He.
  - intros H. apply elem_of_nil_inv. intros e He%validate_reports. by apply (H e).
Qed.

(** ** The check with the solves clients keep *)

Lemma check_shown_emptied s c seen shown : check_shown (emptied_session s) (emptied c) seen shown = check_shown s c seen shown.
Proof. revert seen. induction shown as [|id shown IH]; intros seen; [done|]. cbn [check_shown]. by rewrite IH. Qed.

Lemma check_floating_view_emptied c f : check_floating_view (emptied c) f = check_floating_view c f.
Proof. unfold check_floating_view. by rewrite emptied_get_view. Qed.

Lemma check_views_emptied s c : check_views (emptied_session s) (emptied c) = check_views s c.
Proof.
  unfold check_views. change (shown_floating_pane_ids (emptied c)) with (shown_floating_pane_ids c).
  rewrite check_shown_emptied. unfold emptied at 1. cbn [view_by_floating_pane_id]. f_equal; [|f_equal].
  - cbn. by rewrite btree_keys_fmap.
  - change (floating_set (emptied_session s)) with (floating_set s). apply list_bind_ext; [|done]. apply check_floating_view_emptied.
Qed.

Lemma tracks_check_client c : check_client (H := kept_solves) c ≈ check_client (H := fresh_solves) (emptied c).
Proof.
  unfold check_client. track1. eapply tracks_bind; [apply tracks_can_client_draw; intros []|]. intros can_draw.
  rewrite check_views_emptied. apply tracks_ret. reflexivity.
Qed.

Lemma tracks_validate : validate_session_consistency (H := kept_solves) ≈ validate_session_consistency (H := fresh_solves).
Proof.
  unfold validate_session_consistency. track1. eapply tracks_bind; [apply tracks_map; intros c; apply tracks_check_client|].
  intros client_violations. change (btree_entries (tabs (emptied_session s))) with (btree_entries (tabs s)).
  assert (btree_entries (tabs s) ≫= check_tab (emptied_session s) = btree_entries (tabs s) ≫= check_tab s) as ->.
  { apply list_bind_ext; [|done]. intros [tab t]. unfold check_tab. by rewrite emptied_solve_size. }
  apply tracks_ret. reflexivity.
Qed.
