(* ===== verification/SessionContract.v ===== *)
(** * Runs of a session, and what its kept solves promise

    The operations the server calls on a session, as one type of steps, and the
    runs they make. From a new session on, the solves the clients keep are the
    solves that would be built, in every answer of every operation. *)

From stdpp Require Import gmap strings options.
From S2P Require Import Prelude Geometry Size Tree Solver Neighbor Edit Placement Destinations Records.
From S2P Require Import Notifications SessionData LayoutAreas Client SessionState SessionFocus SessionTabs SessionPlacement ClientCells.
From S2P Require Import SessionCheck SessionCells SessionKept SessionCheckFacts.
#[local] Open Scope N_scope.

Inductive SessionStep :=
  | AttachClient (c : Client)
  | DetachClient (id : ClientId)
  | EditClient (id : ClientId) (e : ClientEdit)
  | UpdateTabSolve (tab : TabId)
  | UpdateTabLayout (tab : TabId) (layout_tree : LayoutNode)
  | UpdatePaneSizing (sizing : PaneSizing)
  | UpdateFloatingPaneSizes (viewport : Size)
  | UpdateFloatingPaneLayout (floating : FloatingPaneId) (layout_tree : LayoutNode)
  | UpdateDesiredSize (floating : FloatingPaneId) (size : FloatingPaneSize)
  | CommitNewTab (new_tab_id : TabId) (new_pane_id : PaneId) (name : string) (focus_client_id : option ClientId)
      (spec : NewPaneSpec) (tab_size : Size)
  | CommitProfileTab (tab : TabId) (p : ProfileTab) (name : string) (tab_size : Size)
  | CloseTab (tab : TabId)
  | FocusTab (id : ClientId) (target : TabTarget)
  | MoveTab (tab : TabId) (index : nat)
  | LandFocus (id : ClientId) (tab : TabId)
  | CommitNewPane (new_pane_id : PaneId) (tab : TabId) (tree : LayoutNode) (focus_client_id : option ClientId) (spec : NewPaneSpec)
  | CommitNewPaneInFloatingPane (new_pane_id : PaneId) (floating : FloatingPaneId) (tree : LayoutNode)
      (focus_client_id : option ClientId) (spec : NewPaneSpec)
  | CommitNewFloatingPane (floating : FloatingPaneId) (new_pane_id : PaneId) (desired : FloatingPaneSize) (solved : Size)
      (acting_view : option (ClientId * FloatingPanePosition)) (spec : NewPaneSpec)
  | RemovePaneCascade (tab : TabId) (pane_id : PaneId) (pane_exit : option PaneProcessExited)
  | ApplyChildExit (tab : TabId) (pane_exit : PaneProcessExited)
  | RemovePaneFromFloatingPane (pane_id : PaneId)
  | RemoveFloatingPane (floating : FloatingPaneId)
  | CommitUndock (floating : FloatingPaneId) (source : LayoutAreaId) (pane_id : PaneId) (desired : FloatingPaneSize)
      (solved : Size) (acting_view : ClientId * FloatingPanePosition)
  | CommitDock (source : DockSource) (destination : TabId) (tree : LayoutNode) (target : TiledPlacementTarget) (acting : ClientId)
  | CommitCrossTab (source destination : TabId) (pane_id : PaneId) (p : CrossTabPlacement) (acting : ClientId)
  | RequestStop
  | CompleteStop
  | TakeViewChanges
  | ReadClientSolve (id : ClientId) (tab : TabId)
  | ReadFloatingSolve (id : ClientId) (floating : FloatingPaneId)
  | ReadLiftedRect (id : ClientId) (area_id : LayoutAreaId) (pane_id : PaneId)
  | ReadDockTarget (id : ClientId) (pane_id : PaneId)
  | ReadFloatingDockTarget (id : ClientId) (floating : FloatingPaneId)
  | CheckConsistency.

Inductive SessionAnswer :=
  | NoAnswer
  | EventsAnswer (events : list Event)
  | CreatedAnswer (previous : option TabId) (events : list Event)
  | FloatedAnswer (result : FloatingSetError + list Event)
  | PlacedAnswer (result : PlacementCommitError + list Event)
  | SolveAnswer (solve : option LayoutSolve)
  | LiftedAnswer (lifted : option (FloatingPaneSize * Point))
  | TargetAnswer (target : option TiledPlacementTarget)
  | ChangesAnswer (changed : SessionViewChanges)
  | ViolationsAnswer (violations : list SessionConsistencyError).

(** What an operation answers. *)
Definition answering {A} (answer : A -> SessionAnswer) (m : session_op A) : session_op SessionAnswer :=
  let! x := m in ret (answer x).

Definition read_dock_target `{SolveStore} (find : Client -> session_op (option TiledPlacementTarget)) (id : ClientId)
    : session_op (option TiledPlacementTarget) :=
  let! s := reads (fun s => s) in
  match find_client s id with Some c => find c | None => ret None end.

Definition run_step `{SolveStore} (step : SessionStep) : session_op SessionAnswer :=
  match step with
  | AttachClient c => answering (fun _ => NoAnswer) (changes (fun s => (attach_client c s).2))
  | DetachClient id => answering (fun _ => NoAnswer) (changes (fun s => (detach_client id s).2))
  | EditClient id e => answering (fun _ => NoAnswer) (changes (change_clients (update_client id (client_edit e))))
  | UpdateTabSolve tab => answering EventsAnswer (update_tab_solve tab)
  | UpdateTabLayout tab tree => answering EventsAnswer (update_tab_layout tab tree)
  | UpdatePaneSizing sizing => answering EventsAnswer (update_pane_sizing sizing)
  | UpdateFloatingPaneSizes viewport => answering EventsAnswer (update_floating_pane_sizes viewport)
  | UpdateFloatingPaneLayout floating tree => answering EventsAnswer (update_floating_pane_layout floating tree)
  | UpdateDesiredSize floating size =>
      answering (fun _ => NoAnswer) (changes (change_floating_set (fun set => (update_floating_pane_desired_size floating size set).2)))
  | CommitNewTab new_tab_id new_pane_id name focus_client_id spec tab_size =>
      answering (fun x => CreatedAnswer x.1 x.2) (commit_new_tab new_tab_id new_pane_id name focus_client_id spec tab_size)
  | CommitProfileTab tab p name tab_size => answering EventsAnswer (commit_profile_tab tab p name tab_size)
  | CloseTab tab => answering EventsAnswer (close_tab tab)
  | FocusTab id target => answering EventsAnswer (focus_tab id target)
  | MoveTab tab index => answering EventsAnswer (move_tab tab index)
  | LandFocus id tab => answering EventsAnswer (land_focus id tab)
  | CommitNewPane new_pane_id tab tree focus_client_id spec =>
      answering (fun x => CreatedAnswer x.1 x.2) (commit_new_pane new_pane_id tab tree focus_client_id spec)
  | CommitNewPaneInFloatingPane new_pane_id floating tree focus_client_id spec =>
      answering EventsAnswer (commit_new_pane_in_floating_pane new_pane_id floating tree focus_client_id spec)
  | CommitNewFloatingPane floating new_pane_id desired solved acting_view spec =>
      answering FloatedAnswer (commit_new_floating_pane floating new_pane_id desired solved acting_view spec)
  | RemovePaneCascade tab pane_id pane_exit => answering EventsAnswer (remove_pane_cascade tab pane_id pane_exit)
  | ApplyChildExit tab pane_exit => answering EventsAnswer (apply_child_exit tab pane_exit)
  | RemovePaneFromFloatingPane pane_id => answering EventsAnswer (remove_pane_from_floating_pane pane_id)
  | RemoveFloatingPane floating => answering EventsAnswer (remove_floating_pane floating)
  | CommitUndock floating source pane_id desired solved acting_view =>
      answering PlacedAnswer (commit_undock_placement floating source pane_id desired solved acting_view)
  | CommitDock source destination tree target acting =>
      answering PlacedAnswer (commit_dock_placement source destination tree target acting)
  | CommitCrossTab source destination pane_id p acting =>
      answering PlacedAnswer (commit_cross_tab_placement source destination pane_id p acting)
  | RequestStop => answering (fun _ => NoAnswer) (changes request_session_stop)
  | CompleteStop => answering (fun _ => NoAnswer) (changes complete_session_stop)
  | TakeViewChanges => answering ChangesAnswer take_view_changes
  | ReadClientSolve id tab => answering SolveAnswer (compute_client_solve id tab)
  | ReadFloatingSolve id floating => answering SolveAnswer (compute_client_floating_pane_solve id floating)
  | ReadLiftedRect id area_id pane_id => answering LiftedAnswer (find_lifted_floating_pane_rect id area_id pane_id)
  | ReadDockTarget id pane_id => answering TargetAnswer (read_dock_target (fun c => find_nearest_dock_target c pane_id) id)
  | ReadFloatingDockTarget id floating =>
      answering TargetAnswer (read_dock_target (fun c => find_nearest_floating_pane_dock_target c floating) id)
  | CheckConsistency => answering ViolationsAnswer validate_session_consistency
  end.

(** What the server passes: a client that attaches has drawn nothing yet, and
    a tab that is created has an id of its own. *)
Definition step_allowed (s : Session) (step : SessionStep) : Prop :=
  match step with
  | AttachClient c => emptied c = c
  | CommitNewTab new_tab_id _ _ _ _ _ => tabs s !! new_tab_id = None
  | CommitProfileTab tab _ _ _ => tabs s !! tab = None
  | _ => True
  end.

(** The answers of the steps of a run, and the session it ends in. *)
Fixpoint run_steps `{SolveStore} (steps : list SessionStep) (s : Session) : list SessionAnswer * Session :=
  match steps with
  | [] => ([], s)
  | step :: steps =>
      let '(answer, s) := run_step step s in
      let '(answers, s) := run_steps steps s in (answer :: answers, s)
  end.

Fixpoint run_allowed `{SolveStore} (steps : list SessionStep) (s : Session) : Prop :=
  match steps with
  | [] => True
  | step :: steps => step_allowed s step /\ run_allowed steps (run_step step s).2
  end.

(** ** Steps that only change the session *)

Lemma tracks_answering {A} s1 s2 (answer : A -> SessionAnswer) (m m' : session_op A) s :
  tracks_at s2 (fun x => x) s m m' -> s1 = s2 -> tracks_at s1 (fun x => x) s (answering answer m) (answering answer m').
Proof. intros Hm ->. eapply tracks_at_bind; [exact Hm|]. intros x. by apply tracks_ret. Qed.

(** A client that attaches keeps no solve. *)
Lemma current_attach c s : emptied c = c -> current none_stale s -> current none_stale (attach_client c s).2.
Proof.
  intros Hc Hs. unfold attach_client. set (c1 := foldl _ c (floating_set s)).
  assert (emptied c1 = c1) as Hc1.
  { pose proof (foldl_sound (fun f c => add_floating_pane_view f DefaultPosition c) (floating_set s)
      (fun f => add_floating_pane_view_sound f DefaultPosition)) as Hf.
    pose proof (plain_client _ c Hf) as E. rewrite Hc in E. by symmetry. }
  clearbody c1. cbn [registry_attach_client]. apply (untouching_current _ _ _ (untouching_lifecycle ClientAttached)).
  assert (own_active_tab_solve c1 = None) as Ho by (by rewrite <- Hc1).
  assert (forall id w, view_by_floating_pane_id c1 !! id = Some w -> own_solve w = None) as Hw.
  { intros id w H. pose proof (emptied_views c1 id) as E. rewrite Hc1, H in E. cbn in E. injection E as ->. done. }
  destruct Hs as [K A B]. split; [exact K| |].
  - intros id c' Hc' own Hown. unfold find_client, get_client_by_id in *. cbn in Hc'.
    destruct (decide (client_id c1 = id)) as [<-|Hne].
    + rewrite lookup_insert_eq in Hc'. injection Hc' as <-. cbn in Hown. congruence.
    + rewrite lookup_insert_ne in Hc' by done. by apply (A id).
  - intros id c' floating Hc' w own Hw' Hown. unfold find_client, get_client_by_id in *. cbn in Hc'.
    destruct (decide (client_id c1 = id)) as [<-|Hne].
    + rewrite lookup_insert_eq in Hc'. injection Hc' as <-. cbn in Hw'. apply Hw in Hw'. congruence.
    + rewrite lookup_insert_ne in Hc' by done. by apply (B id c' floating).
Qed.

Lemma emptied_attach c s : emptied c = c -> (attach_client c (emptied_session s)).2 = emptied_session (attach_client c s).2.
Proof.
  intros Hc. unfold attach_client. change (floating_set (emptied_session s)) with (floating_set s).
  set (c1 := foldl _ c (floating_set s)).
  assert (emptied c1 = c1) as Hc1.
  { pose proof (foldl_sound (fun f c => add_floating_pane_view f DefaultPosition c) (floating_set s)
      (fun f => add_floating_pane_view_sound f DefaultPosition)) as Hf.
    pose proof (plain_client _ c Hf) as E. rewrite Hc in E. by symmetry. }
  clearbody c1. cbn [registry_attach_client snd].
  rewrite <- (untouching_emptied _ (untouching_lifecycle ClientAttached)). do 2 f_equal.
  unfold emptied_session, change_clients. cbn. do 2 f_equal. rewrite fmap_insert. f_equal.
  exact (f_equal (fun c => c <| is_view_changed := true |>) (eq_sym Hc1)).
Qed.

Lemma tracks_attach c s :
  emptied c = c -> current none_stale s ->
  tracks_at none_stale (fun x => x) s (changes (fun s => (attach_client c s).2)) (changes (fun s => (attach_client c s).2)).
Proof.
  intros Hc Hs. eapply tracks_at_pair; [done| |by apply current_attach]. unfold changes. by rewrite emptied_attach.
Qed.

Lemma tracks_detach id : changes (fun s => (detach_client id s).2) ≈ changes (fun s => (detach_client id s).2).
Proof.
  assert (forall r : ClientRegistry, has_clients (r <| client_by_id := emptied <$> client_by_id r |>) = has_clients r) as Hhas.
  { intros r. unfold has_clients. cbn. f_equal. apply bool_decide_ext. split; [apply fmap_empty_inv|intros ->; apply fmap_empty]. }
  intros s Hs. pose (r := (registry_detach_client id (clients s)).2).
  assert ((registry_detach_client id (clients (emptied_session s))).2 = r <| client_by_id := emptied <$> client_by_id r |>) as Er.
  { subst r. unfold registry_detach_client. cbn. rewrite lookup_fmap. destruct (_ !! id); cbn; [|done]. by rewrite fmap_delete. }
  assert (current none_stale (s <| clients := r |>)) as Hs1.
  { apply (current_clients none_stale s); [done| |done]. intros id' c' H. exists c'. split; [|done]. revert H. subst r.
    unfold find_client, get_client_by_id, registry_detach_client. destruct (client_by_id (clients s) !! id); cbn; [|done].
    by intros [_ ?]%lookup_delete_Some. }
  eapply tracks_at_pair; [done| |].
  - unfold changes, detach_client. cbn. f_equal.
    destruct (registry_detach_client id (clients (emptied_session s))) as [d' r'] eqn:E'. cbn [snd] in Er. cbn in E'. rewrite E'.
    destruct (registry_detach_client id (clients s)) as [d r0] eqn:E. subst r r'. cbn [snd]. rewrite Hhas.
    destruct (negb _); [|done]. by rewrite <- (untouching_emptied _ (untouching_lifecycle LastClientDetached)).
  - unfold detach_client. destruct (registry_detach_client id (clients s)) as [d r0] eqn:E. subst r. cbn [snd] in *.
    destruct (negb _); [|done]. by apply (untouching_current _ _ _ (untouching_lifecycle LastClientDetached)).
Qed.

Lemma tracks_desired_size floating size :
  changes (change_floating_set (fun set => (update_floating_pane_desired_size floating size set).2))
  ≈ changes (change_floating_set (fun set => (update_floating_pane_desired_size floating size set).2)).
Proof.
  intros s Hs. apply (tracks_floating_set none_stale none_stale [] (fun s => s)
    (fun set => (update_floating_pane_desired_size floating size set).2)); [by left|done| |done].
  intros id _ i f Hf. unfold update_floating_pane_desired_size. cbn [snd].
  destruct (decide (floating = id)) as [<-|Hne].
  - rewrite find_update_floating_eq by done. rewrite Hf. by exists i, (f <| desired_size := size |>).
  - exists i, f. split; [|done]. rewrite find_update_floating_ne; [exact Hf|done|done].
Qed.

Lemma tracks_take_view_changes : take_view_changes ≈ take_view_changes.
Proof.
  intros s Hs. unfold take_view_changes, take_changed_client_ids.
  assert (list_attached_clients (clients (emptied_session s)) = emptied <$> list_attached_clients (clients s)) as El by apply emptied_attached.
  assert (List.filter is_view_changed (list_attached_clients (clients (emptied_session s)))
    = emptied <$> List.filter is_view_changed (list_attached_clients (clients s))) as Ef by (rewrite El; by apply filter_emptied).
  destruct (has_client_write (clients s)) eqn:Eh.
  - eapply tracks_at_pair; [cbn; by rewrite Eh| |].
    + cbn. rewrite Eh. cbn in Ef. unfold list_attached_clients in *. cbn in *. rewrite Ef, fmap_emptied by done.
      f_equal. unfold emptied_session, change_clients. cbn. do 2 f_equal.
      rewrite <- !map_fmap_compose. by apply map_fmap_ext.
    + apply (current_clients none_stale s); [by split_and!| |done]. intros id c'. unfold find_client, get_client_by_id. cbn.
      rewrite lookup_fmap. destruct (_ !! id) as [c|]; [|done]. intros [= <-]. exists c. split; [done|].
      split; [by right|intros id' w H _; by exists w].
  - eapply tracks_at_pair; [cbn; by rewrite Eh|cbn; by rewrite Eh|].
    apply (current_clients none_stale s); [by split_and!| |done]. intros id c' H. by exists c'.
Qed.

Lemma tracks_read_target (find find' : Client -> session_op (option TiledPlacementTarget)) id :
  (forall c, find c ≈ find' (emptied c)) ->
  read_dock_target (H := kept_solves) find id ≈ read_dock_target (H := fresh_solves) find' id.
Proof.
  intros Hf. unfold read_dock_target. track1. destruct (find_client s id) as [c|]; cbn [fmap option_fmap option_map]; [apply Hf|track1].
Qed.

(** ** Steps *)

Lemma tracks_step step s :
  current none_stale s -> step_allowed s step ->
  tracks_at none_stale (fun x => x) s (run_step (H := kept_solves) step) (run_step (H := fresh_solves) step).
Proof.
  intros Hs Hok. destruct step; cbn [run_step step_allowed] in *; eapply tracks_answering; try reflexivity;
    first
    [ by apply tracks_attach | by apply tracks_commit_new_tab | by apply tracks_commit_profile_tab
    | by apply tracks_detach | by apply (tracks_update_client none_stale); [apply client_edit_sound|]
    | by apply tracks_update_tab_solve | by apply tracks_update_tab_layout | by apply tracks_update_pane_sizing
    | by apply tracks_update_floating_pane_sizes | by apply tracks_update_floating_pane_layout | by apply tracks_desired_size
    | by apply tracks_close_tab | by apply tracks_focus_tab | by apply tracks_move_tab | by apply tracks_land_focus
    | by apply tracks_commit_new_pane | by apply tracks_commit_new_pane_in_floating_pane | by apply tracks_commit_new_floating_pane
    | by apply tracks_remove_pane_cascade | by apply tracks_apply_child_exit | by apply tracks_remove_pane_from_floating_pane
    | by apply tracks_remove_floating_pane | by apply tracks_commit_undock | by apply tracks_commit_dock
    | by apply tracks_commit_cross_tab | by apply (tracks_untouching none_stale); [apply untouching_lifecycle|]
    | by apply tracks_take_view_changes | by apply (tracks_client_solve none_stale); [intros []|]
    | by apply (tracks_floating_solve none_stale); [intros []|] | by apply tracks_find_lifted_floating_pane_rect
    | by apply tracks_read_target; [intros c; apply tracks_find_nearest_dock_target|]
    | by apply tracks_read_target; [intros c; apply tracks_find_nearest_floating_pane_dock_target|]
    | by apply tracks_validate ].
Qed.

Lemma allowed_emptied s step : step_allowed (emptied_session s) step <-> step_allowed s step.
Proof. by destruct step. Qed.

Lemma tracks_steps steps s :
  current none_stale s -> run_allowed (H := kept_solves) steps s ->
  run_steps (H := fresh_solves) steps (emptied_session s)
    = ((run_steps (H := kept_solves) steps s).1, emptied_session (run_steps (H := kept_solves) steps s).2)
  /\ current none_stale (run_steps (H := kept_solves) steps s).2.
Proof.
  revert s. induction steps as [|step steps IH]; intros s Hs; [done|]. intros [Hok Hrest]. cbn [run_steps run_allowed] in *.
  destruct (tracks_step step s Hs Hok) as [A E C].
  destruct (run_step (H := kept_solves) step s) as [answer s1]. destruct (run_step (H := fresh_solves) step (emptied_session s)) as [answer' s1'].
  cbn [fst snd] in *. subst. destruct (IH s1 C Hrest) as [E' C']. rewrite E'.
  by destruct (run_steps (H := kept_solves) steps s1) as [answers s2].
Qed.

Lemma current_new_session id name created epoch :
  current none_stale (from_identity_and_client_registry id name created empty_client_registry epoch).
Proof.
  split; [intros tab t H|intros i c H|intros i c f H]; exfalso.
  - cbn in H. unfold tabs, from_identity_and_client_registry in H. by rewrite lookup_empty in H.
  - unfold find_client, get_client_by_id in H. cbn in H. by rewrite lookup_empty in H.
  - unfold find_client, get_client_by_id in H. cbn in H. by rewrite lookup_empty in H.
Qed.

(** C1: The solves clients keep are never stale. From a new session, a run of
    any of the operations with the solves the clients keep in their cells gives
    the same answers, and the same session but for those cells, as the run that
    builds every solve when it is asked for; and at its end each cell that
    holds a solve holds the one that would be built now: of the client's active
    tab at its zoom and focus history there, and of a floating pane at the
    client's view of it. *)
Theorem kept_solves_are_never_stale id name created epoch steps :
  let s := from_identity_and_client_registry id name created empty_client_registry epoch in
  run_allowed (H := kept_solves) steps s ->
  let '(answers, s1) := run_steps (H := kept_solves) steps s in
  run_steps (H := fresh_solves) steps s = (answers, emptied_session s1)
  /\ forall id c, find_client s1 id = Some c ->
      (forall own, own_active_tab_solve c = Some own ->
        exists t, tabs s1 !! active_tab_id c = Some t /\ own = build_own_client_solve s1 c t)
      /\ forall floating w own, view_by_floating_pane_id c !! floating = Some w -> own_solve w = Some own ->
        exists i f, find_floating_pane_by_id (floating_set s1) floating = Some (i, f)
          /\ own = build_own_floating_solve s1 f (floating_pane_view w).
Proof.
  intros s Hok. destruct (tracks_steps steps s (current_new_session id name created epoch) Hok) as [E [_ T F]].
  assert (emptied_session s = s) as Hs by done. rewrite Hs in E.
  destruct (run_steps (H := kept_solves) steps s) as [answers s1]. split; [exact E|]. intros i c Hc. split.
  - intros own Hown. destruct (T i c Hc own Hown) as (t & Ht & Hb). exists t. split; [done|]. apply Hb. by intros [].
  - intros floating w own Hw Hown. destruct (F i c floating Hc w own Hw Hown) as (j & f & Hf & Hb). exists j, f.
    split; [done|]. apply Hb. by intros [].
Qed.

(** *** An example run *)

Definition example_client : Client := from_attachment 1 7 0 (MkSize 80 24) None 0 LocalClient "a" 0.

Definition example_spec : NewPaneSpec := MkNewPaneSpec None None.

Definition example_steps : list SessionStep :=
  [AttachClient example_client;
   CommitNewTab 10 100 "one" (Some 1) example_spec (MkSize 80 22);
   CommitNewPane 101 10 (Split (with_equal_weights Horizontal [Pane 100; Pane 101])) (Some 1) example_spec;
   ReadClientSolve 1 10;
   EditClient 1 (ZoomPane 10 100);
   ReadClientSolve 1 10;
   CommitNewFloatingPane 50 102 (MkFloatingPaneSize (Cells 30) (Cells 10)) (MkSize 30 10) (Some (1, DefaultPosition)) example_spec;
   ReadFloatingSolve 1 50;
   RemovePaneCascade 10 100 None;
   ReadClientSolve 1 10;
   CheckConsistency].

Definition example_session : Session := from_identity_and_client_registry 7 "s" 0 empty_client_registry 0.

(** The answers to the reads of the example: the two panes side by side, the
    zoomed one alone, and the one left. *)
Example example_run_reads :
  (fun a => match a with SolveAnswer v => pane_rects <$> v | _ => None end)
    <$> (run_steps (H := kept_solves) example_steps example_session).1
  = [None; None; None; Some [(100, MkRect (MkPoint 0 0) (MkSize 40 22)); (101, MkRect (MkPoint 40 0) (MkSize 40 22))]; None;
     Some [(100, MkRect (MkPoint 0 0) (MkSize 80 22)); (101, MkRect (MkPoint 0 0) (MkSize 0 0))]; None;
     Some [(102, MkRect (MkPoint 0 0) (MkSize 30 9))]; None; Some [(101, MkRect (MkPoint 0 0) (MkSize 80 22))]; None].
Proof. vm_compute. reflexivity. Qed.

(** The session the example ends in breaks no condition. *)
Example example_run_is_consistent :
  last (run_steps (H := kept_solves) example_steps example_session).1 = Some (ViolationsAnswer []).
Proof. vm_compute. reflexivity. Qed.

Lemma kept_solves_are_never_stale_witness :
  run_allowed (H := kept_solves) example_steps example_session
  /\ (run_steps (H := fresh_solves) example_steps example_session).1
     = (run_steps (H := kept_solves) example_steps example_session).1.
Proof.
  assert (run_allowed (H := kept_solves) example_steps example_session) as Hok by (vm_compute; repeat split; reflexivity).
  split; [exact Hok|]. generalize (kept_solves_are_never_stale 7 "s" 0 0 example_steps Hok). cbv zeta. fold example_session.
  destruct (run_steps (H := kept_solves) example_steps example_session) as [answers s1]. intros [E _]. rewrite E. reflexivity.
Defined.
