(* ===== verification/SessionInvariant.v ===== *)
(** * What every run of a session keeps

    Conditions between the stores of a session that no operation breaks: every
    kept solve of a tab and a floating pane is the solve of its tree at its
    size, every client has one view of every floating pane and lists as shown
    exactly those it has not minimized, and the tabs stand at the positions
    0, 1, 2, ... of the bar. *)

From stdpp Require Import gmap strings sorting options.
From S2P Require Import Prelude Geometry Size Tree Solver Neighbor Edit Placement Destinations Records Notifications SessionData.
From S2P Require Import LayoutAreas Client SessionState SessionFocus SessionTabs SessionPlacement SessionCheck ClientCells SessionCells.
From S2P Require Import SessionKept SessionCheckFacts SessionContract.
#[local] Open Scope N_scope.

(** ** One client *)

Record client_whole (c : Client) : Prop := MkClientWhole
  { whole_shown id :
      id ∈ shown_floating_pane_ids c <-> is_minimized <$> get_floating_pane_view c id = Some false;
    whole_once : NoDup (shown_floating_pane_ids c);
    whole_focus : focused_floating_pane_id c = last (shown_floating_pane_ids c) }.

(** The same floating panes shown, and the same ones viewed. *)
Record same_shown (c c' : Client) : Prop := MkSameShown
  { same_client : client_id c' = client_id c;
    same_minimized id : is_minimized <$> get_floating_pane_view c' id = is_minimized <$> get_floating_pane_view c id;
    same_list : shown_floating_pane_ids c' = shown_floating_pane_ids c;
    same_focus : focused_floating_pane_id c' = focused_floating_pane_id c }.

#[export] Instance same_shown_refl : Reflexive same_shown.
Proof. done. Qed.

#[export] Instance same_shown_trans : Transitive same_shown.
Proof. intros c1 c2 c3 [I M L F] [I' M' L' F']. split; [congruence| |congruence..]. intros id. by rewrite M', M. Qed.

(** A change of a client that keeps its id, its wholeness and which floating
    panes it has views of. *)
Record faithful (f : Client -> Client) : Prop := MkFaithful
  { faithful_id c : client_id (f c) = client_id c;
    faithful_views c id : is_Some (get_floating_pane_view (f c) id) <-> is_Some (get_floating_pane_view c id);
    faithful_whole c : client_whole c -> client_whole (f c) }.

Lemma same_shown_whole c c' : same_shown c c' -> client_whole c -> client_whole c'.
Proof. intros [I M L F] [S N W]. split; rewrite ?L, ?F; [|done..]. intros id. by rewrite S, M. Qed.

Lemma faithful_same f : (forall c, same_shown c (f c)) -> faithful f.
Proof.
  intros Hf. split; intros c.
  - apply Hf.
  - intros id. pose proof (same_minimized _ _ (Hf c) id) as E. rewrite <- !(fmap_is_Some is_minimized). by rewrite E.
  - by apply same_shown_whole.
Qed.

Lemma faithful_then f g : faithful f -> faithful g -> faithful (fun c => g (f c)).
Proof.
  intros [I V W] [I' V' W']. split; intros c; [by rewrite I', I|intros id; by rewrite V', V|auto].
Qed.

Lemma faithful_ext f g : (forall c, g c = f c) -> faithful f -> faithful g.
Proof. intros E [I V W]. split; intros c; rewrite E; auto. Qed.

Lemma faithful_when {B} (r : Client -> B) (f : B -> Client -> Client) : (forall b, faithful (f b)) -> faithful (fun c => f (r c) c).
Proof. intros Hf. split; intros c; apply Hf. Qed.

Lemma get_view_set id v b c id' :
  get_floating_pane_view (set_floating_pane_view id v b c) id' =
    if decide (id = id') then (fun _ => v) <$> get_floating_pane_view c id' else get_floating_pane_view c id'.
Proof.
  unfold set_floating_pane_view, get_floating_pane_view.
  destruct (view_by_floating_pane_id c !! id) as [w|] eqn:E; cbn; case_decide as Hd.
  - subst id'. by rewrite lookup_insert_eq, E.
  - by rewrite lookup_insert_ne.
  - subst id'. by rewrite E.
  - done.
Qed.

Lemma set_view_fields id v b c : client_id (set_floating_pane_view id v b c) = client_id c
  /\ shown_floating_pane_ids (set_floating_pane_view id v b c) = shown_floating_pane_ids c
  /\ focused_floating_pane_id (set_floating_pane_view id v b c) = focused_floating_pane_id c.
Proof. unfold set_floating_pane_view. by destruct (_ !! id). Qed.

Lemma set_view_same id v v0 b c :
  get_floating_pane_view c id = Some v0 -> is_minimized v = is_minimized v0 -> same_shown c (set_floating_pane_view id v b c).
Proof.
  intros Hv Hm. destruct (set_view_fields id v b c) as (I & L & F). split; [done| |done..]. intros id'. rewrite get_view_set.
  case_decide; [|done]. subst id'. rewrite Hv. cbn. by rewrite Hm.
Qed.

Lemma note_same b c : same_shown c (note_view_change b c).
Proof. done. Qed.

Create HintDb faithful.

(** A change of the fields that say nothing of floating panes. *)
Ltac unshown := apply faithful_same; intros ?; reflexivity || done.

Lemma faithful_zoom_pane tab pane_id : faithful (zoom_pane tab pane_id).
Proof. unshown. Qed.
Lemma faithful_clear_zoom tab : faithful (clear_zoom tab).
Proof. unshown. Qed.
Lemma faithful_active_tab tab : faithful (update_active_tab_id tab).
Proof. unshown. Qed.
Lemma faithful_clear_history tab : faithful (clear_focus_history tab).
Proof. unshown. Qed.
Lemma faithful_note b : faithful (note_view_change b).
Proof. unshown. Qed.
Lemma faithful_clear_own_tab : faithful clear_own_active_tab_solve.
Proof. unshown. Qed.
Lemma faithful_same_client : faithful (fun c => c).
Proof. unshown. Qed.

Lemma update_focused_pane_same tab pane_id c : same_shown c (update_focused_pane tab pane_id c).2.
Proof. unfold update_focused_pane. by destruct (get_zoomed_pane_id c tab). Qed.

Lemma faithful_focused_pane tab pane_id : faithful (fun c => (update_focused_pane tab pane_id c).2).
Proof. apply faithful_same. intros c. apply update_focused_pane_same. Qed.

Lemma faithful_remove_history tab pane_id : faithful (remove_pane_from_focus_history tab pane_id).
Proof. apply faithful_same. intros c. unfold remove_pane_from_focus_history. by destruct (_ !! tab). Qed.

Lemma faithful_insert_history tab i pane_ids : faithful (insert_panes_into_focus_history tab i pane_ids).
Proof. apply faithful_same. intros c. unfold insert_panes_into_focus_history. by case_bool_decide. Qed.

(** *** Views changed without minimizing *)

Lemma faithful_view id (f : Client -> Client) :
  (forall c v, get_floating_pane_view c id = Some v -> same_shown c (f c)) ->
  (forall c, get_floating_pane_view c id = None -> f c = c) -> faithful f.
Proof.
  intros Hs Hn. apply faithful_same. intros c. destruct (get_floating_pane_view c id) as [v|] eqn:E; [by eapply Hs|by rewrite Hn].
Qed.

Ltac one_view id :=
  apply (faithful_view id); [intros c v E|intros c E];
  [|by match goal with H : get_floating_pane_view _ id = None |- _ => rewrite H end].

Lemma clear_floating_pane_zoom_same id c : same_shown c (clear_floating_pane_zoom id c).
Proof.
  unfold clear_floating_pane_zoom. destruct (get_floating_pane_view c id) as [v|] eqn:E; [|done].
  destruct (zoomed_pane_id v); [|done]. etransitivity; [by apply (set_view_same id (v <| zoomed_pane_id := None |>) v true c E)|done].
Qed.

Lemma faithful_clear_floating_zoom id : faithful (clear_floating_pane_zoom id).
Proof. apply faithful_same, clear_floating_pane_zoom_same. Qed.

Lemma faithful_clear_zoom_of_pane pane_id : faithful (clear_zoom_of_pane pane_id).
Proof.
  apply faithful_same. intros c. unfold clear_zoom_of_pane. set (ids := btree_keys _).
  match goal with |- same_shown _ (foldl _ ?c0 _) => assert (same_shown c c0) as H0 by done; revert H0; generalize c0 end.
  clearbody ids. induction ids as [|id ids IH]; intros c0 H0; [done|]. cbn [foldl]. apply IH.
  etransitivity; [exact H0|apply clear_floating_pane_zoom_same].
Qed.

Lemma faithful_clear_own_floating id : faithful (clear_own_floating_pane_solve id).
Proof.
  unfold clear_own_floating_pane_solve. one_view id. rewrite E. by apply (set_view_same id v v).
Qed.

Lemma floating_focused_same id pane_id c : same_shown c (update_floating_pane_focused_pane id pane_id c).
Proof.
  unfold update_floating_pane_focused_pane. destruct (get_floating_pane_view c id) as [v|] eqn:E; [|done].
  case_bool_decide; [done|]. etransitivity; [|apply note_same]; by apply (set_view_same _ _ _ _ _ E).
Qed.

Lemma faithful_floating_focused id pane_id : faithful (update_floating_pane_focused_pane id pane_id).
Proof. apply faithful_same, floating_focused_same. Qed.

Lemma faithful_remove_floating_history id pane_id : faithful (remove_pane_from_floating_pane_focus_history id pane_id).
Proof.
  unfold remove_pane_from_floating_pane_focus_history. one_view id. rewrite E. destruct (_ =? _)%nat.
  - by apply (set_view_same _ _ _ _ _ E).
  - etransitivity; [|apply note_same]; by apply (set_view_same _ _ _ _ _ E).
Qed.

Lemma faithful_zoom_floating id pane_id : faithful (zoom_pane_in_floating_pane id pane_id).
Proof. unfold zoom_pane_in_floating_pane. one_view id. rewrite E. etransitivity; [|apply note_same]; by apply (set_view_same _ _ _ _ _ E). Qed.

Lemma faithful_position id p : faithful (update_floating_pane_position id p).
Proof. unfold update_floating_pane_position. one_view id. rewrite E. etransitivity; [|apply note_same]; by apply (set_view_same _ _ _ _ _ E). Qed.

Lemma faithful_pin id cell : faithful (pin_floating_pane id cell).
Proof. apply faithful_position. Qed.

Lemma faithful_unpin id : faithful (unpin_floating_pane id).
Proof.
  apply (faithful_when (fun c => position <$> get_floating_pane_view c id) (fun p c =>
    match p with Some (Pinned cell) => update_floating_pane_position id (Moved cell) c | _ => c end)).
  intros [[]|]; first [apply faithful_same_client|apply faithful_position].
Qed.

Lemma faithful_set_position id cell : faithful (fun c => (set_floating_pane_position id cell c).2).
Proof.
  eapply faithful_ext; [|apply (faithful_when (fun c => position <$> get_floating_pane_view c id) (fun p c =>
    match p with None | Some (Pinned _) => c | _ => update_floating_pane_position id (Moved cell) c end))].
  - intros c. unfold set_floating_pane_position. by destruct (position <$> get_floating_pane_view c id) as [[]|].
  - intros [[]|]; first [apply faithful_same_client|apply faithful_position].
Qed.

(** *** Floating panes shown and minimized *)

Lemma elem_of_without x y l : y ∈ without x l <-> y ∈ l /\ y <> x.
Proof. unfold without. rewrite list_elem_of_In, List.filter_In, negb_true_iff, N.eqb_neq, <- list_elem_of_In. done. Qed.

Lemma NoDup_without x l : NoDup l -> NoDup (without x l).
Proof. rewrite !NoDup_ListNoDup. apply List.NoDup_filter. Qed.

Lemma last_without x l : last l <> Some x -> last (without x l) = last l.
Proof.
  destruct l as [|y l _] using rev_ind; [done|]. rewrite last_snoc. intros Hne. unfold without. rewrite List.filter_app. cbn [List.filter].
  destruct (N.eqb_spec y x) as [->|]; [done|]. cbn [negb]. by rewrite last_snoc.
Qed.

Lemma remove_shown_whole id c :
  (forall id', id' <> id -> id' ∈ shown_floating_pane_ids c <-> is_minimized <$> get_floating_pane_view c id' = Some false) ->
  is_minimized <$> get_floating_pane_view c id <> Some false ->
  NoDup (shown_floating_pane_ids c) -> focused_floating_pane_id c = last (shown_floating_pane_ids c) ->
  client_whole (remove_shown_floating_pane id c).
Proof.
  intros Hs Hid Hn Hf. unfold remove_shown_floating_pane. set (c1 := note_view_change _ _).
  assert (forall c2, (forall i, get_floating_pane_view c2 i = get_floating_pane_view c i) ->
    shown_floating_pane_ids c2 = without id (shown_floating_pane_ids c) ->
    focused_floating_pane_id c2 = last (shown_floating_pane_ids c2) -> client_whole c2) as Hw.
  { intros c2 V L F. split; [|rewrite L; by apply NoDup_without|done]. intros i. rewrite L, V, elem_of_without.
    destruct (decide (i = id)) as [->|Hne]; [naive_solver|]. rewrite (Hs i Hne). naive_solver. }
  case_bool_decide as E; apply Hw; [done..|].
  cbn in E |- *. rewrite last_without; [done|]. by rewrite <- Hf.
Qed.

Lemma remove_shown_views id c i : get_floating_pane_view (remove_shown_floating_pane id c) i = get_floating_pane_view c i.
Proof. unfold remove_shown_floating_pane. by case_bool_decide. Qed.

Lemma remove_shown_id id c : client_id (remove_shown_floating_pane id c) = client_id c.
Proof. unfold remove_shown_floating_pane. by case_bool_decide. Qed.

Lemma faithful_minimize id : faithful (fun c => (minimize_floating_pane id c).2).
Proof.
  split; intros c; unfold minimize_floating_pane; destruct (get_floating_pane_view c id) as [v|] eqn:E;
    try done; destruct (is_minimized v) eqn:Em; try done; cbn [snd].
  - rewrite remove_shown_id. apply set_view_fields.
  - intros i. rewrite remove_shown_views, get_view_set. case_decide; [|done]. by rewrite fmap_is_Some.
  - intros [S N F]. destruct (set_view_fields id (v <| is_minimized := true |>) false c) as (I & L & G).
    apply remove_shown_whole; rewrite ?L, ?G; [| |done..].
    + intros i Hne. by rewrite get_view_set, decide_False.
    + rewrite get_view_set, decide_True, E by done. done.
Qed.

Lemma faithful_focus_floating id : faithful (fun c => (focus_floating_pane id c).2).
Proof.
  split; intros c; unfold focus_floating_pane; destruct (get_floating_pane_view c id) as [v|] eqn:E; try done; cbn [snd].
  - apply (set_view_fields id _ _ c).
  - intros i. change (get_floating_pane_view (note_view_change ?b (?c0 <| shown_floating_pane_ids := ?l |> <| focused_floating_pane_id := ?f |>)) i)
      with (get_floating_pane_view c0 i). rewrite get_view_set. case_decide; [|done]. by rewrite fmap_is_Some.
  - intros [S N F]. destruct (set_view_fields id (v <| is_minimized := false |>) false c) as (I & L & G). rewrite L. split; cbn.
    + intros i. change (get_floating_pane_view (?c0 <| shown_floating_pane_ids := ?l |> <| focused_floating_pane_id := ?f |>) i)
        with (get_floating_pane_view c0 i).
      rewrite elem_of_app, elem_of_without, list_elem_of_singleton, S. unfold get_floating_pane_view at 2. cbn.
      change (floating_pane_view <$> view_by_floating_pane_id ?c0 !! i) with (get_floating_pane_view c0 i). rewrite get_view_set.
      destruct (decide (id = i)) as [->|Hne]; [rewrite E; cbn; naive_solver|naive_solver].
    + apply NoDup_app. split_and!; [by apply NoDup_without| |apply NoDup_singleton]. intros i [_ Hne]%elem_of_without. set_solver.
    + by rewrite last_snoc.
Qed.

Lemma minimize_views_fields ids c : client_id (minimize_views ids c) = client_id c
  /\ shown_floating_pane_ids (minimize_views ids c) = shown_floating_pane_ids c
  /\ focused_floating_pane_id (minimize_views ids c) = focused_floating_pane_id c.
Proof.
  unfold minimize_views. revert c. induction ids as [|id ids IH]; intros c; [done|]. cbn [foldl].
  match goal with |- context [foldl _ ?c0 _] => destruct (IH c0) as (-> & -> & ->) end.
  destruct (get_floating_pane_view c id) as [v|]; [apply set_view_fields|done].
Qed.

Lemma minimize_views_view ids c i :
  is_minimized <$> get_floating_pane_view (minimize_views ids c) i =
    (if decide (i ∈ ids) then (fun _ => true) else is_minimized) <$> get_floating_pane_view c i.
Proof.
  unfold minimize_views. revert c. induction ids as [|id ids IH]; intros c; [done|]. cbn [foldl]. rewrite IH.
  destruct (get_floating_pane_view c id) as [v|] eqn:E.
  - rewrite get_view_set. destruct (decide (id = i)) as [->|Hne].
    + rewrite (decide_True (P := i ∈ i :: ids)) by (by left). rewrite E. cbn. by case_decide.
    + assert (i ∈ id :: ids <-> i ∈ ids) as Hi by set_solver. rewrite (decide_ext _ _ _ _ Hi). done.
  - destruct (decide (id = i)) as [->|Hne]; [by rewrite E|].
    assert (i ∈ id :: ids <-> i ∈ ids) as Hi by set_solver. by rewrite (decide_ext _ _ _ _ Hi).
Qed.

Lemma faithful_minimize_shown : faithful (fun c => (minimize_shown_floating_panes c).2).
Proof.
  split; intros c; cbn [minimize_shown_floating_panes snd];
    set (c0 := minimize_views (shown_floating_pane_ids c) (c <| shown_floating_pane_ids := [] |>)).
  - exact (proj1 (minimize_views_fields (shown_floating_pane_ids c) (c <| shown_floating_pane_ids := [] |>))).
  - intros i. change (get_floating_pane_view (note_view_change _ _) i) with (get_floating_pane_view c0 i).
    rewrite <- (fmap_is_Some is_minimized). subst c0. rewrite minimize_views_view, fmap_is_Some. done.
  - intros [S N F].
    assert (shown_floating_pane_ids c0 = []) as L
      by exact (proj1 (proj2 (minimize_views_fields (shown_floating_pane_ids c) (c <| shown_floating_pane_ids := [] |>)))).
    split; [intros i|..]; change (shown_floating_pane_ids (note_view_change _ _)) with (shown_floating_pane_ids c0); rewrite L;
      [|constructor|done].
    change (get_floating_pane_view (note_view_change _ _) i) with (get_floating_pane_view c0 i). subst c0. rewrite minimize_views_view.
    change (get_floating_pane_view (c <| shown_floating_pane_ids := [] |>) i) with (get_floating_pane_view c i).
    case_decide as Hi; [destruct (get_floating_pane_view c i); cbn; set_solver|]. rewrite <- S. set_solver.
Qed.

Lemma faithful_focus_tiled tab pane_id : faithful (fun c => (focus_tiled_pane tab pane_id c).2).
Proof.
  eapply faithful_ext; [|apply (faithful_when (fun c => tab =? active_tab_id c) (fun b c =>
    (update_focused_pane tab pane_id (if b then (minimize_shown_floating_panes c).2 else c)).2))].
  - intros c. unfold focus_tiled_pane. destruct (tab =? active_tab_id c).
    + destruct (minimize_shown_floating_panes c) as [m c1]. cbn. by destruct (update_focused_pane tab pane_id c1).
    + by destruct (update_focused_pane tab pane_id c).
  - intros [].
    + apply (faithful_then (fun c => (minimize_shown_floating_panes c).2) (fun c => (update_focused_pane tab pane_id c).2));
        [apply faithful_minimize_shown|apply faithful_focused_pane].
    + apply faithful_focused_pane.
Qed.

Lemma faithful_apply_tiled set tab pane_id : faithful (fun c => (apply_tiled_pane_focus set tab pane_id c).2).
Proof.
  eapply faithful_ext; [|apply (faithful_focus_tiled tab pane_id)]. intros c. unfold apply_tiled_pane_focus.
  by destruct (focus_tiled_pane tab pane_id c).
Qed.

Lemma faithful_apply_floating set id pane_id : faithful (fun c => (apply_floating_pane_focus set id pane_id c).2).
Proof.
  eapply faithful_ext; [|apply (faithful_then _ _ (faithful_focus_floating id) (faithful_floating_focused id pane_id))].
  intros c. unfold apply_floating_pane_focus. by destruct (focus_floating_pane id c).
Qed.

#[export] Hint Resolve faithful_zoom_pane faithful_clear_zoom faithful_active_tab faithful_clear_history faithful_note
  faithful_clear_own_tab faithful_same_client faithful_focused_pane faithful_remove_history faithful_insert_history
  faithful_clear_floating_zoom faithful_clear_zoom_of_pane faithful_clear_own_floating faithful_floating_focused
  faithful_remove_floating_history faithful_zoom_floating faithful_pin faithful_unpin faithful_set_position faithful_minimize
  faithful_focus_floating faithful_minimize_shown faithful_focus_tiled faithful_apply_tiled faithful_apply_floating : faithful.

(** *** Views added, removed and restored *)

Lemma add_view_dom f p c i :
  is_Some (get_floating_pane_view (add_floating_pane_view f p c) i) <-> i = floating_pane_id f \/ is_Some (get_floating_pane_view c i).
Proof.
  unfold add_floating_pane_view, get_floating_pane_view. destruct (view_by_floating_pane_id c !! floating_pane_id f) as [w|] eqn:E.
  - split; [by right|]. intros [->|H]; [|done]. by rewrite E.
  - cbn. destruct (decide (floating_pane_id f = i)) as [<-|Hne].
    + rewrite lookup_insert_eq. cbn. naive_solver.
    + rewrite lookup_insert_ne by done. naive_solver.
Qed.

Lemma add_view_whole f p c : client_whole c -> client_whole (add_floating_pane_view f p c).
Proof.
  intros [S N F]. unfold add_floating_pane_view. destruct (view_by_floating_pane_id c !! floating_pane_id f) as [w|] eqn:E; [done|].
  split; [|done..]. intros i. cbn [shown_floating_pane_ids]. rewrite S. unfold get_floating_pane_view. cbn.
  destruct (decide (floating_pane_id f = i)) as [<-|Hne]; [by rewrite lookup_insert_eq, E|by rewrite lookup_insert_ne].
Qed.

Lemma add_view_id f p c : client_id (add_floating_pane_view f p c) = client_id c.
Proof. unfold add_floating_pane_view. by destruct (_ !! _). Qed.

Lemma remove_view_dom id c i :
  is_Some (get_floating_pane_view (remove_floating_pane_view id c) i) <-> i <> id /\ is_Some (get_floating_pane_view c i).
Proof.
  unfold remove_floating_pane_view. rewrite remove_shown_views. unfold get_floating_pane_view. cbn.
  destruct (decide (id = i)) as [<-|Hne].
  - rewrite lookup_delete_eq. cbn. unfold is_Some. naive_solver.
  - rewrite lookup_delete_ne by done. naive_solver.
Qed.

Lemma remove_view_whole id c : client_whole c -> client_whole (remove_floating_pane_view id c).
Proof.
  intros [S N F]. unfold remove_floating_pane_view. apply remove_shown_whole; [| |done..].
  - intros i Hne. cbn [shown_floating_pane_ids]. rewrite S. unfold get_floating_pane_view. cbn. by rewrite lookup_delete_ne.
  - unfold get_floating_pane_view. cbn. by rewrite lookup_delete_eq.
Qed.

Lemma remove_view_id id c : client_id (remove_floating_pane_view id c) = client_id c.
Proof. unfold remove_floating_pane_view. by rewrite remove_shown_id. Qed.

(** The views built from saved ones, as lookups. *)
Lemma restored_views (saved : gmap FloatingPaneId FloatingPaneView) shown (set : FloatingSet)
    (m : gmap FloatingPaneId FloatingPaneViewWithOwnSolve) i :
  (forall v, m !! i = Some v -> is_minimized (floating_pane_view v) = negb (bool_decide (i ∈ shown))) ->
  let views := foldl (fun m f =>
    <[floating_pane_id f := restore_floating_view (saved !! floating_pane_id f) shown f]> m) m set in
  (is_Some (views !! i) <-> is_Some (m !! i) \/ i ∈ floating_pane_id <$> set)
  /\ forall v, views !! i = Some v -> is_minimized (floating_pane_view v) = negb (bool_decide (i ∈ shown)).
Proof.
  revert m. induction set as [|f set IH]; intros m Hm; cbn [foldl fmap list_fmap]; [set_solver|].
  match goal with |- context [foldl ?g ?m1 set] => destruct (IH m1) as [D V] end.
  - intros v. destruct (decide (floating_pane_id f = i)) as [<-|Hne].
    + rewrite lookup_insert_eq. by intros [= <-].
    + rewrite lookup_insert_ne by done. apply Hm.
  - split; [|exact V]. rewrite D, elem_of_cons. destruct (decide (floating_pane_id f = i)) as [<-|Hne].
    + rewrite lookup_insert_eq. naive_solver.
    + rewrite lookup_insert_ne by done. naive_solver.
Qed.

Lemma replace_view_whole saved shown set c :
  NoDup shown -> client_whole (replace_floating_view saved shown set c)
    /\ client_id (replace_floating_view saved shown set c) = client_id c
    /\ forall i, is_Some (get_floating_pane_view (replace_floating_view saved shown set c) i) <-> i ∈ floating_pane_id <$> set.
Proof.
  intros Hn. unfold replace_floating_view. set (kept := List.filter _ shown).
  set (views := foldl _ _ set).
  assert (forall i, get_floating_pane_view (note_view_change
    (negb (bool_decide (kept = shown_floating_pane_ids c)) || negb (bool_decide (last kept = focused_floating_pane_id c))
     || existsb (fun id => negb (bool_decide (floating_pane_view <$> views !! id = get_floating_pane_view c id))) kept)
    (c <| view_by_floating_pane_id := views |> <| shown_floating_pane_ids := kept |> <| focused_floating_pane_id := last kept |>)) i
    = floating_pane_view <$> views !! i) as V by done.
  assert (forall i, (is_Some (views !! i) <-> i ∈ floating_pane_id <$> set)
    /\ forall v, views !! i = Some v -> is_minimized (floating_pane_view v) = negb (bool_decide (i ∈ kept))) as R.
  { intros i. destruct (restored_views saved kept set ∅ i) as [D M]; [by intros v; rewrite lookup_empty|]. split; [|exact M].
    fold views in D. rewrite D, lookup_empty. unfold is_Some. naive_solver. }
  split; [|split; [done|]].
  - split; [|cbn; subst kept; rewrite NoDup_ListNoDup in *; by apply List.NoDup_filter|done].
    intros i. rewrite V. change (shown_floating_pane_ids (note_view_change _ _)) with kept. destruct (R i) as [D M].
    split.
    + intros Hi. assert (is_Some (views !! i)) as [v Hv].
      { apply D. subst kept. apply list_elem_of_In, List.filter_In in Hi as [_ [Hf _]%andb_true_iff].
        apply bool_decide_eq_true in Hf as [[j f] Hf]. apply list_elem_of_fmap. apply list_find_Some in Hf as (Hj & <- & _).
        exists f. split; [done|]. by eapply list_elem_of_lookup_2. }
      rewrite Hv. cbn. f_equal. rewrite (M v Hv). by rewrite bool_decide_true.
    + destruct (views !! i) as [v|] eqn:Hv; [|done]. cbn. intros [= Hm]. rewrite (M v eq_refl) in Hm.
      by apply negb_false_iff, bool_decide_eq_true in Hm.
  - intros i. rewrite V, fmap_is_Some. apply R.
Qed.

Definition keeps_views (e : ClientEdit) : bool :=
  match e with AddFloatingPaneView _ _ | RemoveFloatingPaneView _ | ReplaceFloatingView _ _ _ => false | _ => true end.

Lemma faithful_edit e : keeps_views e = true -> faithful (client_edit e).
Proof.
  destruct e; cbn [keeps_views client_edit]; try done; intros _;
    first [by eauto with faithful|apply faithful_same; intros c; reflexivity || done].
Qed.

(** ** The session *)

(** The tabs at the positions of the bar. *)
Definition display (s : Session) (ids : list TabId) : Prop :=
  forall i k, ids !! i = Some k <-> exists t, tabs s !! k = Some t /\ tab_index t = i.

(** What an operation may leave broken for a while: the solves of some tabs,
    those of the floating panes, and the positions of the tabs; and what it knows
    of the session: its sizing, and ids that no floating pane has. *)
Record Lapse := MkLapse
  { lapsed_tab : TabId -> Prop; lapsed_floating : FloatingPaneId -> Prop; lapsed_display : Prop; known_sizing : option PaneSizing;
    unused_floating : FloatingPaneId -> Prop }.

Definition no_lapse : Lapse := MkLapse (fun _ => False) (fun _ => False) False None (fun _ => False).

Record whole (l : Lapse) (s : Session) : Prop := MkWhole
  { whole_tab k t : tabs s !! k = Some t ->
      tab_id t = k /\ (~ lapsed_tab l k -> tab_solve t = compute_layout_solve (tab_area t) (pane_sizing s));
    whole_display : ~ lapsed_display l -> exists ids, display s ids;
    whole_sizing sizing : known_sizing l = Some sizing -> pane_sizing s = sizing;
    whole_floating f : f ∈ floating_set s ->
      solved_size (floating_area f) = compute_floating_layout_size (floating_solved_size f)
      /\ (~ lapsed_floating l (floating_pane_id f) -> floating_solve f = compute_layout_solve (floating_area f) (pane_sizing s));
    whole_unused id : unused_floating l id -> id ∉ floating_pane_id <$> floating_set s;
    whole_ids : NoDup (floating_pane_id <$> floating_set s);
    whole_count : (length (floating_set s) <= MAX_FLOATING_PANES_PER_SESSION)%nat;
    whole_client id c : find_client s id = Some c ->
      client_id c = id /\ client_whole c
      /\ forall i, is_Some (get_floating_pane_view c i) <-> i ∈ floating_pane_id <$> floating_set s }.

(** A change of nothing the conditions speak of. *)
Record quiet (f : Session -> Session) : Prop := MkQuiet
  { quiet_sizing s : pane_sizing (f s) = pane_sizing s;
    quiet_set s : floating_set (f s) = floating_set s;
    quiet_clients s : clients (f s) = clients s;
    quiet_tabs s k : (fun t => (tab_id t, tab_index t, tab_area t)) <$> tabs (f s) !! k
      = (fun t => (tab_id t, tab_index t, tab_area t)) <$> tabs s !! k }.

Lemma display_same s s' ids :
  (forall k, tab_index <$> tabs s' !! k = tab_index <$> tabs s !! k) -> display s ids -> display s' ids.
Proof.
  intros Ht Hd i k. unfold display in Hd. rewrite Hd. specialize (Ht k). destruct (tabs s !! k) as [t|], (tabs s' !! k) as [t'|]; naive_solver.
Qed.

(** The same floating panes, tabs at the same places with solves as sound as
    before, and clients that stay whole. *)
Lemma whole_step l l' s s' :
  whole l s ->
  (forall k t', tabs s' !! k = Some t' -> tab_id t' = k /\ (~ lapsed_tab l' k ->
    tab_solve t' = compute_layout_solve (tab_area t') (pane_sizing s'))) ->
  (forall k, tab_index <$> tabs s' !! k = tab_index <$> tabs s !! k) -> (lapsed_display l -> lapsed_display l') ->
  (forall sizing, known_sizing l' = Some sizing -> pane_sizing s' = sizing) ->
  floating_pane_id <$> floating_set s' = floating_pane_id <$> floating_set s ->
  (forall i, unused_floating l' i -> unused_floating l i) ->
  (forall f, f ∈ floating_set s' ->
    solved_size (floating_area f) = compute_floating_layout_size (floating_solved_size f)
    /\ (~ lapsed_floating l' (floating_pane_id f) -> floating_solve f = compute_layout_solve (floating_area f) (pane_sizing s'))) ->
  (forall id c', find_client s' id = Some c' -> exists f c, find_client s id = Some c /\ c' = f c /\ faithful f) ->
  whole l' s'.
Proof.
  intros [T D Z F U N C W] HT Hi Hl HZ Hids HU HF HW. split; [exact HT| |exact HZ|exact HF|rewrite Hids; auto|by rewrite Hids| |].
  - intros Hn. destruct D as [ids Hids']; [tauto|]. exists ids. by eapply display_same.
  - pose proof (f_equal length Hids) as E. rewrite !length_fmap in E. by rewrite E.
  - intros id c' (f & c & Hc & -> & Hf)%HW. destruct (W id c Hc) as (E & Hw & V). split_and!.
    + by rewrite (faithful_id _ Hf).
    + by apply (faithful_whole _ Hf).
    + intros i. rewrite (faithful_views _ Hf), Hids. apply V.
Qed.

Lemma whole_quiet l f s : quiet f -> whole l s -> whole l (f s).
Proof.
  intros [Z S C T] Hs. apply (whole_step l l s); [done| |intros k|done|intros z; rewrite Z; apply (whole_sizing _ _ Hs)|by rewrite S|done| |].
  - intros k t' Ht'. specialize (T s k). rewrite Ht' in T. destruct (tabs s !! k) as [t|] eqn:E; [|done].
    injection T as T1 _ T3. destruct (whole_tab _ _ Hs k t E) as [Hk Hsolve]. unfold tab_solve in *. by rewrite T1, T3, Z.
  - specialize (T s k). destruct (tabs (f s) !! k), (tabs s !! k); cbn in *; congruence.
  - intros g. rewrite S, Z. apply (whole_floating _ _ Hs).
  - intros id c. unfold find_client. rewrite C. intros Hc. exists (fun c => c), c. split_and!; [done..|apply faithful_same_client].
Qed.

(** Changes of the clients alone. *)
Lemma whole_clients l s r :
  (forall id c', client_by_id r !! id = Some c' -> exists f c, find_client s id = Some c /\ c' = f c /\ faithful f) ->
  whole l s -> whole l (s <| clients := r |>).
Proof. intros Hr Hs. apply (whole_step l l s); [done|apply (whole_tab _ _ Hs)|done|done|apply (whole_sizing _ _ Hs)|done|done|apply (whole_floating _ _ Hs)|exact Hr]. Qed.

Lemma whole_update_client l id f s : faithful f -> whole l s -> whole l (change_clients (update_client id f) s).
Proof.
  intros Hf. apply whole_clients. intros i c'. unfold find_client, get_client_by_id. cbn.
  destruct (decide (id = i)) as [<-|Hne].
  - rewrite lookup_alter_eq. destruct (_ !! id) as [c|]; [|done]. cbn. intros [= <-]. by exists f, c.
  - rewrite lookup_alter_ne by done. intros ->. exists (fun c => c), c'. split_and!; [done..|apply faithful_same_client].
Qed.

Lemma whole_every_client l f s : faithful f -> whole l s -> whole l (change_clients (update_every_client f) s).
Proof.
  intros Hf. apply whole_clients. intros i c'. unfold find_client, get_client_by_id. cbn. rewrite lookup_fmap.
  destruct (_ !! i) as [c|]; [|done]. intros [= <-]. by exists f, c.
Qed.

Lemma whole_clear_tab l tab s : whole l s -> whole l (change_clients (clear_own_active_tab_solves tab) s).
Proof.
  apply whole_clients. intros i c'. unfold find_client, get_client_by_id. cbn. rewrite lookup_fmap.
  destruct (_ !! i) as [c|]; [|done]. cbn. intros [= <-]. exists (fun c => if active_tab_id c =? tab then clear_own_active_tab_solve c else c), c.
  split_and!; [done..|]. apply (faithful_when (fun c => active_tab_id c =? tab) (fun b c => if b then clear_own_active_tab_solve c else c)).
  intros []; auto with faithful.
Qed.

Lemma whole_clear_floating l id s : whole l s -> whole l (change_clients (clear_own_floating_pane_solves id) s).
Proof.
  apply whole_clients. intros i c'. unfold find_client, get_client_by_id. cbn. rewrite lookup_fmap.
  destruct (_ !! i) as [c|]; [|done]. cbn. intros [= <-]. exists (clear_own_floating_pane_solve id), c. split_and!; [done..|auto with faithful].
Qed.

Lemma whole_clear_floatings l ids s :
  whole l s -> whole l (change_clients (fun r => foldr clear_own_floating_pane_solves r ids) s).
Proof.
  intros Hs. induction ids as [|id ids IH]; [|].
  - apply (whole_clients l s); [|exact Hs]. intros i c' Hc. exists (fun c => c), c'. split_and!; [done..|apply faithful_same_client].
  - exact (whole_clear_floating l id _ IH).
Qed.

(** ** Operations that keep the conditions *)

Definition keeps {A} (l : Lapse) (m : session_op A) : Prop := forall s, whole l s -> whole l (m s).2.

Lemma keeps_ret {A} l (x : A) : keeps l (ret x).
Proof. intros s Hs. exact Hs. Qed.

Lemma keeps_bind {A B} l (m : session_op A) (k : A -> session_op B) : keeps l m -> (forall x, keeps l (k x)) -> keeps l (bind m k).
Proof. intros Hm Hk s Hs. unfold bind. specialize (Hm s Hs). destruct (m s) as [x s']. by apply Hk. Qed.

Lemma keeps_reads {A} l (f : Session -> A) : keeps l (reads f).
Proof. intros s Hs. exact Hs. Qed.

Lemma keeps_read_here {B} l (k : Session -> session_op B) :
  (forall s, whole l s -> whole l (k s s).2) -> keeps l (bind (reads (fun s => s)) k).
Proof. intros Hk s Hs. by apply Hk. Qed.

Lemma keeps_changes l f : (forall s, whole l s -> whole l (f s)) -> keeps l (changes f).
Proof. intros Hf. exact Hf. Qed.

Lemma keeps_for_each {A B} l (f : A -> session_op (list B)) (xs : list A) : (forall x, keeps l (f x)) -> keeps l (for_each f xs).
Proof.
  intros Hf. induction xs as [|x xs IH]; [apply keeps_ret|]. cbn. apply keeps_bind; [apply Hf|]. intros events.
  apply keeps_bind; [exact IH|]. intros more. apply keeps_ret.
Qed.

Lemma keeps_filter {A} l (f : A -> session_op bool) (xs : list A) : (forall x, keeps l (f x)) -> keeps l (filter_op f xs).
Proof.
  intros Hf. induction xs as [|x xs IH]; [apply keeps_ret|]. cbn. apply keeps_bind; [apply Hf|]. intros b.
  apply keeps_bind; [exact IH|]. intros more. apply keeps_ret.
Qed.

Lemma keeps_map {A B} l (f : A -> session_op B) (xs : list A) : (forall x, keeps l (f x)) -> keeps l (map_op f xs).
Proof.
  intros Hf. induction xs as [|x xs IH]; [apply keeps_ret|]. cbn. apply keeps_bind; [apply Hf|]. intros y.
  apply keeps_bind; [exact IH|]. intros more. apply keeps_ret.
Qed.

Lemma keeps_quiet l f : quiet f -> keeps l (changes f).
Proof. intros Hf. apply keeps_changes. intros s. by apply whole_quiet. Qed.

Lemma keeps_every_client l f : faithful f -> keeps l (changes (change_clients (update_every_client f))).
Proof. intros Hf. apply keeps_changes. intros s. by apply whole_every_client. Qed.

Lemma find_client_here l s id c : find_client s id = Some c -> whole l s -> client_id c = id.
Proof. intros Hc Hs. by destruct (whole_client _ _ Hs id c Hc). Qed.

Lemma keeps_on_client {A} l id (d : A) f : faithful (fun c => (f c).2) -> keeps l (on_client id d f).
Proof.
  intros Hf s Hs. unfold on_client. destruct (find_client s id) as [c|] eqn:E; cbn [snd].
  - apply (whole_clients l s); [|done]. intros i c'. unfold find_client, get_client_by_id in *. cbn.
    destruct (decide (id = i)) as [<-|Hne].
    + rewrite lookup_alter_eq, E. cbn. intros [= <-]. by exists (fun c => (f c).2), c.
    + rewrite lookup_alter_ne by done. intros ->. exists (fun c => c), c'. split_and!; [done..|apply faithful_same_client].
  - apply whole_update_client; auto with faithful.
Qed.

(** *** Quiet changes *)

Lemma quiet_id : quiet (fun s => s).
Proof. done. Qed.

Lemma quiet_then f g : quiet f -> quiet g -> quiet (fun s => g (f s)).
Proof. intros [Z S C T] [Z' S' C' T']. split; intros s; [congruence..|]. intros k. by rewrite T', T. Qed.

Lemma quiet_foldl {B} (f : B -> Session -> Session) (xs : list B) :
  (forall x, quiet (f x)) -> quiet (fun s => foldl (fun s x => f x s) s xs).
Proof.
  intros Hf. induction xs as [|x xs IH]; [apply quiet_id|].
  exact (quiet_then (f x) (fun s => foldl (fun s x => f x s) s xs) (Hf x) IH).
Qed.

Lemma quiet_tab tab f :
  (forall t, tab_id (f t) = tab_id t /\ tab_index (f t) = tab_index t /\ tab_area (f t) = tab_area t) -> quiet (change_tab tab f).
Proof.
  intros Hf. split; [done..|]. intros s k. cbn. destruct (decide (tab = k)) as [<-|Hne]; [|by rewrite lookup_alter_ne].
  rewrite lookup_alter_eq. destruct (tabs s !! tab) as [t|]; [|done]. cbn. by destruct (Hf t) as (-> & -> & ->).
Qed.

Lemma quiet_focus_mru tab pane_id : quiet (change_tab tab (record_focus_mru pane_id)).
Proof. by apply quiet_tab. Qed.

Lemma quiet_forget_mru tab pane_id : quiet (change_tab tab (remove_focus_mru pane_id)).
Proof. by apply quiet_tab. Qed.

Lemma quiet_drop pane_id : quiet (drop_pane_record pane_id).
Proof. done. Qed.

Lemma quiet_drops pane_ids : quiet (fun s => foldl (fun s pane_id => drop_pane_record pane_id s) s pane_ids).
Proof. apply quiet_foldl, quiet_drop. Qed.

Lemma quiet_register pane_id spec : quiet (register_spawned_pane pane_id spec).
Proof. done. Qed.

Lemma quiet_registers entries : quiet (fun s => foldl (fun s entry => register_spawned_pane entry.1 entry.2 s) s entries).
Proof. apply (quiet_foldl (fun entry : PaneId * NewPaneSpec => register_spawned_pane entry.1 entry.2)). intros. apply quiet_register. Qed.

Lemma quiet_lifecycle e : quiet (fun s => (update_lifecycle e s).2).
Proof. split; intros s; unfold update_lifecycle; by destruct (transition _ _). Qed.

Lemma quiet_view_changes f : quiet (change_view_changes f).
Proof. done. Qed.

Lemma quiet_forget_swapped destination (swapped : option PaneId) :
  quiet (fun s => match swapped with Some p => change_tab destination (remove_focus_mru p) s | None => s end).
Proof. destruct swapped; [by apply quiet_tab|apply quiet_id]. Qed.

Lemma quiet_swap_mru source pane_id (swapped : option PaneId) :
  quiet (change_tab source (fun t =>
    let t := remove_focus_mru pane_id t in match swapped with Some p => record_focus_mru p t | None => t end)).
Proof. apply quiet_tab. intros t. by destruct swapped. Qed.

Create HintDb quiet discriminated.
#[export] Hint Resolve quiet_id quiet_focus_mru quiet_forget_mru quiet_drop quiet_drops quiet_register quiet_registers quiet_lifecycle
  quiet_view_changes quiet_forget_swapped quiet_swap_mru : quiet.

(** *** Solving again *)

(** A tab whose area is solved. *)
Definition is_solved (sizing : PaneSizing) (a : LayoutArea) : Prop := layout_solve a = compute_layout_solve a sizing.

Lemma update_layout_solve_solved sizing a : is_solved sizing (update_layout_solve sizing a).
Proof. done. Qed.

Definition except_tab_lapse (tab : TabId) (l : Lapse) : Lapse :=
  MkLapse (fun k => k <> tab /\ lapsed_tab l k) (lapsed_floating l) (lapsed_display l) (known_sizing l)
    (unused_floating l).

Lemma whole_solve_tab l tab f s :
  (forall t, tab_id (f t) = tab_id t /\ tab_index (f t) = tab_index t) ->
  (forall t, tabs s !! tab = Some t -> is_solved (pane_sizing s) (tab_area (f t))) ->
  whole l s -> whole (except_tab_lapse tab l) (change_tab tab f s).
Proof.
  intros Hf Hsolved Hs. apply (whole_step l _ s); [done| | |done|apply (whole_sizing _ _ Hs)|done|done|apply (whole_floating _ _ Hs)|].
  - intros k t'. cbn. destruct (decide (tab = k)) as [<-|Hne].
    + rewrite lookup_alter_eq. destruct (tabs s !! tab) as [t|] eqn:E; [|done]. cbn. intros [= <-].
      destruct (whole_tab _ _ Hs tab t E) as [Hk _]. destruct (Hf t) as [-> _]. split; [done|]. intros _. by apply Hsolved.
    + rewrite lookup_alter_ne by done. intros Ht. destruct (whole_tab _ _ Hs k t' Ht) as [Hk Hv]. split; [done|].
      intros Hn. apply Hv. intros Hl. apply Hn. cbn. by split.
  - intros k. cbn. destruct (decide (tab = k)) as [<-|Hne]; [|by rewrite lookup_alter_ne].
    rewrite lookup_alter_eq. destruct (tabs s !! tab) as [t|]; [|done]. cbn. by destruct (Hf t) as [_ ->].
  - intros id c Hc. exists (fun c => c), c. split_and!; [done..|apply faithful_same_client].
Qed.

Lemma whole_weaken l l' s :
  (forall k, lapsed_tab l k -> lapsed_tab l' k) -> (forall f, lapsed_floating l f -> lapsed_floating l' f) ->
  (lapsed_display l -> lapsed_display l') -> (forall z, known_sizing l' = Some z -> known_sizing l = Some z) ->
  (forall i, unused_floating l' i -> unused_floating l i) -> whole l s -> whole l' s.
Proof.
  intros HT HF HD HZ HU [T D Z F U N C W]. split; [|tauto|auto| |auto|done..].
  - intros k t Ht. destruct (T k t Ht) as [Hk Hv]. split; [done|]. intros Hn. apply Hv. auto.
  - intros f Hf. destruct (F f Hf) as [Hk Hv]. split; [done|]. intros Hn. apply Hv. auto.
Qed.

Lemma whole_except l tab s : whole (except_tab_lapse tab l) s -> whole l s.
Proof. apply whole_weaken; [by intros k []|done..]. Qed.

(** Floating panes changed in place. *)
Lemma whole_floating_set l l' set s :
  floating_pane_id <$> set = floating_pane_id <$> floating_set s ->
  (forall k, lapsed_tab l k -> lapsed_tab l' k) -> (lapsed_display l -> lapsed_display l') -> known_sizing l' = known_sizing l ->
  (forall i, unused_floating l' i -> unused_floating l i) ->
  (forall f, f ∈ set -> solved_size (floating_area f) = compute_floating_layout_size (floating_solved_size f)
    /\ (~ lapsed_floating l' (floating_pane_id f) -> is_solved (pane_sizing s) (floating_area f))) ->
  whole l s -> whole l' (s <| floating_set := set |>).
Proof.
  intros Hids HT HD HZ HU Hset Hs. apply (whole_step l _ s); [done| |done|done|rewrite HZ; apply (whole_sizing _ _ Hs)|exact Hids|exact HU|exact Hset|].
  - intros k t Ht. destruct (whole_tab _ _ Hs k t Ht) as [Hk Hv]. split; [done|]. intros Hn. apply Hv. auto.
  - intros id c Hc. exists (fun c => c), c. split_and!; [done..|apply faithful_same_client].
Qed.

Lemma update_floating_ids id f (set : FloatingSet) :
  (forall g, floating_pane_id (f g) = floating_pane_id g) -> floating_pane_id <$> update_floating_pane id f set = floating_pane_id <$> set.
Proof.
  intros Hf. unfold update_floating_pane, find_floating_pane_by_id. destruct (list_find _ set) as [[i g]|] eqn:E; [|done].
  apply list_find_Some in E as (Hi & _ & _). etransitivity; [apply (list_fmap_insert floating_pane_id)|]. rewrite Hf. apply list_insert_id. by rewrite list_lookup_fmap, Hi.
Qed.

Lemma elem_of_update_floating id f (set : FloatingSet) g :
  g ∈ update_floating_pane id f set -> g ∈ set \/ exists i g0, find_floating_pane_by_id set id = Some (i, g0) /\ g = f g0.
Proof.
  unfold update_floating_pane. destruct (find_floating_pane_by_id set id) as [[i g0]|]; [|by left].
  intros [j Hj]%list_elem_of_lookup. apply list_lookup_insert_Some in Hj as [(_ & <- & _)|[_ Hj]].
  - right. by exists i, g0.
  - left. by eapply list_elem_of_lookup_2.
Qed.

Lemma find_floating_elem (set : FloatingSet) id i f : find_floating_pane_by_id set id = Some (i, f) -> f ∈ set.
Proof. intros (H & _)%list_find_Some. by eapply list_elem_of_lookup_2. Qed.

(** ** Floating panes and tabs that come and go *)

Lemma whole_remove_floating l id s : whole l s -> whole l (session_remove_floating_pane id s).2.
Proof.
  intros Hs. unfold session_remove_floating_pane.
  destruct (find_floating_pane_by_id (floating_set s) id) as [[i f]|] eqn:E; [|done]. cbn [snd].
  apply list_find_Some in E as (Hi & Hid & _). destruct Hs as [T D Z F U N C W].
  assert (floating_pane_id <$> delete i (floating_set s) = delete i (floating_pane_id <$> floating_set s)) as Ed
    by (etransitivity; [apply (list_fmap_delete floating_pane_id)|done]).
  assert (forall j, j ∈ floating_pane_id <$> delete i (floating_set s) <-> j <> id /\ j ∈ floating_pane_id <$> floating_set s) as Hids.
  { assert ((floating_pane_id <$> floating_set s) !! i = Some id) as Hl by (rewrite list_lookup_fmap, Hi; cbn; by rewrite Hid).
    pose proof (delete_Permutation _ _ _ Hl) as Hp. intros j. rewrite Ed.
    assert (NoDup (id :: delete i (floating_pane_id <$> floating_set s))) as [Hn _]%NoDup_cons by (by rewrite <- Hp).
    assert (j ∈ floating_pane_id <$> floating_set s <-> j ∈ id :: delete i (floating_pane_id <$> floating_set s)) as -> by (by rewrite <- Hp).
    rewrite elem_of_cons. naive_solver. }
  split; [exact T|exact D|exact Z| | | | |].
  - intros g Hg. apply F. exact (list_elem_of_delete_inv _ _ _ Hg).
  - intros j Hj. rewrite Hids. intros [_ Hin]. by apply (U j).
  - change (NoDup (floating_pane_id <$> delete i (floating_set s))). rewrite Ed.
    eapply sublist_NoDup; [exact N|apply sublist_delete].
  - change (length (delete i (floating_set s)) <= MAX_FLOATING_PANES_PER_SESSION)%nat.
    etransitivity; [|exact C]. apply sublist_length, sublist_delete.
  - intros j c'. unfold find_client, get_client_by_id. cbn. rewrite lookup_fmap.
    destruct (_ !! j) as [c|] eqn:Ec; [|done]. cbn. intros [= <-]. destruct (W j c Ec) as (Hj & Hw & V). split_and!.
    + by rewrite remove_view_id.
    + by apply remove_view_whole.
    + intros k. rewrite remove_view_dom, V. symmetry. apply Hids.
Qed.

(** The lapse [l] with nothing known of the ids of floating panes. *)
Definition forget_unused (l : Lapse) : Lapse :=
  MkLapse (lapsed_tab l) (lapsed_floating l) (lapsed_display l) (known_sizing l) (fun _ => False).

Lemma whole_forget l s : whole l s -> whole (forget_unused l) s.
Proof. by apply whole_weaken. Qed.

Lemma whole_add_floating l f positions s :
  floating_pane_id f ∉ floating_pane_id <$> floating_set s ->
  solved_size (floating_area f) = compute_floating_layout_size (floating_solved_size f) ->
  is_solved (pane_sizing s) (floating_area f) ->
  whole l s -> whole (forget_unused l) (session_add_floating_pane f positions s).2.
Proof.
  intros Hnew Hz Hsolved Hs. unfold session_add_floating_pane, set_add_floating_pane.
  destruct (List.find _ (list_pane_ids f)); [by apply whole_forget|].
  destruct (is_full (floating_set s)) eqn:Ef; [by apply whole_forget|]. cbn [snd].
  apply Nat.leb_gt in Ef. destruct Hs as [T D Z F U N C W].
  assert (floating_pane_id <$> (floating_set s ++ [f]) = (floating_pane_id <$> floating_set s) ++ [floating_pane_id f]) as Ea
    by (etransitivity; [apply (fmap_app floating_pane_id)|done]).
  split; [exact T|exact D|exact Z| |done| | |].
  - intros g. change (g ∈ floating_set s ++ [f] -> solved_size (floating_area g) = compute_floating_layout_size (floating_solved_size g)
      /\ (~ lapsed_floating l (floating_pane_id g) -> is_solved (pane_sizing s) (floating_area g))).
    rewrite elem_of_app, list_elem_of_singleton. intros [Hg| ->]; [exact (F g Hg)|done].
  - change (NoDup (floating_pane_id <$> (floating_set s ++ [f]))). rewrite Ea.
    apply NoDup_app. split_and!; [done|set_solver|apply NoDup_singleton].
  - change (length (floating_set s ++ [f]) <= MAX_FLOATING_PANES_PER_SESSION)%nat. rewrite length_app. cbn. lia.
  - intros j c'. unfold find_client, get_client_by_id. cbn. rewrite lookup_fmap.
    destruct (_ !! j) as [c|] eqn:Ec; [|done]. cbn. intros [= <-]. destruct (W j c Ec) as (Hj & Hw & V). split_and!.
    + by rewrite add_view_id.
    + by apply add_view_whole.
    + intros k. rewrite add_view_dom, V. change (k = floating_pane_id f \/ k ∈ floating_pane_id <$> floating_set s
        <-> k ∈ floating_pane_id <$> (floating_set s ++ [f])). rewrite Ea. set_solver.
Qed.

Lemma from_pane_solved id pane_id desired solved sizing :
  solved_size (floating_area (from_pane id pane_id desired solved sizing))
    = compute_floating_layout_size (floating_solved_size (from_pane id pane_id desired solved sizing))
  /\ is_solved sizing (floating_area (from_pane id pane_id desired solved sizing)).
Proof. done. Qed.

(** *** The bar *)

Lemma display_NoDup s ids : display s ids -> NoDup ids.
Proof.
  intros Hd. apply NoDup_alt. intros i j k Hi Hj. apply Hd in Hi as (t & Ht & <-), Hj as (t' & Ht' & <-). congruence.
Qed.

Lemma display_elem s ids k : display s ids -> k ∈ ids <-> is_Some (tabs s !! k).
Proof.
  intros Hd. rewrite list_elem_of_lookup. split.
  - intros [i Hi]. apply Hd in Hi as (t & Ht & _). by exists t.
  - intros [t Ht]. exists (tab_index t). apply Hd. by exists t.
Qed.

Lemma display_Permutation s ids : display s ids -> ids ≡ₚ btree_keys (tabs s).
Proof.
  intros Hd. apply NoDup_Permutation; [by eapply display_NoDup|apply NoDup_btree_keys|].
  intros k. by rewrite (display_elem s), elem_of_btree_keys.
Qed.

Lemma display_length s ids : display s ids -> length ids = base.size (tabs s).
Proof.
  intros Hd. rewrite (Permutation_length (display_Permutation _ _ Hd)). rewrite <- length_btree_values.
  unfold btree_keys, btree_values. by rewrite !length_fmap.
Qed.

(** The display order is the bar. *)
Lemma display_order_display s ids : display s ids -> list_tab_ids_in_display_order s = ids.
Proof.
  intros Hd. unfold list_tab_ids_in_display_order.
  set (entries := merge_sort index_le (btree_entries (tabs s))).
  assert (entries ≡ₚ btree_entries (tabs s)) as Hp by apply merge_sort_Permutation.
  assert (forall e, e ∈ entries -> tabs s !! e.1 = Some e.2) as He.
  { intros [k t] Hin. rewrite Hp in Hin. by apply elem_of_btree_entries. }
  apply (StronglySorted_unique_strong (fun a b : TabId => exists ta tb, tabs s !! a = Some ta /\ tabs s !! b = Some tb
    /\ (tab_index ta <= tab_index tb)%nat)).
  - intros a b Ha Hb (ta & tb & Hta & Htb & Hle) (tb' & ta' & Htb' & Hta' & Hle'). simplify_eq.
    assert (ids !! tab_index ta = Some a) as H1 by (apply Hd; by exists ta).
    assert (ids !! tab_index tb = Some b) as H2 by (apply Hd; by exists tb).
    assert (tab_index ta = tab_index tb) as E by lia. rewrite E in H1. congruence.
  - assert (StronglySorted index_le entries) as Hs.
    { assert (Total index_le) by (intros x y; unfold index_le; lia).
      assert (Transitive index_le) by (intros x y z; unfold index_le; lia). by apply (StronglySorted_merge_sort index_le). }
    clearbody entries. clear Hp. induction Hs as [|e es Hs IH Hall]; [constructor|]. cbn. constructor.
    + apply IH. intros e' He'. apply He. by right.
    + apply Forall_fmap, Forall_forall. intros e' He'. exists e.2, e'.2. split_and!; [apply He; by left|apply He; by right|].
      rewrite Forall_forall in Hall. by apply Hall.
  - assert (forall i, Sorted.StronglySorted (fun a b : TabId => exists ta tb, tabs s !! a = Some ta /\ tabs s !! b = Some tb
      /\ (tab_index ta <= tab_index tb)%nat) (drop i ids)) as Hall; [|apply (Hall 0%nat)].
    intros i. remember (length ids - i)%nat as n eqn:En. revert i En. induction n as [|n IH]; intros i En.
    + rewrite drop_ge by lia. constructor.
    + destruct (ids !! i) as [k|] eqn:Ek; [|apply lookup_ge_None in Ek; lia]. rewrite (drop_S _ _ _ Ek). constructor; [apply IH; lia|].
      apply Forall_forall. intros k' [j Hj]%list_elem_of_lookup. rewrite lookup_drop in Hj.
      apply Hd in Ek as (t & Ht & Hti). apply Hd in Hj as (t' & Ht' & Hti'). exists t, t'. split_and!; [done..|lia].
  - etransitivity; [|symmetry; apply (display_Permutation _ _ Hd)]. unfold btree_keys. by rewrite Hp.
Qed.

(** Tabs moved in the bar. *)
Lemma whole_moved l f s :
  untouching f -> whole l s -> (~ lapsed_display l -> exists ids, display (f s) ids) -> whole l (f s).
Proof.
  intros [_ A C] [T D Z F U N K W] Hd. destruct (A s) as (EZ & ES & ET). specialize (C s).
  split; [|exact Hd|by rewrite EZ|by rewrite ES, EZ|by rewrite ES|by rewrite ES|by rewrite ES|].
  - intros k t' Ht'. specialize (ET k). rewrite Ht' in ET. destruct (tabs s !! k) as [t|] eqn:E; [|done].
    injection ET as E1 E2. destruct (T k t E) as [Hk Hv]. unfold tab_solve in *. by rewrite E1, E2, EZ.
  - intros id c. unfold find_client. rewrite C, ES. apply W.
Qed.

Definition lapse_display (l : Lapse) : Lapse :=
  MkLapse (lapsed_tab l) (lapsed_floating l) True (known_sizing l) (unused_floating l).

(** The tab indices after a loop of [update_tab_index]. *)
Lemma indexed_tabs (entries : list (nat * TabId)) s k :
  NoDup (entries.*2) ->
  tab_index <$> tabs (foldl (fun s' (entry : nat * TabId) => update_tab_index entry.2 entry.1 s') s entries) !! k
  = match List.find (fun entry => entry.2 =? k) entries with
    | Some entry => (fun _ => entry.1) <$> tabs s !! k
    | None => tab_index <$> tabs s !! k
    end.
Proof.
  revert s. induction entries as [|[i id] entries IH]; intros s Hn; [done|]. cbn [foldl List.find fst snd fmap list_fmap] in *.
  apply NoDup_cons in Hn as [Hnew Hn]. rewrite IH by done.
  assert (forall k, tabs (update_tab_index id i s) !! k
    = (if decide (id = k) then fun t => t <| tab_index := i |> else fun t => t) <$> tabs s !! k) as E.
  { intros k'. unfold update_tab_index. destruct (tabs s !! id) as [t|] eqn:Et; case_decide as Hk; try subst k'.
    - cbn. by rewrite lookup_alter_eq, Et.
    - cbn. rewrite lookup_alter_ne by done. by destruct (tabs s !! k').
    - by rewrite Et.
    - by destruct (tabs s !! k'). }
  rewrite !E. destruct (N.eqb_spec id k) as [->|Hne].
  - rewrite decide_True by done. destruct (List.find _ entries) as [[j k']|] eqn:Ef.
    + apply List.find_some in Ef as [Hin Hk]. apply N.eqb_eq in Hk. cbn in Hk. subst k'. exfalso. apply Hnew.
      apply list_elem_of_fmap. exists (j, k). split; [done|]. by apply list_elem_of_In.
    + by destruct (tabs s !! k).
  - rewrite decide_False by done. destruct (List.find _ entries); by destruct (tabs s !! k).
Qed.

Lemma find_entry (entries : list (nat * TabId)) i k : NoDup (entries.*2) ->
  (i, k) ∈ entries -> List.find (fun entry => entry.2 =? k) entries = Some (i, k).
Proof.
  induction entries as [|[j id] entries IH]; intros Hn Hin; [by apply elem_of_nil in Hin|].
  apply NoDup_cons in Hn as [Hnew Hn]. cbn [List.find snd]. apply elem_of_cons in Hin as [[= <- <-]|Hin]; [by rewrite N.eqb_refl|].
  destruct (N.eqb_spec id k) as [->|]; [|by apply IH]. exfalso. apply Hnew. apply list_elem_of_fmap. by exists (i, k).
Qed.

(** The bar made by giving each tab of [ids] its place in [ids]. *)
Lemma indexed_display (entries : list (nat * TabId)) ids s :
  NoDup ids -> (forall k, k ∈ ids <-> is_Some (tabs s !! k)) -> NoDup (entries.*2) ->
  (forall i k, (i, k) ∈ entries <-> ids !! i = Some k) ->
  display (foldl (fun s' (entry : nat * TabId) => update_tab_index entry.2 entry.1 s') s entries) ids.
Proof.
  intros Hn Hk Hne He i k. pose proof (indexed_tabs entries s k Hne) as E.
  set (s' := foldl _ s entries) in *. clearbody s'. split.
  - intros Hi. rewrite (find_entry entries i k Hne) in E by (by apply He).
    assert (is_Some (tabs s !! k)) as [t Ht] by (apply Hk; by eapply list_elem_of_lookup_2).
    rewrite Ht in E. cbn in E. destruct (tabs s' !! k) as [t'|]; [|done]. cbn in E. injection E as E. by exists t'.
  - intros (t' & Ht' & <-). rewrite Ht' in E. cbn in E.
    assert (exists j, ids !! j = Some k) as [j Hj].
    { apply list_elem_of_lookup, Hk. destruct (tabs s !! k); [done|]. by destruct (List.find _ entries). }
    rewrite (find_entry entries j k Hne) in E by (by apply He).
    destruct (tabs s !! k); [|done]. cbn in E. by injection E as <-.
Qed.

(** The same loop without the tab [target], each index moved by [shift], then
    [target] at [index]. *)
Definition bar_entries (shift : nat -> nat) (others : list TabId) (index : nat) (target : TabId) : list (nat * TabId) :=
  ((fun entry : nat * TabId => (shift entry.1, entry.2)) <$> enumerate others) ++ [(index, target)].

Lemma foldl_fmap {A B C} (f : A -> C -> A) (g : B -> C) (xs : list B) a :
  foldl f a (g <$> xs) = foldl (fun a x => f a (g x)) a xs.
Proof. revert a. induction xs as [|x xs IH]; intros a; [done|]. apply IH. Qed.

Lemma listed_tabs {A} (xs : list A) : (enumerate xs).*2 = xs.
Proof. unfold enumerate. rewrite fmap_imap. etransitivity; [apply imap_const|]. apply list_fmap_id. Qed.

Lemma display_order_keys s : NoDup (list_tab_ids_in_display_order s)
  /\ forall k, k ∈ list_tab_ids_in_display_order s <-> is_Some (tabs s !! k).
Proof.
  assert (list_tab_ids_in_display_order s ≡ₚ btree_keys (tabs s)) as Hp.
  { unfold list_tab_ids_in_display_order, btree_keys. by rewrite merge_sort_Permutation. }
  split; [rewrite Hp; apply NoDup_btree_keys|]. intros k. by rewrite Hp, elem_of_btree_keys.
Qed.

Lemma reindex_display s : display (reindex_tabs_by_display_index s) (list_tab_ids_in_display_order s).
Proof.
  destruct (display_order_keys s) as [Hn Hk]. apply indexed_display; [done|done|by rewrite listed_tabs|].
  intros i k. by rewrite elem_of_enumerate.
Qed.

Definition moved_in_bar (target : TabId) (index : nat) (ids : list TabId) : list TabId :=
  take index (without target ids) ++ target :: drop index (without target ids).

Lemma length_without x (l : list N) : NoDup l -> x ∈ l -> S (length (without x l)) = length l.
Proof.
  intros Hn Hx. assert (x :: without x l ≡ₚ l) as Hp; [|by rewrite <- (Permutation_length Hp)].
  apply NoDup_Permutation; [constructor; [by intros [_ ?]%elem_of_without|by apply NoDup_without]|done|].
  intros y. rewrite elem_of_cons, elem_of_without. destruct (decide (y = x)) as [->|]; naive_solver.
Qed.

Lemma move_tab_display s target t index ids :
  display s ids -> tabs s !! target = Some t -> (index < length ids)%nat -> index <> tab_index t ->
  (move_tab target index s).1 = [TabMoved target (tab_index t) index]
  /\ display (move_tab target index s).2 (moved_in_bar target index ids).
Proof.
  intros Hd Ht Hlt Hne. unfold move_tab. rewrite Ht, <- (display_length _ _ Hd).
  rewrite (proj2 (Nat.leb_gt _ _) Hlt), (proj2 (Nat.eqb_neq _ _) Hne). cbn [orb]. split; [done|]. cbn [snd].
  rewrite (display_order_display _ _ Hd). fold (without target ids). set (others := without target ids).
  pose proof (display_NoDup _ _ Hd) as Hn. pose proof (display_elem s ids target Hd) as Htarget.
  assert (S (length others) = length ids) as Hlen by (apply length_without; [done|]; apply Htarget; by exists t).
  assert (target ∉ others) as Hto by (by intros [_ ?]%elem_of_without).
  pose (shift i := (if (index <=? i)%nat then i + 1 else i)%nat).
  assert (forall s0, update_tab_index target index (foldl (fun s' (entry : nat * TabId) =>
      update_tab_index entry.2 (shift entry.1) s') s0 (enumerate others))
    = foldl (fun s' (entry : nat * TabId) => update_tab_index entry.2 entry.1 s') s0 (bar_entries shift others index target)) as ->.
  { intros s0. unfold bar_entries. by rewrite foldl_app, foldl_fmap. }
  unfold moved_in_bar. fold others. apply indexed_display.
  - assert (take index others ++ target :: drop index others ≡ₚ target :: others) as ->.
    { rewrite <- Permutation_middle. by rewrite take_drop. }
    constructor; [done|by apply NoDup_without].
  - intros k. rewrite elem_of_app, elem_of_cons, <- (display_elem s ids k Hd).
    assert (k ∈ others <-> k ∈ take index others \/ k ∈ drop index others) as Ho by (by rewrite <- elem_of_app, take_drop).
    assert (k ∈ others <-> k ∈ ids /\ k <> target) as Hw by apply elem_of_without.
    destruct (decide (k = target)) as [->|]; [|naive_solver]. split; [intros _; apply Htarget; by exists t|naive_solver].
  - unfold bar_entries. rewrite fmap_app, <- list_fmap_compose. change (snd ∘ _) with (@snd nat TabId). rewrite listed_tabs.
    apply NoDup_app. split_and!; [by apply NoDup_without|set_solver|apply NoDup_singleton].
  - intros i k. unfold bar_entries. rewrite elem_of_app, list_elem_of_fmap, list_elem_of_singleton.
    assert ((exists y : nat * TabId, (i, k) = (shift y.1, y.2) /\ y ∈ enumerate others)
      <-> exists j, i = shift j /\ others !! j = Some k) as ->.
    { split; [intros ([j k'] & E & Hin); injection E as -> ->; exists j; by rewrite elem_of_enumerate in Hin|].
      intros (j & -> & Hj). exists (j, k). by rewrite elem_of_enumerate. }
    rewrite lookup_app_Some, length_take, (Nat.min_l index) by lia. subst shift. cbv beta. split.
    + intros [(j & -> & Hj)|[= -> ->]].
      * destruct (Nat.leb_spec index j).
        -- right. split; [lia|]. replace (j + 1 - index)%nat with (S (j - index)) by lia.
           rewrite lookup_cons, lookup_drop. by replace (index + (j - index))%nat with j by lia.
        -- left. by rewrite lookup_take_lt.
      * right. split; [lia|]. by rewrite Nat.sub_diag.
    + intros [Hl|[Hge Hl]].
      * apply lookup_take_Some in Hl as [Hl Hi]. left. exists i. destruct (Nat.leb_spec index i); [lia|done].
      * destruct (i - index)%nat as [|j] eqn:Ej; [cbn in Hl; right; injection Hl as ->; f_equal; lia|].
        left. exists (index + j)%nat. rewrite lookup_cons, lookup_drop in Hl. destruct (Nat.leb_spec index (index + j)); [split; [lia|done]|lia].
Qed.

Lemma whole_reindex l s : whole (lapse_display l) s -> whole l (reindex_tabs_by_display_index s).
Proof.
  intros Hs.
  pose proof (whole_moved (lapse_display l) _ s untouching_reindex Hs (fun H => False_ind _ (H I))) as [T D Z F U N C W].
  split; try done. intros _. exists (list_tab_ids_in_display_order s). apply reindex_display.
Qed.

Lemma whole_lapse_display l s : whole l s -> whole (lapse_display l) s.
Proof. by apply whole_weaken. Qed.

Lemma keeps_move_tab l tab index : keeps l (move_tab tab index).
Proof.
  intros s Hs. destruct (tabs s !! tab) as [t|] eqn:E; [|unfold move_tab; by rewrite E].
  destruct ((base.size (tabs s) <=? index)%nat || (index =? tab_index t)%nat) eqn:Eg;
    [unfold move_tab; by rewrite E, Eg|].
  pose (moved s0 := update_tab_index tab index (foldl (fun s' (entry : nat * TabId) =>
    update_tab_index entry.2 (if (index <=? entry.1)%nat then entry.1 + 1 else entry.1)%nat s') s0
    (enumerate (List.filter (fun id => negb (id =? tab)) (list_tab_ids_in_display_order s))))).
  assert ((move_tab tab index s).2 = moved s) as Em by (unfold move_tab; by rewrite E, Eg). rewrite Em.
  apply (whole_moved l moved); [|done|].
  - apply (untouching_then (fun s0 => foldl _ s0 _) (update_tab_index tab index)); [|apply untouching_tab_index].
    apply (untouching_foldl (fun (entry : nat * TabId) s' =>
      update_tab_index entry.2 (if (index <=? entry.1)%nat then entry.1 + 1 else entry.1)%nat s')).
    intros entry. apply untouching_tab_index.
  - intros Hn. destruct (whole_display _ _ Hs Hn) as [ids Hd]. exists (moved_in_bar tab index ids). rewrite <- Em.
    apply orb_false_iff in Eg as [Hl%Nat.leb_gt Hi%Nat.eqb_neq].
    apply (move_tab_display s tab t index ids Hd E); [by rewrite (display_length _ _ Hd)|done].
Qed.

(** *** Tabs opened and closed *)

Lemma whole_add_new_tab l t s :
  tabs s !! tab_id t = None -> is_solved (pane_sizing s) (tab_area t) -> tab_index t = base.size (tabs s) ->
  whole l s -> whole l (add_new_tab t s).
Proof.
  intros Hnew Hsolved Hi Hs. unfold add_new_tab. set (s1 := if bool_decide _ then _ else s).
  assert (whole l s1) as Hs1 by (subst s1; case_bool_decide; [by apply (whole_quiet _ _ _ (quiet_lifecycle FirstTabCreated))|done]).
  assert (tabs s1 = tabs s /\ pane_sizing s1 = pane_sizing s) as [Et Ez].
  { subst s1. case_bool_decide; [|done]. unfold update_lifecycle. by destruct (transition _ _). }
  rewrite <- Et in Hnew, Hi. rewrite <- Ez in Hsolved. clearbody s1. destruct Hs1 as [T D Z F U N C W].
  cbn [add_tab snd]. split; [| |exact Z|exact F|exact U|exact N|exact C|exact W].
  - intros k t' Ht'. cbn in Ht'. apply lookup_insert_Some in Ht' as [[<- <-]|[_ Ht']]; [by split|]. apply (T k t' Ht').
  - intros Hn. destruct (D Hn) as [ids Hd]. exists (ids ++ [tab_id t]). pose proof (display_length _ _ Hd) as Hl.
    intros i k. rewrite lookup_app_Some. cbn. split.
    + intros [Hk|[Hge Hk]].
      * apply Hd in Hk as (t' & Ht' & <-). exists t'. split; [|done]. apply lookup_insert_Some. right. split; [congruence|done].
      * apply list_lookup_singleton_Some in Hk as [Hz <-]. exists t. split; [by rewrite lookup_insert_eq|lia].
    + intros (t' & Ht' & <-). apply lookup_insert_Some in Ht' as [[<- <-]|[_ Ht']].
      * right. rewrite Hi, Hl, Nat.sub_diag. split; [lia|done].
      * left. apply Hd. by exists t'.
Qed.

Lemma whole_remove_tab l tab s : whole (lapse_display l) s -> whole (lapse_display l) (remove_tab tab s).2.
Proof.
  intros [T D Z F U N C W]. unfold remove_tab. destruct (tabs s !! tab); [|done]. cbn [snd].
  split; [|by intros H; exfalso; apply H|exact Z|exact F|exact U|exact N|exact C|exact W].
  intros k t' Ht'. cbn in Ht'. apply lookup_delete_Some in Ht' as [_ Ht']. apply (T k t' Ht').
Qed.

(** ** Every operation *)

Create HintDb keeps discriminated.

#[export] Hint Resolve keeps_ret keeps_reads keeps_quiet keeps_every_client keeps_on_client : keeps.
#[export] Hint Extern 1 (quiet _) => solve [auto with quiet] : keeps.
#[export] Hint Extern 1 (faithful _) => cbn [snd]; solve [auto with faithful] : keeps.

(** The parts of an operation one after the other: the branches it takes, the
    operations it calls, and the changes it makes. *)
Ltac keep1 :=
  lazymatch goal with
  | |- keeps _ (bind (reads (fun s => s)) _) => apply keeps_bind; [apply keeps_reads|let s := fresh "s" in intros s; cbv beta]
  | |- keeps _ (bind _ _) => apply keeps_bind; [|let x := fresh "x" in intros x; cbv beta]
  | |- keeps _ (ret _) => apply keeps_ret
  | |- keeps _ (for_each _ _) => apply keeps_for_each; let x := fresh "x" in intros x; cbv beta
  | |- keeps _ (map_op _ _) => apply keeps_map; let x := fresh "x" in intros x; cbv beta
  | |- keeps _ (filter_op _ _) => apply keeps_filter; let x := fresh "x" in intros x; cbv beta
  | |- keeps _ (let '(_, _) := ?x in _) => destruct x; cbv beta
  | |- keeps _ (match ?x with _ => _ end) => destruct x; cbv beta
  | |- keeps _ (let _ := _ in _) => cbv zeta
  | |- keeps _ _ => solve [eauto with keeps]
  end.
Ltac keep := repeat keep1.

(** A store of kept solves whose reads keep the conditions. *)
Class KeepingStore (store : SolveStore) : Prop := MkKeepingStore
  { keeps_client_solve l id tab : keeps l (compute_client_solve (SolveStore := store) id tab);
    keeps_floating_solve l id floating : keeps l (compute_client_floating_pane_solve (SolveStore := store) id floating) }.

#[export] Instance fresh_solves_keep : KeepingStore fresh_solves.
Proof. split; intros; apply keeps_reads. Qed.

Lemma whole_fill l id f s : faithful f -> whole l s -> whole l (fill_cell id f s).
Proof.
  intros Hf. unfold fill_cell. apply whole_clients. intros i c'. unfold find_client, get_client_by_id. cbn.
  destruct (decide (id = i)) as [<-|Hne].
  - rewrite lookup_alter_eq. destruct (_ !! id) as [c|]; [|done]. cbn. intros [= <-]. by exists f, c.
  - rewrite lookup_alter_ne by done. intros ->. exists (fun c => c), c'. split_and!; [done..|apply faithful_same_client].
Qed.

Section Operations.
Context {store : SolveStore} {keeping : KeepingStore store}.
#[local] Set Default Proof Using "All".

#[local] Hint Resolve keeps_client_solve keeps_floating_solve : keeps.

Lemma keeps_tab_focus l id tab pane_id : keeps l (update_client_tab_focus id tab pane_id).
Proof.
  intros s Hs. unfold update_client_tab_focus. destruct (find_client s id) as [c|] eqn:E; cbn [snd].
  - destruct (update_focused_pane tab pane_id c) as [previous c1] eqn:Ec. apply (whole_quiet _ _ _ (quiet_focus_mru tab pane_id)).
    pose proof (keeps_on_client l id tt (fun c => (tt, (update_focused_pane tab pane_id c).2)) (faithful_focused_pane tab pane_id) s Hs) as H.
    unfold on_client in H. rewrite E in H. cbn [fst snd] in H. by rewrite Ec in H.
  - apply whole_update_client; auto with faithful.
Qed.
#[local] Hint Resolve keeps_tab_focus : keeps.

Lemma keeps_repair_client l tab id r : keeps l (repair_client_focus tab id r).
Proof. unfold repair_client_focus. keep. Qed.
#[local] Hint Resolve keeps_repair_client : keeps.

Lemma keeps_hand_off l tab previous : keeps l (hand_off_suppressed_focus tab previous).
Proof. unfold hand_off_suppressed_focus. keep. Qed.
#[local] Hint Resolve keeps_hand_off : keeps.

Lemma keeps_repair_floating l floating id r : keeps l (repair_floating_pane_client_focus floating id r).
Proof. unfold repair_floating_pane_client_focus. keep. Qed.
#[local] Hint Resolve keeps_repair_floating : keeps.

Lemma keeps_hand_off_floating l floating previous : keeps l (hand_off_suppressed_floating_focus floating previous).
Proof. unfold hand_off_suppressed_floating_focus. keep. Qed.
#[local] Hint Resolve keeps_hand_off_floating : keeps.

Lemma keeps_can_draw l c : keeps l (can_client_draw_floating_panes c).
Proof. unfold can_client_draw_floating_panes. keep. Qed.
#[local] Hint Resolve keeps_can_draw : keeps.

Lemma keeps_minimize_undrawable l : keeps l minimize_undrawable_floating_panes.
Proof.
  unfold minimize_undrawable_floating_panes. keep. intros s' Hs'. apply keeps_on_client; [|done].
  eapply faithful_ext; [|apply faithful_minimize_shown]. intros c. reflexivity.
Qed.
#[local] Hint Resolve keeps_minimize_undrawable : keeps.

Lemma keeps_apply_solve l tab previous : keeps l (apply_tab_solve_change tab previous).
Proof. unfold apply_tab_solve_change. keep. Qed.
#[local] Hint Resolve keeps_apply_solve : keeps.

(** A change first, then the rest. *)
Lemma whole_after {B} l l' f (k : unit -> session_op B) s : whole l (f s) -> (whole l (f s) -> whole l' (k tt (f s)).2) ->
  whole l' (bind (changes f) k s).2.
Proof. intros Hf Hk. by apply Hk. Qed.

Lemma whole_solved_tab l tab f g s :
  (forall t, tab_id (f t) = tab_id t /\ tab_index (f t) = tab_index t) ->
  (forall t, tabs s !! tab = Some t -> is_solved (pane_sizing s) (tab_area (f t))) -> quiet g -> whole l s ->
  whole (except_tab_lapse tab l) (change_clients (clear_own_active_tab_solves tab) (g (change_tab tab f s))).
Proof. intros Hf Ht Hg Hs. apply whole_clear_tab, whole_quiet; [done|]. by apply whole_solve_tab. Qed.

Lemma keeps_update_tab_solve l tab : keeps l (update_tab_solve tab).
Proof.
  unfold update_tab_solve. apply keeps_bind; [apply keeps_reads|intros s]. destruct (resolve_tab_solve_size s tab) as [size|]; [|keep1].
  destruct (tabs s !! tab) as [t|]; [|keep1]. case_bool_decide; [keep1|]. apply keeps_bind; [|intros; keep1].
  apply keeps_changes. intros s' Hs'. apply (whole_quiet _ _ _ (quiet_view_changes _)).
  apply (whole_except _ tab), (whole_solved_tab l tab _ (fun s => s)); [done|done|apply quiet_id|done].
Qed.
#[local] Hint Resolve keeps_update_tab_solve : keeps.

Lemma keeps_update_tab_layout l tab tree : keeps l (update_tab_layout tab tree).
Proof.
  unfold update_tab_layout. apply keeps_read_here. intros s Hs. destruct (tabs s !! tab) as [t|]; [|done]. cbv zeta.
  set (is_changed := _ || _). apply (whole_after l); [|by apply keeps_apply_solve].
  apply (whole_except _ tab), (whole_solved_tab l tab _ (if is_changed then note_layout_change tab else fun s => s)); [done|done| |done].
  destruct is_changed; [apply quiet_view_changes|apply quiet_id].
Qed.
#[local] Hint Resolve keeps_update_tab_layout : keeps.

Lemma keeps_hand_off_panes l ids previous : keeps l (hand_off_floating_panes ids previous).
Proof. revert previous. induction ids as [|id ids IH]; intros previous; cbn [hand_off_floating_panes]; keep. Qed.
#[local] Hint Resolve keeps_hand_off_panes : keeps.

Lemma floating_size_step l s viewport f : f ∈ floating_set s -> whole l s ->
  let f' := (update_floating_pane_size viewport (pane_sizing s) f).1 in
  floating_pane_id f' = floating_pane_id f
  /\ solved_size (floating_area f') = compute_floating_layout_size (floating_solved_size f')
  /\ (~ lapsed_floating l (floating_pane_id f') -> is_solved (pane_sizing s) (floating_area f')).
Proof.
  intros Hf Hs. destruct (whole_floating _ _ Hs f Hf) as [Hz Hv]. cbv zeta. unfold update_floating_pane_size. by case_bool_decide.
Qed.

Lemma keeps_floating_sizes l viewport : keeps l (update_floating_pane_sizes viewport).
Proof.
  unfold update_floating_pane_sizes. apply keeps_read_here. intros s Hs. unfold set_update_floating_pane_sizes. cbv zeta.
  set (updates := update_floating_pane_size viewport (pane_sizing s) <$> floating_set s).
  apply (whole_after l); [|by apply keeps_hand_off_panes].
  apply whole_clear_floatings.
  assert (whole l (s <| floating_set := updates.*1 |>)) as Hw; [|by case_bool_decide; [|apply (whole_quiet _ _ _ (quiet_view_changes _))]].
  apply (whole_floating_set l); [|done..| |done]; subst updates.
  - rewrite <- !list_fmap_compose. apply list_fmap_ext. intros i f Hf. apply (floating_size_step l s viewport f); [|done].
    by eapply list_elem_of_lookup_2.
  - intros f' Hf'. rewrite <- list_fmap_compose in Hf'. apply list_elem_of_fmap in Hf' as (f & -> & Hf).
    by apply (floating_size_step l s viewport f).
Qed.

Lemma keeps_floating_layout l floating tree : keeps l (update_floating_pane_layout floating tree).
Proof.
  unfold update_floating_pane_layout. apply keeps_read_here. intros s Hs.
  destruct (find_floating_pane_by_id (floating_set s) floating) as [[i f]|] eqn:E; [|done]. cbv zeta.
  apply (whole_after l); [|by apply keeps_hand_off_floating].
  apply whole_clear_floating, (whole_quiet _ _ _ (quiet_view_changes _)).
  apply (whole_floating_set l); [by apply update_floating_ids|done..| |done].
  intros g [Hg|(j & g0 & Hg0 & ->)]%elem_of_update_floating; [by apply (whole_floating _ _ Hs)|].
  rewrite Hg0 in E. injection E as -> ->. pose proof (find_floating_elem _ _ _ _ Hg0) as Hin.
  split; [apply (whole_floating _ _ Hs f Hin)|done].
Qed.
#[local] Hint Resolve keeps_floating_layout : keeps.
#[local] Hint Resolve keeps_floating_sizes keeps_move_tab : keeps.

(** *** Sizing *)

(** An operation that ends with other lapses than it began with. *)
Definition moves {A} (l l' : Lapse) (m : session_op A) : Prop := forall s, whole l s -> whole l' (m s).2.

Lemma moves_then {A B} l l1 l2 (m : session_op A) (k : A -> session_op B) :
  moves l l1 m -> (forall x, moves l1 l2 (k x)) -> moves l l2 (bind m k).
Proof. intros Hm Hk s Hs. unfold bind. specialize (Hm s Hs). destruct (m s) as [x s']. by apply Hk. Qed.


Definition resizing (sizing : PaneSizing) (tab_ids : list TabId) (floating : FloatingPaneId -> Prop) : Lapse :=
  MkLapse (fun k => k ∈ tab_ids) floating False (Some sizing) (fun _ => False).

Lemma whole_tab_sizing sizing tab tab_ids floating s :
  whole (resizing sizing (tab :: tab_ids) floating) s ->
  whole (resizing sizing tab_ids floating) (update_tab_sizing sizing tab s).2.
Proof.
  intros Hs. assert (whole (resizing sizing tab_ids floating) s \/ is_Some (tabs s !! tab)) as Ht.
  { destruct (tabs s !! tab) as [t|] eqn:E; [right; by exists t|left]. destruct Hs as [T D Z F U N C W]. split; try done.
    intros k t Ht. destruct (T k t Ht) as [Hk Hv]. split; [done|]. intros Hn. apply Hv. intros [->|Hin]%elem_of_cons; [congruence|done]. }
  unfold update_tab_sizing. unfold bind at 1. cbn [reads].
  destruct (resolve_tab_solve_size s tab) as [size|] eqn:Er; [destruct (tabs s !! tab) as [t|] eqn:E|].
  - cbv zeta. set (is_changed := _ || _). eapply whole_after; [|intros Hw; apply keeps_hand_off; exact Hw].
    apply (whole_weaken (except_tab_lapse tab (resizing sizing (tab :: tab_ids) floating))); [|done..|].
    { intros k [Hne Hk]. cbn in Hk |- *. by apply elem_of_cons in Hk as [->|Hk]. }
    apply (whole_solved_tab _ tab _ (if is_changed then note_layout_change tab else fun s => s)); [done| | |done].
    + intros t' Ht'. rewrite (whole_sizing _ _ Hs sizing eq_refl). done.
    + destruct is_changed; [apply quiet_view_changes|apply quiet_id].
  - destruct Ht as [Ht|[t Ht]]; [done|congruence].
  - destruct Ht as [Ht|[t Ht]]; [done|]. assert (is_Some (resolve_tab_solve_size s tab)) as [size Hz] by (apply solve_size_some; by exists t). congruence.
Qed.

Lemma whole_tab_sizings sizing tab_ids floating s :
  whole (resizing sizing tab_ids floating) s ->
  whole (resizing sizing [] floating) (for_each (update_tab_sizing sizing) tab_ids s).2.
Proof.
  revert s. induction tab_ids as [|tab tab_ids IH]; intros s Hs; [done|]. cbn [for_each]. unfold bind at 1.
  pose proof (whole_tab_sizing sizing tab tab_ids floating s Hs) as H1. destruct (update_tab_sizing sizing tab s) as [events s1].
  unfold bind. specialize (IH s1 H1). by destruct (for_each (update_tab_sizing sizing) tab_ids s1).
Qed.

Lemma keeps_pane_sizing sizing : keeps no_lapse (update_pane_sizing sizing).
Proof.
  unfold update_pane_sizing. apply keeps_read_here. intros s0 Hs0.
  apply (whole_after (resizing sizing (btree_keys (tabs s0)) (fun _ => True))).
  - destruct Hs0 as [T D Z F U N C W]. split; [|exact D|by intros z [= <-]| |done|exact N|exact C|exact W].
    + intros k t Ht. destruct (T k t Ht) as [Hk _]. split; [done|]. intros Hn. exfalso. apply Hn, elem_of_btree_keys. by exists t.
    + intros f Hf. destruct (F f Hf) as [Hk _]. split; [done|]. intros Hn. by exfalso; apply Hn.
  - match goal with |- whole _ ?s1 -> _ => generalize s1 end.
    apply (moves_then (resizing sizing (btree_keys (tabs s0)) (fun _ => True)) (resizing sizing [] (fun _ => True)) no_lapse); [intros s; apply whole_tab_sizings|intros tab_events].
    intros s Hs. unfold bind at 1. cbn [reads].
    apply (moves_then (resizing sizing [] (fun _ => True)) (resizing sizing [] (fun _ => False)) no_lapse); [|intros _|exact Hs].
    + intros s' Hs'. apply (whole_floating_set (resizing sizing [] (fun _ => True))); [|done..| |exact Hs'].
      * etransitivity; [symmetry; apply list_fmap_compose|]. by apply list_fmap_ext.
      * intros f' (f & -> & Hf)%list_elem_of_fmap. split; [apply (whole_floating _ _ Hs' f Hf)|]. intros _.
        cbn [floating_area]. by rewrite (whole_sizing _ _ Hs' sizing eq_refl).
    + intros s' Hs'. apply (whole_weaken (resizing sizing [] (fun _ => False))); [by intros k ?%elem_of_nil|done|done|done|done|].
      revert s' Hs'. change (keeps (resizing sizing [] (fun _ => False)) (let! floating_events :=
        for_each (fun entry => do! changes (change_clients (clear_own_floating_pane_solves entry.1)) in
          hand_off_suppressed_floating_focus entry.1 (Some entry.2)) ((fun f => (floating_pane_id f, floating_solve f)) <$> floating_set s) in
        let! more := minimize_undrawable_floating_panes in ret (tab_events ++ floating_events ++ more))).
      keep. apply keeps_changes. intros s' Hs'. by apply whole_clear_floating.
Qed.

(** *** Tabs and panes *)

Lemma keeps_land_focus l id tab : keeps l (land_focus id tab).
Proof. unfold land_focus. keep. Qed.
#[local] Hint Resolve keeps_land_focus : keeps.

Lemma keeps_session_remove_floating l id : keeps l (session_remove_floating_pane id).
Proof. intros s. apply whole_remove_floating. Qed.
#[local] Hint Resolve keeps_session_remove_floating : keeps.

Lemma keeps_remove_floating l floating : keeps l (remove_floating_pane floating).
Proof.
  intros s Hs. unfold remove_floating_pane. destruct (find_floating_pane_by_id (floating_set s) floating) as [[i f]|]; [|done].
  apply (whole_quiet _ _ _ (quiet_drops (list_pane_ids f))). by apply whole_remove_floating.
Qed.
#[local] Hint Resolve keeps_remove_floating : keeps.

Lemma keeps_close_and_refocus l tab pane_exit : keeps l (close_and_refocus_tab tab pane_exit).
Proof.
  unfold close_and_refocus_tab.
  apply (moves_then l (lapse_display l) l); [intros s Hs; by apply whole_remove_tab, whole_lapse_display|intros closed_tab].
  apply (moves_then _ (lapse_display l) l); [intros s Hs; exact Hs|intros s].
  apply (moves_then _ (lapse_display l) l); [apply keeps_every_client; auto with faithful|intros _].
  apply (moves_then _ (lapse_display l) l); [change (keeps (lapse_display l)
      match closed ← closed_tab; find_nearest_surviving_tab_by_index s (tab_index closed) with
      | Some next => let! focus_events :=
          for_each (fun id => do! on_client id tt (fun c => (tt, update_active_tab_id next c)) in
            let! landed := land_focus id next in ret (TabFocused id next tab :: landed))
            (client_id <$> List.filter (is_viewing tab) (attached_clients s)) in
          let! solve_events := update_tab_solve next in ret (focus_events ++ solve_events)
      | None => ret []
      end); keep|intros refocus_events].
  apply (moves_then _ l l); [intros s'; apply whole_reindex|intros _].
  change (keeps l (let! s := reads (fun s => s) in
    let! last_events :=
      if bool_decide (tabs s = ∅) then
        let! removed := for_each remove_floating_pane (floating_pane_id <$> floating_set s) in
        do! changes (fun s => (update_lifecycle StopRequested s).2) in
        ret (removed ++ [QuitEvent (LastTabClosed tab pane_exit)])
      else ret [] in
    ret (TabClosed tab :: refocus_events ++ last_events))). keep.
Qed.
#[local] Hint Resolve keeps_close_and_refocus : keeps.

Lemma keeps_close_tab l tab : keeps l (close_tab tab).
Proof. unfold close_tab. keep. Qed.

Lemma keeps_focus_tab l id target : keeps l (focus_tab id target).
Proof. unfold focus_tab. keep. Qed.

Lemma keeps_focused_rects l tab pane_id : keeps l (list_focused_client_rects tab pane_id).
Proof. unfold list_focused_client_rects. keep. Qed.
#[local] Hint Resolve keeps_focused_rects : keeps.

Lemma keeps_repair_after l tab departed rects : keeps l (repair_focus_after_pane_left tab departed rects).
Proof. unfold repair_focus_after_pane_left. keep. Qed.
#[local] Hint Resolve keeps_repair_after : keeps.

Lemma keeps_remove_pane l tab pane_id pane_exit : keeps l (remove_pane_from_tab tab pane_id pane_exit).
Proof. unfold remove_pane_from_tab. keep. Qed.
#[local] Hint Resolve keeps_remove_pane : keeps.

Lemma keeps_cascade l tab pane_id pane_exit : keeps l (remove_pane_cascade tab pane_id pane_exit).
Proof. unfold remove_pane_cascade. keep. Qed.
#[local] Hint Resolve keeps_cascade : keeps.

Lemma keeps_child_exit l tab pane_exit : keeps l (apply_child_exit tab pane_exit).
Proof. unfold apply_child_exit. keep. Qed.

Lemma keeps_commit_new_pane l new_pane_id tab tree focus_client_id spec : keeps l (commit_new_pane new_pane_id tab tree focus_client_id spec).
Proof.
  unfold commit_new_pane. keep. apply keeps_on_client.
  apply (faithful_then (clear_zoom tab) (fun c => (apply_tiled_pane_focus (floating_set _) tab new_pane_id c).2)); auto with faithful.
Qed.

Lemma keeps_floating_rects l floating pane_id : keeps l (list_floating_pane_focused_client_rects floating pane_id).
Proof. unfold list_floating_pane_focused_client_rects. keep. Qed.
#[local] Hint Resolve keeps_floating_rects : keeps.

Lemma keeps_remove_leaf l floating pane_id : keeps l (remove_pane_leaf_from_floating_pane floating pane_id).
Proof. unfold remove_pane_leaf_from_floating_pane. keep. Qed.
#[local] Hint Resolve keeps_remove_leaf : keeps.

Lemma keeps_repair_floating_after l floating departed rects : keeps l (repair_floating_pane_focus_after_pane_left floating departed rects).
Proof. unfold repair_floating_pane_focus_after_pane_left. keep. Qed.
#[local] Hint Resolve keeps_repair_floating_after : keeps.

Lemma keeps_remove_from_floating l pane_id : keeps l (remove_pane_from_floating_pane pane_id).
Proof. unfold remove_pane_from_floating_pane. keep. Qed.

Lemma faithful_new_floating_focus set floating pane_id (can_draw : bool) : faithful (fun c =>
  (let c := clear_floating_pane_zoom floating c in
   if can_draw then apply_floating_pane_focus set floating pane_id c
   else ([], update_floating_pane_focused_pane floating pane_id c)).2).
Proof.
  destruct can_draw; cbv zeta; cbn [snd].
  - apply (faithful_then (clear_floating_pane_zoom floating) (fun c => (apply_floating_pane_focus set floating pane_id c).2)); auto with faithful.
  - apply (faithful_then (clear_floating_pane_zoom floating) (update_floating_pane_focused_pane floating pane_id)); auto with faithful.
Qed.

Lemma keeps_new_pane_in_floating l new_pane_id floating tree focus_client_id spec :
  keeps l (commit_new_pane_in_floating_pane new_pane_id floating tree focus_client_id spec).
Proof. unfold commit_new_pane_in_floating_pane. keep. apply keeps_on_client, faithful_new_floating_focus. Qed.

Lemma keeps_show_new l id floating : keeps l (show_new_floating_pane id floating).
Proof.
  unfold show_new_floating_pane. keep. apply keeps_on_client. eapply faithful_ext; [|apply (faithful_focus_floating floating)].
  intros c'. cbv beta. by destruct (focus_floating_pane floating c').
Qed.
#[local] Hint Resolve keeps_show_new : keeps.

(** A new tab, under an id of its own. *)
Lemma whole_commit_new_tab l new_tab_id new_pane_id name focus_client_id spec tab_size s :
  tabs s !! new_tab_id = None -> whole l s ->
  whole l (commit_new_tab new_tab_id new_pane_id name focus_client_id spec tab_size s).2.
Proof.
  intros Hnew Hs. unfold commit_new_tab. apply (whole_after l); [by apply (whole_quiet _ _ _ (quiet_register new_pane_id spec))|intros Hs1].
  apply (whole_after l); [by apply whole_add_new_tab|]. match goal with |- whole _ ?s2 -> _ => generalize s2 end.
  match goal with |- forall s2, whole _ s2 -> whole _ (?m s2).2 => change (keeps l m) end. keep.
  apply keeps_on_client.
  apply (faithful_then (update_active_tab_id new_tab_id) (fun c => (apply_tiled_pane_focus (floating_set _) new_tab_id new_pane_id c).2));
    auto with faithful.
Qed.

Lemma whole_commit_profile_tab l tab p name tab_size s :
  tabs s !! tab = None -> whole l s -> whole l (commit_profile_tab tab p name tab_size s).2.
Proof.
  intros Hnew Hs. unfold commit_profile_tab. cbn [snd]. set (s1 := foldl _ s _).
  assert (whole l s1) as Hs1 by exact (whole_quiet _ _ _ (quiet_registers (zip (profile_pane_ids p) (new_pane_specs p))) Hs).
  assert (tabs s1 = tabs s) as Et.
  { subst s1. generalize (zip (profile_pane_ids p) (new_pane_specs p)). clear. intros entries. revert s.
    induction entries as [|entry entries IH]; intros s; [done|]. cbn [foldl]. by rewrite IH. }
  apply whole_add_new_tab; [by rewrite Et|done..].
Qed.

(** What is known when a new floating pane is made: its id is unused, and the
    sizing it is solved with is that of the session. *)
Definition knowing (sizing : PaneSizing) (id : FloatingPaneId) : Lapse :=
  MkLapse (fun _ => False) (fun _ => False) False (Some sizing) (fun i => i = id).

Lemma whole_knowing id s : id ∉ floating_pane_id <$> floating_set s -> whole no_lapse s -> whole (knowing (pane_sizing s) id) s.
Proof. intros Hn [T D Z F U N C W]. split; [exact T|exact D|by intros z [= <-]|exact F|by intros i ->|exact N|exact C|exact W]. Qed.

Lemma moves_add_floating sizing id pane_id desired solved positions :
  moves (knowing sizing id) no_lapse (session_add_floating_pane (from_pane id pane_id desired solved sizing) positions).
Proof.
  intros s Hs. assert (whole (forget_unused (knowing sizing id)) (session_add_floating_pane (from_pane id pane_id desired solved sizing) positions s).2) as Hw.
  { apply whole_add_floating; [by apply (whole_unused _ _ Hs)|done| |done]. by rewrite (whole_sizing _ _ Hs sizing eq_refl). }
  revert Hw. by apply whole_weaken.
Qed.

Lemma whole_commit_new_floating floating new_pane_id desired solved acting_view spec s :
  floating ∉ floating_pane_id <$> floating_set s -> whole no_lapse s ->
  whole no_lapse (commit_new_floating_pane floating new_pane_id desired solved acting_view spec s).2.
Proof.
  intros Hnew Hs. unfold commit_new_floating_pane. unfold bind at 1. cbn [reads].
  apply (moves_then (knowing (pane_sizing s) floating) no_lapse no_lapse); [apply moves_add_floating| |by apply whole_knowing].
  intros refused. match goal with |- moves _ _ ?m => change (keeps no_lapse m) end. keep.
Qed.

(** *** Placements *)

Lemma keeps_lifted_tab l c tab pane_id : keeps l (find_lifted_tab_pane_rect c tab pane_id).
Proof. unfold find_lifted_tab_pane_rect. keep. Qed.

Lemma keeps_lifted_member l c floating pane_id : keeps l (find_lifted_floating_pane_member_rect c floating pane_id).
Proof. unfold find_lifted_floating_pane_member_rect. keep. Qed.
#[local] Hint Resolve keeps_lifted_tab keeps_lifted_member : keeps.

Lemma keeps_lifted l id area_id pane_id : keeps l (find_lifted_floating_pane_rect id area_id pane_id).
Proof. unfold find_lifted_floating_pane_rect. keep. Qed.
#[local] Hint Resolve keeps_lifted : keeps.

Lemma keeps_insertion l c r pane_id : keeps l (find_insertion_under_rect_center c r pane_id).
Proof. unfold find_insertion_under_rect_center. keep. Qed.
#[local] Hint Resolve keeps_insertion : keeps.

Lemma keeps_dock_target l c pane_id : keeps l (find_nearest_dock_target c pane_id).
Proof. unfold find_nearest_dock_target. keep. Qed.

Lemma keeps_floating_dock_target l c floating : keeps l (find_nearest_floating_pane_dock_target c floating).
Proof. unfold find_nearest_floating_pane_dock_target. keep. Qed.
#[local] Hint Resolve keeps_dock_target keeps_floating_dock_target : keeps.

Lemma keeps_move_client l id tab pane_id previous : keeps l (move_client_onto_tiled_pane id tab pane_id previous).
Proof.
  unfold move_client_onto_tiled_pane. keep. apply keeps_on_client.
  apply (faithful_then (fun c => update_active_tab_id tab (clear_zoom tab c)) (fun c => (focus_tiled_pane tab pane_id c).2)); [|auto with faithful].
  apply (faithful_then (clear_zoom tab) (update_active_tab_id tab)); auto with faithful.
Qed.
#[local] Hint Resolve keeps_move_client : keeps.

Lemma keeps_tab_solves l solved tab_ids : keeps l (update_tab_solves solved tab_ids).
Proof. revert solved. induction tab_ids as [|tab tab_ids IH]; intros solved; cbn [update_tab_solves]; keep. Qed.
#[local] Hint Resolve keeps_tab_solves : keeps.

Lemma keeps_lifted_positions l source pane_id acting_view : keeps l (list_lifted_positions source pane_id acting_view).
Proof. unfold list_lifted_positions. keep. Qed.
#[local] Hint Resolve keeps_lifted_positions : keeps.

(** An undocked pane, in a floating pane under an id of its own. *)
Lemma whole_commit_undock floating source pane_id desired solved acting_view s :
  floating ∉ floating_pane_id <$> floating_set s -> whole no_lapse s ->
  whole no_lapse (commit_undock_placement floating source pane_id desired solved acting_view s).2.
Proof.
  intros Hnew Hs. unfold commit_undock_placement. unfold bind at 1. cbn [reads].
  destruct (check_undock s source pane_id acting_view.1); [done|].
  apply (moves_then (knowing (pane_sizing s) floating) (knowing (pane_sizing s) floating) no_lapse);
    [apply keeps_lifted_positions|intros positions|by apply whole_knowing]. cbv zeta.
  destruct source as [tab|source].
  - apply (moves_then _ no_lapse no_lapse); [apply moves_add_floating|intros refused].
    match goal with |- moves _ _ ?m => change (keeps no_lapse m) end. keep.
  - apply (moves_then _ (knowing (pane_sizing s) floating) no_lapse); [apply keeps_floating_rects|intros rects].
    apply (moves_then _ (knowing (pane_sizing s) floating) no_lapse); [apply keeps_remove_leaf|intros events].
    apply (moves_then _ no_lapse no_lapse); [apply moves_add_floating|intros refused].
    match goal with |- moves _ _ ?m => change (keeps no_lapse m) end. keep.
Qed.

Lemma whole_insert_floating_history l destination is_stacked moving entry s :
  whole l s -> whole l (insert_floating_history destination is_stacked moving entry s).
Proof.
  intros Hs. unfold insert_floating_history. destruct entry as [id history]. apply whole_update_client; [|done].
  apply (faithful_when (fun c => length (list_focus_history c destination)) (fun count c =>
    if negb (bool_decide (id ∈ moving_client_id <$> moving)) && (is_stacked || (count =? 0)%nat) then c
    else insert_panes_into_focus_history destination (if bool_decide (id ∈ moving_client_id <$> moving) then 1%nat else count) history c)).
  intros count. destruct (negb _ && _); auto with faithful.
Qed.

Lemma keeps_floating_histories l destination is_stacked moving (entries : list (ClientId * list PaneId)) :
  keeps l (changes (fun s => foldl (fun s entry => insert_floating_history destination is_stacked moving entry s) s entries)).
Proof.
  apply keeps_changes. induction entries as [|entry entries IH]; intros s Hs; [done|]. cbn [foldl].
  by apply IH, whole_insert_floating_history.
Qed.
#[local] Hint Resolve keeps_floating_histories : keeps.

Lemma keeps_commit_dock l source destination tree target acting : keeps l (commit_dock_placement source destination tree target acting).
Proof. unfold commit_dock_placement. keep. Qed.

Lemma faithful_clear_zooms pane_id (swapped : option PaneId) : faithful (fun c =>
  let c := clear_zoom_of_pane pane_id c in match swapped with Some p => clear_zoom_of_pane p c | None => c end).
Proof.
  destruct swapped as [p|]; [|auto with faithful].
  apply (faithful_then (clear_zoom_of_pane pane_id) (clear_zoom_of_pane p)); auto with faithful.
Qed.
#[local] Hint Resolve faithful_clear_zooms : faithful.

Lemma keeps_commit_cross_tab l source destination pane_id p acting : keeps l (commit_cross_tab_placement source destination pane_id p acting).
Proof. unfold commit_cross_tab_placement. keep. Qed.

(** *** Reads *)

Lemma keeps_validate l : keeps l validate_session_consistency.
Proof. unfold validate_session_consistency, check_client. keep. Qed.

Lemma keeps_read_target l (find : Client -> session_op (option TiledPlacementTarget)) id :
  (forall c, keeps l (find c)) -> keeps l (read_dock_target find id).
Proof. intros Hf. unfold read_dock_target. keep. Qed.

Lemma keeps_take_view_changes l : keeps l take_view_changes.
Proof.
  intros s Hs. unfold take_view_changes, take_changed_client_ids. cbv zeta.
  change (has_client_write (clients s <| detached_client_ids := [] |>)) with (has_client_write (clients s)).
  destruct (has_client_write (clients s)); cbn [snd];
    apply (whole_clients l (s <| view_changes := no_view_changes |>)); try (by apply (whole_quiet _ _ _ (quiet_view_changes (fun _ => no_view_changes))));
    intros id c'; unfold find_client, get_client_by_id; cbn.
  - rewrite lookup_fmap. destruct (_ !! id) as [c|]; [|done]. intros [= <-]. exists (fun c => c <| is_view_changed := false |>), c.
    split_and!; [done..|]. by apply faithful_same.
  - intros Hc. exists (fun c => c), c'. split_and!; [done..|apply faithful_same_client].
Qed.
End Operations.

(** ** Runs *)

#[export] Instance kept_solves_keep : KeepingStore kept_solves.
Proof.
  split; intros l id x s Hs; cbn [compute_client_solve compute_client_floating_pane_solve kept_solves].
  - unfold kept_client_solve. destruct (tabs s !! x) as [t|], (find_client s id) as [c|]; try done.
    destruct (x =? active_tab_id c); [|done]. apply whole_fill; [by apply faithful_same|done].
  - unfold kept_floating_solve. destruct (find_floating_pane_by_id (floating_set s) x) as [[i f]|], (find_client s id) as [c|] eqn:Ec; try done.
    destruct (view_by_floating_pane_id c !! x) as [w|] eqn:Ew; [|done]. cbv zeta. cbn [snd].
    set (own := get_or_init (own_solve w) (build_own_floating_solve s f (floating_pane_view w))). unfold fill_cell.
    apply whole_clients; [|done]. intros j c'. unfold find_client, get_client_by_id in *. cbn.
    destruct (decide (id = j)) as [<-|Hne].
    + rewrite lookup_alter_eq, Ec. cbn. intros [= <-].
      exists (fun c => match view_by_floating_pane_id c !! x with
        | Some w => c <| view_by_floating_pane_id := <[x := w <| own_solve := Some own |>]> (view_by_floating_pane_id c) |>
        | None => c end), c. rewrite Ew. split_and!; [done..|].
      apply faithful_same. intros c0. destruct (view_by_floating_pane_id c0 !! x) as [w0|] eqn:E0; [|done]. split; [done| |done..].
      intros k. unfold get_floating_pane_view. cbn. destruct (decide (x = k)) as [<-|Hk]; [by rewrite lookup_insert_eq, E0|by rewrite lookup_insert_ne].
    + rewrite lookup_alter_ne by done. intros ->. exists (fun c => c), c'. split_and!; [done..|apply faithful_same_client].
Qed.

(** What the server passes, beside what [step_allowed] says: a client that
    attaches views no floating pane yet, a saved view lists each shown floating
    pane once and is restored over the floating panes there are, views are
    added and removed with their floating panes, and a floating pane that is
    made has an id of its own. *)
Definition step_fits (s : Session) (step : SessionStep) : Prop :=
  match step with
  | AttachClient c =>
      view_by_floating_pane_id c = ∅ /\ shown_floating_pane_ids c = [] /\ focused_floating_pane_id c = None
  | EditClient _ (ReplaceFloatingView _ shown set) => NoDup shown /\ set = floating_set s
  | EditClient _ e => keeps_views e = true
  | CommitNewFloatingPane floating _ _ _ _ _ | CommitUndock floating _ _ _ _ _ =>
      floating ∉ floating_pane_id <$> floating_set s
  | _ => True
  end.

Fixpoint run_fits `{SolveStore} (steps : list SessionStep) (s : Session) : Prop :=
  match steps with
  | [] => True
  | step :: steps => step_fits s step /\ run_fits steps (run_step step s).2
  end.

Lemma added_views (set : FloatingSet) c :
  client_whole c ->
  let c1 := foldl (fun c f => add_floating_pane_view f DefaultPosition c) c set in
  client_id c1 = client_id c /\ client_whole c1
  /\ forall i, is_Some (get_floating_pane_view c1 i) <-> is_Some (get_floating_pane_view c i) \/ i ∈ floating_pane_id <$> set.
Proof.
  revert c. induction set as [|f set IH]; intros c Hc; cbv zeta; cbn [foldl fmap list_fmap]; [split_and!; [done..|set_solver]|].
  destruct (IH _ (add_view_whole f DefaultPosition c Hc)) as (I & W & V). split_and!; [by rewrite I, add_view_id|done|].
  intros i. rewrite V, add_view_dom, elem_of_cons. tauto.
Qed.

Lemma whole_attach c s :
  view_by_floating_pane_id c = ∅ -> shown_floating_pane_ids c = [] -> focused_floating_pane_id c = None ->
  whole no_lapse s -> whole no_lapse (attach_client c s).2.
Proof.
  intros Hv Hl Hf Hs. assert (forall i, get_floating_pane_view c i = None) as Hnone.
  { intros i. unfold get_floating_pane_view. by rewrite Hv, lookup_empty. }
  assert (client_whole c) as Hc.
  { split; rewrite ?Hl, ?Hf; [|constructor|done]. intros i. rewrite Hnone. cbn. set_solver. }
  unfold attach_client. destruct (added_views (floating_set s) c Hc) as (I & W & V). set (c1 := foldl _ c _) in *.
  cbn [registry_attach_client snd]. apply (whole_quiet _ _ _ (quiet_lifecycle ClientAttached)).
  destruct Hs as [T D Z F U N C K]. split; [exact T|exact D|exact Z|exact F|exact U|exact N|exact C|].
  intros i c'. unfold find_client, get_client_by_id. cbn. intros [[<- <-]|[_ Hc']]%lookup_insert_Some; [|apply (K i c' Hc')].
  split_and!; [done| |].
  - apply (same_shown_whole c1); [done|exact W].
  - intros j. etransitivity; [exact (V j)|]. rewrite Hnone. unfold is_Some. naive_solver.
Qed.

Lemma whole_detach id s : whole no_lapse s -> whole no_lapse (detach_client id s).2.
Proof.
  intros Hs. unfold detach_client. destruct (registry_detach_client id (clients s)) as [d r] eqn:E.
  assert (whole no_lapse (s <| clients := r |>)) as Hw.
  { apply (whole_clients no_lapse s); [|done]. intros i c' Hc'. exists (fun c => c), c'.
    split_and!; [|done|apply faithful_same_client]. unfold find_client, get_client_by_id. unfold registry_detach_client in E.
    destruct (client_by_id (clients s) !! id); injection E as _ <-; [|done]. cbn in Hc'. by apply lookup_delete_Some in Hc' as [_ ?]. }
  cbn [snd]. destruct (negb _); [|done]. by apply (whole_quiet _ _ _ (quiet_lifecycle LastClientDetached)).
Qed.

Lemma whole_replace id saved shown s :
  NoDup shown -> whole no_lapse s ->
  whole no_lapse (change_clients (update_client id (replace_floating_view saved shown (floating_set s))) s).
Proof.
  intros Hn [T D Z F U N C W]. split; [exact T|exact D|exact Z|exact F|exact U|exact N|exact C|].
  intros i c'. unfold find_client, get_client_by_id. cbn. destruct (decide (id = i)) as [<-|Hne].
  - rewrite lookup_alter_eq. destruct (client_by_id (clients s) !! id) as [c|] eqn:Ec; [|done]. cbn. intros [= <-].
    destruct (replace_view_whole saved shown (floating_set s) c Hn) as (Hw & Hi & V). split_and!; [|done|exact V].
    rewrite Hi. by destruct (W id c Ec).
  - rewrite lookup_alter_ne by done. apply W.
Qed.

Lemma whole_desired_size floating size s :
  whole no_lapse s ->
  whole no_lapse (change_floating_set (fun set => (update_floating_pane_desired_size floating size set).2) s).
Proof.
  intros Hs. apply (whole_floating_set no_lapse); [by apply update_floating_ids|done..| |done].
  intros g [Hg|(j & g0 & Hg0 & ->)]%elem_of_update_floating; [exact (whole_floating _ _ Hs g Hg)|].
  exact (whole_floating _ _ Hs g0 (find_floating_elem _ _ _ _ Hg0)).
Qed.

Lemma whole_run_step {store : SolveStore} {keeping : KeepingStore store} step s :
  step_allowed s step -> step_fits s step -> whole no_lapse s -> whole no_lapse (run_step step s).2.
Proof.
  assert (forall A (answer : A -> SessionAnswer) (m : session_op A) s, whole no_lapse (m s).2 -> whole no_lapse (answering answer m s).2) as Ha.
  { intros A answer m s0 H. unfold answering, bind. by destruct (m s0). }
  intros Hok Hfits Hs. destruct step; cbn [run_step step_allowed step_fits] in *; apply Ha;
    first
    [ by destruct Hfits as (? & ? & ?); apply whole_attach | by apply whole_commit_new_tab | by apply whole_commit_profile_tab
    | by apply whole_detach | by apply whole_commit_new_floating | by apply whole_commit_undock | by apply whole_desired_size
    | by apply keeps_update_tab_solve | by apply keeps_update_tab_layout | by apply keeps_pane_sizing | by apply keeps_floating_sizes
    | by apply keeps_floating_layout | by apply keeps_close_tab | by apply keeps_focus_tab | by apply keeps_move_tab
    | by apply keeps_land_focus | by apply keeps_commit_new_pane | by apply keeps_new_pane_in_floating | by apply keeps_cascade
    | by apply keeps_child_exit | by apply keeps_remove_from_floating | by apply keeps_remove_floating | by apply keeps_commit_dock
    | by apply keeps_commit_cross_tab | exact (whole_quiet _ _ _ (quiet_lifecycle StopRequested) Hs)
    | exact (whole_quiet _ _ _ (quiet_lifecycle StopCompleted) Hs) | by apply keeps_take_view_changes
    | by apply keeps_client_solve | by apply keeps_floating_solve | by apply keeps_lifted
    | by apply keeps_read_target; [intros c; apply keeps_dock_target|]
    | by apply keeps_read_target; [intros c; apply keeps_floating_dock_target|] | by apply keeps_validate | idtac ].
  destruct e; try (by apply whole_update_client; [apply faithful_edit|]). destruct Hfits as [Hn ->]. by apply whole_replace.
Qed.

Lemma whole_run_steps {store : SolveStore} {keeping : KeepingStore store} steps s :
  run_allowed steps s -> run_fits steps s -> whole no_lapse s -> whole no_lapse (run_steps steps s).2.
Proof.
  revert s. induction steps as [|step steps IH]; intros s; [done|]. intros [Hok Hrest] [Hfits Hfit] Hs. cbn [run_steps].
  pose proof (whole_run_step step s Hok Hfits Hs) as H1. destruct (run_step step s) as [answer s1].
  specialize (IH s1 Hrest Hfit H1). by destruct (run_steps steps s1).
Qed.

Lemma whole_new_session id name created epoch :
  whole no_lapse (from_identity_and_client_registry id name created empty_client_registry epoch).
Proof.
  split.
  - intros k t Ht. cbn in Ht. unfold tabs in Ht. cbn in Ht. by rewrite lookup_empty in Ht.
  - intros _. exists []. intros i k. split; [done|]. intros (t & Ht & _). cbn in Ht. unfold tabs in Ht. cbn in Ht. by rewrite lookup_empty in Ht.
  - done.
  - intros f. cbn. by intros ?%elem_of_nil.
  - by intros i [].
  - constructor.
  - cbn. unfold MAX_FLOATING_PANES_PER_SESSION. lia.
  - intros i c Hc. unfold find_client, get_client_by_id in Hc. cbn in Hc. by rewrite lookup_empty in Hc.
Qed.

(** The conditions no run breaks: the other ones depend on the panes and layout
    trees the server passes. *)
Definition is_kept_by_runs (e : SessionConsistencyError) : bool :=
  match e with
  | TabKeyMismatch _ _ | TabSolveStale _ | DuplicateTabIndex _ | TooManyFloatingPanes _ | DuplicateFloatingPaneId _
  | FloatingPaneSolveSizeStale _ _ _ | FloatingPaneSolveStale _ | FloatingViewTargetMissing _ _ | FloatingViewMissing _ _
  | FloatingPaneShownStateMismatch _ _ _ | ShownFloatingPaneMissing _ _ | DuplicateShownFloatingPane _ _
  | FloatingFocusNotNewestShown _ _ _ => true
  | _ => false
  end.

Lemma whole_violates s e : whole no_lapse s -> violates s e -> is_kept_by_runs e = false.
Proof.
  intros [T D Z F U N C W]. destruct (D (fun H => H)) as [ids Hd].
  intros [Ht|[Hf|(c & Hc & Hv)]].
  - destruct e; cbn [tabs_violate is_kept_by_runs] in *; try done.
    + destruct Ht as (t & Ht & <- & Hne). by destruct (T _ t Ht) as [<- _].
    + destruct Ht as (k & k' & t & t' & Hne & Ht & Ht' & Hi & Hi').
      assert (ids !! tab_index = Some k) as H1 by (apply Hd; by exists t).
      assert (ids !! tab_index = Some k') as H2 by (apply Hd; by exists t'). congruence.
    + destruct Ht as (t & Ht & Hne). destruct (T _ t Ht) as [_ Hs]. exfalso. apply Hne, Hs. by intros [].
  - destruct e; cbn [floating_set_violates is_kept_by_runs] in *; try done.
    + destruct Hf as [-> Hlt]. lia.
    + destruct Hf as (i & j & f & f' & Hij & Hi & Hj & <- & E). exfalso. apply Hij.
      apply (NoDup_lookup _ i j (LayoutAreas.floating_pane_id f) N); rewrite list_lookup_fmap.
      * exact (f_equal (option_map LayoutAreas.floating_pane_id) Hi).
      * rewrite <- E. exact (f_equal (option_map LayoutAreas.floating_pane_id) Hj).
    + destruct Hf as (f & Hf & _ & <- & <- & Hne). by destruct (F f Hf) as [? _].
    + destruct Hf as (f & Hf & _ & Hne). destruct (F f Hf) as [_ Hs]. exfalso. apply Hne, Hs. by intros [].
  - apply elem_of_btree_values in Hc as [id Hc]. destruct (W id c Hc) as (_ & [S NS FS] & V).
    destruct e; cbn [client_violates is_kept_by_runs] in *; try done.
    + destruct Hv as (_ & (v & Hv & _) & Hn). exfalso. apply Hn, V. by exists v.
    + destruct Hv as (_ & Hin & Hn). apply V in Hin as [v Hin]. congruence.
    + destruct Hv as (_ & Hin & Hn). exfalso. apply Hn, V. apply S in Hin. destruct (get_floating_pane_view c _); [by eexists|done].
    + destruct Hv as (_ & i & j & Hij & Hi & Hj). exfalso. apply Hij. by eapply (NoDup_lookup _ _ _ _ NS).
    + destruct Hv as (_ & _ & v & Hv & <- & Hm). specialize (S floating_pane_id). rewrite Hv in S. cbn in S.
      destruct (is_minimized v); [|naive_solver]. exfalso. assert (Some true = Some false) by (apply S; by apply Hm). done.
    + destruct Hv as (_ & <- & <- & Hne). congruence.
Qed.

Lemma whole_emptied s : whole no_lapse s -> whole no_lapse (emptied_session s).
Proof.
  intros Hs. apply (whole_clients no_lapse s); [|done]. intros i c' Hc'. cbn in Hc'. rewrite lookup_fmap in Hc'.
  unfold find_client, get_client_by_id. destruct (client_by_id (clients s) !! i) as [c|]; [|done]. cbn in Hc'. injection Hc' as <-.
  exists emptied, c. split_and!; [done..|]. apply faithful_same. intros c0. split; [done| |done..]. intros k. by rewrite emptied_get_view.
Qed.

(** C2: Runs keep the session whole. From a new session, whatever operations
    run, with clients that attach without floating views, saved views restored
    over the floating panes there are and listing each shown one once, floating
    panes and tabs made under ids of their own, and a client's view of a
    floating pane made and removed by the session only: the tabs stand at the positions 0, 1, 2, ... of the bar;
    and the consistency check never reports a tab under another id, a tab or a
    floating pane whose kept solve is not the solve of its tree at its size, two
    tabs at a position, two floating panes under an id or more than twelve, a
    client without a view of a floating pane or with one of none, or a client
    whose shown floating panes are not the ones it has not minimized, each once,
    the focused one last. *)
Theorem runs_keep_the_session_whole id name created epoch steps :
  let s := from_identity_and_client_registry id name created empty_client_registry epoch in
  run_allowed (H := kept_solves) steps s -> run_fits (H := kept_solves) steps s ->
  let s1 := (run_steps (H := kept_solves) steps s).2 in
  (exists ids, display s1 ids)
  /\ forall e, e ∈ (validate_session_consistency (H := kept_solves) s1).1 -> is_kept_by_runs e = false.
Proof.
  intros s Hok Hfits s1. pose proof (whole_run_steps steps s Hok Hfits (whole_new_session id name created epoch)) as Hw.
  fold s1 in Hw. split; [apply (whole_display _ _ Hw); by intros []|].
  destruct (tracks_steps steps s (current_new_session id name created epoch) Hok) as [_ Hc]. fold s1 in Hc.
  destruct (tracks_validate s1 Hc) as [E _ _]. rewrite <- E. intros e He%validate_reports.
  by apply (whole_violates (emptied_session s1)); [apply whole_emptied|].
Qed.

Lemma runs_keep_the_session_whole_witness :
  run_allowed (H := kept_solves) example_steps example_session /\ run_fits (H := kept_solves) example_steps example_session
  /\ exists ids, display (run_steps (H := kept_solves) example_steps example_session).2 ids.
Proof.
  assert (run_allowed (H := kept_solves) example_steps example_session) as Hok by (vm_compute; repeat split; reflexivity).
  assert (run_fits (H := kept_solves) example_steps example_session) as Hfits.
  { cbn [run_fits example_steps step_fits]. split_and!; try done. vm_compute. by intros ?%elem_of_nil. }
  split; [exact Hok|]. split; [exact Hfits|].
  exact (proj1 (runs_keep_the_session_whole 7 "s" 0 0 example_steps Hok Hfits)).
Defined.

(** C3: A tab moves to the place asked for. Where the bar shows the tabs [ids],
    moving a tab of it to another place of the bar shows the others in their
    order with the tab put in at that place, and answers with the one event that
    says so; a place outside the bar, or the tab's own, changes nothing. *)
Theorem move_tab_moves_one_tab s target t index ids :
  display s ids -> tabs s !! target = Some t ->
  if (length ids <=? index)%nat || (index =? tab_index t)%nat then move_tab target index s = ([], s)
  else (move_tab target index s).1 = [TabMoved target (tab_index t) index]
    /\ display (move_tab target index s).2 (moved_in_bar target index ids).
Proof.
  intros Hd Ht. destruct ((length ids <=? index)%nat || (index =? tab_index t)%nat) eqn:E.
  - unfold move_tab. by rewrite Ht, <- (display_length _ _ Hd), E.
  - apply orb_false_iff in E as [Hl%Nat.leb_gt Hi%Nat.eqb_neq]. by apply move_tab_display.
Qed.

(** *** An example bar *)

Definition example_tab (id : TabId) (pane_id : PaneId) : Tab :=
  tab_from_layout_tree id "tab" (N.to_nat id) (Pane pane_id) (MkSize 80 22) default_pane_sizing.

Definition example_bar : Session :=
  reindex_tabs_by_display_index
    (example_session <| tabs := {[ 10 := example_tab 10 1; 20 := example_tab 20 2; 30 := example_tab 30 3 ]} |>).

Lemma move_tab_moves_one_tab_witness :
  (move_tab 30 0 example_bar).1 = [TabMoved 30 2 0] /\ display (move_tab 30 0 example_bar).2 [30; 10; 20].
Proof.
  assert (display example_bar [10; 20; 30]) as Hd.
  { assert (list_tab_ids_in_display_order
      (example_session <| tabs := {[ 10 := example_tab 10 1; 20 := example_tab 20 2; 30 := example_tab 30 3 ]} |>) = [10; 20; 30]) as E
      by (vm_compute; reflexivity).
    rewrite <- E. apply reindex_display. }
  assert (tabs example_bar !! 30 = Some (example_tab 30 3 <| tab_index := 2%nat |>)) as Ht by (vm_compute; reflexivity).
  exact (move_tab_moves_one_tab example_bar 30 _ 0 [10; 20; 30] Hd Ht).
Defined.
